(* ===== verification/_CoqProject ===== *)
-Q . S2P
Prelude.v
Params.v
Kmonad.v
Ring.v
Cstring.v
Printf.v
Grep.v
Console.v
ConsoleSpec.v
Kbd.v
Spinlock.v
Kalloc.v
Vm.v
VmSpec.v
VmUser.v
VmCopy.v
VmKern.v
Bio.v
BioSpec.v
BioInit.v
Ide.v
Log.v
LogSpec.v
LogCrash.v
LogOps.v
Fs.v
FsTxn.v
FsAlloc.v
FsFree.v
FsInode.v
FsFile.v
FsRw.v
FsDir.v
Mkfs.v
MkfsSpec.v
MkfsImage.v
ConsoleDev.v
Pipe.v
Kstate.v
File.v
FileSpec.v
Proc.v
ProcSpec.v
ProcTable.v
ProcExit.v
Syscall.v
Sysfile.v
Exec.v
Trap.v
Asm.v
AsmSpec.v
Segments.v
Boot.v
SyscallSpec.v
SysfileSpec.v
ExecSpec.v
Sh.v
ShSpec.v
ShPrint.v
User.v
ShRun.v
Uprogs.v
Ls.v
Utests.v
InitSpec.v
Umalloc.v
Mp.v
Devices.v
Uart.v
Main.v
Startup.v
Kmain.v
Os.v
OsSpec.v
OsInv.v
OsRefine.v
Usertests.v
UtFork.v
UtPipe.v
UtRun.v
