(* ===== verification/Prelude.v ===== *)
(** * A verification of xv6: kernel, user programs, boot code and tools

    The program is the teaching system xv6 for the x86: a kernel in C with a few assembly
    files, the boot loader, the tool mkfs that makes the first disk image, a C library and
    the user programs, all under src/.  This library is a shallow embedding of that code:
    each C function is a Rocq function of the same name, each structure a record, and the
    theorems are about these functions.

    ** How the parts interact

    The boot sector (bootasm.S, bootmain.c) loads the kernel from the disk; entry.S turns
    paging on and main.c initialises one component after the other and starts the other
    processors (entryother.S).  A trap from user space goes through the vectors and
    trapasm.S to trap() and, for a system call, to syscall() and the sys_ routines; they
    use the process table (proc.c), the file table and pipes (file.c, pipe.c), the file
    system (fs.c), which writes through the log (log.c), which writes through the buffer
    cache (bio.c), which uses a disk driver (ide.c or memide.c); user memory is reached
    through page tables (vm.c) whose pages come from the page allocator (kalloc.c).  All
    of them wait with sleep() and wakeup() and exclude each other with spin locks.  User
    programs see only the system calls.

    ** The common vocabulary

    - Prelude.v: machine integers as [Z] with the conversions of C written out ([u8],
      [u16], [u32], [i16], [i32]); arrays as lists; the hint databases [xv6]; tactics.
    - Params.v: the constants of param.h, memlayout.h, mmu.h, fs.h, stat.h, fcntl.h, buf.h.
    - Kmonad.v: the kernel monad.  A kernel routine is a function from the context of the
      CPU and the state of its component to an outcome: it returns, goes to sleep (with
      what is left to do), or panics.
    - Ring.v: buffers with free-running 32-bit indices, shared by the console and pipes.

    ** Which file models which source

    - Cstring.v: string.c and ulib.c on byte memory.  Printf.v: printf.c.
    - Console.v, ConsoleSpec.v, ConsoleDev.v: console.c.  Kbd.v: kbd.c, kbd.h.  Uart.v:
      uart.c over the registers of the chip.
    - Spinlock.v: spinlock.c, with CPUs interleaved at each atomic access.
    - Kalloc.v: kalloc.c, the free list threaded through the free pages.
    - Vm.v, VmSpec.v, VmUser.v, VmCopy.v, VmKern.v: vm.c, page tables as words of memory.
      Segments.v: the descriptor tables (seginit, switchuvm, tvinit, idtinit).
    - Bio.v, BioSpec.v, BioInit.v: bio.c over memide.c.  Ide.v: ide.c over the registers of
      a controller.
    - Log.v, LogSpec.v, LogCrash.v, LogOps.v: log.c.
    - Fs.v (all routines of fs.c) and FsTxn, FsAlloc, FsFree, FsInode, FsFile, FsRw,
      FsDir: what its layers do, from blocks to directories.
    - Mkfs.v, MkfsSpec.v, MkfsImage.v: mkfs.c.
    - Kstate.v: the state of the kernel as a whole (proc.h, file.h); Pipe.v, File.v: pipe.c
      and file.c; Proc.v: proc.c; Syscall.v, Sysfile.v, Exec.v, Trap.v: syscall.c,
      sysproc.c, sysfile.c, exec.c, trap.c; FileSpec, ProcSpec, ProcTable, ProcExit,
      SyscallSpec, SysfileSpec, ExecSpec: their theorems.
    - Asm.v, AsmSpec.v: swtch.S, trapasm.S, vectors.S, usys.S, initcode.S on a
      machine of registers, flags and memory.
    - Mp.v: mp.c.  Devices.v: lapic.c, ioapic.c, picirq.c, timer.c.
    - Boot.v: bootmain.c.  Startup.v: bootasm.S, entry.S, entryother.S, asm.h.  Main.v:
      startothers, mpenter and mpmain of main.c.  Kmain.v: main() and userinit(); its
      record [machine] joins the kernel's state, the one memory, and the devices.
    - User.v: user programs as terms over the system calls, and a kernel seen from
      outside that carries them out.  Sh.v, ShSpec.v, ShPrint.v, ShRun.v:
      sh.c.  Uprogs.v, InitSpec.v: cat, wc, echo, kill, ln, mkdir, rm,
      zombie, init.  Ls.v: ls.c.  Grep.v, Utests.v: grep.c, forktest.c, stressfs.c.
      Umalloc.v: umalloc.c.
    - Os.v: the system calls as their callers see them, with any number of processes side
      by side; a schedule picks the process that moves next.  It is a specification, not a
      translation.  OsSpec.v: what happens on every schedule ([inevitably]); OsInv.v: what
      every schedule keeps; OsRefine.v: the code of the kernel that implements it.
      Usertests.v: usertests.c; UtFork.v, UtPipe.v, UtRun.v: that its tests pass.

    ** What the theorems show

    - Storage.  A crash at any sector write of a commit leaves, after recovery, all of the
      transaction or nothing of it (LogCrash, LogOps).  bread delivers the current contents
      of a sector (BioSpec), and the disk driver serves requests in order (Ide).  readi and
      writei implement files as byte arrays and leave all others alone, and what is written
      is read back (FsRw); dirlookup and dirlink implement directories (FsDir).  The image
      of mkfs, mounted, has the files it was given (MkfsImage).
    - Memory.  Pages are conserved (Kalloc); setupkvm and allocuvm build the mappings their
      comments promise (VmKern, VmUser).
    - Processes.  Sleep and wakeup as implemented are those the rest is written against; a
      round of the scheduler runs every ready process; an exit wakes the parent (ProcSpec,
      ProcExit); pids are unique (ProcTable); descriptors are counted (SysfileSpec); a
      failed exec changes nothing (ExecSpec); checked pointers lie in the process
      (SyscallSpec); spin locks exclude each other (Spinlock).
    - Machine level.  A trap and its return are transparent to the interrupted program,
      swtch resumes a context, a new process starts in user space (AsmSpec); every routine
      keeps registers in their widths (AsmSpec); the start-up code reaches protected mode
      and paging with the right tables (Startup, Main, Boot).
    - Start.  main() as a whole comes to the scheduler with every part initialised: page
      table, segments, gates, the other processors, interrupts, buffer cache, and a first
      process that is ready to run initcode.S (Kmain.main_boots).
    - System calls.  pipe.c implements the pipes of Os.v, dirlookup and dirlink its
      directories, and wait() and kill() its process table (OsRefine).  On every schedule
      pipe1 and forktest of usertests.c come to their end and find what they expect
      (UtPipe, UtFork); the other tests are computed on one schedule (UtRun).
    - Programs.  The shell's parser is total and inverts a printer of commands (ShSpec,
      ShPrint); the shell starts what was typed (ShRun); grep's matcher agrees with a
      reference semantics of patterns (Grep); ls prints the entries (Ls); malloc hands out
      blocks that do not overlap (Umalloc); init always has a shell (InitSpec).

    ** Fuel

    Loops that are not structural take fuel and have an outcome of their own when it runs
    out ([None], [diverge] or [Loops]).  Theorems that a routine returns give the fuel as a
    bound computed from the data (the length of a line, of a file, of a list), or fix it
    where the code has a bound of its own (NBUF buffers, NINODE entries, MAXFILE blocks).
    mpinit has 65536 rounds in main(): a configuration table has at most 65535 bytes, and
    an entry at least 8.  The runs of usertests.c are computed, so their fuel is enough
    because they end.  [inevitably] is inductive: it has no fuel.

    ** Not modelled
    - The thread interface (kthread.h and the monitor headers): declarations without an
      implementation in src/.  Prototypes and type names (defs.h, user.h, types.h).
    - vectors.S, which vectors.pl writes, is 256 times the same lines: one definition
      with the number as its argument.
    - Timing: delays (microdelay, the waits of the boot loader and of the interrupt
      controllers) have no effect; a device that is waited for is ready.  What a device
      answers is an argument of the routine that asks.
    - Some kernel messages: those of mpinit, ioapicinit and the mpmain of the other
      processors.  The console takes the serial port to be present, also before uartinit.
    - Interrupts between two statements of kernel code: a kernel routine is cut where it
      sleeps or is given up by the scheduler, and Spinlock.v is about several CPUs.
      While main() waits for another processor, that processor's own routine (mpenter) is
      a definition of its own and not interleaved with main().
    - Os.v is connected with the code of the kernel by theorems for pipes, directories,
      wait and kill, not for the other calls.  It has no kernel messages, and not the
      corner of kill(0) that ProcTable.v describes.  sharedfd of usertests.c is translated
      but neither computed nor proved.
    - The driver with queue (ide.c) is verified by itself; the file system is verified
      over memide.c, whose transfers are done when iderw returns.
*)

From stdpp Require Import base gmap list strings.
From Stdlib Require Import ZArith Lia.

Declare Scope xv6_scope.
Delimit Scope xv6_scope with xv6.
Global Open Scope Z_scope.
Global Open Scope xv6_scope.

(** ** Machine integers

    A C value of width w is a [Z]; the conversions below are the ones the
    compiler inserts at an assignment or a cast. *)

Definition wrap (w z : Z) : Z := z mod 2 ^ w.
Definition swrap (w z : Z) : Z :=
  let u := z mod 2 ^ w in if u <? 2 ^ (w - 1) then u else u - 2 ^ w.

Definition u8 : Z → Z := wrap 8.
Definition u16 : Z → Z := wrap 16.
Definition u32 : Z → Z := wrap 32.
Definition i8 : Z → Z := swrap 8.
Definition i16 : Z → Z := swrap 16.
Definition i32 : Z → Z := swrap 32.

Create HintDb xv6 discriminated.
Create Rewrite HintDb xv6.

Lemma u32_range z : 0 ≤ u32 z < 2 ^ 32.
Proof. apply Z.mod_pos_bound. lia. Qed.

Lemma u8_range z : 0 ≤ u8 z < 2 ^ 8.
Proof. apply Z.mod_pos_bound. lia. Qed.

Lemma u16_range z : 0 ≤ u16 z < 2 ^ 16.
Proof. apply Z.mod_pos_bound. lia. Qed.

Lemma u32_small z : 0 ≤ z < 2 ^ 32 → u32 z = z.
Proof. apply Z.mod_small. Qed.

Lemma u16_small z : 0 ≤ z < 2 ^ 16 → u16 z = z.
Proof. apply Z.mod_small. Qed.

Lemma u8_small z : 0 ≤ z < 2 ^ 8 → u8 z = z.
Proof. apply Z.mod_small. Qed.

Lemma swrap_small w z : 0 < w → - 2 ^ (w - 1) ≤ z < 2 ^ (w - 1) → swrap w z = z.
Proof.
  intros Hw Hz. unfold swrap.
  assert (Hp : 2 ^ w = 2 * 2 ^ (w - 1)).
  { replace w with (Z.succ (w - 1)) at 1 by lia. apply Z.pow_succ_r. lia. }
  destruct (decide (0 ≤ z)).
  - rewrite Z.mod_small by lia. destruct (Z.ltb_spec z (2 ^ (w - 1))); lia.
  - assert (Hm : z mod 2 ^ w = z + 2 ^ w).
    { symmetry. apply Z.mod_unique_pos with (-1); lia. }
    rewrite Hm. destruct (Z.ltb_spec (z + 2 ^ w) (2 ^ (w - 1))); lia.
Qed.

Lemma i32_small z : - 2 ^ 31 ≤ z < 2 ^ 31 → i32 z = z.
Proof. apply (swrap_small 32); lia. Qed.

Lemma i32_range z : - 2 ^ 31 ≤ i32 z < 2 ^ 31.
Proof.
  unfold i32, swrap. pose proof (Z.mod_pos_bound z (2 ^ 32) ltac:(lia)). destruct (Z.ltb_spec (z mod 2 ^ 32) (2 ^ (32 - 1))); lia.
Qed.

Lemma i16_small z : - 2 ^ 15 ≤ z < 2 ^ 15 → i16 z = z.
Proof. apply (swrap_small 16); lia. Qed.

Lemma u32_i32 z : u32 (i32 z) = u32 z.
Proof.
  unfold u32, i32, wrap, swrap. case_match; [by rewrite Z.mod_mod by lia|].
  rewrite <- (Z.mod_add (z mod 2 ^ 32 - 2 ^ 32) 1) by lia.
  by rewrite Z.mul_1_l, Z.sub_add, Z.mod_mod by lia.
Qed.

Lemma i32_u32 z : i32 (u32 z) = i32 z.
Proof. unfold i32, u32, swrap, wrap. by rewrite Z.mod_mod by lia. Qed.

Lemma u32_add_l a b : u32 (u32 a + b) = u32 (a + b).
Proof. apply Z.add_mod_idemp_l. lia. Qed.

Lemma u32_add_r a b : u32 (a + u32 b) = u32 (a + b).
Proof. apply Z.add_mod_idemp_r. lia. Qed.

Lemma u32_sub_l a b : u32 (u32 a - b) = u32 (a - b).
Proof. apply Zminus_mod_idemp_l. Qed.

Lemma u32_sub_r a b : u32 (a - u32 b) = u32 (a - b).
Proof. apply Zminus_mod_idemp_r. Qed.

#[export] Hint Rewrite u32_i32 i32_u32 u32_add_l u32_add_r u32_sub_l u32_sub_r : xv6.
#[export] Hint Resolve u8_range u16_range u32_range : xv6.

(** A flag test [x & m], as the conditions of the source use it. *)
Definition has (x m : Z) : bool := negb (Z.land x m =? 0).

Lemma land_pow2 x n : 0 ≤ n → Z.land x (2 ^ n) = if Z.testbit x n then 2 ^ n else 0.
Proof.
  intros Hn. apply Z.bits_inj'. intros i Hi.
  rewrite Z.land_spec, Z.pow2_bits_eqb by done.
  destruct (Z.eqb_spec n i) as [->|Hne].
  - destruct (Z.testbit x i); [by rewrite Z.pow2_bits_true|by rewrite Z.bits_0].
  - rewrite andb_false_r. destruct (Z.testbit x n); [|by rewrite Z.bits_0].
    by rewrite Z.pow2_bits_false.
Qed.

Lemma has_pow2 x n : 0 ≤ n → has x (2 ^ n) = Z.testbit x n.
Proof.
  intros Hn. unfold has. rewrite land_pow2 by done.
  pose proof (Z.pow_pos_nonneg 2 n ltac:(lia) Hn).
  destruct (Z.testbit x n); [|done].
  destruct (Z.eqb_spec (2 ^ n) 0); [lia|done].
Qed.

(** ** Byte arrays

    A C array of [uchar] is a [list Z] of its values; [l .[ i ]] reads it. *)

Definition nthz {A} (d : A) (l : list A) (i : nat) : A := default d (l !! i).
Notation "l .[ i ]" := (nthz 0 l i) (at level 1, left associativity, format "l .[ i ]") : xv6_scope.

Definition get16 (l : list Z) (o : nat) : Z := l.[o] + 2 ^ 8 * l.[o + 1].
Definition get32 (l : list Z) (o : nat) : Z :=
  l.[o] + 2 ^ 8 * l.[o + 1] + 2 ^ 16 * l.[o + 2] + 2 ^ 24 * l.[o + 3].
Definition put16 (l : list Z) (o : nat) (v : Z) : list Z :=
  <[o := u8 v]> (<[(o + 1)%nat := u8 (Z.shiftr v 8)]> l).
Definition put32 (l : list Z) (o : nat) (v : Z) : list Z :=
  <[o := u8 v]> (<[(o + 1)%nat := u8 (Z.shiftr v 8)]>
    (<[(o + 2)%nat := u8 (Z.shiftr v 16)]> (<[(o + 3)%nat := u8 (Z.shiftr v 24)]> l))).

(** [splice l o new] is [l] with [new] copied over it at offset [o]. *)
Definition splice {A} (l : list A) (o : nat) (new : list A) : list A :=
  take o l ++ new ++ drop (o + length new) l.

Section nthz.
Context {A : Type} (d : A).
Implicit Types l : list A.

Lemma nthz_insert_eq l i x : (i < length l)%nat → nthz d (<[i := x]> l) i = x.
Proof. intros. unfold nthz. by rewrite list_lookup_insert_eq. Qed.

Lemma nthz_insert_ne l i j x : i ≠ j → nthz d (<[i := x]> l) j = nthz d l j.
Proof. intros. unfold nthz. by rewrite list_lookup_insert_ne. Qed.

Lemma nthz_lookup l i : (i < length l)%nat → l !! i = Some (nthz d l i).
Proof. intros [x Hx]%lookup_lt_is_Some_2. unfold nthz. by rewrite Hx. Qed.

Lemma nthz_Some l i x : l !! i = Some x → nthz d l i = x.
Proof. intros Hx. unfold nthz. by rewrite Hx. Qed.

Lemma nthz_default l i : (length l ≤ i)%nat → nthz d l i = d.
Proof. intros. unfold nthz. by rewrite lookup_ge_None_2. Qed.

Lemma nthz_replicate n i : nthz d (replicate n d) i = d.
Proof.
  unfold nthz. destruct (replicate n d !! i) as [x|] eqn:E; [|done].
  by apply lookup_replicate in E as [-> _].
Qed.

Lemma nthz_app_l l1 l2 i : (i < length l1)%nat → nthz d (l1 ++ l2) i = nthz d l1 i.
Proof. intros. unfold nthz. by rewrite lookup_app_l. Qed.

Lemma nthz_app_r l1 l2 i : (length l1 ≤ i)%nat → nthz d (l1 ++ l2) i = nthz d l2 (i - length l1).
Proof. intros. unfold nthz. by rewrite lookup_app_r. Qed.

Lemma nthz_ext l1 l2 :
  length l1 = length l2 →
  (∀ i, (i < length l1)%nat → nthz d l1 i = nthz d l2 i) → l1 = l2.
Proof.
  intros Hlen Hx. apply list_eq_same_length with (length l1); [done..|].
  intros i x y Hi Hl1 Hl2. specialize (Hx i Hi).
  by rewrite (nthz_Some _ _ _ Hl1), (nthz_Some _ _ _ Hl2) in Hx.
Qed.

Lemma nthz_insert_self l i : <[i := nthz d l i]> l = l.
Proof.
  destruct (decide (i < length l)%nat) as [Hi|Hi].
  - apply list_insert_id. by apply nthz_lookup.
  - apply list_insert_ge. lia.
Qed.
End nthz.

#[export] Hint Rewrite @length_insert @length_app @length_take @length_drop
  @length_replicate @length_fmap @length_seq : xv6.

(** Side conditions on lengths and indices, closed by the length rewrites. *)
Ltac len := autorewrite with xv6 in *; simpl in *; lia.

(** Case analysis on one integer comparison of the goal, or on all of them. *)
Ltac zcase :=
  match goal with
  | |- context [?a =? ?b] => destruct (Z.eqb_spec a b)
  | |- context [?a <? ?b] => destruct (Z.ltb_spec a b)
  | |- context [?a <=? ?b] => destruct (Z.leb_spec a b)
  | |- context [?a >? ?b] => rewrite (Z.gtb_ltb a b)
  | |- context [?a >=? ?b] => rewrite (Z.geb_leb a b)
  end; cbn [andb orb negb]; try lia.
Ltac zcases := repeat zcase; try done.

(** Split one [nthz] of an [insert] into its two cases. *)
Ltac nthz_simpl :=
  repeat first
    [ rewrite nthz_insert_eq by len
    | rewrite nthz_insert_ne by lia ].

Lemma byte_split v : 0 ≤ v < 2 ^ 32 →
  u8 v + 2 ^ 8 * u8 (Z.shiftr v 8) + 2 ^ 16 * u8 (Z.shiftr v 16)
    + 2 ^ 24 * u8 (Z.shiftr v 24) = v.
Proof.
  intros Hv. unfold u8, wrap. rewrite !Z.shiftr_div_pow2 by lia.
  rewrite (Z.mod_small (v / 2 ^ 24) (2 ^ 8)).
  2: { split; [apply Z.div_pos; lia|apply Z.div_lt_upper_bound; lia]. }
  pose proof (Z.div_mod v (2 ^ 8) ltac:(lia)).
  pose proof (Z.div_mod (v / 2 ^ 8) (2 ^ 8) ltac:(lia)) as H1.
  pose proof (Z.div_mod (v / 2 ^ 16) (2 ^ 8) ltac:(lia)) as H2.
  rewrite Z.div_div in H1, H2 by lia.
  change (2 ^ 8 * 2 ^ 8) with (2 ^ 16) in H1.
  change (2 ^ 16 * 2 ^ 8) with (2 ^ 24) in H2. lia.
Qed.

Lemma length_put32 l o v : length (put32 l o v) = length l.
Proof. unfold put32. len. Qed.

Lemma length_put16 l o v : length (put16 l o v) = length l.
Proof. unfold put16. len. Qed.

#[export] Hint Rewrite length_put32 length_put16 : xv6.

Lemma get32_put32_eq l o v :
  (o + 4 ≤ length l)%nat → 0 ≤ v < 2 ^ 32 → get32 (put32 l o v) o = v.
Proof.
  intros Ho Hv. unfold get32, put32.
  nthz_simpl. by apply byte_split.
Qed.

Lemma get32_put32_ne l o o' v :
  (o' + 4 ≤ o ∨ o + 4 ≤ o')%nat → get32 (put32 l o v) o' = get32 l o'.
Proof. intros Ho. unfold get32, put32. by nthz_simpl. Qed.

Lemma nthz_put32_ne l o i v :
  (i < o ∨ o + 4 ≤ i)%nat → (put32 l o v).[i] = l.[i].
Proof. intros Ho. unfold put32. by nthz_simpl. Qed.

Lemma get16_put16_eq l o v :
  (o + 2 ≤ length l)%nat → 0 ≤ v < 2 ^ 16 → get16 (put16 l o v) o = v.
Proof.
  intros Ho Hv. unfold get16, put16. nthz_simpl.
  unfold u8, wrap. rewrite Z.shiftr_div_pow2 by lia.
  rewrite (Z.mod_small (v / 2 ^ 8)).
  - pose proof (Z.div_mod v (2 ^ 8) ltac:(lia)). lia.
  - split; [apply Z.div_pos; lia|apply Z.div_lt_upper_bound; lia].
Qed.

Lemma get16_put16_wrap l o v : (o + 2 ≤ length l)%nat → get16 (put16 l o v) o = u16 v.
Proof.
  intros Ho. unfold get16, put16. nthz_simpl. unfold u8, u16, wrap.
  rewrite Z.shiftr_div_pow2 by lia. change (2 ^ 16) with (2 ^ 8 * 2 ^ 8).
  rewrite Z.rem_mul_r by lia. lia.
Qed.

Lemma i16_u16 z : i16 (u16 z) = i16 z.
Proof. unfold i16, u16, swrap, wrap. by rewrite Z.mod_mod by lia. Qed.

(** A [short] stored and read back. *)
Lemma short_put16 l o v : (o + 2 ≤ length l)%nat → - 2 ^ 15 ≤ v < 2 ^ 15 →
  i16 (get16 (put16 l o v) o) = v.
Proof. intros. rewrite get16_put16_wrap, i16_u16 by done. by apply i16_small. Qed.

Lemma get16_put32_ne l o o' v :
  (o' + 2 ≤ o ∨ o + 4 ≤ o')%nat → get16 (put32 l o v) o' = get16 l o'.
Proof. intros Ho. unfold get16, put32. by nthz_simpl. Qed.

Lemma get32_put16_ne l o o' v :
  (o' + 4 ≤ o ∨ o + 2 ≤ o')%nat → get32 (put16 l o v) o' = get32 l o'.
Proof. intros Ho. unfold get32, put16. by nthz_simpl. Qed.

Lemma get16_put16_ne l o o' v :
  (o' + 2 ≤ o ∨ o + 2 ≤ o')%nat → get16 (put16 l o v) o' = get16 l o'.
Proof. intros Ho. unfold get16, put16. by nthz_simpl. Qed.

Lemma length_splice {A} (l : list A) o new :
  (o + length new ≤ length l)%nat → length (splice l o new) = length l.
Proof. intros. unfold splice. len. Qed.

Lemma splice_in {A} (l : list A) o new i :
  (o + length new ≤ length l)%nat → (o ≤ i < o + length new)%nat →
  splice l o new !! i = new !! (i - o)%nat.
Proof.
  intros Hl Hi. unfold splice.
  rewrite lookup_app_r, lookup_app_l by len. f_equal. len.
Qed.

Lemma splice_out {A} (l : list A) o new i :
  (o + length new ≤ length l)%nat → ¬ (o ≤ i < o + length new)%nat →
  splice l o new !! i = l !! i.
Proof.
  intros Hl Hi. unfold splice. destruct (decide (i < o)%nat).
  - rewrite lookup_app_l by len. by rewrite lookup_take_lt.
  - rewrite lookup_app_r, lookup_app_r, lookup_drop by len. f_equal. len.
Qed.

Lemma splice_all {A} (l new : list A) : length new = length l → splice l 0 new = new.
Proof.
  intros Hl. unfold splice. rewrite take_0, drop_ge by lia. apply app_nil_r.
Qed.
