(* ===== verification/Params.v ===== *)
(** * Constants and address macros

    param.h, memlayout.h, mmu.h, fs.h, stat.h, fcntl.h and buf.h: the
    constants the kernel is compiled with and the address macros on [uint]. *)

From stdpp Require Import base list.
From Stdlib Require Import ZArith Lia.
From S2P Require Import Prelude.

(** ** param.h *)
Definition NPROC : nat := 64.
Definition KSTACKSIZE : Z := 4096.
Definition NCPU : nat := 8.
Definition NOFILE : nat := 16.
Definition NFILE : nat := 100.
Definition NINODE : nat := 50.
Definition NDEV : Z := 10.
Definition ROOTDEV : Z := 1.
Definition MAXARG : nat := 32.
Definition MAXOPBLOCKS : Z := 10.
Definition LOGSIZE : Z := MAXOPBLOCKS * 3.
Definition NBUF : nat := Z.to_nat (MAXOPBLOCKS * 3).

(** ** memlayout.h *)
Definition EXTMEM : Z := 0x100000.
Definition PHYSTOP : Z := 0xE000000.
Definition DEVSPACE : Z := 0xFE000000.
Definition KERNBASE : Z := 0x80000000.
Definition KERNLINK : Z := KERNBASE + EXTMEM.
Definition v2p (a : Z) : Z := u32 (a - KERNBASE).
Definition p2v (a : Z) : Z := u32 (a + KERNBASE).

(** ** mmu.h *)
Definition PGSIZE : Z := 4096.
Definition NPDENTRIES : Z := 1024.
Definition NPTENTRIES : Z := 1024.
Definition PTXSHIFT : Z := 12.
Definition PDXSHIFT : Z := 22.
Definition PDX (va : Z) : Z := Z.land (Z.shiftr va PDXSHIFT) 0x3FF.
Definition PTX (va : Z) : Z := Z.land (Z.shiftr va PTXSHIFT) 0x3FF.
Definition PGROUNDUP (sz : Z) : Z :=
  Z.land (u32 (sz + PGSIZE - 1)) (u32 (Z.lnot (PGSIZE - 1))).
Definition PGROUNDDOWN (a : Z) : Z := Z.land a (u32 (Z.lnot (PGSIZE - 1))).
Definition PTE_P : Z := 0x001.
Definition PTE_W : Z := 0x002.
Definition PTE_U : Z := 0x004.
Definition PTE_ADDR (pte : Z) : Z := Z.land pte (u32 (Z.lnot 0xFFF)).
Definition PTE_FLAGS (pte : Z) : Z := Z.land pte 0xFFF.

(** ** fs.h *)
Definition ROOTINO : Z := 1.
Definition BSIZE : Z := 512.
Definition NDIRECT : Z := 12.
Definition NINDIRECT : Z := BSIZE / 4.
Definition MAXFILE : Z := NDIRECT + NINDIRECT.
Definition IPB : Z := BSIZE / 64.
Definition IBLOCK (i : Z) : Z := i / IPB + 2.
Definition BPB : Z := BSIZE * 8.
Definition BBLOCK (b ninodes : Z) : Z := b / BPB + ninodes / IPB + 3.
Definition DIRSIZ : nat := 14.

(** ** stat.h and fcntl.h *)
Definition T_DIR : Z := 1.
Definition T_FILE : Z := 2.
Definition T_DEV : Z := 3.
Definition O_RDONLY : Z := 0x000.
Definition O_WRONLY : Z := 0x001.
Definition O_RDWR : Z := 0x002.
Definition O_CREATE : Z := 0x200.

(** ** buf.h and file.h flag bits *)
Definition B_BUSY : Z := 0x1.
Definition B_VALID : Z := 0x2.
Definition B_DIRTY : Z := 0x4.
Definition I_BUSY : Z := 0x1.
Definition I_VALID : Z := 0x2.

(** ** The page macros are rounding to multiples of PGSIZE *)

Lemma land_page_mask a : 0 ≤ a < 2 ^ 32 →
  Z.land a (u32 (Z.lnot (PGSIZE - 1))) = a - a mod PGSIZE.
Proof.
  intros Ha. change (u32 (Z.lnot (PGSIZE - 1))) with (2 ^ 32 - 2 ^ 12).
  assert (Hm : a mod PGSIZE = Z.land a (Z.ones 12)) by (by rewrite Z.land_ones by lia).
  rewrite Hm.
  assert (Hsum : Z.land a (2 ^ 32 - 2 ^ 12) + Z.land a (Z.ones 12) = a); [|lia].
  rewrite Z.add_nocarry_lxor, Z.lxor_lor.
  - rewrite <- Z.land_lor_distr_r.
    change (Z.lor (2 ^ 32 - 2 ^ 12) (Z.ones 12)) with (Z.ones 32).
    rewrite Z.land_ones by lia. by apply Z.mod_small.
  - rewrite (Z.land_comm a (Z.ones 12)), Z.land_assoc.
    rewrite <- (Z.land_assoc a). change (Z.land (2 ^ 32 - 2 ^ 12) (Z.ones 12)) with 0.
    by rewrite Z.land_0_r.
  - rewrite (Z.land_comm a (Z.ones 12)), Z.land_assoc.
    rewrite <- (Z.land_assoc a). change (Z.land (2 ^ 32 - 2 ^ 12) (Z.ones 12)) with 0.
    by rewrite Z.land_0_r.
Qed.

Lemma PGROUNDDOWN_eq a : 0 ≤ a < 2 ^ 32 → PGROUNDDOWN a = a - a mod PGSIZE.
Proof. apply land_page_mask. Qed.

Lemma PGROUNDUP_eq a : 0 ≤ a ≤ 2 ^ 32 - PGSIZE →
  PGROUNDUP a = (a + PGSIZE - 1) / PGSIZE * PGSIZE.
Proof.
  unfold PGSIZE. intros Ha. unfold PGROUNDUP. rewrite land_page_mask by apply u32_range.
  unfold PGSIZE. rewrite u32_small by lia.
  pose proof (Z.div_mod (a + 4096 - 1) 4096 ltac:(lia)). lia.
Qed.

(** [PGROUNDUP] gives the least page boundary not below its argument. *)
Lemma PGROUNDUP_bounds a : 0 ≤ a ≤ 2 ^ 32 - PGSIZE →
  a ≤ PGROUNDUP a < a + PGSIZE ∧ PGROUNDUP a mod PGSIZE = 0.
Proof.
  intros Ha. rewrite PGROUNDUP_eq by done. unfold PGSIZE in *. split.
  - pose proof (Z.div_mod (a + 4096 - 1) 4096 ltac:(lia)).
    pose proof (Z.mod_pos_bound (a + 4096 - 1) 4096 ltac:(lia)). lia.
  - apply Z.mod_mul. lia.
Qed.

Lemma PDX_range va : 0 ≤ PDX va < 1024.
Proof.
  unfold PDX. change 0x3FF with (Z.ones 10). rewrite Z.land_ones by lia.
  apply Z.mod_pos_bound. lia.
Qed.

Lemma PTX_range va : 0 ≤ PTX va < 1024.
Proof.
  unfold PTX. change 0x3FF with (Z.ones 10). rewrite Z.land_ones by lia.
  apply Z.mod_pos_bound. lia.
Qed.

Lemma PDX_eq va : 0 ≤ va < 2 ^ 32 → PDX va = va / 2 ^ 22.
Proof.
  intros. unfold PDX, PDXSHIFT. change 0x3FF with (Z.ones 10).
  rewrite Z.land_ones, Z.shiftr_div_pow2 by lia. apply Z.mod_small.
  split; [apply Z.div_pos; lia|apply Z.div_lt_upper_bound; lia].
Qed.

Lemma PTX_eq va : PTX va = va / 2 ^ 12 mod 2 ^ 10.
Proof.
  unfold PTX, PTXSHIFT. change 0x3FF with (Z.ones 10).
  by rewrite Z.land_ones, Z.shiftr_div_pow2 by lia.
Qed.
