(* ===== verification/Kmonad.v ===== *)
(** * The kernel monad

    A kernel routine runs in the context of one process on one CPU.  Its model
    is a function from the CPU context [kctx] (the spinlocks this CPU holds and
    the wakeups it has issued) and the state [S] of the component to an
    [outcome]: the routine returns, goes to sleep, or panics.  Spinlock critical
    sections are executed as one unit: a CPU that holds a lock runs with
    interrupts off (spinlock.c, pushcli) and the other CPUs spin, which
    Spinlock.v justifies.

    [sleep] is modelled up to the moment the process gives up the CPU: the
    outcome [Blocked c k s] says the process is SLEEPING on channel [c], that
    the lock passed to [sleep] is released, and what the state is.  Every sleep
    of xv6 sits in a loop that tests its condition again after the wakeup. *)

From stdpp Require Import base gmap list strings.
From Stdlib Require Import ZArith Lia.
From S2P Require Import Prelude.

(** The spinlocks of the kernel, by the variable that holds them. *)
Inductive lockid : Type :=
| LBcache | LLog | LIcache | LFtable | LKmem | LPtable | LIde | LTicks
| LCons | LInput | LPipe (p : Z).

(** The sleep channels: the addresses the code passes to sleep and wakeup. *)
Inductive chan : Type :=
| CBuf (i : nat) | CLog | CInode (i : nat) | CProc (i : nat) | CTicks
| CNread (p : Z) | CNwrite (p : Z) | CInput.

#[global] Instance lockid_eq_dec : EqDecision lockid.
Proof. solve_decision. Defined.
#[global] Instance chan_eq_dec : EqDecision chan.
Proof. solve_decision. Defined.

Record kctx : Type := Kctx {
  held : list lockid;      (** spinlocks held by this CPU, innermost first *)
  wakeups : list chan      (** channels passed to wakeup(), newest first *)
}.

Inductive outcome (S A : Type) : Type :=
| Done (a : A) (k : kctx) (s : S)
| Blocked (c : chan) (k : kctx) (s : S)
| Panicked (msg : string)
| Undefined              (** an array index out of bounds *)
| Diverged.
Arguments Done {S A} _ _ _.
Arguments Blocked {S A} _ _ _.
Arguments Panicked {S A} _.
Arguments Undefined {S A}.
Arguments Diverged {S A}.

Definition M (S A : Type) : Type := kctx → S → outcome S A.

#[global] Instance M_ret {S} : MRet (M S) := λ A a k s, Done a k s.
#[global] Instance M_bind {S} : MBind (M S) := λ A B f m k s,
  match m k s with
  | Done a k' s' => f a k' s'
  | Blocked c k' s' => Blocked c k' s'
  | Panicked msg => Panicked msg
  | Undefined => Undefined
  | Diverged => Diverged
  end.

Definition panic {S A} (msg : string) : M S A := λ _ _, Panicked msg.
Definition undefined {S A} : M S A := λ _ _, Undefined.
Definition diverge {S A} : M S A := λ _ _, Diverged.
Definition gets {S A} (f : S → A) : M S A := λ k s, Done (f s) k s.
Definition modify {S} (f : S → S) : M S unit := λ k s, Done tt k (f s).

(** for(i = start; i < start + cnt; i++) body(i); *)
Fixpoint mfor {S} (start cnt : nat) (body : nat → M S unit) : M S unit :=
  match cnt with
  | O => mret tt
  | Datatypes.S c => body start;; mfor (Datatypes.S start) c body
  end.

(** a[i] = v for an array of the C program: [l] is the array. *)
Definition array_set {A} (l : list A) (i : Z) (v : A) : option (list A) :=
  if decide (0 ≤ i < Z.of_nat (length l)) then Some (<[Z.to_nat i := v]> l) else None.
Definition array_get {A} (l : list A) (i : Z) : option A :=
  if decide (0 ≤ i) then l !! Z.to_nat i else None.

(** Carry on with a defined value. *)
Definition defined {S A} (o : option A) : M S A :=
  match o with Some a => mret a | None => undefined end.

(** Run a component's routine inside a larger state. *)
Definition zoom {S T A} (get : S → T) (put : T → S → S) (m : M T A) : M S A := λ k s,
  match m k (get s) with
  | Done a k' t => Done a k' (put t s)
  | Blocked c k' t => Blocked c k' (put t s)
  | Panicked msg => Panicked msg
  | Undefined => Undefined
  | Diverged => Diverged
  end.

(** spinlock.c: acquire and release, as seen by the CPU that calls them. *)
Definition acquire {S} (l : lockid) : M S unit := λ k s,
  if decide (l ∈ held k) then Panicked "acquire"
  else Done tt (Kctx (l :: held k) (wakeups k)) s.

Fixpoint remove_lock (l : lockid) (ls : list lockid) : list lockid :=
  match ls with
  | [] => []
  | x :: xs => if decide (x = l) then xs else x :: remove_lock l xs
  end.

(** spinlock.c: initlock leaves the lock free. *)
Definition initlock {S} (l : lockid) : M S unit := λ k s,
  Done tt (Kctx (remove_lock l (held k)) (wakeups k)) s.

Definition release {S} (l : lockid) : M S unit := λ k s,
  if decide (l ∈ held k) then Done tt (Kctx (remove_lock l (held k)) (wakeups k)) s
  else Panicked "release".

(** proc.c: wakeup takes ptable.lock around wakeup1. *)
Definition note_wakeup {S} (c : chan) : M S unit := λ k s,
  Done tt (Kctx (held k) (c :: wakeups k)) s.

Definition wakeup {S} (c : chan) : M S unit :=
  acquire LPtable;; note_wakeup c;; release LPtable.

(** proc.c: sched, called with the process already marked SLEEPING on [c]. *)
Definition sched {S A} (c : chan) : M S A := λ k s,
  if decide (LPtable ∈ held k) then
    if decide (length (held k) = 1%nat) then Blocked c (Kctx [] (wakeups k)) s
    else Panicked "sched locks"
  else Panicked "sched ptable.lock".

(** proc.c: sleep.  ptable.lock is taken, [lk] released, and sched() panics
    unless ptable.lock is then the only lock held; the scheduler releases it. *)
Definition sleep {S A} (c : chan) (lk : lockid) : M S A :=
  (if decide (lk = LPtable) then mret tt else acquire LPtable;; release lk);;
  sched c.

(** ** Equations of the monad *)

Section laws.
Context {S : Type}.
Implicit Types (k : kctx) (s : S).

Lemma bind_Done {A B} (m : M S A) (f : A → M S B) k s a k' s' :
  m k s = Done a k' s' → (m ≫= f) k s = f a k' s'.
Proof. intros H. unfold mbind, M_bind. by rewrite H. Qed.

Lemma bind_assoc_Done {A B C} (m : M S A) (f : A → M S B) (g : B → M S C) k s b k' s' :
  (m ≫= f) k s = Done b k' s' → (m ≫= λ a, f a ≫= g) k s = g b k' s'.
Proof.
  unfold mbind, M_bind. destruct (m k s) as [a k1 s1| | | |]; try done. intros ->. done.
Qed.

Lemma bind_assoc3_Done {A B C D} (m : M S A) (f : A → M S B) (g : A → B → M S C)
    (h : C → M S D) k s c k' s' :
  (m ≫= λ a, f a ≫= g a) k s = Done c k' s' →
  (m ≫= λ a, f a ≫= λ b, g a b ≫= h) k s = h c k' s'.
Proof.
  unfold mbind, M_bind. destruct (m k s) as [a k1 s1| | | |]; try done.
  destruct (f a k1 s1) as [b k2 s2| | | |]; try done. intros ->. done.
Qed.

Lemma bind_inv {A B} (m : M S A) (f : A → M S B) k s b k'' s'' :
  (m ≫= f) k s = Done b k'' s'' →
  ∃ a k' s', m k s = Done a k' s' ∧ f a k' s' = Done b k'' s''.
Proof. unfold mbind, M_bind. destruct (m k s); naive_solver. Qed.

Lemma ret_eq {A} (a : A) k s : (mret a : M S A) k s = Done a k s.
Proof. done. Qed.

Lemma gets_eq {A} (f : S → A) k s : gets f k s = Done (f s) k s.
Proof. done. Qed.

Lemma modify_eq (f : S → S) k s : modify f k s = Done tt k (f s).
Proof. done. Qed.

Lemma acquire_eq l k s :
  l ∉ held k → acquire l k s = Done tt (Kctx (l :: held k) (wakeups k)) s.
Proof. intros. unfold acquire. by rewrite decide_False. Qed.

Lemma remove_lock_notin l ls : l ∉ ls → remove_lock l ls = ls.
Proof.
  induction ls as [|x ls IH]; intros Hl; simpl; [done|].
  rewrite decide_False, IH by set_solver. done.
Qed.

Lemma initlock_eq l k s : l ∉ held k → initlock l k s = Done tt k s.
Proof. intros. unfold initlock. rewrite remove_lock_notin by done. by destruct k. Qed.

Lemma release_top l h w s :
  release l (Kctx (l :: h) w) s = Done tt (Kctx h w) s.
Proof.
  unfold release. simpl. rewrite decide_True by apply list_elem_of_here.
  by rewrite decide_True.
Qed.

Lemma wakeup_eq c k s :
  LPtable ∉ held k →
  wakeup c k s = Done tt (Kctx (held k) (c :: wakeups k)) s.
Proof.
  intros. unfold wakeup, note_wakeup, mbind, M_bind. rewrite acquire_eq by done.
  apply release_top.
Qed.

Lemma sleep_eq {A} c lk k s :
  held k = [lk] → lk ≠ LPtable →
  sleep c lk k s = (Blocked c (Kctx [] (wakeups k)) s : outcome S A).
Proof.
  intros Hk Hlk. unfold sleep, sched, mbind, M_bind. rewrite decide_False by done.
  rewrite acquire_eq by (rewrite Hk, list_elem_of_singleton; congruence).
  rewrite Hk. simpl.
  unfold release. simpl. destruct (decide (lk ∈ _)) as [_|Hn]; [|set_solver].
  destruct (decide (LPtable = lk)); [congruence|].
  rewrite (decide_True (P := lk = lk)) by done. done.
Qed.
End laws.

Lemma zoom_Done {S T A} (get : S → T) (put : T → S → S) (m : M T A) k s a k' t :
  m k (get s) = Done a k' t → zoom get put m k s = Done a k' (put t s).
Proof. intros H. unfold zoom. by rewrite H. Qed.

(** A routine of a component run step by step in the larger state. *)
Lemma zoom_bind {S T A B} (get : S → T) (put : T → S → S) (m : M T A) (f : A → M T B) k s :
  (∀ t s, get (put t s) = t) → (∀ t t' s, put t' (put t s) = put t' s) →
  zoom get put (m ≫= f) k s = (zoom get put m ≫= λ a, zoom get put (f a)) k s.
Proof.
  intros Hg Hp. unfold zoom, mbind, M_bind. destruct (m k (get s)) as [a k' t| | | |]; try done.
  rewrite Hg. destruct (f a k' t); by rewrite ?Hp.
Qed.

(** [mgo] evaluates the head of a monadic computation with the equations
    above, closing lock side conditions by [set_solver]. *)
Ltac mstep :=
  first
    [ rewrite gets_eq | rewrite modify_eq | rewrite ret_eq
    | rewrite acquire_eq by (simpl; set_solver)
    | rewrite release_top
    | rewrite wakeup_eq by (simpl; set_solver)
    | rewrite sleep_eq by (first [reflexivity | done]) ];
  cbv beta iota; simpl held; simpl wakeups.
Ltac mgo :=
  cbn [negb orb andb]; unfold mbind, M_bind; cbv beta iota; repeat mstep.

(** [mb H] takes one step of a sequence, with [H] the outcome of its head. *)
Ltac mb H := rewrite (bind_Done _ _ _ _ _ _ _ H); cbv beta.
