(* ===== verification/Ring.v ===== *)
(** * Ring buffers with free-running 32-bit indices

    The console input and pipes use buffers of N bytes with uint indices that only
    grow and wrap around at 2^32; an index is reduced modulo N at each access.  Since
    N divides 2^32 the wrap-around does no harm: [holds N buf r l] says that the
    bytes [l] lie in the buffer from index [r] on. *)

From stdpp Require Import base list.
From Stdlib Require Import ZArith Lia.
From S2P Require Import Prelude.

Definition ring_slot (N i : Z) : nat := Z.to_nat (i mod N).

Definition holds (N : Z) (buf : list Z) (r : Z) (l : list Z) : Prop :=
  Z.of_nat (length buf) = N ∧ Z.of_nat (length l) ≤ N ∧
  ∀ j, (j < length l)%nat → buf.[ring_slot N (r + Z.of_nat j)] = l.[j].

Lemma u32_gap x a b : 0 ≤ b ≤ a → a < 2 ^ 32 → u32 (u32 (x + a) - u32 (x + b)) = a - b.
Proof.
  intros Hb Ha. rewrite u32_sub_l, u32_sub_r. replace (x + a - (x + b)) with (a - b) by lia.
  apply u32_small. lia.
Qed.

Lemma u32_inj x a b : 0 ≤ a < 2 ^ 32 → 0 ≤ b < 2 ^ 32 → u32 (x + a) = u32 (x + b) → a = b.
Proof.
  unfold u32, wrap. intros Ha Hb H.
  pose proof (Z.div_mod (x + a) (2 ^ 32) ltac:(lia)). pose proof (Z.div_mod (x + b) (2 ^ 32) ltac:(lia)).
  lia.
Qed.

(** Comparing two indices compares the distances from a third. *)
Lemma u32_eqb x a b : 0 ≤ a < 2 ^ 32 → 0 ≤ b < 2 ^ 32 → (u32 (x + a) =? u32 (x + b)) = (a =? b).
Proof.
  intros Ha Hb. destruct (Z.eqb_spec a b) as [->|Hne]; [apply Z.eqb_refl|].
  apply Z.eqb_neq. intros H. by apply u32_inj in H.
Qed.

Section ring.
Context (N : Z) (HN : 0 < N) (Hdiv : (N | 2 ^ 32)).

Lemma ring_slot_u32 x : ring_slot N (u32 x) = ring_slot N x.
Proof. unfold ring_slot, u32, wrap. f_equal. by apply Z.mod_mod_divide. Qed.

Lemma ring_slot_lt x : (ring_slot N x < Z.to_nat N)%nat.
Proof. unfold ring_slot. pose proof (Z.mod_pos_bound x N HN). apply Z2Nat.inj_lt; lia. Qed.

Lemma ring_slot_inj x a b : 0 ≤ a < N → 0 ≤ b < N → ring_slot N (x + a) = ring_slot N (x + b) → a = b.
Proof.
  unfold ring_slot. intros Ha Hb H.
  pose proof (Z.mod_pos_bound (x + a) N ltac:(lia)). pose proof (Z.mod_pos_bound (x + b) N ltac:(lia)).
  pose proof (Z.div_mod (x + a) N ltac:(lia)). pose proof (Z.div_mod (x + b) N ltac:(lia)).
  set (qa := (x + a) / N) in *. set (qb := (x + b) / N) in *.
  assert (Hd : a - b = N * (qa - qb)) by lia.
  assert (qa - qb = 0) as Hq; [|rewrite Hq in Hd; lia].
  destruct (Z.lt_trichotomy (qa - qb) 0) as [?|[?|?]]; [|done|]; nia.
Qed.

Lemma holds_nil buf r : Z.of_nat (length buf) = N → holds N buf r [].
Proof. intros H. split_and!; simpl; [done|lia|lia]. Qed.

(** Storing at the index behind the last byte appends. *)
Lemma holds_append buf r l c : holds N buf r l → Z.of_nat (length l) < N →
  holds N (<[ring_slot N (r + Z.of_nat (length l)) := c]> buf) r (l ++ [c]).
Proof.
  intros (Hb & Hl & Hc) Hlt. split_and!.
  - by rewrite length_insert.
  - rewrite length_app. simpl. lia.
  - intros j Hj. rewrite length_app in Hj. simpl in Hj.
    destruct (decide (j = length l)) as [->|Hne].
    + rewrite nthz_insert_eq by (pose proof (ring_slot_lt (r + Z.of_nat (length l))); lia).
      unfold nthz. by rewrite list_lookup_middle.
    + rewrite nthz_insert_ne.
      * rewrite Hc by lia. unfold nthz. f_equal. symmetry. apply lookup_app_l. lia.
      * intros H. apply ring_slot_inj in H; lia.
Qed.

Lemma holds_head buf r c l : holds N buf r (c :: l) → buf.[ring_slot N r] = c.
Proof. intros (_ & _ & Hc). specialize (Hc 0%nat ltac:(simpl; lia)). by rewrite Z.add_0_r in Hc. Qed.

Lemma holds_tail buf r c l : holds N buf r (c :: l) → holds N buf (u32 (r + 1)) l.
Proof.
  intros (Hb & Hl & Hc). simpl in Hl. split_and!; [done|lia|]. intros j Hj.
  rewrite <- ring_slot_u32, u32_add_l, ring_slot_u32.
  replace (r + 1 + Z.of_nat j) with (r + Z.of_nat (S j)) by lia. rewrite Hc by (simpl; lia). done.
Qed.
End ring.
