(* ===== verification/Cstring.v ===== *)
(** * Byte memory, string.c and ulib.c

    Memory is a finite map from addresses to byte values.  A C string is the
    run of bytes up to the first NUL.  A [while(n-- > 0)] loop is structural
    recursion on the number of iterations left; a loop that only stops at a NUL
    takes a fuel argument and returns [None] when it runs out.  Pointer
    arithmetic is exact: an object never wraps around the address space. *)

From stdpp Require Import base gmap list strings.
From Stdlib Require Import ZArith Lia.
From S2P Require Import Prelude Params.

Abbreviation mem := (gmap Z Z).

Definition rd (m : mem) (a : Z) : Z := default 0 (m !! a).
Definition setb (m : mem) (a v : Z) : mem := <[a := v]> m.
Definition wr (m : mem) (a v : Z) : mem := setb m a (u8 v).

(** A 32-bit load and store, little-endian as on the x86. *)
Definition load32 (m : mem) (a : Z) : Z :=
  rd m a + 2 ^ 8 * rd m (a + 1) + 2 ^ 16 * rd m (a + 2) + 2 ^ 24 * rd m (a + 3).
Definition store32 (m : mem) (a v : Z) : mem :=
  wr (wr (wr (wr m a v) (a + 1) (Z.shiftr v 8)) (a + 2) (Z.shiftr v 16))
    (a + 3) (Z.shiftr v 24).
Definition load16 (m : mem) (a : Z) : Z := rd m a + 2 ^ 8 * rd m (a + 1).
Definition store16 (m : mem) (a v : Z) : mem := wr (wr m a v) (a + 1) (Z.shiftr v 8).

(** x86.h: cld; rep stosb and rep stosl, [n] iterations. *)
Fixpoint stosb (m : mem) (addr data : Z) (n : nat) : mem :=
  match n with
  | O => m
  | S n' => stosb (wr m addr data) (addr + 1) data n'
  end.
Fixpoint stosl (m : mem) (addr data : Z) (n : nat) : mem :=
  match n with
  | O => m
  | S n' => stosl (store32 m addr data) (addr + 4) data n'
  end.

(** [cstr m t k]: the string at [t] has length [k]. *)
Definition cstr (m : mem) (t : Z) (k : nat) : Prop :=
  (∀ j, 0 ≤ j < Z.of_nat k → rd m (t + j) ≠ 0) ∧ rd m (t + Z.of_nat k) = 0.

Module KString.

Definition memset (m : mem) (dst c n : Z) : mem :=
  if (Z.rem (i32 dst) 4 =? 0) && (n mod 4 =? 0) then
    let c := Z.land c 0xFF in
    stosl m dst
      (Z.lor (Z.lor (Z.lor (Z.shiftl c 24) (Z.shiftl c 16)) (Z.shiftl c 8)) c)
      (Z.to_nat (n / 4))
  else stosb m dst c (Z.to_nat n).

Fixpoint memcmp_loop (m : mem) (s1 s2 : Z) (n : nat) : Z :=
  match n with
  | O => 0
  | S n' =>
    if negb (rd m s1 =? rd m s2) then rd m s1 - rd m s2
    else memcmp_loop m (s1 + 1) (s2 + 1) n'
  end.
Definition memcmp (m : mem) (v1 v2 n : Z) : Z := memcmp_loop m v1 v2 (Z.to_nat n).

(** while(n-- > 0) *--d = *--s; *)
Fixpoint copy_down (m : mem) (d s : Z) (n : nat) : mem :=
  match n with
  | O => m
  | S n' => copy_down (setb m (d - 1) (rd m (s - 1))) (d - 1) (s - 1) n'
  end.
(** while(n-- > 0) *d++ = *s++; *)
Fixpoint copy_up (m : mem) (d s : Z) (n : nat) : mem :=
  match n with
  | O => m
  | S n' => copy_up (setb m d (rd m s)) (d + 1) (s + 1) n'
  end.
Definition memmove (m : mem) (dst src n : Z) : mem :=
  if (src <? dst) && (src + n >? dst) then
    copy_down m (dst + n) (src + n) (Z.to_nat n)
  else copy_up m dst src (Z.to_nat n).
Definition memcpy (m : mem) (dst src n : Z) : mem := memmove m dst src n.

Fixpoint strncmp (m : mem) (p q : Z) (n : nat) : Z :=
  match n with
  | O => 0
  | S n' =>
    if negb (rd m p =? 0) && (rd m p =? rd m q) then strncmp m (p + 1) (q + 1) n'
    else rd m p - rd m q
  end.

(** The first loop of strncpy: the memory, [s] and the count left after it. *)
Fixpoint strncpy_copy (m : mem) (s t : Z) (n : nat) : mem * Z * nat :=
  match n with
  | O => (m, s, O)
  | S n' =>
    let c := rd m t in
    let m := setb m s c in
    if negb (c =? 0) then strncpy_copy m (s + 1) (t + 1) n' else (m, s + 1, n')
  end.
(** while(n-- > 0) *s++ = 0; *)
Fixpoint zero_up (m : mem) (s : Z) (n : nat) : mem :=
  match n with
  | O => m
  | S n' => zero_up (setb m s 0) (s + 1) n'
  end.
Definition strncpy (m : mem) (s t n : Z) : mem :=
  let '(m, s, n) := strncpy_copy m s t (Z.to_nat n) in zero_up m s n.

(** while(--n > 0 && ( *s++ = *t++ ) != 0); with [n] the value after --n. *)
Fixpoint safestrcpy_copy (m : mem) (s t : Z) (n : nat) : mem * Z :=
  match n with
  | O => (m, s)
  | S n' =>
    let c := rd m t in
    let m := setb m s c in
    if negb (c =? 0) then safestrcpy_copy m (s + 1) (t + 1) n' else (m, s + 1)
  end.
Definition safestrcpy (m : mem) (s t n : Z) : mem :=
  if n <=? 0 then m
  else let '(m, s) := safestrcpy_copy m s t (Z.to_nat (n - 1)) in setb m s 0.

Fixpoint strlen_loop (fuel : nat) (m : mem) (s n : Z) : option Z :=
  match fuel with
  | O => None
  | S f => if rd m (s + n) =? 0 then Some n else strlen_loop f m s (n + 1)
  end.
Definition strlen (fuel : nat) (m : mem) (s : Z) : option Z := strlen_loop fuel m s 0.

End KString.

Module Ulib.

Fixpoint strcpy (fuel : nat) (m : mem) (s t : Z) : option mem :=
  match fuel with
  | O => None
  | S f =>
    let c := rd m t in
    let m := setb m s c in
    if negb (c =? 0) then strcpy f m (s + 1) (t + 1) else Some m
  end.

Fixpoint strcmp (fuel : nat) (m : mem) (p q : Z) : option Z :=
  match fuel with
  | O => None
  | S f =>
    if negb (rd m p =? 0) && (rd m p =? rd m q) then strcmp f m (p + 1) (q + 1)
    else Some (rd m p - rd m q)
  end.

Fixpoint strlen_loop (fuel : nat) (m : mem) (s n : Z) : option Z :=
  match fuel with
  | O => None
  | S f => if rd m (s + n) =? 0 then Some n else strlen_loop f m s (n + 1)
  end.
Definition strlen (fuel : nat) (m : mem) (s : Z) : option Z := strlen_loop fuel m s 0.

Definition memset (m : mem) (dst c n : Z) : mem := stosb m dst c (Z.to_nat n).

(** The result is the address of the character, 0 when it does not occur. *)
Fixpoint strchr (fuel : nat) (m : mem) (s c : Z) : option Z :=
  match fuel with
  | O => None
  | S f =>
    if rd m s =? 0 then Some 0
    else if rd m s =? c then Some s else strchr f m (s + 1) c
  end.

Fixpoint atoi_loop (fuel : nat) (m : mem) (s n : Z) : option Z :=
  match fuel with
  | O => None
  | S f =>
    if (48 <=? rd m s) && (rd m s <=? 57)
    then atoi_loop f m (s + 1) (i32 (n * 10 + rd m s - 48)) else Some n
  end.
Definition atoi (fuel : nat) (m : mem) (s : Z) : option Z := atoi_loop fuel m s 0.

Definition memmove (m : mem) (dst src n : Z) : mem :=
  KString.copy_up m dst src (Z.to_nat n).

End Ulib.

(** ** Memory lemmas *)

Lemma rd_setb_eq m a v : rd (setb m a v) a = v.
Proof. unfold rd, setb. by rewrite lookup_insert_eq. Qed.

Lemma rd_setb_ne m a b v : a ≠ b → rd (setb m a v) b = rd m b.
Proof. intros. unfold rd, setb. by rewrite lookup_insert_ne. Qed.

Lemma rd_setb m a b v : rd (setb m a v) b = if a =? b then v else rd m b.
Proof.
  destruct (Z.eqb_spec a b) as [->|]; [apply rd_setb_eq|by apply rd_setb_ne].
Qed.

Lemma rd_wr m a b v : rd (wr m a v) b = if a =? b then u8 v else rd m b.
Proof. apply rd_setb. Qed.

Lemma rd_store32_out m a v b : ¬ (a ≤ b < a + 4) → rd (store32 m a v) b = rd m b.
Proof.
  intros. unfold store32. rewrite !rd_wr.
  zcases.
Qed.

Lemma rd_store32_in m a v i : 0 ≤ i < 4 →
  rd (store32 m a v) (a + i) = u8 (Z.shiftr v (8 * i)).
Proof.
  intros Hi. unfold store32. rewrite !rd_wr.
  assert (i = 0 ∨ i = 1 ∨ i = 2 ∨ i = 3) as [-> | [-> | [-> | -> ]]] by lia;
    zcases.
Qed.

Lemma load32_store32_eq m a v : 0 ≤ v < 2 ^ 32 → load32 (store32 m a v) a = v.
Proof.
  intros Hv. unfold load32. rewrite <- (Z.add_0_r a) at 2.
  rewrite !rd_store32_in by lia. rewrite Z.shiftr_0_r. by apply byte_split.
Qed.

Lemma load32_store32_ne m a v b : b + 4 ≤ a ∨ a + 4 ≤ b →
  load32 (store32 m a v) b = load32 m b.
Proof. intros. unfold load32. by rewrite !rd_store32_out by lia. Qed.

Lemma rd_store16_out m a v b : ¬ (a ≤ b < a + 2) → rd (store16 m a v) b = rd m b.
Proof. intros H. unfold store16. rewrite !rd_wr. zcases. Qed.

Lemma load16_store16_eq m a v : 0 ≤ v < 2 ^ 16 → load16 (store16 m a v) a = v.
Proof.
  intros Hv. unfold load16, store16. rewrite !rd_wr, !Z.eqb_refl.
  destruct (Z.eqb_spec (a + 1) a); [lia|]. rewrite Z.shiftr_div_pow2 by lia. unfold u8, wrap.
  rewrite (Z.mod_small (v / 2 ^ 8)) by (split; [apply Z.div_pos; lia|apply Z.div_lt_upper_bound; lia]).
  pose proof (Z.div_mod v (2 ^ 8) ltac:(lia)). lia.
Qed.

Lemma load32_ext m m' a : (∀ i, 0 ≤ i < 4 → rd m (a + i) = rd m' (a + i)) →
  load32 m a = load32 m' a.
Proof.
  intros H. unfold load32. pose proof (H 0 ltac:(lia)) as H0. rewrite !Z.add_0_r in H0.
  by rewrite H0, !H by lia.
Qed.

Section fills.
Lemma stosb_spec n m dst c a :
  rd (stosb m dst c n) a =
    if (dst <=? a) && (a <? dst + Z.of_nat n) then u8 c else rd m a.
Proof.
  revert m dst. induction n as [|n IH]; intros m dst; simpl stosb; [zcases|].
  rewrite IH, rd_wr. zcases.
Qed.

Lemma stosl_spec n m dst w a :
  rd (stosl m dst w n) a =
    if (dst <=? a) && (a <? dst + 4 * Z.of_nat n)
    then u8 (Z.shiftr w (8 * ((a - dst) mod 4))) else rd m a.
Proof.
  revert m dst. induction n as [|n IH]; intros m dst; simpl stosl; [zcases|].
  rewrite IH. destruct (decide (dst ≤ a < dst + 4)) as [Hin|Hout].
  - replace (rd (store32 m dst w) a)
      with (rd (store32 m dst w) (dst + (a - dst))) by (f_equal; lia).
    rewrite rd_store32_in, (Z.mod_small (a - dst)) by lia. zcases.
  - rewrite rd_store32_out by done.
    replace (a - dst) with (a - (dst + 4) + 1 * 4) by lia.
    rewrite Z.mod_add by lia. zcases.
Qed.
End fills.

(** The word memset stores has the byte [c] in each of its four positions. *)
Lemma memset_word c i : 0 ≤ i < 4 →
  let b := Z.land c 0xFF in
  u8 (Z.shiftr (Z.lor (Z.lor (Z.lor (Z.shiftl b 24) (Z.shiftl b 16)) (Z.shiftl b 8)) b)
        (8 * i)) = u8 c.
Proof.
  intros Hi b.
  assert (Hb : 0 ≤ b < 256).
  { subst b. change 0xFF with (Z.ones 8). rewrite Z.land_ones by lia.
    apply Z.mod_pos_bound. lia. }
  replace (u8 c) with b by (subst b; unfold u8, wrap; by rewrite <- Z.land_ones by lia).
  clearbody b. clear c.
  assert (Hall : forallb (λ b, forallb (λ i,
      u8 (Z.shiftr (Z.lor (Z.lor (Z.lor (Z.shiftl b 24) (Z.shiftl b 16)) (Z.shiftl b 8)) b)
        (8 * i)) =? b) (seqZ 0 4)) (seqZ 0 256) = true) by (vm_compute; reflexivity).
  rewrite forallb_forall in Hall. specialize (Hall b).
  rewrite forallb_forall in Hall.
  apply Z.eqb_eq, Hall; apply list_elem_of_In, elem_of_seqZ; lia.
Qed.

(** ** string.c *)

Lemma memset_rd (m : mem) (dst c n a : Z) :
  0 ≤ dst → 0 ≤ n → dst + n ≤ 2 ^ 32 →
  rd (KString.memset m dst c n) a =
    if (dst <=? a) && (a <? dst + n) then u8 c else rd m a.
Proof.
  intros Hd Hn Hend. unfold KString.memset.
  destruct (_ && _) eqn:Hal.
  - apply andb_true_iff in Hal as [_ Hal%Z.eqb_eq].
    rewrite stosl_spec, memset_word by (apply Z.mod_pos_bound; lia).
    pose proof (Z.div_mod n 4 ltac:(lia)).
    rewrite Z2Nat.id by (apply Z.div_pos; lia).
    replace (4 * (n / 4)) with n by lia. done.
  - rewrite stosb_spec, Z2Nat.id by lia. done.
Qed.

(** Memset fills exactly the [n] bytes from [dst] with the low byte of
    [c], whichever of its two store loops it takes. *)
Theorem memset_fills (m : mem) (dst c n a : Z) :
  0 ≤ dst → 0 ≤ n → dst + n ≤ 2 ^ 32 →
  rd (KString.memset m dst c n) a =
    if (dst <=? a) && (a <? dst + n) then u8 c else rd m a.
Proof. exact (memset_rd m dst c n a). Qed.

Lemma memset_fills_witness :
  rd (KString.memset ∅ 101 300 6) 106 = 44 ∧ rd (KString.memset ∅ 101 300 6) 107 = 0.
Proof.
  split.
  - rewrite (memset_fills ∅ 101 300 6 106) by lia. reflexivity.
  - rewrite (memset_fills ∅ 101 300 6 107) by lia. reflexivity.
Defined.

Section copies.
Lemma copy_up_spec n m d s a :
  d ≤ s ∨ s + Z.of_nat n ≤ d →
  rd (KString.copy_up m d s n) a =
    if (d <=? a) && (a <? d + Z.of_nat n) then rd m (s + (a - d)) else rd m a.
Proof.
  revert m d s. induction n as [|n IH]; intros m d s Hd; simpl; [zcases|].
  rewrite IH, !rd_setb by lia.
  destruct (Z.eqb_spec d a) as [->|].
  - replace (s + (a - a)) with s by lia. zcases.
  - replace (s + 1 + (a - (d + 1))) with (s + (a - d)) by lia. zcases.
Qed.

Lemma copy_down_spec n m d s a :
  s ≤ d ∨ d ≤ s - Z.of_nat n →
  rd (KString.copy_down m d s n) a =
    if (d - Z.of_nat n <=? a) && (a <? d) then rd m (s + (a - d)) else rd m a.
Proof.
  revert m d s. induction n as [|n IH]; intros m d s Hd; simpl; [zcases|].
  rewrite IH, !rd_setb by lia.
  replace (s - 1 + (a - (d - 1))) with (s + (a - d)) by lia.
  destruct (Z.eqb_spec (d - 1) a) as [<-|].
  - replace (s + (d - 1 - d)) with (s - 1) by lia. zcases.
  - zcases.
Qed.
End copies.

Lemma memmove_rd (m : mem) (dst src n a : Z) :
  0 ≤ n →
  rd (KString.memmove m dst src n) a =
    if (dst <=? a) && (a <? dst + n) then rd m (src + (a - dst)) else rd m a.
Proof.
  intros Hn. unfold KString.memmove. destruct (_ && _) eqn:Hov.
  - apply andb_true_iff in Hov as [H1%Z.ltb_lt H2%Z.gtb_lt].
    rewrite copy_down_spec, Z2Nat.id by lia.
    replace (dst + n - n) with dst by lia.
    by replace (src + n + (a - (dst + n))) with (src + (a - dst)) by lia.
  - rewrite copy_up_spec, Z2Nat.id; [done|lia|].
    apply andb_false_iff in Hov as [H1%Z.ltb_ge|H1]; [lia|].
    rewrite Z.gtb_ltb, Z.ltb_ge in H1. lia.
Qed.

(** Memmove copies [n] bytes from [src] to [dst] as they were before the
    call, also when the two regions overlap, and changes nothing else. *)
Theorem memmove_copies (m : mem) (dst src n a : Z) :
  0 ≤ n →
  rd (KString.memmove m dst src n) a =
    if (dst <=? a) && (a <? dst + n) then rd m (src + (a - dst)) else rd m a.
Proof. exact (memmove_rd m dst src n a). Qed.

Lemma memmove_copies_witness :
  rd (KString.memmove (setb (setb ∅ 100 7) 101 8) 101 100 2) 102 = 8.
Proof.
  rewrite (memmove_copies (setb (setb ∅ 100 7) 101 8) 101 100 2 102) by lia. reflexivity.
Defined.

(** memcmp returns zero exactly on equal regions, and otherwise the difference
    of the first bytes that differ. *)
Lemma memcmp_loop_spec n m s1 s2 :
  (KString.memcmp_loop m s1 s2 n = 0 ∧
     ∀ i, 0 ≤ i < Z.of_nat n → rd m (s1 + i) = rd m (s2 + i)) ∨
  (∃ i, 0 ≤ i < Z.of_nat n ∧ rd m (s1 + i) ≠ rd m (s2 + i) ∧
     (∀ j, 0 ≤ j < i → rd m (s1 + j) = rd m (s2 + j)) ∧
     KString.memcmp_loop m s1 s2 n = rd m (s1 + i) - rd m (s2 + i)).
Proof.
  revert s1 s2. induction n as [|n IH]; intros s1 s2; simpl.
  { left. split; [done|lia]. }
  destruct (Z.eqb_spec (rd m s1) (rd m s2)) as [He|Hne]; simpl.
  - destruct (IH (s1 + 1) (s2 + 1)) as [[-> Heq]|(i & Hi & Hd & Hlt & ->)].
    + left. split; [done|]. intros i Hi.
      destruct (decide (i = 0)) as [->|]; [by rewrite !Z.add_0_r|].
      specialize (Heq (i - 1) ltac:(lia)).
      by replace (s1 + 1 + (i - 1)) with (s1 + i) in Heq by lia;
        replace (s2 + 1 + (i - 1)) with (s2 + i) in Heq by lia.
    + right. exists (i + 1). rewrite !(Z.add_comm i 1), !Z.add_assoc.
      split; [lia|]. split; [done|]. split; [|done]. intros j Hj.
      destruct (decide (j = 0)) as [->|]; [by rewrite !Z.add_0_r|].
      specialize (Hlt (j - 1) ltac:(lia)).
      by replace (s1 + 1 + (j - 1)) with (s1 + j) in Hlt by lia;
        replace (s2 + 1 + (j - 1)) with (s2 + j) in Hlt by lia.
  - right. exists 0. rewrite !Z.add_0_r. split; [lia|]. split; [done|].
    split; [lia|done].
Qed.

Section bounded.
Lemma zero_up_spec n m s a :
  rd (KString.zero_up m s n) a =
    if (s <=? a) && (a <? s + Z.of_nat n) then 0 else rd m a.
Proof.
  revert m s. induction n as [|n IH]; intros m s; simpl; [zcases|].
  rewrite IH, rd_setb. zcases.
Qed.

(** The first loop of strncpy stops after the NUL or when [n] runs out. *)
Lemma strncpy_copy_spec n m s t k :
  cstr m t k → s + Z.of_nat n ≤ t ∨ t + Z.of_nat (S k) ≤ s →
  let c := Nat.min n (S k) in
  KString.strncpy_copy m s t n = (KString.copy_up m s t c, s + Z.of_nat c, (n - c)%nat).
Proof.
  revert m s t k. induction n as [|n IH]; intros m s t k [Hnz Hz] Hdis; simpl.
  { f_equal. f_equal. lia. }
  destruct k as [|k].
  - rewrite Z.add_0_r in Hz. rewrite Hz. simpl. rewrite Nat.min_0_r. simpl.
    repeat f_equal; lia.
  - pose proof (Hnz 0 ltac:(lia)) as H0. rewrite Z.add_0_r in H0.
    destruct (Z.eqb_spec (rd m t) 0); [done|]. simpl.
    rewrite IH with (k := k).
    + f_equal. f_equal. lia.
    + split; intros; rewrite rd_setb_ne by lia.
      * rewrite <- Z.add_assoc. apply Hnz. lia.
      * rewrite <- Z.add_assoc. rewrite <- Hz. f_equal. lia.
    + lia.
Qed.
End bounded.

(** Strncpy of a string of length [k] into a disjoint buffer of [n]
    bytes copies the string, truncated to [n], and pads with NULs; it writes
    nothing outside the [n] bytes. *)
Theorem strncpy_pads (m : mem) (s t n : Z) (k : nat) (a : Z) :
  cstr m t k → 0 ≤ n → s + n ≤ t ∨ t + Z.of_nat (S k) ≤ s →
  rd (KString.strncpy m s t n) a =
    if (s <=? a) && (a <? s + n) then
      if a - s <? Z.of_nat k then rd m (t + (a - s)) else 0
    else rd m a.
Proof.
  intros Hstr Hn Hdis. unfold KString.strncpy.
  rewrite (strncpy_copy_spec _ _ _ _ k) by (done || lia).
  rewrite zero_up_spec, copy_up_spec by lia.
  destruct Hstr as [_ Hz].
  destruct (decide (a = s + Z.of_nat k)) as [->|].
  - replace (s + Z.of_nat k - s) with (Z.of_nat k) by lia. rewrite Hz. zcases.
  - zcases.
Qed.

Lemma strncpy_pads_witness :
  let m := setb (setb ∅ 100 104) 101 105 in
  rd (KString.strncpy m 200 100 14) 201 = 105 ∧
  rd (KString.strncpy m 200 100 14) 213 = 0.
Proof.
  intros m. assert (H : cstr m 100 2).
  { split; [|reflexivity]. intros j Hj.
    assert (j = 0 ∨ j = 1) as [-> | ->] by lia; vm_compute; congruence. }
  split.
  - apply (strncpy_pads m 200 100 14 2 201 H); lia.
  - apply (strncpy_pads m 200 100 14 2 213 H); lia.
Defined.

(** The loop of safestrcpy, with [n] bytes of room for characters. *)
Lemma safestrcpy_copy_spec n m s t k :
  cstr m t k → s + Z.of_nat n ≤ t ∨ t + Z.of_nat (S k) ≤ s →
  let c := Nat.min n (S k) in
  KString.safestrcpy_copy m s t n = (KString.copy_up m s t c, s + Z.of_nat c).
Proof.
  revert m s t k. induction n as [|n IH]; intros m s t k [Hnz Hz] Hdis; simpl.
  { f_equal. lia. }
  destruct k as [|k].
  - rewrite Z.add_0_r in Hz. rewrite Hz. simpl. rewrite Nat.min_0_r. simpl. f_equal. 
  - pose proof (Hnz 0 ltac:(lia)) as H0. rewrite Z.add_0_r in H0.
    destruct (Z.eqb_spec (rd m t) 0); [done|]. simpl. rewrite IH with (k := k).
    + f_equal. lia.
    + split; intros; rewrite rd_setb_ne by lia; rewrite <- Z.add_assoc.
      * apply Hnz. lia.
      * rewrite <- Hz. f_equal. lia.
    + lia.
Qed.

(** Safestrcpy leaves in [s] the string at [t], cut to [n - 1]
    characters and always NUL-terminated, and writes only inside [s, s + n). *)
Theorem safestrcpy_terminates (m : mem) (s t n : Z) (k : nat) :
  cstr m t k → 0 < n → s + n ≤ t ∨ t + Z.of_nat (S k) ≤ s →
  let m' := KString.safestrcpy m s t n in
  cstr m' s (Nat.min k (Z.to_nat (n - 1))) ∧
  (∀ i, 0 ≤ i < Z.min (Z.of_nat k) (n - 1) → rd m' (s + i) = rd m (t + i)) ∧
  (∀ a, ¬ (s ≤ a < s + n) → rd m' a = rd m a).
Proof.
  intros Hstr Hn Hdis m'. subst m'. unfold KString.safestrcpy.
  destruct (Z.leb_spec n 0); [lia|].
  rewrite (safestrcpy_copy_spec _ _ _ _ k) by (done || lia).
  destruct Hstr as [Hnz Hz].
  assert (Hrd : ∀ i, 0 ≤ i < Z.min (Z.of_nat k) (n - 1) →
    rd (setb (KString.copy_up m s t (Nat.min (Z.to_nat (n - 1)) (S k)))
      (s + Z.of_nat (Nat.min (Z.to_nat (n - 1)) (S k))) 0) (s + i) = rd m (t + i)).
  { intros i Hi. rewrite rd_setb_ne, copy_up_spec by lia.
    replace (s + i - s) with i by lia. zcases. }
  split_and!.
  - split.
    + intros j Hj. rewrite Hrd by lia. apply Hnz. lia.
    + rewrite rd_setb, copy_up_spec by lia.
      destruct (decide (Z.of_nat k < n - 1)).
      * replace (Z.of_nat (Nat.min k (Z.to_nat (n - 1)))) with (Z.of_nat k) by lia.
        replace (s + Z.of_nat k - s) with (Z.of_nat k) by lia. rewrite Hz. zcases.
      * zcases.
  - done.
  - intros a Ha. rewrite rd_setb_ne, copy_up_spec by lia. zcases.
Qed.

Lemma safestrcpy_terminates_witness :
  cstr (KString.safestrcpy (setb (setb ∅ 100 104) 101 105) 200 100 2) 200 1.
Proof.
  apply (safestrcpy_terminates (setb (setb ∅ 100 104) 101 105) 200 100 2 2).
  - split; [|reflexivity]. intros j Hj.
    assert (j = 0 ∨ j = 1) as [-> | ->] by lia; vm_compute; congruence.
  - lia.
  - lia.
Defined.

Lemma strlen_loop_spec fuel m s k n :
  cstr m s k → 0 ≤ n ≤ Z.of_nat k → (Z.to_nat (Z.of_nat k - n) < fuel)%nat →
  KString.strlen_loop fuel m s n = Some (Z.of_nat k).
Proof.
  intros [Hnz Hz]. revert n. induction fuel as [|f IH]; intros n Hn Hf; [lia|].
  simpl. destruct (decide (n = Z.of_nat k)) as [->|].
  - by rewrite Hz.
  - destruct (Z.eqb_spec (rd m (s + n)) 0) as [E|_]; [|apply IH; lia].
    exfalso. apply (Hnz n); [lia|done].
Qed.

(** The characters a comparison of at most [n] bytes can see at [p]. *)
Fixpoint name_at (m : mem) (p : Z) (n : nat) : list Z :=
  match n with
  | O => []
  | S n' => if rd m p =? 0 then [] else rd m p :: name_at m (p + 1) n'
  end.

(** Strncmp is zero exactly when the two strings, cut at [n]
    characters, are the same. *)
Theorem strncmp_zero_iff (m : mem) (p q : Z) (n : nat) :
  KString.strncmp m p q n = 0 ↔ name_at m p n = name_at m q n.
Proof.
  revert p q. induction n as [|n IH]; intros p q; simpl; [done|].
  destruct (Z.eqb_spec (rd m p) 0) as [Hp|Hp]; simpl.
  - rewrite Hp. destruct (Z.eqb_spec (rd m q) 0) as [Hq|Hq].
    + rewrite Hq. done.
    + split; [lia|done].
  - destruct (Z.eqb_spec (rd m p) (rd m q)) as [He|He].
    + rewrite <- He. destruct (Z.eqb_spec (rd m p) 0); [done|].
      rewrite IH. split; [by intros ->|by intros [=]].
    + split; [lia|]. destruct (Z.eqb_spec (rd m q) 0); intros [=]. done.
Qed.

(** ** ulib.c *)

(** The value of a run of decimal digits. *)
Definition digits_value (ds : list Z) (acc : Z) : Z :=
  fold_left (λ n c, n * 10 + (c - 48)) ds acc.

Lemma digits_value_ge ds acc : 0 ≤ acc → Forall (λ c, 48 ≤ c ≤ 57) ds →
  acc ≤ digits_value ds acc.
Proof.
  revert acc. induction ds as [|c ds IH]; intros acc Ha Hds; simpl; [lia|].
  inversion Hds; subst. unfold digits_value in *. simpl.
  specialize (IH (acc * 10 + (c - 48)) ltac:(lia) ltac:(done)). lia.
Qed.

Lemma atoi_loop_value m ds s fuel acc :
  Forall (λ c, 48 ≤ c ≤ 57) ds →
  (∀ i c, ds !! i = Some c → rd m (s + Z.of_nat i) = c) →
  ¬ (48 ≤ rd m (s + Z.of_nat (length ds)) ≤ 57) →
  0 ≤ acc → digits_value ds acc < 2 ^ 31 → (length ds < fuel)%nat →
  Ulib.atoi_loop fuel m s acc = Some (digits_value ds acc).
Proof.
  intros Hds. revert s fuel acc.
  induction Hds as [|c ds Hc Hds IH]; intros s fuel acc Hrd Hend Ha Hv Hf;
    (destruct fuel as [|fuel]; [simpl in Hf; lia|]).
  - rewrite Z.add_0_r in Hend. simpl. zcases.
  - pose proof (Hrd 0%nat c eq_refl) as H0. rewrite Z.add_0_r in H0.
    pose proof (digits_value_ge ds (acc * 10 + (c - 48)) ltac:(lia) Hds) as Hge.
    simpl in *. rewrite H0. change (digits_value (c :: ds) acc)
      with (digits_value ds (acc * 10 + (c - 48))) in *.
    destruct (Z.leb_spec 48 c), (Z.leb_spec c 57); try lia. simpl.
    replace (acc * 10 + c - 48) with (acc * 10 + (c - 48)) by lia.
    rewrite i32_small by lia. apply IH; try lia.
    + intros i x Hx. rewrite <- Z.add_assoc, Z.add_1_l, <- Nat2Z.inj_succ.
      by apply Hrd.
    + by rewrite <- Z.add_assoc, Z.add_1_l, <- Nat2Z.inj_succ.
Qed.

(** On a string that starts with the digits [ds], followed by some
    other character, atoi returns their value when it fits in an int. *)
Theorem atoi_value (m : mem) (s : Z) (ds : list Z) (fuel : nat) :
  Forall (λ c, 48 ≤ c ≤ 57) ds →
  (∀ i c, ds !! i = Some c → rd m (s + Z.of_nat i) = c) →
  ¬ (48 ≤ rd m (s + Z.of_nat (length ds)) ≤ 57) →
  digits_value ds 0 < 2 ^ 31 → (length ds < fuel)%nat →
  Ulib.atoi fuel m s = Some (digits_value ds 0).
Proof. intros. by apply atoi_loop_value. Qed.

Lemma atoi_value_witness :
  Ulib.atoi 10 (setb (setb ∅ 100 52) 101 50) 100 = Some 42.
Proof.
  apply (atoi_value _ 100 [52; 50] 10).
  - repeat constructor; lia.
  - intros i c Hi. destruct i as [|[|i]]; simplify_eq/=; reflexivity.
  - vm_compute. intros [H _]. apply H. reflexivity.
  - reflexivity.
  - simpl. lia.
Defined.

(** The user-space memmove only copies upwards.  It agrees with the
    kernel's memmove unless the source starts below an overlapping
    destination, and there it is wrong: shifting [1; 2; 3] up by one byte gives
    [1; 1; 1; 1]. *)
Theorem ulib_memmove_overlap (m : mem) (dst src n : Z) :
  (0 ≤ n → ¬ (src < dst < src + n) → ∀ a,
     rd (Ulib.memmove m dst src n) a = rd (KString.memmove m dst src n) a) ∧
  let m0 := setb (setb (setb ∅ 100 1) 101 2) 102 3 in
  (rd (Ulib.memmove m0 101 100 3) 103 = 1 ∧ rd (KString.memmove m0 101 100 3) 103 = 3).
Proof.
  split; [|by split].
  intros Hn Hno a. rewrite memmove_rd by done. unfold Ulib.memmove.
  rewrite copy_up_spec, Z2Nat.id by lia. done.
Qed.
