(* ===== verification/Printf.v ===== *)
(** * printf.c: formatted output of user programs

    The output is the list of bytes handed to write() one by one.  The arguments
    are the 32-bit words behind the format on the stack; [str a] is the C string at
    address [a].  A conversion that reaches past the words the caller pushed has no
    result ([None]). *)

From stdpp Require Import base list.
From Stdlib Require Import ZArith Lia.
From S2P Require Import Prelude Cstring.

Definition ch_0 : Z := 48.
Definition ch_minus : Z := 45.
Definition ch_pct : Z := 37.

(** The digits "0123456789ABCDEF". *)
Definition DIGITS : list Z :=
  [48; 49; 50; 51; 52; 53; 54; 55; 56; 57; 65; 66; 67; 68; 69; 70].

(** do buf[i++] = digits[x % base]; while((x /= base) != 0);  The buffer is kept in
    the order it is filled. *)
Fixpoint digit_loop (fuel : nat) (digits : list Z) (base x : Z) (buf : list Z) : option (list Z) :=
  match fuel with
  | O => None
  | S f =>
    let buf := buf ++ [digits.[Z.to_nat (x mod base)]] in
    let x := x `div` base in
    if x =? 0 then Some buf else digit_loop f digits base x buf
  end.

(** 32 iterations are enough for a 32-bit number in any base from 2. *)
Definition digit_fuel : nat := 32.

Definition printint (xx base : Z) (sgn : bool) : option (list Z) :=
  let neg := sgn && (xx <? 0) in
  let x := if neg then u32 (- xx) else u32 xx in
  match digit_loop digit_fuel DIGITS base x [] with
  | None => None
  | Some buf => Some (reverse (if neg then buf ++ [ch_minus] else buf))
  end.

Definition null_text : list Z := [40; 110; 117; 108; 108; 41].   (* "(null)" *)

(** One conversion: the bytes printed for [%c] and the remaining arguments. *)
Definition conversion (str : Z → list Z) (c : Z) (ap : list Z) : option (list Z * list Z) :=
  if c =? 100 then                                 (* d *)
    match ap with
    | [] => None
    | a :: ap => match printint (i32 a) 10 true with Some o => Some (o, ap) | None => None end
    end
  else if (c =? 120) || (c =? 112) then            (* x, p *)
    match ap with
    | [] => None
    | a :: ap => match printint (i32 a) 16 false with Some o => Some (o, ap) | None => None end
    end
  else if c =? 115 then                            (* s *)
    match ap with
    | [] => None
    | a :: ap => Some (if a =? 0 then null_text else str a, ap)
    end
  else if c =? 99 then                             (* c *)
    match ap with [] => None | a :: ap => Some ([u8 a], ap) end
  else if c =? ch_pct then Some ([c], ap)
  else Some ([ch_pct; c], ap).

(** The loop over the format; [pct] is state == '%'. *)
Fixpoint printf_loop (str : Z → list Z) (fmt : list Z) (pct : bool) (ap out : list Z)
  : option (list Z) :=
  match fmt with
  | [] => Some out
  | c :: fmt =>
    if pct then
      match conversion str c ap with
      | None => None
      | Some (o, ap) => printf_loop str fmt false ap (out ++ o)
      end
    else if c =? ch_pct then printf_loop str fmt true ap out
    else printf_loop str fmt false ap (out ++ [c])
  end.

Definition printf (str : Z → list Z) (fmt ap : list Z) : option (list Z) :=
  printf_loop str fmt false ap [].

(** ** The digits of a number *)

Lemma map_reverse {A B} (f : A → B) l : map f (reverse l) = reverse (map f l).
Proof. exact (fmap_reverse f l). Qed.

(** The number a list of digit values stands for, least significant first. *)
Fixpoint le_value (base : Z) (vs : list Z) : Z :=
  match vs with [] => 0 | v :: vs => v + base * le_value base vs end.

(** Digits in range, at least one, and no leading zero. *)
Definition canonical (base : Z) (vs : list Z) : Prop :=
  Forall (λ v, 0 ≤ v < base) vs ∧ vs ≠ [] ∧ (last vs = Some 0 → vs = [0]).

Lemma canonical_cons base v vs : 0 ≤ v < base → 0 < le_value base vs → canonical base vs →
  canonical base (v :: vs).
Proof.
  intros Hv Hp (Hr & Hn & Hl). split_and!; [by constructor|done|].
  destruct vs as [|w vs]; [done|]. rewrite last_cons_cons. intros H. apply Hl in H.
  injection H as -> ->. simpl in Hp. lia.
Qed.

Lemma digit_loop_spec digits base (n : nat) : 2 ≤ base → ∀ x buf fuel,
  0 ≤ x < base ^ Z.of_nat n → (0 < n)%nat → (n ≤ fuel)%nat →
  ∃ vs, digit_loop fuel digits base x buf =
          Some (buf ++ map (λ v, digits.[Z.to_nat v]) vs) ∧
        le_value base vs = x ∧ canonical base vs ∧ (length vs ≤ n)%nat.
Proof.
  intros Hb. induction n as [|n IH]; intros x buf fuel Hx Hn Hf; [lia|].
  destruct fuel as [|fuel]; [lia|]. cbn [digit_loop].
  pose proof (Z.mod_pos_bound x base ltac:(lia)). pose proof (Z.div_mod x base ltac:(lia)).
  destruct (Z.eqb_spec (x `div` base) 0) as [Hz|Hz].
  { exists [x mod base]. simpl. rewrite Z.mul_0_r, Z.add_0_r.
    split_and!; [done|lia| |lia]. split_and!; [by repeat constructor; lia|done|].
    simpl. by intros [= ->]. }
  rewrite Nat2Z.inj_succ, Z.pow_succ_r in Hx by lia.
  assert (Hq : 0 ≤ x `div` base < base ^ Z.of_nat n).
  { split; [by apply Z.div_pos; lia|]. apply Z.div_lt_upper_bound; lia. }
  destruct (decide (n = 0%nat)) as [->|Hn0]; [simpl in Hq; lia|].
  destruct (IH (x `div` base) (buf ++ [digits.[Z.to_nat (x mod base)]]) fuel)
    as (vs & Hl & Hv & Hc & Hlen); [done|lia|lia|].
  exists (x mod base :: vs). split_and!.
  - rewrite Hl, <- app_assoc. done.
  - simpl. rewrite Hv. lia.
  - apply canonical_cons; [done|lia|done].
  - simpl. lia.
Qed.

(** The digits [digit_loop] finds for a 32-bit number: at most ten from base 10. *)
Lemma digits_of digits base x : 10 ≤ base → 0 ≤ x < 2 ^ 32 →
  ∃ vs, digit_loop digit_fuel digits base x [] = Some (map (λ v, digits.[Z.to_nat v]) vs) ∧
        le_value base vs = x ∧ canonical base vs ∧ (length vs ≤ 10)%nat.
Proof.
  intros Hb Hx. apply (digit_loop_spec digits base 10 ltac:(lia) x []); [|lia|unfold digit_fuel; lia].
  pose proof (Z.pow_le_mono_l 10 base (Z.of_nat 10) ltac:(lia)). simpl in *. lia.
Qed.

Lemma printint_digits xx base sgn : 10 ≤ base → - 2 ^ 31 ≤ xx < 2 ^ 31 →
  ∃ vs, printint xx base sgn = Some ((if sgn && (xx <? 0) then [ch_minus] else []) ++
                                     map (λ v, DIGITS.[Z.to_nat v]) (reverse vs)) ∧
        le_value base vs = (if sgn then Z.abs xx else u32 xx) ∧ canonical base vs ∧
        (length vs ≤ 10)%nat.
Proof.
  intros Hb Hx. unfold printint.
  set (x := if sgn && (xx <? 0) then u32 (- xx) else u32 xx).
  assert (Hx' : x = if sgn then Z.abs xx else u32 xx).
  { unfold x. destruct sgn; [|done]. simpl. destruct (Z.ltb_spec xx 0); rewrite u32_small; lia. }
  destruct (digits_of DIGITS base x Hb) as (vs & Hl & Hv & Hc & Hlen).
  { unfold x. destruct (_ && _); apply u32_range. }
  exists vs. rewrite Hl, Hv. split_and!; try done.
  destruct (sgn && (xx <? 0)); [|by rewrite map_reverse].
  by rewrite reverse_app, reverse_singleton, map_reverse.
Qed.

(** Printint writes the number in its base: a minus sign exactly for a
    negative number printed as signed, then the digits, most significant first,
    without a leading zero; they stand for the absolute value (for the 32-bit
    pattern when printed as unsigned), and with the sign they fit the 16-byte
    buffer. *)
Theorem printint_correct (xx base : Z) (sgn : bool) :
  10 ≤ base ≤ 16 → - 2 ^ 31 ≤ xx < 2 ^ 31 →
  ∃ vs out, printint xx base sgn = Some out ∧
    out = (if sgn && (xx <? 0) then [ch_minus] else []) ++
          map (λ v, DIGITS.[Z.to_nat v]) (reverse vs) ∧
    le_value base vs = (if sgn then Z.abs xx else u32 xx) ∧ canonical base vs ∧
    (length out ≤ 16)%nat.
Proof.
  intros Hb Hx. destruct (printint_digits xx base sgn ltac:(lia) Hx) as (vs & Hp & Hv & Hc & Hl).
  eexists vs, _. split_and!; [done|done|done|done|].
  rewrite length_app, length_map, length_reverse. destruct (_ && _); simpl; lia.
Qed.

Lemma printint_correct_witness :
  ∃ vs out, printint (-2147483648) 10 true = Some out ∧
    out = [ch_minus] ++ map (λ v, DIGITS.[Z.to_nat v]) (reverse vs) ∧
    le_value 10 vs = 2147483648 ∧ canonical 10 vs ∧ (length out ≤ 16)%nat.
Proof. apply (printint_correct (-2147483648) 10 true); lia. Defined.

(** ** Reading a number back *)

Lemma digits_value_app ds c acc : digits_value (ds ++ [c]) acc = digits_value ds acc * 10 + (c - 48).
Proof. unfold digits_value. by rewrite fold_left_app. Qed.

Lemma DIGITS_decimal v : 0 ≤ v < 10 → DIGITS.[Z.to_nat v] = 48 + v.
Proof.
  intros Hv. assert (v = 0 ∨ v = 1 ∨ v = 2 ∨ v = 3 ∨ v = 4 ∨ v = 5 ∨ v = 6 ∨ v = 7 ∨ v = 8 ∨ v = 9)
    as Hc by lia. repeat destruct Hc as [->|Hc]; try done. by subst v.
Qed.

Lemma decimal_value vs : Forall (λ v, 0 ≤ v < 10) vs →
  digits_value (map (λ v, DIGITS.[Z.to_nat v]) (reverse vs)) 0 = le_value 10 vs.
Proof.
  induction 1 as [|v vs Hv Hvs IH]; [done|].
  rewrite reverse_cons, map_app. simpl map. rewrite digits_value_app, IH, DIGITS_decimal by done.
  cbn [le_value]. lia.
Qed.

(** A non-negative number printed with %d and stored in memory, followed by a
    byte that is not a digit, is read back by atoi. *)
Theorem printint_atoi (n : Z) (m : mem) (s : Z) :
  0 ≤ n < 2 ^ 31 →
  (∃ out, printint n 10 true = Some out ∧
     (∀ i c, out !! i = Some c → rd m (s + Z.of_nat i) = c) ∧
     ¬ (48 ≤ rd m (s + Z.of_nat (length out)) ≤ 57)) →
  Ulib.atoi 17 m s = Some n.
Proof.
  intros Hn (out & Ho & Hm & He).
  destruct (printint_digits n 10 true ltac:(lia) ltac:(lia)) as (vs & Hp & Hv & Hc & Hl).
  destruct Hc as (Hr & _). rewrite Hp in Ho. injection Ho as <-.
  destruct (Z.ltb_spec n 0); [lia|]. simpl app in *.
  rewrite Z.abs_eq in Hv by lia. rewrite <- Hv, <- (decimal_value vs) by done.
  unfold Ulib.atoi. apply atoi_loop_value; try done.
  - rewrite Forall_map, Forall_reverse. eapply Forall_impl; [exact Hr|].
    intros v Hvr. simpl in *. rewrite DIGITS_decimal by done. lia.
  - rewrite decimal_value by done. lia.
  - rewrite length_map, length_reverse. lia.
Qed.

Lemma printint_atoi_witness : Ulib.atoi 17 (setb (setb ∅ 100 52) 101 50) 100 = Some 42.
Proof.
  apply (printint_atoi 42 _ 100); [lia|]. exists [52; 50]. split_and!.
  - by vm_compute.
  - intros i c Hi. destruct i as [|[|i]]; simplify_eq/=; reflexivity.
  - vm_compute. intros [H _]. apply H. reflexivity.
Defined.
