(* ===== verification/Grep.v ===== *)
(** * grep.c: the regular-expression matcher and the line loop

    A pattern and a text are the bytes of a C string before its terminating
    zero; the end of the list is the zero byte the code tests for.  The matcher
    is compared with a reference semantics of patterns; the loop of grep() keeps
    its 1024-byte buffer, with whatever earlier reads left in it. *)

From stdpp Require Import base list.
From Stdlib Require Import ZArith Lia.
From S2P Require Import Prelude.

Definition CARET : Z := 94.
Definition DOLLAR : Z := 36.
Definition STAR : Z := 42.
Definition DOT : Z := 46.
Definition NL : Z := 10.

(** matchstar(c, re, text): [here] is the search for [re]. *)
Fixpoint matchstar (here : list Z → bool) (c : Z) (text : list Z) : bool :=
  if here text then true
  else match text with
       | [] => false
       | t :: text' => if (t =? c) || (c =? DOT) then matchstar here c text' else false
       end.

Fixpoint matchhere (re text : list Z) : bool :=
  match re with
  | [] => true
  | c :: re1 =>
    match re1 with
    | d :: re2 =>
      if d =? STAR then matchstar (matchhere re2) c text
      else match text with
           | t :: text' => if (c =? DOT) || (c =? t) then matchhere re1 text' else false
           | [] => false
           end
    | [] =>
      if c =? DOLLAR then match text with [] => true | _ => false end
      else match text with
           | t :: text' => if (c =? DOT) || (c =? t) then matchhere re1 text' else false
           | [] => false
           end
    end
  end.

(** The do-while of match: every suffix of the text, the empty one included. *)
Fixpoint match_from (re text : list Z) : bool :=
  if matchhere re text then true
  else match text with [] => false | _ :: text' => match_from re text' end.

Definition match_re (re text : list Z) : bool :=
  match re with
  | c :: re' => if c =? CARET then matchhere re' text else match_from re text
  | [] => match_from re text
  end.

(** ** The loop of grep()

    [buf] has 1024 bytes; the byte behind it is zero (it is in the program's bss
    segment).  [strchr_nl fuel buf p] is strchr(buf + p, '\n'). *)

Definition BUFSZ : nat := 1024.

Fixpoint strchr_nl (fuel : nat) (buf : list Z) (p : nat) : option nat :=
  match fuel with
  | O => None
  | S f =>
    let c := buf.[p] in
    if c =? 0 then None else if c =? NL then Some p else strchr_nl f buf (S p)
  end.

(** The text of the C string at [p]. *)
Fixpoint cstring (fuel : nat) (buf : list Z) (p : nat) : list Z :=
  match fuel with
  | O => []
  | S f => let c := buf.[p] in if c =? 0 then [] else c :: cstring f buf (S p)
  end.

(** The inner while loop.  Returns the buffer, the new [p] and the output.  A line
    that does not match keeps the zero written over its newline. *)
Fixpoint grep_lines (fuel : nat) (re : list Z) (buf : list Z) (p : nat) (out : list Z)
  : list Z * nat * list Z :=
  match fuel with
  | O => (buf, p, out)
  | S f =>
    match strchr_nl (S BUFSZ) buf p with
    | None => (buf, p, out)
    | Some q =>
      let buf1 := <[q := 0]> buf in
      if match_re re (cstring (S BUFSZ) buf1 p) then
        let buf2 := <[q := NL]> buf1 in
        grep_lines f re buf2 (S q) (out ++ take (S q - p) (drop p buf2))
      else grep_lines f re buf1 (S q) out
    end
  end.

(** The outer loop on a file: read() delivers as much of the file as fits. *)
Fixpoint grep_loop (fuel : nat) (re : list Z) (file buf : list Z) (m : nat) (out : list Z)
  : option (list Z) :=
  match fuel with
  | O => None
  | S f =>
    let chunk := take (BUFSZ - m) file in
    if (length chunk =? 0)%nat then Some out
    else
      let buf := splice buf m chunk in
      let m := (m + length chunk)%nat in
      let '(buf, p, out) := grep_lines (S BUFSZ) re buf 0 out in
      let m := if (p =? 0)%nat then 0%nat else m in
      let '(buf, m) :=
        (if (0 <? m)%nat then
           let m := (m - p)%nat in (splice buf 0 (take m (drop p buf)), m)
         else (buf, m)) in
      grep_loop f re (drop (length chunk) file) buf m out
  end.

Definition grep (re file : list Z) : option (list Z) :=
  grep_loop (S (S (length file))) re file (replicate BUFSZ 0) 0 [].

(** ** Reference semantics of patterns

    A pattern is a sequence of characters, each alone or starred, and possibly a
    final dollar. *)

Fixpoint parse_re (re : list Z) : list (Z * bool) * bool :=
  match re with
  | [] => ([], false)
  | c :: re1 =>
    match re1 with
    | [] => if c =? DOLLAR then ([], true) else ([(c, false)], false)
    | d :: re2 =>
      if d =? STAR then ((c, true) :: (parse_re re2).1, (parse_re re2).2)
      else ((c, false) :: (parse_re re1).1, (parse_re re1).2)
    end
  end.

(** The character [c] of a pattern stands for [t]. *)
Definition stands (c t : Z) : Prop := c = DOT ∨ c = t.

(** The words a sequence of items describes. *)
Inductive word : list (Z * bool) → list Z → Prop :=
| word_nil : word [] []
| word_one c t l w : stands c t → word l w → word ((c, false) :: l) (t :: w)
| word_stop c l w : word l w → word ((c, true) :: l) w
| word_more c t l w : stands c t → word ((c, true) :: l) w → word ((c, true) :: l) (t :: w).

(** [text] begins with a word of the pattern, which reaches its end if the pattern
    has a final dollar. *)
Definition begins (p : list (Z * bool) * bool) (text : list Z) : Prop :=
  ∃ w rest, text = w ++ rest ∧ word p.1 w ∧ (p.2 = true → rest = []).

Lemma stands_bool c t : (c =? DOT) || (c =? t) = true ↔ stands c t.
Proof. unfold stands. by rewrite orb_true_iff, !Z.eqb_eq. Qed.

Lemma begins_nil text : begins ([], false) text.
Proof. exists [], text. split_and!; [done|constructor|done]. Qed.

Lemma begins_one c l e t text :
  begins ((c, false) :: l, e) (t :: text) ↔ stands c t ∧ begins (l, e) text.
Proof.
  split.
  - intros (w & rest & Ht & Hw & He). simpl in Hw. inversion Hw; subst. simpl in Ht.
    injection Ht as -> ->. split; [done|]. by eexists _, rest.
  - intros (Hs & w & rest & -> & Hw & He). exists (t :: w), rest.
    split_and!; [done|by constructor|done].
Qed.

Lemma begins_one_nil c l e : ¬ begins ((c, false) :: l, e) [].
Proof.
  intros (w & rest & Ht & Hw & He). simpl in Hw. inversion Hw; subst. done.
Qed.

Lemma begins_star c l e text : begins ((c, true) :: l, e) text ↔
  begins (l, e) text ∨ ∃ t text', text = t :: text' ∧ stands c t ∧ begins ((c, true) :: l, e) text'.
Proof.
  split.
  - intros (w & rest & -> & Hw & He). simpl in Hw. inversion Hw; subst.
    + left. by eexists _, rest.
    + right. eexists _, _. split_and!; [done|done|]. by eexists _, rest.
  - intros [(w & rest & -> & Hw & He)|(t & text' & -> & Hs & w & rest & -> & Hw & He)].
    + exists w, rest. split_and!; [done|by constructor|done].
    + exists (t :: w), rest. split_and!; [done|by constructor|done].
Qed.

Lemma matchstar_spec here c l e :
  (∀ text, here text = true ↔ begins (l, e) text) →
  ∀ text, matchstar here c text = true ↔ begins ((c, true) :: l, e) text.
Proof.
  intros Hh. induction text as [|t text IH]; simpl; rewrite begins_star, <- Hh.
  - destruct (here []); [by split; [left|]|]. split; [done|]. intros [?|(? & ? & ? & _)]; done.
  - destruct (here (t :: text)); [by split; [left|]|].
    rewrite (Z.eqb_sym t c), orb_comm. destruct (_ || _) eqn:E.
    + apply stands_bool in E. rewrite IH. split.
      * intros H. right. by eexists _, _.
      * intros [?|(t' & text' & [= <- <-] & _ & H)]; done.
    + split; [done|]. intros [?|(t' & text' & [= <- <-] & Hs & _)]; [done|].
      apply stands_bool in Hs. congruence.
Qed.

Lemma matchhere_cons2 c d re text : matchhere (c :: d :: re) text =
  (if d =? STAR then matchstar (matchhere re) c text
   else match text with
        | t :: text' => if (c =? DOT) || (c =? t) then matchhere (d :: re) text' else false
        | [] => false
        end).
Proof. done. Qed.

Lemma parse_re_cons2 c d re : parse_re (c :: d :: re) =
  (if d =? STAR then ((c, true) :: (parse_re re).1, (parse_re re).2)
   else ((c, false) :: (parse_re (d :: re)).1, (parse_re (d :: re)).2)).
Proof. done. Qed.

(** matchhere recognises the pattern at the start of the text. *)
Lemma matchhere_spec re : ∀ text, matchhere re text = true ↔ begins (parse_re re) text.
Proof.
  induction re as [re IH] using (induction_ltof1 _ (@length Z)). unfold ltof in IH.
  destruct re as [|c [|d re2]]; intros text.
  - simpl. split; [intros _; apply begins_nil|done].
  - simpl. destruct (Z.eqb_spec c DOLLAR).
    + destruct text as [|t text].
      * split; [|done]. intros _. exists [], []. split_and!; [done|constructor|done].
      * split; [done|]. intros (w & rest & Ht & Hw & He). simpl in Hw. inversion Hw; subst.
        simpl in Ht. by rewrite He in Ht.
    + destruct text as [|t text]; [split; [done|intros H; by apply begins_one_nil in H]|].
      rewrite begins_one, <- stands_bool. destruct (_ || _); [|split; [done|by intros [? _]]].
      split; [intros _; split; [done|apply begins_nil]|done].
  - rewrite matchhere_cons2, parse_re_cons2. destruct (Z.eqb_spec d STAR).
    + apply matchstar_spec. intros t. rewrite (IH re2) by (simpl; lia). by destruct (parse_re re2).
    + destruct text as [|t text]; [split; [done|intros H; by apply begins_one_nil in H]|].
      rewrite begins_one, <- stands_bool. destruct (_ || _); [|split; [done|by intros [? _]]].
      rewrite (IH (d :: re2)) by (simpl; lia).
      destruct (parse_re (d :: re2)). simpl. tauto.
Qed.

Lemma match_from_spec re text : match_from re text = true ↔
  ∃ pre suf, text = pre ++ suf ∧ begins (parse_re re) suf.
Proof.
  induction text as [|t text IH]; simpl; destruct (matchhere re _) eqn:E.
  - split; [|done]. intros _. exists [], []. split; [done|]. by apply matchhere_spec.
  - split; [done|]. intros (pre & suf & Ht & H). symmetry in Ht. apply app_eq_nil in Ht as [-> ->].
    apply matchhere_spec in H. congruence.
  - split; [|done]. intros _. exists [], (t :: text). split; [done|]. by apply matchhere_spec.
  - rewrite IH. split.
    + intros (pre & suf & -> & H). by exists (t :: pre), suf.
    + intros ([|t' pre] & suf & Ht & H).
      * simpl in Ht. subst suf. apply matchhere_spec in H. congruence.
      * injection Ht as -> ->. by exists pre, suf.
Qed.

(** C25: Grep's matcher implements its pattern language.  A line matches exactly
    when some part of it is a word of the pattern, where a dot stands for any
    character, a starred character for any number of them, a leading caret forces
    the part to the start of the line and a trailing dollar to its end. *)
Theorem match_re_spec (re text : list Z) :
  match_re re text = true ↔
  let anchored := bool_decide (re.[0] = CARET) in
  let p := parse_re (if anchored then drop 1 re else re) in
  ∃ pre w post, text = pre ++ w ++ post ∧ word p.1 w ∧
    (anchored = true → pre = []) ∧ (p.2 = true → post = []).
Proof.
  assert (Hsearch : ∀ re, match_from re text = true ↔ ∃ pre w post, text = pre ++ w ++ post ∧
    word (parse_re re).1 w ∧ (false = true → pre = []) ∧ ((parse_re re).2 = true → post = [])).
  { intros r. rewrite match_from_spec. split.
    - intros (pre & suf & -> & w & post & -> & Hw & He). by exists pre, w, post.
    - intros (pre & w & post & -> & Hw & _ & He). exists pre, (w ++ post). split; [done|].
      by exists w, post. }
  destruct re as [|c re]; [apply Hsearch|]. unfold match_re. change ((c :: re).[0]) with c.
  destruct (Z.eqb_spec c CARET) as [->|Hc].
  - rewrite bool_decide_eq_true_2 by done. cbn [drop]. rewrite matchhere_spec. split.
    + intros (w & post & -> & Hw & He). by exists [], w, post.
    + intros (pre & w & post & -> & Hw & Hp & He). rewrite Hp by done. by exists w, post.
  - rewrite bool_decide_eq_false_2 by done. apply Hsearch.
Qed.

(** ** The loop on files larger than the buffer *)

Definition lines_of_a (n : nat) : list Z := concat (replicate n [97; NL]).

(** A line: text without a newline or a zero byte. *)
Definition plain (l : list Z) : Prop := Forall (λ c, c ≠ 0 ∧ c ≠ NL) l.
Definition flat (ls : list (list Z)) : list Z := concat (map (λ l, l ++ [NL]) ls).

Lemma nthz_mid (pre post : list Z) c : (pre ++ c :: post).[length pre] = c.
Proof. unfold nthz. by rewrite list_lookup_middle. Qed.

Lemma strchr_nl_found l : ∀ pre post fuel, plain l → (length l < fuel)%nat →
  strchr_nl fuel (pre ++ l ++ NL :: post) (length pre) = Some (length pre + length l)%nat.
Proof.
  induction l as [|c l IH]; intros pre post [|fuel] Hl Hf; try (simpl in Hf; lia); simpl.
  - rewrite nthz_mid. simpl. f_equal; lia.
  - apply Forall_cons in Hl as [[H0 Hn] Hl]. rewrite nthz_mid.
    rewrite (proj2 (Z.eqb_neq c 0) H0), (proj2 (Z.eqb_neq c NL) Hn).
    specialize (IH (pre ++ [c]) post fuel Hl). rewrite length_app in IH. simpl in IH, Hf.
    rewrite <- (app_assoc pre [c]) in IH. simpl in IH. rewrite Nat.add_1_r in IH.
    rewrite IH by lia. f_equal; lia.
Qed.

Lemma strchr_nl_none l : ∀ pre post fuel, plain l →
  strchr_nl fuel (pre ++ l ++ 0 :: post) (length pre) = None.
Proof.
  induction l as [|c l IH]; intros pre post [|fuel] Hl; simpl; try done.
  - by rewrite nthz_mid.
  - apply Forall_cons in Hl as [[H0 Hn] Hl]. rewrite nthz_mid.
    rewrite (proj2 (Z.eqb_neq c 0) H0), (proj2 (Z.eqb_neq c NL) Hn).
    specialize (IH (pre ++ [c]) post fuel Hl). rewrite length_app in IH. simpl in IH.
    rewrite <- (app_assoc pre [c]) in IH. simpl in IH. by rewrite Nat.add_1_r in IH.
Qed.

Lemma cstring_plain l : ∀ pre post fuel, plain l → (length l < fuel)%nat →
  cstring fuel (pre ++ l ++ 0 :: post) (length pre) = l.
Proof.
  induction l as [|c l IH]; intros pre post [|fuel] Hl Hf; try (simpl in Hf; lia); simpl.
  - by rewrite nthz_mid.
  - apply Forall_cons in Hl as [[H0 Hn] Hl]. rewrite nthz_mid.
    rewrite (proj2 (Z.eqb_neq c 0) H0).
    specialize (IH (pre ++ [c]) post fuel Hl). rewrite length_app in IH. simpl in IH, Hf.
    rewrite <- (app_assoc pre [c]) in IH. simpl in IH. rewrite Nat.add_1_r in IH.
    by rewrite IH by lia.
Qed.

Lemma insert_mid (pre l post : list Z) c d :
  <[(length pre + length l)%nat := d]> (pre ++ l ++ c :: post) = pre ++ l ++ d :: post.
Proof.
  rewrite insert_app_r. f_equal. rewrite <- (Nat.add_0_r (length l)). by rewrite insert_app_r.
Qed.

(** The inner loop prints the matching lines of the buffer and stops behind the
    last newline before the zero byte. *)
Lemma grep_lines_spec re tl post ls : ∀ pre out fuel,
  Forall plain ls → plain tl → (length ls < fuel)%nat →
  (length (pre ++ flat ls ++ tl) < S BUFSZ)%nat →
  ∃ buf, grep_lines fuel re (pre ++ flat ls ++ tl ++ 0 :: post) (length pre) out =
    (buf, (length pre + length (flat ls))%nat, out ++ flat (filter (λ l, match_re re l = true) ls)) ∧
    drop (length pre + length (flat ls)) buf = tl ++ 0 :: post.
Proof.
  induction ls as [|l ls IH]; intros pre out [|fuel] Hls Htl Hf Hlen; try (simpl in Hf; lia).
  - cbn [grep_lines]. change (flat []) with (@nil Z). rewrite !app_nil_l, strchr_nl_none by done.
    eexists. rewrite filter_nil, app_nil_r. simpl length. rewrite Nat.add_0_r. split; [done|]. by rewrite drop_app_length.
  - apply Forall_cons in Hls as [Hl Hls]. cbn [grep_lines].
    assert (Hfl : flat (l :: ls) = l ++ NL :: flat ls).
    { unfold flat. simpl. by rewrite <- app_assoc. }
    rewrite Hfl in Hlen |- *. rewrite !length_app in Hlen. simpl in Hlen.
    rewrite <- !app_assoc. simpl app. rewrite strchr_nl_found by (done || (rewrite ?length_app; lia)).
    rewrite !insert_mid, cstring_plain by (done || lia).
    assert (Hp : ∀ c, pre ++ l ++ c :: flat ls ++ tl ++ 0 :: post =
                 (pre ++ l ++ [c]) ++ flat ls ++ tl ++ 0 :: post) by (intros; by rewrite <- !app_assoc).
    assert (Hq : ∀ c : Z, S (length pre + length l) = length (pre ++ l ++ [c])).
    { intros. rewrite !length_app. simpl. lia. }
    assert (Hrun : ∀ c out', ∃ buf, grep_lines fuel re (pre ++ l ++ c :: flat ls ++ tl ++ 0 :: post)
        (S (length pre + length l)) out' =
        (buf, (length pre + length (l ++ NL :: flat ls))%nat,
         out' ++ flat (filter (λ l, match_re re l = true) ls)) ∧
        drop (length pre + length (l ++ NL :: flat ls)) buf = tl ++ 0 :: post).
    { intros c out'. rewrite Hp, (Hq c).
      destruct (IH (pre ++ l ++ [c]) out' fuel) as (buf & Hb & Hd); try done.
      { simpl in Hf; lia. } { rewrite !length_app. simpl. lia. }
      assert (He : (length (pre ++ l ++ [c]) + length (flat ls) =
                    length pre + length (l ++ NL :: flat ls))%nat)
        by (rewrite !length_app; simpl; lia).
      rewrite He in Hb, Hd. by exists buf. }
    rewrite filter_cons. destruct (match_re re l) eqn:Hm.
    + rewrite decide_True by done. edestruct (Hrun NL) as (buf & Hb & Hd).
      exists buf. split; [|done]. rewrite Hb. f_equal.
      rewrite drop_app_length.
      replace (S (length pre + length l) - length pre)%nat with (length (l ++ [NL]))
        by (rewrite length_app; simpl; lia).
      replace (l ++ NL :: flat ls ++ tl ++ 0 :: post) with ((l ++ [NL]) ++ flat ls ++ tl ++ 0 :: post)
        by (by rewrite <- app_assoc).
      rewrite take_app_length. unfold flat. simpl. by rewrite <- app_assoc.
    + rewrite decide_False by done. apply Hrun.
Qed.

Lemma length_lines ls : (length ls ≤ length (flat ls))%nat.
Proof. induction ls as [|l ls IH]; [done|]. unfold flat in *. simpl. rewrite !length_app. simpl. lia. Qed.

(** For a file of fewer than 1024 bytes without zero bytes, grep prints
    exactly the matching lines, in order; what follows the last newline is not a
    line and is never printed. *)
Theorem grep_prints_matches (re : list Z) (ls : list (list Z)) (tl : list Z) :
  Forall plain ls → plain tl → (length (flat ls ++ tl) < BUFSZ)%nat →
  grep re (flat ls ++ tl) = Some (flat (filter (λ l, match_re re l = true) ls)).
Proof.
  intros Hls Htl Hlen. unfold grep. cbn [grep_loop]. rewrite Nat.sub_0_r, take_ge by lia.
  destruct (Nat.eqb_spec (length (flat ls ++ tl)) 0) as [H0|_].
  { pose proof (length_lines ls). rewrite length_app in H0.
    destruct ls; [done|simpl in *; lia]. }
  assert (Hb : splice (replicate BUFSZ 0) 0 (flat ls ++ tl) =
    [] ++ flat ls ++ tl ++ 0 :: replicate (BUFSZ - S (length (flat ls ++ tl))) 0).
  { unfold splice. rewrite take_0, drop_replicate, !app_nil_l, <- app_assoc. do 2 f_equal.
    replace (BUFSZ - (0 + length (flat ls ++ tl)))%nat
      with (S (BUFSZ - S (length (flat ls ++ tl)))) by lia. done. }
  rewrite Hb.
  destruct (grep_lines_spec re tl (replicate (BUFSZ - S (length (flat ls ++ tl))) 0) ls [] [] (S BUFSZ))
    as (buf & Hg & Hd); try done.
  { pose proof (length_lines ls). rewrite length_app in Hlen. lia. }
  { rewrite app_nil_l. lia. }
  change (length []) with 0%nat in Hg. rewrite Hg, drop_all.
  destruct (if (_ <? _)%nat then _ else _). rewrite take_nil. done.
Qed.

Lemma grep_prints_matches_witness :
  grep [97] (flat [[97; 98]; [99]; [98; 97]] ++ [97]) = Some (flat [[97; 98]; [98; 97]]).
Proof.
  refine (grep_prints_matches [97] [[97; 98]; [99]; [98; 97]] [97] _ _ _).
  - repeat constructor; done.
  - repeat constructor; done.
  - vm_compute. lia.
Defined.

(** Grep does not terminate the data it read with a zero before it searches
    for newlines, so the search runs on into what earlier reads left in the buffer:
    for a file of 550 matching lines it prints 1024. *)
Theorem grep_rereads_buffer : grep [97] (lines_of_a 550) = Some (lines_of_a 1024).
Proof. by vm_compute. Qed.
