(* ===== verification/Console.v ===== *)
(** * console.c: the screen, formatted kernel output and the input line editor

    The state is the screen memory and cursor of the CGA adapter, the bytes sent to
    the serial port, and the input ring.  The serial port is taken to be present.
    consoleread and consolewrite, which also lock an inode, are in ConsoleDev.v. *)

From stdpp Require Import base list strings.
From Stdlib Require Import ZArith Lia.
From S2P Require Import Prelude Kmonad Ring Printf.

Definition INPUT_BUF : Z := 128.
Definition BACKSPACE : Z := 0x100.

(** The input ring: buf, and the uint indices r (read), w (write), e (edit). *)
Record input : Type := Input { ibuf : list Z; ir : Z; iw : Z; ie : Z }.

Record cst : Type := Cst {
  locking : bool; panicked : bool;
  crt : list Z; pos : Z;          (** CGA memory and the cursor register *)
  uart : list Z;                  (** bytes sent to the serial port *)
  inp : input
}.

Definition set_crt (c : list Z) (p : Z) (s : cst) : cst :=
  Cst (locking s) (panicked s) c p (uart s) (inp s).
Definition set_uart (u : list Z) (s : cst) : cst :=
  Cst (locking s) (panicked s) (crt s) (pos s) u (inp s).
Definition set_inp (i : input) (s : cst) : cst :=
  Cst (locking s) (panicked s) (crt s) (pos s) (uart s) i.
Definition set_locking (b : bool) (s : cst) : cst :=
  Cst b (panicked s) (crt s) (pos s) (uart s) (inp s).
Definition set_panicked (b : bool) (s : cst) : cst :=
  Cst (locking s) b (crt s) (pos s) (uart s) (inp s).

(** ** The screen *)

Definition NL : Z := 10.
Definition BLANK : Z := Z.lor 32 0x0700.

(** Where the cursor goes, before any scrolling, and the cell written on the way. *)
Definition cga_cell (c : Z) (crt : list Z) (pos : Z) : option (list Z * Z) :=
  if c =? NL then Some (crt, pos + (80 - pos mod 80))
  else if c =? BACKSPACE then Some (crt, if pos >? 0 then pos - 1 else pos)
  else match array_set crt pos (Z.lor (Z.land c 0xff) 0x0700) with
       | Some crt => Some (crt, pos + 1)
       | None => None
       end.

(** memmove of 23 rows up, then the rest of row 23 cleared. *)
Definition cga_scroll (crt : list Z) (pos : Z) : list Z * Z :=
  if pos / 80 >=? 24 then
    let crt := splice crt 0 (take (23 * 80) (drop 80 crt)) in
    let pos := pos - 80 in
    (splice crt (Z.to_nat pos) (replicate (Z.to_nat (24 * 80 - pos)) 0), pos)
  else (crt, pos).

(** The cursor register has 16 bits: two ports of 8 bits each. *)
Definition cgaputc (c : Z) : M cst unit :=
  s ← gets (λ s, s);
  r ← defined (cga_cell c (crt s) (pos s));
  let '(m, p) := cga_scroll r.1 r.2 in
  m ← defined (array_set m p BLANK);
  modify (set_crt m (u16 p)).

Definition uartputc (c : Z) : M cst unit :=
  modify (λ s, set_uart (uart s ++ [u8 c]) s).

Definition consputc (c : Z) : M cst unit :=
  p ← gets panicked;
  if (p : bool) then diverge
  else
    (if c =? BACKSPACE then uartputc 8;; uartputc 32;; uartputc 8 else uartputc c);;
    cgaputc c.

Fixpoint consputs (l : list Z) : M cst unit :=
  match l with [] => mret tt | c :: l => consputc c;; consputs l end.

(** ** cprintf *)

(** The digits "0123456789abcdef". *)
Definition digits : list Z :=
  [48; 49; 50; 51; 52; 53; 54; 55; 56; 57; 97; 98; 99; 100; 101; 102].

(** printint: the bytes it hands to consputc. *)
Definition printint (xx base : Z) (sign : bool) : option (list Z) :=
  let sign := sign && (xx <? 0) in
  let x := if sign then u32 (- xx) else u32 xx in
  match digit_loop digit_fuel digits base x [] with
  | None => None
  | Some buf => Some (reverse (if sign then buf ++ [ch_minus] else buf))
  end.

(** The loop over the format.  A word read behind the last argument is undefined. *)
Fixpoint cprintf_loop (str : Z → list Z) (fmt argp : list Z) : M cst unit :=
  match fmt with
  | [] => mret tt
  | c :: fmt =>
    if negb (c =? ch_pct) then consputc c;; cprintf_loop str fmt argp
    else
      match fmt with
      | [] => mret tt
      | c :: fmt =>
        if c =? 100 then
          match argp with
          | [] => undefined
          | a :: argp =>
            o ← defined (printint (i32 a) 10 true); consputs o;; cprintf_loop str fmt argp
          end
        else if (c =? 120) || (c =? 112) then
          match argp with
          | [] => undefined
          | a :: argp =>
            o ← defined (printint (i32 a) 16 false); consputs o;; cprintf_loop str fmt argp
          end
        else if c =? 115 then
          match argp with
          | [] => undefined
          | a :: argp =>
            consputs (if a =? 0 then null_text else str a);; cprintf_loop str fmt argp
          end
        else if c =? ch_pct then consputc ch_pct;; cprintf_loop str fmt argp
        else consputc ch_pct;; consputc c;; cprintf_loop str fmt argp
      end
  end.

(** [None] is a null format. *)
Definition cprintf (str : Z → list Z) (fmt : option (list Z)) (argp : list Z) : M cst unit :=
  lk ← gets locking;
  (if (lk : bool) then acquire LCons else mret tt);;
  match fmt with
  | None => panic "null fmt"
  | Some fmt =>
    cprintf_loop str fmt argp;;
    if (lk : bool) then release LCons else mret tt
  end.

(** panic, up to its last loop; "cpu%d: panic: " with the CPU number, the message,
    and the ten return addresses [pcs]. *)
Definition panic_fmt : list Z :=
  [99; 112; 117; 37; 100; 58; 32; 112; 97; 110; 105; 99; 58; 32].
Definition panic_print (str : Z → list Z) (id : Z) (msg : list Z) (pcs : list Z) : M cst unit :=
  modify (set_locking false);;
  cprintf str (Some panic_fmt) [id];;
  cprintf str (Some msg) [];;
  cprintf str (Some [NL]) [];;
  mfor 0 10 (λ i, cprintf str (Some [32; 37; 112]) [pcs.[i]]);;
  modify (set_panicked true).

(** ** The line editor *)

Definition upd_inp (f : input → input) : M cst unit := modify (λ s, set_inp (f (inp s)) s).
Definition slot (i : Z) : nat := ring_slot INPUT_BUF i.

(** case C('U') *)
Fixpoint kill_line (fuel : nat) : M cst unit :=
  match fuel with
  | O => diverge
  | S f =>
    i ← gets inp;
    if negb (ie i =? iw i) && negb ((ibuf i).[slot (u32 (ie i - 1))] =? NL) then
      upd_inp (λ i, Input (ibuf i) (ir i) (iw i) (u32 (ie i - 1)));;
      consputc BACKSPACE;;
      kill_line f
    else mret tt
  end.

Section consoleintr.
(** procdump of proc.c prints the process table with cprintf. *)
Context (procdump : M cst unit).

(** One character from getc(). *)
Definition consoleintr_char (c : Z) : M cst unit :=
  if c =? 16 then procdump
  else if c =? 21 then
    i ← gets inp;
    kill_line (S (Z.to_nat (u32 (ie i - iw i))))
  else if (c =? 8) || (c =? 127) then
    i ← gets inp;
    if negb (ie i =? iw i) then
      upd_inp (λ i, Input (ibuf i) (ir i) (iw i) (u32 (ie i - 1)));;
      consputc BACKSPACE
    else mret tt
  else
    i ← gets inp;
    if negb (c =? 0) && (u32 (ie i - ir i) <? INPUT_BUF) then
      let c := if c =? 13 then NL else c in
      upd_inp (λ i, Input (<[slot (ie i) := u8 c]> (ibuf i)) (ir i) (iw i) (u32 (ie i + 1)));;
      consputc c;;
      i ← gets inp;
      if (c =? NL) || (c =? 4) || (ie i =? u32 (ir i + INPUT_BUF)) then
        upd_inp (λ i, Input (ibuf i) (ir i) (ie i) (ie i));;
        wakeup CInput
      else mret tt
    else mret tt.

Fixpoint consoleintr_loop (cs : list Z) : M cst unit :=
  match cs with
  | [] => mret tt
  | c :: cs => consoleintr_char c;; consoleintr_loop cs
  end.

(** [cs]: what getc() returns before it returns a negative number. *)
Definition consoleintr (cs : list Z) : M cst unit :=
  acquire LInput;;
  consoleintr_loop cs;;
  release LInput.
End consoleintr.

(** ** Taking input: the loop of consoleread

    [n] bytes are still wanted of [target]; [acc] are the bytes delivered.  The inner
    while loop sleeps when there is no input; the outcome says with what is left to
    do, so that the call can go on after a wakeup. *)
Inductive reading : Type :=
| Rdone (n : Z) (acc : list Z)           (** the loop is left *)
| Rkilled (acc : list Z)                 (** proc->killed *)
| Rwait (n : Z) (acc : list Z).          (** asleep on &input.r *)

Fixpoint consoleread_loop (fuel : nat) (killed : bool) (n target : Z) (acc : list Z) (i : input)
  : option (reading * input) :=
  match fuel with
  | O => None
  | S f =>
    if n >? 0 then
      if ir i =? iw i then
        if killed then Some (Rkilled acc, i) else Some (Rwait n acc, i)
      else
        let c := (ibuf i).[slot (ir i)] in
        let i' := Input (ibuf i) (u32 (ir i + 1)) (iw i) (ie i) in
        if c =? 4 then
          Some (Rdone n acc, if n <? target then Input (ibuf i) (u32 (ir i' - 1)) (iw i) (ie i) else i')
        else
          let n := n - 1 in
          if c =? NL then Some (Rdone n (acc ++ [c]), i')
          else consoleread_loop f killed n target (acc ++ [c]) i'
    else Some (Rdone n acc, i)
  end.
