(* ===== verification/ConsoleSpec.v ===== *)
(** * Correctness of the console

    The screen never writes outside the text area, kernel output reaches the serial
    port in order and agrees with printf of the user library, and the input ring
    with its wrapping indices implements a line editor on plain lists. *)

From stdpp Require Import base list strings.
From Stdlib Require Import ZArith Lia.
From S2P Require Import Prelude Kmonad Ring Printf Console.

(** ** The screen *)

(** The cursor is in the first 24 rows of the screen of 25 rows. *)
Definition screen_ok (s : cst) : Prop := length (crt s) = 2000%nat ∧ 0 ≤ pos s < 24 * 80.

(** [s'] is [s] after [out] was printed: sent to the serial port and shown on the screen. *)
Definition printed (out : list Z) (s s' : cst) : Prop :=
  screen_ok s' ∧ uart s' = uart s ++ out ∧ locking s' = locking s ∧
  panicked s' = panicked s ∧ inp s' = inp s.

Lemma array_set_ok {A} (l : list A) i v : 0 ≤ i < Z.of_nat (length l) →
  array_set l i v = Some (<[Z.to_nat i := v]> l).
Proof. intros. unfold array_set. by rewrite decide_True. Qed.

Lemma cga_cell_ok c m p : length m = 2000%nat → 0 ≤ p < 1920 →
  ∃ m' p', cga_cell c m p = Some (m', p') ∧ length m' = 2000%nat ∧ 0 ≤ p' ≤ 1920.
Proof.
  intros Hm Hp. unfold cga_cell. pose proof (Z.mod_pos_bound p 80 ltac:(lia)).
  destruct (c =? NL).
  { pose proof (Z.div_mod p 80 ltac:(lia)). eexists _, _. split_and!; [done|done|lia|].
    assert (p / 80 < 24) by (apply Z.div_lt_upper_bound; lia). lia. }
  destruct (c =? BACKSPACE).
  { eexists _, _. split_and!; [done|done| |]; destruct (Z.gtb_spec p 0); lia. }
  rewrite array_set_ok by lia. eexists _, _. split_and!; [done|by rewrite length_insert|lia|lia].
Qed.

Lemma cga_scroll_ok m p : length m = 2000%nat → 0 ≤ p ≤ 1920 →
  let r := cga_scroll m p in length r.1 = 2000%nat ∧ 0 ≤ r.2 < 1920.
Proof.
  intros Hm Hp. unfold cga_scroll. destruct (Z.geb_spec (p / 80) 24) as [H|H]; cbn [fst snd].
  - assert (p = 1920).
    { pose proof (Z.div_lt_upper_bound p 80 24 ltac:(lia)). lia. }
    subst p. split; [|lia].
    assert (H1 : length (splice m 0 (take (23 * 80) (drop 80 m))) = 2000%nat).
    { rewrite length_splice; rewrite ?length_take, ?length_drop, Hm; lia. }
    rewrite length_splice; rewrite ?length_replicate, ?H1; lia.
  - split; [done|]. split; [lia|]. pose proof (Z.div_le_mono 1920 p 80). 
    destruct (Z.lt_ge_cases p 1920); [done|]. assert (p = 1920) by lia. subst p. done.
Qed.

Lemma cgaputc_ok c k s : screen_ok s →
  ∃ m p, cgaputc c k s = Done tt k (set_crt m p s) ∧ screen_ok (set_crt m p s).
Proof.
  intros [Hl Hp]. unfold cgaputc. 
  destruct (cga_cell_ok c (crt s) (pos s) Hl Hp) as (m1 & p1 & Hc & Hl1 & Hp1).
  pose proof (cga_scroll_ok m1 p1 Hl1 Hp1) as Hs.
  unfold mbind, M_bind. rewrite gets_eq, Hc. cbn [defined mret M_ret fst snd].
  destruct (cga_scroll m1 p1) as [m2 p2]. cbn [fst snd] in Hs. destruct Hs as [Hl2 Hp2].
  unfold mret, M_ret. rewrite array_set_ok by lia. cbn [defined]. unfold mret, M_ret.
  rewrite u16_small by lia. eexists _, _. split; [done|].
  split; cbn; [by rewrite length_insert|lia].
Qed.

(** The bytes a character puts on the serial line. *)
Definition serial (c : Z) : list Z := if c =? BACKSPACE then [8; 32; 8] else [u8 c].

Lemma consputc_ok c k s : screen_ok s → panicked s = false →
  ∃ s', consputc c k s = Done tt k s' ∧ printed (serial c) s s'.
Proof.
  intros Hs Hp. unfold consputc, serial. rewrite (bind_Done _ _ _ _ _ _ _ (gets_eq panicked k s)), Hp.
  set (s1 := set_uart (uart s ++ if c =? BACKSPACE then [8; 32; 8] else [u8 c]) s).
  destruct (cgaputc_ok c k s1) as (m & p & Hc & Hok); [done|].
  exists (set_crt m p s1). split; [|done].
  assert (Hu : (if c =? BACKSPACE then uartputc 8;; uartputc 32;; uartputc 8 else uartputc c) k s
               = Done tt k s1).
  { unfold s1. destruct (c =? BACKSPACE); [|done].
    unfold uartputc, mbind, M_bind. rewrite !modify_eq. cbn [uart set_uart].
    rewrite <- !app_assoc. done. }
  by mb Hu.
Qed.

Lemma printed_trans a b s1 s2 s3 : printed a s1 s2 → printed b s2 s3 → printed (a ++ b) s1 s3.
Proof.
  intros (? & H1 & H2 & H3 & H4) (? & H5 & H6 & H7 & H8).
  split_and!; [done|rewrite H5, H1; by rewrite app_assoc|congruence..].
Qed.

(** [m] prints [out] and does nothing else. *)
Definition puts (m : M cst unit) (out : list Z) : Prop := ∀ k s,
  screen_ok s → panicked s = false → ∃ s', m k s = Done tt k s' ∧ printed out s s'.

Lemma puts_ret : puts (mret tt) [].
Proof.
  intros k s Hs Hp. exists s. split; [done|]. split_and!; try done. by rewrite app_nil_r.
Qed.

Lemma puts_bind m m' a b : puts m a → puts m' b → puts (m;; m') (a ++ b).
Proof.
  intros H H' k s Hs Hp. destruct (H k s Hs Hp) as (s1 & H1 & P1).
  pose proof P1 as (Hs1 & _ & _ & Hp1 & _).
  destruct (H' k s1 Hs1 ltac:(congruence)) as (s2 & H2 & P2).
  exists s2. split; [by mb H1|]. by apply (printed_trans _ _ _ _ _ P1 P2).
Qed.

Lemma puts_char c : puts (consputc c) (serial c).
Proof. intros k s. apply consputc_ok. Qed.

Lemma puts_list l : puts (consputs l) (l ≫= serial).
Proof.
  induction l as [|c l IH]; [apply puts_ret|]. apply puts_bind; [apply puts_char|exact IH].
Qed.

#[export] Hint Resolve puts_ret puts_bind puts_char puts_list : xv6.

(** ** cprintf agrees with printf *)

(** The conversion characters of a format. *)
Fixpoint convs (fmt : list Z) : list Z :=
  match fmt with
  | [] => []
  | c :: fmt' =>
    if c =? ch_pct then match fmt' with [] => [] | d :: fmt'' => d :: convs fmt'' end
    else convs fmt'
  end.

(** %d, %s and %%, and unknown conversions, mean the same in both. *)
Definition common (c : Z) : Prop := c ≠ 99 ∧ c ≠ 120 ∧ c ≠ 112.


Lemma digits_decimal v : 0 ≤ v < 10 → digits.[Z.to_nat v] = DIGITS.[Z.to_nat v].
Proof.
  intros Hv. assert (v = 0 ∨ v = 1 ∨ v = 2 ∨ v = 3 ∨ v = 4 ∨ v = 5 ∨ v = 6 ∨ v = 7 ∨ v = 8 ∨ v = 9)
    as Hc by lia. repeat destruct Hc as [->|Hc]; try done. by subst v.
Qed.

Lemma digit_loop_decimal fuel : ∀ x buf, digit_loop fuel digits 10 x buf = digit_loop fuel DIGITS 10 x buf.
Proof.
  induction fuel as [|fuel IH]; intros x buf; [done|]. cbn [digit_loop].
  rewrite digits_decimal by (apply Z.mod_pos_bound; lia). by rewrite IH.
Qed.

Lemma printint_decimal xx : printint xx 10 true = Printf.printint xx 10 true.
Proof. unfold printint, Printf.printint. by rewrite digit_loop_decimal. Qed.

Lemma printf_loop_acc str fmt : ∀ pct ap out,
  printf_loop str fmt pct ap out = (λ o, out ++ o) <$> printf_loop str fmt pct ap [].
Proof.
  induction fmt as [|c fmt IH]; intros pct ap out; simpl; [by rewrite app_nil_r|].
  destruct pct.
  - destruct (conversion str c ap) as [[o ap']|]; [|done].
    rewrite (IH _ _ (out ++ o)), (IH _ _ o). destruct (printf_loop _ _ _ _ []); simpl; [|done].
    by rewrite app_assoc.
  - destruct (c =? ch_pct); [apply IH|].
    rewrite (IH _ _ (out ++ [c])), (IH _ _ [c]). destruct (printf_loop _ _ _ _ []); simpl; [|done].
    by rewrite <- app_assoc.
Qed.

(** What one conversion prints, in both programs. *)
Lemma printf_step str c fmt ap out : printf_loop str fmt true ap [] = Some out → ∀ fmt',
  fmt = c :: fmt' → ∃ o ap' out', conversion str c ap = Some (o, ap') ∧
    printf_loop str fmt' false ap' [] = Some out' ∧ out = o ++ out'.
Proof.
  intros H fmt' ->. simpl in H. destruct (conversion str c ap) as [[o ap']|]; [|done].
  rewrite printf_loop_acc in H. destruct (printf_loop str fmt' false ap' []) as [out'|] eqn:E; [|done].
  injection H as <-. by eexists o, ap', out'.
Qed.


Lemma bind_serial l1 l2 : (l1 ++ l2) ≫= serial = (l1 ≫= serial) ++ (l2 ≫= serial).
Proof. by rewrite bind_app. Qed.

Lemma puts_defined o out m b : o = Some out → puts m b →
  puts (x ← defined o; consputs x;; m) ((out ≫= serial) ++ b).
Proof. intros -> H. change (puts (consputs out;; m) ((out ≫= serial) ++ b)). auto with xv6. Qed.

(** The text cprintf prints is the one printf prints. *)
Lemma cprintf_loop_puts str fmt : ∀ argp out,
  Forall common (convs fmt) → printf_loop str fmt false argp [] = Some out →
  puts (cprintf_loop str fmt argp) (out ≫= serial).
Proof.
  induction fmt as [fmt IH] using (induction_ltof1 _ (@length Z)). unfold ltof in IH.
  intros argp out Hc Hp. destruct fmt as [|c fmt]; [injection Hp as <-; apply puts_ret|].
  cbn [cprintf_loop]. destruct (Z.eqb_spec c ch_pct) as [->|Hne]; cbn [negb].
  - destruct fmt as [|d fmt]; [injection Hp as <-; apply puts_ret|].
    apply Forall_cons in Hc as [(H1 & H2 & H3) Hc].
    change (printf_loop str (d :: fmt) true argp [] = Some out) in Hp.
    destruct (printf_step str d _ _ _ Hp fmt eq_refl) as (o & ap' & out' & Hv & Hr & ->).
    assert (Hrest : ∀ ap, ap = ap' → puts (cprintf_loop str fmt ap) (out' ≫= serial)).
    { intros ap ->. apply IH; [simpl; lia|done|done]. }
    rewrite bind_serial. unfold conversion in Hv.
    rewrite (proj2 (Z.eqb_neq d 99)), (proj2 (Z.eqb_neq d 120)), (proj2 (Z.eqb_neq d 112)) in * by done.
    cbn [orb] in *. destruct (d =? 100).
    { destruct argp as [|a argp]; [done|]. rewrite printint_decimal.
      destruct (Printf.printint (i32 a) 10 true) as [o'|]; [|done]. injection Hv as -> ->.
      by apply puts_defined; [|apply Hrest]. }
    destruct (d =? 115).
    { destruct argp as [|a argp]; [done|]. injection Hv as <- <-. auto with xv6. }
    destruct (Z.eqb_spec d ch_pct) as [->|]; injection Hv as <- <-.
    + by apply puts_bind; [apply puts_char|apply Hrest].
    + cbn [mbind list_bind]. rewrite <- !app_assoc. cbn [app].
      apply puts_bind; [apply puts_char|]. apply puts_bind; [apply puts_char|by apply Hrest].
  - simpl in Hp. rewrite (proj2 (Z.eqb_neq c ch_pct)) in Hp by done.
    rewrite printf_loop_acc in Hp. destruct (printf_loop str fmt false argp []) as [o|] eqn:E; [|done].
    injection Hp as <-. simpl. apply puts_bind; [apply puts_char|]. apply IH; [simpl; lia| |done].
    simpl in Hc. by rewrite (proj2 (Z.eqb_neq c ch_pct)) in Hc by done.
Qed.

Lemma cprintf_prints str fmt argp out k s :
  Forall common (convs fmt) → Printf.printf str fmt argp = Some out → screen_ok s → panicked s = false → LCons ∉ held k →
  ∃ s', cprintf str (Some fmt) argp k s = Done tt k s' ∧ printed (out ≫= serial) s s'.
Proof.
  intros Hc Hf Hs Hp Hk. unfold cprintf. mb (gets_eq locking k s).
  pose proof (cprintf_loop_puts str fmt argp out Hc Hf) as Hput. destruct (locking s) eqn:El.
  - mb (acquire_eq LCons k s Hk). destruct (Hput (Kctx (LCons :: held k) (wakeups k)) s Hs Hp) as (s' & Hr & Hp').
    exists s'. rewrite (bind_Done _ _ _ _ _ _ _ Hr), release_top. by destruct k.
  - destruct (Hput k s Hs Hp) as (s' & Hr & Hp'). exists s'. mb (ret_eq tt k s). by mb Hr.
Qed.

(** With %d, %s, %% and unknown conversions, cprintf of the kernel sends to
    the serial port what printf of the user library would write, leaves the screen
    with its cursor inside the text area and holds its lock only meanwhile. *)
Theorem cprintf_as_printf (str : Z → list Z) (fmt argp out : list Z) (k : kctx) (s : cst) :
  Forall common (convs fmt) → Printf.printf str fmt argp = Some out →
  screen_ok s → panicked s = false → LCons ∉ held k →
  ∃ s', cprintf str (Some fmt) argp k s = Done tt k s' ∧ screen_ok s' ∧
        uart s' = uart s ++ (out ≫= serial) ∧ inp s' = inp s.
Proof.
  intros Hc Hf Hs Hp Hk. destruct (cprintf_prints str fmt argp out k s Hc Hf Hs Hp Hk) as (s' & R & ? & ? & _ & _ & ?).
  by exists s'.
Qed.

Definition boot_cst : cst :=
  Cst true false (replicate 2000 0) 0 [] (Input (replicate 128 0) 0 0 0).

Lemma cprintf_as_printf_witness :
  ∃ s', cprintf (λ _, [120]) (Some [97; 37; 100; 37; 115; NL]) [7; 5] (Kctx [] []) boot_cst
      = Done tt (Kctx [] []) s' ∧ screen_ok s' ∧ uart s' = [] ++ [97; 55; 120; NL] ∧
      inp s' = inp boot_cst.
Proof.
  apply (cprintf_as_printf (λ _, [120]) [97; 37; 100; 37; 115; NL] [7; 5] [97; 55; 120; NL]
           (Kctx [] []) boot_cst).
  - repeat constructor; done.
  - by vm_compute.
  - by split.
  - done.
  - apply not_elem_of_nil.
Defined.

(** ** The input ring is a line editor *)

(** The abstract editor: lines handed over and not yet read, and the line being typed. *)
Record editor : Type := Editor { ready : list Z; line : list Z }.

(** What a character does to the editor. *)
Definition edit (c : Z) (e : editor) : editor :=
  if c =? 16 then e
  else if c =? 21 then Editor (ready e) []
  else if (c =? 8) || (c =? 127) then Editor (ready e) (removelast (line e))
  else if (c =? 0) || (128 <=? length (ready e ++ line e))%nat then e
  else
    let c := if c =? 13 then NL else c in
    let l := line e ++ [c] in
    if (c =? NL) || (c =? 4) || (length (ready e ++ l) =? 128)%nat then Editor (ready e ++ l) []
    else Editor (ready e) l.

(** The ring holds the editor's text from index r on. *)
Definition ring_rep (i : input) (e : editor) : Prop :=
  length (ibuf i) = 128%nat ∧ 0 ≤ ir i < 2 ^ 32 ∧
  iw i = u32 (ir i + Z.of_nat (length (ready e))) ∧
  ie i = u32 (ir i + Z.of_nat (length (ready e ++ line e))) ∧
  (length (ready e ++ line e) ≤ 128)%nat ∧
  (∀ j, (j < length (ready e ++ line e))%nat →
     (ibuf i).[slot (ir i + Z.of_nat j)] = (ready e ++ line e).[j]) ∧
  Forall (λ c, c ≠ NL) (line e).

Lemma slot_u32 x : slot (u32 x) = slot x.
Proof. apply ring_slot_u32. by exists (2 ^ 25). Qed.

(** e == w exactly when the line being typed is empty. *)
Lemma ring_empty_line i e : ring_rep i e → (ie i =? iw i) = bool_decide (line e = []).
Proof.
  intros (Hl & Hr & Hw & He & Hn & _). rewrite Hw, He.
  destruct (Z.eqb_spec (u32 (ir i + Z.of_nat (length (ready e ++ line e))))
              (u32 (ir i + Z.of_nat (length (ready e))))) as [H|H].
  - apply u32_inj in H; [|lia|rewrite length_app in Hn; lia]. rewrite length_app in H.
    rewrite bool_decide_eq_true_2; [done|]. apply length_zero_iff_nil. lia.
  - rewrite bool_decide_eq_false_2; [done|]. intros E. rewrite E, app_nil_r in H. done.
Qed.

Lemma removelast_length {A} (l : list A) : l ≠ [] → length (removelast l) = (length l - 1)%nat.
Proof.
  intros H. destruct (exists_last H) as (l' & x & ->).
  rewrite removelast_last, length_app. simpl. lia.
Qed.

(** e-- removes the last character of the line. *)
Lemma ring_erase i e : ring_rep i e → line e ≠ [] →
  ring_rep (Input (ibuf i) (ir i) (iw i) (u32 (ie i - 1))) (Editor (ready e) (removelast (line e))).
Proof.
  intros (Hl & Hr & Hw & He & Hn & Hc & Hf) Hne. unfold ring_rep. cbn [ibuf ir iw ie ready line].
  destruct (exists_last Hne) as (l' & x & Hlx). rewrite Hlx in *. rewrite removelast_last.
  rewrite app_assoc in *. rewrite !length_app in *. cbn [length] in *.
  split_and!; [done|lia|lia|done| |lia| |].
  - rewrite He, u32_sub_l. f_equal. lia.
  - intros j Hj. rewrite Hc by lia. unfold nthz. f_equal. apply lookup_app_l. rewrite length_app. lia.
  - by apply Forall_app in Hf as [Hf _].
Qed.

(** The character before e is the last one of the line, never a newline. *)
Lemma ring_last i e : ring_rep i e → line e ≠ [] →
  (ibuf i).[slot (u32 (ie i - 1))] ≠ NL.
Proof.
  intros (Hl & Hr & Hw & He & Hn & Hc & Hf) Hne.
  destruct (exists_last Hne) as (l' & x & Hlx). rewrite Hlx in *.
  apply Forall_app in Hf as [_ Hf]. rewrite Forall_singleton in Hf.
  rewrite app_assoc in *. rewrite length_app in *. cbn [length] in *.
  rewrite slot_u32, He, <- slot_u32, u32_sub_l, slot_u32.
  replace (ir i + Z.of_nat (length (ready e ++ l') + 1) - 1)
    with (ir i + Z.of_nat (length (ready e ++ l'))) by lia.
  rewrite Hc by lia. unfold nthz. rewrite list_lookup_middle by done. exact Hf.
Qed.

(** buf[e++ % INPUT_BUF] = c appends to the line. *)
Lemma ring_append i e c : ring_rep i e → (length (ready e ++ line e) < 128)%nat →
  0 ≤ c < 256 →
  let i' := Input (<[slot (ie i) := u8 c]> (ibuf i)) (ir i) (iw i) (u32 (ie i + 1)) in
  (c ≠ NL → ring_rep i' (Editor (ready e) (line e ++ [c]))) ∧
  ring_rep (Input (ibuf i') (ir i') (ie i') (ie i')) (Editor (ready e ++ line e ++ [c]) []).
Proof.
  intros (Hl & Hr & Hw & He & Hn & Hc & Hf) Hlt Hb. cbn zeta. rewrite u8_small by lia.
  assert (Hcont : ∀ j, (j < length (ready e ++ line e ++ [c]))%nat →
    (<[slot (ie i) := c]> (ibuf i)).[slot (ir i + Z.of_nat j)] = (ready e ++ line e ++ [c]).[j]).
  { rewrite app_assoc, He, slot_u32. apply (holds_append INPUT_BUF); [done| |unfold INPUT_BUF; lia].
    split_and!; unfold INPUT_BUF; [lia|lia|done]. }
  assert (He' : u32 (ie i + 1) = u32 (ir i + Z.of_nat (length (ready e ++ line e ++ [c])))).
  { rewrite He, u32_add_l, app_assoc, (length_app _ [c]). cbn [length]. f_equal. lia. }
  assert (Hlen : (length (ready e ++ line e ++ [c]) ≤ 128)%nat).
  { rewrite app_assoc, length_app. cbn [length]. lia. }
  unfold ring_rep. cbn [ibuf ir iw ie ready line]. rewrite length_insert. split.
  - intros Hnl. split_and!; try done; try lia. apply Forall_app. split; [done|by apply Forall_singleton].
  - rewrite !app_nil_r. split_and!; try done; lia.
Qed.

(** A working console that holds the editor [e]. *)
Definition live (s : cst) (e : editor) : Prop :=
  screen_ok s ∧ panicked s = false ∧ ring_rep (inp s) e.

Lemma live_putc c k s e : live s e → ∃ s', consputc c k s = Done tt k s' ∧ live s' e ∧ inp s' = inp s.
Proof.
  intros (Hs & Hp & Hr). destruct (consputc_ok c k s Hs Hp) as (s' & H & Hs' & _ & _ & Hp' & Hi).
  exists s'. split_and!; [done| |done]. split_and!; [done|congruence|by rewrite Hi].
Qed.

Lemma live_inp i s e e' : live s e → ring_rep i e' → live (set_inp i s) e'.
Proof. intros (Hs & Hp & _) Hr. by split_and!. Qed.

Lemma erase_live k s e : live s e → line e ≠ [] → ∃ s',
  (upd_inp (λ i, Input (ibuf i) (ir i) (iw i) (u32 (ie i - 1)));; consputc BACKSPACE) k s =
    Done tt k s' ∧ live s' (Editor (ready e) (removelast (line e))).
Proof.
  intros Hl Hne. pose proof Hl as (_ & _ & Hr).
  pose proof (live_inp _ s e _ Hl (ring_erase _ _ Hr Hne)) as Hl1.
  destruct (live_putc BACKSPACE k _ _ Hl1) as (s' & H & Hl' & _). exists s'. split; [|done].
  unfold upd_inp. by mb (modify_eq (λ s0, set_inp ((λ i, Input (ibuf i) (ir i) (iw i) (u32 (ie i - 1))) (inp s0)) s0) k s).
Qed.

Lemma kill_line_live k fuel : ∀ s e, live s e → (length (line e) < fuel)%nat →
  ∃ s', kill_line fuel k s = Done tt k s' ∧ live s' (Editor (ready e) []).
Proof.
  induction fuel as [|fuel IH]; intros s e Hl Hf; [lia|]. cbn [kill_line].
  mb (gets_eq inp k s). pose proof Hl as (_ & _ & Hr). rewrite (ring_empty_line _ _ Hr).
  destruct (bool_decide_reflect (line e = [])) as [E|E]; cbn [negb andb].
  - exists s. split; [done|]. destruct e as [q l]. simpl in E. by subst l.
  - rewrite (proj2 (Z.eqb_neq _ _) (ring_last _ _ Hr E)). cbn [negb].
    destruct (erase_live k s e Hl E) as (s1 & H1 & Hl1).
    destruct (IH s1 _ Hl1) as (s2 & H2 & Hl2).
    { cbn [line]. rewrite removelast_length by done. destruct (line e); [done|simpl in *; lia]. }
    exists s2. split; [|done]. by rewrite (bind_assoc_Done _ _ _ _ _ _ _ _ H1).
Qed.

(** The space test e - r < INPUT_BUF counts the characters held. *)
Lemma ring_count i e : ring_rep i e → u32 (ie i - ir i) = Z.of_nat (length (ready e ++ line e)).
Proof.
  intros (Hl & Hr & Hw & He & Hn & _). rewrite He, u32_sub_l.
  replace (ir i + Z.of_nat (length (ready e ++ line e)) - ir i)
    with (Z.of_nat (length (ready e ++ line e))) by lia. apply u32_small. lia.
Qed.

Lemma ring_full i e : ring_rep i e →
  (ie i =? u32 (ir i + INPUT_BUF)) = (length (ready e ++ line e) =? 128)%nat.
Proof.
  intros (Hl & Hr & Hw & He & Hn & _). rewrite He. unfold INPUT_BUF.
  destruct (Nat.eqb_spec (length (ready e ++ line e)) 128) as [->|Hne]; [by apply Z.eqb_refl|].
  apply Z.eqb_neq. intros H. apply u32_inj in H; lia.
Qed.

Section intr.
Context (procdump : M cst unit).
Hypothesis procdump_prints : ∃ out, puts procdump out.

Lemma procdump_live k s e : live s e → ∃ s', procdump k s = Done tt k s' ∧ live s' e.
Proof.
  destruct procdump_prints as [out Hput]. intros (Hs & Hp & Hr).
  destruct (Hput k s Hs Hp) as (s' & H & Hs' & _ & _ & Hp' & Hi). exists s'.
  split; [done|]. split_and!; [done|congruence|by rewrite Hi].
Qed.

(** The default case, for a character that fits. *)
Lemma type_live k s e c : live s e → (length (ready e ++ line e) < 128)%nat → 0 ≤ c < 256 →
  LPtable ∉ held k →
  ∃ k' s', (upd_inp (λ i, Input (<[slot (ie i) := u8 c]> (ibuf i)) (ir i) (iw i) (u32 (ie i + 1)));;
      consputc c;;
      i ← gets inp;
      if (c =? NL) || (c =? 4) || (ie i =? u32 (ir i + INPUT_BUF)) then
        upd_inp (λ i, Input (ibuf i) (ir i) (ie i) (ie i));; wakeup CInput
      else mret tt) k s = Done tt k' s' ∧ held k' = held k ∧
    live s' (if (c =? NL) || (c =? 4) || (length (ready e ++ line e ++ [c]) =? 128)%nat
             then Editor (ready e ++ line e ++ [c]) [] else Editor (ready e) (line e ++ [c])).
Proof.
  intros (Hs & Hp & Hr) Hlt Hc Hk.
  destruct (ring_append (inp s) e c Hr Hlt Hc) as [Hline Hcommit].
  set (f := λ i, Input (<[slot (ie i) := u8 c]> (ibuf i)) (ir i) (iw i) (u32 (ie i + 1))) in *.
  set (s1 := set_inp (f (inp s)) s).
  assert (Hup : upd_inp f k s = Done tt k s1) by done. mb Hup.
  destruct (consputc_ok c k s1 Hs Hp) as (s2 & Hput & Hs2 & _ & _ & Hp2 & Hi2). mb Hput.
  mb (gets_eq inp k s2).
  assert (Hfull : (c =? NL) || (c =? 4) || (ie (inp s2) =? u32 (ir (inp s2) + INPUT_BUF)) =
    (c =? NL) || (c =? 4) || (length (ready e ++ line e ++ [c]) =? 128)%nat).
  { destruct (Z.eqb_spec c NL) as [|Hnl]; [done|]. f_equal. rewrite Hi2.
    apply (ring_full _ _ (Hline Hnl)). }
  rewrite <- Hfull. destruct (_ || _) eqn:E.
  - eexists _, (set_inp (Input (ibuf (inp s2)) (ir (inp s2)) (ie (inp s2)) (ie (inp s2))) s2).
    split; [|split]; cycle 2.
    + split_and!; [done|by rewrite <- Hp|]. cbn [inp set_inp]. rewrite Hi2. exact Hcommit.
    + unfold upd_inp. mgo. reflexivity.
    + done.
  - exists k, s2. split_and!; [done|done|]. split_and!; [done|by rewrite <- Hp|]. rewrite Hi2. apply Hline.
    intros ->. by rewrite Z.eqb_refl in E.
Qed.

Lemma consoleintr_char_live k s e c : live s e → 0 ≤ c < 256 → LPtable ∉ held k →
  ∃ k' s', consoleintr_char procdump c k s = Done tt k' s' ∧ held k' = held k ∧ live s' (edit c e).
Proof.
  intros Hl Hc Hk. pose proof Hl as (_ & _ & Hr). unfold consoleintr_char, edit.
  destruct (c =? 16).
  { destruct (procdump_live k s e Hl) as (s' & H & Hl'). by exists k, s'. }
  destruct (c =? 21).
  { mb (gets_eq inp k s). destruct (kill_line_live k (S (Z.to_nat (u32 (ie (inp s) - iw (inp s))))) s e Hl)
      as (s' & H & Hl'); [|by exists k, s'].
    pose proof Hr as (_ & _ & Hw & He & Hn & _). rewrite Hw, He.
    rewrite u32_gap; rewrite ?length_app in *; lia. }
  destruct ((c =? 8) || (c =? 127)).
  { mb (gets_eq inp k s). rewrite (ring_empty_line _ _ Hr).
    destruct (bool_decide_reflect (line e = [])) as [E|E]; cbn [negb].
    - exists k, s. split_and!; [done|done|]. rewrite E. destruct e as [q l]. simpl in E. by subst l.
    - destruct (erase_live k s e Hl E) as (s' & H & Hl'). by exists k, s'. }
  mb (gets_eq inp k s). rewrite (ring_count _ _ Hr). unfold INPUT_BUF.
  destruct (Z.eqb_spec c 0); cbn [negb andb orb]; [by exists k, s|].
  destruct (Z.ltb_spec (Z.of_nat (length (ready e ++ line e))) 128) as [Hlt|Hge];
    destruct (Nat.leb_spec 128 (length (ready e ++ line e))); try lia; [|by exists k, s].
  apply type_live; [done|lia|destruct (c =? 13); unfold NL; lia|done].
Qed.

Lemma consoleintr_loop_live cs : ∀ k s e, live s e → Forall (λ c, 0 ≤ c < 256) cs →
  LPtable ∉ held k → ∃ k' s', consoleintr_loop procdump cs k s = Done tt k' s' ∧
    held k' = held k ∧ live s' (fold_left (λ e c, edit c e) cs e).
Proof.
  induction cs as [|c cs IH]; intros k s e Hl Hcs Hk; [by exists k, s|].
  apply Forall_cons in Hcs as [Hc Hcs].
  destruct (consoleintr_char_live k s e c Hl Hc Hk) as (k1 & s1 & H1 & Hk1 & Hl1).
  destruct (IH k1 s1 _ Hl1 Hcs) as (k2 & s2 & H2 & Hk2 & Hl2); [by rewrite Hk1|].
  exists k2, s2. split_and!; [|congruence|done]. cbn [consoleintr_loop]. by mb H1.
Qed.

Lemma consoleintr_live k s e cs : live s e → Forall (λ c, 0 ≤ c < 256) cs →
  LPtable ∉ held k → LInput ∉ held k → ∃ k' s', consoleintr procdump cs k s = Done tt k' s' ∧
    held k' = held k ∧ live s' (fold_left (λ e c, edit c e) cs e).
Proof.
  intros Hl Hcs Hk Hi. unfold consoleintr. mb (acquire_eq LInput k s Hi).
  destruct (consoleintr_loop_live cs (Kctx (LInput :: held k) (wakeups k)) s e Hl Hcs)
    as ([h' w'] & s' & H & Hk' & Hl').
  { cbn [held]. rewrite elem_of_cons. intros [?|?]; done. }
  mb H. cbn [held] in Hk'. subst h'. rewrite release_top. by eexists _, s'.
Qed.
End intr.

(** ** Reading a line *)

(** consoleread on the list of characters handed over: up to [n] characters, to the
    end of a line or to an end-of-file mark, which stays if something was delivered. *)
Fixpoint deliver (q : list Z) (killed : bool) (n target : Z) (acc : list Z) : reading * list Z :=
  if n >? 0 then
    match q with
    | [] => (if killed then Rkilled acc else Rwait n acc, [])
    | c :: q' =>
      if c =? 4 then (Rdone n acc, if n <? target then q else q')
      else if c =? NL then (Rdone (n - 1) (acc ++ [c]), q')
      else deliver q' killed (n - 1) target (acc ++ [c])
    end
  else (Rdone n acc, q).

Lemma ring_take i c q l : ring_rep i (Editor (c :: q) l) →
  (ir i =? iw i) = false ∧ (ibuf i).[slot (ir i)] = c ∧
  u32 (u32 (ir i + 1) - 1) = ir i ∧
  ring_rep (Input (ibuf i) (u32 (ir i + 1)) (iw i) (ie i)) (Editor q l).
Proof.
  intros (Hl & Hr & Hw & He & Hn & Hc & Hf). cbn [ready line app length] in *.
  assert (Hadd : ∀ n : nat, u32 (ir i + Z.of_nat (S n)) = u32 (u32 (ir i + 1) + Z.of_nat n)).
  { intros n. rewrite u32_add_l. f_equal. lia. }
  split_and!.
  - apply Z.eqb_neq. rewrite Hw. intros H. rewrite <- (Z.add_0_r (ir i)) in H at 1.
    rewrite <- (u32_small (ir i + 0)) in H by lia. apply u32_inj in H; [lia|lia|].
    rewrite length_app in Hn. lia.
  - specialize (Hc 0%nat ltac:(lia)). by rewrite Z.add_0_r in Hc.
  - rewrite u32_sub_l. replace (ir i + 1 - 1) with (ir i) by lia. by apply u32_small.
  - unfold ring_rep. cbn [ibuf ir iw ie ready line]. rewrite <- !Hadd.
    split_and!; try done; try apply u32_range; try lia.
    intros j Hj. rewrite <- slot_u32, <- Hadd, slot_u32, Hc by lia. done.
Qed.

Lemma consoleread_loop_deliver killed target q : ∀ fuel n acc i l,
  ring_rep i (Editor q l) → (length q < fuel)%nat →
  ∃ i', consoleread_loop fuel killed n target acc i = Some ((deliver q killed n target acc).1, i') ∧
        ring_rep i' (Editor (deliver q killed n target acc).2 l).
Proof.
  induction q as [|c q IH]; intros [|fuel] n acc i l Hr Hf; try (simpl in Hf; lia);
    cbn [consoleread_loop deliver]; destruct (n >? 0); try (by exists i).
  - pose proof Hr as (_ & Hrr & Hw & _). cbn [ready length] in Hw.
    rewrite Z.add_0_r, u32_small in Hw by done. rewrite Hw, Z.eqb_refl.
    destruct killed; by exists i.
  - destruct (ring_take i c q l Hr) as (Hne & Hc & Hun & Hr'). rewrite Hne, Hc. cbn [ibuf ir iw ie].
    destruct (c =? 4).
    { destruct (n <? target); [|by eexists]. rewrite Hun. exists i. destruct i. by split. }
    destruct (c =? NL); [by eexists|]. apply IH; [done|simpl in Hf; lia].
Qed.

(** An ordinary character of a line. *)
Definition ordinary (c : Z) : Prop := 0 < c < 256 ∧ c ∉ [4; 8; 10; 13; 16; 21; 127].

#[global] Instance ordinary_dec c : Decision (ordinary c).
Proof. unfold ordinary. apply _. Defined.

Lemma edit_ordinary q l c : ordinary c → (length (q ++ l) < 127)%nat →
  edit c (Editor q l) = Editor q (l ++ [c]).
Proof.
  intros (Hr & Hc) Hl. unfold edit, NL. cbn [ready line].
  assert (Hne : ∀ d, d ∈ [4; 8; 10; 13; 16; 21; 127] → (c =? d) = false).
  { intros d Hd. apply Z.eqb_neq. by intros ->. }
  rewrite (Hne 16), (Hne 21), (Hne 8), (Hne 127), (Hne 13), (Hne 10), (Hne 4) by (repeat constructor).
  rewrite (proj2 (Z.eqb_neq c 0)) by lia. cbn [orb].
  rewrite (proj2 (Nat.leb_gt _ _)) by lia. rewrite (proj2 (Nat.eqb_neq _ _)); [done|].
  rewrite !length_app in *. simpl. lia.
Qed.

Lemma edit_text text : ∀ l, Forall ordinary text → (length (l ++ text) < 128)%nat →
  fold_left (λ e c, edit c e) text (Editor [] l) = Editor [] (l ++ text).
Proof.
  induction text as [|c text IH]; intros l Ht Hl; cbn [fold_left]; [by rewrite app_nil_r|].
  apply Forall_cons in Ht as [Hc Ht]. rewrite length_app in Hl. simpl in Hl.
  rewrite edit_ordinary by (done || (simpl; lia)). rewrite IH; [by rewrite <- app_assoc|done|].
  rewrite !length_app. simpl. lia.
Qed.

Lemma deliver_line text n target : ∀ acc, Forall ordinary text → Z.of_nat (length text) < n →
  deliver (text ++ [NL]) false n target acc = (Rdone (n - Z.of_nat (length text) - 1) (acc ++ text ++ [NL]), []).
Proof.
  revert n. induction text as [|c text IH]; intros n acc Ht Hn; cbn [app deliver].
  - destruct (Z.gtb_spec n 0); [|simpl in *; lia]. simpl. do 2 f_equal. lia.
  - apply Forall_cons in Ht as [Hc Ht]. simpl in Hn. destruct (Z.gtb_spec n 0); [|lia].
    destruct Hc as [Hc0 Hc]. rewrite (proj2 (Z.eqb_neq c 4)), (proj2 (Z.eqb_neq c NL))
      by (intros ->; apply Hc; repeat constructor).
    rewrite IH by (done || lia). rewrite <- !app_assoc. simpl. do 2 f_equal. lia.
Qed.

(** C24: The line discipline, whatever the values of the wrapping ring indices.
    On a console with no pending input, typing at most 126 ordinary characters and
    return, and then reading more than that many bytes, delivers exactly these
    characters with a newline and leaves the ring empty. *)
Theorem typed_line_is_read (procdump : M cst unit) (k : kctx) (s : cst) (text : list Z) (n : Z) :
  (∃ out, puts procdump out) → live s (Editor [] []) → held k = [] →
  Forall ordinary text → (length text < 127)%nat → Z.of_nat (length text) < n →
  ∃ k' s' i', consoleintr procdump (text ++ [13]) k s = Done tt k' s' ∧ held k' = [] ∧
    consoleread_loop 129 false n n [] (inp s') =
      Some (Rdone (n - Z.of_nat (length text) - 1) (text ++ [NL]), i') ∧
    ring_rep i' (Editor [] []).
Proof.
  intros Hpd Hl Hk Ht Hlen Hn.
  destruct (consoleintr_live procdump Hpd k s _ (text ++ [13]) Hl) as (k' & s' & H & Hk' & Hl').
  { apply Forall_app. split; [|repeat constructor; lia].
    eapply Forall_impl; [exact Ht|]. intros c [? _]. lia. }
  { rewrite Hk. apply not_elem_of_nil. } { rewrite Hk. apply not_elem_of_nil. }
  assert (He : fold_left (λ e c, edit c e) (text ++ [13]) (Editor [] []) = Editor (text ++ [NL]) []).
  { rewrite fold_left_app, edit_text by (done || (simpl; lia)). cbn [fold_left]. unfold edit.
    rewrite (proj2 (Nat.leb_gt _ _)) by (simpl; lia). done. }
  rewrite He in Hl'. destruct Hl' as (_ & _ & Hr).
  destruct (consoleread_loop_deliver false n (text ++ [NL]) 129 n [] (inp s') [] Hr) as (i' & Hd & Hr').
  { rewrite length_app. simpl. lia. }
  rewrite deliver_line in Hd, Hr' by done.
  exists k', s', i'. split_and!; [done|congruence|exact Hd|exact Hr'].
Qed.

Lemma typed_line_is_read_witness :
  let s := Cst true false (replicate 2000 0) 0 []
             (Input (replicate 128 0) (2 ^ 32 - 2) (2 ^ 32 - 2) (2 ^ 32 - 2)) in
  ∃ k' s' i', consoleintr (mret tt) ([104; 105; 33] ++ [13]) (Kctx [] []) s = Done tt k' s' ∧ held k' = [] ∧
    consoleread_loop 129 false 10 10 [] (inp s') = Some (Rdone 6 ([104; 105; 33] ++ [NL]), i') ∧
    ring_rep i' (Editor [] []).
Proof.
  apply (typed_line_is_read (mret tt) (Kctx [] []) _ [104; 105; 33] 10).
  - exists []. apply puts_ret.
  - repeat split; try done; try (simpl; lia).
  - done.
  - apply (bool_decide_unpack _). by vm_compute.
  - simpl. lia.
  - simpl. lia.
Defined.
