(* ===== verification/Kbd.v ===== *)
(** * kbd.c and kbd.h: the keyboard driver

    The controller's output buffer is the list of scan codes it delivers; the static
    variable [shift] of kbdgetc is passed along.  The code tables are the initialisers
    of kbd.h: a prefix and designated entries, zero elsewhere. *)

From stdpp Require Import base list strings.
From Stdlib Require Import ZArith Lia.
From S2P Require Import Prelude Kmonad Console.

Definition NO : Z := 0.
Definition SHIFT : Z := Z.shiftl 1 0.
Definition CTL : Z := Z.shiftl 1 1.
Definition ALT : Z := Z.shiftl 1 2.
Definition CAPSLOCK : Z := Z.shiftl 1 3.
Definition NUMLOCK : Z := Z.shiftl 1 4.
Definition SCROLLLOCK : Z := Z.shiftl 1 5.
Definition E0ESC : Z := Z.shiftl 1 6.

Definition KEY_HOME : Z := 0xE0.
Definition KEY_END : Z := 0xE1.
Definition KEY_UP : Z := 0xE2.
Definition KEY_DN : Z := 0xE3.
Definition KEY_LF : Z := 0xE4.
Definition KEY_RT : Z := 0xE5.
Definition KEY_PGUP : Z := 0xE6.
Definition KEY_PGDN : Z := 0xE7.
Definition KEY_INS : Z := 0xE8.
Definition KEY_DEL : Z := 0xE9.

(** C('A') == Control-A, stored in a uchar. *)
Definition C (x : Z) : Z := u8 (x - 64).

(** A uchar array of 256 entries with this initialiser. *)
Definition initialised (prefix : list Z) (entries : list (Z * Z)) : list Z :=
  fold_left (λ l e, <[Z.to_nat e.1 := e.2]> l) entries
    (prefix ++ replicate (256 - length prefix) 0).

Definition shiftcode : list Z := initialised
  []
  [(0x1D, CTL); (0x2A, SHIFT); (0x36, SHIFT); (0x38, ALT);
   (0x9D, CTL); (0xB8, ALT)].

Definition togglecode : list Z := initialised
  []
  [(0x3A, CAPSLOCK); (0x45, NUMLOCK); (0x46, SCROLLLOCK)].

Definition normalmap : list Z := initialised
  [NO; 0x1B; 49; 50; 51; 52; 53; 54;
   55; 56; 57; 48; 45; 61; 8; 9;
   113; 119; 101; 114; 116; 121; 117; 105;
   111; 112; 91; 93; 10; NO; 97; 115;
   100; 102; 103; 104; 106; 107; 108; 59;
   39; 96; NO; 92; 122; 120; 99; 118;
   98; 110; 109; 44; 46; 47; NO; 42;
   NO; 32; NO; NO; NO; NO; NO; NO;
   NO; NO; NO; NO; NO; NO; NO; 55;
   56; 57; 45; 52; 53; 54; 43; 49;
   50; 51; 48; 46; NO; NO; NO; NO]
  [(0x9C, 10); (0xB5, 47); (0xC8, KEY_UP); (0xD0, KEY_DN);
   (0xC9, KEY_PGUP); (0xD1, KEY_PGDN); (0xCB, KEY_LF); (0xCD, KEY_RT);
   (0x97, KEY_HOME); (0xCF, KEY_END); (0xD2, KEY_INS); (0xD3, KEY_DEL)].

Definition shiftmap : list Z := initialised
  [NO; 0x1B; 33; 64; 35; 36; 37; 94;
   38; 42; 40; 41; 95; 43; 8; 9;
   81; 87; 69; 82; 84; 89; 85; 73;
   79; 80; 123; 125; 10; NO; 65; 83;
   68; 70; 71; 72; 74; 75; 76; 58;
   34; 126; NO; 124; 90; 88; 67; 86;
   66; 78; 77; 60; 62; 63; NO; 42;
   NO; 32; NO; NO; NO; NO; NO; NO;
   NO; NO; NO; NO; NO; NO; NO; 55;
   56; 57; 45; 52; 53; 54; 43; 49;
   50; 51; 48; 46; NO; NO; NO; NO]
  [(0x9C, 10); (0xB5, 47); (0xC8, KEY_UP); (0xD0, KEY_DN);
   (0xC9, KEY_PGUP); (0xD1, KEY_PGDN); (0xCB, KEY_LF); (0xCD, KEY_RT);
   (0x97, KEY_HOME); (0xCF, KEY_END); (0xD2, KEY_INS); (0xD3, KEY_DEL)].

Definition ctlmap : list Z := initialised
  [NO; NO; NO; NO; NO; NO; NO; NO;
   NO; NO; NO; NO; NO; NO; NO; NO;
   C 81; C 87; C 69; C 82; C 84; C 89; C 85; C 73;
   C 79; C 80; NO; NO; 13; NO; C 65; C 83;
   C 68; C 70; C 71; C 72; C 74; C 75; C 76; NO;
   NO; NO; NO; C 92; C 90; C 88; C 67; C 86;
   C 66; C 78; C 77; NO; NO; C 47; NO; NO]
  [(0x9C, 13); (0xB5, C 47); (0xC8, KEY_UP); (0xD0, KEY_DN);
   (0xC9, KEY_PGUP); (0xD1, KEY_PGDN); (0xCB, KEY_LF); (0xCD, KEY_RT);
   (0x97, KEY_HOME); (0xCF, KEY_END); (0xD2, KEY_INS); (0xD3, KEY_DEL)].

(** charcode[i] *)
Definition charcode (i : Z) : list Z :=
  if i =? 0 then normalmap else if i =? 1 then shiftmap else ctlmap.

(** kbdgetc, when the status port says there is the byte [data]: the value returned and
    the new [shift]. *)
Definition kbd_data (shift data : Z) : Z * Z :=
  if data =? 0xE0 then (0, Z.lor shift E0ESC)
  else if has data 0x80 then
    let data := if has shift E0ESC then data else Z.land data 0x7F in
    (0, Z.land shift (u32 (Z.lnot (Z.lor (shiftcode.[Z.to_nat data]) E0ESC))))
  else
    let '(data, shift) :=
      if has shift E0ESC then (Z.lor data 0x80, Z.land shift (u32 (Z.lnot E0ESC))) else (data, shift) in
    let shift := Z.lor shift (shiftcode.[Z.to_nat data]) in
    let shift := Z.lxor shift (togglecode.[Z.to_nat data]) in
    let c := (charcode (Z.land shift (Z.lor CTL SHIFT))).[Z.to_nat data] in
    let c :=
      if has shift CAPSLOCK then
        if (97 <=? c) && (c <=? 122) then u32 (c + (65 - 97))
        else if (65 <=? c) && (c <=? 90) then u32 (c + (97 - 65)) else c
      else c in
    (c, shift).

(** kbdgetc: -1 when the controller has no data. *)
Definition kbdgetc (shift : Z) (ctrl : list Z) : Z * Z * list Z :=
  match ctrl with
  | [] => (-1, shift, [])
  | data :: ctrl => let '(c, shift) := kbd_data shift data in (c, shift, ctrl)
  end.

(** What consoleintr gets from getc() until the controller is empty. *)
Fixpoint kbd_run (shift : Z) (ctrl : list Z) : list Z * Z :=
  match ctrl with
  | [] => ([], shift)
  | data :: ctrl =>
    let '(c, shift) := kbd_data shift data in
    let '(cs, shift) := kbd_run shift ctrl in (c :: cs, shift)
  end.

Definition kbdintr (procdump : M cst unit) (shift : Z) (ctrl : list Z) : M cst Z :=
  let '(cs, shift) := kbd_run shift ctrl in
  consoleintr procdump cs;; mret shift.

(** ** Properties

    The states of [shift] and the scan codes are finite, so these hold by evaluation
    over all of them. *)

Definition range (n : nat) : list Z := Z.of_nat <$> seq 0 n.

Lemma forall_range (n : nat) (f : Z → bool) :
  forallb f (range n) = true → ∀ x, 0 ≤ x < Z.of_nat n → f x = true.
Proof.
  intros H x Hx. rewrite forallb_forall in H. apply H. unfold range. apply list_elem_of_In.
  apply list_elem_of_fmap. exists (Z.to_nat x). split; [lia|]. apply elem_of_seq. lia.
Qed.

(** What kbd_data returns is a character of one byte, and [shift] keeps its 7 bits. *)
Definition kbd_sane (shift data : Z) : bool :=
  let '(c, shift') := kbd_data shift data in
  (0 <=? c) && (c <? 256) && (0 <=? shift') && (shift' <? 128) &&
  ((data =? 0xE0) || negb (has shift' E0ESC)).

Lemma kbd_sane_all : forallb (λ s, forallb (kbd_sane s) (range 256)) (range 128) = true.
Proof. by vm_compute. Qed.

(** For every scan code in every state, kbdgetc returns a value from 0 to 255,
    keeps its modifier state in seven bits, and an escape prefix lasts for one code. *)
Theorem kbd_data_range (shift data : Z) :
  0 ≤ shift < 128 → 0 ≤ data < 256 →
  let '(c, shift') := kbd_data shift data in
  0 ≤ c < 256 ∧ 0 ≤ shift' < 128 ∧ (data ≠ 0xE0 → has shift' E0ESC = false).
Proof.
  intros Hs Hd. pose proof (forall_range 128 _ kbd_sane_all shift Hs) as H.
  apply (forall_range 256 _ H) in Hd. unfold kbd_sane in Hd. destruct (kbd_data shift data) as [c s'].
  rewrite !andb_true_iff, orb_true_iff, negb_true_iff, !Z.leb_le, !Z.ltb_lt, Z.eqb_eq in Hd.
  destruct Hd as ((((H1 & H2) & H3) & H4) & H5). split_and!; try done. by destruct H5.
Qed.

Lemma kbd_data_range_witness :
  let '(c, shift') := kbd_data 9 0x1E in
  0 ≤ c < 256 ∧ 0 ≤ shift' < 128 ∧ (0x1E ≠ 0xE0 → has shift' E0ESC = false).
Proof. apply (kbd_data_range 9 0x1E); lia. Defined.

(** Press and release of a key: what is returned first, and the state afterwards. *)
Definition press_release (shift data : Z) : Z * Z :=
  let '(c, shift) := kbd_data shift data in
  (c, (kbd_data shift (Z.lor data 0x80)).2).

(** The scan codes of the letters a to z. *)
Definition letter_codes : list Z :=
  [0x1E; 0x30; 0x2E; 0x20; 0x12; 0x21; 0x22; 0x23; 0x17; 0x24; 0x25; 0x26; 0x32;
   0x31; 0x18; 0x19; 0x10; 0x13; 0x1F; 0x14; 0x16; 0x2F; 0x11; 0x2D; 0x15; 0x2C].

(** The character a letter key should give: control-letter with CTL, else upper case
    exactly when one of SHIFT and CAPSLOCK is on. *)
Definition letter (shift : Z) (i : Z) : Z :=
  if has shift CTL then i + 1
  else if xorb (has shift SHIFT) (has shift CAPSLOCK) then 65 + i else 97 + i.

Definition letter_right (shift i : Z) : bool :=
  let r := press_release shift (letter_codes.[Z.to_nat i]) in
  (r.1 =? letter shift i) && (r.2 =? shift).

Lemma letters_right :
  forallb (λ s, forallb (letter_right s) (range 26)) (range 64) = true.
Proof. by vm_compute. Qed.

(** A letter key gives the letter in upper case exactly when one of shift and
    caps lock is on, and the control character when control is down; pressing and
    releasing it leaves the modifier state as it was. *)
Theorem letter_keys (shift i : Z) :
  0 ≤ shift < 64 → 0 ≤ i < 26 →
  press_release shift (letter_codes.[Z.to_nat i]) = (letter shift i, shift).
Proof.
  intros Hs Hi. pose proof (forall_range 64 _ letters_right shift Hs) as H.
  apply (forall_range 26 _ H) in Hi. unfold letter_right in Hi.
  apply andb_true_iff in Hi as [H1 H2]. apply Z.eqb_eq in H1, H2.
  destruct (press_release _ _). simpl in *. congruence.
Qed.

Lemma letter_keys_witness :
  press_release (Z.lor SHIFT CAPSLOCK) (letter_codes.[0]) = (97, Z.lor SHIFT CAPSLOCK).
Proof. apply (letter_keys (Z.lor SHIFT CAPSLOCK) 0); vm_compute; done. Defined.
