(* ===== verification/Spinlock.v ===== *)
(** * spinlock.c: spin locks between CPUs

    pushcli, popcli, holding and getcallerpcs are functions on the state of one CPU.
    acquire and release are cut into their atomic accesses to the lock, so that the
    CPUs interleave at any of them: the module proves mutual exclusion and that the
    test holding() is exact, which is what the other components use acquire and
    release for. *)

From stdpp Require Import base list strings relations.
From Stdlib Require Import ZArith Lia.
From S2P Require Import Prelude Params Cstring.

(** ** Interrupt nesting *)

(** The part of struct cpu the locks use, and the interrupt flag of eflags. *)
Record cpu : Type := Cpu { ncli : Z; intena : bool; iflag : bool }.

Definition pushcli (c : cpu) : cpu :=
  Cpu (ncli c + 1) (if ncli c =? 0 then iflag c else intena c) false.

(** [inr] is a panic. *)
Definition popcli (c : cpu) : cpu + string :=
  if iflag c then inr "popcli - interruptible"%string
  else
    let n := ncli c - 1 in
    if n <? 0 then inr "popcli"%string
    else inl (Cpu n (intena c) ((n =? 0) && intena c)).

(** ** The call stack *)

(** The loop of getcallerpcs: the saved return addresses, [n] entries left. *)
Fixpoint callerpcs_loop (n : nat) (m : mem) (ebp : Z) : list Z :=
  match n with
  | O => []
  | S n' =>
    if (ebp =? 0) || (ebp <? KERNBASE) || (ebp =? 0xffffffff) then replicate n 0
    else load32 m (u32 (ebp + 4)) :: callerpcs_loop n' m (load32 m ebp)
  end.

Definition getcallerpcs (m : mem) (v : Z) : list Z := callerpcs_loop 10 m (u32 (v - 8)).

(** ** The lock *)

Record spinlock : Type := Spinlock { locked : Z; lcpu : option nat }.

Definition initlock : spinlock := Spinlock 0 None.

(** holding(lk), on CPU [me]. *)
Definition holding (me : nat) (l : spinlock) : bool :=
  negb (locked l =? 0) && bool_decide (lcpu l = Some me).

(** xchg(&lk->locked, v): the old value and the lock. *)
Definition xchg (v : Z) (l : spinlock) : Z * spinlock := (locked l, Spinlock v (lcpu l)).

(** Where a CPU is in its use of the lock: outside; spinning in acquire; past the xchg but
    not yet recorded in lk->cpu; inside; in release, with lk->cpu cleared. *)
Inductive place : Type := Outside | Spinning | Entering | Inside | Leaving.

Record machine : Type := Machine { lk : spinlock; places : nat → place; crashed : bool }.

Definition at_place (i : nat) (p : place) (f : nat → place) : nat → place :=
  λ j, if decide (j = i) then p else f j.

(** One atomic step of CPU [i]. *)
Inductive lstep : machine → machine → Prop :=
| acq_begin i m :                   (* pushcli(); if(holding(lk)) panic *)
    places m i = Outside ∨ places m i = Inside →
    lstep m (if holding i (lk m) then Machine (lk m) (places m) true
             else Machine (lk m) (at_place i Spinning (places m)) (crashed m))
| acq_xchg i m old l' :             (* one round of while(xchg(&lk->locked, 1) != 0) *)
    places m i = Spinning → xchg 1 (lk m) = (old, l') →
    lstep m (Machine l' (if old =? 0 then at_place i Entering (places m) else places m) (crashed m))
| acq_cpu i m :                     (* lk->cpu = cpu *)
    places m i = Entering →
    lstep m (Machine (Spinlock (locked (lk m)) (Some i)) (at_place i Inside (places m)) (crashed m))
| rel_cpu i m :                     (* if(!holding(lk)) panic; lk->cpu = 0 *)
    places m i = Outside ∨ places m i = Inside →
    lstep m (if holding i (lk m)
             then Machine (Spinlock (locked (lk m)) None) (at_place i Leaving (places m)) (crashed m)
             else Machine (lk m) (places m) true)
| rel_xchg i m old l' :             (* xchg(&lk->locked, 0) *)
    places m i = Leaving → xchg 0 (lk m) = (old, l') →
    lstep m (Machine l' (at_place i Outside (places m)) (crashed m)).

(** ** Interrupt nesting is balanced *)

(** Interrupts are off while a lock is held. *)
Definition cli_ok (c : cpu) : Prop := 0 ≤ ncli c ∧ (0 < ncli c → iflag c = false).

(** A sequence of pushcli (true) and popcli (false). *)
Fixpoint run_cli (ops : list bool) (c : cpu) : cpu + string :=
  match ops with
  | [] => inl c
  | true :: ops => run_cli ops (pushcli c)
  | false :: ops => match popcli c with inl c => run_cli ops c | inr msg => inr msg end
  end.

(** Every popcli matches an earlier pushcli; [d] are open. *)
Fixpoint balanced (d : nat) (ops : list bool) : bool :=
  match ops with
  | [] => (d =? 0)%nat
  | true :: ops => balanced (S d) ops
  | false :: ops => match d with O => false | S d => balanced d ops end
  end.

Lemma run_cli_inner ops : ∀ d c, balanced d ops = true → iflag c = false →
  Z.of_nat d < ncli c → run_cli ops c = inl (Cpu (ncli c - Z.of_nat d) (intena c) false).
Proof.
  induction ops as [|[] ops IH]; intros d c Hb Hi Hd; simpl in *.
  - apply Nat.eqb_eq in Hb as ->. rewrite Z.sub_0_r. destruct c. simpl in *. by subst.
  - rewrite (IH (S d)); unfold pushcli; cbn [ncli iflag intena]; [|done|done|lia].
    destruct (Z.eqb_spec (ncli c) 0); [lia|]. do 2 f_equal. lia.
  - destruct d as [|d]; [done|]. unfold popcli. rewrite Hi.
    destruct (Z.ltb_spec (ncli c - 1) 0); [lia|]. destruct (Z.eqb_spec (ncli c - 1) 0); [lia|].
    cbn [andb]. rewrite (IH d); cbn [ncli iflag intena]; [|done|done|lia]. do 2 f_equal. lia.
Qed.

Lemma run_cli_outer ops : ∀ d c b, balanced d ops = true → ncli c = Z.of_nat d →
  (0 < ncli c → iflag c = false ∧ intena c = b) → (ncli c = 0 → iflag c = b) →
  ∃ e, run_cli ops c = inl (Cpu 0 e b).
Proof.
  induction ops as [|[] ops IH]; intros d c b Hb Hd Hin Hout; simpl in *.
  - apply Nat.eqb_eq in Hb as ->. exists (intena c). rewrite <- (Hout Hd). destruct c. simpl in *. by subst.
  - apply (IH (S d)); unfold pushcli; cbn [ncli iflag intena]; [done|lia| |lia].
    intros _. split; [done|]. destruct (Z.eqb_spec (ncli c) 0) as [E|E]; [by apply Hout|apply Hin; lia].
  - destruct d as [|d]; [done|]. destruct (Hin ltac:(lia)) as [Hi He]. unfold popcli. rewrite Hi.
    destruct (Z.ltb_spec (ncli c - 1) 0); [lia|].
    apply (IH d); cbn [ncli iflag intena]; [done|lia| |].
    + intros Hp. destruct (Z.eqb_spec (ncli c - 1) 0); [lia|done].
    + intros ->. by rewrite He.
Qed.

(** Pushcli and popcli match.  Any properly nested sequence of them runs without
    a panic, and gives back the interrupt flag it began with, nested in other locks or
    not; in between, inside a lock, interrupts are off. *)
Theorem pushcli_popcli_balanced (ops : list bool) (c : cpu) :
  balanced 0 ops = true → cli_ok c →
  ∃ e, run_cli ops c = inl (Cpu (ncli c) e (iflag c)) ∧ (0 < ncli c → e = intena c).
Proof.
  intros Hb (Hn & Hi). destruct (Z.lt_ge_cases 0 (ncli c)) as [Hp|Hz].
  - exists (intena c). rewrite (run_cli_inner ops 0) by (auto; lia). rewrite Z.sub_0_r, (Hi Hp). done.
  - assert (Hc : ncli c = 0) by lia. rewrite Hc.
    destruct (run_cli_outer ops 0 c (iflag c) Hb) as (e & He); try done; try lia.
    exists e. split; [done|lia].
Qed.

Lemma pushcli_popcli_balanced_witness :
  ∃ e, run_cli [true; true; false; true; false; false] (Cpu 0 false true) = inl (Cpu 0 e true) ∧
       (0 < 0 → e = false).
Proof.
  apply (pushcli_popcli_balanced [true; true; false; true; false; false] (Cpu 0 false true)); [done|].
  split; simpl; lia.
Defined.

(** ** Mutual exclusion *)

Definition owner (p : place) : Prop := p = Entering ∨ p = Inside ∨ p = Leaving.

(** The lock word is 1 exactly while some CPU owns the lock, at most one does, and
    lk->cpu names it exactly while it is inside. *)
Record lock_inv (m : machine) : Prop := LockInv {
  inv_word : locked (lk m) = 0 ∨ locked (lk m) = 1;
  inv_free : locked (lk m) = 0 → ∀ i, ¬ owner (places m i);
  inv_taken : locked (lk m) = 1 → ∃ i, owner (places m i);
  inv_one : ∀ i j, owner (places m i) → owner (places m j) → i = j;
  inv_cpu : ∀ i, lcpu (lk m) = Some i ↔ places m i = Inside
}.

#[global] Instance place_eq_dec : EqDecision place.
Proof. solve_decision. Defined.

Lemma at_place_eq i p f : at_place i p f i = p.
Proof. unfold at_place. by rewrite decide_True. Qed.

Lemma at_place_ne i j p f : j ≠ i → at_place i p f j = f j.
Proof. intros. unfold at_place. by rewrite decide_False. Qed.

(** [at_cases j i] splits on whether CPU [j] is the one that moved. *)
Ltac at_cases j i :=
  destruct (decide (j = i)) as [->|?];
  [rewrite ?at_place_eq in *|rewrite ?(at_place_ne i j) in * by done].

Lemma holding_inside m i : lock_inv m → holding i (lk m) = bool_decide (places m i = Inside).
Proof.
  intros H. unfold holding. destruct (decide (places m i = Inside)) as [E|E].
  - rewrite (bool_decide_eq_true_2 _ E), bool_decide_eq_true_2 by (by apply (inv_cpu m H)).
    destruct (inv_word m H) as [W|W]; rewrite W; [|done].
    exfalso. apply (inv_free m H W i). unfold owner. auto.
  - rewrite (bool_decide_eq_false_2 _ E), bool_decide_eq_false_2; [by rewrite andb_false_r|].
    by rewrite (inv_cpu m H i).
Qed.

(** A CPU that owned nothing and still owns nothing moves. *)
Lemma lock_inv_move m i p b : lock_inv m → ¬ owner (places m i) → ¬ owner p →
  lock_inv (Machine (lk m) (at_place i p (places m)) b).
Proof.
  intros [H1 H2 H3 H4 H5] Hi Hp. split; cbn [lk places]; try done.
  - intros W j. at_cases j i; [done|]. by apply H2.
  - intros W. destruct (H3 W) as (j & Hj). exists j. at_cases j i; done.
  - intros j1 j2. at_cases j1 i; at_cases j2 i; try done. apply H4.
  - intros j. rewrite H5. at_cases j i; [|done].
    split; intros E; exfalso; [apply Hi|apply Hp]; rewrite E; unfold owner; auto.
Qed.

(** The owner [i] moves on; lk->cpu names it exactly if it is inside then. *)
Lemma lock_inv_own m i p c b : lock_inv m → owner (places m i) → owner p →
  (c = if decide (p = Inside) then Some i else None) →
  lock_inv (Machine (Spinlock (locked (lk m)) c) (at_place i p (places m)) b).
Proof.
  intros [H1 H2 H3 H4 H5] Hi Hp ->. split; cbn [lk places locked lcpu]; try done.
  - intros W. by apply H2 in Hi.
  - intros W. exists i. by rewrite at_place_eq.
  - intros j1 j2. at_cases j1 i; at_cases j2 i; try done; intros A B.
    + by rewrite (H4 i j2).
    + by rewrite (H4 i j1).
    + by apply H4.
  - intros j. at_cases j i.
    + destruct (decide (p = Inside)); naive_solver.
    + split; [destruct (decide (p = Inside)); congruence|]. intros E. exfalso. apply n.
      apply H4; [rewrite E; unfold owner; auto|done].
Qed.

Lemma lstep_inv m m' : lstep m m' → lock_inv m → lock_inv m'.
Proof.
  intros Hst H. destruct Hst as [i m Hi|i m old l' Hi Hx|i m Hi|i m Hi|i m old l' Hi Hx].
  - rewrite (holding_inside m i H). destruct (bool_decide_reflect (places m i = Inside)) as [E|E].
    + destruct H. by split.
    + destruct Hi as [Hi|Hi]; [|done].
      apply lock_inv_move; [done| |]; unfold owner; rewrite ?Hi; naive_solver.
  - injection Hx as <- <-. destruct (inv_word m H) as [W|W]; rewrite W; cbn [Z.eqb].
    + destruct H as [H1 H2 H3 H4 H5]. split; cbn [lk places locked lcpu]; [by right|done| | |].
      * intros _. exists i. rewrite at_place_eq. unfold owner. auto.
      * intros j1 j2. at_cases j1 i; at_cases j2 i; try done; intros A B.
        -- by apply H2 in B.
        -- by apply H2 in A.
        -- by apply H2 in A.
      * intros j. rewrite H5. at_cases j i; [|done]. rewrite Hi. done.
    + destruct H as [H1 H2 H3 H4 H5]. split; cbn [lk places locked lcpu]; auto. done.
  - apply lock_inv_own; [done| | |by rewrite decide_True]; rewrite ?Hi; unfold owner; auto.
  - rewrite (holding_inside m i H). destruct (bool_decide_reflect (places m i = Inside)) as [E|E].
    + apply lock_inv_own; [done| | |by rewrite decide_False]; rewrite ?E; unfold owner; auto.
    + destruct H. by split.
  - injection Hx as <- <-. destruct H as [H1 H2 H3 H4 H5].
    assert (Ho : owner (places m i)) by (rewrite Hi; unfold owner; auto).
    split; cbn [lk places locked lcpu]; [by left| |done| |].
    + intros _ j. at_cases j i; [unfold owner; naive_solver|]. intros Hj. by specialize (H4 j i Hj Ho).
    + intros j1 j2 A B. at_cases j1 i; [by destruct A as [?|[?|?]]|].
      at_cases j2 i; [by destruct B as [?|[?|?]]|]. by apply H4.
    + intros j. rewrite H5. at_cases j i; [|done]. rewrite Hi. done.
Qed.

Definition start : machine := Machine initlock (λ _, Outside) false.

(** C20: The spin lock excludes.  However the CPUs interleave the atomic accesses of
    acquire and release, at most one of them is between the two, and on each CPU
    holding() is true exactly when this CPU is: acquire panics exactly on a lock the CPU
    already holds, release exactly on one it does not hold. *)
Theorem spinlock_mutual_exclusion (m : machine) :
  rtc lstep start m →
  (∀ i j, places m i = Inside → places m j = Inside → i = j) ∧
  ∀ i, holding i (lk m) = bool_decide (places m i = Inside).
Proof.
  intros Hr. assert (H : lock_inv m).
  { assert (H0 : lock_inv start).
    { split; cbn; try by left. all: try done. all: intros; unfold owner in *; naive_solver. }
    induction Hr as [|m1 m2 m3 Hs _ IH]; [done|]. apply IH. by apply (lstep_inv m1). }
  split; [|intros i; by apply holding_inside].
  intros i j Hi Hj. apply (inv_one m H); [rewrite Hi|rewrite Hj]; unfold owner; auto.
Qed.

Lemma spinlock_mutual_exclusion_witness :
  let m := Machine (Spinlock 1 (Some 1%nat)) (at_place 1 Inside (at_place 1 Entering
             (at_place 0 Spinning (at_place 1 Spinning (λ _, Outside))))) false in
  (∀ i j, places m i = Inside → places m j = Inside → i = j) ∧
  ∀ i, holding i (lk m) = bool_decide (places m i = Inside).
Proof.
  apply spinlock_mutual_exclusion.
  eapply rtc_l; [apply (acq_begin 1); by left|]. eapply rtc_l; [apply (acq_begin 0); by left|].
  eapply rtc_l; [apply (acq_xchg 1 _ 0 (Spinlock 1 None)); done|].
  eapply rtc_l; [apply (acq_cpu 1); done|]. apply rtc_refl.
Defined.

(** ** The call stack *)

(** Getcallerpcs fills its ten entries: the return addresses found by following
    saved frame pointers as long as these point into the kernel, then zeros. *)
Theorem getcallerpcs_prefix (m : mem) (v : Z) :
  ∃ n frames, (n ≤ 10)%nat ∧ length frames = n ∧
    getcallerpcs m v = map (λ f, load32 m (u32 (f + 4))) frames ++ replicate (10 - n) 0 ∧
    (∀ f, frames !! 0%nat = Some f → f = u32 (v - 8)) ∧
    (∀ i f g, frames !! i = Some f → frames !! S i = Some g → g = load32 m f) ∧
    Forall (λ f, KERNBASE ≤ f ∧ f ≠ 0xffffffff) frames.
Proof.
  unfold getcallerpcs. generalize (u32 (v - 8)) as ebp. generalize 10%nat as c.
  induction c as [|c IH]; intros ebp; cbn [callerpcs_loop].
  { exists 0%nat, []. by repeat split. }
  destruct ((ebp =? 0) || (ebp <? KERNBASE) || (ebp =? 0xffffffff)) eqn:E.
  - exists 0%nat, []. repeat split; (done || lia || constructor).
  - rewrite !orb_false_iff, Z.ltb_ge, !Z.eqb_neq in E. destruct E as [[_ Hk] Hf].
    destruct (IH (load32 m ebp)) as (n & fr & Hn & Hl & Heq & Hh & Hc & Hall).
    exists (S n), (ebp :: fr). split_and!; [lia|simpl; lia|by rewrite Heq|naive_solver| |by constructor].
    intros [|i] f g Hi Hg; simpl in *; [|by eapply Hc].
    injection Hi as <-. by apply Hh.
Qed.
