(* ===== verification/Kalloc.v ===== *)
(** * kalloc.c: the physical page allocator

    The free list is threaded through the free pages themselves: the first word
    of a free page holds the address of the next one.  The state is kmem
    together with the memory; [kend] is the linker's symbol [end].  The
    allocator refines the abstract allocator whose state is the list of free
    pages ([free_pages]). *)

From stdpp Require Import base gmap list strings.
From Stdlib Require Import ZArith Lia Permutation.
From S2P Require Import Prelude Params Kmonad Cstring.

Record kmem := Kmem { use_lock : bool; freelist : Z; kmem_mem : mem }.

Definition set_freelist (v : Z) (s : kmem) : kmem := Kmem (use_lock s) v (kmem_mem s).
Definition set_mem (m : mem) (s : kmem) : kmem := Kmem (use_lock s) (freelist s) m.
Definition set_use_lock (b : bool) (s : kmem) : kmem := Kmem b (freelist s) (kmem_mem s).

Section kalloc.
Context (kend : Z).

Definition lock_if_used : M kmem unit :=
  u ← gets use_lock; if (u : bool) then acquire LKmem else mret tt.
Definition unlock_if_used : M kmem unit :=
  u ← gets use_lock; if (u : bool) then release LKmem else mret tt.

Definition kfree (v : Z) : M kmem unit :=
  if negb (v mod PGSIZE =? 0) || (v <? kend) || (v2p v >=? PHYSTOP) then panic "kfree"
  else
    modify (λ s, set_mem (KString.memset (kmem_mem s) v 1 PGSIZE) s);;
    lock_if_used;;
    modify (λ s, set_mem (store32 (kmem_mem s) v (freelist s)) s);;
    modify (set_freelist v);;
    unlock_if_used.

Definition kalloc : M kmem Z :=
  lock_if_used;;
  r ← gets freelist;
  (if negb (r =? 0) then modify (λ s, set_freelist (load32 (kmem_mem s) r) s) else mret tt);;
  unlock_if_used;;
  mret r.

Fixpoint freerange_loop (fuel : nat) (p vend : Z) : M kmem unit :=
  match fuel with
  | O => diverge
  | S f =>
    if p + PGSIZE <=? vend then kfree p;; freerange_loop f (p + PGSIZE) vend
    else mret tt
  end.

(** One iteration per page of the range and one for the final test. *)
Definition freerange (vstart vend : Z) : M kmem unit :=
  freerange_loop (S (Z.to_nat ((vend - PGROUNDUP vstart) / PGSIZE)))
    (PGROUNDUP vstart) vend.

Definition kinit1 (vstart vend : Z) : M kmem unit :=
  initlock LKmem;; modify (set_use_lock false);; freerange vstart vend.

Definition kinit2 (vstart vend : Z) : M kmem unit :=
  freerange vstart vend;; modify (set_use_lock true).

(** ** The abstract allocator *)

(** A page the allocator may manage: the complement of kfree's panic test. *)
Definition page_ok (v : Z) : Prop :=
  v mod PGSIZE = 0 ∧ kend ≤ v ∧ v2p v < PHYSTOP ∧ KERNBASE < v < 2 ^ 32.

(** The chain of [next] pointers from [h] visits exactly [l]. *)
Fixpoint chain (m : mem) (h : Z) (l : list Z) : Prop :=
  match l with
  | [] => h = 0
  | x :: xs => h = x ∧ x ≠ 0 ∧ chain m (load32 m x) xs
  end.

Definition free_pages (s : kmem) (l : list Z) : Prop :=
  chain (kmem_mem s) (freelist s) l ∧ NoDup l ∧ Forall page_ok l.

Lemma page_ok_far v w : page_ok v → page_ok w → v ≠ w → v + PGSIZE ≤ w ∨ w + PGSIZE ≤ v.
Proof.
  unfold page_ok, PGSIZE. intros (Hv & _) (Hw & _) Hne.
  pose proof (Z.div_mod v 4096 ltac:(lia)). pose proof (Z.div_mod w 4096 ltac:(lia)). lia.
Qed.

Lemma chain_ext m m' h l :
  (∀ x, x ∈ l → load32 m x = load32 m' x) → chain m h l → chain m' h l.
Proof.
  revert h. induction l as [|x xs IH]; intros h Heq; simpl; [done|].
  intros (-> & Hx & Hc). split_and!; [done..|]. rewrite <- Heq by set_solver.
  apply IH; [set_solver|done].
Qed.

Lemma lock_if_used_eq k s : LKmem ∉ held k →
  lock_if_used k s =
    Done tt (Kctx (if use_lock s then LKmem :: held k else held k) (wakeups k)) s.
Proof.
  intros Hk. unfold lock_if_used. mgo. destruct (use_lock s); [by mgo|].
  destruct k. done.
Qed.

Lemma unlock_if_used_eq h w s :
  unlock_if_used (Kctx (if use_lock s then LKmem :: h else h) w) s = Done tt (Kctx h w) s.
Proof. unfold unlock_if_used. mgo. destruct (use_lock s); by mgo. Qed.

(** kfree of a page that passes its test. *)
Lemma kfree_eq v k s : page_ok v → LKmem ∉ held k →
  kfree v k s = Done tt k
    (Kmem (use_lock s) v
      (store32 (KString.memset (kmem_mem s) v 1 PGSIZE) v (freelist s))).
Proof.
  intros (H1 & H2 & H3 & H4) Hk. unfold kfree.
  rewrite Z.geb_leb, H1, Z.eqb_refl. cbn [negb orb].
  destruct (Z.ltb_spec v kend); [lia|]. destruct (Z.leb_spec PHYSTOP (v2p v)); [lia|].
  mgo. rewrite lock_if_used_eq by done. mgo.
  pose proof (unlock_if_used_eq (held k) (wakeups k)) as Hu.
  unfold set_freelist, set_mem. simpl.
  rewrite (Hu (Kmem (use_lock s) _ _)). by destruct k.
Qed.

Lemma kalloc_eq k s : LKmem ∉ held k →
  kalloc k s = Done (freelist s) k
    (if freelist s =? 0 then s else set_freelist (load32 (kmem_mem s) (freelist s)) s).
Proof.
  intros Hk. unfold kalloc. mgo. rewrite lock_if_used_eq by done. mgo.
  destruct (freelist s =? 0); simpl; mgo.
  - rewrite unlock_if_used_eq. by destruct k.
  - pose proof (unlock_if_used_eq (held k) (wakeups k)) as Hu.
    unfold set_freelist. rewrite (Hu (Kmem (use_lock s) _ _)). by destruct k.
Qed.

Lemma rd_kfree_out m v w a : 0 ≤ v → v + PGSIZE ≤ 2 ^ 32 → ¬ (v ≤ a < v + PGSIZE) →
  rd (store32 (KString.memset m v 1 PGSIZE) v w) a = rd m a.
Proof.
  unfold PGSIZE. intros Hv Hend Ha.
  rewrite rd_store32_out, memset_rd by lia. zcases.
Qed.

Lemma kfree_pushes (v : Z) (k : kctx) (s : kmem) (l : list Z) :
  free_pages s l → page_ok v → v ∉ l → LKmem ∉ held k →
  ∃ s', kfree v k s = Done tt k s' ∧ free_pages s' (v :: l) ∧
    (∀ a, ¬ (v ≤ a < v + PGSIZE) → rd (kmem_mem s') a = rd (kmem_mem s) a).
Proof.
  intros (Hc & Hnd & Hok) Hv Hvl Hk. eexists. split; [by apply kfree_eq|].
  pose proof Hv as (Hv1 & _ & Hv3 & Hv4).
  assert (Hend : v + PGSIZE ≤ 2 ^ 32).
  { unfold PGSIZE in *. pose proof (Z.div_mod v 4096 ltac:(lia)).
    assert (v / 4096 < 2 ^ 20) by (apply Z.div_lt_upper_bound; lia). lia. }
  unfold KERNBASE in Hv4. split; [|intros a Ha; by apply rd_kfree_out; try lia].
  split_and!; simpl; [|by constructor|by constructor].
  split_and!; [done|lia|]. rewrite load32_store32_eq.
  - eapply chain_ext; [|exact Hc]. intros x Hx. apply load32_ext. intros i Hi.
    rewrite rd_kfree_out; [done|lia|done|].
    pose proof (proj1 (Forall_forall _ _) Hok x Hx) as Hxok.
    destruct (page_ok_far v x Hv Hxok) as [?|?]; [set_solver|lia|].
    unfold PGSIZE in *. lia.
  - destruct l as [|x xs]; simpl in Hc; [lia|].
    destruct Hc as (-> & _). apply Forall_cons in Hok as [(_ & _ & _ & ?) _].
    unfold KERNBASE in *. lia.
Qed.

(** Kfree implements the abstract "push [v]": it takes a page that is
    not free, returns with the locks as they were, leaves every other page's
    bytes alone and makes [v] the head of the free list. *)
Theorem kfree_push (v : Z) (k : kctx) (s : kmem) (l : list Z) :
  free_pages s l → page_ok v → v ∉ l → LKmem ∉ held k →
  ∃ s', kfree v k s = Done tt k s' ∧ free_pages s' (v :: l) ∧
    (∀ a, ¬ (v ≤ a < v + PGSIZE) → rd (kmem_mem s') a = rd (kmem_mem s) a).
Proof. exact (kfree_pushes v k s l). Qed.

Lemma kalloc_pops (k : kctx) (s : kmem) (l : list Z) :
  free_pages s l → LKmem ∉ held k →
  ∃ s', kmem_mem s' = kmem_mem s ∧
    match l with
    | [] => kalloc k s = Done 0 k s' ∧ s' = s
    | v :: l' => kalloc k s = Done v k s' ∧ free_pages s' l' ∧ page_ok v ∧ v ∉ l'
    end.
Proof.
  intros (Hc & Hnd & Hok) Hk. rewrite kalloc_eq by done. destruct l as [|v l]; simpl in Hc.
  - rewrite Hc. by exists s.
  - destruct Hc as (-> & Hv & Hc). destruct (Z.eqb_spec v 0); [done|].
    exists (set_freelist (load32 (kmem_mem s) v) s). split; [done|].
    apply NoDup_cons in Hnd as [Hnv Hnd]. apply Forall_cons in Hok as [Hov Hok].
    split_and!; [done|split_and!; done|done|done].
Qed.

(** Kalloc implements the abstract "pop": with an empty free list it
    returns 0 and changes nothing, otherwise it returns the head, which then is
    no longer free, without touching memory. *)
Theorem kalloc_pop (k : kctx) (s : kmem) (l : list Z) :
  free_pages s l → LKmem ∉ held k →
  ∃ s', kmem_mem s' = kmem_mem s ∧
    match l with
    | [] => kalloc k s = Done 0 k s' ∧ s' = s
    | v :: l' => kalloc k s = Done v k s' ∧ free_pages s' l' ∧ page_ok v ∧ v ∉ l'
    end.
Proof. exact (kalloc_pops k s l). Qed.

(** Kfree panics on a misaligned address, an address below the end of
    the kernel and an address at or above PHYSTOP, and on nothing else. *)
Theorem kfree_guard (v : Z) (k : kctx) (s : kmem) :
  KERNBASE < kend → 0 ≤ v < 2 ^ 32 → LKmem ∉ held k →
  kfree v k s = Panicked "kfree" ↔ ¬ page_ok v.
Proof.
  intros Hend Hv Hk. split.
  - intros Hp Hok. by rewrite kfree_eq in Hp.
  - intros Hbad. unfold kfree. rewrite Z.geb_leb.
    destruct (Z.eqb_spec (v mod PGSIZE) 0); [|done]. cbn [negb orb].
    destruct (Z.ltb_spec v kend); [done|]. cbn [orb].
    destruct (Z.leb_spec PHYSTOP (v2p v)); [done|]. cbn [orb].
    exfalso. apply Hbad. split_and!; lia.
Qed.

(** The [n] pages from [p] upwards. *)
Definition pages (p : Z) (n : nat) : list Z := (λ i, p + PGSIZE * Z.of_nat i) <$> seq 0 n.

Lemma pages_S p n : pages p (S n) = p :: pages (p + PGSIZE) n.
Proof.
  unfold pages. simpl. f_equal; [lia|]. rewrite <- fmap_S_seq, <- list_fmap_compose.
  apply list_fmap_ext. intros i x _. simpl. lia.
Qed.

Lemma freerange_loop_spec n : ∀ fuel p vend k s l,
  free_pages s l → LKmem ∉ held k →
  Forall page_ok (pages p n) → NoDup (pages p n ++ l) →
  p + PGSIZE * Z.of_nat n ≤ vend < p + PGSIZE * Z.of_nat (S n) → (n < fuel)%nat →
  ∃ s', freerange_loop fuel p vend k s = Done tt k s' ∧
    free_pages s' (reverse (pages p n) ++ l) ∧
    ∀ a, ¬ (p ≤ a < p + PGSIZE * Z.of_nat n) → rd (kmem_mem s') a = rd (kmem_mem s) a.
Proof.
  induction n as [|n IH]; intros [|fuel] p vend k s l Hs Hk Hok Hnd Hv Hf; try lia; cbn [freerange_loop].
  - exists s. unfold PGSIZE in *. destruct (Z.leb_spec (p + 4096) vend); [lia|]. done.
  - destruct (Z.leb_spec (p + PGSIZE) vend); [|unfold PGSIZE in *; lia].
    rewrite pages_S in *. apply Forall_cons in Hok as [Hp Hok].
    simpl in Hnd. apply NoDup_cons in Hnd as [Hpn Hnd].
    destruct (kfree_pushes p k s l Hs Hp ltac:(set_solver) Hk) as (s1 & E1 & Hs1 & Hm1).
    unfold mbind, M_bind. rewrite E1.
    destruct (IH fuel (p + PGSIZE) vend k s1 (p :: l)) as (s' & E & Hs' & Hm'); try done.
    + apply NoDup_app. apply NoDup_app in Hnd as (H1 & H2 & H3).
      split_and!; [done| |constructor; set_solver].
      intros x Hx. rewrite elem_of_cons. intros [->|Hl]; [set_solver|by apply (H2 x)].
    + lia.
    + lia.
    + exists s'. split_and!; [done|by rewrite reverse_cons, <- app_assoc|].
      intros a Ha. unfold PGSIZE in *. rewrite Hm', Hm1 by lia. done.
Qed.

Lemma freerange_run vstart vend k s l : let p := PGROUNDUP vstart in let n := Z.to_nat ((vend - p) / PGSIZE) in
  p ≤ vend → free_pages s l → LKmem ∉ held k → Forall page_ok (pages p n) → NoDup (pages p n ++ l) →
  ∃ s', freerange vstart vend k s = Done tt k s' ∧ free_pages s' (reverse (pages p n) ++ l) ∧
    ∀ a, ¬ (p ≤ a < vend) → rd (kmem_mem s') a = rd (kmem_mem s) a.
Proof.
  intros p n Hle Hs Hk Hok Hnd. unfold freerange. fold p. fold n.
  assert (Hn : PGSIZE * Z.of_nat n = vend - p - (vend - p) mod PGSIZE ∧ 0 ≤ (vend - p) mod PGSIZE < PGSIZE).
  { subst n. unfold PGSIZE in *. pose proof (Z.div_mod (vend - p) 4096 ltac:(lia)).
    pose proof (Z.mod_pos_bound (vend - p) 4096 ltac:(lia)).
    assert (0 ≤ (vend - p) / 4096) by (apply Z.div_pos; lia). lia. }
  destruct (freerange_loop_spec n (S n) p vend k s l) as (s' & E & Hs' & Hm); try done; [unfold PGSIZE in *; lia|lia|].
  exists s'. split_and!; [done..|]. intros a Ha. apply Hm. lia.
Qed.

(** Freerange puts every whole page between [vstart] and [vend] on the
    free list, and only those, when they are pages the allocator may manage. *)
Theorem freerange_adds (vstart vend : Z) (k : kctx) (s : kmem) (l : list Z) :
  let p := PGROUNDUP vstart in
  let n := Z.to_nat ((vend - p) / PGSIZE) in
  p ≤ vend → free_pages s l → LKmem ∉ held k →
  Forall page_ok (pages p n) → NoDup (pages p n ++ l) →
  ∃ s', freerange vstart vend k s = Done tt k s' ∧
    free_pages s' (reverse (pages p n) ++ l).
Proof.
  intros p n Hle Hs Hk Hok Hnd. destruct (freerange_run vstart vend k s l Hle Hs Hk Hok Hnd) as (s' & E & Hs' & _).
  by exists s'.
Qed.

(** ** Clients that free only what they own

    A client state is the allocator's state and the pages the rest of the
    kernel holds.  [cstep] is any call the kernel makes. *)

Inductive cstep (k : kctx) : kmem * list Z → kmem * list Z → Prop :=
| cstep_alloc s s' own v :
    kalloc k s = Done v k s' → v ≠ 0 → cstep k (s, own) (s', v :: own)
| cstep_fail s s' own :
    kalloc k s = Done 0 k s' → cstep k (s, own) (s', own)
| cstep_free s s' own1 v own2 :
    kfree v k s = Done tt k s' → cstep k (s, own1 ++ v :: own2) (s', own1 ++ own2).

Definition accounted (pgs : list Z) (x : kmem * list Z) : Prop :=
  ∃ l, free_pages x.1 l ∧ Permutation (x.2 ++ l) pgs ∧ NoDup pgs ∧ Forall page_ok pgs.

Lemma cstep_accounted k pgs x y : LKmem ∉ held k →
  accounted pgs x → cstep k x y → accounted pgs y.
Proof.
  intros Hk (l & Hl & Hp & Hnd & Hok) Hstep.
  assert (Hnd' : NoDup (x.2 ++ l)) by (by rewrite Hp).
  assert (Hok' : Forall page_ok (x.2 ++ l)) by (by rewrite Hp).
  destruct Hstep as [s s' own v E Hv|s s' own E|s s' o1 v o2 E]; simpl in *.
  - destruct (kalloc_pops k s l Hl Hk) as (s1 & _ & H1). destruct l as [|w l].
    + destruct H1 as [E1 _]. congruence.
    + destruct H1 as (E1 & Hf & _). rewrite E in E1. injection E1 as -> ->.
      exists l. split_and!; try done. simpl. rewrite <- Hp.
      by rewrite Permutation_middle.
  - destruct (kalloc_pops k s l Hl Hk) as (s1 & _ & H1). destruct l as [|w l].
    + destruct H1 as [E1 ->]. rewrite E in E1. injection E1 as ->. by exists [].
    + destruct H1 as (E1 & _ & (_ & _ & _ & Hw) & _). rewrite E in E1.
      injection E1 as <- _. unfold KERNBASE in Hw. lia.
  - rewrite <- app_assoc in Hnd', Hok'. simpl in Hnd', Hok'.
    apply Forall_app in Hok' as [_ Hok']. apply Forall_cons in Hok' as [Hvok _].
    apply NoDup_app in Hnd' as (_ & _ & Hnd'). apply NoDup_cons in Hnd' as [Hvn _].
    destruct (kfree_pushes v k s l Hl Hvok ltac:(set_solver) Hk) as (s1 & E1 & Hf & _).
    rewrite E in E1. injection E1 as ->.
    exists (v :: l). split_and!; try done. simpl. rewrite <- Hp, <- !app_assoc. simpl.
    by rewrite Permutation_middle.
Qed.

(** C19: conservation.  Whatever sequence of kalloc and kfree the kernel
    makes, as long as it frees only pages it holds, the pages it holds and the
    free pages are together the pages given at boot, each exactly once: no page
    is ever handed out twice or lost. *)
Theorem pages_conserved (k : kctx) (pgs : list Z) (s s' : kmem) (own : list Z) :
  LKmem ∉ held k → free_pages s pgs → rtc (cstep k) (s, []) (s', own) →
  ∃ l, free_pages s' l ∧ Permutation (own ++ l) pgs ∧ NoDup (own ++ l).
Proof.
  intros Hk Hs Hrtc.
  assert (H0 : accounted pgs (s, [])).
  { exists pgs. split_and!; try done; by apply Hs. }
  assert (Hacc : accounted pgs (s', own)).
  { revert H0. induction Hrtc; eauto using cstep_accounted. }
  destruct Hacc as (l & Hl & Hp & Hnd & _). exists l. split_and!; try done. by rewrite Hp.
Qed.

End kalloc.

(** A concrete kernel: [end] at 0x80120000 and two pages on the free list. *)
Definition demo_kend : Z := 0x80120000.
Definition demo_kctx : kctx := Kctx [] [].

Lemma demo_free_pages :
  free_pages demo_kend (Kmem true 0x80121000 (store32 ∅ 0x80121000 0x80120000))
    [0x80121000; 0x80120000].
Proof.
  split_and!.
  - vm_compute. done.
  - apply NoDup_cons. split; [set_solver|]. apply NoDup_singleton.
  - repeat constructor; vm_compute; done.
Qed.

Lemma kfree_push_witness :
  ∃ s', kfree demo_kend 0x80122000 demo_kctx
      (Kmem true 0x80121000 (store32 ∅ 0x80121000 0x80120000)) = Done tt demo_kctx s' ∧
    free_pages demo_kend s' [0x80122000; 0x80121000; 0x80120000].
Proof.
  destruct (kfree_push demo_kend 0x80122000 demo_kctx _ _ demo_free_pages)
    as (s' & E & Hf & _).
  - repeat split; vm_compute; done.
  - set_solver.
  - set_solver.
  - exists s'. done.
Defined.

Lemma kalloc_pop_witness :
  ∃ s', kalloc demo_kctx (Kmem true 0x80121000 (store32 ∅ 0x80121000 0x80120000))
    = Done 0x80121000 demo_kctx s' ∧ free_pages demo_kend s' [0x80120000].
Proof.
  destruct (kalloc_pop demo_kend demo_kctx _ _ demo_free_pages) as (s' & _ & E & Hf & _).
  - set_solver.
  - exists s'. done.
Defined.

Lemma kfree_guard_witness :
  kfree demo_kend 0x80122004 demo_kctx (Kmem true 0 ∅) = Panicked "kfree".
Proof.
  apply (kfree_guard demo_kend 0x80122004 demo_kctx (Kmem true 0 ∅)).
  - reflexivity.
  - split; [vm_compute; congruence|reflexivity].
  - set_solver.
  - intros (H & _). vm_compute in H. congruence.
Defined.

Lemma freerange_adds_witness :
  ∃ s', freerange demo_kend 0x80120004 0x80123fff demo_kctx (Kmem false 0 ∅)
      = Done tt demo_kctx s' ∧ free_pages demo_kend s' [0x80122000; 0x80121000].
Proof.
  apply (freerange_adds demo_kend 0x80120004 0x80123fff demo_kctx (Kmem false 0 ∅) []).
  - vm_compute. congruence.
  - split_and!; [done|constructor|constructor].
  - set_solver.
  - repeat constructor; vm_compute; done.
  - rewrite app_nil_r. apply (bool_decide_unpack _). vm_compute. done.
Defined.

Lemma pages_conserved_witness :
  ∃ s' l, free_pages demo_kend s' l ∧
    Permutation ([0x80121000] ++ l) [0x80121000; 0x80120000] ∧ NoDup ([0x80121000] ++ l).
Proof.
  destruct (kalloc_pops demo_kend demo_kctx _ _ demo_free_pages) as (s' & _ & E & _);
    [set_solver|]. exists s'.
  apply (pages_conserved demo_kend demo_kctx _ _ s' [0x80121000] ltac:(set_solver)
    demo_free_pages).
  apply rtc_once, cstep_alloc; [exact E|lia].
Defined.
