(* ===== verification/Vm.v ===== *)
(** * vm.c: page tables

    Page directories and page tables lie in pages of the allocator, so a page table
    entry is a 32-bit word of the memory of Kalloc.v at the address the kernel uses for
    it.  [kdata] is the linker's symbol [data].  The registers set for a process are
    kept in the state; loaduvm, which reads a file, is in Exec.v. *)

From stdpp Require Import base gmap list strings.
From Stdlib Require Import ZArith Lia.
From S2P Require Import Prelude Params Kmonad Cstring Kalloc Printf Console.

Record vst : Type := Vst {
  km : kmem; con : cst;
  kpgdir : Z;                      (** the kernel's own page directory *)
  cr3 : Z;                         (** the page directory in use, a physical address *)
  tss_ss0 : Z; tss_esp0 : Z        (** the kernel stack for interrupts *)
}.

Definition set_km (v : kmem) (s : vst) : vst :=
  Vst v (con s) (kpgdir s) (cr3 s) (tss_ss0 s) (tss_esp0 s).
Definition set_con (v : cst) (s : vst) : vst :=
  Vst (km s) v (kpgdir s) (cr3 s) (tss_ss0 s) (tss_esp0 s).
Definition set_kpgdir (v : Z) (s : vst) : vst :=
  Vst (km s) (con s) v (cr3 s) (tss_ss0 s) (tss_esp0 s).
Definition set_cr3 (v : Z) (s : vst) : vst :=
  Vst (km s) (con s) (kpgdir s) v (tss_ss0 s) (tss_esp0 s).
Definition set_tss (ss0 esp0 : Z) (s : vst) : vst :=
  Vst (km s) (con s) (kpgdir s) (cr3 s) ss0 esp0.

Definition inkm {A} (m : M kmem A) : M vst A := zoom km set_km m.
Definition incon {A} (m : M cst A) : M vst A := zoom con set_con m.

Definition vmem (s : vst) : mem := kmem_mem (km s).
Definition vload (a : Z) : M vst Z := gets (λ s, load32 (vmem s) a).
Definition vupd (f : mem → mem) : M vst unit :=
  modify (λ s, set_km (set_mem (f (vmem s)) (km s)) s).
Definition vstore (a v : Z) : M vst unit := vupd (λ m, store32 m a v).

Definition SEG_KDATA : Z := 2.

Section vm.
Context (kend kdata : Z).

(** The address of the PTE, [None] for a null pointer. *)
Definition walkpgdir (pgdir va : Z) (alloc : bool) : M vst (option Z) :=
  let pde := pgdir + 4 * PDX va in
  v ← vload pde;
  if has v PTE_P then mret (Some (p2v (PTE_ADDR v) + 4 * PTX va))
  else if negb alloc then mret None
  else
    pgtab ← inkm kalloc;
    if pgtab =? 0 then mret None
    else
      vupd (λ m, KString.memset m pgtab 0 PGSIZE);;
      vstore pde (Z.lor (Z.lor (Z.lor (v2p pgtab) PTE_P) PTE_W) PTE_U);;
      mret (Some (pgtab + 4 * PTX va)).

Fixpoint mappages_loop (fuel : nat) (pgdir a last pa perm : Z) : M vst Z :=
  match fuel with
  | O => diverge
  | S f =>
    p ← walkpgdir pgdir a true;
    match (p : option Z) with
    | None => mret (-1)
    | Some pte =>
      v ← vload pte;
      if has v PTE_P then panic "remap"
      else
        vstore pte (Z.lor (Z.lor pa perm) PTE_P);;
        if a =? last then mret 0
        else mappages_loop f pgdir (u32 (a + PGSIZE)) last (u32 (pa + PGSIZE)) perm
    end
  end.

(** One round per page from the first to the last, round the end of the address space if
    the last lies below the first. *)
Definition mappages (pgdir va size pa perm : Z) : M vst Z :=
  let a := PGROUNDDOWN va in
  let last := PGROUNDDOWN (u32 (va + size - 1)) in
  mappages_loop (S (Z.to_nat (u32 (last - a) / PGSIZE))) pgdir a last pa perm.

(** virt, phys_start, phys_end, perm *)
Definition kmap : list (Z * Z * Z * Z) :=
  [ (KERNBASE, 0, EXTMEM, PTE_W);
    (KERNLINK, v2p KERNLINK, v2p kdata, 0);
    (kdata, v2p kdata, PHYSTOP, PTE_W);
    (DEVSPACE, DEVSPACE, 0, PTE_W) ].

Fixpoint map_kernel (l : list (Z * Z * Z * Z)) (pgdir : Z) : M vst Z :=
  match l with
  | [] => mret pgdir
  | (virt, ps, pe, perm) :: l' =>
    r ← mappages pgdir virt (u32 (pe - ps)) ps perm;
    if r <? 0 then mret 0 else map_kernel l' pgdir
  end.

Definition setupkvm : M vst Z :=
  pgdir ← inkm kalloc;
  if pgdir =? 0 then mret 0
  else
    vupd (λ m, KString.memset m pgdir 0 PGSIZE);;
    if p2v PHYSTOP >? DEVSPACE then panic "PHYSTOP too high"
    else map_kernel kmap pgdir.

Definition switchkvm : M vst unit := modify (λ s, set_cr3 (v2p (kpgdir s)) s).

Definition kvmalloc : M vst unit :=
  p ← setupkvm;
  modify (set_kpgdir p);;
  switchkvm.

(** switchuvm(p): [kstack] is proc->kstack, [pgdir] is p->pgdir. *)
Definition switchuvm (kstack pgdir : Z) : M vst unit :=
  modify (set_tss (Z.shiftl SEG_KDATA 3) (u32 (kstack + KSTACKSIZE)));;
  if pgdir =? 0 then panic "switchuvm: no pgdir"
  else modify (set_cr3 (v2p pgdir)).

(** [init] is the address of the code. *)
Definition inituvm (pgdir init sz : Z) : M vst unit :=
  if sz >=? PGSIZE then panic "inituvm: more than a page"
  else
    mem ← inkm kalloc;
    if mem =? 0 then undefined     (* the code does not test the result of kalloc *)
    else
      vupd (λ m, KString.memset m mem 0 PGSIZE);;
      mappages pgdir 0 PGSIZE (v2p mem) (Z.lor PTE_W PTE_U);;
      vupd (λ m, KString.memmove m mem init sz).

Fixpoint dealloc_loop (fuel : nat) (pgdir a oldsz : Z) : M vst unit :=
  match fuel with
  | O => diverge
  | S f =>
    if a <? oldsz then
      p ← walkpgdir pgdir a false;
      match (p : option Z) with
      | None => dealloc_loop f pgdir (u32 (u32 (a + (NPTENTRIES - 1) * PGSIZE) + PGSIZE)) oldsz
      | Some pte =>
        v ← vload pte;
        (if has v PTE_P then
           let pa := PTE_ADDR v in
           if pa =? 0 then panic "kfree"
           else inkm (kfree kend (p2v pa));; vstore pte 0
         else mret tt);;
        dealloc_loop f pgdir (u32 (a + PGSIZE)) oldsz
      end
    else mret tt
  end.

Definition deallocuvm (pgdir oldsz newsz : Z) : M vst Z :=
  if newsz >=? oldsz then mret oldsz
  else
    dealloc_loop (S (S (Z.to_nat (oldsz / PGSIZE)))) pgdir (PGROUNDUP newsz) oldsz;;
    mret newsz.

(** "allocuvm out of memory\n" *)
Definition oom_text : list Z :=
  [97; 108; 108; 111; 99; 117; 118; 109; 32; 111; 117; 116; 32; 111; 102; 32;
   109; 101; 109; 111; 114; 121; 10].

Fixpoint alloc_loop (fuel : nat) (pgdir a oldsz newsz : Z) : M vst Z :=
  match fuel with
  | O => diverge
  | S f =>
    if a <? newsz then
      mem ← inkm kalloc;
      if mem =? 0 then
        incon (cprintf (λ _, []) (Some oom_text) []);;
        deallocuvm pgdir newsz oldsz;;
        mret 0
      else
        vupd (λ m, KString.memset m mem 0 PGSIZE);;
        mappages pgdir a PGSIZE (v2p mem) (Z.lor PTE_W PTE_U);;
        alloc_loop f pgdir (u32 (a + PGSIZE)) oldsz newsz
    else mret newsz
  end.

Definition allocuvm (pgdir oldsz newsz : Z) : M vst Z :=
  if newsz >=? KERNBASE then mret 0
  else if newsz <? oldsz then mret oldsz
  else alloc_loop (S (Z.to_nat (newsz / PGSIZE + 1))) pgdir (PGROUNDUP oldsz) oldsz newsz.

Definition freevm (pgdir : Z) : M vst unit :=
  if pgdir =? 0 then panic "freevm: no pgdir"
  else
    deallocuvm pgdir KERNBASE 0;;
    mfor 0 (Z.to_nat NPDENTRIES) (λ i,
      v ← vload (pgdir + 4 * Z.of_nat i);
      if has v PTE_P then inkm (kfree kend (p2v (PTE_ADDR v))) else mret tt);;
    inkm (kfree kend pgdir).

Definition clearpteu (pgdir uva : Z) : M vst unit :=
  p ← walkpgdir pgdir uva false;
  match (p : option Z) with
  | None => panic "clearpteu"
  | Some pte => v ← vload pte; vstore pte (Z.land v (Z.lnot PTE_U))
  end.

Fixpoint copyuvm_loop (fuel : nat) (pgdir d i sz : Z) : M vst Z :=
  match fuel with
  | O => diverge
  | S f =>
    if i <? sz then
      p ← walkpgdir pgdir i false;
      match (p : option Z) with
      | None => panic "copyuvm: pte should exist"
      | Some pte =>
        v ← vload pte;
        if negb (has v PTE_P) then panic "copyuvm: page not present"
        else
          mem ← inkm kalloc;
          if mem =? 0 then freevm d;; mret 0
          else
            vupd (λ m, KString.memmove m mem (p2v (PTE_ADDR v)) PGSIZE);;
            r ← mappages d i PGSIZE (v2p mem) (PTE_FLAGS v);
            if r <? 0 then freevm d;; mret 0
            else copyuvm_loop f pgdir d (u32 (i + PGSIZE)) sz
      end
    else mret d
  end.

Definition copyuvm (pgdir sz : Z) : M vst Z :=
  d ← setupkvm;
  if d =? 0 then mret 0
  else copyuvm_loop (S (S (Z.to_nat (sz / PGSIZE)))) pgdir d 0 sz.

(** The result is 0 for a null pointer; a missing page table is dereferenced. *)
Definition uva2ka (pgdir uva : Z) : M vst Z :=
  p ← walkpgdir pgdir uva false;
  pte ← defined p;
  v ← vload pte;
  if negb (has v PTE_P) then mret 0
  else if negb (has v PTE_U) then mret 0
  else mret (p2v (PTE_ADDR v)).

Fixpoint copyout_loop (fuel : nat) (pgdir va buf len : Z) : M vst Z :=
  match fuel with
  | O => diverge
  | S f =>
    if len >? 0 then
      let va0 := PGROUNDDOWN va in
      pa0 ← uva2ka pgdir va0;
      if pa0 =? 0 then mret (-1)
      else
        let n := Z.min (PGSIZE - (va - va0)) len in
        vupd (λ m, KString.memmove m (pa0 + (va - va0)) buf n);;
        copyout_loop f pgdir (u32 (va0 + PGSIZE)) (buf + n) (len - n)
    else mret 0
  end.

Definition copyout (pgdir va p len : Z) : M vst Z :=
  copyout_loop (S (S (S (Z.to_nat (len / PGSIZE))))) pgdir va p len.
End vm.
