(* ===== verification/VmSpec.v ===== *)
(** * Correctness of the page-table code

    [pte m pgdir va] is the page table entry the MMU finds for [va], 0 if there is no
    page table.  [vm_ok] says that the directory and its tables are distinct pages and
    that the allocator's free pages are others; under it walkpgdir, mappages, allocuvm
    and copyout do on [pte] what their comments promise. *)

From stdpp Require Import base gmap list strings.
From Stdlib Require Import ZArith Lia.
From S2P Require Import Prelude Params Kmonad Cstring Kalloc Console Vm.

(** ** Entries *)

Lemma aligned_bit x n : x mod 2 ^ 12 = 0 → 0 ≤ n < 12 → Z.testbit x n = false.
Proof.
  intros Hx Hn. replace x with (Z.shiftl (x / 2 ^ 12) 12).
  - by rewrite Z.shiftl_spec_low by lia.
  - rewrite Z.shiftl_mul_pow2 by lia. pose proof (Z.div_mod x (2 ^ 12) ltac:(lia)). lia.
Qed.

Lemma lor_low x f : x mod 2 ^ 12 = 0 → 0 ≤ f < 2 ^ 12 → Z.lor x f = x + f.
Proof.
  intros Hx Hf. assert (Hl : Z.land x f = 0).
  { apply Z.bits_inj'. intros n Hn. rewrite Z.land_spec, Z.bits_0.
    destruct (Z.lt_ge_cases n 12); [by rewrite aligned_bit by (done || lia)|].
    destruct (Z.eq_dec f 0) as [->|]; [by rewrite Z.bits_0, andb_false_r|].
    rewrite (Z.bits_above_log2 f); [apply andb_false_r|lia|].
    apply (Z.lt_le_trans _ 12); [|done]. apply Z.log2_lt_pow2; lia. }
  rewrite Z.add_nocarry_lxor by done. by rewrite Z.lxor_lor.
Qed.

Lemma has_low x f b : x mod 2 ^ 12 = 0 → 0 ≤ f < 2 ^ 12 → 0 ≤ b < 12 →
  has (Z.lor x f) (2 ^ b) = has f (2 ^ b).
Proof.
  intros Hx Hf Hb. rewrite !has_pow2, Z.lor_spec, aligned_bit by (done || lia). done.
Qed.

Lemma PTE_ADDR_lor x f : 0 ≤ x < 2 ^ 32 → x mod 2 ^ 12 = 0 → 0 ≤ f < 2 ^ 12 →
  PTE_ADDR (Z.lor x f) = x.
Proof.
  intros Hr Hx Hf. unfold PTE_ADDR. change 0xFFF with (PGSIZE - 1). rewrite lor_low by done.
  pose proof (Z.div_mod x (2 ^ 12) ltac:(lia)) as Hd.
  assert (x / 2 ^ 12 < 2 ^ 20) by (apply Z.div_lt_upper_bound; lia).
  rewrite land_page_mask by lia. unfold PGSIZE. change 4096 with (2 ^ 12).
  rewrite Z.add_mod, Hx, Z.add_0_l, Z.mod_mod, (Z.mod_small f) by lia. lia.
Qed.

(** A page the kernel addresses. *)
Definition kpage (p : Z) : Prop := p mod PGSIZE = 0 ∧ KERNBASE ≤ p < 2 ^ 32.

Lemma kpage_end p : kpage p → p + PGSIZE ≤ 2 ^ 32.
Proof.
  unfold kpage, PGSIZE. intros [Hm Hr]. pose proof (Z.div_mod p 4096 ltac:(lia)).
  assert (p / 4096 < 2 ^ 20) by (apply Z.div_lt_upper_bound; lia). lia.
Qed.

Lemma kpage_far p q : kpage p → kpage q → p ≠ q → p + PGSIZE ≤ q ∨ q + PGSIZE ≤ p.
Proof.
  unfold kpage, PGSIZE. intros [Hp _] [Hq _] Hne.
  pose proof (Z.div_mod p 4096 ltac:(lia)). pose proof (Z.div_mod q 4096 ltac:(lia)). lia.
Qed.

Lemma p2v_v2p p : KERNBASE ≤ p < 2 ^ 32 → p2v (v2p p) = p.
Proof. intros H. unfold p2v, v2p. rewrite u32_add_l. unfold KERNBASE in *. rewrite u32_small; lia. Qed.

Lemma v2p_page p : kpage p → 0 ≤ v2p p < 2 ^ 31 ∧ v2p p mod 2 ^ 12 = 0.
Proof.
  intros [Hm Hr]. unfold v2p, KERNBASE in *. rewrite u32_small by lia. split; [lia|].
  unfold PGSIZE in Hm. change (2 ^ 12) with 4096.
  replace (p - 2147483648) with (p + (- 524288) * 4096) by lia. by rewrite Z.mod_add by lia.
Qed.

(** An entry that points to page [p] with permissions [f]. *)
Lemma entry_decode p f : kpage p → 0 ≤ f < 2 ^ 12 → has f PTE_P = true →
  0 ≤ Z.lor (v2p p) f < 2 ^ 32 ∧ has (Z.lor (v2p p) f) PTE_P = true ∧
  p2v (PTE_ADDR (Z.lor (v2p p) f)) = p.
Proof.
  intros Hp Hf HP. destruct (v2p_page p Hp) as [Hr Hm]. split_and!.
  - rewrite lor_low by done. lia.
  - rewrite lor_low by done. lia.
  - change PTE_P with (2 ^ 0). rewrite has_low by (done || lia). done.
  - rewrite PTE_ADDR_lor by (done || lia). apply p2v_v2p. unfold kpage in Hp. lia.
Qed.

(** ** Page tables *)

(** Entry [i] of the directory: the page table, if present. *)
Definition ptab (m : mem) (pgdir i : Z) : option Z :=
  let v := load32 m (pgdir + 4 * i) in if has v PTE_P then Some (p2v (PTE_ADDR v)) else None.

Definition pte (m : mem) (pgdir va : Z) : Z :=
  match ptab m pgdir (PDX va) with Some t => load32 m (t + 4 * PTX va) | None => 0 end.

Record pt_ok (m : mem) (pgdir : Z) : Prop := PtOk {
  pt_dir : kpage pgdir;
  pt_tab : ∀ i t, 0 ≤ i < 1024 → ptab m pgdir i = Some t → kpage t ∧ t ≠ pgdir;
  pt_inj : ∀ i j t, 0 ≤ i < 1024 → 0 ≤ j < 1024 →
    ptab m pgdir i = Some t → ptab m pgdir j = Some t → i = j
}.

(** Not the directory and not one of its tables. *)
Definition outside (m : mem) (pgdir p : Z) : Prop :=
  p ≠ pgdir ∧ ∀ i, 0 ≤ i < 1024 → ptab m pgdir i ≠ Some p.

Definition same_page (m m' : mem) (p : Z) : Prop := ∀ a, p ≤ a < p + PGSIZE → rd m' a = rd m a.

Section vmspec.
Context (kend kdata : Z).

Record vm_ok (s : vst) (pgdir : Z) (l : list Z) : Prop := VmOk {
  vm_pt : pt_ok (vmem s) pgdir;
  vm_free : free_pages kend (km s) l;
  vm_out : ∀ p, p ∈ l → outside (vmem s) pgdir p
}.

Lemma load32_same m m' p j : same_page m m' p → 0 ≤ j < 1024 →
  load32 m' (p + 4 * j) = load32 m (p + 4 * j).
Proof. intros H Hj. apply load32_ext. intros i Hi. apply H. unfold PGSIZE. lia. Qed.

(** The tables depend on their own pages only. *)
Lemma ptab_same m m' pgdir i : same_page m m' pgdir → 0 ≤ i < 1024 →
  ptab m' pgdir i = ptab m pgdir i.
Proof. intros H Hi. unfold ptab. by rewrite (load32_same m m') by done. Qed.

Lemma pte_same m m' pgdir va : same_page m m' pgdir →
  (∀ t, ptab m pgdir (PDX va) = Some t → same_page m m' t) → pte m' pgdir va = pte m pgdir va.
Proof.
  intros H Ht. unfold pte. rewrite (ptab_same m m') by (done || apply PDX_range).
  destruct (ptab m pgdir (PDX va)) as [t|] eqn:E; [|done].
  apply load32_same; [by apply Ht|apply PTX_range].
Qed.

Lemma pt_ok_same m m' pgdir : same_page m m' pgdir → pt_ok m pgdir → pt_ok m' pgdir.
Proof.
  intros H [H1 H2 H3]. split; [done| |].
  - intros i t Hi. rewrite (ptab_same m m') by done. by apply H2.
  - intros i j t Hi Hj. rewrite !(ptab_same m m') by done. by apply H3.
Qed.

Lemma page_ok_kpage p : page_ok kend p → kpage p.
Proof. intros (H1 & _ & _ & H4). split; [done|lia]. Qed.

(** The free list is in the free pages. *)
Lemma free_pages_same s m' l : free_pages kend s l → (∀ p, p ∈ l → same_page (kmem_mem s) m' p) →
  free_pages kend (set_mem m' s) l.
Proof.
  intros (Hc & Hn & Hf) Hs. split_and!; [|done|done]. simpl.
  eapply chain_ext; [|exact Hc]. intros x Hx. symmetry.
  replace x with (x + 4 * 0) by lia. apply load32_same; [|lia]. by apply Hs.
Qed.

(** ** A new page table *)

Definition PDE_FLAGS : Z := Z.lor (Z.lor PTE_P PTE_W) PTE_U.

Definition add_table (m : mem) (pgdir i p : Z) : mem :=
  store32 (KString.memset m p 0 PGSIZE) (pgdir + 4 * i) (Z.lor (v2p p) PDE_FLAGS).

Section new_table.
Context (m : mem) (pgdir i0 p : Z).
Context (Hpt : pt_ok m pgdir) (Hp : kpage p) (Hout : outside m pgdir p) (Hi0 : 0 ≤ i0 < 1024).

Lemma add_table_rd a : ¬ (pgdir + 4 * i0 ≤ a < pgdir + 4 * i0 + 4) →
  rd (add_table m pgdir i0 p) a = if (p <=? a) && (a <? p + PGSIZE) then 0 else rd m a.
Proof.
  intros Ha. unfold add_table. rewrite rd_store32_out by lia. pose proof (kpage_end p Hp).
  destruct Hp as [_ ?]. unfold KERNBASE, PGSIZE in *. by rewrite memset_rd by lia.
Qed.

Lemma add_table_same q : kpage q → q ≠ pgdir → q ≠ p → same_page m (add_table m pgdir i0 p) q.
Proof.
  intros Hq Hd Hqp a Ha. pose proof (kpage_far q pgdir Hq (pt_dir _ _ Hpt) Hd).
  pose proof (kpage_far q p Hq Hp Hqp). unfold PGSIZE in *.
  rewrite add_table_rd by lia. unfold PGSIZE. zcases. all: lia.
Qed.

Lemma add_table_entry i : 0 ≤ i < 1024 → load32 (add_table m pgdir i0 p) (pgdir + 4 * i) =
  if i =? i0 then Z.lor (v2p p) PDE_FLAGS else load32 m (pgdir + 4 * i).
Proof.
  intros Hi. destruct (Z.eqb_spec i i0) as [->|Hne].
  - unfold add_table. apply load32_store32_eq. by apply entry_decode.
  - apply load32_ext. intros b Hb. rewrite add_table_rd by lia.
    pose proof (kpage_far p pgdir Hp (pt_dir _ _ Hpt) (proj1 Hout)). unfold PGSIZE in *. zcases.
Qed.

Lemma add_table_ptab i : 0 ≤ i < 1024 →
  ptab (add_table m pgdir i0 p) pgdir i = if i =? i0 then Some p else ptab m pgdir i.
Proof.
  intros Hi. unfold ptab. rewrite add_table_entry by done. destruct (i =? i0); [|done].
  destruct (entry_decode p PDE_FLAGS) as (_ & -> & ->); done.
Qed.

Lemma add_table_ok : pt_ok (add_table m pgdir i0 p) pgdir.
Proof.
  destruct Hpt as [H1 H2 H3]. destruct Hout as [Ho1 Ho2]. split; [done| |].
  - intros i t Hi. rewrite add_table_ptab by done. destruct (i =? i0); [|by apply H2].
    by intros [= <-].
  - intros i j t Hi Hj. rewrite !add_table_ptab by done.
    destruct (Z.eqb_spec i i0) as [->|], (Z.eqb_spec j i0) as [->|]; [done| | |by apply H3].
    + intros [= <-] E. by apply Ho2 in E.
    + intros E [= <-]. by apply Ho2 in E.
Qed.

(** The new table is empty. *)
Lemma add_table_pte va : ptab m pgdir i0 = None →
  pte (add_table m pgdir i0 p) pgdir va = pte m pgdir va.
Proof.
  intros Hn. unfold pte. rewrite add_table_ptab by apply PDX_range.
  destruct (Z.eqb_spec (PDX va) i0) as [->|Hne].
  - rewrite Hn. pose proof (PTX_range va).
    assert (Hz : ∀ b, 0 ≤ b < 4 → rd (add_table m pgdir i0 p) (p + 4 * PTX va + b) = 0).
    { intros b Hb. pose proof (kpage_far p pgdir Hp (pt_dir _ _ Hpt) (proj1 Hout)).
      rewrite add_table_rd; unfold PGSIZE in *; [zcases; lia|lia]. }
    unfold load32. rewrite <- (Z.add_0_r (p + 4 * PTX va)) at 1. by rewrite !Hz by lia.
  - destruct (ptab m pgdir (PDX va)) as [t|] eqn:E; [|done].
    destruct (pt_tab _ _ Hpt _ _ (PDX_range va) E) as [Ht Htd].
    apply (load32_same m); [|apply PTX_range]. apply add_table_same; [done|done|].
    intros ->. by apply (proj2 Hout) in E; [|apply PDX_range].
Qed.
End new_table.

(** ** Setting an entry *)

(** [va] and [va'] are in the same page. *)
Definition same_vpage (va va' : Z) : bool := va / PGSIZE =? va' / PGSIZE.

Lemma vpage_split va : 0 ≤ va < 2 ^ 32 → va / PGSIZE = PDX va * 1024 + PTX va.
Proof.
  intros H. rewrite PDX_eq, PTX_eq by done. unfold PGSIZE. change (2 ^ 12) with 4096.
  pose proof (Z.div_mod (va / 4096) (2 ^ 10) ltac:(lia)) as Hd. rewrite Z.div_div in Hd by lia.
  change (4096 * 2 ^ 10) with (2 ^ 22) in Hd. lia.
Qed.

Section set_entry.
Context (m : mem) (pgdir va t v : Z).
Context (Hpt : pt_ok m pgdir) (Ht : ptab m pgdir (PDX va) = Some t) (Hv : 0 ≤ v < 2 ^ 32).
Context (Hva : 0 ≤ va < 2 ^ 32).
Let m' := store32 m (t + 4 * PTX va) v.

Lemma set_entry_same q : kpage q → q ≠ t → same_page m m' q.
Proof.
  intros Hq Hqt a Ha. destruct (pt_tab _ _ Hpt _ _ (PDX_range va) Ht) as [Hk _].
  pose proof (kpage_far q t Hq Hk Hqt). pose proof (PTX_range va). unfold PGSIZE in *.
  apply rd_store32_out. lia.
Qed.

Lemma set_entry_ptab i : 0 ≤ i < 1024 → ptab m' pgdir i = ptab m pgdir i.
Proof.
  intros Hi. destruct (pt_tab _ _ Hpt _ _ (PDX_range va) Ht) as [_ Hd].
  apply ptab_same; [|done]. apply set_entry_same; [apply Hpt|done].
Qed.

Lemma set_entry_ok : pt_ok m' pgdir.
Proof.
  destruct (pt_tab _ _ Hpt _ _ (PDX_range va) Ht) as [_ Hd].
  apply (pt_ok_same m); [|done]. apply set_entry_same; [apply Hpt|done].
Qed.

Lemma set_entry_pte va' : 0 ≤ va' < 2 ^ 32 →
  pte m' pgdir va' = if same_vpage va va' then v else pte m pgdir va'.
Proof.
  intros Hva'. unfold same_vpage, pte. rewrite set_entry_ptab by apply PDX_range.
  rewrite !vpage_split by done. pose proof (PTX_range va). pose proof (PTX_range va').
  destruct (Z.eqb_spec (PDX va * 1024 + PTX va) (PDX va' * 1024 + PTX va')) as [E|E].
  - assert (HD : PDX va' = PDX va) by lia. assert (HT : PTX va' = PTX va) by lia.
    rewrite HD, HT, Ht. unfold m'. by apply load32_store32_eq.
  - destruct (ptab m pgdir (PDX va')) as [t'|] eqn:E'; [|done].
    destruct (decide (t' = t)) as [->|Hne].
    + rewrite (pt_inj _ _ Hpt _ _ t (PDX_range va') (PDX_range va) E' Ht) in E.
      unfold m'. apply load32_store32_ne. lia.
    + apply (load32_same m); [|done]. apply set_entry_same; [|done].
      by apply (pt_tab _ _ Hpt _ _ (PDX_range va') E').
Qed.
End set_entry.

(** ** walkpgdir *)

Lemma vkalloc_run k s l : free_pages kend (km s) l → LKmem ∉ held k →
  match l with
  | [] => inkm kalloc k s = Done 0 k s
  | p :: l' => ∃ s1, inkm kalloc k s = Done p k (set_km s1 s) ∧ kmem_mem s1 = vmem s ∧
      free_pages kend s1 l' ∧ page_ok kend p ∧ p ∉ l'
  end.
Proof.
  intros Hf Hk. destruct (kalloc_pops kend k (km s) l Hf Hk) as (s1 & Hm & H). destruct l as [|p l].
  - destruct H as [H ->]. unfold inkm. rewrite (zoom_Done _ _ _ _ _ _ _ _ H). by destruct s.
  - destruct H as (H & Hf' & Hp & Hpl). exists s1. split_and!; try done.
    unfold inkm. by rewrite (zoom_Done _ _ _ _ _ _ _ _ H).
Qed.

(** [s'] is [s] up to the memory and the free list; pages other than the directory, its
    tables and the pages [used] are as before. *)
Definition vframe (pgdir : Z) (used : list Z) (s s' : vst) : Prop :=
  s' = set_km (km s') s ∧
  ∀ q, kpage q → outside (vmem s) pgdir q → q ∉ used → same_page (vmem s) (vmem s') q.

Lemma same_page_trans m1 m2 m3 q : same_page m1 m2 q → same_page m2 m3 q → same_page m1 m3 q.
Proof. intros H1 H2 a Ha. by rewrite H2, H1. Qed.

Lemma vm_ok_mem s pgdir l m' :
  vm_ok s pgdir l → pt_ok m' pgdir → (∀ p, p ∈ l → same_page (vmem s) m' p) →
  (∀ p, p ∈ l → outside m' pgdir p) → vm_ok (set_km (set_mem m' (km s)) s) pgdir l.
Proof. intros [H1 H2 H3] Hp Hs Ho. split; [done|by apply free_pages_same|done]. Qed.

(** walkpgdir finds the entry, or makes room for it from the first free page. *)
Lemma walkpgdir_run pgdir va k s l : vm_ok s pgdir l → 0 ≤ va < 2 ^ 32 → LKmem ∉ held k →
  match ptab (vmem s) pgdir (PDX va) with
  | Some t => ∀ al, walkpgdir pgdir va al k s = Done (Some (t + 4 * PTX va)) k s
  | None => walkpgdir pgdir va false k s = Done None k s ∧
    match l with
    | [] => walkpgdir pgdir va true k s = Done None k s
    | p :: l' => ∃ s', walkpgdir pgdir va true k s = Done (Some (p + 4 * PTX va)) k s' ∧
        vm_ok s' pgdir l' ∧ ptab (vmem s') pgdir (PDX va) = Some p ∧
        (∀ va', pte (vmem s') pgdir va' = pte (vmem s) pgdir va') ∧
        vframe pgdir [p] s s' ∧ page_ok kend p ∧
        (∀ i, 0 ≤ i < 1024 → ptab (vmem s') pgdir i = if i =? PDX va then Some p else ptab (vmem s) pgdir i)
    end
  end.
Proof.
  intros [Hpt Hfree Hout] Hva Hk. unfold walkpgdir, vload.
  destruct (ptab (vmem s) pgdir (PDX va)) as [t|] eqn:Et.
  { intros al. mb (gets_eq (λ s, load32 (vmem s) (pgdir + 4 * PDX va)) k s).
    unfold ptab in Et. destruct (has _ _); [|done]. by injection Et as <-. }
  assert (Hnp : has (load32 (vmem s) (pgdir + 4 * PDX va)) PTE_P = false).
  { unfold ptab in Et. by destruct (has _ _). }
  split; [by mb (gets_eq (λ s, load32 (vmem s) (pgdir + 4 * PDX va)) k s); rewrite Hnp|].
  pose proof (vkalloc_run k s l Hfree Hk) as Ha. destruct l as [|p l].
  { mb (gets_eq (λ s, load32 (vmem s) (pgdir + 4 * PDX va)) k s). rewrite Hnp. cbn [negb]. by mb Ha. }
  destruct Ha as (s1 & Ha & Hm & Hf1 & Hp & Hpl). pose proof (page_ok_kpage p Hp) as Hkp.
  pose proof (Hout p ltac:(set_solver)) as Hop. pose proof (PDX_range va) as Hi.
  set (m' := add_table (vmem s) pgdir (PDX va) p).
  exists (set_km (set_mem m' s1) s). split.
  { mb (gets_eq (λ s, load32 (vmem s) (pgdir + 4 * PDX va)) k s). rewrite Hnp. cbn [negb]. mb Ha.
    destruct (Z.eqb_spec p 0) as [->|_]; [destruct Hkp as [_ ?]; unfold KERNBASE in *; lia|].
    unfold vstore, vupd, mbind, M_bind. rewrite !modify_eq, ret_eq.
    unfold m', add_table, vmem, PDE_FLAGS. cbn [set_km km set_mem kmem_mem]. rewrite Hm.
    by rewrite <- !Z.lor_assoc. }
  assert (Hsame : ∀ q, q ∈ l → same_page (vmem s) m' q).
  { intros q Hq. destruct Hf1 as (_ & _ & Hall).
    apply add_table_same; try done; [| |by intros ->].
    - apply page_ok_kpage. by apply (proj1 (Forall_forall _ _) Hall).
    - apply Hout. set_solver. }
  assert (Hptab : ∀ i, 0 ≤ i < 1024 → ptab m' pgdir i =
    if i =? PDX va then Some p else ptab (vmem s) pgdir i) by (intros; by apply add_table_ptab).
  split_and!; try done.
  - split; [by apply add_table_ok| |].
    + apply free_pages_same; [done|]. by rewrite Hm.
    + intros q Hq. destruct (Hout q ltac:(set_solver)) as [Hq1 Hq2]. split; [done|].
      intros i Hir. change (vmem (set_km (set_mem m' s1) s)) with m'. rewrite Hptab by done.
      destruct (i =? PDX va); [intros [= ->]; done|by apply Hq2].
  - change (vmem (set_km (set_mem m' s1) s)) with m'. rewrite Hptab by done. by rewrite Z.eqb_refl.
  - intros va'. by apply add_table_pte.
  - split; [done|]. intros q Hq [Hq1 Hq2] Hqp. apply add_table_same; try done. set_solver.
Qed.

(** ** mappages *)

(** The tables grow by pages of [used] only. *)
Definition grown (pgdir : Z) (used : list Z) (s s' : vst) : Prop :=
  ∀ q, outside (vmem s) pgdir q → q ∉ used → outside (vmem s') pgdir q.

Lemma vframe_refl pgdir s : vframe pgdir [] s s.
Proof. split; [by destruct s|]. by intros q _ _ _ a. Qed.

Lemma vframe_trans pgdir u1 u2 s1 s2 s3 : vframe pgdir u1 s1 s2 → grown pgdir u1 s1 s2 →
  vframe pgdir u2 s2 s3 → vframe pgdir (u1 ++ u2) s1 s3.
Proof.
  intros [E1 F1] Hg [E2 F2]. split.
  - rewrite E2, E1. by destruct s1.
  - intros q Hq Ho Hu. eapply same_page_trans; [apply F1; [done|done|set_solver]|].
    apply F2; [done|apply Hg; [done|set_solver]|set_solver].
Qed.

Lemma grown_trans pgdir u1 u2 s1 s2 s3 : grown pgdir u1 s1 s2 → grown pgdir u2 s2 s3 →
  grown pgdir (u1 ++ u2) s1 s3.
Proof. intros H1 H2 q Ho Hu. apply H2; [apply H1; [done|set_solver]|set_solver]. Qed.

(** The table for [va] is there, from the first of the free pages if it was not. *)
Definition made (pgdir va : Z) (used : list Z) (s s' : vst) : Prop :=
  length used = (if ptab (vmem s) pgdir (PDX va) then 0 else 1)%nat ∧
  ∀ i, 0 ≤ i < 1024 → ptab (vmem s') pgdir i = None ↔ ptab (vmem s) pgdir i = None ∧ i ≠ PDX va.

Lemma made_length pgdir va used s s' : made pgdir va used s s' → (length used ≤ 1)%nat.
Proof. intros [-> _]. destruct (ptab _ _ _); lia. Qed.

(** walkpgdir(alloc) succeeds if there is the table or a free page, and changes no entry. *)
Lemma walk_alloc pgdir va k s l : vm_ok s pgdir l → 0 ≤ va < 2 ^ 32 → LKmem ∉ held k →
  (ptab (vmem s) pgdir (PDX va) = None → l ≠ []) →
  ∃ t s' used l', walkpgdir pgdir va true k s = Done (Some (t + 4 * PTX va)) k s' ∧
    l = used ++ l' ∧ made pgdir va used s s' ∧ vm_ok s' pgdir l' ∧
    ptab (vmem s') pgdir (PDX va) = Some t ∧
    (∀ va', pte (vmem s') pgdir va' = pte (vmem s) pgdir va') ∧
    vframe pgdir used s s' ∧ grown pgdir used s s'.
Proof.
  intros Hok Hva Hk Hl. pose proof (walkpgdir_run pgdir va k s l Hok Hva Hk) as H.
  destruct (ptab (vmem s) pgdir (PDX va)) as [t|] eqn:Et.
  { exists t, s, [], l. split_and!; try done; [|apply vframe_refl|by intros q]. split; [by rewrite Et|].
    intros i _. split; [|tauto]. intros E. split; [done|]. intros ->. by rewrite E in Et. }
  destruct l as [|p l]; [by destruct Hl|]. destruct H as (_ & s' & H & Hok' & Ht & Hp & Hf & _ & Htab).
  exists p, s', [p], l. split_and!; try done.
  - split; [by rewrite Et|]. intros i Hi. rewrite Htab by done. destruct (Z.eqb_spec i (PDX va)); [naive_solver|tauto].
  - intros q [Hq1 Hq2] Hu. split; [done|]. intros i Hi. rewrite Htab by done.
    destruct (i =? PDX va); [|by apply Hq2]. intros [= ->]. set_solver.
Qed.

(** Storing an entry. *)
Lemma store_entry pgdir va t v s l : vm_ok s pgdir l → ptab (vmem s) pgdir (PDX va) = Some t →
  0 ≤ va < 2 ^ 32 → 0 ≤ v < 2 ^ 32 →
  let s' := set_km (set_mem (store32 (vmem s) (t + 4 * PTX va) v) (km s)) s in
  vm_ok s' pgdir l ∧ vframe pgdir [] s s' ∧ grown pgdir [] s s' ∧
  (∀ i, 0 ≤ i < 1024 → ptab (vmem s') pgdir i = ptab (vmem s) pgdir i) ∧
  ∀ va', 0 ≤ va' < 2 ^ 32 →
    pte (vmem s') pgdir va' = if same_vpage va va' then v else pte (vmem s) pgdir va'.
Proof.
  intros [Hpt Hf Ho] Ht Hva Hv. cbn zeta. split_and!.
  - apply vm_ok_mem; [by split|by apply set_entry_ok| |].
    + intros p Hp. destruct Hf as (_ & _ & Hall).
      apply (set_entry_same _ pgdir); try done.
      * apply page_ok_kpage. by apply (proj1 (Forall_forall _ _) Hall).
      * intros ->. destruct (Ho t Hp) as [_ H]. by apply H in Ht; [|apply PDX_range].
    + intros p Hp. destruct (Ho p Hp) as [H1 H2]. split; [done|].
      intros i Hi. rewrite set_entry_ptab by done. by apply H2.
  - split; [done|]. intros q Hq [Hq1 Hq2] _. apply (set_entry_same _ pgdir); try done.
    intros ->. by apply Hq2 in Ht; [|apply PDX_range].
  - intros q [Hq1 Hq2] _. split; [done|]. intros i Hi.
    change (vmem (set_km (set_mem (store32 (vmem s) (t + 4 * PTX va) v) (km s)) s))
      with (store32 (vmem s) (t + 4 * PTX va) v). rewrite set_entry_ptab by done. by apply Hq2.
  - intros i Hi. by apply (set_entry_ptab (vmem s)).
  - intros va' Hva'. by apply set_entry_pte.
Qed.

Definition entry (pa perm : Z) : Z := Z.lor (Z.lor pa perm) PTE_P.

Lemma entry_range pa perm : 0 ≤ pa < 2 ^ 32 → pa mod PGSIZE = 0 → 0 ≤ perm < 2 ^ 12 →
  0 ≤ entry pa perm < 2 ^ 32.
Proof.
  intros Hp Hm Hf. unfold entry. rewrite <- Z.lor_assoc.
  assert (Hl : 0 ≤ Z.lor perm PTE_P < 2 ^ 12).
  { split; [apply Z.lor_nonneg; unfold PTE_P; lia|].
    destruct (Z.eq_dec (Z.lor perm PTE_P) 0) as [->|]; [lia|].
    apply Z.log2_lt_cancel. rewrite Z.log2_lor by (unfold PTE_P; lia). change (Z.log2 (2 ^ 12)) with 12.
    apply Z.max_lub_lt; [|by vm_compute].
    destruct (Z.eq_dec perm 0) as [->|]; [by vm_compute|]. apply Z.log2_lt_pow2; lia. }
  rewrite lor_low by done. unfold PGSIZE in Hm. pose proof (Z.div_mod pa 4096 ltac:(lia)).
  assert (pa / 4096 < 2 ^ 20) by (apply Z.div_lt_upper_bound; lia). lia.
Qed.

Lemma same_vpage_aligned a va : a mod PGSIZE = 0 → same_vpage a va = (a <=? va) && (va <? a + PGSIZE).
Proof.
  unfold same_vpage, PGSIZE. intros Ha. pose proof (Z.div_mod a 4096 ltac:(lia)).
  pose proof (Z.div_mod va 4096 ltac:(lia)). pose proof (Z.mod_pos_bound va 4096 ltac:(lia)).
  destruct (Z.eqb_spec (a / 4096) (va / 4096)), (Z.leb_spec a va), (Z.ltb_spec va (a + 4096));
    cbn [andb]; (done || lia).
Qed.

(** The entries after pages from [a] on were mapped to frames from [pa] on. *)
Definition mapped (m m' : mem) (pgdir a size pa perm : Z) : Prop := ∀ va, 0 ≤ va < 2 ^ 32 →
  pte m' pgdir va = if (a <=? va) && (va <? a + size) then entry (pa + (va - va mod PGSIZE - a)) perm
                    else pte m pgdir va.

(** One round of the loop of mappages. *)
Lemma mappages_round pgdir a pa perm k s l : vm_ok s pgdir l →
  (ptab (vmem s) pgdir (PDX a) = None → l ≠ []) → LKmem ∉ held k →
  a mod PGSIZE = 0 → 0 ≤ a < 2 ^ 32 → 0 ≤ pa < 2 ^ 32 → pa mod PGSIZE = 0 → 0 ≤ perm < 2 ^ 12 →
  has (pte (vmem s) pgdir a) PTE_P = false →
  ∃ s' used l', l = used ++ l' ∧ made pgdir a used s s' ∧ vm_ok s' pgdir l' ∧
    vframe pgdir used s s' ∧ grown pgdir used s s' ∧
    mapped (vmem s) (vmem s') pgdir a PGSIZE pa perm ∧
    ∀ fuel last, mappages_loop (S fuel) pgdir a last pa perm k s =
      (if a =? last then mret 0
       else mappages_loop fuel pgdir (u32 (a + PGSIZE)) last (u32 (pa + PGSIZE)) perm) k s'.
Proof.
  intros Hok Hl Hk Ha Har Hpr Hpa Hperm Hnp.
  destruct (walk_alloc pgdir a k s l Hok Har Hk Hl)
    as (t & s1 & u1 & l1 & Hw & -> & Hu1 & Hok1 & Ht & Hpte & Hf1 & Hg1).
  assert (Hv : has (load32 (vmem s1) (t + 4 * PTX a)) PTE_P = false).
  { pose proof (Hpte a) as E. unfold pte at 1 in E. rewrite Ht in E. by rewrite E. }
  destruct (store_entry pgdir a t (entry pa perm) s1 l1 Hok1 Ht Har
    ltac:(apply entry_range; done)) as (Hok2 & Hf2 & Hg2 & Htab2 & Hpte2).
  set (s2 := set_km (set_mem (store32 (vmem s1) (t + 4 * PTX a) (entry pa perm)) (km s1)) s1) in *.
  pose proof (vframe_trans _ _ _ _ _ _ Hf1 Hg1 Hf2) as HF.
  pose proof (grown_trans _ _ _ _ _ _ Hg1 Hg2) as HG. rewrite app_nil_r in HF, HG.
  exists s2, u1, l1. split_and!; try done.
  - destruct Hu1 as [Hu1 Hu2]. split; [done|]. intros i Hi. rewrite Htab2 by done. by apply Hu2.
  - intros va Hva. rewrite Hpte2, same_vpage_aligned, Hpte by done.
    destruct ((a <=? va) && (va <? a + PGSIZE)) eqn:E; [|done]. f_equal.
    apply andb_true_iff in E as [E1%Z.leb_le E2%Z.ltb_lt]. unfold PGSIZE in *.
    pose proof (Z.div_mod a 4096 ltac:(lia)). pose proof (Z.div_mod va 4096 ltac:(lia)).
    pose proof (Z.mod_pos_bound va 4096 ltac:(lia)). lia.
  - intros fuel last. cbn [mappages_loop]. mb Hw. unfold vload.
    mb (gets_eq (λ s, load32 (vmem s) (t + 4 * PTX a)) k s1). rewrite Hv.
    assert (Hst : vstore (t + 4 * PTX a) (Z.lor (Z.lor pa perm) PTE_P) k s1 = Done tt k s2) by done.
    by mb Hst.
Qed.

Lemma mapped_next m1 m2 m3 pgdir a size pa perm : a mod PGSIZE = 0 → 0 ≤ size →
  mapped m1 m2 pgdir a PGSIZE pa perm →
  mapped m2 m3 pgdir (a + PGSIZE) size (pa + PGSIZE) perm →
  mapped m1 m3 pgdir a (PGSIZE + size) pa perm.
Proof.
  intros Ha Hs H1 H2 va Hva. rewrite H2, H1 by done.
  destruct (Z.leb_spec (a + PGSIZE) va), (Z.ltb_spec va (a + PGSIZE + size)), (Z.leb_spec a va),
    (Z.ltb_spec va (a + PGSIZE)), (Z.ltb_spec va (a + (PGSIZE + size)));
    cbn [andb]; unfold PGSIZE in *; try (done || lia). f_equal. lia.
Qed.

(** The tables that are missing among the directory entries [ds]. *)
Definition absent (m : mem) (pgdir : Z) (ds : list Z) : nat := length (filter (λ i, ptab m pgdir i = None) ds).

(** A page that had to be taken for a table is a table that is no longer missing. *)
Lemma absent_made pgdir va used s s' ds : made pgdir va used s s' → NoDup ds →
  (∀ i, i ∈ ds → 0 ≤ i < 1024) →
  (absent (vmem s') pgdir ds + (if decide (PDX va ∈ ds) then length used else 0) = absent (vmem s) pgdir ds)%nat.
Proof.
  intros [Hu Hm]. unfold absent. induction ds as [|i ds IH]; intros Hnd Hr.
  { case_decide as E; [by apply not_elem_of_nil in E|done]. }
  apply NoDup_cons in Hnd as [Hi Hnd]. specialize (IH Hnd ltac:(set_solver)). rewrite !filter_cons.
  pose proof (Hm i ltac:(apply Hr; set_solver)) as Hmi.
  destruct (decide (PDX va = i)) as [<-|Hne].
  - rewrite (decide_True (P := PDX va ∈ PDX va :: ds)) by set_solver. rewrite decide_False in IH by done.
    rewrite (decide_False (P := ptab (vmem s') _ _ = None)) by tauto. rewrite Hu.
    destruct (ptab (vmem s) pgdir (PDX va)); case_decide; cbn [length]; first [lia|done].
  - rewrite (decide_ext (PDX va ∈ i :: ds) (PDX va ∈ ds)) by set_solver.
    rewrite (decide_ext (ptab (vmem s') pgdir i = None) (ptab (vmem s) pgdir i = None)) by naive_solver.
    destruct (decide (ptab (vmem s) pgdir i = None)); cbn [length]; lia.
Qed.

Lemma absent_some m pgdir i ds (l : list Z) : i ∈ ds → (absent m pgdir ds ≤ length l)%nat →
  ptab m pgdir i = None → l ≠ [].
Proof.
  intros Hi Hl Ht ->. unfold absent in Hl. cbn in Hl.
  assert (Hf : i ∈ filter (λ i, ptab m pgdir i = None) ds) by (by apply list_elem_of_filter).
  destruct (filter _ ds); [by apply not_elem_of_nil in Hf|cbn in Hl; lia].
Qed.

(** The loop of mappages, with enough free pages for the tables that are missing. *)
Lemma mappages_loop_maps pgdir perm ds k (n : nat) : LKmem ∉ held k → 0 ≤ perm < 2 ^ 12 →
  NoDup ds → (∀ i, i ∈ ds → 0 ≤ i < 1024) →
  ∀ fuel a pa s l, vm_ok s pgdir l → (n < fuel)%nat → (absent (vmem s) pgdir ds ≤ length l)%nat →
  (∀ j, 0 ≤ j ≤ Z.of_nat n → PDX (a + j * PGSIZE) ∈ ds) →
  a mod PGSIZE = 0 → 0 ≤ a → a + Z.of_nat n * PGSIZE < 2 ^ 32 →
  pa mod PGSIZE = 0 → 0 ≤ pa → pa + Z.of_nat n * PGSIZE < 2 ^ 32 →
  (∀ va, a ≤ va < a + Z.of_nat (S n) * PGSIZE → has (pte (vmem s) pgdir va) PTE_P = false) →
  ∃ s' used l', mappages_loop fuel pgdir a (a + Z.of_nat n * PGSIZE) pa perm k s = Done 0 k s' ∧
    l = used ++ l' ∧ (absent (vmem s') pgdir ds + length used = absent (vmem s) pgdir ds)%nat ∧ vm_ok s' pgdir l' ∧
    vframe pgdir used s s' ∧ grown pgdir used s s' ∧
    mapped (vmem s) (vmem s') pgdir a (Z.of_nat (S n) * PGSIZE) pa perm.
Proof.
  intros Hk Hperm Hnd Hds. induction n as [|n IH]; intros [|fuel] a pa s l Hok Hf Hl Hin Ha Ha0 Ha1 Hpa Hp0 Hp1 Hnp;
    try lia.
  all: pose proof (Hin 0 ltac:(lia)) as Hin0; rewrite Z.mul_0_l, Z.add_0_r in Hin0.
  all: destruct (mappages_round pgdir a pa perm k s l Hok (absent_some _ _ _ _ _ Hin0 Hl) Hk Ha
    ltac:(unfold PGSIZE in *; lia) ltac:(unfold PGSIZE in *; lia) Hpa Hperm
    ltac:(apply Hnp; unfold PGSIZE; lia))
    as (s1 & u1 & l1 & -> & Hu1 & Hok1 & Hf1 & Hg1 & Hm1 & Hrun).
  all: pose proof (absent_made _ _ _ _ _ _ Hu1 Hnd Hds) as Hab; rewrite decide_True in Hab by done;
    rewrite length_app in Hl.
  - exists s1, u1, l1. rewrite Hrun, Z.add_0_r, Z.eqb_refl. rewrite Z.mul_1_l. by split_and!.
  - assert (Hpg : (a + PGSIZE) mod PGSIZE = 0 ∧ (pa + PGSIZE) mod PGSIZE = 0).
    { unfold PGSIZE in *. replace (a + 4096) with (a + 1 * 4096) by lia.
      replace (pa + 4096) with (pa + 1 * 4096) by lia. by rewrite !Z.mod_add by lia. }
    destruct (IH fuel (a + PGSIZE) (pa + PGSIZE) s1 l1 Hok1) as (s2 & u2 & l2 & Hr2 & -> & Hu2 & Hok2 & Hf2 & Hg2 & Hm2);
      try (done || lia || (unfold PGSIZE in *; lia) || apply Hpg).
    { intros j Hj. replace (a + PGSIZE + j * PGSIZE) with (a + (j + 1) * PGSIZE) by lia. apply Hin. lia. }
    { pose proof (Z.div_mod a PGSIZE ltac:(done)). intros va Hva.
      rewrite Hm1 by (unfold PGSIZE in *; lia).
      destruct (Z.leb_spec a va), (Z.ltb_spec va (a + PGSIZE)); cbn [andb];
        try (apply Hnp; unfold PGSIZE in *; lia). unfold PGSIZE in *. lia. }
    exists s2, (u1 ++ u2), l2. rewrite Hrun.
    destruct (Z.eqb_spec a (a + Z.of_nat (S n) * PGSIZE)); [unfold PGSIZE in *; lia|].
    rewrite !u32_small by (unfold PGSIZE in *; lia).
    replace (a + Z.of_nat (S n) * PGSIZE) with (a + PGSIZE + Z.of_nat n * PGSIZE) by lia.
    split_and!; [done|by rewrite app_assoc|rewrite length_app; lia|done| | |].
    + by eapply vframe_trans.
    + by eapply grown_trans.
    + replace (Z.of_nat (S (S n)) * PGSIZE) with (PGSIZE + Z.of_nat (S n) * PGSIZE) by lia.
      eapply mapped_next; [done|unfold PGSIZE; lia|exact Hm1|exact Hm2].
Qed.

(** mappages maps every page that meets the range. *)
Lemma mappages_maps pgdir va size pa perm ds k s l (n : nat) : vm_ok s pgdir l → LKmem ∉ held k →
  NoDup ds → (∀ i, i ∈ ds → 0 ≤ i < 1024) → (absent (vmem s) pgdir ds ≤ length l)%nat →
  (∀ i, PDX va ≤ i ≤ PDX (va + size - 1) → i ∈ ds) →
  0 ≤ perm < 2 ^ 12 → 0 ≤ va → 0 < size → va + size ≤ 2 ^ 32 →
  PGROUNDDOWN (va + size - 1) = PGROUNDDOWN va + Z.of_nat n * PGSIZE →
  pa mod PGSIZE = 0 → 0 ≤ pa → pa + Z.of_nat n * PGSIZE < 2 ^ 32 →
  (∀ x, PGROUNDDOWN va ≤ x < PGROUNDDOWN va + Z.of_nat (S n) * PGSIZE →
        has (pte (vmem s) pgdir x) PTE_P = false) →
  ∃ s' used l', mappages pgdir va size pa perm k s = Done 0 k s' ∧
    l = used ++ l' ∧ (absent (vmem s') pgdir ds + length used = absent (vmem s) pgdir ds)%nat ∧ vm_ok s' pgdir l' ∧
    vframe pgdir used s s' ∧ grown pgdir used s s' ∧
    mapped (vmem s) (vmem s') pgdir (PGROUNDDOWN va) (Z.of_nat (S n) * PGSIZE) pa perm.
Proof.
  intros Hok Hk Hnd Hds Hl Hin Hperm Hva Hsz Hend Hn Hpa Hp0 Hp1 Hnp. unfold mappages.
  rewrite (u32_small (va + size - 1)) by lia. rewrite Hn.
  pose proof (PGROUNDDOWN_eq va ltac:(lia)) as Hd.
  pose proof (PGROUNDDOWN_eq (va + size - 1) ltac:(lia)) as Hd'.
  pose proof (Z.div_mod va PGSIZE ltac:(done)). pose proof (Z.mod_pos_bound va PGSIZE ltac:(done)).
  pose proof (Z.mod_pos_bound (va + size - 1) PGSIZE ltac:(done)).
  replace (PGROUNDDOWN va + Z.of_nat n * PGSIZE - PGROUNDDOWN va) with (Z.of_nat n * PGSIZE) by lia.
  apply mappages_loop_maps; try done; try lia; try (unfold PGSIZE in *; lia).
  - rewrite u32_small by (unfold PGSIZE in *; lia). rewrite Z.div_mul by done. lia.
  - intros j Hj. apply Hin. rewrite !PDX_eq by (unfold PGSIZE in *; lia). change (2 ^ 22) with (PGSIZE * 1024).
    rewrite <- !Z.div_div by done. rewrite Hd. replace (va - va mod PGSIZE) with (va / PGSIZE * PGSIZE) by lia.
    rewrite <- Z.mul_add_distr_r, Z.div_mul by done.
    pose proof (Z.div_mod (va + size - 1) PGSIZE ltac:(done)).
    assert (va / PGSIZE + j ≤ (va + size - 1) / PGSIZE) by (unfold PGSIZE in *; lia).
    split; apply Z.div_le_mono; lia.
  - rewrite Hd. replace (va - va mod PGSIZE) with (va / PGSIZE * PGSIZE) by lia. by apply Z.mod_mul.
Qed.

(** A single page. *)
Lemma mappages_one pgdir a pa perm k s l : vm_ok s pgdir l → l ≠ [] → LKmem ∉ held k →
  a mod PGSIZE = 0 → 0 ≤ a < 2 ^ 32 → 0 ≤ pa < 2 ^ 32 → pa mod PGSIZE = 0 → 0 ≤ perm < 2 ^ 12 →
  has (pte (vmem s) pgdir a) PTE_P = false →
  ∃ s' used l', mappages pgdir a PGSIZE pa perm k s = Done 0 k s' ∧
    l = used ++ l' ∧ (length used ≤ 1)%nat ∧ vm_ok s' pgdir l' ∧
    vframe pgdir used s s' ∧ grown pgdir used s s' ∧
    mapped (vmem s) (vmem s') pgdir a PGSIZE pa perm.
Proof.
  intros Hok Hl Hk Ha Har Hpr Hpa Hperm Hnp.
  destruct (mappages_round pgdir a pa perm k s l Hok (λ _, Hl) Hk Ha Har Hpr Hpa Hperm Hnp)
    as (s1 & u1 & l1 & -> & Hu1 & Hok1 & Hf1 & Hg1 & Hm1 & Hrun).
  exists s1, u1, l1. split_and!; try done; [|by apply (made_length _ _ _ _ _ Hu1)]. unfold mappages.
  assert (Hr : PGROUNDDOWN a = a ∧ PGROUNDDOWN (u32 (a + PGSIZE - 1)) = a).
  { pose proof (Z.div_mod a PGSIZE ltac:(done)).
    assert (a / PGSIZE < 2 ^ 20) by (apply Z.div_lt_upper_bound; unfold PGSIZE; lia).
    rewrite u32_small, !PGROUNDDOWN_eq by (unfold PGSIZE in *; lia). rewrite Ha.
    replace (a + PGSIZE - 1) with (PGSIZE - 1 + a / PGSIZE * PGSIZE) by lia.
    rewrite Z.mod_add by done. unfold PGSIZE in *. rewrite Z.mod_small by lia. lia. }
  destruct Hr as [-> ->]. by rewrite Hrun, Z.eqb_refl.
Qed.

Lemma pte_vpage m pgdir a x : 0 ≤ a < 2 ^ 32 → 0 ≤ x < 2 ^ 32 → same_vpage a x = true →
  pte m pgdir x = pte m pgdir a.
Proof.
  unfold same_vpage. intros Ha Hx H%Z.eqb_eq. rewrite !vpage_split in H by done.
  pose proof (PTX_range a). pose proof (PTX_range x). unfold pte.
  assert (HD : PDX x = PDX a) by lia. assert (HT : PTX x = PTX a) by lia. by rewrite HD, HT.
Qed.
End vmspec.
