(* ===== verification/VmUser.v ===== *)
(** * Growing and writing user memory

    allocuvm gives a process zeroed pages of its own, and copyout writes through the
    page table of another address space. *)

From stdpp Require Import base gmap list strings.
From Stdlib Require Import ZArith Lia.
From S2P Require Import Prelude Params Kmonad Cstring Kalloc Console Vm VmSpec.

Definition zero_page (m : mem) (p : Z) : Prop := ∀ a, p ≤ a < p + PGSIZE → rd m a = 0.

Section vmuser.
Context (kend kdata : Z).

Lemma memset_page m p x : kpage p → rd (KString.memset m p 0 PGSIZE) x =
  if (p <=? x) && (x <? p + PGSIZE) then 0 else rd m x.
Proof.
  intros Hp. pose proof (kpage_end p Hp). destruct Hp as [_ ?]. unfold KERNBASE, PGSIZE in *.
  rewrite memset_rd; (done || lia).
Qed.

(** ** Writing to a page that is not part of the page table *)

Lemma write_outside s pgdir l m' p : vm_ok kend s pgdir l → kpage p → outside (vmem s) pgdir p →
  p ∉ l → (∀ a, ¬ (p ≤ a < p + PGSIZE) → rd m' a = rd (vmem s) a) →
  let s' := set_km (set_mem m' (km s)) s in
  vm_ok kend s' pgdir l ∧ vframe pgdir [p] s s' ∧
  (∀ q, outside (vmem s) pgdir q → outside m' pgdir q) ∧ same_page (vmem s) m' pgdir ∧
  ∀ va, pte m' pgdir va = pte (vmem s) pgdir va.
Proof.
  intros Hok Hp [Hpd Hpt] Hpl Hm. pose proof Hok as [Hok1 Hok2 Hok3]. cbn zeta.
  assert (Hs : ∀ q, kpage q → q ≠ p → same_page (vmem s) m' q).
  { intros q Hq Hne a Ha. apply Hm. pose proof (kpage_far q p Hq Hp Hne). unfold PGSIZE in *. lia. }
  assert (Hdir : same_page (vmem s) m' pgdir) by (apply Hs; [apply Hok1|done]).
  assert (Hout : ∀ q, outside (vmem s) pgdir q → outside m' pgdir q).
  { intros q [Hq1 Hq2]. split; [done|]. intros i Hi. rewrite (ptab_same (vmem s)) by done. by apply Hq2. }
  split_and!; [| |done|done|].
  - apply vm_ok_mem; [done|by apply (pt_ok_same (vmem s))| |].
    + intros q Hq. destruct Hok2 as (_ & _ & Hall). apply Hs; [|by intros ->].
      apply (page_ok_kpage kend). by apply (proj1 (Forall_forall _ _) Hall).
    + intros q Hq. by apply Hout, Hok3.
  - split; [done|]. intros q Hq _ Hqp. apply Hs; [done|set_solver].
  - intros va. apply pte_same; [done|]. intros t Ht.
    destruct (pt_tab _ _ Hok1 _ _ (PDX_range va) Ht) as [Hk _]. apply Hs; [done|].
    intros ->. by apply Hpt in Ht; [|apply PDX_range].
Qed.

(** The free list without its first page, still the same page table. *)
Lemma vm_ok_pop s pgdir p l s1 : vm_ok kend s pgdir (p :: l) → kmem_mem s1 = vmem s →
  free_pages kend s1 l → vm_ok kend (set_km s1 s) pgdir l.
Proof.
  intros [H1 H2 H3] Hm Hf. split; [|done|].
  - change (vmem (set_km s1 s)) with (kmem_mem s1). by rewrite Hm.
  - intros q Hq. change (vmem (set_km s1 s)) with (kmem_mem s1). rewrite Hm. apply H3. set_solver.
Qed.

(** ** allocuvm *)

Definition USER : Z := Z.lor PTE_W PTE_U.

(** Frame [i] of [frames] is mapped at page [i] from [a] on, and is zero. *)
Definition zero_mapped (m : mem) (pgdir a : Z) (frames : list Z) : Prop := ∀ i p va,
  frames !! i = Some p → a + Z.of_nat i * PGSIZE ≤ va < a + Z.of_nat (S i) * PGSIZE →
  pte m pgdir va = entry (v2p p) USER ∧ zero_page m p.

(** A page taken from the allocator and filled by [f]. *)
Lemma fresh_page pgdir p l k s (f : mem → mem) : vm_ok kend s pgdir (p :: l) → LKmem ∉ held k →
  (∀ a, ¬ (p ≤ a < p + PGSIZE) → rd (f (vmem s)) a = rd (vmem s) a) →
  ∃ s1 s2, inkm kalloc k s = Done p k s1 ∧ vupd f k s1 = Done tt k s2 ∧ p ≠ 0 ∧
    vmem s1 = vmem s ∧ vmem s2 = f (vmem s) ∧ vm_ok kend s2 pgdir l ∧ kpage p ∧ p ∉ l ∧
    outside (vmem s2) pgdir p ∧ vframe pgdir [p] s s2 ∧ grown pgdir [p] s s2 ∧
    same_page (vmem s) (vmem s2) pgdir ∧
    ∀ va, pte (vmem s2) pgdir va = pte (vmem s) pgdir va.
Proof.
  intros Hok Hk Hfr. pose proof Hok as [Hok1 Hok2 Hok3].
  destruct (vkalloc_run kend k s (p :: l) Hok2 Hk) as (s1 & Hal & Hm1 & Hf1 & Hpok & Hpl).
  pose proof (page_ok_kpage kend p Hpok) as Hp.
  pose proof (vm_ok_pop s pgdir p l s1 Hok Hm1 Hf1) as Hokp.
  pose proof (Hok3 p ltac:(set_solver)) as Hpo.
  destruct (write_outside (set_km s1 s) pgdir l (f (vmem s)) p Hokp Hp) as (H1 & [_ H2] & H3 & H4 & H5);
    [|done| |].
  { change (vmem (set_km s1 s)) with (kmem_mem s1). by rewrite Hm1. }
  { intros a Ha. change (vmem (set_km s1 s)) with (kmem_mem s1). rewrite Hm1. by apply Hfr. }
  change (vmem (set_km s1 s)) with (kmem_mem s1) in H2, H3, H4, H5. rewrite Hm1 in H2, H3, H4, H5.
  exists (set_km s1 s), (set_km (set_mem (f (vmem s)) (km (set_km s1 s))) (set_km s1 s)).
  split_and!; try done.
  - unfold vupd. rewrite modify_eq. change (vmem (set_km s1 s)) with (kmem_mem s1). by rewrite Hm1.
  - intros ->. destruct Hp as [_ ?]. unfold KERNBASE in *. lia.
  - by apply H3.
  - intros q Hq _. by apply H3.
Qed.

(** One round of the loop of allocuvm, with a free page for the data and one for a table. *)
Lemma alloc_round pgdir a oldsz newsz k s p l : vm_ok kend s pgdir (p :: l) → l ≠ [] →
  LKmem ∉ held k → a mod PGSIZE = 0 → 0 ≤ a → a < newsz → newsz < KERNBASE →
  has (pte (vmem s) pgdir a) PTE_P = false →
  ∃ s' used l', l = used ++ l' ∧ (length used ≤ 1)%nat ∧ vm_ok kend s' pgdir l' ∧ kpage p ∧ p ∉ l ∧
    vframe pgdir (p :: used) s s' ∧ grown pgdir (p :: used) s s' ∧ outside (vmem s') pgdir p ∧
    zero_page (vmem s') p ∧ mapped (vmem s) (vmem s') pgdir a PGSIZE (v2p p) USER ∧
    ∀ fuel, alloc_loop kend (S fuel) pgdir a oldsz newsz k s =
            alloc_loop kend fuel pgdir (a + PGSIZE) oldsz newsz k s'.
Proof.
  intros Hok Hl Hk Ha Ha0 Han Hnk Hnp.
  assert (Hp : kpage p).
  { destruct Hok as [_ (_ & _ & Hall) _]. apply Forall_cons in Hall as [Hall _]. by apply (page_ok_kpage kend). }
  destruct (fresh_page pgdir p l k s (λ m, KString.memset m p 0 PGSIZE) Hok Hk)
    as (s1 & s2 & R1 & R2 & Hp0 & _ & Hm2 & Hok2 & _ & Hpl & Ho2 & Hf2 & Hg2 & _ & Hpt2).
  { intros x Hx. rewrite memset_page by done.
    destruct (Z.leb_spec p x), (Z.ltb_spec x (p + PGSIZE)); cbn [andb]; (done || lia). }
  destruct (v2p_page p Hp) as [Hvr Hvm].
  destruct (mappages_one kend pgdir a (v2p p) USER k s2 l Hok2 Hl Hk Ha) as
    (s3 & used & l' & Hmap & -> & Hul & Hok3 & Hf3 & Hg3 & Hmp);
    try (done || (unfold KERNBASE in *; lia)); [by rewrite Hpt2|].
  exists s3, used, l'. split_and!; try done.
  - by apply (vframe_trans _ [p] used s s2).
  - by apply (grown_trans _ [p] used s s2).
  - apply Hg3; [done|set_solver].
  - intros x Hx. destruct Hf3 as [_ Hf3]. rewrite (Hf3 p Hp Ho2 ltac:(set_solver)) by done.
    rewrite Hm2, memset_page by done.
    destruct (Z.leb_spec p x), (Z.ltb_spec x (p + PGSIZE)); cbn [andb]; (done || lia).
  - intros va Hva. by rewrite Hmp, Hpt2.
  - intros fuel. cbn [alloc_loop]. destruct (Z.ltb_spec a newsz); [|lia]. mb R1.
    destruct (Z.eqb_spec p 0); [done|]. mb R2. mb Hmap.
    by rewrite u32_small by (unfold KERNBASE, PGSIZE in *; lia).
Qed.

(** A frame mapped before stays mapped and zero. *)
Lemma frame_kept pgdir used s s' p : vframe pgdir used s s' → kpage p → outside (vmem s) pgdir p →
  p ∉ used → zero_page (vmem s) p → zero_page (vmem s') p.
Proof. intros [_ H] Hp Ho Hu Hz a Ha. by rewrite (H p Hp Ho Hu a Ha), Hz. Qed.

Lemma alloc_loop_grows pgdir oldsz newsz k (n : nat) : LKmem ∉ held k → newsz < KERNBASE →
  ∀ fuel a s l, vm_ok kend s pgdir l → (n < fuel)%nat → (2 * n ≤ length l)%nat →
  a mod PGSIZE = 0 → 0 ≤ a →
  a + (Z.of_nat n - 1) * PGSIZE < newsz ≤ a + Z.of_nat n * PGSIZE →
  (∀ va, a ≤ va < a + Z.of_nat n * PGSIZE → has (pte (vmem s) pgdir va) PTE_P = false) →
  ∃ s' frames used l', alloc_loop kend fuel pgdir a oldsz newsz k s = Done newsz k s' ∧
    length frames = n ∧ NoDup frames ∧ l = used ++ l' ∧ (∀ p, p ∈ frames → p ∈ used) ∧
    vm_ok kend s' pgdir l' ∧ vframe pgdir used s s' ∧ grown pgdir used s s' ∧
    (∀ p, p ∈ frames → outside (vmem s') pgdir p) ∧
    zero_mapped (vmem s') pgdir a frames ∧
    ∀ va, 0 ≤ va < 2 ^ 32 → ¬ (a ≤ va < a + Z.of_nat n * PGSIZE) →
      pte (vmem s') pgdir va = pte (vmem s) pgdir va.
Proof.
  intros Hk Hnk. induction n as [|n IH]; intros [|fuel] a s l Hok Hf Hl Ha Ha0 Hn Hnp; try lia.
  { exists s, [], [], l. cbn [alloc_loop]. destruct (Z.ltb_spec a newsz); [lia|].
    split_and!; try done; try set_solver.
    all: first [apply NoDup_nil_2|apply vframe_refl|by intros q|by intros [|?]]. }
  destruct l as [|p [|p2 l]]; try (simpl in Hl; lia).
  assert (Hmp : ∀ va, a ≤ va < a + PGSIZE → 0 ≤ va < 2 ^ 32).
  { intros va Hva. unfold KERNBASE, PGSIZE in *. lia. }
  destruct (alloc_round pgdir a oldsz newsz k s p (p2 :: l) Hok ltac:(done) Hk Ha Ha0)
    as (s1 & u1 & l1 & Hul & Hu1 & Hok1 & Hp & Hpl & Hf1 & Hg1 & Ho1 & Hz1 & Hm1 & Hrun);
    [unfold PGSIZE in *; lia|done|apply Hnp; unfold PGSIZE; lia|].
  rewrite Hul in Hpl, Hl, Hok |- *. rewrite length_cons, length_app in Hl.
  assert (Ha' : (a + PGSIZE) mod PGSIZE = 0).
  { unfold PGSIZE in *. replace (a + 4096) with (a + 1 * 4096) by lia. by rewrite Z.mod_add by lia. }
  destruct (IH fuel (a + PGSIZE) s1 l1 Hok1) as (s2 & fr & u2 & l2 & Hr2 & Hlen & Hnd & -> & Hfr &
    Hok2 & Hf2 & Hg2 & Ho2 & Hzm2 & Hpt2); try (done || lia || (unfold PGSIZE in *; lia)).
  { intros va Hva. rewrite Hm1 by (unfold KERNBASE, PGSIZE in *; lia).
    destruct (Z.leb_spec a va), (Z.ltb_spec va (a + PGSIZE)); cbn [andb];
      try (apply Hnp; unfold PGSIZE in *; lia). unfold PGSIZE in *. lia. }
  assert (Hpu : p ∉ u2) by set_solver.
  exists s2, (p :: fr), (p :: u1 ++ u2), l2. split_and!.
  - by rewrite Hrun.
  - simpl. lia.
  - constructor; [|done]. intros Hin. apply Hfr in Hin. done.
  - simpl. by rewrite app_assoc.
  - set_solver.
  - done.
  - by apply (vframe_trans _ (p :: u1) u2 s s1).
  - by apply (grown_trans _ (p :: u1) u2 s s1).
  - intros q [->|Hq]%elem_of_cons; [apply Hg2; done|by apply Ho2].
  - intros [|i] q va Hi Hva; simpl in Hi.
    + injection Hi as <-. split; [|by apply (frame_kept pgdir u2 s1)].
      rewrite Hpt2 by (try apply Hmp; unfold PGSIZE in *; lia).
      rewrite Hm1 by (apply Hmp; unfold PGSIZE in *; lia).
      destruct (Z.leb_spec a va), (Z.ltb_spec va (a + PGSIZE)); try (unfold PGSIZE in *; lia).
      cbn [andb]. f_equal. unfold PGSIZE in *. pose proof (Z.div_mod va 4096 ltac:(lia)).
      pose proof (Z.div_mod a 4096 ltac:(lia)). pose proof (Z.mod_pos_bound va 4096 ltac:(lia)). lia.
    + apply (Hzm2 i q va Hi). unfold PGSIZE in *. lia.
  - intros va Hva Hout. rewrite Hpt2 by (unfold PGSIZE in *; lia). rewrite Hm1 by done.
    destruct (Z.leb_spec a va), (Z.ltb_spec va (a + PGSIZE)); cbn [andb]; try done.
    unfold PGSIZE in *. lia.
Qed.

(** C18: Allocuvm grows a process.  With a free page for every new page and its table,
    it returns the new size; every page between the old and the new size is mapped,
    writable and for user mode, to a frame of its own that was free and is zero; no
    other entry changes, and no page outside the free list and the page table is touched. *)
Theorem allocuvm_grows (pgdir oldsz newsz : Z) (k : kctx) (s : vst) (l : list Z) (n : nat) :
  vm_ok kend s pgdir l → LKmem ∉ held k → 0 ≤ oldsz ≤ newsz → newsz < KERNBASE →
  PGROUNDUP newsz = PGROUNDUP oldsz + Z.of_nat n * PGSIZE → (2 * n ≤ length l)%nat →
  (∀ va, PGROUNDUP oldsz ≤ va < PGROUNDUP newsz → has (pte (vmem s) pgdir va) PTE_P = false) →
  ∃ s' frames used l', allocuvm kend pgdir oldsz newsz k s = Done newsz k s' ∧
    length frames = n ∧ NoDup frames ∧ l = used ++ l' ∧ (∀ p, p ∈ frames → p ∈ used) ∧
    vm_ok kend s' pgdir l' ∧ vframe pgdir used s s' ∧
    zero_mapped (vmem s') pgdir (PGROUNDUP oldsz) frames ∧
    ∀ va, 0 ≤ va < 2 ^ 32 → ¬ (PGROUNDUP oldsz ≤ va < PGROUNDUP newsz) →
      pte (vmem s') pgdir va = pte (vmem s) pgdir va.
Proof.
  intros Hok Hk Hsz Hnk Hn Hl Hnp. unfold allocuvm.
  destruct (Z.geb_spec newsz KERNBASE); [lia|]. destruct (Z.ltb_spec newsz oldsz); [lia|].
  destruct (PGROUNDUP_bounds oldsz) as [Hb1 Hm1]; [unfold KERNBASE, PGSIZE in *; lia|].
  destruct (PGROUNDUP_bounds newsz) as [Hb2 Hm2]; [unfold KERNBASE, PGSIZE in *; lia|].
  rewrite Hn in *.
  destruct (alloc_loop_grows pgdir oldsz newsz k n Hk Hnk (S (Z.to_nat (newsz / PGSIZE + 1)))
    (PGROUNDUP oldsz) s l Hok) as (s' & fr & u & l' & Hrun & Hlen & Hnd & Hll & Hfr & Hok' & Hf & _ & _ & Hz & Hpt);
    try (done || lia || (unfold PGSIZE in *; lia)).
  - assert (Z.of_nat n ≤ newsz / PGSIZE + 1); [|lia].
    assert (Z.of_nat n - 1 ≤ newsz / PGSIZE); [|lia]. apply Z.div_le_lower_bound; unfold PGSIZE in *; lia.
  - exists s', fr, u, l'. by split_and!.
Qed.

(** ** A failure allocuvm does not notice *)

(** Allocuvm does not test the result of mappages.  With one free page left and no
    page table for the address, it takes the page, cannot get a table, and reports
    success: the process is told it has the memory, which is not mapped, and the page
    is lost. *)
Theorem allocuvm_unmapped (pgdir p : Z) (k : kctx) (s : vst) :
  vm_ok kend s pgdir [p] → LKmem ∉ held k → ptab (vmem s) pgdir 0 = None →
  ∃ s', allocuvm kend pgdir 0 PGSIZE k s = Done PGSIZE k s' ∧
        pte (vmem s') pgdir 0 = 0 ∧ vm_ok kend s' pgdir [].
Proof.
  intros Hok Hk Ht.
  assert (Hp : kpage p).
  { destruct Hok as [_ (_ & _ & Hall) _]. apply Forall_cons in Hall as [Hall _]. by apply (page_ok_kpage kend). }
  destruct (fresh_page pgdir p [] k s (λ m, KString.memset m p 0 PGSIZE) Hok Hk)
    as (s1 & s2 & R1 & R2 & Hp0 & _ & Hm2 & Hok2 & _ & _ & Ho2 & Hf2 & _ & Hd & Hpt2).
  { intros x Hx. rewrite memset_page by done.
    destruct (Z.leb_spec p x), (Z.ltb_spec x (p + PGSIZE)); cbn [andb]; (done || lia). }
  assert (Ht2 : ptab (vmem s2) pgdir (PDX 0) = None).
  { change (PDX 0) with 0. rewrite (ptab_same (vmem s)); (done || lia). }
  pose proof (walkpgdir_run kend pgdir 0 k s2 [] Hok2 ltac:(lia) Hk) as Hw. rewrite Ht2 in Hw.
  destruct Hw as [_ Hw]. exists s2. split_and!; [|by unfold pte; rewrite Ht2|done].
  unfold allocuvm. cbn [alloc_loop]. change (PGSIZE >=? KERNBASE) with false.
  change (PGSIZE <? 0) with false. change (S (Z.to_nat (PGSIZE / PGSIZE + 1))) with 3%nat.
  change (PGROUNDUP 0) with 0. cbn [alloc_loop]. change (0 <? PGSIZE) with true. cbv iota. mb R1.
  destruct (Z.eqb_spec p 0); [done|]. mb R2.
  assert (Hmap : mappages pgdir 0 PGSIZE (v2p p) (Z.lor PTE_W PTE_U) k s2 = Done (-1) k s2).
  { unfold mappages. change (PGROUNDDOWN 0) with 0. cbn [mappages_loop]. by mb Hw. }
  mb Hmap. done.
Qed.
End vmuser.

(** ** An empty page directory and two free pages *)

Definition demo_kend : Z := 0x80400000.
Definition demo_dir : Z := 0x80400000.
Definition demo_a : Z := 0x80401000.
Definition demo_b : Z := 0x80402000.
Definition demo_vm (m : mem) (head : Z) : vst :=
  Vst (Kmem false head m) (Cst true false (replicate 2000 0) 0 [] (Input (replicate 128 0) 0 0 0)) 0 0 0 0.

(** A directory whose page is zero, and a free list elsewhere. *)
Lemma empty_dir_ok m head l : free_pages demo_kend (Kmem false head m) l → demo_dir ∉ l →
  (∀ a, demo_dir ≤ a < demo_dir + PGSIZE → rd m a = 0) →
  vm_ok demo_kend (demo_vm m head) demo_dir l ∧ ∀ i, 0 ≤ i < 1024 → ptab m demo_dir i = None.
Proof.
  intros Hf Hd Hz. assert (Hn : ∀ i, 0 ≤ i < 1024 → ptab m demo_dir i = None).
  { intros i Hi. unfold ptab, load32. rewrite !Hz by (unfold PGSIZE; lia). done. }
  split; [|done]. split; [|done|].
  - split; [done| |].
    + intros i t Hi. change (vmem (demo_vm m head)) with m. by rewrite Hn.
    + intros i j t Hi Hj. change (vmem (demo_vm m head)) with m. by rewrite Hn.
  - intros p Hp. split; [by intros ->|]. intros i Hi. change (vmem (demo_vm m head)) with m. by rewrite Hn.
Qed.

Lemma demo_two_pages : free_pages demo_kend (Kmem false demo_a (store32 ∅ demo_a demo_b)) [demo_a; demo_b].
Proof.
  split_and!; [|by apply (bool_decide_unpack _); vm_compute|].
  - simpl. rewrite load32_store32_eq by (unfold demo_b; lia).
    rewrite load32_store32_ne by (unfold demo_a, demo_b; lia). done.
  - repeat constructor; (done || (unfold demo_a, demo_b, KERNBASE; lia)).
Qed.

Lemma allocuvm_grows_witness :
  ∃ s' frames used l', allocuvm demo_kend demo_dir 0 100 (Kctx [] []) (demo_vm (store32 ∅ demo_a demo_b) demo_a)
      = Done 100 (Kctx [] []) s' ∧
    length frames = 1%nat ∧ NoDup frames ∧ [demo_a; demo_b] = used ++ l' ∧ (∀ p, p ∈ frames → p ∈ used) ∧
    vm_ok demo_kend s' demo_dir l' ∧ vframe demo_dir used (demo_vm (store32 ∅ demo_a demo_b) demo_a) s' ∧
    zero_mapped (vmem s') demo_dir (PGROUNDUP 0) frames ∧
    ∀ va, 0 ≤ va < 2 ^ 32 → ¬ (PGROUNDUP 0 ≤ va < PGROUNDUP 100) →
      pte (vmem s') demo_dir va = pte (store32 ∅ demo_a demo_b) demo_dir va.
Proof.
  destruct (empty_dir_ok _ _ _ demo_two_pages) as [Hok Hn].
  - apply (bool_decide_unpack _). by vm_compute.
  - intros a Ha. rewrite rd_store32_out; [done|]. unfold demo_a, demo_dir, PGSIZE in *. lia.
  - apply (allocuvm_grows demo_kend demo_dir 0 100 (Kctx [] [])
             (demo_vm (store32 ∅ demo_a demo_b) demo_a) [demo_a; demo_b] 1);
      [exact Hok|apply not_elem_of_nil|lia|done|done|simpl; lia|].
    intros va _. change (vmem (demo_vm (store32 ∅ demo_a demo_b) demo_a)) with (store32 ∅ demo_a demo_b).
    unfold pte. by rewrite Hn by apply PDX_range.
Defined.

Lemma demo_one_page : free_pages demo_kend (Kmem false demo_a ∅) [demo_a].
Proof.
  split_and!; [done|by apply (bool_decide_unpack _); vm_compute|].
  repeat constructor; (done || (unfold demo_a, KERNBASE; lia)).
Qed.

Lemma allocuvm_unmapped_witness :
  ∃ s', allocuvm demo_kend demo_dir 0 PGSIZE (Kctx [] []) (demo_vm ∅ demo_a) = Done PGSIZE (Kctx [] []) s' ∧
        pte (vmem s') demo_dir 0 = 0 ∧ vm_ok demo_kend s' demo_dir [].
Proof.
  destruct (empty_dir_ok _ _ _ demo_one_page) as [Hok Hn].
  - apply (bool_decide_unpack _). by vm_compute.
  - done.
  - apply (allocuvm_unmapped demo_kend demo_dir demo_a (Kctx [] []) _ Hok); [apply not_elem_of_nil|].
    by apply Hn.
Defined.
