(* ===== verification/VmCopy.v ===== *)
(** * copyout: writing into another address space

    copyout of vm.c on an address space whose pages are mapped for the user: the bytes
    arrive at the user addresses, across page boundaries, and no other byte changes.
    Where a page table is missing it dereferences a null pointer. *)

From stdpp Require Import base gmap list strings.
From Stdlib Require Import ZArith Lia.
From S2P Require Import Prelude Params Kmonad Cstring Kalloc Console Vm VmSpec VmUser.

(** The frame [va] is mapped to, and the kernel's address of the byte at [va]. *)
Definition frame (m : mem) (pgdir va : Z) : Z := p2v (PTE_ADDR (pte m pgdir va)).
Definition uaddr (m : mem) (pgdir va : Z) : Z := frame m pgdir va + va mod PGSIZE.

(** The user may access the [len] bytes from [va] on; their frames are pages of their own,
    not the page table and not the kernel's buffer at [buf]. *)
Record user_range (m : mem) (pgdir va len buf : Z) : Prop := UserRange {
  ur_bits : ∀ x, va ≤ x < va + len → has (pte m pgdir x) PTE_P = true ∧ has (pte m pgdir x) PTE_U = true;
  ur_page : ∀ x, va ≤ x < va + len → kpage (frame m pgdir x) ∧ outside m pgdir (frame m pgdir x);
  ur_buf : ∀ x, va ≤ x < va + len →
    frame m pgdir x + PGSIZE ≤ buf ∨ buf + len ≤ frame m pgdir x;
  ur_inj : ∀ x y, va ≤ x < va + len → va ≤ y < va + len →
    frame m pgdir x = frame m pgdir y → same_vpage x y = true
}.

(** Memory after [len] bytes from [buf] were stored at user address [va]. *)
Definition copied (m m' : mem) (pgdir va buf len : Z) : Prop :=
  (∀ i, 0 ≤ i < len → rd m' (uaddr m pgdir (va + i)) = rd m (buf + i)) ∧
  (∀ a, (∀ i, 0 ≤ i < len → a ≠ uaddr m pgdir (va + i)) → rd m' a = rd m a) ∧
  ∀ x, pte m' pgdir x = pte m pgdir x.

Lemma pte_unwritten m m' pgdir p : pt_ok m pgdir → kpage p → outside m pgdir p →
  (∀ a, ¬ (p ≤ a < p + PGSIZE) → rd m' a = rd m a) →
  (∀ x, pte m' pgdir x = pte m pgdir x) ∧ pt_ok m' pgdir ∧ ∀ q, outside m pgdir q → outside m' pgdir q.
Proof.
  intros Hpt Hp [Hpd Ho] Hm.
  assert (Hs : ∀ q, kpage q → q ≠ p → same_page m m' q).
  { intros q Hq Hne a Ha. apply Hm. pose proof (kpage_far q p Hq Hp Hne). unfold PGSIZE in *. lia. }
  assert (Hdir : same_page m m' pgdir) by (apply Hs; [apply Hpt|done]).
  split_and!; [|by apply (pt_ok_same m)|].
  - intros x. apply pte_same; [done|]. intros t Ht.
    destruct (pt_tab _ _ Hpt _ _ (PDX_range x) Ht) as [Hk _]. apply Hs; [done|].
    intros ->. by apply Ho in Ht; [|apply PDX_range].
  - intros q [Hq1 Hq2]. split; [done|]. intros i Hi. rewrite (ptab_same m) by done. by apply Hq2.
Qed.

Lemma frame_vpage m pgdir a x : 0 ≤ a < 2 ^ 32 → 0 ≤ x < 2 ^ 32 → same_vpage a x = true →
  frame m pgdir x = frame m pgdir a.
Proof. intros. unfold frame. by rewrite (pte_vpage m pgdir a x). Qed.

(** The bytes of one page from [va] on. *)
Lemma page_bytes va i : 0 ≤ va → 0 ≤ i < PGSIZE - va mod PGSIZE →
  same_vpage va (va + i) = true ∧ (va + i) mod PGSIZE = va mod PGSIZE + i.
Proof.
  unfold same_vpage, PGSIZE. intros Hva Hi. pose proof (Z.div_mod va 4096 ltac:(lia)).
  pose proof (Z.mod_pos_bound va 4096 ltac:(lia)).
  assert (He : va + i = 4096 * (va / 4096) + (va mod 4096 + i)) by lia. split.
  - apply Z.eqb_eq. rewrite He. by apply (Z.div_unique _ _ _ (va mod 4096 + i)); lia.
  - rewrite He. symmetry. apply (Z.mod_unique _ _ (va / 4096)); lia.
Qed.

Section chunk.
Context (m : mem) (pgdir va buf len n : Z).
Context (Hpt : pt_ok m pgdir) (Hr : user_range m pgdir va len buf).
Context (Hva : 0 ≤ va) (Hend : va + len ≤ 2 ^ 32) (Hn : 0 < n ≤ len) (Hpg : n ≤ PGSIZE - va mod PGSIZE).
Let m' := KString.memmove m (uaddr m pgdir va) buf n.

Lemma chunk_uaddr i : 0 ≤ i < n → uaddr m pgdir (va + i) = uaddr m pgdir va + i.
Proof.
  intros Hi. destruct (page_bytes va i Hva ltac:(lia)) as [Hs Hm]. unfold uaddr.
  rewrite (frame_vpage m pgdir va (va + i)), Hm by (done || lia). lia.
Qed.

Lemma chunk_rd a : rd m' a =
  if (uaddr m pgdir va <=? a) && (a <? uaddr m pgdir va + n) then rd m (buf + (a - uaddr m pgdir va)) else rd m a.
Proof. apply memmove_rd. lia. Qed.

Lemma chunk_page a : ¬ (frame m pgdir va ≤ a < frame m pgdir va + PGSIZE) → rd m' a = rd m a.
Proof.
  intros Ha. rewrite chunk_rd. unfold uaddr. pose proof (Z.mod_pos_bound va PGSIZE ltac:(done)).
  destruct (Z.leb_spec (frame m pgdir va + va mod PGSIZE) a),
    (Z.ltb_spec a (frame m pgdir va + va mod PGSIZE + n)); cbn [andb]; (done || lia).
Qed.

Lemma chunk_tables : (∀ x, pte m' pgdir x = pte m pgdir x) ∧ pt_ok m' pgdir ∧
  ∀ q, outside m pgdir q → outside m' pgdir q.
Proof.
  destruct (ur_page _ _ _ _ _ Hr va ltac:(lia)) as [Hk Ho].
  apply (pte_unwritten m m' pgdir (frame m pgdir va)); [done|done|done|]. apply chunk_page.
Qed.

Lemma chunk_range : user_range m' pgdir (va + n) (len - n) (buf + n).
Proof.
  destruct chunk_tables as (Hp & _ & Ho). destruct Hr as [H1 H2 H3 H4].
  split; unfold frame in *; intros x.
  - intros Hx. rewrite Hp. apply H1. lia.
  - intros Hx. rewrite Hp. destruct (H2 x ltac:(lia)). split; [done|by apply Ho].
  - intros Hx. rewrite Hp. specialize (H3 x ltac:(lia)). lia.
  - intros y Hx Hy. rewrite !Hp. apply H4; lia.
Qed.

(** The source of what is still to be copied is untouched. *)
Lemma chunk_source i : n ≤ i < len → rd m' (buf + i) = rd m (buf + i).
Proof. intros Hi. apply chunk_page. pose proof (ur_buf _ _ _ _ _ Hr va ltac:(lia)). lia. Qed.

(** The rest of the copy, after this chunk, makes the whole copy. *)
Lemma chunk_then m'' : va mod PGSIZE + n = PGSIZE ∨ n = len →
  copied m' m'' pgdir (va + n) (buf + n) (len - n) → copied m m'' pgdir va buf len.
Proof.
  intros Hlast (C1 & C2 & C3). destruct chunk_tables as (Hp & _ & _).
  assert (Hua : ∀ x, uaddr m' pgdir x = uaddr m pgdir x).
  { intros x. unfold uaddr, frame. by rewrite Hp. }
  assert (Hsep : ∀ i j, 0 ≤ i < n → n ≤ j < len → uaddr m pgdir (va + i) ≠ uaddr m pgdir (va + j)).
  { intros i j Hi Hj He. destruct Hlast as [Hlast|]; [|lia].
    pose proof (chunk_uaddr i Hi) as E. rewrite E in He. unfold uaddr in He.
    pose proof (Z.mod_pos_bound (va + j) PGSIZE ltac:(done)). pose proof (Z.mod_pos_bound va PGSIZE ltac:(done)).
    destruct (ur_page _ _ _ _ _ Hr va ltac:(lia)) as [K1 _].
    destruct (ur_page _ _ _ _ _ Hr (va + j) ltac:(lia)) as [K2 _].
    destruct (decide (frame m pgdir va = frame m pgdir (va + j))) as [Ef|Ef].
    - apply (ur_inj _ _ _ _ _ Hr) in Ef; [|lia|lia]. unfold same_vpage in Ef. apply Z.eqb_eq in Ef.
      pose proof (Z.div_mod va PGSIZE ltac:(done)). pose proof (Z.div_mod (va + j) PGSIZE ltac:(done)). lia.
    - pose proof (kpage_far _ _ K1 K2 Ef). lia. }
  split_and!.
  - intros i Hi. destruct (Z.lt_ge_cases i n) as [Hin|Hin].
    + rewrite C2.
      * rewrite chunk_uaddr, chunk_rd by lia.
        destruct (Z.leb_spec (uaddr m pgdir va) (uaddr m pgdir va + i)),
          (Z.ltb_spec (uaddr m pgdir va + i) (uaddr m pgdir va + n)); try lia. cbn [andb]. f_equal. lia.
      * intros j Hj. rewrite Hua. replace (va + n + j) with (va + (n + j)) by lia. apply Hsep; lia.
    + specialize (C1 (i - n) ltac:(lia)). rewrite Hua in C1.
      replace (va + n + (i - n)) with (va + i) in C1 by lia.
      replace (buf + n + (i - n)) with (buf + i) in C1 by lia. rewrite C1. apply chunk_source. lia.
  - intros a Ha. rewrite C2.
    + rewrite chunk_rd. destruct (Z.leb_spec (uaddr m pgdir va) a), (Z.ltb_spec a (uaddr m pgdir va + n));
        cbn [andb]; try done. exfalso. apply (Ha (a - uaddr m pgdir va)); [lia|]. rewrite chunk_uaddr by lia. lia.
    + intros i Hi. rewrite Hua. replace (va + n + i) with (va + (n + i)) by lia. apply Ha. lia.
  - intros x. by rewrite C3, Hp.
Qed.
End chunk.

(** One round of copyout. *)
Lemma copyout_round pgdir va buf len n k s fuel : pt_ok (vmem s) pgdir →
  user_range (vmem s) pgdir va len buf → 0 ≤ va → va + len ≤ KERNBASE → 0 < len →
  n = Z.min (PGSIZE - va mod PGSIZE) len →
  copyout_loop (S fuel) pgdir va buf len k s =
  copyout_loop fuel pgdir (va - va mod PGSIZE + PGSIZE) (buf + n) (len - n) k
    (set_km (set_mem (KString.memmove (vmem s) (uaddr (vmem s) pgdir va) buf n) (km s)) s).
Proof.
  intros Hpt Hr Hva Hend Hlen ->. unfold KERNBASE in *.
  destruct (ur_bits _ _ _ _ _ Hr va ltac:(lia)) as [HP HU].
  destruct (ur_page _ _ _ _ _ Hr va ltac:(lia)) as [Hk _].
  pose proof (Z.mod_pos_bound va PGSIZE ltac:(done)) as Hmod.
  pose proof (Z.mod_le va PGSIZE ltac:(lia) ltac:(done)) as Hle.
  assert (Hal : (va - va mod PGSIZE) mod PGSIZE = 0).
  { pose proof (Z.div_mod va PGSIZE ltac:(done)).
    replace (va - va mod PGSIZE) with (va / PGSIZE * PGSIZE) by lia. by apply Z.mod_mul. }
  assert (Hpv : pte (vmem s) pgdir (va - va mod PGSIZE) = pte (vmem s) pgdir va).
  { apply pte_vpage; [lia|lia|]. unfold same_vpage. apply Z.eqb_eq.
    pose proof (Z.div_mod va PGSIZE ltac:(done)).
    replace (va - va mod PGSIZE) with (va / PGSIZE * PGSIZE) by lia. by rewrite Z.div_mul. }
  assert (Hu : uva2ka pgdir (va - va mod PGSIZE) k s = Done (frame (vmem s) pgdir va) k s).
  { unfold uva2ka, walkpgdir, vload. unfold frame. rewrite <- Hpv in HP, HU |- *.
    unfold pte in HP, HU |- *. unfold ptab in *.
    unfold mbind, M_bind. rewrite gets_eq.
    destruct (has (load32 (vmem s) (pgdir + 4 * PDX (va - va mod PGSIZE))) PTE_P) eqn:E; [|done].
    rewrite ret_eq. cbn [defined]. rewrite ret_eq, gets_eq.
    rewrite HP, HU. done. }
  cbn [copyout_loop]. destruct (Z.gtb_spec len 0); [|lia]. rewrite PGROUNDDOWN_eq by lia.
  mb Hu. destruct (Z.eqb_spec (frame (vmem s) pgdir va) 0) as [E|_].
  { rewrite E in Hk. destruct Hk as [_ ?]. unfold KERNBASE in *. lia. }
  replace (va - (va - va mod PGSIZE)) with (va mod PGSIZE) by lia.
  unfold vupd. unfold mbind, M_bind. rewrite modify_eq. rewrite u32_small by (unfold PGSIZE in *; lia). done.
Qed.

Lemma copyout_loop_copies pgdir k fuel : ∀ va buf len s, pt_ok (vmem s) pgdir →
  user_range (vmem s) pgdir va len buf → 0 ≤ va → 0 ≤ len → va + len ≤ KERNBASE →
  len + va mod PGSIZE ≤ (Z.of_nat fuel - 1) * PGSIZE → (0 < fuel)%nat →
  ∃ m', copyout_loop fuel pgdir va buf len k s = Done 0 k (set_km (set_mem m' (km s)) s) ∧
        copied (vmem s) m' pgdir va buf len.
Proof.
  induction fuel as [|fuel IH]; intros va buf len s Hpt Hr Hva Hlen Hend Hf Hf0; [lia|].
  destruct (Z.eq_dec len 0) as [->|Hne].
  { exists (vmem s). split.
    - cbn [copyout_loop]. change (0 >? 0) with false. cbv iota. rewrite ret_eq. f_equal. by destruct s as [[] ? ? ? ? ?].
    - split_and!; [lia|done|done]. }
  set (n := Z.min (PGSIZE - va mod PGSIZE) len).
  pose proof (Z.mod_pos_bound va PGSIZE ltac:(done)) as Hmod.
  pose proof (Z.div_mod va PGSIZE ltac:(done)) as Hdm. unfold KERNBASE in Hend.
  rewrite (copyout_round pgdir va buf len n k s fuel) by (done || (unfold KERNBASE; lia)).
  assert (Hn : 0 < n ≤ len ∧ n ≤ PGSIZE - va mod PGSIZE ∧ (va mod PGSIZE + n = PGSIZE ∨ n = len)).
  { unfold n, PGSIZE in *. lia. }
  destruct Hn as (Hn1 & Hn2 & Hn3).
  set (s1 := set_km (set_mem (KString.memmove (vmem s) (uaddr (vmem s) pgdir va) buf n) (km s)) s).
  destruct (chunk_tables (vmem s) pgdir va buf len n Hpt Hr) as (_ & Hpt1 & _); [lia..|].
  assert (Hr1 : user_range (vmem s1) pgdir (va + n) (len - n) (buf + n)) by (by apply chunk_range).
  destruct Hn3 as [Hn3|Hn3].
  - replace (va - va mod PGSIZE + PGSIZE) with (va + n) by lia.
    destruct (IH (va + n) (buf + n) (len - n) s1) as (m' & Hrun & Hc); try (done || (unfold KERNBASE; lia)).
    { replace (va + n) with ((va / PGSIZE + 1) * PGSIZE) by lia. rewrite Z.mod_mul by done. lia. }
    { destruct fuel; [|lia]. unfold PGSIZE in *. lia. }
    exists m'. split; [done|]. eapply chunk_then; try done; lia || by left.
  - replace (len - n) with 0 by lia. destruct fuel as [|fuel]; [unfold PGSIZE in *; lia|].
    exists (vmem s1). split; [done|]. eapply (chunk_then _ _ _ _ _ n); try done; [lia|by right|].
    replace (len - n) with 0 by lia. split_and!; [lia|done|done].
Qed.

(** Copyout writes through the page table.  If the [len] bytes from [va] on are
    mapped for user mode to frames apart from the page table and the source buffer, copyout
    returns 0 and stores byte [i] of the buffer where the page table puts address va+i;
    no other byte of memory changes, and no page table entry. *)
Theorem copyout_copies (pgdir va buf len : Z) (k : kctx) (s : vst) :
  pt_ok (vmem s) pgdir → user_range (vmem s) pgdir va len buf →
  0 ≤ va → 0 ≤ len → va + len ≤ KERNBASE →
  ∃ m', copyout pgdir va buf len k s = Done 0 k (set_km (set_mem m' (km s)) s) ∧
        copied (vmem s) m' pgdir va buf len.
Proof.
  intros Hpt Hr Hva Hlen Hend. apply copyout_loop_copies; try done; [|lia].
  pose proof (Z.mod_pos_bound va PGSIZE ltac:(done)). pose proof (Z.div_mod len PGSIZE ltac:(done)).
  pose proof (Z.mod_pos_bound len PGSIZE ltac:(done)).
  assert (0 ≤ len / PGSIZE) by (apply Z.div_pos; lia). unfold PGSIZE in *. lia.
Qed.

(** Copyout on an address without a page table is undefined: uva2ka dereferences the
    null pointer walkpgdir returns, where copyout has a test for an unmapped page. *)
Theorem copyout_no_table (pgdir va buf len : Z) (k : kctx) (s : vst) :
  0 ≤ va < 2 ^ 32 → 0 < len → ptab (vmem s) pgdir (PDX (PGROUNDDOWN va)) = None →
  copyout pgdir va buf len k s = Undefined.
Proof.
  intros Hva Hlen Ht. unfold copyout. cbn [copyout_loop]. destruct (Z.gtb_spec len 0); [|lia].
  unfold uva2ka, walkpgdir, vload, mbind, M_bind. rewrite gets_eq.
  unfold ptab in Ht. destruct (has _ PTE_P); [done|]. done.
Qed.

(** ** One user page *)

Definition demo_frame : Z := 0x80402000.
Definition demo_mapped : mem :=
  store32 (store32 ∅ demo_dir (Z.lor (v2p demo_a) 7)) demo_a (Z.lor (v2p demo_frame) 7).

Lemma demo_ptab i : 0 ≤ i < 1024 → ptab demo_mapped demo_dir i = if i =? 0 then Some demo_a else None.
Proof.
  intros Hi. unfold ptab, demo_mapped. destruct (Z.eqb_spec i 0) as [->|Hne].
  - by vm_compute.
  - rewrite !load32_store32_ne by (unfold demo_a, demo_dir; lia). done.
Qed.

Lemma demo_pt_ok : pt_ok demo_mapped demo_dir.
Proof.
  split; [done| |].
  - intros i t Hi. rewrite demo_ptab by done. destruct (i =? 0); [|done]. by intros [= <-].
  - intros i j t Hi Hj. rewrite !demo_ptab by done.
    destruct (Z.eqb_spec i 0), (Z.eqb_spec j 0); (done || lia).
Qed.

Lemma demo_user_range : user_range demo_mapped demo_dir 10 2 0x80500000.
Proof.
  assert (Hx : ∀ x, 10 ≤ x < 10 + 2 → x = 10 ∨ x = 11) by lia.
  assert (Hf : ∀ x, 10 ≤ x < 10 + 2 → frame demo_mapped demo_dir x = demo_frame).
  { intros x [->| ->]%Hx; by vm_compute. }
  split.
  - intros x [->| ->]%Hx; split; by vm_compute.
  - intros x H. rewrite Hf by done. split; [done|]. split; [done|]. intros i Hi.
    rewrite demo_ptab by done. by destruct (i =? 0).
  - intros x H. rewrite Hf by done. left. unfold demo_frame, PGSIZE. lia.
  - intros x y [->| ->]%Hx [->| ->]%Hx _; by vm_compute.
Qed.

Lemma copyout_copies_witness :
  ∃ m', copyout demo_dir 10 0x80500000 2 (Kctx [] []) (demo_vm demo_mapped 0) =
          Done 0 (Kctx [] []) (set_km (set_mem m' (km (demo_vm demo_mapped 0))) (demo_vm demo_mapped 0)) ∧
        copied demo_mapped m' demo_dir 10 0x80500000 2.
Proof.
  apply (copyout_copies demo_dir 10 0x80500000 2 (Kctx [] []) (demo_vm demo_mapped 0));
    [apply demo_pt_ok|apply demo_user_range|lia|lia|unfold KERNBASE; lia].
Defined.

Lemma copyout_no_table_witness :
  copyout demo_dir 0x400000 0x80500000 2 (Kctx [] []) (demo_vm demo_mapped 0) = Undefined.
Proof.
  apply (copyout_no_table demo_dir 0x400000 0x80500000 2 (Kctx [] []) (demo_vm demo_mapped 0));
    [lia|lia|]. by vm_compute.
Defined.
