(* ===== verification/VmKern.v ===== *)
(** * The kernel's own mappings

    setupkvm builds a page directory that maps the kernel's half of the address space
    as the table kmap says, and nothing below KERNBASE.  It takes one page for the
    directory and at most 64 for its tables: 56 for physical memory and 8 for the
    devices.  At boot the pages below 4 megabytes are enough for it. *)

From stdpp Require Import base gmap list strings.
From Stdlib Require Import ZArith Lia.
From S2P Require Import Prelude Params Kmonad Cstring Kalloc Console Vm VmSpec VmUser.

(** The directory entries of the kernel's mappings. *)
Definition kernel_dirs : list Z := seqZ 512 56 ++ seqZ 1016 8.

Lemma kernel_dirs_ok : NoDup kernel_dirs ∧ (∀ i, i ∈ kernel_dirs → 0 ≤ i < 1024).
Proof.
  split.
  - apply (bool_decide_unpack _). by vm_compute.
  - intros i. unfold kernel_dirs. rewrite elem_of_app, !elem_of_seqZ. lia.
Qed.

Section vmkern.
Context (kend kdata : Z).

(** The entry for [va] in the kernel's page table. *)
Definition kernel_pte (va : Z) : Z :=
  let page := va - va mod PGSIZE in
  if va <? KERNBASE then 0
  else if va <? KERNLINK then entry (page - KERNBASE) PTE_W
  else if va <? kdata then entry (page - KERNBASE) 0
  else if va <? KERNBASE + PHYSTOP then entry (page - KERNBASE) PTE_W
  else if va <? DEVSPACE then 0
  else entry page PTE_W.

(** mappages of whole pages. *)
Lemma mappages_whole pgdir va size pa perm k s l : vm_ok kend s pgdir l → LKmem ∉ held k →
  (absent (vmem s) pgdir kernel_dirs ≤ length l)%nat →
  (∀ i, PDX va ≤ i ≤ PDX (va + size - 1) → i ∈ kernel_dirs) →
  0 ≤ perm < 2 ^ 12 → va mod PGSIZE = 0 → size mod PGSIZE = 0 → pa mod PGSIZE = 0 →
  0 ≤ va → 0 < size → va + size ≤ 2 ^ 32 → 0 ≤ pa → pa + size ≤ 2 ^ 32 →
  (∀ x, va ≤ x < va + size → pte (vmem s) pgdir x = 0) →
  ∃ s' used l', mappages pgdir va size pa perm k s = Done 0 k s' ∧
    l = used ++ l' ∧ (absent (vmem s') pgdir kernel_dirs + length used = absent (vmem s) pgdir kernel_dirs)%nat ∧ vm_ok kend s' pgdir l' ∧
    vframe pgdir used s s' ∧ grown pgdir used s s' ∧ mapped (vmem s) (vmem s') pgdir va size pa perm.
Proof.
  intros Hok Hk Hl Hin Hperm Hva Hsz Hpa H0 H1 H2 H3 H4 Hz. destruct kernel_dirs_ok as [Hnd Hds].
  pose proof (Z.div_mod va PGSIZE ltac:(done)) as Ev. pose proof (Z.div_mod size PGSIZE ltac:(done)) as Es.
  assert (Hq : 0 < size / PGSIZE) by (unfold PGSIZE in *; lia).
  set (n := Z.to_nat (size / PGSIZE - 1)).
  assert (Hn : Z.of_nat n = size / PGSIZE - 1) by lia.
  assert (Hdown : PGROUNDDOWN va = va) by (rewrite PGROUNDDOWN_eq by lia; lia).
  destruct (mappages_maps kend pgdir va size pa perm kernel_dirs k s l n Hok Hk Hnd Hds Hl Hin)
    as (s' & used & l' & R & Hll & Hl' & Hok' & Hf & Hg & Hm); try done; try (unfold PGSIZE in *; lia).
  - rewrite Hdown, PGROUNDDOWN_eq by lia. rewrite Hn.
    replace (va + size - 1) with (PGSIZE - 1 + (va / PGSIZE + (size / PGSIZE - 1)) * PGSIZE) by lia.
    rewrite Z.mod_add, Z.mod_small by (done || unfold PGSIZE; lia). lia.
  - intros x Hx. rewrite Hz; [done|]. rewrite Hdown in Hx. unfold PGSIZE in *. lia.
  - exists s', used, l'. split_and!; try done. rewrite Hdown in Hm.
    replace (Z.of_nat (S n) * PGSIZE) with size in Hm by lia. done.
Qed.

(** The page [d] taken for the directory, cleared. *)
Lemma new_dir k s d l : free_pages kend (km s) (d :: l) → LKmem ∉ held k →
  ∃ s1 s2, inkm kalloc k s = Done d k s1 ∧ vupd (λ m, KString.memset m d 0 PGSIZE) k s1 = Done tt k s2 ∧
    d ≠ 0 ∧ vm_ok kend s2 d l ∧ s2 = set_km (km s2) s ∧ (∀ i, 0 ≤ i < 1024 → ptab (vmem s2) d i = None) ∧
    ∀ q, kpage q → q ≠ d → same_page (vmem s) (vmem s2) q.
Proof.
  intros Hfr Hk. destruct (vkalloc_run kend k s (d :: l) Hfr Hk) as (s1 & Hal & Hm1 & Hf1 & Hpok & Hpl).
  pose proof (page_ok_kpage kend d Hpok) as Hd. set (m2 := KString.memset (vmem s) d 0 PGSIZE).
  assert (Hrd : ∀ x, rd m2 x = if (d <=? x) && (x <? d + PGSIZE) then 0 else rd (vmem s) x)
    by (intros x; by apply memset_page).
  assert (Hsame : ∀ q, kpage q → q ≠ d → same_page (vmem s) m2 q).
  { intros q Hq Hne a Ha. rewrite Hrd. pose proof (kpage_far q d Hq Hd Hne).
    destruct (Z.leb_spec d a), (Z.ltb_spec a (d + PGSIZE)); cbn [andb]; (done || lia). }
  assert (Hn : ∀ i, 0 ≤ i < 1024 → ptab m2 d i = None).
  { intros i Hi. unfold ptab, load32.
    assert (Hz : ∀ j, 0 ≤ j < 4 → rd m2 (d + 4 * i + j) = 0).
    { intros j Hj. rewrite Hrd. unfold PGSIZE.
      destruct (Z.leb_spec d (d + 4 * i + j)), (Z.ltb_spec (d + 4 * i + j) (d + 4096)); (done || lia). }
    rewrite <- (Z.add_0_r (d + 4 * i)) at 1. by rewrite !Hz by lia. }
  exists (set_km s1 s), (set_km (set_mem m2 s1) s). split_and!; [done| | | |done|done|done].
  - unfold vupd. rewrite modify_eq. change (vmem (set_km s1 s)) with (kmem_mem s1). by rewrite Hm1.
  - intros ->. destruct Hd as [_ ?]. unfold KERNBASE in *. lia.
  - split.
    + split; [done| |]; change (vmem (set_km (set_mem m2 s1) s)) with m2; intros i; intros;
        rewrite Hn in *; done.
    + apply (free_pages_same kend s1 m2 l Hf1). intros q Hq. rewrite Hm1. apply Hsame; [|by intros ->].
      destruct Hf1 as (_ & _ & Hall). apply (page_ok_kpage kend). by apply (proj1 (Forall_forall _ _) Hall).
    + intros q Hq. change (vmem (set_km (set_mem m2 s1) s)) with m2.
      split; [by intros ->|]. intros i Hi. by rewrite Hn.
Qed.
(** A directory [d] in the making: its entries are [f], [l'] is left of the free list
    [l], and no page but [d] and those of [l] has changed. *)
Record built (s0 : vst) (d : Z) (l : list Z) (f : Z → Z) (s : vst) (l' : list Z) : Prop := Built {
  built_ok : vm_ok kend s d l';
  built_left : (absent (vmem s) d kernel_dirs ≤ length l')%nat;
  built_used : ∃ used, l = used ++ l' ∧ (absent (vmem s) d kernel_dirs + length used ≤ 64)%nat;
  built_state : s = set_km (km s) s0;
  built_out : ∀ q, q ≠ d → q ∉ l → outside (vmem s) d q;
  built_same : ∀ q, kpage q → q ≠ d → q ∉ l → same_page (vmem s0) (vmem s) q;
  built_pte : ∀ va, 0 ≤ va < 2 ^ 32 → pte (vmem s) d va = f va
}.

(** One segment of kmap. *)
Lemma map_segment s0 d l f s l1 virt ps pe perm size rest k : built s0 d l f s l1 → LKmem ∉ held k →
  u32 (pe - ps) = size →
  (∀ i, PDX virt ≤ i ≤ PDX (virt + size - 1) → i ∈ kernel_dirs) → 0 ≤ perm < 2 ^ 12 →
  virt mod PGSIZE = 0 → size mod PGSIZE = 0 → ps mod PGSIZE = 0 →
  0 ≤ virt → 0 < size → virt + size ≤ 2 ^ 32 → 0 ≤ ps → ps + size ≤ 2 ^ 32 →
  (∀ x, virt ≤ x < virt + size → f x = 0) →
  ∃ s' l2, map_kernel ((virt, ps, pe, perm) :: rest) d k s = map_kernel rest d k s' ∧
    built s0 d l (λ va, if (virt <=? va) && (va <? virt + size)
                        then entry (ps + (va - va mod PGSIZE - virt)) perm else f va) s' l2.
Proof.
  intros [B1 B2 (u & -> & Hu) B4 B5 B6 B7] Hk Hsize Hin Hperm Hv Hs Hp H0 H1 H2 H3 H4 Hz.
  destruct (mappages_whole d virt size ps perm k s l1 B1 Hk B2 Hin Hperm Hv Hs Hp H0 H1 H2 H3 H4)
    as (s' & u' & l2 & R & -> & Hl & Hok & [Hst Hf] & Hg & Hm).
  { intros x Hx. rewrite B7 by lia. by apply Hz. }
  exists s', l2. split; [cbn [map_kernel]; rewrite Hsize; by mb R|]. rewrite length_app in B2. split; [done|lia| | | | |].
  - exists (u ++ u'). rewrite <- app_assoc, length_app. split; [done|lia].
  - rewrite Hst, B4. done.
  - intros q Hq Hql. apply Hg; [by apply B5|set_solver].
  - intros q Hq Hd Hql. apply (same_page_trans _ (vmem s)); [by apply B6|].
    apply Hf; [done|by apply B5|set_solver].
  - intros va Hva. rewrite Hm by done. by rewrite B7.
Qed.

Hypothesis Hdata : kdata mod PGSIZE = 0 ∧ KERNLINK < kdata < KERNBASE + PHYSTOP.

Lemma dirs_in a b : 0 ≤ a ≤ b → b < 2 ^ 32 →
  KERNBASE ≤ a ∧ b < KERNBASE + PHYSTOP ∨ DEVSPACE ≤ a →
  ∀ i, PDX a ≤ i ≤ PDX b → i ∈ kernel_dirs.
Proof.
  intros Ha Hb Hab i Hi. rewrite !PDX_eq in Hi by lia. unfold kernel_dirs.
  rewrite elem_of_app, !elem_of_seqZ.
  unfold KERNBASE, PHYSTOP, DEVSPACE in *. destruct Hab as [[H1 H2]|H1]; [left|right].
  - assert (512 ≤ a / 2 ^ 22) by (apply Z.div_le_lower_bound; lia).
    assert (b / 2 ^ 22 < 568) by (apply Z.div_lt_upper_bound; lia). lia.
  - assert (1016 ≤ a / 2 ^ 22) by (apply Z.div_le_lower_bound; lia).
    assert (b / 2 ^ 22 < 1024) by (apply Z.div_lt_upper_bound; lia). lia.
Qed.

Lemma built_ext s0 d l f g s l' : (∀ va, 0 ≤ va < 2 ^ 32 → f va = g va) →
  built s0 d l f s l' → built s0 d l g s l'.
Proof. intros H [B1 B2 B3 B4 B5 B6 B7]. split; try done. intros va Hva. by rewrite <- H, B7. Qed.

Lemma page_sub a b : a mod PGSIZE = 0 → b mod PGSIZE = 0 → (a - b) mod PGSIZE = 0.
Proof. intros Ha Hb. by rewrite Zminus_mod, Ha, Hb. Qed.

Lemma map_kernel_run s0 d l s l1 k : built s0 d l (λ _, 0) s l1 → LKmem ∉ held k →
  ∃ s' l', map_kernel (kmap kdata) d k s = Done d k s' ∧ built s0 d l kernel_pte s' l'.
Proof.
  intros B0 Hk. destruct Hdata as [Hd Hr].
  assert (Hv : v2p kdata = kdata - KERNBASE).
  { unfold v2p. apply u32_small. unfold KERNLINK, KERNBASE, EXTMEM, PHYSTOP in *. lia. }
  pose proof (page_sub kdata KERNBASE Hd eq_refl) as Hd1. pose proof (page_sub kdata KERNLINK Hd eq_refl) as Hd2.
  pose proof (page_sub (KERNBASE + PHYSTOP) kdata eq_refl Hd) as Hd3.
  unfold kmap. rewrite Hv. change (v2p KERNLINK) with EXTMEM.
  destruct (map_segment _ _ _ _ _ _ KERNBASE 0 EXTMEM PTE_W EXTMEM
    [(KERNLINK, EXTMEM, kdata - KERNBASE, 0); (kdata, kdata - KERNBASE, PHYSTOP, PTE_W);
     (DEVSPACE, DEVSPACE, 0, PTE_W)] k B0 Hk) as (s2 & l2 & -> & B1); try done.
  { apply dirs_in; [done|done|by left]. }
  destruct (map_segment _ _ _ _ _ _ KERNLINK EXTMEM (kdata - KERNBASE) 0 (kdata - KERNLINK)
    [(kdata, kdata - KERNBASE, PHYSTOP, PTE_W); (DEVSPACE, DEVSPACE, 0, PTE_W)] k B1 Hk)
    as (s3 & l3 & -> & B2); try done; unfold KERNLINK, KERNBASE, EXTMEM, PHYSTOP, DEVSPACE in *; try lia.
  { rewrite u32_small; lia. }
  { apply dirs_in; unfold KERNBASE, PHYSTOP; lia. }
  { intros x Hx. destruct (Z.leb_spec 0x80000000 x), (Z.ltb_spec x (0x80000000 + 0x100000)); cbn [andb]; (done || lia). }
  destruct (map_segment _ _ _ _ _ _ kdata (kdata - 0x80000000) 0xE000000 PTE_W (0x80000000 + 0xE000000 - kdata)
    [(0xFE000000, 0xFE000000, 0, PTE_W)] k B2 Hk) as (s4 & l4 & -> & B3); try done; try lia.
  { rewrite u32_small; lia. }
  { apply dirs_in; unfold KERNBASE, PHYSTOP; lia. }
  { intros x Hx. destruct (Z.ltb_spec x (0x80000000 + 0x100000 + (kdata - (0x80000000 + 0x100000)))); [lia|].
    rewrite andb_false_r. destruct (Z.ltb_spec x (0x80000000 + 0x100000)); [lia|]. by rewrite andb_false_r. }
  destruct (map_segment _ _ _ _ _ _ 0xFE000000 0xFE000000 0 PTE_W 0x2000000 [] k B3 Hk)
    as (s5 & l5 & -> & B4); try done.
  { apply dirs_in; [done|done|by right]. }
  { intros x Hx. rewrite !(proj2 (Z.ltb_ge x _)) by lia. by rewrite !andb_false_r. }
  exists s5, l5. split; [done|]. revert B4. apply built_ext. intros va Hva. unfold kernel_pte.
  unfold KERNLINK, KERNBASE, EXTMEM, PHYSTOP, DEVSPACE.
  repeat match goal with
  | |- context [?a <=? ?b] => destruct (Z.leb_spec a b); try lia; cbn [andb]
  | |- context [?a <? ?b] => destruct (Z.ltb_spec a b); try lia; cbn [andb]
  end; try done; f_equal; lia.
Qed.

Lemma setupkvm_run k s d l : free_pages kend (km s) (d :: l) → LKmem ∉ held k → (64 ≤ length l)%nat →
  ∃ s' l', setupkvm kdata k s = Done d k s' ∧ built s d l kernel_pte s' l'.
Proof.
  intros Hfr Hk Hl. destruct (new_dir k s d l Hfr Hk) as (s1 & s2 & R1 & R2 & Hd & Hok & Hst & Hn & Hsame).
  assert (Hab : (absent (vmem s2) d kernel_dirs ≤ 64)%nat) by (change 64%nat with (length kernel_dirs); apply length_filter).
  assert (B0 : built s d l (λ _, 0) s2 l).
  { split; [done|lia|exists []; cbn; split; [done|lia]|done| | |].
    - intros q Hq _. split; [done|]. intros i Hi. by rewrite Hn.
    - intros q Hq Hqd _. by apply Hsame.
    - intros va Hva. unfold pte. by rewrite Hn by apply PDX_range. }
  unfold setupkvm. mb R1. destruct (Z.eqb_spec d 0); [done|]. mb R2.
  change (p2v PHYSTOP >? DEVSPACE) with false. cbv iota. unfold kmap.
  by apply map_kernel_run with l.
Qed.

(** C13: Given a page for the directory and 64 more, setupkvm returns a new page directory
    in which every address has the entry that the table of the kernel's segments gives it:
    nothing below KERNBASE, the I/O space and the kernel's data and free memory writable,
    its text read-only, the devices at their own addresses, and none of them for the
    user.  It changes no page but those it takes from the free list, and what is left of
    the free list is not part of the directory. *)
Theorem setupkvm_maps (d : Z) (k : kctx) (s : vst) (l : list Z) :
  free_pages kend (km s) (d :: l) → LKmem ∉ held k → (64 ≤ length l)%nat →
  ∃ s' used l', setupkvm kdata k s = Done d k s' ∧ l = used ++ l' ∧ vm_ok kend s' d l' ∧
    s' = set_km (km s') s ∧
    (∀ va, 0 ≤ va < 2 ^ 32 → pte (vmem s') d va = kernel_pte va) ∧
    ∀ q, kpage q → q ∉ d :: l → same_page (vmem s) (vmem s') q.
Proof.
  intros Hf Hk Hl. destruct (setupkvm_run k s d l Hf Hk Hl) as (s' & l' & R & [B1 B2 (u & Hu & _) B4 B5 B6 B7]).
  exists s', u, l'. split_and!; try done. intros q Hq Hql. apply B6; set_solver.
Qed.

(** When the pages run out, setupkvm returns a null pointer and keeps the directory: the
    page is neither on the free list nor known to the caller. *)
Theorem setupkvm_leaks (d : Z) (k : kctx) (s : vst) :
  free_pages kend (km s) [d] → LKmem ∉ held k →
  ∃ s', setupkvm kdata k s = Done 0 k s' ∧ free_pages kend (km s') [].
Proof.
  intros Hf Hk. destruct (new_dir k s d [] Hf Hk) as (s1 & s2 & R1 & R2 & Hd & Hok & Hst & Hn & Hsame).
  exists s2. split; [|apply Hok]. unfold setupkvm. mb R1. destruct (Z.eqb_spec d 0); [done|]. mb R2.
  change (p2v PHYSTOP >? DEVSPACE) with false. cbv iota. unfold kmap. cbn [map_kernel].
  pose proof (walkpgdir_run kend d KERNBASE k s2 [] Hok ltac:(done) Hk) as Hw.
  rewrite Hn in Hw by apply PDX_range. destruct Hw as [_ Hw].
  assert (Hmap : mappages d KERNBASE (u32 (EXTMEM - 0)) 0 PTE_W k s2 = Done (-1) k s2).
  { unfold mappages. change (PGROUNDDOWN KERNBASE) with KERNBASE. cbn [mappages_loop]. by mb Hw. }
  mb Hmap. done.
Qed.

(** ** The first page table *)

(** The pages kinit1 frees, up to the 4 megabytes entry.S maps. *)
Definition EARLY : Z := p2v (4 * 1024 * 1024).

Lemma pages_length p n : length (pages p n) = n.
Proof. unfold pages. by rewrite length_fmap, length_seq. Qed.

Lemma pages_elem p n q : q ∈ pages p n → ∃ i, q = p + PGSIZE * Z.of_nat i ∧ (i < n)%nat.
Proof. unfold pages. intros (i & -> & Hi%elem_of_seq)%list_elem_of_fmap. exists i. split; [done|lia]. Qed.

Lemma pages_NoDup p n : NoDup (pages p n).
Proof. apply NoDup_fmap_2; [|apply NoDup_seq]. intros i j H. unfold PGSIZE in H. lia. Qed.

(** The pages of a range of physical memory above the kernel. *)
Lemma range_pages p e n : p mod PGSIZE = 0 → kend ≤ p → KERNBASE < p → e ≤ KERNBASE + PHYSTOP →
  p + PGSIZE * Z.of_nat n ≤ e → Forall (page_ok kend) (pages p n).
Proof.
  unfold KERNBASE, PHYSTOP. intros Hm Hk Hp He Hn. apply Forall_forall. intros q (i & -> & Hi)%pages_elem.
  unfold page_ok, v2p, KERNBASE, PHYSTOP. rewrite (Z.mul_comm PGSIZE), Z.mod_add by done.
  rewrite u32_small by (unfold PGSIZE in *; lia). unfold PGSIZE in *. split_and!; [done|lia..].
Qed.

(** freerange on a range of physical memory above the kernel none of which is free. *)
Lemma freerange_range a e k s l : free_pages kend s l → LKmem ∉ held k → KERNLINK ≤ a → kend ≤ a → PGROUNDUP a ≤ e →
  a + PGSIZE < 2 ^ 32 → e ≤ KERNBASE + PHYSTOP → (∀ q, q ∈ l → q < a) →
  ∃ s' l', freerange kend a e k s = Done tt k s' ∧ free_pages kend s' (l' ++ l) ∧
    Z.of_nat (length l') = (e - PGROUNDUP a) / PGSIZE ∧ (∀ q, q ∈ l' → a ≤ q ∧ q + PGSIZE ≤ e) ∧
    ∀ x, ¬ (a ≤ x < e) → rd (kmem_mem s') x = rd (kmem_mem s) x.
Proof.
  unfold KERNLINK, EXTMEM. intros Hf Hk Ha0 Ha Hae Hmax He Hl.
  destruct (PGROUNDUP_bounds a ltac:(unfold KERNBASE, PGSIZE in *; lia)) as [Hb Hm].
  set (p := PGROUNDUP a) in *. set (n := Z.to_nat ((e - p) / PGSIZE)).
  pose proof (Z.div_mod (e - p) PGSIZE ltac:(done)). pose proof (Z.mod_pos_bound (e - p) PGSIZE ltac:(done)).
  assert (Hn : Z.of_nat n = (e - p) / PGSIZE) by (unfold n; rewrite Z2Nat.id; [done|apply Z.div_pos; [lia|done]]).
  destruct (freerange_run kend a e k s l) as (s' & R & Hf' & Hx); try done; fold p; fold n.
  - apply range_pages with e; unfold PGSIZE, KERNBASE in *; (done || lia).
  - apply NoDup_app. split_and!; [apply pages_NoDup| |by destruct Hf as (_ & ? & _)].
    intros q (i & -> & Hi)%pages_elem Hq%Hl. unfold PGSIZE in *. lia.
  - exists s', (reverse (pages p n)). split_and!; [done|done|by rewrite length_reverse, pages_length| |].
    + intros q Hq%elem_of_reverse%pages_elem. destruct Hq as (i & -> & Hi). unfold PGSIZE in *. lia.
    + intros x Hxx. apply Hx. fold p. lia.
Qed.

Lemma kinit1_run w s : free_pages kend s [] → KERNLINK ≤ kend ≤ EARLY → PGROUNDUP kend + 65 * PGSIZE ≤ EARLY →
  ∃ s' l, kinit1 kend kend EARLY (Kctx [] w) s = Done tt (Kctx [] w) s' ∧ free_pages kend s' l ∧
    (65 ≤ length l)%nat ∧ Z.of_nat (length l) = (EARLY - PGROUNDUP kend) / PGSIZE ∧ (∀ q, q ∈ l → q + PGSIZE ≤ EARLY) ∧
    ∀ x, ¬ (kend ≤ x < EARLY) → rd (kmem_mem s') x = rd (kmem_mem s) x.
Proof.
  intros Hf Hk He.
  destruct (freerange_range kend EARLY (Kctx [] w) (set_use_lock false s) []) as (s' & l & R & Hf' & Hl & Hq & Hx);
    try done; try lia; try (unfold PGSIZE in *; lia); [apply not_elem_of_nil|change EARLY with 0x80400000 in *; unfold PGSIZE; lia|intros q []%not_elem_of_nil|].
  rewrite app_nil_r in Hf'. exists s', l. split_and!; [by unfold kinit1|done| |done|apply Hq|done].
  assert (65 ≤ (EARLY - PGROUNDUP kend) / PGSIZE) by (apply Z.div_le_lower_bound; unfold PGSIZE in *; lia). lia.
Qed.

Lemma kinit2_run k s l : free_pages kend s l → LKmem ∉ held k → KERNLINK ≤ kend ≤ EARLY → (∀ q, q ∈ l → q < EARLY) →
  ∃ s' l', kinit2 kend EARLY (p2v PHYSTOP) k s = Done tt k s' ∧ free_pages kend s' (l' ++ l) ∧
    Z.of_nat (length l') = 56320 ∧ (∀ q, q ∈ l' → EARLY ≤ q) ∧
    ∀ x, x < EARLY → rd (kmem_mem s') x = rd (kmem_mem s) x.
Proof.
  intros Hf Hk He Hl.
  destruct (freerange_range EARLY (p2v PHYSTOP) k s l) as (s' & l' & R & Hf' & Hn & Hq & Hx); try done; try lia.
  exists (set_use_lock true s'), l'. split_and!; [|done|done|apply Hq|].
  - unfold kinit2. by mb R.
  - intros x Hlt. apply Hx. lia.
Qed.

(** What main does first: with the kernel linked below 4 megabytes and 65 pages left there,
    kinit1 and then kvmalloc end with the kernel's page table in use, and it maps every
    address as the table of the kernel's segments says. *)
Theorem boot_page_table (w : list chan) (s : vst) :
  free_pages kend (km s) [] → KERNLINK ≤ kend ≤ EARLY → PGROUNDUP kend + 65 * PGSIZE ≤ EARLY →
  ∃ s' l, (inkm (kinit1 kend kend EARLY);; kvmalloc kdata) (Kctx [] w) s = Done tt (Kctx [] w) s' ∧
    cr3 s' = v2p (kpgdir s') ∧ vm_ok kend s' (kpgdir s') l ∧
    ∀ va, 0 ≤ va < 2 ^ 32 → pte (vmem s') (kpgdir s') va = kernel_pte va.
Proof.
  intros Hf Hk He. destruct (kinit1_run w (km s) Hf Hk He) as (s1 & [|d l] & R1 & Hf1 & Hl & _); [cbn in Hl; lia|].
  destruct (setupkvm_run (Kctx [] w) (set_km s1 s) d l) as (s2 & l' & R2 & B); [done|set_solver|cbn in Hl; lia|].
  pose proof (zoom_Done km set_km _ _ _ _ _ _ R1) as R.
  exists (set_cr3 (v2p d) (set_kpgdir d s2)), l'. split_and!; [|done| |].
  - mb R. unfold kvmalloc. mb R2. done.
  - destruct B as [[B1 B2 B3] _ _ _ _ _ _]. by split.
  - apply B.
Qed.
End vmkern.

(** ** A kernel that ends at 0x80120000 *)

Definition demo_data : Z := 0x80110000.

Lemma demo_data_ok : demo_data mod PGSIZE = 0 ∧ KERNLINK < demo_data < KERNBASE + PHYSTOP.
Proof. done. Qed.

Lemma demo_no_pages : free_pages Kalloc.demo_kend (km (demo_vm ∅ 0)) [].
Proof. split_and!; [done|constructor|constructor]. Qed.

Lemma boot_page_table_witness :
  ∃ s' l, (inkm (kinit1 Kalloc.demo_kend Kalloc.demo_kend EARLY);; kvmalloc demo_data) (Kctx [] []) (demo_vm ∅ 0)
      = Done tt (Kctx [] []) s' ∧
    cr3 s' = v2p (kpgdir s') ∧ vm_ok Kalloc.demo_kend s' (kpgdir s') l ∧
    ∀ va, 0 ≤ va < 2 ^ 32 → pte (vmem s') (kpgdir s') va = kernel_pte demo_data va.
Proof.
  apply (boot_page_table Kalloc.demo_kend demo_data demo_data_ok []); [exact demo_no_pages|done|done].
Defined.

(** The state after kinit1. *)
Lemma setupkvm_maps_witness :
  ∃ s d l, free_pages Kalloc.demo_kend (km s) (d :: l) ∧ (64 ≤ length l)%nat ∧
  ∃ s' used l', setupkvm demo_data (Kctx [] []) s = Done d (Kctx [] []) s' ∧ l = used ++ l' ∧
    vm_ok Kalloc.demo_kend s' d l' ∧ s' = set_km (km s') s ∧
    (∀ va, 0 ≤ va < 2 ^ 32 → pte (vmem s') d va = kernel_pte demo_data va) ∧
    ∀ q, kpage q → q ∉ d :: l → same_page (vmem s) (vmem s') q.
Proof.
  destruct (kinit1_run Kalloc.demo_kend [] (km (demo_vm ∅ 0)) demo_no_pages ltac:(done) ltac:(done))
    as (s1 & [|d l] & _ & Hf & Hl & _); [by apply Nat.nle_succ_0 in Hl|]. apply le_S_n in Hl.
  exists (set_km s1 (demo_vm ∅ 0)), d, l. split; [exact Hf|]. split; [exact Hl|].
  exact (setupkvm_maps Kalloc.demo_kend demo_data demo_data_ok d (Kctx [] []) (set_km s1 (demo_vm ∅ 0)) l
           Hf (not_elem_of_nil _) Hl).
Defined.
