(* ===== verification/Bio.v ===== *)
(** * bio.c: the buffer cache, and memide.c: the disk driver under it

    A [struct buf*] is an index into [bufs]: 0 .. NBUF-1 are bcache.buf and
    index NBUF is the list head bcache.head.  The LRU list is the doubly linked
    list of the source, kept in the [prev]/[next] fields.  The disk is a map
    from sectors to 512-byte blocks; [dwrites] is the sequence of sector writes
    it has performed, oldest first, so that a crash is a prefix of it. *)

From stdpp Require Import base gmap list strings.
From Stdlib Require Import ZArith Lia Permutation.
From S2P Require Import Prelude Params Kmonad.

Abbreviation block := (list Z).
Definition zero_block : block := replicate (Z.to_nat BSIZE) 0.

Record buf : Type := Buf {
  flags : Z; dev : Z; sector : Z; prev : nat; next : nat; data : block
}.
Definition buf0 : buf := Buf 0 0 0 0 0 zero_block.

Definition set_flags (v : Z) (b : buf) : buf :=
  Buf v (dev b) (sector b) (prev b) (next b) (data b).
Definition set_dev (v : Z) (b : buf) : buf :=
  Buf (flags b) v (sector b) (prev b) (next b) (data b).
Definition set_sector (v : Z) (b : buf) : buf :=
  Buf (flags b) (dev b) v (prev b) (next b) (data b).
Definition set_prev (v : nat) (b : buf) : buf :=
  Buf (flags b) (dev b) (sector b) v (next b) (data b).
Definition set_next (v : nat) (b : buf) : buf :=
  Buf (flags b) (dev b) (sector b) (prev b) v (data b).
Definition set_data (v : block) (b : buf) : buf :=
  Buf (flags b) (dev b) (sector b) (prev b) (next b) v.

Record bstate : Type := Bstate {
  disksize : Z;
  memdisk : gmap Z block;
  dwrites : list (Z * block);
  bufs : list buf
}.

Definition set_bufs (v : list buf) (s : bstate) : bstate :=
  Bstate (disksize s) (memdisk s) (dwrites s) v.

(** The contents of a sector; one never written reads as zeroes. *)
Definition disk_at (s : bstate) (sec : Z) : block := default zero_block (memdisk s !! sec).
Definition disk_write (sec : Z) (d : block) (s : bstate) : bstate :=
  Bstate (disksize s) (<[sec := d]> (memdisk s)) (dwrites s ++ [(sec, d)]) (bufs s).

(** &bcache.head *)
Definition HEAD : nat := NBUF.

Definition getb (bs : list buf) (i : nat) : buf := nthz buf0 bs i.
Definition upd (i : nat) (f : buf → buf) (bs : list buf) : list buf :=
  <[i := f (getb bs i)]> bs.
Definition theb (i : nat) (s : bstate) : buf := getb (bufs s) i.
Definition updb (i : nat) (f : buf → buf) (s : bstate) : bstate :=
  set_bufs (upd i f (bufs s)) s.

(** ** memide.c *)

Definition iderw (i : nat) : M bstate unit :=
  b ← gets (theb i);
  n ← gets disksize;
  if negb (has (flags b) B_BUSY) then panic "iderw: buf not busy"
  else if Z.land (flags b) (Z.lor B_VALID B_DIRTY) =? B_VALID then
    panic "iderw: nothing to do"
  else if negb (dev b =? 1) then panic "iderw: request not for disk 1"
  else if sector b >=? n then panic "iderw: sector out of range"
  else
    (if has (flags b) B_DIRTY then
       modify (updb i (λ b, set_flags (Z.land (flags b) (Z.lnot B_DIRTY)) b));;
       modify (disk_write (sector b) (data b))
     else modify (λ s, updb i (set_data (disk_at s (sector b))) s));;
    modify (updb i (λ b, set_flags (Z.lor (flags b) B_VALID) b)).

(** ** bio.c *)

Definition binit_links (bs : list buf) (b : nat) : list buf :=
  let bs := upd b (set_next (next (getb bs HEAD))) bs in
  let bs := upd b (set_prev HEAD) bs in
  let bs := upd b (set_dev (u32 (-1))) bs in
  let bs := upd (next (getb bs HEAD)) (set_prev b) bs in
  upd HEAD (set_next b) bs.

Definition binit : M bstate unit :=
  initlock LBcache;;
  modify (updb HEAD (set_prev HEAD));;
  modify (updb HEAD (set_next HEAD));;
  modify (λ s, set_bufs (fold_left binit_links (seq 0 NBUF) (bufs s)) s).

(** Is the sector already cached?  The walk along [next] from [b]. *)
Fixpoint bget_cached (fuel b : nat) (dv sec : Z) : M bstate (option nat) :=
  match fuel with
  | O => diverge
  | S f =>
    if decide (b = HEAD) then mret None
    else
      x ← gets (theb b);
      if (dev x =? dv) && (sector x =? sec) then
        if negb (has (flags x) B_BUSY) then
          modify (updb b (λ b, set_flags (Z.lor (flags b) B_BUSY) b));;
          release LBcache;;
          mret (Some b)
        else sleep (CBuf b) LBcache
      else bget_cached f (next x) dv sec
  end.

(** Not cached; recycle some non-busy and clean buffer: the walk along [prev]. *)
Fixpoint bget_recycle (fuel b : nat) (dv sec : Z) : M bstate nat :=
  match fuel with
  | O => diverge
  | S f =>
    if decide (b = HEAD) then panic "bget: no buffers"
    else
      x ← gets (theb b);
      if (Z.land (flags x) B_BUSY =? 0) && (Z.land (flags x) B_DIRTY =? 0) then
        modify (updb b (set_dev dv));;
        modify (updb b (set_sector sec));;
        modify (updb b (set_flags B_BUSY));;
        release LBcache;;
        mret b
      else bget_recycle f (prev x) dv sec
  end.

(** Each walk visits at most NBUF buffers and the head. *)
Definition bget (dv sec : Z) : M bstate nat :=
  acquire LBcache;;
  h ← gets (theb HEAD);
  r ← bget_cached (S NBUF) (next h) dv sec;
  match (r : option nat) with
  | Some b => mret b
  | None => h ← gets (theb HEAD); bget_recycle (S NBUF) (prev h) dv sec
  end.

Definition bread (dv sec : Z) : M bstate nat :=
  b ← bget dv sec;
  x ← gets (theb b);
  (if negb (has (flags x) B_VALID) then iderw b else mret tt);;
  mret b.

Definition bwrite (b : nat) : M bstate unit :=
  x ← gets (theb b);
  if Z.land (flags x) B_BUSY =? 0 then panic "bwrite"
  else
    modify (updb b (λ b, set_flags (Z.lor (flags b) B_DIRTY) b));;
    iderw b.

(** The six pointer assignments of brelse, in order: two take [b] out of the
    list, four put it behind the head. *)
Definition unlink_buf (b : nat) (bs : list buf) : list buf :=
  let bs := upd (next (getb bs b)) (set_prev (prev (getb bs b))) bs in
  upd (prev (getb bs b)) (set_next (next (getb bs b))) bs.
Definition link_front (b : nat) (bs : list buf) : list buf :=
  let bs := upd b (set_next (next (getb bs HEAD))) bs in
  let bs := upd b (set_prev HEAD) bs in
  let bs := upd (next (getb bs HEAD)) (set_prev b) bs in
  upd HEAD (set_next b) bs.

Definition brelse (b : nat) : M bstate unit :=
  x ← gets (theb b);
  if Z.land (flags x) B_BUSY =? 0 then panic "brelse"
  else
    acquire LBcache;;
    modify (λ s, set_bufs (link_front b (unlink_buf b (bufs s))) s);;
    modify (updb b (λ b, set_flags (Z.land (flags b) (Z.lnot B_BUSY)) b));;
    wakeup (CBuf b);;
    release LBcache.

(** ** The LRU list *)

Lemma length_upd i f bs : length (upd i f bs) = length bs.
Proof. unfold upd. len. Qed.

Lemma getb_upd i f bs j : (i < length bs)%nat →
  getb (upd i f bs) j = if decide (i = j) then f (getb bs i) else getb bs j.
Proof.
  intros Hi. unfold upd, getb. case_decide as E.
  - subst. by apply nthz_insert_eq.
  - by apply nthz_insert_ne.
Qed.

#[export] Hint Rewrite length_upd : xv6.

Definition nx (bs : list buf) (i : nat) : nat := next (getb bs i).
Definition pv (bs : list buf) (i : nat) : nat := prev (getb bs i).

(** Consecutive nodes of [c] are linked in both directions. *)
Fixpoint adj (bs : list buf) (c : list nat) : Prop :=
  match c with
  | x :: (y :: _) as t => nx bs x = y ∧ pv bs y = x ∧ adj bs t
  | _ => True
  end.

(** [lru bs l]: walking [next] from the head visits [l], every buffer once, most
    recently used first, and comes back to the head. *)
Definition lru (bs : list buf) (l : list nat) : Prop :=
  length bs = S NBUF ∧ Permutation l (seq 0 NBUF) ∧ adj bs (HEAD :: l ++ [HEAD]).

Lemma adj_cons bs x y c :
  adj bs (x :: y :: c) ↔ nx bs x = y ∧ pv bs y = x ∧ adj bs (y :: c).
Proof. done. Qed.

Lemma adj_app bs c1 x c2 : adj bs (c1 ++ x :: c2) ↔ adj bs (c1 ++ [x]) ∧ adj bs (x :: c2).
Proof.
  induction c1 as [|a c1 IH]; [simpl; tauto|].
  destruct c1 as [|b c1]; simpl app in *.
  - rewrite !adj_cons. simpl. tauto.
  - rewrite !adj_cons, IH. tauto.
Qed.

Lemma adj_ext bs bs' c :
  (∀ c1 x y c2, c = c1 ++ x :: y :: c2 → nx bs' x = nx bs x ∧ pv bs' y = pv bs y) →
  adj bs c → adj bs' c.
Proof.
  induction c as [|x c IH]; intros Hext; [done|]. destruct c as [|y c]; [done|].
  rewrite !adj_cons. destruct (Hext [] x y c eq_refl) as [-> ->].
  intros (-> & -> & H). split_and!; [done..|]. apply IH; [|done].
  intros c1 x' y' c2 E. apply (Hext (x :: c1) x' y' c2). by rewrite E.
Qed.

Lemma lru_NoDup bs l : lru bs l → NoDup (HEAD :: l).
Proof.
  intros (_ & Hp & _). apply NoDup_cons. rewrite Hp. split; [|apply NoDup_seq].
  rewrite elem_of_seq. unfold HEAD. lia.
Qed.

Lemma lru_elem bs l i : lru bs l → i ∈ l ↔ (i < NBUF)%nat.
Proof. intros (_ & Hp & _). rewrite Hp, elem_of_seq. lia. Qed.

(** An update of one field seen through the projections. *)
Section fields.
Implicit Types bs : list buf.

Lemma upd_proj {A} (g : buf → A) i f bs j :
  (∀ b, g (f b) = g b) → g (getb (upd i f bs) j) = g (getb bs j).
Proof.
  intros Hg. destruct (decide (i < length bs)%nat) as [Hi|Hi].
  - rewrite getb_upd by done. case_decide; [by subst; rewrite Hg|done].
  - unfold upd. by rewrite list_insert_ge by lia.
Qed.

Lemma nx_set_prev i v bs j : nx (upd i (set_prev v) bs) j = nx bs j.
Proof. by apply (upd_proj next). Qed.
Lemma pv_set_next i v bs j : pv (upd i (set_next v) bs) j = pv bs j.
Proof. by apply (upd_proj prev). Qed.
Lemma nx_set_next i v bs j : (i < length bs)%nat →
  nx (upd i (set_next v) bs) j = if decide (i = j) then v else nx bs j.
Proof. intros. unfold nx. rewrite getb_upd by done. by case_decide. Qed.
Lemma pv_set_prev i v bs j : (i < length bs)%nat →
  pv (upd i (set_prev v) bs) j = if decide (i = j) then v else pv bs j.
Proof. intros. unfold pv. rewrite getb_upd by done. by case_decide. Qed.
End fields.

(** What a buffer holds, apart from its list links. *)
Definition payload (b : buf) : Z * Z * Z * block := (flags b, dev b, sector b, data b).

(** Two link structures with the same buffers. *)
Definition same_payload (bs bs' : list buf) : Prop :=
  length bs' = length bs ∧ ∀ i, payload (getb bs' i) = payload (getb bs i).

Lemma same_payload_trans bs bs1 bs2 :
  same_payload bs bs1 → same_payload bs1 bs2 → same_payload bs bs2.
Proof.
  intros [L1 P1] [L2 P2]. split; [congruence|]. intros i. by rewrite P2.
Qed.

Lemma same_payload_refl bs : same_payload bs bs.
Proof. done. Qed.

Lemma same_payload_prev i v bs0 bs :
  same_payload bs0 bs → same_payload bs0 (upd i (set_prev v) bs).
Proof.
  intros [L P]. split; [by rewrite length_upd|]. intros j. rewrite <- P.
  by apply (upd_proj payload).
Qed.

Lemma same_payload_next i v bs0 bs :
  same_payload bs0 bs → same_payload bs0 (upd i (set_next v) bs).
Proof.
  intros [L P]. split; [by rewrite length_upd|]. intros j. rewrite <- P.
  by apply (upd_proj payload).
Qed.

#[local] Hint Resolve same_payload_refl same_payload_prev same_payload_next : xv6.

Lemma unlink_links bs b : length bs = S NBUF →
  (nx bs b < S NBUF)%nat → (pv bs b < S NBUF)%nat → nx bs b ≠ b →
  let bs' := unlink_buf b bs in
  same_payload bs bs' ∧
  (∀ i, nx bs' i = if decide (pv bs b = i) then nx bs b else nx bs i) ∧
  (∀ i, pv bs' i = if decide (nx bs b = i) then pv bs b else pv bs i).
Proof.
  intros Hlen Hn Hp Hnb bs'. subst bs'. unfold unlink_buf.
  fold (nx bs b) (pv bs b). set (n := nx bs b) in *. set (p := pv bs b) in *.
  set (bs1 := upd n (set_prev p) bs).
  assert (P1 : ∀ i, pv bs1 i = if decide (n = i) then p else pv bs i)
    by (intros; apply pv_set_prev; lia).
  assert (L1 : length bs1 = S NBUF) by (by unfold bs1; rewrite length_upd).
  replace (prev (getb bs1 b)) with p by (fold (pv bs1 b); by rewrite P1, decide_False).
  replace (next (getb bs1 b)) with n by (fold (nx bs1 b); by unfold bs1; rewrite nx_set_prev).
  split_and!.
  - subst bs1. auto with xv6.
  - intros i. rewrite nx_set_next by lia. unfold bs1. by rewrite nx_set_prev.
  - intros i. by rewrite pv_set_next, P1.
Qed.

Lemma link_front_links bs b : length bs = S NBUF → (b < NBUF)%nat →
  (nx bs HEAD < S NBUF)%nat →
  let bs' := link_front b bs in
  same_payload bs bs' ∧
  (∀ i, nx bs' i = if decide (HEAD = i) then b else if decide (b = i) then nx bs HEAD
     else nx bs i) ∧
  (∀ i, pv bs' i = if decide (nx bs HEAD = i) then b else if decide (b = i) then HEAD
     else pv bs i).
Proof.
  intros Hlen Hb Hn bs'. subst bs'. unfold link_front.
  assert (HbH : b ≠ HEAD) by (unfold HEAD; lia).
  fold (nx bs HEAD). set (n := nx bs HEAD) in *.
  set (bs1 := upd b (set_prev HEAD) (upd b (set_next n) bs)).
  assert (L1 : length bs1 = S NBUF) by (by unfold bs1; rewrite !length_upd).
  assert (N1 : ∀ i, nx bs1 i = if decide (b = i) then n else nx bs i)
    by (intros; unfold bs1; by rewrite nx_set_prev, nx_set_next by lia).
  assert (P1 : ∀ i, pv bs1 i = if decide (b = i) then HEAD else pv bs i)
    by (intros; unfold bs1; by rewrite pv_set_prev, pv_set_next by (rewrite ?length_upd; lia)).
  replace (next (getb bs1 HEAD)) with n by (fold (nx bs1 HEAD); by rewrite N1, decide_False).
  split_and!.
  - subst bs1. auto with xv6.
  - intros i. rewrite nx_set_next by (rewrite length_upd, L1; unfold HEAD; lia).
    case_decide; [done|]. by rewrite nx_set_prev, N1.
  - intros i. rewrite pv_set_next, pv_set_prev by lia. case_decide; [done|]. by rewrite P1.
Qed.

Lemma pair_in_init {A} (c c1 c2 : list A) y x z : c ++ [y] = c1 ++ x :: z :: c2 → x ∈ c.
Proof.
  intros E. destruct (exists_last (l := z :: c2)) as (d & w & Ed); [done|].
  rewrite Ed in E. change (x :: d ++ [w]) with ((x :: d) ++ [w]) in E.
  rewrite app_assoc in E. apply app_inj_tail in E as [-> _]. set_solver.
Qed.

Lemma pair_in_tail {A} (c c1 c2 : list A) n x z : n :: c = c1 ++ x :: z :: c2 → z ∈ c.
Proof. destruct c1; intros [= -> ->]; set_solver. Qed.

Lemma node_lt l i : (∀ j, j ∈ l → (j < S NBUF)%nat) → i ∈ l ++ [HEAD] → (i < S NBUF)%nat.
Proof.
  intros Hl [Hi|Hi%list_elem_of_singleton]%elem_of_app; [by apply Hl|].
  subst. unfold HEAD. lia.
Qed.

(** Taking [b] out of the circular list. *)
Lemma unlink_adj bs l1 b l2 : length bs = S NBUF → NoDup (HEAD :: l1 ++ b :: l2) →
  Forall (λ i, (i < S NBUF)%nat) (l1 ++ l2) →
  adj bs (HEAD :: (l1 ++ b :: l2) ++ [HEAD]) →
  adj (unlink_buf b bs) (HEAD :: (l1 ++ l2) ++ [HEAD]) ∧
  same_payload bs (unlink_buf b bs).
Proof.
  intros Hlen Hnd Hlt Hadj.
  destruct (exists_last (l := HEAD :: l1)) as (A & y & EA); [done|].
  destruct (l2 ++ [HEAD]) as [|n B] eqn:EB; [by destruct l2|].
  assert (EC : HEAD :: (l1 ++ b :: l2) ++ [HEAD] = A ++ y :: b :: n :: B).
  { rewrite <- app_assoc. simpl. rewrite EB.
    change (HEAD :: l1 ++ b :: n :: B) with ((HEAD :: l1) ++ b :: n :: B).
    by rewrite EA, <- app_assoc. }
  rewrite EC in Hadj. apply adj_app in Hadj as [HA (Hyb & Hby & Hbn & Hnb & HB)].
  assert (Hy : y ∈ HEAD :: l1) by (rewrite EA; set_solver).
  assert (Hn : n ∈ l2 ++ [HEAD]) by (rewrite EB; set_solver).
  rewrite Forall_forall in Hlt. apply NoDup_cons in Hnd as [HH Hnd].
  apply NoDup_app in Hnd as (Hnd1 & Hd12 & [Hb2 Hnd2]%NoDup_cons).
  destruct (unlink_links bs b Hlen) as (Hsame & HN & HP).
  { rewrite Hbn. apply node_lt with l2; [|done]. intros; apply Hlt; set_solver. }
  { rewrite Hby. apply node_lt with l1; [|set_solver]. intros; apply Hlt; set_solver. }
  { rewrite Hbn. intros ->. clear -Hn Hb2 HH. set_solver. }
  split; [|done]. rewrite Hbn, Hby in *.
  replace (HEAD :: (l1 ++ l2) ++ [HEAD]) with (A ++ y :: n :: B).
  2: { rewrite <- app_assoc, EB. change (HEAD :: l1 ++ n :: B) with ((HEAD :: l1) ++ n :: B).
       by rewrite EA, <- app_assoc. }
  apply adj_app. split; [|apply adj_cons; split_and!].
  - eapply adj_ext; [|exact HA]. intros c1 x z c2 E. rewrite HN, HP. split.
    + rewrite decide_False; [done|]. intros <-. apply pair_in_init in E.
      assert (NoDup (A ++ [y])) as Hndy by (rewrite <- EA; constructor; [clear -HH; set_solver|done]).
      apply NoDup_app in Hndy as (_ & Hndy & _). by apply (Hndy y E), list_elem_of_singleton.
    + rewrite decide_False; [done|]. intros <-. rewrite <- EA in E.
      apply pair_in_tail in E. clear -E Hn HH Hd12. set_solver.
  - by rewrite HN, decide_True.
  - by rewrite HP, decide_True.
  - eapply adj_ext; [|exact HB]. intros c1 x z c2 E. rewrite HN, HP. split.
    + rewrite decide_False; [done|]. intros <-. rewrite <- EB in E.
      apply pair_in_init in E. clear -E Hy HH Hd12. set_solver.
    + rewrite decide_False; [done|]. intros <-. apply pair_in_tail in E.
      assert (NoDup (n :: B)) as [Hnn _]%NoDup_cons; [|done].
      rewrite <- EB. apply NoDup_app.
      split_and!; [done|clear -HH; set_solver|apply NoDup_singleton].
Qed.

(** Putting [b] behind the head. *)
Lemma link_front_adj bs l b : length bs = S NBUF → (b < NBUF)%nat →
  NoDup (HEAD :: b :: l) → Forall (λ i, (i < S NBUF)%nat) l →
  adj bs (HEAD :: l ++ [HEAD]) →
  adj (link_front b bs) (HEAD :: b :: l ++ [HEAD]) ∧ same_payload bs (link_front b bs).
Proof.
  intros Hlen Hb Hnd Hlt Hadj.
  destruct (l ++ [HEAD]) as [|n B] eqn:EB; [by destruct l|].
  rewrite adj_cons in Hadj. destruct Hadj as (Hn & Hpn & HB).
  assert (Hnl : n ∈ l ++ [HEAD]) by (rewrite EB; set_solver).
  rewrite Forall_forall in Hlt. apply NoDup_cons in Hnd as [HH Hnd].
  apply NoDup_cons in Hnd as [Hbl Hnd].
  destruct (link_front_links bs b Hlen Hb) as (Hsame & HN & HP).
  { rewrite Hn. by apply node_lt with l. }
  split; [|done]. rewrite Hn in *. apply adj_cons. split_and!.
  - by rewrite HN, decide_True.
  - rewrite HP, decide_False by set_solver. by rewrite decide_True.
  - apply adj_cons. split_and!.
    + rewrite HN, decide_False by set_solver. by rewrite decide_True.
    + by rewrite HP, decide_True.
    + eapply adj_ext; [|exact HB]. intros c1 x z c2 E. split.
      * pose proof E as E'. rewrite <- EB in E'. apply pair_in_init in E'.
        rewrite HN, !decide_False by set_solver. done.
      * apply pair_in_tail in E.
        assert (NoDup (n :: B)) as [Hnn _]%NoDup_cons.
        { rewrite <- EB. apply NoDup_app. split_and!; [done|set_solver|apply NoDup_singleton]. }
        assert (z ∈ l ++ [HEAD]) by (rewrite EB; set_solver).
        rewrite HP, !decide_False by set_solver. done.
Qed.

(** The pointer assignments of brelse move [b] to the front of the LRU list. *)
Lemma lru_move_front bs l1 b l2 : lru bs (l1 ++ b :: l2) →
  lru (link_front b (unlink_buf b bs)) (b :: l1 ++ l2) ∧
  same_payload bs (link_front b (unlink_buf b bs)).
Proof.
  intros Hlru. pose proof (lru_NoDup _ _ Hlru) as Hnd.
  assert (Hin : ∀ i, i ∈ l1 ++ b :: l2 → (i < NBUF)%nat) by (intros i; by apply (lru_elem bs)).
  destruct Hlru as (Hlen & Hp & Hadj).
  destruct (unlink_adj bs l1 b l2) as [Ha [Hl Hs]]; [done|done| |done|].
  { apply Forall_forall. intros i Hi. specialize (Hin i). set_solver by lia. }
  assert (Hnd' : NoDup (HEAD :: b :: l1 ++ l2)).
  { by rewrite Permutation_middle. }
  destruct (link_front_adj (unlink_buf b bs) (l1 ++ l2) b) as [Ha' [Hl' Hs']];
    [lia|apply Hin; set_solver|done| |done|].
  { apply Forall_forall. intros i Hi. specialize (Hin i). set_solver by lia. }
  split; [|by eapply same_payload_trans]. split_and!; [lia| |done].
  by rewrite Permutation_middle.
Qed.

(** ** bget: what the two walks find *)

Definition hit (bs : list buf) (dv sec : Z) (i : nat) : bool :=
  (dev (getb bs i) =? dv) && (sector (getb bs i) =? sec).
Definition busy (bs : list buf) (i : nat) : bool := has (flags (getb bs i)) B_BUSY.
Definition reusable (bs : list buf) (i : nat) : bool :=
  (Z.land (flags (getb bs i)) B_BUSY =? 0) && (Z.land (flags (getb bs i)) B_DIRTY =? 0).

Definition mark_busy (b : nat) : bstate → bstate :=
  updb b (λ b, set_flags (Z.lor (flags b) B_BUSY) b).
Definition recycle (b : nat) (dv sec : Z) (s : bstate) : bstate :=
  updb b (set_flags B_BUSY) (updb b (set_sector sec) (updb b (set_dev dv) s)).

Lemma bget_cached_walk dv sec k s : ∀ fuel p l,
  adj (bufs s) (p :: l ++ [HEAD]) → HEAD ∉ l → (length l < fuel)%nat →
  bget_cached fuel (nx (bufs s) p) dv sec k s =
    match List.find (hit (bufs s) dv sec) l with
    | None => Done None k s
    | Some b =>
      if busy (bufs s) b then sleep (CBuf b) LBcache k s
      else (release LBcache;; mret (Some b)) k (mark_busy b s)
    end.
Proof.
  induction fuel as [|f IH]; intros p l Hadj Hh Hlen; [lia|].
  destruct l as [|b l]; simpl in Hadj.
  - destruct Hadj as (-> & _). cbn [bget_cached List.find]. by rewrite decide_True.
  - destruct Hadj as (Hnx & _ & Hadj). rewrite Hnx. cbn [bget_cached List.find].
    rewrite decide_False by (intros ->; set_solver).
    unfold mbind, M_bind. rewrite gets_eq. unfold hit at 1, busy, theb.
    destruct (_ && _).
    + by destruct (has _ _).
    + apply IH; [done|set_solver|simpl in Hlen; lia].
Qed.

Lemma bget_recycle_walk dv sec k s : ∀ fuel q l,
  adj (bufs s) ((HEAD :: reverse l) ++ [q]) → HEAD ∉ l → (length l < fuel)%nat →
  bget_recycle fuel (pv (bufs s) q) dv sec k s =
    match List.find (reusable (bufs s)) l with
    | None => Panicked "bget: no buffers"
    | Some b => (release LBcache;; mret b) k (recycle b dv sec s)
    end.
Proof.
  induction fuel as [|f IH]; intros q l Hadj Hh Hlen; [lia|].
  destruct l as [|b l].
  - destruct Hadj as (_ & -> & _). cbn [bget_recycle List.find]. by rewrite decide_True.
  - rewrite reverse_cons in Hadj.
    replace ((HEAD :: reverse l ++ [b]) ++ [q]) with ((HEAD :: reverse l) ++ b :: [q]) in Hadj
      by (simpl; by rewrite <- app_assoc).
    apply adj_app in Hadj as [Hadj (_ & Hpv & _)]. rewrite Hpv.
    cbn [bget_recycle List.find].
    rewrite decide_False by (intros ->; set_solver).
    unfold mbind, M_bind. rewrite gets_eq. unfold reusable at 1, theb.
    destruct (_ && _); [done|]. apply IH; [done|set_solver|simpl in Hlen; lia].
Qed.

Lemma bget_eq (dv sec : Z) (k : kctx) (s : bstate) (l : list nat) :
  lru (bufs s) l → held k = [] →
  bget dv sec k s =
    match List.find (hit (bufs s) dv sec) l with
    | Some b =>
      if busy (bufs s) b then Blocked (CBuf b) k s else Done b k (mark_busy b s)
    | None =>
      match List.find (reusable (bufs s)) (reverse l) with
      | Some b => Done b k (recycle b dv sec s)
      | None => Panicked "bget: no buffers"
      end
    end.
Proof.
  intros Hlru Hk. pose proof (lru_NoDup _ _ Hlru) as [Hh _]%NoDup_cons.
  destruct Hlru as (Hlen & Hp & Hadj). unfold bget. destruct k as [h w]. simpl in Hk. subst h.
  mgo. assert (Hll : length l = NBUF) by (by rewrite Hp, length_seq).
  fold (nx (bufs s) HEAD).
  change (next (theb HEAD s)) with (nx (bufs s) HEAD).
  rewrite (bget_cached_walk dv sec _ s (S NBUF) HEAD l) by (done || lia).
  destruct (List.find _ l) as [b|].
  - destruct (busy (bufs s) b).
    + by rewrite sleep_eq.
    + by mgo.
  - mgo. change (prev (theb HEAD s)) with (pv (bufs s) HEAD).
    rewrite (bget_recycle_walk dv sec _ s (S NBUF) HEAD (reverse l)).
    + destruct (List.find _ (reverse l)); by mgo.
    + by rewrite reverse_involutive.
    + by rewrite elem_of_reverse.
    + rewrite length_reverse. lia.
Qed.

(** Bget, on every branch.  If the sector is cached and free it returns
    that buffer marked B_BUSY; if it is cached and busy the caller sleeps on it;
    otherwise it takes the least recently used buffer that is neither busy nor
    dirty, relabels it and marks it busy (and not valid); with no such buffer it
    panics.  The lock is released in every case. *)
Theorem bget_cases (dv sec : Z) (k : kctx) (s : bstate) (l : list nat) :
  lru (bufs s) l → held k = [] →
  bget dv sec k s =
    match List.find (hit (bufs s) dv sec) l with
    | Some b =>
      if busy (bufs s) b then Blocked (CBuf b) k s else Done b k (mark_busy b s)
    | None =>
      match List.find (reusable (bufs s)) (reverse l) with
      | Some b => Done b k (recycle b dv sec s)
      | None => Panicked "bget: no buffers"
      end
    end.
Proof. exact (bget_eq dv sec k s l). Qed.

(** ** Flag bits *)

Definition isbusy (b : buf) : bool := Z.testbit (flags b) 0.
Definition isvalid (b : buf) : bool := Z.testbit (flags b) 1.
Definition isdirty (b : buf) : bool := Z.testbit (flags b) 2.

Lemma has_busy b : has (flags b) B_BUSY = isbusy b.
Proof. apply (has_pow2 _ 0). lia. Qed.
Lemma has_valid b : has (flags b) B_VALID = isvalid b.
Proof. apply (has_pow2 _ 1). lia. Qed.
Lemma has_dirty b : has (flags b) B_DIRTY = isdirty b.
Proof. apply (has_pow2 _ 2). lia. Qed.

Lemma land_busy b : (Z.land (flags b) B_BUSY =? 0) = negb (isbusy b).
Proof. rewrite <- has_busy. unfold has. by rewrite negb_involutive. Qed.
Lemma land_dirty b : (Z.land (flags b) B_DIRTY =? 0) = negb (isdirty b).
Proof. rewrite <- has_dirty. unfold has. by rewrite negb_involutive. Qed.

Lemma nothing_to_do b :
  (Z.land (flags b) (Z.lor B_VALID B_DIRTY) =? B_VALID) = isvalid b && negb (isdirty b).
Proof.
  unfold isvalid, isdirty. rewrite Z.land_lor_distr_r.
  change B_VALID with (2 ^ 1) at 1. change B_DIRTY with (2 ^ 2).
  rewrite !land_pow2 by lia.
  by destruct (Z.testbit (flags b) 1), (Z.testbit (flags b) 2).
Qed.

Ltac bits :=
  unfold isbusy, isvalid, isdirty; cbn [flags set_flags set_dev set_sector set_data];
  repeat first [rewrite Z.lor_spec | rewrite Z.land_spec | rewrite Z.lnot_spec by lia];
  cbn; rewrite ?orb_false_r, ?orb_true_r, ?andb_false_r, ?andb_true_r; try done.

Lemma bits_set_busy b :
  let b' := set_flags (Z.lor (flags b) B_BUSY) b in
  isbusy b' = true ∧ isvalid b' = isvalid b ∧ isdirty b' = isdirty b.
Proof. split_and!; bits. Qed.
Lemma bits_clear_busy b :
  let b' := set_flags (Z.land (flags b) (Z.lnot B_BUSY)) b in
  isbusy b' = false ∧ isvalid b' = isvalid b ∧ isdirty b' = isdirty b.
Proof. split_and!; bits. Qed.
Lemma bits_set_dirty b :
  let b' := set_flags (Z.lor (flags b) B_DIRTY) b in
  isbusy b' = isbusy b ∧ isvalid b' = isvalid b ∧ isdirty b' = true.
Proof. split_and!; bits. Qed.
Lemma bits_clear_dirty b :
  let b' := set_flags (Z.land (flags b) (Z.lnot B_DIRTY)) b in
  isbusy b' = isbusy b ∧ isvalid b' = isvalid b ∧ isdirty b' = false.
Proof. split_and!; bits. Qed.
Lemma bits_set_valid b :
  let b' := set_flags (Z.lor (flags b) B_VALID) b in
  isbusy b' = isbusy b ∧ isvalid b' = true ∧ isdirty b' = isdirty b.
Proof. split_and!; bits. Qed.

(** ** The cache as a view of the disk

    [view s sec] is what bread returns for [sec]: the cached copy when there is
    a valid one, the disk otherwise. *)

Definition cached (s : bstate) (sec : Z) : option nat :=
  List.find (hit (bufs s) ROOTDEV sec) (seq 0 NBUF).
Definition view (s : bstate) (sec : Z) : block :=
  match cached s sec with
  | Some i => if isvalid (theb i s) then data (theb i s) else disk_at s sec
  | None => disk_at s sec
  end.

(** The invariant of the cache, with [B] the buffers held by the caller.  A
    buffer nobody holds is in step with the disk unless the log has pinned it
    with B_DIRTY. *)
Record cache_ok (B : list nat) (s : bstate) : Prop := CacheOk {
  co_lru : ∃ l, lru (bufs s) l;
  co_busy : ∀ i, (i < NBUF)%nat → isbusy (theb i s) = true ↔ i ∈ B;
  co_dev : ∀ i, (i < NBUF)%nat → dev (theb i s) = ROOTDEV ∨ dev (theb i s) = u32 (-1);
  co_uniq : ∀ i j, (i < NBUF)%nat → (j < NBUF)%nat →
    dev (theb i s) = ROOTDEV → dev (theb j s) = ROOTDEV →
    sector (theb i s) = sector (theb j s) → i = j;
  co_data : ∀ i, (i < NBUF)%nat → length (data (theb i s)) = Z.to_nat BSIZE;
  co_range : ∀ i, (i < NBUF)%nat → dev (theb i s) = ROOTDEV →
    0 ≤ sector (theb i s) < disksize s;
  co_dirty : ∀ i, (i < NBUF)%nat → isdirty (theb i s) = true →
    isvalid (theb i s) = true ∧ dev (theb i s) = ROOTDEV;
  co_sync : ∀ i, (i < NBUF)%nat → i ∉ B → dev (theb i s) = ROOTDEV →
    isvalid (theb i s) = true → isdirty (theb i s) = false →
    data (theb i s) = disk_at s (sector (theb i s));
  co_disk : ∀ sec, length (disk_at s sec) = Z.to_nat BSIZE
}.

Section cache.
Implicit Types (s : bstate) (B : list nat) (i j : nat).

Lemma cache_length B s : cache_ok B s → length (bufs s) = S NBUF.
Proof. intros [[l (H & _)] _ _ _ _ _ _ _ _]. done. Qed.

Lemma theb_updb s i f j : (i < length (bufs s))%nat →
  theb j (updb i f s) = if decide (i = j) then f (theb i s) else theb j s.
Proof. apply getb_upd. Qed.

Lemma updb_updb s i f g : (i < length (bufs s))%nat →
  updb i f (updb i g s) = updb i (f ∘ g) s.
Proof.
  intros Hi. unfold updb, set_bufs. simpl. f_equal. unfold upd at 1.
  rewrite getb_upd, decide_True by done. unfold upd. by rewrite list_insert_insert_eq.
Qed.

Lemma lru_upd bs l i f : lru bs l →
  (∀ b, next (f b) = next b ∧ prev (f b) = prev b) → lru (upd i f bs) l.
Proof.
  intros (Hlen & Hp & Hadj) Hf. split_and!; [by rewrite length_upd|done|].
  eapply adj_ext; [|exact Hadj]. intros c1 x y c2 _. unfold nx, pv.
  split; (rewrite (upd_proj next) || rewrite (upd_proj prev)); try done; apply Hf.
Qed.

(** One buffer of the cache changes to [f b]. *)
Lemma cache_ok_upd B B' s i f : cache_ok B s → (i < NBUF)%nat →
  (∀ b, next (f b) = next b ∧ prev (f b) = prev b) →
  let b := f (theb i s) in
  (isbusy b = true ↔ i ∈ B') → (∀ j, j ≠ i → j ∈ B' ↔ j ∈ B) →
  dev b = ROOTDEV ∨ dev b = u32 (-1) →
  (dev b = ROOTDEV → 0 ≤ sector b < disksize s ∧
    ∀ j, (j < NBUF)%nat → j ≠ i → dev (theb j s) = ROOTDEV → sector (theb j s) ≠ sector b) →
  length (data b) = Z.to_nat BSIZE →
  (isdirty b = true → isvalid b = true ∧ dev b = ROOTDEV) →
  (i ∉ B' → dev b = ROOTDEV → isvalid b = true → isdirty b = false →
    data b = disk_at s (sector b)) →
  cache_ok B' (updb i f s).
Proof.
  intros Hok Hi Hlinks b Hbusy HB Hdev Hsec Hdata Hdirty Hsync.
  pose proof (cache_length _ _ Hok) as Hlen.
  destruct Hok as [[l Hl] H1 H2 H3 H4 H5 H6 H7 H8].
  assert (Hth : ∀ j, theb j (updb i f s) = if decide (i = j) then b else theb j s).
  { intros j. by rewrite theb_updb by lia. }
  split; try done.
  - exists l. by apply lru_upd.
  - intros j Hj. rewrite Hth. case_decide; [by subst|]. rewrite HB by done. by apply H1.
  - intros j Hj. rewrite Hth. case_decide; [done|]. by apply H2.
  - intros j1 j2 Hj1 Hj2. rewrite !Hth. do 2 case_decide; subst; try done.
    + intros Hd1 Hd2 Hs. exfalso. by apply (proj2 (Hsec Hd1) j2).
    + intros Hd1 Hd2 Hs. exfalso. by apply (proj2 (Hsec Hd2) j1).
    + by apply H3.
  - intros j Hj. rewrite Hth. case_decide; [done|]. by apply H4.
  - intros j Hj. rewrite Hth. case_decide; [by apply Hsec|]. by apply H5.
  - intros j Hj. rewrite Hth. case_decide; [done|]. by apply H6.
  - intros j Hj. rewrite Hth. case_decide; [by subst|]. rewrite HB by done. by apply H7.
Qed.

(** The same, when the buffer keeps its label. *)
Lemma cache_ok_keep B B' s i f : cache_ok B s → (i < NBUF)%nat →
  (∀ b, next (f b) = next b ∧ prev (f b) = prev b) →
  (∀ b, dev (f b) = dev b ∧ sector (f b) = sector b) →
  let b := f (theb i s) in
  (isbusy b = true ↔ i ∈ B') → (∀ j, j ≠ i → j ∈ B' ↔ j ∈ B) →
  length (data b) = Z.to_nat BSIZE →
  (isdirty b = true → isvalid b = true ∧ dev (theb i s) = ROOTDEV) →
  (i ∉ B' → dev (theb i s) = ROOTDEV → isvalid b = true → isdirty b = false →
    data b = disk_at s (sector (theb i s))) →
  cache_ok B' (updb i f s).
Proof.
  intros Hok Hi Hl Hlab b Hbusy HB Hdata Hdirty Hsync.
  destruct (Hlab (theb i s)) as [Ed Es]. fold b in Ed, Es.
  apply (cache_ok_upd B); try done; fold b; rewrite ?Ed, ?Es; try done.
  - by apply (co_dev _ _ Hok).
  - intros Hd. split; [by apply (co_range _ _ Hok)|]. intros j Hj Hji Hd' Hs.
    apply Hji. by apply (co_uniq _ _ Hok).
Qed.

Lemma hit_true bs dv sec i : hit bs dv sec i = true ↔
  dev (getb bs i) = dv ∧ sector (getb bs i) = sec.
Proof. unfold hit. by rewrite andb_true_iff, !Z.eqb_eq. Qed.

(** Searched in any order, there is one buffer for a sector. *)
Lemma find_hit_spec B s l sec i : cache_ok B s → Permutation l (seq 0 NBUF) →
  List.find (hit (bufs s) ROOTDEV sec) l = Some i ↔
    (i < NBUF)%nat ∧ dev (theb i s) = ROOTDEV ∧ sector (theb i s) = sec.
Proof.
  intros Hok Hl.
  assert (Hin : ∀ j, In j l ↔ (j < NBUF)%nat).
  { intros j. rewrite <- list_elem_of_In, Hl, elem_of_seq. lia. }
  split.
  - intros [Hi Hh]%List.find_some. apply hit_true in Hh. by apply Hin in Hi.
  - intros (Hi & Hd & Hs). destruct (List.find _ _) as [j|] eqn:Hf.
    + apply List.find_some in Hf as [Hj [Hd' Hs']%hit_true]. f_equal.
      apply (co_uniq _ _ Hok); unfold theb in *; try done; [by apply Hin|congruence].
    + pose proof (List.find_none _ _ Hf i (proj2 (Hin i) Hi)) as Hn.
      by rewrite (proj2 (hit_true _ _ _ _)) in Hn.
Qed.

Lemma find_hit_cached B s l sec : cache_ok B s → Permutation l (seq 0 NBUF) →
  List.find (hit (bufs s) ROOTDEV sec) l = cached s sec.
Proof.
  intros Hok Hl. unfold cached. apply option_eq. intros i.
  by rewrite !(find_hit_spec B) by done.
Qed.

Lemma cached_spec B s sec i : cache_ok B s →
  cached s sec = Some i ↔
    (i < NBUF)%nat ∧ dev (theb i s) = ROOTDEV ∧ sector (theb i s) = sec.
Proof. intros Hok. by apply (find_hit_spec B). Qed.

Lemma cached_None B s sec : cache_ok B s → cached s sec = None →
  ∀ j, (j < NBUF)%nat → dev (theb j s) = ROOTDEV → sector (theb j s) ≠ sec.
Proof.
  intros Hok Hn j Hj Hd Hs. assert (cached s sec = Some j) by (by apply (cached_spec B)).
  congruence.
Qed.

Lemma view_cached B s i : cache_ok B s → (i < NBUF)%nat → dev (theb i s) = ROOTDEV →
  view s (sector (theb i s)) =
    if isvalid (theb i s) then data (theb i s) else disk_at s (sector (theb i s)).
Proof.
  intros Hok Hi Hd. unfold view.
  by rewrite (proj2 (cached_spec B s (sector (theb i s)) i Hok)).
Qed.

(** The view after buffer [i] of sector [sec] changes to [b']: only the view of
    the old and the new sector of [i] can move. *)
Lemma view_upd B B' s i f sec : cache_ok B s → cache_ok B' (updb i f s) → (i < NBUF)%nat →
  let b := theb i s in let b' := f b in
  view (updb i f s) sec =
    if decide (dev b' = ROOTDEV ∧ sector b' = sec)
    then if isvalid b' then data b' else disk_at s sec
    else if decide (dev b = ROOTDEV ∧ sector b = sec) then disk_at s sec else view s sec.
Proof.
  intros Hok Hok' Hi b b'. pose proof (cache_length _ _ Hok) as Hlen.
  assert (Hth : ∀ j, theb j (updb i f s) = if decide (i = j) then b' else theb j s).
  { intros j. by rewrite theb_updb by lia. }
  case_decide as Hb'.
  - unfold view. rewrite (proj2 (cached_spec B' _ sec i Hok')).
    + by rewrite Hth, decide_True.
    + rewrite Hth, decide_True by done. tauto.
  - assert (Hnone : ∀ j, j ≠ i → cached (updb i f s) sec = Some j ↔ cached s sec = Some j).
    { intros j Hj. rewrite (cached_spec B'), (cached_spec B) by done.
      by rewrite Hth, decide_False. }
    assert (Hni : cached (updb i f s) sec ≠ Some i).
    { rewrite (cached_spec B') by done. rewrite Hth, decide_True by done. tauto. }
    unfold view. case_decide as Hb.
    + assert (Hc : cached s sec = Some i) by (apply (cached_spec B); tauto).
      destruct (cached (updb i f s) sec) as [j|] eqn:E; [|done].
      destruct (decide (j = i)) as [->|Hj]; [done|].
      pose proof (proj1 (Hnone j Hj) eq_refl). congruence.
    + destruct (cached s sec) as [j|] eqn:E.
      * assert (Hj : j ≠ i).
        { intros ->. apply (cached_spec B) in E; tauto. }
        rewrite (proj2 (Hnone j Hj) eq_refl). by rewrite Hth, decide_False.
      * destruct (cached (updb i f s) sec) as [j|] eqn:E'; [|done].
        destruct (decide (j = i)) as [->|Hj]; [done|].
        by pose proof (proj1 (Hnone j Hj) eq_refl).
Qed.
End cache.
