(* ===== verification/BioSpec.v ===== *)
(** * What the buffer cache promises to its callers

    The specifications of bread, bwrite and brelse over the view of the disk:
    log.c and fs.c are verified against these, never against the linked list. *)

From stdpp Require Import base gmap list strings.
From Stdlib Require Import ZArith Lia Permutation.
From S2P Require Import Prelude Params Kmonad Bio.

(** Is the cached copy of [sec] pinned by the log? *)
Definition dirty_at (s : bstate) (sec : Z) : bool :=
  match cached s sec with Some i => isdirty (theb i s) | None => false end.

(** A buffer that bget may recycle. *)
Definition room (B : list nat) (s : bstate) : Prop :=
  ∃ i, (i < NBUF)%nat ∧ i ∉ B ∧ isdirty (theb i s) = false.

(** [s'] differs from [s] in the cache only. *)
Definition same_disk (s s' : bstate) : Prop :=
  disksize s' = disksize s ∧ memdisk s' = memdisk s ∧ dwrites s' = dwrites s.

Lemma same_disk_at s s' sec : same_disk s s' → disk_at s' sec = disk_at s sec.
Proof. intros (_ & E & _). unfold disk_at. by rewrite E. Qed.

Lemma same_disk_updb s i f : same_disk s (updb i f s).
Proof. done. Qed.

Lemma same_disk_trans s1 s2 s3 : same_disk s1 s2 → same_disk s2 s3 → same_disk s1 s3.
Proof. intros (A1 & A2 & A3) (B1 & B2 & B3). repeat split; congruence. Qed.

#[export] Hint Resolve same_disk_updb same_disk_trans : xv6.

Section specs.
Implicit Types (s : bstate) (B : list nat) (i j : nat) (k : kctx).

Lemma dirty_upd B B' s i f sec :
  cache_ok B s → cache_ok B' (updb i f s) → (i < NBUF)%nat →
  let b := theb i s in let b' := f b in
  dirty_at (updb i f s) sec =
    if decide (dev b' = ROOTDEV ∧ sector b' = sec) then isdirty b'
    else if decide (dev b = ROOTDEV ∧ sector b = sec) then false else dirty_at s sec.
Proof.
  intros Hok Hok' Hi b b'. pose proof (cache_length _ _ Hok) as Hlen.
  assert (Hth : ∀ j, theb j (updb i f s) = if decide (i = j) then b' else theb j s).
  { intros j. by rewrite theb_updb by lia. }
  unfold dirty_at. destruct (cached (updb i f s) sec) as [j|] eqn:E'.
  - apply (cached_spec B') in E' as (Hj & Hd & Hs); [|done]. rewrite Hth in *.
    case_decide as Hij; [by rewrite decide_True|]. rewrite decide_False.
    2: { intros [Hd' Hs']. apply Hij.
         apply (co_uniq _ _ Hok' i j); try done; rewrite !Hth, ?(decide_True (P := i = i)),
           ?decide_False by done; congruence. }
    assert (Hc : cached s sec = Some j) by (by apply (cached_spec B)). rewrite Hc.
    rewrite decide_False; [done|]. intros [Hd' Hs']. apply Hij.
    apply (co_uniq _ _ Hok i j); try done. unfold b in *. congruence.
  - rewrite decide_False.
    2: { intros [Hd Hs]. pose proof (cached_None _ _ _ Hok' E' i Hi) as Hn.
         rewrite Hth, decide_True in Hn by done. tauto. }
    case_decide as Hb; [done|]. destruct (cached s sec) as [j|] eqn:E; [|done].
    apply (cached_spec B) in E as (Hj & Hd & Hs); [|done]. exfalso.
    pose proof (cached_None _ _ _ Hok' E' j Hj) as Hn. rewrite Hth in Hn.
    case_decide; [subst j; tauto|tauto].
Qed.

(** bget marks a free cached buffer busy. *)
Lemma mark_busy_ok B s i : cache_ok B s → (i < NBUF)%nat → i ∉ B →
  cache_ok (i :: B) (mark_busy i s).
Proof.
  intros Hok Hi HiB. destruct (bits_set_busy (theb i s)) as (E1 & E2 & E3).
  apply (cache_ok_keep B); try done; rewrite ?E1, ?E2, ?E3.
  - set_solver.
  - set_solver.
  - by apply (co_data _ _ Hok).
  - by apply (co_dirty _ _ Hok).
  - set_solver.
Qed.

Definition recycled (sec : Z) (b : buf) : buf :=
  set_flags B_BUSY (set_sector sec (set_dev ROOTDEV b)).

Lemma recycle_eq B s i sec : cache_ok B s → (i < NBUF)%nat →
  recycle i ROOTDEV sec s = updb i (recycled sec) s.
Proof.
  intros Hok Hi. pose proof (cache_length _ _ Hok). unfold recycle.
  rewrite !updb_updb; [done|..]; unfold updb; simpl; rewrite ?length_upd; lia.
Qed.

(** bget gives a clean buffer to an uncached sector. *)
Lemma recycle_ok B s i sec : cache_ok B s → (i < NBUF)%nat → i ∉ B →
  0 ≤ sec < disksize s → cached s sec = None →
  cache_ok (i :: B) (updb i (recycled sec) s).
Proof.
  intros Hok Hi HiB Hsec Hn. apply (cache_ok_upd B); try done.
  - set_solver.
  - set_solver.
  - by left.
  - intros _. split; [done|]. intros j Hj _ Hd. by apply (cached_None B).
  - by apply (co_data _ _ Hok).
Qed.

(** The two things memide's iderw does for a held buffer. *)
Lemma iderw_read i k s : let b := theb i s in
  isbusy b = true → isvalid b = false → isdirty b = false → dev b = ROOTDEV →
  sector b < disksize s → (i < length (bufs s))%nat →
  iderw i k s = Done tt k (updb i (λ b, set_flags (Z.lor (flags b) B_VALID)
                     (set_data (disk_at s (sector b)) b)) s).
Proof.
  intros b Hb Hv Hd Hdev Hs Hi. unfold iderw. mgo. fold b.
  rewrite has_busy, Hb, nothing_to_do, Hv, Hdev, has_dirty, Hd.
  change (ROOTDEV =? 1) with true. cbn [negb andb].
  destruct (Z.geb_spec (sector b) (disksize s)); [lia|]. mgo.
  by rewrite updb_updb.
Qed.

Lemma iderw_write i k s : let b := theb i s in
  isbusy b = true → isdirty b = true → dev b = ROOTDEV →
  sector b < disksize s → (i < length (bufs s))%nat →
  iderw i k s = Done tt k (disk_write (sector b) (data b)
    (updb i (λ b, set_flags (Z.lor (Z.land (flags b) (Z.lnot B_DIRTY)) B_VALID) b) s)).
Proof.
  intros b Hb Hd Hdev Hs Hi. unfold iderw. mgo. fold b.
  rewrite has_busy, Hb, nothing_to_do, Hdev, has_dirty, Hd, andb_false_r.
  change (ROOTDEV =? 1) with true. cbn [negb].
  destruct (Z.geb_spec (sector b) (disksize s)); [lia|]. mgo.
  change (updb i ?f (disk_write ?x ?d ?t)) with (disk_write x d (updb i f t)).
  by rewrite updb_updb.
Qed.
(** After bget or bread: the caller holds [b] for sector [sec]; nothing a
    reader can observe has changed. *)
Record holding (b : nat) (sec : Z) (B : list nat) (s s' : bstate) : Prop := Holding {
  ho_ok : cache_ok (b :: B) s';
  ho_new : b ∉ B;
  ho_lt : (b < NBUF)%nat;
  ho_dev : dev (theb b s') = ROOTDEV;
  ho_sec : sector (theb b s') = sec;
  ho_view : ∀ x, view s' x = view s x;
  ho_dirty : ∀ x, dirty_at s' x = dirty_at s x;
  ho_disk : same_disk s s';
  ho_frame : ∀ i, i ≠ b → theb i s' = theb i s
}.

Ltac ho H := first
  [ exact (ho_lt _ _ _ _ _ H) | exact (ho_dev _ _ _ _ _ H) | exact (ho_sec _ _ _ _ _ H)
  | exact (ho_ok _ _ _ _ _ H) | exact (ho_new _ _ _ _ _ H) ].

Lemma hold_cached B s b sec : cache_ok B s → cached s sec = Some b → b ∉ B →
  holding b sec B s (mark_busy b s).
Proof.
  intros Hok Hc HbB. pose proof (cache_length _ _ Hok).
  apply (cached_spec B) in Hc as (Hb & Hd & Hs); [|done].
  pose proof (mark_busy_ok B s b Hok Hb HbB) as Hok'.
  destruct (bits_set_busy (theb b s)) as (_ & E2 & E3).
  assert (Hth : theb b (mark_busy b s) = set_flags (Z.lor (flags (theb b s)) B_BUSY) (theb b s)).
  { unfold mark_busy. by rewrite theb_updb, decide_True by lia. }
  split; try done; rewrite ?Hth; try done.
  - intros x. unfold mark_busy. rewrite (view_upd B (b :: B)) by done. rewrite E2. simpl.
    case_decide as Hx; [|by rewrite ?decide_False].
    destruct Hx as [_ <-]. by rewrite (view_cached B).
  - intros x. unfold mark_busy. rewrite (dirty_upd B (b :: B)) by done. rewrite E3. simpl.
    case_decide as Hx; [|by rewrite ?decide_False]. unfold dirty_at.
    by rewrite (proj2 (cached_spec B s x b Hok)).
  - intros i Hi. unfold mark_busy. by rewrite theb_updb, decide_False by (congruence || lia).
Qed.

Lemma hold_recycled B s b sec : cache_ok B s → cached s sec = None → (b < NBUF)%nat →
  b ∉ B → isdirty (theb b s) = false → 0 ≤ sec < disksize s →
  holding b sec B s (updb b (recycled sec) s).
Proof.
  intros Hok Hc Hb HbB Hnd Hsec. pose proof (cache_length _ _ Hok).
  pose proof (recycle_ok B s b sec Hok Hb HbB Hsec Hc) as Hok'.
  assert (Hth : theb b (updb b (recycled sec) s) = recycled sec (theb b s)).
  { by rewrite theb_updb, decide_True by lia. }
  split; try done; rewrite ?Hth; try done.
  - intros x. rewrite (view_upd B (b :: B)) by done. simpl.
    case_decide as Hx.
    + destruct Hx as [_ <-]. unfold view. by rewrite Hc.
    + case_decide as Hx'; [|done]. destruct Hx' as [Hd <-].
      rewrite (view_cached B) by done. destruct (isvalid (theb b s)) eqn:Hv; [|done].
      symmetry. by apply (co_sync _ _ Hok).
  - intros x. rewrite (dirty_upd B (b :: B)) by done. simpl.
    case_decide as Hx; [|case_decide as Hx'; [|done]].
    + destruct Hx as [_ <-]. unfold dirty_at. by rewrite Hc.
    + unfold dirty_at. rewrite (proj2 (cached_spec B s x b Hok)) by tauto. done.
  - intros i Hi. by rewrite theb_updb, decide_False by (congruence || lia).
Qed.

Definition fetched (s : bstate) (b : buf) : buf :=
  set_flags (Z.lor (flags b) B_VALID) (set_data (disk_at s (sector b)) b).

Lemma bits_fetched s b :
  isbusy (fetched s b) = isbusy b ∧ isvalid (fetched s b) = true ∧
  isdirty (fetched s b) = isdirty b.
Proof. unfold fetched. split_and!; bits. Qed.

Lemma hold_fetched B s0 s b sec : holding b sec B s0 s → isvalid (theb b s) = false →
  holding b sec B s0 (updb b (fetched s) s) ∧ isvalid (theb b (updb b (fetched s) s)) = true.
Proof.
  intros [Hok Hnew Hb Hd Hs Hv Hdi Hdk Hf] Hnv. pose proof (cache_length _ _ Hok).
  assert (Hnd : isdirty (theb b s) = false).
  { destruct (isdirty (theb b s)) eqn:E; [|done]. apply (co_dirty _ _ Hok) in E; [|done].
    destruct E. congruence. }
  destruct (bits_fetched s (theb b s)) as (E1 & E2 & E3).
  assert (Hth : theb b (updb b (fetched s) s) = fetched s (theb b s)).
  { by rewrite theb_updb, decide_True by lia. }
  assert (Hok' : cache_ok (b :: B) (updb b (fetched s) s)).
  { apply (cache_ok_keep (b :: B)); try done; rewrite ?E1, ?E2, ?E3.
    - by apply (co_busy _ _ Hok).
    - apply (co_disk _ _ Hok). }
  split; [|by rewrite Hth]. split; try done; rewrite ?Hth; try done.
  - intros x. rewrite (view_upd (b :: B) (b :: B)), <- Hv by done.
    rewrite E2. simpl. case_decide as Hx; [|by rewrite ?decide_False].
    destruct Hx as [_ <-]. rewrite (view_cached (b :: B)) by done. by rewrite Hnv.
  - intros x. rewrite (dirty_upd (b :: B) (b :: B)), <- Hdi by done.
    rewrite E3. simpl. case_decide as Hx; [|by rewrite ?decide_False].
    unfold dirty_at. by rewrite (proj2 (cached_spec (b :: B) s x b Hok)) by tauto.
  - intros i Hi. rewrite theb_updb, decide_False by (congruence || lia). by apply Hf.
Qed.

Lemma room_reusable B s l : cache_ok B s → room B s → Permutation l (seq 0 NBUF) →
  ∃ b, List.find (reusable (bufs s)) (reverse l) = Some b ∧ (b < NBUF)%nat ∧ b ∉ B ∧
    isdirty (theb b s) = false.
Proof.
  intros Hok (i & Hi & HiB & Hd) Hl.
  assert (Hin : ∀ j, In j (reverse l) ↔ (j < NBUF)%nat).
  { intros j. rewrite <- list_elem_of_In, elem_of_reverse, Hl, elem_of_seq. lia. }
  assert (Hre : ∀ j, reusable (bufs s) j = negb (isbusy (theb j s)) && negb (isdirty (theb j s))).
  { intros j. unfold reusable. by rewrite land_busy, land_dirty. }
  destruct (List.find _ _) as [b|] eqn:Hf.
  - apply List.find_some in Hf as [Hb Hr]. apply Hin in Hb. rewrite Hre in Hr.
    apply andb_true_iff in Hr as [Hbz%negb_true_iff Hdz%negb_true_iff].
    exists b. split_and!; try done. intros HbB. apply (co_busy _ _ Hok b Hb) in HbB. congruence.
  - pose proof (List.find_none _ _ Hf i (proj2 (Hin i) Hi)) as Hn. rewrite Hre, Hd in Hn.
    destruct (isbusy (theb i s)) eqn:E; [|done]. by apply (co_busy _ _ Hok) in E.
Qed.

(** bread returns a held, valid buffer with what the view has for the sector. *)
Lemma bread_spec B s k sec : cache_ok B s → held k = [] → 0 ≤ sec < disksize s →
  (∀ i, cached s sec = Some i → i ∉ B) → (cached s sec = None → room B s) →
  ∃ b s', bread ROOTDEV sec k s = Done b k s' ∧ holding b sec B s s' ∧
    isvalid (theb b s') = true ∧ data (theb b s') = view s sec.
Proof.
  intros Hok Hk Hsec HB Hroom. destruct (co_lru _ _ Hok) as [l Hl].
  assert (Hget : ∃ b s1, bget ROOTDEV sec k s = Done b k s1 ∧ holding b sec B s s1).
  { rewrite (bget_eq ROOTDEV sec k s l Hl Hk). destruct Hl as (_ & Hp & _).
    rewrite (find_hit_cached B) by done. destruct (cached s sec) as [b|] eqn:Hc.
    - specialize (HB b eq_refl). apply (cached_spec B) in Hc as Hb; [|done].
      unfold busy. fold (theb b s). rewrite has_busy.
      destruct (isbusy (theb b s)) eqn:E; [by apply (co_busy _ _ Hok) in E; [|apply Hb]|].
      eauto using hold_cached.
    - destruct (room_reusable B s l Hok (Hroom eq_refl) Hp) as (b & -> & Hb & HbB & Hd).
      rewrite (recycle_eq B) by done. eauto using hold_recycled. }
  destruct Hget as (b & s1 & Eg & Hh). unfold bread, mbind, M_bind. rewrite Eg. mgo.
  assert (Hdata : ∀ s2, holding b sec B s s2 → isvalid (theb b s2) = true →
    data (theb b s2) = view s sec).
  { intros s2 H2 Hv. rewrite <- (ho_view _ _ _ _ _ H2), <- (ho_sec _ _ _ _ _ H2).
    rewrite (view_cached _ _ _ (ho_ok _ _ _ _ _ H2)) by ho H2. by rewrite Hv. }
  rewrite has_valid. destruct (isvalid (theb b s1)) eqn:Hv; simpl.
  - exists b, s1. auto.
  - destruct (hold_fetched B s s1 b sec Hh Hv) as [Hh' Hv'].
    pose proof (cache_length _ _ (ho_ok _ _ _ _ _ Hh)).
    rewrite (iderw_read b k s1); try done.
    + exists b, (updb b (fetched s1) s1). auto.
    + apply (co_busy _ _ (ho_ok _ _ _ _ _ Hh)); [ho Hh|set_solver].
    + destruct (isdirty (theb b s1)) eqn:E; [|done].
      apply (co_dirty _ _ (ho_ok _ _ _ _ _ Hh)) in E; [|ho Hh]. destruct E; congruence.
    + ho Hh.
    + apply (co_range _ _ (ho_ok _ _ _ _ _ Hh)); ho Hh.
    + pose proof (ho_lt _ _ _ _ _ Hh). lia.
Qed.

(** The caller overwrites the data of a buffer it holds. *)
Lemma set_data_spec B s b d : cache_ok B s → b ∈ B → (b < NBUF)%nat →
  dev (theb b s) = ROOTDEV → isvalid (theb b s) = true → length d = Z.to_nat BSIZE →
  let s' := updb b (set_data d) s in
  cache_ok B s' ∧ (∀ x, view s' x = if decide (sector (theb b s) = x) then d else view s x) ∧
  (∀ x, dirty_at s' x = dirty_at s x) ∧ theb b s' = set_data d (theb b s) ∧
  (∀ i, i ≠ b → theb i s' = theb i s).
Proof.
  intros Hok HbB Hb Hd Hv Hlen s'. pose proof (cache_length _ _ Hok).
  assert (Hok' : cache_ok B s').
  { apply (cache_ok_keep B); try done. by apply (co_busy _ _ Hok). }
  split_and!; [done|..]; subst s'.
  - intros x. rewrite (view_upd B B) by done. simpl.
    replace (isvalid (set_data d (theb b s))) with true by (by rewrite <- Hv).
    destruct (decide (sector (theb b s) = x)).
    + by rewrite decide_True.
    + rewrite !decide_False by tauto. done.
  - intros x. rewrite (dirty_upd B B) by done. simpl. case_decide as Hx; [|done].
    unfold dirty_at. by rewrite (proj2 (cached_spec B s x b Hok)) by tauto.
  - by rewrite theb_updb, decide_True by lia.
  - intros i Hi. by rewrite theb_updb, decide_False by (congruence || lia).
Qed.

Lemma disk_at_write s sec d x :
  disk_at (disk_write sec d s) x = if decide (sec = x) then d else disk_at s x.
Proof. unfold disk_at, disk_write. simpl. rewrite lookup_insert. by case_decide. Qed.

(** A write to the sector of a held buffer keeps the cache in order. *)
Lemma disk_write_ok B s b d : cache_ok B s → b ∈ B → (b < NBUF)%nat →
  dev (theb b s) = ROOTDEV → length d = Z.to_nat BSIZE →
  cache_ok B (disk_write (sector (theb b s)) d s).
Proof.
  intros Hok HbB Hb Hd Hlen. destruct Hok as [H0 H1 H2 H3 H4 H5 H6 H7 H8].
  split; try done.
  - intros i Hi HiB Hdi Hv Hnd. rewrite disk_at_write, decide_False; [by apply H7|].
    intros E. apply HiB. by rewrite <- (H3 b i).
  - intros x. rewrite disk_at_write. by case_decide.
Qed.

(** A write under a valid cached copy is not seen by readers. *)
Lemma view_disk_write B s b d x : cache_ok B s → (b < NBUF)%nat →
  dev (theb b s) = ROOTDEV → isvalid (theb b s) = true →
  view (disk_write (sector (theb b s)) d s) x = view s x.
Proof.
  intros Hok Hb Hd Hv. unfold view.
  change (cached (disk_write _ d s) x) with (cached s x). rewrite disk_at_write.
  destruct (decide (sector (theb b s) = x)) as [<-|Hx]; [|done].
  rewrite (proj2 (cached_spec B s _ b Hok)) by done.
  change (theb b (disk_write _ d s)) with (theb b s). by rewrite Hv.
Qed.

Definition written (b : buf) : buf :=
  set_flags (Z.lor (Z.land (Z.lor (flags b) B_DIRTY) (Z.lnot B_DIRTY)) B_VALID) b.

Lemma bits_written b :
  isbusy (written b) = isbusy b ∧ isvalid (written b) = true ∧ isdirty (written b) = false.
Proof. unfold written. split_and!; bits. Qed.

(** bwrite puts the held data on the disk and clears the pin. *)
Lemma bwrite_spec B s k b : cache_ok B s → b ∈ B → (b < NBUF)%nat →
  dev (theb b s) = ROOTDEV → isvalid (theb b s) = true →
  let s' := disk_write (sector (theb b s)) (data (theb b s)) (updb b written s) in
  bwrite b k s = Done tt k s' ∧ cache_ok B s' ∧ (∀ x, view s' x = view s x) ∧
  (∀ x, dirty_at s' x = if decide (sector (theb b s) = x) then false else dirty_at s x) ∧
  theb b s' = written (theb b s) ∧ (∀ i, i ≠ b → theb i s' = theb i s) ∧
  isdirty (theb b s') = false.
Proof.
  intros Hok HbB Hb Hd Hv s'. pose proof (cache_length _ _ Hok) as Hlen.
  assert (Hbusy : isbusy (theb b s) = true) by (by apply (co_busy _ _ Hok)).
  assert (Hth : theb b (updb b written s) = written (theb b s)).
  { by rewrite theb_updb, decide_True by lia. }
  destruct (bits_written (theb b s)) as (W1 & W2 & W3).
  assert (Hok1 : cache_ok B (updb b written s)).
  { apply (cache_ok_keep B); try done; rewrite ?W1, ?W2, ?W3; simpl; try done.
    - by apply (co_data _ _ Hok). }
  assert (Hok' : cache_ok B s').
  { subst s'. replace (sector (theb b s)) with (sector (theb b (updb b written s)))
      by (by rewrite Hth).
    apply disk_write_ok; try done; [by rewrite Hth|by apply (co_data _ _ Hok)]. }
  split_and!; try done.
  - unfold bwrite. mgo. rewrite land_busy, Hbusy. simpl.
    rewrite (iderw_write b k); try (rewrite theb_updb, decide_True by lia); simpl.
    + rewrite updb_updb by lia. done.
    + by rewrite (proj1 (bits_set_dirty _)).
    + by rewrite (proj2 (proj2 (bits_set_dirty _))).
    + done.
    + by apply (co_range _ _ Hok).
    + rewrite length_upd. lia.
  - intros x. subst s'. replace (sector (theb b s)) with (sector (theb b (updb b written s)))
      by (by rewrite Hth).
    rewrite (view_disk_write B) by (rewrite ?Hth; done).
    rewrite (view_upd B B) by done. rewrite W2. simpl.
    case_decide as Hx; [|by rewrite ?decide_False]. destruct Hx as [_ <-].
    rewrite (view_cached B) by done. by rewrite Hv.
  - intros x. subst s'. change (dirty_at (disk_write ?a ?d ?t) x) with (dirty_at t x).
    rewrite (dirty_upd B B) by done. rewrite W3. simpl.
    destruct (decide (sector (theb b s) = x)); [by rewrite decide_True|].
    rewrite !decide_False by tauto. done.
  - intros i Hi. subst s'. change (theb ?i (disk_write ?a ?d ?t)) with (theb i t).
    by rewrite theb_updb, decide_False by (congruence || lia).
  - subst s'. change (theb ?i (disk_write ?a ?d ?t)) with (theb i t). by rewrite Hth.
Qed.

(** Relinking the list changes nothing but the order of recycling. *)
Lemma payload_inv b b' : payload b' = payload b →
  flags b' = flags b ∧ dev b' = dev b ∧ sector b' = sector b ∧ data b' = data b.
Proof. unfold payload. by intros [= -> -> -> ->]. Qed.

Lemma payload_bits b b' : payload b' = payload b →
  isbusy b' = isbusy b ∧ isvalid b' = isvalid b ∧ isdirty b' = isdirty b.
Proof. intros (E & _)%payload_inv. unfold isbusy, isvalid, isdirty. by rewrite E. Qed.

Lemma cached_relink s bs sec : same_payload (bufs s) bs →
  cached (set_bufs bs s) sec = cached s sec.
Proof.
  intros [_ Hp]. unfold cached. cbn [bufs set_bufs]. generalize (seq 0 NBUF) as l.
  induction l as [|i l IH]; [done|]. cbn [List.find].
  destruct (payload_inv _ _ (Hp i)) as (_ & Ed & Es & _).
  unfold hit at 1 3. by rewrite Ed, Es, IH.
Qed.

Lemma view_relink s bs sec : same_payload (bufs s) bs →
  view (set_bufs bs s) sec = view s sec ∧ dirty_at (set_bufs bs s) sec = dirty_at s sec.
Proof.
  intros Hs. unfold view, dirty_at. rewrite cached_relink by done.
  destruct (cached s sec) as [i|]; [|done]. destruct Hs as [_ Hp].
  destruct (payload_inv _ _ (Hp i)) as (_ & _ & _ & Ed).
  destruct (payload_bits _ _ (Hp i)) as (_ & Ev & Edi).
  change (theb i (set_bufs bs s)) with (getb bs i). by rewrite Ev, Ed, Edi.
Qed.

Lemma cache_ok_relink B s bs l : cache_ok B s → same_payload (bufs s) bs → lru bs l →
  cache_ok B (set_bufs bs s).
Proof.
  intros [H0 H1 H2 H3 H4 H5 H6 H7 H8] [_ Hp] Hl.
  assert (P : ∀ i, payload (theb i (set_bufs bs s)) = payload (theb i s)) by exact Hp.
  assert (Q := λ i, payload_inv _ _ (P i)). assert (R := λ i, payload_bits _ _ (P i)).
  split; [by exists l|..|done]; intros i; try intros j;
    destruct (Q i) as (_ & Ed & Es & Ea); destruct (R i) as (Eb & Ev & Ey);
    rewrite ?Ed, ?Es, ?Ea, ?Eb, ?Ev, ?Ey; auto.
  destruct (Q j) as (_ & -> & -> & _). auto.
Qed.

(** brelse makes the buffer the most recently used one and wakes its waiters;
    no reader sees a difference. *)
Lemma brelse_spec B s k b : cache_ok (b :: B) s → b ∉ B → (b < NBUF)%nat → held k = [] →
  (isvalid (theb b s) = true → isdirty (theb b s) = false →
    data (theb b s) = disk_at s (sector (theb b s))) →
  ∃ s', brelse b k s = Done tt (Kctx [] (CBuf b :: wakeups k)) s' ∧ cache_ok B s' ∧
    (∀ x, view s' x = view s x) ∧ (∀ x, dirty_at s' x = dirty_at s x) ∧ same_disk s s' ∧
    (∀ i, i ≠ b → payload (theb i s') = payload (theb i s)) ∧
    ∃ l1 l2, lru (bufs s) (l1 ++ b :: l2) ∧ lru (bufs s') (b :: l1 ++ l2).
Proof.
  intros Hok HbB Hb Hk Hsync.
  assert (Hbusy : isbusy (theb b s) = true) by (apply (co_busy _ _ Hok); set_solver).
  destruct (co_lru _ _ Hok) as [l Hl].
  destruct (list_elem_of_split l b) as (l1 & l2 & ->); [by apply (lru_elem (bufs s))|].
  destruct (lru_move_front _ _ _ _ Hl) as [Hl' Hsame].
  set (bs' := link_front b (unlink_buf b (bufs s))) in *.
  set (s1 := set_bufs bs' s). set (f := λ b, set_flags (Z.land (flags b) (Z.lnot B_BUSY)) b).
  pose proof (cache_ok_relink _ s bs' _ Hok Hsame Hl') as Hok1. fold s1 in Hok1.
  assert (P : payload (theb b s1) = payload (theb b s)) by apply Hsame.
  destruct (payload_inv _ _ P) as (_ & _ & Es & Edata).
  destruct (payload_bits _ _ P) as (_ & Ev & Edi).
  assert (C : isbusy (f (theb b s1)) = false ∧ isvalid (f (theb b s1)) = isvalid (theb b s1) ∧
    isdirty (f (theb b s1)) = isdirty (theb b s1)) by apply bits_clear_busy.
  destruct C as (C1 & C2 & C3).
  assert (Hlen : length (bufs s1) = S NBUF) by apply (cache_length _ _ Hok1).
  assert (Hok' : cache_ok B (updb b f s1)).
  { apply (cache_ok_keep (b :: B)); try done; rewrite ?C1, ?C2, ?C3.
    - split; [done|]. by intros ?%HbB.
    - set_solver.
    - by apply (co_data _ _ Hok1).
    - by apply (co_dirty _ _ Hok1).
    - intros _ _. rewrite Ev, Edi, Es. simpl. rewrite Edata. exact Hsync. }
  exists (updb b f s1). split_and!; [|done|..]; try done.
  - destruct k as [h w]. simpl in Hk. subst h. unfold brelse. mgo.
    rewrite land_busy, Hbusy. by mgo.
  - intros x. rewrite <- (proj1 (view_relink s bs' x Hsame)). fold s1.
    rewrite (view_upd (b :: B) B) by done. rewrite C2. simpl.
    case_decide as Hx; [|by rewrite ?decide_False]. destruct Hx as [Hd <-].
    by rewrite (view_cached (b :: B)).
  - intros x. rewrite <- (proj2 (view_relink s bs' x Hsame)). fold s1.
    rewrite (dirty_upd (b :: B) B) by done. rewrite C3. simpl.
    case_decide as Hx; [|by rewrite ?decide_False].
    unfold dirty_at. by rewrite (proj2 (cached_spec (b :: B) s1 x b Hok1)) by tauto.
  - intros i Hi. rewrite theb_updb, decide_False by (congruence || lia). apply Hsame.
  - exists l1, l2. split; [done|]. by apply lru_upd.
Qed.
End specs.

(** ** The theorems about the cache *)

(** C32: bread returns a buffer the caller now holds, with the current contents
    of the sector: the cached copy when there is one, the disk otherwise.  The
    cache invariant is kept, and nothing another reader could see, and nothing on
    the disk, has changed. *)
Theorem bread_current (B : list nat) (s : bstate) (k : kctx) (sec : Z) :
  cache_ok B s → held k = [] → 0 ≤ sec < disksize s →
  (∀ i, cached s sec = Some i → i ∉ B) → (cached s sec = None → room B s) →
  ∃ b s', bread ROOTDEV sec k s = Done b k s' ∧ cache_ok (b :: B) s' ∧ b ∉ B ∧
    sector (theb b s') = sec ∧ isvalid (theb b s') = true ∧ data (theb b s') = view s sec ∧
    (∀ x, view s' x = view s x) ∧ same_disk s s'.
Proof.
  intros Hok Hk Hs HB Hr.
  destruct (bread_spec B s k sec Hok Hk Hs HB Hr) as (b & s' & E & Hh & Hv & Hd).
  exists b, s'. destruct Hh. auto 10.
Qed.

(** Bwrite of a held buffer puts its data on the disk, as one sector write,
    and clears the pin; readers see what they saw before. *)
Theorem bwrite_persists (B : list nat) (s : bstate) (k : kctx) (b : nat) :
  cache_ok B s → b ∈ B → (b < NBUF)%nat → dev (theb b s) = ROOTDEV → isvalid (theb b s) = true →
  ∃ s', bwrite b k s = Done tt k s' ∧ cache_ok B s' ∧ (∀ x, view s' x = view s x) ∧
    disk_at s' (sector (theb b s)) = data (theb b s) ∧
    dwrites s' = dwrites s ++ [(sector (theb b s), data (theb b s))] ∧
    isdirty (theb b s') = false.
Proof.
  intros Hok HbB Hb Hd Hv.
  destruct (bwrite_spec B s k b Hok HbB Hb Hd Hv) as (E & Hok' & HV & _ & _ & _ & Hn).
  eexists. split_and!; try done. rewrite disk_at_write. by rewrite decide_True.
Qed.

(** Brelse makes the buffer free, moves it to the front of the LRU list
    (so that bget recycles it last), and wakes the processes waiting for it; the
    rest of the list keeps its order and no reader sees a difference. *)
Theorem brelse_mru (B : list nat) (s : bstate) (k : kctx) (b : nat) :
  cache_ok (b :: B) s → b ∉ B → (b < NBUF)%nat → held k = [] →
  (isvalid (theb b s) = true → isdirty (theb b s) = false →
    data (theb b s) = disk_at s (sector (theb b s))) →
  ∃ s' l1 l2, brelse b k s = Done tt (Kctx [] (CBuf b :: wakeups k)) s' ∧ cache_ok B s' ∧
    lru (bufs s) (l1 ++ b :: l2) ∧ lru (bufs s') (b :: l1 ++ l2) ∧
    ∀ x, view s' x = view s x.
Proof.
  intros Hok HbB Hb Hk Hs.
  destruct (brelse_spec B s k b Hok HbB Hb Hk Hs) as (s' & E & Hok' & HV & _ & _ & _ & l1 & l2 & H1 & H2).
  exists s', l1, l2. auto.
Qed.
