(* ===== verification/BioInit.v ===== *)
(** * binit: the cache after boot

    The state binit leaves, that it satisfies the cache invariant, and concrete
    cache states for the theorems of BioSpec. *)

From stdpp Require Import base gmap list strings.
From Stdlib Require Import ZArith Lia Permutation.
From S2P Require Import Prelude Params Kmonad Bio BioSpec.

(** Zeroed memory over a disk [m] of [n] sectors. *)
Definition boot_bst (n : Z) (m : gmap Z block) : bstate :=
  Bstate n m [] (replicate (S NBUF) buf0).

Definition binit_bufs : list buf :=
  fold_left binit_links (seq 0 NBUF)
    (upd HEAD (set_next HEAD) (upd HEAD (set_prev HEAD) (replicate (S NBUF) buf0))).

Lemma binit_bufs_lru : lru binit_bufs (reverse (seq 0 NBUF)).
Proof.
  split_and!; [by vm_compute| |].
  - apply reverse_Permutation.
  - vm_compute. repeat split.
Qed.

Lemma binit_bufs_clean i : (i < NBUF)%nat →
  flags (getb binit_bufs i) = 0 ∧ dev (getb binit_bufs i) = u32 (-1) ∧
  length (data (getb binit_bufs i)) = Z.to_nat BSIZE.
Proof.
  intros Hi.
  assert (C : forallb (λ i, (flags (getb binit_bufs i) =? 0) && (dev (getb binit_bufs i) =? u32 (-1))
    && (length (data (getb binit_bufs i)) =? Z.to_nat BSIZE)%nat) (seq 0 NBUF) = true)
    by (by vm_compute).
  rewrite forallb_forall in C. specialize (C i ltac:(apply in_seq; lia)).
  rewrite !andb_true_iff, !Z.eqb_eq, Nat.eqb_eq in C. tauto.
Qed.

(** A list of free, unlabelled buffers is a cache in order. *)
Lemma clean_cache_ok n m bs l : lru bs l →
  (∀ i, (i < NBUF)%nat → flags (getb bs i) = 0 ∧ dev (getb bs i) = u32 (-1) ∧
    length (data (getb bs i)) = Z.to_nat BSIZE) →
  (∀ x, length (default zero_block (m !! x)) = Z.to_nat BSIZE) →
  cache_ok [] (Bstate n m [] bs) ∧ (∀ x, dirty_at (Bstate n m [] bs) x = false).
Proof.
  intros Hl C Hm. set (s := Bstate n m [] bs).
  assert (Ht : ∀ i, theb i s = getb bs i) by done.
  assert (Hok : cache_ok [] s).
  { assert (Cf := λ i Hi, proj1 (C i Hi)). assert (Cd := λ i Hi, proj1 (proj2 (C i Hi))).
    split; [by exists l|..|done]; unfold isbusy, isdirty; intros i.
    - intros Hi. rewrite Ht, Cf by done. split; [done|set_solver].
    - intros Hi. right. by apply Cd.
    - intros j Hi Hj. by rewrite Ht, Cd.
    - intros Hi. by apply C.
    - intros Hi. by rewrite Ht, Cd.
    - intros Hi. by rewrite Ht, Cf.
    - intros Hi _. by rewrite Ht, Cd. }
  split; [done|]. intros x. unfold dirty_at. destruct (cached s x) as [i|] eqn:E; [|done].
  apply (cached_spec []) in E as (Hi & _ & _); [|done]. rewrite Ht. unfold isdirty.
  by destruct (C i Hi) as (-> & _).
Qed.

Lemma binit_spec n m k : held k = [] →
  binit k (boot_bst n m) = Done tt k (Bstate n m [] binit_bufs).
Proof.
  intros Hk. unfold binit.
  mb (initlock_eq LBcache k (boot_bst n m) ltac:(rewrite Hk; set_solver)).
  rewrite !(bind_Done _ _ _ _ _ _ _ (modify_eq _ _ _)), modify_eq.
  unfold updb, boot_bst, set_bufs, binit_bufs. cbn [bufs disksize memdisk dwrites]. reflexivity.
Qed.

#[global] Opaque binit_bufs.

Lemma binit_booted n m k : held k = [] →
  (∀ x, length (default zero_block (m !! x)) = Z.to_nat BSIZE) →
  ∃ s, binit k (boot_bst n m) = Done tt k s ∧ cache_ok [] s ∧ (∀ x, dirty_at s x = false) ∧
    disksize s = n ∧ memdisk s = m ∧ dwrites s = [].
Proof.
  intros Hk Hm. exists (Bstate n m [] binit_bufs). split; [by apply binit_spec|].
  destruct (clean_cache_ok n m _ _ binit_bufs_lru binit_bufs_clean Hm). auto.
Qed.


(** Binit establishes the cache invariant over any disk of 512-byte
    sectors: every buffer is free, clean and on the LRU list, none is labelled with
    a sector of the disk, and the disk is untouched. *)
Theorem binit_cache_ok (n : Z) (m : gmap Z block) (k : kctx) : held k = [] →
  (∀ x, length (default zero_block (m !! x)) = Z.to_nat BSIZE) →
  ∃ s, binit k (boot_bst n m) = Done tt k s ∧ cache_ok [] s ∧
    (∀ x, view s x = disk_at (boot_bst n m) x) ∧ dwrites s = [].
Proof.
  intros Hk Hm. destruct (binit_booted n m k Hk Hm) as (s & E & Hok & Hd & _ & EM & EW).
  exists s. split_and!; try done. intros x. unfold view.
  replace (disk_at (boot_bst n m) x) with (disk_at s x) by (unfold disk_at; by rewrite EM).
  specialize (Hd x). unfold dirty_at in Hd. destruct (cached s x) as [i|] eqn:Hc; [|done].
  apply (cached_spec []) in Hc as (Hi & Hdev & <-); [|done].
  destruct (isvalid _) eqn:Hv; [|done]. apply (co_sync _ _ Hok); set_solver.
Qed.

(** ** Concrete caches *)

Lemma empty_disk_full (x : Z) :
  length (default zero_block ((∅ : gmap Z block) !! x)) = Z.to_nat BSIZE.
Proof. by rewrite lookup_empty. Qed.

Lemma binit_cache_ok_witness :
  ∃ s, binit (Kctx [] []) (boot_bst 1000 ∅) = Done tt (Kctx [] []) s ∧ cache_ok [] s.
Proof.
  destruct (binit_cache_ok 1000 ∅ (Kctx [] []) eq_refl empty_disk_full) as (s & E & Hok & _).
  exists s. split; [exact E|exact Hok].
Defined.

(** A cache after boot, and the same with buffer 0 held for sector 100. *)
Definition demo_free (bs : list buf) : bstate := Bstate 1000 ∅ [] bs.
Definition demo_busy (bs : list buf) : bstate :=
  updb 0 (λ b, set_flags (Z.lor B_BUSY B_VALID) (set_sector 100 (set_dev ROOTDEV
    (set_data zero_block b)))) (demo_free bs).

Section demo.
Context (bs : list buf) (l : list nat) (Hl : lru bs l).
Hypothesis C : ∀ i, (i < NBUF)%nat → flags (getb bs i) = 0 ∧ dev (getb bs i) = u32 (-1) ∧
  length (data (getb bs i)) = Z.to_nat BSIZE.

Lemma demo_free_ok : cache_ok [] (demo_free bs) ∧ ∀ x, cached (demo_free bs) x = None.
Proof.
  destruct (clean_cache_ok 1000 ∅ bs l Hl C empty_disk_full) as [Hok _]. split; [done|].
  intros x. destruct (cached (demo_free bs) x) as [i|] eqn:E; [|done].
  apply (cached_spec []) in E as (Hi & Hd & _); [|done].
  destruct (C i Hi) as (_ & Ed & _). unfold theb in Hd. simpl in Hd. by rewrite Ed in Hd.
Qed.

Lemma demo_free_room : room [] (demo_free bs).
Proof.
  exists 0%nat. assert (H0 : (0 < NBUF)%nat) by (change NBUF with 30%nat; lia).
  split_and!; [done|clear; set_solver|]. unfold isdirty, theb. simpl. by rewrite (proj1 (C 0 H0)).
Qed.

Lemma demo_busy_ok : cache_ok [0%nat] (demo_busy bs) ∧ theb 0 (demo_busy bs) =
  set_flags (Z.lor B_BUSY B_VALID) (set_sector 100 (set_dev ROOTDEV
    (set_data zero_block (getb bs 0)))).
Proof.
  destruct demo_free_ok as [Hok Hc]. pose proof (cache_length _ _ Hok) as Hlen.
  assert (H0 : (0 < NBUF)%nat) by (change NBUF with 30%nat; lia). split.
  - apply (cache_ok_upd []); try done.
    + split; [set_solver|done].
    + set_solver.
    + by left.
    + intros _. split; [simpl; lia|]. intros j Hj _ Hd. by apply (cached_None [] _ 100 Hok).
  - unfold demo_busy. rewrite theb_updb, decide_True by (simpl in *; lia). done.
Qed.
End demo.

Lemma bget_cases_witness :
  ∃ b s', bget ROOTDEV 7 (Kctx [] []) (demo_free binit_bufs) = Done b (Kctx [] []) s'.
Proof.
  destruct (demo_free_ok _ _ binit_bufs_lru binit_bufs_clean) as [Hok Hc].
  rewrite (bget_cases ROOTDEV 7 (Kctx [] []) (demo_free binit_bufs) _ binit_bufs_lru eq_refl).
  rewrite (find_hit_cached [] _ _ 7 Hok (reverse_Permutation _)), Hc.
  destruct (room_reusable [] _ _ Hok (demo_free_room _ binit_bufs_clean) (reverse_Permutation _))
    as (b & E & _). rewrite E. eexists _, _. reflexivity.
Defined.

Lemma bread_current_witness :
  ∃ b s', bread ROOTDEV 7 (Kctx [] []) (demo_free binit_bufs) = Done b (Kctx [] []) s' ∧
    sector (theb b s') = 7.
Proof.
  destruct (demo_free_ok _ _ binit_bufs_lru binit_bufs_clean) as [Hok Hc].
  destruct (bread_current [] (demo_free binit_bufs) (Kctx [] []) 7) as (b & s' & E & _ & _ & Hs & _).
  - exact Hok.
  - reflexivity.
  - simpl. lia.
  - intros i. rewrite Hc. discriminate.
  - intros _. exact (demo_free_room _ binit_bufs_clean).
  - exists b, s'. split; [exact E|exact Hs].
Defined.

Lemma bwrite_persists_witness :
  ∃ s', bwrite 0 (Kctx [] []) (demo_busy binit_bufs) = Done tt (Kctx [] []) s' ∧
    disk_at s' 100 = zero_block.
Proof.
  destruct (demo_busy_ok _ _ binit_bufs_lru binit_bufs_clean) as [Hok Hth].
  destruct (bwrite_persists [0%nat] (demo_busy binit_bufs) (Kctx [] []) 0) as (s' & E & _ & _ & Hd & _).
  - exact Hok.
  - clear. set_solver.
  - change NBUF with 30%nat. lia.
  - rewrite Hth. reflexivity.
  - rewrite Hth. reflexivity.
  - exists s'. rewrite Hth in Hd. cbn [sector data set_flags set_sector set_dev set_data] in Hd.
    split; [exact E|exact Hd].
Defined.

Lemma brelse_mru_witness :
  ∃ s', brelse 0 (Kctx [] []) (demo_busy binit_bufs) = Done tt (Kctx [] [CBuf 0]) s' ∧
    ∃ l, lru (bufs s') (0%nat :: l).
Proof.
  destruct (demo_busy_ok _ _ binit_bufs_lru binit_bufs_clean) as [Hok Hth].
  destruct (brelse_mru [] (demo_busy binit_bufs) (Kctx [] []) 0) as (s' & l1 & l2 & E & _ & _ & Hl & _).
  - exact Hok.
  - clear. set_solver.
  - change NBUF with 30%nat. lia.
  - reflexivity.
  - rewrite Hth. intros _ _. reflexivity.
  - exists s'. split; [exact E|]. exists (l1 ++ l2). exact Hl.
Defined.
