(* ===== verification/Ide.v ===== *)
(** * ide.c: the interrupt-driven disk driver

    The driver's queue is the list idequeue, linked through the qnext fields of the
    buffers.  The controller and its disks are hardware: [IdeDevice] states what the
    driver relies on, that a command written to the registers is carried out on the
    sector they name, once, before the interrupt.  Waiting for the ready bit is the
    device being ready; the status byte read then is an argument of ideintr. *)

From stdpp Require Import base gmap list strings.
From Stdlib Require Import ZArith Lia.
From S2P Require Import Prelude Params Kmonad Bio.

Definition IDE_BSY : Z := 0x80.
Definition IDE_DRDY : Z := 0x40.
Definition IDE_DF : Z := 0x20.
Definition IDE_ERR : Z := 0x01.
Definition IDE_CMD_READ : Z := 0x20.
Definition IDE_CMD_WRITE : Z := 0x30.

(** The registers idestart writes: ports 0x1f2 to 0x1f7. *)
Record idereg : Type := Idereg {
  nsect : Z; lba0 : Z; lba1 : Z; lba2 : Z; drv : Z; cmd : Z
}.

(** The sector and the drive the registers name. *)
Definition reg_sector (r : idereg) : Z :=
  lba0 r + 2 ^ 8 * lba1 r + 2 ^ 16 * lba2 r + 2 ^ 24 * Z.land (drv r) 0x0f.
Definition reg_drive (r : idereg) : bool := Z.testbit (drv r) 4.

(** The controller: [perform r out d] carries out the command in the registers [r], with the
    data [out] for a write, and gives the data register and the disks. *)
Class IdeDevice (disk : Type) := {
  contents : disk → bool → Z → block;
  perform : idereg → block → disk → block * disk;
  perform_read r out d : nsect r = 1 → cmd r = IDE_CMD_READ →
    (perform r out d).1 = contents d (reg_drive r) (reg_sector r) ∧
    ∀ v x, contents (perform r out d).2 v x = contents d v x;
  perform_write r out d : nsect r = 1 → cmd r = IDE_CMD_WRITE →
    ∀ v x, contents (perform r out d).2 v x =
      if decide (v = reg_drive r ∧ x = reg_sector r) then out else contents d v x
}.

Section driver.
Context {disk : Type} `{!IdeDevice disk}.

Record ist : Type := Ist {
  ibufs : list buf; qnext : list (option nat); idequeue : option nat; havedisk1 : bool;
  regs : idereg; outdata : block; dreg : block; hw : disk
}.

Definition ib (i : nat) (s : ist) : buf := nthz buf0 (ibufs s) i.
Definition upd_ib (i : nat) (f : buf → buf) (s : ist) : ist :=
  Ist (<[i := f (ib i s)]> (ibufs s)) (qnext s) (idequeue s) (havedisk1 s) (regs s) (outdata s)
    (dreg s) (hw s).
Definition qn (i : nat) (s : ist) : option nat := nthz None (qnext s) i.
Definition set_qn (i : nat) (v : option nat) (s : ist) : ist :=
  Ist (ibufs s) (<[i := v]> (qnext s)) (idequeue s) (havedisk1 s) (regs s) (outdata s) (dreg s) (hw s).
Definition set_queue (v : option nat) (s : ist) : ist :=
  Ist (ibufs s) (qnext s) v (havedisk1 s) (regs s) (outdata s) (dreg s) (hw s).
Definition set_regs (r : idereg) (o : block) (s : ist) : ist :=
  Ist (ibufs s) (qnext s) (idequeue s) (havedisk1 s) r o (dreg s) (hw s).
Definition set_hw (d : block) (h : disk) (s : ist) : ist :=
  Ist (ibufs s) (qnext s) (idequeue s) (havedisk1 s) (regs s) (outdata s) d h.

(** idewait(checkerr), given the status byte the device is ready with. *)
Definition idewait (checkerr : bool) (status : Z) : Z :=
  if checkerr && negb (Z.land status (Z.lor IDE_DF IDE_ERR) =? 0) then -1 else 0.

(** The registers idestart writes for buffer [b]. *)
Definition start_regs (b : buf) : idereg :=
  Idereg 1 (Z.land (sector b) 0xff) (Z.land (Z.shiftr (sector b) 8) 0xff)
    (Z.land (Z.shiftr (sector b) 16) 0xff)
    (Z.lor (Z.lor 0xe0 (Z.shiftl (Z.land (dev b) 1) 4)) (Z.land (Z.shiftr (sector b) 24) 0x0f))
    (if has (flags b) B_DIRTY then IDE_CMD_WRITE else IDE_CMD_READ).

Definition idestart (p : option nat) : M ist unit :=
  match p with
  | None => panic "idestart"
  | Some i =>
    b ← gets (ib i);
    modify (λ s, set_regs (start_regs b) (if has (flags b) B_DIRTY then data b else outdata s) s)
  end.

(** outb(0x1f6, v): the drive. *)
Definition select (v : Z) (s : ist) : ist :=
  let r := regs s in set_regs (Idereg (nsect r) (lba0 r) (lba1 r) (lba2 r) v (cmd r)) (outdata s) s.

(** ideinit, without the calls of the interrupt controllers: disk 1 is there if one of 1000
    status reads is not zero. *)
Definition ideinit (statuses : list Z) : M ist unit :=
  initlock LIde;;
  modify (select (Z.lor 0xe0 (Z.shiftl 1 4)));;
  modify (λ s, if existsb (λ v, negb (v =? 0)) (take 1000 statuses)
               then Ist (ibufs s) (qnext s) (idequeue s) true (regs s) (outdata s) (dreg s) (hw s)
               else s);;
  modify (select (Z.lor 0xe0 (Z.shiftl 0 4))).

(** ideintr, with the status byte of the device. *)
Definition ideintr (status : Z) : M ist unit :=
  acquire LIde;;
  q ← gets idequeue;
  match q with
  | None => release LIde
  | Some b =>
    modify (λ s, set_queue (qn b s) s);;
    x ← gets (ib b);
    (if negb (has (flags x) B_DIRTY) && (idewait true status >=? 0)
     then modify (λ s, upd_ib b (set_data (dreg s)) s) else mret tt);;
    modify (upd_ib b (λ x, set_flags (Z.lor (flags x) B_VALID) x));;
    modify (upd_ib b (λ x, set_flags (Z.land (flags x) (Z.lnot B_DIRTY)) x));;
    wakeup (CBuf b);;
    q ← gets idequeue;
    (match q with Some _ => idestart q | None => mret tt end);;
    release LIde
  end.

(** for(pp = &idequeue; *pp; pp = &( *pp)->qnext) ;  *pp = b; [last] is the buffer whose
    qnext is pp, [None] for &idequeue. *)
Fixpoint queue_append (fuel : nat) (last p : option nat) (b : nat) (s : ist) : option ist :=
  match fuel with
  | O => None
  | S f =>
    match p with
    | Some i => queue_append f (Some i) (qn i s) b s
    | None => Some (match last with Some i => set_qn i (Some b) s | None => set_queue (Some b) s end)
    end
  end.

(** iderw up to the loop that waits; the queue has at most as many buffers as there are. *)
Definition iderw_queue (b : nat) : M ist unit :=
  x ← gets (ib b);
  h ← gets havedisk1;
  if negb (has (flags x) B_BUSY) then panic "iderw: buf not busy"
  else if Z.land (flags x) (Z.lor B_VALID B_DIRTY) =? B_VALID then panic "iderw: nothing to do"
  else if negb (dev x =? 0) && negb h then panic "iderw: ide disk 1 not present"
  else
    acquire LIde;;
    modify (set_qn b None);;
    s ← gets (λ s, s);
    match queue_append (S (length (ibufs s))) None (idequeue s) b s with
    | None => diverge
    | Some s' =>
      modify (λ _, s');;
      q ← gets idequeue;
      if bool_decide (q = Some b) then idestart (Some b) else mret tt
    end.

Definition iderw (b : nat) : M ist unit :=
  iderw_queue b;;
  x ← gets (ib b);
  (if negb (Z.land (flags x) (Z.lor B_VALID B_DIRTY) =? B_VALID) then sleep (CBuf b) LIde else mret tt);;
  release LIde.

(** The device finishes the command in its registers. *)
Definition disk_done (s : ist) : ist :=
  let '(d, h) := perform (regs s) (outdata s) (hw s) in set_hw d h s.

(** ** The sector address *)

Lemma land_low x n : 0 ≤ n → Z.land (Z.land x (Z.ones n)) (Z.ones n) = Z.land x (Z.ones n).
Proof. intros. by rewrite <- Z.land_assoc, Z.land_diag. Qed.

(** 28 bits of sector address reach the controller, and one bit of the device number. *)
Lemma start_regs_names b : 0 ≤ sector b < 2 ^ 28 →
  reg_sector (start_regs b) = sector b ∧ reg_drive (start_regs b) = Z.odd (dev b).
Proof.
  intros Hs. unfold reg_sector, reg_drive, start_regs. cbn [lba0 lba1 lba2 drv]. split.
  - rewrite !Z.land_lor_distr_l. change (Z.land 0xe0 0x0f) with 0.
    assert (Hd : Z.land (Z.shiftl (Z.land (dev b) 1) 4) 0x0f = 0).
    { change 1 with (Z.ones 1). rewrite Z.land_ones, Z.shiftl_mul_pow2 by lia.
      change 0x0f with (Z.ones 4). rewrite Z.land_ones by lia. apply Z.mod_mul. lia. }
    rewrite Hd. change 0x0f with (Z.ones 4). change 0xff with (Z.ones 8). rewrite land_low by lia.
    rewrite !Z.lor_0_l, !Z.land_ones, !Z.shiftr_div_pow2 by lia.
    assert (H24 : 0 ≤ sector b / 2 ^ 24 < 2 ^ 4).
    { split; [apply Z.div_pos; lia|apply Z.div_lt_upper_bound; lia]. }
    pose proof (byte_split (sector b) ltac:(lia)) as Hb. unfold u8, wrap in Hb.
    rewrite !Z.shiftr_div_pow2 in Hb by lia. rewrite (Z.mod_small (sector b / 2 ^ 24)) in Hb by lia.
    by rewrite (Z.mod_small (sector b / 2 ^ 24)) by lia.
  - rewrite !Z.lor_spec, Z.shiftl_spec, Z.land_spec, Z.land_spec by lia. change (4 - 4) with 0.
    rewrite (Z.bit0_odd (dev b)). change (Z.testbit 0xe0 4) with false. change (Z.testbit 1 0) with true.
    change (Z.testbit 15 4) with false. by rewrite andb_true_r, andb_false_r, orb_false_r.
Qed.

(** ** The queue *)

Fixpoint chain (qnx : list (option nat)) (h : option nat) (q : list nat) : Prop :=
  match q with
  | [] => h = None
  | b :: q' => h = Some b ∧ chain qnx (nthz None qnx b) q'
  end.

(** The queue [q], and the head's request in the registers. *)
Record ide_ok (s : ist) (q : list nat) : Prop := IdeOk {
  ok_len : length (qnext s) = length (ibufs s);
  ok_nodup : NoDup q;
  ok_range : Forall (λ b, (b < length (ibufs s))%nat) q;
  ok_chain : chain (qnext s) (idequeue s) q;
  ok_started : ∀ b q', q = b :: q' → regs s = start_regs (ib b s) ∧
    (has (flags (ib b s)) B_DIRTY = true → outdata s = data (ib b s))
}.

Lemma chain_insert qnx b v q : ∀ h, b ∉ q → chain qnx h q → chain (<[b := v]> qnx) h q.
Proof.
  induction q as [|c q IH]; intros h Hb; simpl; [done|]. intros [-> Hc]. split; [done|].
  rewrite nthz_insert_ne by set_solver. apply IH; [set_solver|done].
Qed.

Lemma chain_snoc qnx b q : ∀ h, NoDup q → b ∉ q → Forall (λ b, (b < length qnx)%nat) q →
  nthz None qnx b = None → chain qnx h q → ∀ i, last q = Some i →
  chain (<[i := Some b]> qnx) h (q ++ [b]).
Proof.
  induction q as [|c q IH]; intros h Hnd Hb Hr Hn Hc i Hi; [done|].
  destruct Hc as [-> Hc]. apply NoDup_cons in Hnd as [Hcq Hnd]. apply Forall_cons in Hr as [Hcr Hr].
  simpl app. split; [done|]. destruct q as [|d q].
  - simpl in Hi. injection Hi as ->. rewrite nthz_insert_eq by done. simpl. split; [done|].
    rewrite nthz_insert_ne by set_solver. done.
  - rewrite last_cons_cons in Hi. assert (Hin : i ∈ d :: q) by (by apply last_Some_elem_of).
    rewrite nthz_insert_ne by (intros ->; done). apply IH; [done|set_solver|done|done|done|done].
Qed.

Lemma queue_append_spec b s q : ∀ fuel lst h, chain (qnext s) h q → (length q < fuel)%nat →
  queue_append fuel lst h b s = Some (match last q with
    | Some i => set_qn i (Some b) s
    | None => match lst with Some i => set_qn i (Some b) s | None => set_queue (Some b) s end
    end).
Proof.
  induction q as [|c q IH]; intros [|fuel] lst h Hc Hf; try (simpl in Hf; lia); cbn [queue_append].
  - simpl in Hc. by subst h.
  - destruct Hc as [-> Hc]. unfold qn. rewrite (IH fuel) by (done || (simpl in Hf; lia)).
    destruct q as [|d q]; [done|]. rewrite last_cons_cons.
    destruct (last (d :: q)) eqn:E; [done|]. by apply last_None in E.
Qed.

(** ** Requests *)

(** The buffer after its request is served, [d] being the data read for it. *)
Definition served (d : block) (x : buf) : buf :=
  set_flags (Z.land (Z.lor (flags x) B_VALID) (Z.lnot B_DIRTY))
    (if has (flags x) B_DIRTY then x else set_data d x).

(** The disks after the request of [x]. *)
Definition request (x : buf) (f : bool → Z → block) : bool → Z → block := λ v y,
  if has (flags x) B_DIRTY && bool_decide (v = Z.odd (dev x) ∧ y = sector x) then data x else f v y.

Lemma ib_upd i f s : (i < length (ibufs s))%nat → ib i (upd_ib i f s) = f (ib i s).
Proof. intros. unfold ib at 1, upd_ib. cbn [ibufs]. by rewrite nthz_insert_eq. Qed.

Lemma ib_upd_ne i j f s : i ≠ j → ib j (upd_ib i f s) = ib j s.
Proof. intros. unfold ib, upd_ib. cbn [ibufs]. by rewrite nthz_insert_ne. Qed.

(** The command in the registers, carried out, is the request of the queue's head. *)
Lemma disk_done_request s b q : ide_ok s (b :: q) → 0 ≤ sector (ib b s) < 2 ^ 28 →
  (∀ v y, contents (hw (disk_done s)) v y = request (ib b s) (contents (hw s)) v y) ∧
  (has (flags (ib b s)) B_DIRTY = false →
     dreg (disk_done s) = contents (hw s) (Z.odd (dev (ib b s))) (sector (ib b s))).
Proof.
  intros Hok Hs. destruct (ok_started s _ Hok b q eq_refl) as [Hr Ho].
  destruct (start_regs_names (ib b s) Hs) as [Hsec Hdrv].
  unfold disk_done, request. rewrite Hr.
  pose proof (perform_read (start_regs (ib b s)) (outdata s) (hw s) eq_refl) as Hread.
  pose proof (perform_write (start_regs (ib b s)) (outdata s) (hw s) eq_refl) as Hwrite.
  rewrite Hsec, Hdrv in Hread, Hwrite. cbn [cmd start_regs] in Hread, Hwrite.
  destruct (perform _ _ _) as [d h]. cbn [hw dreg set_hw fst snd] in *.
  destruct (has (flags (ib b s)) B_DIRTY) eqn:E.
  - split; [|done]. intros v y. rewrite (Hwrite eq_refl). cbn [andb].
    destruct (decide _) as [D|D].
    + rewrite bool_decide_eq_true_2 by done. by apply Ho.
    + by rewrite bool_decide_eq_false_2.
  - destruct (Hread eq_refl) as [Hd Hc]. by split.
Qed.

(** Start the head of the queue [q], if there is one. *)
Definition started (q : list nat) (s : ist) : ist :=
  match q with
  | [] => s
  | c :: _ => set_regs (start_regs (ib c s))
      (if has (flags (ib c s)) B_DIRTY then data (ib c s) else outdata s) s
  end.

Lemma restart_run q k s : chain (qnext s) (idequeue s) q →
  (q' ← gets idequeue; match q' with Some _ => idestart q' | None => mret tt end) k s =
  Done tt k (started q s).
Proof. destruct q as [|c q]; simpl; [intros H|intros [H _]]; mb (gets_eq idequeue k s); by rewrite H. Qed.

Lemma started_ok q s : length (qnext s) = length (ibufs s) → NoDup q →
  Forall (λ b, (b < length (ibufs s))%nat) q → chain (qnext s) (idequeue s) q → ide_ok (started q s) q.
Proof.
  intros Hl Hn Hr Hc. destruct q as [|c q]; split; try done. intros b q' [= <- <-]. split; [done|].
  change (ib c (started (c :: q) s)) with (ib c s). intros Hd. cbn [started outdata set_regs].
  by rewrite Hd.
Qed.

(** The updates of ideintr to the buffer of a served request. *)
Definition finish (b : nat) (s : ist) : ist :=
  upd_ib b (λ x, set_flags (Z.land (Z.lor (flags x) B_VALID) (Z.lnot B_DIRTY)) x)
    (if has (flags (ib b s)) B_DIRTY then s else upd_ib b (set_data (dreg s)) s).

Lemma finish_run b k s : (b < length (ibufs s))%nat →
  ((if negb (has (flags (ib b s)) B_DIRTY) && true
    then modify (λ s, upd_ib b (set_data (dreg s)) s) else mret tt);;
   modify (upd_ib b (λ x, set_flags (Z.lor (flags x) B_VALID) x));;
   modify (upd_ib b (λ x, set_flags (Z.land (flags x) (Z.lnot B_DIRTY)) x))) k s =
  Done tt k (finish b s).
Proof.
  intros Hb. unfold finish.
  assert (Hm : ∀ s, (b < length (ibufs s))%nat →
    upd_ib b (λ x, set_flags (Z.land (flags x) (Z.lnot B_DIRTY)) x)
      (upd_ib b (λ x, set_flags (Z.lor (flags x) B_VALID) x) s) =
    upd_ib b (λ x, set_flags (Z.land (Z.lor (flags x) B_VALID) (Z.lnot B_DIRTY)) x) s).
  { intros s0 H0. unfold upd_ib at 1. rewrite ib_upd by done. unfold upd_ib. cbn.
    by rewrite list_insert_insert_eq. }
  unfold mbind, M_bind. destruct (has (flags (ib b s)) B_DIRTY); cbn [negb andb].
  - by rewrite ret_eq, !modify_eq, Hm.
  - rewrite !modify_eq, Hm; [done|]. unfold upd_ib. cbn [ibufs]. by rewrite length_insert.
Qed.

Lemma finish_fields b s : qnext (finish b s) = qnext s ∧ idequeue (finish b s) = idequeue s ∧
  hw (finish b s) = hw s ∧ length (ibufs (finish b s)) = length (ibufs s).
Proof.
  unfold finish. destruct (has _ _); cbn; by rewrite ?length_insert.
Qed.

Lemma finish_ib b s : (b < length (ibufs s))%nat → ib b (finish b s) = served (dreg s) (ib b s) ∧
  ∀ j, j ≠ b → ib j (finish b s) = ib j s.
Proof.
  intros Hb. unfold finish, served. split.
  - rewrite ib_upd by (destruct (has _ _); cbn; by rewrite ?length_insert).
    destruct (has _ _); [done|]. by rewrite ib_upd.
  - intros j Hj. rewrite ib_upd_ne by done. destruct (has _ _); [done|]. by rewrite ib_upd_ne.
Qed.

Lemma ideintr_run st k s b q : ide_ok s (b :: q) → idewait true st = 0 → held k = [] →
  ideintr st k s = Done tt (Kctx [] (CBuf b :: wakeups k))
    (started q (finish b (set_queue (qn b s) s))).
Proof.
  intros Hok Hst Hk. destruct k as [h w]. simpl in Hk. subst h. unfold ideintr.
  destruct (ok_chain s _ Hok) as [Hq Hc].
  pose proof (ok_range s _ Hok) as Hr. apply Forall_cons in Hr as [Hb Hr].
  assert (Ha : acquire LIde (Kctx [] w) s = Done tt (Kctx [LIde] w) s)
    by (apply acquire_eq; simpl; set_solver).
  mb Ha. mb (gets_eq idequeue (Kctx [LIde] w) s). rewrite Hq.
  set (s1 := set_queue (qn b s) s).
  mb (modify_eq (λ s, set_queue (qn b s) s) (Kctx [LIde] w) s). fold s1.
  mb (gets_eq (ib b) (Kctx [LIde] w) s1). rewrite Hst. change (0 >=? 0) with true.
  rewrite (bind_assoc3_Done _ _ _ _ _ _ _ _ _ (finish_run b (Kctx [LIde] w) s1 Hb)).
  assert (Hw : wakeup (CBuf b) (Kctx [LIde] w) (finish b s1) =
               Done tt (Kctx [LIde] (CBuf b :: w)) (finish b s1))
    by (apply wakeup_eq; simpl; set_solver).
  mb Hw. destruct (finish_fields b s1) as (Hqn & Hqu & _).
  assert (Hc1 : chain (qnext (finish b s1)) (idequeue (finish b s1)) q) by (by rewrite Hqn, Hqu).
  rewrite (bind_assoc_Done _ _ _ _ _ _ _ _ (restart_run q (Kctx [LIde] (CBuf b :: w)) _ Hc1)).
  by rewrite release_top.
Qed.

(** [n] times: the device finishes its command and interrupts. *)
Fixpoint interrupts (n : nat) (st : Z) : M ist unit :=
  match n with
  | O => mret tt
  | S n' => modify disk_done;; ideintr st;; interrupts n' st
  end.

Lemma disk_done_fields s : ibufs (disk_done s) = ibufs s ∧ qnext (disk_done s) = qnext s ∧
  idequeue (disk_done s) = idequeue s ∧ regs (disk_done s) = regs s ∧ outdata (disk_done s) = outdata s.
Proof. unfold disk_done. by destruct (perform _ _ _). Qed.

Lemma disk_done_ok s q : ide_ok s q → ide_ok (disk_done s) q.
Proof.
  intros [H1 H2 H3 H4 H5]. destruct (disk_done_fields s) as (Hi & Hn & Hq & Hr & Ho).
  split; unfold ib in *; rewrite ?Hi, ?Hn, ?Hq, ?Hr, ?Ho; done.
Qed.

(** Serving the head of the queue. *)
Lemma serve_one st k s b q : ide_ok s (b :: q) → 0 ≤ sector (ib b s) < 2 ^ 28 →
  idewait true st = 0 → held k = [] →
  ∃ s', ideintr st k (disk_done s) = Done tt (Kctx [] (CBuf b :: wakeups k)) s' ∧ ide_ok s' q ∧
    ib b s' = served (contents (hw s) (Z.odd (dev (ib b s))) (sector (ib b s))) (ib b s) ∧
    (∀ j, j ≠ b → ib j s' = ib j s) ∧
    (∀ v y, contents (hw s') v y = request (ib b s) (contents (hw s)) v y).
Proof.
  intros Hok Hs Hst Hk. destruct (disk_done_request s b q Hok Hs) as [Hreq Hdat].
  pose proof (disk_done_ok s _ Hok) as Hok1.
  assert (Hib : ∀ j, ib j (disk_done s) = ib j s).
  { intros j. unfold ib. by rewrite (proj1 (disk_done_fields s)). }
  set (s1 := disk_done s) in *. destruct Hok1 as [H1 H2 H3 H4 H5].
  apply NoDup_cons in H2 as [Hbq H2]. apply Forall_cons in H3 as [Hb H3]. destruct H4 as [_ H4].
  eexists. split; [apply (ideintr_run st k s1 b q); [by apply disk_done_ok|done|done]|].
  set (s2 := finish b (set_queue (qn b s1) s1)).
  destruct (finish_fields b (set_queue (qn b s1) s1)) as (F1 & F2 & F3 & F4).
  destruct (finish_ib b (set_queue (qn b s1) s1) Hb) as (F5 & F6).
  assert (Hst2 : ∀ j, ib j (started q s2) = ib j s2) by (intros; by destruct q).
  assert (Hhw : hw (started q s2) = hw s2) by (by destruct q).
  split_and!.
  - apply started_ok; unfold s2; rewrite ?F1, ?F2, ?F4; done.
  - rewrite Hst2. unfold s2. rewrite F5. change (ib b (set_queue (qn b s1) s1)) with (ib b s1).
    change (dreg (set_queue (qn b s1) s1)) with (dreg s1). rewrite Hib. unfold served.
    destruct (has (flags (ib b s)) B_DIRTY) eqn:E; [done|]. by rewrite Hdat.
  - intros j Hj. rewrite Hst2. unfold s2. rewrite F6 by done. apply Hib.
  - intros v y. rewrite Hhw. unfold s2. rewrite F3. apply Hreq.
Qed.

(** The disks after the requests of [q], one after the other. *)
Definition requests (s : ist) (q : list nat) (f : bool → Z → block) : bool → Z → block :=
  fold_left (λ f b, request (ib b s) f) q f.

Lemma requests_ext s s' q : ∀ f f', (∀ b, b ∈ q → ib b s' = ib b s) → (∀ v y, f' v y = f v y) →
  ∀ v y, requests s' q f' v y = requests s q f v y.
Proof.
  induction q as [|b q IH]; intros f f' Hib Hf v y; [apply Hf|]. unfold requests in *. simpl.
  apply IH; [set_solver|]. intros v' y'. unfold request. rewrite Hib by set_solver. by rewrite Hf.
Qed.

(** C31: The queue is served in order.  Once the device has finished and interrupted as
    often as there are requests queued, every buffer is valid and clean, the disks are
    as if the requests had been carried out one after the other in the order they were
    queued, each buffer that was read has the contents of its sector at its turn, and
    the waiters of all of them have been woken. *)
Theorem ide_serves_in_order (st : Z) (k : kctx) (s : ist) (q : list nat) :
  ide_ok s q → Forall (λ b, 0 ≤ sector (ib b s) < 2 ^ 28) q → idewait true st = 0 → held k = [] →
  ∃ s', interrupts (length q) st k s = Done tt (Kctx [] (reverse (CBuf <$> q) ++ wakeups k)) s' ∧
    idequeue s' = None ∧
    (∀ v y, contents (hw s') v y = requests s q (contents (hw s)) v y) ∧
    (∀ pre b post, q = pre ++ b :: post → ib b s' =
       served (requests s pre (contents (hw s)) (Z.odd (dev (ib b s))) (sector (ib b s))) (ib b s)) ∧
    (∀ j, j ∉ q → ib j s' = ib j s).
Proof.
  revert k s. induction q as [|b q IH]; intros k s Hok Hsec Hst Hk.
  { exists s. split_and!; try done; [|apply (ok_chain s _ Hok)|by intros []].
    cbn. destruct k. simpl in Hk. by subst. }
  apply Forall_cons in Hsec as [Hb Hsec].
  destruct (serve_one st k s b q Hok Hb Hst Hk) as (s1 & Hrun & Hok1 & Hib & Hoth & Hcon).
  pose proof (ok_nodup s _ Hok) as Hnd. apply NoDup_cons in Hnd as [Hbq _].
  assert (Hsame : ∀ c, c ∈ q → ib c s1 = ib c s) by (intros c Hc; apply Hoth; by intros ->).
  destruct (IH (Kctx [] (CBuf b :: wakeups k)) s1 Hok1) as (s2 & Hr2 & Hq2 & Hc2 & Hi2 & Ho2);
    [|done|done|].
  { apply Forall_forall. intros c Hc. rewrite Hsame by done. by apply (proj1 (Forall_forall _ _) Hsec). }
  exists s2. split_and!; try done.
  - cbn [interrupts length]. mb (modify_eq disk_done k s). mb Hrun. rewrite Hr2. do 2 f_equal.
    cbn [wakeups]. rewrite fmap_cons, reverse_cons, <- app_assoc. done.
  - intros v y. rewrite Hc2.
    change (requests s (b :: q) (contents (hw s))) with (requests s q (request (ib b s) (contents (hw s)))).
    by apply requests_ext.
  - intros pre c post He. destruct pre as [|b' pre]; simpl in He; injection He as <- He.
    + rewrite Ho2 by (by subst). by rewrite Hib.
    + rewrite (Hi2 pre c post He), (Hsame c) by (rewrite He; set_solver). f_equal.
      change (requests s (b :: pre) (contents (hw s))) with (requests s pre (request (ib b s) (contents (hw s)))).
      apply requests_ext; [|done]. intros d Hd. apply Hsame. rewrite He. set_solver.
  - intros j Hj. rewrite Ho2 by set_solver. apply Hoth. set_solver.
Qed.

(** Queueing [b] behind [q]. *)
Definition enqueued (b : nat) (q : list nat) (s : ist) : ist :=
  match last q with Some i => set_qn i (Some b) s | None => set_queue (Some b) s end.

Lemma length_queue s q : ide_ok s q → (length q ≤ length (ibufs s))%nat.
Proof.
  intros Hok. rewrite <- (length_seq (length (ibufs s)) 0). apply submseteq_length.
  apply NoDup_submseteq; [apply (ok_nodup s q Hok)|]. intros b Hb. apply elem_of_seq.
  pose proof (proj1 (Forall_forall _ _) (ok_range s q Hok) b Hb) as H.
  cbn beta in H. lia.
Qed.

Lemma enqueued_ok s q b : ide_ok s q → b ∉ q → (b < length (ibufs s))%nat →
  let s1 := enqueued b q (set_qn b None s) in
  length (qnext s1) = length (ibufs s1) ∧ ibufs s1 = ibufs s ∧ hw s1 = hw s ∧ regs s1 = regs s ∧
  outdata s1 = outdata s ∧ NoDup (q ++ [b]) ∧ Forall (λ b, (b < length (ibufs s))%nat) (q ++ [b]) ∧
  chain (qnext s1) (idequeue s1) (q ++ [b]).
Proof.
  intros [H1 H2 H3 H4 H5] Hb Hlt. cbn zeta.
  assert (Hfld : ibufs (enqueued b q (set_qn b None s)) = ibufs s ∧
    hw (enqueued b q (set_qn b None s)) = hw s ∧ regs (enqueued b q (set_qn b None s)) = regs s ∧
    outdata (enqueued b q (set_qn b None s)) = outdata s ∧
    length (qnext (enqueued b q (set_qn b None s))) = length (qnext s)).
  { unfold enqueued. destruct (last q); cbn; by rewrite ?length_insert. }
  destruct Hfld as (F1 & F2 & F3 & F4 & F5). rewrite F1, F5. split_and!; try done.
  - apply NoDup_app. split_and!; [done|set_solver|apply NoDup_singleton].
  - apply Forall_app. split; [done|by apply Forall_singleton].
  - pose proof (chain_insert (qnext s) b None q _ Hb H4) as Hc. unfold enqueued.
    assert (Hn : nthz None (<[b := None]> (qnext s)) b = None) by (apply nthz_insert_eq; lia).
    destruct (last q) as [i|] eqn:El.
    + cbn [set_qn qnext idequeue]. apply chain_snoc; try done.
      rewrite length_insert, H1. done.
    + apply last_None in El. subst q. cbn. by split.
Qed.

(** Iderw queues a request.  For a busy buffer that has to be read or written
    and is not queued yet, iderw appends it to the queue, starts the disk if the queue
    was empty, and sleeps until the buffer is served; buffers and disks are unchanged. *)
Theorem iderw_queues (b : nat) (k : kctx) (s : ist) (q : list nat) :
  ide_ok s q → b ∉ q → (b < length (ibufs s))%nat → held k = [] →
  has (flags (ib b s)) B_BUSY = true →
  Z.land (flags (ib b s)) (Z.lor B_VALID B_DIRTY) ≠ B_VALID →
  (dev (ib b s) = 0 ∨ havedisk1 s = true) →
  ∃ s', iderw b k s = Blocked (CBuf b) (Kctx [] (wakeups k)) s' ∧ ide_ok s' (q ++ [b]) ∧
        ibufs s' = ibufs s ∧ hw s' = hw s.
Proof.
  intros Hok Hb Hlt Hk Hbusy Htodo Hdev. destruct k as [h w]. simpl in Hk. subst h.
  destruct (enqueued_ok s q b Hok Hb Hlt) as (E1 & E2 & E3 & E4 & E5 & E6 & E7 & E8).
  set (s1 := enqueued b q (set_qn b None s)) in *. rewrite E2 in E1.
  assert (Hq : iderw_queue b (Kctx [] w) s = Done tt (Kctx [LIde] w)
                 (if bool_decide (q = []) then started [b] s1 else s1)).
  { unfold iderw_queue. mb (gets_eq (ib b) (Kctx [] w) s). mb (gets_eq havedisk1 (Kctx [] w) s).
    rewrite Hbusy. cbn [negb]. rewrite (proj2 (Z.eqb_neq _ _) Htodo).
    replace (negb (dev (ib b s) =? 0) && negb (havedisk1 s)) with false.
    2:{ destruct Hdev as [->| ->]; [done|]. by rewrite andb_false_r. }
    assert (Ha : acquire LIde (Kctx [] w) s = Done tt (Kctx [LIde] w) s)
      by (apply acquire_eq; simpl; set_solver).
    mb Ha. mb (modify_eq (set_qn b None) (Kctx [LIde] w) s).
    mb (gets_eq (λ s : ist, s) (Kctx [LIde] w) (set_qn b None s)).
    rewrite (queue_append_spec b (set_qn b None s) q _ None).
    2:{ apply chain_insert; [done|apply (ok_chain s q Hok)]. }
    2:{ pose proof (length_queue s q Hok). cbn. lia. }
    change (match last q with Some i => set_qn i (Some b) (set_qn b None s)
            | None => set_queue (Some b) (set_qn b None s) end) with s1.
    mb (modify_eq (λ _, s1) (Kctx [LIde] w) (set_qn b None s)).
    mb (gets_eq idequeue (Kctx [LIde] w) s1).
    destruct q as [|c q]; destruct E8 as [-> _]; [by rewrite !bool_decide_eq_true_2|].
    rewrite (bool_decide_eq_false_2 (c :: q = [])) by done. rewrite bool_decide_eq_false_2; [done|]. intros [= ->]. set_solver. }
  unfold iderw. mb Hq. set (s2 := if bool_decide (q = []) then started [b] s1 else s1).
  assert (F : ibufs s2 = ibufs s ∧ hw s2 = hw s) by (unfold s2; destruct (bool_decide _); by cbn).
  assert (Hib : ib b s2 = ib b s) by (unfold ib; by rewrite (proj1 F)).
  mb (gets_eq (ib b) (Kctx [LIde] w) s2). rewrite Hib, (proj2 (Z.eqb_neq _ _) Htodo). cbn [negb].
  exists s2. split; [by unfold mbind, M_bind; rewrite sleep_eq|]. split; [|done].
  unfold s2. destruct (bool_decide_reflect (q = [])) as [->|Hne].
  - apply started_ok; rewrite ?E2; done.
  - split; rewrite ?E2; try done. destruct q as [|c q]; [done|]. intros d q' [= <- <-].
    unfold ib in *. rewrite E2, E4, E5. apply (ok_started s _ Hok c q eq_refl).
Qed.
End driver.

(** ** A device *)

(** Two disks as a map from drive and sector to blocks. *)
Notation mapdisk := (gmap (bool * Z) block).
Definition map_contents (d : mapdisk) (v : bool) (x : Z) : block := default zero_block (d !! (v, x)).
Definition map_perform (r : idereg) (out : block) (d : mapdisk) : block * mapdisk :=
  (map_contents d (reg_drive r) (reg_sector r),
   if cmd r =? IDE_CMD_WRITE then <[(reg_drive r, reg_sector r) := out]> d else d).

#[global] Instance mapdisk_device : IdeDevice mapdisk.
Proof.
  refine {| contents := map_contents; perform := map_perform |}; intros r out d _ Hc;
    unfold map_perform; rewrite Hc; [done|].
  intros v x. unfold map_contents. change (IDE_CMD_WRITE =? IDE_CMD_WRITE) with true. cbn [snd].
  rewrite lookup_insert. repeat case_decide; naive_solver.
Defined.

(** Two buffers: 0 is to be written to sector 7, 1 read from it. *)
Definition demo_ide : ist (disk := mapdisk) :=
  Ist [Buf 5 1 7 0 0 [42]; Buf 1 1 7 0 0 []] [None; None] None true
    (Idereg 0 0 0 0 0 0) [] [] ∅.

Lemma demo_ide_ok : ide_ok demo_ide [].
Proof. split; try done. constructor. Qed.

Lemma iderw_queues_witness :
  ∃ s', iderw 0 (Kctx [] []) demo_ide = Blocked (CBuf 0) (Kctx [] []) s' ∧ ide_ok s' ([] ++ [0%nat]) ∧
        ibufs s' = ibufs demo_ide ∧ hw s' = hw demo_ide.
Proof.
  apply (iderw_queues 0 (Kctx [] []) demo_ide []); try done; [apply demo_ide_ok|set_solver| |by right].
  simpl. lia.
Defined.

Definition demo_queued : ist (disk := mapdisk) :=
  started [0%nat] (Ist [Buf 5 1 7 0 0 [42]; Buf 1 1 7 0 0 []] [Some 1%nat; None] (Some 0%nat) true
    (Idereg 0 0 0 0 0 0) [] [] ∅).

Lemma ide_serves_in_order_witness :
  ∃ s', interrupts 2 0x40 (Kctx [] []) demo_queued = Done tt (Kctx [] ([CBuf 1; CBuf 0] ++ [])) s' ∧
    idequeue s' = None ∧
    (∀ v y, contents (hw s') v y = requests demo_queued [0; 1]%nat (contents (hw demo_queued)) v y) ∧
    (∀ pre b post, [0; 1]%nat = pre ++ b :: post → ib b s' =
       served (requests demo_queued pre (contents (hw demo_queued)) (Z.odd (dev (ib b demo_queued)))
         (sector (ib b demo_queued))) (ib b demo_queued)) ∧
    (∀ j, j ∉ [0; 1]%nat → ib j s' = ib j demo_queued).
Proof.
  apply (ide_serves_in_order 0x40 (Kctx [] []) demo_queued [0; 1]%nat); [| |done|done].
  - split; try done.
    + apply (bool_decide_unpack _). by vm_compute.
    + repeat constructor; simpl; lia.
    + by intros b q' [= <- <-].
  - repeat constructor; simpl; lia.
Defined.
