(* ===== verification/Log.v ===== *)
(** * log.c: the write-ahead log

    The state is the buffer cache with the disk under it and the fields of
    [struct log].  A transaction is the blocks recorded by log_write between
    begin_op and the end_op that commits; commit() writes them to the log area,
    writes the header (the commit point), installs them, and clears the
    header. *)

From stdpp Require Import base gmap list strings.
From Stdlib Require Import ZArith Lia.
From S2P Require Import Prelude Params Kmonad Bio BioSpec.

Record logstate : Type := Logstate {
  bst : bstate;
  start : Z;              (** log.start *)
  lsize : Z;              (** log.size *)
  outstanding : Z;
  committing : Z;
  ldev : Z;               (** log.dev *)
  lh_n : Z;               (** log.lh.n *)
  lh_sector : list Z      (** log.lh.sector, LOGSIZE entries *)
}.

Definition set_bst (v : bstate) (s : logstate) : logstate :=
  Logstate v (start s) (lsize s) (outstanding s) (committing s) (ldev s) (lh_n s) (lh_sector s).
Definition set_outstanding (v : Z) (s : logstate) : logstate :=
  Logstate (bst s) (start s) (lsize s) v (committing s) (ldev s) (lh_n s) (lh_sector s).
Definition set_committing (v : Z) (s : logstate) : logstate :=
  Logstate (bst s) (start s) (lsize s) (outstanding s) v (ldev s) (lh_n s) (lh_sector s).
Definition set_n (v : Z) (s : logstate) : logstate :=
  Logstate (bst s) (start s) (lsize s) (outstanding s) (committing s) (ldev s) v (lh_sector s).
Definition set_lh_sector (v : list Z) (s : logstate) : logstate :=
  Logstate (bst s) (start s) (lsize s) (outstanding s) (committing s) (ldev s) (lh_n s) v.
Definition set_area (st sz dv : Z) (s : logstate) : logstate :=
  Logstate (bst s) st sz (outstanding s) (committing s) dv (lh_n s) (lh_sector s).

(** Run a routine of bio.c. *)
Definition inb {A} (m : M bstate A) : M logstate A := zoom bst set_bst m.

(** struct superblock and fs.c's readsb, which initlog calls. *)
Record superblock : Type := Superblock {
  sb_size : Z; sb_nblocks : Z; sb_ninodes : Z; sb_nlog : Z
}.

Definition superblock_of (d : block) : superblock :=
  Superblock (get32 d 0) (get32 d 4) (get32 d 8) (get32 d 12).

Definition readsb (dv : Z) : M bstate superblock :=
  bp ← bread dv 1;
  b ← gets (theb bp);
  brelse bp;;
  mret (superblock_of (data b)).

(** memmove(dst->data, src->data, BSIZE) *)
Definition copy_data (dst src : nat) : M bstate unit :=
  x ← gets (theb src);
  modify (updb dst (λ b, set_data (splice (data b) 0 (take (Z.to_nat BSIZE) (data x))) b)).

(** One round of the loop of install_trans. *)
Definition install_block (tail : nat) : M logstate unit :=
  s ← gets id;
  sec ← defined (array_get (lh_sector s) (Z.of_nat tail));
  inb (lbuf ← bread (ldev s) (u32 (start s + Z.of_nat tail + 1));
       dbuf ← bread (ldev s) (u32 sec);
       copy_data dbuf lbuf;;
       bwrite dbuf;;
       brelse lbuf;;
       brelse dbuf).

Definition install_trans : M logstate unit :=
  n ← gets lh_n;
  mfor 0 (Z.to_nat n) install_block.

(** The header block: n, then sector[0], sector[1], ... as 32-bit integers. *)
Definition head_off (i : nat) : nat := (4 + 4 * i)%nat.

Definition read_head : M logstate unit :=
  s ← gets id;
  b ← inb (bread (ldev s) (u32 (start s)));
  d ← gets (λ s, data (theb b (bst s)));
  modify (set_n (i32 (get32 d 0)));;
  n ← gets lh_n;
  mfor 0 (Z.to_nat n) (λ i,
    s ← gets id;
    l ← defined (array_set (lh_sector s) (Z.of_nat i) (i32 (get32 d (head_off i))));
    modify (set_lh_sector l));;
  inb (brelse b).

Definition write_head : M logstate unit :=
  s ← gets id;
  b ← inb (bread (ldev s) (u32 (start s)));
  inb (modify (updb b (λ x, set_data (put32 (data x) 0 (lh_n s)) x)));;
  mfor 0 (Z.to_nat (lh_n s)) (λ i,
    sec ← defined (array_get (lh_sector s) (Z.of_nat i));
    inb (modify (updb b (λ x, set_data (put32 (data x) (head_off i) sec) x))));;
  inb (bwrite b);;
  inb (brelse b).

Definition recover_from_log : M logstate unit :=
  read_head;;
  install_trans;;
  modify (set_n 0);;
  write_head.

(** sizeof(struct logheader) *)
Definition sizeof_logheader : Z := 4 + 4 * LOGSIZE.

Definition initlog : M logstate unit :=
  if sizeof_logheader >=? BSIZE then panic "initlog: too big logheader"
  else
    initlock LLog;;
    sb ← inb (readsb ROOTDEV);
    modify (set_area (i32 (sb_size sb - sb_nlog sb)) (i32 (sb_nlog sb)) ROOTDEV);;
    recover_from_log.

(** One round of the while(1) of begin_op: it gets its reservation, or the
    process sleeps on &log and tries again. *)
Definition begin_op : M logstate unit :=
  acquire LLog;;
  s ← gets id;
  if negb (committing s =? 0) then sleep CLog LLog
  else if lh_n s + (outstanding s + 1) * MAXOPBLOCKS >? LOGSIZE then sleep CLog LLog
  else
    modify (set_outstanding (outstanding s + 1));;
    release LLog.

(** One round of the loop of write_log. *)
Definition log_block (tail : nat) : M logstate unit :=
  s ← gets id;
  sec ← defined (array_get (lh_sector s) (Z.of_nat tail));
  inb (to ← bread (ldev s) (u32 (start s + Z.of_nat tail + 1));
       from ← bread (ldev s) (u32 sec);
       copy_data to from;;
       bwrite to;;
       brelse from;;
       brelse to).

Definition write_log : M logstate unit :=
  n ← gets lh_n;
  mfor 0 (Z.to_nat n) log_block.

Definition commit : M logstate unit :=
  n ← gets lh_n;
  if n >? 0 then
    write_log;;
    write_head;;
    install_trans;;
    modify (set_n 0);;
    write_head
  else mret tt.

Definition end_op : M logstate unit :=
  acquire LLog;;
  modify (λ s, set_outstanding (outstanding s - 1) s);;
  s ← gets id;
  if negb (committing s =? 0) then panic "log.committing"
  else
    do_commit ←
      (if outstanding s =? 0 then modify (set_committing 1);; mret true
       else wakeup CLog;; mret false);
    release LLog;;
    if (do_commit : bool) then
      commit;;
      acquire LLog;;
      modify (set_committing 0);;
      wakeup CLog;;
      release LLog
    else mret tt.

(** The scan for an earlier record of the same block ("log absorbtion"): the
    first [i] below [n] with [sector[i] == sec], or [n]. *)
Fixpoint absorb (l : list Z) (i : nat) (n : nat) (sec : Z) : nat :=
  match n with
  | O => i
  | S n' => if u32 (l.[i]) =? sec then i else absorb l (S i) n' sec
  end.

Definition log_write (b : nat) : M logstate unit :=
  s ← gets id;
  if (lh_n s >=? LOGSIZE) || (lh_n s >=? lsize s - 1) then panic "too big a transaction"
  else if outstanding s <? 1 then panic "log_write outside of trans"
  else
    acquire LLog;;
    s ← gets id;
    let sec := sector (theb b (bst s)) in
    let i := absorb (lh_sector s) 0 (Z.to_nat (lh_n s)) sec in
    l ← defined (array_set (lh_sector s) (Z.of_nat i) (i32 sec));
    modify (set_lh_sector l);;
    (if Z.of_nat i =? lh_n s then modify (set_n (lh_n s + 1)) else mret tt);;
    inb (modify (updb b (λ x, set_flags (Z.lor (flags x) B_DIRTY) x)));;
    release LLog.
