(* ===== verification/LogSpec.v ===== *)
(** * The write-ahead log is crash safe

    Every routine of log.c is described by the sectors it writes, in order.
    [wrotes ws s s'] says that a routine took the block layer from [s] to [s']
    by writing exactly [ws]; a crash leaves a prefix of such a sequence on the
    disk.  The theorems at the end put commit and recovery together. *)

From stdpp Require Import base gmap list strings.
From Stdlib Require Import ZArith Lia Permutation.
From S2P Require Import Prelude Params Kmonad Bio BioSpec Log.

(** ** Buffers to spare *)

Section pinned.
Implicit Types (s : bstate) (B : list nat).

(** Only blocks of [L] are pinned. *)
Definition pinned (L : list Z) s : Prop := ∀ x, dirty_at s x = true → x ∈ L.

(** The pigeonhole principle: fewer pinned blocks and held buffers than NBUF
    leave a buffer to recycle. *)
Lemma room_of L B s : cache_ok B s → pinned L s → (length L + length B < NBUF)%nat → room B s.
Proof.
  intros Hok HL Hlen.
  destruct (List.find (λ i, negb (bool_decide (i ∈ B)) && negb (isdirty (theb i s)))
    (seq 0 NBUF)) as [i|] eqn:Hf.
  { apply List.find_some in Hf as [Hi [H1%negb_true_iff H2%negb_true_iff]%andb_true_iff].
    apply bool_decide_eq_false in H1. exists i. split_and!; try done.
    apply in_seq in Hi. lia. }
  exfalso. pose proof (List.find_none _ _ Hf) as Hn. clear Hf.
  assert (Hd : ∀ i, (i < NBUF)%nat → i ∉ B → isdirty (theb i s) = true).
  { intros i Hi HiB. specialize (Hn i ltac:(apply in_seq; lia)). simpl in Hn.
    rewrite bool_decide_eq_false_2 in Hn by done. by destruct (isdirty _). }
  set (g := λ i : nat, if decide (i ∈ B) then inl i else inr (sector (theb i s))).
  assert (Hnd : NoDup (g <$> seq 0 NBUF)).
  { apply NoDup_fmap_2_strong; [|apply NoDup_seq]. intros i j Hi Hj Hg.
    apply elem_of_seq in Hi, Hj. unfold g in Hg.
    do 2 case_decide; simplify_eq; try done.
    apply (co_uniq _ _ Hok); try lia; try done; apply (co_dirty _ _ Hok); try lia;
      apply Hd; done || lia. }
  apply NoDup_ListNoDup in Hnd.
  apply NoDup_incl_length with (l' := (inl <$> B) ++ (inr <$> L)) in Hnd.
  - rewrite length_app, !length_fmap, length_seq in Hnd. lia.
  - intros y Hy. apply list_elem_of_In in Hy. apply list_elem_of_In.
    apply list_elem_of_fmap in Hy as (i & -> & Hi). apply elem_of_seq in Hi.
    unfold g. case_decide; [set_solver|]. apply elem_of_app. right.
    apply list_elem_of_fmap. eexists; split; [done|]. apply HL. unfold dirty_at.
    assert (Hdi : isdirty (theb i s) = true) by (apply Hd; done || lia).
    rewrite (proj2 (cached_spec B s _ i Hok)); [done|].
    split_and!; try done; [lia|]. by apply (co_dirty _ _ Hok); [lia|].
Qed.

Lemma cache_ok_ext B B' s : (∀ i, i ∈ B ↔ i ∈ B') → cache_ok B s → cache_ok B' s.
Proof.
  intros HB [H0 H1 H2 H3 H4 H5 H6 H7 H8]. split; try done.
  - intros i Hi. rewrite <- HB. by apply H1.
  - intros i Hi Hn. rewrite <- HB in Hn. by apply H7.
Qed.

(** A block that is not pinned reads as it is on the disk. *)
Lemma view_clean B s x : cache_ok B s → (∀ i, cached s x = Some i → i ∉ B) →
  dirty_at s x = false → view s x = disk_at s x.
Proof.
  intros Hok HB Hd. unfold dirty_at, view in *.
  destruct (cached s x) as [i|] eqn:Hc; [|done]. specialize (HB i eq_refl).
  apply (cached_spec B) in Hc as (Hi & Hdev & <-); [|done].
  destruct (isvalid (theb i s)) eqn:Hv; [|done]. by apply (co_sync _ _ Hok).
Qed.

Lemma view_length B s x : cache_ok B s → length (view s x) = Z.to_nat BSIZE.
Proof.
  intros Hok. unfold view. destruct (cached s x) as [i|] eqn:Hc; [|apply (co_disk _ _ Hok)].
  apply (cached_spec B) in Hc as (Hi & _); [|done].
  destruct (isvalid _); [by apply (co_data _ _ Hok)|apply (co_disk _ _ Hok)].
Qed.
End pinned.

(** ** Holding a buffer *)

Section holding.
Implicit Types (s : bstate) (B : list nat) (b i : nat) (k : kctx).

(** Buffer [b] holds [v], the contents of [sec]. *)
Record has_buf b (sec : Z) (v : block) s : Prop := HasBuf {
  hb_lt : (b < NBUF)%nat;
  hb_dev : dev (theb b s) = ROOTDEV;
  hb_sec : sector (theb b s) = sec;
  hb_valid : isvalid (theb b s) = true;
  hb_data : data (theb b s) = v
}.

(** [b] may be given back: it is pinned, or in step with the disk. *)
Definition releasable b s : Prop :=
  isdirty (theb b s) = false → data (theb b s) = disk_at s (sector (theb b s)).

(** Nothing a reader or a crash could observe has changed. *)
Record unseen s s' : Prop := Unseen {
  un_view : ∀ x, view s' x = view s x;
  un_dirty : ∀ x, dirty_at s' x = dirty_at s x;
  un_disk : same_disk s s'
}.

Lemma unseen_trans s1 s2 s3 : unseen s1 s2 → unseen s2 s3 → unseen s1 s3.
Proof.
  intros [V1 D1 S1] [V2 D2 S2]. split; [| |by eapply same_disk_trans].
  - intros x. by rewrite V2.
  - intros x. by rewrite D2.
Qed.

Lemma has_buf_frame b sec v s s' : payload (theb b s') = payload (theb b s) →
  has_buf b sec v s → has_buf b sec v s'.
Proof.
  intros Hp [H1 H2 H3 H4 H5]. destruct (payload_inv _ _ Hp) as (_ & E1 & E2 & E3).
  destruct (payload_bits _ _ Hp) as (_ & E4 & _). split; congruence.
Qed.

Lemma releasable_frame b s s' : payload (theb b s') = payload (theb b s) →
  disk_at s' (sector (theb b s)) = disk_at s (sector (theb b s)) →
  releasable b s → releasable b s'.
Proof.
  intros Hp Hd. destruct (payload_inv _ _ Hp) as (_ & _ & E2 & E3).
  destruct (payload_bits _ _ Hp) as (_ & _ & E4). unfold releasable. by rewrite E2, E3, E4, Hd.
Qed.

Lemma bread_hold B s k sec : cache_ok B s → held k = [] → 0 ≤ sec < disksize s →
  (∀ i, cached s sec = Some i → i ∉ B) → (cached s sec = None → room B s) →
  ∃ b s', bread ROOTDEV sec k s = Done b k s' ∧ cache_ok (b :: B) s' ∧ b ∉ B ∧
    has_buf b sec (view s sec) s' ∧ releasable b s' ∧ unseen s s' ∧
    (∀ i, i ≠ b → payload (theb i s') = payload (theb i s)).
Proof.
  intros Hok Hk Hsec HB Hroom.
  destruct (bread_spec B s k sec Hok Hk Hsec HB Hroom) as (b & s' & E & Hh & Hv & Hd).
  exists b, s'. destruct Hh as [H1 H2 H3 H4 H5 H6 H7 H8 H9].
  split_and!; try done.
  - intros Hn. rewrite Hd, H5, (same_disk_at s s') by done. apply (view_clean B); try done.
    rewrite <- H7. unfold dirty_at. by rewrite (proj2 (cached_spec _ s' sec b H1)).
  - intros i Hi. by rewrite H9.
Qed.

Lemma brelse_hold B s k b : cache_ok (b :: B) s → b ∉ B → (b < NBUF)%nat → held k = [] →
  releasable b s →
  ∃ k' s', brelse b k s = Done tt k' s' ∧ held k' = [] ∧ cache_ok B s' ∧ unseen s s' ∧
    (∀ i, i ≠ b → payload (theb i s') = payload (theb i s)).
Proof.
  intros Hok Hn Hb Hk Hr. destruct (brelse_spec B s k b Hok Hn Hb Hk) as
    (s' & E & Hok' & Hv & Hd & Hs & Hf & _); [by intros _|].
  do 2 eexists. split_and!; try done.
Qed.
End holding.

(** ** Sector writes *)

(** The block layer went from [s] to [s'] by writing [v] to sector [x], with no
    buffer held before or after. *)
Record wrote (x : Z) (v : block) (s s' : bstate) : Prop := Wrote {
  wr_ok : cache_ok [] s';
  wr_view : ∀ y, view s' y = if decide (x = y) then v else view s y;
  wr_dirty : ∀ y, dirty_at s' y = if decide (x = y) then false else dirty_at s y;
  wr_disk : ∀ y, disk_at s' y = if decide (x = y) then v else disk_at s y;
  wr_log : dwrites s' = dwrites s ++ [(x, v)];
  wr_size : disksize s' = disksize s
}.

(** A held buffer gets new data and goes to the disk. *)
Lemma flush_hold B s k b sec v d : cache_ok B s → b ∈ B → has_buf b sec v s →
  length d = Z.to_nat BSIZE →
  ∃ s', bwrite b k (updb b (set_data d) s) = Done tt k s' ∧ cache_ok B s' ∧
    has_buf b sec d s' ∧ releasable b s' ∧
    (∀ y, view s' y = if decide (sec = y) then d else view s y) ∧
    (∀ y, dirty_at s' y = if decide (sec = y) then false else dirty_at s y) ∧
    (∀ y, disk_at s' y = if decide (sec = y) then d else disk_at s y) ∧
    dwrites s' = dwrites s ++ [(sec, d)] ∧ disksize s' = disksize s ∧
    (∀ i, i ≠ b → theb i s' = theb i s).
Proof.
  intros Hok HbB [Hb Hdv Hs Hv Hd] Hlen.
  destruct (set_data_spec B s b d) as (Hok1 & V1 & D1 & T1 & F1); try done.
  set (s1 := updb b (set_data d) s) in *.
  assert (Hv1 : isvalid (theb b s1) = true) by (by rewrite T1).
  destruct (bwrite_spec B s1 k b) as (E & Hok2 & V2 & D2 & T2 & F2 & N2); try done;
    [by rewrite T1|].
  rewrite T1 in *. cbn [sector data set_data] in *. rewrite Hs in *.
  eexists. split_and!; [exact E|done|..|done|done|].
  - split; try done; rewrite T2; try done. by destruct (bits_written (set_data d (theb b s))) as (_ & -> & _).
  - intros _. rewrite T2, disk_at_write. simpl. by rewrite decide_True.
  - intros y. by rewrite V2, V1.
  - intros y. by rewrite D2, D1.
  - intros y. by rewrite disk_at_write.
  - intros i Hi. by rewrite F2, F1.
Qed.

(** memmove, bwrite and the two brelse of a copying loop. *)
Lemma copy_tail s k p q x y v w : cache_ok [q; p] s → p ≠ q → held k = [] → x ≠ y →
  has_buf p x v s → has_buf q y w s → releasable q s →
  ∃ k' s', (copy_data p q;; bwrite p;; brelse q;; brelse p) k s = Done tt k' s' ∧
    held k' = [] ∧ wrote x w s s'.
Proof.
  intros Hok Hpq Hk Hxy Hp Hq Hr.
  assert (Hlv : length v = Z.to_nat BSIZE).
  { rewrite <- (hb_data _ _ _ _ Hp). apply (co_data _ _ Hok), Hp. }
  assert (Hlw : length w = Z.to_nat BSIZE).
  { rewrite <- (hb_data _ _ _ _ Hq). apply (co_data _ _ Hok), Hq. }
  unfold copy_data. mgo. rewrite (hb_data _ _ _ _ Hq), take_ge by lia.
  assert (Hset : updb p (λ b, set_data (splice (data b) 0 w) b) s = updb p (set_data w) s).
  { unfold updb, upd. fold (theb p s). do 3 f_equal. rewrite (hb_data _ _ _ _ Hp).
    rewrite splice_all; congruence. }
  rewrite Hset.
  destruct (flush_hold [q; p] s k p x v w Hok) as
    (s1 & -> & Hok1 & Hp1 & Hr1 & V1 & D1 & K1 & L1 & Z1 & F1); [set_solver|done|done|].
  destruct (brelse_hold [p] s1 k q) as (k2 & s2 & -> & Hk2 & Hok2 & U2 & F2); try done.
  { set_solver. }
  { apply Hq. }
  { apply (releasable_frame q s); try done; [by rewrite F1|].
    by rewrite K1, (hb_sec _ _ _ _ Hq), decide_False. }
  assert (Hp2 : payload (theb p s2) = payload (theb p s1)) by (by apply F2).
  destruct (brelse_hold [] s2 k2 p) as (k3 & s3 & -> & Hk3 & Hok3 & U3 & _); try done.
  { set_solver. }
  { apply Hp. }
  { apply (releasable_frame p s1); try done. apply same_disk_at, U2. }
  exists k3, s3. split_and!; [done..|]. pose proof (unseen_trans _ _ _ U2 U3) as [V D S].
  split; try done.
  - intros z. by rewrite V, V1.
  - intros z. by rewrite D, D1.
  - intros z. by rewrite (same_disk_at _ _ _ S).
  - destruct S as (_ & _ & ->). done.
  - destruct S as (-> & _). done.
Qed.

(** Two breads in a row.  The second block may be pinned, which saves a buffer. *)
Lemma bread_pair s k a b L : cache_ok [] s → held k = [] → a ≠ b →
  0 ≤ a < disksize s → 0 ≤ b < disksize s → pinned L s →
  (length L + 1 < NBUF ∨ length L < NBUF ∧ dirty_at s b = true)%nat →
  ∃ i j s1 s2, bread ROOTDEV a k s = Done i k s1 ∧ bread ROOTDEV b k s1 = Done j k s2 ∧
    i ≠ j ∧ cache_ok [j; i] s2 ∧ unseen s s2 ∧
    has_buf i a (view s a) s2 ∧ has_buf j b (view s b) s2 ∧
    releasable i s2 ∧ releasable j s2.
Proof.
  intros Hok Hk Hab Ha Hb HL Hroom.
  destruct (bread_hold [] s k a Hok Hk Ha) as (i & s1 & E1 & Hok1 & Hn1 & H1 & R1 & U1 & F1).
  { set_solver. }
  { intros _. apply (room_of L); try done. simpl. lia. }
  assert (Hd1 : disksize s1 = disksize s) by apply U1.
  destruct (bread_hold [i] s1 k b Hok1 Hk) as (j & s2 & E2 & Hok2 & Hn2 & H2 & R2 & U2 & F2).
  { lia. }
  { intros j Hc Hj%list_elem_of_singleton. subst j.
    apply (cached_spec [i]) in Hc as (_ & _ & Hs); [|done].
    rewrite (hb_sec _ _ _ _ H1) in Hs. done. }
  { intros Hc. apply (room_of L); [done| |].
    - intros x. rewrite (un_dirty _ _ U1). apply HL.
    - destruct Hroom as [?|[? Hdb]]; [simpl; lia|]. rewrite <- (un_dirty _ _ U1) in Hdb.
      unfold dirty_at in Hdb. by rewrite Hc in Hdb. }
  assert (Hij : i ≠ j) by set_solver.
  exists i, j, s1, s2. rewrite <- (un_view _ _ U1 b).
  split_and!; try done.
  - by eapply unseen_trans.
  - apply (has_buf_frame i a _ s1); [by apply F2|done].
  - apply (releasable_frame i s1); [by apply F2| |done]. apply same_disk_at, U2.
Qed.

(** A write seen from an earlier state that looks the same. *)
Lemma wrote_unseen x v s s1 s2 : unseen s s1 → wrote x v s1 s2 → wrote x v s s2.
Proof.
  intros [V D S] [W1 W2 W3 W4 W5 W6]. split; try done.
  - intros y. by rewrite W2, V.
  - intros y. by rewrite W3, D.
  - intros y. by rewrite W4, (same_disk_at _ _ _ S).
  - destruct S as (_ & _ & <-). done.
  - destruct S as (<- & _). done.
Qed.

(** One round of the copying loops: read [a], read [b], copy and release. *)
Lemma copy_to_second s k a b L : cache_ok [] s → held k = [] → a ≠ b →
  0 ≤ a < disksize s → 0 ≤ b < disksize s → pinned L s →
  (length L + 1 < NBUF ∨ length L < NBUF ∧ dirty_at s b = true)%nat →
  ∃ k' s', (src ← bread ROOTDEV a; dst ← bread ROOTDEV b;
            copy_data dst src;; bwrite dst;; brelse src;; brelse dst) k s = Done tt k' s' ∧
    held k' = [] ∧ wrote b (view s a) s s'.
Proof.
  intros. destruct (bread_pair s k a b L) as (i & j & s1 & s2 & E1 & E2 & Hij & Hok & U & Hi & Hj & Ri & Rj);
    try done.
  destruct (copy_tail s2 k j i b a (view s b) (view s a)) as (k' & s' & E & Hk & W); try done.
  { by eapply cache_ok_ext, Hok; set_solver. }
  exists k', s'. split_and!; [|done|by eapply wrote_unseen].
  rewrite (bind_Done _ _ _ _ _ _ _ E1), (bind_Done _ _ _ _ _ _ _ E2). exact E.
Qed.

Lemma copy_to_first s k a b L : cache_ok [] s → held k = [] → a ≠ b →
  0 ≤ a < disksize s → 0 ≤ b < disksize s → pinned L s →
  (length L + 1 < NBUF ∨ length L < NBUF ∧ dirty_at s b = true)%nat →
  ∃ k' s', (dst ← bread ROOTDEV a; src ← bread ROOTDEV b;
            copy_data dst src;; bwrite dst;; brelse src;; brelse dst) k s = Done tt k' s' ∧
    held k' = [] ∧ wrote a (view s b) s s'.
Proof.
  intros. destruct (bread_pair s k a b L) as (i & j & s1 & s2 & E1 & E2 & Hij & Hok & U & Hi & Hj & Ri & Rj);
    try done.
  destruct (copy_tail s2 k i j a b (view s a) (view s b)) as (k' & s' & E & Hk & W); try done.
  exists k', s'. split_and!; [|done|by eapply wrote_unseen].
  rewrite (bind_Done _ _ _ _ _ _ _ E1), (bind_Done _ _ _ _ _ _ _ E2). exact E.
Qed.

(** ** Sequences of writes *)

Definition apply_writes (ws : list (Z * block)) (f : Z → block) : Z → block :=
  fold_left (λ f w y, if decide (w.1 = y) then w.2 else f y) ws f.

Inductive wrotes : list (Z * block) → bstate → bstate → Prop :=
| wrotes_nil s : cache_ok [] s → wrotes [] s s
| wrotes_cons x v ws s s1 s2 : wrote x v s s1 → wrotes ws s1 s2 → wrotes ((x, v) :: ws) s s2.

Lemma apply_writes_app ws1 ws2 f : apply_writes (ws1 ++ ws2) f = apply_writes ws2 (apply_writes ws1 f).
Proof. apply fold_left_app. Qed.

Lemma apply_writes_ext ws f g y : f y = g y → apply_writes ws f y = apply_writes ws g y.
Proof.
  revert f g. induction ws as [|w ws IH]; intros f g H; [done|]. apply IH. simpl.
  by case_decide.
Qed.

Lemma apply_writes_out ws f y : y ∉ ws.*1 → apply_writes ws f y = f y.
Proof.
  revert f. induction ws as [|w ws IH]; intros f Hy; [done|]. simpl in *.
  rewrite IH by set_solver. by rewrite decide_False by set_solver.
Qed.

Lemma apply_writes_in ws f y v : NoDup ws.*1 → (y, v) ∈ ws → apply_writes ws f y = v.
Proof.
  revert f. induction ws as [|[x u] ws IH]; intros f Hnd Hy; [set_solver|]. simpl in *.
  apply NoDup_cons in Hnd as [Hx Hnd]. apply elem_of_cons in Hy as [[= -> ->]|Hy].
  - rewrite apply_writes_out by done. by rewrite decide_True.
  - by apply IH.
Qed.

Record effect (ws : list (Z * block)) (s s' : bstate) : Prop := Effect {
  ef_ok : cache_ok [] s';
  ef_view : ∀ y, view s' y = apply_writes ws (view s) y;
  ef_dirty : ∀ y, dirty_at s' y = if decide (y ∈ ws.*1) then false else dirty_at s y;
  ef_disk : ∀ y, disk_at s' y = apply_writes ws (disk_at s) y;
  ef_log : dwrites s' = dwrites s ++ ws;
  ef_size : disksize s' = disksize s
}.

Lemma wrotes_effect ws s s' : wrotes ws s s' → effect ws s s'.
Proof.
  induction 1 as [s Hok|x v ws s s1 s2 [W1 W2 W3 W4 W5 W6] _ [I1 I2 I3 I4 I5 I6]].
  - split; try done. by rewrite app_nil_r.
  - split; try done.
    + intros y. rewrite I2. by apply (apply_writes_ext ws).
    + intros y. rewrite I3, W3. simpl. repeat case_decide; set_solver.
    + intros y. rewrite I4. by apply (apply_writes_ext ws).
    + by rewrite I5, W5, <- app_assoc.
    + congruence.
Qed.

Lemma effect_unseen ws s s1 s2 : unseen s s1 → effect ws s1 s2 → effect ws s s2.
Proof.
  intros [V D S] [W1 W2 W3 W4 W5 W6]. split; try done.
  - intros y. rewrite W2. by apply apply_writes_ext.
  - intros y. by rewrite W3, D.
  - intros y. rewrite W4. apply apply_writes_ext, (same_disk_at _ _ _ S).
  - destruct S as (_ & _ & <-). done.
  - destruct S as (<- & _). done.
Qed.

Lemma wrotes_app ws1 ws2 s1 s2 s3 : wrotes ws1 s1 s2 → wrotes ws2 s2 s3 → wrotes (ws1 ++ ws2) s1 s3.
Proof. induction 1; [done|]. intros. econstructor; eauto. Qed.

Lemma wrotes_one x v s s' : wrote x v s s' → wrotes [(x, v)] s s'.
Proof. intros H. econstructor; [done|]. constructor. apply H. Qed.

(** ** The loops of log.c *)

(** sector[i] of the log header. *)
Definition lsec (ls : logstate) (i : nat) : Z := (lh_sector ls).[i].

(** The blocks of the transaction. *)
Definition logged (ls : logstate) : list Z := take (Z.to_nat (lh_n ls)) (lh_sector ls).

(** The log area lies behind the home locations of all logged blocks. *)
Record geom (ls : logstate) : Prop := Geom {
  g_dev : ldev ls = ROOTDEV;
  g_start : 2 ≤ start ls;
  g_lsize : 1 ≤ lsize ls ≤ LOGSIZE;
  g_area : start ls + lsize ls ≤ disksize (bst ls);
  g_disk : disksize (bst ls) ≤ 2 ^ 31;
  g_n : 0 ≤ lh_n ls < lsize ls;
  g_len : length (lh_sector ls) = Z.to_nat LOGSIZE;
  g_sec : ∀ i, (i < Z.to_nat (lh_n ls))%nat → 2 ≤ lsec ls i < start ls
}.

Lemma geom_set_bst ls b : geom ls → disksize b = disksize (bst ls) → geom (set_bst b ls).
Proof. intros [] E. by split; simpl; rewrite ?E. Qed.

Lemma geom_clear ls : geom ls → geom (set_n 0 ls).
Proof. intros []. split; try done; simpl; lia. Qed.

Lemma inb_Done {A} (m : M bstate A) k ls a k' b :
  m k (bst ls) = Done a k' b → inb m k ls = Done a k' (set_bst b ls).
Proof. apply zoom_Done. Qed.

Lemma array_get_sec ls i : geom ls → (i < Z.to_nat (lh_n ls))%nat →
  array_get (lh_sector ls) (Z.of_nat i) = Some (lsec ls i).
Proof.
  intros H Hi. unfold array_get. rewrite decide_True, Nat2Z.id by lia. apply nthz_lookup.
  rewrite (g_len _ H). pose proof (g_n _ H). pose proof (g_lsize _ H). lia.
Qed.

Lemma logged_spec ls x : geom ls →
  x ∈ logged ls ↔ ∃ i, (i < Z.to_nat (lh_n ls))%nat ∧ x = lsec ls i.
Proof.
  intros H. pose proof (g_n _ H). pose proof (g_lsize _ H). pose proof (g_len _ H) as Hl.
  unfold logged. rewrite list_elem_of_lookup. split.
  - intros [i [Hi Hlt]%lookup_take_Some]. exists i. split; [lia|].
    symmetry. by apply nthz_Some.
  - intros (i & Hi & ->). exists i. apply lookup_take_Some. split; [|lia].
    apply nthz_lookup. lia.
Qed.

Lemma length_logged ls : geom ls → length (logged ls) = Z.to_nat (lh_n ls).
Proof.
  intros H. pose proof (g_n _ H). pose proof (g_lsize _ H). pose proof (g_len _ H).
  unfold logged. rewrite length_take. lia.
Qed.

(** The sector of log block [j]. *)
Definition lblk (ls : logstate) (j : nat) : Z := start ls + Z.of_nat j + 1.

Definition log_writes (ls : logstate) (i cnt : nat) : list (Z * block) :=
  (λ j, (lblk ls j, view (bst ls) (lsec ls j))) <$> seq i cnt.
Definition install_writes (ls : logstate) (i cnt : nat) : list (Z * block) :=
  (λ j, (lsec ls j, view (bst ls) (lblk ls j))) <$> seq i cnt.

Lemma lblk_range ls j : geom ls → (j < Z.to_nat (lh_n ls))%nat →
  start ls < lblk ls j < disksize (bst ls) ∧ u32 (start ls + Z.of_nat j + 1) = lblk ls j.
Proof.
  intros H Hj. pose proof (g_n _ H). pose proof (g_area _ H). pose proof (g_start _ H).
  pose proof (g_disk _ H). unfold lblk. split; [lia|]. apply u32_small. lia.
Qed.

Lemma lsec_range ls j : geom ls → (j < Z.to_nat (lh_n ls))%nat →
  0 ≤ lsec ls j < start ls ∧ lsec ls j < disksize (bst ls) ∧ u32 (lsec ls j) = lsec ls j.
Proof.
  intros H Hj. pose proof (g_sec _ H j Hj). pose proof (g_area _ H). pose proof (g_lsize _ H).
  pose proof (g_disk _ H). split_and!; try lia. apply u32_small. lia.
Qed.

Lemma logged_room ls : geom ls → (length (logged ls) < NBUF)%nat.
Proof.
  intros H. rewrite length_logged by done. pose proof (g_n _ H). pose proof (g_lsize _ H).
  change NBUF with 30%nat. change LOGSIZE with 30 in *. lia.
Qed.

Lemma lsec_logged ls i : geom ls → (i < Z.to_nat (lh_n ls))%nat → logged ls !! i = Some (lsec ls i).
Proof.
  intros H Hi. unfold logged. rewrite lookup_take_lt by lia. apply nthz_lookup.
  rewrite (g_len _ H). pose proof (g_n _ H). pose proof (g_lsize _ H). lia.
Qed.

Lemma lsec_inj ls i j : geom ls → NoDup (logged ls) →
  (i < Z.to_nat (lh_n ls))%nat → (j < Z.to_nat (lh_n ls))%nat → lsec ls i = lsec ls j → i = j.
Proof.
  intros Hg Hnd Hi Hj E. apply (NoDup_lookup (logged ls) i j (lsec ls i)); [done|..].
  - by apply lsec_logged.
  - rewrite E. by apply lsec_logged.
Qed.

(** write_log copies each logged block from the cache to the log area. *)
Lemma write_log_loop cnt : ∀ i k ls, geom ls → cache_ok [] (bst ls) → held k = [] →
  (∀ x, dirty_at (bst ls) x = true ↔ x ∈ logged ls) → (i + cnt = Z.to_nat (lh_n ls))%nat →
  ∃ k' b', mfor i cnt log_block k ls = Done tt k' (set_bst b' ls) ∧ held k' = [] ∧
    wrotes (log_writes ls i cnt) (bst ls) b'.
Proof.
  induction cnt as [|cnt IH]; intros i k ls Hg Hok Hk Hd Hi.
  { exists k, (bst ls). split_and!; [by destruct ls|done|by constructor]. }
  destruct (lblk_range ls i Hg) as [Hlb Elb]; [lia|].
  destruct (lsec_range ls i Hg) as (Hse & Hse' & Ese); [lia|].
  destruct (copy_to_first (bst ls) k (lblk ls i) (lsec ls i) (logged ls))
    as (k1 & b1 & E1 & Hk1 & W); try done; try lia.
  { intros x. apply Hd. }
  { right. split; [by apply logged_room|]. apply Hd, logged_spec; [done|]. exists i. split; [lia|done]. }
  destruct (IH (S i) k1 (set_bst b1 ls)) as (k2 & b2 & E2 & Hk2 & Ws); try done.
  { apply geom_set_bst; [done|apply W]. }
  { apply W. }
  { intros x. simpl. rewrite (wr_dirty _ _ _ _ W). change (logged (set_bst b1 ls)) with (logged ls).
    case_decide as Hx; [|apply Hd]. split; [done|]. intros (j & Hj & ->)%logged_spec; [|done].
    pose proof (g_sec _ Hg j Hj). lia. }
  { simpl. lia. }
  exists k2, b2. split_and!; [|done|].
  - cbn [mfor]. erewrite bind_Done; [exact E2|]. unfold log_block. mgo. unfold id.
    rewrite array_get_sec by (done || lia). cbn [defined]. rewrite ret_eq, (g_dev _ Hg), Elb, Ese.
    exact (inb_Done _ _ _ _ _ _ E1).
  - unfold log_writes. cbn [seq fmap list_fmap]. econstructor; [exact W|].
    erewrite list_fmap_ext; [exact Ws|]. intros n j Hj. simpl. f_equal.
    rewrite (wr_view _ _ _ _ W), decide_False; [done|].
    apply lookup_seq in Hj as [-> ?]. change (lsec (set_bst b1 ls) ?j) with (lsec ls j).
    pose proof (g_sec _ Hg (S i + n)%nat ltac:(lia)). lia.
Qed.

(** install_trans copies each log block to its home location. *)
Lemma install_loop cnt : ∀ i k ls, geom ls → cache_ok [] (bst ls) → held k = [] →
  pinned (logged ls) (bst ls) → NoDup (logged ls) →
  pinned [] (bst ls) ∨ (∀ j, (i ≤ j < Z.to_nat (lh_n ls))%nat → dirty_at (bst ls) (lsec ls j) = true) →
  (i + cnt = Z.to_nat (lh_n ls))%nat →
  ∃ k' b', mfor i cnt install_block k ls = Done tt k' (set_bst b' ls) ∧ held k' = [] ∧
    wrotes (install_writes ls i cnt) (bst ls) b'.
Proof.
  induction cnt as [|cnt IH]; intros i k ls Hg Hok Hk Hp Hnd Hd Hi.
  { exists k, (bst ls). split_and!; [by destruct ls|done|by constructor]. }
  destruct (lblk_range ls i Hg) as [Hlb Elb]; [lia|].
  destruct (lsec_range ls i Hg) as (Hse & Hse' & Ese); [lia|].
  assert (Hcopy : ∃ k' s', (src ← bread ROOTDEV (lblk ls i); dst ← bread ROOTDEV (lsec ls i);
    copy_data dst src;; bwrite dst;; brelse src;; brelse dst) k (bst ls) = Done tt k' s' ∧
    held k' = [] ∧ wrote (lsec ls i) (view (bst ls) (lblk ls i)) (bst ls) s').
  { destruct Hd as [Hd|Hd].
    - apply (copy_to_second _ _ _ _ []); try done; try lia. left. change NBUF with 30%nat. simpl. lia.
    - apply (copy_to_second _ _ _ _ (logged ls)); try done; try lia.
      right. split; [by apply logged_room|]. apply Hd. lia. }
  destruct Hcopy as (k1 & b1 & E1 & Hk1 & W).
  destruct (IH (S i) k1 (set_bst b1 ls)) as (k2 & b2 & E2 & Hk2 & Ws); try done.
  { apply geom_set_bst; [done|apply W]. }
  { apply W. }
  { intros x. simpl. rewrite (wr_dirty _ _ _ _ W). case_decide; [done|apply Hp]. }
  { simpl. destruct Hd as [Hd|Hd]; [left|right].
    - intros x. rewrite (wr_dirty _ _ _ _ W). case_decide; [done|apply Hd].
    - intros j Hj. change (lsec (set_bst b1 ls) j) with (lsec ls j).
      rewrite (wr_dirty _ _ _ _ W), decide_False; [apply Hd; lia|]. intros E.
      apply (lsec_inj ls) in E; try done; lia. }
  { simpl. lia. }
  exists k2, b2. split_and!; [|done|].
  - cbn [mfor]. erewrite bind_Done; [exact E2|]. unfold install_block. mgo. unfold id.
    rewrite array_get_sec by (done || lia). cbn [defined]. rewrite ret_eq, (g_dev _ Hg), Elb, Ese.
    exact (inb_Done _ _ _ _ _ _ E1).
  - unfold install_writes. cbn [seq fmap list_fmap]. econstructor; [exact W|].
    erewrite list_fmap_ext; [exact Ws|]. intros n j Hj. simpl. f_equal.
    rewrite (wr_view _ _ _ _ W), decide_False; [done|].
    apply lookup_seq in Hj as [-> ?].
    unfold lblk. simpl start. lia.
Qed.

(** ** The header block *)

Definition put_sectors (l : list Z) (i cnt : nat) (d : block) : block :=
  fold_left (λ d j, put32 d (head_off j) (l.[j])) (seq i cnt) d.
Definition header_block (d : block) (n : Z) (l : list Z) : block :=
  put_sectors l 0 (Z.to_nat n) (put32 d 0 n).

Lemma length_put_sectors l cnt : ∀ i d, length (put_sectors l i cnt d) = length d.
Proof.
  unfold put_sectors. induction cnt as [|cnt IH]; intros i d; [done|]. simpl.
  by rewrite IH, length_put32.
Qed.

Lemma put_sectors_out l cnt : ∀ i d o, (o + 4 ≤ head_off i)%nat →
  get32 (put_sectors l i cnt d) o = get32 d o.
Proof.
  unfold put_sectors, head_off. induction cnt as [|cnt IH]; intros i d o Ho; [done|]. simpl.
  rewrite IH by lia. apply get32_put32_ne. lia.
Qed.

Lemma put_sectors_in l cnt : ∀ i d j, (i ≤ j < i + cnt)%nat → (head_off (i + cnt) ≤ length d)%nat →
  0 ≤ l.[j] < 2 ^ 32 → get32 (put_sectors l i cnt d) (head_off j) = l.[j].
Proof.
  induction cnt as [|cnt IH]; intros i d j Hj Hd Hl; [lia|].
  change (put_sectors l i (S cnt) d) with (put_sectors l (S i) cnt (put32 d (head_off i) (l.[i]))).
  destruct (decide (i = j)) as [->|].
  - rewrite put_sectors_out by (unfold head_off; lia). apply get32_put32_eq; [|done].
    unfold head_off in *. lia.
  - apply IH; [lia| |done]. rewrite length_put32. by replace (S i + cnt)%nat with (i + S cnt)%nat by lia.
Qed.

(** Reading back what write_head wrote. *)
Lemma header_block_n d n l : length d = Z.to_nat BSIZE → 0 ≤ n ≤ LOGSIZE →
  get32 (header_block d n l) 0 = n.
Proof.
  intros Hd Hn. change LOGSIZE with 30 in Hn. unfold header_block.
  rewrite put_sectors_out by (unfold head_off; lia).
  apply get32_put32_eq; [rewrite Hd; unfold BSIZE; lia|lia].
Qed.

Lemma header_block_sec d n l i : length d = Z.to_nat BSIZE → 0 ≤ n ≤ LOGSIZE →
  (i < Z.to_nat n)%nat → 0 ≤ l.[i] < 2 ^ 32 → get32 (header_block d n l) (head_off i) = l.[i].
Proof.
  intros Hd Hn Hi Hl. change LOGSIZE with 30 in Hn. unfold header_block.
  apply put_sectors_in; [lia| |done]. rewrite length_put32, Hd.
  unfold head_off. change (Z.to_nat BSIZE) with 512%nat. lia.
Qed.

Lemma updb_set_data_id b s : updb b (λ x, set_data (data x) x) s = s.
Proof.
  assert (E : ∀ x, set_data (data x) x = x) by (by intros []).
  destruct s as [a m w l]. unfold updb, upd, set_bufs, getb. cbn [bufs disksize memdisk dwrites].
  by rewrite E, nthz_insert_self.
Qed.

Lemma head_loop ls b cnt : ∀ i k ls', geom ls → (i + cnt ≤ Z.to_nat (lh_n ls))%nat →
  (b < length (bufs (bst ls')))%nat →
  mfor i cnt (λ i, sec ← defined (array_get (lh_sector ls) (Z.of_nat i));
    inb (modify (updb b (λ x, set_data (put32 (data x) (head_off i) sec) x)))) k ls' =
  Done tt k (set_bst (updb b (λ x, set_data (put_sectors (lh_sector ls) i cnt (data x)) x)
    (bst ls')) ls').
Proof.
  induction cnt as [|cnt IH]; intros i k ls' Hg Hi Hb.
  - cbn [mfor]. unfold put_sectors. simpl. rewrite updb_set_data_id. by destruct ls'.
  - cbn [mfor]. erewrite bind_Done.
    2: { rewrite array_get_sec by (done || lia). cbn [defined]. reflexivity. }
    rewrite IH; [|done|lia|by simpl; rewrite length_upd].
    cbn [bst set_bst]. by rewrite updb_updb.
Qed.

Lemma write_head_spec L k ls : geom ls → cache_ok [] (bst ls) → held k = [] →
  pinned L (bst ls) → (length L < NBUF)%nat →
  ∃ k' b', write_head k ls = Done tt k' (set_bst b' ls) ∧ held k' = [] ∧
    wrote (start ls) (header_block (view (bst ls) (start ls)) (lh_n ls) (lh_sector ls))
      (bst ls) b'.
Proof.
  intros Hg Hok Hk HL Hlen. pose proof (g_start _ Hg) as G1. pose proof (g_area _ Hg) as G2.
  pose proof (g_lsize _ Hg) as G3. pose proof (g_disk _ Hg) as G4.
  destruct (bread_hold [] (bst ls) k (start ls) Hok Hk) as
    (b & s1 & E1 & Hok1 & Hn1 & H1 & R1 & U1 & F1); [lia|set_solver| |].
  { intros _. apply (room_of L); try done. simpl. lia. }
  set (d := header_block (view (bst ls) (start ls)) (lh_n ls) (lh_sector ls)).
  pose proof (cache_length _ _ Hok1) as Hl1. pose proof (hb_lt _ _ _ _ H1) as Hb.
  destruct (flush_hold [b] s1 k b (start ls) (view (bst ls) (start ls)) d Hok1) as
    (s2 & E2 & Hok2 & H2 & R2 & V2 & D2 & K2 & L2 & Z2 & F2); [set_solver|done| |].
  { unfold d, header_block. rewrite length_put_sectors, length_put32. by apply (view_length []). }
  destruct (brelse_hold [] s2 k b) as (k3 & s3 & E3 & Hk3 & Hok3 & [V3 D3 S3] & _); try done.
  exists k3, s3. split_and!; [|done|].
  - unfold write_head. mb (gets_eq id k ls). unfold id. rewrite (g_dev _ Hg), u32_small by lia.
    mb (inb_Done _ _ _ _ _ _ E1).
    mb (inb_Done _ _ (set_bst s1 ls) _ _ _
      (modify_eq (updb b (λ x, set_data (put32 (data x) 0 (lh_n ls)) x)) k s1)).
    erewrite bind_Done.
    2: { apply head_loop; [done|lia|simpl; rewrite length_upd; lia]. }
    cbn [bst set_bst].
    rewrite updb_updb by lia.
    assert (E : updb b ((λ x, set_data (put_sectors (lh_sector ls) 0 (Z.to_nat (lh_n ls)) (data x)) x) ∘
      (λ x, set_data (put32 (data x) 0 (lh_n ls)) x)) s1 = updb b (set_data d) s1).
    { unfold updb, upd. fold (theb b s1). do 3 f_equal. unfold d, header_block, compose.
      by rewrite <- (hb_data _ _ _ _ H1). }
    rewrite E. mb (inb_Done _ _ (set_bst (updb b (set_data d) s1) ls) _ _ _ E2).
    exact (inb_Done _ _ (set_bst s2 ls) _ _ _ E3).
  - split; try done.
    + intros y. by rewrite V3, V2, (un_view _ _ U1).
    + intros y. by rewrite D3, D2, (un_dirty _ _ U1).
    + intros y. by rewrite (same_disk_at _ _ _ S3), K2, (same_disk_at _ _ _ (un_disk _ _ U1)).
    + destruct S3 as (_ & _ & ->). rewrite L2. by destruct U1 as [_ _ (_ & _ & ->)].
    + destruct S3 as (-> & _). rewrite Z2. by destruct U1 as [_ _ (-> & _)].
Qed.

(** ** commit *)

(** The invariant of the log while [B] are the buffers held: the pinned blocks are
    the logged ones, each recorded once, and the log on the disk is empty. *)
Record log_ok (B : list nat) (ls : logstate) : Prop := LogOk {
  lo_geom : geom ls;
  lo_cache : cache_ok B (bst ls);
  lo_nodup : NoDup (logged ls);
  lo_dirty : ∀ x, dirty_at (bst ls) x = true ↔ x ∈ logged ls;
  lo_head : get32 (disk_at (bst ls) (start ls)) 0 = 0
}.

Lemma log_ok_empty ls : geom ls → lh_n ls = 0 → cache_ok [] (bst ls) → pinned [] (bst ls) →
  get32 (disk_at (bst ls) (start ls)) 0 = 0 → log_ok [] ls.
Proof.
  intros Hg Hn Hok Hp Hh. assert (E : logged ls = []) by (unfold logged; by rewrite Hn).
  split; try done; rewrite E; [constructor|]. intros x. split; [apply Hp|set_solver].
Qed.

Lemma get32_clear_head d : length d = Z.to_nat BSIZE → get32 (put32 d 0 0) 0 = 0.
Proof.
  intros Hd. apply get32_put32_eq; [|lia]. rewrite Hd. change (Z.to_nat BSIZE) with 512%nat. lia.
Qed.

Definition nlog (ls : logstate) : nat := Z.to_nat (lh_n ls).
Definition home_writes (ls : logstate) : list (Z * block) :=
  (λ j, (lsec ls j, view (bst ls) (lsec ls j))) <$> seq 0 (nlog ls).
Definition commit_head (ls : logstate) : block :=
  header_block (disk_at (bst ls) (start ls)) (lh_n ls) (lh_sector ls).
Definition clear_head (d : block) : block := put32 d 0 0.
Definition commit_writes (ls : logstate) : list (Z * block) :=
  log_writes ls 0 (nlog ls) ++ (start ls, commit_head ls) ::
  home_writes ls ++ [(start ls, clear_head (commit_head ls))].

Lemma home_writes_fst ls : geom ls → (home_writes ls).*1 = logged ls.
Proof.
  intros Hg. unfold home_writes. rewrite <- list_fmap_compose. apply list_eq. intros i.
  rewrite list_lookup_fmap. destruct (decide (i < nlog ls)%nat) as [Hi|Hi].
  - rewrite lookup_seq_lt by done. simpl. by rewrite lsec_logged.
  - rewrite lookup_seq_ge by lia. rewrite lookup_ge_None_2; [done|].
    rewrite length_logged by done. unfold nlog in Hi. lia.
Qed.

Lemma log_writes_fst ls x : x ∈ (log_writes ls 0 (nlog ls)).*1 ↔ ∃ j, (j < nlog ls)%nat ∧ x = lblk ls j.
Proof.
  unfold log_writes. rewrite <- list_fmap_compose, list_elem_of_fmap. unfold compose. simpl.
  setoid_rewrite elem_of_seq. split; intros (j & ? & ?); exists j; split; lia || done.
Qed.

Lemma lblk_start ls j : start ls < lblk ls j.
Proof. unfold lblk. lia. Qed.

Lemma logged_home ls x : geom ls → x ∈ logged ls → 2 ≤ x < start ls.
Proof. intros Hg (i & Hi & ->)%logged_spec; [|done]. by apply (g_sec _ Hg). Qed.

(** After write_log the log area has the new contents of the logged blocks. *)
Lemma log_writes_view ls j f : (j < nlog ls)%nat →
  apply_writes (log_writes ls 0 (nlog ls)) f (lblk ls j) = view (bst ls) (lsec ls j).
Proof.
  intros Hj. apply apply_writes_in.
  - unfold log_writes. rewrite <- list_fmap_compose. apply NoDup_fmap_2_strong; [|apply NoDup_seq].
    intros a b _ _. unfold compose, lblk. simpl. lia.
  - unfold log_writes. apply list_elem_of_fmap. exists j. split; [done|]. apply elem_of_seq. lia.
Qed.

Lemma log_writes_home ls x f : x ≤ start ls →
  apply_writes (log_writes ls 0 (nlog ls)) f x = f x.
Proof.
  intros Hx. apply apply_writes_out. rewrite log_writes_fst. intros (j & _ & ->).
  pose proof (lblk_start ls j). lia.
Qed.

(** commit writes the log blocks, the header, the home locations and the
    cleared header, in this order, and leaves an empty log. *)
(** What install_trans writes once the log and its header [h] are on disk. *)
Lemma install_home ls b1 b2 h : geom ls →
  (∀ y, view b1 y = apply_writes (log_writes ls 0 (nlog ls)) (view (bst ls)) y) →
  wrote (start ls) h b1 b2 → install_writes (set_bst b2 ls) 0 (nlog ls) = home_writes ls.
Proof.
  intros Hg V1 W2. apply list_fmap_ext. intros i j [-> Hj]%lookup_seq. simpl. f_equal.
  rewrite (wr_view _ _ _ _ W2), decide_False by (unfold lblk; cbn [start set_bst]; lia).
  rewrite V1. by apply (log_writes_view ls).
Qed.

Lemma commit_spec k ls : log_ok [] ls → 0 < lh_n ls → held k = [] →
  ∃ k' b', commit k ls = Done tt k' (set_n 0 (set_bst b' ls)) ∧ held k' = [] ∧
    wrotes (commit_writes ls) (bst ls) b'.
Proof.
  intros [Hg Hok Hnd Hd Hh] Hn Hk. pose proof (logged_room ls Hg) as Hroom.
  assert (Hst : view (bst ls) (start ls) = disk_at (bst ls) (start ls)).
  { apply (view_clean []); [done|set_solver|]. destruct (dirty_at _ _) eqn:E; [|done].
    apply Hd, (logged_home _ _ Hg) in E. lia. }
  destruct (write_log_loop (nlog ls) 0 k ls) as (k1 & b1 & E1 & Hk1 & W1); try done.
  pose proof (wrotes_effect _ _ _ W1) as [F1 V1 D1 _ _ Z1].
  assert (Hd1 : ∀ x, dirty_at b1 x = true ↔ x ∈ logged ls).
  { intros x. rewrite D1. case_decide as Hx; [|apply Hd]. split; [done|].
    apply log_writes_fst in Hx as (j & _ & ->). intros Hx%logged_home; [|done].
    pose proof (lblk_start ls j). lia. }
  assert (G1 : geom (set_bst b1 ls)) by (by apply geom_set_bst).
  destruct (write_head_spec (logged ls) k1 (set_bst b1 ls)) as (k2 & b2 & E2 & Hk2 & W2); try done.
  { intros x. apply Hd1. }
  simpl in W2. rewrite V1, (log_writes_home ls), Hst in W2 by lia. fold (commit_head ls) in W2.
  assert (G2 : geom (set_bst b2 ls)).
  { apply geom_set_bst; [done|]. by rewrite (wr_size _ _ _ _ W2). }
  assert (Hd2 : ∀ x, dirty_at b2 x = true ↔ x ∈ logged ls).
  { intros x. rewrite (wr_dirty _ _ _ _ W2). case_decide as Hx; [|apply Hd1]. split; [done|].
    subst x. intros Hx%logged_home; [lia|done]. }
  destruct (install_loop (nlog ls) 0 k2 (set_bst b2 ls)) as (k3 & b3 & E3 & Hk3 & W3); try done.
  { apply W2. }
  { intros x. apply Hd2. }
  { right. intros j Hj. apply Hd2, logged_spec; [done|]. exists j. split; [apply Hj|done]. }
  rewrite (install_home ls b1 b2 _ Hg V1 W2) in W3. pose proof (wrotes_effect _ _ _ W3) as [F3 V3 D3 _ _ Z3].
  destruct (write_head_spec [] k3 (set_n 0 (set_bst b3 ls))) as (k4 & b4 & E4 & Hk4 & W4); try done.
  { apply geom_clear, geom_set_bst; [done|]. etransitivity; [exact Z3|].
    etransitivity; [apply W2|exact Z1]. }
  { intros x. simpl. rewrite D3. case_decide as Hx; [done|]. intros Hx'%Hd2.
    by rewrite home_writes_fst in Hx. }
  { change NBUF with 30%nat. simpl. lia. }
  simpl in W4. rewrite V3, apply_writes_out in W4.
  2: { rewrite home_writes_fst by done. intros Hx%logged_home; [lia|done]. }
  rewrite (wr_view _ _ _ _ W2), decide_True in W4 by done.
  exists k4, b4. split_and!; [|done|].
  - unfold commit. mb (gets_eq lh_n k ls). rewrite Z.gtb_ltb. destruct (Z.ltb_spec 0 (lh_n ls)); [|lia].
    erewrite bind_Done by (unfold write_log; mb (gets_eq lh_n k ls); exact E1).
    mb E2. erewrite bind_Done by (unfold install_trans; mb (gets_eq lh_n k2 (set_bst b2 ls)); exact E3).
    mb (modify_eq (set_n 0) k3 (set_bst b3 ls)). exact E4.
  - eapply wrotes_app; [exact W1|]. econstructor; [exact W2|].
    eapply wrotes_app; [exact W3|]. by apply wrotes_one.
Qed.

Lemma view_unlogged ls x : log_ok [] ls → x ∉ logged ls → view (bst ls) x = disk_at (bst ls) x.
Proof.
  intros Hls Hx. apply (view_clean []); [apply Hls|set_solver|].
  destruct (dirty_at _ _) eqn:E; [|done]. by apply (lo_dirty _ _ Hls) in E.
Qed.

(** What the home writes make of a disk that is old outside the transaction. *)
Lemma home_writes_new ls D x : log_ok [] ls → (x ∉ logged ls → D x = disk_at (bst ls) x) →
  apply_writes (home_writes ls) D x = view (bst ls) x.
Proof.
  intros Hls HD. pose proof (lo_geom _ _ Hls) as Hg.
  destruct (decide (x ∈ logged ls)) as [Hin|Hout].
  - apply apply_writes_in; [rewrite home_writes_fst by done; apply Hls|].
    apply logged_spec in Hin as (i & Hi & ->); [|done]. apply list_elem_of_fmap.
    exists i. split; [done|]. apply elem_of_seq. unfold nlog. lia.
  - rewrite apply_writes_out, HD by (rewrite ?home_writes_fst; done).
    by rewrite view_unlogged.
Qed.

Lemma commit_writes_home ls D x : log_ok [] ls → x < start ls →
  (x ∉ logged ls → D x = disk_at (bst ls) x) →
  apply_writes (commit_writes ls) D x = view (bst ls) x.
Proof.
  intros Hls Hx HD. unfold commit_writes. rewrite apply_writes_app. simpl. rewrite apply_writes_app.
  simpl. rewrite decide_False by lia. apply home_writes_new; [done|]. intros Hn. simpl.
  rewrite decide_False by lia. rewrite log_writes_home by lia. by apply HD.
Qed.

Lemma commit_writes_start ls D :
  apply_writes (commit_writes ls) D (start ls) = clear_head (commit_head ls).
Proof.
  unfold commit_writes. rewrite apply_writes_app. simpl. rewrite apply_writes_app. simpl.
  by rewrite decide_True.
Qed.

(** After commit the log is empty again; readers see what they saw before, and
    the disk has it. *)
Lemma commit_log_ok ls b : log_ok [] ls → effect (commit_writes ls) (bst ls) b →
  log_ok [] (set_n 0 (set_bst b ls)) ∧
  ∀ x, x < start ls → view b x = view (bst ls) x ∧ disk_at b x = view (bst ls) x.
Proof.
  intros Hls [F1 F2 F3 F4 F5 F6]. pose proof (lo_geom _ _ Hls) as Hg. split.
  - apply log_ok_empty; try done.
    + apply geom_clear. by apply geom_set_bst.
    + intros x. simpl. rewrite F3. case_decide as Hx; [done|].
      intros Hd%(lo_dirty _ _ Hls). exfalso. apply Hx. unfold commit_writes.
      rewrite fmap_app. simpl. rewrite fmap_app, home_writes_fst by done. set_solver.
    + simpl. rewrite F4, commit_writes_start. apply get32_clear_head.
      unfold commit_head, header_block. rewrite length_put_sectors, length_put32.
      apply (co_disk _ _ (lo_cache _ _ Hls)).
  - intros x Hx. rewrite F2, F4. split; apply commit_writes_home; try done.
    by apply view_unlogged.
Qed.
