(* ===== verification/LogCrash.v ===== *)
(** * Crash safety of the log

    Recovery, seen from the disk it starts with, and the theorems that put
    commit, a crash at any point, and recovery together. *)

From stdpp Require Import base gmap list strings.
From Stdlib Require Import ZArith Lia Permutation.
From S2P Require Import Prelude Params Kmonad Bio BioSpec BioInit Log LogSpec.

(** ** The disk, and what recovery makes of it *)

Abbreviation disk := (Z → block).

Definition hdr_n (d : block) : Z := i32 (get32 d 0).
Definition hdr_sec (d : block) (i : nat) : Z := i32 (get32 d (head_off i)).
Definition hdr_secs (d : block) : list Z := hdr_sec d <$> seq 0 (Z.to_nat (hdr_n d)).

(** A header commit can have left on the disk, for a log of [sz] blocks at [st]. *)
Record hdr_ok (st sz : Z) (d : block) : Prop := HdrOk {
  ho_n : 0 ≤ hdr_n d < sz;
  ho_home : ∀ x, x ∈ hdr_secs d → 2 ≤ x < st;
  ho_nodup : NoDup (hdr_secs d)
}.

(** The writes of recovery on disk [D]. *)
Definition replay (st : Z) (D : disk) : list (Z * block) :=
  (λ j, (hdr_sec (D st) j, D (st + Z.of_nat j + 1))) <$> seq 0 (Z.to_nat (hdr_n (D st))).
Definition recovery_writes (st : Z) (D : disk) : list (Z * block) :=
  replay st D ++ [(st, clear_head (D st))].

(** The file system recovery produces. *)
Definition recovered (st : Z) (D : disk) : disk := apply_writes (recovery_writes st D) D.

(** ** recover_from_log *)

Lemma read_head_loop d cnt : ∀ i k ls, length (lh_sector ls) = Z.to_nat LOGSIZE →
  (i + cnt ≤ Z.to_nat LOGSIZE)%nat →
  ∃ l, mfor i cnt (λ i, s ← gets id;
      l ← defined (array_set (lh_sector s) (Z.of_nat i) (i32 (get32 d (head_off i))));
      modify (set_lh_sector l)) k ls = Done tt k (set_lh_sector l ls) ∧
    length l = Z.to_nat LOGSIZE ∧
    ∀ j, l.[j] = if decide (i ≤ j < i + cnt)%nat then hdr_sec d j else (lh_sector ls).[j].
Proof.
  induction cnt as [|cnt IH]; intros i k ls Hl Hi.
  { exists (lh_sector ls). split_and!; [by destruct ls|done|]. intros j.
    rewrite decide_False by lia. done. }
  set (l1 := <[i := hdr_sec d i]> (lh_sector ls)).
  destruct (IH (S i) k (set_lh_sector l1 ls)) as (l & E & Hlen & Hj); [simpl; unfold l1; len|lia|].
  exists l. split_and!; [|done|].
  - cbn [mfor]. erewrite bind_Done; [exact E|]. mb (gets_eq id k ls). unfold id, array_set.
    rewrite decide_True by lia. rewrite Nat2Z.id. done.
  - intros j. rewrite Hj. simpl. unfold l1. destruct (decide (i = j)) as [->|].
    + rewrite decide_False, decide_True, nthz_insert_eq by lia. done.
    + rewrite nthz_insert_ne by done. repeat case_decide; lia || done.
Qed.

Lemma read_head_spec k ls : ldev ls = ROOTDEV → 0 ≤ start ls < disksize (bst ls) →
  disksize (bst ls) ≤ 2 ^ 31 → length (lh_sector ls) = Z.to_nat LOGSIZE →
  cache_ok [] (bst ls) → pinned [] (bst ls) → held k = [] →
  let d := view (bst ls) (start ls) in hdr_n d ≤ LOGSIZE →
  ∃ k' b' l, read_head k ls = Done tt k' (set_lh_sector l (set_n (hdr_n d) (set_bst b' ls))) ∧
    held k' = [] ∧ cache_ok [] b' ∧ unseen (bst ls) b' ∧ length l = Z.to_nat LOGSIZE ∧
    ∀ j, (j < Z.to_nat (hdr_n d))%nat → l.[j] = hdr_sec d j.
Proof.
  intros Hdev Hst Hsz Hlen Hok Hp Hk d Hn.
  destruct (bread_hold [] (bst ls) k (start ls) Hok Hk) as
    (b & s1 & E1 & Hok1 & Hn1 & H1 & R1 & U1 & F1); [done|set_solver| |].
  { intros _. apply (room_of []); try done. change NBUF with 30%nat. simpl. lia. }
  fold d in H1.
  destruct (brelse_hold [] s1 k b) as (k2 & s2 & E2 & Hk2 & Hok2 & U2 & _); try done.
  { apply H1. }
  destruct (read_head_loop d (Z.to_nat (hdr_n d)) 0 k (set_n (hdr_n d) (set_bst s1 ls)))
    as (l & E3 & Hl & Hj); [done|lia|].
  exists k2, s2, l. split_and!; try done; [|by eapply unseen_trans|].
  - unfold read_head. mb (gets_eq id k ls). unfold id. rewrite Hdev, u32_small by lia.
    mb (inb_Done _ _ _ _ _ _ E1). mb (gets_eq (λ s, data (theb b (bst s))) k (set_bst s1 ls)).
    cbn [bst set_bst]. rewrite (hb_data _ _ _ _ H1).
    mb (modify_eq (set_n (i32 (get32 d 0))) k (set_bst s1 ls)).
    mb (gets_eq lh_n k (set_n (hdr_n d) (set_bst s1 ls))). cbn [lh_n set_n].
    mb E3. exact (inb_Done _ _ (set_lh_sector l (set_n (hdr_n d) (set_bst s1 ls))) _ _ _ E2).
  - intros j Hlt. by rewrite Hj, decide_True by lia.
Qed.

(** Recovery performs [recovery_writes] and leaves an empty log. *)
(** The log a header describes, once it is read. *)
Lemma logged_hdr ls d : geom ls → lh_n ls = hdr_n d →
  (∀ j, (j < Z.to_nat (hdr_n d))%nat → (lh_sector ls).[j] = hdr_sec d j) → logged ls = hdr_secs d.
Proof.
  intros Hg Hn Hj. apply list_eq. intros i. unfold hdr_secs. rewrite list_lookup_fmap.
  destruct (decide (i < Z.to_nat (hdr_n d))%nat) as [Hi|Hi].
  - rewrite lookup_seq_lt by done. rewrite lsec_logged by (by rewrite ?Hn). simpl. by rewrite <- Hj.
  - rewrite lookup_seq_ge by lia. apply lookup_ge_None_2. rewrite length_logged by done. rewrite Hn. lia.
Qed.

Lemma recover_spec k ls : ldev ls = ROOTDEV → 2 ≤ start ls → 1 ≤ lsize ls ≤ LOGSIZE →
  start ls + lsize ls ≤ disksize (bst ls) → disksize (bst ls) ≤ 2 ^ 31 →
  length (lh_sector ls) = Z.to_nat LOGSIZE →
  cache_ok [] (bst ls) → pinned [] (bst ls) → held k = [] →
  hdr_ok (start ls) (lsize ls) (disk_at (bst ls) (start ls)) →
  ∃ k' b' l, recover_from_log k ls = Done tt k' (set_n 0 (set_lh_sector l (set_bst b' ls))) ∧
    held k' = [] ∧ length l = Z.to_nat LOGSIZE ∧
    effect (recovery_writes (start ls) (disk_at (bst ls))) (bst ls) b'.
Proof.
  intros Hdev Hst Hsz Har Hdk Hlen Hok Hp Hk [Hn Hhome Hnd].
  assert (Hv : ∀ x, view (bst ls) x = disk_at (bst ls) x).
  { intros x. apply (view_clean []); [done|set_solver|]. destruct (dirty_at _ _) eqn:E; [|done].
    apply Hp in E. set_solver. }
  destruct (read_head_spec k ls) as (k1 & b1 & l & E1 & Hk1 & Hok1 & U1 & Hl & Hj);
    try done; [lia|rewrite Hv; lia|].
  rewrite Hv in *. set (d := disk_at (bst ls) (start ls)) in *.
  set (ls1 := set_lh_sector l (set_n (hdr_n d) (set_bst b1 ls))) in *.
  assert (Hin : ∀ j, (j < Z.to_nat (hdr_n d))%nat → lsec ls1 j ∈ hdr_secs d).
  { intros j Hlt. unfold lsec. simpl. rewrite Hj by done. unfold hdr_secs.
    apply list_elem_of_fmap. exists j. split; [done|]. apply elem_of_seq. lia. }
  assert (G1 : geom ls1).
  { destruct U1 as [_ _ (Z1 & _)]. split; try done; simpl; rewrite ?Z1; try done.
    intros i Hi. by apply Hhome, Hin. }
  assert (EL : logged ls1 = hdr_secs d) by (by apply logged_hdr).
  assert (P1 : pinned [] b1) by (intros x; rewrite (un_dirty _ _ U1); apply Hp).
  destruct (install_loop (Z.to_nat (hdr_n d)) 0 k1 ls1) as (k2 & b2 & E2 & Hk2 & W2); try done.
  { intros x Hx. by apply P1 in Hx; set_solver. }
  { by rewrite EL. }
  { by left. }
  assert (EW : install_writes ls1 0 (Z.to_nat (hdr_n d)) = replay (start ls) (disk_at (bst ls))).
  { apply list_fmap_ext. intros i j [-> Hi]%lookup_seq. simpl. unfold lsec, lblk. simpl.
    rewrite Hj, (un_view _ _ U1), Hv by done. done. }
  rewrite EW in W2. pose proof (wrotes_effect _ _ _ W2) as [F2 V2 D2 _ _ Z2].
  assert (Hst2 : start ls ∉ (replay (start ls) (disk_at (bst ls))).*1).
  { unfold replay. rewrite <- list_fmap_compose. intros Hx. apply Hhome in Hx. lia. }
  destruct (write_head_spec [] k2 (set_n 0 (set_bst b2 ls1))) as (k3 & b3 & E3 & Hk3 & W3); try done.
  { apply geom_clear, geom_set_bst; done. }
  { intros x. simpl. rewrite D2. case_decide; [done|apply P1]. }
  { change NBUF with 30%nat. simpl. lia. }
  simpl in W3. rewrite V2, apply_writes_out, (un_view _ _ U1), Hv in W3 by done.
  exists k3, b3, l. split_and!; try done.
  - unfold recover_from_log. mb E1.
    erewrite bind_Done by (unfold install_trans; mb (gets_eq lh_n k1 ls1); exact E2).
    mb (modify_eq (set_n 0) k2 (set_bst b2 ls1)). exact E3.
  - eapply effect_unseen; [exact U1|]. apply wrotes_effect.
    eapply wrotes_app; [exact W2|]. by apply wrotes_one.
Qed.

(** ** Crashes *)

Lemma prefix_app_inv {A} (p l1 l2 : list A) : p `prefix_of` l1 ++ l2 →
  p `prefix_of` l1 ∨ ∃ q, p = l1 ++ q ∧ q `prefix_of` l2.
Proof.
  revert p. induction l1 as [|x l1 IH]; intros p Hp; [right; by exists p|].
  destruct p as [|y p]; [left; apply prefix_nil|].
  simpl in Hp. pose proof (prefix_cons_inv_1 _ _ _ _ Hp) as ->.
  apply prefix_cons_inv_2 in Hp. destruct (IH p Hp) as [?|(q & -> & ?)].
  - left. by apply prefix_cons.
  - right. by exists q.
Qed.

Lemma prefix_one_inv {A} (p : list A) x : p `prefix_of` [x] → p = [] ∨ p = [x].
Proof.
  destruct p as [|y p]; [by left|]. intros Hp. right.
  pose proof (prefix_cons_inv_1 _ _ _ _ Hp) as ->. apply prefix_cons_inv_2, prefix_nil_inv in Hp.
  by subst.
Qed.

Lemma prefix_fst {A B} (p l : list (A * B)) x : p `prefix_of` l → x ∈ p.*1 → x ∈ l.*1.
Proof. intros [q ->]. rewrite fmap_app. set_solver. Qed.

Section disk.
Context (st sz : Z).
Implicit Types D : disk.

Lemma hdr_clear d : length d = Z.to_nat BSIZE → hdr_n (clear_head d) = 0.
Proof.
  intros Hd. unfold hdr_n, clear_head. by rewrite get32_clear_head.
Qed.

Lemma hdr_ok_empty d : 0 < sz → hdr_n d = 0 → hdr_ok st sz d.
Proof.
  intros Hsz Hn. assert (E : hdr_secs d = []) by (unfold hdr_secs; by rewrite Hn).
  split; rewrite ?E; [lia|set_solver|constructor].
Qed.

Lemma recovered_empty D x : hdr_n (D st) = 0 → x ≠ st → recovered st D x = D x.
Proof.
  intros Hn Hx. unfold recovered, recovery_writes, replay. rewrite Hn. simpl.
  by rewrite decide_False.
Qed.

Lemma replay_fst D : (replay st D).*1 = hdr_secs (D st).
Proof. unfold replay. by rewrite <- list_fmap_compose. Qed.

Lemma recovered_home D x : x ≠ st → recovered st D x = apply_writes (replay st D) D x.
Proof.
  intros Hx. unfold recovered, recovery_writes. rewrite apply_writes_app. simpl.
  by rewrite decide_False.
Qed.

(** Disks with the same header and the same log area replay the same writes. *)
Lemma replay_ext D D' : (∀ x, st ≤ x → D' x = D x) → replay st D' = replay st D.
Proof.
  intros E. unfold replay. rewrite E by lia. apply list_fmap_ext. intros i j [-> _]%lookup_seq.
  simpl. f_equal. apply E. lia.
Qed.

Lemma replay_out D p x : hdr_ok st sz (D st) → p `prefix_of` replay st D → st ≤ x →
  apply_writes p D x = D x.
Proof.
  intros Hh Hp Hx. apply apply_writes_out. intros Hin. apply (prefix_fst _ _ _ Hp) in Hin.
  rewrite replay_fst in Hin. apply (ho_home _ _ _ Hh) in Hin. lia.
Qed.

(** Replaying over a partial replay. *)
Lemma replay_again D p x : NoDup (replay st D).*1 → p `prefix_of` replay st D →
  apply_writes (replay st D) (apply_writes p D) x = apply_writes (replay st D) D x.
Proof.
  intros Hnd Hp. destruct (decide (x ∈ (replay st D).*1)) as [Hin|Hout].
  - apply list_elem_of_fmap in Hin as ([y v] & -> & Hin). simpl.
    by rewrite !(apply_writes_in _ _ y v).
  - rewrite !(apply_writes_out (replay st D)) by done. apply apply_writes_out.
    intros Hin. by apply Hout, (prefix_fst p).
Qed.

(** A crash of recovery, at any point, is repaired by running it again. *)
Lemma recovery_crash D q : hdr_ok st sz (D st) → length (D st) = Z.to_nat BSIZE →
  q `prefix_of` recovery_writes st D →
  let D' := apply_writes q D in
  hdr_ok st sz (D' st) ∧ ∀ x, x ≠ st → recovered st D' x = recovered st D x.
Proof.
  intros Hh Hlen Hq D'.
  assert (Hpart : ∀ p, p `prefix_of` replay st D → q = p →
    hdr_ok st sz (D' st) ∧ ∀ x, x ≠ st → recovered st D' x = recovered st D x).
  { intros p Hp ->. unfold D'. rewrite (replay_out D) by (done || lia). split; [done|].
    intros x Hx. rewrite !recovered_home by done.
    rewrite (replay_ext D) by (intros; by apply replay_out).
    apply replay_again; [|done]. rewrite replay_fst. apply Hh. }
  apply prefix_app_inv in Hq as [Hq|(q' & -> & [-> | ->]%prefix_one_inv)].
  - by apply (Hpart q).
  - apply (Hpart (replay st D)); [done|apply app_nil_r].
  - assert (E : D' st = clear_head (D st)).
    { unfold D'. rewrite apply_writes_app. simpl. by rewrite decide_True. }
    assert (En : hdr_n (D' st) = 0) by (by rewrite E, hdr_clear).
    split; [apply hdr_ok_empty; [destruct (ho_n _ _ _ Hh); lia|done]|].
    intros x Hx. by rewrite recovered_empty.
Qed.
End disk.

(** ** A crash of commit *)

Section commit.
Context (ls : logstate) (Hls : log_ok [] ls).
Implicit Types D : disk.

Let st := start ls.
Let D0 : disk := disk_at (bst ls).

Lemma head_length : length (D0 st) = Z.to_nat BSIZE.
Proof. apply (co_disk _ _ (lo_cache _ _ Hls)). Qed.

Lemma commit_head_n : hdr_n (commit_head ls) = lh_n ls.
Proof.
  pose proof (g_n _ (lo_geom _ _ Hls)). pose proof (g_lsize _ (lo_geom _ _ Hls)) as Hs.
  change LOGSIZE with 30 in Hs. unfold hdr_n, commit_head.
  rewrite header_block_n; [apply i32_small; lia|apply head_length|change LOGSIZE with 30; lia].
Qed.

Lemma commit_head_sec i : (i < nlog ls)%nat → hdr_sec (commit_head ls) i = lsec ls i.
Proof.
  intros Hi. pose proof (lo_geom _ _ Hls) as Hg. pose proof (g_n _ Hg). pose proof (g_lsize _ Hg).
  pose proof (g_sec _ Hg i Hi) as Hi'. pose proof (g_area _ Hg). pose proof (g_disk _ Hg).
  unfold hdr_sec, commit_head, lsec in *.
  rewrite header_block_sec; [apply i32_small; lia|apply head_length|lia|done|lia].
Qed.

Lemma commit_head_secs : hdr_secs (commit_head ls) = logged ls.
Proof.
  pose proof (lo_geom _ _ Hls) as Hg. rewrite <- home_writes_fst by done.
  unfold hdr_secs, home_writes. rewrite <- list_fmap_compose, commit_head_n.
  apply list_fmap_ext. intros i j [-> Hi]%lookup_seq. by apply commit_head_sec.
Qed.

Lemma commit_head_ok : hdr_ok st (lsize ls) (commit_head ls).
Proof.
  pose proof (lo_geom _ _ Hls) as Hg. split.
  - rewrite commit_head_n. apply Hg.
  - rewrite commit_head_secs. intros x. by apply logged_home.
  - rewrite commit_head_secs. apply Hls.
Qed.

(** A crash before the header is written: the old disk. *)
Lemma crash_before p : p `prefix_of` log_writes ls 0 (nlog ls) →
  let D := apply_writes p D0 in
  hdr_ok st (lsize ls) (D st) ∧ ∀ x, x < st → recovered st D x = D0 x.
Proof.
  intros Hp D. pose proof (g_lsize _ (lo_geom _ _ Hls)).
  assert (Hout : ∀ x, x ≤ st → D x = D0 x).
  { intros x Hx. apply apply_writes_out. intros Hin. apply (prefix_fst _ _ _ Hp) in Hin.
    apply log_writes_fst in Hin as (j & _ & ->). pose proof (lblk_start ls j). unfold st in *. lia. }
  assert (Hn : hdr_n (D st) = 0).
  { rewrite Hout by lia. unfold hdr_n, D0, st. by rewrite (lo_head _ _ Hls). }
  split; [apply hdr_ok_empty; [lia|done]|]. intros x Hx.
  rewrite recovered_empty by (done || lia). apply Hout. lia.
Qed.

(** The disk when the header has just been written. *)
Definition committed : disk :=
  apply_writes (log_writes ls 0 (nlog ls) ++ [(st, commit_head ls)]) D0.

Lemma committed_st : committed st = commit_head ls.
Proof. unfold committed. rewrite apply_writes_app. simpl. by rewrite decide_True. Qed.

Lemma committed_home x : x < st → committed x = D0 x.
Proof.
  intros Hx. unfold committed. rewrite apply_writes_app. simpl. rewrite decide_False by lia.
  apply log_writes_home. unfold st in Hx. lia.
Qed.

Lemma committed_log j : (j < nlog ls)%nat → committed (lblk ls j) = view (bst ls) (lsec ls j).
Proof.
  intros Hj. unfold committed. rewrite apply_writes_app. simpl. pose proof (lblk_start ls j).
  rewrite decide_False by (unfold st; lia). by apply log_writes_view.
Qed.

(** A crash after that: the new disk. *)
Lemma crash_after q : q `prefix_of` home_writes ls ++ [(st, clear_head (commit_head ls))] →
  let D := apply_writes q committed in
  hdr_ok st (lsize ls) (D st) ∧ ∀ x, x < st → recovered st D x = view (bst ls) x.
Proof.
  intros Hq D. pose proof (lo_geom _ _ Hls) as Hg. pose proof (g_lsize _ Hg) as Hsz.
  assert (Hpart : ∀ p, p `prefix_of` home_writes ls → q = p →
    hdr_ok st (lsize ls) (D st) ∧ ∀ x, x < st → recovered st D x = view (bst ls) x).
  { intros p Hp ->. assert (Hout : ∀ x, x ∉ logged ls → D x = committed x).
    { intros x Hx. apply apply_writes_out. intros Hin. apply Hx.
      rewrite <- home_writes_fst by done. by apply (prefix_fst p). }
    assert (Hge : ∀ x, st ≤ x → D x = committed x).
    { intros x Hx. apply Hout. intros Hin%logged_home; [|done]. unfold st in Hx. lia. }
    assert (ER : replay st D = home_writes ls).
    { unfold replay. rewrite Hge, committed_st, commit_head_n by lia.
      apply list_fmap_ext. intros i j [-> Hi]%lookup_seq. simpl.
      rewrite commit_head_sec by done. f_equal. rewrite Hge by lia. by apply committed_log. }
    split; [rewrite Hge, committed_st by lia; apply commit_head_ok|].
    intros x Hx. rewrite recovered_home, ER by lia. apply home_writes_new; [done|]. intros Hx'.
    rewrite Hout by done. by apply committed_home. }
  apply prefix_app_inv in Hq as [Hq|(q' & -> & [-> | ->]%prefix_one_inv)].
  - by apply (Hpart q).
  - apply (Hpart (home_writes ls)); [done|apply app_nil_r].
  - assert (Hn : hdr_n (D st) = 0).
    { unfold D. rewrite apply_writes_app. simpl. rewrite decide_True by done. apply hdr_clear.
      unfold commit_head, header_block. rewrite length_put_sectors, length_put32. apply head_length. }
    split; [apply hdr_ok_empty; [lia|done]|]. intros x Hx. rewrite recovered_empty by (done || lia).
    unfold D. rewrite apply_writes_app. simpl. rewrite decide_False by lia.
    apply home_writes_new; [done|]. intros _. by apply committed_home.
Qed.

(** The disk after a crash of commit: recovery finds nothing to do, or the
    whole transaction. *)
Lemma commit_crash p : p `prefix_of` commit_writes ls →
  let D := apply_writes p D0 in
  hdr_ok st (lsize ls) (D st) ∧
  ((∀ x, x < st → recovered st D x = D0 x) ∨
   (∀ x, x < st → recovered st D x = view (bst ls) x)).
Proof.
  intros Hp D. unfold commit_writes in Hp.
  apply prefix_app_inv in Hp as [Hp|(p' & -> & Hp)]; [by destruct (crash_before p Hp); auto|].
  destruct p' as [|w q].
  - unfold D. rewrite app_nil_r. destruct (crash_before _ (reflexivity (log_writes ls 0 (nlog ls)))); auto.
  - pose proof (prefix_cons_inv_1 _ _ _ _ Hp) as ->. apply prefix_cons_inv_2 in Hp.
    unfold D. rewrite cons_middle, app_assoc, apply_writes_app.
    fold st. fold committed. destruct (crash_after q Hp); auto.
Qed.
End commit.

(** ** Booting *)

(** Zeroed memory over a disk [m] of [n] sectors, and the two initialisations
    that main() and the first process run. *)
Definition boot_log (n : Z) (m : gmap Z block) : logstate :=
  Logstate (boot_bst n m) 0 0 0 0 0 0 (replicate (Z.to_nat LOGSIZE) 0).
Definition boot : M logstate unit := inb binit;; initlog.

Lemma recovery_writes_ext st D D' : (∀ x, D' x = D x) → recovery_writes st D' = recovery_writes st D.
Proof. intros E. unfold recovery_writes. by rewrite E, (replay_ext st D) by (intros; apply E). Qed.

(** The superblock describes the log at [st] with [sz] blocks. *)
Definition sb_ok (st sz : Z) (d : block) : Prop :=
  i32 (sb_size (superblock_of d) - sb_nlog (superblock_of d)) = st ∧
  i32 (sb_nlog (superblock_of d)) = sz.

Lemma readsb_spec k s : cache_ok [] s → pinned [] s → held k = [] → 1 < disksize s →
  ∃ k' s', readsb ROOTDEV k s = Done (superblock_of (view s 1)) k' s' ∧ held k' = [] ∧
    cache_ok [] s' ∧ unseen s s'.
Proof.
  intros Hok Hp Hk Hd.
  destruct (bread_hold [] s k 1 Hok Hk) as
    (b & s1 & E1 & Hok1 & Hn1 & H1 & R1 & U1 & F1); [lia|set_solver| |].
  { intros _. apply (room_of []); try done. change NBUF with 30%nat. simpl. lia. }
  destruct (brelse_hold [] s1 k b) as (k2 & s2 & E2 & Hk2 & Hok2 & U2 & _); try done.
  { apply H1. }
  exists k2, s2. split_and!; try done; [|by eapply unseen_trans].
  unfold readsb. mb E1. mb (gets_eq (theb b) k s1). mb E2. by rewrite (hb_data _ _ _ _ H1).
Qed.

(** A machine that boots from disk [m] recovers it. *)
Lemma boot_spec n m k st sz : let D : disk := λ x, default zero_block (m !! x) in
  held k = [] → 2 ≤ st → 1 ≤ sz ≤ LOGSIZE → st + sz ≤ n → n ≤ 2 ^ 31 →
  (∀ x, length (D x) = Z.to_nat BSIZE) → sb_ok st sz (D 1) → hdr_ok st sz (D st) →
  ∃ k' ls', boot k (boot_log n m) = Done tt k' ls' ∧ held k' = [] ∧ log_ok [] ls' ∧
    start ls' = st ∧ lsize ls' = sz ∧ lh_n ls' = 0 ∧ outstanding ls' = 0 ∧ committing ls' = 0 ∧
    dwrites (bst ls') = recovery_writes st D ∧
    ∀ x, view (bst ls') x = recovered st D x ∧ disk_at (bst ls') x = recovered st D x.
Proof.
  intros D Hk Hst Hsz Har Hn Hlen [Esb Enl] Hh.
  destruct (binit_booted n m k Hk Hlen) as (s0 & E0 & Hok0 & Hc0 & Z0 & M0 & L0).
  assert (Hp0 : pinned [] s0) by (intros x; by rewrite Hc0).
  assert (D0 : ∀ x, disk_at s0 x = D x) by (intros x; unfold disk_at; by rewrite M0).
  assert (V0 : ∀ x, view s0 x = D x).
  { intros x. rewrite <- D0. apply (view_clean []); [done|set_solver|].
    destruct (dirty_at s0 x) eqn:E; [|done]. apply Hp0 in E. set_solver. }
  destruct (readsb_spec k s0) as (k1 & s1 & E1 & Hk1 & Hok1 & U1); try done; [lia|].
  rewrite V0 in E1. set (sb := superblock_of (D 1)) in *.
  set (ls1 := Logstate s1 st sz 0 0 ROOTDEV 0 (replicate (Z.to_nat LOGSIZE) 0)).
  assert (D1 : ∀ x, disk_at s1 x = D x) by (intros x; rewrite <- D0; apply same_disk_at, U1).
  assert (P1 : pinned [] s1) by (intros x; rewrite (un_dirty _ _ U1); apply Hp0).
  assert (Z1 : disksize s1 = n) by (destruct U1 as [_ _ (-> & _)]; done).
  destruct (recover_spec k1 ls1) as (k2 & s2 & l & E2 & Hk2 & Hl & F); try done; simpl;
    rewrite ?Z1, ?D1; try done.
  cbn [bst start ls1] in F. rewrite (recovery_writes_ext st D) in F by apply D1.
  assert (Hv1 : ∀ x, view s1 x = D x) by (intros x; by rewrite (un_view _ _ U1)).
  exists k2, (set_n 0 (set_lh_sector l (set_bst s2 ls1))). destruct F as [F1 F2 F3 F4 F5 F6].
  split_and!; try done.
  - unfold boot. mb (inb_Done _ _ (boot_log n m) _ _ _ E0). unfold initlog.
    change (sizeof_logheader >=? BSIZE) with false. cbv iota.
    mb (initlock_eq LLog k (set_bst s0 (boot_log n m)) ltac:(rewrite Hk; set_solver)).
    mb (inb_Done _ _ (set_bst s0 (boot_log n m)) _ _ _ E1). fold sb. rewrite Esb, Enl.
    mb (modify_eq (set_area st sz ROOTDEV) k1 (set_bst s1 (set_bst s0 (boot_log n m)))).
    exact E2.
  - apply log_ok_empty; try done.
    + split; try done; simpl; [by rewrite F6, Z1..|lia|lia].
    + intros x. simpl. rewrite F3. case_decide; [done|apply P1].
    + simpl. rewrite F4. unfold recovery_writes. rewrite apply_writes_app. simpl.
      rewrite decide_True by done. apply get32_clear_head, Hlen.
  - simpl. rewrite F5. destruct U1 as [_ _ (_ & _ & ->)]. by rewrite L0.
  - intros x. simpl. rewrite F2, F4. split; by apply apply_writes_ext.
Qed.

(** ** The file system after any number of crashes *)

(** [D'] is left by recoveries that started on [D] and crashed. *)
Inductive crashed (st : Z) : disk → disk → Prop :=
| crashed_here D : crashed st D D
| crashed_again D q D' : q `prefix_of` recovery_writes st D →
    crashed st (apply_writes q D) D' → crashed st D D'.

(** A disk recovery can start from. *)
Record bootable (st sz : Z) (D : disk) : Prop := Bootable {
  bo_len : ∀ x, length (D x) = Z.to_nat BSIZE;
  bo_sb : sb_ok st sz (D 1);
  bo_hdr : hdr_ok st sz (D st)
}.

Definition full_blocks (ws : list (Z * block)) : Prop :=
  ∀ w, w ∈ ws → length w.2 = Z.to_nat BSIZE.

Lemma apply_writes_length ws D x : full_blocks ws → length (D x) = Z.to_nat BSIZE →
  length (apply_writes ws D x) = Z.to_nat BSIZE.
Proof.
  revert D. induction ws as [|w ws IH]; intros D Hw HD; [done|]. simpl.
  apply IH; [intros w' Hw'; apply Hw; set_solver|]. case_decide; [apply Hw; set_solver|done].
Qed.

Lemma full_blocks_prefix p ws : p `prefix_of` ws → full_blocks ws → full_blocks p.
Proof. intros [q ->] H w Hw. apply H. set_solver. Qed.

Lemma recovery_full st D : (∀ x, length (D x) = Z.to_nat BSIZE) → full_blocks (recovery_writes st D).
Proof.
  intros HD w. unfold recovery_writes. intros [Hw|Hw%list_elem_of_singleton]%elem_of_app.
  - apply list_elem_of_fmap in Hw as (j & -> & _). apply HD.
  - subst w. simpl. unfold clear_head. by rewrite length_put32.
Qed.

Lemma bootable_crashed st sz D D' : 2 ≤ st → bootable st sz D → crashed st D D' →
  bootable st sz D' ∧ ∀ x, x ≠ st → recovered st D' x = recovered st D x.
Proof.
  intros Hst HD Hc. induction Hc as [D|D q D' Hq _ IH]; [done|].
  destruct HD as [Hl Hs Hh]. destruct (recovery_crash st sz D q Hh (Hl st) Hq) as [Hh' Hr].
  destruct IH as [Hb Hr'].
  - split; [|rewrite apply_writes_out; [done|]|done].
    + intros x. apply apply_writes_length; [|done]. eapply full_blocks_prefix, recovery_full; done.
    + intros Hin. apply (prefix_fst _ _ _ Hq) in Hin. unfold recovery_writes in Hin.
      rewrite fmap_app, replay_fst in Hin. apply elem_of_app in Hin as [Hin|Hin].
      * apply (ho_home _ _ _ Hh) in Hin. lia.
      * apply list_elem_of_singleton in Hin. simpl in Hin. lia.
  - split; [done|]. intros x Hx. by rewrite Hr', Hr.
Qed.

Lemma commit_full ls : log_ok [] ls → full_blocks (commit_writes ls).
Proof.
  intros Hls w. assert (Hh : length (commit_head ls) = Z.to_nat BSIZE).
  { unfold commit_head, header_block. rewrite length_put_sectors, length_put32. by apply head_length. }
  assert (Hv : ∀ x, length (view (bst ls) x) = Z.to_nat BSIZE).
  { intros x. apply (view_length []), Hls. }
  unfold commit_writes. intros [Hw|[-> |[Hw|Hw%list_elem_of_singleton]%elem_of_app]%elem_of_cons]%elem_of_app.
  - apply list_elem_of_fmap in Hw as (j & -> & _). apply Hv.
  - done.
  - apply list_elem_of_fmap in Hw as (j & -> & _). apply Hv.
  - subst w. simpl. unfold clear_head. by rewrite length_put32.
Qed.

Lemma commit_writes_sb ls p D : log_ok [] ls → p `prefix_of` commit_writes ls →
  apply_writes p D 1 = D 1.
Proof.
  intros Hls Hp. pose proof (lo_geom _ _ Hls) as Hg. pose proof (g_start _ Hg).
  apply apply_writes_out. intros Hin. apply (prefix_fst _ _ _ Hp) in Hin.
  unfold commit_writes in Hin. rewrite fmap_app in Hin. simpl in Hin.
  rewrite fmap_app, home_writes_fst in Hin by done.
  apply elem_of_app in Hin as [Hin|[Hin|[Hin|Hin]%elem_of_app]%elem_of_cons].
  - apply log_writes_fst in Hin as (j & _ & Hj). pose proof (lblk_start ls j). lia.
  - lia.
  - apply logged_home in Hin; [lia|done].
  - apply list_elem_of_singleton in Hin. simpl in Hin. lia.
Qed.

(** Booting after a crash of commit and any number of crashed recoveries. *)
Lemma boot_after_crash ls p D m k : log_ok [] ls →
  sb_ok (start ls) (lsize ls) (disk_at (bst ls) 1) →
  p `prefix_of` commit_writes ls → crashed (start ls) (apply_writes p (disk_at (bst ls))) D →
  (∀ x, default zero_block (m !! x) = D x) → held k = [] →
  ∃ k' ls', boot k (boot_log (disksize (bst ls)) m) = Done tt k' ls' ∧ log_ok [] ls' ∧
    ((∀ x, x < start ls → view (bst ls') x = disk_at (bst ls) x) ∨
     (∀ x, x < start ls → view (bst ls') x = view (bst ls) x)).
Proof.
  intros Hls Hsb Hp Hc Hm Hk. pose proof (lo_geom _ _ Hls) as Hg.
  destruct (commit_crash ls Hls p Hp) as [Hh Hr].
  assert (Hb : bootable (start ls) (lsize ls) (apply_writes p (disk_at (bst ls)))).
  { split; [|by rewrite (commit_writes_sb ls)|done]. intros x. apply apply_writes_length.
    - eapply full_blocks_prefix; [done|by apply commit_full].
    - apply (co_disk _ _ (lo_cache _ _ Hls)). }
  destruct (bootable_crashed _ _ _ _ (g_start _ Hg) Hb Hc) as [[B1 B2 B3] Hr'].
  destruct (boot_spec (disksize (bst ls)) m k (start ls) (lsize ls)) as
    (k' & ls' & E & _ & Hls' & _ & _ & _ & _ & _ & _ & Hv); try done; try apply Hg.
  { intros x. by rewrite Hm. }
  { by rewrite Hm. }
  { by rewrite Hm. }
  assert (Hrec : ∀ x, view (bst ls') x = recovered (start ls) D x).
  { intros x. rewrite (proj1 (Hv x)). unfold recovered.
    rewrite (recovery_writes_ext _ D) by apply Hm. by apply apply_writes_ext. }
  exists k', ls'. split_and!; try done.
  destruct Hr as [Hr|Hr]; [left|right]; intros x Hx; rewrite Hrec, Hr' by lia; by apply Hr.
Qed.
