(* ===== verification/LogOps.v ===== *)
(** * begin_op, log_write and end_op

    The interface of the log to the file system: a reservation, the recording of a
    modified block, and the commit, with the crash-safety theorem.  The last part is the
    idiom of fs.c: bread, modify, log_write, brelse. *)

From stdpp Require Import base gmap list strings.
From Stdlib Require Import ZArith Lia Permutation.
From S2P Require Import Prelude Params Kmonad Bio BioSpec BioInit Log LogSpec LogCrash.

(** ** log_write *)

Lemma absorb_spec l sec n : ∀ i, let j := absorb l i n sec in
  (i ≤ j ≤ i + n)%nat ∧ ((j < i + n)%nat → u32 (l.[j]) = sec) ∧
  ∀ m, (i ≤ m < j)%nat → u32 (l.[m]) ≠ sec.
Proof.
  induction n as [|n IH]; intros i; simpl; [split_and!; intros; lia|].
  destruct (Z.eqb_spec (u32 (l.[i])) sec) as [E|E]; [split_and!; intros; done || lia|].
  destruct (IH (S i)) as (H1 & H2 & H3). split_and!; [lia..| |].
  - intros. apply H2. lia.
  - intros m Hm. destruct (decide (m = i)) as [->|]; [done|]. apply H3. lia.
Qed.

Lemma lsec_u32 ls i : geom ls → (i < nlog ls)%nat → u32 (lsec ls i) = lsec ls i.
Proof. intros Hg Hi. by apply lsec_range. Qed.

(** A logged block is found where it is recorded; a new one gets the next slot. *)
Lemma absorb_logged ls sec : geom ls →
  let i := absorb (lh_sector ls) 0 (nlog ls) sec in
  (sec ∈ logged ls → (i < nlog ls)%nat ∧ lsec ls i = sec) ∧ (sec ∉ logged ls → i = nlog ls).
Proof.
  intros Hg i. destruct (absorb_spec (lh_sector ls) sec (nlog ls) 0) as (H1 & H2 & H3).
  fold i in H1, H2, H3. split.
  - intros (m & Hm & ->)%logged_spec; [|done]. fold (nlog ls) in Hm.
    assert (Hi : (i < nlog ls)%nat).
    { destruct (decide (i < nlog ls)%nat); [done|]. exfalso. apply (H3 m); [lia|]. by apply lsec_u32. }
    split; [done|]. rewrite <- H2 by lia. symmetry. by apply lsec_u32.
  - intros Hn. destruct (decide (i < nlog ls)%nat) as [Hi|]; [|lia]. exfalso. apply Hn.
    apply logged_spec; [done|]. exists i. split; [done|].
    rewrite <- H2 by lia. by apply lsec_u32.
Qed.

(** The header after recording a new block in the next slot. *)
Definition record_block (sec : Z) (ls : logstate) : logstate :=
  set_n (lh_n ls + 1) (set_lh_sector (<[nlog ls := sec]> (lh_sector ls)) ls).

Lemma record_block_geom sec ls : geom ls → 2 ≤ sec < start ls → lh_n ls < lsize ls - 1 →
  geom (record_block sec ls).
Proof.
  intros [H1 H2 H3 H4 H5 H6 H7 H8] Hs Hn. split; try done; simpl; [lia|len|].
  intros i Hi. unfold lsec, nlog in *. simpl.
  destruct (decide (i = Z.to_nat (lh_n ls))) as [->|].
  - rewrite nthz_insert_eq by (rewrite H7; lia). done.
  - rewrite nthz_insert_ne by done. apply H8. lia.
Qed.

Lemma record_block_logged sec ls : geom ls → lh_n ls < lsize ls - 1 →
  logged (record_block sec ls) = logged ls ++ [sec].
Proof.
  intros Hg Hn. pose proof (g_len _ Hg). pose proof (g_lsize _ Hg). pose proof (g_n _ Hg).
  unfold logged, record_block. simpl.
  replace (Z.to_nat (lh_n ls + 1)) with (S (nlog ls)) by (unfold nlog; lia).
  rewrite (take_S_r _ _ sec) by (apply list_lookup_insert_eq; unfold nlog; lia).
  f_equal. by apply take_insert_ge.
Qed.

Definition set_dirty (b : nat) : bstate → bstate :=
  updb b (λ x, set_flags (Z.lor (flags x) B_DIRTY) x).

Lemma set_dirty_spec B s b sec v : cache_ok B s → b ∈ B → has_buf b sec v s →
  cache_ok B (set_dirty b s) ∧ (∀ x, view (set_dirty b s) x = view s x) ∧
  (∀ x, dirty_at (set_dirty b s) x = if decide (sec = x) then true else dirty_at s x) ∧
  has_buf b sec v (set_dirty b s) ∧ releasable b (set_dirty b s) ∧
  (∀ i, i ≠ b → theb i (set_dirty b s) = theb i s).
Proof.
  intros Hok HbB [Hb Hd Hs Hv Ha]. pose proof (cache_length _ _ Hok) as Hlen.
  destruct (bits_set_dirty (theb b s)) as (B1 & B2 & B3).
  assert (Hok' : cache_ok B (set_dirty b s)).
  { apply (cache_ok_keep B); try done; rewrite ?B1, ?B2, ?B3; try done.
    - by apply (co_busy _ _ Hok).
    - by apply (co_data _ _ Hok). }
  assert (Hth : theb b (set_dirty b s) = set_flags (Z.lor (flags (theb b s)) B_DIRTY) (theb b s)).
  { unfold set_dirty. by rewrite theb_updb, decide_True by lia. }
  split_and!; try done.
  - intros x. unfold set_dirty. rewrite (view_upd B B) by done. rewrite B2. simpl.
    case_decide as Hx; [|by rewrite ?decide_False]. destruct Hx as [_ <-].
    by rewrite (view_cached B).
  - intros x. unfold set_dirty. rewrite (dirty_upd B B) by done. rewrite B3. simpl.
    rewrite Hs, Hd. destruct (decide (sec = x)); [by rewrite decide_True|].
    by rewrite !decide_False by tauto.
  - split; rewrite ?Hth; try done. by rewrite B2.
  - intros Hn. rewrite Hth, B3 in Hn. done.
  - intros i Hi. unfold set_dirty. by rewrite theb_updb, decide_False by (congruence || lia).
Qed.

(** What log_write does, by whether the block is already in the transaction. *)
Lemma log_write_eq k ls b : geom ls → LLog ∉ held k → 1 ≤ outstanding ls →
  lh_n ls < lsize ls - 1 → let sec := sector (theb b (bst ls)) in 2 ≤ sec < start ls →
  log_write b k ls = Done tt k (set_bst (set_dirty b (bst ls))
    (if decide (sec ∈ logged ls) then ls else record_block sec ls)).
Proof.
  intros Hg Hk Ho Hn sec Hs. pose proof (g_lsize _ Hg) as Hl. pose proof (g_n _ Hg) as Hn'.
  pose proof (g_len _ Hg) as Hlen. pose proof (g_area _ Hg) as Ha. pose proof (g_disk _ Hg) as Hd.
  destruct k as [h w]. simpl in Hk.
  unfold log_write. mgo. unfold id.
  rewrite !Z.geb_leb. destruct (Z.leb_spec LOGSIZE (lh_n ls)); [lia|].
  destruct (Z.leb_spec (lsize ls - 1) (lh_n ls)); [lia|]. cbn [orb].
  destruct (Z.ltb_spec (outstanding ls) 1); [lia|]. mgo. unfold id. fold sec (nlog ls).
  rewrite (i32_small sec) by lia.
  destruct (absorb_logged ls sec Hg) as [Hin Hout]. set (i := absorb _ _ _ _) in *.
  assert (Hi : (i ≤ nlog ls)%nat) by apply (absorb_spec (lh_sector ls) sec (nlog ls) 0).
  unfold array_set. rewrite decide_True by (unfold nlog in *; lia). rewrite Nat2Z.id.
  cbn [defined]. rewrite ret_eq. mgo. case_decide as Hx.
  - destruct (Hin Hx) as [Hlt E]. destruct (Z.eqb_spec (Z.of_nat i) (lh_n ls)); [unfold nlog in *; lia|].
    rewrite <- E. unfold lsec. rewrite nthz_insert_self. mgo.
    unfold inb, zoom. rewrite modify_eq, release_top. by destruct ls.
  - rewrite (Hout Hx). destruct (Z.eqb_spec (Z.of_nat (nlog ls)) (lh_n ls)); [|unfold nlog in *; lia].
    mgo. unfold inb, zoom. rewrite modify_eq, release_top. done.
Qed.

(** log_write records the block of a held buffer once and pins it. *)
Lemma log_write_spec B k ls b sec v : log_ok B ls → LLog ∉ held k → b ∈ B →
  has_buf b sec v (bst ls) → 2 ≤ sec < start ls → 1 ≤ outstanding ls → lh_n ls < lsize ls - 1 →
  let ls' := set_bst (set_dirty b (bst ls))
    (if decide (sec ∈ logged ls) then ls else record_block sec ls) in
  log_write b k ls = Done tt k ls' ∧ log_ok B ls' ∧
  logged ls' = (if decide (sec ∈ logged ls) then logged ls else logged ls ++ [sec]).
Proof.
  intros [Hg Hok Hnd Hd Hh] Hk HbB Hb Hs Ho Hn ls'.
  destruct (set_dirty_spec B (bst ls) b sec v Hok HbB Hb) as (Hok' & _ & Hd' & _ & _ & _).
  assert (EL : logged ls' = (if decide (sec ∈ logged ls) then logged ls else logged ls ++ [sec])).
  { unfold ls'. case_decide; [done|]. by apply record_block_logged. }
  split_and!; [|split|done].
  - rewrite log_write_eq; try done; by rewrite (hb_sec _ _ _ _ Hb).
  - apply geom_set_bst; [|by case_decide]. case_decide; [done|by apply record_block_geom].
  - done.
  - rewrite EL. case_decide; [done|]. apply NoDup_app. split_and!; [done| |apply NoDup_singleton].
    set_solver.
  - intros x. rewrite EL. simpl. rewrite Hd'. destruct (decide (sec = x)) as [Hx|Hx].
    + subst x. split; [|done]. intros _. case_decide; set_solver.
    + rewrite Hd. case_decide; set_solver.
  - unfold ls'. by case_decide.
Qed.

(** ** begin_op *)

(** The reservation begin_op makes: the blocks in the log and MAXOPBLOCKS for each
    running operation fit in LOGSIZE. *)
Definition log_space (ls : logstate) : Prop :=
  0 ≤ outstanding ls ∧ lh_n ls + outstanding ls * MAXOPBLOCKS ≤ LOGSIZE.

Lemma begin_op_eq k ls : held k = [] →
  begin_op k ls =
    if negb (committing ls =? 0) || (lh_n ls + (outstanding ls + 1) * MAXOPBLOCKS >? LOGSIZE)
    then Blocked CLog k ls
    else Done tt k (set_outstanding (outstanding ls + 1) ls).
Proof.
  intros Hk. destruct k as [h w]. simpl in Hk. subst h. unfold begin_op. mgo. unfold id.
  destruct (negb (committing ls =? 0)); [by mgo|]. cbn [orb].
  by destruct (_ >? LOGSIZE); mgo.
Qed.

(** ** end_op *)

Lemma end_op_other k ls : held k = [] → committing ls = 0 → outstanding ls ≠ 1 →
  end_op k ls = Done tt (Kctx [] (CLog :: wakeups k)) (set_outstanding (outstanding ls - 1) ls).
Proof.
  intros Hk Hc Ho. destruct k as [h w]. simpl in Hk. subst h. unfold end_op. mgo.
  unfold id. simpl. rewrite Hc. cbn [Z.eqb negb].
  destruct (Z.eqb_spec (outstanding ls - 1) 0); [lia|]. by mgo.
Qed.

Definition end_writes (ls : logstate) : list (Z * block) :=
  if 0 <? lh_n ls then commit_writes ls else [].

Lemma log_ok_fields B ls ls' : bst ls' = bst ls → start ls' = start ls → lsize ls' = lsize ls →
  ldev ls' = ldev ls → lh_n ls' = lh_n ls → lh_sector ls' = lh_sector ls →
  log_ok B ls → log_ok B ls'.
Proof.
  intros E1 E2 E3 E4 E5 E6 [[] Hok Hnd Hd Hh].
  assert (EL : logged ls' = logged ls) by (unfold logged; by rewrite E5, E6).
  split; rewrite ?EL, ?E1, ?E2; try done.
  split; unfold lsec in *; rewrite ?E1, ?E2, ?E3, ?E4, ?E5, ?E6; done.
Qed.

(** The last operation commits: every block a reader sees is on the disk. *)
Lemma end_op_spec k ls : log_ok [] ls → held k = [] → committing ls = 0 → outstanding ls = 1 →
  ∃ k' ls', end_op k ls = Done tt k' ls' ∧ held k' = [] ∧ log_ok [] ls' ∧
    lh_n ls' = 0 ∧ outstanding ls' = 0 ∧ committing ls' = 0 ∧
    dwrites (bst ls') = dwrites (bst ls) ++ end_writes ls ∧
    ∀ x, x < start ls → view (bst ls') x = view (bst ls) x ∧ disk_at (bst ls') x = view (bst ls) x.
Proof.
  intros Hls Hk Hc Ho. pose proof (g_n _ (lo_geom _ _ Hls)) as Hn.
  set (ls1 := set_committing 1 (set_outstanding 0 ls)).
  assert (Hls1 : log_ok [] ls1) by (by apply (log_ok_fields [] ls)).
  assert (Hcommit : ∃ k' b, commit k ls1 = Done tt k' (set_n 0 (set_bst b ls1)) ∧ held k' = [] ∧
    log_ok [] (set_n 0 (set_bst b ls1)) ∧ dwrites b = dwrites (bst ls) ++ end_writes ls ∧
    ∀ x, x < start ls → view b x = view (bst ls) x ∧ disk_at b x = view (bst ls) x).
  { unfold end_writes. destruct (Z.ltb_spec 0 (lh_n ls)) as [Hpos|Hz].
    - destruct (commit_spec k ls1 Hls1) as (k' & b & E & Hk' & W%wrotes_effect); [done..|].
      exists k', b. destruct (commit_log_ok ls1 b Hls1 W) as [Hok Hv].
      split_and!; try done. apply (ef_log _ _ _ W).
    - assert (E0 : lh_n ls = 0) by lia. exists k, (bst ls).
      assert (Eq : set_n 0 (set_bst (bst ls) ls1) = ls1) by (unfold ls1; rewrite <- E0; by destruct ls).
      rewrite Eq, app_nil_r. split_and!; try done.
      + unfold commit. mb (gets_eq lh_n k ls1). simpl. by rewrite E0.
      + intros x Hx. split; [done|]. symmetry. apply (view_unlogged ls1); [done|].
        unfold logged. simpl. rewrite E0. set_solver. }
  destruct Hcommit as (k' & b & E & Hk' & Hok & Hw & Hv).
  exists (Kctx [] (CLog :: wakeups k')), (set_committing 0 (set_n 0 (set_bst b ls1))).
  split_and!; try done; [|by eapply (log_ok_fields [] (set_n 0 (set_bst b ls1)))].
  destruct k as [h w], k' as [h' w']. simpl in Hk, Hk'. subst h h'. unfold end_op. mgo.
  unfold id. cbn [committing set_outstanding outstanding]. rewrite Hc, Ho. cbn [Z.eqb negb Z.sub].
  change (1 - 1) with 0. cbn [Z.eqb]. mgo. fold ls1. rewrite E. by mgo.
Qed.

(** ** The theorems about the log *)

(** C1: the log is crash safe.  When the last outstanding operation ends,
    end_op returns with every block of the transaction at its home location.
    If the machine instead crashes after any number of the disk writes end_op
    performs, and recovery then itself crashes any number of times, booting
    (binit and initlog) succeeds, leaves an empty log, and every block outside
    the log area reads as before the transaction, or every one of them reads as
    after it. *)
Theorem end_op_crash_safe (k : kctx) (ls : logstate) :
  log_ok [] ls → held k = [] → committing ls = 0 → outstanding ls = 1 →
  sb_ok (start ls) (lsize ls) (disk_at (bst ls) 1) →
  ∃ k' ls' ws, end_op k ls = Done tt k' ls' ∧ log_ok [] ls' ∧
    dwrites (bst ls') = dwrites (bst ls) ++ ws ∧
    (∀ x, x < start ls → disk_at (bst ls') x = view (bst ls) x) ∧
    ∀ p D m k0, p `prefix_of` ws →
      crashed (start ls) (apply_writes p (disk_at (bst ls))) D →
      (∀ x, default zero_block (m !! x) = D x) → held k0 = [] →
      ∃ k1 ls1, boot k0 (boot_log (disksize (bst ls)) m) = Done tt k1 ls1 ∧ log_ok [] ls1 ∧
        ((∀ x, x < start ls → view (bst ls1) x = disk_at (bst ls) x) ∨
         (∀ x, x < start ls → view (bst ls1) x = view (bst ls) x)).
Proof.
  intros Hls Hk Hc Ho Hsb.
  destruct (end_op_spec k ls Hls Hk Hc Ho) as (k' & ls' & E & _ & Hls' & _ & _ & _ & Hw & Hv).
  exists k', ls', (end_writes ls). split_and!; try done; [intros x Hx; by apply Hv|].
  intros p D m k0 Hp HD Hm Hk0. apply (boot_after_crash ls p D m k0); try done.
  unfold end_writes in Hp. destruct (0 <? lh_n ls); [done|].
  apply prefix_nil_inv in Hp as ->. apply prefix_nil.
Qed.

(** Log_write records a block once.  On a held buffer inside a transaction
    with room it keeps the log's invariant: the recorded blocks are exactly the
    pinned ones, without duplicates.  A block already recorded is absorbed, a new
    one takes the next slot; what readers see does not change. *)
Theorem log_write_records (B : list nat) (k : kctx) (ls : logstate) (b : nat) (sec : Z) (v : block) :
  log_ok B ls → LLog ∉ held k → b ∈ B → has_buf b sec v (bst ls) →
  2 ≤ sec < start ls → 1 ≤ outstanding ls → lh_n ls < lsize ls - 1 →
  ∃ ls', log_write b k ls = Done tt k ls' ∧ log_ok B ls' ∧ sec ∈ logged ls' ∧
    logged ls' = (if decide (sec ∈ logged ls) then logged ls else logged ls ++ [sec]) ∧
    ∀ x, view (bst ls') x = view (bst ls) x.
Proof.
  intros Hls Hk HbB Hb Hs Ho Hn.
  destruct (log_write_spec B k ls b sec v Hls Hk HbB Hb Hs Ho Hn) as (E & Hls' & EL).
  eexists. split_and!; [exact E|done| |exact EL|].
  - rewrite EL. case_decide; set_solver.
  - by apply (set_dirty_spec B (bst ls) b sec v (lo_cache _ _ Hls)).
Qed.

(** Begin_op admits an operation only when its reservation of MAXOPBLOCKS
    blocks fits beside the blocks already logged and the reservations of the
    running operations, and otherwise sleeps without changing the log; so the
    space invariant is kept. *)
Theorem begin_op_reserves (k : kctx) (ls : logstate) : held k = [] → log_space ls →
  (begin_op k ls = Done tt k (set_outstanding (outstanding ls + 1) ls) ∧ committing ls = 0 ∧
     log_space (set_outstanding (outstanding ls + 1) ls)) ∨
  (begin_op k ls = Blocked CLog k ls ∧
     (committing ls ≠ 0 ∨ ¬ log_space (set_outstanding (outstanding ls + 1) ls))).
Proof.
  intros Hk [Ho Hs]. rewrite begin_op_eq by done. unfold log_space. simpl.
  destruct (Z.eqb_spec (committing ls) 0) as [Hc|Hc]; cbn [negb orb]; [|by right; auto].
  rewrite Z.gtb_ltb. destruct (Z.ltb_spec LOGSIZE (lh_n ls + (outstanding ls + 1) * MAXOPBLOCKS));
    [right|left]; split_and!; try done; lia.
Qed.

(** C40: the space begin_op reserves is one block more than log_write grants.
    Three operations are admitted on an empty log, which reserves
    3 * MAXOPBLOCKS = LOGSIZE blocks; but with a log area of LOGSIZE blocks, the
    size mkfs gives it, log_write panics when LOGSIZE - 1 blocks are logged. *)
Theorem log_reservation_gap (k : kctx) (ls : logstate) (b : nat) :
  held k = [] → committing ls = 0 → lh_n ls = 0 → outstanding ls = 0 → lsize ls = LOGSIZE →
  (begin_op;; begin_op;; begin_op) k ls = Done tt k (set_outstanding 3 ls) ∧
  ∀ l k', log_write b k' (set_n (3 * MAXOPBLOCKS - 1) (set_lh_sector l (set_outstanding 3 ls))) =
    Panicked "too big a transaction".
Proof.
  intros Hk Hc Hn Ho Hl. split.
  - unfold mbind, M_bind. rewrite begin_op_eq by done. rewrite Hc, Hn, Ho. simpl.
    rewrite begin_op_eq by done. simpl. rewrite Hc, Hn. simpl.
    rewrite begin_op_eq by done. simpl. rewrite Hc, Hn. simpl. by destruct ls.
  - intros l k'. unfold log_write. mgo. unfold id. simpl. by rewrite Hl.
Qed.

(** ** A concrete log

    A disk of 1000 sectors with the log at 970, and block 100 modified in the
    cache by an operation that has not ended. *)

Definition demo_sb : block := put32 (put32 zero_block 0 1000) 12 30.
Definition demo_buf (fl : Z) (b : buf) : buf :=
  set_flags fl (set_sector 100 (set_dev ROOTDEV
    (set_data (replicate (Z.to_nat BSIZE) 7) b))).
Definition demo_clean (bs : list buf) : bstate := Bstate 1000 {[1 := demo_sb]} [] bs.
Definition demo_log_of (bs : list buf) : logstate :=
  Logstate (updb 0 (demo_buf (Z.lor B_VALID B_DIRTY)) (demo_clean bs)) 970 30 1 0 ROOTDEV 1 (100 :: replicate 29 0).
Definition demo_log : logstate := demo_log_of binit_bufs.

(** The same operation while it holds the buffer, before log_write. *)
Definition demo_held_of (bs : list buf) : logstate :=
  Logstate (updb 0 (demo_buf (Z.lor B_BUSY B_VALID)) (demo_clean bs)) 970 30 1 0 ROOTDEV 0
    (replicate 30 0).
Definition demo_held : logstate := demo_held_of binit_bufs.

Section demo.
Context (bs : list buf) (l : list nat) (Hl : lru bs l).
Hypothesis C : ∀ i, (i < NBUF)%nat → flags (getb bs i) = 0 ∧ dev (getb bs i) = u32 (-1) ∧
  length (data (getb bs i)) = Z.to_nat BSIZE.

Lemma demo_clean_ok : cache_ok [] (demo_clean bs) ∧ pinned [] (demo_clean bs).
Proof.
  destruct (clean_cache_ok 1000 {[1 := demo_sb]} bs l Hl C) as [Hok Hc];
    [|split; [done|intros x; unfold demo_clean; by rewrite Hc]]. intros x.
  destruct (decide (x = 1)) as [->|].
  - by rewrite lookup_singleton_eq.
  - by rewrite lookup_singleton_ne.
Qed.

Lemma demo_nowhere i : (i < NBUF)%nat → dev (theb i (demo_clean bs)) ≠ ROOTDEV.
Proof. intros Hi. destruct (C i Hi) as (_ & E & _). unfold theb. simpl. by rewrite E. Qed.

Lemma demo_log_of_ok : log_ok [] (demo_log_of bs).
Proof.
  destruct demo_clean_ok as [Hok Hp].
  assert (Hok' : cache_ok [] (updb 0 (demo_buf (Z.lor B_VALID B_DIRTY)) (demo_clean bs))).
  { apply (cache_ok_upd []); try done.
    - change NBUF with 30%nat. lia.
    - split; [done|set_solver].
    - by left.
    - intros _. split; [simpl; lia|]. intros j Hj _ Hd. by apply demo_nowhere in Hd. }
  split; try done.
  - split; try done; simpl; try (unfold LOGSIZE; simpl; lia). intros i Hi.
    replace i with 0%nat by lia. change (lsec (demo_log_of bs) 0) with 100. lia.
  - apply NoDup_singleton.
  - intros x. simpl bst. rewrite (dirty_upd [] []) by (done || (change NBUF with 30%nat; lia)).
    change (logged (demo_log_of bs)) with [100]. change (dev (demo_buf _ ?b)) with ROOTDEV.
    change (sector (demo_buf _ ?b)) with 100. change (isdirty (demo_buf _ ?b)) with true.
    destruct (decide (x = 100)) as [->|].
    + rewrite decide_True by done. set_solver.
    + assert (Hb0 : ¬ (dev (theb 0 (demo_clean bs)) = ROOTDEV ∧
        sector (theb 0 (demo_clean bs)) = x)).
      { intros [Hd _]. apply demo_nowhere in Hd; [done|]. change NBUF with 30%nat. lia. }
      rewrite !decide_False by (done || lia).
      split; [intros Hx; apply Hp in Hx; set_solver|set_solver].
Qed.

Lemma demo_held_of_ok : log_ok [0%nat] (demo_held_of bs) ∧
  has_buf 0 100 (replicate (Z.to_nat BSIZE) 7) (bst (demo_held_of bs)).
Proof.
  destruct demo_clean_ok as [Hok Hp]. pose proof (cache_length _ _ Hok) as Hlen.
  set (s := updb 0 (demo_buf (Z.lor B_BUSY B_VALID)) (demo_clean bs)).
  assert (H0 : (0 < NBUF)%nat) by (change NBUF with 30%nat; lia).
  assert (Hok' : cache_ok [0%nat] s).
  { apply (cache_ok_upd []); try done.
    - split; [set_solver|done].
    - set_solver.
    - by left.
    - intros _. split; [simpl; lia|]. intros j Hj _ Hd. by apply demo_nowhere in Hd.
    - set_solver. }
  assert (Hth : theb 0 s = demo_buf (Z.lor B_BUSY B_VALID) (theb 0 (demo_clean bs))).
  { unfold s. by rewrite theb_updb, decide_True by lia. }
  split; [split|split; simpl bst; fold s; by rewrite ?Hth]; try done.
  - split; try done; simpl; unfold LOGSIZE; simpl; lia.
  - constructor.
  - intros x. simpl bst. unfold s. rewrite (dirty_upd [] [0%nat]) by done.
    change (logged (demo_held_of bs)) with (@nil Z). change (isdirty (demo_buf _ ?b)) with false.
    pose proof (Hp x). repeat case_decide; set_solver.
Qed.
End demo.

Lemma demo_log_ok : log_ok [] demo_log.
Proof. exact (demo_log_of_ok _ _ binit_bufs_lru binit_bufs_clean). Qed.

Lemma demo_held_ok : log_ok [0%nat] demo_held ∧
  has_buf 0 100 (replicate (Z.to_nat BSIZE) 7) (bst demo_held).
Proof. exact (demo_held_of_ok _ _ binit_bufs_lru binit_bufs_clean). Qed.

Lemma end_op_crash_safe_witness : ∃ k' ls', end_op (Kctx [] []) demo_log = Done tt k' ls'.
Proof.
  destruct (end_op_crash_safe (Kctx [] []) demo_log) as (k' & ls' & ws & E & _).
  - exact demo_log_ok.
  - reflexivity.
  - reflexivity.
  - reflexivity.
  - split; vm_compute; reflexivity.
  - exists k', ls'. exact E.
Defined.

Lemma log_write_records_witness :
  ∃ ls', log_write 0 (Kctx [] []) demo_held = Done tt (Kctx [] []) ls' ∧ 100 ∈ logged ls'.
Proof.
  destruct (log_write_records [0%nat] (Kctx [] []) demo_held 0 100
    (replicate (Z.to_nat BSIZE) 7)) as (ls' & E & _ & Hin & _).
  - exact (proj1 demo_held_ok).
  - simpl. set_solver.
  - set_solver.
  - exact (proj2 demo_held_ok).
  - simpl. lia.
  - simpl. lia.
  - simpl. lia.
  - exists ls'. split; [exact E|exact Hin].
Defined.

Lemma begin_op_reserves_witness :
  (begin_op (Kctx [] []) demo_log = Done tt (Kctx [] []) (set_outstanding 2 demo_log) ∧
     committing demo_log = 0 ∧ log_space (set_outstanding 2 demo_log)) ∨
  (begin_op (Kctx [] []) demo_log = Blocked CLog (Kctx [] []) demo_log ∧
     (committing demo_log ≠ 0 ∨ ¬ log_space (set_outstanding 2 demo_log))).
Proof.
  apply (begin_op_reserves (Kctx [] []) demo_log); [reflexivity|].
  unfold log_space, demo_log, LOGSIZE, MAXOPBLOCKS. simpl. lia.
Defined.

Lemma log_reservation_gap_witness :
  (begin_op;; begin_op;; begin_op) (Kctx [] []) (set_outstanding 0 (set_n 0 demo_log)) =
    Done tt (Kctx [] []) (set_outstanding 3 (set_n 0 demo_log)).
Proof.
  exact (proj1 (log_reservation_gap (Kctx [] []) (set_outstanding 0 (set_n 0 demo_log)) 0
    eq_refl eq_refl eq_refl eq_refl eq_refl)).
Defined.

(** * The idiom of fs.c: bread, modify, log_write, brelse

    Reading a block and updating a block inside a transaction, as functions of
    the view of the disk.  fs.c is verified against these two lemmas. *)

(** The parts of the log a file-system routine does not touch. *)
Record same_log (ls ls' : logstate) : Prop := SameLog {
  sl_start : start ls' = start ls;
  sl_lsize : lsize ls' = lsize ls;
  sl_out : outstanding ls' = outstanding ls;
  sl_com : committing ls' = committing ls;
  sl_disk : same_disk (bst ls) (bst ls')
}.

Lemma same_log_refl ls : same_log ls ls.
Proof. done. Qed.

Lemma same_log_trans l1 l2 l3 : same_log l1 l2 → same_log l2 l3 → same_log l1 l3.
Proof.
  intros [] []. split; try congruence. by eapply same_disk_trans.
Qed.

#[export] Hint Resolve same_log_refl same_log_trans : xv6.

(** What a file-system routine reads: the view through the log's cache. *)
Definition lview (ls : logstate) (x : Z) : block := view (bst ls) x.

Lemma log_ok_set_bst B B' ls b : log_ok B ls → cache_ok B' b →
  (∀ x, dirty_at b x = dirty_at (bst ls) x) → same_disk (bst ls) b → log_ok B' (set_bst b ls).
Proof.
  intros [Hg Hok Hnd Hd Hh] Hok' Hdi Hs. split; try done.
  - apply geom_set_bst; [done|apply Hs].
  - intros x. simpl. by rewrite Hdi.
  - simpl. by rewrite (same_disk_at _ _ _ Hs).
Qed.

(** Buffers enough for one more block, with [B] held. *)
Definition spare (B : list nat) (ls : logstate) : Prop :=
  (length (logged ls) + length B < NBUF)%nat.

Lemma spare_room B ls : log_ok B ls → spare B ls → room B (bst ls).
Proof.
  intros Hls Hs. apply (room_of (logged ls)); [apply Hls| |done].
  intros x Hx. by apply (lo_dirty _ _ Hls).
Qed.

(** Block [sec] is not one of the buffers held. *)
Definition unheld (B : list nat) (ls : logstate) (sec : Z) : Prop :=
  ∀ i, cached (bst ls) sec = Some i → i ∉ B.

Lemma unheld_nil ls sec : unheld [] ls sec.
Proof. intros i _. set_solver. Qed.

#[export] Hint Resolve unheld_nil : xv6.

Section txn.
Implicit Types (B : list nat) (ls : logstate) (k : kctx) (sec : Z).

(** bread inside a transaction. *)
Lemma log_bread B ls k sec : log_ok B ls → held k = [] → 0 ≤ sec < disksize (bst ls) →
  unheld B ls sec → spare B ls →
  ∃ b s', inb (bread ROOTDEV sec) k ls = Done b k (set_bst s' ls) ∧
    log_ok (b :: B) (set_bst s' ls) ∧ b ∉ B ∧ has_buf b sec (lview ls sec) s' ∧
    releasable b s' ∧ unseen (bst ls) s' ∧
    (∀ i, i ≠ b → payload (theb i s') = payload (theb i (bst ls))).
Proof.
  intros Hls Hk Hsec Hun Hsp.
  destruct (bread_hold B (bst ls) k sec (lo_cache _ _ Hls) Hk Hsec Hun) as
    (b & s' & E & Hok & Hn & Hb & Hr & U & F); [intros _; by apply spare_room|].
  exists b, s'. split_and!; try done.
  - by apply inb_Done.
  - by apply (log_ok_set_bst B); try apply U.
Qed.

(** brelse inside a transaction. *)
Lemma log_brelse B ls k b : log_ok (b :: B) ls → b ∉ B → (b < NBUF)%nat → held k = [] →
  releasable b (bst ls) →
  ∃ k' s', inb (brelse b) k ls = Done tt k' (set_bst s' ls) ∧ held k' = [] ∧
    log_ok B (set_bst s' ls) ∧ unseen (bst ls) s' ∧
    (∀ i, i ≠ b → payload (theb i s') = payload (theb i (bst ls))).
Proof.
  intros Hls Hn Hb Hk Hr.
  destruct (brelse_hold B (bst ls) k b (lo_cache _ _ Hls) Hn Hb Hk Hr) as
    (k' & s' & E & Hk' & Hok & U & F).
  exists k', s'. split_and!; try done.
  - by apply inb_Done.
  - by apply (log_ok_set_bst (b :: B)); try apply U.
Qed.

(** The caller changes the data of a buffer it holds and records it. *)
Lemma log_modify B ls k b sec v d : log_ok B ls → held k = [] → b ∈ B →
  has_buf b sec v (bst ls) → length d = Z.to_nat BSIZE → 2 ≤ sec < start ls →
  1 ≤ outstanding ls → lh_n ls < lsize ls - 1 →
  ∃ ls', log_write b k (set_bst (updb b (set_data d) (bst ls)) ls) = Done tt k ls' ∧
    log_ok B ls' ∧ has_buf b sec d (bst ls') ∧ releasable b (bst ls') ∧ same_log ls ls' ∧
    (∀ x, lview ls' x = if decide (sec = x) then d else lview ls x) ∧
    lh_n ls ≤ lh_n ls' ≤ lh_n ls + 1 ∧
    (∀ i, i ≠ b → theb i (bst ls') = theb i (bst ls)).
Proof.
  intros Hls Hk HbB Hb Hd Hs Ho Hn. pose proof Hb as [Hlt Hdev Hsec Hv Hdata].
  destruct (set_data_spec B (bst ls) b d (lo_cache _ _ Hls) HbB Hlt Hdev Hv Hd)
    as (Hok1 & V1 & D1 & T1 & F1). set (s1 := updb b (set_data d) (bst ls)) in *.
  assert (Hb1 : has_buf b sec d s1) by (split; rewrite ?T1; done).
  assert (Hls1 : log_ok B (set_bst s1 ls)) by (by apply (log_ok_set_bst B)).
  destruct (log_write_spec B k (set_bst s1 ls) b sec d Hls1) as (E & Hls' & _); try done.
  { rewrite Hk. set_solver. }
  destruct (set_dirty_spec B s1 b sec d Hok1 HbB Hb1) as (_ & V2 & _ & Hb2 & R2 & F2).
  eexists. split_and!; [exact E|done|done|done| |..].
  - split; try done; simpl; by case_decide.
  - intros x. unfold lview. simpl. by rewrite V2, V1, Hsec.
  - simpl. case_decide; simpl; lia.
  - simpl. case_decide; simpl; lia.
  - intros i Hi. simpl. by rewrite F2, F1.
Qed.
End txn.
