(* ===== verification/Fs.v ===== *)
(** * fs.c: block allocator, inodes, directories and path names

    The state is the log with everything under it, the inode cache and the console.  An
    [struct inode*] is an index into [icache], a null pointer is [None].  Data
    moves in and out of files as lists of bytes: [readi] returns the bytes it
    copies to its destination, [writei] takes the bytes at its source.  A C
    string is the list of its bytes before the terminating zero. *)

From stdpp Require Import base gmap list strings.
From Stdlib Require Import ZArith Lia.
From S2P Require Import Prelude Params Kmonad Console Bio Log.

(** ** Data *)

(** struct dinode, as it lies in a block of the disk *)
Record dinode : Type := Dinode {
  d_type : Z; d_major : Z; d_minor : Z; d_nlink : Z; d_size : Z; d_addrs : list Z
}.

(** struct inode *)
Record inode : Type := Inode {
  i_dev : Z; i_inum : Z; i_ref : Z; i_flags : Z;
  i_type : Z; i_major : Z; i_minor : Z; i_nlink : Z; i_size : Z; i_addrs : list Z
}.

Definition inode0 : inode := Inode 0 0 0 0 0 0 0 0 0 (replicate 13 0).

Definition iset_id (dv inum : Z) (i : inode) : inode :=
  Inode dv inum 1 0 (i_type i) (i_major i) (i_minor i) (i_nlink i) (i_size i) (i_addrs i).
Definition iset_ref (v : Z) (i : inode) : inode :=
  Inode (i_dev i) (i_inum i) v (i_flags i) (i_type i) (i_major i) (i_minor i) (i_nlink i)
    (i_size i) (i_addrs i).
Definition iset_flags (v : Z) (i : inode) : inode :=
  Inode (i_dev i) (i_inum i) (i_ref i) v (i_type i) (i_major i) (i_minor i) (i_nlink i)
    (i_size i) (i_addrs i).
Definition iset_type (v : Z) (i : inode) : inode :=
  Inode (i_dev i) (i_inum i) (i_ref i) (i_flags i) v (i_major i) (i_minor i) (i_nlink i)
    (i_size i) (i_addrs i).
Definition iset_devno (mj mn : Z) (i : inode) : inode :=
  Inode (i_dev i) (i_inum i) (i_ref i) (i_flags i) (i_type i) mj mn (i_nlink i)
    (i_size i) (i_addrs i).
Definition iset_nlink (v : Z) (i : inode) : inode :=
  Inode (i_dev i) (i_inum i) (i_ref i) (i_flags i) (i_type i) (i_major i) (i_minor i) v
    (i_size i) (i_addrs i).
Definition iset_size (v : Z) (i : inode) : inode :=
  Inode (i_dev i) (i_inum i) (i_ref i) (i_flags i) (i_type i) (i_major i) (i_minor i)
    (i_nlink i) v (i_addrs i).
Definition iset_addrs (v : list Z) (i : inode) : inode :=
  Inode (i_dev i) (i_inum i) (i_ref i) (i_flags i) (i_type i) (i_major i) (i_minor i)
    (i_nlink i) (i_size i) v.

(** sizeof(struct dinode) and the offset of inode [inum] in its block. *)
Definition DINODE : nat := 64.
Definition dinode_off (inum : Z) : nat := (Z.to_nat (inum mod IPB) * DINODE)%nat.

Definition get_dinode (d : block) (o : nat) : dinode :=
  Dinode (i16 (get16 d o)) (i16 (get16 d (o + 2))) (i16 (get16 d (o + 4)))
    (i16 (get16 d (o + 6))) (get32 d (o + 8))
    ((λ j, get32 d (o + 12 + 4 * j)%nat) <$> seq 0 13).

Definition put_addrs (l : list Z) (o : nat) (d : block) : block :=
  fold_left (λ d j, put32 d (o + 4 * j)%nat (l.[j])) (seq 0 13) d.

Definition put_dinode (d : block) (o : nat) (x : dinode) : block :=
  let d := put16 d o (d_type x) in
  let d := put16 d (o + 2) (d_major x) in
  let d := put16 d (o + 4) (d_minor x) in
  let d := put16 d (o + 6) (d_nlink x) in
  let d := put32 d (o + 8) (d_size x) in
  put_addrs (d_addrs x) (o + 12) d.

(** The console is part of the state because readi and writei reach it through devsw. *)
Record fsstate : Type := Fsstate { lg : logstate; icache : list inode; console : cst }.

Definition set_lg (v : logstate) (s : fsstate) : fsstate := Fsstate v (icache s) (console s).
Definition set_icache (v : list inode) (s : fsstate) : fsstate := Fsstate (lg s) v (console s).
Definition set_console (v : cst) (s : fsstate) : fsstate := Fsstate (lg s) (icache s) v.

(** Run a routine of log.c, or of bio.c. *)
Definition inlg {A} (m : M logstate A) : M fsstate A := zoom lg set_lg m.
Definition inbf {A} (m : M bstate A) : M fsstate A := inlg (inb m).

Definition thei (i : nat) (s : fsstate) : inode := nthz inode0 (icache s) i.
Definition updi (i : nat) (f : inode → inode) (s : fsstate) : fsstate :=
  set_icache (<[i := f (thei i s)]> (icache s)) s.

(** The data of buffer [b]. *)
Definition bdata (b : nat) (s : fsstate) : block := data (theb b (bst (lg s))).
Definition set_bdata (b : nat) (f : block → block) : M fsstate unit :=
  inbf (modify (updb b (λ x, set_data (f (data x)) x))).

(** ** Blocks *)

Definition bzero (dv bno : Z) : M fsstate unit :=
  bp ← inbf (bread dv (u32 bno));
  set_bdata bp (λ _, zero_block);;
  inlg (log_write bp);;
  inbf (brelse bp).

Definition bit_mask (bi : Z) : Z := Z.shiftl 1 (bi mod 8).
Definition bit_clear (d : block) (bi : Z) : bool :=
  Z.land (d.[Z.to_nat (bi / 8)]) (bit_mask bi) =? 0.

(** The inner loop of balloc: the first clear bit at or after [bi]. *)
Fixpoint balloc_scan (fuel : nat) (d : block) (b bi size : Z) : option Z :=
  match fuel with
  | O => None
  | S f =>
    if (bi <? BPB) && (b + bi <? size) then
      if bit_clear d bi then Some bi else balloc_scan f d b (bi + 1) size
    else None
  end.

(** The outer loop, over the bitmap blocks. *)
Fixpoint balloc_loop (fuel : nat) (dv b : Z) (sb : superblock) : M fsstate Z :=
  match fuel with
  | O => diverge
  | S f =>
    if b <? sb_size sb then
      bp ← inbf (bread dv (u32 (BBLOCK b (sb_ninodes sb))));
      d ← gets (bdata bp);
      match balloc_scan (S (Z.to_nat BPB)) d b 0 (sb_size sb) with
      | Some bi =>
        set_bdata bp (λ d, <[Z.to_nat (bi / 8) :=
          Z.lor (d.[Z.to_nat (bi / 8)]) (bit_mask bi)]> d);;
        inlg (log_write bp);;
        inbf (brelse bp);;
        bzero dv (b + bi);;
        mret (b + bi)
      | None =>
        inbf (brelse bp);;
        balloc_loop f dv (b + BPB) sb
      end
    else panic "balloc: out of blocks"
  end.

Definition balloc (dv : Z) : M fsstate Z :=
  sb ← inbf (readsb dv);
  balloc_loop (S (S (Z.to_nat (sb_size sb / BPB)))) dv 0 sb.

Definition bfree (dv b : Z) : M fsstate unit :=
  sb ← inbf (readsb dv);
  bp ← inbf (bread dv (u32 (BBLOCK b (sb_ninodes sb))));
  let bi := b mod BPB in
  d ← gets (bdata bp);
  if bit_clear d bi then panic "freeing free block"
  else
    set_bdata bp (λ d, <[Z.to_nat (bi / 8) :=
      Z.land (d.[Z.to_nat (bi / 8)]) (Z.lnot (bit_mask bi))]> d);;
    inlg (log_write bp);;
    inbf (brelse bp).

(** ** Inodes *)

Definition iinit : M fsstate unit := initlock LIcache.

(** The loop of iget: [ip] walks the cache, [empty] is the first free slot seen. *)
Fixpoint iget_scan (l : list inode) (ip : nat) (dv inum : Z) (empty : option nat)
  : nat + option nat :=
  match l with
  | [] => inr empty
  | x :: l' =>
    if (i_ref x >? 0) && (i_dev x =? dv) && (i_inum x =? inum) then inl ip
    else
      iget_scan l' (S ip) dv inum
        (match empty with
         | None => if i_ref x =? 0 then Some ip else None
         | Some _ => empty
         end)
  end.

Definition iget (dv inum : Z) : M fsstate nat :=
  acquire LIcache;;
  l ← gets icache;
  match iget_scan l 0 dv inum None with
  | inl ip =>
    modify (λ s, updi ip (iset_ref (i_ref (thei ip s) + 1)) s);;
    release LIcache;;
    mret ip
  | inr None => panic "iget: no inodes"
  | inr (Some ip) =>
    modify (updi ip (iset_id dv inum));;
    release LIcache;;
    mret ip
  end.

Fixpoint ialloc_loop (fuel : nat) (dv inum ty : Z) (sb : superblock) : M fsstate nat :=
  match fuel with
  | O => diverge
  | S f =>
    if inum <? sb_ninodes sb then
      bp ← inbf (bread dv (u32 (IBLOCK inum)));
      d ← gets (bdata bp);
      if d_type (get_dinode d (dinode_off inum)) =? 0 then
        set_bdata bp (λ d, splice d (dinode_off inum) (replicate DINODE 0));;
        set_bdata bp (λ d, put16 d (dinode_off inum) ty);;
        inlg (log_write bp);;
        inbf (brelse bp);;
        iget dv inum
      else
        inbf (brelse bp);;
        ialloc_loop f dv (inum + 1) ty sb
    else panic "ialloc: no inodes"
  end.

Definition ialloc (dv ty : Z) : M fsstate nat :=
  sb ← inbf (readsb dv);
  ialloc_loop (S (Z.to_nat (sb_ninodes sb))) dv 1 ty sb.

Definition dinode_of (i : inode) : dinode :=
  Dinode (i_type i) (i_major i) (i_minor i) (i_nlink i) (i_size i) (i_addrs i).

Definition iupdate (ip : nat) : M fsstate unit :=
  i ← gets (thei ip);
  bp ← inbf (bread (i_dev i) (u32 (IBLOCK (i_inum i))));
  set_bdata bp (λ d, put_dinode d (dinode_off (i_inum i)) (dinode_of i));;
  inlg (log_write bp);;
  inbf (brelse bp).

Definition idup (ip : nat) : M fsstate nat :=
  acquire LIcache;;
  modify (λ s, updi ip (iset_ref (i_ref (thei ip s) + 1)) s);;
  release LIcache;;
  mret ip.

Definition load_dinode (x : dinode) (i : inode) : inode :=
  Inode (i_dev i) (i_inum i) (i_ref i) (i_flags i)
    (d_type x) (d_major x) (d_minor x) (d_nlink x) (d_size x) (d_addrs x).

(** The while loop around sleep is one test: a process that sleeps starts the
    call's loop over when it is woken. *)
Definition ilock (p : option nat) : M fsstate unit :=
  match p with
  | None => panic "ilock"
  | Some ip =>
    i ← gets (thei ip);
    if i_ref i <? 1 then panic "ilock"
    else
      acquire LIcache;;
      i ← gets (thei ip);
      (if has (i_flags i) I_BUSY then sleep (CInode ip) LIcache else mret tt);;
      modify (updi ip (iset_flags (Z.lor (i_flags i) I_BUSY)));;
      release LIcache;;
      i ← gets (thei ip);
      if negb (has (i_flags i) I_VALID) then
        bp ← inbf (bread (i_dev i) (u32 (IBLOCK (i_inum i))));
        d ← gets (bdata bp);
        modify (updi ip (load_dinode (get_dinode d (dinode_off (i_inum i)))));;
        inbf (brelse bp);;
        modify (λ s, updi ip (iset_flags (Z.lor (i_flags (thei ip s)) I_VALID)) s);;
        i ← gets (thei ip);
        if i_type i =? 0 then panic "ilock: no type" else mret tt
      else mret tt
  end.

Definition iunlock (p : option nat) : M fsstate unit :=
  match p with
  | None => panic "iunlock"
  | Some ip =>
    i ← gets (thei ip);
    if negb (has (i_flags i) I_BUSY) || (i_ref i <? 1) then panic "iunlock"
    else
      acquire LIcache;;
      modify (λ s, updi ip (iset_flags (Z.land (i_flags (thei ip s)) (Z.lnot I_BUSY))) s);;
      wakeup (CInode ip);;
      release LIcache
  end.

(** ** Inode content *)

(** The address of block [bn] of the file, allocating it if there is none. *)
Definition bmap (ip : nat) (bn : Z) : M fsstate Z :=
  i ← gets (thei ip);
  if bn <? NDIRECT then
    let addr := (i_addrs i).[Z.to_nat bn] in
    if addr =? 0 then
      addr ← balloc (i_dev i);
      modify (λ s, updi ip (λ i, iset_addrs (<[Z.to_nat bn := addr]> (i_addrs i)) i) s);;
      mret addr
    else mret addr
  else
    let bn := bn - NDIRECT in
    if bn <? NINDIRECT then
      let addr := (i_addrs i).[Z.to_nat NDIRECT] in
      addr ←
        (if addr =? 0 then
           addr ← balloc (i_dev i);
           modify (λ s, updi ip (λ i, iset_addrs (<[Z.to_nat NDIRECT := addr]> (i_addrs i)) i) s);;
           mret addr
         else mret addr);
      bp ← inbf (bread (i_dev i) addr);
      d ← gets (bdata bp);
      let addr := get32 d (4 * Z.to_nat bn) in
      addr ←
        (if addr =? 0 then
           addr ← balloc (i_dev i);
           set_bdata bp (λ d, put32 d (4 * Z.to_nat bn) addr);;
           inlg (log_write bp);;
           mret addr
         else mret addr);
      inbf (brelse bp);;
      mret addr
    else panic "bmap: out of range".

Definition itrunc (ip : nat) : M fsstate unit :=
  mfor 0 (Z.to_nat NDIRECT) (λ j,
    i ← gets (thei ip);
    let addr := (i_addrs i).[j] in
    if negb (addr =? 0) then
      bfree (i_dev i) addr;;
      modify (updi ip (λ i, iset_addrs (<[j := 0]> (i_addrs i)) i))
    else mret tt);;
  i ← gets (thei ip);
  let ind := (i_addrs i).[Z.to_nat NDIRECT] in
  (if negb (ind =? 0) then
     bp ← inbf (bread (i_dev i) ind);
     mfor 0 (Z.to_nat NINDIRECT) (λ j,
       d ← gets (bdata bp);
       let a := get32 d (4 * j) in
       if negb (a =? 0) then bfree (i_dev i) a else mret tt);;
     inbf (brelse bp);;
     bfree (i_dev i) ind;;
     modify (updi ip (λ i, iset_addrs (<[Z.to_nat NDIRECT := 0]> (i_addrs i)) i))
   else mret tt);;
  modify (updi ip (iset_size 0));;
  iupdate ip.

Definition iput (ip : nat) : M fsstate unit :=
  acquire LIcache;;
  i ← gets (thei ip);
  (if (i_ref i =? 1) && has (i_flags i) I_VALID && (i_nlink i =? 0) then
     if has (i_flags i) I_BUSY then panic "iput busy"
     else
       modify (updi ip (iset_flags (Z.lor (i_flags i) I_BUSY)));;
       release LIcache;;
       itrunc ip;;
       modify (updi ip (iset_type 0));;
       iupdate ip;;
       acquire LIcache;;
       modify (updi ip (iset_flags 0));;
       wakeup (CInode ip)
   else mret tt);;
  modify (λ s, updi ip (iset_ref (i_ref (thei ip s) - 1)) s);;
  release LIcache.

Definition iunlockput (ip : nat) : M fsstate unit := iunlock (Some ip);; iput ip.

(** struct stat *)
Record stat : Type := Stat { st_type : Z; st_dev : Z; st_ino : Z; st_nlink : Z; st_size : Z }.

Definition stati (ip : nat) : M fsstate stat :=
  i ← gets (thei ip);
  mret (Stat (i_type i) (i32 (i_dev i)) (i_inum i) (i_nlink i) (i_size i)).

(** devsw: the table of device functions, indexed by major number.  A read
    returns its result and the bytes it delivers. *)
Record devsw : Type := Devsw {
  dev_read : Z → option (nat → Z → M fsstate (Z * list Z));
  dev_write : Z → option (nat → list Z → Z → M fsstate Z)
}.

Section content.
Context (dsw : devsw).

(** The loop of readi: [tot] bytes are done, [acc] are the bytes delivered. *)
Fixpoint readi_loop (fuel ip : nat) (off n tot : Z) (acc : list Z) : M fsstate (list Z) :=
  match fuel with
  | O => diverge
  | S f =>
    if tot <? n then
      a ← bmap ip (off / BSIZE);
      i ← gets (thei ip);
      bp ← inbf (bread (i_dev i) a);
      let m := Z.min (n - tot) (BSIZE - off mod BSIZE) in
      d ← gets (bdata bp);
      inbf (brelse bp);;
      readi_loop f ip (off + m) n (tot + m)
        (acc ++ take (Z.to_nat m) (drop (Z.to_nat (off mod BSIZE)) d))
    else mret acc
  end.

(** Every round but the first and the last covers a whole block. *)
Definition io_fuel (n : Z) : nat := S (S (S (Z.to_nat (n / BSIZE)))).

Definition readi (ip : nat) (off n : Z) : M fsstate (Z * list Z) :=
  i ← gets (thei ip);
  if i_type i =? T_DEV then
    if (i_major i <? 0) || (i_major i >=? NDEV) then mret (-1, [])
    else match dev_read dsw (i_major i) with
         | None => mret (-1, [])
         | Some f => f ip (i32 n)
         end
  else if (off >? i_size i) || (u32 (off + n) <? off) then mret (-1, [])
  else
    let n := if off + n >? i_size i then i_size i - off else n in
    l ← readi_loop (io_fuel n) ip off n 0 [];
    mret (n, l).

Fixpoint writei_loop (fuel ip : nat) (off n tot : Z) (src : list Z) : M fsstate Z :=
  match fuel with
  | O => diverge
  | S f =>
    if tot <? n then
      a ← bmap ip (off / BSIZE);
      i ← gets (thei ip);
      bp ← inbf (bread (i_dev i) a);
      let m := Z.min (n - tot) (BSIZE - off mod BSIZE) in
      set_bdata bp (λ d, splice d (Z.to_nat (off mod BSIZE)) (take (Z.to_nat m) src));;
      inlg (log_write bp);;
      inbf (brelse bp);;
      writei_loop f ip (off + m) n (tot + m) (drop (Z.to_nat m) src)
    else mret off
  end.

Definition writei (ip : nat) (src : list Z) (off n : Z) : M fsstate Z :=
  i ← gets (thei ip);
  if i_type i =? T_DEV then
    if (i_major i <? 0) || (i_major i >=? NDEV) then mret (-1)
    else match dev_write dsw (i_major i) with
         | None => mret (-1)
         | Some f => f ip src (i32 n)
         end
  else if (off >? i_size i) || (u32 (off + n) <? off) then mret (-1)
  else if off + n >? MAXFILE * BSIZE then mret (-1)
  else
    off ← writei_loop (io_fuel n) ip off n 0 src;
    i ← gets (thei ip);
    (if (n >? 0) && (off >? i_size i) then
       modify (updi ip (iset_size off));; iupdate ip
     else mret tt);;
    mret n.

(** ** Directories *)

(** string.c's strncmp and strncpy on strings held as lists. *)
Fixpoint strncmp_l (n : nat) (p q : list Z) : Z :=
  match n with
  | O => 0
  | S n' =>
    if negb (p.[0] =? 0) && (p.[0] =? q.[0]) then strncmp_l n' (drop 1 p) (drop 1 q)
    else p.[0] - q.[0]
  end.
Definition strncpy_l (n : nat) (l : list Z) : list Z := take n l ++ replicate (n - length l) 0.

Definition namecmp (s t : list Z) : Z := strncmp_l DIRSIZ s t.

(** struct dirent *)
Record dirent : Type := Dirent { de_inum : Z; de_name : list Z }.
Definition DIRENT : Z := 16.
Definition get_dirent (d : list Z) : dirent := Dirent (get16 d 0) (take DIRSIZ (drop 2 d)).
Definition put_dirent (e : dirent) : list Z :=
  [u8 (de_inum e); u8 (Z.shiftr (de_inum e) 8)] ++ de_name e.

Fixpoint dirlookup_loop (fuel dp : nat) (name : list Z) (off : Z) : M fsstate (option (nat * Z)) :=
  match fuel with
  | O => diverge
  | S f =>
    i ← gets (thei dp);
    if off <? i_size i then
      r ← readi dp off DIRENT;
      if negb (r.1 =? DIRENT) then panic "dirlink read"
      else
        let de := get_dirent r.2 in
        if de_inum de =? 0 then dirlookup_loop f dp name (off + DIRENT)
        else if namecmp name (de_name de) =? 0 then
          ip ← iget (i_dev i) (de_inum de);
          mret (Some (ip, off))
        else dirlookup_loop f dp name (off + DIRENT)
    else mret None
  end.

Definition dir_fuel (i : inode) : nat := S (S (Z.to_nat (i_size i / DIRENT))).

Definition dirlookup (dp : nat) (name : list Z) : M fsstate (option (nat * Z)) :=
  i ← gets (thei dp);
  if negb (i_type i =? T_DIR) then panic "dirlookup not DIR"
  else dirlookup_loop (dir_fuel i) dp name 0.

(** The search of dirlink for an empty entry. *)
Fixpoint dirlink_scan (fuel dp : nat) (off : Z) : M fsstate Z :=
  match fuel with
  | O => diverge
  | S f =>
    i ← gets (thei dp);
    if off <? i_size i then
      r ← readi dp off DIRENT;
      if negb (r.1 =? DIRENT) then panic "dirlink read"
      else if de_inum (get_dirent r.2) =? 0 then mret off
      else dirlink_scan f dp (off + DIRENT)
    else mret off
  end.

Definition dirlink (dp : nat) (name : list Z) (inum : Z) : M fsstate Z :=
  r ← dirlookup dp name;
  match (r : option (nat * Z)) with
  | Some (ip, _) => iput ip;; mret (-1)
  | None =>
    i ← gets (thei dp);
    off ← dirlink_scan (dir_fuel i) dp 0;
    n ← writei dp (put_dirent (Dirent (u16 inum) (strncpy_l DIRSIZ name))) off DIRENT;
    if negb (n =? DIRENT) then panic "dirlink" else mret 0
  end.

(** ** Paths *)

Definition SLASH : Z := 47.

Fixpoint skip_slashes (path : list Z) : list Z :=
  match path with
  | c :: p => if c =? SLASH then skip_slashes p else path
  | [] => []
  end.
Fixpoint span_elem (path : list Z) : list Z * list Z :=
  match path with
  | c :: p =>
    if c =? SLASH then ([], path)
    else let '(s, rest) := span_elem p in (c :: s, rest)
  | [] => ([], [])
  end.

(** The next element, cut to DIRSIZ bytes, and the path that follows it. *)
Definition skipelem (path : list Z) : option (list Z * list Z) :=
  match skip_slashes path with
  | [] => None
  | path =>
    let '(s, rest) := span_elem path in
    Some (take DIRSIZ s, skip_slashes rest)
  end.

Fixpoint namex_loop (fuel : nat) (path : list Z) (parent : bool) (name : list Z) (ip : nat)
  : M fsstate (option (nat * list Z)) :=
  match fuel with
  | O => diverge
  | S f =>
    match skipelem path with
    | Some (name, path) =>
      ilock (Some ip);;
      i ← gets (thei ip);
      if negb (i_type i =? T_DIR) then iunlockput ip;; mret None
      else if parent && bool_decide (path = []) then
        iunlock (Some ip);; mret (Some (ip, name))
      else
        r ← dirlookup ip name;
        match (r : option (nat * Z)) with
        | None => iunlockput ip;; mret None
        | Some (next, _) => iunlockput ip;; namex_loop f path parent name next
        end
    | None =>
      if parent then iput ip;; mret None else mret (Some (ip, name))
    end
  end.

(** [cwd] is proc->cwd; every element of the path takes at least one byte. *)
Definition namex (cwd : nat) (path : list Z) (parent : bool) : M fsstate (option (nat * list Z)) :=
  ip ← (if path.[0] =? SLASH then iget ROOTDEV ROOTINO else idup cwd);
  namex_loop (S (length path)) path parent [] ip.

Definition namei (cwd : nat) (path : list Z) : M fsstate (option nat) :=
  r ← namex cwd path false;
  mret (fst <$> (r : option (nat * list Z))).

Definition nameiparent (cwd : nat) (path : list Z) : M fsstate (option (nat * list Z)) :=
  namex cwd path true.
End content.
