(* ===== verification/FsTxn.v ===== *)
(** * Blocks inside a transaction

    What bzero, balloc, bfree and iupdate do to the disk, as seen through the log: each
    changes the view of the blocks it is meant to change and of no other, and keeps the
    log's invariant.  The first parts have the inodes of a block and the elements of
    path names. *)

From stdpp Require Import base gmap list strings.
From Stdlib Require Import ZArith Lia Permutation.
From S2P Require Import Prelude Params Kmonad Bio BioSpec Log LogSpec LogCrash LogOps Fs.

(** ** Inodes in a block *)

(** Values that fit the fields of [struct dinode]. *)
Record dinode_ok (x : dinode) : Prop := DinodeOk {
  dn_type : - 2 ^ 15 ≤ d_type x < 2 ^ 15;
  dn_major : - 2 ^ 15 ≤ d_major x < 2 ^ 15;
  dn_minor : - 2 ^ 15 ≤ d_minor x < 2 ^ 15;
  dn_nlink : - 2 ^ 15 ≤ d_nlink x < 2 ^ 15;
  dn_size : 0 ≤ d_size x < 2 ^ 32;
  dn_addrs : length (d_addrs x) = 13%nat;
  dn_addr : ∀ j, 0 ≤ (d_addrs x).[j] < 2 ^ 32
}.

Lemma put_addrs_gen l n : ∀ a o d,
  let d' := fold_left (λ d j, put32 d (o + 4 * j)%nat (l.[j])) (seq a n) d in
  length d' = length d ∧
  (∀ o', (o' + 4 ≤ o + 4 * a ∨ o + 4 * (a + n) ≤ o')%nat → get32 d' o' = get32 d o') ∧
  (∀ o', (o' + 2 ≤ o + 4 * a ∨ o + 4 * (a + n) ≤ o')%nat → get16 d' o' = get16 d o') ∧
  ((o + 4 * (a + n) ≤ length d)%nat → (∀ j, 0 ≤ l.[j] < 2 ^ 32) →
    ∀ j, (a ≤ j < a + n)%nat → get32 d' (o + 4 * j)%nat = l.[j]).
Proof.
  induction n as [|n IH]; intros a o d; cbn [seq fold_left]; [split_and!; intros; done || lia|].
  destruct (IH (S a) o (put32 d (o + 4 * a) (l.[a]))) as (H1 & H2 & H3 & H4). split_and!.
  - by rewrite H1, length_put32.
  - intros o' Ho. rewrite H2 by lia. apply get32_put32_ne. lia.
  - intros o' Ho. rewrite H3 by lia. apply get16_put32_ne. lia.
  - intros Hd Hl j Hj. destruct (decide (j = a)) as [->|].
    + rewrite H2 by lia. apply get32_put32_eq; [lia|done].
    + apply H4; [rewrite length_put32; lia|done|lia].
Qed.

(** The fields of an inode, read after another one is written elsewhere. *)
Lemma get_put_dinode_other d o o' x : (o' + DINODE ≤ o ∨ o + DINODE ≤ o')%nat →
  get_dinode (put_dinode d o x) o' = get_dinode d o'.
Proof.
  unfold DINODE. intros Ho. unfold get_dinode, put_dinode, put_addrs.
  destruct (put_addrs_gen (d_addrs x) 13 0 (o + 12) (put32 (put16 (put16 (put16 (put16 d o
    (d_type x)) (o + 2) (d_major x)) (o + 4) (d_minor x)) (o + 6) (d_nlink x)) (o + 8) (d_size x)))
    as (_ & H2 & H3 & _).
  f_equal; [..|apply list_fmap_ext; intros i j [-> Hj]%lookup_seq];
    rewrite ?H2, ?H3 by lia;
    repeat first [rewrite get16_put32_ne by lia | rewrite get16_put16_ne by lia
                 | rewrite get32_put32_ne by lia | rewrite get32_put16_ne by lia]; done.
Qed.

Lemma get_put_dinode_same d o x : (o + DINODE ≤ length d)%nat → dinode_ok x →
  get_dinode (put_dinode d o x) o = x.
Proof.
  unfold DINODE. intros Ho [H1 H2 H3 H4 H5 H6 H7]. unfold get_dinode, put_dinode, put_addrs.
  destruct (put_addrs_gen (d_addrs x) 13 0 (o + 12) (put32 (put16 (put16 (put16 (put16 d o
    (d_type x)) (o + 2) (d_major x)) (o + 4) (d_minor x)) (o + 6) (d_nlink x)) (o + 8) (d_size x)))
    as (_ & P2 & P3 & P4).
  destruct x as [ty mj mn nl sz ad].
  cbn [d_type d_major d_minor d_nlink d_size d_addrs] in *. f_equal.
  1-4: rewrite P3 by lia; rewrite get16_put32_ne by lia;
    repeat rewrite get16_put16_ne by lia; apply short_put16; [rewrite ?length_put16; lia|done].
  - rewrite P2 by lia. apply get32_put32_eq; [rewrite !length_put16; lia|done].
  - apply nthz_ext with 0; [by rewrite length_fmap, length_seq|].
    intros j Hj. rewrite length_fmap, length_seq in Hj.
    etransitivity; [|apply (P4 ltac:(rewrite length_put32, !length_put16; lia) H7 j); lia].
    apply nthz_Some. rewrite list_lookup_fmap, lookup_seq_lt by lia. simpl. f_equal.
Qed.

Lemma dinode_roundtrip_blocks (d : block) (inum : Z) (x : dinode) :
  length d = Z.to_nat BSIZE → dinode_ok x →
  get_dinode (put_dinode d (dinode_off inum) x) (dinode_off inum) = x ∧
  ∀ inum', inum' mod IPB ≠ inum mod IPB →
    get_dinode (put_dinode d (dinode_off inum) x) (dinode_off inum') =
    get_dinode d (dinode_off inum').
Proof.
  intros Hd Hx. assert (Hb : ∀ z, 0 ≤ z mod IPB < 8) by (intros; apply Z.mod_pos_bound; done).
  split.
  - apply get_put_dinode_same; [|done]. rewrite Hd. unfold dinode_off, DINODE.
    change (Z.to_nat BSIZE) with 512%nat. specialize (Hb inum). lia.
  - intros inum' Hne. apply get_put_dinode_other. unfold dinode_off, DINODE.
    pose proof (Hb inum). pose proof (Hb inum'). lia.
Qed.

(** On-disk inodes round trip.  After iupdate's assignments an inode reads
    back as it was written, and every other inode of the block as before. *)
Theorem dinode_roundtrip (d : block) (inum : Z) (x : dinode) :
  length d = Z.to_nat BSIZE → dinode_ok x →
  get_dinode (put_dinode d (dinode_off inum) x) (dinode_off inum) = x ∧
  ∀ inum', inum' mod IPB ≠ inum mod IPB →
    get_dinode (put_dinode d (dinode_off inum) x) (dinode_off inum') =
    get_dinode d (dinode_off inum').
Proof. exact (dinode_roundtrip_blocks d inum x). Qed.

Lemma dinode_roundtrip_witness :
  get_dinode (put_dinode zero_block (dinode_off 9)
    (Dinode 2 0 0 1 700 (31 :: 32 :: replicate 11 0))) (dinode_off 9) =
  Dinode 2 0 0 1 700 (31 :: 32 :: replicate 11 0).
Proof.
  apply (dinode_roundtrip zero_block 9 (Dinode 2 0 0 1 700 (31 :: 32 :: replicate 11 0))).
  - reflexivity.
  - split; simpl; try lia.
    intros j. do 13 (destruct j as [|j]; [unfold nthz; simpl; lia|]). unfold nthz. simpl. lia.
Defined.

(** ** Path names *)

(** The reference: a path is split at its slashes, empty elements dropped. *)
Fixpoint components (cur path : list Z) : list (list Z) :=
  match path with
  | [] => if decide (cur = []) then [] else [cur]
  | c :: p =>
    if c =? SLASH then if decide (cur = []) then components [] p else cur :: components [] p
    else components (cur ++ [c]) p
  end.

Lemma components_slashes p : components [] (skip_slashes p) = components [] p.
Proof.
  induction p as [|c p IH]; [done|]. simpl. destruct (c =? SLASH) eqn:E; simpl; [done|by rewrite E].
Qed.

Lemma length_skip_slashes p : (length (skip_slashes p) ≤ length p)%nat.
Proof. induction p as [|c p IH]; simpl; [lia|]. destruct (c =? SLASH); simpl; lia. Qed.

Lemma skip_slashes_head p c q : skip_slashes p = c :: q → c ≠ SLASH.
Proof.
  induction p as [|x p IH]; simpl; [done|]. destruct (Z.eqb_spec x SLASH); [done|].
  by intros [= -> _].
Qed.

Lemma span_elem_components p : ∀ cur s r, span_elem p = (s, r) → cur ++ s ≠ [] →
  components cur p = (cur ++ s) :: components [] r.
Proof.
  induction p as [|c p IH]; intros cur s r; simpl.
  - intros [= <- <-] Hne. rewrite app_nil_r in *. by rewrite decide_False.
  - destruct (Z.eqb_spec c SLASH) as [->|Hc].
    + intros [= <- <-] Hne. rewrite app_nil_r in *. simpl. by rewrite decide_False.
    + destruct (span_elem p) as [s' r'] eqn:E. intros [= <- <-] Hne.
      rewrite (IH (cur ++ [c]) s' r'); [|done|by destruct cur]. by rewrite <- app_assoc.
Qed.

Lemma length_span_elem p : ∀ s r, span_elem p = (s, r) → (length s + length r = length p)%nat.
Proof.
  induction p as [|c p IH]; intros s r; simpl; [by intros [= <- <-]|].
  destruct (c =? SLASH); [by intros [= <- <-]|]. destruct (span_elem p) as [s' r'].
  intros [= <- <-]. simpl. by rewrite <- (IH s' r').
Qed.

(** One call of skipelem takes off the first element. *)
Lemma skipelem_step path :
  match components [] path with
  | [] => skipelem path = None
  | c :: cs => ∃ rest, skipelem path = Some (take DIRSIZ c, rest) ∧ components [] rest = cs ∧
      (length rest < length path)%nat ∧ rest.[0] ≠ SLASH
  end.
Proof.
  unfold skipelem. rewrite <- components_slashes. pose proof (length_skip_slashes path) as Hle.
  destruct (skip_slashes path) as [|c p] eqn:E; [done|]. pose proof (skip_slashes_head _ _ _ E) as Hc.
  destruct (span_elem (c :: p)) as [s r] eqn:Es. pose proof (length_span_elem _ _ _ Es) as Hl.
  assert (Hs : s ≠ []).
  { simpl in Es. destruct (Z.eqb_spec c SLASH); [done|].
    destruct (span_elem p). by injection Es as <- <-. }
  rewrite (span_elem_components _ [] s r Es Hs). simpl app.
  exists (skip_slashes r). split_and!; [done|apply components_slashes| |].
  - pose proof (length_skip_slashes r). destruct s; simpl in *; [done|lia].
  - destruct (skip_slashes r) as [|x q] eqn:E'; [done|]. by apply (skip_slashes_head _ _ _ E').
Qed.

(** The loop of namex over a path, without the directory walk. *)
Fixpoint elems (fuel : nat) (path : list Z) : option (list (list Z)) :=
  match fuel with
  | O => None
  | S f =>
    match skipelem path with
    | None => Some []
    | Some (name, rest) => cons name <$> elems f rest
    end
  end.

(** Namex's loop visits exactly the path's elements, in order, each cut to
    DIRSIZ bytes: repeated calls of skipelem split the path at its slashes,
    ignoring empty elements, and the loop ends within one round per byte. *)
Theorem skipelem_splits (path : list Z) (fuel : nat) : (length path < fuel)%nat →
  elems fuel path = Some (take DIRSIZ <$> components [] path).
Proof.
  revert path. induction fuel as [|f IH]; intros path Hf; [lia|]. simpl.
  pose proof (skipelem_step path) as Hs. destruct (components [] path) as [|c cs].
  - by rewrite Hs.
  - destruct Hs as (rest & -> & <- & Hl & _). rewrite IH by lia. done.
Qed.

(** "//usr//bin/a" has three elements. *)
Lemma skipelem_splits_witness :
  elems 13 [47; 47; 117; 115; 114; 47; 47; 98; 105; 110; 47; 97] =
    Some [[117; 115; 114]; [98; 105; 110]; [97]].
Proof.
  rewrite (skipelem_splits [47; 47; 117; 115; 114; 47; 47; 98; 105; 110; 47; 97] 13) by (simpl; lia).
  reflexivity.
Defined.

(** * Blocks inside a transaction

    What bzero, balloc, bfree and iupdate do to the disk, as seen through the
    log: each changes the view of the blocks it is meant to change and of no
    other, and keeps the log's invariant. *)

(** The disk as the file system sees it. *)
Definition fview (s : fsstate) (x : Z) : block := lview (lg s) x.

(** Inside a transaction, with room to record [r] more blocks; [B] are held. *)
Record in_txn (B : list nat) (r : Z) (ls : logstate) : Prop := InTxn {
  it_log : log_ok B ls;
  it_out : 1 ≤ outstanding ls;
  it_room : lh_n ls + r < lsize ls
}.

Lemma in_txn_spare B r ls : in_txn B r ls → 0 ≤ r → Z.of_nat (length B) ≤ r → spare B ls.
Proof.
  intros [Hls _ Hr] H0 HB. unfold spare. rewrite length_logged by apply Hls.
  pose proof (g_lsize _ (lo_geom _ _ Hls)) as Hl. pose proof (g_n _ (lo_geom _ _ Hls)).
  change NBUF with 30%nat. change LOGSIZE with 30 in Hl. lia.
Qed.

Lemma in_txn_weaken B r r' ls : in_txn B r ls → r' ≤ r → in_txn B r' ls.
Proof. intros [] ?. split; try done. lia. Qed.

(** A block fs.c may log: neither the superblock nor in the log area. *)
Definition home (ls : logstate) (x : Z) : Prop := 2 ≤ x < start ls.

Lemma home_disk B ls x : log_ok B ls → home ls x → 0 ≤ x < disksize (bst ls).
Proof.
  intros Hls [H1 H2]. pose proof (g_area _ (lo_geom _ _ Hls)).
  pose proof (g_lsize _ (lo_geom _ _ Hls)). lia.
Qed.

Lemma inlg_Done {A} (m : M logstate A) k s a k' ls :
  m k (lg s) = Done a k' ls → inlg m k s = Done a k' (set_lg ls s).
Proof. apply zoom_Done. Qed.

Lemma set_bdata_eq b f k s : set_bdata b f k s =
  Done tt k (set_lg (set_bst (updb b (set_data (f (bdata b s))) (bst (lg s))) (lg s)) s).
Proof. done. Qed.

(** The buffers held keep their block and its data. *)
Definition kept (B : list nat) (ls ls' : logstate) : Prop :=
  ∀ b, b ∈ B → payload (theb b (bst ls')) = payload (theb b (bst ls)).

Lemma kept_refl B ls : kept B ls ls.
Proof. done. Qed.

Lemma kept_trans B l1 l2 l3 : kept B l1 l2 → kept B l2 l3 → kept B l1 l3.
Proof. intros H1 H2 b Hb. by rewrite (H2 b Hb), (H1 b Hb). Qed.

#[export] Hint Resolve kept_refl kept_trans : xv6.

Lemma unheld_kept B ls ls' sec : log_ok B ls → log_ok B ls' → kept B ls ls' →
  unheld B ls sec → unheld B ls' sec.
Proof.
  intros Hls Hls' Hk Hu i Hc Hi.
  apply (cached_spec B) in Hc as (H1 & H2 & H3); [|apply Hls'].
  destruct (payload_inv _ _ (Hk i Hi)) as (_ & Ed & Es & _).
  apply (Hu i); [|done]. apply (cached_spec B); [apply Hls|]. by rewrite <- Ed, <- Es.
Qed.

(** A buffer held for one block is not in the way of another. *)
Lemma unheld_other b x v ls sec : log_ok [b] ls → has_buf b x v (bst ls) → x ≠ sec →
  unheld [b] ls sec.
Proof.
  intros Hls Hb Hne i Hc Hi%list_elem_of_singleton. subst i.
  apply (cached_spec [b]) in Hc as (_ & _ & H3); [|apply Hls].
  rewrite (hb_sec _ _ _ _ Hb) in H3. done.
Qed.

Section blocks.
Implicit Types (B : list nat) (s : fsstate) (k : kctx).

(** A block of the disk read and released again. *)
Lemma read_block B r s k sec : in_txn B r (lg s) → 0 ≤ r → Z.of_nat (length B) ≤ r →
  held k = [] → 0 ≤ sec < disksize (bst (lg s)) → unheld B (lg s) sec →
  ∃ bp ls1 k' ls2, inbf (bread ROOTDEV sec) k s = Done bp k (set_lg ls1 s) ∧
    bdata bp (set_lg ls1 s) = fview s sec ∧
    inbf (brelse bp) k (set_lg ls1 s) = Done tt k' (set_lg ls2 s) ∧ held k' = [] ∧
    in_txn B r ls2 ∧ same_log (lg s) ls2 ∧ kept B (lg s) ls2 ∧
    (∀ x, lview ls2 x = fview s x).
Proof.
  intros Hin H0 HB Hk Hsec Hun. pose proof (in_txn_spare _ _ _ Hin H0 HB) as Hsp.
  destruct Hin as [Hls Ho Hr].
  destruct (log_bread B (lg s) k sec Hls Hk Hsec Hun Hsp) as (b & s1 & E1 & Hls1 & Hn & Hb & R1 & U1 & F1).
  destruct (log_brelse B (set_bst s1 (lg s)) k b Hls1 Hn (hb_lt _ _ _ _ Hb) Hk R1)
    as (k' & s2 & E2 & Hk' & Hls2 & U2 & F2).
  exists b, (set_bst s1 (lg s)), k', (set_bst s2 (lg s)). split_and!; try done.
  - exact (inlg_Done _ _ _ _ _ _ E1).
  - apply (hb_data _ _ _ _ Hb).
  - exact (inlg_Done _ _ (set_lg (set_bst s1 (lg s)) s) _ _ _ E2).
  - split; try done. eapply same_disk_trans; [apply U1|apply U2].
  - intros i Hi. assert (i ≠ b) by congruence. simpl. by rewrite F2, F1.
  - intros x. unfold lview. simpl. rewrite (un_view _ _ U2). apply (un_view _ _ U1).
Qed.

(** The idiom of an update: one block of the view changes. *)
Lemma update_block B r s k sec (f : block → block) : in_txn B r (lg s) → 1 ≤ r →
  Z.of_nat (length B) ≤ r → held k = [] → home (lg s) sec → unheld B (lg s) sec →
  length (f (fview s sec)) = Z.to_nat BSIZE →
  ∃ bp ls1 ls2 k' ls3,
    inbf (bread ROOTDEV sec) k s = Done bp k (set_lg ls1 s) ∧
    bdata bp (set_lg ls1 s) = fview s sec ∧
    (∀ g, g (fview s sec) = f (fview s sec) →
      (set_bdata bp g;; inlg (log_write bp)) k (set_lg ls1 s) = Done tt k (set_lg ls2 s)) ∧
    inbf (brelse bp) k (set_lg ls2 s) = Done tt k' (set_lg ls3 s) ∧ held k' = [] ∧
    in_txn B (r - 1) ls3 ∧ kept B (lg s) ls3 ∧ same_log (lg s) ls3 ∧
    (∀ x, lview ls3 x = if decide (sec = x) then f (fview s sec) else fview s x).
Proof.
  intros Hin H1 HB Hk Hsec Hun Hf. pose proof (in_txn_spare _ _ _ Hin ltac:(lia) HB) as Hsp.
  destruct Hin as [Hls Ho Hr].
  destruct (log_bread B (lg s) k sec Hls Hk (home_disk _ _ _ Hls Hsec) Hun Hsp)
    as (b & s1 & E1 & Hls1 & Hn & Hb & R1 & U1 & F1).
  destruct (log_modify (b :: B) (set_bst s1 (lg s)) k b sec (fview s sec) (f (fview s sec)) Hls1 Hk)
    as (ls2 & E2 & Hls2 & Hb2 & R2 & S2 & V2 & N2 & F2); try done; [set_solver|simpl; lia|].
  destruct (log_brelse B ls2 k b Hls2 Hn (hb_lt _ _ _ _ Hb) Hk R2)
    as (k' & s3 & E3 & Hk' & Hls3 & U3 & F3).
  exists b, (set_bst s1 (lg s)), ls2, k', (set_bst s3 ls2).
  pose proof (hb_data _ _ _ _ Hb) as Hdata.
  split_and!; try done.
  - exact (inlg_Done _ _ _ _ _ _ E1).
  - intros g Hg. erewrite bind_Done by apply set_bdata_eq.
    change (bdata b (set_lg (set_bst s1 (lg s)) s)) with (data (theb b s1)). rewrite Hdata.
    change (lview (lg s) sec) with (fview s sec). rewrite Hg.
    exact (inlg_Done (log_write b) k
      (set_lg (set_bst (updb b (set_data (f (fview s sec))) s1) (set_bst s1 (lg s))) s) _ _ _ E2).
  - exact (inlg_Done _ _ (set_lg ls2 s) _ _ _ E3).
  - split; [done| |]; simpl; destruct S2 as [_ Es Eo _ _]; simpl in *; rewrite ?Eo, ?Es; lia.
  - intros i Hi. assert (i ≠ b) by congruence. simpl. by rewrite F3, F2, F1.
  - apply (same_log_trans _ ls2); [|split; try done; apply U3].
    apply (same_log_trans _ (set_bst s1 (lg s))); [|exact S2]. split; try done. apply U1.
  - intros x. unfold lview. simpl. rewrite (un_view _ _ U3). fold (lview ls2 x). rewrite V2.
    case_decide; [done|]. unfold lview. simpl. apply (un_view _ _ U1).
Qed.

Lemma inbf_bind {A C} (m : M bstate A) (f : A → M bstate C) k s :
  inbf (m ≫= f) k s = (inbf m ≫= λ a, inbf (f a)) k s.
Proof.
  unfold inbf, inlg, inb, zoom, mbind, M_bind.
  by destruct (m k (bst (lg s))) as [a k' t| | | |].
Qed.

Lemma inbf_ret {A} (a : A) k s : inbf (mret a) k s = Done a k s.
Proof. by destruct s as [[] ?]. Qed.

Lemma inbf_gets {A} (f : bstate → A) k s : inbf (gets f) k s = Done (f (bst (lg s))) k s.
Proof. by destruct s as [[] ?]. Qed.

Lemma readsb_fs B r s k : in_txn B r (lg s) → Z.of_nat (length B) ≤ r → held k = [] →
  unheld B (lg s) 1 →
  ∃ k' ls, inbf (readsb ROOTDEV) k s = Done (superblock_of (fview s 1)) k' (set_lg ls s) ∧
    held k' = [] ∧ in_txn B r ls ∧ kept B (lg s) ls ∧ same_log (lg s) ls ∧
    (∀ x, lview ls x = fview s x).
Proof.
  intros Hin Hr Hk Hu. pose proof (lo_geom _ _ (it_log _ _ _ Hin)) as Hg.
  pose proof (g_start _ Hg). pose proof (g_area _ Hg). pose proof (g_lsize _ Hg).
  destruct (read_block B r s k 1 Hin) as (b & ls1 & k' & ls2 & E1 & Hd & E2 & Hk' & Hin2 & S2 & K2 & V2);
    try done; [lia|lia|].
  exists k', ls2. split_and!; try done. unfold readsb.
  rewrite inbf_bind. mb E1. rewrite inbf_bind.
  mb (inbf_gets (theb b) k (set_lg ls1 s)). rewrite inbf_bind. mb E2.
  change (data (theb b (bst (lg (set_lg ls1 s))))) with (bdata b (set_lg ls1 s)).
  by rewrite Hd, inbf_ret.
Qed.

(** bzero clears one block. *)
Lemma bzero_spec B r s k b : in_txn B r (lg s) → 1 ≤ r → Z.of_nat (length B) ≤ r → held k = [] →
  home (lg s) b → unheld B (lg s) b →
  ∃ k' ls, bzero ROOTDEV b k s = Done tt k' (set_lg ls s) ∧ held k' = [] ∧
    in_txn B (r - 1) ls ∧ kept B (lg s) ls ∧ same_log (lg s) ls ∧
    (∀ x, lview ls x = if decide (b = x) then zero_block else fview s x).
Proof.
  intros Hin Hr HB Hk Hb Hu.
  destruct (update_block B r s k b (λ _, zero_block) Hin Hr) as
    (bp & ls1 & ls2 & k' & ls3 & E1 & _ & E2 & E3 & Hk' & Hin3 & K3 & S3 & V3); try done.
  exists k', ls3. split_and!; try done. unfold bzero.
  pose proof (home_disk _ _ _ (it_log _ _ _ Hin) Hb).
  pose proof (g_disk _ (lo_geom _ _ (it_log _ _ _ Hin))).
  rewrite u32_small by lia. mb E1.
  rewrite (bind_assoc_Done _ _ _ _ _ _ _ _ (E2 (λ _, zero_block) eq_refl)). exact E3.
Qed.
End blocks.
