(* ===== verification/FsAlloc.v ===== *)
(** * The block allocator

    balloc returns the first block whose bit is clear, sets the bit and zeroes
    the block; bfree clears the bit.  Nothing else on the disk changes. *)

From stdpp Require Import base gmap list strings.
From Stdlib Require Import ZArith Lia Permutation.
From S2P Require Import Prelude Params Kmonad Console Bio BioSpec BioInit Log LogSpec LogCrash.
From S2P Require Import LogOps Fs FsTxn.

Implicit Types (s : fsstate) (k : kctx).

(** The bitmap: [b] is in use according to the block that holds its bit. *)
Definition in_use (s : fsstate) (ni b : Z) : bool :=
  negb (bit_clear (fview s (BBLOCK b ni)) (b mod BPB)).

Definition set_bit (bi : Z) (d : block) : block :=
  <[Z.to_nat (bi / 8) := Z.lor (d.[Z.to_nat (bi / 8)]) (bit_mask bi)]> d.
Definition clear_bit (bi : Z) (d : block) : block :=
  <[Z.to_nat (bi / 8) := Z.land (d.[Z.to_nat (bi / 8)]) (Z.lnot (bit_mask bi))]> d.

Lemma length_set_bit bi d : length (set_bit bi d) = length d.
Proof. unfold set_bit. len. Qed.
Lemma length_clear_bit bi d : length (clear_bit bi d) = length d.
Proof. unfold clear_bit. len. Qed.

(** ** Bits *)

Lemma bit_clear_test d bi : 0 ≤ bi →
  bit_clear d bi = negb (Z.testbit (d.[Z.to_nat (bi / 8)]) (bi mod 8)).
Proof.
  intros Hbi. pose proof (Z.mod_pos_bound bi 8 ltac:(lia)). unfold bit_clear, bit_mask.
  rewrite Z.shiftl_1_l. rewrite <- has_pow2 by lia. unfold has. by rewrite negb_involutive.
Qed.

Lemma testbit_mask bi n : 0 ≤ bi → 0 ≤ n → Z.testbit (bit_mask bi) n = bool_decide (bi mod 8 = n).
Proof.
  intros Hbi Hn. pose proof (Z.mod_pos_bound bi 8 ltac:(lia)). unfold bit_mask.
  rewrite Z.shiftl_1_l, Z.pow2_bits_eqb by lia.
  destruct (Z.eqb_spec (bi mod 8) n).
  - by rewrite bool_decide_eq_true_2.
  - by rewrite bool_decide_eq_false_2.
Qed.

Lemma same_bit a b : 0 ≤ a → 0 ≤ b → a / 8 = b / 8 → a mod 8 = b mod 8 → a = b.
Proof. intros. pose proof (Z.div_mod a 8 ltac:(lia)). pose proof (Z.div_mod b 8 ltac:(lia)). lia. Qed.

Lemma bit_index bi (d : block) : 0 ≤ bi < BPB → length d = Z.to_nat BSIZE → (Z.to_nat (bi / 8) < length d)%nat.
Proof.
  unfold BPB. intros Hb ->. change (BSIZE * 8) with 4096 in Hb.
  assert (0 ≤ bi / 8 < 512); [|change (Z.to_nat BSIZE) with 512%nat; lia].
  split; [apply Z.div_pos; lia|apply Z.div_lt_upper_bound; lia].
Qed.

Lemma bit_clear_set bi bj d : 0 ≤ bi < BPB → 0 ≤ bj < BPB → length d = Z.to_nat BSIZE →
  bit_clear (set_bit bi d) bj = if decide (bi = bj) then false else bit_clear d bj.
Proof.
  intros Hi Hj Hd. pose proof (bit_index bi d Hi Hd). rewrite !bit_clear_test by lia. unfold set_bit.
  pose proof (Z.mod_pos_bound bj 8 ltac:(lia)).
  destruct (decide (bi / 8 = bj / 8)) as [E|E].
  - rewrite <- E, nthz_insert_eq by done. rewrite Z.lor_spec, testbit_mask by lia.
    case_decide as Eb; [subst bj; rewrite bool_decide_eq_true_2 by done; by rewrite orb_true_r|].
    rewrite bool_decide_eq_false_2, orb_false_r; [done|]. intros Em. apply Eb. by apply same_bit; lia.
  - rewrite decide_False by congruence. rewrite nthz_insert_ne; [done|].
    assert (0 ≤ bi / 8) by (apply Z.div_pos; lia). assert (0 ≤ bj / 8) by (apply Z.div_pos; lia). lia.
Qed.

Lemma bit_clear_clear bi bj d : 0 ≤ bi < BPB → 0 ≤ bj < BPB → length d = Z.to_nat BSIZE →
  bit_clear (clear_bit bi d) bj = if decide (bi = bj) then true else bit_clear d bj.
Proof.
  intros Hi Hj Hd. pose proof (bit_index bi d Hi Hd). rewrite !bit_clear_test by lia. unfold clear_bit.
  pose proof (Z.mod_pos_bound bj 8 ltac:(lia)).
  destruct (decide (bi / 8 = bj / 8)) as [E|E].
  - rewrite <- E, nthz_insert_eq by done. rewrite Z.land_spec, Z.lnot_spec, testbit_mask by lia.
    case_decide as Eb; [subst bj; rewrite bool_decide_eq_true_2 by done; by rewrite andb_false_r|].
    rewrite bool_decide_eq_false_2, andb_true_r; [done|]. intros Em. apply Eb. by apply same_bit; lia.
  - rewrite decide_False by congruence. rewrite nthz_insert_ne; [done|].
    assert (0 ≤ bi / 8) by (apply Z.div_pos; lia). assert (0 ≤ bj / 8) by (apply Z.div_pos; lia). lia.
Qed.

(** ** The scan of a bitmap block *)

Lemma balloc_scan_spec d b size : ∀ fuel bi, 0 ≤ bi ≤ BPB → (Z.to_nat (BPB - bi) < fuel)%nat →
  match balloc_scan fuel d b bi size with
  | Some j => bi ≤ j < BPB ∧ b + j < size ∧ bit_clear d j = true ∧
      ∀ i, bi ≤ i < j → bit_clear d i = false
  | None => ∀ i, bi ≤ i < BPB → b + i < size → bit_clear d i = false
  end.
Proof.
  induction fuel as [|f IH]; intros bi Hbi Hf; [lia|]. cbn [balloc_scan].
  destruct (Z.ltb_spec bi BPB); cbn [andb]; [|intros i ?; lia].
  destruct (Z.ltb_spec (b + bi) size); [|intros i ? ?; lia].
  destruct (bit_clear d bi) eqn:E; [split_and!; try done; lia|].
  specialize (IH (bi + 1) ltac:(lia) ltac:(lia)). destruct (balloc_scan f d b (bi + 1) size) as [j|].
  - destruct IH as (? & ? & ? & Hall). split_and!; try done; [lia|lia|]. intros i Hi.
    destruct (decide (i = bi)) as [->|]; [done|]. apply Hall. lia.
  - intros i Hi Hs. destruct (decide (i = bi)) as [->|]; [done|]. apply IH; lia.
Qed.

(** ** balloc *)

(** [b0] is the first free block. *)
Record first_free (s : fsstate) (ni size b0 : Z) : Prop := FirstFree {
  ff_range : 0 ≤ b0 < size;
  ff_clear : in_use s ni b0 = false;
  ff_least : ∀ b, 0 ≤ b < b0 → in_use s ni b = true;
  ff_home : home (lg s) b0;
  ff_map : ∀ b, 0 ≤ b ≤ b0 → home (lg s) (BBLOCK b ni);
  ff_apart : BBLOCK b0 ni ≠ b0
}.

Lemma BBLOCK_at ni j i : 0 ≤ i < BPB → BBLOCK (j * BPB + i) ni = BBLOCK (j * BPB) ni ∧
  (j * BPB + i) mod BPB = i.
Proof.
  intros Hi. unfold BBLOCK. change BPB with 4096 in *. split.
  - rewrite Z.div_add_l, Z.div_mul, Z.div_small by lia. lia.
  - rewrite Z.add_comm, Z.mod_add by lia. by apply Z.mod_small.
Qed.

Lemma first_free_view s s' ni size b0 : (∀ x, fview s' x = fview s x) →
  start (lg s') = start (lg s) → first_free s ni size b0 → first_free s' ni size b0.
Proof.
  intros Hv Hst [H1 H2 H3 H4 H5 H6]. unfold in_use, home in *.
  split; unfold in_use, home; rewrite ?Hst; try done; [by rewrite Hv|].
  intros b Hb. rewrite Hv. by apply H3.
Qed.

Definition allocated (s : fsstate) (ni b0 : Z) (x : Z) : block :=
  if decide (b0 = x) then zero_block
  else if decide (BBLOCK b0 ni = x) then set_bit (b0 mod BPB) (fview s x) else fview s x.

(** The buffers held are not the blocks balloc works on. *)
Record clear_of (B : list nat) (ls : logstate) (ni b0 : Z) : Prop := ClearOf {
  cf_super : unheld B ls 1;
  cf_block : unheld B ls b0;
  cf_map : ∀ b, 0 ≤ b ≤ b0 → unheld B ls (BBLOCK b ni)
}.

Lemma clear_of_kept B ls ls' ni b0 : log_ok B ls → log_ok B ls' → kept B ls ls' →
  clear_of B ls ni b0 → clear_of B ls' ni b0.
Proof.
  intros H1 H2 H3 [S X Mp]. pose proof (λ sec, unheld_kept B ls ls' sec H1 H2 H3) as U.
  split; [exact (U _ S)|exact (U _ X)|intros b Hb; exact (U _ (Mp b Hb))].
Qed.

Lemma clear_of_nil ls ni b0 : clear_of [] ls ni b0.
Proof. split; auto with xv6. Qed.

#[export] Hint Resolve clear_of_nil : xv6.

Lemma fview_length {B} r s x : in_txn B r (lg s) → length (fview s x) = Z.to_nat BSIZE.
Proof. intros H. apply (view_length B), (it_log _ _ _ H). Qed.

(** The bitmap block that holds the bit of the first free block. *)
Lemma balloc_take B r s k sb b0 f : in_txn B r (lg s) → Z.of_nat (length B) + 2 ≤ r → held k = [] →
  first_free s (sb_ninodes sb) (sb_size sb) b0 → clear_of B (lg s) (sb_ninodes sb) b0 →
  ∃ k' ls, balloc_loop (S f) ROOTDEV (b0 / BPB * BPB) sb k s = Done b0 k' (set_lg ls s) ∧
    held k' = [] ∧ in_txn B (r - 2) ls ∧ kept B (lg s) ls ∧ same_log (lg s) ls ∧
    (∀ x, lview ls x = allocated s (sb_ninodes sb) b0 x).
Proof.
  intros Hin Hr Hk [Hrng Hcl Hle Hho Hmap Hap] Hco. set (ni := sb_ninodes sb) in *.
  set (j := b0 / BPB). set (i0 := b0 mod BPB).
  assert (Eb : b0 = j * BPB + i0) by (pose proof (Z.div_mod b0 BPB ltac:(done)); unfold j, i0; lia).
  assert (Hi0 : 0 ≤ i0 < BPB) by (apply Z.mod_pos_bound; done).
  assert (Hj : 0 ≤ j * BPB) by (apply Z.mul_nonneg_nonneg; [apply Z.div_pos; [lia|done]|done]).
  destruct (BBLOCK_at ni j i0 Hi0) as [EB _].
  assert (EB' : BBLOCK b0 ni = BBLOCK (j * BPB) ni) by (rewrite Eb at 1; done).
  assert (HB : home (lg s) (BBLOCK (j * BPB) ni)) by (rewrite <- EB'; apply Hmap; lia).
  destruct (update_block B r s k (BBLOCK (j * BPB) ni) (set_bit i0) Hin) as
    (bp & ls1 & ls2 & k1 & ls3 & E1 & Hd1 & E2 & E3 & Hk1 & Hin3 & K3 & S3 & V3);
    try done; [lia|lia|apply (cf_map _ _ _ _ Hco); lia|rewrite length_set_bit; by eapply fview_length|].
  destruct (bzero_spec B (r - 1) (set_lg ls3 s) k1 b0 Hin3) as
    (k2 & ls4 & E4 & Hk2 & Hin4 & K4 & S4 & V4);
    [lia|lia|done|unfold home; simpl; rewrite (sl_start _ _ S3); done| |].
  { exact (unheld_kept _ _ _ _ (it_log _ _ _ Hin) (it_log _ _ _ Hin3) K3 (cf_block _ _ _ _ Hco)). }
  exists k2, ls4. split_and!; try done.
  - cbn [balloc_loop]. destruct (Z.ltb_spec (j * BPB) (sb_size sb)); [|lia]. fold ni.
    assert (Hu : u32 (BBLOCK (j * BPB) ni) = BBLOCK (j * BPB) ni).
    { apply u32_small. pose proof (home_disk _ _ _ (it_log _ _ _ Hin) HB).
      pose proof (g_disk _ (lo_geom _ _ (it_log _ _ _ Hin))). lia. }
    rewrite Hu. mb E1. mb (gets_eq (bdata bp) k (set_lg ls1 s)). rewrite Hd1.
    pose proof (balloc_scan_spec (fview s (BBLOCK (j * BPB) ni)) (j * BPB) (sb_size sb)
      (S (Z.to_nat BPB)) 0 ltac:(done) ltac:(lia)) as Hscan.
    assert (Hc0 : bit_clear (fview s (BBLOCK (j * BPB) ni)) i0 = true).
    { unfold in_use in Hcl. rewrite EB' in Hcl. by apply negb_false_iff in Hcl. }
    destruct (balloc_scan _ _ _ _ _) as [i|].
    + destruct Hscan as (Hi & Hs & Hci & Hleast).
      assert (i = i0) as ->.
      { destruct (Z.lt_trichotomy i i0) as [Hlt|[->|Hgt]]; [|done|].
        - specialize (Hle (j * BPB + i) ltac:(lia)). unfold in_use in Hle.
          destruct (BBLOCK_at ni j i) as [E5 E6]; [lia|]. by rewrite E5, E6, Hci in Hle.
        - rewrite Hleast in Hc0; [done|lia]. }
      rewrite (bind_assoc_Done _ _ _ _ _ _ _ _ (E2 (set_bit i0) eq_refl)). mb E3.
      rewrite <- Eb. mb E4. done.
    + rewrite Hscan in Hc0; [done|lia|lia].
  - by eapply in_txn_weaken; [exact Hin4|lia].
  - by eapply kept_trans.
  - eapply same_log_trans; [exact S3|exact S4].
  - intros x. rewrite V4. unfold allocated. case_decide; [done|]. unfold fview at 1. simpl.
    rewrite V3, EB'. case_decide as Ex; [by rewrite <- Ex|done].
Qed.

(** The outer loop, from bitmap block [j] with [n] blocks to go. *)
Lemma balloc_loop_spec B r sb b0 n : ∀ f j k s, in_txn B r (lg s) →
  Z.of_nat (length B) + 2 ≤ r → held k = [] → first_free s (sb_ninodes sb) (sb_size sb) b0 →
  clear_of B (lg s) (sb_ninodes sb) b0 → 0 ≤ j → j + Z.of_nat n = b0 / BPB → (n < f)%nat →
  ∃ k' ls, balloc_loop f ROOTDEV (j * BPB) sb k s = Done b0 k' (set_lg ls s) ∧
    held k' = [] ∧ in_txn B (r - 2) ls ∧ kept B (lg s) ls ∧ same_log (lg s) ls ∧
    (∀ x, lview ls x = allocated s (sb_ninodes sb) b0 x).
Proof.
  induction n as [|n IH]; intros [|f] j k s Hin Hr Hk Hff Hco Hj Hn Hf; try lia.
  { replace j with (b0 / BPB) by lia. by apply balloc_take. }
  pose proof Hff as [Hrng Hcl Hle Hho Hmap Hap]. set (ni := sb_ninodes sb) in *.
  assert (Hlt : j * BPB + BPB ≤ b0).
  { pose proof (Z.div_mod b0 BPB ltac:(done)). pose proof (Z.mod_pos_bound b0 BPB ltac:(done)).
    change BPB with 4096 in *. lia. }
  assert (Hj0 : 0 ≤ j * BPB) by (apply Z.mul_nonneg_nonneg; done).
  assert (HP : 0 < BPB) by done.
  assert (HB : home (lg s) (BBLOCK (j * BPB) ni)) by (apply Hmap; lia).
  pose proof (home_disk _ _ _ (it_log _ _ _ Hin) HB) as Hdisk.
  pose proof (g_disk _ (lo_geom _ _ (it_log _ _ _ Hin))) as Hmax.
  destruct (read_block B r s k (BBLOCK (j * BPB) ni) Hin) as
    (bp & ls1 & k1 & ls2 & E1 & Hd1 & E2 & Hk1 & Hin2 & S2 & K2 & V2); try done;
    [lia|lia|apply (cf_map _ _ _ _ Hco); lia|].
  destruct (IH f (j + 1) k1 (set_lg ls2 s)) as (k3 & ls3 & E3 & Hk3 & Hin3 & K3 & S3 & V3);
    try done; try lia.
  { apply (first_free_view s); [done|apply S2|done]. }
  { exact (clear_of_kept _ _ _ _ _ (it_log _ _ _ Hin) (it_log _ _ _ Hin2) K2 Hco). }
  exists k3, ls3. split_and!; try done; [|by eapply kept_trans|by eapply same_log_trans|].
  - cbn [balloc_loop]. destruct (Z.ltb_spec (j * BPB) (sb_size sb)); [|lia]. fold ni.
    rewrite u32_small by lia. mb E1. mb (gets_eq (bdata bp) k (set_lg ls1 s)). rewrite Hd1.
    pose proof (balloc_scan_spec (fview s (BBLOCK (j * BPB) ni)) (j * BPB) (sb_size sb)
      (S (Z.to_nat BPB)) 0 ltac:(done) ltac:(lia)) as Hscan.
    destruct (balloc_scan _ _ _ _ _) as [i|].
    + exfalso. destruct Hscan as (Hi & _ & Hci & _). specialize (Hle (j * BPB + i) ltac:(lia)).
      unfold in_use in Hle. destruct (BBLOCK_at ni j i) as [E5 E6]; [lia|].
      by rewrite E5, E6, Hci in Hle.
    + mb E2. replace (j * BPB + BPB) with ((j + 1) * BPB) by lia. exact E3.
  - intros x. rewrite V3. unfold allocated. unfold fview at 1 2. simpl. by rewrite V2.
Qed.

(** The superblock as the file system sees it. *)
Definition sblock (s : fsstate) : superblock := superblock_of (fview s 1).

Lemma balloc_spec B r s k b0 : in_txn B r (lg s) → Z.of_nat (length B) + 2 ≤ r → held k = [] →
  first_free s (sb_ninodes (sblock s)) (sb_size (sblock s)) b0 →
  clear_of B (lg s) (sb_ninodes (sblock s)) b0 →
  ∃ k' ls, balloc ROOTDEV k s = Done b0 k' (set_lg ls s) ∧
    held k' = [] ∧ in_txn B (r - 2) ls ∧ kept B (lg s) ls ∧ same_log (lg s) ls ∧
    (∀ x, lview ls x = allocated s (sb_ninodes (sblock s)) b0 x).
Proof.
  intros Hin Hr Hk Hff Hco.
  destruct (readsb_fs B r s k Hin ltac:(lia) Hk (cf_super _ _ _ _ Hco)) as
    (k1 & ls1 & E1 & Hk1 & Hin1 & K1 & S1 & V1).
  pose proof (ff_range _ _ _ _ Hff) as Hrng.
  destruct (balloc_loop_spec B r (sblock s) b0 (Z.to_nat (b0 / BPB))
    (S (S (Z.to_nat (sb_size (sblock s) / BPB)))) 0 k1 (set_lg ls1 s)) as
    (k2 & ls2 & E2 & Hk2 & Hin2 & K2 & S2 & V2); try done.
  { apply (first_free_view s); [done|apply S1|done]. }
  { exact (clear_of_kept _ _ _ _ _ (it_log _ _ _ Hin) (it_log _ _ _ Hin1) K1 Hco). }
  { assert (0 ≤ b0 / BPB) by (apply Z.div_pos; [lia|done]). lia. }
  { assert (b0 / BPB ≤ sb_size (sblock s) / BPB) by (apply Z.div_le_mono; [done|lia]).
    assert (0 ≤ b0 / BPB) by (apply Z.div_pos; [lia|done]). lia. }
  exists k2, ls2. split_and!; try done; [|by eapply kept_trans|by eapply same_log_trans|].
  - unfold balloc. mb E1. exact E2.
  - intros x. rewrite V2. unfold allocated, fview at 1 2. simpl. by rewrite V1.
Qed.

(** The bitmap after block [b0] is taken. *)
Lemma allocated_in_use s s' ni b0 b : (∀ x, length (fview s x) = Z.to_nat BSIZE) →
  (∀ x, fview s' x = allocated s ni b0 x) → BBLOCK b ni ≠ b0 →
  in_use s' ni b = in_use s ni b || bool_decide (b = b0).
Proof.
  intros Hlen V Hap. unfold in_use. rewrite V. unfold allocated. rewrite decide_False by congruence.
  assert (Hm : ∀ z, 0 ≤ z mod BPB < BPB) by (intros; apply Z.mod_pos_bound; done).
  case_decide as EB.
  - rewrite <- EB, bit_clear_set by (try apply Hm; apply Hlen). case_decide as Em.
    + rewrite bool_decide_eq_true_2; [by rewrite orb_true_r|].
      unfold BBLOCK in EB. pose proof (Z.div_mod b BPB ltac:(done)).
      pose proof (Z.div_mod b0 BPB ltac:(done)). lia.
    + rewrite bool_decide_eq_false_2 by congruence. by rewrite orb_false_r.
  - rewrite bool_decide_eq_false_2 by congruence. by rewrite orb_false_r.
Qed.

(** Balloc, inside a transaction, returns the first block whose bitmap bit is
    clear.  Afterwards that block is in use and zeroed, every other block is in
    use exactly when it was, and no block but the allocated one and the bitmap
    block that holds its bit has changed; the log's invariant is kept and at most
    two blocks were recorded. *)
Theorem balloc_first_free (r : Z) (s : fsstate) (k : kctx) (b0 : Z) :
  in_txn [] r (lg s) → 2 ≤ r → held k = [] →
  first_free s (sb_ninodes (sblock s)) (sb_size (sblock s)) b0 →
  ∃ k' s', balloc ROOTDEV k s = Done b0 k' s' ∧ held k' = [] ∧ in_txn [] (r - 2) (lg s') ∧
    fview s' b0 = zero_block ∧ icache s' = icache s ∧
    (∀ b, 0 ≤ b < sb_size (sblock s) → (∀ x, 0 ≤ x < sb_size (sblock s) →
        BBLOCK x (sb_ninodes (sblock s)) ≠ b0) →
      in_use s' (sb_ninodes (sblock s)) b = in_use s (sb_ninodes (sblock s)) b || bool_decide (b = b0)) ∧
    (∀ x, x ≠ b0 → x ≠ BBLOCK b0 (sb_ninodes (sblock s)) → fview s' x = fview s x).
Proof.
  intros Hin Hr Hk Hff.
  destruct (balloc_spec [] r s k b0 Hin Hr Hk Hff (clear_of_nil _ _ _)) as
    (k' & ls & E & Hk' & Hin' & _ & S & V).
  set (ni := sb_ninodes (sblock s)) in *.
  exists k', (set_lg ls s). split_and!; try done.
  - unfold fview. simpl. rewrite V. unfold allocated. by rewrite decide_True.
  - intros b Hb Hap. apply allocated_in_use; [|exact V|by apply Hap].
    intros x. by eapply fview_length.
  - intros x H1 H2. unfold fview at 1. simpl. rewrite V. unfold allocated.
    by rewrite !decide_False.
Qed.

(** Bfree clears the bitmap bit of a block in use, and changes nothing else
    on the disk; freeing a block that is not in use panics. *)
Theorem bfree_clears (r : Z) (s : fsstate) (k : kctx) (b : Z) :
  let ni := sb_ninodes (sblock s) in
  in_txn [] r (lg s) → 1 ≤ r → held k = [] → 0 ≤ b → home (lg s) (BBLOCK b ni) →
  if in_use s ni b then
    ∃ k' s', bfree ROOTDEV b k s = Done tt k' s' ∧ held k' = [] ∧ in_txn [] (r - 1) (lg s') ∧
      icache s' = icache s ∧ in_use s' ni b = false ∧
      (∀ b', 0 ≤ b' → b' ≠ b → in_use s' ni b' = in_use s ni b') ∧
      (∀ x, x ≠ BBLOCK b ni → fview s' x = fview s x)
  else bfree ROOTDEV b k s = Panicked "freeing free block".
Proof.
  intros ni Hin Hr Hk Hb HB.
  destruct (readsb_fs [] r s k Hin ltac:(simpl; lia) Hk (unheld_nil _ _)) as
    (k1 & ls1 & E1 & Hk1 & Hin1 & _ & S1 & V1).
  assert (Hm : ∀ z, 0 ≤ z mod BPB < BPB) by (intros; apply Z.mod_pos_bound; done).
  assert (HB1 : home (lg (set_lg ls1 s)) (BBLOCK b ni)) by (unfold home; simpl; by rewrite (sl_start _ _ S1)).
  assert (Hu : u32 (BBLOCK b ni) = BBLOCK b ni).
  { apply u32_small. pose proof (home_disk _ _ _ (it_log _ _ _ Hin) HB).
    pose proof (g_disk _ (lo_geom _ _ (it_log _ _ _ Hin))). lia. }
  destruct (update_block [] r (set_lg ls1 s) k1 (BBLOCK b ni) (clear_bit (b mod BPB)) Hin1) as
    (bp & ls2 & ls3 & k4 & ls4 & E2 & Hd2 & E3 & E4 & Hk4 & Hin4 & _ & S4 & V4); try done;
    [simpl; lia|auto with xv6|rewrite length_clear_bit; by eapply fview_length|].
  change (fview (set_lg ls1 s)) with (lview ls1) in *. rewrite V1 in *.
  assert (Erun : bfree ROOTDEV b k s = (if bit_clear (fview s (BBLOCK b ni)) (b mod BPB)
    then panic "freeing free block"
    else set_bdata bp (clear_bit (b mod BPB));; inlg (log_write bp);; inbf (brelse bp))
      k1 (set_lg ls2 (set_lg ls1 s))).
  { unfold bfree. mb E1. fold (sblock s) ni. rewrite Hu. mb E2.
    mb (gets_eq (bdata bp) k1 (set_lg ls2 (set_lg ls1 s))). by rewrite Hd2. }
  unfold in_use at 1. rewrite Erun. destruct (bit_clear _ _) eqn:Ebit; [done|]. cbn [negb].
  rewrite (bind_assoc_Done _ _ _ _ _ _ _ _ (E3 (clear_bit (b mod BPB)) eq_refl)), E4.
  assert (V : ∀ x, lview ls4 x = if decide (BBLOCK b ni = x) then clear_bit (b mod BPB) (fview s x)
    else fview s x).
  { intros x. rewrite V4. case_decide as E; [by rewrite <- E|apply V1]. }
  exists k4, (set_lg ls4 s). split_and!; try done.
  - unfold in_use, fview at 1. simpl. rewrite V, decide_True by done.
    rewrite bit_clear_clear by (try apply Hm; by eapply fview_length). by rewrite decide_True.
  - intros b' Hb' Hne. unfold in_use, fview at 1. simpl. rewrite V. case_decide as EB; [|done].
    rewrite bit_clear_clear by (try apply Hm; by eapply fview_length). rewrite decide_False; [done|].
    intros Em. apply Hne. unfold BBLOCK in EB. pose proof (Z.div_mod b BPB ltac:(done)).
    pose proof (Z.div_mod b' BPB ltac:(done)). lia.
  - intros x Hx. unfold fview at 1. simpl. by rewrite V, decide_False.
Qed.

(** Balloc's scan runs over all sb.size blocks of the disk, and mkfs marks
    only the blocks it has used.  So when the blocks below the log area are in use
    and the bit of the area's first block is clear, as mkfs leaves it, the scan
    returns that block: balloc hands out a block of the log. *)
Theorem balloc_scan_reaches_log (sb : superblock) (d : block) :
  let st := sb_size sb - sb_nlog sb in
  0 ≤ st < BPB → 0 < sb_nlog sb →
  (∀ bi, 0 ≤ bi < st → bit_clear d bi = false) → bit_clear d st = true →
  balloc_scan (S (Z.to_nat BPB)) d 0 0 (sb_size sb) = Some st.
Proof.
  intros st Hst Hlog Hused Hfree.
  pose proof (balloc_scan_spec d 0 (sb_size sb) (S (Z.to_nat BPB)) 0 ltac:(done) ltac:(lia)) as H.
  destruct (balloc_scan _ _ _ _ _) as [j|].
  - destruct H as (Hj & Hs & Hc & Hleast). f_equal. destruct (Z.lt_trichotomy j st) as [Hlt|[->|Hgt]].
    + rewrite Hused in Hc; [done|lia].
    + done.
    + rewrite Hleast in Hfree; [done|lia].
  - rewrite H in Hfree; [done|lia|lia].
Qed.

(** ** A concrete file system

    1000 blocks, 200 inodes, the log at 970; blocks 0 to 39 are in use. *)

Definition demo_fsb : block := put32 (put32 (put32 zero_block 0 1000) 8 200) 12 30.
Definition demo_map : block := replicate 5 255 ++ replicate 507 0.
Definition demo_disk : gmap Z block := {[1 := demo_fsb; 28 := demo_map]}.
Definition demo_fs_of (bs : list buf) : fsstate :=
  Fsstate (Logstate (Bstate 1000 demo_disk [] bs) 970 30 1 0 ROOTDEV 0 (replicate 30 0))
    (replicate NINODE inode0) (Cst true false (replicate 2000 0) 0 [] (Input (replicate 128 0) 0 0 0)).
Definition demo_fs : fsstate := demo_fs_of binit_bufs.

Lemma demo_disk_full x : length (default zero_block (demo_disk !! x)) = Z.to_nat BSIZE.
Proof.
  unfold demo_disk. rewrite lookup_insert. case_decide; [done|].
  destruct (decide (x = 28)) as [->|]; [by rewrite lookup_singleton_eq|].
  by rewrite lookup_singleton_ne.
Qed.

Lemma demo_fs_of_ok bs l : lru bs l →
  (∀ i, (i < NBUF)%nat → flags (getb bs i) = 0 ∧ dev (getb bs i) = u32 (-1) ∧
    length (data (getb bs i)) = Z.to_nat BSIZE) →
  in_txn [] 10 (lg (demo_fs_of bs)) ∧
  ∀ x, fview (demo_fs_of bs) x = default zero_block (demo_disk !! x).
Proof.
  intros Hl C. destruct (clean_cache_ok 1000 demo_disk bs l Hl C demo_disk_full) as [Hok Hd].
  split.
  - split; [|simpl; lia|simpl; lia]. apply log_ok_empty; try done.
    + split; try done; simpl; try (unfold LOGSIZE; simpl; lia).
    + intros x. simpl. by rewrite Hd.
  - intros x. apply (view_clean []); [done|set_solver|by simpl; rewrite Hd].
Qed.

Lemma demo_fs_ok : in_txn [] 10 (lg demo_fs) ∧
  ∀ x, fview demo_fs x = default zero_block (demo_disk !! x).
Proof. exact (demo_fs_of_ok _ _ binit_bufs_lru binit_bufs_clean). Qed.

Lemma demo_sblock : sblock demo_fs = Superblock 1000 0 200 30.
Proof. unfold sblock. rewrite (proj2 demo_fs_ok). vm_compute. reflexivity. Qed.

Lemma demo_in_use b : 0 ≤ b < 4096 →
  in_use demo_fs 200 b = negb (bit_clear demo_map b).
Proof.
  intros Hb. unfold in_use. rewrite (proj2 demo_fs_ok). unfold BBLOCK.
  change BPB with 4096. rewrite Z.div_small, Z.mod_small by lia. reflexivity.
Qed.

Lemma demo_first_free : first_free demo_fs 200 1000 40.
Proof.
  assert (Hall : forallb (λ i, negb (bit_clear demo_map (Z.of_nat i))) (seq 0 40) = true)
    by (vm_compute; reflexivity).
  rewrite forallb_forall in Hall. split.
  - lia.
  - rewrite demo_in_use by lia. vm_compute. reflexivity.
  - intros b Hb. rewrite demo_in_use by lia. specialize (Hall (Z.to_nat b)).
    rewrite Z2Nat.id in Hall by lia. apply Hall, in_seq. lia.
  - split; simpl; lia.
  - intros b Hb. unfold BBLOCK. change BPB with 4096. rewrite Z.div_small by lia.
    split; [vm_compute; discriminate|vm_compute; reflexivity].
  - vm_compute. discriminate.
Qed.

Lemma balloc_first_free_witness :
  ∃ k' s', balloc ROOTDEV (Kctx [] []) demo_fs = Done 40 k' s' ∧ fview s' 40 = zero_block.
Proof.
  destruct (balloc_first_free 10 demo_fs (Kctx [] []) 40) as (k' & s' & E & _ & _ & Hz & _).
  - exact (proj1 demo_fs_ok).
  - lia.
  - reflexivity.
  - rewrite demo_sblock. exact demo_first_free.
  - exists k', s'. split; [exact E|exact Hz].
Defined.

Lemma bfree_clears_witness :
  ∃ k' s', bfree ROOTDEV 33 (Kctx [] []) demo_fs = Done tt k' s' ∧ in_use s' 200 33 = false.
Proof.
  pose proof (bfree_clears 10 demo_fs (Kctx [] []) 33 (proj1 demo_fs_ok)) as H.
  rewrite demo_sblock in H. cbn [sb_ninodes] in H. rewrite demo_in_use in H by lia.
  destruct H as (k' & s' & E & _ & _ & _ & Hu & _).
  - lia.
  - reflexivity.
  - lia.
  - split; simpl; vm_compute; [discriminate|reflexivity].
  - exists k', s'. split; [exact E|exact Hu].
Defined.

(** A disk of 100 blocks with a log of 10, full up to the log. *)
Lemma balloc_scan_reaches_log_witness :
  balloc_scan (S (Z.to_nat BPB)) (replicate 11 255 ++ [3] ++ replicate 500 0) 0 0 100 = Some 90.
Proof.
  apply (balloc_scan_reaches_log (Superblock 100 0 8 10)
    (replicate 11 255 ++ [3] ++ replicate 500 0)).
  - split; vm_compute; [discriminate|reflexivity].
  - reflexivity.
  - intros bi Hbi. change (0 ≤ bi < 90) in Hbi.
    assert (Hall : forallb (λ i, negb (bit_clear (replicate 11 255 ++ [3] ++ replicate 500 0)
      (Z.of_nat i))) (seq 0 90) = true) by (vm_compute; reflexivity).
    rewrite forallb_forall in Hall. specialize (Hall (Z.to_nat bi)).
    rewrite Z2Nat.id in Hall by lia. apply negb_true_iff, Hall, in_seq. lia.
  - vm_compute. reflexivity.
Defined.
