(* ===== verification/FsFree.v ===== *)
(** * The free blocks of the disk

    The layout fs.c relies on (superblock, inodes, bitmap, data, log), the list
    of the free data blocks, and balloc as taking the first of them, with any
    buffers held that are not in its way. *)

From stdpp Require Import base gmap list strings.
From Stdlib Require Import ZArith Lia Permutation.
From S2P Require Import Prelude Params Kmonad Console Bio BioSpec BioInit Log LogSpec LogCrash.
From S2P Require Import LogOps Fs FsTxn FsAlloc.

Implicit Types (s : fsstate) (k : kctx).

(** The number of inodes, and the first block after the bitmap. *)
Definition nin (s : fsstate) : Z := sb_ninodes (sblock s).
Definition data0 (s : fsstate) : Z := BBLOCK (sb_size (sblock s) - 1) (nin s) + 1.
Definition used (s : fsstate) (b : Z) : bool := in_use s (nin s) b.

(** The layout of the disk, with every block before the data marked in use. *)
Record fs_ok (s : fsstate) : Prop := FsOk {
  fo_size : 0 < start (lg s) ≤ sb_size (sblock s);
  fo_ni : 0 ≤ nin s;
  fo_data : data0 s ≤ start (lg s);
  fo_meta : ∀ b, 0 ≤ b < data0 s → used s b = true
}.

(** The free blocks below the log, in the order balloc takes them. *)
Definition frees (s : fsstate) : list Z :=
  filter (λ b, used s b = false) (seqZ 0 (start (lg s))).

(** ** The layout *)

Lemma BBLOCK_mono a b ni : a ≤ b → BBLOCK a ni ≤ BBLOCK b ni.
Proof. intros H. unfold BBLOCK. pose proof (Z.div_le_mono a b BPB ltac:(done) H). lia. Qed.

Lemma BBLOCK_data s b : 0 ≤ b < sb_size (sblock s) → BBLOCK 0 (nin s) ≤ BBLOCK b (nin s) < data0 s.
Proof.
  intros H. pose proof (BBLOCK_mono 0 b (nin s) ltac:(lia)). unfold data0.
  pose proof (BBLOCK_mono b (sb_size (sblock s) - 1) (nin s) ltac:(lia)). lia.
Qed.

Lemma BBLOCK_0 s : fs_ok s → 3 ≤ BBLOCK 0 (nin s) < data0 s.
Proof.
  intros H. pose proof (fo_size _ H). pose proof (BBLOCK_data s 0 ltac:(lia)).
  pose proof (fo_ni _ H). assert (0 ≤ nin s / IPB) by (by apply Z.div_pos).
  unfold BBLOCK in *. rewrite Zdiv_0_l in *. lia.
Qed.

(** The inode blocks come before the bitmap. *)
Lemma IBLOCK_meta s inum : fs_ok s → 0 ≤ inum < nin s → 2 ≤ IBLOCK inum < BBLOCK 0 (nin s).
Proof.
  intros H Hi. unfold IBLOCK, BBLOCK. rewrite Zdiv_0_l.
  pose proof (Z.div_le_mono inum (nin s) IPB ltac:(done) ltac:(lia)).
  assert (0 ≤ inum / IPB) by (apply Z.div_pos; [lia|done]). lia.
Qed.

Lemma data_home s b : fs_ok s → data0 s ≤ b < start (lg s) → home (lg s) b.
Proof. intros H Hb. pose proof (BBLOCK_0 s H). unfold home. lia. Qed.

Lemma meta_home s b : fs_ok s → 2 ≤ b < data0 s → home (lg s) b.
Proof. intros H Hb. pose proof (fo_data _ H). unfold home. lia. Qed.

(** ** The list of the free blocks *)

Lemma filter_seqZ_head (P : Z → Prop) `{∀ x, Decision (P x)} n : ∀ m b rest,
  filter P (seqZ m (Z.of_nat n)) = b :: rest →
  m ≤ b < m + Z.of_nat n ∧ P b ∧ ∀ c, m ≤ c < b → ¬ P c.
Proof.
  induction n as [|n IH]; intros m b rest; [done|]. rewrite seqZ_cons by lia. rewrite filter_cons.
  case_decide as E.
  - intros [= <- _]. split; [lia|]. split; [done|]. intros c Hc. lia.
  - replace (Z.pred (Z.of_nat (S n))) with (Z.of_nat n) by lia. intros Ef.
    destruct (IH _ _ _ Ef) as (H1 & H2 & H3). split; [lia|]. split; [done|].
    intros c Hc. destruct (decide (c = m)) as [->|]; [done|]. apply H3. lia.
Qed.

Lemma list_filter_iff' {A} (P Q : A → Prop) `{∀ x, Decision (P x)} `{∀ x, Decision (Q x)} (l : list A) :
  (∀ x, x ∈ l → P x ↔ Q x) → filter P l = filter Q l.
Proof.
  induction l as [|a l IH]; intros HQ; [done|]. rewrite !filter_cons.
  rewrite IH by (intros x Hx; apply HQ; by right). pose proof (HQ a ltac:(left)).
  repeat case_decide; naive_solver.
Qed.

Lemma filter_ne_head {A} `{EqDecision A} (P Q : A → Prop) `{∀ x, Decision (P x)}
    `{∀ x, Decision (Q x)} b : ∀ l rest : list A, NoDup l → filter P l = b :: rest →
  (∀ x, x ∈ l → Q x ↔ P x ∧ x ≠ b) → filter Q l = rest.
Proof.
  assert (G : ∀ l : list A, b ∉ l → (∀ x, x ∈ l → Q x ↔ P x ∧ x ≠ b) → filter Q l = filter P l).
  { intros l Hb HQ. apply list_filter_iff'. intros y Hy. rewrite HQ by done.
    split; [tauto|]. intros Hp. split; [done|]. by intros ->. }
  induction l as [|a l IH]; intros rest Hnd; [done|].
  apply NoDup_cons in Hnd as [Ha Hnd]. rewrite !filter_cons. intros E HQ.
  assert (HQ' : ∀ x, x ∈ l → Q x ↔ P x ∧ x ≠ b) by (intros x Hx; apply HQ; by right).
  pose proof (HQ a ltac:(left)) as Hqa. case_decide as Ep.
  - injection E as -> <-. rewrite decide_False by tauto. by apply G.
  - rewrite decide_False by tauto. by apply IH.
Qed.

Lemma frees_first s b0 rest : fs_ok s → frees s = b0 :: rest →
  data0 s ≤ b0 < start (lg s) ∧ used s b0 = false ∧
  first_free s (nin s) (sb_size (sblock s)) b0.
Proof.
  intros Hok E. pose proof (fo_size _ Hok) as Hs. pose proof (BBLOCK_0 s Hok) as H0. unfold frees in E.
  replace (start (lg s)) with (Z.of_nat (Z.to_nat (start (lg s)))) in E by lia.
  apply filter_seqZ_head in E as (H1 & H2 & H3).
  assert (Hb : data0 s ≤ b0).
  { destruct (Z.le_gt_cases (data0 s) b0); [done|]. rewrite (fo_meta _ Hok) in H2; [done|lia]. }
  assert (Hu : used s b0 = false) by done.
  split; [lia|]. split; [done|]. split; try done.
  - lia.
  - intros b ?. specialize (H3 b ltac:(lia)). by apply not_false_is_true.
  - apply data_home; [done|lia].
  - intros b ?. apply meta_home; [done|]. pose proof (BBLOCK_data s b ltac:(lia)). lia.
  - pose proof (BBLOCK_data s b0 ltac:(lia)). lia.
Qed.

(** Block [b0] has been taken and zeroed, and data block [w] perhaps rewritten. *)
Record took (s s' : fsstate) (b0 w : Z) : Prop := Took {
  tk_log : same_log (lg s) (lg s');
  tk_zero : fview s' b0 = zero_block;
  tk_use : ∀ b, 0 ≤ b < start (lg s) → used s' b = used s b || bool_decide (b = b0);
  tk_meta : ∀ b, b < BBLOCK 0 (nin s) → fview s' b = fview s b;
  tk_data : ∀ b, data0 s ≤ b → b ≠ b0 → b ≠ w → fview s' b = fview s b
}.

Lemma sblock_meta s s' : fs_ok s → (∀ b, b < BBLOCK 0 (nin s) → fview s' b = fview s b) →
  sblock s' = sblock s.
Proof. intros Hok Hm. unfold sblock. rewrite Hm; [done|]. pose proof (BBLOCK_0 s Hok). lia. Qed.

Lemma took_sblock s s' b0 w : fs_ok s → took s s' b0 w → sblock s' = sblock s.
Proof. intros Hok H. apply sblock_meta; [done|apply H]. Qed.

(** A state with the layout of [s] in which nothing was freed. *)
Lemma fs_ok_mono s s' : fs_ok s → sblock s' = sblock s → start (lg s') = start (lg s) →
  (∀ b, 0 ≤ b < start (lg s) → used s b = true → used s' b = true) → fs_ok s'.
Proof.
  intros [H1 H2 H3 H4] Es El Hu. unfold data0, nin in *. split; rewrite ?Es, ?El; unfold data0, nin;
    rewrite ?Es; try done. intros b Hb. apply Hu; [lia|]. by apply H4.
Qed.

Lemma took_fs_ok s s' b0 w : fs_ok s → took s s' b0 w → fs_ok s'.
Proof.
  intros Hok H. apply (fs_ok_mono s); [done|by eapply took_sblock|apply H|].
  intros b Hb Hu. by rewrite (tk_use _ _ _ _ H), Hu.
Qed.

Lemma took_frees s s' b0 w rest : fs_ok s → frees s = b0 :: rest → took s s' b0 w → frees s' = rest.
Proof.
  intros Hok E H. unfold frees. rewrite (sl_start _ _ (tk_log _ _ _ _ H)).
  eapply (filter_ne_head (λ b, used s b = false)); [apply NoDup_seqZ|exact E|].
  intros b Hb%elem_of_seqZ. rewrite (tk_use _ _ _ _ H) by lia. rewrite orb_false_iff.
  by rewrite bool_decide_eq_false.
Qed.

(** balloc takes the first of the free blocks. *)
Lemma balloc_fs B r s k b0 rest : in_txn B r (lg s) → fs_ok s → frees s = b0 :: rest →
  Z.of_nat (length B) + 2 ≤ r → held k = [] →
  (∀ sec, sec = b0 ∨ sec < data0 s → unheld B (lg s) sec) →
  ∃ k' ls, balloc ROOTDEV k s = Done b0 k' (set_lg ls s) ∧ held k' = [] ∧
    in_txn B (r - 2) ls ∧ kept B (lg s) ls ∧ took s (set_lg ls s) b0 0.
Proof.
  intros Hin Hok E Hr Hk Hu. destruct (frees_first s b0 rest Hok E) as (Hb & Hf & Hff).
  pose proof (BBLOCK_0 s Hok) as H0. pose proof (fo_size _ Hok) as Hs.
  assert (Hco : clear_of B (lg s) (nin s) b0).
  { split; [apply Hu; right; lia|apply Hu; by left|]. intros b ?. apply Hu. right.
    pose proof (BBLOCK_data s b ltac:(lia)). lia. }
  destruct (balloc_spec B r s k b0 Hin Hr Hk Hff Hco) as (k' & ls & E1 & Hk' & Hin' & K' & S' & V).
  exists k', ls. split_and!; try done.
  assert (Hm : ∀ b, b < BBLOCK 0 (nin s) → fview (set_lg ls s) b = fview s b).
  { intros b ?. unfold fview at 1. simpl. rewrite V. unfold allocated.
    pose proof (BBLOCK_data s b0 ltac:(lia)). change (sb_ninodes (sblock s)) with (nin s).
    by rewrite !decide_False by lia. }
  split; try done.
  - unfold fview. simpl. rewrite V. unfold allocated. by rewrite decide_True.
  - intros b ?. unfold used. unfold nin at 1. rewrite (sblock_meta s) by done.
    apply allocated_in_use; [intros; by eapply fview_length|exact V|].
    pose proof (BBLOCK_data s b ltac:(lia)). unfold nin in *. lia.
  - intros b ? ? _. unfold fview at 1. simpl. rewrite V. unfold allocated.
    pose proof (BBLOCK_data s b0 ltac:(lia)). change (sb_ninodes (sblock s)) with (nin s).
    by rewrite !decide_False by lia.
Qed.

(** The rest of the file system sees a state through its view and its log area. *)
Lemma same_view_fs s s' : (∀ b, fview s' b = fview s b) → start (lg s') = start (lg s) →
  sblock s' = sblock s ∧ nin s' = nin s ∧ data0 s' = data0 s ∧ (∀ b, used s' b = used s b) ∧
  frees s' = frees s ∧ (fs_ok s → fs_ok s').
Proof.
  intros V El. assert (Es : sblock s' = sblock s) by (unfold sblock; by rewrite V).
  assert (En : nin s' = nin s) by (unfold nin; by rewrite Es).
  assert (Ed : data0 s' = data0 s) by (unfold data0; by rewrite Es, En).
  assert (Eu : ∀ b, used s' b = used s b) by (intros b; unfold used, in_use; by rewrite En, V).
  split_and!; try done.
  - unfold frees. rewrite El. apply list_filter_iff. intros b. by rewrite Eu.
  - intros Hok. apply (fs_ok_mono s); try done. intros b _. by rewrite Eu.
Qed.

(** A data block rewritten: the bitmap and the layout are not affected. *)
Lemma data_write_fs s s' a d : fs_ok s → data0 s ≤ a →
  (∀ b, fview s' b = if decide (a = b) then d else fview s b) → start (lg s') = start (lg s) →
  sblock s' = sblock s ∧ nin s' = nin s ∧ data0 s' = data0 s ∧
  (∀ b, 0 ≤ b < start (lg s) → used s' b = used s b) ∧ frees s' = frees s ∧ fs_ok s'.
Proof.
  intros Hok Ha V El. pose proof (BBLOCK_0 s Hok) as HB. pose proof (fo_size _ Hok) as Hsz.
  assert (Es : sblock s' = sblock s) by (unfold sblock; by rewrite V, decide_False by lia).
  assert (En : nin s' = nin s) by (unfold nin; by rewrite Es).
  assert (Ed : data0 s' = data0 s) by (unfold data0; by rewrite Es, En).
  assert (Eu : ∀ b, 0 ≤ b < start (lg s) → used s' b = used s b).
  { intros b Hb. unfold used, in_use. rewrite En, V. pose proof (BBLOCK_data s b ltac:(lia)).
    by rewrite decide_False by lia. }
  split_and!; try done.
  - unfold frees. rewrite El. apply list_filter_iff'. intros b Hb%elem_of_seqZ. rewrite Eu; [done|lia].
  - apply (fs_ok_mono s); try done. intros b Hb. by rewrite Eu.
Qed.
