(* ===== verification/FsInode.v ===== *)
(** * The inode cache and the inodes on the disk

    iget keeps one cache entry per inode in use; ilock loads an inode from its
    place on the disk, and iupdate writes it back there. *)

From stdpp Require Import base gmap list strings.
From Stdlib Require Import ZArith Lia Permutation.
From S2P Require Import Prelude Params Kmonad Bio BioSpec BioInit Log LogSpec LogCrash LogOps.
From S2P Require Import Fs FsTxn FsAlloc.

Implicit Types (s : fsstate) (k : kctx) (i j : nat).

(** ** The cache *)

(** At most one entry refers to an inode; a free entry has reference count zero. *)
Record icache_ok (s : fsstate) : Prop := IcacheOk {
  ic_len : length (icache s) = NINODE;
  ic_ref : ∀ i, 0 ≤ i_ref (thei i s);
  ic_uniq : ∀ i j, 0 < i_ref (thei i s) → 0 < i_ref (thei j s) →
    i_dev (thei i s) = i_dev (thei j s) → i_inum (thei i s) = i_inum (thei j s) → i = j
}.

(** Entry [i] is in use for inode [inum] of device [dv]. *)
Definition refers (dv inum : Z) (x : inode) : bool :=
  (i_ref x >? 0) && (i_dev x =? dv) && (i_inum x =? inum).

Lemma refers_true dv inum x : refers dv inum x = true ↔
  0 < i_ref x ∧ i_dev x = dv ∧ i_inum x = inum.
Proof.
  unfold refers. rewrite !andb_true_iff, Z.gtb_lt, !Z.eqb_eq. tauto.
Qed.

(** The scan finds an entry in use, or reports the first free one. *)
Lemma iget_scan_spec dv inum : ∀ l ip empty,
  match iget_scan l ip dv inum empty with
  | inl p => ∃ i x, p = (ip + i)%nat ∧ l !! i = Some x ∧ refers dv inum x = true
  | inr e => (∀ i x, l !! i = Some x → refers dv inum x = false) ∧
    match e with
    | None => empty = None ∧ ∀ i x, l !! i = Some x → i_ref x ≠ 0
    | Some p => empty = Some p ∨
        empty = None ∧ ∃ i x, p = (ip + i)%nat ∧ l !! i = Some x ∧ i_ref x = 0
    end
  end.
Proof.
  induction l as [|x l IH]; intros ip empty; simpl.
  { split; [done|]. destruct empty; by auto. }
  fold (refers dv inum x). destruct (refers dv inum x) eqn:Hx.
  { exists 0%nat, x. split_and!; [lia|done|done]. }
  set (e' := match empty with None => if i_ref x =? 0 then Some ip else None | Some _ => empty end).
  specialize (IH (S ip) e'). destruct (iget_scan l (S ip) dv inum e') as [p|e].
  - destruct IH as (i & y & -> & Hi & Hy). exists (S i), y. split_and!; [lia|done|done].
  - destruct IH as [Hno He]. split.
    { intros [|i] y; simpl; [by intros [= <-]|apply Hno]. }
    destruct e as [p|].
    + destruct He as [He|(He & i & y & -> & Hi & Hy)]; unfold e' in He.
      * destruct empty as [q|]; [by left|]. destruct (Z.eqb_spec (i_ref x) 0); [|done].
        injection He as <-. right. split; [done|]. exists 0%nat, x. split_and!; [lia|done|done].
      * destruct empty as [q|]; [done|]. right. split; [done|]. exists (S i), y.
        split_and!; [lia|done|done].
    + destruct He as [He Hall]. unfold e' in He. destruct empty as [q|]; [done|].
      destruct (Z.eqb_spec (i_ref x) 0); [done|]. split; [done|].
      intros [|i] y; simpl; [by intros [= <-]|apply Hall].
Qed.

Lemma thei_lookup s i x : icache s !! i = Some x → thei i s = x.
Proof. apply nthz_Some. Qed.

Lemma thei_updi i f s j : (i < length (icache s))%nat →
  thei j (updi i f s) = if decide (i = j) then f (thei i s) else thei j s.
Proof.
  intros Hi. unfold thei, updi, set_icache. simpl. case_decide as E.
  - subst j. by apply nthz_insert_eq.
  - by apply nthz_insert_ne.
Qed.

Lemma length_updi i f s : length (icache (updi i f s)) = length (icache s).
Proof. apply length_insert. Qed.

(** What iget leaves: one more reference to inode [inum], in entry [i]. *)
Record got (dv inum : Z) (i : nat) (s s' : fsstate) : Prop := Got {
  got_ok : icache_ok s';
  got_id : i_dev (thei i s') = dv ∧ i_inum (thei i s') = inum;
  got_ref : i_ref (thei i s') = (if refers dv inum (thei i s) then i_ref (thei i s) else 0) + 1;
  got_new : refers dv inum (thei i s) = false → i_ref (thei i s) = 0 ∧ i_flags (thei i s') = 0;
  got_other : ∀ j, j ≠ i → thei j s' = thei j s;
  got_lg : lg s' = lg s;
  got_con : console s' = console s
}.

Lemma got_bump dv inum i s : icache_ok s → (i < NINODE)%nat → refers dv inum (thei i s) = true →
  got dv inum i s (updi i (iset_ref (i_ref (thei i s) + 1)) s).
Proof.
  intros [H1 H2 H3] Hi Hr. pose proof Hr as (R1 & R2 & R3)%refers_true.
  assert (T : ∀ j, thei j (updi i (iset_ref (i_ref (thei i s) + 1)) s) =
    if decide (i = j) then iset_ref (i_ref (thei i s) + 1) (thei i s) else thei j s).
  { intros j. apply thei_updi. lia. }
  split.
  - split; [by rewrite length_updi|..].
    + intros j. rewrite T. case_decide; simpl; [lia|apply H2].
    + intros j1 j2. rewrite !T. repeat case_decide; subst; simpl; intros; auto.
  - rewrite T, decide_True by done. done.
  - rewrite T, decide_True, Hr by done. done.
  - rewrite Hr. done.
  - intros j Hj. by rewrite T, decide_False.
  - done.
  - done.
Qed.

Lemma got_recycle dv inum i s : icache_ok s → (i < NINODE)%nat → i_ref (thei i s) = 0 →
  (∀ j, refers dv inum (thei j s) = false) → got dv inum i s (updi i (iset_id dv inum) s).
Proof.
  intros [H1 H2 H3] Hi Hz Hno.
  assert (T : ∀ j, thei j (updi i (iset_id dv inum) s) =
    if decide (i = j) then iset_id dv inum (thei i s) else thei j s).
  { intros j. apply thei_updi. lia. }
  assert (Hn : ∀ j, 0 < i_ref (thei j s) → i_dev (thei j s) = dv → i_inum (thei j s) = inum → False).
  { intros j A1 A2 A3. specialize (Hno j). assert (refers dv inum (thei j s) = true); [|congruence].
    by apply refers_true. }
  split.
  - split; [by rewrite length_updi|..].
    + intros j. rewrite T. case_decide; simpl; [lia|apply H2].
    + intros j1 j2. rewrite !T. repeat case_decide; subst; simpl; intros A1 A2 A3 A4; auto.
      * exfalso. by apply (Hn j2).
      * exfalso. by apply (Hn j1).
  - rewrite T, decide_True by done. done.
  - rewrite T, decide_True, Hno by done. done.
  - intros _. rewrite T, decide_True by done. done.
  - intros j Hj. by rewrite T, decide_False.
  - done.
  - done.
Qed.

Lemma iget_spec (dv inum : Z) (k : kctx) (s : fsstate) : icache_ok s → LIcache ∉ held k →
  (∃ i s', iget dv inum k s = Done i k s' ∧ (i < NINODE)%nat ∧ got dv inum i s s') ∨
  (iget dv inum k s = Panicked "iget: no inodes" ∧
   ∀ i, (i < NINODE)%nat → 0 < i_ref (thei i s) ∧ refers dv inum (thei i s) = false).
Proof.
  intros Hok Hk. destruct k as [h w]. simpl in Hk. unfold iget. mgo.
  pose proof (iget_scan_spec dv inum (icache s) 0 None) as Hs. pose proof (ic_len _ Hok) as Hlen.
  assert (Hlook : ∀ i, (i < NINODE)%nat → icache s !! i = Some (thei i s)).
  { intros i Hi. apply nthz_lookup. lia. }
  destruct (iget_scan (icache s) 0 dv inum None) as [p|[p|]].
  - left. destruct Hs as (i & x & -> & Hi & Hx). pose proof (lookup_lt_Some _ _ _ Hi).
    apply thei_lookup in Hi. subst x. mgo. eexists _, _. split_and!; [reflexivity|simpl; lia|].
    apply got_bump; try done. simpl. lia.
  - left. destruct Hs as [Hno [?|(_ & i & x & -> & Hi & Hx)]]; [done|].
    pose proof (lookup_lt_Some _ _ _ Hi). apply thei_lookup in Hi. subst x. mgo.
    eexists _, _. split_and!; [reflexivity|simpl; lia|]. apply got_recycle; try done; [simpl; lia|].
    intros j. destruct (decide (j < NINODE)%nat) as [Hj|Hj]; [eapply Hno, Hlook, Hj|].
    unfold thei, nthz. rewrite lookup_ge_None_2 by lia. done.
  - right. split; [done|]. destruct Hs as [Hno [_ Hall]]. intros i Hi. split.
    + pose proof (ic_ref _ Hok i). pose proof (Hall i _ (Hlook i Hi)). lia.
    + by eapply Hno, Hlook.
Qed.

(** Iget returns a cache entry for the inode: the one already in use for it,
    with one more reference, or else a free entry relabelled with reference count
    one.  There is never a second entry for the same inode, no other entry changes,
    and iget panics exactly when the inode is not cached and no entry is free. *)
Theorem iget_unique (dv inum : Z) (k : kctx) (s : fsstate) : icache_ok s → LIcache ∉ held k →
  (∃ i s', iget dv inum k s = Done i k s' ∧ (i < NINODE)%nat ∧ got dv inum i s s') ∨
  (iget dv inum k s = Panicked "iget: no inodes" ∧
   ∀ i, (i < NINODE)%nat → 0 < i_ref (thei i s) ∧ refers dv inum (thei i s) = false).
Proof. apply iget_spec. Qed.

Lemma iget_unique_witness :
  (∃ i s', iget ROOTDEV 5 (Kctx [] []) demo_fs = Done i (Kctx [] []) s' ∧ (i < NINODE)%nat ∧
     got ROOTDEV 5 i demo_fs s') ∨
  (iget ROOTDEV 5 (Kctx [] []) demo_fs = Panicked "iget: no inodes" ∧
   ∀ i, (i < NINODE)%nat → 0 < i_ref (thei i demo_fs) ∧ refers ROOTDEV 5 (thei i demo_fs) = false).
Proof.
  apply (iget_unique ROOTDEV 5 (Kctx [] []) demo_fs).
  - assert (H0 : ∀ i, i_ref (thei i demo_fs) = 0).
    { intros i. unfold thei, demo_fs, demo_fs_of, icache, nthz.
      destruct (replicate NINODE inode0 !! i) as [x|] eqn:E; [|reflexivity].
      apply lookup_replicate in E as [-> _]. reflexivity. }
    split; [reflexivity|intros i; rewrite H0; lia|intros i j; rewrite H0; lia].
  - simpl. set_solver.
Defined.

(** ** Inodes on the disk *)

(** Inode [inum] as it lies on the disk. *)
Definition disk_inode (s : fsstate) (inum : Z) : dinode :=
  get_dinode (fview s (IBLOCK inum)) (dinode_off inum).

Lemma same_inode a b : 0 ≤ a → 0 ≤ b → IBLOCK a = IBLOCK b → a mod IPB = b mod IPB → a = b.
Proof.
  unfold IBLOCK. intros Ha Hb E1 E2. pose proof (Z.div_mod a IPB ltac:(done)).
  pose proof (Z.div_mod b IPB ltac:(done)). lia.
Qed.

Lemma length_put_dinode d o x : length (put_dinode d o x) = length d.
Proof.
  unfold put_dinode, put_addrs. etransitivity; [apply (put_addrs_gen (d_addrs x) 13 0)|].
  by rewrite length_put32, !length_put16.
Qed.

(** The run of iupdate. *)
Lemma iupdate_run (r : Z) (s : fsstate) (k : kctx) (ip : nat) : let x := thei ip s in
  in_txn [] r (lg s) → 1 ≤ r → held k = [] → i_dev x = ROOTDEV → home (lg s) (IBLOCK (i_inum x)) →
  ∃ k' ls, iupdate ip k s = Done tt k' (set_lg ls s) ∧ held k' = [] ∧ in_txn [] (r - 1) ls ∧
    same_log (lg s) ls ∧ ∀ b, fview (set_lg ls s) b =
      if decide (IBLOCK (i_inum x) = b)
      then put_dinode (fview s b) (dinode_off (i_inum x)) (dinode_of x) else fview s b.
Proof.
  intros x Hin Hr Hk Hdev Hhome.
  set (f := λ d : block, put_dinode d (dinode_off (i_inum x)) (dinode_of x)).
  pose proof (fview_length r s (IBLOCK (i_inum x)) Hin) as Hlen.
  destruct (update_block [] r s k (IBLOCK (i_inum x)) f Hin Hr) as
    (bp & ls1 & ls2 & k' & ls3 & E1 & _ & E2 & E3 & Hk' & Hin3 & _ & S3 & V3);
    try done; [simpl; lia|auto with xv6|unfold f; by rewrite length_put_dinode|].
  assert (Hu : u32 (IBLOCK (i_inum x)) = IBLOCK (i_inum x)).
  { apply u32_small. pose proof (home_disk _ _ _ (it_log _ _ _ Hin) Hhome).
    pose proof (g_disk _ (lo_geom _ _ (it_log _ _ _ Hin))). lia. }
  exists k', ls3. split_and!; try done.
  - unfold iupdate. mb (gets_eq (thei ip) k s). fold x. rewrite Hdev, Hu. mb E1.
    rewrite (bind_assoc_Done _ _ _ _ _ _ _ _ (E2 f eq_refl)). exact E3.
  - intros b. unfold fview at 1. simpl. rewrite V3. case_decide as E; [by subst b|done].
Qed.

(** The inodes after a disk inode is rewritten in its block. *)
Lemma iupdate_disk s s' inum d : length (fview s (IBLOCK inum)) = Z.to_nat BSIZE → 0 ≤ inum →
  dinode_ok d → (∀ b, fview s' b = if decide (IBLOCK inum = b)
      then put_dinode (fview s b) (dinode_off inum) d else fview s b) →
  disk_inode s' inum = d ∧ ∀ i : Z, 0 ≤ i → i ≠ inum → disk_inode s' i = disk_inode s i.
Proof.
  intros Hlen Hi Hd V. destruct (dinode_roundtrip_blocks _ inum d Hlen Hd) as [R1 R2].
  unfold disk_inode. split; [by rewrite V, decide_True by done|].
  intros i H0 Hne. rewrite V. case_decide as EB; [|done]. rewrite <- EB. apply R2.
  intros Em. apply Hne. by apply same_inode.
Qed.

(** Iupdate, inside a transaction, makes the disk inode equal to the cached
    one; every other inode and every other block of the disk is unchanged, and one
    block at most is recorded in the log. *)
Theorem iupdate_writes (r : Z) (s : fsstate) (k : kctx) (ip : nat) : let x := thei ip s in
  in_txn [] r (lg s) → 1 ≤ r → held k = [] → i_dev x = ROOTDEV → 0 ≤ i_inum x →
  home (lg s) (IBLOCK (i_inum x)) → dinode_ok (dinode_of x) →
  ∃ k' s', iupdate ip k s = Done tt k' s' ∧ held k' = [] ∧ in_txn [] (r - 1) (lg s') ∧
    icache s' = icache s ∧ disk_inode s' (i_inum x) = dinode_of x ∧
    (∀ inum, 0 ≤ inum → inum ≠ i_inum x → disk_inode s' inum = disk_inode s inum) ∧
    (∀ b, b ≠ IBLOCK (i_inum x) → fview s' b = fview s b).
Proof.
  intros x Hin Hr Hk Hdev Hinum Hhome Hd.
  destruct (iupdate_run r s k ip) as (k' & ls & E & Hk' & Hin' & _ & V); try done.
  destruct (iupdate_disk s (set_lg ls s) (i_inum x) (dinode_of x)) as [D1 D2]; try done;
    [by eapply fview_length|].
  exists k', (set_lg ls s). split_and!; try done. intros b Hb. rewrite V. by rewrite decide_False.
Qed.

Lemma inlg_frame {A} (m : M logstate A) k s s' a k' l :
  inlg m k s = Done a k' (set_lg l s) → lg s' = lg s → inlg m k s' = Done a k' (set_lg l s').
Proof.
  unfold inlg, zoom. intros E ->. destruct (m k (lg s)); try done. unfold set_lg in *. congruence.
Qed.

Lemma updi_updi i f g s : (i < length (icache s))%nat → updi i f (updi i g s) = updi i (f ∘ g) s.
Proof.
  intros Hi. unfold updi at 1. rewrite thei_updi, decide_True by done.
  unfold updi, set_icache. simpl. by rewrite list_insert_insert_eq.
Qed.

Lemma has_lor_self a n : 0 ≤ n → has (Z.lor a (2 ^ n)) (2 ^ n) = true.
Proof. intros. rewrite has_pow2 by done. rewrite Z.lor_spec, Z.pow2_bits_true by done. apply orb_true_r. Qed.

Lemma has_lor_other a n m : 0 ≤ n → 0 ≤ m → n ≠ m → has (Z.lor a (2 ^ n)) (2 ^ m) = has a (2 ^ m).
Proof.
  intros. rewrite !has_pow2 by done. rewrite Z.lor_spec, Z.pow2_bits_false by done. apply orb_false_r.
Qed.

(** The entry after ilock has read the disk. *)
Definition locked (d : dinode) (x : inode) : inode :=
  iset_flags (Z.lor (Z.lor (i_flags x) I_BUSY) I_VALID) (load_dinode d x).

(** The run of ilock on an entry that is not valid. *)
Lemma ilock_run r s k ip : let x := thei ip s in let D := disk_inode s (i_inum x) in
  in_txn [] r (lg s) → 0 ≤ r → held k = [] → (ip < length (icache s))%nat → 1 ≤ i_ref x →
  has (i_flags x) I_BUSY = false → has (i_flags x) I_VALID = false →
  i_dev x = ROOTDEV → home (lg s) (IBLOCK (i_inum x)) →
  ∃ k' ls, ilock (Some ip) k s = (if d_type D =? 0 then panic "ilock: no type" else mret tt)
      k' (updi ip (locked D) (set_lg ls s)) ∧
    held k' = [] ∧ in_txn [] r ls ∧ (∀ b, lview ls b = fview s b).
Proof.
  intros x D Hin Hr Hk Hip Href Hbusy Hval Hdev Hhome.
  set (f1 := iset_flags (Z.lor (i_flags x) I_BUSY)).
  set (s1 := updi ip f1 s).
  assert (T1 : thei ip s1 = f1 x) by (unfold s1; by rewrite thei_updi, decide_True).
  pose proof (home_disk _ _ _ (it_log _ _ _ Hin) Hhome) as Hdk.
  pose proof (g_disk _ (lo_geom _ _ (it_log _ _ _ Hin))) as Hmax.
  destruct (read_block [] r s1 k (IBLOCK (i_inum x))) as
    (bp & ls1 & k' & ls2 & E1 & Hd1 & E2 & Hk' & Hin2 & S2 & _ & V2); try done; [auto with xv6|].
  set (s2 := updi ip (load_dinode D) (set_lg ls1 s1)).
  pose proof (inlg_frame _ _ _ s2 _ _ _ E2 eq_refl) as E3.
  set (s4 := updi ip (λ x, iset_flags (Z.lor (i_flags x) I_VALID) x) (set_lg ls2 s2)).
  assert (E4 : s4 = updi ip (locked D) (set_lg ls2 s)).
  { assert (Hs2 : set_lg ls2 s2 = updi ip (load_dinode D ∘ f1) (set_lg ls2 s)).
    { transitivity (updi ip (load_dinode D) (updi ip f1 (set_lg ls2 s))); [done|by apply updi_updi]. }
    unfold s4. rewrite Hs2, updi_updi by done. done. }
  exists k', ls2. split_and!; try done. rewrite <- E4.
  assert (T4 : ∀ j, thei j s4 = if decide (ip = j) then locked D x else thei j s).
  { intros j. rewrite E4. by rewrite (thei_updi ip _ (set_lg ls2 s)). }
  destruct k as [h w]. simpl in Hk. subst h. unfold ilock. mb (gets_eq (thei ip) (Kctx [] w) s). fold x.
  destruct (Z.ltb_spec (i_ref x) 1); [lia|].
  mb (acquire_eq LIcache (Kctx [] w) s ltac:(simpl; set_solver)).
  mb (gets_eq (thei ip) (Kctx [LIcache] w) s). fold x. rewrite Hbusy.
  mb (ret_eq tt (Kctx [LIcache] w) s). fold f1.
  mb (modify_eq (updi ip f1) (Kctx [LIcache] w) s). mb (release_top LIcache [] w s1).
  mb (gets_eq (thei ip) (Kctx [] w) s1). rewrite T1. cbn [i_flags i_dev i_inum f1 iset_flags].
  change I_BUSY with (2 ^ 0). change I_VALID with (2 ^ 1) in *. rewrite has_lor_other by done.
  rewrite Hval. cbn [negb]. rewrite Hdev, u32_small by lia. mb E1.
  mb (gets_eq (bdata bp) (Kctx [] w) (set_lg ls1 s1)). rewrite Hd1.
  change (get_dinode (fview s1 (IBLOCK (i_inum x))) (dinode_off (i_inum x))) with D.
  mb (modify_eq (updi ip (load_dinode D)) (Kctx [] w) (set_lg ls1 s1)). fold s2. mb E3.
  mb (modify_eq (λ s, updi ip (iset_flags (Z.lor (i_flags (thei ip s)) (2 ^ 1))) s) k' (set_lg ls2 s2)).
  change (updi ip (iset_flags (Z.lor (i_flags (thei ip (set_lg ls2 s2))) (2 ^ 1))) (set_lg ls2 s2)) with s4.
  mb (gets_eq (thei ip) k' s4). by rewrite T4, decide_True.
Qed.

(** Ilock of a referenced, unlocked inode marks it busy and, if it is not yet
    valid, loads its fields from the disk inode; it panics if that inode is free. *)
Theorem ilock_loads (r : Z) (s : fsstate) (k : kctx) (ip : nat) : let x := thei ip s in
  in_txn [] r (lg s) → 0 ≤ r → held k = [] → (ip < length (icache s))%nat → 1 ≤ i_ref x →
  has (i_flags x) I_BUSY = false → has (i_flags x) I_VALID = false →
  i_dev x = ROOTDEV → home (lg s) (IBLOCK (i_inum x)) →
  if d_type (disk_inode s (i_inum x)) =? 0 then ilock (Some ip) k s = Panicked "ilock: no type"
  else ∃ k' s', ilock (Some ip) k s = Done tt k' s' ∧ held k' = [] ∧ in_txn [] r (lg s') ∧
    dinode_of (thei ip s') = disk_inode s (i_inum x) ∧
    has (i_flags (thei ip s')) I_BUSY = true ∧ has (i_flags (thei ip s')) I_VALID = true ∧
    (∀ j, j ≠ ip → thei j s' = thei j s) ∧ (∀ b, fview s' b = fview s b).
Proof.
  intros x Hin Hr Hk Hip Href Hbusy Hval Hdev Hhome.
  destruct (ilock_run r s k ip Hin Hr Hk Hip Href Hbusy Hval Hdev Hhome)
    as (k' & ls & E & Hk' & Hin' & V). fold x in E. rewrite E.
  set (D := disk_inode s (i_inum x)). destruct (d_type D =? 0); [done|].
  assert (T : ∀ j, thei j (updi ip (locked D) (set_lg ls s)) =
    if decide (ip = j) then locked D x else thei j s).
  { intros j. by rewrite (thei_updi ip _ (set_lg ls s)). }
  exists k', (updi ip (locked D) (set_lg ls s)).
  rewrite !T, decide_True by done. split_and!; try done.
  - unfold locked. cbn [i_flags iset_flags]. rewrite (has_lor_other _ 1 0) by done.
    by apply (has_lor_self _ 0).
  - by apply (has_lor_self _ 1).
  - intros j Hj. by rewrite T, decide_False.
Qed.

(** A cached, unloaded reference to inode 9, which is on the disk. *)
Definition demo_inode_fs : fsstate :=
  updi 0 (λ _, Inode ROOTDEV 9 1 0 0 0 0 0 0 (replicate 13 0)) demo_fs.

Lemma ilock_loads_witness :
  ilock (Some 0%nat) (Kctx [] []) demo_inode_fs = Panicked "ilock: no type".
Proof.
  pose proof (ilock_loads 10 demo_inode_fs (Kctx [] []) 0 (proj1 demo_fs_ok)) as H.
  change (thei 0 demo_inode_fs) with (Inode ROOTDEV 9 1 0 0 0 0 0 0 (replicate 13 0)) in H.
  cbn [i_inum i_ref i_flags i_dev] in H. unfold disk_inode in H.
  change (fview demo_inode_fs) with (fview demo_fs) in H. rewrite (proj2 demo_fs_ok) in H.
  apply H.
  - lia.
  - reflexivity.
  - simpl. lia.
  - lia.
  - reflexivity.
  - reflexivity.
  - reflexivity.
  - split; vm_compute; [discriminate|reflexivity].
Defined.

(** The same entry loaded, with two blocks. *)
Definition demo_valid_fs : fsstate :=
  updi 0 (λ _, Inode ROOTDEV 9 1 3 2 0 0 1 700 (31 :: 32 :: replicate 11 0)) demo_fs.

Lemma iupdate_writes_witness :
  ∃ k' s', iupdate 0 (Kctx [] []) demo_valid_fs = Done tt k' s' ∧
    disk_inode s' 9 = Dinode 2 0 0 1 700 (31 :: 32 :: replicate 11 0).
Proof.
  destruct (iupdate_writes 10 demo_valid_fs (Kctx [] []) 0 (proj1 demo_fs_ok))
    as (k' & s' & E & _ & _ & _ & Hd & _).
  - lia.
  - reflexivity.
  - reflexivity.
  - simpl. lia.
  - split; vm_compute; [discriminate|reflexivity].
  - split; simpl; try lia.
    intros j. do 13 (destruct j as [|j]; [unfold nthz; simpl; lia|]). unfold nthz. simpl. lia.
  - exists k', s'. split; [exact E|exact Hd].
Defined.
