(* ===== verification/FsFile.v ===== *)
(** * The content of files: bmap, readi and writei

    A file is the array of its 141 block pointers, or slots: the 13 of the inode
    and the 128 of its indirect block.  Its content is the bytes of the blocks
    its slots name, with zeros where there is none.  bmap fills slots without
    changing the content, readi delivers a range of it and writei replaces one. *)

From stdpp Require Import base gmap list strings.
From Stdlib Require Import ZArith Lia Permutation.
From S2P Require Import Prelude Params Kmonad Console Bio BioSpec BioInit Log LogSpec LogCrash.
From S2P Require Import LogOps Fs FsTxn FsAlloc FsFree FsInode.

Implicit Types (s : fsstate) (k : kctx) (x : inode).

(** ** Slots *)

Definition NSLOT : nat := 141.
Definition INDIRECT : nat := 12.
Definition slot (s : fsstate) (x : inode) (j : nat) : Z :=
  if decide (j < 13)%nat then (i_addrs x).[j]
  else if (i_addrs x).[INDIRECT] =? 0 then 0
  else get32 (fview s ((i_addrs x).[INDIRECT])) (4 * (j - 13)).

Definition empty (s : fsstate) (x : inode) (j : nat) : bool := slot s x j =? 0.

(** The slot of block [bn] of the file. *)
Definition dslot (bn : Z) : nat := if bn <? NDIRECT then Z.to_nat bn else S (Z.to_nat bn).

(** Byte [i] of the file. *)
Definition fbyte (s : fsstate) (x : inode) (i : Z) : Z :=
  let a := slot s x (dslot (i / BSIZE)) in
  if a =? 0 then 0 else (fview s a).[Z.to_nat (i mod BSIZE)].

(** The bytes of the file from [off], [n] of them. *)
Definition fbytes (s : fsstate) (x : inode) (off n : Z) : list Z := fbyte s x <$> seqZ off n.

(** A file: its slots name distinct data blocks that are in use, and every block
    below its size has one. *)
Record file_ok (s : fsstate) (x : inode) : Prop := FileOk {
  fk_dev : i_dev x = ROOTDEV;
  fk_inum : 0 ≤ i_inum x < nin s;
  fk_dinode : dinode_ok (dinode_of x);
  fk_slot : ∀ j, (j < NSLOT)%nat → slot s x j ≠ 0 →
    data0 s ≤ slot s x j < start (lg s) ∧ used s (slot s x j) = true;
  fk_inj : ∀ i j, (i < NSLOT)%nat → (j < NSLOT)%nat → slot s x i ≠ 0 →
    slot s x i = slot s x j → i = j;
  fk_size : i_size x ≤ MAXFILE * BSIZE;
  fk_full : ∀ bn, 0 ≤ bn → bn * BSIZE < i_size x → slot s x (dslot bn) ≠ 0
}.

(** A data block of some other file. *)
Definition foreign (s : fsstate) (x : inode) (b : Z) : Prop :=
  data0 s ≤ b < start (lg s) ∧ used s b = true ∧ ∀ j, (j < NSLOT)%nat → slot s x j ≠ b.

(** A file in state [s'] is the one of [s] with perhaps more slots filled; the
    inodes, the layout and the blocks of the other files are as they were. *)
Record grown (s : fsstate) (x : inode) (s' : fsstate) (x' : inode) : Prop := Grown {
  gr_fs : fs_ok s';
  gr_file : file_ok s' x';
  gr_log : same_log (lg s) (lg s');
  gr_meta : ∀ b, b < BBLOCK 0 (nin s) → fview s' b = fview s b;
  gr_slot : ∀ j, (j < NSLOT)%nat → slot s x j ≠ 0 → slot s' x' j = slot s x j;
  gr_foreign : ∀ b, foreign s x b → foreign s' x' b ∧ fview s' b = fview s b;
  gr_inode : x' = iset_addrs (i_addrs x') x
}.

Lemma grown_sblock s x s' x' : fs_ok s → grown s x s' x' → sblock s' = sblock s.
Proof. intros Hok H. apply sblock_meta; [done|apply H]. Qed.

Lemma grown_refl s x : fs_ok s → file_ok s x → grown s x s x.
Proof. intros. split; auto with xv6. by destruct x. Qed.

Lemma grown_file_trans s1 x1 s2 x2 s3 x3 : fs_ok s1 → grown s1 x1 s2 x2 → grown s2 x2 s3 x3 →
  grown s1 x1 s3 x3.
Proof.
  intros Hok H1 H2. pose proof (grown_sblock _ _ _ _ Hok H1) as Es. split; try apply H2.
  - eapply same_log_trans; [apply H1|apply H2].
  - intros b Hb. rewrite (gr_meta _ _ _ _ H2), (gr_meta _ _ _ _ H1); [done|done|].
    unfold nin in *. by rewrite Es.
  - intros j Hj Hs. rewrite (gr_slot _ _ _ _ H2), (gr_slot _ _ _ _ H1); try done.
    by rewrite (gr_slot _ _ _ _ H1).
  - intros b Hb. destruct (gr_foreign _ _ _ _ H1 b Hb) as [F1 E1].
    destruct (gr_foreign _ _ _ _ H2 b F1) as [F2 E2]. split; [done|congruence].
  - rewrite (gr_inode _ _ _ _ H2) at 1. by rewrite (gr_inode _ _ _ _ H1).
Qed.

Lemma dslot_lt bn : 0 ≤ bn < MAXFILE → (dslot bn < NSLOT)%nat ∧ dslot bn ≠ INDIRECT.
Proof.
  unfold dslot, NSLOT, INDIRECT. change NDIRECT with 12. change MAXFILE with 140. intros H.
  zcases; lia.
Qed.

Lemma block_lt i : 0 ≤ i < MAXFILE * BSIZE → 0 ≤ i / BSIZE < MAXFILE.
Proof. intros H. split; [apply Z.div_pos; [lia|done]|apply Z.div_lt_upper_bound; [done|lia]]. Qed.

Lemma dslot_inj a b : 0 ≤ a → 0 ≤ b → dslot a = dslot b → a = b.
Proof. unfold dslot. change NDIRECT with 12. intros ? ?. zcases; lia. Qed.

(** The slots of the indirect block cannot be filled while there is none. *)
Lemma slot_entry s x j : (13 ≤ j)%nat → slot s x j ≠ 0 → slot s x INDIRECT ≠ 0.
Proof.
  unfold slot at 1. intros Hj. rewrite decide_False by lia.
  change (slot s x INDIRECT) with ((i_addrs x).[INDIRECT]). by zcases.
Qed.

(** ** Filling one slot *)

(** A free block is in no slot. *)
Lemma slot_used s x b j : fs_ok s → file_ok s x → data0 s ≤ b → used s b = false →
  (j < NSLOT)%nat → slot s x j ≠ b.
Proof.
  intros Hok Hx Hb Hf Hj E. pose proof (BBLOCK_0 s Hok). destruct (fk_slot _ _ Hx j Hj) as [_ Hu]; [lia|].
  rewrite E in Hu. congruence.
Qed.

Section fill.
Context (s : fsstate) (x : inode) (s' : fsstate) (x' : inode) (b0 : Z) (j0 : nat).
Hypotheses (Hok : fs_ok s) (Hx : file_ok s x) (Hj0 : (j0 < NSLOT)%nat) (H0 : slot s x j0 = 0).
Hypotheses (Hb : data0 s ≤ b0 < start (lg s)) (Hfree : used s b0 = false).
Hypothesis (Ht : took s s' b0 (slot s x INDIRECT)).
Hypothesis (Hs : ∀ j, (j < NSLOT)%nat → slot s' x' j = if decide (j = j0) then b0 else slot s x j).
Hypotheses (Ha : x' = iset_addrs (i_addrs x') x) (Hd : dinode_ok (dinode_of x')).

Local Lemma fill_new j : (j < NSLOT)%nat → slot s x j ≠ b0.
Proof. apply slot_used; done || apply Hb. Qed.

Lemma fill_data j : (j < NSLOT)%nat → j ≠ INDIRECT → slot s x j ≠ 0 →
  fview s' (slot s x j) = fview s (slot s x j).
Proof.
  intros Hj Hn Hz. apply (tk_data _ _ _ _ Ht); [by apply fk_slot|by apply fill_new|].
  intros E. apply Hn. apply (fk_inj _ _ Hx); try done. unfold INDIRECT, NSLOT. lia.
Qed.

Lemma fill_grown : grown s x s' x'.
Proof.
  pose proof (took_sblock _ _ _ _ Hok Ht) as Es. pose proof (BBLOCK_0 s Hok) as HB.
  assert (Es' : nin s' = nin s ∧ data0 s' = data0 s ∧ start (lg s') = start (lg s)).
  { unfold data0, nin. rewrite Es. split_and!; try done. apply Ht. }
  destruct Es' as (En & Ed & El).
  assert (U : ∀ b, 0 ≤ b < start (lg s) → used s b = true → used s' b = true).
  { intros b ? E. by rewrite (tk_use _ _ _ _ Ht), E. }
  split; try apply Ht; try done; [by eapply took_fs_ok| | |].
  - pose proof Hx as [F1 F2 F3 F4 F5 F6 F7]. split; rewrite ?Ed, ?El, ?En; try done.
    + by rewrite Ha.
    + by rewrite Ha.
    + intros j Hj. rewrite Hs by done. case_decide; intros Hz.
      * split; [done|]. rewrite (tk_use _ _ _ _ Ht) by lia. rewrite bool_decide_eq_true_2 by done.
        apply orb_true_r.
      * destruct (F4 j Hj Hz). split; [done|]. apply U; [lia|done].
    + intros i j Hi Hj. rewrite !Hs by done. pose proof (fill_new i Hi). pose proof (fill_new j Hj).
      repeat case_decide; try congruence. by apply F5.
    + rewrite Ha. done.
    + intros bn H1 H2. rewrite Ha in H2. rewrite Hs.
      * case_decide; [lia|by apply F7].
      * apply dslot_lt. split; [done|]. change MAXFILE with 140 in *. change BSIZE with 512 in *.
        simpl in H2. lia.
  - intros j Hj Hz. rewrite Hs by done. rewrite decide_False; [done|]. by intros ->.
  - intros b (G1 & G2 & G3). assert (b ≠ b0) by (by intros ->; congruence). split.
    + split; [by rewrite Ed, El|]. split; [apply U; [lia|done]|]. intros j Hj. rewrite Hs by done.
      case_decide; [done|by apply G3].
    + apply (tk_data _ _ _ _ Ht); [lia|done|]. intros E. by apply (G3 INDIRECT); [unfold INDIRECT, NSLOT; lia|].
Qed.

Lemma fill_fbyte i : 0 ≤ i < MAXFILE * BSIZE → fbyte s' x' i = fbyte s x i.
Proof.
  intros Hi. pose proof (block_lt i ltac:(lia)) as Hbn.
  destruct (dslot_lt _ Hbn) as [D1 D2]. unfold fbyte. rewrite Hs by done. case_decide as E.
  - rewrite E, H0. cbn [Z.eqb]. zcases. rewrite (tk_zero _ _ _ _ Ht). apply nthz_replicate.
  - zcases. by rewrite fill_data.
Qed.
End fill.

(** Slot [j] is filled, the content is what it was. *)
Record filled (s : fsstate) (x : inode) (s' : fsstate) (x' : inode) (j : nat) : Prop := Filled {
  fl_grown : grown s x s' x';
  fl_here : slot s' x' j ≠ 0;
  fl_others : ∀ i, (i < NSLOT)%nat → i ≠ j → i ≠ INDIRECT → slot s' x' i = slot s x i;
  fl_bytes : ∀ i, 0 ≤ i < MAXFILE * BSIZE → fbyte s' x' i = fbyte s x i
}.

Lemma filled_trans s1 x1 s2 x2 s3 x3 j : fs_ok s1 → filled s1 x1 s2 x2 INDIRECT →
  filled s2 x2 s3 x3 j → filled s1 x1 s3 x3 j.
Proof.
  intros Hok [G1 _ O1 B1] [G2 H2 O2 B2]. split; [by eapply grown_file_trans|done| |].
  - intros i Hi Hj Hn. by rewrite O2, O1.
  - intros i Hi. by rewrite B2, B1.
Qed.

Lemma fill_filled s x s' x' b0 j0 rest : fs_ok s → file_ok s x → (j0 < NSLOT)%nat → slot s x j0 = 0 →
  frees s = b0 :: rest → took s s' b0 (slot s x INDIRECT) →
  (∀ j, (j < NSLOT)%nat → slot s' x' j = if decide (j = j0) then b0 else slot s x j) →
  x' = iset_addrs (i_addrs x') x → dinode_ok (dinode_of x') →
  filled s x s' x' j0 ∧ slot s' x' j0 = b0 ∧ frees s' = rest.
Proof.
  intros Hok Hx Hj H0 Hf Ht Hs Ha Hd. destruct (frees_first _ _ _ Hok Hf) as (Hb & Hu & _).
  pose proof (BBLOCK_0 s Hok) as HB.
  assert (Es : slot s' x' j0 = b0) by (rewrite Hs by done; by rewrite decide_True).
  split; [|split; [done|by eapply took_frees]]. split.
  - by eapply fill_grown.
  - rewrite Es. lia.
  - intros i Hi Hne _. rewrite Hs by done. by rewrite decide_False.
  - intros i Hi. by eapply fill_fbyte.
Qed.

(** Nothing to fill: the view is the same. *)
Lemma same_filled s x s' j : fs_ok s → file_ok s x → (∀ b, fview s' b = fview s b) →
  same_log (lg s) (lg s') → slot s x j ≠ 0 → filled s x s' x j ∧ slot s' x j = slot s x j.
Proof.
  intros Hok Hx V Sl Hj. destruct (same_view_fs s s' V (sl_start _ _ Sl)) as (Es & En & Ed & Eu & _ & Hok').
  assert (Hs : ∀ i, slot s' x i = slot s x i) by (intros i; unfold slot; by rewrite V).
  split; [|done]. split; try done; [|by rewrite Hs|].
  - split; auto; [| |by destruct x].
    + destruct Hx as [F1 F2 F3 F4 F5 F6 F7].
      split; rewrite ?Ed, ?En, ?(sl_start _ _ Sl); try done; intros *; rewrite ?Hs, ?Eu; auto.
    + intros b Hb. split; [|done]. unfold foreign in *. rewrite Ed, (sl_start _ _ Sl), Eu.
      split; [apply Hb|]. split; [apply Hb|]. intros i Hi. rewrite Hs. by apply Hb.
  - intros i _. unfold fbyte. by rewrite Hs, V.
Qed.

(** ** bmap *)

(** The state with inode cache entry [ip] and the log replaced. *)
Definition with_ip (ip : nat) (x : inode) (ls : logstate) (s : fsstate) : fsstate :=
  Fsstate ls (<[ip := x]> (icache s)) (console s).

Lemma with_ip_self ip ls s : with_ip ip (thei ip s) ls s = set_lg ls s.
Proof. unfold with_ip, set_lg, thei. by rewrite nthz_insert_self. Qed.

Lemma with_ip_with_ip ip x ls y l2 s : with_ip ip x ls (with_ip ip y l2 s) = with_ip ip x ls s.
Proof. unfold with_ip. simpl. by rewrite list_insert_insert_eq. Qed.

Lemma thei_with_ip ip x ls s : (ip < length (icache s))%nat → thei ip (with_ip ip x ls s) = x.
Proof. apply nthz_insert_eq. Qed.

Lemma thei_with_ip_ne ip x ls s j : ip ≠ j → thei j (with_ip ip x ls s) = thei j s.
Proof. apply nthz_insert_ne. Qed.

Lemma get32_zero o : get32 zero_block o = 0.
Proof. unfold get32, zero_block. by rewrite !nthz_replicate. Qed.

Lemma block_u32 {B r} s b : in_txn B r (lg s) → fs_ok s → b < start (lg s) → b < 2 ^ 31.
Proof.
  intros Hin Hok Hb. pose proof (lo_geom _ _ (it_log _ _ _ Hin)) as G.
  pose proof (g_disk _ G). pose proof (g_area _ G). pose proof (g_lsize _ G). lia.
Qed.

Lemma took_weaken s s' b0 w : fs_ok s → took s s' b0 0 → took s s' b0 w.
Proof.
  intros Hok [T1 T2 T3 T4 T5]. pose proof (BBLOCK_0 s Hok). split; try done.
  intros b Hb Hne _. apply T5; [done|done|lia].
Qed.

Lemma took_lg s s1 s2 b0 w : lg s1 = lg s2 → took s s1 b0 w → took s s2 b0 w.
Proof. destruct s1, s2. simpl. intros -> []. by split. Qed.

(** One of the inode's own slots is given a block. *)
Lemma alloc_addr r s k ip j b0 rest : let x := thei ip s in let x' := iset_addrs (<[j := b0]> (i_addrs x)) x in
  (ip < length (icache s))%nat → in_txn [] r (lg s) → 2 ≤ r → held k = [] → fs_ok s → file_ok s x →
  (j < 13)%nat → slot s x j = 0 → frees s = b0 :: rest →
  ∃ k' ls, (addr ← balloc (i_dev x);
       modify (λ s, updi ip (λ i, iset_addrs (<[j := addr]> (i_addrs i)) i) s);; mret addr) k s
     = Done b0 k' (with_ip ip x' ls s) ∧ held k' = [] ∧ in_txn [] (r - 2) ls ∧
    filled s x (with_ip ip x' ls s) x' j ∧ slot (with_ip ip x' ls s) x' j = b0 ∧
    frees (with_ip ip x' ls s) = rest.
Proof.
  intros x x' Hip Hin Hr Hk Hok Hx Hj H0 Hf.
  destruct (balloc_fs [] r s k b0 rest Hin Hok Hf) as (k' & ls & E & Hk' & Hin' & _ & T);
    [simpl; lia|done|auto with xv6|].
  destruct (frees_first _ _ _ Hok Hf) as (Hb & Hu & _). pose proof (BBLOCK_0 s Hok) as HB.
  pose proof (fk_dinode _ _ Hx) as Hd. pose proof (dn_addrs _ Hd) as Hlen. simpl in Hlen.
  exists k', ls. split.
  { rewrite (fk_dev _ _ Hx). mb E. done. }
  split; [done|]. split; [done|].
  apply (fill_filled s x _ _ b0 j); try done.
  - unfold NSLOT. lia.
  - by apply (took_lg s (set_lg ls s)), took_weaken.
  - change (slot (with_ip ip x' ls s) x') with (slot (set_lg ls s) x').
    assert (Hind : ∀ b, data0 s ≤ b → b ≠ b0 → fview (set_lg ls s) b = fview s b).
    { intros b ? ?. apply (tk_data _ _ _ _ T); lia. }
    intros i Hi. unfold slot at 1. cbn [x' i_addrs iset_addrs].
    destruct (decide (i < 13)%nat).
    + case_decide; [subst i; apply nthz_insert_eq; lia|].
      rewrite nthz_insert_ne by done. unfold slot. by rewrite decide_True by done.
    + rewrite (decide_False (P := i = j)) by lia. unfold slot. rewrite (decide_False (P := (i < 13)%nat)) by lia.
      destruct (decide (j = INDIRECT)) as [->|Hne].
      * rewrite nthz_insert_eq by lia. change ((i_addrs x).[INDIRECT]) with (slot s x INDIRECT). rewrite H0.
        cbn [Z.eqb]. zcases. rewrite (tk_zero _ _ _ _ T). apply get32_zero.
      * rewrite nthz_insert_ne by done. zcases.
        rewrite Hind; [done|apply (fk_slot _ _ Hx INDIRECT)|apply (slot_used s x b0 INDIRECT)];
          done || (unfold NSLOT, INDIRECT; lia).
  - destruct Hd as [D1 D2 D3 D4 D5 D6 D7]. split; try done; simpl in *; [by rewrite length_insert|].
    intros i. destruct (decide (i = j)) as [->|]; [|by rewrite nthz_insert_ne].
    rewrite nthz_insert_eq by lia. pose proof (block_u32 s b0 Hin Hok ltac:(lia)). lia.
Qed.

(** A held buffer is given new data, recorded in the log and released. *)
Lemma finish_update r s k b a v d (g : block → block) : in_txn [b] r (lg s) → 1 ≤ r → held k = [] →
  has_buf b a v (bst (lg s)) → home (lg s) a → g v = d → length d = Z.to_nat BSIZE →
  ∃ ls2 k' ls3, (set_bdata b g;; inlg (log_write b)) k s = Done tt k (set_lg ls2 s) ∧
    inbf (brelse b) k (set_lg ls2 s) = Done tt k' (set_lg ls3 s) ∧ held k' = [] ∧
    in_txn [] (r - 1) ls3 ∧ same_log (lg s) ls3 ∧
    (∀ y, lview ls3 y = if decide (a = y) then d else fview s y).
Proof.
  intros [Hls Ho Hr] H1 Hk Hb Ha Hg Hd.
  destruct (log_modify [b] (lg s) k b a v d Hls Hk) as (ls2 & E2 & Hls2 & Hb2 & R2 & S2 & V2 & N2 & _);
    try done; [set_solver|lia|].
  destruct (log_brelse [] ls2 k b Hls2) as (k' & s3 & E3 & Hk' & Hls3 & U3 & _);
    try done; [set_solver|apply Hb|].
  exists ls2, k', (set_bst s3 ls2). split_and!; try done.
  - erewrite bind_Done by apply set_bdata_eq.
    change (bdata b s) with (data (theb b (bst (lg s)))). rewrite (hb_data _ _ _ _ Hb), Hg.
    exact (inlg_Done (log_write b) k
      (set_lg (set_bst (updb b (set_data d) (bst (lg s))) (lg s)) s) _ _ _ E2).
  - exact (inlg_Done _ _ (set_lg ls2 s) _ _ _ E3).
  - split; [done| |]; simpl; destruct S2 as [_ Es Eo _ _]; simpl in *; rewrite ?Eo, ?Es; lia.
  - apply (same_log_trans _ ls2); [exact S2|]. split; try done; apply U3.
  - intros y. unfold lview. simpl. rewrite (un_view _ _ U3). fold (lview ls2 y). by rewrite V2.
Qed.

(** A block read into a buffer that stays held. *)
Lemma hold_block r s k a : in_txn [] r (lg s) → 1 ≤ r → held k = [] → home (lg s) a →
  ∃ b ls, inbf (bread ROOTDEV a) k s = Done b k (set_lg ls s) ∧ in_txn [b] r ls ∧
    has_buf b a (fview s a) (bst ls) ∧ same_log (lg s) ls ∧ (∀ y, lview ls y = fview s y).
Proof.
  intros Hin Hr Hk Ha. pose proof (in_txn_spare [] r _ Hin ltac:(lia) ltac:(simpl; lia)) as Hsp.
  destruct Hin as [Hls Ho Hrm].
  destruct (log_bread [] (lg s) k a Hls Hk (home_disk _ _ _ Hls Ha) (unheld_nil _ _) Hsp)
    as (b & s1 & E1 & Hls1 & _ & Hb & _ & U1 & _).
  exists b, (set_bst s1 (lg s)). split_and!; try done.
  - exact (inlg_Done _ _ _ _ _ _ E1).
  - split; try done. apply U1.
  - intros y. unfold lview. simpl. apply (un_view _ _ U1).
Qed.

(** A block taken while the indirect block [a] is held, and [a] rewritten. *)
Lemma took_rewrite s s1 s2 s3 b0 a d : fs_ok s → (∀ b, fview s1 b = fview s b) →
  same_log (lg s) (lg s1) → took s1 s2 b0 0 → same_log (lg s2) (lg s3) → data0 s ≤ a → a ≠ b0 →
  (∀ b, fview s3 b = if decide (a = b) then d else fview s2 b) → took s s3 b0 a.
Proof.
  intros Hok V1 S1 T S3 Ha Hne V3. pose proof (BBLOCK_0 s Hok) as HB.
  destruct (same_view_fs s s1 V1 (sl_start _ _ S1)) as (_ & En & Ed & Eu & _ & Hok1).
  pose proof (took_fs_ok _ _ _ _ (Hok1 Hok) T) as Hok2.
  pose proof (took_sblock _ _ _ _ (Hok1 Hok) T) as Es2.
  assert (Ed2 : data0 s2 = data0 s) by (rewrite <- Ed; unfold data0, nin; by rewrite Es2).
  destruct (data_write_fs s2 s3 a d Hok2 ltac:(lia) V3 (sl_start _ _ S3)) as (_ & _ & _ & Eu3 & _ & _).
  pose proof (sl_start _ _ S1) as L1. pose proof (sl_start _ _ (tk_log _ _ _ _ T)) as L2.
  split.
  - eapply same_log_trans; [done|]. eapply same_log_trans; [apply T|done].
  - rewrite V3, decide_False by done. apply T.
  - intros b Hb. rewrite Eu3 by lia. rewrite (tk_use _ _ _ _ T) by lia. by rewrite Eu.
  - intros b Hb. rewrite V3, decide_False by lia. rewrite (tk_meta _ _ _ _ T) by (by rewrite En). apply V1.
  - intros b Hb H1 H2. rewrite V3, decide_False by done. rewrite (tk_data _ _ _ _ T) by lia. apply V1.
Qed.

Lemma entry_slot s x e : slot s x INDIRECT ≠ 0 →
  slot s x (13 + e) = get32 (fview s (slot s x INDIRECT)) (4 * e).
Proof.
  intros Ha. unfold slot at 1. rewrite decide_False by lia.
  change ((i_addrs x).[INDIRECT]) with (slot s x INDIRECT). zcases. do 2 f_equal. lia.
Qed.

Section entry.
Context (r : Z) (s : fsstate) (k : kctx) (ip e : nat).
Let x : inode := thei ip s.
Let a : Z := slot s x INDIRECT.
Hypotheses (Hin : in_txn [] r (lg s)) (Hk : held k = []) (Hok : fs_ok s) (Hx : file_ok s x).
Hypotheses (He : (e < 128)%nat) (Ha : a ≠ 0).

Local Lemma entry_ind : data0 s ≤ a < start (lg s) ∧ used s a = true.
Proof. apply (fk_slot _ _ Hx INDIRECT); [unfold INDIRECT, NSLOT; lia|done]. Qed.

(** The slots after entry [e] of the indirect block is set. *)
Local Lemma entry_slots ls b0 : 0 ≤ b0 < 2 ^ 32 →
  lview ls a = put32 (fview s a) (4 * e) b0 →
  ∀ j, (j < NSLOT)%nat → slot (set_lg ls s) x j = if decide (j = 13 + e)%nat then b0 else slot s x j.
Proof.
  intros Hb V j Hj. unfold NSLOT in Hj. unfold slot. destruct (decide (j < 13)%nat).
  - by rewrite decide_False by lia.
  - change ((i_addrs x).[INDIRECT]) with a. zcases.
    change (fview (set_lg ls s) a) with (lview ls a). rewrite V. case_decide as E.
    + subst j. replace (13 + e - 13)%nat with e by lia.
      pose proof (fview_length r s a Hin) as Hl. change (Z.to_nat BSIZE) with 512%nat in Hl.
      rewrite get32_put32_eq; [done|lia|done].
    + rewrite get32_put32_ne; [done|lia].
Qed.

Let code : M fsstate Z :=
  bp ← inbf (bread (i_dev x) a);
  d ← gets (bdata bp);
  addr ← (if get32 d (4 * e) =? 0 then
       addr ← balloc (i_dev x);
       set_bdata bp (λ d, put32 d (4 * e) addr);;
       inlg (log_write bp);;
       mret addr
     else mret (get32 d (4 * e)));
  inbf (brelse bp);;
  mret addr.

(** The entry is empty: a block is allocated for it. *)
Local Lemma entry_alloc b0 rest : slot s x (13 + e) = 0 → frees s = b0 :: rest → 3 ≤ r →
  ∃ k' ls, code k s = Done b0 k' (set_lg ls s) ∧ held k' = [] ∧ in_txn [] (r - 3) ls ∧
    took s (set_lg ls s) b0 a ∧ lview ls a = put32 (fview s a) (4 * e) b0.
Proof.
  intros E0 Ef Hr. destruct entry_ind as [Hai Hau]. pose proof (data_home s a Hok Hai) as Hah.
  destruct (frees_first _ _ _ Hok Ef) as (Hb & Hu & _).
  destruct (hold_block r s k a Hin ltac:(lia) Hk Hah) as (b & ls1 & E1 & Hin1 & Hb1 & S1 & V1).
  set (s1 := set_lg ls1 s) in *.
  destruct (same_view_fs s s1 V1 (sl_start _ _ S1)) as (_ & _ & Ed & Eu & Ef1 & Hok1).
  destruct (balloc_fs [b] r s1 k b0 rest Hin1 (Hok1 Hok)) as (k2 & ls2 & E2 & Hk2 & Hin2 & K2 & T2);
    [by rewrite Ef1|simpl; lia|done| |].
  { intros sec Hs. apply (unheld_other b a (fview s a)); [apply Hin1|done|].
    rewrite Ed in Hs. intros Eas. destruct Hs as [Hs|Hs]; [|lia]. congruence. }
  pose proof (sl_start _ _ S1) as L1. pose proof (sl_start _ _ (tk_log _ _ _ _ T2)) as L2.
  assert (Hb2 : has_buf b a (fview s a) (bst ls2)).
  { apply (has_buf_frame b a _ (bst ls1)); [apply K2; set_solver|done]. }
  destruct (finish_update (r - 2) (set_lg ls2 s) k2 b a (fview s a) (put32 (fview s a) (4 * e) b0)
    (λ d, put32 d (4 * e) b0) Hin2) as (ls3 & k4 & ls4 & E3 & E4 & Hk4 & Hin4 & S4 & V4); try done;
    [lia|unfold home in *; simpl in *; rewrite L2, L1; lia|rewrite length_put32; by eapply fview_length|].
  assert (Hne : a ≠ b0) by congruence.
  exists k4, ls4. split_and!; try done.
  - unfold code. rewrite (fk_dev _ _ Hx). mb E1. mb (gets_eq (bdata b) k s1).
    change (bdata b s1) with (data (theb b (bst ls1))).
    pose proof (entry_slot s x e Ha) as Es. fold a in Es.
    rewrite (hb_data _ _ _ _ Hb1), <- Es, E0. cbn [Z.eqb].
    assert (E5 : (addr ← balloc ROOTDEV; set_bdata b (λ d, put32 d (4 * e) addr);;
      inlg (log_write b);; mret addr) k s1 = Done b0 k2 (set_lg ls3 s)).
    { mb E2. by rewrite (bind_assoc_Done _ _ _ _ _ _ _ _ E3). }
    mb E5. mb E4. done.
  - by eapply in_txn_weaken; [exact Hin4|lia].
  - by eapply (took_rewrite s s1 (set_lg ls2 s1) (set_lg ls4 s)); try lia.
  - by rewrite V4, decide_True.
Qed.

(** The entry is empty: the run fills its slot. *)
Lemma bmap_entry b0 rest : slot s x (13 + e) = 0 → frees s = b0 :: rest → 3 ≤ r →
  ∃ k' ls, code k s = Done b0 k' (set_lg ls s) ∧ held k' = [] ∧ in_txn [] (r - 3) ls ∧
    filled s x (set_lg ls s) x (13 + e) ∧ slot (set_lg ls s) x (13 + e) = b0 ∧
    frees (set_lg ls s) = rest.
Proof.
  intros E0 Ef Hr. destruct (entry_alloc b0 rest E0 Ef Hr) as (k' & ls & E & Hk' & Hin' & T & V).
  pose proof (frees_first _ _ _ Hok Ef) as [Hb _]. pose proof (BBLOCK_0 s Hok).
  pose proof (block_u32 s b0 Hin Hok ltac:(lia)) as Hb32.
  exists k', ls. split; [done|]. split; [done|]. split; [done|].
  apply (fill_filled s x _ _ b0 (13 + e)); try done;
    [unfold NSLOT; lia| |by destruct x|apply (fk_dinode _ _ Hx)].
  apply entry_slots; [lia|done].
Qed.
End entry.

(** The blocks of the log bmap may fill. *)
Definition map_cost (s : fsstate) (x : inode) (bn : Z) : Z := if empty s x (dslot bn) then 5 else 0.

(** What bmap needs: room in the log for what it allocates, and free blocks. *)
Definition can_map (r : Z) (s : fsstate) (x : inode) (bn : Z) : Prop :=
  1 + map_cost s x bn ≤ r ∧ (empty s x (dslot bn) = true → 2 ≤ length (frees s))%nat.

(** A block that is there is only looked up. *)
Lemma bmap_found r s k ip bn : let x := thei ip s in
  (ip < length (icache s))%nat → in_txn [] r (lg s) → 1 ≤ r → held k = [] → fs_ok s → file_ok s x →
  0 ≤ bn < MAXFILE → slot s x (dslot bn) ≠ 0 →
  ∃ k' ls, bmap ip bn k s = Done (slot s x (dslot bn)) k' (set_lg ls s) ∧ held k' = [] ∧
    in_txn [] r ls ∧ same_log (lg s) ls ∧ (∀ b, lview ls b = fview s b).
Proof.
  intros x Hip Hin Hr Hk Hok Hx Hbn Hs. unfold bmap. mb (gets_eq (thei ip) k s). fold x.
  unfold dslot in *. change NDIRECT with 12 in *. change MAXFILE with 140 in Hbn.
  destruct (Z.ltb_spec bn 12) as [H|H].
  - assert (Es : (i_addrs x).[Z.to_nat bn] = slot s x (Z.to_nat bn)).
    { unfold slot. by rewrite decide_True by lia. }
    rewrite Es. destruct (Z.eqb_spec (slot s x (Z.to_nat bn)) 0); [done|].
    exists k, (lg s). split_and!; auto with xv6. by destruct s.
  - change NINDIRECT with 128. destruct (Z.ltb_spec (bn - 12) 128); [|lia].
    set (e := Z.to_nat (bn - 12)). replace (S (Z.to_nat bn)) with (13 + e)%nat in * by lia.
    pose proof (slot_entry s x (13 + e) ltac:(lia) Hs) as Ha.
    change ((i_addrs x).[Z.to_nat 12]) with (slot s x INDIRECT).
    destruct (Z.eqb_spec (slot s x INDIRECT) 0); [done|].
    destruct (fk_slot _ _ Hx INDIRECT ltac:(unfold NSLOT, INDIRECT; lia) Ha) as [Hai _].
    destruct (read_block [] r s k (slot s x INDIRECT) Hin) as
      (b & ls1 & k' & ls2 & E1 & Hd & E2 & Hk' & Hin2 & S2 & _ & V2); try done;
      [lia|simpl; lia| |auto with xv6|].
    { apply (home_disk [] _ _ (it_log _ _ _ Hin)). by apply data_home. }
    exists k', ls2. split_and!; try done. rewrite (fk_dev _ _ Hx).
    mb (ret_eq (slot s x INDIRECT) k s). mb E1. mb (gets_eq (bdata b) k (set_lg ls1 s)).
    rewrite Hd, <- (entry_slot s x e Ha). zcases.
    mb (ret_eq (slot s x (13 + e)) k (set_lg ls1 s)). mb E2. done.
Qed.

(** The slot is empty: an own slot of the inode. *)
Lemma bmap_direct r s k ip bn b0 rest : let x := thei ip s in
  (ip < length (icache s))%nat → in_txn [] r (lg s) → 2 ≤ r → held k = [] → fs_ok s → file_ok s x →
  0 ≤ bn < NDIRECT → slot s x (dslot bn) = 0 → frees s = b0 :: rest →
  ∃ k' ls x', let s' := with_ip ip x' ls s in
    bmap ip bn k s = Done (slot s' x' (dslot bn)) k' s' ∧ held k' = [] ∧
    in_txn [] (r - 2) ls ∧ filled s x s' x' (dslot bn) ∧ frees s' = rest.
Proof.
  intros x Hip Hin Hr Hk Hok Hx Hbn E0 Ef. change NDIRECT with 12 in Hbn.
  assert (Ej : dslot bn = Z.to_nat bn) by (unfold dslot; change NDIRECT with 12; by zcases).
  rewrite Ej in *. set (j := Z.to_nat bn) in *.
  destruct (alloc_addr r s k ip j b0 rest) as (k' & ls & E & Hk' & Hin' & F & Es' & Ef'); try done; [lia|].
  eexists k', ls, _. cbv zeta. rewrite Es', Ef'. split_and!; try done.
  unfold bmap. mb (gets_eq (thei ip) k s). fold x. change NDIRECT with 12.
  destruct (Z.ltb_spec bn 12); [|lia]. fold j.
  assert (Es : (i_addrs x).[j] = slot s x j) by (unfold slot; by rewrite decide_True by lia).
  rewrite Es, E0. exact E.
Qed.

(** The slot is empty: an entry of the indirect block, which may have to be
    allocated too. *)
Lemma bmap_indirect r s k ip bn b0 b1 rest : let x := thei ip s in
  (ip < length (icache s))%nat → in_txn [] r (lg s) → 5 ≤ r → held k = [] → fs_ok s → file_ok s x →
  NDIRECT ≤ bn < MAXFILE → slot s x (dslot bn) = 0 → frees s = b0 :: b1 :: rest →
  ∃ k' ls x', let s' := with_ip ip x' ls s in
    bmap ip bn k s = Done (slot s' x' (dslot bn)) k' s' ∧ held k' = [] ∧
    in_txn [] (r - 5) ls ∧ filled s x s' x' (dslot bn) ∧ (frees s' = rest ∨ frees s' = b1 :: rest).
Proof.
  intros x Hip Hin Hr Hk Hok Hx Hbn E0 Ef. change NDIRECT with 12 in Hbn. change MAXFILE with 140 in Hbn.
  set (e := Z.to_nat (bn - 12)).
  assert (Ej : dslot bn = (13 + e)%nat) by (unfold dslot, e; change NDIRECT with 12; zcases; lia).
  rewrite Ej in *. assert (He : (e < 128)%nat) by lia.
  unfold bmap. mb (gets_eq (thei ip) k s). fold x. change NDIRECT with 12. change NINDIRECT with 128.
  destruct (Z.ltb_spec bn 12); [lia|]. destruct (Z.ltb_spec (bn - 12) 128); [|lia].
  change ((i_addrs x).[Z.to_nat 12]) with (slot s x INDIRECT). fold e.
  destruct (Z.eqb_spec (slot s x INDIRECT) 0) as [E12|E12].
  - destruct (alloc_addr r s k ip INDIRECT b0 (b1 :: rest)) as (k1 & ls1 & E1 & Hk1 & Hin1 & F1 & Es1 & Ef1);
      try done; [lia|unfold INDIRECT; lia|].
    set (x1 := iset_addrs (<[INDIRECT:=b0]> (i_addrs (thei ip s))) (thei ip s)) in *.
    set (s1 := with_ip ip x1 ls1 s) in *. assert (T1 : thei ip s1 = x1) by (by apply thei_with_ip).
    pose proof (fl_grown _ _ _ _ _ F1) as G1. pose proof (gr_file _ _ _ _ G1) as Hx1.
    pose proof (fl_here _ _ _ _ _ F1) as Hi1.
    assert (E01 : slot s1 x1 (13 + e) = 0).
    { rewrite (fl_others _ _ _ _ _ F1); [done|unfold NSLOT; lia|unfold INDIRECT; lia..]. }
    rewrite <- T1 in Hi1, Hx1, E01.
    destruct (bmap_entry (r - 2) s1 k1 ip e Hin1 Hk1 (gr_fs _ _ _ _ G1) Hx1 He Hi1 b1 rest E01 Ef1
      ltac:(lia)) as (k2 & ls2 & E2 & Hk2 & Hin2 & F2 & Es2 & Ef2).
    rewrite T1 in *. rewrite Es1 in E2. assert (Hp : set_lg ls2 s1 = with_ip ip x1 ls2 s) by done.
    rewrite Hp in *. exists k2, ls2, x1. cbv zeta. rewrite Es2, Ef2. split_and!; try done; try by left.
    + mb E1. exact E2.
    + by eapply in_txn_weaken; [exact Hin2|lia].
    + by eapply filled_trans.
  - destruct (bmap_entry r s k ip e Hin Hk Hok Hx He E12 b0 (b1 :: rest) E0 Ef ltac:(lia))
      as (k2 & ls2 & E2 & Hk2 & Hin2 & F2 & Es2 & Ef2).
    exists k2, ls2, x. cbv zeta. assert (Hp : with_ip ip x ls2 s = set_lg ls2 s) by apply with_ip_self.
    rewrite !Hp. fold x in Es2. rewrite Es2, Ef2. split_and!; try done; try by right.
    by eapply in_txn_weaken; [exact Hin2|lia].
Qed.

(** bmap fills the slot of block [bn] if it is empty, and returns it. *)
Lemma bmap_spec r s k ip bn : let x := thei ip s in
  (ip < length (icache s))%nat → in_txn [] r (lg s) → held k = [] → fs_ok s → file_ok s x →
  0 ≤ bn < MAXFILE → can_map r s x bn →
  ∃ k' ls x', let s' := with_ip ip x' ls s in
    bmap ip bn k s = Done (slot s' x' (dslot bn)) k' s' ∧ held k' = [] ∧
    in_txn [] (r - map_cost s x bn) ls ∧ filled s x s' x' (dslot bn) ∧
    (length (frees s) ≤ length (frees s') + if empty s x (dslot bn) then 2 else 0)%nat ∧
    (empty s x (dslot bn) = false → x' = x).
Proof.
  intros x Hip Hin Hk Hok Hx Hbn [Hr Hf]. unfold map_cost, empty in *.
  destruct (Z.eqb_spec (slot s x (dslot bn)) 0) as [E0|E0].
  - specialize (Hf eq_refl). destruct (frees s) as [|b0 [|b1 rest]] eqn:Ef; simpl in Hf; [lia..|].
    destruct (Z.lt_ge_cases bn NDIRECT).
    + destruct (bmap_direct r s k ip bn b0 (b1 :: rest)) as (k' & ls & x' & E & Hk' & Hin' & F & Ef');
        try done; [lia|lia|]. exists k', ls, x'. cbv zeta. rewrite Ef'. split_and!; try done; [|simpl; lia].
      by eapply in_txn_weaken; [exact Hin'|lia].
    + destruct (bmap_indirect r s k ip bn b0 b1 rest) as (k' & ls & x' & E & Hk' & Hin' & F & Ef');
        try done; [lia|lia|]. exists k', ls, x'. cbv zeta. split_and!; try done.
      destruct Ef' as [-> | ->]; simpl; lia.
  - destruct (bmap_found r s k ip bn) as (k' & ls & E & Hk' & Hin' & Sl & V); try done.
    exists k', ls, x. cbv zeta. assert (Hp : with_ip ip x ls s = set_lg ls s) by apply with_ip_self. rewrite !Hp.
    destruct (same_filled s x (set_lg ls s) (dslot bn) Hok Hx V Sl E0) as [F ->].
    destruct (same_view_fs s (set_lg ls s) V (sl_start _ _ Sl)) as (_ & _ & _ & _ & -> & _).
    split_and!; try done; [|lia]. by rewrite Z.sub_0_r.
Qed.

