(* ===== verification/FsRw.v ===== *)
(** * readi and writei

    readi delivers the bytes of the file in the range asked for, as far as the
    file goes, and changes nothing; writei puts the bytes given into the range,
    extends the file if the range ends behind it and writes the inode back.  The
    other bytes of the file, the other files and the other inodes keep their
    content, and what was written is what is read. *)

From stdpp Require Import base gmap list strings.
From Stdlib Require Import ZArith Lia Permutation.
From S2P Require Import Prelude Params Kmonad Console Bio BioSpec BioInit Log LogSpec LogCrash.
From S2P Require Import LogOps Fs FsTxn FsAlloc FsFree FsInode FsFile.

Implicit Types (s : fsstate) (k : kctx) (x : inode).

(** ** Blocks and bytes *)

(** The bytes a round of the loops moves: up to the end of the block. *)
Definition chunk (off m : Z) : Z := Z.min m (BSIZE - off mod BSIZE).

Lemma piece_range off m : 0 < m → 0 < chunk off m ≤ m ∧ off mod BSIZE + chunk off m ≤ BSIZE.
Proof.
  intros Hm. unfold chunk. pose proof (Z.mod_pos_bound off BSIZE ltac:(done)). lia.
Qed.

(** The blocks of the file a range touches. *)
Definition touched (off m : Z) : list Z :=
  if 0 <? m then seqZ (off / BSIZE) ((off + m - 1) / BSIZE - off / BSIZE + 1) else [].

(** The rounds left are enough: one more than the blocks touched. *)
Definition enough (fuel : nat) (off m : Z) : Prop := (length (touched off m) < fuel)%nat.

Lemma next_block off m : 0 < m → chunk off m < m → (off + chunk off m) / BSIZE = off / BSIZE + 1 ∧
  (off + chunk off m) mod BSIZE = 0.
Proof.
  intros Hm Hc. unfold chunk in *. pose proof (Z.div_mod off BSIZE ltac:(done)).
  change BSIZE with 512 in *.
  replace (off + Z.min m (512 - off mod 512)) with ((off / 512 + 1) * 512) by lia.
  split; [by apply Z.div_mul|by apply Z.mod_mul].
Qed.

Lemma same_block off i : 0 ≤ i → off mod BSIZE + i < BSIZE → (off + i) / BSIZE = off / BSIZE ∧
  (off + i) mod BSIZE = off mod BSIZE + i.
Proof.
  intros Hi Hb. pose proof (Z.div_mod off BSIZE ltac:(done)). pose proof (Z.mod_pos_bound off BSIZE ltac:(done)).
  change BSIZE with 512 in *.
  replace (off + i) with ((off mod 512 + i) + off / 512 * 512) by lia.
  rewrite Z.div_add, Z.mod_add, Z.div_small, Z.mod_small by lia. lia.
Qed.

Lemma touched_step off m : 0 < m →
  touched off m = off / BSIZE :: touched (off + chunk off m) (m - chunk off m).
Proof.
  intros Hm. destruct (piece_range off m Hm) as [Hc Hb]. unfold touched at 1.
  destruct (Z.ltb_spec 0 m); [|lia]. unfold touched.
  destruct (Z.ltb_spec 0 (m - chunk off m)).
  - destruct (next_block off m Hm ltac:(lia)) as [-> _].
    replace (off + chunk off m + (m - chunk off m) - 1) with (off + m - 1) by lia.
    assert (off / BSIZE + 1 ≤ (off + m - 1) / BSIZE).
    { destruct (next_block off m Hm ltac:(lia)) as [<- _]. apply Z.div_le_mono; [done|lia]. }
    rewrite seqZ_cons by lia. f_equal. f_equal; lia.
  - assert (E : chunk off m = m) by lia. rewrite E in *.
    replace (off + m - 1) with (off + (m - 1)) by lia.
    destruct (same_block off (m - 1)) as [-> _]; [lia..|].
    by replace (off / BSIZE - off / BSIZE + 1) with 1 by lia.
Qed.

Lemma elem_of_touched off m bn : 0 ≤ off → bn ∈ touched off m → off / BSIZE ≤ bn ∧ bn * BSIZE < off + m.
Proof.
  intros Hoff. unfold touched. destruct (Z.ltb_spec 0 m); [|set_solver]. rewrite elem_of_seqZ. intros Hb.
  pose proof (Z.mul_div_le (off + m - 1) BSIZE ltac:(done)). change BSIZE with 512 in *. lia.
Qed.

Lemma touched_elem off m bn : 0 ≤ off → off / BSIZE ≤ bn → bn * BSIZE < off + m → 0 < m →
  bn ∈ touched off m.
Proof.
  intros Hoff Hb Hlt Hm. unfold touched. destruct (Z.ltb_spec 0 m); [|lia]. rewrite elem_of_seqZ.
  assert (bn ≤ (off + m - 1) / BSIZE); [|lia]. apply Z.div_le_lower_bound; [done|].
  change BSIZE with 512 in *. lia.
Qed.

Lemma enough_io n off : 0 ≤ off → 0 ≤ n → enough (io_fuel n) off n.
Proof.
  intros Hoff Hn. unfold enough, io_fuel, touched. destruct (Z.ltb_spec 0 n); [|simpl; lia]. rewrite length_seqZ.
  pose proof (Z.div_mod n BSIZE ltac:(done)). pose proof (Z.div_mod off BSIZE ltac:(done)).
  pose proof (Z.div_mod (off + n - 1) BSIZE ltac:(done)).
  pose proof (Z.mod_pos_bound n BSIZE ltac:(done)). pose proof (Z.mod_pos_bound off BSIZE ltac:(done)).
  pose proof (Z.mod_pos_bound (off + n - 1) BSIZE ltac:(done)). change BSIZE with 512 in *. lia.
Qed.

Lemma fbytes_app s x off m c : 0 ≤ c ≤ m →
  fbytes s x off m = fbytes s x off c ++ fbytes s x (off + c) (m - c).
Proof.
  intros Hc. unfold fbytes. rewrite <- fmap_app, <- seqZ_app by lia. do 2 f_equal. lia.
Qed.

(** A piece of one block of the file. *)
Lemma fbytes_block s x off c : (∀ b, length (fview s b) = Z.to_nat BSIZE) →
  slot s x (dslot (off / BSIZE)) ≠ 0 → 0 ≤ c → off mod BSIZE + c ≤ BSIZE →
  fbytes s x off c = take (Z.to_nat c) (drop (Z.to_nat (off mod BSIZE))
    (fview s (slot s x (dslot (off / BSIZE))))).
Proof.
  intros Hlen Hs Hc Hb. pose proof (Z.mod_pos_bound off BSIZE ltac:(done)) as Hm.
  apply (nthz_ext 0); unfold fbytes.
  - rewrite length_fmap, length_seqZ, length_take, length_drop, Hlen. lia.
  - rewrite length_fmap, length_seqZ. intros i Hi. unfold nthz.
    rewrite list_lookup_fmap, lookup_seqZ_lt by lia. rewrite lookup_take_lt, lookup_drop by lia. simpl.
    unfold fbyte. destruct (same_block off (Z.of_nat i)) as [-> ->]; [lia|lia|]. destruct (Z.eqb_spec (slot s x (dslot (off / BSIZE))) 0); [done|].
    unfold nthz. do 2 f_equal. lia.
Qed.

Lemma fbytes_view s s' x off m : (∀ b, fview s' b = fview s b) → fbytes s' x off m = fbytes s x off m.
Proof.
  intros V. unfold fbytes. apply list_fmap_ext. intros _ i _. unfold fbyte, slot. by rewrite !V.
Qed.

(** ** readi *)

Lemma file_same s x s' : fs_ok s → file_ok s x → (∀ b, fview s' b = fview s b) →
  same_log (lg s) (lg s') → fs_ok s' ∧ file_ok s' x.
Proof.
  intros Hok Hx V Sl. destruct (same_view_fs s s' V (sl_start _ _ Sl)) as (_ & En & Ed & Eu & _ & Hok').
  split; [by apply Hok'|].
  assert (Hs : ∀ i, slot s' x i = slot s x i) by (intros i; unfold slot; by rewrite V).
  destruct Hx as [F1 F2 F3 F4 F5 F6 F7].
  split; rewrite ?Ed, ?En, ?(sl_start _ _ Sl); try done; intros *; rewrite ?Hs, ?Eu; auto.
Qed.

Section readi.
Context (dsw : devsw) (r : Z) (ip : nat).
Hypothesis (Hr : 1 ≤ r).

(** One round: the block is looked up and read. *)
Lemma read_round s k bn : let x := thei ip s in let a := slot s x (dslot bn) in
  (ip < length (icache s))%nat → in_txn [] r (lg s) → held k = [] → fs_ok s → file_ok s x →
  0 ≤ bn → bn * BSIZE < i_size x →
  ∃ k1 ls1 b ls2 k3 ls3, bmap ip bn k s = Done a k1 (set_lg ls1 s) ∧
    inbf (bread ROOTDEV a) k1 (set_lg ls1 s) = Done b k1 (set_lg ls2 s) ∧
    bdata b (set_lg ls2 s) = fview s a ∧
    inbf (brelse b) k1 (set_lg ls2 s) = Done tt k3 (set_lg ls3 s) ∧ held k3 = [] ∧
    in_txn [] r ls3 ∧ same_log (lg s) ls3 ∧ (∀ y, fview (set_lg ls3 s) y = fview s y).
Proof.
  intros x a Hip Hin Hk Hok Hx Hbn Hsz. pose proof (fk_full _ _ Hx bn Hbn Hsz) as Hs.
  assert (Hmax : bn < MAXFILE).
  { pose proof (fk_size _ _ Hx). change MAXFILE with 140 in *. change BSIZE with 512 in *. lia. }
  destruct (bmap_found r s k ip bn) as (k1 & ls1 & E1 & Hk1 & Hin1 & S1 & V1); try done.
  set (s1 := set_lg ls1 s). assert (V : ∀ b, fview s1 b = fview s b) by done.
  destruct (file_same s x s1 Hok Hx V S1) as [Hok1 Hx1].
  assert (Ha : slot s1 x (dslot bn) = a) by (unfold a, slot; by rewrite V).
  destruct (fk_slot _ _ Hx1 (dslot bn)) as [Hai _]; [by apply dslot_lt|by rewrite Ha|].
  rewrite Ha in Hai.
  destruct (read_block [] r s1 k1 a Hin1) as (b & ls2 & k3 & ls3 & E2 & Hd & E3 & Hk3 & Hin3 & S3 & _ & V3);
    try done; [lia|simpl; lia| |auto with xv6|].
  { apply (home_disk [] _ _ (it_log _ _ _ Hin1)). by apply (data_home s1). }
  exists k1, ls1, b, ls2, k3, ls3. split_and!; try done.
  - transitivity (fview s1 a); [exact Hd|apply V].
  - by eapply same_log_trans.
  - intros y. transitivity (fview s1 y); [exact (V3 y)|apply V].
Qed.

Lemma readi_loop_spec : ∀ fuel off n tot acc k s, let x := thei ip s in
  (ip < length (icache s))%nat → in_txn [] r (lg s) → held k = [] → fs_ok s → file_ok s x →
  0 ≤ off → tot ≤ n → off + (n - tot) ≤ i_size x → enough fuel off (n - tot) →
  ∃ k' ls, readi_loop fuel ip off n tot acc k s =
      Done (acc ++ fbytes s x off (n - tot)) k' (set_lg ls s) ∧ held k' = [] ∧
    in_txn [] r ls ∧ same_log (lg s) ls ∧ (∀ b, fview (set_lg ls s) b = fview s b).
Proof.
  induction fuel as [|f IH]; intros off n tot acc k s x Hip Hin Hk Hok Hx Hoff Htot Hsz Hf;
    [unfold enough in Hf; lia|]. cbn [readi_loop].
  destruct (Z.ltb_spec tot n) as [Hlt|Hge]; cycle 1.
  { replace (n - tot) with 0 by lia. exists k, (lg s). split_and!; auto with xv6.
    by rewrite app_nil_r; destruct s. }
  set (m := n - tot) in *. change (Z.min m (BSIZE - off mod BSIZE)) with (chunk off m).
  set (c := chunk off m). destruct (piece_range off m ltac:(lia)) as [Hc Hcb]. fold c in Hc, Hcb.
  assert (Hbn : 0 ≤ off / BSIZE) by (by apply Z.div_pos).
  pose proof (Z.mul_div_le off BSIZE ltac:(done)) as Hdiv.
  destruct (read_round s k (off / BSIZE)) as
    (k1 & ls1 & b & ls2 & k3 & ls3 & E1 & E2 & Hd & E3 & Hk3 & Hin3 & S3 & V3); try done; [fold x; lia|].
  fold x in E1, E2, Hd. set (a := slot s x (dslot (off / BSIZE))) in *.
  destruct (file_same s x (set_lg ls3 s) Hok Hx V3 S3) as [Hok3 Hx3].
  destruct (IH (off + c) n (tot + c) (acc ++ take (Z.to_nat c) (drop (Z.to_nat (off mod BSIZE)) (fview s a)))
    k3 (set_lg ls3 s)) as (k4 & ls4 & E4 & Hk4 & Hin4 & S4 & V4); try done; try lia.
  { change (thei ip (set_lg ls3 s)) with x. lia. }
  { unfold enough in *. rewrite (touched_step off m ltac:(lia)) in Hf. simpl in Hf.
    fold c in Hf. replace (n - (tot + c)) with (m - c) by lia. lia. }
  exists k4, ls4. split_and!; try done; [|by eapply same_log_trans|].
  2: { intros y. transitivity (fview (set_lg ls3 s) y); [exact (V4 y)|apply V3]. }
  mb E1. mb (gets_eq (thei ip) k1 (set_lg ls1 s)). change (thei ip (set_lg ls1 s)) with x.
  rewrite (fk_dev _ _ Hx). mb E2. mb (gets_eq (bdata b) k1 (set_lg ls2 s)). rewrite Hd. mb E3.
  etransitivity; [exact E4|]. rewrite <- app_assoc, (fbytes_view s (set_lg ls3 s)) by done.
  change (thei ip (set_lg ls3 s)) with x.
  rewrite (fbytes_app s x off m c), (fbytes_block s x off c); try done; try lia.
  - by replace (n - (tot + c)) with (m - c) by lia.
  - intros y. by eapply fview_length.
  - by apply (fk_full _ _ Hx); [|lia].
Qed.

(** The check at the head of readi and writei: the offset is behind the end, or the
    end of the range wraps around. *)
Definition bad_range (x : inode) (off n : Z) : bool := (off >? i_size x) || (2 ^ 32 <=? off + n).

Lemma bad_range_eq x off n : 0 ≤ off < 2 ^ 32 → 0 ≤ n < 2 ^ 32 →
  (off >? i_size x) || (u32 (off + n) <? off) = bad_range x off n.
Proof.
  intros Ho Hn. unfold bad_range. f_equal. destruct (Z.leb_spec (2 ^ 32) (off + n)).
  - apply Z.ltb_lt. unfold u32, wrap. replace (off + n) with ((off + n - 2 ^ 32) + 1 * 2 ^ 32) by lia.
    rewrite Z.mod_add by lia. rewrite Z.mod_small; lia.
  - apply Z.ltb_ge. rewrite u32_small; lia.
Qed.

Lemma readi_spec off n k s : let x := thei ip s in
  (ip < length (icache s))%nat → in_txn [] r (lg s) → held k = [] → fs_ok s → file_ok s x →
  i_type x ≠ T_DEV → 0 ≤ off < 2 ^ 32 → 0 ≤ n < 2 ^ 32 →
  if bad_range x off n then readi dsw ip off n k s = Done (-1, []) k s
  else let m := Z.min n (i_size x - off) in
    ∃ k' ls, readi dsw ip off n k s = Done (m, fbytes s x off m) k' (set_lg ls s) ∧ held k' = [] ∧
      in_txn [] r ls ∧ same_log (lg s) ls ∧ (∀ b, fview (set_lg ls s) b = fview s b).
Proof.
  intros x Hip Hin Hk Hok Hx Hty Hoff Hn. unfold readi. mb (gets_eq (thei ip) k s). fold x.
  destruct (Z.eqb_spec (i_type x) T_DEV); [done|]. rewrite bad_range_eq by done.
  destruct (bad_range x off n) eqn:Eb; [done|].
  unfold bad_range in Eb. apply orb_false_iff in Eb as [Eo _]. rewrite Z.gtb_ltb in Eo. apply Z.ltb_ge in Eo.
  cbv zeta. set (m := Z.min n (i_size x - off)).
  assert (Em : (if off + n >? i_size x then i_size x - off else n) = m) by (unfold m; zcases; lia).
  rewrite Em. destruct (readi_loop_spec (io_fuel m) off m 0 [] k s) as (k' & ls & E & H); try done;
    try (rewrite ?Z.sub_0_r; fold x; lia).
  { rewrite Z.sub_0_r. apply enough_io; lia. }
  rewrite Z.sub_0_r in E. exists k', ls. split; [|done]. mb E. done.
Qed.
End readi.

(** ** writei *)

(** A data block of the file rewritten. *)
Section rewrite.
Context (s : fsstate) (x : inode) (s' : fsstate) (j : nat) (d : block).
Hypotheses (Hok : fs_ok s) (Hx : file_ok s x) (Hj : (j < NSLOT)%nat) (Hne : j ≠ INDIRECT).
Hypotheses (Hs : slot s x j ≠ 0) (Hl : same_log (lg s) (lg s')).
Hypothesis (V : ∀ b, fview s' b = if decide (slot s x j = b) then d else fview s b).

Lemma rewrite_slot i : (i < NSLOT)%nat → slot s' x i = slot s x i.
Proof.
  intros Hi. unfold slot. destruct (decide (i < 13)%nat); [done|].
  destruct (Z.eqb_spec ((i_addrs x).[INDIRECT]) 0) as [|Hz]; [done|]. rewrite V, decide_False; [done|].
  intros E. apply Hne. apply (fk_inj _ _ Hx); try done. unfold INDIRECT, NSLOT. lia.
Qed.

Lemma rewrite_grown : grown s x s' x ∧ frees s' = frees s.
Proof.
  destruct (fk_slot _ _ Hx j Hj Hs) as [Ha _]. pose proof (BBLOCK_0 s Hok) as HB.
  destruct (data_write_fs s s' (slot s x j) d Hok ltac:(lia) V (sl_start _ _ Hl))
    as (Es & En & Ed & Eu & Ef & Hok').
  pose proof (sl_start _ _ Hl) as El. split; [|done]. split; try done.
  - destruct Hx as [F1 F2 F3 F4 F5 F6 F7]. split; rewrite ?Ed, ?En, ?El; try done.
    + intros i Hi. rewrite rewrite_slot by done. intros Hz. destruct (F4 i Hi Hz) as [G1 G2].
      split; [done|]. by rewrite Eu by lia.
    + intros i i' Hi Hi'. rewrite !rewrite_slot by done. by apply F5.
    + intros bn H1 H2. rewrite rewrite_slot; [by apply F7|]. apply dslot_lt.
      change MAXFILE with 140 in *. change BSIZE with 512 in *. lia.
  - intros b Hb. rewrite V. by rewrite decide_False by lia.
  - intros i Hi _. by apply rewrite_slot.
  - intros b (G1 & G2 & G3). split.
    + split; [by rewrite Ed, El|]. split; [by rewrite Eu by lia|].
      intros i Hi. rewrite rewrite_slot by done. by apply G3.
    + rewrite V. rewrite decide_False; [done|]. by apply G3.
  - by destruct x.
Qed.

Lemma rewrite_fbyte i : 0 ≤ i < MAXFILE * BSIZE → fbyte s' x i =
  if decide (dslot (i / BSIZE) = j) then d.[Z.to_nat (i mod BSIZE)] else fbyte s x i.
Proof.
  intros Hi. pose proof (block_lt i ltac:(lia)) as Hbn.
  destruct (dslot_lt _ Hbn) as [D1 D2]. unfold fbyte. rewrite rewrite_slot by done. rewrite V.
  destruct (decide (dslot (i / BSIZE) = j)) as [E1|E1].
  - rewrite E1. destruct (Z.eqb_spec (slot s x j) 0); [done|]. by rewrite decide_True.
  - destruct (Z.eqb_spec (slot s x (dslot (i / BSIZE))) 0); [done|]. rewrite decide_False; [done|].
    intros E. apply E1. symmetry. by apply (fk_inj _ _ Hx).
Qed.
End rewrite.

Lemma nthz_splice (l : list Z) o p i : (o + length p ≤ length l)%nat →
  (splice l o p).[i] = if decide (o ≤ i < o + length p)%nat then p.[i - o] else l.[i].
Proof.
  intros Hl. unfold nthz. case_decide.
  - by rewrite splice_in.
  - rewrite splice_out; [done|done|lia].
Qed.

(** Log blocks and free blocks that writing the blocks [bns] can take. *)
Fixpoint write_cost (s : fsstate) (x : inode) (bns : list Z) : Z :=
  match bns with [] => 0 | bn :: l => map_cost s x bn + 1 + write_cost s x l end.
Fixpoint write_need (s : fsstate) (x : inode) (bns : list Z) : nat :=
  match bns with
  | [] => 0%nat
  | bn :: l => ((if empty s x (dslot bn) then 2 else 0) + write_need s x l)%nat
  end.

Lemma write_cost_ext s x s' x' bns :
  (∀ bn, bn ∈ bns → slot s' x' (dslot bn) = slot s x (dslot bn)) →
  write_cost s' x' bns = write_cost s x bns ∧ write_need s' x' bns = write_need s x bns.
Proof.
  induction bns as [|bn l IH]; intros H; [done|]. simpl. unfold map_cost, empty.
  rewrite (H bn ltac:(left)). destruct IH as [-> ->]; [|done]. intros b Hb. apply H. by right.
Qed.

Lemma write_cost_nonneg s x bns : 0 ≤ write_cost s x bns.
Proof. induction bns as [|bn l IH]; simpl; [lia|]. unfold map_cost. destruct (empty _ _ _); lia. Qed.

(** The file after the bytes [p] are written at [off]. *)
Definition overwrites (off : Z) (p : list Z) (s : fsstate) (x : inode) (s' : fsstate) (x' : inode) : Prop :=
  ∀ i, 0 ≤ i < MAXFILE * BSIZE → fbyte s' x' i =
    if decide (off ≤ i < off + Z.of_nat (length p)) then p.[Z.to_nat (i - off)] else fbyte s x i.

Lemma overwrites_nil off s x : overwrites off [] s x s x.
Proof. intros i Hi. by rewrite decide_False by (simpl; lia). Qed.

Lemma overwrites_app off p q s1 x1 s2 x2 s3 x3 : 0 ≤ off → overwrites off p s1 x1 s2 x2 →
  overwrites (off + Z.of_nat (length p)) q s2 x2 s3 x3 → overwrites off (p ++ q) s1 x1 s3 x3.
Proof.
  intros Hoff H1 H2 i Hi. rewrite H2, H1 by done. rewrite length_app. unfold nthz.
  repeat case_decide; try lia.
  - rewrite lookup_app_r by lia. do 2 f_equal. lia.
  - by rewrite lookup_app_l by lia.
Qed.

Lemma block_overwrites s x s' off p : let bn := off / BSIZE in let j := dslot bn in
  fs_ok s → file_ok s x → 0 ≤ off → bn < MAXFILE → slot s x j ≠ 0 →
  length (fview s (slot s x j)) = Z.to_nat BSIZE →
  off mod BSIZE + Z.of_nat (length p) ≤ BSIZE →
  (∀ b, fview s' b = if decide (slot s x j = b)
     then splice (fview s (slot s x j)) (Z.to_nat (off mod BSIZE)) p else fview s b) →
  overwrites off p s x s' x.
Proof.
  intros bn j Hok Hx Hoff Hbn Hs Hlen Hp V i Hi.
  assert (H0 : 0 ≤ bn) by (by apply Z.div_pos). destruct (dslot_lt bn ltac:(lia)) as [D1 D2].
  rewrite (rewrite_fbyte s x s' j _ Hx D1 D2 Hs V i Hi).
  pose proof (Z.mod_pos_bound off BSIZE ltac:(done)). pose proof (Z.div_mod off BSIZE ltac:(done)).
  pose proof (Z.mod_pos_bound i BSIZE ltac:(done)). pose proof (Z.div_mod i BSIZE ltac:(done)).
  assert (Hi0 : 0 ≤ i / BSIZE) by (apply Z.div_pos; [lia|done]).
  destruct (decide (dslot (i / BSIZE) = j)) as [E|E].
  - apply dslot_inj in E; [|done|done]. rewrite nthz_splice by (rewrite Hlen; lia).
    fold bn in H1. rewrite E in H3. destruct (decide (off ≤ i < off + Z.of_nat (length p))).
    + rewrite decide_True by lia. f_equal. lia.
    + rewrite decide_False by lia. unfold fbyte. rewrite E. fold j.
      destruct (Z.eqb_spec (slot s x j) 0); [done|]. by rewrite E in *.
  - rewrite decide_False; [done|]. intros Hr. apply E. unfold j, bn. f_equal.
    destruct (same_block off (i - off)) as [E2 _]; [lia|lia|].
    by replace (off + (i - off)) with i in E2 by lia.
Qed.

(** The blocks after the first of a range have other slots. *)
Lemma later_blocks off m bn : 0 ≤ off → 0 < m → off + m ≤ MAXFILE * BSIZE →
  bn ∈ touched (off + chunk off m) (m - chunk off m) →
  (dslot bn < NSLOT)%nat ∧ dslot bn ≠ dslot (off / BSIZE) ∧ dslot bn ≠ INDIRECT.
Proof.
  intros Hoff Hm Hmax Hbn. destruct (piece_range off m Hm) as [Hc _].
  assert (Hlt : chunk off m < m).
  { unfold touched in Hbn. destruct (Z.ltb_spec 0 (m - chunk off m)); [lia|set_solver]. }
  apply elem_of_touched in Hbn as [H1 H2]; [|lia].
  destruct (next_block off m Hm Hlt) as [En _]. rewrite En in H1.
  assert (H0 : 0 ≤ off / BSIZE) by (by apply Z.div_pos).
  destruct (dslot_lt bn) as [D1 D2]; [change MAXFILE with 140 in *; change BSIZE with 512 in *; lia|].
  split_and!; try done. intros E. apply dslot_inj in E; lia.
Qed.

(** What one round of the loop does: [p] is written at [off], inside one block. *)
Record round (r off : Z) (p : list Z) (s : fsstate) (x : inode) (s' : fsstate) (x' : inode) : Prop := Round {
  rd_txn : in_txn [] (r - map_cost s x (off / BSIZE) - 1) (lg s');
  rd_grown : grown s x s' x';
  rd_here : slot s' x' (dslot (off / BSIZE)) ≠ 0;
  rd_others : ∀ i, (i < NSLOT)%nat → i ≠ dslot (off / BSIZE) → i ≠ INDIRECT →
    slot s' x' i = slot s x i;
  rd_bytes : overwrites off p s x s' x';
  rd_frees : (length (frees s) ≤ length (frees s') +
    if empty s x (dslot (off / BSIZE)) then 2 else 0)%nat;
  rd_same : empty s x (dslot (off / BSIZE)) = false → x' = x
}.

(** What the loop does: [src] is written at [off], over [m] bytes. *)
Record wrote (r off m : Z) (src : list Z) (s : fsstate) (x : inode) (s' : fsstate) (x' : inode) : Prop := Wrote {
  wr_txn : in_txn [] (r - write_cost s x (touched off m)) (lg s');
  wr_grown : grown s x s' x';
  wr_bytes : overwrites off src s x s' x';
  wr_slots : ∀ bn, bn ∈ touched off m → slot s' x' (dslot bn) ≠ 0;
  wr_same : (∀ bn, bn ∈ touched off m → empty s x (dslot bn) = false) → x' = x
}.

Lemma wrote_nil r off s x : in_txn [] r (lg s) → fs_ok s → file_ok s x → wrote r off 0 [] s x s x.
Proof.
  intros Hin Hok Hx. split; try done.
  - simpl. by rewrite Z.sub_0_r.
  - by apply grown_refl.
  - apply overwrites_nil.
  - intros bn Hbn. set_solver.
Qed.

(** After a round the blocks that are left cost what they did. *)
Lemma round_cost r off m p s x s' x' : 0 ≤ off → 0 < m → off + m ≤ MAXFILE * BSIZE →
  round r off p s x s' x' → let l := touched (off + chunk off m) (m - chunk off m) in
  write_cost s' x' l = write_cost s x l ∧ write_need s' x' l = write_need s x l.
Proof.
  intros Hoff Hm Hmax R l. apply write_cost_ext. intros bn Hbn.
  destruct (later_blocks off m bn) as (H1 & H2 & H3); try done. by apply (rd_others _ _ _ _ _ _ _ R).
Qed.

Lemma wrote_cons r off m src s x s1 x1 s2 x2 : let c := chunk off m in let p := take (Z.to_nat c) src in
  fs_ok s → 0 ≤ off → 0 < m → off + m ≤ MAXFILE * BSIZE → Z.of_nat (length src) = m →
  round r off p s x s1 x1 →
  wrote (r - map_cost s x (off / BSIZE) - 1) (off + c) (m - c) (drop (Z.to_nat c) src) s1 x1 s2 x2 →
  wrote r off m src s x s2 x2.
Proof.
  intros c p Hok Hoff Hm Hmax Hsrc R [W1 W2 W3 W4 W5].
  destruct (piece_range off m Hm) as [Hc _]. fold c in Hc.
  destruct (round_cost _ _ m _ _ _ _ _ Hoff Hm Hmax R) as [Ec _]. fold c in Ec.
  pose proof (touched_step off m Hm) as Et. fold c in Et. split.
  - eapply in_txn_weaken; [exact W1|]. rewrite Ec, Et. simpl. lia.
  - eapply grown_file_trans; [done|apply R|done].
  - rewrite <- (take_drop (Z.to_nat c) src). apply (overwrites_app _ _ _ _ _ s1 x1); [done|apply R|].
    replace (Z.of_nat (length (take (Z.to_nat c) src))) with c by (rewrite length_take; lia). done.
  - rewrite Et. intros bn [->|Hbn]%elem_of_cons; [|by apply W4].
    pose proof (rd_here _ _ _ _ _ _ _ R). rewrite (gr_slot _ _ _ _ W2); [done| |done]. apply dslot_lt. split; [by apply Z.div_pos|].
    apply Z.div_lt_upper_bound; [done|lia].
  - rewrite Et. intros He. rewrite W5; [apply (rd_same _ _ _ _ _ _ _ R), He; by left|]. intros bn Hbn.
    unfold empty. destruct (later_blocks off m bn) as (H1 & H2 & H3); try done.
    rewrite (rd_others _ _ _ _ _ _ _ R) by done. apply He. by right.
Qed.

(** An inode block rewritten: neither the layout nor any file is affected. *)
Lemma meta_write s x s' inum : fs_ok s → file_ok s x → same_log (lg s) (lg s') → 0 ≤ inum < nin s →
  (∀ b, b ≠ IBLOCK inum → fview s' b = fview s b) →
  fs_ok s' ∧ file_ok s' x ∧ (∀ i, (i < NSLOT)%nat → slot s' x i = slot s x i) ∧
  (∀ i, 0 ≤ i < MAXFILE * BSIZE → fbyte s' x i = fbyte s x i) ∧
  (∀ b, foreign s x b → fview s' b = fview s b).
Proof.
  intros Hok Hx Sl Hi V. pose proof (IBLOCK_meta s inum Hok Hi) as HI.
  pose proof (BBLOCK_0 s Hok) as HB. pose proof (fo_size _ Hok). pose proof (sl_start _ _ Sl) as El.
  assert (Es : sblock s' = sblock s) by (unfold sblock; rewrite V; [done|lia]).
  assert (En : nin s' = nin s) by (unfold nin; by rewrite Es).
  assert (Ed : data0 s' = data0 s) by (unfold data0; by rewrite Es, En).
  assert (Eu : ∀ b, 0 ≤ b < start (lg s) → used s' b = used s b).
  { intros b Hb. unfold used, in_use. rewrite En. pose proof (BBLOCK_data s b ltac:(lia)).
    rewrite V; [done|lia]. }
  assert (Ev : ∀ j, (j < NSLOT)%nat → slot s x j ≠ 0 → fview s' (slot s x j) = fview s (slot s x j)).
  { intros j Hj Hz. destruct (fk_slot _ _ Hx j Hj Hz). apply V. lia. }
  assert (Hs : ∀ j, (j < NSLOT)%nat → slot s' x j = slot s x j).
  { intros j Hj. unfold slot. destruct (decide (j < 13)%nat); [done|].
    destruct (Z.eqb_spec ((i_addrs x).[INDIRECT]) 0) as [|Hz]; [done|].
    f_equal. apply (Ev INDIRECT); [unfold INDIRECT, NSLOT; lia|done]. }
  split_and!; try done.
  - apply (fs_ok_mono s); try done. intros b Hb. by rewrite Eu.
  - destruct Hx as [F1 F2 F3 F4 F5 F6 F7]. split; rewrite ?Ed, ?En, ?El; try done.
    + intros j Hj. rewrite Hs by done. intros Hz. destruct (F4 j Hj Hz). rewrite Eu; [done|lia].
    + intros i j ? ?. rewrite !Hs by done. by apply F5.
    + intros bn ? ?. rewrite Hs; [by apply F7|]. apply dslot_lt.
      change MAXFILE with 140 in *. change BSIZE with 512 in *. lia.
  - intros i Hir. pose proof (block_lt i ltac:(lia)) as Hbn.
    destruct (dslot_lt _ Hbn) as [D1 D2]. unfold fbyte. rewrite Hs by done.
    destruct (Z.eqb_spec (slot s x (dslot (i / BSIZE))) 0); [done|]. by rewrite Ev.
  - intros b [Hb _]. apply V. lia.
Qed.

(** The size is raised once the blocks below it are there. *)
Lemma file_ok_grow s x sz : file_ok s x → 0 ≤ sz ≤ MAXFILE * BSIZE →
  (∀ bn, 0 ≤ bn → bn * BSIZE < sz → slot s x (dslot bn) ≠ 0) → file_ok s (iset_size sz x).
Proof.
  intros [F1 F2 [D1 D2 D3 D4 D5 D6 D7] F4 F5 F6 F7] Hsz Hfull. split; try done; [|simpl; lia].
  split; try done. simpl. change MAXFILE with 140 in *. change BSIZE with 512 in *. lia.
Qed.

Section writei.
Context (dsw : devsw) (ip : nat).

(** One round: the block is found or allocated, read, changed, logged and released. *)
Lemma write_round r s k off p : let x := thei ip s in let bn := off / BSIZE in
  (ip < length (icache s))%nat → in_txn [] r (lg s) → held k = [] → fs_ok s → file_ok s x →
  0 ≤ off → bn < MAXFILE → can_map r s x bn → off mod BSIZE + Z.of_nat (length p) ≤ BSIZE →
  ∃ a k1 ls1 x1 b ls2 ls3 k4 ls4, bmap ip bn k s = Done a k1 (with_ip ip x1 ls1 s) ∧
    inbf (bread ROOTDEV a) k1 (with_ip ip x1 ls1 s) = Done b k1 (with_ip ip x1 ls2 s) ∧
    (set_bdata b (λ d, splice d (Z.to_nat (off mod BSIZE)) p);; inlg (log_write b)) k1 (with_ip ip x1 ls2 s)
      = Done tt k1 (with_ip ip x1 ls3 s) ∧
    inbf (brelse b) k1 (with_ip ip x1 ls3 s) = Done tt k4 (with_ip ip x1 ls4 s) ∧ held k4 = [] ∧
    round r off p s x (with_ip ip x1 ls4 s) x1.
Proof.
  intros x bn Hip Hin Hk Hok Hx Hoff Hmax Hc Hp. assert (H0 : 0 ≤ bn) by (by apply Z.div_pos).
  destruct (dslot_lt bn ltac:(lia)) as [D1 D2]. set (j := dslot bn) in *.
  destruct (bmap_spec r s k ip bn) as (k1 & ls1 & x1 & E1 & Hk1 & Hin1 & [G1 N1 O1 B1] & L1 & X1); try done.
  fold x in E1, Hin1, G1, N1, O1, B1, L1, X1. fold j in E1, N1, O1, L1, X1.
  set (s1 := with_ip ip x1 ls1 s) in *. set (a := slot s1 x1 j) in *. pose proof (gr_fs _ _ _ _ G1) as Hok1.
  pose proof (gr_file _ _ _ _ G1) as Hx1. destruct (fk_slot _ _ Hx1 j D1 N1) as [Ha _]. fold a in Ha.
  assert (Hr1 : 1 ≤ r - map_cost s x bn) by (destruct Hc; lia).
  pose proof (fview_length _ s1 a Hin1) as Hlen.
  destruct (update_block [] (r - map_cost s x bn) s1 k1 a
    (λ d, splice d (Z.to_nat (off mod BSIZE)) p) Hin1 Hr1) as
    (b & ls2 & ls3 & k4 & ls4 & E2 & _ & E3 & E4 & Hk4 & Hin4 & _ & S4 & V4);
    try done; [simpl; lia|by apply data_home|auto with xv6| |].
  { rewrite length_splice; [done|]. rewrite Hlen. pose proof (Z.mod_pos_bound off BSIZE ltac:(done)). lia. }
  destruct (rewrite_grown s1 x1 (set_lg ls4 s1) j _ Hok1 Hx1 D1 D2 N1 S4 V4) as [G4 F4].
  pose proof (rewrite_slot s1 x1 (set_lg ls4 s1) j _ Hx1 D1 D2 N1 V4) as R4.
  exists a, k1, ls1, x1, b, ls2, ls3, k4, ls4. change (with_ip ip x1 ls4 s) with (set_lg ls4 s1).
  split_and!; try done; [by apply E3|]. split; try done; fold bn; fold j.
  - by eapply grown_file_trans.
  - by rewrite R4.
  - intros i Hi Hij Hin'. rewrite R4 by done. by apply O1.
  - intros i Hi. rewrite (block_overwrites s1 x1 (set_lg ls4 s1) off p) by done.
    case_decide; [done|by apply B1].
  - by rewrite F4.
Qed.

Lemma writei_loop_spec : ∀ fuel r off n tot src k s, let x := thei ip s in let m := n - tot in
  (ip < length (icache s))%nat → in_txn [] r (lg s) → held k = [] → fs_ok s → file_ok s x →
  0 ≤ off → 0 ≤ m → off + m ≤ MAXFILE * BSIZE → Z.of_nat (length src) = m →
  write_cost s x (touched off m) ≤ r → (write_need s x (touched off m) ≤ length (frees s))%nat →
  enough fuel off m →
  ∃ k' ls x', writei_loop fuel ip off n tot src k s = Done (off + m) k' (with_ip ip x' ls s) ∧
    held k' = [] ∧ wrote r off m src s x (with_ip ip x' ls s) x'.
Proof.
  induction fuel as [|f IH]; intros r off n tot src k s x m Hip Hin Hk Hok Hx Hoff Hm Hmax Hsrc Hr Hfr Hf;
    [unfold enough in Hf; lia|]. cbn [writei_loop].
  destruct (Z.ltb_spec tot n) as [Hlt|Hge]; cycle 1.
  { assert (m = 0) as Em by lia. rewrite Em in *. destruct src; [|simpl in Hsrc; lia].
    exists k, (lg s), x. assert (Hp : with_ip ip x (lg s) s = s) by (unfold x; rewrite with_ip_self; by destruct s).
    rewrite !Hp, Z.add_0_r. split_and!; try done. by apply wrote_nil. }
  change (Z.min (n - tot) (BSIZE - off mod BSIZE)) with (chunk off m). set (c := chunk off m).
  destruct (piece_range off m ltac:(lia)) as [Hc Hcb]. fold c in Hc, Hcb.
  pose proof (touched_step off m ltac:(lia)) as Et. fold c in Et. rewrite Et in Hr, Hfr.
  simpl in Hr, Hfr. pose proof (write_cost_nonneg s x (touched (off + c) (m - c))) as Hnn.
  assert (Hlp : Z.of_nat (length (take (Z.to_nat c) src)) = c) by (rewrite length_take; lia).
  destruct (write_round r s k off (take (Z.to_nat c) src)) as
    (a & k1 & ls1 & x1 & b & ls2 & ls3 & k4 & ls4 & E1 & E2 & E3 & E4 & Hk4 & R4);
    try done; [apply Z.div_lt_upper_bound; [done|lia]| |lia|].
  { fold x. split; [lia|]. intros Ee. rewrite Ee in Hfr. lia. }
  fold x in R4. set (s4 := with_ip ip x1 ls4 s) in *. assert (T4 : thei ip s4 = x1) by (by apply thei_with_ip).
  destruct (round_cost _ _ m _ _ _ _ _ Hoff ltac:(lia) Hmax R4) as [Ec Enn]. fold c in Ec, Enn.
  pose proof (rd_frees _ _ _ _ _ _ _ R4) as L4. pose proof (rd_grown _ _ _ _ _ _ _ R4) as G4.
  destruct (IH (r - map_cost s x (off / BSIZE) - 1) (off + c) n (tot + c) (drop (Z.to_nat c) src) k4 s4)
    as (k5 & ls5 & x5 & E5 & Hk5 & W5); rewrite ?T4;
    replace (n - (tot + c)) with (m - c) in * by lia; try done; try lia; try apply G4; try apply R4.
  { simpl. by rewrite length_insert. }
  { rewrite length_drop. lia. }
  { unfold enough in *. rewrite Et in Hf. simpl in Hf. lia. }
  rewrite T4 in W5. unfold s4 in E5 at 2. unfold s4 in W5 at 2. rewrite with_ip_with_ip in E5, W5.
  exists k5, ls5, x5. split_and!; try done; [|by eapply wrote_cons; try lia].
  mb E1. mb (gets_eq (thei ip) k1 (with_ip ip x1 ls1 s)). rewrite thei_with_ip by done.
  rewrite (fk_dev _ _ (gr_file _ _ _ _ G4)). mb E2.
  rewrite (bind_assoc_Done _ _ _ _ _ _ _ _ E3). mb E4. rewrite E5. f_equal. lia.
Qed.

(** What writei leaves. *)
Record write_done (off n : Z) (src : list Z) (s : fsstate) (s' : fsstate) : Prop := WriteDone {
  wd_fs : fs_ok s';
  wd_file : file_ok s' (thei ip s');
  wd_size : i_size (thei ip s') = Z.max (i_size (thei ip s)) (off + n);
  wd_inode : thei ip s' = iset_size (i_size (thei ip s')) (iset_addrs (i_addrs (thei ip s')) (thei ip s));
  wd_bytes : overwrites off src s (thei ip s) s' (thei ip s');
  wd_others : ∀ b, foreign s (thei ip s) b → fview s' b = fview s b;
  wd_inodes : ∀ inum, 0 ≤ inum < nin s → inum ≠ i_inum (thei ip s) →
    disk_inode s' inum = disk_inode s inum;
  wd_disk : disk_inode s (i_inum (thei ip s)) = dinode_of (thei ip s) →
    disk_inode s' (i_inum (thei ip s)) = dinode_of (thei ip s');
  wd_cache : ∀ j, j ≠ ip → thei j s' = thei j s;
  wd_len : length (icache s') = length (icache s)
}.

(** The range ends inside the file: nothing was allocated, the inode is as it was. *)
Lemma write_inside r off n src s ls x' : let x := thei ip s in let s' := with_ip ip x' ls s in
  (ip < length (icache s))%nat → fs_ok s → file_ok s x → 0 ≤ off → 0 < n → off + n ≤ i_size x →
  wrote r off n src s x s' x' → write_done off n src s s'.
Proof.
  intros x s' Hip Hok Hx Hoff Hn Hsz [W1 W2 W3 W4 W5].
  assert (T : thei ip s' = x') by (by apply thei_with_ip).
  assert (x' = x) as ->.
  { apply W5. intros bn Hbn. apply elem_of_touched in Hbn as [H1 H2]; [|done].
    apply Z.eqb_neq. apply (fk_full _ _ Hx); [|lia].
    transitivity (off / BSIZE); [by apply Z.div_pos|done]. }
  split; rewrite ?T; fold x; try done; try lia.
  - exact (gr_fs _ _ _ _ W2).
  - exact (gr_file _ _ _ _ W2).
  - exact (gr_inode _ _ _ _ W2).
  - intros b Hb. by apply (gr_foreign _ _ _ _ W2).
  - intros inum Hi _. unfold disk_inode. rewrite (gr_meta _ _ _ _ W2); [done|]. by apply IBLOCK_meta.
  - unfold disk_inode. rewrite (gr_meta _ _ _ _ W2); [done|]. apply IBLOCK_meta; [done|apply Hx].
  - intros j Hj. apply thei_with_ip_ne. congruence.
  - apply length_insert.
Qed.

(** The range ends behind the file: the size is raised and the inode written. *)
Lemma write_behind r off n src s k ls x' : let x := thei ip s in
  (ip < length (icache s))%nat → fs_ok s → file_ok s x → held k = [] → 0 ≤ off ≤ i_size x → 0 < n →
  i_size x < off + n → off + n ≤ MAXFILE * BSIZE → 1 + write_cost s x (touched off n) ≤ r →
  wrote r off n src s x (with_ip ip x' ls s) x' →
  ∃ k' s', iupdate ip k (with_ip ip (iset_size (off + n) x') ls s) = Done tt k' s' ∧ held k' = [] ∧
    in_txn [] (r - write_cost s x (touched off n) - 1) (lg s') ∧ write_done off n src s s'.
Proof.
  intros x Hip Hok Hx Hk Hoff Hn Hsz Hmax Hr [W1 W2 W3 W4 _].
  set (s1 := with_ip ip x' ls s) in *. set (x2 := iset_size (off + n) x'). set (s2 := with_ip ip x2 ls s).
  pose proof (gr_inode _ _ _ _ W2) as Ex. pose proof (grown_sblock _ _ _ _ Hok W2) as Es.
  assert (T2 : thei ip s2 = x2) by (by apply thei_with_ip).
  assert (Ei : i_inum x2 = i_inum x) by (unfold x2; rewrite Ex; done).
  pose proof (gr_fs _ _ _ _ W2) as Hok1. pose proof (gr_file _ _ _ _ W2) as Hx1.
  assert (Hx2 : file_ok s1 x2).
  { apply file_ok_grow; [done|lia|]. intros bn H1 H2. destruct (Z.lt_ge_cases bn (off / BSIZE)).
    - apply (fk_full _ _ Hx1); [done|]. rewrite Ex. simpl. fold x.
      pose proof (Z.mul_div_le off BSIZE ltac:(done)). change BSIZE with 512 in *. lia.
    - apply W4. apply touched_elem; lia. }
  pose proof (fk_inum _ _ Hx1) as Hi1. assert (Ei1 : i_inum x' = i_inum x) by (rewrite Ex; done).
  rewrite Ei1 in Hi1. pose proof (IBLOCK_meta s1 (i_inum x) Hok1 Hi1) as HI.
  pose proof (BBLOCK_0 s1 Hok1) as HB.
  destruct (iupdate_run (r - write_cost s x (touched off n)) s2 k ip W1) as
    (k3 & ls3 & E3 & Hk3 & Hin3 & S3 & V3); rewrite ?T2; try done; [lia|apply Hx2| |].
  { rewrite Ei. apply (meta_home s1); [done|lia]. }
  rewrite T2, Ei in V3. change (fview s2) with (fview s1) in V3.
  exists k3, (set_lg ls3 s2). split; [exact E3|]. split; [done|]. split; [done|].
  destruct (meta_write s1 x2 (set_lg ls3 s2) (i_inum x) Hok1 Hx2 S3 Hi1) as (M1 & M2 & M3 & M4 & M5).
  { intros b Hb. rewrite V3. by rewrite decide_False. }
  destruct (iupdate_disk s1 (set_lg ls3 s2) (i_inum x) (dinode_of x2)) as [D1 D2];
    [by eapply fview_length|lia|apply Hx2|done|].
  change (thei ip (set_lg ls3 s2)) with (thei ip s2).
  assert (Et : thei ip (set_lg ls3 s2) = x2) by exact T2.
  split; rewrite ?Et; try done.
  - simpl. fold x. lia.
  - unfold x2. simpl. rewrite Ex at 1. done.
  - intros i Hi. rewrite M4 by done. apply (W3 i Hi).
  - intros b Hb. destruct (gr_foreign _ _ _ _ W2 b Hb) as [F1 F2]. rewrite M5; done.
  - intros inum H1 H2. rewrite D2 by (done || lia). unfold disk_inode.
    rewrite (gr_meta _ _ _ _ W2); [done|]. by apply IBLOCK_meta.
  - intros j Hj. apply (thei_with_ip_ne ip x2 ls). congruence.
  - apply length_insert.
Qed.

(** What writei needs: the file is a file, the range is one the file can hold, and
    there is room in the log and on the disk for what the range can take. *)
Record can_write (r off n : Z) (src : list Z) (s : fsstate) : Prop := CanWrite {
  cw_ip : (ip < length (icache s))%nat;
  cw_txn : in_txn [] r (lg s);
  cw_fs : fs_ok s;
  cw_file : file_ok s (thei ip s);
  cw_type : i_type (thei ip s) ≠ T_DEV;
  cw_off : 0 ≤ off ≤ i_size (thei ip s);
  cw_n : 0 < n ∧ off + n ≤ MAXFILE * BSIZE;
  cw_src : Z.of_nat (length src) = n;
  cw_log : 1 + write_cost s (thei ip s) (touched off n) ≤ r;
  cw_free : (write_need s (thei ip s) (touched off n) ≤ length (frees s))%nat
}.

Lemma writei_spec r off n src k s : can_write r off n src s → held k = [] →
  ∃ k' s', writei dsw ip src off n k s = Done n k' s' ∧ held k' = [] ∧
    in_txn [] (r - write_cost s (thei ip s) (touched off n) - 1) (lg s') ∧ write_done off n src s s'.
Proof.
  intros [Hip Hin Hok Hx Hty Hoff [Hn Hmax] Hsrc Hlog Hfr] Hk. set (x := thei ip s) in *.
  assert (Hlim : MAXFILE * BSIZE < 2 ^ 32) by done.
  destruct (writei_loop_spec (io_fuel n) r off n 0 src k s) as (k1 & ls1 & x1 & E1 & Hk1 & W); try done;
    rewrite ?Z.sub_0_r in *; try done; try lia; try (fold x; lia).
  { apply enough_io; lia. }
  fold x in W. unfold writei. mb (gets_eq (thei ip) k s). fold x.
  destruct (Z.eqb_spec (i_type x) T_DEV); [done|]. rewrite bad_range_eq by lia. unfold bad_range.
  destruct (Z.gtb_spec off (i_size x)); [lia|]. destruct (Z.leb_spec (2 ^ 32) (off + n)); [lia|]. cbn [orb].
  destruct (Z.gtb_spec (off + n) (MAXFILE * BSIZE)); [lia|]. mb E1.
  mb (gets_eq (thei ip) k1 (with_ip ip x1 ls1 s)). rewrite thei_with_ip by done.
  assert (Ez : i_size x1 = i_size x) by (rewrite (gr_inode _ _ _ _ (wr_grown _ _ _ _ _ _ _ _ W)); done).
  rewrite Ez. destruct (Z.gtb_spec n 0); [|lia]. cbn [andb].
  destruct (Z.gtb_spec (off + n) (i_size x)).
  - destruct (write_behind r off n src s k1 ls1 x1) as (k2 & s2 & E2 & Hk2 & Hin2 & D); try done.
    exists k2, s2. split_and!; try done. erewrite bind_Done; [reflexivity|].
    mb (modify_eq (updi ip (iset_size (off + n))) k1 (with_ip ip x1 ls1 s)).
    assert (Eu : updi ip (iset_size (off + n)) (with_ip ip x1 ls1 s) = with_ip ip (iset_size (off + n) x1) ls1 s).
    { unfold updi. rewrite thei_with_ip by done. unfold with_ip, set_icache. simpl. by rewrite list_insert_insert_eq. }
    rewrite Eu. exact E2.
  - exists k1, (with_ip ip x1 ls1 s). split_and!; try done.
    + by eapply in_txn_weaken; [apply W|lia].
    + eapply write_inside; try done; lia.
Qed.
End writei.

(** ** The theorems *)

(** Another file, none of whose blocks belong to [x]. *)
Definition apart_files (s : fsstate) (x y : inode) : Prop :=
  ∀ i j, (i < NSLOT)%nat → (j < NSLOT)%nat → slot s y j ≠ 0 → slot s x i ≠ slot s y j.

Lemma foreign_file s x y j : file_ok s y → apart_files s x y → (j < NSLOT)%nat → slot s y j ≠ 0 →
  foreign s x (slot s y j).
Proof.
  intros Hy Ha Hj Hz. destruct (fk_slot _ _ Hy j Hj Hz) as [H1 H2]. split; [done|]. split; [done|].
  intros i Hi. by apply Ha.
Qed.

Lemma other_file s x y s' i : file_ok s y → apart_files s x y →
  (∀ b, foreign s x b → fview s' b = fview s b) → 0 ≤ i < MAXFILE * BSIZE →
  fbyte s' y i = fbyte s y i.
Proof.
  intros Hy Ha V Hi. pose proof (block_lt i ltac:(lia)) as Hbn.
  destruct (dslot_lt _ Hbn) as [D1 D2].
  assert (Hs : slot s' y (dslot (i / BSIZE)) = slot s y (dslot (i / BSIZE))).
  { unfold slot. destruct (decide (_ < 13)%nat); [done|].
    destruct (Z.eqb_spec ((i_addrs y).[INDIRECT]) 0) as [|Hz]; [done|]. f_equal.
    apply V. apply (foreign_file s x y INDIRECT); try done. unfold INDIRECT, NSLOT. lia. }
  unfold fbyte. rewrite Hs. destruct (Z.eqb_spec (slot s y (dslot (i / BSIZE))) 0); [done|].
  rewrite V; [done|]. by apply foreign_file.
Qed.

Lemma overwritten off src s x s' x' : 0 ≤ off → off + Z.of_nat (length src) ≤ MAXFILE * BSIZE →
  overwrites off src s x s' x' → fbytes s' x' off (Z.of_nat (length src)) = src.
Proof.
  intros Hoff Hmax H. apply (nthz_ext 0); unfold fbytes.
  - rewrite length_fmap, length_seqZ. lia.
  - rewrite length_fmap, length_seqZ. intros i Hi. unfold nthz at 1.
    rewrite list_lookup_fmap, lookup_seqZ_lt by lia. simpl. rewrite H by lia.
    rewrite decide_True by lia. f_equal. lia.
Qed.

(** Readi of a file, inside a transaction: an offset behind the end of the
    file, or a range that wraps around, is refused; otherwise it returns the bytes of
    the file from the offset, as many as asked for or as there are, whichever their
    blocks, and neither the disk as seen through the log nor the inode cache changes. *)
Theorem readi_reads (dsw : devsw) (r : Z) (s : fsstate) (k : kctx) (ip : nat) (off n : Z) :
  let x := thei ip s in 1 ≤ r →
  (ip < length (icache s))%nat → in_txn [] r (lg s) → held k = [] → fs_ok s → file_ok s x →
  i_type x ≠ T_DEV → 0 ≤ off < 2 ^ 32 → 0 ≤ n < 2 ^ 32 →
  if bad_range x off n then readi dsw ip off n k s = Done (-1, []) k s
  else let m := Z.min n (i_size x - off) in
    ∃ k' s', readi dsw ip off n k s = Done (m, fbytes s x off m) k' s' ∧ held k' = [] ∧
      in_txn [] r (lg s') ∧ icache s' = icache s ∧ (∀ b, fview s' b = fview s b).
Proof.
  intros x Hr Hip Hin Hk Hok Hx Hty Ho Hn.
  pose proof (readi_spec dsw r ip Hr off n k s Hip Hin Hk Hok Hx Hty Ho Hn) as H. fold x in H.
  destruct (bad_range x off n); [done|]. destruct H as (k' & ls & E & Hk' & Hin' & _ & V).
  by exists k', (set_lg ls s).
Qed.

(** C5: Writei of a file, inside a transaction with room for it, returns the
    number of bytes asked for.  Afterwards the range holds the bytes written and every
    other byte of the file is what it was (zero where nothing was ever written); the
    file is still well-formed and its size is raised to the end of the range if that
    lies behind it; an inode whose disk copy was current has a current disk copy; the
    bytes of every other file, every other disk inode and the rest of the inode
    cache are unchanged. *)
Theorem writei_writes (dsw : devsw) (r : Z) (s : fsstate) (k : kctx) (ip : nat) (src : list Z) (off n : Z) :
  can_write ip r off n src s → held k = [] →
  ∃ k' s', writei dsw ip src off n k s = Done n k' s' ∧ held k' = [] ∧
    in_txn [] (r - write_cost s (thei ip s) (touched off n) - 1) (lg s') ∧
    write_done ip off n src s s' ∧
    (∀ y i, file_ok s y → apart_files s (thei ip s) y → 0 ≤ i < MAXFILE * BSIZE →
       fbyte s' y i = fbyte s y i).
Proof.
  intros Hc Hk. destruct (writei_spec dsw ip r off n src k s Hc Hk) as (k' & s' & E & Hk' & Hin & D).
  exists k', s'. split_and!; try done. intros y i Hy Ha Hi.
  apply (other_file s (thei ip s)); try done. apply D.
Qed.

(** C6: What writei writes, readi reads: reading the range just written returns
    exactly the bytes given to writei, through direct and indirect blocks, newly
    allocated or not. *)
Theorem write_then_read (dsw : devsw) (r : Z) (s : fsstate) (k : kctx) (ip : nat) (src : list Z) (off n : Z) :
  can_write ip r off n src s → held k = [] → 2 + write_cost s (thei ip s) (touched off n) ≤ r →
  ∃ k' s', (w ← writei dsw ip src off n; p ← readi dsw ip off n; mret (w, p)) k s =
    Done (n, (n, src)) k' s'.
Proof.
  intros Hc Hk Hr. destruct (writei_spec dsw ip r off n src k s Hc Hk) as (k1 & s1 & E1 & Hk1 & Hin1 & D).
  destruct Hc as [Hip Hin Hok Hx Hty Hoff [Hn Hmax] Hsrc _ _].
  pose proof (wd_size _ _ _ _ _ _ D) as Hsz. assert (Hlim : MAXFILE * BSIZE < 2 ^ 32) by done.
  pose proof (readi_spec dsw (r - write_cost s (thei ip s) (touched off n) - 1) ip ltac:(lia) off n k1 s1) as R. cbv zeta in R.
  assert (Eb : bad_range (thei ip s1) off n = false).
  { unfold bad_range. rewrite Hsz. apply orb_false_iff. split; [rewrite Z.gtb_ltb|]; zcases; lia. }
  rewrite Eb in R. destruct R as (k2 & ls2 & E2 & _); try done; try lia; try apply D.
  - by rewrite (wd_len _ _ _ _ _ _ D).
  - rewrite (wd_inode _ _ _ _ _ _ D). done.
  - rewrite Z.min_l in E2 by lia. exists k2, (set_lg ls2 s1). mb E1. mb E2.
    pose proof (wd_bytes _ _ _ _ _ _ D) as W. apply overwritten in W; [|lia|lia].
    rewrite Hsrc in W. by rewrite W.
Qed.

(** ** A file of two blocks *)

Definition demo_inode (ty sz : Z) : inode := Inode ROOTDEV 9 1 3 ty 0 0 1 sz (31 :: 32 :: replicate 11 0).
Definition demo_file : inode := demo_inode T_FILE 700.
Definition no_devices : devsw := Devsw (λ _, None) (λ _, None).

Lemma two_elements {A} (l : list A) a b : a ≠ b → a ∈ l → b ∈ l → (2 ≤ length l)%nat.
Proof.
  intros Hne Ha Hb. change 2%nat with (length [a; b]). apply submseteq_length, NoDup_submseteq.
  - repeat constructor; set_solver.
  - intros c Hc. set_solver.
Qed.

Section demo.
Context (s : fsstate) (Es : lg s = lg demo_fs).

Lemma demo_view b : fview s b = fview demo_fs b.
Proof. unfold fview. by rewrite Es. Qed.

Lemma demo_layout : sblock s = Superblock 1000 0 200 30 ∧ nin s = 200 ∧ data0 s = 29 ∧
  start (lg s) = 970 ∧ ∀ b, used s b = in_use demo_fs 200 b.
Proof.
  assert (E : sblock s = Superblock 1000 0 200 30) by (unfold sblock; rewrite demo_view; exact demo_sblock).
  assert (En : nin s = 200) by (unfold nin; by rewrite E).
  split; [done|]. split; [done|]. split; [unfold data0; rewrite E, En; reflexivity|].
  split; [by rewrite Es|]. intros b. unfold used, in_use. by rewrite En, demo_view.
Qed.

Lemma demo_used b : 0 ≤ b < 40 → used s b = true.
Proof.
  destruct demo_layout as (_ & _ & _ & _ & Eu). rewrite Eu. apply (ff_least _ _ _ _ demo_first_free).
Qed.

Lemma demo_fs_layout : fs_ok s.
Proof.
  destruct demo_layout as (E & En & Ed & El & Eu). split; rewrite ?E, ?En, ?Ed, ?El; simpl; try lia.
  intros b Hb. apply demo_used. lia.
Qed.

Lemma demo_slot ty sz j : slot s (demo_inode ty sz) j = (31 :: 32 :: replicate 11 0).[j].
Proof.
  unfold slot. destruct (decide (j < 13)%nat); [done|].
  transitivity 0; [done|]. symmetry. apply nthz_default. simpl. lia.
Qed.

Lemma demo_slot_cases ty sz j : (j = 0%nat ∧ slot s (demo_inode ty sz) j = 31) ∨
  (j = 1%nat ∧ slot s (demo_inode ty sz) j = 32) ∨ slot s (demo_inode ty sz) j = 0.
Proof.
  rewrite demo_slot. destruct j as [|[|j]]; [by left|by right; left|right; right].
  exact (nthz_replicate 0 11 j).
Qed.

Lemma demo_file_ok ty sz : 0 ≤ ty < 10 → 0 ≤ sz ≤ 1024 → file_ok s (demo_inode ty sz).
Proof.
  intros Ht Hsz. destruct demo_layout as (_ & En & Ed & El & _). pose proof demo_used as Eu.
  split; rewrite ?En, ?Ed, ?El.
  - done.
  - done.
  - split; simpl; try lia.
    intros j. do 13 (destruct j as [|j]; [unfold nthz; simpl; lia|]). unfold nthz. simpl. lia.
  - intros j _ Hz. destruct (demo_slot_cases ty sz j) as [[_ H]|[[_ H]|H]]; [| |done];
      rewrite H; (split; [lia|apply Eu; lia]).
  - intros i j _ _ Hz. destruct (demo_slot_cases ty sz i) as [[-> H]|[[-> H]|H]]; [| |done]; rewrite H;
      destruct (demo_slot_cases ty sz j) as [[-> H']|[[-> H']|H']]; rewrite H'; done.
  - simpl. change (MAXFILE * BSIZE) with 71680. lia.
  - intros bn H1 H2. cbn [i_size demo_inode] in H2. change BSIZE with 512 in H2.
    assert (bn = 0 ∨ bn = 1) as [-> | ->] by lia; by rewrite demo_slot.
Qed.

Lemma demo_frees : (2 ≤ length (frees s))%nat.
Proof.
  destruct demo_layout as (_ & _ & _ & El & Eu).
  assert (H : ∀ b, b = 40 ∨ b = 41 → b ∈ frees s).
  { intros b Hb. unfold frees. apply list_elem_of_filter. rewrite Eu, elem_of_seqZ, El. split; [|lia].
    rewrite demo_in_use by lia. destruct Hb as [-> | ->]; vm_compute; reflexivity. }
  apply (two_elements _ 40 41); [lia|apply H; by left|apply H; by right].
Qed.

Lemma demo_can_write ty sz off n src : thei 0 s = demo_inode ty sz → (0 < length (icache s))%nat →
  0 ≤ ty < 10 → ty ≠ T_DEV → 0 ≤ sz ≤ 1024 → 0 ≤ off ≤ sz → 0 < n → off + n ≤ 1536 →
  Z.of_nat (length src) = n → 1 + write_cost s (demo_inode ty sz) (touched off n) ≤ 10 →
  (write_need s (demo_inode ty sz) (touched off n) ≤ 2)%nat → can_write 0 10 off n src s.
Proof.
  intros Et Hl Ht Hd Hsz Hoff Hn Hmax Hsrc Hc Hf. pose proof demo_frees.
  split; rewrite ?Et; try done; try lia.
  - rewrite Es. exact (proj1 demo_fs_ok).
  - exact demo_fs_layout.
  - by apply demo_file_ok.
  - change (MAXFILE * BSIZE) with 71680. lia.
Qed.
End demo.

Lemma demo_write_400 : can_write 0 10 700 400 (replicate 400 7) demo_valid_fs ∧
  write_cost demo_valid_fs demo_file (touched 700 400) = 7.
Proof.
  assert (Hc : write_cost demo_valid_fs demo_file (touched 700 400) = 7 ∧
    write_need demo_valid_fs demo_file (touched 700 400) = 2%nat).
  { change (touched 700 400) with [1; 2]. cbn [write_cost write_need]. unfold map_cost, empty, demo_file.
    rewrite !demo_slot. split; reflexivity. }
  split; [|apply Hc]. apply (demo_can_write demo_valid_fs eq_refl T_FILE 700); try lia; try done.
  - simpl. lia.
Qed.

Lemma readi_reads_witness :
  ∃ k' s', readi no_devices 0 600 200 (Kctx [] []) demo_valid_fs =
    Done (100, fbytes demo_valid_fs demo_file 600 100) k' s'.
Proof.
  pose proof (readi_reads no_devices 10 demo_valid_fs (Kctx [] []) 0 600 200) as H. cbv zeta in H.
  change (thei 0 demo_valid_fs) with demo_file in H.
  destruct H as (k' & s' & E & _).
  - lia.
  - simpl. lia.
  - exact (proj1 demo_fs_ok).
  - reflexivity.
  - exact (demo_fs_layout demo_valid_fs eq_refl).
  - apply (demo_file_ok demo_valid_fs eq_refl); vm_compute; split; (discriminate || reflexivity).
  - discriminate.
  - lia.
  - lia.
  - by exists k', s'.
Defined.

Lemma writei_writes_witness :
  ∃ k' s', writei no_devices 0 (replicate 400 7) 700 400 (Kctx [] []) demo_valid_fs = Done 400 k' s' ∧
    i_size (thei 0 s') = 1100.
Proof.
  destruct (writei_writes no_devices 10 demo_valid_fs (Kctx [] []) 0 (replicate 400 7) 700 400
    (proj1 demo_write_400) eq_refl) as (k' & s' & E & _ & _ & D & _).
  exists k', s'. split; [exact E|]. rewrite (wd_size _ _ _ _ _ _ D). reflexivity.
Defined.

Lemma write_then_read_witness :
  ∃ k' s', (w ← writei no_devices 0 (replicate 400 7) 700 400; p ← readi no_devices 0 700 400;
    mret (w, p)) (Kctx [] []) demo_valid_fs = Done (400, (400, replicate 400 7)) k' s'.
Proof.
  apply (write_then_read no_devices 10 demo_valid_fs (Kctx [] []) 0 (replicate 400 7) 700 400
    (proj1 demo_write_400) eq_refl).
  change (thei 0 demo_valid_fs) with demo_file. rewrite (proj2 demo_write_400). vm_compute. discriminate.
Defined.
