(* ===== verification/FsDir.v ===== *)
(** * Directories: dirlookup and dirlink

    A directory is the list of the 16-byte entries its content spells.  dirlookup
    finds the first live entry of the name; dirlink fills the first free entry, or
    appends one, and leaves the others alone; afterwards the name is found. *)

From stdpp Require Import base gmap list strings.
From Stdlib Require Import ZArith Lia Permutation.
From S2P Require Import Prelude Params Kmonad Console Bio BioSpec BioInit Log LogSpec LogCrash.
From S2P Require Import LogOps Fs FsTxn FsAlloc FsFree FsInode FsFile FsRw.

Implicit Types (s : fsstate) (k : kctx) (x : inode).

(** ** Entries *)

(** The number of entries of a directory, its [i]-th entry, and all of them. *)
Definition nents (x : inode) : nat := Z.to_nat (i_size x / DIRENT).
Definition dirent_at (s : fsstate) (x : inode) (i : nat) : dirent :=
  get_dirent (fbytes s x (DIRENT * Z.of_nat i) DIRENT).
Definition dirents (s : fsstate) (x : inode) : list dirent := dirent_at s x <$> seq 0 (nents x).

(** A directory: a well-formed file of whole entries. *)
Record dir_ok (s : fsstate) (x : inode) : Prop := DirOk {
  dk_file : file_ok s x;
  dk_type : i_type x = T_DIR;
  dk_size : i_size x = DIRENT * Z.of_nat (nents x)
}.

(** The name an entry or a caller means: its bytes before a zero, 14 at most. *)
Fixpoint cname (n : nat) (l : list Z) : list Z :=
  match n, l with
  | S n', c :: l' => if c =? 0 then [] else c :: cname n' l'
  | _, _ => []
  end.

(** A live entry of the name, and a free one. *)
Definition names (name : list Z) (de : dirent) : Prop :=
  de_inum de ≠ 0 ∧ cname DIRSIZ (de_name de) = cname DIRSIZ name.
#[export] Instance names_dec name de : Decision (names name de).
Proof. unfold names. apply _. Defined.
Definition unused (de : dirent) : Prop := de_inum de = 0.
#[export] Instance unused_dec de : Decision (unused de).
Proof. unfold unused. apply _. Defined.

Lemma strncmp_cname n : ∀ p q, strncmp_l n p q = 0 ↔ cname n p = cname n q.
Proof.
  induction n as [|n IH]; intros p q; [done|]. cbn [strncmp_l].
  destruct p as [|a p], q as [|b q]; cbn [cname]; unfold nthz; cbn [lookup list_lookup default drop id]; rewrite ?drop_0.
  - done.
  - destruct (Z.eqb_spec b 0) as [->|Hb]; [done|]. simpl. split; [lia|done].
  - destruct (Z.eqb_spec a 0) as [->|Ha]; simpl; [done|]. split; [lia|done].
  - destruct (Z.eqb_spec a 0) as [->|Ha]; simpl.
    + destruct (Z.eqb_spec b 0) as [->|Hb]; [done|]. split; [lia|done].
    + destruct (Z.eqb_spec a b) as [<-|Hab].
      * destruct (Z.eqb_spec a 0); [done|]. rewrite IH. split; [by intros ->|by intros [= ->]].
      * split; [lia|]. destruct (b =? 0); [done|]. by intros [= -> _].
Qed.

Lemma names_namecmp name de : names name de ↔
  (de_inum de =? 0) = false ∧ (namecmp name (de_name de) =? 0) = true.
Proof.
  unfold names, namecmp. rewrite Z.eqb_neq, Z.eqb_eq, strncmp_cname.
  split; intros [H1 H2]; split; done.
Qed.

(** ** Looking an entry up *)

(** A run that only read: the view of the disk is the same. *)
Record quiet (r : Z) (s : fsstate) (ls : logstate) : Prop := Quiet {
  qt_txn : in_txn [] r ls;
  qt_log : same_log (lg s) ls;
  qt_view : ∀ b, fview (set_lg ls s) b = fview s b
}.

Lemma quiet_refl r s : in_txn [] r (lg s) → quiet r s (lg s).
Proof. by split. Qed.

Lemma quiet_trans r s l1 l2 : quiet r s l1 → quiet r (set_lg l1 s) l2 → quiet r s l2.
Proof.
  intros [Q1 Q2 Q3] [R1 R2 R3]. split; [done|by eapply same_log_trans|].
  intros b. transitivity (fview (set_lg l1 s) b); [exact (R3 b)|apply Q3].
Qed.

Lemma quiet_fs r s x ls : fs_ok s → dir_ok s x → quiet r s ls →
  fs_ok (set_lg ls s) ∧ dir_ok (set_lg ls s) x ∧ (∀ i, dirent_at (set_lg ls s) x i = dirent_at s x i) ∧
  frees (set_lg ls s) = frees s.
Proof.
  intros Hok [D1 D2 D3] [_ Q2 Q3]. destruct (file_same s x (set_lg ls s) Hok D1 Q3 Q2) as [H1 H2].
  destruct (same_view_fs s (set_lg ls s) Q3 (sl_start _ _ Q2)) as (_ & _ & _ & _ & Hf & _).
  split_and!; try done. intros i. unfold dirent_at. by rewrite (fbytes_view s).
Qed.

Lemma nents_lt s x i : dir_ok s x → (i < nents x)%nat ↔ DIRENT * Z.of_nat i < i_size x.
Proof. intros [_ _ D3]. rewrite D3. change DIRENT with 16. lia. Qed.

Lemma dirents_drop s x i : (i < nents x)%nat →
  drop i (dirents s x) = dirent_at s x i :: drop (S i) (dirents s x).
Proof.
  intros Hi. apply drop_S. unfold dirents. rewrite list_lookup_fmap.
  rewrite lookup_seq_lt by done. done.
Qed.

Lemma length_dirents s x : length (dirents s x) = nents x.
Proof. unfold dirents. by rewrite length_fmap, length_seq. Qed.

Section lookup.
Context (dsw : devsw) (r : Z) (dp : nat) (name : list Z).
Hypothesis (Hr : 1 ≤ r).

Lemma read_dirent k s i : let x := thei dp s in
  (dp < length (icache s))%nat → in_txn [] r (lg s) → held k = [] → fs_ok s → dir_ok s x →
  (i < nents x)%nat →
  ∃ k' ls, readi dsw dp (DIRENT * Z.of_nat i) DIRENT k s =
    Done (DIRENT, fbytes s x (DIRENT * Z.of_nat i) DIRENT) k' (set_lg ls s) ∧ held k' = [] ∧ quiet r s ls.
Proof.
  intros x Hdp Hin Hk Hok Hd Hi. pose proof (proj1 (nents_lt _ _ _ Hd) Hi) as Hlt.
  destruct Hd as [D1 D2 D3]. pose proof (fk_size _ _ D1) as Hmax.
  change DIRENT with 16 in *. change (MAXFILE * BSIZE) with 71680 in Hmax.
  pose proof (readi_spec dsw r dp Hr (16 * Z.of_nat i) 16 k s Hdp Hin Hk Hok D1) as R. fold x in R.
  assert (Eb : bad_range x (16 * Z.of_nat i) 16 = false).
  { unfold bad_range. apply orb_false_iff. split; [rewrite Z.gtb_ltb|]; zcases; lia. }
  rewrite Eb in R. destruct R as (k' & ls & E & Hk' & Hin' & Sl & V); [by rewrite D2|lia|lia|].
  rewrite Z.min_l in E by lia. by exists k', ls.
Qed.

(** What remains once the search has ended. *)
Definition found_at (i : nat) (o : option (nat * dirent)) : M fsstate (option (nat * Z)) :=
  match o with
  | Some (j, de) => ip ← iget ROOTDEV (de_inum de); mret (Some (ip, DIRENT * Z.of_nat (i + j)))
  | None => mret None
  end.

Lemma found_at_S i o : found_at i (prod_map S id <$> o) = found_at (S i) o.
Proof. destruct o as [[j de]|]; [|done]. simpl. by replace (i + S j)%nat with (S (i + j)) by lia. Qed.

(** The body of the loop, by whether the entry is one of the name. *)
Lemma dirlookup_test {A} name' de (a b : A) :
  (if de_inum de =? 0 then b else if namecmp name' (de_name de) =? 0 then a else b) =
  if decide (names name' de) then a else b.
Proof.
  pose proof (names_namecmp name' de) as H. case_decide as E.
  - apply H in E as [-> ->]. done.
  - destruct (de_inum de =? 0); [done|]. destruct (namecmp _ _ =? 0); [|done]. tauto.
Qed.

(** The search from entry [i] on: the first entry of the name, if there is one. *)
Lemma dirlookup_loop_spec : ∀ fuel i k s, let x := thei dp s in
  (dp < length (icache s))%nat → in_txn [] r (lg s) → held k = [] → fs_ok s → dir_ok s x →
  (i ≤ nents x)%nat → (nents x - i < fuel)%nat →
  ∃ k' ls, held k' = [] ∧ quiet r s ls ∧
    dirlookup_loop dsw fuel dp name (DIRENT * Z.of_nat i) k s =
      found_at i (list_find (names name) (drop i (dirents s x))) k' (set_lg ls s).
Proof.
  induction fuel as [|f IH]; intros i k s x Hdp Hin Hk Hok Hd Hi Hf; [lia|]. cbn [dirlookup_loop].
  mb (gets_eq (thei dp) k s). fold x. destruct (Z.ltb_spec (DIRENT * Z.of_nat i) (i_size x)) as [Hlt|Hge].
  2: { assert (nents x = i). { destruct Hd as [_ _ D3]. change DIRENT with 16 in *. lia. }
    exists k, (lg s). split; [done|]. split; [by apply quiet_refl|].
    rewrite drop_ge by (rewrite length_dirents; lia). by destruct s. }
  apply (nents_lt _ _ _ Hd) in Hlt.
  destruct (read_dirent k s i) as (k1 & ls1 & E1 & Hk1 & Q1); try done. mb E1. cbn [fst snd].
  rewrite Z.eqb_refl. cbn [negb]. change (get_dirent _) with (dirent_at s x i).
  rewrite dirents_drop by done. cbn [list_find]. rewrite dirlookup_test.
  destruct (quiet_fs r s x ls1 Hok (Hd : dir_ok s x) Q1) as (Hok1 & Hd1 & Ed1 & _).
  destruct (decide (names name (dirent_at s x i))).
  - exists k1, ls1. split_and!; try done. rewrite (fk_dev _ _ (dk_file _ _ Hd)).
    unfold found_at. by rewrite Nat.add_0_r.
  - rewrite found_at_S. destruct (IH (S i) k1 (set_lg ls1 s)) as (k2 & ls2 & Hk2 & Q2 & E2); try done;
      try (change (thei dp (set_lg ls1 s)) with x; lia); [apply Q1|].
    exists k2, ls2. split; [done|]. split; [by eapply quiet_trans|].
    replace (DIRENT * Z.of_nat i + DIRENT) with (DIRENT * Z.of_nat (S i)) by lia. rewrite E2.
    change (thei dp (set_lg ls1 s)) with x.
    assert (Eds : dirents (set_lg ls1 s) x = dirents s x).
    { unfold dirents. apply list_fmap_ext. intros _ j _. apply Ed1. }
    by rewrite Eds.
Qed.

Lemma dirlookup_run k s : let x := thei dp s in
  (dp < length (icache s))%nat → in_txn [] r (lg s) → held k = [] → fs_ok s → dir_ok s x →
  ∃ k' ls, held k' = [] ∧ quiet r s ls ∧
    dirlookup dsw dp name k s = found_at 0 (list_find (names name) (dirents s x)) k' (set_lg ls s).
Proof.
  intros x Hdp Hin Hk Hok Hd. unfold dirlookup. mb (gets_eq (thei dp) k s). fold x.
  rewrite (dk_type _ _ Hd). cbn [Z.eqb negb].
  apply (dirlookup_loop_spec _ 0 k s); try done; [lia|]. unfold dir_fuel, nents. fold x. lia.
Qed.
End lookup.

(** ** Adding an entry *)

(** The entry dirlink fills: the first free one, or the one after the last. *)
Definition free_index (es : list dirent) : nat :=
  match list_find unused es with Some (j, _) => j | None => length es end.

(** The entries after entry [j] is set, or appended. *)
Definition set_entry (j : nat) (de : dirent) (es : list dirent) : list dirent :=
  take j es ++ de :: drop (S j) es.

(** The entry dirlink writes. *)
Definition new_entry (name : list Z) (inum : Z) : dirent := Dirent (u16 inum) (strncpy_l DIRSIZ name).

Lemma free_index_le es : (free_index es ≤ length es)%nat.
Proof.
  unfold free_index. destruct (list_find unused es) as [[j de]|] eqn:E; [|done].
  apply list_find_Some in E as (H & _). apply lookup_lt_Some in H. lia.
Qed.

Lemma length_strncpy_l n l : length (strncpy_l n l) = n.
Proof. unfold strncpy_l. rewrite length_app, length_take, length_replicate. lia. Qed.

Lemma cname_strncpy n : ∀ l, cname n (strncpy_l n l) = cname n l.
Proof.
  induction n as [|n IH]; intros l; [done|]. destruct l as [|c l].
  - reflexivity.
  - cbn [cname]. unfold strncpy_l in *. simpl. by rewrite IH.
Qed.

Lemma get_put_dirent de : 0 ≤ de_inum de < 2 ^ 16 → length (de_name de) = DIRSIZ →
  get_dirent (put_dirent de) = de.
Proof.
  intros Hi Hn. destruct de as [i nm]. simpl in *. unfold get_dirent, put_dirent. f_equal.
  - unfold get16, nthz. simpl. unfold u8, wrap. rewrite Z.shiftr_div_pow2 by lia.
    pose proof (Z.div_mod i (2 ^ 8) ltac:(lia)). rewrite (Z.mod_small (i / 2 ^ 8)); [lia|].
    split; [apply Z.div_pos; lia|apply Z.div_lt_upper_bound; lia].
  - simpl. apply take_ge. lia.
Qed.

Section scan.
Context (dsw : devsw) (r : Z) (dp : nat).
Hypothesis (Hr : 1 ≤ r).

Lemma dirlink_scan_spec : ∀ fuel i k s, let x := thei dp s in
  (dp < length (icache s))%nat → in_txn [] r (lg s) → held k = [] → fs_ok s → dir_ok s x →
  (i ≤ nents x)%nat → (nents x - i < fuel)%nat →
  ∃ k' ls, held k' = [] ∧ quiet r s ls ∧
    dirlink_scan dsw fuel dp (DIRENT * Z.of_nat i) k s =
      Done (DIRENT * Z.of_nat (i + free_index (drop i (dirents s x)))) k' (set_lg ls s).
Proof.
  induction fuel as [|f IH]; intros i k s x Hdp Hin Hk Hok Hd Hi Hf; [lia|]. cbn [dirlink_scan].
  mb (gets_eq (thei dp) k s). fold x. destruct (Z.ltb_spec (DIRENT * Z.of_nat i) (i_size x)) as [Hlt|Hge].
  2: { assert (nents x = i). { destruct Hd as [_ _ D3]. change DIRENT with 16 in *. lia. }
    exists k, (lg s). split; [done|]. split; [by apply quiet_refl|].
    rewrite drop_ge by (rewrite length_dirents; lia). rewrite Nat.add_0_r. by destruct s. }
  apply (nents_lt _ _ _ Hd) in Hlt.
  destruct (read_dirent dsw r dp Hr k s i) as (k1 & ls1 & E1 & Hk1 & Q1); try done. mb E1. cbn [fst snd].
  rewrite Z.eqb_refl. cbn [negb]. change (get_dirent _) with (dirent_at s x i).
  rewrite dirents_drop by done. unfold free_index. cbn [list_find].
  destruct (quiet_fs r s x ls1 Hok (Hd : dir_ok s x) Q1) as (Hok1 & Hd1 & Ed1 & _).
  unfold unused at 1. destruct (Z.eqb_spec (de_inum (dirent_at s x i)) 0) as [E0|E0].
  - exists k1, ls1. rewrite decide_True by done. rewrite Nat.add_0_r. by split_and!.
  - rewrite decide_False by done.
    destruct (IH (S i) k1 (set_lg ls1 s)) as (k2 & ls2 & Hk2 & Q2 & E2); try done;
      try (change (thei dp (set_lg ls1 s)) with x; lia); [apply Q1|].
    exists k2, ls2. split; [done|]. split; [by eapply quiet_trans|].
    replace (DIRENT * Z.of_nat i + DIRENT) with (DIRENT * Z.of_nat (S i)) by lia. rewrite E2.
    change (thei dp (set_lg ls1 s)) with x.
    assert (Eds : dirents (set_lg ls1 s) x = dirents s x).
    { unfold dirents. apply list_fmap_ext. intros _ j _. apply Ed1. }
    rewrite Eds. unfold free_index.
    destruct (list_find unused (drop (S i) (dirents s x))) as [[j de]|]; simpl; do 2 f_equal; lia.
Qed.
End scan.

(** Reading first changes neither what a write needs nor what it does. *)
Section quietly.
Context (r : Z) (s : fsstate) (ls : logstate) (Q : quiet r s ls).

Lemma slot_quiet x j : slot (set_lg ls s) x j = slot s x j.
Proof. unfold slot. by rewrite (qt_view _ _ _ Q). Qed.

Lemma can_write_quiet ip off n src : can_write ip r off n src s → can_write ip r off n src (set_lg ls s).
Proof.
  intros [C1 C2 C3 C4 C5 C6 C7 C8 C9 C10]. destruct Q as [Q1 Q2 Q3].
  destruct (same_view_fs s (set_lg ls s) Q3 (sl_start _ _ Q2)) as (_ & _ & _ & _ & Ef & _).
  destruct (file_same s (thei ip s) (set_lg ls s) C3 C4 Q3 Q2) as [F1 F2].
  destruct (write_cost_ext s (thei ip s) (set_lg ls s) (thei ip s) (touched off n)) as [Ec En].
  { intros bn _. apply slot_quiet. }
  split; change (thei ip (set_lg ls s)) with (thei ip s); try done; [by rewrite Ec|by rewrite En, Ef].
Qed.

Lemma write_done_quiet ip off n src s' :
  write_done ip off n src (set_lg ls s) s' → write_done ip off n src s s'.
Proof.
  intros [D1 D2 D3 D4 D5 D6 D7 D8 D9 D10]. destruct Q as [Q1 Q2 Q3].
  destruct (same_view_fs s (set_lg ls s) Q3 (sl_start _ _ Q2)) as (_ & En & Ed & Eu & _ & _).
  assert (Edi : ∀ i, disk_inode (set_lg ls s) i = disk_inode s i) by (intros i; unfold disk_inode; by rewrite Q3).
  change (thei ip (set_lg ls s)) with (thei ip s) in *. split; try done.
  - intros i Hi. rewrite D5 by done. case_decide; [done|]. unfold fbyte. by rewrite slot_quiet, Q3.
  - intros b (H1 & H2 & H3). rewrite D6; [apply Q3|]. split; [by rewrite Ed, (sl_start _ _ Q2 : start (lg (set_lg ls s)) = _)|].
    split; [by rewrite Eu|]. intros j Hj. rewrite slot_quiet. by apply H3.
  - intros inum Hi Hne. rewrite D7; [apply Edi|by rewrite En|done].
  - rewrite <- Edi. done.
Qed.
End quietly.

(** ** The entries after a write of one of them *)

Lemma lookup_set_entry j de es i : (j ≤ length es)%nat →
  set_entry j de es !! i = if decide (i = j) then Some de else es !! i.
Proof.
  intros Hj. unfold set_entry. assert (Hl : length (take j es) = j) by (rewrite length_take; lia).
  destruct (Nat.lt_trichotomy i j) as [H|[->|H]].
  - rewrite lookup_app_l by lia. rewrite lookup_take_lt by done. by rewrite decide_False by lia.
  - rewrite lookup_app_r by lia. by rewrite Hl, Nat.sub_diag, decide_True.
  - rewrite lookup_app_r by lia. rewrite Hl, decide_False by lia.
    replace (i - j)%nat with (S (i - j - 1)) by lia. simpl. rewrite lookup_drop. f_equal. lia.
Qed.

Lemma dirents_lookup s x i : dirents s x !! i =
  if decide (i < nents x)%nat then Some (dirent_at s x i) else None.
Proof.
  unfold dirents. rewrite list_lookup_fmap. case_decide.
  - by rewrite lookup_seq_lt.
  - by rewrite lookup_seq_ge by lia.
Qed.

Lemma length_put_dirent de : length (de_name de) = DIRSIZ → length (put_dirent de) = 16%nat.
Proof. intros H. unfold put_dirent. rewrite length_app, H. done. Qed.

Section entry_write.
Context (dp j : nat) (de : dirent) (s s' : fsstate).
Let x : inode := thei dp s.
Let x' : inode := thei dp s'.
Hypotheses (Hd : dir_ok s x) (Hj : (j ≤ nents x)%nat).
Hypotheses (Hi : 0 ≤ de_inum de < 2 ^ 16) (Hn : length (de_name de) = DIRSIZ).
Hypothesis (D : write_done dp (DIRENT * Z.of_nat j) DIRENT (put_dirent de) s s').

Local Lemma entry_size : i_size x' = DIRENT * Z.of_nat (nents x `max` S j) ∧ nents x' = (nents x `max` S j)%nat.
Proof.
  assert (E : i_size x' = DIRENT * Z.of_nat (nents x `max` S j)).
  { unfold x'. rewrite (wd_size _ _ _ _ _ _ D). fold x. rewrite (dk_size _ _ Hd). change DIRENT with 16. lia. }
  split; [done|]. unfold nents at 1. rewrite E, Z.mul_comm, Z.div_mul by done. lia.
Qed.

Lemma entry_dir : dir_ok s' x'.
Proof.
  destruct entry_size as [E1 E2]. split; [apply D| |by rewrite E2].
  unfold x'. rewrite (wd_inode _ _ _ _ _ _ D). exact (dk_type _ _ Hd).
Qed.

Lemma entry_at i : (i < nents x')%nat → dirent_at s' x' i = if decide (i = j) then de else dirent_at s x i.
Proof.
  intros Hlt. destruct entry_size as [E1 E2]. pose proof (fk_size _ _ (wd_file _ _ _ _ _ _ D)) as Hmax.
  fold x' in Hmax. pose proof (length_put_dirent de Hn) as Hl. pose proof (wd_bytes _ _ _ _ _ _ D) as W.
  fold x x' in W. change DIRENT with 16 in *. change (MAXFILE * BSIZE) with 71680 in *. unfold dirent_at.
  case_decide as E.
  - subst i. apply overwritten in W; [|lia|rewrite Hl; change (MAXFILE * BSIZE) with 71680; lia].
    rewrite Hl in W. change (fbytes s' x' (DIRENT * Z.of_nat j) DIRENT = put_dirent de) in W.
    rewrite W. by apply get_put_dirent.
  - f_equal. unfold fbytes. apply list_fmap_ext. intros _ b Hb%list_elem_of_lookup_2. apply elem_of_seqZ in Hb.
    rewrite W by (change (MAXFILE * BSIZE) with 71680; change DIRENT with 16 in *; lia).
    rewrite Hl, decide_False; [done|]. change DIRENT with 16 in *. lia.
Qed.

Lemma entry_dirents : dirents s' x' = set_entry j de (dirents s x).
Proof.
  destruct entry_size as [E1 E2]. apply list_eq. intros i.
  rewrite lookup_set_entry by (rewrite length_dirents; done). rewrite !dirents_lookup.
  destruct (decide (i < nents x')%nat) as [Hlt|Hge].
  - rewrite entry_at by done. case_decide; [done|]. by rewrite decide_True by lia.
  - rewrite !decide_False by lia. done.
Qed.
End entry_write.

(** ** dirlink *)

Section link.
Context (dsw : devsw) (r : Z) (dp : nat) (name : list Z) (inum : Z).

(** The name is not there: the run adds it. *)
Lemma dirlink_run k s : let x := thei dp s in let j := free_index (dirents s x) in
  can_write dp r (DIRENT * Z.of_nat j) DIRENT (put_dirent (new_entry name inum)) s → held k = [] →
  dir_ok s x → list_find (names name) (dirents s x) = None →
  ∃ k' s', dirlink dsw dp name inum k s = Done 0 k' s' ∧ held k' = [] ∧
    in_txn [] (r - write_cost s x (touched (DIRENT * Z.of_nat j) DIRENT) - 1) (lg s') ∧
    write_done dp (DIRENT * Z.of_nat j) DIRENT (put_dirent (new_entry name inum)) s s'.
Proof.
  intros x j Hc Hk Hd Hno. destruct Hc as [C1 C2 C3 C4 C5 C6 C7 C8 C9 C10] eqn:EC.
  pose proof (write_cost_nonneg s (thei dp s) (touched (DIRENT * Z.of_nat j) DIRENT)) as Hnn.
  assert (Hr : 1 ≤ r) by lia.
  destruct (dirlookup_run dsw r dp name Hr k s C1 C2 Hk C3 Hd) as (k1 & ls1 & Hk1 & Q1 & E1).
  fold x in E1. rewrite Hno in E1. set (s1 := set_lg ls1 s) in *.
  destruct (quiet_fs r s x ls1 C3 Hd Q1) as (Hok1 & Hd1 & Ed1 & _).
  destruct (dirlink_scan_spec dsw r dp Hr (dir_fuel x) 0 k1 s1) as (k2 & ls2 & Hk2 & Q2 & E2);
    try done; [apply Q1|lia|unfold dir_fuel; change (thei dp s1) with x; unfold nents; lia|].
  assert (Eds : dirents s1 x = dirents s x).
  { unfold dirents. apply list_fmap_ext. intros _ i _. apply Ed1. }
  change (thei dp s1) with x in E2. rewrite drop_0, Eds in E2. fold j in E2. simpl (0 + j)%nat in E2.
  pose proof (quiet_trans _ _ _ _ Q1 Q2) as Q.
  destruct (writei_spec dsw dp r (DIRENT * Z.of_nat j) DIRENT (put_dirent (new_entry name inum)) k2
    (set_lg ls2 s) (can_write_quiet r s ls2 Q _ _ _ _ Hc) Hk2) as (k3 & s3 & E3 & Hk3 & Hin3 & D3).
  exists k3, s3. split_and!; try done.
  - unfold dirlink. rewrite (bind_Done _ _ _ _ _ _ _ E1). cbv beta iota.
    mb (gets_eq (thei dp) k1 s1). change (thei dp s1) with x. mb E2. change (set_lg ls2 s1) with (set_lg ls2 s).
    mb E3. rewrite Z.eqb_refl. done.
  - destruct (write_cost_ext s x (set_lg ls2 s) x (touched (DIRENT * Z.of_nat j) DIRENT)) as [Ec _].
    { intros bn _. by apply (slot_quiet r). }
    change (thei dp (set_lg ls2 s)) with x in Hin3. by rewrite Ec in Hin3.
  - by apply (write_done_quiet r s ls2).
Qed.
End link.

(** Lists that agree on what satisfies a predicate. *)
Lemma list_find_agree {A} (P : A → Prop) `{∀ a, Decision (P a)} (l l' : list A) :
  (∀ i a, P a → l !! i = Some a ↔ l' !! i = Some a) → list_find P l = list_find P l'.
Proof.
  intros H1. destruct (list_find P l) as [[i a]|] eqn:E; symmetry.
  - apply list_find_Some in E as (E1 & E2 & E3). apply list_find_Some.
    split; [by apply H1|]. split; [done|]. intros k b Hb Hk Hp. by apply (E3 k b); [apply H1| |].
  - apply list_find_None, Forall_forall. intros b [k Hb]%list_elem_of_lookup Hp.
    apply list_find_None in E. rewrite Forall_forall in E. apply (E b); [|done].
    apply list_elem_of_lookup. exists k. by apply H1.
Qed.

(** The entry at the free index is free, or there is none. *)
Lemma free_index_entry es de : es !! free_index es = Some de → unused de.
Proof.
  unfold free_index. destruct (list_find unused es) as [[j d]|] eqn:E; intros H.
  - apply list_find_Some in E as (E1 & E2 & _). congruence.
  - apply lookup_lt_Some in H. lia.
Qed.

Lemma set_entry_others es de name : ¬ names name de → let j := free_index es in
  list_find (names name) (set_entry j de es) = list_find (names name) es.
Proof.
  intros Hn j. apply list_find_agree. intros i a Ha. rewrite lookup_set_entry by apply free_index_le.
  case_decide as E; [|done]. subst i. split; intros H.
  - by simplify_eq.
  - by destruct (proj1 Ha (free_index_entry es a H)).
Qed.

Lemma set_entry_finds es de name : names name de → list_find (names name) es = None →
  let j := free_index es in list_find (names name) (set_entry j de es) = Some (j, de).
Proof.
  intros Hn Hno j. apply list_find_Some. rewrite lookup_set_entry by apply free_index_le.
  rewrite decide_True by done. split; [done|]. split; [done|]. intros i b Hb Hi.
  rewrite lookup_set_entry in Hb by apply free_index_le. rewrite decide_False in Hb by lia.
  apply list_find_None in Hno. rewrite Forall_forall in Hno. apply Hno.
  by eapply list_elem_of_lookup_2.
Qed.

Lemma new_entry_names name inum : u16 inum ≠ 0 → names name (new_entry name inum).
Proof. intros H. split; [done|]. apply cname_strncpy. Qed.

(** The last reference is not the point here: iput only drops one. *)
Lemma iput_drop k s ip : let x := thei ip s in LIcache ∉ held k →
  (i_ref x =? 1) && has (i_flags x) I_VALID && (i_nlink x =? 0) = false →
  iput ip k s = Done tt k (updi ip (iset_ref (i_ref x - 1)) s).
Proof.
  intros x Hk Hc. destruct k as [h w]. simpl in Hk. unfold iput.
  mb (acquire_eq LIcache (Kctx h w) s Hk). mb (gets_eq (thei ip) (Kctx (LIcache :: h) w) s).
  fold x. rewrite Hc. mb (ret_eq tt (Kctx (LIcache :: h) w) s).
  mb (modify_eq (λ s, updi ip (iset_ref (i_ref (thei ip s) - 1)) s) (Kctx (LIcache :: h) w) s).
  apply release_top.
Qed.

(** A reference taken by iget and dropped again. *)
Lemma iget_iput dv inum ip k s s1 : icache_ok s → got dv inum ip s s1 → (ip < NINODE)%nat →
  LIcache ∉ held k → ∃ s2, iput ip k s1 = Done tt k s2 ∧ lg s2 = lg s ∧
    ∀ i, i_ref (thei i s2) = i_ref (thei i s).
Proof.
  intros Hic G Hlt Hk. pose proof (ic_ref _ Hic ip) as Hnn.
  destruct G as [G1 G2 G3 G4 G5 G6]. pose proof (ic_len _ G1) as Hlen.
  eexists. split_and!.
  - apply iput_drop; [done|]. destruct (refers dv inum (thei ip s)) eqn:Er.
    + apply refers_true in Er as [Hp _]. rewrite G3. by destruct (Z.eqb_spec (i_ref (thei ip s) + 1) 1); [lia|].
    + destruct (G4 eq_refl) as [_ ->]. by rewrite andb_false_r.
  - done.
  - intros i. rewrite thei_updi by lia. case_decide as E; [subst i|by rewrite G5].
    simpl. rewrite G3. destruct (refers dv inum (thei ip s)); [lia|]. destruct (G4 eq_refl). lia.
Qed.

(** ** The theorems *)

(** Dirlookup of a directory, inside a transaction, returns a reference to
    the inode of the first live entry of the name, and the offset of the entry, or
    nothing if there is no such entry; names are compared up to a zero or the
    fourteenth byte.  The disk does not change, and the only other outcome is the
    panic of iget when the inode cache is full. *)
Theorem dirlookup_finds (dsw : devsw) (r : Z) (s : fsstate) (k : kctx) (dp : nat) (name : list Z) :
  let x := thei dp s in 1 ≤ r → (dp < length (icache s))%nat → in_txn [] r (lg s) → held k = [] →
  fs_ok s → dir_ok s x → icache_ok s →
  match list_find (names name) (dirents s x) with
  | Some (j, de) =>
    (∃ ls k' ip s', quiet r s ls ∧
      dirlookup dsw dp name k s = Done (Some (ip, DIRENT * Z.of_nat j)) k' s' ∧ held k' = [] ∧
      (ip < NINODE)%nat ∧ got ROOTDEV (de_inum de) ip (set_lg ls s) s') ∨
    dirlookup dsw dp name k s = Panicked "iget: no inodes"
  | None => ∃ ls k', quiet r s ls ∧ held k' = [] ∧ dirlookup dsw dp name k s = Done None k' (set_lg ls s)
  end.
Proof.
  intros x Hr Hdp Hin Hk Hok Hd Hic.
  destruct (dirlookup_run dsw r dp name Hr k s Hdp Hin Hk Hok Hd) as (k1 & ls1 & Hk1 & Q1 & E1).
  fold x in E1. destruct (list_find (names name) (dirents s x)) as [[j de]|]; [|by exists ls1, k1].
  assert (Hic1 : icache_ok (set_lg ls1 s)) by (destruct Hic; by split).
  destruct (iget_spec ROOTDEV (de_inum de) k1 (set_lg ls1 s) Hic1) as
    [(ip & s' & E & Hlt & G)|[E _]]; [rewrite Hk1; set_solver|left|right].
  - exists ls1, k1, ip, s'. split_and!; try done. rewrite E1. unfold found_at. mb E. done.
  - rewrite E1. unfold found_at, mbind, M_bind. by rewrite E.
Qed.

(** C7: Dirlink of a name the directory does not have, inside a transaction with
    room for it, returns 0.  Its entry is then in the first free place, or behind the
    last; the other entries are what they were, so that the name is found at that
    place with its inode number, and every other name is found where it was or not at
    all; other files and inodes are unchanged. *)
Theorem dirlink_adds (dsw : devsw) (r : Z) (s : fsstate) (k : kctx) (dp : nat) (name : list Z) (inum : Z) :
  let x := thei dp s in let j := free_index (dirents s x) in let de := new_entry name inum in
  can_write dp r (DIRENT * Z.of_nat j) DIRENT (put_dirent de) s → held k = [] →
  dir_ok s x → list_find (names name) (dirents s x) = None → u16 inum ≠ 0 →
  ∃ k' s', let x' := thei dp s' in
    dirlink dsw dp name inum k s = Done 0 k' s' ∧ held k' = [] ∧ fs_ok s' ∧ dir_ok s' x' ∧
    in_txn [] (r - write_cost s x (touched (DIRENT * Z.of_nat j) DIRENT) - 1) (lg s') ∧
    dirents s' x' = set_entry j de (dirents s x) ∧
    list_find (names name) (dirents s' x') = Some (j, de) ∧
    (∀ other, cname DIRSIZ other ≠ cname DIRSIZ name →
       list_find (names other) (dirents s' x') = list_find (names other) (dirents s x)) ∧
    (∀ y i, file_ok s y → apart_files s x y → 0 ≤ i < MAXFILE * BSIZE → fbyte s' y i = fbyte s y i) ∧
    (∀ i, 0 ≤ i < nin s → i ≠ i_inum x → disk_inode s' i = disk_inode s i).
Proof.
  intros x j de Hc Hk Hd Hno Hin0.
  destruct (dirlink_run dsw r dp name inum k s Hc Hk Hd Hno) as (k' & s' & E & Hk' & Hin' & D).
  assert (Hu : 0 ≤ u16 inum < 2 ^ 16) by (apply Z.mod_pos_bound; lia).
  assert (Hj : (j ≤ nents x)%nat) by (rewrite <- (length_dirents s x); apply free_index_le).
  pose proof (entry_dirents dp j de s s' Hd Hj Hu (length_strncpy_l _ _) D) as Es. fold x in Es.
  exists k', s'. cbv zeta. rewrite Es. split_and!; try done.
  - apply D.
  - exact (entry_dir dp j de s s' Hd Hj (length_strncpy_l _ _) D).
  - apply set_entry_finds; [by apply new_entry_names|done].
  - intros other Hne. apply set_entry_others. intros [_ H]. apply Hne. rewrite <- H. apply cname_strncpy.
  - intros y i Hy Ha Hi. apply (other_file s x); try done. apply D.
  - apply D.
Qed.

(** Dirlink of a name the directory already has returns -1, if the inode
    cache has room for the look-up.  Nothing on the disk changes and every entry of
    the inode cache has the references it had: the one the look-up took is dropped. *)
Theorem dirlink_exists (dsw : devsw) (r : Z) (s : fsstate) (k : kctx) (dp : nat) (name : list Z) (inum : Z) :
  let x := thei dp s in 1 ≤ r → (dp < length (icache s))%nat → in_txn [] r (lg s) → held k = [] →
  fs_ok s → dir_ok s x → icache_ok s → is_Some (list_find (names name) (dirents s x)) →
  (∃ k' s', dirlink dsw dp name inum k s = Done (-1) k' s' ∧ held k' = [] ∧ in_txn [] r (lg s') ∧
     (∀ b, fview s' b = fview s b) ∧ (∀ i, i_ref (thei i s') = i_ref (thei i s))) ∨
  dirlink dsw dp name inum k s = Panicked "iget: no inodes".
Proof.
  intros x Hr Hdp Hin Hk Hok Hd Hic [[j de] Hf].
  destruct (dirlookup_run dsw r dp name Hr k s Hdp Hin Hk Hok Hd) as (k1 & ls1 & Hk1 & Q1 & E1).
  fold x in E1. rewrite Hf in E1. unfold found_at in E1.
  assert (Hic1 : icache_ok (set_lg ls1 s)) by (destruct Hic; by split).
  destruct (iget_spec ROOTDEV (de_inum de) k1 (set_lg ls1 s) Hic1) as
    [(ip & s1 & E & Hlt & G)|[E _]]; [rewrite Hk1; set_solver|left|right].
  - assert (E2 : dirlookup dsw dp name k s = Done (Some (ip, DIRENT * Z.of_nat (0 + j))) k1 s1).
    { rewrite E1. mb E. done. }
    destruct (iget_iput _ _ ip k1 _ _ Hic1 G Hlt) as (s2 & E3 & El & Er); [rewrite Hk1; set_solver|].
    exists k1, s2. split_and!; try done.
    + unfold dirlink. rewrite (bind_Done _ _ _ _ _ _ _ E2). cbv beta iota. mb E3. done.
    + rewrite El. apply Q1.
    + intros b. unfold fview. rewrite El. apply (qt_view _ _ _ Q1).
  - unfold dirlink, mbind, M_bind in *. rewrite E1, E. done.
Qed.

(** ** A directory of free entries *)

Definition demo_dir_fs : fsstate := updi 0 (λ _, demo_inode T_DIR 704) demo_fs.
Definition demo_name : list Z := [115; 104].

Lemma demo_dir_ok : dir_ok demo_dir_fs (demo_inode T_DIR 704).
Proof.
  split; [|reflexivity|reflexivity]. apply (demo_file_ok demo_dir_fs eq_refl); vm_compute; split; discriminate || reflexivity.
Qed.

Lemma demo_dir_byte i : fbyte demo_dir_fs (demo_inode T_DIR 704) i = 0.
Proof.
  assert (Hz : ∀ b, b = 31 ∨ b = 32 → fview demo_dir_fs b = zero_block).
  { intros b Hb. change (fview demo_dir_fs b) with (fview demo_fs b). rewrite (proj2 demo_fs_ok).
    by destruct Hb as [-> | ->]. }
  unfold fbyte. destruct (demo_slot_cases demo_dir_fs T_DIR 704 (dslot (i / BSIZE))) as [[_ H]|[[_ H]|H]];
    rewrite H; [..|done]; cbn [Z.eqb]; (rewrite Hz; [apply nthz_replicate|lia]).
Qed.

Lemma demo_dirents : dirents demo_dir_fs (demo_inode T_DIR 704) = replicate 44 (Dirent 0 (replicate 14 0)).
Proof.
  unfold dirents. change (nents (demo_inode T_DIR 704)) with 44%nat.
  assert (H : ∀ i, dirent_at demo_dir_fs (demo_inode T_DIR 704) i = Dirent 0 (replicate 14 0)).
  { intros i. unfold dirent_at, fbytes. change DIRENT with 16.
    assert (E : fbyte demo_dir_fs (demo_inode T_DIR 704) <$> seqZ (16 * Z.of_nat i) 16 = replicate 16 0).
    { symmetry. apply replicate_as_Forall. split; [by rewrite length_fmap, length_seqZ|].
      apply Forall_fmap, Forall_forall. intros b _. symmetry. apply demo_dir_byte. }
    rewrite E. reflexivity. }
  rewrite (list_fmap_ext _ (λ _, Dirent 0 (replicate 14 0)) _ (λ _ i _, H i)). reflexivity.
Qed.

Lemma demo_icache : icache_ok demo_dir_fs.
Proof.
  assert (H0 : ∀ i, i ≠ 0%nat → i_ref (thei i demo_dir_fs) = 0).
  { intros i Hi. unfold demo_dir_fs. rewrite thei_updi by (simpl; lia). rewrite decide_False by done.
    unfold thei, demo_fs, demo_fs_of, icache. by rewrite nthz_replicate. }
  split; [reflexivity|..].
  - intros [|i]; [by vm_compute|]. by rewrite H0.
  - intros [|i] [|j]; [done|rewrite (H0 (S j)) by done; lia|rewrite (H0 (S i)) by done; lia|].
    rewrite (H0 (S i)) by done. lia.
Qed.

Lemma dirlookup_finds_witness : ∃ ls k',
  dirlookup no_devices 0 demo_name (Kctx [] []) demo_dir_fs = Done None k' (set_lg ls demo_dir_fs).
Proof.
  pose proof (dirlookup_finds no_devices 10 demo_dir_fs (Kctx [] []) 0 demo_name) as H. cbv zeta in H.
  change (thei 0 demo_dir_fs) with (demo_inode T_DIR 704) in H. rewrite demo_dirents in H.
  change (list_find (names demo_name) (replicate 44 (Dirent 0 (replicate 14 0)))) with (@None (nat * dirent)) in H.
  destruct H as (ls & k' & _ & _ & E).
  - lia.
  - simpl. lia.
  - exact (proj1 demo_fs_ok).
  - reflexivity.
  - exact (demo_fs_layout demo_dir_fs eq_refl).
  - exact demo_dir_ok.
  - exact demo_icache.
  - by exists ls, k'.
Defined.

Lemma demo_dir_can_write :
  can_write 0 10 (DIRENT * Z.of_nat 0) DIRENT (put_dirent (new_entry demo_name 5)) demo_dir_fs.
Proof.
  apply (demo_can_write demo_dir_fs eq_refl T_DIR 704).
  - reflexivity.
  - simpl. lia.
  - vm_compute. split; discriminate || reflexivity.
  - discriminate.
  - lia.
  - vm_compute. split; discriminate.
  - reflexivity.
  - vm_compute. discriminate.
  - reflexivity.
  - change (touched (DIRENT * Z.of_nat 0) DIRENT) with [0]. cbn [write_cost]. unfold map_cost, empty.
    rewrite !demo_slot. vm_compute. discriminate.
  - change (touched (DIRENT * Z.of_nat 0) DIRENT) with [0]. cbn [write_need]. unfold empty.
    rewrite !demo_slot. vm_compute. lia.
Qed.

Lemma dirlink_adds_witness : ∃ k' s',
  dirlink no_devices 0 demo_name 5 (Kctx [] []) demo_dir_fs = Done 0 k' s' ∧
  list_find (names demo_name) (dirents s' (thei 0 s')) = Some (0%nat, new_entry demo_name 5).
Proof.
  pose proof (dirlink_adds no_devices 10 demo_dir_fs (Kctx [] []) 0 demo_name 5) as H. cbv zeta in H.
  change (thei 0 demo_dir_fs) with (demo_inode T_DIR 704) in H. rewrite demo_dirents in H.
  change (free_index (replicate 44 (Dirent 0 (replicate 14 0)))) with 0%nat in H.
  destruct H as (k' & s' & E & _ & _ & _ & _ & _ & Hf & _).
  - exact demo_dir_can_write.
  - reflexivity.
  - exact demo_dir_ok.
  - reflexivity.
  - vm_compute. discriminate.
  - exists k', s'. split; [exact E|exact Hf].
Defined.
