(* ===== verification/Mkfs.v ===== *)
(** * mkfs.c: the program that writes the first disk image

    The state is the image file and the counters of mkfs.c.  The image is the map
    of the sectors written; what lies between them reads as zeros, as in a file
    written with lseek, and reading at or behind the end comes up short.  The
    exits and failed assertions of the program are [panic]s.  An input file is its
    name and the pieces read() delivered; a dinode is a value of [Fs.dinode], whose
    encoding in a sector puts every integer in Intel order, as xint and xshort do. *)

From stdpp Require Import base gmap list strings.
From Stdlib Require Import ZArith Lia.
From S2P Require Import Prelude Params Kmonad Bio Log Fs.

Record mkst : Type := Mkst {
  image : gmap Z block;    (** the sectors of the image written so far *)
  nsect : Z;               (** the length of the image file in sectors *)
  freeblock : Z; usedblocks : Z; freeinode : Z
}.

Definition nblocks : Z := 995 - LOGSIZE.
Definition nlog : Z := LOGSIZE.
Definition ninodes : Z := 200.
Definition fssize : Z := 1024.
Definition bitblocks : Z := fssize / (512 * 8) + 1.
Definition usedblocks0 : Z := ninodes / IPB + 3 + bitblocks.

(** The program before it opened the image, which O_TRUNC empties. *)
Definition mk0 : mkst := Mkst ∅ 0 usedblocks0 usedblocks0 1.

Definition wsect (sec : Z) (buf : block) : M mkst unit :=
  modify (λ m, Mkst (<[sec := buf]> (image m)) (Z.max (nsect m) (sec + 1))
                 (freeblock m) (usedblocks m) (freeinode m)).

Definition rsect (sec : Z) : M mkst block :=
  m ← gets id;
  if sec <? nsect m then mret (default zero_block (image m !! sec)) else panic "read".

Definition i2b (inum : Z) : Z := inum / IPB + 2.

Definition winode (inum : Z) (d : dinode) : M mkst unit :=
  buf ← rsect (i2b inum);
  wsect (i2b inum) (put_dinode buf (dinode_off inum) d).

Definition rinode (inum : Z) : M mkst dinode :=
  buf ← rsect (i2b inum);
  mret (get_dinode buf (dinode_off inum)).

Definition ialloc (ty : Z) : M mkst Z :=
  inum ← gets freeinode;
  modify (λ m, Mkst (image m) (nsect m) (freeblock m) (usedblocks m) (u32 (freeinode m + 1)));;
  winode inum (Dinode ty 0 0 1 0 (replicate 13 0));;
  mret inum.

(** The bitmap with the bits of the first [used] blocks set. *)
Definition bitmap (used : nat) : block :=
  fold_left (λ buf i, <[(i / 8)%nat := u8 (Z.lor (buf.[(i / 8)%nat]) (Z.shiftl 1 (Z.of_nat (i mod 8))))]> buf)
    (seq 0 used) zero_block.

Definition balloc (used : Z) : M mkst unit :=
  if used <? 512 * 8 then wsect (ninodes / IPB + 3) (bitmap (Z.to_nat used))
  else panic "used < 512*8".

(** freeblock++, usedblocks++ *)
Definition new_block : M mkst Z :=
  b ← gets freeblock;
  modify (λ m, Mkst (image m) (nsect m) (u32 (freeblock m + 1)) (u32 (usedblocks m + 1)) (freeinode m));;
  mret b.

Definition dset_addr (j : nat) (a : Z) (d : dinode) : dinode :=
  Dinode (d_type d) (d_major d) (d_minor d) (d_nlink d) (d_size d) (<[j := a]> (d_addrs d)).
Definition dset_size (n : Z) (d : dinode) : dinode :=
  Dinode (d_type d) (d_major d) (d_minor d) (d_nlink d) n (d_addrs d).

(** An address of the inode, filled if it is zero. *)
Definition fill_addr (j : nat) (d : dinode) : M mkst dinode :=
  if (d_addrs d).[j] =? 0 then b ← new_block; mret (dset_addr j b d) else mret d.

(** The sector of block [fbn] of the file, and the inode that may have changed. *)
Definition find_block (fbn : Z) (d : dinode) : M mkst (Z * dinode) :=
  if fbn <? NDIRECT then
    d ← fill_addr (Z.to_nat fbn) d;
    mret ((d_addrs d).[Z.to_nat fbn], d)
  else
    d ← fill_addr (Z.to_nat NDIRECT) d;
    let ind := (d_addrs d).[Z.to_nat NDIRECT] in
    let e := (4 * Z.to_nat (fbn - NDIRECT))%nat in
    indirect ← rsect ind;
    indirect ←
      (if get32 indirect e =? 0 then
         b ← new_block;
         let indirect := put32 indirect e b in
         wsect ind indirect;;
         mret indirect
       else mret indirect);
    mret (get32 indirect e, d).

(** The while loop of iappend: [p] is what is left to append. *)
Fixpoint iappend_loop (fuel : nat) (d : dinode) (off : Z) (p : list Z) : M mkst (Z * dinode) :=
  match fuel with
  | O => diverge
  | S f =>
    match p with
    | [] => mret (off, d)
    | _ =>
      let fbn := off / 512 in
      if fbn <? MAXFILE then
        r ← find_block fbn d;
        let n1 := Z.min (Z.of_nat (length p)) ((fbn + 1) * 512 - off) in
        buf ← rsect r.1;
        wsect r.1 (splice buf (Z.to_nat (off - fbn * 512)) (take (Z.to_nat n1) p));;
        iappend_loop f r.2 (off + n1) (drop (Z.to_nat n1) p)
      else panic "fbn < MAXFILE"
    end
  end.

(** Every round but the first and the last fills a whole block. *)
Definition iappend (inum : Z) (p : list Z) : M mkst unit :=
  d ← rinode inum;
  r ← iappend_loop (S (S (S (length p / 512)))) d (d_size d) p;
  winode inum (dset_size r.1 r.2).

(** ** main *)

(** An entry of the root directory. *)
Definition add_entry (rootino inum : Z) (name : list Z) : M mkst unit :=
  iappend rootino (put_dirent (Dirent (u16 inum) (strncpy_l DIRSIZ name))).

Fixpoint append_all (inum : Z) (reads : list (list Z)) : M mkst unit :=
  match reads with
  | [] => mret tt
  | p :: l => iappend inum p;; append_all inum l
  end.

(** An argument: the name of the file, and what the calls of read() returned. *)
Record input_file : Type := InputFile { arg : list Z; reads : list (list Z) }.

(** The leading _ of a name is skipped. *)
Definition entry_name (name : list Z) : list Z := if name.[0] =? 95 then drop 1 name else name.

Definition add_file (rootino : Z) (f : input_file) : M mkst unit :=
  if bool_decide (SLASH ∈ arg f) then panic "index(argv[i], '/') == 0"
  else
    inum ← ialloc T_FILE;
    add_entry rootino inum (entry_name (arg f));;
    append_all inum (reads f).

Fixpoint add_files (rootino : Z) (fs : list input_file) : M mkst unit :=
  match fs with
  | [] => mret tt
  | f :: l => add_file rootino f;; add_files rootino l
  end.

(** The superblock at the beginning of a buffer of zeros. *)
Definition superblock_sector : block :=
  put32 (put32 (put32 (put32 zero_block 0 fssize) 4 nblocks) 8 ninodes) 12 nlog.

(** The size of the root directory is rounded up to whole blocks. *)
Definition round_root (rootino : Z) : M mkst unit :=
  d ← rinode rootino;
  winode rootino (dset_size (u32 ((d_size d / BSIZE + 1) * BSIZE)) d).

Definition main (fs : list input_file) : M mkst unit :=
  used ← gets usedblocks;
  if negb (nblocks + used + nlog =? fssize) then panic "nblocks + usedblocks + nlog == size"
  else
    mfor 0 (Z.to_nat (nblocks + used + nlog)) (λ i, wsect (Z.of_nat i) zero_block);;
    wsect 1 superblock_sector;;
    rootino ← ialloc T_DIR;
    if negb (rootino =? ROOTINO) then panic "rootino == ROOTINO"
    else
      add_entry rootino rootino [46];;
      add_entry rootino rootino [46; 46];;
      add_files rootino fs;;
      round_root rootino;;
      used ← gets usedblocks;
      balloc used.
