(* ===== verification/MkfsSpec.v ===== *)
(** * What mkfs writes is a file system

    The image of mkfs, mounted, is the file system fs.c is verified on: the layout
    and the bitmap are in order, the root directory names the files given, and
    each of them is well-formed and has the bytes of its input file. *)

From stdpp Require Import base gmap list strings.
From Stdlib Require Import ZArith Lia Permutation.
From S2P Require Import Prelude Params Kmonad Console Bio BioSpec BioInit Log LogSpec LogCrash.
From S2P Require Import LogOps Fs FsTxn FsAlloc FsFree FsInode FsFile FsRw FsDir Mkfs.

(** The kernel with the image as its disk, in the first transaction after start-up. *)
Definition mounted (d : gmap Z block) : fsstate :=
  Fsstate (Logstate (Bstate fssize d [] binit_bufs) (fssize - nlog) nlog 1 0 ROOTDEV 0 (replicate 30 0))
    (replicate NINODE inode0) (Cst true false (replicate 2000 0) 0 [] (Input (replicate 128 0) 0 0 0)).

Lemma clean_view n d bs l1 l2 l3 l4 l5 l6 l7 sec :
  (∀ i, (i < NBUF)%nat → flags (getb bs i) = 0 ∧ dev (getb bs i) = u32 (-1) ∧
    length (data (getb bs i)) = Z.to_nat BSIZE) →
  lview (Logstate (Bstate n d [] bs) l1 l2 l3 l4 l5 l6 l7) sec = default zero_block (d !! sec).
Proof.
  intros C. unfold lview, view. cbn [bst].
  destruct (cached (Bstate n d [] bs) sec) as [i|] eqn:E; [|done].
  unfold cached in E. apply List.find_some in E as [Hi Hh]. apply in_seq in Hi.
  destruct (C i ltac:(lia)) as (_ & Ed & _). unfold hit in Hh. cbn [bufs] in Hh. by rewrite Ed in Hh.
Qed.

Lemma mounted_view d b : fview (mounted d) b = default zero_block (d !! b).
Proof. exact (clean_view _ _ _ _ _ _ _ _ _ _ _ binit_bufs_clean). Qed.

Lemma mounted_insert a v d b :
  fview (mounted (<[a := v]> d)) b = if decide (a = b) then v else fview (mounted d) b.
Proof.
  rewrite !mounted_view. case_decide as E.
  - subst b. by rewrite lookup_insert_eq.
  - by rewrite lookup_insert_ne.
Qed.

(** The log of the image is empty when its header block is zero. *)
Lemma clean_txn d bs l : lru bs l →
  (∀ i, (i < NBUF)%nat → flags (getb bs i) = 0 ∧ dev (getb bs i) = u32 (-1) ∧
    length (data (getb bs i)) = Z.to_nat BSIZE) →
  (∀ x, length (default zero_block (d !! x)) = Z.to_nat BSIZE) →
  get32 (default zero_block (d !! 994)) 0 = 0 →
  in_txn [] 10 (Logstate (Bstate fssize d [] bs) (fssize - nlog) nlog 1 0 ROOTDEV 0 (replicate 30 0)).
Proof.
  intros Hl C Hd H0. destruct (clean_cache_ok fssize d bs l Hl C Hd) as [Hok Hc].
  split; [|simpl; lia|by simpl]. apply log_ok_empty; try done.
  - split; try done; simpl; unfold LOGSIZE; simpl; lia.
  - intros x. simpl. by rewrite Hc.
Qed.

Lemma mounted_txn d : (∀ x, length (default zero_block (d !! x)) = Z.to_nat BSIZE) →
  get32 (default zero_block (d !! 994)) 0 = 0 → in_txn [] 10 (lg (mounted d)).
Proof. exact (clean_txn d _ _ binit_bufs_lru binit_bufs_clean). Qed.

Lemma mounted_start d : start (lg (mounted d)) = 994.
Proof. done. Qed.

Opaque mounted.

Notation V m := (mounted (image m)).

(** ** The invariant of the image

    [F] are the inodes as the program knows them; while a file grows its inode on
    the disk lags behind. *)

(** The inode the kernel makes of a disk inode. *)
Definition ino (i : Z) (d : dinode) : inode :=
  load_dinode d (Inode ROOTDEV i 1 I_VALID 0 0 0 0 0 []).

Definition live (m : mkst) (i : Z) : Prop := 1 ≤ i < freeinode m.

Record binv (m : mkst) (F : Z → dinode) : Prop := Binv {
  bi_len : nsect m = fssize;
  bi_sect : ∀ b, length (fview (V m) b) = Z.to_nat BSIZE;
  bi_super : sblock (V m) = Superblock fssize nblocks ninodes nlog;
  bi_free : usedblocks m = freeblock m ∧ 29 ≤ freeblock m ≤ 994;
  bi_fresh : ∀ b, freeblock m ≤ b → fview (V m) b = zero_block;
  bi_ino : 1 ≤ freeinode m ≤ ninodes;
  bi_dinode : ∀ i, live m i → dinode_ok (F i);
  bi_slot : ∀ i j, live m i → (j < NSLOT)%nat → slot (V m) (ino i (F i)) j ≠ 0 →
    29 ≤ slot (V m) (ino i (F i)) j < freeblock m;
  bi_inj : ∀ i i' j j', live m i → live m i' → (j < NSLOT)%nat → (j' < NSLOT)%nat →
    slot (V m) (ino i (F i)) j ≠ 0 → slot (V m) (ino i (F i)) j = slot (V m) (ino i' (F i')) j' →
    i = i' ∧ j = j'
}.

(** A file has a block exactly where its size says so, and an indirect block exactly
    when it needs one. *)
Record sized (m : mkst) (i : Z) (d : dinode) : Prop := Sized {
  sz_max : 0 ≤ d_size d ≤ MAXFILE * BSIZE;
  sz_map : ∀ bn, 0 ≤ bn < MAXFILE → slot (V m) (ino i d) (dslot bn) ≠ 0 ↔ bn * BSIZE < d_size d;
  sz_ind : slot (V m) (ino i d) INDIRECT ≠ 0 ↔ NDIRECT * BSIZE < d_size d
}.

(** Nothing below the data has changed but the inodes and the bitmap. *)
Definition set_file (F : Z → dinode) (i : Z) (d : dinode) : Z → dinode :=
  λ j, if decide (i = j) then d else F j.

Lemma set_file_eq F i d : set_file F i d i = d.
Proof. unfold set_file. by rewrite decide_True. Qed.
Lemma set_file_ne F i d j : i ≠ j → set_file F i d j = F j.
Proof. intros. unfold set_file. by rewrite decide_False. Qed.

(** The content of a file depends on its addresses and the view. *)
Lemma slot_addrs s x y j : i_addrs x = i_addrs y → slot s x j = slot s y j.
Proof. intros E. unfold slot. by rewrite E. Qed.

Lemma fbyte_addrs s x y i : i_addrs x = i_addrs y → fbyte s x i = fbyte s y i.
Proof. intros E. unfold fbyte. by rewrite (slot_addrs s x y _ E). Qed.

Lemma sized_ext m i d m1 d1 : d_size d1 = d_size d →
  (∀ j, (j < NSLOT)%nat → slot (V m1) (ino i d1) j = slot (V m) (ino i d) j) →
  sized m i d → sized m1 i d1.
Proof.
  intros Ed Es [S1 S2 S3]. split.
  - by rewrite Ed.
  - intros bn Hbn. rewrite Ed, Es by apply dslot_lt, Hbn. by apply S2.
  - rewrite Ed, Es by (unfold INDIRECT, NSLOT; lia). exact S3.
Qed.

(** ** One slot of one file is filled *)

Section fill.
Context (m : mkst) (F : Z → dinode) (i0 : Z) (j0 : nat) (d1 : dinode) (img : gmap Z block).
Let d : dinode := F i0.
Let b0 : Z := freeblock m.
Let m1 : mkst := Mkst img (nsect m) (b0 + 1) (b0 + 1) (freeinode m).
Hypotheses (H : binv m F) (Hi0 : live m i0) (Hj0 : (j0 < NSLOT)%nat) (Hb0 : b0 < 994).
Hypothesis (H0 : slot (V m) (ino i0 d) j0 = 0).
Hypothesis (Hv : ∀ b, b ≠ slot (V m) (ino i0 d) INDIRECT ∨ b < 29 ∨ b0 ≤ b →
  fview (mounted img) b = fview (V m) b).
Hypothesis (Hl : ∀ b, length (fview (mounted img) b) = Z.to_nat BSIZE).
Hypothesis (Hs : ∀ j, (j < NSLOT)%nat → slot (mounted img) (ino i0 d1) j =
  if decide (j = j0) then b0 else slot (V m) (ino i0 d) j).
Hypothesis (Hd : dinode_ok d1).

Local Lemma fill_other i j : live m i → i ≠ i0 → (j < NSLOT)%nat →
  slot (mounted img) (ino i (F i)) j = slot (V m) (ino i (F i)) j.
Proof.
  intros Hi Hne Hj. unfold slot. destruct (decide (j < 13)%nat); [done|].
  destruct (Z.eqb_spec ((i_addrs (ino i (F i))).[INDIRECT]) 0) as [|Hz]; [done|].
  rewrite Hv; [done|]. left. intros E.
  destruct (bi_inj _ _ H i i0 INDIRECT INDIRECT) as [? _]; try done; unfold INDIRECT, NSLOT; lia.
Qed.

Local Lemma fill_file i j : live m i → (j < NSLOT)%nat →
  slot (mounted img) (ino i (set_file F i0 d1 i)) j =
  if decide (i = i0 ∧ j = j0) then b0 else slot (V m) (ino i (F i)) j.
Proof.
  intros Hi Hj. destruct (decide (i = i0)) as [->|Hne].
  - rewrite set_file_eq, Hs by done. destruct (decide (j = j0)).
    + by rewrite decide_True.
    + rewrite decide_False by tauto. done.
  - rewrite set_file_ne by done. rewrite fill_other by done. rewrite decide_False by tauto. done.
Qed.

Local Lemma fill_below i j : live m i → (j < NSLOT)%nat → slot (V m) (ino i (F i)) j ≠ b0.
Proof.
  intros Hi Hj E. destruct (bi_free _ _ H) as [_ Hf].
  destruct (bi_slot _ _ H i j Hi Hj) as [_ Hlt]; [unfold b0 in E; lia|]. unfold b0 in E. lia.
Qed.

Lemma fill_binv : binv m1 (set_file F i0 d1).
Proof.
  pose proof H as [B1 B2 B3 [B4 B4'] B5 B6 B7 B8 B9]. split.
  - exact B1.
  - exact Hl.
  - unfold sblock in *. simpl. rewrite Hv by lia. exact B3.
  - simpl. unfold b0 in *. lia.
  - intros b Hb. simpl in *. rewrite Hv by (unfold b0 in *; lia). apply B5. unfold b0 in Hb. lia.
  - exact B6.
  - intros i Hi. destruct (decide (i = i0)) as [->|Hne]; [by rewrite set_file_eq|].
    rewrite set_file_ne by done. by apply B7.
  - intros i j Hi Hj. simpl. rewrite fill_file by done. case_decide; intros Hz.
    + unfold b0. lia.
    + specialize (B8 i j Hi Hj Hz). unfold b0. lia.
  - intros i i' j j' Hi Hi' Hj Hj'. simpl. rewrite !fill_file by done.
    pose proof (fill_below i j Hi Hj) as N1. pose proof (fill_below i' j' Hi' Hj') as N2.
    destruct (decide (i = i0 ∧ j = j0)) as [[-> ->]|_], (decide (i' = i0 ∧ j' = j0)) as [[-> ->]|_];
      intros Hz E; [by split|by destruct N2|by destruct N1|by apply B9].
Qed.

Lemma fill_bytes i b : live m i → 0 ≤ b < MAXFILE * BSIZE →
  fbyte (mounted img) (ino i (set_file F i0 d1 i)) b = fbyte (V m) (ino i (F i)) b.
Proof.
  intros Hi Hb. pose proof (block_lt b Hb) as Hbn.
  destruct (dslot_lt _ Hbn) as [D1 D2]. unfold fbyte. rewrite fill_file by done.
  pose proof (bi_free _ _ H) as [_ Hf]. case_decide as E.
  - destruct E as [-> Ej]. fold d. rewrite Ej, H0. cbn [Z.eqb].
    destruct (Z.eqb_spec b0 0); [done|]. rewrite Hv by lia. rewrite (bi_fresh _ _ H) by (unfold b0; lia).
    apply nthz_replicate.
  - destruct (Z.eqb_spec (slot (V m) (ino i (F i)) (dslot (b / BSIZE))) 0) as [|Hz]; [done|].
    rewrite Hv; [done|]. left. intros Ee.
    destruct (bi_inj _ _ H i i0 (dslot (b / BSIZE)) INDIRECT) as [_ ?]; try done; unfold INDIRECT, NSLOT; lia.
Qed.
End fill.

(** Slot [j0] of file [i0] is there, and nothing else has changed. *)
Record filled_slot (m : mkst) (F : Z → dinode) (i0 : Z) (j0 : nat) (m1 : mkst) (d1 : dinode) : Prop := FilledSlot {
  fs_binv : binv m1 (set_file F i0 d1);
  fs_here : slot (V m1) (ino i0 d1) j0 ≠ 0;
  fs_same : ∀ i j, live m i → (j < NSLOT)%nat → ¬ (i = i0 ∧ j = j0) →
    slot (V m1) (ino i (set_file F i0 d1 i)) j = slot (V m) (ino i (F i)) j;
  fs_bytes : ∀ i b, live m i → 0 ≤ b < MAXFILE * BSIZE →
    fbyte (V m1) (ino i (set_file F i0 d1 i)) b = fbyte (V m) (ino i (F i)) b;
  fs_free : freeblock m1 = freeblock m + if slot (V m) (ino i0 (F i0)) j0 =? 0 then 1 else 0;
  fs_ino : freeinode m1 = freeinode m;
  fs_dinode : d1 = Dinode (d_type (F i0)) (d_major (F i0)) (d_minor (F i0)) (d_nlink (F i0))
    (d_size (F i0)) (d_addrs d1);
  fs_meta : ∀ b, b < 29 → fview (V m1) b = fview (V m) b
}.

Lemma set_file_id F i d j : F i = d → set_file F i d j = F j.
Proof. intros <-. unfold set_file. by case_decide; [subst|]. Qed.

Lemma binv_ext m F G : (∀ i, live m i → G i = F i) → binv m F → binv m G.
Proof.
  intros E [B1 B2 B3 B4 B5 B6 B7 B8 B9]. split; [done|done|done|done|done|done|..].
  - intros i Hi. rewrite E by done. by apply B7.
  - intros i j Hi. rewrite E by done. by apply B8.
  - intros i i' j j' Hi Hi'. rewrite !E by done. by apply B9.
Qed.

Lemma filled_slot_refl m F i0 j0 : binv m F → live m i0 → slot (V m) (ino i0 (F i0)) j0 ≠ 0 →
  filled_slot m F i0 j0 m (F i0).
Proof.
  intros H Hi Hz. pose proof (λ i, set_file_id F i0 (F i0) i eq_refl) as E. split.
  - by apply (binv_ext m F).
  - done.
  - intros i j _ _ _. by rewrite E.
  - intros i b _ _. by rewrite E.
  - destruct (Z.eqb_spec (slot (V m) (ino i0 (F i0)) j0) 0); [done|lia].
  - done.
  - by destruct (F i0).
  - done.
Qed.

(** Sectors of the image can be read. *)
Lemma rsect_eq m F b k : binv m F → b < 1024 → rsect b k m = Done (fview (V m) b) k m.
Proof.
  intros H Hb. unfold rsect. mb (gets_eq id k m). cbv [id]. rewrite (bi_len _ _ H).
  destruct (Z.ltb_spec b fssize) as [_|Hge]; [|change fssize with 1024 in Hge; lia].
  by rewrite mounted_view.
Qed.

Lemma wsect_eq m F a v k : binv m F → a < 1024 → wsect a v k m =
  Done tt k (Mkst (<[a := v]> (image m)) (nsect m) (freeblock m) (usedblocks m) (freeinode m)).
Proof.
  intros H Ha. unfold wsect. rewrite modify_eq. pose proof (bi_len _ _ H) as El.
  rewrite Z.max_l; [done|]. rewrite El. change fssize with 1024. lia.
Qed.

Lemma new_block_eq m F k : binv m F → freeblock m < 994 → new_block k m =
  Done (freeblock m) k (Mkst (image m) (nsect m) (freeblock m + 1) (freeblock m + 1) (freeinode m)).
Proof.
  intros H Hf. destruct (bi_free _ _ H) as [Eu Hr]. unfold new_block. mb (gets_eq freeblock k m).
  erewrite bind_Done by apply modify_eq. rewrite Eu, !u32_small by lia. done.
Qed.

Section addr.
Context (m : mkst) (F : Z → dinode) (i0 : Z) (k : kctx).
Let d : dinode := F i0.
Hypotheses (H : binv m F) (Hi0 : live m i0).

(** One of the addresses of the inode. *)
Lemma fill_addr_spec j0 : (j0 < 13)%nat → (slot (V m) (ino i0 d) j0 = 0 → freeblock m < 994) →
  ∃ m1 d1, fill_addr j0 d k m = Done d1 k m1 ∧ filled_slot m F i0 j0 m1 d1.
Proof.
  intros Hj Hf. pose proof (bi_dinode _ _ H i0 Hi0) as Hd. fold d in Hd. pose proof (bi_free _ _ H) as [_ Hr].
  assert (Es : (d_addrs d).[j0] = slot (V m) (ino i0 d) j0) by (unfold slot; by rewrite decide_True by done).
  unfold fill_addr. rewrite Es. destruct (Z.eqb_spec (slot (V m) (ino i0 d) j0) 0) as [E0|E0].
  2: { exists m, d. split; [done|]. by apply filled_slot_refl. }
  mb (new_block_eq m F k H (Hf E0)). eexists _, _. split; [reflexivity|].
  set (d1 := dset_addr j0 (freeblock m) d). pose proof (dn_addrs _ Hd) as Hlen.
  assert (Hs : ∀ j, (j < NSLOT)%nat → slot (V m) (ino i0 d1) j =
    if decide (j = j0) then freeblock m else slot (V m) (ino i0 d) j).
  { intros j _. unfold slot. cbn [i_addrs ino load_dinode d1 dset_addr d_addrs].
    destruct (decide (j < 13)%nat).
    - case_decide; [subst j; apply nthz_insert_eq; lia|by rewrite nthz_insert_ne].
    - rewrite (decide_False (P := j = j0)) by lia. destruct (decide (j0 = INDIRECT)) as [->|Hne].
      + rewrite nthz_insert_eq by lia. change ((d_addrs d).[INDIRECT]) with (slot (V m) (ino i0 d) INDIRECT).
        rewrite E0. cbn [Z.eqb]. destruct (freeblock m =? 0); [done|].
        rewrite (bi_fresh _ _ H) by lia. apply get32_zero.
      + by rewrite nthz_insert_ne. }
  assert (Hd1 : dinode_ok d1).
  { destruct Hd as [D1 D2 D3 D4 D5 D6 D7]. split; try done; simpl; [by rewrite length_insert|].
    intros j. destruct (decide (j = j0)) as [->|]; [rewrite nthz_insert_eq by lia; lia|by rewrite nthz_insert_ne]. }
  assert (Hjn : (j0 < NSLOT)%nat) by (unfold NSLOT; lia).
  split; cbn [image freeblock freeinode].
  - by apply (fill_binv m F i0 j0 d1 (image m)); try apply H; try apply Hf.
  - rewrite Hs, decide_True by done. lia.
  - intros i j Hi Hj' Hne. rewrite (fill_file m F i0 j0 d1 (image m)); try done. by rewrite decide_False.
  - intros i b Hi Hb. by apply (fill_bytes m F i0 j0 d1 (image m)).
  - fold d. rewrite E0. done.
  - done.
  - done.
  - done.
Qed.

End addr.

(** The slots of a file after entry [e] of its indirect block is set. *)
Lemma entry_img_slots m x e b0 j : let a := slot (V m) x INDIRECT in
  a ≠ 0 → (e < 128)%nat → length (fview (V m) a) = 512%nat → 0 ≤ b0 < 2 ^ 32 →
  slot (mounted (<[a := put32 (fview (V m) a) (4 * e) b0]> (image m))) x j =
    if decide (j = 13 + e)%nat then b0 else slot (V m) x j.
Proof.
  intros a Ha He Hl Hb. unfold slot at 1. destruct (decide (j < 13)%nat) as [Hj|Hj].
  - rewrite decide_False by lia. unfold slot. by rewrite decide_True.
  - change ((i_addrs x).[INDIRECT]) with a. rewrite (proj2 (Z.eqb_neq a 0) Ha).
    rewrite mounted_insert, decide_True by done. case_decide as Ej.
    + subst j. replace (13 + e - 13)%nat with e by lia. apply get32_put32_eq; [lia|done].
    + rewrite get32_put32_ne by lia. unfold slot. rewrite decide_False by done.
      change ((i_addrs x).[INDIRECT]) with a. by rewrite (proj2 (Z.eqb_neq a 0) Ha).
Qed.

Section entry.
Context (m : mkst) (F : Z → dinode) (i0 : Z) (k : kctx) (e : nat).
Let d : dinode := F i0.
Let a : Z := slot (V m) (ino i0 d) INDIRECT.
Hypotheses (H : binv m F) (Hi0 : live m i0) (He : (e < 128)%nat) (Ha : a ≠ 0).

Let code : M mkst (Z * dinode) :=
  indirect ← rsect a;
  indirect ←
    (if get32 indirect (4 * e) =? 0 then
       b ← new_block;
       wsect a (put32 indirect (4 * e) b);;
       mret (put32 indirect (4 * e) b)
     else mret indirect);
  mret (get32 indirect (4 * e), d).

Local Lemma addr_range : 29 ≤ a < freeblock m ∧ 29 ≤ freeblock m ≤ 994.
Proof.
  split; [|apply (bi_free _ _ H)].
  apply (bi_slot _ _ H i0 INDIRECT Hi0); [unfold INDIRECT, NSLOT; lia|exact Ha].
Qed.

Local Lemma entry_run : slot (V m) (ino i0 d) (13 + e) = 0 → freeblock m < 994 →
  code k m = Done (freeblock m, d) k
    (Mkst (<[a := put32 (fview (V m) a) (4 * e) (freeblock m)]> (image m)) (nsect m)
       (freeblock m + 1) (freeblock m + 1) (freeinode m)).
Proof.
  intros E0 Hf. destruct addr_range as [Hr1 Hr2].
  pose proof (entry_slot (V m) (ino i0 d) e Ha) as Es. fold a in Es.
  unfold code. mb (rsect_eq m F a k H ltac:(lia)). rewrite <- Es, E0. cbn [Z.eqb].
  set (v := put32 (fview (V m) a) (4 * e) (freeblock m)).
  assert (Ew : (b ← new_block; wsect a (put32 (fview (V m) a) (4 * e) b);;
    mret (put32 (fview (V m) a) (4 * e) b)) k m = Done v k (Mkst (<[a := v]> (image m)) (nsect m)
       (freeblock m + 1) (freeblock m + 1) (freeinode m))).
  { mb (new_block_eq m F k H Hf). unfold wsect. erewrite bind_Done by apply modify_eq.
    cbn [image nsect freeblock usedblocks freeinode]. rewrite Z.max_l; [done|].
    rewrite (bi_len _ _ H). change fssize with 1024. lia. }
  mb Ew. unfold v. rewrite get32_put32_eq; [done| |lia].
  rewrite (bi_sect _ _ H). change (Z.to_nat BSIZE) with 512%nat. lia.
Qed.

(** One of the entries of the indirect block. *)
Lemma fill_entry_spec : (slot (V m) (ino i0 d) (13 + e) = 0 → freeblock m < 994) →
  ∃ m1, code k m = Done (slot (V m1) (ino i0 d) (13 + e), d) k m1 ∧ filled_slot m F i0 (13 + e) m1 d.
Proof.
  intros Hf. destruct addr_range as [Hr1 Hr2].
  destruct (Z.eq_dec (slot (V m) (ino i0 d) (13 + e)) 0) as [E0|E0].
  2: { exists m. split; [|by apply filled_slot_refl]. unfold code. mb (rsect_eq m F a k H ltac:(lia)).
    pose proof (entry_slot (V m) (ino i0 d) e Ha) as Es. fold a in Es. rewrite <- Es.
    rewrite (proj2 (Z.eqb_neq _ 0) E0). mb (ret_eq (fview (V m) a) k m). by rewrite <- Es. }
  set (img := <[a := put32 (fview (V m) a) (4 * e) (freeblock m)]> (image m)).
  assert (Hs : ∀ j, (j < NSLOT)%nat → slot (mounted img) (ino i0 d) j =
    if decide (j = 13 + e)%nat then freeblock m else slot (V m) (ino i0 d) j).
  { intros j _. apply entry_img_slots; [exact Ha|exact He|exact (bi_sect _ _ H a)|lia]. }
  assert (Hv : ∀ b, b ≠ a ∨ b < 29 ∨ freeblock m ≤ b → fview (mounted img) b = fview (V m) b).
  { intros b Hb. unfold img. rewrite mounted_insert, decide_False by lia. done. }
  assert (Hl : ∀ b, length (fview (mounted img) b) = Z.to_nat BSIZE).
  { intros b. unfold img. rewrite mounted_insert. case_decide; [|apply H]. rewrite length_put32. apply H. }
  assert (Hjn : (13 + e < NSLOT)%nat) by (unfold NSLOT; lia).
  pose proof (bi_dinode _ _ H i0 Hi0) as Hd.
  exists (Mkst img (nsect m) (freeblock m + 1) (freeblock m + 1) (freeinode m)). split.
  { rewrite (entry_run E0 (Hf E0)). fold img. cbn [image]. rewrite Hs by done. by rewrite decide_True. }
  split; cbn [image freeblock freeinode]; fold img.
  - apply (fill_binv m F i0 (13 + e) d img); try done. by apply Hf.
  - rewrite Hs by done. rewrite decide_True by done. lia.
  - intros i j Hi Hj' Hne. rewrite (fill_file m F i0 (13 + e) d img); try done. by rewrite decide_False.
  - intros i b Hi Hb. by apply (fill_bytes m F i0 (13 + e) d img).
  - fold d. by rewrite E0.
  - done.
  - unfold d. by destruct (F i0).
  - intros b Hb. apply Hv. lia.
Qed.
End entry.

(** ** The block of a file at an offset *)

Definition one_if (b : bool) : Z := if b then 1 else 0.

Lemma one_if_nonneg b : 0 ≤ one_if b.
Proof. by destruct b. Qed.

(** The blocks that finding block [bn] takes. *)
Definition takes (m : mkst) (x : inode) (bn : Z) : Z :=
  one_if (empty (V m) x (dslot bn)) + one_if ((NDIRECT <=? bn) && empty (V m) x INDIRECT).

Record found_block (m : mkst) (F : Z → dinode) (i0 bn : Z) (m1 : mkst) (d1 : dinode) : Prop := FoundBlock {
  fb_binv : binv m1 (set_file F i0 d1);
  fb_here : slot (V m1) (ino i0 d1) (dslot bn) ≠ 0;
  fb_ind : slot (V m1) (ino i0 d1) INDIRECT ≠ 0 ↔ NDIRECT ≤ bn ∨ slot (V m) (ino i0 (F i0)) INDIRECT ≠ 0;
  fb_same : ∀ i j, live m i → (j < NSLOT)%nat → ¬ (i = i0 ∧ (j = dslot bn ∨ j = INDIRECT)) →
    slot (V m1) (ino i (set_file F i0 d1 i)) j = slot (V m) (ino i (F i)) j;
  fb_bytes : ∀ i b, live m i → 0 ≤ b < MAXFILE * BSIZE →
    fbyte (V m1) (ino i (set_file F i0 d1 i)) b = fbyte (V m) (ino i (F i)) b;
  fb_free : freeblock m1 = freeblock m + takes m (ino i0 (F i0)) bn;
  fb_ino : freeinode m1 = freeinode m;
  fb_dinode : d1 = Dinode (d_type (F i0)) (d_major (F i0)) (d_minor (F i0)) (d_nlink (F i0))
    (d_size (F i0)) (d_addrs d1);
  fb_meta : ∀ b, b < 29 → fview (V m1) b = fview (V m) b
}.

Lemma set_file_twice F i d d' j : set_file (set_file F i d) i d' j = set_file F i d' j.
Proof. unfold set_file. by case_decide. Qed.

Section find.
Context (m : mkst) (F : Z → dinode) (i0 bn : Z) (k : kctx).
Hypotheses (H : binv m F) (Hi0 : live m i0) (Hbn : 0 ≤ bn < MAXFILE).
Hypothesis (Hf : freeblock m + takes m (ino i0 (F i0)) bn ≤ 994).

Local Lemma find_direct : bn < NDIRECT → ∃ m1 d1,
  find_block bn (F i0) k m = Done (slot (V m1) (ino i0 d1) (dslot bn), d1) k m1 ∧
  found_block m F i0 bn m1 d1.
Proof.
  intros Hd. assert (Ej : dslot bn = Z.to_nat bn).
  { unfold dslot. by rewrite (proj2 (Z.ltb_lt _ _) Hd). }
  assert (Hlt : (Z.to_nat bn < 13)%nat) by (change NDIRECT with 12 in Hd; lia).
  assert (Et : takes m (ino i0 (F i0)) bn = one_if (empty (V m) (ino i0 (F i0)) (Z.to_nat bn))).
  { unfold takes. rewrite Ej, (proj2 (Z.leb_gt _ _) Hd). cbn [andb one_if]. lia. }
  destruct (fill_addr_spec m F i0 k H Hi0 (Z.to_nat bn) Hlt) as (m1 & d1 & E & [S1 S2 S3 S4 S5 S6 S7 S8]).
  { intros E0. rewrite Et in Hf. unfold empty in Hf. rewrite E0 in Hf. cbn [Z.eqb one_if] in Hf. lia. }
  exists m1, d1. split.
  { unfold find_block. rewrite (proj2 (Z.ltb_lt _ _) Hd). mb E. rewrite Ej.
    unfold slot. by rewrite decide_True. }
  split; rewrite ?Ej; try assumption.
  - rewrite <- (set_file_eq F i0 d1) at 1. rewrite S3; [|done|unfold INDIRECT, NSLOT; lia|].
    + split; [by right|]. intros [?|?]; [lia|done].
    + change NDIRECT with 12 in Hd. unfold INDIRECT. lia.
  - intros i j Hi Hj Hn. apply S3; [done|done|]. tauto.
  - rewrite S5, Et. done.
Qed.

Local Lemma find_indirect : NDIRECT ≤ bn → ∃ m1 d1,
  find_block bn (F i0) k m = Done (slot (V m1) (ino i0 d1) (dslot bn), d1) k m1 ∧
  found_block m F i0 bn m1 d1.
Proof.
  intros Hd. set (e := Z.to_nat (bn - NDIRECT)).
  assert (Ej : dslot bn = (13 + e)%nat).
  { unfold dslot, e. rewrite (proj2 (Z.ltb_ge _ _) Hd). change NDIRECT with 12 in *. lia. }
  assert (He : (e < 128)%nat) by (unfold e; change NDIRECT with 12 in *; change MAXFILE with 140 in *; lia).
  assert (Et : takes m (ino i0 (F i0)) bn =
    one_if (empty (V m) (ino i0 (F i0)) (13 + e)) + one_if (empty (V m) (ino i0 (F i0)) INDIRECT)).
  { unfold takes. by rewrite Ej, (proj2 (Z.leb_le _ _) Hd). }
  rewrite Et in Hf. unfold empty in Hf.
  destruct (fill_addr_spec m F i0 k H Hi0 INDIRECT ltac:(unfold INDIRECT; lia)) as (m1 & d1 & E1 & [S1 S2 S3 S4 S5 S6 S7 S8]).
  { intros E0. rewrite E0 in Hf. cbn [Z.eqb one_if] in Hf. pose proof (one_if_nonneg (slot (V m) (ino i0 (F i0)) (13 + e) =? 0)). lia. }
  set (F1 := set_file F i0 d1) in *. assert (EF : F1 i0 = d1) by apply set_file_eq.
  assert (L1 : ∀ i, live m i → live m1 i) by (intros i; unfold live; by rewrite S6).
  assert (Es : slot (V m1) (ino i0 d1) (13 + e) = slot (V m) (ino i0 (F i0)) (13 + e)).
  { rewrite <- EF. apply S3; [done|unfold NSLOT; lia|]. unfold INDIRECT. lia. }
  destruct (fill_entry_spec m1 F1 i0 k e S1 (L1 _ Hi0) He) as (m2 & E2 & T); [by rewrite EF| |].
  { rewrite EF, Es. intros E0. rewrite E0 in Hf. cbn [Z.eqb one_if] in Hf. rewrite S5.
    unfold one_if in Hf. lia. }
  rewrite EF in E2, T. destruct T as [T1 T2 T3 T4 T5 T6 T7 T8]. rewrite EF, Es in T5.
  assert (EG : ∀ i, set_file F1 i0 d1 i = F1 i) by (intros i; by apply set_file_id).
  exists m2, d1. rewrite Ej. split.
  { unfold find_block. rewrite (proj2 (Z.ltb_ge _ _) Hd). mb E1. exact E2. }
  split; rewrite ?Ej; try assumption.
  - by apply (binv_ext m2 (set_file F1 i0 d1)).
  - split; [by left|]. intros _. rewrite <- EF, <- (EG i0) at 1.
    rewrite T3; [by rewrite EF|by apply L1|unfold INDIRECT, NSLOT; lia|unfold INDIRECT; lia].
  - intros i j Hi Hj Hn. rewrite <- EG. rewrite T3; [apply S3; tauto|by apply L1|done|tauto].
  - intros i b Hi Hb. rewrite <- EG. rewrite T4; [by apply S4|by apply L1|done].
  - rewrite T5, S5, Et. unfold empty, one_if. lia.
  - by rewrite T6.
  - intros b Hb. rewrite T8 by done. by apply S8.
Qed.

Lemma find_block_spec : ∃ m1 d1,
  find_block bn (F i0) k m = Done (slot (V m1) (ino i0 d1) (dslot bn), d1) k m1 ∧
  found_block m F i0 bn m1 d1.
Proof.
  destruct (Z.lt_ge_cases bn NDIRECT); [by apply find_direct|by apply find_indirect].
Qed.
End find.

(** ** A data block of a file is written *)

Section data.
Context (m : mkst) (F : Z → dinode) (i0 bn : Z) (v : block).
Let a : Z := slot (V m) (ino i0 (F i0)) (dslot bn).
Let m1 : mkst := Mkst (<[a := v]> (image m)) (nsect m) (freeblock m) (usedblocks m) (freeinode m).
Hypotheses (H : binv m F) (Hi0 : live m i0) (Hbn : 0 ≤ bn < MAXFILE) (Ha : a ≠ 0).

Local Lemma data_range : 29 ≤ a < freeblock m.
Proof. apply (bi_slot _ _ H i0 _ Hi0); [apply dslot_lt, Hbn|exact Ha]. Qed.

Local Lemma data_view b : fview (V m1) b = if decide (a = b) then v else fview (V m) b.
Proof. apply mounted_insert. Qed.

Lemma data_slots i j : live m i → (j < NSLOT)%nat →
  slot (V m1) (ino i (F i)) j = slot (V m) (ino i (F i)) j.
Proof.
  intros Hi Hj. unfold slot. destruct (decide (j < 13)%nat); [done|].
  destruct (Z.eqb_spec ((i_addrs (ino i (F i))).[INDIRECT]) 0) as [|Hz]; [done|].
  rewrite data_view, decide_False; [done|]. intros E. destruct (dslot_lt _ Hbn) as [D1 D2].
  destruct (bi_inj _ _ H i0 i (dslot bn) INDIRECT) as [_ ?]; try done; unfold INDIRECT, NSLOT; lia.
Qed.

Lemma data_binv : length v = Z.to_nat BSIZE → binv m1 F.
Proof.
  intros Hv. pose proof data_range as Hr. pose proof H as [B1 B2 B3 B4 B5 B6 B7 B8 B9].
  split; [exact B1| | |exact B4| |exact B6|exact B7| |].
  - intros b. rewrite data_view. case_decide; [exact Hv|apply B2].
  - unfold sblock in *. rewrite data_view, decide_False by lia. exact B3.
  - intros b Hb. cbn [freeblock m1] in Hb. rewrite data_view, decide_False by lia. by apply B5.
  - intros i j Hi Hj. rewrite data_slots by done. by apply B8.
  - intros i i' j j' Hi Hi' Hj Hj'. rewrite !data_slots by done. by apply B9.
Qed.

Lemma data_bytes i b : live m i → 0 ≤ b < MAXFILE * BSIZE →
  fbyte (V m1) (ino i (F i)) b =
  if decide (i = i0 ∧ b / BSIZE = bn) then v.[Z.to_nat (b mod BSIZE)] else fbyte (V m) (ino i (F i)) b.
Proof.
  intros Hi Hb. pose proof (block_lt b Hb) as Hbn'.
  destruct (dslot_lt _ Hbn') as [D1 D2]. unfold fbyte. rewrite data_slots by done. case_decide as E.
  - destruct E as [-> ->]. fold a. rewrite (proj2 (Z.eqb_neq _ _) Ha).
    by rewrite data_view, decide_True.
  - destruct (Z.eqb_spec (slot (V m) (ino i (F i)) (dslot (b / BSIZE))) 0) as [|Hz]; [done|].
    rewrite data_view, decide_False; [done|]. intros Ee. apply E.
    destruct (bi_inj _ _ H i0 i (dslot bn) (dslot (b / BSIZE))) as [? Es]; try done.
    + apply dslot_lt, Hbn.
    + split; [done|]. apply dslot_inj; [lia|lia|done].
Qed.
End data.

(** ** Bytes are appended to a file *)

(** The blocks a file of [sz] bytes has, the indirect block included. *)
Definition blocks_of (sz : Z) : Z := (sz + 511) / 512 + one_if (NDIRECT * BSIZE <? sz).

Record appended (m : mkst) (F : Z → dinode) (i0 off : Z) (p : list Z) (m1 : mkst) (d1 : dinode) : Prop := Appended {
  ap_binv : binv m1 (set_file F i0 d1);
  ap_sized : sized m1 i0 (dset_size (off + Z.of_nat (length p)) d1);
  ap_same : ∀ i j, live m i → i ≠ i0 → (j < NSLOT)%nat →
    slot (V m1) (ino i (F i)) j = slot (V m) (ino i (F i)) j;
  ap_bytes : ∀ i b, live m i → 0 ≤ b < MAXFILE * BSIZE →
    fbyte (V m1) (ino i (set_file F i0 d1 i)) b =
    if decide (i = i0 ∧ off ≤ b < off + Z.of_nat (length p)) then p.[Z.to_nat (b - off)]
    else fbyte (V m) (ino i (F i)) b;
  ap_free : freeblock m1 = freeblock m + blocks_of (off + Z.of_nat (length p)) - blocks_of off;
  ap_ino : freeinode m1 = freeinode m;
  ap_dinode : d1 = Dinode (d_type (F i0)) (d_major (F i0)) (d_minor (F i0)) (d_nlink (F i0))
    (d_size (F i0)) (d_addrs d1);
  ap_meta : ∀ b, b < 29 → fview (V m1) b = fview (V m) b
}.

Lemma appended_nil m F i0 off : binv m F → live m i0 → sized m i0 (dset_size off (F i0)) →
  appended m F i0 off [] m (F i0).
Proof.
  intros H Hi Hs. pose proof (λ i, set_file_id F i0 (F i0) i eq_refl) as E. split.
  - by apply (binv_ext m F).
  - cbn [length]. by rewrite Z.add_0_r.
  - done.
  - intros i b _ _. rewrite E, decide_False; [done|]. cbn [length]. lia.
  - cbn [length]. rewrite Z.add_0_r. lia.
  - done.
  - by destruct (F i0).
  - done.
Qed.

Lemma appended_trans m F i0 off p q m1 d1 m2 d2 : 0 ≤ off → live m i0 → appended m F i0 off p m1 d1 →
  appended m1 (set_file F i0 d1) i0 (off + Z.of_nat (length p)) q m2 d2 →
  appended m F i0 off (p ++ q) m2 d2.
Proof.
  intros Ho Hi0 [A1 A2 A3 A4 A5 A6 A7 A8] [B1 B2 B3 B4 B5 B6 B7 B8].
  rewrite set_file_eq in B7. assert (L : ∀ i, live m i → live m1 i) by (intros i; unfold live; by rewrite A6).
  assert (El : Z.of_nat (length (p ++ q)) = Z.of_nat (length p) + Z.of_nat (length q)).
  { rewrite length_app. lia. }
  split; rewrite ?El, ?Z.add_assoc; try assumption.
  - apply (binv_ext m2 (set_file (set_file F i0 d1) i0 d2)); [|done]. intros i _. by rewrite set_file_twice.
  - intros i j Hi Hn Hj. rewrite <- (A3 i j) by done. specialize (B3 i j (L i Hi) Hn Hj).
    by rewrite set_file_ne in B3 by done.
  - intros i b Hi Hb. specialize (B4 i b (L i Hi) Hb). rewrite set_file_twice, A4 in B4 by done. rewrite B4.
    destruct (decide (i = i0)) as [->|Hn].
    2: { rewrite !decide_False by tauto. done. }
    destruct (decide (i0 = i0 ∧ off + Z.of_nat (length p) ≤ b < off + Z.of_nat (length p) + Z.of_nat (length q))) as [E|E].
    + rewrite decide_True by lia. rewrite nthz_app_r by lia. f_equal. lia.
    + destruct (decide (i0 = i0 ∧ off ≤ b < off + Z.of_nat (length p))) as [E'|E'].
      * rewrite decide_True by lia. by rewrite nthz_app_l by lia.
      * rewrite decide_False by lia. done.
  - rewrite B5, A5. lia.
  - by rewrite B6.
  - rewrite B7, A7. done.
  - intros b Hb. rewrite B8 by done. by apply A8.
Qed.

Lemma blocks_of_step off n : 0 ≤ off → 1 ≤ n → off mod 512 + n ≤ 512 →
  blocks_of (off + n) - blocks_of off =
  one_if (off mod 512 =? 0) + one_if ((12 <=? off / 512) && negb (6144 <? off)).
Proof.
  intros Ho Hn Hm. unfold blocks_of, one_if. change (NDIRECT * BSIZE) with 6144.
  pose proof (Z.div_mod off 512 ltac:(lia)) as Ed. pose proof (Z.mod_pos_bound off 512 ltac:(lia)) as Hb.
  set (q := off / 512) in *. set (r := off mod 512) in *.
  assert (E1 : (off + n + 511) / 512 = q + 1).
  { symmetry. apply (Z.div_unique _ _ _ (r + n - 1)); lia. }
  assert (E2 : (off + 511) / 512 = if r =? 0 then q else q + 1).
  { symmetry. destruct (Z.eqb_spec r 0).
    - apply (Z.div_unique _ _ _ 511); lia.
    - apply (Z.div_unique _ _ _ (r - 1)); lia. }
  rewrite E1, E2. destruct (Z.eqb_spec r 0), (Z.leb_spec 12 q), (Z.ltb_spec 6144 off), (Z.ltb_spec 6144 (off + n));
    cbn [negb andb]; lia.
Qed.

Lemma takes_sized m i d off : sized m i (dset_size off d) → 0 ≤ off < MAXFILE * BSIZE →
  takes m (ino i d) (off / 512) =
  one_if (off mod 512 =? 0) + one_if ((12 <=? off / 512) && negb (6144 <? off)).
Proof.
  intros [_ S2 S3] Ho. pose proof (block_lt off Ho) as Hbn. change (MAXFILE * BSIZE) with 71680 in Ho.
  change (NDIRECT * BSIZE) with 6144 in S3. cbn [d_size dset_size] in S2, S3.
  specialize (S2 _ Hbn). change BSIZE with 512 in S2.
  unfold takes, empty. change NDIRECT with 12.
  change (slot (V m) (ino i (dset_size off d))) with (slot (V m) (ino i d)) in *.
  pose proof (Z.div_mod off 512 ltac:(lia)). pose proof (Z.mod_pos_bound off 512 ltac:(lia)).
  f_equal.
  - f_equal. destruct (Z.eqb_spec (slot (V m) (ino i d) (dslot (off / 512))) 0), (Z.eqb_spec (off mod 512) 0); try done.
    + exfalso. apply S2; [lia|done].
    + exfalso. lia.
  - f_equal. f_equal. destruct (Z.eqb_spec (slot (V m) (ino i d) INDIRECT) 0), (Z.ltb_spec 6144 off); try done.
    + exfalso. apply S3; [lia|done].
    + exfalso. lia.
Qed.

(** One round of the loop of iappend: [q] goes into the block at [off]. *)
Section round.
Context (m : mkst) (F : Z → dinode) (i0 off : Z) (q : list Z) (k : kctx).
Let n : Z := Z.of_nat (length q).
Hypotheses (H : binv m F) (Hi0 : live m i0) (Hs : sized m i0 (dset_size off (F i0))).
Hypotheses (Ho : 0 ≤ off < MAXFILE * BSIZE) (Hq : 1 ≤ n) (Hm : off mod 512 + n ≤ 512).

(** The bytes of the files after the round. *)
Local Lemma round_bytes m1 F1 i b : let a := slot (V m1) (ino i0 (F1 i0)) (dslot (off / 512)) in
  let v := splice (fview (V m1) a) (Z.to_nat (off mod 512)) q in
  binv m1 F1 → live m1 i0 → a ≠ 0 → live m1 i → 0 ≤ b < MAXFILE * BSIZE →
  fbyte (mounted (<[a := v]> (image m1))) (ino i (F1 i)) b =
  if decide (i = i0 ∧ off ≤ b < off + n) then q.[Z.to_nat (b - off)] else fbyte (V m1) (ino i (F1 i)) b.
Proof.
  intros a v H1 Hl Ha Hi Hb. pose proof (bi_sect _ _ H1 a) as Ev. change (Z.to_nat BSIZE) with 512%nat in Ev.
  pose proof (Z.div_mod off 512 ltac:(lia)) as Ed. pose proof (Z.mod_pos_bound off 512 ltac:(lia)).
  pose proof (Z.div_mod b 512 ltac:(lia)) as Eb. pose proof (Z.mod_pos_bound b 512 ltac:(lia)).
  pose proof (block_lt off Ho) as Hbn. change BSIZE with 512 in Hbn.
  etrans; [exact (data_bytes m1 F1 i0 (off / 512) v H1 Hl Hbn Ha i b Hi Hb)|]. change BSIZE with 512.
  destruct (decide (i = i0 ∧ b / 512 = off / 512)) as [[-> Eq]|Hne].
  - unfold v. rewrite nthz_splice by lia. case_decide as E1.
    + rewrite decide_True by lia. f_equal. lia.
    + rewrite decide_False by lia. unfold fbyte. change BSIZE with 512. rewrite Eq. fold a.
      by rewrite (proj2 (Z.eqb_neq _ _) Ha).
  - rewrite decide_False; [done|]. intros [-> Hr]. apply Hne. split; [done|].
    symmetry. apply (Z.div_unique _ _ _ (b - off / 512 * 512)); lia.
Qed.

Local Lemma round_sized m1 d1 : found_block m F i0 (off / 512) m1 d1 →
  sized m1 i0 (dset_size (off + n) d1).
Proof.
  intros Hf. pose proof (fb_here _ _ _ _ _ _ Hf) as Hh. destruct Hs as [S1 S2 S3]. cbn [d_size dset_size] in *.
  pose proof (Z.div_mod off 512 ltac:(lia)) as Ed. pose proof (Z.mod_pos_bound off 512 ltac:(lia)).
  change (NDIRECT * BSIZE) with 6144 in *. change (MAXFILE * BSIZE) with 71680 in *.
  split; cbn [d_size dset_size].
  - change (MAXFILE * BSIZE) with 71680.
    assert (off / 512 < 140) by (apply Z.div_lt_upper_bound; lia). lia.
  - intros bn Hbn. destruct (decide (bn = off / 512)) as [->|Hne].
    + split; [intros _; change BSIZE with 512; lia|intros _; exact Hh].
    + rewrite (slot_addrs _ _ (ino i0 d1)) by done. rewrite <- (set_file_eq F i0 d1) at 1.
      rewrite (fb_same _ _ _ _ _ _ Hf).
      * rewrite (slot_addrs _ _ (ino i0 (dset_size off (F i0)))) by done.
        rewrite S2 by done. change BSIZE with 512. lia.
      * done.
      * by apply dslot_lt.
      * destruct (dslot_lt _ Hbn) as [_ D]. intros [_ [E|E]]; [|by destruct D].
        apply Hne, dslot_inj; [lia|apply Z.div_pos; lia|done].
  - change (NDIRECT * BSIZE) with 6144. rewrite (slot_addrs _ _ (ino i0 d1)) by done.
    rewrite (fb_ind _ _ _ _ _ _ Hf). change NDIRECT with 12.
    rewrite (slot_addrs _ _ (ino i0 (dset_size off (F i0)))), S3 by done. lia.
Qed.

Lemma round_spec : freeblock m + blocks_of (off + n) - blocks_of off ≤ 994 → ∃ m1 d1,
  (∀ A (rest : dinode → M mkst A),
    (r ← find_block (off / 512) (F i0);
     buf ← rsect r.1;
     wsect r.1 (splice buf (Z.to_nat (off - off / 512 * 512)) q);;
     rest r.2) k m = rest d1 k m1) ∧ appended m F i0 off q m1 d1.
Proof.
  intros Hfr. pose proof (blocks_of_step off n ltac:(lia) Hq Hm) as Eb.
  pose proof (takes_sized m i0 (F i0) off Hs Ho) as Et. pose proof (block_lt off Ho) as Hbn.
  change BSIZE with 512 in Hbn.
  destruct (find_block_spec m F i0 (off / 512) k H Hi0 Hbn ltac:(lia)) as (m1 & d1 & E1 & Hf).
  pose proof (round_sized m1 d1 Hf) as Hsz. destruct Hf as [F1 F2 F3 F4 F5 F6 F7 F8 F9].
  set (G := set_file F i0 d1) in *. assert (EG : G i0 = d1) by apply set_file_eq.
  assert (L : ∀ i, live m i → live m1 i) by (intros i; unfold live; by rewrite F7).
  rewrite <- EG in E1, F2. set (a := slot (V m1) (ino i0 (G i0)) (dslot (off / 512))) in *.
  pose proof (data_range m1 G i0 (off / 512) F1 (L _ Hi0) Hbn F2) as Ha. fold a in Ha.
  pose proof (bi_free _ _ F1) as [_ Hfb].
  pose proof (Z.mod_pos_bound off 512 ltac:(lia)) as Hmo. pose proof (bi_sect _ _ F1 a) as Ev.
  change (Z.to_nat BSIZE) with 512%nat in Ev.
  assert (Hlv : length (splice (fview (V m1) a) (Z.to_nat (off mod 512)) q) = Z.to_nat BSIZE).
  { rewrite length_splice; [exact Ev|]. unfold n in Hm. lia. }
  eexists _, d1. split.
  { intros A rest. mb E1. cbn [fst snd]. mb (rsect_eq m1 G a k F1 ltac:(lia)).
    replace (off - off / 512 * 512) with (off mod 512) by (rewrite Z.mod_eq; lia).
    mb (wsect_eq m1 G a (splice (fview (V m1) a) (Z.to_nat (off mod 512)) q) k F1 ltac:(lia)).
    by rewrite EG. }
  pose proof (data_slots m1 G i0 (off / 512) (splice (fview (V m1) a) (Z.to_nat (off mod 512)) q) F1 (L _ Hi0) Hbn F2) as Hsl.
  fold a in Hsl. cbn [image] in Hsl.
  split; cbn [image freeblock freeinode].
  - exact (data_binv m1 G i0 (off / 512) _ F1 (L _ Hi0) Hbn F2 Hlv).
  - refine (sized_ext m1 i0 _ _ _ eq_refl _ Hsz). intros j Hj. rewrite <- EG.
    exact (Hsl i0 j (L _ Hi0) Hj).
  - intros i j Hi Hn Hj. specialize (Hsl i j (L i Hi) Hj). specialize (F4 i j Hi Hj ltac:(tauto)).
    assert (EF : G i = F i) by (by apply set_file_ne). rewrite EF in Hsl, F4. by rewrite Hsl.
  - intros i b Hi Hb. fold n. rewrite <- F5 by done.
    by apply (round_bytes m1 G i b F1 (L _ Hi0) F2 (L _ Hi)).
  - fold n. lia.
  - exact F7.
  - exact F8.
  - intros b Hb. rewrite mounted_insert, decide_False by lia. by apply F9.
Qed.
End round.

Lemma blocks_of_mono a b : a ≤ b → blocks_of a ≤ blocks_of b.
Proof.
  intros Hab. unfold blocks_of, one_if. change (NDIRECT * BSIZE) with 6144.
  pose proof (Z.div_le_mono (a + 511) (b + 511) 512 ltac:(lia) ltac:(lia)).
  destruct (Z.ltb_spec 6144 a), (Z.ltb_spec 6144 b); lia.
Qed.

Lemma iappend_loop_round fuel d off p : p ≠ [] → off / 512 < MAXFILE →
  let n1 := Z.min (Z.of_nat (length p)) ((off / 512 + 1) * 512 - off) in
  iappend_loop (S fuel) d off p =
    (r ← find_block (off / 512) d;
     buf ← rsect r.1;
     wsect r.1 (splice buf (Z.to_nat (off - off / 512 * 512)) (take (Z.to_nat n1) p));;
     iappend_loop fuel r.2 (off + n1) (drop (Z.to_nat n1) p)).
Proof.
  intros Hp Hb. destruct p as [|c p]; [done|]. cbn [iappend_loop].
  by rewrite (proj2 (Z.ltb_lt _ _) Hb).
Qed.

Lemma iappend_loop_spec i0 k fuel : ∀ m F off p, let n := Z.of_nat (length p) in
  binv m F → live m i0 → sized m i0 (dset_size off (F i0)) →
  0 ≤ off → off + n ≤ MAXFILE * BSIZE → freeblock m + blocks_of (off + n) - blocks_of off ≤ 994 →
  (1 ≤ fuel)%nat → (p ≠ [] → off mod 512 + n ≤ 512 * (Z.of_nat fuel - 1)) → ∃ m1 d1,
  iappend_loop fuel (F i0) off p k m = Done (off + n, d1) k m1 ∧ appended m F i0 off p m1 d1.
Proof.
  induction fuel as [|fuel IH]; intros m F off p n H Hi Hs Ho Hmax Hf Hfu Hp; [lia|].
  destruct (decide (p = [])) as [Ep|Hne].
  { subst p. exists m, (F i0). split; [unfold n; cbn [length]; by rewrite Z.add_0_r|]. by apply appended_nil. }
  specialize (Hp Hne). assert (Hn1 : 1 ≤ n) by (destruct p; [done|]; unfold n; cbn [length]; lia).
  change (MAXFILE * BSIZE) with 71680 in *.
  pose proof (Z.mod_pos_bound off 512 ltac:(lia)) as Hmo. pose proof (Z.div_mod off 512 ltac:(lia)) as Ed.
  pose proof (block_lt off ltac:(change (MAXFILE * BSIZE) with 71680; lia)) as Hbn. change BSIZE with 512 in Hbn.
  rewrite iappend_loop_round by tauto.
  set (n1 := Z.min (Z.of_nat (length p)) ((off / 512 + 1) * 512 - off)).
  set (q := take (Z.to_nat n1) p). set (p' := drop (Z.to_nat n1) p).
  assert (Eq : Z.of_nat (length q) = n1) by (unfold q; rewrite length_take; lia).
  assert (Ep' : Z.of_nat (length p') = n - n1) by (unfold p'; rewrite length_drop; lia).
  pose proof (blocks_of_mono (off + n1) (off + n) ltac:(lia)) as Hmono.
  destruct (round_spec m F i0 off q k H Hi Hs) as (m1 & d1 & E1 & A1); rewrite ?Eq; try lia.
  { change (MAXFILE * BSIZE) with 71680. lia. }
  pose proof A1 as [B1 B2 _ _ B5 B6 _ _]. rewrite Eq in B2, B5.
  assert (Ed1 : set_file F i0 d1 i0 = d1) by apply set_file_eq.
  destruct (IH m1 (set_file F i0 d1) (off + n1) p') as (m2 & d2 & E2 & A2); rewrite ?Ed1, ?Ep'; try done.
  - unfold live. by rewrite B6.
  - lia.
  - change (MAXFILE * BSIZE) with 71680. lia.
  - replace (off + n1 + (n - n1)) with (off + n) by lia. lia.
  - lia.
  - intros Hne'. assert (Hlt : n1 < n).
    { destruct p'; [done|]. cbn [length] in Ep'. lia. }
    replace (off + n1) with ((off / 512 + 1) * 512) by lia. rewrite Z_mod_mult. lia.
  - exists m2, d2. split.
    + rewrite (E1 _ (λ d, iappend_loop fuel d (off + n1) p')).
      rewrite Ed1 in E2. rewrite E2, Ep'. by replace (off + n1 + (n - n1)) with (off + n) by lia.
    + replace p with (q ++ p') by apply take_drop. apply (appended_trans _ _ _ _ _ _ m1 d1); try done.
      by rewrite Eq.
Qed.

(** ** A block below the data is written: an inode block or the bitmap *)

Section meta.
Context (m : mkst) (F : Z → dinode) (b0 : Z) (v : block).
Let m1 : mkst := Mkst (<[b0 := v]> (image m)) (nsect m) (freeblock m) (usedblocks m) (freeinode m).
Hypotheses (H : binv m F) (Hb0 : 1 < b0 < 29).

Local Lemma image_write b : fview (V m1) b = if decide (b0 = b) then v else fview (V m) b.
Proof. apply mounted_insert. Qed.

Local Lemma meta_view b : 29 ≤ b → fview (V m1) b = fview (V m) b.
Proof. intros Hb. by rewrite image_write, decide_False by lia. Qed.

Lemma meta_slots i j : live m i → (j < NSLOT)%nat →
  slot (V m1) (ino i (F i)) j = slot (V m) (ino i (F i)) j.
Proof.
  intros Hi Hj. unfold slot. destruct (decide (j < 13)%nat); [done|].
  destruct (Z.eqb_spec ((i_addrs (ino i (F i))).[INDIRECT]) 0) as [|Hz]; [done|].
  rewrite meta_view; [done|].
  apply (bi_slot _ _ H i INDIRECT Hi); [unfold INDIRECT, NSLOT; lia|exact Hz].
Qed.

Lemma meta_bytes i b : live m i → 0 ≤ b < MAXFILE * BSIZE →
  fbyte (V m1) (ino i (F i)) b = fbyte (V m) (ino i (F i)) b.
Proof.
  intros Hi Hb. pose proof (dslot_lt _ (block_lt b Hb)) as [D _]. unfold fbyte. rewrite meta_slots by done.
  destruct (Z.eqb_spec (slot (V m) (ino i (F i)) (dslot (b / BSIZE))) 0) as [|Hz]; [done|].
  rewrite meta_view; [done|]. by apply (bi_slot _ _ H).
Qed.

Lemma meta_binv : length v = Z.to_nat BSIZE → binv m1 F.
Proof.
  intros Hv. pose proof H as [B1 B2 B3 B4 B5 B6 B7 B8 B9].
  split; [exact B1| | |exact B4| |exact B6|exact B7| |].
  - intros b. rewrite image_write. case_decide; [exact Hv|apply B2].
  - unfold sblock in *. rewrite image_write, decide_False by lia. exact B3.
  - intros b Hb. cbn [freeblock m1] in Hb. rewrite meta_view by lia. by apply B5.
  - intros i j Hi Hj. rewrite meta_slots by done. by apply B8.
  - intros i i' j j' Hi Hi' Hj Hj'. rewrite !meta_slots by done. by apply B9.
Qed.
End meta.

(** Inode [i] on the disk becomes [d]; nothing else changes. *)
Record inode_set (m : mkst) (F : Z → dinode) (i : Z) (d : dinode) (m1 : mkst) : Prop := InodeSet {
  is_binv : binv m1 F;
  is_slots : ∀ i j, live m i → (j < NSLOT)%nat → slot (V m1) (ino i (F i)) j = slot (V m) (ino i (F i)) j;
  is_bytes : ∀ i b, live m i → 0 ≤ b < MAXFILE * BSIZE →
    fbyte (V m1) (ino i (F i)) b = fbyte (V m) (ino i (F i)) b;
  is_free : freeblock m1 = freeblock m;
  is_ino : freeinode m1 = freeinode m;
  is_disk : disk_inode (V m1) i = d;
  is_other : ∀ i', 0 ≤ i' → i' ≠ i → disk_inode (V m1) i' = disk_inode (V m) i'
}.

Lemma IBLOCK_range i : 0 ≤ i < ninodes → 1 < IBLOCK i < 27.
Proof.
  change ninodes with 200. unfold IBLOCK. change IPB with 8. intros Hi.
  pose proof (Z.div_pos i 8 ltac:(lia) ltac:(lia)). pose proof (Z.div_lt_upper_bound i 8 25 ltac:(lia) ltac:(lia)). lia.
Qed.

Lemma winode_spec m F i d k : binv m F → 0 ≤ i < ninodes → dinode_ok d →
  ∃ m1, winode i d k m = Done tt k m1 ∧ inode_set m F i d m1.
Proof.
  intros H Hi Hd. pose proof (IBLOCK_range i Hi) as Hb. pose proof (bi_sect _ _ H (IBLOCK i)) as Hl.
  eexists. split.
  { unfold winode. change (i2b i) with (IBLOCK i). mb (rsect_eq m F (IBLOCK i) k H ltac:(lia)).
    apply (wsect_eq m F _ _ k H). lia. }
  set (v := put_dinode (fview (V m) (IBLOCK i)) (dinode_off i) d).
  destruct (iupdate_disk (V m) (mounted (<[IBLOCK i := v]> (image m))) i d Hl) as [D1 D2]; [lia|done| |].
  { intros b. rewrite mounted_insert. case_decide as E; [by subst b|done]. }
  split; cbn [image freeblock freeinode].
  - apply (meta_binv m F (IBLOCK i) v H ltac:(lia)). unfold v. by rewrite length_put_dinode.
  - exact (meta_slots m F (IBLOCK i) v H ltac:(lia)).
  - exact (meta_bytes m F (IBLOCK i) v H ltac:(lia)).
  - done.
  - done.
  - exact D1.
  - exact D2.
Qed.
