(* ===== verification/MkfsImage.v ===== *)
(** * The image of mkfs as a list of files

    The operations of mkfs.c refine operations on a list of files, each a type and
    its bytes: [ialloc] adds an empty file, [iappend] bytes to a file.  For [main]
    this gives the files of the image, and that the kernel can mount it. *)

From stdpp Require Import base gmap list strings.
From Stdlib Require Import ZArith Lia.
From S2P Require Import Prelude Params Kmonad Console Bio BioSpec BioInit Log LogSpec LogCrash.
From S2P Require Import LogOps Fs FsTxn FsAlloc FsFree FsInode FsFile FsRw FsDir Mkfs MkfsSpec.

(** A file of the image; inode 1 is the first of the list. *)
Record afile : Type := AFile { a_type : Z; a_bytes : list Z }.

Definition size_of (f : afile) : Z := Z.of_nat (length (a_bytes f)).

(** The data and indirect blocks of the files. *)
Fixpoint blocks (L : list afile) : Z :=
  match L with [] => 0 | f :: L => blocks_of (size_of f) + blocks L end.

(** Inode [i] with disk inode [d] is the file [f]; behind its size it reads as zeros. *)
Record is_file (m : mkst) (i : Z) (d : dinode) (f : afile) : Prop := IsFile {
  if_dinode : d = Dinode (a_type f) 0 0 1 (size_of f) (d_addrs d);
  if_sized : sized m i d;
  if_bytes : ∀ b, 0 ≤ b < MAXFILE * BSIZE → fbyte (V m) (ino i d) b = (a_bytes f).[Z.to_nat b]
}.

(** The image [m], with the inodes [F], has the files [L] and no others. *)
Record holds (m : mkst) (F : Z → dinode) (L : list afile) : Prop := Holds {
  h_binv : binv m F;
  h_ino : freeinode m = 1 + Z.of_nat (length L);
  h_free : freeblock m = 29 + blocks L;
  h_disk : ∀ i, live m i → disk_inode (V m) i = F i;
  h_none : ∀ i, freeinode m ≤ i < ninodes → d_type (disk_inode (V m) i) = 0;
  h_file : ∀ j f, L !! j = Some f → is_file m (1 + Z.of_nat j) (F (1 + Z.of_nat j)) f
}.

Definition append_to (p : list Z) (f : afile) : afile := AFile (a_type f) (a_bytes f ++ p).

Lemma blocks_app L1 L2 : blocks (L1 ++ L2) = blocks L1 + blocks L2.
Proof. induction L1 as [|f L1 IH]; [done|]. cbn [blocks app]. rewrite IH. lia. Qed.

Lemma blocks_insert L j f g : L !! j = Some f →
  blocks (<[j := g]> L) = blocks L - blocks_of (size_of f) + blocks_of (size_of g).
Proof.
  revert j. induction L as [|h L IH]; intros [|j] E; try done.
  - injection E as ->. change (<[0%nat := g]> (f :: L)) with (g :: L). cbn [blocks]. lia.
  - change (<[S j := g]> (h :: L)) with (h :: <[j := g]> L). cbn [blocks]. rewrite (IH j) by done. lia.
Qed.

Lemma size_append p f : size_of (append_to p f) = size_of f + Z.of_nat (length p).
Proof. unfold size_of, append_to. cbn [a_bytes]. rewrite length_app. lia. Qed.

(** A file that the change of the image does not concern. *)
Lemma is_file_keep m m1 i d f :
  (∀ j, (j < NSLOT)%nat → slot (V m1) (ino i d) j = slot (V m) (ino i d) j) →
  (∀ b, 0 ≤ b < MAXFILE * BSIZE → fbyte (V m1) (ino i d) b = fbyte (V m) (ino i d) b) →
  is_file m i d f → is_file m1 i d f.
Proof.
  intros Hs Hb [I1 I2 I3]. split; [done|by apply (sized_ext m i d m1 d)|].
  intros b Hr. rewrite Hb by done. by apply I3.
Qed.

Lemma is_file_dinode m i d f : is_file m i d f → 0 ≤ size_of f ≤ MAXFILE * BSIZE.
Proof. intros [I1 [S _ _] _]. rewrite I1 in S. exact S. Qed.

Lemma holds_live m F L j f : holds m F L → L !! j = Some f → live m (1 + Z.of_nat j).
Proof. intros H E. unfold live. rewrite (h_ino _ _ _ H). apply lookup_lt_Some in E. lia. Qed.

Lemma live_holds m F L i : holds m F L → live m i → ∃ j f, i = 1 + Z.of_nat j ∧ L !! j = Some f.
Proof.
  intros H Hi. unfold live in Hi. rewrite (h_ino _ _ _ H) in Hi. exists (Z.to_nat (i - 1)).
  destruct (lookup_lt_is_Some_2 L (Z.to_nat (i - 1))) as [f E]; [lia|]. exists f. split; [lia|done].
Qed.

Lemma binv_resize m F i0 d n : binv m (set_file F i0 d) → live m i0 → 0 ≤ n < 2 ^ 32 →
  binv m (set_file F i0 (dset_size n d)).
Proof.
  intros [B1 B2 B3 B4 B5 B6 B7 B8 B9] Hi0 Hn.
  assert (Es : ∀ i j, slot (V m) (ino i (set_file F i0 (dset_size n d) i)) j =
    slot (V m) (ino i (set_file F i0 d i)) j).
  { intros i j. apply slot_addrs. unfold set_file. by case_decide. }
  split; [done|done|done|done|done|done|..].
  - intros i Hi. specialize (B7 i Hi). unfold set_file in *. case_decide; [|done].
    destruct B7 as [D1 D2 D3 D4 D5 D6 D7]. by split.
  - intros i j Hi Hj. rewrite Es. by apply B8.
  - intros i i' j j' Hi Hi' Hj Hj'. rewrite !Es. by apply B9.
Qed.

Lemma disk_inode_same m m1 i : (∀ b, b < 29 → fview (V m1) b = fview (V m) b) → 0 ≤ i < ninodes →
  disk_inode (V m1) i = disk_inode (V m) i.
Proof. intros E Hi. pose proof (IBLOCK_range i Hi). unfold disk_inode. by rewrite E by lia. Qed.

Lemma rinode_eq m F L j f k : holds m F L → L !! j = Some f →
  rinode (1 + Z.of_nat j) k m = Done (F (1 + Z.of_nat j)) k m.
Proof.
  intros H Ej. pose proof (holds_live _ _ _ _ _ H Ej) as Hl.
  pose proof (bi_ino _ _ (h_binv _ _ _ H)) as Hn. unfold live in Hl.
  pose proof (IBLOCK_range (1 + Z.of_nat j) ltac:(lia)) as Hb.
  unfold rinode. change (i2b (1 + Z.of_nat j)) with (IBLOCK (1 + Z.of_nat j)).
  mb (rsect_eq m F (IBLOCK (1 + Z.of_nat j)) k (h_binv _ _ _ H) ltac:(lia)).
  by rewrite <- (h_disk _ _ _ H).
Qed.

(** The files of an image with one file changed and its inode written back. *)
Lemma holds_update m F L j f g m1 d m2 : let i0 := 1 + Z.of_nat j in
  holds m F L → L !! j = Some f → binv m1 (set_file F i0 d) →
  freeinode m1 = freeinode m → freeblock m1 = freeblock m - blocks_of (size_of f) + blocks_of (size_of g) →
  (∀ b, b < 29 → fview (V m1) b = fview (V m) b) → is_file m1 i0 d g →
  (∀ i j, live m i → i ≠ i0 → (j < NSLOT)%nat → slot (V m1) (ino i (F i)) j = slot (V m) (ino i (F i)) j) →
  (∀ i b, live m i → i ≠ i0 → 0 ≤ b < MAXFILE * BSIZE →
    fbyte (V m1) (ino i (F i)) b = fbyte (V m) (ino i (F i)) b) →
  inode_set m1 (set_file F i0 d) i0 d m2 → holds m2 (set_file F i0 d) (<[j := g]> L).
Proof.
  intros i0 H Ej Hb Ei Ef Hm Hg Hs By [S1 S2 S3 S4 S5 S6 S7].
  pose proof (bi_ino _ _ (h_binv _ _ _ H)) as Hn.
  assert (L1 : ∀ i, live m2 i → live m i ∧ live m1 i) by (intros i; unfold live; rewrite S5, Ei; tauto).
  split.
  - exact S1.
  - rewrite S5, Ei, length_insert. apply H.
  - rewrite S4, Ef, (h_free _ _ _ H), (blocks_insert _ _ _ _ Ej). lia.
  - intros i Hi. destruct (L1 i Hi) as [Hi' _]. unfold live in Hi'. unfold set_file. case_decide as E; [by subst i|].
    rewrite S7 by (lia || done). rewrite (disk_inode_same m m1) by (done || lia). by apply H.
  - intros i Hi. rewrite S5, Ei in Hi. pose proof (holds_live _ _ _ _ _ H Ej) as Hl. fold i0 in Hl. unfold live in Hl.
    rewrite S7 by lia. rewrite (disk_inode_same m m1) by (done || lia). by apply H.
  - intros j' f' Ej'. pose proof (holds_live _ _ _ _ _ H Ej) as Hl. fold i0 in Hl.
    destruct (decide (j = j')) as [<-|Hne].
    + rewrite list_lookup_insert_eq in Ej' by (by eapply lookup_lt_Some). injection Ej' as <-.
      fold i0. rewrite set_file_eq. assert (Hl1 : live m1 i0) by (unfold live; by rewrite Ei).
      apply (is_file_keep m1); [intros j0 Hj0|intros b Hr|done];
        rewrite <- (set_file_eq F i0 d); [by apply S2|by apply S3].
    + rewrite list_lookup_insert_ne in Ej' by done. pose proof (holds_live _ _ _ _ _ H Ej') as Hl'.
      assert (Hl1 : live m1 (1 + Z.of_nat j')) by (unfold live; by rewrite Ei).
      assert (EF : set_file F i0 d (1 + Z.of_nat j') = F (1 + Z.of_nat j')) by (apply set_file_ne; unfold i0; lia).
      rewrite EF. apply (is_file_keep m); [intros j0 Hj0|intros b Hr|by apply H].
      * rewrite <- (Hs _ j0) by (done || unfold i0; lia). rewrite <- EF. by apply S2.
      * rewrite <- (By _ b) by (done || unfold i0; lia). rewrite <- EF. by apply S3.
Qed.

Lemma iappend_spec m F L j f p k : holds m F L → L !! j = Some f →
  size_of f + Z.of_nat (length p) ≤ MAXFILE * BSIZE → 29 + blocks (<[j := append_to p f]> L) ≤ 994 →
  ∃ m1 F1, iappend (1 + Z.of_nat j) p k m = Done tt k m1 ∧ holds m1 F1 (<[j := append_to p f]> L).
Proof.
  intros H Ej Hmax Hf. set (i0 := 1 + Z.of_nat j). set (n := Z.of_nat (length p)) in *.
  pose proof (holds_live _ _ _ _ _ H Ej) as Hl. fold i0 in Hl. pose proof (h_binv _ _ _ H) as Hb.
  pose proof (h_file _ _ _ H j f Ej) as [I1 I2 I3]. fold i0 in I1, I2, I3.
  rewrite (blocks_insert _ _ _ _ Ej), size_append in Hf. fold n in Hf. pose proof (h_free _ _ _ H) as Hfr.
  assert (Ed : d_size (F i0) = size_of f) by (by rewrite I1).
  assert (Hs : sized m i0 (dset_size (size_of f) (F i0))).
  { refine (sized_ext m i0 _ _ _ _ _ I2); [by rewrite Ed|]. intros j0 _. by apply slot_addrs. }
  destruct (iappend_loop_spec i0 k (S (S (S (length p / 512)))) m F (size_of f) p Hb Hl Hs)
    as (m1 & d1 & E1 & [A1 A2 A3 A4 A5 A6 A7 A8]); fold n; try lia.
  { unfold size_of. lia. }
  { intros _. pose proof (Z.mod_pos_bound (size_of f) 512 ltac:(lia)).
    pose proof (Nat.div_mod_eq (length p) 512). pose proof (Nat.mod_upper_bound (length p) 512 ltac:(done)).
    unfold n. lia. }
  fold n in E1, A2, A4, A5. set (d' := dset_size (size_of f + n) d1) in *.
  change (MAXFILE * BSIZE) with 71680 in Hmax.
  assert (Hl1 : live m1 i0) by (unfold live; by rewrite A6).
  assert (Hsz : 0 ≤ size_of f + n < 2 ^ 32) by (unfold size_of, n in *; lia).
  pose proof (binv_resize m1 F i0 d1 (size_of f + n) A1 Hl1 Hsz) as B1.
  pose proof (bi_dinode _ _ B1 i0 Hl1) as Hok. rewrite set_file_eq in Hok. fold d' in B1, Hok.
  pose proof (bi_ino _ _ Hb) as Hn. destruct (winode_spec m1 _ i0 d' k B1) as (m2 & E2 & HS); [unfold live in Hl; lia|done|].
  exists m2, (set_file F i0 d'). split.
  { unfold iappend. mb (rinode_eq m F L j f k H Ej). fold i0. rewrite Ed. mb E1. exact E2. }
  apply (holds_update m F L j f _ m1 d' m2); try done.
  - rewrite A5, size_append. fold n. lia.
  - split; [|exact A2|].
    + unfold d', dset_size. cbn [d_type d_major d_minor d_nlink d_size d_addrs]. rewrite size_append, A7, I1. done.
    + intros b Hr. rewrite (fbyte_addrs _ _ (ino i0 d1)) by done.
      rewrite <- (set_file_eq F i0 d1), A4 by done. unfold append_to. cbn [a_bytes].
      rewrite I3 by done. unfold size_of. case_decide.
      * rewrite nthz_app_r by lia. f_equal. lia.
      * destruct (decide (b < size_of f)); [by rewrite nthz_app_l by (unfold size_of in *; lia)|].
        rewrite !nthz_default; [done|rewrite length_app|]; unfold size_of in *; lia.
  - intros i b Hi Hne Hr. specialize (A4 i b Hi Hr). rewrite set_file_ne in A4 by (by apply not_eq_sym).
    rewrite decide_False in A4 by tauto. exact A4.
Qed.

Definition new_dinode (ty : Z) : dinode := Dinode ty 0 0 1 0 (replicate 13 0).

(** A new inode has no blocks. *)
Lemma new_slot s i ty j : slot s (ino i (new_dinode ty)) j = 0.
Proof.
  unfold slot. change (i_addrs (ino i (new_dinode ty))) with (replicate 13 0).
  rewrite !nthz_replicate. by case_decide.
Qed.

Lemma new_file m i ty : is_file m i (new_dinode ty) (AFile ty []).
Proof.
  split; [done| |].
  - split; [done|..]; rewrite ?new_slot; cbn [d_size new_dinode].
    + intros bn Hbn. rewrite new_slot. change BSIZE with 512. lia.
    + change (NDIRECT * BSIZE) with 6144. lia.
  - intros b _. unfold fbyte. by rewrite new_slot.
Qed.

Lemma new_dinode_ok ty : - 2 ^ 15 ≤ ty < 2 ^ 15 → dinode_ok (new_dinode ty).
Proof. intros Hty. split; try done. intros j. cbn [d_addrs new_dinode]. by rewrite nthz_replicate. Qed.

(** The image with a new inode in use, before it is written. *)
Lemma new_inode_binv m F ty : binv m F → freeinode m < ninodes → - 2 ^ 15 ≤ ty < 2 ^ 15 →
  binv (Mkst (image m) (nsect m) (freeblock m) (usedblocks m) (freeinode m + 1))
    (set_file F (freeinode m) (new_dinode ty)).
Proof.
  intros [B1 B2 B3 B4 B5 B6 B7 B8 B9] Hf Hty.
  assert (Es : ∀ i j, live (Mkst (image m) (nsect m) (freeblock m) (usedblocks m) (freeinode m + 1)) i →
    slot (V m) (ino i (set_file F (freeinode m) (new_dinode ty) i)) j ≠ 0 →
    live m i ∧ set_file F (freeinode m) (new_dinode ty) i = F i).
  { intros i j Hi. destruct (decide (freeinode m = i)) as [<-|Hne]; [rewrite set_file_eq, new_slot; intros Hz; by destruct Hz|].
    intros _. split; [unfold live in *; cbn [freeinode] in Hi; lia|by apply set_file_ne]. }
  split; cbn [nsect image freeblock usedblocks freeinode];
    [exact B1|exact B2|exact B3|exact B4|exact B5|lia|..].
  - intros i Hi. destruct (decide (freeinode m = i)) as [<-|Hne].
    + rewrite set_file_eq. by apply new_dinode_ok.
    + rewrite set_file_ne by exact Hne. apply B7. unfold live in *. cbn [freeinode] in Hi. lia.
  - intros i j Hi Hj Hz. destruct (Es i j Hi Hz) as [Hl EF]. rewrite EF in *. by apply B8.
  - intros i i' j j' Hi Hi' Hj Hj' Hz E. destruct (Es i j Hi Hz) as [Hl EF].
    destruct (Es i' j' Hi') as [Hl' EF']; [by rewrite <- E|]. rewrite EF, EF' in *. by apply B9.
Qed.

Lemma ialloc_spec m F L ty k : holds m F L → 1 + Z.of_nat (length L) < ninodes → - 2 ^ 15 ≤ ty < 2 ^ 15 →
  ∃ m1 F1, ialloc ty k m = Done (1 + Z.of_nat (length L)) k m1 ∧ holds m1 F1 (L ++ [AFile ty []]).
Proof.
  intros H Hn Hty. pose proof (h_ino _ _ _ H) as Ei. set (i0 := 1 + Z.of_nat (length L)) in *.
  pose proof (new_inode_binv m F ty (h_binv _ _ _ H) ltac:(lia) Hty) as Hb. rewrite Ei in Hb.
  set (m' := Mkst (image m) (nsect m) (freeblock m) (usedblocks m) (i0 + 1)) in *.
  assert (Hl : live m' i0) by (unfold live; cbn [freeinode m']; lia).
  pose proof (bi_dinode _ _ Hb i0 Hl) as Hd. rewrite set_file_eq in Hd.
  destruct (winode_spec m' _ i0 (new_dinode ty) k Hb) as (m2 & E2 & [S1 S2 S3 S4 S5 S6 S7]); [lia|done|].
  cbn [image freeblock freeinode m'] in S2, S3, S4, S5, S7.
  exists m2, (set_file F i0 (new_dinode ty)). split.
  { unfold ialloc. mb (gets_eq freeinode k m). erewrite bind_Done by apply modify_eq. rewrite Ei.
    change ninodes with 200 in Hn. rewrite u32_small by lia. fold m'. by mb E2. }
  split.
  - exact S1.
  - rewrite S5, length_app. cbn [length]. lia.
  - rewrite S4, blocks_app, (h_free _ _ _ H). cbn [blocks]. change (blocks_of (size_of (AFile ty []))) with 0. lia.
  - intros i Hi. unfold live in Hi. rewrite S5 in Hi. destruct (decide (i0 = i)) as [<-|Hne]; [by rewrite set_file_eq|].
    rewrite set_file_ne, S7 by lia. apply H. unfold live. lia.
  - intros i Hi. rewrite S5 in Hi. rewrite S7 by lia. apply H. lia.
  - intros j f [Ej|[Hj Ej]]%lookup_app_Some.
    + pose proof (holds_live _ _ _ _ _ H Ej) as Hlj. pose proof (lookup_lt_Some _ _ _ Ej) as Hlt.
      assert (Hl' : live m' (1 + Z.of_nat j)) by (unfold live in *; cbn [freeinode m']; lia).
      assert (EF : set_file F i0 (new_dinode ty) (1 + Z.of_nat j) = F (1 + Z.of_nat j)) by (apply set_file_ne; lia).
      rewrite EF. apply (is_file_keep m); [intros j0 Hj0|intros b Hr|by apply H]; rewrite <- EF; [by apply S2|by apply S3].
    + apply list_lookup_singleton_Some in Ej as [Hj0 <-].
      replace (1 + Z.of_nat j) with i0 by lia. rewrite set_file_eq. apply new_file.
Qed.

(** ** The bitmap *)

Lemma bitmap_S n : bitmap (S n) =
  <[(n / 8)%nat := u8 (Z.lor ((bitmap n).[(n / 8)%nat]) (Z.shiftl 1 (Z.of_nat (n mod 8))))]> (bitmap n).
Proof. unfold bitmap. rewrite seq_S, fold_left_app. done. Qed.

Lemma length_bitmap n : length (bitmap n) = Z.to_nat BSIZE.
Proof. induction n as [|n IH]; [done|]. by rewrite bitmap_S, length_insert. Qed.

Lemma bitmap_bit n b : (n ≤ 4096)%nat → 0 ≤ b < 4096 →
  bit_clear (bitmap n) b = negb (b <? Z.of_nat n).
Proof.
  intros Hn Hb. rewrite bit_clear_test by lia. f_equal. pose proof (Z.mod_pos_bound b 8 ltac:(lia)) as Hm.
  pose proof (Z.div_mod b 8 ltac:(lia)) as Eb. induction n as [|n IH].
  - unfold bitmap. cbn [seq fold_left]. unfold zero_block. rewrite nthz_replicate, Z.bits_0.
    symmetry. apply Z.ltb_ge. lia.
  - rewrite bitmap_S. pose proof (Nat.div_mod_eq n 8) as En. pose proof (Nat.mod_upper_bound n 8 ltac:(done)) as Hn8.
    specialize (IH ltac:(lia)). destruct (decide ((n / 8)%nat = Z.to_nat (b / 8))) as [E|E].
    + rewrite E, nthz_insert_eq by (rewrite length_bitmap; change (Z.to_nat BSIZE) with 512%nat; lia).
      unfold u8, wrap. rewrite Z.mod_pow2_bits_low by lia.
      rewrite Z.lor_spec, IH, Z.shiftl_1_l, Z.pow2_bits_eqb by lia.
      destruct (Z.ltb_spec b (Z.of_nat n)), (Z.eqb_spec (Z.of_nat (n mod 8)) (b mod 8)), (Z.ltb_spec b (Z.of_nat (S n)));
        try done; lia.
    + rewrite nthz_insert_ne by done. rewrite IH.
      destruct (Z.ltb_spec b (Z.of_nat n)), (Z.ltb_spec b (Z.of_nat (S n))); try done; lia.
Qed.

(** ** The files are added *)

Definition entry_bytes (inum : Z) (name : list Z) : list Z :=
  put_dirent (Dirent (u16 inum) (strncpy_l DIRSIZ name)).

(** The entries of the files, the first of which gets inode [i]. *)
Fixpoint dir_bytes (i : Z) (fs : list input_file) : list Z :=
  match fs with [] => [] | f :: l => entry_bytes i (entry_name (arg f)) ++ dir_bytes (i + 1) l end.

Definition file_of (f : input_file) : afile := AFile T_FILE (concat (reads f)).

(** What mkfs needs of a file given. *)
Record input_ok (f : input_file) : Prop := InputOk {
  io_name : SLASH ∉ arg f;
  io_size : size_of (file_of f) ≤ MAXFILE * BSIZE
}.

Lemma append_to_nil f : append_to [] f = f.
Proof. unfold append_to. rewrite app_nil_r. by destruct f. Qed.

Lemma append_to_app p q f : append_to q (append_to p f) = append_to (p ++ q) f.
Proof. unfold append_to. cbn [a_bytes a_type]. by rewrite app_assoc. Qed.

Lemma blocks_of_nonneg f : 0 ≤ blocks_of (size_of f).
Proof.
  unfold size_of. pose proof (blocks_of_mono 0 (Z.of_nat (length (a_bytes f))) ltac:(lia)) as H.
  change (blocks_of 0) with 0 in H. exact H.
Qed.

Lemma blocks_nonneg L : 0 ≤ blocks L.
Proof. induction L as [|f L IH]; [done|]. cbn [blocks]. pose proof (blocks_of_nonneg f). lia. Qed.

Lemma blocks_append p q f : blocks_of (size_of (append_to p f)) ≤ blocks_of (size_of (append_to (p ++ q) f)).
Proof. apply blocks_of_mono. rewrite !size_append, length_app. lia. Qed.

Lemma length_entry i name : length (entry_bytes i name) = 16%nat.
Proof.
  unfold entry_bytes, put_dirent. cbn [de_inum de_name]. rewrite length_app. cbn [length].
  unfold strncpy_l. rewrite length_app, length_take, length_replicate. change DIRSIZ with 14%nat. lia.
Qed.

Lemma length_dir_bytes fs : ∀ i, length (dir_bytes i fs) = (16 * length fs)%nat.
Proof.
  induction fs as [|f fs IH]; intros i; [done|]. cbn [dir_bytes]. rewrite length_app, length_entry, IH.
  cbn [length]. lia.
Qed.

Lemma append_all_spec ps j k : ∀ m F L f, holds m F L → L !! j = Some f →
  size_of (append_to (concat ps) f) ≤ MAXFILE * BSIZE →
  29 + blocks (<[j := append_to (concat ps) f]> L) ≤ 994 →
  ∃ m1 F1, append_all (1 + Z.of_nat j) ps k m = Done tt k m1 ∧ holds m1 F1 (<[j := append_to (concat ps) f]> L).
Proof.
  induction ps as [|p ps IH]; intros m F L f H Ej Hmax Hf; cbn [append_all concat] in *.
  { rewrite append_to_nil, list_insert_id by done. by exists m, F. }
  rewrite (blocks_insert _ _ _ _ Ej) in Hf. pose proof (blocks_append p (concat ps) f) as Hle.
  destruct (iappend_spec m F L j f p k H Ej) as (m1 & F1 & E1 & H1).
  { rewrite size_append, length_app in Hmax. lia. }
  { rewrite (blocks_insert _ _ _ _ Ej). lia. }
  assert (Ej1 : <[j := append_to p f]> L !! j = Some (append_to p f)).
  { apply list_lookup_insert_eq. by eapply lookup_lt_Some. }
  destruct (IH m1 F1 _ _ H1 Ej1) as (m2 & F2 & E2 & H2);
    rewrite ?append_to_app, ?list_insert_insert_eq in *; [done| |].
  { rewrite (blocks_insert _ _ _ _ Ej). lia. }
  exists m2, F2. split; [|done]. mb E1. exact E2.
Qed.

Lemma add_file_spec m F r L f k : let i := 2 + Z.of_nat (length L) in
  let r' := append_to (entry_bytes i (entry_name (arg f))) r in
  holds m F (r :: L) → input_ok f → i < ninodes → size_of r' ≤ MAXFILE * BSIZE →
  29 + blocks (r' :: L ++ [file_of f]) ≤ 994 →
  ∃ m1 F1, add_file ROOTINO f k m = Done tt k m1 ∧ holds m1 F1 (r' :: L ++ [file_of f]).
Proof.
  intros i r' H [Hn Hs] Hi Hr Hf. cbn [blocks] in Hf. rewrite blocks_app in Hf. cbn [blocks] in Hf.
  pose proof (blocks_nonneg L) as HL. pose proof (blocks_of_nonneg (file_of f)) as Hb.
  destruct (ialloc_spec m F (r :: L) T_FILE k H) as (m1 & F1 & E1 & H1); [cbn [length]; lia|done|].
  destruct (iappend_spec m1 F1 ((r :: L) ++ [AFile T_FILE []]) 0 r (entry_bytes i (entry_name (arg f))) k H1 eq_refl)
    as (m2 & F2 & E2 & H2).
  { by rewrite <- size_append. }
  { rewrite (blocks_insert _ _ r), blocks_app by done. cbn [blocks]. fold r'.
    change (blocks_of (size_of (AFile T_FILE []))) with 0. lia. }
  change (<[0%nat := ?g]> ((r :: L) ++ [?e])) with ((g :: L) ++ [e]) in H2. fold r' in H2.
  assert (Ei : <[length (r :: L) := file_of f]> ((r' :: L) ++ [AFile T_FILE []]) = (r' :: L) ++ [file_of f]).
  { rewrite <- (Nat.add_0_r (length (r :: L))). apply (insert_app_r (r' :: L) [_] 0). }
  destruct (append_all_spec (reads f) (length (r :: L)) k m2 F2 _ (AFile T_FILE []) H2) as (m3 & F3 & E3 & H3).
  { by apply list_lookup_middle. }
  { exact Hs. }
  { change (append_to (concat (reads f)) (AFile T_FILE [])) with (file_of f). rewrite Ei, blocks_app.
    cbn [blocks]. lia. }
  change (append_to (concat (reads f)) (AFile T_FILE [])) with (file_of f) in H3. rewrite Ei in H3.
  exists m3, F3. split; [|exact H3]. unfold add_file. rewrite bool_decide_eq_false_2 by exact Hn. mb E1.
  cbn [length] in *. replace (1 + Z.of_nat (S (length L))) with i in * by lia. mb E2. exact E3.
Qed.

Lemma add_files_spec fs k : ∀ m F r L, let i := 2 + Z.of_nat (length L) in
  let r' := append_to (dir_bytes i fs) r in
  holds m F (r :: L) → Forall input_ok fs → i + Z.of_nat (length fs) ≤ ninodes →
  size_of r' ≤ MAXFILE * BSIZE → 29 + blocks (r' :: L ++ (file_of <$> fs)) ≤ 994 →
  ∃ m1 F1, add_files ROOTINO fs k m = Done tt k m1 ∧ holds m1 F1 (r' :: L ++ (file_of <$> fs)).
Proof.
  induction fs as [|f fs IH]; intros m F r L i r' H Hok Hn Hr Hf.
  { unfold r'. cbn [dir_bytes]. rewrite append_to_nil. change (file_of <$> []) with (@nil afile).
    rewrite app_nil_r. by exists m, F. }
  inversion Hok as [|? ? Hf1 Hfs]; subst. unfold r' in *. clear r'. cbn [dir_bytes add_files] in *.
  set (e := entry_bytes i (entry_name (arg f))) in *. set (q := dir_bytes (i + 1) fs) in *.
  change (file_of <$> f :: fs) with ([file_of f] ++ (file_of <$> fs)) in *. rewrite app_assoc in *.
  rewrite <- append_to_app in *. cbn [length] in Hn.
  pose proof (blocks_nonneg (file_of <$> fs)) as Hb. cbn [blocks] in Hf. rewrite blocks_app in Hf.
  assert (Hle : size_of (append_to e r) ≤ size_of (append_to q (append_to e r))) by (rewrite (size_append q); lia).
  pose proof (blocks_of_mono _ _ Hle) as Hlb.
  destruct (add_file_spec m F r L f k H Hf1) as (m1 & F1 & E1 & H1); [lia|fold i; fold e; lia|..].
  { fold i. fold e. cbn [blocks]. lia. }
  fold i in H1. fold e in H1.
  assert (El : 2 + Z.of_nat (length (L ++ [file_of f])) = i + 1) by (rewrite length_app; cbn [length]; lia).
  destruct (IH m1 F1 (append_to e r) (L ++ [file_of f]) H1 Hfs) as (m2 & F2 & E2 & H2);
    rewrite ?El in *; [lia|exact Hr|cbn [blocks]; rewrite blocks_app; fold q; lia|].
  exists m2, F2. split; [|exact H2]. mb E1. exact E2.
Qed.

(** ** The root directory is rounded up *)

Definition pad (n : Z) : list Z := replicate (Z.to_nat ((n / 512 + 1) * 512 - n)) 0.

Lemma length_pad n : Z.of_nat (length (pad n)) = (n / 512 + 1) * 512 - n.
Proof.
  unfold pad. rewrite length_replicate. pose proof (Z.div_mod n 512 ltac:(lia)).
  pose proof (Z.mod_pos_bound n 512 ltac:(lia)). lia.
Qed.

Lemma blocks_of_round n : 0 ≤ n → n mod 512 ≠ 0 → blocks_of ((n / 512 + 1) * 512) = blocks_of n.
Proof.
  intros Hn Hm. pose proof (Z.div_mod n 512 ltac:(lia)) as En. pose proof (Z.mod_pos_bound n 512 ltac:(lia)).
  unfold blocks_of. change (NDIRECT * BSIZE) with 6144. f_equal.
  - trans (n / 512 + 1); [symmetry; apply (Z.div_unique _ _ _ 511); lia|].
    apply (Z.div_unique _ _ _ (n mod 512 - 1)); lia.
  - f_equal. destruct (Z.ltb_spec 6144 n), (Z.ltb_spec 6144 ((n / 512 + 1) * 512)); try done; lia.
Qed.

Lemma sized_round m i d : sized m i d → d_size d mod 512 ≠ 0 →
  sized m i (dset_size ((d_size d / 512 + 1) * 512) d).
Proof.
  intros [S1 S2 S3] Hm. set (n := d_size d) in *. change (MAXFILE * BSIZE) with 71680 in S1.
  change (NDIRECT * BSIZE) with 6144 in S3.
  pose proof (Z.div_mod n 512 ltac:(lia)) as En. pose proof (Z.mod_pos_bound n 512 ltac:(lia)).
  assert (n / 512 < 140) by (apply Z.div_lt_upper_bound; lia).
  split; cbn [d_size dset_size].
  - change (MAXFILE * BSIZE) with 71680. lia.
  - intros bn Hbn. rewrite (slot_addrs _ _ (ino i d)) by done. rewrite S2 by done. change BSIZE with 512. lia.
  - rewrite (slot_addrs _ _ (ino i d)) by done. rewrite S3. change (NDIRECT * BSIZE) with 6144. lia.
Qed.

Lemma nthz_zeros (l : list Z) n i : (l ++ replicate n 0).[i] = l.[i].
Proof.
  destruct (decide (i < length l)%nat); [by apply nthz_app_l|].
  rewrite nthz_app_r, nthz_replicate, nthz_default by lia. done.
Qed.

Lemma round_root_spec m F r L k : let n := size_of r in
  holds m F (r :: L) → n mod 512 ≠ 0 →
  ∃ m1 F1, round_root ROOTINO k m = Done tt k m1 ∧ holds m1 F1 (append_to (pad n) r :: L).
Proof.
  intros n H Hmod. pose proof (h_file _ _ _ H 0 r eq_refl) as [I1 I2 I3].
  change (1 + Z.of_nat 0) with 1 in *. pose proof (holds_live _ _ _ 0 r H eq_refl) as Hl.
  change (1 + Z.of_nat 0) with 1 in Hl. pose proof (h_binv _ _ _ H) as Hb. pose proof (bi_ino _ _ Hb) as Hi.
  assert (Ed : d_size (F 1) = n) by (by rewrite I1). pose proof (sz_max _ _ _ I2) as S1. rewrite Ed in S1.
  change (MAXFILE * BSIZE) with 71680 in S1.
  pose proof (Z.div_mod n 512 ltac:(lia)) as En. pose proof (Z.mod_pos_bound n 512 ltac:(lia)) as Hm.
  set (n' := (n / 512 + 1) * 512) in *. pose proof (length_pad n) as Ep. fold n' in Ep.
  assert (Hq : n / 512 < 140) by (apply Z.div_lt_upper_bound; lia).
  assert (Hr : n < n' ≤ 71680) by (unfold n'; lia). set (d' := dset_size n' (F 1)).
  assert (B1 : binv m (set_file F 1 d')).
  { apply binv_resize; [|done|lia]. apply (binv_ext m F); [|done]. intros i _. by apply set_file_id. }
  pose proof (bi_dinode _ _ B1 1 Hl) as Hok. rewrite set_file_eq in Hok.
  change ninodes with 200 in Hi. destruct (winode_spec m _ 1 d' k B1) as (m2 & E2 & HS); [by change ninodes with 200|done|].
  exists m2, (set_file F 1 d'). split.
  { unfold round_root. mb (rinode_eq m F (r :: L) 0 r k H eq_refl). change (1 + Z.of_nat 0) with 1. rewrite Ed.
    change BSIZE with 512. fold n'. rewrite u32_small by lia. exact E2. }
  apply (holds_update m F (r :: L) 0 r (append_to (pad n) r) m d' m2); try done.
  - rewrite size_append, Ep. fold n. replace (n + (n' - n)) with n' by lia.
    unfold n'. rewrite blocks_of_round by lia. lia.
  - change (1 + Z.of_nat 0) with 1. split.
    + unfold d', dset_size. rewrite size_append, Ep, I1. cbn. f_equal. fold n. lia.
    + unfold d'. rewrite <- Ed in Hmod. pose proof (sized_round m 1 (F 1) I2 Hmod) as Hz. by rewrite Ed in Hz.
    + intros b Hrb. rewrite (fbyte_addrs _ _ (ino 1 (F 1))) by done. rewrite I3 by done.
      unfold append_to, pad. cbn [a_bytes]. by rewrite nthz_zeros.
Qed.

(** A root directory that ends at the end of a block gets a block more in its size than
    it has: rounding up adds a block that was never allocated. *)
Theorem round_root_full m F r L k : let n := size_of r in
  holds m F (r :: L) → n mod 512 = 0 → n < MAXFILE * BSIZE →
  ∃ m1, round_root ROOTINO k m = Done tt k m1 ∧ d_size (disk_inode (V m1) ROOTINO) = n + 512 ∧
    slot (V m1) (ino ROOTINO (disk_inode (V m1) ROOTINO)) (dslot (n / 512)) = 0.
Proof.
  intros n H Hmod Hmax. pose proof (h_file _ _ _ H 0 r eq_refl) as [I1 I2 I3].
  pose proof (holds_live _ _ _ 0 r H eq_refl) as Hl. change (1 + Z.of_nat 0) with 1 in *.
  pose proof (h_binv _ _ _ H) as Hb. pose proof (bi_ino _ _ Hb) as Hi. change ninodes with 200 in Hi.
  assert (Ed : d_size (F 1) = n) by (by rewrite I1). assert (Hn : 0 ≤ n) by (unfold n, size_of; lia).
  change (MAXFILE * BSIZE) with 71680 in Hmax. pose proof (Z.div_mod n 512 ltac:(lia)) as En.
  set (d' := dset_size (n + 512) (F 1)).
  assert (B1 : binv m (set_file F 1 d')).
  { apply binv_resize; [|done|lia]. apply (binv_ext m F); [|done]. intros i _. by apply set_file_id. }
  pose proof (bi_dinode _ _ B1 1 Hl) as Hok. rewrite set_file_eq in Hok.
  destruct (winode_spec m _ 1 d' k B1) as (m2 & E2 & [_ S2 _ _ _ S6 _]); [by change ninodes with 200|done|].
  assert (Hbn : 0 ≤ n / 512 < MAXFILE) by (change MAXFILE with 140; lia).
  exists m2. change ROOTINO with 1. rewrite S6. split_and!; [|done|].
  - unfold round_root. mb (rinode_eq m F (r :: L) 0 r k H eq_refl). change (1 + Z.of_nat 0) with 1. rewrite Ed.
    change BSIZE with 512. replace ((n / 512 + 1) * 512) with (n + 512) by lia. rewrite u32_small by lia. exact E2.
  - rewrite <- (set_file_eq F 1 d'), (S2 1 _ Hl (proj1 (dslot_lt _ Hbn))), set_file_eq.
    rewrite (slot_addrs _ _ (ino 1 (F 1))) by done.
    destruct (decide (slot (V m) (ino 1 (F 1)) (dslot (n / 512)) = 0)) as [|Hz]; [done|].
    apply (sz_map _ _ _ I2 _ Hbn) in Hz. rewrite Ed in Hz. change BSIZE with 512 in Hz. lia.
Qed.

(** ** The beginning and the end of main *)

Definition blank (m : mkst) : Prop := ∀ b, fview (V m) b = zero_block.

Lemma zero_sectors k n : ∀ i m, blank m → (n = 0%nat → nsect m = Z.of_nat i) → 0 ≤ nsect m ≤ Z.of_nat i →
  ∃ m1, mfor i n (λ i, wsect (Z.of_nat i) zero_block) k m = Done tt k m1 ∧ blank m1 ∧
    nsect m1 = Z.of_nat (i + n) ∧ freeblock m1 = freeblock m ∧ usedblocks m1 = usedblocks m ∧
    freeinode m1 = freeinode m.
Proof.
  induction n as [|n IH]; intros i m Hb H0 Hn.
  { exists m. rewrite Nat.add_0_r. split_and!; try done. by apply H0. }
  set (m' := Mkst (<[Z.of_nat i := zero_block]> (image m)) (Z.max (nsect m) (Z.of_nat i + 1))
               (freeblock m) (usedblocks m) (freeinode m)).
  assert (E0 : wsect (Z.of_nat i) zero_block k m = Done tt k m') by apply modify_eq.
  destruct (IH (S i) m') as (m1 & E & B & N & R).
  - intros b. cbn [image m']. rewrite mounted_insert. case_decide; [done|apply Hb].
  - cbn [nsect m']. lia.
  - cbn [nsect m']. lia.
  - exists m1. cbn [mfor]. mb E0. rewrite E. split_and!; try done; [|apply R..].
    rewrite N. f_equal. lia.
Qed.

Lemma zero_type o : d_type (get_dinode zero_block o) = 0.
Proof. unfold get_dinode, get16, zero_block. cbn [d_type]. by rewrite !nthz_replicate. Qed.

Lemma superblock_of_sector : superblock_of superblock_sector = Superblock fssize nblocks ninodes nlog.
Proof. vm_compute. reflexivity. Qed.

Lemma length_superblock_sector : length superblock_sector = Z.to_nat BSIZE.
Proof. unfold superblock_sector. by rewrite !length_put32. Qed.

(** The image with the superblock has no files. *)
Lemma holds_super m k : blank m → nsect m = fssize → freeblock m = 29 → usedblocks m = 29 → freeinode m = 1 →
  ∃ m1, wsect 1 superblock_sector k m = Done tt k m1 ∧ holds m1 (λ _, new_dinode 0) [].
Proof.
  intros Hb Hn Hf Hu Hi. eexists. split; [unfold wsect; apply modify_eq|].
  assert (Hv : ∀ b, b ≠ 1 → fview (mounted (<[1 := superblock_sector]> (image m))) b = zero_block).
  { intros b Hne. rewrite mounted_insert, decide_False by lia. apply Hb. }
  assert (Hno : ∀ i, ¬ 1 ≤ i < 1) by lia.
  split; unfold live; cbn [image nsect freeblock usedblocks freeinode blocks length].
  - split; unfold live; cbn [image nsect freeblock usedblocks freeinode]; rewrite ?Hi.
    + by rewrite Hn.
    + intros b. rewrite mounted_insert. case_decide; [apply length_superblock_sector|by rewrite Hb].
    + unfold sblock. rewrite mounted_insert, decide_True by done. exact superblock_of_sector.
    + rewrite Hf, Hu. lia.
    + intros b Hge. apply Hv. lia.
    + done.
    + intros i Hl. by destruct (Hno i).
    + intros i j Hl. by destruct (Hno i).
    + intros i i' j j' Hl. by destruct (Hno i).
  - by rewrite Hi.
  - by rewrite Hf.
  - rewrite Hi. intros i Hl. by destruct (Hno i).
  - rewrite Hi. intros i Hr. pose proof (IBLOCK_range i ltac:(lia)) as HI. unfold disk_inode. rewrite Hv by lia. apply zero_type.
  - intros j f E. by rewrite lookup_nil in E.
Qed.

Lemma holds_bitmap m F L v k : holds m F L → length v = Z.to_nat BSIZE →
  ∃ m1, wsect 28 v k m = Done tt k m1 ∧ holds m1 F L ∧ freeblock m1 = freeblock m ∧ fview (V m1) 28 = v.
Proof.
  intros H Hv. pose proof (h_binv _ _ _ H) as Hb. eexists. split; [apply (wsect_eq m F 28 v k Hb); lia|].
  assert (Hm : 1 < 28 < 29) by lia.
  assert (Hd : ∀ i, 0 ≤ i < ninodes → disk_inode (mounted (<[28 := v]> (image m))) i = disk_inode (V m) i).
  { intros i Hi. pose proof (IBLOCK_range i Hi). unfold disk_inode. rewrite mounted_insert, decide_False by lia. done. }
  pose proof (bi_ino _ _ Hb) as Hn. split_and!; [|done|cbn [image]; rewrite mounted_insert, decide_True; done].
  split; cbn [image freeblock freeinode].
  - exact (meta_binv m F 28 v Hb Hm Hv).
  - apply H.
  - apply H.
  - intros i Hi. unfold live in Hi. cbn [freeinode] in Hi. rewrite Hd by lia. by apply H.
  - intros i Hi. rewrite Hd by lia. by apply H.
  - intros j f E. pose proof (holds_live _ _ _ _ _ H E) as Hl. apply (is_file_keep m); [| |by apply H].
    + intros j0 Hj0. exact (meta_slots m F 28 v Hb Hm _ _ Hl Hj0).
    + intros b Hr. exact (meta_bytes m F 28 v Hb Hm _ _ Hl Hr).
Qed.

(** The root directory as the entries leave it, and as it is in the end. *)
Definition root0 (fs : list input_file) : afile :=
  AFile T_DIR (entry_bytes 1 [46] ++ entry_bytes 1 [46; 46] ++ dir_bytes 2 fs).
Definition root_of (fs : list input_file) : afile := append_to (pad (size_of (root0 fs))) (root0 fs).
Definition files_of (fs : list input_file) : list afile := root_of fs :: (file_of <$> fs).

(** The inputs mkfs can make an image of: the blocks suffice, and the entries of the
    root directory do not end at the end of a block. *)
Record inputs_ok (fs : list input_file) : Prop := InputsOk {
  in_ok : Forall input_ok fs;
  in_count : (length fs ≤ 198)%nat;
  in_root : ((2 + length fs) mod 32 ≠ 0)%nat;
  in_fits : 29 + blocks (files_of fs) ≤ 994
}.

Lemma size_root0 fs : size_of (root0 fs) = 16 * (2 + Z.of_nat (length fs)).
Proof.
  unfold size_of, root0. cbn [a_bytes]. rewrite !length_app, !length_entry, length_dir_bytes. lia.
Qed.

Lemma root0_part fs : inputs_ok fs → size_of (root0 fs) mod 512 ≠ 0.
Proof.
  intros [_ _ Hm _]. rewrite size_root0. intros E. apply Hm.
  pose proof (Z.div_mod (16 * (2 + Z.of_nat (length fs))) 512 ltac:(lia)) as Ed. rewrite E in Ed.
  set (q := 16 * (2 + Z.of_nat (length fs)) / 512) in *.
  replace (2 + length fs)%nat with (Z.to_nat q * 32)%nat by lia. by apply Nat.Div0.mod_mul.
Qed.

Lemma blocks_root fs : inputs_ok fs → blocks_of (size_of (root_of fs)) = blocks_of (size_of (root0 fs)).
Proof.
  intros H. unfold root_of. rewrite size_append, length_pad.
  replace (size_of (root0 fs) + _) with ((size_of (root0 fs) / 512 + 1) * 512) by lia.
  apply blocks_of_round; [unfold size_of; lia|by apply root0_part].
Qed.

(** The entries "." and ".." of the root. *)
Lemma dots_spec fs m F k : inputs_ok fs → holds m F [AFile T_DIR []] →
  ∃ m1 F1, (add_entry ROOTINO ROOTINO [46];; add_entry ROOTINO ROOTINO [46; 46]) k m = Done tt k m1 ∧
    holds m1 F1 [AFile T_DIR (entry_bytes 1 [46] ++ entry_bytes 1 [46; 46])].
Proof.
  intros _ H. destruct (iappend_spec m F [AFile T_DIR []] 0 (AFile T_DIR []) (entry_bytes 1 [46]) k H eq_refl)
    as (m1 & F1 & E1 & H1); [vm_compute; congruence|vm_compute; congruence|].
  destruct (iappend_spec m1 F1 _ 0 (AFile T_DIR (entry_bytes 1 [46])) (entry_bytes 1 [46; 46]) k H1 eq_refl)
    as (m2 & F2 & E2 & H2); [vm_compute; congruence|vm_compute; congruence|].
  exists m2, F2. split; [|exact H2]. mb E1. exact E2.
Qed.

Lemma main_run fs k : inputs_ok fs → ∃ m F, main fs k mk0 = Done tt k m ∧
  holds m F (files_of fs) ∧ fview (V m) 28 = bitmap (Z.to_nat (freeblock m)).
Proof.
  intros Hok. pose proof Hok as [H1 H2 H3 H4]. cbn [blocks files_of] in H4. rewrite blocks_root in H4 by done.
  destruct (zero_sectors k 1024 0 mk0) as (m1 & E1 & B1 & N1 & Q1 & Q2 & Q3); [|intros E; discriminate E|by split|].
  { intros b. rewrite mounted_view. cbn [image mk0]. by rewrite lookup_empty. }
  destruct (holds_super m1 k B1 N1 Q1 Q2 Q3) as (m2 & E2 & P2).
  destruct (ialloc_spec m2 _ [] T_DIR k P2) as (m3 & F3 & E3 & P3); [done|done|].
  destruct (dots_spec fs m3 F3 k Hok P3) as (m4 & F4 & E4 & P4).
  set (r := AFile T_DIR (entry_bytes 1 [46] ++ entry_bytes 1 [46; 46])) in *.
  assert (Er : append_to (dir_bytes 2 fs) r = root0 fs).
  { unfold append_to, root0, r. cbn [a_type a_bytes]. by rewrite app_assoc. }
  pose proof (size_root0 fs) as Es.
  destruct (add_files_spec fs k m4 F4 r [] P4 H1) as (m5 & F5 & E5 & P5);
    cbn [length Z.of_nat app] in *; rewrite ?Z.add_0_r, ?Er in *.
  { change ninodes with 200. lia. }
  { change (MAXFILE * BSIZE) with 71680. lia. }
  { exact H4. }
  destruct (round_root_spec m5 F5 (root0 fs) _ k P5 (root0_part fs Hok)) as (m6 & F6 & E6 & P6).
  destruct (bi_free _ _ (h_binv _ _ _ P6)) as [Eu Hf].
  destruct (holds_bitmap m6 F6 _ (bitmap (Z.to_nat (freeblock m6))) k P6 (length_bitmap _)) as (m7 & E7 & P7 & Ef & Eb).
  exists m7, F6. split_and!; [|exact P7|by rewrite Ef].
  unfold main. mb (gets_eq usedblocks k mk0). change (negb (nblocks + usedblocks mk0 + nlog =? fssize)) with false.
  cbv beta iota. change (Z.to_nat (nblocks + usedblocks mk0 + nlog)) with 1024%nat.
  mb E1. mb E2. mb E3. change (negb (1 + 0 =? ROOTINO)) with false. cbv beta iota.
  change (1 + 0) with ROOTINO. etrans; [exact (bind_assoc_Done _ (λ _, add_entry ROOTINO ROOTINO [46; 46]) _ _ _ _ _ _ E4)|].
  mb E5. mb E6. mb (gets_eq usedblocks k m6). unfold balloc. rewrite Eu.
  destruct (Z.ltb_spec (freeblock m6) (512 * 8)); [exact E7|lia].
Qed.

(** ** What the kernel finds in the image *)

(** The inode the kernel loads. *)
Definition disk_file (s : fsstate) (i : Z) : inode := ino i (disk_inode s i).

Section kernel.
Context (m : mkst) (F : Z → dinode) (L : list afile).
Let s : fsstate := V m.
Hypotheses (H : holds m F L) (Hmap : fview s 28 = bitmap (Z.to_nat (freeblock m))).

Lemma image_layout : nin s = 200 ∧ data0 s = 29 ∧ start (lg s) = 994 ∧ sb_size (sblock s) = 1024.
Proof.
  unfold data0, nin, s. rewrite (bi_super _ _ (h_binv _ _ _ H)), mounted_start. by split_and!.
Qed.

Lemma image_used b : 0 ≤ b < 1024 → used s b = (b <? 29 + blocks L).
Proof.
  intros Hb. destruct image_layout as (En & _). unfold used. rewrite En. unfold in_use, BBLOCK.
  change BPB with 4096. rewrite Z.div_small, Z.mod_small by lia. change (0 + 200 / IPB + 3) with 28.
  pose proof (bi_free _ _ (h_binv _ _ _ H)) as [_ Hf].
  rewrite Hmap, bitmap_bit, negb_involutive by lia. rewrite Z2Nat.id by lia. by rewrite (h_free _ _ _ H).
Qed.

Lemma image_fs_ok : fs_ok s.
Proof.
  destruct image_layout as (E1 & E2 & E3 & E4). pose proof (blocks_nonneg L).
  split; rewrite ?E1, ?E2, ?E3, ?E4; try lia.
  intros b Hb. rewrite image_used by lia. apply Z.ltb_lt. lia.
Qed.

Lemma image_txn : in_txn [] 10 (lg s).
Proof.
  apply mounted_txn.
  - intros x. rewrite <- mounted_view. apply (bi_sect _ _ (h_binv _ _ _ H)).
  - rewrite <- mounted_view. pose proof (bi_free _ _ (h_binv _ _ _ H)) as [_ Hf].
    rewrite (bi_fresh _ _ (h_binv _ _ _ H)) by lia. apply (get32_zero 0).
Qed.

Lemma image_file j f : L !! j = Some f → let x := disk_file s (1 + Z.of_nat j) in
  file_ok s x ∧ i_type x = a_type f ∧ i_nlink x = 1 ∧ i_size x = size_of f ∧
  ∀ b, 0 ≤ b < MAXFILE * BSIZE → fbyte s x b = (a_bytes f).[Z.to_nat b].
Proof.
  intros E x. pose proof (holds_live _ _ _ _ _ H E) as Hl. pose proof (h_binv _ _ _ H) as Hb.
  destruct image_layout as (E1 & E2 & E3 & E4). destruct (h_file _ _ _ H j f E) as [I1 [S1 S2 S3] I3].
  assert (Ex : x = ino (1 + Z.of_nat j) (F (1 + Z.of_nat j))).
  { unfold x, disk_file, s. by rewrite (h_disk _ _ _ H). }
  rewrite Ex. clear x Ex. pose proof (bi_ino _ _ Hb) as Hn. change ninodes with 200 in Hn.
  pose proof (bi_free _ _ Hb) as [_ Hf].
  set (i := 1 + Z.of_nat j) in *. split_and!; [|by rewrite I1|by rewrite I1|by rewrite I1|exact I3].
  split.
  - done.
  - rewrite E1. change (i_inum (ino i (F i))) with i. unfold live in Hl. lia.
  - pose proof (bi_dinode _ _ Hb i Hl) as D. destruct (F i). exact D.
  - intros j0 Hj0 Hz. pose proof (bi_slot _ _ Hb i j0 Hl Hj0 Hz) as Hr. fold s in Hr. rewrite E2, E3.
    split; [lia|]. rewrite image_used by lia. apply Z.ltb_lt. rewrite <- (h_free _ _ _ H). lia.
  - intros j1 j2 H1 H2 Hz Ej. by apply (bi_inj _ _ Hb i i j1 j2).
  - apply S1.
  - intros bn Hbn Hlt. apply S2; [|exact Hlt]. change (i_size (ino i (F i))) with (d_size (F i)) in Hlt.
    change (MAXFILE * BSIZE) with 71680 in S1. change BSIZE with 512 in Hlt. change MAXFILE with 140. lia.
Qed.

Lemma image_disjoint i i' j j' : live m i → live m i' → i ≠ i' → (j < NSLOT)%nat → (j' < NSLOT)%nat →
  slot s (disk_file s i) j ≠ 0 → slot s (disk_file s i) j ≠ slot s (disk_file s i') j'.
Proof.
  intros Hi Hi' Hne Hj Hj'. unfold disk_file, s. rewrite !(h_disk _ _ _ H) by done. intros Hz E.
  apply Hne. apply (bi_inj _ _ (h_binv _ _ _ H) i i' j j' Hi Hi' Hj Hj' Hz E).
Qed.
End kernel.

(** ** The entries of the root directory *)

Definition entry (inum : Z) (name : list Z) : dirent := Dirent (u16 inum) (strncpy_l DIRSIZ name).
Definition no_entry : dirent := Dirent 0 (replicate DIRSIZ 0).

Fixpoint file_entries (i : Z) (fs : list input_file) : list dirent :=
  match fs with [] => [] | f :: l => entry i (entry_name (arg f)) :: file_entries (i + 1) l end.
Definition root_entries (fs : list input_file) : list dirent :=
  entry 1 [46] :: entry 1 [46; 46] :: file_entries 2 fs.

(** An entry as it comes back from its 16 bytes. *)
Definition entry_ok (e : dirent) : Prop := 0 ≤ de_inum e < 2 ^ 16 ∧ length (de_name e) = DIRSIZ.

Lemma entry_is_ok i name : entry_ok (entry i name).
Proof.
  split; [apply u16_range|]. unfold entry, strncpy_l. cbn [de_name].
  rewrite length_app, length_take, length_replicate. lia.
Qed.

Lemma file_entries_ok fs : ∀ i, Forall entry_ok (file_entries i fs).
Proof. induction fs as [|f fs IH]; intros i; constructor; [apply entry_is_ok|apply IH]. Qed.

Lemma dir_bytes_entries fs : ∀ i, dir_bytes i fs = concat (put_dirent <$> file_entries i fs).
Proof. induction fs as [|f fs IH]; intros i; [done|]. cbn [dir_bytes file_entries]. by rewrite IH. Qed.

Lemma pad_entries n : n mod 16 = 0 →
  pad n = concat (put_dirent <$> replicate (Z.to_nat (((n / 512 + 1) * 512 - n) / 16)) no_entry).
Proof.
  intros Hn. unfold pad. set (c := (n / 512 + 1) * 512 - n).
  assert (Hc : 0 ≤ c).
  { unfold c. pose proof (Z.div_mod n 512 ltac:(lia)). pose proof (Z.mod_pos_bound n 512 ltac:(lia)). lia. }
  assert (E : Z.to_nat c = (Z.to_nat (c / 16) * 16)%nat).
  { assert (Em : c mod 16 = 0).
    { unfold c. replace ((n / 512 + 1) * 512 - n) with (- n + (n / 512 + 1) * 32 * 16) by lia.
      rewrite Z.mod_add by lia. by apply Z.mod_opp_l_z. }
    pose proof (Z.div_mod c 16 ltac:(lia)). pose proof (Z.div_pos c 16 Hc ltac:(lia)). lia. }
  rewrite E. generalize (Z.to_nat (c / 16)). clear. intros q. induction q as [|q IH]; [done|].
  cbn [replicate]. rewrite fmap_cons. cbn [concat]. rewrite <- IH. by rewrite Nat.mul_succ_l, Nat.add_comm, replicate_add.
Qed.

Lemma entry_bytes_at es : Forall entry_ok es → ∀ j e, es !! j = Some e → ∀ i, (i < 16)%nat →
  (concat (put_dirent <$> es)).[16 * j + i] = (put_dirent e).[i].
Proof.
  induction 1 as [|e0 es [_ He] _ IH]; intros [|j] e E i Hi; try done.
  - injection E as ->. rewrite fmap_cons. cbn [concat]. rewrite nthz_app_l; [done|].
    unfold put_dirent. rewrite length_app, He. change DIRSIZ with 14%nat. cbn [length]. lia.
  - rewrite fmap_cons. cbn [concat]. assert (El : length (put_dirent e0) = 16%nat).
    { unfold put_dirent. rewrite length_app, He. done. }
    rewrite nthz_app_r by lia. rewrite El. replace (16 * S j + i - 16)%nat with (16 * j + i)%nat by lia. by apply IH.
Qed.

Lemma nents_of x n : i_size x = DIRENT * Z.of_nat n → nents x = n.
Proof. intros E. unfold nents. rewrite E, Z.mul_comm, Z.div_mul by done. apply Nat2Z.id. Qed.

(** A directory with the bytes of [es] has these entries. *)
Lemma dirents_of_bytes s x es : Forall entry_ok es → i_size x = DIRENT * Z.of_nat (length es) →
  i_size x ≤ MAXFILE * BSIZE →
  (∀ b, 0 ≤ b < MAXFILE * BSIZE → fbyte s x b = (concat (put_dirent <$> es)).[Z.to_nat b]) → dirents s x = es.
Proof.
  intros Hok Hs Hmax Hb. unfold dirents. rewrite (nents_of _ _ Hs). apply list_eq. intros j. rewrite list_lookup_fmap.
  destruct (es !! j) as [e|] eqn:E.
  - pose proof (lookup_lt_Some _ _ _ E) as Hj. rewrite lookup_seq_lt by done. cbn [fmap option_fmap option_map].
    f_equal. rewrite Nat.add_0_l. destruct (proj1 (Forall_lookup _ _) Hok j e E) as [Hi Hn].
    unfold dirent_at. rewrite <- (get_put_dirent e Hi Hn). f_equal.
    assert (El : length (put_dirent e) = 16%nat) by (unfold put_dirent; rewrite length_app, Hn; done).
    unfold fbytes. apply (nthz_ext 0); [rewrite length_fmap, length_seqZ, El; done|].
    intros i. rewrite length_fmap, length_seqZ. change (Z.to_nat DIRENT) with 16%nat. intros Hi16.
    change DIRENT with 16 in *. unfold nthz at 1. rewrite list_lookup_fmap, lookup_seqZ_lt by lia.
    cbn [fmap option_fmap option_map default]. change (MAXFILE * BSIZE) with 71680 in *.
    rewrite Hb by lia. rewrite <- (entry_bytes_at es Hok j e E i Hi16). cbv [id].
    f_equal. lia.
  - apply lookup_ge_None in E. rewrite lookup_seq_ge by lia. done.
Qed.

Lemma fbytes_of s x l : Z.of_nat (length l) ≤ MAXFILE * BSIZE →
  (∀ b, 0 ≤ b < MAXFILE * BSIZE → fbyte s x b = l.[Z.to_nat b]) → fbytes s x 0 (Z.of_nat (length l)) = l.
Proof.
  intros Hmax Hb. unfold fbytes. apply (nthz_ext 0); [by rewrite length_fmap, length_seqZ, Nat2Z.id|].
  intros i. rewrite length_fmap, length_seqZ, Nat2Z.id. intros Hi. unfold nthz at 1.
  rewrite list_lookup_fmap, lookup_seqZ_lt by lia. cbn [fmap option_fmap option_map default]. cbv [id].
  rewrite Hb by lia. by rewrite Z.add_0_l, Nat2Z.id.
Qed.

(** The unused entries at the end of the root directory. *)
Definition spare (fs : list input_file) : nat :=
  Z.to_nat (((size_of (root0 fs) / 512 + 1) * 512 - size_of (root0 fs)) / 16).

Lemma root_bytes fs : a_bytes (root_of fs) =
  concat (put_dirent <$> (root_entries fs ++ replicate (spare fs) no_entry)).
Proof.
  unfold root_of, append_to. cbn [a_bytes]. rewrite pad_entries.
  - fold (spare fs). rewrite fmap_app, concat_app. f_equal. unfold root0, root_entries. cbn [a_bytes].
    rewrite !fmap_cons. cbn [concat]. by rewrite <- dir_bytes_entries.
  - rewrite size_root0, Z.mul_comm. by apply Z.mod_mul.
Qed.

Lemma root_entries_ok fs n : Forall entry_ok (root_entries fs ++ replicate n no_entry).
Proof.
  apply Forall_app. split.
  - constructor; [apply entry_is_ok|]. constructor; [apply entry_is_ok|]. apply file_entries_ok.
  - apply Forall_replicate. by split.
Qed.

Lemma length_entries es : Forall entry_ok es → length (concat (put_dirent <$> es)) = (16 * length es)%nat.
Proof.
  induction 1 as [|e es [_ He] _ IH]; [done|]. rewrite fmap_cons. cbn [concat length].
  rewrite length_app, IH. unfold put_dirent. rewrite length_app, He. change DIRSIZ with 14%nat. cbn [length]. lia.
Qed.

(** What the kernel finds on the disk. *)
Record image_ok (d : gmap Z block) (fs : list input_file) : Prop := ImageOk {
  im_fs : fs_ok (mounted d);
  im_txn : in_txn [] 10 (lg (mounted d));
  im_root : dir_ok (mounted d) (disk_file (mounted d) ROOTINO);
  im_entries : dirents (mounted d) (disk_file (mounted d) ROOTINO) = root_entries fs ++ replicate (spare fs) no_entry;
  im_file : ∀ j f, fs !! j = Some f → let x := disk_file (mounted d) (2 + Z.of_nat j) in
    file_ok (mounted d) x ∧ i_type x = T_FILE ∧ i_nlink x = 1 ∧
    i_size x = Z.of_nat (length (concat (reads f))) ∧ fbytes (mounted d) x 0 (i_size x) = concat (reads f);
  im_disjoint : ∀ i i' j j', 1 ≤ i < 2 + Z.of_nat (length fs) → 1 ≤ i' < 2 + Z.of_nat (length fs) → i ≠ i' →
    (j < NSLOT)%nat → (j' < NSLOT)%nat → slot (mounted d) (disk_file (mounted d) i) j ≠ 0 →
    slot (mounted d) (disk_file (mounted d) i) j ≠ slot (mounted d) (disk_file (mounted d) i') j';
  im_free : ∀ i, 2 + Z.of_nat (length fs) ≤ i < ninodes → d_type (disk_inode (mounted d) i) = 0;
  im_used : ∀ b, 0 ≤ b < fssize → used (mounted d) b = (b <? 29 + blocks (files_of fs))
}.

Lemma holds_image_ok m F fs : holds m F (files_of fs) → fview (V m) 28 = bitmap (Z.to_nat (freeblock m)) →
  image_ok (image m) fs.
Proof.
  intros H Hm. assert (El : freeinode m = 2 + Z.of_nat (length fs)).
  { rewrite (h_ino _ _ _ H). unfold files_of. cbn [length]. rewrite length_fmap. lia. }
  destruct (image_file m F _ H Hm 0 (root_of fs) eq_refl) as (R1 & R2 & R3 & R4 & R5).
  change (1 + Z.of_nat 0) with ROOTINO in *. pose proof (root_entries_ok fs (spare fs)) as Hes.
  assert (Esz : i_size (disk_file (V m) ROOTINO) = DIRENT * Z.of_nat (length (root_entries fs ++ replicate (spare fs) no_entry))).
  { rewrite R4. unfold size_of. rewrite root_bytes, length_entries by done. change DIRENT with 16. lia. }
  pose proof (fk_size _ _ R1) as Hmax. rewrite root_bytes in R5. split.
  - exact (image_fs_ok m F _ H Hm).
  - exact (image_txn m F _ H).
  - split; [exact R1|exact R2|]. by rewrite (nents_of _ _ Esz).
  - by apply dirents_of_bytes.
  - intros j f Ej. destruct (image_file m F _ H Hm (S j) (file_of f)) as (F1 & F2 & F3 & F4 & F5).
    { change (files_of fs !! S j) with ((file_of <$> fs) !! j). by rewrite list_lookup_fmap, Ej. }
    replace (1 + Z.of_nat (S j)) with (2 + Z.of_nat j) in * by lia. split_and!; [exact F1|exact F2|exact F3|exact F4|].
    pose proof (fk_size _ _ F1) as Hs. rewrite F4 in Hs |- *. by apply fbytes_of.
  - intros i i' j j' Hi Hi'. apply (image_disjoint m F _ H); unfold live; by rewrite El.
  - intros i Hi. apply (h_none _ _ _ H). by rewrite El.
  - exact (image_used m F _ H Hm).
Qed.

(** C9: The image mkfs writes is a file system the kernel is verified on.  For inputs
    that fit, main returns, and the image mounted has a sound layout, an empty log and
    a bitmap with the bits set of exactly the blocks in use; the root directory has
    the entries "." and ".." and one for each input in order, and the rest unused;
    file 2 + j is a well-formed file of one link whose bytes are those read from input
    j; no block belongs to two files; and all other inodes are free. *)
Theorem mkfs_image (fs : list input_file) (k : kctx) : inputs_ok fs →
  ∃ m, main fs k mk0 = Done tt k m ∧ image_ok (image m) fs.
Proof.
  intros Hok. destruct (main_run fs k Hok) as (m & F & E & H & Hm). exists m. split; [exact E|].
  by apply (holds_image_ok m F).
Qed.

(** README with two pieces read and an empty program _sh. *)
Definition demo_inputs : list input_file :=
  [InputFile [82; 69; 65; 68; 77; 69] [replicate 512 65; replicate 100 66]; InputFile [95; 115; 104] []].

Lemma mkfs_image_witness : ∃ m, main demo_inputs (Kctx [] []) mk0 = Done tt (Kctx [] []) m ∧
  fbytes (mounted (image m)) (disk_file (mounted (image m)) 2) 0 612 = replicate 512 65 ++ replicate 100 66.
Proof.
  destruct (mkfs_image demo_inputs (Kctx [] [])) as (m & E & I).
  - split; [|vm_compute; lia|vm_compute; lia|vm_compute; congruence].
    apply Forall_cons. split; [split; [by apply (bool_decide_unpack _)|vm_compute; congruence]|].
    apply Forall_cons. split; [split; [by apply (bool_decide_unpack _)|vm_compute; congruence]|]. constructor.
  - exists m. split; [exact E|]. destruct (im_file _ _ I 0 _ eq_refl) as (_ & _ & _ & F4 & F5).
    rewrite F4 in F5. exact F5.
Defined.
