(* ===== verification/ConsoleDev.v ===== *)
(** * console.c: consoleread, consolewrite and consoleinit

    The two device functions release the inode while they wait or print and lock it
    again before they return; devsw[CONSOLE] holds them. *)

From stdpp Require Import base gmap list strings.
From Stdlib Require Import ZArith Lia.
From S2P Require Import Prelude Params Kmonad Console ConsoleSpec Bio Log Fs.

Definition CONSOLE : Z := 1.

Definition incons {A} (m : M cst A) : M fsstate A := zoom console set_console m.

(** The loop can take no more characters than the ring holds. *)
Definition input_fuel (i : input) : nat := S (Z.to_nat (u32 (iw i - ir i))).

(** The result and the bytes stored at dst.  A process that has to wait is asleep with
    what it got so far; see [consoleread_loop]. *)
Definition consoleread (killed : bool) (ip : nat) (n : Z) : M fsstate (Z * list Z) :=
  iunlock (Some ip);;
  acquire LInput;;
  i ← gets (λ s, inp (console s));
  r ← defined (consoleread_loop (input_fuel i) killed n (u32 n) [] i);
  incons (modify (set_inp r.2));;
  match r.1 with
  | Rkilled acc => release LInput;; ilock (Some ip);; mret (-1, acc)
  | Rwait _ _ => sleep CInput LInput
  | Rdone n' acc => release LInput;; ilock (Some ip);; mret (i32 (u32 n - n'), acc)
  end.

Definition consolewrite (ip : nat) (buf : list Z) (n : Z) : M fsstate Z :=
  iunlock (Some ip);;
  acquire LCons;;
  mfor 0 (Z.to_nat n) (λ i, c ← defined (buf !! i); incons (consputc (Z.land c 0xff)));;
  release LCons;;
  ilock (Some ip);;
  mret n.

(** devsw after consoleinit, which also sets cons.locking. *)
Definition console_devsw (killed : bool) : devsw :=
  Devsw (λ mj, if mj =? CONSOLE then Some (consoleread killed) else None)
        (λ mj, if mj =? CONSOLE then Some consolewrite else None).

(** Without the calls of the interrupt controllers, which Kmain.v adds. *)
Definition consoleinit : M fsstate unit :=
  initlock LCons;; initlock LInput;;
  incons (modify (set_locking true)).

(** ** consolewrite prints its buffer *)

Lemma incons_Done {A} (m : M cst A) k s a k' t :
  m k (console s) = Done a k' t → incons m k s = Done a k' (set_console t s).
Proof. apply zoom_Done. Qed.

Lemma serial_byte c : serial (Z.land c 0xff) = [Z.land c 0xff].
Proof.
  unfold serial, BACKSPACE. change 0xff with (Z.ones 8). rewrite Z.land_ones by lia.
  pose proof (Z.mod_pos_bound c (2 ^ 8) ltac:(lia)).
  destruct (Z.eqb_spec (c mod 2 ^ 8) 0x100); [lia|]. by rewrite u8_small by lia.
Qed.

Lemma write_loop_prints l : ∀ pre k s, screen_ok (console s) → panicked (console s) = false →
  ∃ t, mfor (length pre) (length l)
         (λ i, c ← defined ((pre ++ l) !! i); incons (consputc (Z.land c 0xff))) k s =
       Done tt k (set_console t s) ∧
       printed ((λ c, Z.land c 0xff) <$> l) (console s) t.
Proof.
  induction l as [|c l IH]; intros pre k s Hs Hp.
  - exists (console s). split; [by destruct s|]. split_and!; try done. by rewrite app_nil_r.
  - destruct (consputc_ok (Z.land c 0xff) k (console s) Hs Hp) as (t1 & H1 & P1).
    rewrite serial_byte in P1. pose proof P1 as (Hs1 & _ & _ & Hp1 & _).
    destruct (IH (pre ++ [c]) k (set_console t1 s) Hs1 ltac:(simpl; congruence)) as (t2 & H2 & P2).
    exists t2. split; [|by apply (printed_trans _ _ _ _ _ P1 P2)].
    cbn [length mfor]. rewrite length_app, Nat.add_1_r in H2.
    assert (Hstep : (c0 ← defined ((pre ++ c :: l) !! length pre); incons (consputc (Z.land c0 0xff))) k s
                    = Done tt k (set_console t1 s)).
    { rewrite list_lookup_middle by done. by apply incons_Done. }
    rewrite (bind_Done _ _ _ _ _ _ _ Hstep).
    replace (pre ++ c :: l) with ((pre ++ [c]) ++ l) by (by rewrite <- app_assoc). exact H2.
Qed.

(** A locked inode whose content has been read, as the caller of readi or writei has it. *)
Definition held_inode (ip : nat) (s : fsstate) : Prop :=
  (ip < length (icache s))%nat ∧ 1 ≤ i_ref (thei ip s) ∧
  has (i_flags (thei ip s)) I_BUSY = true ∧ has (i_flags (thei ip s)) I_VALID = true.

Definition unlock_flags (ip : nat) (s : fsstate) : fsstate :=
  updi ip (iset_flags (Z.land (i_flags (thei ip s)) (Z.lnot I_BUSY))) s.

Lemma thei_updi_eq ip f s : (ip < length (icache s))%nat → thei ip (updi ip f s) = f (thei ip s).
Proof. intros H. unfold thei at 1, updi. cbn [icache set_icache]. by rewrite nthz_insert_eq. Qed.

Lemma iunlock_run ip k s : held_inode ip s → LIcache ∉ held k → LPtable ∉ held k →
  iunlock (Some ip) k s = Done tt (Kctx (held k) (CInode ip :: wakeups k)) (unlock_flags ip s).
Proof.
  intros (Hi & Hr & Hb & Hv) Hk Hp. unfold iunlock. mb (gets_eq (thei ip) k s). rewrite Hb.
  destruct (Z.ltb_spec (i_ref (thei ip s)) 1); [lia|]. cbn [negb orb].
  mb (acquire_eq LIcache k s Hk). unfold mbind, M_bind. rewrite modify_eq.
  rewrite wakeup_eq; cbn [held wakeups]; [by rewrite release_top|].
  rewrite elem_of_cons. intros [?|?]; done.
Qed.

(** BUSY taken away and put back. *)
Lemma busy_flags f : has f I_BUSY = true → has f I_VALID = true →
  has (Z.land f (Z.lnot I_BUSY)) I_BUSY = false ∧
  has (Z.lor (Z.land f (Z.lnot I_BUSY)) I_BUSY) I_VALID = true ∧
  Z.lor (Z.land f (Z.lnot I_BUSY)) I_BUSY = f.
Proof.
  change I_BUSY with (2 ^ 0). change I_VALID with (2 ^ 1). rewrite !has_pow2 by lia. intros Hb Hv.
  assert (Hf : Z.lor (Z.land f (Z.lnot (2 ^ 0))) (2 ^ 0) = f).
  { apply Z.bits_inj'. intros n Hn. rewrite Z.lor_spec, Z.land_spec, Z.lnot_spec by lia.
    rewrite Z.pow2_bits_eqb by lia. destruct (Z.eqb_spec 0 n) as [<-|]; [by rewrite Hb|].
    by rewrite andb_true_r, orb_false_r. }
  split_and!; [|by rewrite Hf|done].
  by rewrite Z.land_spec, Z.lnot_spec, Z.pow2_bits_eqb, andb_false_r by lia.
Qed.

Lemma ilock_again ip k s t : held_inode ip s → LIcache ∉ held k →
  ilock (Some ip) k (set_console t (unlock_flags ip s)) = Done tt k (set_console t s).
Proof.
  intros (Hi & Hr & Hb & Hv) Hk. destruct (busy_flags _ Hb Hv) as (H1 & H2 & H3).
  set (s1 := set_console t (unlock_flags ip s)).
  assert (Hth : thei ip s1 = iset_flags (Z.land (i_flags (thei ip s)) (Z.lnot I_BUSY)) (thei ip s)).
  { apply (thei_updi_eq ip _ s Hi). }
  unfold ilock. mb (gets_eq (thei ip) k s1). rewrite Hth. cbn [i_ref iset_flags].
  destruct (Z.ltb_spec (i_ref (thei ip s)) 1); [lia|]. mb (acquire_eq LIcache k s1 Hk).
  mb (gets_eq (thei ip) (Kctx (LIcache :: held k) (wakeups k)) s1). rewrite Hth.
  cbn [i_flags iset_flags]. rewrite H1, H3.
  assert (Hs : updi ip (iset_flags (i_flags (thei ip s))) s1 = set_console t s).
  { unfold updi. rewrite Hth. unfold s1, unlock_flags, updi, set_console, set_icache. simpl.
    rewrite list_insert_insert_eq. f_equal.
    replace (iset_flags _ (iset_flags _ (thei ip s))) with (thei ip s) by (by destruct (thei ip s)).
    apply nthz_insert_self. }
  unfold mbind, M_bind. rewrite ret_eq, modify_eq, Hs, release_top. rewrite gets_eq.
  change (thei ip (set_console t s)) with (thei ip s). rewrite Hv. cbn [negb]. by destruct k.
Qed.

(** Writing to the console through a locked inode sends the bytes of the buffer
    to the serial port in order, keeps the cursor on the screen, returns the count, and
    leaves the inode locked and the rest of the file system as it was. *)
Theorem consolewrite_prints (ip : nat) (buf : list Z) (k : kctx) (s : fsstate) :
  held_inode ip s → screen_ok (console s) → panicked (console s) = false → held k = [] →
  ∃ t, consolewrite ip buf (Z.of_nat (length buf)) k s =
         Done (Z.of_nat (length buf)) (Kctx [] (CInode ip :: wakeups k)) (set_console t s) ∧
       screen_ok t ∧ uart t = uart (console s) ++ ((λ c, Z.land c 0xff) <$> buf).
Proof.
  intros Hi Hs Hp Hk. unfold consolewrite.
  mb (iunlock_run ip k s Hi ltac:(rewrite Hk; apply not_elem_of_nil) ltac:(rewrite Hk; apply not_elem_of_nil)).
  rewrite Hk. mb (acquire_eq LCons (Kctx [] (CInode ip :: wakeups k)) (unlock_flags ip s)
                    ltac:(apply not_elem_of_nil)).
  cbn [held wakeups]. rewrite Nat2Z.id.
  destruct (write_loop_prints buf [] (Kctx [LCons] (CInode ip :: wakeups k)) (unlock_flags ip s) Hs Hp)
    as (t & Hw & Hs' & Hu & _).
  exists t. split; [|done]. mb Hw. unfold mbind, M_bind. rewrite release_top.
  by rewrite (ilock_again ip (Kctx [] (CInode ip :: wakeups k)) s t Hi ltac:(apply not_elem_of_nil)).
Qed.

Definition demo_console_fs : fsstate :=
  Fsstate (Logstate (Bstate 1000 ∅ [] []) 970 30 0 0 ROOTDEV 0 (replicate 30 0))
    [Inode ROOTDEV 3 1 3 T_DEV CONSOLE 1 1 0 (replicate 13 0)]
    (Cst true false (replicate 2000 0) 0 [] (Input (replicate 128 0) 0 0 0)).

Lemma consolewrite_prints_witness :
  ∃ t, consolewrite 0 [104; 105; 10] 3 (Kctx [] []) demo_console_fs =
         Done 3 (Kctx [] [CInode 0]) (set_console t demo_console_fs) ∧
       screen_ok t ∧ uart t = [] ++ [104; 105; 10].
Proof.
  apply (consolewrite_prints 0 [104; 105; 10] (Kctx [] []) demo_console_fs); try done.
  split_and!; try done. simpl. lia.
Defined.
