(* ===== verification/Pipe.v ===== *)
(** * pipe.c: the data path of a pipe

    pipewrite and piperead on one struct pipe.  A call that has to wait is cut at its
    sleep: [pipewrite_loop] and [piperead_loop] say what is left to do, and calling them
    again with that is what happens after the wakeup.  pipealloc and the release of the
    page in pipeclose are in File.v, next to the file table and the page allocator. *)

From stdpp Require Import base list strings sets relations.
From Stdlib Require Import ZArith Lia.
From S2P Require Import Prelude Kmonad Ring.

Definition PIPESIZE : Z := 512.

Record pipe : Type := Pipe {
  pdata : list Z; nread : Z; nwrite : Z; readopen : bool; writeopen : bool
}.

(** The pipe as pipealloc leaves it, in a page with the bytes [junk]. *)
Definition pipe0 (junk : list Z) : pipe := Pipe junk 0 0 true true.

Inductive progress : Type :=
| Pdone                       (** the loop is left *)
| Pfail                       (** return -1 *)
| Pwait (rest : list Z).      (** asleep, with [rest] still to write *)

(** p->data[p->nwrite++ % PIPESIZE] = c *)
Definition put (c : Z) (p : pipe) : pipe :=
  Pipe (<[ring_slot PIPESIZE (nwrite p) := c]> (pdata p)) (nread p) (u32 (nwrite p + 1))
    (readopen p) (writeopen p).

(** The for loop of pipewrite over the bytes still to write. *)
Fixpoint pipewrite_loop (killed : bool) (todo : list Z) (p : pipe) : progress * pipe :=
  match todo with
  | [] => (Pdone, p)
  | c :: rest =>
    if nwrite p =? u32 (nread p + PIPESIZE) then
      if negb (readopen p) || killed then (Pfail, p) else (Pwait todo, p)
    else pipewrite_loop killed rest (put c p)
  end.

Definition pipewrite (pa : Z) (killed : bool) (todo : list Z) (n : Z) : M pipe Z :=
  acquire (LPipe pa);;
  p ← gets (λ p, p);
  let '(r, p') := pipewrite_loop killed todo p in
  modify (λ _, p');;
  match r with
  | Pfail => release (LPipe pa);; mret (-1)
  | Pwait _ => wakeup (CNread pa);; sleep (CNwrite pa) (LPipe pa)
  | Pdone => wakeup (CNread pa);; release (LPipe pa);; mret n
  end.

(** The for loop of piperead: up to [n] bytes. *)
Fixpoint pipe_take (n : nat) (p : pipe) : list Z * pipe :=
  match n with
  | O => ([], p)
  | S n' =>
    if nread p =? nwrite p then ([], p)
    else
      let c := (pdata p).[ring_slot PIPESIZE (nread p)] in
      let '(l, p') := pipe_take n'
        (Pipe (pdata p) (u32 (nread p + 1)) (nwrite p) (readopen p) (writeopen p)) in
      (c :: l, p')
  end.

(** The bytes stored at addr; the return value is their number. *)
Definition piperead (pa : Z) (killed : bool) (n : Z) : M pipe (Z * list Z) :=
  acquire (LPipe pa);;
  p ← gets (λ p, p);
  if (nread p =? nwrite p) && writeopen p then
    if killed then release (LPipe pa);; mret (-1, []) else sleep (CNread pa) (LPipe pa)
  else
    let '(l, p') := pipe_take (Z.to_nat n) p in
    modify (λ _, p');;
    wakeup (CNwrite pa);;
    release (LPipe pa);;
    mret (Z.of_nat (length l), l).

(** pipeclose up to the test; the result says whether the page is to be freed. *)
Definition pipeclose (pa : Z) (writable : bool) : M pipe bool :=
  acquire (LPipe pa);;
  (if writable then
     modify (λ p, Pipe (pdata p) (nread p) (nwrite p) (readopen p) false);; wakeup (CNread pa)
   else
     modify (λ p, Pipe (pdata p) (nread p) (nwrite p) false (writeopen p));; wakeup (CNwrite pa));;
  p ← gets (λ p, p);
  release (LPipe pa);;
  mret (negb (readopen p) && negb (writeopen p)).

(** ** What the pipe contains *)

Definition pipe_rep (p : pipe) (l : list Z) : Prop :=
  0 ≤ nread p < 2 ^ 32 ∧ nwrite p = u32 (nread p + Z.of_nat (length l)) ∧
  holds PIPESIZE (pdata p) (nread p) l.

Lemma pipe_div : (PIPESIZE | 2 ^ 32).
Proof. by exists (2 ^ 23). Qed.

Lemma pipe0_rep junk : length junk = 512%nat → pipe_rep (pipe0 junk) [].
Proof. intros H. split_and!; try done. apply holds_nil; [done|]. cbn. by rewrite H. Qed.

(** The test for a full pipe, and the one for an empty pipe. *)
Lemma pipe_full p l : pipe_rep p l →
  (nwrite p =? u32 (nread p + PIPESIZE)) = (Z.of_nat (length l) =? PIPESIZE).
Proof. intros (_ & -> & _ & Hl & _). apply u32_eqb; unfold PIPESIZE in *; lia. Qed.

Lemma pipe_empty p l : pipe_rep p l → (nread p =? nwrite p) = bool_decide (l = []).
Proof.
  intros (Hr & -> & _ & Hl & _). rewrite <- (u32_small (nread p)) at 1 by done.
  rewrite <- (Z.add_0_r (nread p)) at 1. rewrite u32_eqb by (unfold PIPESIZE in *; lia).
  by destruct l.
Qed.

Lemma put_rep p l c : pipe_rep p l → Z.of_nat (length l) < PIPESIZE → pipe_rep (put c p) (l ++ [c]).
Proof.
  intros (Hr & Hw & Hh) Hl. unfold pipe_rep, put. cbn [nread nwrite pdata]. split_and!; try lia.
  - rewrite Hw, u32_add_l, length_app. f_equal. simpl. lia.
  - rewrite Hw, ring_slot_u32 by apply pipe_div. by apply holds_append.
Qed.

(** Writing appends a prefix of the data, and waits or fails only when the pipe is full. *)
Lemma pipewrite_loop_rep killed todo : ∀ p l, pipe_rep p l →
  let '(r, p') := pipewrite_loop killed todo p in
  ∃ done rest, todo = done ++ rest ∧ pipe_rep p' (l ++ done) ∧
    readopen p' = readopen p ∧ writeopen p' = writeopen p ∧
    match r with
    | Pdone => rest = []
    | Pwait rest' => rest = rest' ∧ rest ≠ [] ∧ length (l ++ done) = 512%nat ∧
                     readopen p = true ∧ killed = false
    | Pfail => rest ≠ [] ∧ length (l ++ done) = 512%nat ∧ (readopen p = false ∨ killed = true)
    end.
Proof.
  induction todo as [|c todo IH]; intros p l Hp; cbn [pipewrite_loop].
  - exists [], []. rewrite !app_nil_r. by split_and!.
  - rewrite (pipe_full p l Hp). unfold PIPESIZE.
    destruct (Z.eqb_spec (Z.of_nat (length l)) 512) as [Hf|Hf].
    + destruct (readopen p) eqn:Er, killed; cbn [negb orb];
        exists [], (c :: todo); rewrite app_nil_r; split_and!; (done || lia || naive_solver).
    + assert (Z.of_nat (length l) < PIPESIZE).
      { destruct Hp as (_ & _ & _ & ? & _). unfold PIPESIZE in *. lia. }
      specialize (IH (put c p) (l ++ [c]) (put_rep p l c Hp H)).
      destruct (pipewrite_loop killed todo (put c p)) as [r p'].
      destruct IH as (dn & rest & -> & Hp' & Hro & Hwo & Hr). exists (c :: dn), rest.
      rewrite <- (app_assoc l [c] dn) in *. split_and!; done.
Qed.

(** Reading takes the first bytes, as many as asked for and there. *)
Lemma pipe_take_rep n : ∀ p l, pipe_rep p l →
  ∃ p', pipe_take n p = (take n l, p') ∧ pipe_rep p' (drop n l) ∧
        readopen p' = readopen p ∧ writeopen p' = writeopen p.
Proof.
  induction n as [|n IH]; intros p l Hp; cbn [pipe_take]; [by exists p|].
  rewrite (pipe_empty p l Hp). destruct l as [|c l].
  - rewrite bool_decide_eq_true_2 by done. by exists p.
  - rewrite bool_decide_eq_false_2 by done. pose proof Hp as (Hr & Hw & Hh).
    rewrite (holds_head _ _ _ _ _ Hh).
    destruct (IH (Pipe (pdata p) (u32 (nread p + 1)) (nwrite p) (readopen p) (writeopen p)) l)
      as (p' & Ht & Hp' & Hro & Hwo).
    { unfold pipe_rep. cbn [nread nwrite pdata]. split_and!; [apply u32_range|apply u32_range| |].
      - rewrite Hw, u32_add_l. f_equal. simpl. lia.
      - by eapply holds_tail; [apply pipe_div|]. }
    rewrite Ht. by exists p'.
Qed.

(** ** The stream through a pipe

    Every call is a critical section of p->lock, so an execution of readers and writers
    is a sequence of the steps below. *)

Record traffic : Type := Traffic { the_pipe : pipe; sent : list Z; received : list Z }.

Inductive pstep : traffic → traffic → Prop :=
| step_write killed todo p snt rcv r p' :
    (* a writer runs until it is done, fails or sleeps; nwrite counts the bytes it stored *)
    pipewrite_loop killed todo p = (r, p') →
    pstep (Traffic p snt rcv)
      (Traffic p' (snt ++ take (Z.to_nat (u32 (nwrite p' - nwrite p))) todo) rcv)
| step_read n p snt rcv l p' :
    pipe_take n p = (l, p') →
    pstep (Traffic p snt rcv) (Traffic p' snt (rcv ++ l))
| step_close_read p snt rcv :
    pstep (Traffic p snt rcv)
      (Traffic (Pipe (pdata p) (nread p) (nwrite p) false (writeopen p)) snt rcv)
| step_close_write p snt rcv :
    pstep (Traffic p snt rcv)
      (Traffic (Pipe (pdata p) (nread p) (nwrite p) (readopen p) false) snt rcv).

(** What was sent is what was received and what is in the pipe. *)
Definition stream_ok (t : traffic) : Prop :=
  ∃ q, sent t = received t ++ q ∧ pipe_rep (the_pipe t) q.

(** A writer leaves nread alone. *)
Lemma pipewrite_loop_nread killed todo : ∀ p,
  nread (pipewrite_loop killed todo p).2 = nread p.
Proof.
  induction todo as [|c todo IH]; intros p; cbn [pipewrite_loop]; [done|].
  destruct (_ =? _); [by destruct (_ || _)|]. by rewrite IH.
Qed.

Lemma write_count killed todo p l r p' dn rest :
  pipe_rep p l → pipewrite_loop killed todo p = (r, p') → todo = dn ++ rest →
  pipe_rep p' (l ++ dn) → take (Z.to_nat (u32 (nwrite p' - nwrite p))) todo = dn.
Proof.
  intros (Hr & Hw & _) Hl -> (_ & Hw' & _ & Hlen & _).
  pose proof (pipewrite_loop_nread killed (dn ++ rest) p) as Hn. rewrite Hl in Hn. simpl in Hn.
  rewrite Hw, Hw', Hn, u32_gap; [|rewrite length_app; lia|unfold PIPESIZE in *; lia].
  rewrite length_app.
  replace (Z.to_nat (Z.of_nat (length l + length dn) - Z.of_nat (length l))) with (length dn) by lia.
  apply take_app_length.
Qed.

Lemma pstep_ok t t' : pstep t t' → stream_ok t → stream_ok t'.
Proof.
  intros Hst (q & Hs & Hp). destruct Hst as [killed todo p snt rcv r p' Hl|n p snt rcv l p' Hl| |];
    cbn [sent received the_pipe] in *.
  - pose proof (pipewrite_loop_rep killed todo p q Hp) as H. rewrite Hl in H.
    destruct H as (dn & rest & He & Hp' & _). exists (q ++ dn).
    cbn [sent received the_pipe].
    rewrite (write_count killed todo p q r p' dn rest Hp Hl He Hp'), Hs, <- app_assoc. done.
  - destruct (pipe_take_rep n p q Hp) as (p'' & Ht & Hp' & _). rewrite Hl in Ht.
    injection Ht as -> ->. exists (drop n q). split; [|done]. cbn [sent received].
    by rewrite <- app_assoc, take_drop.
  - by exists q.
  - by exists q.
Qed.



(** What piperead does in every case.  On an empty pipe with an open writer it
    sleeps, or fails if the process was killed; otherwise it delivers the first bytes
    of the stream, as many as were asked for and are there (none at end of file), and
    wakes the writers. *)
Theorem piperead_cases (pa : Z) (killed : bool) (n : nat) (k : kctx) (p : pipe) (l : list Z) :
  pipe_rep p l → held k = [] →
  (if bool_decide (l = []) && writeopen p then
     if killed then piperead pa killed (Z.of_nat n) k p = Done (-1, []) k p
     else piperead pa killed (Z.of_nat n) k p = Blocked (CNread pa) (Kctx [] (wakeups k)) p
   else ∃ p', piperead pa killed (Z.of_nat n) k p =
                Done (Z.of_nat (length (take n l)), take n l) (Kctx [] (CNwrite pa :: wakeups k)) p' ∧
              pipe_rep p' (drop n l) ∧ readopen p' = readopen p ∧ writeopen p' = writeopen p).
Proof.
  intros Hp Hk. unfold piperead. destruct k as [h w]. simpl in Hk. subst h.
  assert (Ha : acquire (LPipe pa) (Kctx [] w) p = Done tt (Kctx [LPipe pa] w) p)
    by (apply acquire_eq; simpl; set_solver).
  mb Ha. mb (gets_eq (λ p, p) (Kctx [LPipe pa] w) p). rewrite (pipe_empty p l Hp).
  destruct (bool_decide (l = []) && writeopen p).
  - destruct killed; [|by rewrite sleep_eq]. by mb (release_top (LPipe pa) [] w p).
  - rewrite Nat2Z.id. destruct (pipe_take_rep n p l Hp) as (p' & Ht & Hp' & Hro & Hwo). rewrite Ht.
    exists p'. split; [|done]. mgo. done.
Qed.

Lemma piperead_cases_witness :
  piperead 77 false 4 (Kctx [] []) (pipe0 (replicate 512 0)) =
  Blocked (CNread 77) (Kctx [] []) (pipe0 (replicate 512 0)).
Proof.
  apply (piperead_cases 77 false 4 (Kctx [] []) (pipe0 (replicate 512 0)) []); [|done].
  by apply pipe0_rep.
Defined.

(** What pipewrite does in every case.  It stores a prefix of its bytes behind
    the stream.  It returns its count when all bytes are stored; it fails, after the pipe
    is full, only if the readers are gone or the process was killed; else it sleeps on a
    full pipe.  Readers are woken when it returns its count and before it sleeps. *)
Theorem pipewrite_cases (pa : Z) (killed : bool) (todo : list Z) (k : kctx) (p : pipe) (l : list Z) (n : Z) :
  pipe_rep p l → held k = [] →
  ∃ dn rest p', todo = dn ++ rest ∧ pipe_rep p' (l ++ dn) ∧
    ((rest = [] ∧ pipewrite pa killed todo n k p = Done n (Kctx [] (CNread pa :: wakeups k)) p') ∨
     (rest ≠ [] ∧ length (l ++ dn) = 512%nat ∧ (readopen p = false ∨ killed = true) ∧
      pipewrite pa killed todo n k p = Done (-1) (Kctx [] (wakeups k)) p') ∨
     (rest ≠ [] ∧ length (l ++ dn) = 512%nat ∧ readopen p = true ∧ killed = false ∧
      pipewrite pa killed todo n k p = Blocked (CNwrite pa) (Kctx [] (CNread pa :: wakeups k)) p')).
Proof.
  intros Hp Hk. unfold pipewrite. destruct k as [h w]. simpl in Hk. subst h.
  assert (Ha : acquire (LPipe pa) (Kctx [] w) p = Done tt (Kctx [LPipe pa] w) p)
    by (apply acquire_eq; simpl; set_solver).
  mb Ha. mb (gets_eq (λ p, p) (Kctx [LPipe pa] w) p).
  pose proof (pipewrite_loop_rep killed todo p l Hp) as H.
  destruct (pipewrite_loop killed todo p) as [r p'].
  destruct H as (dn & rest & He & Hp' & _ & _ & Hr). exists dn, rest, p'. split_and!; [done|done|].
  mb (modify_eq (λ _, p') (Kctx [LPipe pa] w) p). destruct r as [| |rest'].
  - left. split; [done|]. mgo. done.
  - right. left. destruct Hr as (? & ? & ?). split_and!; try done. mgo. done.
  - right. right. destruct Hr as (? & ? & ? & ? & ?). split_and!; try done.
    assert (Hw : wakeup (CNread pa) (Kctx [LPipe pa] w) p' = Done tt (Kctx [LPipe pa] (CNread pa :: w)) p')
      by (apply wakeup_eq; simpl; set_solver).
    mb Hw. by rewrite sleep_eq.
Qed.

Lemma pipewrite_cases_witness :
  ∃ dn rest p', [1; 2] = dn ++ rest ∧ pipe_rep p' ([] ++ dn) ∧
    ((rest = [] ∧ pipewrite 77 false [1; 2] 2 (Kctx [] []) (pipe0 (replicate 512 0)) =
                  Done 2 (Kctx [] [CNread 77]) p') ∨
     (rest ≠ [] ∧ length ([] ++ dn) = 512%nat ∧ (true = false ∨ false = true) ∧
      pipewrite 77 false [1; 2] 2 (Kctx [] []) (pipe0 (replicate 512 0)) = Done (-1) (Kctx [] []) p') ∨
     (rest ≠ [] ∧ length ([] ++ dn) = 512%nat ∧ true = true ∧ false = false ∧
      pipewrite 77 false [1; 2] 2 (Kctx [] []) (pipe0 (replicate 512 0)) =
        Blocked (CNwrite 77) (Kctx [] [CNread 77]) p')).
Proof.
  apply (pipewrite_cases 77 false [1; 2] (Kctx [] []) (pipe0 (replicate 512 0)) [] 2); [|done].
  by apply pipe0_rep.
Defined.
