(* ===== verification/Kstate.v ===== *)
(** * The kernel's state

    proc.h, file.h and x86.h: the process table, the file table, the pipes and the trap
    frames, together with the file system and the memory.  The routines of file.c, proc.c,
    the system calls and exec run on this state in the context of the current process,
    [cur].

    struct proc follows the uses in proc.c: the fields kstack, tf, context and chan belong
    to the process.  The trap frame, which lies at the top of the kernel stack,
    is kept as a field; the context is the address of one in that stack.  User memory is read and written through the page table
    of the current process, at the address [uaddr] gives. *)

From stdpp Require Import base gmap list strings.
From Stdlib Require Import ZArith Lia.
From S2P Require Import Prelude Params Kmonad Cstring Kalloc Console Vm VmSpec VmCopy Bio Log Fs.
From S2P Require Import ConsoleDev Pipe.

(** ** Files *)

Inductive fdtype : Type := FD_NONE | FD_PIPE | FD_INODE.

(** struct file; [fpipe] is the address of the struct pipe, [fip] an inode of the cache. *)
Record file : Type := File {
  ftype : fdtype; fref : Z; readable : bool; writable : bool; fpipe : Z; fip : nat; foff : Z
}.
Definition file0 : file := File FD_NONE 0 false false 0 0 0.

Definition set_ftype (v : fdtype) (f : file) : file :=
  File v (fref f) (readable f) (writable f) (fpipe f) (fip f) (foff f).
Definition set_fref (v : Z) (f : file) : file :=
  File (ftype f) v (readable f) (writable f) (fpipe f) (fip f) (foff f).
Definition set_foff (v : Z) (f : file) : file :=
  File (ftype f) (fref f) (readable f) (writable f) (fpipe f) (fip f) v.

(** ** Processes *)

Inductive procstate : Type := UNUSED | EMBRYO | SLEEPING | RUNNABLE | RUNNING | ZOMBIE.
#[global] Instance procstate_eq_dec : EqDecision procstate.
Proof. solve_decision. Defined.

(** struct trapframe *)
Record trapframe : Type := Trapframe {
  edi : Z; esi : Z; ebp : Z; ebx : Z; edx : Z; ecx : Z; eax : Z;
  gs : Z; fs : Z; es : Z; ds : Z; trapno : Z; err : Z; eip : Z; cs : Z; eflags : Z; esp : Z; ss : Z
}.
Definition tf0 : trapframe := Trapframe 0 0 0 0 0 0 0 0 0 0 0 0 0 0 0 0 0 0.
Definition set_eax (v : Z) (t : trapframe) : trapframe :=
  Trapframe (edi t) (esi t) (ebp t) (ebx t) (edx t) (ecx t) v (gs t) (fs t) (es t) (ds t)
    (trapno t) (err t) (eip t) (cs t) (eflags t) (esp t) (ss t).
Definition set_entry_point (e sp : Z) (t : trapframe) : trapframe :=
  Trapframe (edi t) (esi t) (ebp t) (ebx t) (edx t) (ecx t) (eax t) (gs t) (fs t) (es t) (ds t)
    (trapno t) (err t) e (cs t) (eflags t) sp (ss t).

(** struct proc; a parent is an index into the table, a null pointer [None]. *)
Record proc : Type := Proc {
  p_sz : Z; p_pgdir : Z; p_kstack : Z; p_state : procstate; p_pid : Z; p_parent : option nat;
  p_tf : trapframe; p_context : Z; p_chan : option chan; p_killed : bool;
  p_ofile : list (option nat); p_cwd : option nat; p_name : list Z
}.
Definition proc0 : proc :=
  Proc 0 0 0 UNUSED 0 None tf0 0 None false (replicate NOFILE None) None [].

Definition set_psz (v : Z) (p : proc) : proc :=
  Proc v (p_pgdir p) (p_kstack p) (p_state p) (p_pid p) (p_parent p) (p_tf p) (p_context p) (p_chan p)
    (p_killed p) (p_ofile p) (p_cwd p) (p_name p).
Definition set_ppgdir (v : Z) (p : proc) : proc :=
  Proc (p_sz p) v (p_kstack p) (p_state p) (p_pid p) (p_parent p) (p_tf p) (p_context p) (p_chan p)
    (p_killed p) (p_ofile p) (p_cwd p) (p_name p).
Definition set_kstack (v : Z) (p : proc) : proc :=
  Proc (p_sz p) (p_pgdir p) v (p_state p) (p_pid p) (p_parent p) (p_tf p) (p_context p) (p_chan p)
    (p_killed p) (p_ofile p) (p_cwd p) (p_name p).
Definition set_pstate (v : procstate) (p : proc) : proc :=
  Proc (p_sz p) (p_pgdir p) (p_kstack p) v (p_pid p) (p_parent p) (p_tf p) (p_context p) (p_chan p)
    (p_killed p) (p_ofile p) (p_cwd p) (p_name p).
Definition set_pid (v : Z) (p : proc) : proc :=
  Proc (p_sz p) (p_pgdir p) (p_kstack p) (p_state p) v (p_parent p) (p_tf p) (p_context p) (p_chan p)
    (p_killed p) (p_ofile p) (p_cwd p) (p_name p).
Definition set_parent (v : option nat) (p : proc) : proc :=
  Proc (p_sz p) (p_pgdir p) (p_kstack p) (p_state p) (p_pid p) v (p_tf p) (p_context p) (p_chan p)
    (p_killed p) (p_ofile p) (p_cwd p) (p_name p).
Definition set_tf (v : trapframe) (p : proc) : proc :=
  Proc (p_sz p) (p_pgdir p) (p_kstack p) (p_state p) (p_pid p) (p_parent p) v (p_context p) (p_chan p)
    (p_killed p) (p_ofile p) (p_cwd p) (p_name p).
Definition set_context (v : Z) (p : proc) : proc :=
  Proc (p_sz p) (p_pgdir p) (p_kstack p) (p_state p) (p_pid p) (p_parent p) (p_tf p) v (p_chan p)
    (p_killed p) (p_ofile p) (p_cwd p) (p_name p).
Definition set_chan (v : option chan) (p : proc) : proc :=
  Proc (p_sz p) (p_pgdir p) (p_kstack p) (p_state p) (p_pid p) (p_parent p) (p_tf p) (p_context p) v
    (p_killed p) (p_ofile p) (p_cwd p) (p_name p).
Definition set_killed (v : bool) (p : proc) : proc :=
  Proc (p_sz p) (p_pgdir p) (p_kstack p) (p_state p) (p_pid p) (p_parent p) (p_tf p) (p_context p) (p_chan p)
    v (p_ofile p) (p_cwd p) (p_name p).
Definition set_ofile (v : list (option nat)) (p : proc) : proc :=
  Proc (p_sz p) (p_pgdir p) (p_kstack p) (p_state p) (p_pid p) (p_parent p) (p_tf p) (p_context p) (p_chan p)
    (p_killed p) v (p_cwd p) (p_name p).
Definition set_cwd (v : option nat) (p : proc) : proc :=
  Proc (p_sz p) (p_pgdir p) (p_kstack p) (p_state p) (p_pid p) (p_parent p) (p_tf p) (p_context p) (p_chan p)
    (p_killed p) (p_ofile p) v (p_name p).
Definition set_name (v : list Z) (p : proc) : proc :=
  Proc (p_sz p) (p_pgdir p) (p_kstack p) (p_state p) (p_pid p) (p_parent p) (p_tf p) (p_context p) (p_chan p)
    (p_killed p) (p_ofile p) (p_cwd p) v.

(** ** The whole *)

Record kst : Type := Kst {
  k_fs : fsstate;                  (** log, buffers, inodes, console *)
  k_vm : vst;                      (** memory; its console is a working copy of the one above *)
  k_pipes : gmap Z pipe;           (** the pages that hold a struct pipe *)
  k_files : list file;             (** ftable *)
  k_procs : list proc;             (** ptable *)
  k_cur : nat;                     (** the current process *)
  k_nextpid : Z; k_initproc : option nat; k_ticks : Z
}.

Definition set_kfs (v : fsstate) (s : kst) : kst :=
  Kst v (k_vm s) (k_pipes s) (k_files s) (k_procs s) (k_cur s) (k_nextpid s) (k_initproc s) (k_ticks s).
Definition set_kpipes (v : gmap Z pipe) (s : kst) : kst :=
  Kst (k_fs s) (k_vm s) v (k_files s) (k_procs s) (k_cur s) (k_nextpid s) (k_initproc s) (k_ticks s).
Definition set_kfiles (v : list file) (s : kst) : kst :=
  Kst (k_fs s) (k_vm s) (k_pipes s) v (k_procs s) (k_cur s) (k_nextpid s) (k_initproc s) (k_ticks s).
Definition set_kprocs (v : list proc) (s : kst) : kst :=
  Kst (k_fs s) (k_vm s) (k_pipes s) (k_files s) v (k_cur s) (k_nextpid s) (k_initproc s) (k_ticks s).
Definition set_nextpid (v : Z) (s : kst) : kst :=
  Kst (k_fs s) (k_vm s) (k_pipes s) (k_files s) (k_procs s) (k_cur s) v (k_initproc s) (k_ticks s).
Definition set_initproc (v : option nat) (s : kst) : kst :=
  Kst (k_fs s) (k_vm s) (k_pipes s) (k_files s) (k_procs s) (k_cur s) (k_nextpid s) v (k_ticks s).
Definition set_ticks (v : Z) (s : kst) : kst :=
  Kst (k_fs s) (k_vm s) (k_pipes s) (k_files s) (k_procs s) (k_cur s) (k_nextpid s) (k_initproc s) v.

(** Run a routine of the file system, of the memory, of the console, of a pipe. *)
Definition infs {A} (m : M fsstate A) : M kst A := zoom k_fs set_kfs m.

Definition get_vm (s : kst) : vst := set_con (console (k_fs s)) (k_vm s).
Definition put_vm (v : vst) (s : kst) : kst :=
  Kst (set_console (con v) (k_fs s)) v (k_pipes s) (k_files s) (k_procs s) (k_cur s) (k_nextpid s)
    (k_initproc s) (k_ticks s).
Definition invm {A} (m : M vst A) : M kst A := zoom get_vm put_vm m.

Definition incst {A} (m : M cst A) : M kst A := infs (incons m).

Definition get_pipe (pa : Z) (s : kst) : pipe := default (pipe0 []) (k_pipes s !! pa).
Definition put_pipe (pa : Z) (p : pipe) (s : kst) : kst := set_kpipes (<[pa := p]> (k_pipes s)) s.
Definition inpipe {A} (pa : Z) (m : M pipe A) : M kst A := zoom (get_pipe pa) (put_pipe pa) m.

Definition thef (i : nat) (s : kst) : file := nthz file0 (k_files s) i.
Definition updf (i : nat) (f : file → file) (s : kst) : kst :=
  set_kfiles (<[i := f (thef i s)]> (k_files s)) s.
Definition thep (i : nat) (s : kst) : proc := nthz proc0 (k_procs s) i.
Definition updp (i : nat) (f : proc → proc) (s : kst) : kst :=
  set_kprocs (<[i := f (thep i s)]> (k_procs s)) s.

(** The current process. *)
Definition curp (s : kst) : proc := thep (k_cur s) s.
Definition upd_cur (f : proc → proc) : M kst unit := modify (λ s, updp (k_cur s) f s).

(** The devices: reads of the console see whether the current process is killed. *)
Definition dsw (s : kst) : devsw := console_devsw (p_killed (curp s)).

(** Physical memory, and user memory of the current process. *)
Definition kmem_of (s : kst) : mem := vmem (k_vm s).
Definition ubyte (s : kst) (va : Z) : Z := rd (kmem_of s) (uaddr (kmem_of s) (p_pgdir (curp s)) va).
Definition uword (s : kst) (va : Z) : Z :=
  ubyte s va + 2 ^ 8 * ubyte s (va + 1) + 2 ^ 16 * ubyte s (va + 2) + 2 ^ 24 * ubyte s (va + 3).
Definition ubytes (s : kst) (va n : Z) : list Z := (λ i, ubyte s (va + Z.of_nat i)) <$> seq 0 (Z.to_nat n).

(** Store [l] at user address [va]; an address that is not mapped traps. *)
Definition mapped_u (s : kst) (va : Z) : bool :=
  has (pte (kmem_of s) (p_pgdir (curp s)) va) PTE_P.
Fixpoint ustore (va : Z) (l : list Z) : M kst unit :=
  match l with
  | [] => mret tt
  | c :: l' =>
    s ← gets (λ s, s);
    if mapped_u s va then
      invm (vupd (λ m, wr m (uaddr m (p_pgdir (curp s)) va) c));;
      ustore (va + 1) l'
    else panic "trap"
  end.
