(* ===== verification/File.v ===== *)
(** * file.c: open files, and the rest of pipe.c

    A [struct file*] is an index into the file table, a null pointer [None].  fileread
    returns the bytes it delivers, filewrite takes the bytes to write; the system calls
    move them from and to user memory. *)

From stdpp Require Import base gmap list strings.
From Stdlib Require Import ZArith Lia.
From S2P Require Import Prelude Params Kmonad Cstring Kalloc Vm Bio Log Fs Pipe Kstate.

Section file.
Context (kend : Z).

Definition fileinit : M kst unit := initlock LFtable.

(** The first entry with no references. *)
Fixpoint free_file (l : list file) (i : nat) : option nat :=
  match l with
  | [] => None
  | f :: l' => if fref f =? 0 then Some i else free_file l' (S i)
  end.

Definition filealloc : M kst (option nat) :=
  acquire LFtable;;
  l ← gets k_files;
  match free_file l 0 with
  | Some f => modify (updf f (set_fref 1));; release LFtable;; mret (Some f)
  | None => release LFtable;; mret None
  end.

Definition filedup (f : nat) : M kst nat :=
  acquire LFtable;;
  x ← gets (thef f);
  if fref x <? 1 then panic "filedup"
  else
    modify (updf f (set_fref (fref x + 1)));;
    release LFtable;;
    mret f.

(** pipe.c: pipeclose; the page goes back when both ends are closed. *)
Definition pipeclose (pa : Z) (wr : bool) : M kst unit :=
  both ← inpipe pa (Pipe.pipeclose pa wr);
  if (both : bool) then
    invm (inkm (kfree kend pa));;
    modify (λ s, set_kpipes (delete pa (k_pipes s)) s)
  else mret tt.

(** What a last close does with the copy [ff] of the file. *)
Definition close_last (ff : file) : M kst unit :=
  match ftype ff with
  | FD_PIPE => pipeclose (fpipe ff) (writable ff)
  | FD_INODE =>
    infs (inlg begin_op);;
    infs (iput (fip ff));;
    infs (inlg end_op)
  | FD_NONE => mret tt
  end.

Definition fileclose (f : nat) : M kst unit :=
  acquire LFtable;;
  x ← gets (thef f);
  if fref x <? 1 then panic "fileclose"
  else
    modify (updf f (set_fref (fref x - 1)));;
    if fref x - 1 >? 0 then release LFtable
    else
      ff ← gets (thef f);
      modify (updf f (set_fref 0));;
      modify (updf f (set_ftype FD_NONE));;
      release LFtable;;
      close_last ff.

(** The stat structure of an inode, [None] for -1. *)
Definition filestat (f : nat) : M kst (option stat) :=
  x ← gets (thef f);
  match ftype x with
  | FD_INODE =>
    infs (ilock (Some (fip x)));;
    st ← infs (stati (fip x));
    infs (iunlock (Some (fip x)));;
    mret (Some st)
  | _ => mret None
  end.

(** The result and the bytes delivered. *)
Definition fileread (f : nat) (n : Z) : M kst (Z * list Z) :=
  x ← gets (thef f);
  if negb (readable x) then mret (-1, [])
  else
    match ftype x with
    | FD_PIPE => p ← gets curp; inpipe (fpipe x) (piperead (fpipe x) (p_killed p) n)
    | FD_INODE =>
      infs (ilock (Some (fip x)));;
      d ← gets dsw;
      r ← infs (readi d (fip x) (foff x) (u32 n));
      (if r.1 >? 0 then modify (updf f (λ x, set_foff (u32 (foff x + r.1)) x)) else mret tt);;
      infs (iunlock (Some (fip x)));;
      mret (r : Z * list Z)
    | FD_NONE => panic "fileread"
    end.

(** The most bytes filewrite puts into one transaction. *)
Definition filewrite_max : Z := (LOGSIZE - 1 - 1 - 2) / 2 * 512.

(** The loop of filewrite: [i] bytes are written, [src] are the others. *)
Fixpoint filewrite_loop (fuel f ip : nat) (n i : Z) (src : list Z) : M kst Z :=
  match fuel with
  | O => diverge
  | S fl =>
    if i <? n then
      let n1 := if n - i >? filewrite_max then filewrite_max else n - i in
      infs (inlg begin_op);;
      infs (ilock (Some ip));;
      d ← gets dsw;
      x ← gets (thef f);
      r ← infs (writei d ip (take (Z.to_nat n1) src) (foff x) n1);
      (if r >? 0 then modify (updf f (λ x, set_foff (u32 (foff x + r)) x)) else mret tt);;
      infs (iunlock (Some ip));;
      infs (inlg end_op);;
      if r <? 0 then mret i
      else if negb (r =? n1) then panic "short filewrite"
      else filewrite_loop fl f ip n (i + r) (drop (Z.to_nat n1) src)
    else mret i
  end.

Definition filewrite (f : nat) (src : list Z) (n : Z) : M kst Z :=
  x ← gets (thef f);
  if negb (writable x) then mret (-1)
  else
    match ftype x with
    | FD_PIPE => p ← gets curp; inpipe (fpipe x) (pipewrite (fpipe x) (p_killed p) src n)
    | FD_INODE =>
      i ← filewrite_loop (S (S (Z.to_nat (n / filewrite_max)))) f (fip x) n 0 src;
      mret (if i =? n then n else -1)
    | FD_NONE => panic "filewrite"
    end.

(** pipe.c: pipealloc.  Both files, or [None] for -1. *)
Definition pipealloc_bad (p : Z) (f0 f1 : option nat) : M kst (option (nat * nat)) :=
  (if negb (p =? 0) then invm (inkm (kfree kend p)) else mret tt);;
  (match f0 with Some f => fileclose f | None => mret tt end);;
  (match f1 with Some f => fileclose f | None => mret tt end);;
  mret None.

(** The bytes behind the lock in a page, where data[] lies. *)
Definition page_junk (m : mem) (p : Z) : list Z :=
  (λ i, rd m (p + 52 + Z.of_nat i)) <$> seq 0 (Z.to_nat PIPESIZE).

Definition pipealloc : M kst (option (nat * nat)) :=
  f0 ← filealloc;
  match (f0 : option nat) with
  | None => pipealloc_bad 0 None None
  | Some a =>
    f1 ← filealloc;
    match (f1 : option nat) with
    | None => pipealloc_bad 0 (Some a) None
    | Some b =>
      p ← invm (inkm kalloc);
      if p =? 0 then pipealloc_bad 0 (Some a) (Some b)
      else
        modify (λ s, put_pipe p (pipe0 (page_junk (kmem_of s) p)) s);;
        initlock (LPipe p);;
        modify (updf a (λ x, File FD_PIPE (fref x) true false p (fip x) (foff x)));;
        modify (updf b (λ x, File FD_PIPE (fref x) false true p (fip x) (foff x)));;
        mret (Some (a, b))
    end
  end.
End file.
