(* ===== verification/FileSpec.v ===== *)
(** * Open files are counted

    f->ref is the number of references to f that descriptors and running calls hold, so an
    entry of the file table is handed out only when nothing refers to it. *)

From stdpp Require Import base gmap list strings relations.
From Stdlib Require Import ZArith Lia.
From S2P Require Import Prelude Params Kmonad Cstring Kalloc Console Vm Bio Log Fs Pipe Kstate File.

(** ** What leaves the file table alone *)

Definition keeps_files {A} (m : M kst A) : Prop := ∀ k s a k' s',
  m k s = Done a k' s' → k_files s' = k_files s.

Create HintDb keeps.

Lemma keeps_ret {A} (a : A) : keeps_files (mret a).
Proof. intros k s b k' s' [= <- <- <-]. done. Qed.

Lemma keeps_bind {A B} (m : M kst A) (f : A → M kst B) :
  keeps_files m → (∀ a, keeps_files (f a)) → keeps_files (m ≫= f).
Proof.
  intros Hm Hf k s b k' s' H. apply bind_inv in H as (a & k1 & s1 & H1 & H2).
  by rewrite (Hf _ _ _ _ _ _ H2), (Hm _ _ _ _ _ H1).
Qed.

Lemma keeps_zoom {T A} (get : kst → T) (put : T → kst → kst) (m : M T A) :
  (∀ t s, k_files (put t s) = k_files s) → keeps_files (zoom get put m).
Proof.
  intros Hp k s a k' s'. unfold zoom. destruct (m k (get s)); try done.
  intros [= <- <- <-]. apply Hp.
Qed.

Lemma keeps_infs {A} (m : M fsstate A) : keeps_files (infs m).
Proof. by apply keeps_zoom. Qed.
Lemma keeps_invm {A} (m : M vst A) : keeps_files (invm m).
Proof. by apply keeps_zoom. Qed.
Lemma keeps_inpipe {A} pa (m : M pipe A) : keeps_files (inpipe pa m).
Proof. by apply keeps_zoom. Qed.
Lemma keeps_modify f : (∀ s, k_files (f s) = k_files s) → keeps_files (modify f).
Proof. intros H k s a k' s' [= <- <- <-]. apply H. Qed.

#[export] Hint Resolve keeps_ret keeps_bind keeps_infs keeps_invm keeps_inpipe keeps_modify : keeps.

Lemma close_last_keeps kend ff : keeps_files (close_last kend ff).
Proof.
  unfold close_last, pipeclose. destruct (ftype ff); [auto with keeps| |].
  - apply keeps_bind; [auto with keeps|]. intros []; auto with keeps.
  - apply keeps_bind; [auto with keeps|]. intros _. apply keeps_bind; auto with keeps.
Qed.

(** ** Counting references *)

Definition count (f : nat) (l : list nat) : nat := count_occ Nat.eq_dec l f.

(** [owners] are the references, one entry for each. *)
Definition refs_ok (s : kst) (owners : list nat) : Prop :=
  Forall (λ f, (f < length (k_files s))%nat) owners ∧
  ∀ f, (f < length (k_files s))%nat → fref (thef f s) = Z.of_nat (count f owners).

Lemma thef_updf f g s h : (f < length (k_files s))%nat →
  thef h (updf f g s) = if decide (h = f) then g (thef f s) else thef h s.
Proof.
  intros Hf. unfold thef, updf. cbn [k_files set_kfiles]. destruct (decide (h = f)) as [->|].
  - by rewrite nthz_insert_eq.
  - by rewrite nthz_insert_ne.
Qed.

Lemma length_updf f g s : length (k_files (updf f g s)) = length (k_files s).
Proof. unfold updf. cbn. by rewrite length_insert. Qed.

Lemma free_file_spec l i : match free_file l i with
  | Some f => (i ≤ f < i + length l)%nat ∧ fref (nthz file0 l (f - i)) = 0
  | None => Forall (λ x, fref x ≠ 0) l
  end.
Proof.
  revert i. induction l as [|x l IH]; intros i; simpl; [constructor|].
  destruct (Z.eqb_spec (fref x) 0) as [E|E].
  - split; [lia|]. by rewrite Nat.sub_diag.
  - specialize (IH (S i)). destruct (free_file l (S i)) as [f|].
    + destruct IH as [H1 H2]. split; [lia|]. replace (f - i)%nat with (S (f - S i)) by lia. done.
    + by constructor.
Qed.

Lemma count_cons f g l : count f (g :: l) = if decide (g = f) then S (count f l) else count f l.
Proof. unfold count. simpl. by destruct (Nat.eq_dec g f), (decide (g = f)). Qed.

Lemma count_eq f l : count f (f :: l) = S (count f l).
Proof. by rewrite count_cons, decide_True. Qed.
Lemma count_ne f g l : g ≠ f → count f (g :: l) = count f l.
Proof. intros. by rewrite count_cons, decide_False. Qed.

Lemma count_zero f l : count f l = 0%nat ↔ f ∉ l.
Proof. unfold count. rewrite <- count_occ_not_In. by rewrite list_elem_of_In. Qed.

Lemma refs_ok_files s s' ow : k_files s' = k_files s → refs_ok s ow → refs_ok s' ow.
Proof. intros H. unfold refs_ok, thef. by rewrite H. Qed.

Lemma filealloc_refs k s k' s' r ow : filealloc k s = Done r k' s' → LFtable ∉ held k →
  refs_ok s ow → match r with
  | Some f => f ∉ ow ∧ refs_ok s' (f :: ow)
  | None => s' = s ∧ ∀ f, (f < length (k_files s))%nat → f ∈ ow
  end.
Proof.
  intros H Hk [Hr Hc]. unfold filealloc in H.
  rewrite (bind_Done _ _ _ _ _ _ _ (acquire_eq LFtable k s Hk)) in H.
  rewrite (bind_Done _ _ _ _ _ _ _ (gets_eq k_files _ s)) in H.
  pose proof (free_file_spec (k_files s) 0) as Hf. destruct (free_file (k_files s) 0) as [f|].
  - destruct Hf as [Hlt Hz]. rewrite Nat.sub_0_r in Hz. simpl in Hlt.
    unfold mbind, M_bind in H. rewrite modify_eq, release_top in H. injection H as <- <- <-.
    assert (Hnot : f ∉ ow).
    { apply count_zero. specialize (Hc f ltac:(lia)). unfold thef in Hc. lia. }
    split; [done|]. split.
    + rewrite length_updf. constructor; [lia|done].
    + intros g. rewrite length_updf. intros Hg. rewrite thef_updf by lia. destruct (decide (g = f)) as [->|].
      * rewrite count_eq. cbn [fref set_fref]. apply count_zero in Hnot. lia.
      * rewrite count_ne by done. by apply Hc.
  - unfold mbind, M_bind in H. rewrite release_top in H. injection H as <- <- <-.
    split; [done|]. intros f Hf'. destruct (decide (f ∈ ow)) as [|Hn]; [done|].
    apply count_zero in Hn. specialize (Hc f Hf').
    assert (Hx : k_files s !! f = Some (thef f s)) by (by apply nthz_lookup).
    pose proof (proj1 (Forall_lookup _ _) Hf f _ Hx) as Hne. cbn beta in Hne. lia.
Qed.

Lemma filedup_refs k s k' s' r f ow : filedup f k s = Done r k' s' → LFtable ∉ held k →
  f ∈ ow → refs_ok s ow → r = f ∧ refs_ok s' (f :: ow).
Proof.
  intros H Hk Hin [Hr Hc]. unfold filedup in H.
  rewrite (bind_Done _ _ _ _ _ _ _ (acquire_eq LFtable k s Hk)) in H.
  rewrite (bind_Done _ _ _ _ _ _ _ (gets_eq (thef f) _ s)) in H.
  destruct (fref (thef f s) <? 1); [done|].
  unfold mbind, M_bind in H. rewrite modify_eq, release_top in H. injection H as <- <- <-.
  pose proof (proj1 (Forall_forall _ _) Hr f Hin) as Hlt. cbn beta in Hlt.
  split; [done|]. split.
  - rewrite length_updf. constructor; done.
  - intros g. rewrite length_updf. intros Hg. rewrite thef_updf by done. destruct (decide (g = f)) as [->|].
    + rewrite count_eq. cbn [fref set_fref]. rewrite (Hc f Hlt). lia.
    + rewrite count_ne by done. by apply Hc.
Qed.

(** One reference to [f] less. *)
Fixpoint drop_ref (f : nat) (l : list nat) : list nat :=
  match l with
  | [] => []
  | g :: l' => if decide (g = f) then l' else g :: drop_ref f l'
  end.

Lemma count_drop_ref f g l : f ∈ l →
  count g (drop_ref f l) = (if decide (g = f) then count g l - 1 else count g l)%nat.
Proof.
  induction l as [|h l IH]; intros Hin; [by apply not_elem_of_nil in Hin|]. cbn [drop_ref].
  destruct (decide (h = f)) as [->|Hne].
  - destruct (decide (g = f)) as [->|]; [rewrite count_eq; lia|by rewrite count_ne].
  - apply elem_of_cons in Hin as [->|Hin]; [done|]. destruct (decide (h = g)) as [->|].
    + rewrite !count_eq, IH by done. by rewrite !(decide_False (P := g = f)).
    + by rewrite !count_ne, IH by done.
Qed.

Lemma drop_ref_incl f l g : g ∈ drop_ref f l → g ∈ l.
Proof.
  induction l as [|h l IH]; simpl; [done|]. destruct (decide (h = f)).
  - intros H. by apply elem_of_cons; right.
  - rewrite !elem_of_cons. naive_solver.
Qed.

Lemma fileclose_refs kend k s k' s' f ow : fileclose kend f k s = Done tt k' s' → LFtable ∉ held k →
  f ∈ ow → refs_ok s ow → refs_ok s' (drop_ref f ow).
Proof.
  intros H Hk Hin [Hr Hc]. unfold fileclose in H.
  rewrite (bind_Done _ _ _ _ _ _ _ (acquire_eq LFtable k s Hk)) in H.
  rewrite (bind_Done _ _ _ _ _ _ _ (gets_eq (thef f) _ s)) in H.
  pose proof (proj1 (Forall_forall _ _) Hr f Hin) as Hlt. cbn beta in Hlt.
  destruct (Z.ltb_spec (fref (thef f s)) 1); [done|].
  set (s1 := updf f (set_fref (fref (thef f s) - 1)) s) in *.
  rewrite (bind_Done _ _ _ _ _ _ _ (modify_eq _ _ s)) in H. fold s1 in H.
  assert (Hlen : length (k_files s1) = length (k_files s)) by apply length_updf.
  assert (H1 : refs_ok s1 (drop_ref f ow)).
  { split.
    - rewrite Hlen. apply Forall_forall. intros g Hg%drop_ref_incl. by apply (proj1 (Forall_forall _ _) Hr).
    - intros g. rewrite Hlen. intros Hg. unfold s1. rewrite thef_updf, count_drop_ref by done.
      destruct (decide (g = f)) as [->|]; [|by apply Hc]. cbn [fref set_fref]. rewrite Hc by done.
      pose proof (count_zero f ow). destruct (count f ow); [tauto|lia]. }
  destruct (Z.gtb_spec (fref (thef f s) - 1) 0).
  - rewrite release_top in H. by injection H as <- <-.
  - rewrite (bind_Done _ _ _ _ _ _ _ (gets_eq (thef f) _ s1)) in H.
    rewrite (bind_Done _ _ _ _ _ _ _ (modify_eq _ _ s1)) in H.
    rewrite (bind_Done _ _ _ _ _ _ _ (modify_eq _ _ _)) in H.
    rewrite (bind_Done _ _ _ _ _ _ _ (release_top LFtable _ _ _)) in H.
    eapply refs_ok_files; [by apply (close_last_keeps _ _ _ _ _ _ _ H)|].
    destruct H1 as [Hr1 Hc1]. split.
    + by rewrite !length_updf.
    + intros g. rewrite !length_updf. intros Hg. rewrite !thef_updf by (rewrite ?length_updf; lia).
      rewrite <- Hc1 by done. destruct (decide (g = f)) as [->|]; [|done].
      rewrite decide_True by done. cbn [fref set_fref set_ftype]. unfold s1. rewrite thef_updf by done.
      rewrite decide_True by done. cbn [fref set_fref]. lia.
Qed.

(** Calls on the file table by any processes, and the references they hold. *)
Inductive fstep (kend : Z) (k : kctx) : kst * list nat → kst * list nat → Prop :=
| fstep_alloc s f k' s' ow :
    filealloc k s = Done (Some f) k' s' → fstep kend k (s, ow) (s', f :: ow)
| fstep_full s k' s' ow :
    filealloc k s = Done None k' s' → fstep kend k (s, ow) (s', ow)
| fstep_dup s f g k' s' ow :
    f ∈ ow → filedup f k s = Done g k' s' → fstep kend k (s, ow) (s', g :: ow)
| fstep_close s f k' s' ow :
    f ∈ ow → fileclose kend f k s = Done tt k' s' → fstep kend k (s, ow) (s', drop_ref f ow).

Lemma fstep_refs kend k s ow s' ow' : LFtable ∉ held k → fstep kend k (s, ow) (s', ow') →
  refs_ok s ow → refs_ok s' ow'.
Proof.
  intros Hk Hs H0. inversion Hs as [? ? ? ? ? Ha|? ? ? ? Ha|? ? ? ? ? ? Hin Ha|? ? ? ? ? Hin Ha]; subst.
  - by apply (filealloc_refs _ _ _ _ _ _ Ha Hk H0).
  - by rewrite (proj1 (filealloc_refs _ _ _ _ _ _ Ha Hk H0)).
  - by destruct (filedup_refs _ _ _ _ _ _ _ Ha Hk Hin H0) as [-> ?].
  - by eapply fileclose_refs.
Qed.

(** Reference counting of open files.  Through any sequence of filealloc, filedup
    and fileclose, each on a reference its caller holds, f->ref stays the number of
    references to f; filealloc only ever hands out an entry nobody refers to, and
    returns null only if all are referred to. *)
Theorem file_references (kend : Z) (k : kctx) (s s' : kst) (ow ow' : list nat) :
  LFtable ∉ held k → refs_ok s ow → rtc (fstep kend k) (s, ow) (s', ow') →
  refs_ok s' ow' ∧
  (∀ f k'' s'', filealloc k s' = Done (Some f) k'' s'' → f ∉ ow') ∧
  (∀ k'' s'', filealloc k s' = Done None k'' s'' → ∀ f, (f < length (k_files s'))%nat → f ∈ ow').
Proof.
  intros Hk H0 Hr. assert (H : refs_ok s' ow').
  { change (refs_ok (s', ow').1 (s', ow').2). change (refs_ok (s, ow).1 (s, ow).2) in H0.
    induction Hr as [x|[] [] z Hs _ IH]; [done|]. apply IH. by eapply fstep_refs. }
  split_and!; [done| |].
  - intros f k'' s'' Ha. apply (filealloc_refs _ _ _ _ _ _ Ha Hk H).
  - intros k'' s'' Ha. apply (filealloc_refs _ _ _ _ _ _ Ha Hk H).
Qed.

(** A kernel with three free files. *)
Definition demo_kst (files : list file) : kst :=
  Kst (Fsstate (Logstate (Bstate 1000 ∅ [] []) 970 30 0 0 ROOTDEV 0 (replicate 30 0)) []
         (Cst true false (replicate 2000 0) 0 [] (Input (replicate 128 0) 0 0 0)))
      (Vst (Kmem true 0 ∅) (Cst true false [] 0 [] (Input [] 0 0 0)) 0 0 0 0)
      ∅ files (replicate NPROC proc0) 0 1 None 0.

Lemma file_references_witness :
  let s' := demo_kst [set_fref 1 file0; set_fref 1 file0; file0] in
  refs_ok s' [1; 0]%nat ∧
  (∀ f k'' s'', filealloc (Kctx [] []) s' = Done (Some f) k'' s'' → f ∉ [1; 0]%nat) ∧
  (∀ k'' s'', filealloc (Kctx [] []) s' = Done None k'' s'' →
     ∀ f, (f < length (k_files s'))%nat → f ∈ [1; 0]%nat).
Proof.
  apply (file_references 0 (Kctx [] []) (demo_kst [file0; file0; file0]) _ [] _).
  - apply not_elem_of_nil.
  - split; [constructor|]. intros [|[|[|f]]] Hf; (done || (simpl in Hf; lia)).
  - eapply rtc_l; [by eapply fstep_alloc|]. eapply rtc_l; [by eapply fstep_alloc|].
    eapply rtc_l; [eapply (fstep_dup _ _ _ 0%nat); [apply (bool_decide_unpack _); by vm_compute|done]|].
    eapply rtc_l; [eapply (fstep_close _ _ _ 0%nat); [apply (bool_decide_unpack _); by vm_compute|done]|].
    apply rtc_refl.
Defined.

(** The size of filewrite's transactions.  One round of filewrite writes up to 13
    blocks of data, more than the 10 blocks a transaction may use (MAXOPBLOCKS), even
    without counting the inode, the indirect block and the bitmap. *)
Theorem filewrite_exceeds_transaction : filewrite_max = 13 * BSIZE ∧ MAXOPBLOCKS * BSIZE < filewrite_max.
Proof. by vm_compute. Qed.
