(* ===== verification/Proc.v ===== *)
(** * proc.c: processes

    The routines of proc.c on the kernel state, in the context of the current process
    [k_cur].  swtch() to the scheduler ends a routine with the outcome [Blocked]; for a
    process that exits or yields the channel of the outcome has no meaning.  The scheduler
    is the function that picks the next process of a pass over the table.  [forkret] and
    [trapret] are the addresses of these routines. *)

From stdpp Require Import base gmap list strings.
From Stdlib Require Import ZArith Lia.
From S2P Require Import Prelude Params Kmonad Cstring Spinlock Kalloc Console Vm VmSpec Bio Log Fs.
From S2P Require Import ConsoleDev Pipe Kstate File.

Definition SEG_UCODE : Z := 4.
Definition SEG_UDATA : Z := 5.
Definition DPL_USER : Z := 3.
Definition FL_IF : Z := 0x200.
Definition sizeof_trapframe : Z := 76.
Definition sizeof_context : Z := 20.
Definition sizeof_name : nat := 16.

(** safestrcpy into p->name. *)
Definition name_of (l : list Z) : list Z := take (sizeof_name - 1) l.

Section proc.
Context (kend kdata forkret_addr trapret_addr : Z).

Definition pinit : M kst unit := Kmonad.initlock LPtable.

(** ** Sleeping and waking *)

(** [None] is the channel 0. *)
Definition wake_on (c : option chan) (p : proc) : proc :=
  if bool_decide (p_state p = SLEEPING) && bool_decide (p_chan p = c) then set_pstate RUNNABLE p else p.

Definition wakeup1 (c : option chan) : M kst unit :=
  modify (λ s, set_kprocs (wake_on c <$> k_procs s) s).

Definition wakeup (c : chan) : M kst unit :=
  acquire LPtable;;
  wakeup1 (Some c);;
  release LPtable.

(** swtch to the scheduler, which holds ptable.lock for the next process. *)
Definition sched {A} (c : chan) : M kst A := λ k s,
  if decide (LPtable ∈ held k) then
    if decide (length (held k) = 1%nat) then
      if bool_decide (p_state (curp s) = RUNNING) then Panicked "sched running"
      else Blocked c (Kctx [] (wakeups k)) s
    else Panicked "sched locks"
  else Panicked "sched ptable.lock".

Definition sleep {A} (c : chan) (lk : lockid) : M kst A :=
  (if decide (lk = LPtable) then mret tt else acquire LPtable;; release lk);;
  upd_cur (set_chan (Some c));;
  upd_cur (set_pstate SLEEPING);;
  sched c.

(** What sleep does after sched() returns, up to taking [lk] again. *)
Definition sleep_return (lk : lockid) : M kst unit :=
  upd_cur (set_chan None);;
  if decide (lk = LPtable) then mret tt else release LPtable;; acquire lk.

Definition yield : M kst unit :=
  acquire LPtable;;
  upd_cur (set_pstate RUNNABLE);;
  c ← gets (λ s, CProc (k_cur s));
  sched c.

(** Switching to process [i]. *)
Definition dispatch (i : nat) : M kst unit :=
  modify (λ s, Kst (k_fs s) (k_vm s) (k_pipes s) (k_files s) (k_procs s) i (k_nextpid s)
                 (k_initproc s) (k_ticks s));;
  p ← gets (thep i);
  invm (switchuvm (p_kstack p) (p_pgdir p));;
  modify (updp i (set_pstate RUNNING)).

(** One round of the scheduler from entry [i] on, [n] entries left.  [run i] is what the
    process does from the switch to it until it switches back; the result lists the
    processes that got the CPU. *)
Fixpoint sched_pass (run : nat → M kst unit) (n i : nat) : M kst (list nat) :=
  match n with
  | O => mret []
  | S n' =>
    p ← gets (thep i);
    if bool_decide (p_state p = RUNNABLE) then
      dispatch i;;
      run i;;
      invm switchkvm;;
      l ← sched_pass run n' (S i);
      mret (i :: l)
    else sched_pass run n' (S i)
  end.

Definition scheduler_round (run : nat → M kst unit) : M kst (list nat) :=
  acquire LPtable;;
  l ← sched_pass run NPROC 0;
  release LPtable;;
  mret l.

(** ** Creating processes *)

Fixpoint unused_proc (l : list proc) (i : nat) : option nat :=
  match l with
  | [] => None
  | p :: l' => if bool_decide (p_state p = UNUSED) then Some i else unused_proc l' (S i)
  end.

Definition allocproc : M kst (option nat) :=
  acquire LPtable;;
  l ← gets k_procs;
  match unused_proc l 0 with
  | None => release LPtable;; mret None
  | Some i =>
    modify (updp i (set_pstate EMBRYO));;
    modify (λ s, updp i (set_pid (k_nextpid s)) s);;
    modify (λ s, set_nextpid (i32 (k_nextpid s + 1)) s);;
    release LPtable;;
    stack ← invm (inkm kalloc);
    modify (updp i (set_kstack stack));;
    if stack =? 0 then modify (updp i (set_pstate UNUSED));; mret None
    else
      let sp := stack + KSTACKSIZE - sizeof_trapframe - 4 in
      invm (vstore sp trapret_addr);;
      let sp := sp - sizeof_context in
      modify (updp i (set_context sp));;
      invm (vupd (λ m, KString.memset m sp 0 sizeof_context));;
      invm (vstore (sp + 16) forkret_addr);;
      mret (Some i)
  end.

(** "initcode"; [init] and [initsz] are _binary_initcode_start and its size. *)
Definition initcode_name : list Z := [105; 110; 105; 116; 99; 111; 100; 101].

Definition user_tf : trapframe :=
  let dseg := Z.lor (Z.shiftl SEG_UDATA 3) DPL_USER in
  Trapframe 0 0 0 0 0 0 0 0 0 dseg dseg 0 0 0 (Z.lor (Z.shiftl SEG_UCODE 3) DPL_USER) FL_IF PGSIZE dseg.

Definition userinit (init initsz : Z) : M kst unit :=
  r ← allocproc;
  modify (set_initproc r);;
  i ← defined r;
  pgdir ← invm (setupkvm kdata);
  modify (updp i (set_ppgdir pgdir));;
  if pgdir =? 0 then panic "userinit: out of memory?"
  else
    invm (inituvm pgdir init initsz);;
    modify (updp i (set_psz PGSIZE));;
    modify (updp i (set_tf user_tf));;
    modify (updp i (set_name (name_of initcode_name)));;
    d ← gets dsw;
    cwd ← infs (namei d 0 [SLASH]);
    modify (updp i (set_cwd cwd));;
    modify (updp i (set_pstate RUNNABLE)).

Definition growproc (n : Z) : M kst Z :=
  p ← gets curp;
  let sz := p_sz p in
  r ← (if n >? 0 then invm (allocuvm kend (p_pgdir p) sz (u32 (sz + n)))
       else if n <? 0 then invm (deallocuvm kend (p_pgdir p) sz (u32 (sz + n)))
       else mret (if sz =? 0 then 1 else sz));
  if negb (n =? 0) && (r =? 0) then mret (-1)
  else
    upd_cur (set_psz (if n =? 0 then sz else r));;
    invm (switchuvm (p_kstack p) (p_pgdir p));;
    mret 0.

(** for(i = 0; i < NOFILE; i++) if(proc->ofile[i]) np->ofile[i] = filedup(proc->ofile[i]); *)
Fixpoint dup_files (l : list (option nat)) (fd np : nat) : M kst unit :=
  match l with
  | [] => mret tt
  | None :: l' => dup_files l' (S fd) np
  | Some f :: l' =>
    g ← filedup f;
    modify (updp np (λ p, set_ofile (<[fd := Some g]> (p_ofile p)) p));;
    dup_files l' (S fd) np
  end.

Definition fork : M kst Z :=
  r ← allocproc;
  match (r : option nat) with
  | None => mret (-1)
  | Some np =>
    p ← gets curp;
    pgdir ← invm (copyuvm kend kdata (p_pgdir p) (p_sz p));
    modify (updp np (set_ppgdir pgdir));;
    if pgdir =? 0 then
      n ← gets (thep np);
      invm (inkm (kfree kend (p_kstack n)));;
      modify (updp np (set_kstack 0));;
      modify (updp np (set_pstate UNUSED));;
      mret (-1)
    else
      modify (updp np (set_psz (p_sz p)));;
      modify (λ s, updp np (set_parent (Some (k_cur s))) s);;
      modify (updp np (set_tf (set_eax 0 (p_tf p))));;
      dup_files (p_ofile p) 0 np;;
      cwd ← defined (p_cwd p);
      c ← infs (idup cwd);
      modify (updp np (set_cwd (Some c)));;
      modify (updp np (set_name (name_of (p_name p))));;
      n ← gets (thep np);
      acquire LPtable;;
      modify (updp np (set_pstate RUNNABLE));;
      release LPtable;;
      mret (p_pid n)
  end.

(** ** Ending processes *)

Fixpoint close_files (l : list (option nat)) (fd : nat) : M kst unit :=
  match l with
  | [] => mret tt
  | None :: l' => close_files l' (S fd)
  | Some f :: l' =>
    fileclose kend f;;
    upd_cur (λ p, set_ofile (<[fd := None]> (p_ofile p)) p);;
    close_files l' (S fd)
  end.

(** Pass abandoned children to init. *)
Definition reparent1 (i : nat) : M kst unit :=
  p ← gets (thep i);
  me ← gets k_cur;
  if bool_decide (p_parent p = Some me) then
    modify (λ s, updp i (set_parent (k_initproc s)) s);;
    p ← gets (thep i);
    if bool_decide (p_state p = ZOMBIE) then
      init ← gets k_initproc;
      wakeup1 (CProc <$> init)
    else mret tt
  else mret tt.

(** exit() from acquire(&ptable.lock) on. *)
Definition become_zombie {A} : M kst A :=
  acquire LPtable;;
  p ← gets curp;
  wakeup1 (CProc <$> p_parent p);;
  mfor 0 NPROC reparent1;;
  upd_cur (set_pstate ZOMBIE);;
  me ← gets k_cur;
  sched (CProc me).

Definition exit {A} : M kst A :=
  me ← gets k_cur;
  init ← gets k_initproc;
  if bool_decide (init = Some me) then panic "init exiting"
  else
    p ← gets curp;
    close_files (p_ofile p) 0;;
    infs (inlg begin_op);;
    cwd ← defined (p_cwd p);
    infs (iput cwd);;
    infs (inlg end_op);;
    upd_cur (set_cwd None);;
    become_zombie.

(** The scan of wait(): the first zombie child, and whether there are children. *)
Fixpoint wait_scan (l : list proc) (i me : nat) (havekids : bool) : option nat * bool :=
  match l with
  | [] => (None, havekids)
  | p :: l' =>
    if negb (bool_decide (p_parent p = Some me)) then wait_scan l' (S i) me havekids
    else if bool_decide (p_state p = ZOMBIE) then (Some i, true)
    else wait_scan l' (S i) me true
  end.

Definition wait : M kst Z :=
  acquire LPtable;;
  s ← gets (λ s, s);
  match wait_scan (k_procs s) 0 (k_cur s) false with
  | (Some i, _) =>
    p ← gets (thep i);
    invm (inkm (kfree kend (p_kstack p)));;
    modify (updp i (set_kstack 0));;
    invm (freevm kend (p_pgdir p));;
    modify (updp i (set_pstate UNUSED));;
    modify (updp i (set_pid 0));;
    modify (updp i (set_parent None));;
    modify (updp i (set_name []));;
    modify (updp i (set_killed false));;
    release LPtable;;
    mret (p_pid p)
  | (None, havekids) =>
    if negb havekids || p_killed (curp s) then release LPtable;; mret (-1)
    else sleep (CProc (k_cur s)) LPtable
  end.

Fixpoint find_pid (l : list proc) (i : nat) (pid : Z) : option nat :=
  match l with
  | [] => None
  | p :: l' => if p_pid p =? pid then Some i else find_pid l' (S i) pid
  end.

Definition kill (pid : Z) : M kst Z :=
  acquire LPtable;;
  l ← gets k_procs;
  match find_pid l 0 pid with
  | Some i =>
    modify (updp i (set_killed true));;
    p ← gets (thep i);
    (if bool_decide (p_state p = SLEEPING) then modify (updp i (set_pstate RUNNABLE)) else mret tt);;
    release LPtable;;
    mret 0
  | None => release LPtable;; mret (-1)
  end.

(** A child's first scheduling; [first] is its static variable. *)
Definition forkret (first : bool) : M kst unit :=
  release LPtable;;
  if first then infs (inlg initlog) else mret tt.

(** ** procdump *)

Definition state_text (st : procstate) : list Z :=
  match st with
  | UNUSED => [117; 110; 117; 115; 101; 100]
  | EMBRYO => [101; 109; 98; 114; 121; 111]
  | SLEEPING => [115; 108; 101; 101; 112; 32]
  | RUNNABLE => [114; 117; 110; 98; 108; 101]
  | RUNNING => [114; 117; 110; 32; 32; 32]
  | ZOMBIE => [122; 111; 109; 98; 105; 101]
  end.

(** for(i = 0; i < 10 && pc[i] != 0; i++) cprintf(" %p", pc[i]); *)
Fixpoint dump_pcs (pcs : list Z) : M cst unit :=
  match pcs with
  | [] => mret tt
  | pc :: pcs =>
    if pc =? 0 then mret tt
    else cprintf (λ _, []) (Some [32; 37; 112]) [pc];; dump_pcs pcs
  end.

(** "%d %s %s": the strings are at 1 and 2 here. *)
Definition dump_proc (m : mem) (p : proc) : M cst unit :=
  if bool_decide (p_state p = UNUSED) then mret tt
  else
    cprintf (λ a, if a =? 1 then state_text (p_state p) else p_name p)
      (Some [37; 100; 32; 37; 115; 32; 37; 115]) [p_pid p; 1; 2];;
    (if bool_decide (p_state p = SLEEPING)
     then dump_pcs (getcallerpcs m (u32 (load32 m (p_context p + 12) + 8))) else mret tt);;
    cprintf (λ _, []) (Some [10]) [].

Fixpoint dump_all (m : mem) (l : list proc) : M cst unit :=
  match l with [] => mret tt | p :: l' => dump_proc m p;; dump_all m l' end.

Definition procdump : M kst unit :=
  s ← gets (λ s, s);
  incst (dump_all (kmem_of s) (k_procs s)).
End proc.
