(* ===== verification/ProcSpec.v ===== *)
(** * Sleeping, waking and scheduling

    proc.c implements the sleep and wakeup that the rest of the kernel is written against,
    and a round of the scheduler runs every process that is ready. *)

From stdpp Require Import base gmap list strings sorting.
From Stdlib Require Import ZArith Lia.
From S2P Require Import Prelude Params Kmonad Cstring Kalloc Console Vm Bio Log Fs Pipe Kstate File.
From S2P Require Import FileSpec Proc.

(** ** The table *)

Lemma length_updp i g s : length (k_procs (updp i g s)) = length (k_procs s).
Proof. unfold updp. cbn. by rewrite length_insert. Qed.

Lemma thep_updp i g s j : (i < length (k_procs s))%nat →
  thep j (updp i g s) = if decide (j = i) then g (thep i s) else thep j s.
Proof.
  intros Hi. unfold thep, updp. cbn [k_procs set_kprocs]. destruct (decide (j = i)) as [->|].
  - by rewrite nthz_insert_eq.
  - by rewrite nthz_insert_ne.
Qed.

Lemma thep_wakeup1 c s j : (j < length (k_procs s))%nat →
  thep j (set_kprocs (wake_on c <$> k_procs s) s) = wake_on c (thep j s).
Proof.
  intros Hj. unfold thep. cbn [k_procs set_kprocs]. unfold nthz. rewrite list_lookup_fmap.
  by destruct (lookup_lt_is_Some_2 _ _ Hj) as [p ->].
Qed.

(** ** Sleep and wakeup *)

(** The current process, asleep on [c]. *)
Definition asleep (c : chan) (s : kst) : kst :=
  updp (k_cur s) (λ p, set_pstate SLEEPING (set_chan (Some c) p)) s.

Lemma updp_updp i f g s : (i < length (k_procs s))%nat →
  updp i g (updp i f s) = updp i (λ p, g (f p)) s.
Proof.
  intros Hi. unfold updp at 1 3. rewrite thep_updp by done. rewrite decide_True by done.
  unfold updp, set_kprocs. cbn. by rewrite list_insert_insert_eq.
Qed.

Lemma sched_blocks {A} c k s : (k_cur s < length (k_procs s))%nat →
  (upd_cur (set_chan (Some c));; upd_cur (set_pstate SLEEPING);; Proc.sched c) k s =
  match Kmonad.sched c k s with
  | Blocked c' k' s' => Blocked c' k' (asleep c s')
  | r => (r : outcome kst A)
  end.
Proof.
  intros Hc. unfold upd_cur, mbind, M_bind. rewrite !modify_eq. cbv beta.
  change (k_cur (updp (k_cur s) (set_chan (Some c)) s)) with (k_cur s). rewrite updp_updp by done.
  unfold Proc.sched, Kmonad.sched. destruct (decide (LPtable ∈ held k)); [|done].
  destruct (decide _); [|done]. fold (asleep c s). rewrite bool_decide_false; [done|].
  change (p_state (thep (k_cur s) (asleep c s)) ≠ RUNNING). unfold asleep.
  rewrite thep_updp by done. by rewrite decide_True.
Qed.

Lemma sleep_blocks {A} c lk k s : (k_cur s < length (k_procs s))%nat →
  Proc.sleep c lk k s =
  match Kmonad.sleep c lk k s with
  | Blocked c' k' s' => Blocked c' k' (asleep c s')
  | r => (r : outcome kst A)
  end.
Proof.
  intros Hc. unfold Proc.sleep, Kmonad.sleep.
  destruct (decide (lk = LPtable)); [by apply sched_blocks|].
  destruct ((acquire LPtable;; release lk) k s) as [[] k1 s1| | | |] eqn:E.
  1: { rewrite !(bind_Done _ _ _ _ _ _ _ E).
       assert (s1 = s) as ->; [|by apply sched_blocks]. revert E.
       unfold acquire, release, mbind, M_bind. destruct (decide _); [done|].
       destruct (decide _); [|done]. by intros [= _ ->]. }
  all: unfold mbind, M_bind in *; rewrite ?E; try done.
  revert E. unfold acquire, release. destruct (decide _); [done|]. by destruct (decide _).
Qed.

Lemma wakeup_runs c k s : LPtable ∉ held k →
  Proc.wakeup c k s = Done tt k (set_kprocs (wake_on (Some c) <$> k_procs s) s).
Proof.
  intros Hk. unfold Proc.wakeup, wakeup1, mbind, M_bind.
  rewrite acquire_eq by done. rewrite modify_eq, release_top. by destruct k.
Qed.

(** C10: Proc.c implements the sleep the components of the kernel use.  A call of
    sleep(c, lk) by a running process gives up the CPU, or panics, exactly when the sleep
    of the components does, and it leaves that process SLEEPING on [c] with every other
    process as it was.  From then on wakeup(c), and no wakeup on another channel, makes
    the process RUNNABLE: no wakeup is lost between the test of a condition and the sleep. *)
Theorem sleep_wakeup_implemented {A} c lk k s c1 c2 k2 :
  (k_cur s < length (k_procs s))%nat → LPtable ∉ held k2 →
  Proc.sleep c lk k s =
    match Kmonad.sleep c lk k s with
    | Blocked c' k' s' => Blocked c' k' (asleep c s')
    | r => (r : outcome kst A)
    end ∧
  p_state (thep (k_cur s) (asleep c s)) = SLEEPING ∧
  (∀ j, j ≠ k_cur s → thep j (asleep c s) = thep j s) ∧
  ∃ s', Proc.wakeup c2 k2 (asleep c1 s) = Done tt k2 s' ∧
    p_state (thep (k_cur s) s') = (if decide (c2 = c1) then RUNNABLE else SLEEPING).
Proof.
  intros Hc Hk. split_and!.
  - by apply sleep_blocks.
  - unfold asleep. rewrite thep_updp by done. by rewrite decide_True.
  - intros j Hj. unfold asleep. rewrite thep_updp by done. by rewrite decide_False.
  - eexists. split; [by apply wakeup_runs|].
    rewrite thep_wakeup1 by (unfold asleep; by rewrite length_updp).
    unfold asleep. rewrite thep_updp by done. rewrite decide_True by done.
    unfold wake_on. cbn [p_state p_chan set_pstate set_chan].
    rewrite bool_decide_true by done. cbn [andb]. destruct (decide (c2 = c1)) as [->|Hn].
    + by rewrite bool_decide_true.
    + rewrite bool_decide_false by congruence. done.
Qed.

(** The slot allocproc() takes. *)
Lemma unused_proc_lt l : ∀ i j, unused_proc l i = Some j → (i ≤ j < i + length l)%nat.
Proof.
  induction l as [|p l IH]; intros i j; [done|]. cbn [unused_proc length].
  destruct (bool_decide (p_state p = UNUSED)); [intros [= ->]; lia|]. intros H%IH. lia.
Qed.

(** init waiting for its child, the running process 1, whose child 2 is a zombie. *)
Definition demo_parent : proc :=
  set_chan (Some (CProc 0)) (set_ppgdir 0x80410000 (set_pid 1 (set_pstate SLEEPING proc0))).
Definition demo_running : proc :=
  set_parent (Some 0%nat) (set_ppgdir 0x80411000 (set_pid 2 (set_pstate RUNNING proc0))).
Definition demo_zombie : proc :=
  set_parent (Some 1%nat) (set_ppgdir 0x80412000 (set_pid 3 (set_pstate ZOMBIE proc0))).
Definition demo_procs : kst :=
  let s := demo_kst [] in
  Kst (k_fs s) (k_vm s) ∅ [] ([demo_parent; demo_running; demo_zombie] ++ replicate 61 proc0) 1 4 (Some 0%nat) 0.

Lemma demo_rest i : thep (3 + i) demo_procs = proc0.
Proof.
  unfold thep, nthz. change (k_procs demo_procs !! (3 + i)%nat) with (replicate 61 proc0 !! i).
  destruct (replicate 61 proc0 !! i) as [p|] eqn:E; [|done]. by apply lookup_replicate in E as [-> _].
Qed.

Lemma sleep_wakeup_implemented_witness :
  Proc.sleep CTicks LTicks (Kctx [LTicks] []) demo_procs =
    (Blocked CTicks (Kctx [] []) (asleep CTicks demo_procs) : outcome kst unit) ∧
  ∃ s', Proc.wakeup CTicks (Kctx [] []) (asleep CTicks demo_procs) = Done tt (Kctx [] []) s' ∧
    p_state (thep 1 s') = RUNNABLE.
Proof.
  destruct (sleep_wakeup_implemented (A := unit) CTicks LTicks (Kctx [LTicks] []) demo_procs CTicks CTicks
    (Kctx [] [])) as (H1 & _ & _ & H2).
  - apply (bool_decide_unpack _). by vm_compute.
  - apply not_elem_of_nil.
  - split; [exact H1|exact H2].
Defined.

(** ** The scheduler *)

Definition is_runnable (s : kst) (j : nat) : Prop := p_state (thep j s) = RUNNABLE.

(** Every process that is ready has a page table. *)
Definition ready_ok (s : kst) : Prop :=
  length (k_procs s) = NPROC ∧ ∀ j, is_runnable s j → p_pgdir (thep j s) ≠ 0.

Section round.
Context (run : nat → M kst unit).

(** A process that gets the CPU gives it back, still holding ptable.lock, without taking
    another process off the ready ones. *)
Definition gives_back : Prop := ∀ i k s, ready_ok s → p_state (thep i s) = RUNNING →
  ∃ k' s', run i k s = Done tt k' s' ∧ held k' = held k ∧ ready_ok s' ∧
    ∀ j, j ≠ i → is_runnable s j → is_runnable s' j.

Lemma dispatch_runs i k s : (i < length (k_procs s))%nat → p_pgdir (thep i s) ≠ 0 → ready_ok s →
  ∃ s', dispatch i k s = Done tt k s' ∧ ready_ok s' ∧ p_state (thep i s') = RUNNING ∧
    ∀ j, j ≠ i → thep j s' = thep j s.
Proof.
  intros Hi Hp [Hl Hr]. unfold dispatch, mbind, M_bind. rewrite modify_eq. cbv beta iota.
  rewrite gets_eq. cbv beta iota.
  unfold invm, zoom, switchuvm, mbind, M_bind. rewrite modify_eq. cbv beta iota.
  unfold thep at 1. cbn [k_procs]. change (nthz proc0 (k_procs s) i) with (thep i s).
  rewrite (proj2 (Z.eqb_neq _ _) Hp), !modify_eq.
  eexists. split; [reflexivity|].
  match goal with |- ready_ok (updp i _ ?s1) ∧ _ => set (s2 := s1) end.
  assert (E : ∀ j, thep j s2 = thep j s) by done.
  assert (Hl2 : length (k_procs s2) = NPROC) by done.
  assert (Hi2 : (i < length (k_procs s2))%nat) by lia.
  split_and!.
  - split; [by rewrite length_updp|]. intros j. unfold is_runnable. rewrite thep_updp by done.
    destruct (decide (j = i)); [done|]. rewrite E. apply Hr.
  - rewrite thep_updp by done. by rewrite decide_True.
  - intros j Hj. rewrite thep_updp by done. by rewrite decide_False.
Qed.

Lemma sched_pass_runs n : gives_back → ∀ i k s, (n + i = NPROC)%nat → ready_ok s →
  ∃ l k' s', sched_pass run n i k s = Done l k' s' ∧ held k' = held k ∧ ready_ok s' ∧
    StronglySorted lt l ∧ Forall (λ j, i ≤ j < NPROC)%nat l ∧
    ∀ j, (i ≤ j < NPROC)%nat → is_runnable s j → j ∈ l.
Proof.
  intros Hrun. induction n as [|n IH]; intros i k s Hn Hs; simpl.
  { exists [], k, s. split_and!; try done; [constructor|]. intros; lia. }
  unfold mbind at 1, M_bind at 1. rewrite gets_eq. cbv beta iota.
  destruct (bool_decide _) eqn:E.
  - apply bool_decide_eq_true in E.
    assert (Hi : (i < length (k_procs s))%nat) by (destruct Hs as [-> _]; lia).
    destruct (dispatch_runs i k s Hi (proj2 Hs i E) Hs) as (s1 & H1 & Hs1 & Hi1 & Ho1).
    mb H1. destruct (Hrun i k s1 Hs1 Hi1) as (k2 & s2 & H2 & Hk2 & Hs2 & Ho2). mb H2.
    unfold mbind at 1, M_bind at 1, invm at 1, zoom at 1, switchkvm at 1. rewrite modify_eq. cbv beta iota.
    match goal with |- context [put_vm ?v s2] => set (s3 := put_vm v s2) end.
    destruct (IH (S i) k2 s3 ltac:(lia) Hs2) as (l & k4 & s4 & H4 & Hk4 & Hs4 & Hl & Hb & Hj).
    mb H4. exists (i :: l), k4, s4. split_and!; [done|congruence|done| | |].
    + constructor; [done|]. eapply Forall_impl; [done|]. intros; simpl in *; lia.
    + constructor; [lia|]. eapply Forall_impl; [done|]. intros; simpl in *; lia.
    + intros j Hij Hr. destruct (decide (j = i)) as [->|Hne]; [left|]. right. apply Hj; [lia|].
      apply (Ho2 j Hne). unfold is_runnable. by rewrite Ho1.
  - apply bool_decide_eq_false in E.
    destruct (IH (S i) k s ltac:(lia) Hs) as (l & k4 & s4 & H4 & Hk4 & Hs4 & Hl & Hb & Hj).
    exists l, k4, s4. split_and!; try done.
    + eapply Forall_impl; [done|]. intros; simpl in *; lia.
    + intros j Hij Hr. apply Hj; [|done]. destruct (decide (j = i)) as [->|]; [done|lia].
Qed.
End round.

(** C23: The scheduler is fair.  When every process that gets the CPU eventually gives
    it back, one round of the scheduler completes and releases ptable.lock; it gives the
    CPU to each process at most once, in the order of the table, and every process that
    was RUNNABLE when the round began gets it. *)
Theorem scheduler_fair run k s : gives_back run → ready_ok s → LPtable ∉ held k →
  ∃ l k' s', scheduler_round run k s = Done l k' s' ∧ held k' = held k ∧
    StronglySorted lt l ∧ ∀ j, (j < NPROC)%nat → is_runnable s j → j ∈ l.
Proof.
  intros Hrun Hs Hk. unfold scheduler_round. mb (acquire_eq LPtable k s Hk).
  destruct (sched_pass_runs run NPROC Hrun 0 (Kctx (LPtable :: held k) (wakeups k)) s
    ltac:(lia) Hs) as (l & k1 & s1 & H1 & Hk1 & _ & Hl & _ & Hj).
  mb H1. destruct k1 as [h w]. simpl in Hk1. subst h. unfold mbind, M_bind. rewrite release_top.
  exists l, (Kctx (held k) w), s1. split_and!; [done..|]. intros j Hlt. apply Hj. lia.
Qed.

(** Processes that run a while and go to sleep. *)
Definition dozing (i : nat) : M kst unit := modify (updp i (set_pstate SLEEPING)).

Definition demo_ready : kst := updp 2 (set_pstate RUNNABLE) (updp 0 (set_pstate RUNNABLE) demo_procs).

Lemma demo_ready_ok : ready_ok demo_ready.
Proof.
  split; [done|]. intros j. destruct j as [|[|[|j]]]; [done..|].
  unfold is_runnable, demo_ready. rewrite !thep_updp by (rewrite ?length_updp; apply (bool_decide_unpack _); by vm_compute).
  rewrite !decide_False by done. change (S (S (S j))) with (3 + j)%nat. by rewrite demo_rest.
Qed.

Lemma dozing_gives_back : gives_back dozing.
Proof.
  intros i k s [Hl Hr] Hrun. assert (Hi : (i < length (k_procs s))%nat).
  { destruct (decide (i < length (k_procs s))%nat) as [|Hi]; [done|]. unfold thep in Hrun.
    by rewrite nthz_default in Hrun by lia. }
  exists k. eexists. split_and!; [done|done| |].
  - split; [by rewrite length_updp|]. intros j. unfold is_runnable. rewrite thep_updp by done.
    destruct (decide (j = i)) as [->|]; [done|apply Hr].
  - intros j Hj Hrj. unfold is_runnable. rewrite thep_updp by done. by rewrite decide_False.
Qed.

Lemma scheduler_fair_witness : ∃ l k' s',
  scheduler_round dozing (Kctx [] []) demo_ready = Done l k' s' ∧ 0%nat ∈ l ∧ 2%nat ∈ l.
Proof.
  destruct (scheduler_fair dozing (Kctx [] []) demo_ready dozing_gives_back demo_ready_ok
    (not_elem_of_nil _)) as (l & k' & s' & H & _ & _ & Hr).
  exists l, k', s'. split; [done|].
  split; (apply Hr; [apply (bool_decide_unpack _); by vm_compute|by vm_compute]).
Defined.
