(* ===== verification/ProcTable.v ===== *)
(** * The process table: pids and kill

    A small logic for what a routine keeps whether it returns or sleeps ([leads]), and with
    it: pids are unique as long as nextpid does not wrap; kill marks exactly the process
    with the pid, and what kill(0) does to a free entry. *)

From stdpp Require Import base gmap list strings relations.
From Stdlib Require Import ZArith Lia.
From S2P Require Import Prelude Params Kmonad Cstring Kalloc Console Vm Bio Log Fs Pipe Kstate File.
From S2P Require Import Proc ProcSpec.

(** ** Where a routine leads *)

(** From a state in [P] the routine returns, or gives up the CPU, in a state in [Q]. *)
Definition leads {A} (P : kst → Prop) (m : M kst A) (Q : kst → Prop) : Prop := ∀ k s, P s →
  match m k s with Done _ _ s' => Q s' | Blocked _ _ s' => Q s' | _ => True end.

Section leads.
Context (P : kst → Prop).

Lemma leads_ret {A} (a : A) : leads P (mret a) P.
Proof. by intros k s. Qed.
Lemma leads_gets {A} (f : kst → A) : leads P (gets f) P.
Proof. by intros k s. Qed.
Lemma leads_panic {A} msg : leads P (panic msg : M kst A) P.
Proof. by intros k s. Qed.
Lemma leads_diverge {A} : leads P (diverge : M kst A) P.
Proof. by intros k s. Qed.
Lemma leads_defined {A} (o : option A) : leads P (defined o) P.
Proof. by destruct o; intros k s. Qed.
Lemma leads_acquire l : leads P (acquire l) P.
Proof. intros k s H. unfold acquire. by destruct (decide _). Qed.
Lemma leads_release l : leads P (release l) P.
Proof. intros k s H. unfold release. by destruct (decide _). Qed.
Lemma leads_sched {A} c : leads P (Proc.sched c : M kst A) P.
Proof.
  intros k s H. unfold Proc.sched. destruct (decide _); [|done]. destruct (decide _); [|done].
  by destruct (bool_decide _).
Qed.
Lemma leads_modify f : (∀ s, P s → P (f s)) → leads P (modify f) P.
Proof. intros Hf k s H. by apply Hf. Qed.
Lemma leads_zoom {T A} (get : kst → T) (put : T → kst → kst) (m : M T A) :
  (∀ t s, P s → P (put t s)) → leads P (zoom get put m) P.
Proof. intros Hp k s H. unfold zoom. destruct (m k (get s)); auto. Qed.

Lemma leads_bind {A B} (m : M kst A) (f : A → M kst B) R :
  leads R m P → (∀ a, leads P (f a) P) → leads R (m ≫= f) P.
Proof.
  intros Hm Hf k s H. specialize (Hm k s H). unfold mbind, M_bind. destruct (m k s) as [a k1 s1| | | |]; try done.
  by apply Hf.
Qed.

Lemma leads_mfor start cnt body : (∀ i, leads P (body i) P) → leads P (mfor start cnt body) P.
Proof.
  intros Hb. revert start. induction cnt as [|cnt IH]; intros start; simpl; [apply leads_ret|].
  by apply leads_bind.
Qed.
End leads.

(** One step of a routine that keeps an invariant: the cases and the sequencing. *)
Ltac leads_step :=
  match goal with
  | |- leads _ (if ?b then _ else _) _ => destruct b
  | |- leads _ (match ?x with _ => _ end) _ => destruct x
  | |- leads _ (mbind _ _) _ => apply leads_bind; [|intros ?]
  | |- leads _ (mfor _ _ _) _ => apply leads_mfor; intros ?
  end.

(** ** Pids *)

Definition pid_of (s : kst) (i : nat) : Z := p_pid (thep i s).

(** Pids are below nextpid, and no two entries of the table have the same one. *)
Definition pids_ok (s : kst) : Prop :=
  0 < k_nextpid s ∧ (∀ i, 0 ≤ pid_of s i < k_nextpid s) ∧
  ∀ i j, pid_of s i = pid_of s j → pid_of s i ≠ 0 → i = j.

Lemma pid_updp i f s j : (∀ p, p_pid (f p) = p_pid p) → pid_of (updp i f s) j = pid_of s j.
Proof.
  intros Hf. unfold pid_of. destruct (decide (i < length (k_procs s))%nat) as [Hi|Hi].
  - rewrite thep_updp by done. destruct (decide (j = i)) as [->|]; [apply Hf|done].
  - unfold thep, updp. cbn. by rewrite list_insert_ge by lia.
Qed.

Lemma pids_ok_same s s' : k_nextpid s' = k_nextpid s → (∀ i, pid_of s' i = pid_of s i) →
  pids_ok s → pids_ok s'.
Proof.
  intros Hn Hp (H0 & H1 & H2). unfold pids_ok. rewrite Hn. split_and!; [done| |].
  - intros i. by rewrite Hp.
  - intros i j. rewrite !Hp. apply H2.
Qed.

Lemma pids_updp i f s : (∀ p, p_pid (f p) = p_pid p) → pids_ok s → pids_ok (updp i f s).
Proof. intros Hf. apply pids_ok_same; [done|]. intros j. by apply pid_updp. Qed.

Lemma pids_set i v s : pids_ok s → v = 0 ∨ (0 < v < k_nextpid s ∧ ∀ j, pid_of s j ≠ v) →
  pids_ok (updp i (set_pid v) s).
Proof.
  intros (H0 & H1 & H2) Hv.
  destruct (decide (i < length (k_procs s))%nat) as [Hi|Hi].
  2: { apply (pids_ok_same s); [done| |exact (conj H0 (conj H1 H2))]. intros j. unfold pid_of, thep, updp. cbn.
       by rewrite list_insert_ge by lia. }
  assert (E : ∀ j, pid_of (updp i (set_pid v) s) j = if decide (j = i) then v else pid_of s j).
  { intros j. unfold pid_of. rewrite thep_updp by done. by destruct (decide (j = i)). }
  split_and!; [done| |].
  - intros j. rewrite E. destruct (decide (j = i)); [|apply H1]. change (k_nextpid (updp _ _ _)) with (k_nextpid s). lia.
  - intros j j'. rewrite !E. destruct (decide (j = i)) as [->|], (decide (j' = i)) as [->|]; [done| | |apply H2].
    + intros Hj Hn. destruct Hv as [->|[_ Hv]]; [done|]. by destruct (Hv j').
    + intros Hj Hn. destruct Hv as [->|[_ Hv]]; [done|]. by destruct (Hv j).
Qed.

Lemma pids_wake c s : pids_ok s → pids_ok (set_kprocs (wake_on c <$> k_procs s) s).
Proof.
  apply pids_ok_same; [done|]. intros i. unfold pid_of.
  destruct (decide (i < length (k_procs s))%nat) as [Hi|Hi].
  - rewrite thep_wakeup1 by done. unfold wake_on. by destruct (_ && _).
  - unfold thep, nthz. cbn. rewrite list_lookup_fmap.
    by rewrite (lookup_ge_None_2 (k_procs s)) by lia.
Qed.

(** The leaves of the routines of proc.c and file.c. *)
Create HintDb pids.
#[export] Hint Resolve leads_ret leads_gets leads_panic leads_diverge leads_defined leads_acquire
  leads_release leads_sched : pids.
#[export] Hint Extern 1 (leads pids_ok (modify _) pids_ok) =>
  apply leads_modify; intros ? ?; first [by apply pids_updp | by apply pids_wake | assumption] : pids.
#[export] Hint Extern 1 (leads pids_ok (infs _) pids_ok) => by apply leads_zoom : pids.
#[export] Hint Extern 1 (leads pids_ok (incst _) pids_ok) => by apply leads_zoom : pids.
#[export] Hint Extern 1 (leads pids_ok (invm _) pids_ok) => by apply leads_zoom : pids.
#[export] Hint Extern 1 (leads pids_ok (inpipe _ _) pids_ok) => by apply leads_zoom : pids.
#[export] Hint Extern 1 (leads pids_ok (upd_cur _) pids_ok) =>
  apply leads_modify; intros ? ?; by apply pids_updp : pids.
Ltac pids := repeat (first [leads_step | solve [auto with pids]]).

Lemma filedup_pids f : leads pids_ok (filedup f) pids_ok.
Proof. unfold filedup. pids. Qed.
Lemma fileclose_pids kend f : leads pids_ok (fileclose kend f) pids_ok.
Proof. unfold fileclose, close_last, pipeclose. pids. Qed.
#[export] Hint Resolve filedup_pids fileclose_pids : pids.

Lemma dup_files_pids l fd np : leads pids_ok (dup_files l fd np) pids_ok.
Proof. revert fd. induction l as [|[f|] l IH]; intros fd; simpl; pids; apply IH. Qed.
Lemma close_files_pids kend l fd : leads pids_ok (close_files kend l fd) pids_ok.
Proof. revert fd. induction l as [|[f|] l IH]; intros fd; simpl; pids; apply IH. Qed.
#[export] Hint Resolve dup_files_pids close_files_pids : pids.

Lemma unused_proc_spec l i j : unused_proc l i = Some j →
  (i ≤ j < i + length l)%nat ∧ p_state (nthz proc0 l (j - i)) = UNUSED.
Proof.
  revert i. induction l as [|p l IH]; intros i; simpl; [done|].
  destruct (bool_decide _) eqn:E.
  - intros [= <-]. apply bool_decide_eq_true in E. split; [lia|]. by rewrite Nat.sub_diag.
  - intros H. apply IH in H as [Hj Hu]. split; [lia|].
    replace (j - i)%nat with (S (j - S i)) by lia. done.
Qed.

Lemma unused_proc_same l l' i : length l' = length l →
  (∀ n, p_state (nthz proc0 l' n) = p_state (nthz proc0 l n)) → unused_proc l' i = unused_proc l i.
Proof.
  revert l' i. induction l as [|p l IH]; intros [|p' l'] i Hl H; try done.
  simpl. pose proof (H 0%nat) as H0. cbn in H0. rewrite H0. destruct (bool_decide _); [done|].
  apply IH; [by injection Hl|]. intros n. apply (H (S n)).
Qed.

(** allocproc's entry [i] with a new pid. *)
Definition with_pid (i : nat) (s : kst) : kst :=
  set_nextpid (i32 (k_nextpid s + 1)) (updp i (set_pid (k_nextpid s)) s).

Lemma with_pid_ok i s : pids_ok s → k_nextpid s < 2 ^ 31 - 1 → pids_ok (with_pid i s).
Proof.
  intros (H0 & H1 & H2) Hb. unfold with_pid. rewrite i32_small by lia.
  set (s1 := set_nextpid (k_nextpid s + 1) s).
  change (pids_ok (updp i (set_pid (k_nextpid s)) s1)).
  assert (Hp : ∀ j, pid_of s1 j = pid_of s j) by done. apply pids_set.
  - split_and!; [cbn; lia| |].
    + intros j. rewrite Hp. specialize (H1 j). cbn. lia.
    + intros j j'. rewrite !Hp. apply H2.
  - right. split; [cbn; lia|]. intros j. rewrite Hp. specialize (H1 j). lia.
Qed.

(** Finish a routine of which some steps are done. *)
Ltac start_leads :=
  match goal with |- match ?m ?k ?s with _ => _ end =>
    cut (leads pids_ok m pids_ok); [intros H; apply (H k s)|] end.

(** Below the wrap-around of nextpid. *)
Definition pids_left (s : kst) : Prop := pids_ok s ∧ k_nextpid s < 2 ^ 31 - 1.

Section calls.
Context (kend kdata forkret_addr trapret_addr : Z).
Notation allocproc := (allocproc forkret_addr trapret_addr).
Notation fork := (fork kend kdata forkret_addr trapret_addr).
Notation userinit := (userinit kdata forkret_addr trapret_addr).

Lemma allocproc_pids : leads pids_left allocproc pids_ok.
Proof.
  intros k s [Hs Hb]. unfold Proc.allocproc.
  unfold mbind at 1, M_bind at 1, acquire. destruct (decide _); [done|].
  rewrite (bind_Done _ _ _ _ _ _ _ (gets_eq k_procs _ s)). cbv beta.
  destruct (unused_proc _ _) as [i|] eqn:Ei.
  2: { start_leads; [done|pids]. }
  do 3 rewrite (bind_Done _ _ _ _ _ _ _ (modify_eq _ _ _)); cbv beta.
  start_leads.
  - change (pids_ok (with_pid i (updp i (set_pstate EMBRYO) s))). apply with_pid_ok; [|done].
    by apply pids_updp.
  - pids.
Qed.

Lemma leads_weaken {A} (P P' Q : kst → Prop) (m : M kst A) :
  (∀ s, P s → P' s) → leads P' m Q → leads P m Q.
Proof. intros HP Hm k s H. by apply Hm, HP. Qed.

Lemma pids_left_ok s : pids_left s → pids_ok s.
Proof. by intros []. Qed.

(** The routines of proc.c that a process, an interrupt or the scheduler calls. *)
Inductive routine : ∀ {A}, M kst A → Prop :=
| r_userinit a n : routine (userinit a n)
| r_fork : routine fork
| r_exit A : routine (exit kend : M kst A)
| r_wait : routine (wait kend)
| r_kill pid : routine (kill pid)
| r_grow n : routine (growproc kend n)
| r_sleep A c lk : routine (Proc.sleep c lk : M kst A)
| r_sleep_return lk : routine (sleep_return lk)
| r_yield : routine yield
| r_wakeup c : routine (Proc.wakeup c)
| r_dispatch i : routine (dispatch i).

Lemma routine_pids {A} (m : M kst A) : routine m → leads pids_left m pids_ok.
Proof.
  intros H. destruct H.
  1: unfold Proc.userinit; apply leads_bind; [apply allocproc_pids|intros r; pids].
  1: unfold Proc.fork; apply leads_bind; [apply allocproc_pids|intros r; pids].
  all: apply (leads_weaken _ pids_ok); [apply pids_left_ok|].
  - unfold exit, become_zombie, reparent1, wakeup1. pids.
  - unfold wait, Proc.sleep. pids. apply leads_modify. intros s Hs. apply pids_set; auto.
  - unfold kill. pids.
  - unfold growproc. pids.
  - unfold Proc.sleep. pids.
  - unfold sleep_return. pids.
  - unfold yield. pids.
  - unfold Proc.wakeup, wakeup1. pids.
  - unfold dispatch. pids.
Qed.

(** A call that returns or gives up the CPU, before nextpid wraps around. *)
Inductive proc_step (s s' : kst) : Prop :=
| call_done {A} (m : M kst A) k a k' : routine m → k_nextpid s < 2 ^ 31 - 1 →
    m k s = Done a k' s' → proc_step s s'
| call_blocked {A} (m : M kst A) k c k' : routine m → k_nextpid s < 2 ^ 31 - 1 →
    m k s = Blocked c k' s' → proc_step s s'.

(** C34: Pids are unique.  Whatever calls of fork, exit, wait, kill, sleep, wakeup and
    the other routines of proc.c processes make and wherever they give up the CPU, no two
    entries of the process table have the same pid and all pids are below nextpid, until
    nextpid has counted to the largest int. *)
Theorem pids_unique s s' : pids_ok s → rtc proc_step s s' → pids_ok s'.
Proof.
  intros Hs. induction 1 as [|s s1 s' Hstep _ IH]; [done|]. apply IH.
  destruct Hstep as [A m k a k' Hm Hb H|A m k c k' Hm Hb H];
    pose proof (routine_pids m Hm k s (conj Hs Hb)) as Hp; by rewrite H in Hp.
Qed.
End calls.

Lemma demo_pids : pids_ok demo_procs.
Proof.
  assert (H : ∀ i, pid_of demo_procs (3 + i) = 0) by (intros i; unfold pid_of; by rewrite demo_rest).
  split_and!; [done| |].
  - intros [|[|[|i]]]; [done..|]. change (S (S (S i))) with (3 + i)%nat. by rewrite H.
  - intros [|[|[|i]]] [|[|[|j]]]; try done.
    all: try (change (S (S (S i))) with (3 + i)%nat; rewrite H; done).
    all: change (S (S (S j))) with (3 + j)%nat; by rewrite H.
Qed.

Lemma pids_unique_witness : pids_ok (updp 0 (set_pstate RUNNABLE) demo_procs).
Proof.
  apply (pids_unique 0 0 0 0 demo_procs _ demo_pids). apply rtc_once.
  eapply (call_done 0 0 0 0 _ _ (Proc.wakeup (CProc 0)) (Kctx [] [])); [constructor|done|].
  by vm_compute.
Defined.

(** ** kill *)

Lemma find_pid_spec l i pid : match find_pid l i pid with
  | Some j => (i ≤ j < i + length l)%nat ∧ p_pid (nthz proc0 l (j - i)) = pid
  | None => Forall (λ p, p_pid p ≠ pid) l
  end.
Proof.
  revert i. induction l as [|p l IH]; intros i; simpl; [constructor|].
  destruct (Z.eqb_spec (p_pid p) pid) as [E|E].
  - split; [lia|]. by rewrite Nat.sub_diag.
  - specialize (IH (S i)). destruct (find_pid l (S i) pid) as [j|].
    + destruct IH as [H1 H2]. split; [lia|]. replace (j - i)%nat with (S (j - S i)) by lia. done.
    + by constructor.
Qed.

(** A process that is killed, and out of its sleep. *)
Definition killed_proc (p : proc) : proc :=
  let q := set_killed true p in
  if bool_decide (p_state p = SLEEPING) then set_pstate RUNNABLE q else q.

Lemma kill_runs pid k s : LPtable ∉ held k →
  kill pid k s = match find_pid (k_procs s) 0 pid with
    | Some i => Done 0 k (updp i killed_proc s)
    | None => Done (-1) k s
    end.
Proof.
  intros Hk. unfold kill. mb (acquire_eq LPtable k s Hk). mb (gets_eq k_procs (Kctx (LPtable :: held k) (wakeups k)) s).
  pose proof (find_pid_spec (k_procs s) 0 pid) as Hf. destruct (find_pid _ _ _) as [i|].
  2: { unfold mbind, M_bind. rewrite release_top. by destruct k. }
  destruct Hf as [Hi _]. simpl in Hi. unfold mbind, M_bind. rewrite modify_eq, gets_eq. cbv beta iota.
  assert (Hst : p_state (thep i (updp i (set_killed true) s)) = p_state (thep i s))
    by (rewrite thep_updp by lia; by rewrite decide_True).
  assert (E : (if bool_decide (p_state (thep i (updp i (set_killed true) s)) = SLEEPING)
               then modify (updp i (set_pstate RUNNABLE)) else mret tt)
      (Kctx (LPtable :: held k) (wakeups k)) (updp i (set_killed true) s) =
    Done tt (Kctx (LPtable :: held k) (wakeups k)) (updp i killed_proc s)).
  { rewrite Hst. destruct (bool_decide _) eqn:B; [rewrite modify_eq, (updp_updp _ _ _ _ (proj2 Hi))|];
      unfold updp, killed_proc; by rewrite B. }
  rewrite E, release_top. by destruct k.
Qed.

(** Kill.  When a process of the table has the pid, kill(pid) returns 0 and marks
    exactly that process killed, taking it out of its sleep; every other process is as it
    was.  When none has it, kill returns -1 and changes nothing. *)
Theorem kill_exact pid k s : pids_ok s → pid ≠ 0 → LPtable ∉ held k →
  (∀ i, pid_of s i = pid →
     ∃ s', kill pid k s = Done 0 k s' ∧
       p_killed (thep i s') = true ∧ p_pid (thep i s') = pid ∧
       p_state (thep i s') = (if decide (p_state (thep i s) = SLEEPING) then RUNNABLE else p_state (thep i s)) ∧
       ∀ j, j ≠ i → thep j s' = thep j s) ∧
  ((∀ i, pid_of s i ≠ pid) → kill pid k s = Done (-1) k s).
Proof.
  intros (_ & _ & Hu) Hn Hk. rewrite (kill_runs pid k s Hk).
  pose proof (find_pid_spec (k_procs s) 0 pid) as Hf. destruct (find_pid _ _ _) as [j|].
  - destruct Hf as [Hj Hp]. rewrite Nat.sub_0_r in Hp. simpl in Hj.
    change (pid_of s j = pid) in Hp. split.
    + intros i Hi. assert (i = j) as -> by (apply Hu; congruence).
      eexists. split; [done|]. rewrite thep_updp by lia. rewrite decide_True by done.
      unfold killed_proc. split_and!.
      * by destruct (bool_decide _).
      * by destruct (bool_decide _).
      * destruct (decide _) as [Hs|Hs]; [by rewrite bool_decide_true|by rewrite bool_decide_false].
      * intros j' Hj'. rewrite thep_updp by lia. by rewrite decide_False.
    + intros H. by destruct (H j).
  - split; [|done]. intros i Hi. exfalso. destruct (decide (i < length (k_procs s))%nat) as [Hlt|Hge].
    + pose proof (proj1 (Forall_lookup _ _) Hf i _ (nthz_lookup proc0 _ _ Hlt)) as Hx.
      by apply Hx.
    + apply Hn. rewrite <- Hi. unfold pid_of, thep, nthz. by rewrite lookup_ge_None_2 by lia.
Qed.

Lemma kill_exact_witness :
  (∃ s', kill 1 (Kctx [] []) demo_procs = Done 0 (Kctx [] []) s' ∧
     p_killed (thep 0 s') = true ∧ p_pid (thep 0 s') = 1 ∧ p_state (thep 0 s') = RUNNABLE ∧
     ∀ j, j ≠ 0%nat → thep j s' = thep j demo_procs) ∧
  kill 9 (Kctx [] []) demo_procs = Done (-1) (Kctx [] []) demo_procs.
Proof.
  split.
  - apply (kill_exact 1 (Kctx [] []) demo_procs demo_pids); [done|apply not_elem_of_nil|done].
  - apply (kill_exact 9 (Kctx [] []) demo_procs demo_pids); [done|apply not_elem_of_nil|].
    intros [|[|[|i]]]; [done..|]. change (S (S (S i))) with (3 + i)%nat. unfold pid_of. by rewrite demo_rest.
Defined.

(** ** kill(0) *)

Section born_killed.
Context (forkret_addr trapret_addr : Z).
Notation allocproc := (allocproc forkret_addr trapret_addr).

(** Entry [i] of the table is marked killed. *)
Definition is_killed (i : nat) (s : kst) : Prop :=
  (i < length (k_procs s))%nat ∧ p_killed (thep i s) = true.

Lemma killed_updp i j f s : (∀ p, p_killed (f p) = p_killed p) → is_killed i s → is_killed i (updp j f s).
Proof.
  intros Hf [Hi Hk]. split; [by rewrite length_updp|].
  destruct (decide (j < length (k_procs s))%nat) as [Hj|Hj].
  - rewrite thep_updp by done. destruct (decide (i = j)) as [->|]; [by rewrite Hf|done].
  - unfold thep, updp. cbn. by rewrite list_insert_ge by lia.
Qed.

Lemma allocproc_killed i : leads (is_killed i) allocproc (is_killed i).
Proof.
  unfold Proc.allocproc. repeat leads_step;
    solve [auto with pids | apply leads_modify; intros ? ?; by (apply killed_updp || assumption)
          | by apply leads_zoom].
Qed.

Lemma allocproc_slot k s j k' s' : allocproc k s = Done (Some j) k' s' →
  unused_proc (k_procs s) 0 = Some j.
Proof.
  unfold Proc.allocproc. intros (u & k1 & s1 & H1 & H)%bind_inv.
  assert (s1 = s) as ->. { unfold acquire in H1. destruct (decide _); [done|]. by injection H1. }
  rewrite (bind_Done _ _ _ _ _ _ _ (gets_eq k_procs _ s)) in H. cbv beta in H.
  destruct (unused_proc (k_procs s) 0) as [i|].
  - repeat (let r := fresh in let k := fresh "k" in let s := fresh "s" in let E := fresh in
      apply bind_inv in H as (r & k & s & E & H)). destruct (_ =? 0).
    + apply bind_inv in H as (? & ? & ? & ? & H). done.
    + do 4 (apply bind_inv in H as (? & ? & ? & ? & H)). by injection H as <-.
  - apply bind_inv in H as (? & ? & ? & ? & H). done.
Qed.

(** Kill(0) kills a process that does not exist yet.  The free entries of the
    process table have pid 0, so kill(0) finds the first of them, marks it killed and
    reports success; the next process that is created takes that entry and is born killed,
    since allocproc does not clear the mark. *)
Theorem kill_zero_dooms k s i : LPtable ∉ held k → (i < length (k_procs s))%nat →
  unused_proc (k_procs s) 0 = Some i → find_pid (k_procs s) 0 0 = Some i →
  ∃ s1, kill 0 k s = Done 0 k s1 ∧
    ∀ k1 j k' s', allocproc k1 s1 = Done (Some j) k' s' → j = i ∧ p_killed (thep j s') = true.
Proof.
  intros Hk Hi Hu Hf. exists (updp i killed_proc s). split; [by rewrite kill_runs, Hf|].
  intros k1 j k' s' H. pose proof (unused_proc_spec _ _ _ Hu) as [_ Hst]. rewrite Nat.sub_0_r in Hst.
  assert (Hj : j = i).
  { apply allocproc_slot in H. rewrite (unused_proc_same (k_procs s)) in H; [congruence|apply length_updp|].
    unfold updp. cbn. intros n. destruct (decide (n = i)) as [->|Hn].
    - rewrite nthz_insert_eq by done. unfold killed_proc, thep. by rewrite Hst.
    - by rewrite nthz_insert_ne. }
  split; [done|]. subst j.
  assert (K : is_killed i (updp i killed_proc s)).
  { split; [by rewrite length_updp|]. rewrite thep_updp by done. rewrite decide_True by done.
    unfold killed_proc. by destruct (bool_decide _). }
  pose proof (allocproc_killed i k1 _ K) as Hl. rewrite H in Hl. apply Hl.
Qed.
End born_killed.

Lemma kill_zero_dooms_witness : ∃ s1, kill 0 (Kctx [] []) demo_procs = Done 0 (Kctx [] []) s1 ∧
  ∀ k1 j k' s', allocproc 0 0 k1 s1 = Done (Some j) k' s' → j = 3%nat ∧ p_killed (thep j s') = true.
Proof.
  apply (kill_zero_dooms 0 0 (Kctx [] []) demo_procs 3).
  - apply not_elem_of_nil.
  - apply (bool_decide_unpack _). by vm_compute.
  - by vm_compute.
  - by vm_compute.
Defined.
