(* ===== verification/ProcExit.v ===== *)
(** * Exit and wait

    A process that exits becomes a zombie its parent finds: the parent is not left asleep
    in wait(), and abandoned children go to init. *)

From stdpp Require Import base gmap list strings.
From Stdlib Require Import ZArith Lia.
From S2P Require Import Prelude Params Kmonad Cstring Kalloc Console Vm Bio Log Fs Pipe Kstate File.
From S2P Require Import Proc ProcSpec ProcTable.

(** ** States that differ by wakeups *)

Definition woken (p p' : proc) : Prop :=
  p_chan p' = p_chan p ∧ p_pid p' = p_pid p ∧
  (p_state p' = p_state p ∨ (p_state p = SLEEPING ∧ p_state p' = RUNNABLE)).

Definition wakes (s s' : kst) : Prop :=
  length (k_procs s') = length (k_procs s) ∧ k_cur s' = k_cur s ∧ k_initproc s' = k_initproc s ∧
  ∀ j, woken (thep j s) (thep j s').

Lemma wakes_refl s : wakes s s.
Proof. repeat split; auto. Qed.

Lemma wakes_trans s1 s2 s3 : wakes s1 s2 → wakes s2 s3 → wakes s1 s3.
Proof.
  intros (L1 & C1 & I1 & H1) (L2 & C2 & I2 & H2). split_and!; [congruence..|].
  intros j. destruct (H1 j) as (A1 & B1 & D1), (H2 j) as (A2 & B2 & D2).
  split_and!; [congruence..|].
  destruct D1 as [D1|[D1 E1]], D2 as [D2|[D2 E2]]; [left|right|right|right]; try split; congruence.
Qed.

Lemma wakes_wakeup1 c s : wakes s (set_kprocs (wake_on c <$> k_procs s) s).
Proof.
  split_and!; [cbn; by rewrite length_fmap|done..|]. intros j.
  destruct (decide (j < length (k_procs s))%nat) as [Hj|Hj].
  - rewrite thep_wakeup1 by done. unfold wake_on. destruct (_ && _) eqn:E; [|repeat split; auto].
    apply andb_true_iff in E as [E%bool_decide_eq_true _]. repeat split; auto.
  - unfold thep, nthz. cbn. rewrite list_lookup_fmap, !lookup_ge_None_2 by lia. repeat split; auto.
Qed.

Lemma wakes_parent i v s : (i < length (k_procs s))%nat → wakes s (updp i (set_parent v) s).
Proof.
  intros Hi. split_and!; [apply length_updp|done..|]. intros j. rewrite thep_updp by done.
  destruct (decide (j = i)) as [->|]; repeat split; auto.
Qed.

(** Process [i] sleeps in wait(). *)
Definition waiting (s : kst) (i : nat) : Prop :=
  p_state (thep i s) = SLEEPING ∧ p_chan (thep i s) = Some (CProc i).

Lemma waiting_wakes s s' i : wakes s s' → waiting s' i → waiting s i.
Proof.
  intros (_ & _ & _ & H) [Hs Hc]. destruct (H i) as (E & _ & [E'|[E' E'']]); split; congruence.
Qed.

Lemma wakeup1_not_waiting i s : (i < length (k_procs s))%nat →
  ¬ waiting (set_kprocs (wake_on (Some (CProc i)) <$> k_procs s) s) i.
Proof.
  intros Hi [Hs Hc]. rewrite thep_wakeup1 in Hs, Hc by done. unfold wake_on in Hs, Hc.
  destruct (_ && _) eqn:E; [done|]. apply andb_false_iff in E as [E|E];
    apply bool_decide_eq_false in E; congruence.
Qed.

(** ** Passing children to init *)

(** The parent of a process after the children of [me] went to [init]. *)
Definition adopted (me : nat) (init parent : option nat) : option nat :=
  if decide (parent = Some me) then init else parent.

Lemma reparent1_run i k s : (i < length (k_procs s))%nat → ∃ s',
  reparent1 i k s = Done tt k s' ∧ wakes s s' ∧
  (∀ j, p_parent (thep j s') =
     if decide (j = i) then adopted (k_cur s) (k_initproc s) (p_parent (thep j s)) else p_parent (thep j s)) ∧
  (p_parent (thep i s) = Some (k_cur s) → p_state (thep i s) = ZOMBIE →
   ∀ q, k_initproc s = Some q → (q < length (k_procs s))%nat → ¬ waiting s' q).
Proof.
  intros Hi. unfold reparent1, mbind, M_bind. rewrite !gets_eq. cbv beta iota. unfold adopted.
  destruct (decide (p_parent (thep i s) = Some (k_cur s))) as [Hp|Hp].
  2: { rewrite bool_decide_false by done. exists s. split_and!; [done|apply wakes_refl| |done].
       intros j. destruct (decide (j = i)) as [->|]; [by rewrite decide_False|done]. }
  rewrite bool_decide_true by done. rewrite modify_eq, gets_eq. cbv beta iota.
  set (s1 := updp i _ s). assert (W1 : wakes s s1) by by apply wakes_parent.
  assert (E1 : ∀ j, thep j s1 = if decide (j = i) then set_parent (k_initproc s) (thep i s) else thep j s)
    by (intros j; unfold s1; by rewrite thep_updp).
  assert (P1 : ∀ j, p_parent (thep j s1) = if decide (j = i) then
      if decide (p_parent (thep j s) = Some (k_cur s)) then k_initproc s else p_parent (thep j s)
      else p_parent (thep j s)).
  { intros j. rewrite E1. destruct (decide (j = i)) as [->|]; [|done]. by rewrite decide_True. }
  assert (S1 : p_state (thep i s1) = p_state (thep i s)) by (rewrite E1; by rewrite decide_True).
  rewrite S1. destruct (decide (p_state (thep i s) = ZOMBIE)) as [Hz|Hz].
  2: { rewrite bool_decide_false by done. exists s1. by split_and!. }
  rewrite bool_decide_true by done. rewrite gets_eq. cbv beta iota. unfold wakeup1. rewrite modify_eq.
  eexists. split_and!; [done|by eapply wakes_trans, wakes_wakeup1| |].
  - intros j. rewrite <- P1. unfold thep, nthz. cbn [k_procs set_kprocs]. rewrite list_lookup_fmap.
    destruct (k_procs s1 !! j) as [p|]; [|done]. simpl. unfold wake_on. by destruct (_ && _).
  - intros _ _ q Hq Hlt. change (k_initproc s1) with (k_initproc s). rewrite Hq.
    apply wakeup1_not_waiting. by rewrite (proj1 W1).
Qed.

Lemma reparent_loop cnt start k s : (start + cnt ≤ length (k_procs s))%nat → ∃ s',
  mfor start cnt reparent1 k s = Done tt k s' ∧ wakes s s' ∧
  (∀ j, p_parent (thep j s') = if decide (start ≤ j < start + cnt)%nat
     then adopted (k_cur s) (k_initproc s) (p_parent (thep j s)) else p_parent (thep j s)) ∧
  (∀ j q, (start ≤ j < start + cnt)%nat → p_parent (thep j s) = Some (k_cur s) →
   p_state (thep j s) = ZOMBIE → k_initproc s = Some q → (q < length (k_procs s))%nat → ¬ waiting s' q).
Proof.
  revert start s. induction cnt as [|cnt IH]; intros start s Hl; simpl.
  { exists s. split_and!; [done|apply wakes_refl| |lia]. intros j. by rewrite decide_False by lia. }
  destruct (reparent1_run start k s ltac:(lia)) as (s1 & H1 & W1 & P1 & Z1). mb H1.
  pose proof W1 as (L1 & C1 & I1 & J1).
  destruct (IH (S start) s1 ltac:(lia)) as (s2 & H2 & W2 & P2 & Z2).
  exists s2. split_and!; [done|by eapply wakes_trans| |].
  - intros j. rewrite P2, C1, I1, P1. destruct (decide (j = start)) as [->|Hn].
    + rewrite decide_False by lia. by rewrite decide_True by lia.
    + destruct (decide (S start ≤ j < _)%nat); [by rewrite decide_True by lia|by rewrite decide_False by lia].
  - intros j q Hj Hp Hz Hq Hlt. destruct (decide (j = start)) as [->|Hn].
    + intros Hw. eapply Z1; eauto. by eapply waiting_wakes.
    + apply (Z2 j q); [lia| | |congruence|lia].
      * rewrite P1, decide_False by done. congruence.
      * destruct (J1 j) as (_ & _ & [E|[E _]]); congruence.
Qed.

(** ** The scan of wait *)

Definition zombie_child (s : kst) (me j : nat) : Prop :=
  (j < length (k_procs s))%nat ∧ p_parent (thep j s) = Some me ∧ p_state (thep j s) = ZOMBIE.
Definition has_child (s : kst) (me : nat) : Prop :=
  ∃ j, (j < length (k_procs s))%nat ∧ p_parent (thep j s) = Some me.

(** Among the processes [l], the first zombie child; or no zombie child, and whether a child. *)
Lemma wait_scan_list l i me b : match wait_scan l i me b with
  | (Some z, _) => (i ≤ z < i + length l)%nat ∧
      p_parent (nthz proc0 l (z - i)) = Some me ∧ p_state (nthz proc0 l (z - i)) = ZOMBIE
  | (None, b') => (∀ j, (j < length l)%nat → p_parent (nthz proc0 l j) = Some me →
        p_state (nthz proc0 l j) ≠ ZOMBIE) ∧
      (b' = true ↔ b = true ∨ ∃ j, (j < length l)%nat ∧ p_parent (nthz proc0 l j) = Some me)
  end.
Proof.
  revert i b. induction l as [|p l IH]; intros i b; simpl.
  { split; [intros; lia|]. split; [by left|]. intros [H|(j & Hj & _)]; [done|lia]. }
  destruct (bool_decide (p_parent p = Some me)) eqn:Hp; cbn [negb].
  - apply bool_decide_eq_true in Hp. destruct (bool_decide (p_state p = ZOMBIE)) eqn:Hz.
    { apply bool_decide_eq_true in Hz. rewrite Nat.sub_diag. split; [lia|done]. }
    apply bool_decide_eq_false in Hz. specialize (IH (S i) true).
    destruct (wait_scan l (S i) me true) as [[z|] b'].
    + replace (z - i)%nat with (S (z - S i)) by lia. destruct IH as (? & ? & ?). split_and!; [lia|lia|done..].
    + destruct IH as [H1 H2]. split.
      * intros [|j] Hj; [done|]. apply (H1 j). lia.
      * rewrite H2. split; [intros _|by left]. right. exists 0%nat. split; [lia|done].
  - apply bool_decide_eq_false in Hp. specialize (IH (S i) b).
    destruct (wait_scan l (S i) me b) as [[z|] b'].
    + replace (z - i)%nat with (S (z - S i)) by lia. destruct IH as (? & ? & ?). split_and!; [lia|lia|done..].
    + destruct IH as [H1 H2]. split.
      * intros [|j] Hj; [done|]. apply (H1 j). lia.
      * rewrite H2. split; (intros [H|(j & Hj & H)]; [by left|right]).
        -- exists (S j). split; [lia|done].
        -- destruct j as [|j]; [done|]. exists j. split; [lia|done].
Qed.

Lemma wait_scan_true l i me b z b' : wait_scan l i me b = (Some z, b') → b' = true.
Proof.
  revert i b. induction l as [|p l IH]; intros i b; simpl; [done|].
  destruct (negb _); [apply IH|]. destruct (bool_decide _); [by intros [= _ <-]|apply IH].
Qed.

Lemma wait_scan_spec s : match wait_scan (k_procs s) 0 (k_cur s) false with
  | (Some z, _) => zombie_child s (k_cur s) z
  | (None, b) => (∀ j, ¬ zombie_child s (k_cur s) j) ∧ (b = true ↔ has_child s (k_cur s))
  end.
Proof.
  pose proof (wait_scan_list (k_procs s) 0 (k_cur s) false) as H.
  destruct (wait_scan _ _ _ _) as [[z|] b].
  - rewrite Nat.sub_0_r in H. destruct H as (H & Hp & Hz). by split_and!; [lia|..].
  - destruct H as [H1 H2]. split; [intros j (Hj & Hp & Hz); by apply (H1 j)|].
    rewrite H2. unfold has_child, thep. split; [intros [|H]; done|by right].
Qed.

(** exit() after its files are closed, up to the switch to the scheduler. *)
Lemma become_zombie_run {A} k s : let me := k_cur s in
  held k = [] → length (k_procs s) = NPROC → (me < NPROC)%nat → ∃ s2,
  (become_zombie k s : outcome kst A) =
    Blocked (CProc me) (Kctx [] (wakeups k)) (updp me (set_pstate ZOMBIE) s2) ∧
  wakes s s2 ∧
  (∀ j, p_parent (thep j s2) = if decide (0 ≤ j < 0 + NPROC)%nat
     then adopted me (k_initproc s) (p_parent (thep j s)) else p_parent (thep j s)) ∧
  (∀ q, p_parent (thep me s) = Some q → (q < NPROC)%nat → ¬ waiting s2 q) ∧
  (∀ j q, zombie_child s me j → k_initproc s = Some q → (q < NPROC)%nat → ¬ waiting s2 q).
Proof.
  intros me Hk Hl Hme. unfold become_zombie.
  mb (acquire_eq LPtable k s ltac:(rewrite Hk; apply not_elem_of_nil)).
  rewrite Hk. set (k1 := Kctx [LPtable] (wakeups k)). mb (gets_eq curp k1 s).
  unfold wakeup1. rewrite (bind_Done _ _ _ _ _ _ _ (modify_eq _ k1 s)). cbv beta.
  set (s1 := set_kprocs (_ <$> k_procs s) s).
  pose proof (wakes_wakeup1 (CProc <$> p_parent (curp s)) s : wakes s s1) as W1.
  destruct (reparent_loop NPROC 0 k1 s1 ltac:(rewrite (proj1 W1), Hl; lia)) as (s2 & H2 & W2 & P2 & Z2).
  mb H2. pose proof (wakes_trans _ _ _ W1 W2) as W. destruct (W) as (L & C & _ & _).
  assert (P1 : ∀ j, p_parent (thep j s1) = p_parent (thep j s)).
  { intros j. unfold s1, thep, nthz. cbn [k_procs set_kprocs]. rewrite list_lookup_fmap.
    destruct (k_procs s !! j) as [p|]; [|done]. simpl. unfold wake_on. by destruct (_ && _). }
  unfold upd_cur. rewrite (bind_Done _ _ _ _ _ _ _ (modify_eq _ k1 s2)). cbv beta. rewrite C. fold me.
  set (s3 := updp me _ s2). mb (gets_eq k_cur k1 s3). change (k_cur s3) with (k_cur s2). rewrite C.
  exists s2. split_and!.
  - unfold Proc.sched, k1. simpl held. rewrite decide_True by apply list_elem_of_here.
    rewrite decide_True by done. rewrite bool_decide_false; [done|].
    unfold curp. change (k_cur s3) with (k_cur s2). rewrite C. unfold s3.
    rewrite thep_updp by lia. by rewrite decide_True.
  - done.
  - intros j. by rewrite P2, P1.
  - intros q Hq Hlt Hw%(waiting_wakes _ _ _ W2). unfold s1, curp in Hw. fold me in Hw.
    rewrite Hq in Hw. revert Hw. apply wakeup1_not_waiting. lia.
  - intros j q (Hj & Hp & Hz) Hq Hlt. apply (Z2 j q); [lia|by rewrite P1| |done|by rewrite (proj1 W1), Hl].
    destruct W1 as (_ & _ & _ & W1). destruct (W1 j) as (_ & _ & [E|[E _]]); congruence.
Qed.

(** C21: Exit hands over to wait.  When the running process [me] exits it becomes a
    zombie and gives up the CPU for good, holding no lock.  Its children become children
    of init, all other parents stay; nobody's state changes but by a wakeup.  Its parent
    is not left asleep in wait(), and finds a zombie child when it looks; and init is not
    left asleep in wait() when it inherits a zombie. *)
Theorem exit_hands_over {A} k s : let me := k_cur s in
  held k = [] → (me < length (k_procs s))%nat → length (k_procs s) = NPROC →
  p_state (thep me s) = RUNNING → p_parent (thep me s) ≠ Some me → ∃ s',
  (become_zombie k s : outcome kst A) = Blocked (CProc me) (Kctx [] (wakeups k)) s' ∧
  p_state (thep me s') = ZOMBIE ∧ p_parent (thep me s') = p_parent (thep me s) ∧
  (∀ j, j ≠ me → p_parent (thep j s') = adopted me (k_initproc s) (p_parent (thep j s)) ∧
     woken (thep j s) (thep j s')) ∧
  (∀ q, p_parent (thep me s) = Some q → (q < NPROC)%nat →
     ¬ waiting s' q ∧ ∃ z, zombie_child s' q z) ∧
  (∀ j q, zombie_child s me j → k_initproc s = Some q → (q < NPROC)%nat → ¬ waiting s' q).
Proof.
  intros me Hk Hme Hl Hrun Hpar.
  destruct (become_zombie_run (A := A) k s Hk Hl ltac:(lia)) as (s2 & H & (L & C & I & J) & P & Q & Z).
  fold me in H, P, Q, Z. set (s3 := updp me _ s2) in H.
  assert (E3 : ∀ j, thep j s3 = if decide (j = me) then set_pstate ZOMBIE (thep me s2) else thep j s2)
    by (intros j; unfold s3; rewrite thep_updp by lia; done).
  assert (Pme : p_parent (thep me s3) = p_parent (thep me s)).
  { rewrite E3, decide_True by done. cbn [p_parent set_pstate]. rewrite P, decide_True by lia.
    unfold adopted. by rewrite decide_False. }
  assert (Zme : p_state (thep me s3) = ZOMBIE) by (rewrite E3; by rewrite decide_True).
  assert (NW : ∀ q, waiting s3 q → waiting s2 q).
  { intros q [A1 A2]. rewrite E3 in A1, A2. by destruct (decide (q = me)). }
  exists s3. split_and!; [done..| | |].
  - intros j Hj. rewrite E3, decide_False by done. split; [|apply J]. rewrite P.
    destruct (decide _) as [|Hn]; [done|]. unfold thep, nthz. by rewrite lookup_ge_None_2 by lia.
  - intros q Hq Hlt. split; [intros Hw%NW; by apply (Q q)|].
    exists me. split_and!; [unfold s3; rewrite length_updp; lia|congruence|done].
  - intros j q Hj Hq Hlt Hw%NW. by apply (Z j q).
Qed.

(** ** wait *)

(** What wait() leaves of a child. *)
Definition reaped (p : proc) : proc :=
  set_killed false (set_name [] (set_parent None (set_pid 0 (set_pstate UNUSED (set_kstack 0 p))))).

Lemma invm_procs {A} (m : M vst A) k s : match invm m k s with
  | Done _ _ s' => k_procs s' = k_procs s
  | Blocked _ _ s' => k_procs s' = k_procs s
  | _ => True
  end.
Proof. unfold invm, zoom. by destruct (m k (get_vm s)). Qed.

Section wait.
Context (kend : Z).

(** The memory of process [z] is given back: the kernel stack and the page table. *)
Definition frees_memory (z : nat) (k : kctx) (s : kst) (k' : kctx) (s' : kst) : Prop := ∃ k1 s1,
  invm (inkm (kfree kend (p_kstack (thep z s)))) k s = Done tt k1 s1 ∧
  invm (freevm kend (p_pgdir (thep z s))) k1 (updp z (set_kstack 0) s1) = Done tt k' s' ∧
  held k' = held k.

Lemma reap_run z k s k1 s1 : (z < length (k_procs s))%nat →
  frees_memory z (Kctx (LPtable :: held k) (wakeups k)) s k1 s1 →
  wait_scan (k_procs s) 0 (k_cur s) false = (Some z, true) → LPtable ∉ held k →
  ∃ s', wait kend k s = Done (p_pid (thep z s)) (Kctx (held k) (wakeups k1)) s' ∧
    thep z s' = reaped (thep z s) ∧ (∀ j, j ≠ z → thep j s' = thep j s) ∧ length (k_procs s') = length (k_procs s).
Proof.
  intros Hz (k2 & s2 & H1 & H2 & Hh) Hsc Hk. unfold wait.
  mb (acquire_eq LPtable k s Hk). mb (gets_eq (λ s, s) (Kctx (LPtable :: held k) (wakeups k)) s).
  rewrite Hsc. mb (gets_eq (thep z) (Kctx (LPtable :: held k) (wakeups k)) s). mb H1.
  rewrite (bind_Done _ _ _ _ _ _ _ (modify_eq _ k2 s2)). cbv beta. mb H2.
  do 5 (rewrite (bind_Done _ _ _ _ _ _ _ (modify_eq _ k1 _)); cbv beta).
  destruct k1 as [h w]. simpl in Hh. subst h. unfold mbind, M_bind. rewrite release_top.
  pose proof (invm_procs (inkm (kfree kend (p_kstack (thep z s)))) (Kctx (LPtable :: held k) (wakeups k)) s) as E1.
  rewrite H1 in E1.
  pose proof (invm_procs (freevm kend (p_pgdir (thep z s))) k2 (updp z (set_kstack 0) s2)) as E2.
  rewrite H2 in E2.
  assert (Lz : (z < length (k_procs s1))%nat) by (rewrite E2, length_updp, E1; done).
  assert (T1 : ∀ j, thep j s1 = if decide (j = z) then set_kstack 0 (thep z s) else thep j s).
  { intros j. unfold thep at 1. rewrite E2. change (nthz proc0 (k_procs ?x) j) with (thep j x).
    rewrite thep_updp by (by rewrite E1). unfold thep. by rewrite E1. }
  eexists. split; [reflexivity|]. repeat rewrite updp_updp by (rewrite ?length_updp; done). split_and!.
  - rewrite thep_updp by done. rewrite decide_True, T1, decide_True by done. done.
  - intros j Hj. rewrite thep_updp, decide_False, T1, decide_False by done. done.
  - by rewrite length_updp, E2, length_updp, E1.
Qed.

(** Wait.  Without children, or when the process is killed and none of them is a
    zombie, wait() returns -1 at once and changes nothing.  With children none of which is
    a zombie the process goes to sleep on its own channel.  When there is a zombie child
    and its memory can be given back, wait() returns the pid of such a child, whose entry
    is then free; every other process is as it was. *)
Theorem wait_cases k s : let me := k_cur s in
  held k = [] → (me < length (k_procs s))%nat →
  (¬ has_child s me ∨ ((∀ j, ¬ zombie_child s me j) ∧ p_killed (thep me s) = true) →
     wait kend k s = Done (-1) k s) ∧
  (has_child s me → (∀ j, ¬ zombie_child s me j) → p_killed (thep me s) = false →
     wait kend k s = Blocked (CProc me) k (asleep (CProc me) s)) ∧
  ((∃ j, zombie_child s me j) → ∃ z, zombie_child s me z ∧ ∀ k1 s1,
     frees_memory z (Kctx [LPtable] (wakeups k)) s k1 s1 →
     ∃ s', wait kend k s = Done (p_pid (thep z s)) (Kctx [] (wakeups k1)) s' ∧
       thep z s' = reaped (thep z s) ∧ ∀ j, j ≠ z → thep j s' = thep j s).
Proof.
  intros me Hk Hme. assert (Hk' : LPtable ∉ held k) by (rewrite Hk; apply not_elem_of_nil).
  pose proof (wait_scan_spec s) as Hsc.
  fold me in Hsc. split_and!.
  - intros Hc. unfold wait. mb (acquire_eq LPtable k s Hk').
    mb (gets_eq (λ s, s) (Kctx (LPtable :: held k) (wakeups k)) s). fold me.
    destruct (wait_scan (k_procs s) 0 me false) as [[z|] b].
    { destruct Hc as [Hc|[Hc _]]; [|by destruct (Hc z)]. destruct Hsc as (H1 & H2 & _).
      destruct Hc. by exists z. }
    destruct Hsc as [_ Hbc]. assert (negb b || p_killed (curp s) = true) as ->.
    { destruct Hc as [Hc|[_ Hc]]; [|unfold curp; fold me; rewrite Hc; by destruct b].
      destruct b; [|done]. destruct Hc. by apply Hbc. }
    unfold mbind, M_bind. rewrite release_top. by destruct k.
  - intros Hc Hz Hkl. unfold wait. mb (acquire_eq LPtable k s Hk').
    mb (gets_eq (λ s, s) (Kctx (LPtable :: held k) (wakeups k)) s). fold me.
    destruct (wait_scan (k_procs s) 0 me false) as [[z|] b]; [by destruct (Hz z)|].
    rewrite (proj2 (proj2 Hsc) Hc). unfold curp. fold me. rewrite Hkl. cbn [negb orb].
    rewrite sleep_blocks by done. unfold Kmonad.sleep. rewrite decide_True by done. rewrite Hk.
    destruct k as [h w]. simpl in Hk. subst h. done.
  - intros [j Hj]. destruct (wait_scan (k_procs s) 0 me false) as [[z|] b] eqn:E;
      [|by destruct (proj1 Hsc j)].
    exists z. split; [done|]. intros k1 s1 Hf.
    destruct (reap_run z k s k1 s1 (proj1 Hsc) ltac:(by rewrite Hk)) as (s' & H & Hz & Hj' & _); [|done|].
    + fold me. rewrite E. f_equal. by apply wait_scan_true in E.
    + exists s'. by rewrite Hk in H.
Qed.
End wait.

Lemma exit_hands_over_witness : ∃ s',
  (become_zombie (Kctx [] []) demo_procs : outcome kst unit) = Blocked (CProc 1) (Kctx [] []) s' ∧
  p_state (thep 1 s') = ZOMBIE ∧ ¬ waiting s' 0 ∧ ∃ z, zombie_child s' 0 z.
Proof.
  destruct (exit_hands_over (A := unit) (Kctx [] []) demo_procs) as (s' & H1 & H2 & _ & _ & H3 & _).
  1-5: by (vm_compute; lia) || by vm_compute.
  exists s'. split; [exact H1|]. split; [exact H2|]. apply H3; [done|vm_compute; lia].
Defined.

Lemma wait_cases_witness : wait 0 (Kctx [] []) (set_kprocs (replicate NPROC proc0) demo_procs) =
  Done (-1) (Kctx [] []) (set_kprocs (replicate NPROC proc0) demo_procs).
Proof.
  apply (wait_cases 0 (Kctx [] []) (set_kprocs (replicate NPROC proc0) demo_procs)).
  - done.
  - vm_compute; lia.
  - left. intros (j & Hj & Hp). revert Hp. unfold thep, nthz. cbn [k_procs set_kprocs].
    destruct (_ !! j) as [p|] eqn:E; [|done]. by apply lookup_replicate in E as [-> _].
Defined.
