(* ===== verification/Syscall.v ===== *)
(** * syscall.c and sysproc.c: arguments, and the calls about processes

    User memory is read through the page table of the current process; a page that is not
    present is a fault in the kernel, which panics (trap.c).  An [int] result that is used
    as an error code is an [option]: [None] stands for -1. *)

From stdpp Require Import base gmap list strings.
From Stdlib Require Import ZArith Lia.
From S2P Require Import Prelude Params Kmonad Cstring Kalloc Console Vm Bio Log Fs ConsoleDev Pipe.
From S2P Require Import Kstate File Proc.

(** ** Fetching *)

Definition uload (va : Z) : M kst Z :=
  s ← gets (λ s, s);
  if mapped_u s va then mret (ubyte s va) else panic "trap".

Definition uload32 (va : Z) : M kst Z :=
  a ← uload va; b ← uload (va + 1); c ← uload (va + 2); d ← uload (va + 3);
  mret (a + 2 ^ 8 * b + 2 ^ 16 * c + 2 ^ 24 * d).

Definition fetchint (addr : Z) : M kst (option Z) :=
  p ← gets curp;
  if (addr >=? p_sz p) || (u32 (addr + 4) >? p_sz p) then mret None
  else v ← uload32 addr; mret (Some (i32 v)).

(** The loop of fetchstr from address [a] on; [fuel] is ep - a. *)
Fixpoint fetch_loop (fuel : nat) (a : Z) (acc : list Z) : M kst (option (list Z)) :=
  match fuel with
  | O => mret None
  | S f =>
    c ← uload a;
    if c =? 0 then mret (Some acc) else fetch_loop f (a + 1) (acc ++ [c])
  end.

(** The string, whose length is the result of the C function. *)
Definition fetchstr (addr : Z) : M kst (option (list Z)) :=
  p ← gets curp;
  if addr >=? p_sz p then mret None
  else fetch_loop (Z.to_nat (p_sz p - addr)) addr [].

Definition argint (n : Z) : M kst (option Z) :=
  p ← gets curp;
  fetchint (u32 (esp (p_tf p) + 4 + 4 * n)).

Definition argptr (n size : Z) : M kst (option Z) :=
  r ← argint n;
  match (r : option Z) with
  | None => mret None
  | Some i =>
    p ← gets curp;
    if (u32 i >=? p_sz p) || (u32 (u32 i + size) >? p_sz p) then mret None
    else mret (Some (u32 i))
  end.

Definition argstr (n : Z) : M kst (option (list Z)) :=
  r ← argint n;
  match (r : option Z) with
  | None => mret None
  | Some addr => fetchstr (u32 addr)
  end.

(** ** sysproc.c *)

Section sysproc.
Context (kend kdata forkret_addr trapret_addr : Z).

Definition sys_fork : M kst Z := fork kend kdata forkret_addr trapret_addr.
Definition sys_exit : M kst Z := exit kend.
Definition sys_wait : M kst Z := wait kend.

Definition sys_kill : M kst Z :=
  r ← argint 0;
  match (r : option Z) with
  | None => mret (-1)
  | Some pid => kill pid
  end.

Definition sys_getpid : M kst Z := p ← gets curp; mret (p_pid p).

Definition sys_sbrk : M kst Z :=
  r ← argint 0;
  match (r : option Z) with
  | None => mret (-1)
  | Some n =>
    p ← gets curp;
    g ← growproc kend n;
    if g <? 0 then mret (-1) else mret (i32 (p_sz p))
  end.

(** The loop of sys_sleep, entered with tickslock held: it goes round again after a
    wakeup. *)
Definition sleep_while (ticks0 n : Z) : M kst Z :=
  t ← gets k_ticks;
  if u32 (t - ticks0) <? u32 n then
    p ← gets curp;
    if p_killed p then release LTicks;; mret (-1)
    else Proc.sleep CTicks LTicks
  else release LTicks;; mret 0.

Definition sys_sleep : M kst Z :=
  r ← argint 0;
  match (r : option Z) with
  | None => mret (-1)
  | Some n =>
    acquire LTicks;;
    ticks0 ← gets k_ticks;
    sleep_while ticks0 n
  end.

Definition sys_uptime : M kst Z :=
  acquire LTicks;;
  xticks ← gets k_ticks;
  release LTicks;;
  mret (i32 xticks).
End sysproc.
