(* ===== verification/Sysfile.v ===== *)
(** * sysfile.c: the file system calls

    Names of inodes and files are indices of their tables.  [goto bad] is the definition
    the branches share. *)

From stdpp Require Import base gmap list strings.
From Stdlib Require Import ZArith Lia.
From S2P Require Import Prelude Params Kmonad Cstring Kalloc Console Vm Bio Log Fs ConsoleDev Pipe.
From S2P Require Import Kstate File Proc Syscall.

Definition sizeof_stat : Z := 20.
Definition bytes16 (v : Z) : list Z := [u8 v; u8 (Z.shiftr v 8)].
Definition bytes32 (v : Z) : list Z := [u8 v; u8 (Z.shiftr v 8); u8 (Z.shiftr v 16); u8 (Z.shiftr v 24)].

(** The working directory, with which a path is looked up. *)
Definition knamei (path : list Z) : M kst (option nat) :=
  d ← gets dsw;
  p ← gets curp;
  cwd ← (if path.[0] =? SLASH then mret 0%nat else defined (p_cwd p));
  infs (namei d cwd path).
Definition knameiparent (path : list Z) : M kst (option (nat * list Z)) :=
  d ← gets dsw;
  p ← gets curp;
  cwd ← (if path.[0] =? SLASH then mret 0%nat else defined (p_cwd p));
  infs (nameiparent d cwd path).
Definition kbegin_op : M kst unit := infs (inlg begin_op).
Definition kend_op : M kst unit := infs (inlg end_op).
Definition inode_at (ip : nat) (s : kst) : inode := thei ip (k_fs s).
Definition upd_inode (ip : nat) (f : inode → inode) : M kst unit := infs (modify (updi ip f)).

Section sysfile.
Context (kend : Z).

(** The descriptor and the file. *)
Definition argfd (n : Z) : M kst (option (nat * nat)) :=
  r ← argint n;
  match (r : option Z) with
  | None => mret None
  | Some fd =>
    p ← gets curp;
    if (fd <? 0) || (fd >=? Z.of_nat NOFILE) then mret None
    else
      mret (match p_ofile p !! Z.to_nat fd with
            | Some (Some f) => Some (Z.to_nat fd, f)
            | _ => None
            end)
  end.

Fixpoint free_fd (l : list (option nat)) (fd : nat) : option nat :=
  match l with
  | [] => None
  | None :: _ => Some fd
  | Some _ :: l' => free_fd l' (S fd)
  end.

Definition set_fd (fd : nat) (f : option nat) : M kst unit :=
  upd_cur (λ p, set_ofile (<[fd := f]> (p_ofile p)) p).

Definition fdalloc (f : nat) : M kst (option nat) :=
  p ← gets curp;
  match free_fd (p_ofile p) 0 with
  | Some fd => set_fd fd (Some f);; mret (Some fd)
  | None => mret None
  end.

Definition sys_dup : M kst Z :=
  r ← argfd 0;
  match (r : option (nat * nat)) with
  | None => mret (-1)
  | Some (_, f) =>
    o ← fdalloc f;
    match (o : option nat) with
    | None => mret (-1)
    | Some fd => filedup f;; mret (Z.of_nat fd)
    end
  end.

(** The arguments of read and write. *)
Definition rw_args : M kst (option (nat * Z * Z)) :=
  r ← argfd 0;
  match (r : option (nat * nat)) with
  | None => mret None
  | Some (_, f) =>
    r ← argint 2;
    match (r : option Z) with
    | None => mret None
    | Some n =>
      r ← argptr 1 n;
      mret ((λ p, (f, n, p)) <$> (r : option Z))
    end
  end.

Definition sys_read : M kst Z :=
  r ← rw_args;
  match (r : option (nat * Z * Z)) with
  | None => mret (-1)
  | Some (f, n, p) =>
    x ← fileread f n;
    ustore p x.2;;
    mret x.1
  end.

(** The bytes of the user buffer, which filewrite takes at once here. *)
Fixpoint uread (n : nat) (a : Z) : M kst (list Z) :=
  match n with
  | O => mret []
  | S n' => c ← uload a; l ← uread n' (a + 1); mret (c :: l)
  end.

Definition sys_write : M kst Z :=
  r ← rw_args;
  match (r : option (nat * Z * Z)) with
  | None => mret (-1)
  | Some (f, n, p) =>
    x ← gets (thef f);
    src ← (if writable x then uread (Z.to_nat n) p else mret []);
    filewrite f src n
  end.

Definition sys_close : M kst Z :=
  r ← argfd 0;
  match (r : option (nat * nat)) with
  | None => mret (-1)
  | Some (fd, f) => set_fd fd None;; fileclose kend f;; mret 0
  end.

Definition store_stat (a : Z) (st : stat) : M kst unit :=
  ustore a (bytes16 (st_type st));;
  ustore (a + 4) (bytes32 (st_dev st));;
  ustore (a + 8) (bytes32 (st_ino st));;
  ustore (a + 12) (bytes16 (st_nlink st));;
  ustore (a + 16) (bytes32 (st_size st)).

Definition sys_fstat : M kst Z :=
  r ← argfd 0;
  match (r : option (nat * nat)) with
  | None => mret (-1)
  | Some (_, f) =>
    r ← argptr 1 sizeof_stat;
    match (r : option Z) with
    | None => mret (-1)
    | Some a =>
      st ← filestat f;
      match (st : option stat) with
      | None => mret (-1)
      | Some st => store_stat a st;; mret 0
      end
    end
  end.

(** ** Links *)

Definition link_bad (ip : nat) : M kst Z :=
  infs (ilock (Some ip));;
  upd_inode ip (λ i, iset_nlink (i16 (i_nlink i - 1)) i);;
  infs (iupdate ip);;
  infs (iunlockput ip);;
  kend_op;;
  mret (-1).

Definition sys_link : M kst Z :=
  old ← argstr 0;
  match (old : option (list Z)) with
  | None => mret (-1)
  | Some old =>
    new ← argstr 1;
    match (new : option (list Z)) with
    | None => mret (-1)
    | Some new =>
      kbegin_op;;
      r ← knamei old;
      match (r : option nat) with
      | None => kend_op;; mret (-1)
      | Some ip =>
        infs (ilock (Some ip));;
        i ← gets (inode_at ip);
        if i_type i =? T_DIR then infs (iunlockput ip);; kend_op;; mret (-1)
        else
          upd_inode ip (λ i, iset_nlink (i16 (i_nlink i + 1)) i);;
          infs (iupdate ip);;
          infs (iunlock (Some ip));;
          r ← knameiparent new;
          match (r : option (nat * list Z)) with
          | None => link_bad ip
          | Some (dp, name) =>
            infs (ilock (Some dp));;
            d ← gets (inode_at dp);
            i ← gets (inode_at ip);
            if negb (i_dev d =? i_dev i) then infs (iunlockput dp);; link_bad ip
            else
              sw ← gets dsw;
              r ← infs (dirlink sw dp name (i_inum i));
              if r <? 0 then infs (iunlockput dp);; link_bad ip
              else
                infs (iunlockput dp);;
                infs (iput ip);;
                kend_op;;
                mret 0
          end
      end
    end
  end.

Fixpoint isdirempty_loop (fuel dp : nat) (off : Z) : M kst bool :=
  match fuel with
  | O => diverge
  | S f =>
    i ← gets (inode_at dp);
    if off <? i_size i then
      sw ← gets dsw;
      r ← infs (readi sw dp off DIRENT);
      if negb (r.1 =? DIRENT) then panic "isdirempty: readi"
      else if negb (de_inum (get_dirent r.2) =? 0) then mret false
      else isdirempty_loop f dp (off + DIRENT)
    else mret true
  end.

Definition isdirempty (dp : nat) : M kst bool :=
  i ← gets (inode_at dp);
  isdirempty_loop (dir_fuel i) dp (2 * DIRENT).

Definition unlink_bad (dp : nat) : M kst Z :=
  infs (iunlockput dp);; kend_op;; mret (-1).

Definition dot : list Z := [46].
Definition dotdot : list Z := [46; 46].

(** The entry of [ip] at [off] of the directory [dp] is cleared, both are locked. *)
Definition unlink_entry (dp ip : nat) (off : Z) : M kst Z :=
  sw ← gets dsw;
  r ← infs (writei sw dp (replicate (Z.to_nat DIRENT) 0) off DIRENT);
  if negb (r =? DIRENT) then panic "unlink: writei"
  else
    i ← gets (inode_at ip);
    (if i_type i =? T_DIR then
       upd_inode dp (λ i, iset_nlink (i16 (i_nlink i - 1)) i);;
       infs (iupdate dp)
     else mret tt);;
    infs (iunlockput dp);;
    upd_inode ip (λ i, iset_nlink (i16 (i_nlink i - 1)) i);;
    infs (iupdate ip);;
    infs (iunlockput ip);;
    kend_op;;
    mret 0.

Definition sys_unlink : M kst Z :=
  path ← argstr 0;
  match (path : option (list Z)) with
  | None => mret (-1)
  | Some path =>
    kbegin_op;;
    r ← knameiparent path;
    match (r : option (nat * list Z)) with
    | None => kend_op;; mret (-1)
    | Some (dp, name) =>
      infs (ilock (Some dp));;
      if (namecmp name dot =? 0) || (namecmp name dotdot =? 0) then unlink_bad dp
      else
        sw ← gets dsw;
        r ← infs (dirlookup sw dp name);
        match (r : option (nat * Z)) with
        | None => unlink_bad dp
        | Some (ip, off) =>
          infs (ilock (Some ip));;
          i ← gets (inode_at ip);
          if i_nlink i <? 1 then panic "unlink: nlink < 1"
          else
            e ← (if i_type i =? T_DIR then isdirempty ip else mret true);
            if negb e then infs (iunlockput ip);; unlink_bad dp
            else unlink_entry dp ip off
        end
    end
  end.

(** ** Creating and opening *)

(** . and .. of a new directory. *)
Definition create_dots (dp ip : nat) : M kst unit :=
  upd_inode dp (λ i, iset_nlink (i16 (i_nlink i + 1)) i);;
  infs (iupdate dp);;
  sw ← gets dsw;
  i ← gets (inode_at ip);
  r ← infs (dirlink sw ip dot (i_inum i));
  if r <? 0 then panic "create dots"
  else
    d ← gets (inode_at dp);
    r ← infs (dirlink sw ip dotdot (i_inum d));
    if r <? 0 then panic "create dots" else mret tt.

Definition create (path : list Z) (type major minor : Z) : M kst (option nat) :=
  r ← knameiparent path;
  match (r : option (nat * list Z)) with
  | None => mret None
  | Some (dp, name) =>
    infs (ilock (Some dp));;
    sw ← gets dsw;
    r ← infs (dirlookup sw dp name);
    match (r : option (nat * Z)) with
    | Some (ip, _) =>
      infs (iunlockput dp);;
      infs (ilock (Some ip));;
      i ← gets (inode_at ip);
      if (type =? T_FILE) && (i_type i =? T_FILE) then mret (Some ip)
      else infs (iunlockput ip);; mret None
    | None =>
      d ← gets (inode_at dp);
      ip ← infs (ialloc (i_dev d) type);
      infs (ilock (Some ip));;
      upd_inode ip (λ i, iset_nlink 1 (iset_devno major minor i));;
      infs (iupdate ip);;
      (if type =? T_DIR then create_dots dp ip else mret tt);;
      i ← gets (inode_at ip);
      r ← infs (dirlink sw dp name (i_inum i));
      if r <? 0 then panic "create: dirlink"
      else infs (iunlockput dp);; mret (Some ip)
    end
  end.

(** The inode sys_open opens, locked. *)
Definition open_inode (path : list Z) (omode : Z) : M kst (option nat) :=
  if has omode O_CREATE then create path T_FILE 0 0
  else
    r ← knamei path;
    match (r : option nat) with
    | None => mret None
    | Some ip =>
      infs (ilock (Some ip));;
      i ← gets (inode_at ip);
      if (i_type i =? T_DIR) && negb (omode =? O_RDONLY) then infs (iunlockput ip);; mret None
      else mret (Some ip)
    end.

Definition sys_open : M kst Z :=
  path ← argstr 0;
  match (path : option (list Z)) with
  | None => mret (-1)
  | Some path =>
    om ← argint 1;
    match (om : option Z) with
    | None => mret (-1)
    | Some omode =>
      kbegin_op;;
      r ← open_inode path omode;
      match (r : option nat) with
      | None => kend_op;; mret (-1)
      | Some ip =>
        f ← filealloc;
        fd ← (match (f : option nat) with Some f => fdalloc f | None => mret None end);
        match (f : option nat), (fd : option nat) with
        | Some f, Some fd =>
          infs (iunlock (Some ip));;
          kend_op;;
          modify (updf f (λ x, File FD_INODE (fref x) (negb (has omode O_WRONLY))
                                 (has omode O_WRONLY || has omode O_RDWR) (fpipe x) ip 0));;
          mret (Z.of_nat fd)
        | f, _ =>
          (match f with Some f => fileclose kend f | None => mret tt end);;
          infs (iunlockput ip);;
          kend_op;;
          mret (-1)
        end
      end
    end
  end.

Definition sys_mkdir : M kst Z :=
  kbegin_op;;
  path ← argstr 0;
  r ← (match (path : option (list Z)) with Some path => create path T_DIR 0 0 | None => mret None end);
  match (r : option nat) with
  | None => kend_op;; mret (-1)
  | Some ip => infs (iunlockput ip);; kend_op;; mret 0
  end.

(** The path and the numbers sys_mknod gets. *)
Definition mknod_args : M kst (option (list Z * Z * Z)) :=
  path ← argstr 0;
  match (path : option (list Z)) with
  | None => mret None
  | Some path =>
    mj ← argint 1;
    match (mj : option Z) with
    | None => mret None
    | Some mj => mn ← argint 2; mret ((λ mn, (path, mj, mn)) <$> (mn : option Z))
    end
  end.

Definition sys_mknod : M kst Z :=
  kbegin_op;;
  a ← mknod_args;
  r ← (match (a : option (list Z * Z * Z)) with
       | Some (path, mj, mn) => create path T_DEV (i16 mj) (i16 mn)
       | None => mret None
       end);
  match (r : option nat) with
  | None => kend_op;; mret (-1)
  | Some ip => infs (iunlockput ip);; kend_op;; mret 0
  end.

Definition sys_chdir : M kst Z :=
  kbegin_op;;
  path ← argstr 0;
  r ← (match (path : option (list Z)) with Some path => knamei path | None => mret None end);
  match (r : option nat) with
  | None => kend_op;; mret (-1)
  | Some ip =>
    infs (ilock (Some ip));;
    i ← gets (inode_at ip);
    if negb (i_type i =? T_DIR) then infs (iunlockput ip);; kend_op;; mret (-1)
    else
      infs (iunlock (Some ip));;
      p ← gets curp;
      cwd ← defined (p_cwd p);
      infs (iput cwd);;
      kend_op;;
      upd_cur (set_cwd (Some ip));;
      mret 0
  end.

Definition sys_pipe : M kst Z :=
  r ← argptr 0 8;
  match (r : option Z) with
  | None => mret (-1)
  | Some a =>
    r ← pipealloc kend;
    match (r : option (nat * nat)) with
    | None => mret (-1)
    | Some (rf, wf) =>
      fd0 ← fdalloc rf;
      fd1 ← (match (fd0 : option nat) with Some _ => fdalloc wf | None => mret None end);
      match (fd0 : option nat), (fd1 : option nat) with
      | Some fd0, Some fd1 =>
        ustore a (bytes32 (Z.of_nat fd0));;
        ustore (a + 4) (bytes32 (Z.of_nat fd1));;
        mret 0
      | fd0, _ =>
        (match fd0 with Some fd0 => set_fd fd0 None | None => mret tt end);;
        fileclose kend rf;;
        fileclose kend wf;;
        mret (-1)
      end
    end
  end.
End sysfile.
