(* ===== verification/Exec.v ===== *)
(** * exec.c, loaduvm, and sys_exec

    A file read into a kernel buffer is the list of bytes readi delivers.  The argument
    strings are lists of bytes: [copyoutl] is the copyout of vm.c with the bytes of the
    source, which lie in the old image of the process or on the kernel stack.  [junk] is
    what the kernel stack holds where exec has its struct elfhdr. *)

From stdpp Require Import base gmap list strings.
From Stdlib Require Import ZArith Lia.
From S2P Require Import Prelude Params Kmonad Cstring Kalloc Console Vm Bio Log Fs ConsoleDev Pipe.
From S2P Require Import Kstate File Proc Syscall Sysfile.

Definition ELF_MAGIC : Z := 0x464C457F.
Definition ELF_PROG_LOAD : Z := 1.

(** The fields of struct elfhdr and struct proghdr that exec reads. *)
Record elfhdr : Type := Elfhdr { e_magic : Z; e_entry : Z; e_phoff : Z; e_phnum : Z }.
Definition sizeof_elfhdr : Z := 52.
Definition get_elfhdr (b : list Z) : elfhdr := Elfhdr (get32 b 0) (get32 b 24) (get32 b 28) (get16 b 44).

Record proghdr : Type := Proghdr { ph_type : Z; ph_off : Z; ph_vaddr : Z; ph_filesz : Z; ph_memsz : Z }.
Definition sizeof_proghdr : Z := 32.
Definition get_proghdr (b : list Z) : proghdr :=
  Proghdr (get32 b 0) (get32 b 4) (get32 b 8) (get32 b 16) (get32 b 20).

Fixpoint wr_list (m : mem) (a : Z) (l : list Z) : mem :=
  match l with [] => m | c :: l' => wr_list (wr m a c) (a + 1) l' end.

Section exec.
Context (kend kdata : Z).

(** ** vm.c: loaduvm *)

Fixpoint load_loop (fuel : nat) (pgdir addr : Z) (ip : nat) (offset sz i : Z) : M kst Z :=
  match fuel with
  | O => diverge
  | S f =>
    if i <? sz then
      p ← invm (walkpgdir pgdir (u32 (addr + i)) false);
      match (p : option Z) with
      | None => panic "loaduvm: address should exist"
      | Some pte =>
        v ← invm (vload pte);
        let pa := PTE_ADDR v in
        let n := if sz - i <? PGSIZE then sz - i else PGSIZE in
        sw ← gets dsw;
        r ← infs (readi sw ip (u32 (offset + i)) n);
        invm (vupd (λ m, wr_list m (p2v pa) r.2));;
        if negb (u32 r.1 =? n) then mret (-1)
        else load_loop f pgdir addr ip offset sz (u32 (i + PGSIZE))
      end
    else mret 0
  end.

(** A round reads a page of the segment, or the rest of it, from the file. *)
Definition loaduvm (pgdir addr : Z) (ip : nat) (offset sz : Z) : M kst Z :=
  if negb (addr mod PGSIZE =? 0) then panic "loaduvm: addr must be page aligned"
  else load_loop (S (S (Z.to_nat (sz / PGSIZE)))) pgdir addr ip offset sz 0.

(** ** vm.c: copyout of the bytes [l] *)

Fixpoint copyoutl_loop (fuel : nat) (pgdir va : Z) (l : list Z) : M vst Z :=
  match fuel with
  | O => diverge
  | S f =>
    if Z.of_nat (length l) >? 0 then
      let va0 := PGROUNDDOWN va in
      pa0 ← uva2ka pgdir va0;
      if pa0 =? 0 then mret (-1)
      else
        let n := Z.min (PGSIZE - (va - va0)) (Z.of_nat (length l)) in
        vupd (λ m, wr_list m (pa0 + (va - va0)) (take (Z.to_nat n) l));;
        copyoutl_loop f pgdir (u32 (va0 + PGSIZE)) (drop (Z.to_nat n) l)
    else mret 0
  end.

Definition copyoutl (pgdir va : Z) (l : list Z) : M vst Z :=
  copyoutl_loop (S (S (S (Z.to_nat (Z.of_nat (length l) / PGSIZE))))) pgdir va l.

(** ** exec.c *)

(** The pieces of exec return [None] for [goto bad]. *)

(** Load one segment; [sz] is the size of the image so far. *)
Definition load_seg (pgdir : Z) (ip : nat) (sz : Z) (ph : proghdr) : M kst (option Z) :=
  if negb (ph_type ph =? ELF_PROG_LOAD) then mret (Some sz)
  else if ph_memsz ph <? ph_filesz ph then mret None
  else
    sz ← invm (allocuvm kend pgdir sz (u32 (ph_vaddr ph + ph_memsz ph)));
    if sz =? 0 then mret None
    else
      r ← loaduvm pgdir (ph_vaddr ph) ip (ph_off ph) (ph_filesz ph);
      if r <? 0 then mret None else mret (Some sz).

(** for(i=0, off=elf.phoff; i<elf.phnum; i++, off+=sizeof(ph)); [n] headers are left. *)
Fixpoint load_segs (n : nat) (pgdir : Z) (ip : nat) (sz off : Z) : M kst (option Z) :=
  match n with
  | O => mret (Some sz)
  | S n' =>
    sw ← gets dsw;
    r ← infs (readi sw ip off sizeof_proghdr);
    if negb (r.1 =? sizeof_proghdr) then mret None
    else
      o ← load_seg pgdir ip sz (get_proghdr r.2);
      match (o : option Z) with
      | None => mret None
      | Some sz => load_segs n' pgdir ip sz (u32 (off + sizeof_proghdr))
      end
  end.

(** Push the argument strings; the words of ustack from ustack[3] on, and sp. *)
Fixpoint push_args (argv : list (list Z)) (argc : nat) (pgdir sp : Z) (ustack : list Z)
  : M kst (option (Z * list Z)) :=
  match argv with
  | [] => mret (Some (sp, ustack))
  | a :: argv' =>
    if (MAXARG <=? argc)%nat then mret None
    else
      let sp := Z.land (u32 (sp - (Z.of_nat (length a) + 1))) (u32 (Z.lnot 3)) in
      r ← invm (copyoutl pgdir sp (a ++ [0]));
      if r <? 0 then mret None
      else push_args argv' (S argc) pgdir sp (ustack ++ [sp])
  end.

(** The words exec pushes below the strings: fake return PC, argc, argv and argv[]. *)
Definition ustack_words (argc : nat) (sp : Z) (args : list Z) : list Z :=
  [0xffffffff; Z.of_nat argc; u32 (sp - (Z.of_nat argc + 1) * 4)] ++ args ++ [0].

(** The user stack: two pages behind the image, the first without access, with the
    arguments; the size of the image and the stack pointer. *)
Definition build_stack (argv : list (list Z)) (pgdir sz : Z) : M kst (option (Z * Z)) :=
  let sz := PGROUNDUP sz in
  sz ← invm (allocuvm kend pgdir sz (u32 (sz + 2 * PGSIZE)));
  if sz =? 0 then mret None
  else
    invm (clearpteu pgdir (u32 (sz - 2 * PGSIZE)));;
    o ← push_args argv 0 pgdir sz [];
    match (o : option (Z * list Z)) with
    | None => mret None
    | Some (sp, args) =>
      let words := ustack_words (length argv) sp args in
      let sp := u32 (sp - (3 + Z.of_nat (length argv) + 1) * 4) in
      r ← invm (copyoutl pgdir sp (words ≫= bytes32));
      if r <? 0 then mret None else mret (Some (sz, sp))
    end.

(** The part of the path behind the last slash. *)
Fixpoint last_elem (path last : list Z) : list Z :=
  match path with
  | [] => last
  | c :: p => if c =? SLASH then last_elem p p else last_elem p last
  end.

(** bad: with [ip] the locked inode, or [None] when it is released. *)
Definition exec_bad (pgdir : Z) (ip : option nat) : M kst Z :=
  (if negb (pgdir =? 0) then invm (freevm kend pgdir) else mret tt);;
  (match ip with Some ip => infs (iunlockput ip);; kend_op | None => mret tt end);;
  mret (-1).

(** Commit to the user image. *)
Definition exec_commit (path : list Z) (pgdir sz entry sp : Z) : M kst Z :=
  upd_cur (set_name (name_of (last_elem path path)));;
  p ← gets curp;
  let oldpgdir := p_pgdir p in
  upd_cur (set_ppgdir pgdir);;
  upd_cur (set_psz sz);;
  upd_cur (λ p, set_tf (set_entry_point entry sp (p_tf p)) p);;
  invm (switchuvm (p_kstack p) pgdir);;
  invm (freevm kend oldpgdir);;
  mret 0.

(** What lies in the struct after a read of [r] into it. *)
Definition over_junk (l junk : list Z) : list Z := l ++ drop (length l) junk.

Definition exec (junk path : list Z) (argv : list (list Z)) : M kst Z :=
  kbegin_op;;
  r ← knamei path;
  match (r : option nat) with
  | None => kend_op;; mret (-1)
  | Some ip =>
    infs (ilock (Some ip));;
    sw ← gets dsw;
    r ← infs (readi sw ip 0 sizeof_elfhdr);
    if u32 r.1 <? sizeof_elfhdr then exec_bad 0 (Some ip)
    else
      let elf := get_elfhdr (over_junk r.2 junk) in
      if negb (e_magic elf =? ELF_MAGIC) then exec_bad 0 (Some ip)
      else
        pgdir ← invm (setupkvm kdata);
        if pgdir =? 0 then exec_bad 0 (Some ip)
        else
          o ← load_segs (Z.to_nat (e_phnum elf)) pgdir ip 0 (e_phoff elf);
          match (o : option Z) with
          | None => exec_bad pgdir (Some ip)
          | Some sz =>
            infs (iunlockput ip);;
            kend_op;;
            o ← build_stack argv pgdir sz;
            match (o : option (Z * Z)) with
            | None => exec_bad pgdir None
            | Some (sz, sp) => exec_commit path pgdir sz (e_entry elf) sp
            end
          end
  end.

(** ** sysfile.c: sys_exec *)

(** The strings of the array at [uargv], from entry [i] on; [None] for -1. *)
Fixpoint fetch_argv (fuel : nat) (uargv i : Z) (acc : list (list Z)) : M kst (option (list (list Z))) :=
  match fuel with
  | O => mret None
  | S f =>
    r ← fetchint (u32 (uargv + 4 * i));
    match (r : option Z) with
    | None => mret None
    | Some uarg =>
      if u32 uarg =? 0 then mret (Some acc)
      else
        a ← fetchstr (u32 uarg);
        match (a : option (list Z)) with
        | None => mret None
        | Some a => fetch_argv f uargv (i + 1) (acc ++ [a])
        end
    end
  end.

Definition sys_exec (junk : list Z) : M kst Z :=
  path ← argstr 0;
  match (path : option (list Z)) with
  | None => mret (-1)
  | Some path =>
    u ← argint 1;
    match (u : option Z) with
    | None => mret (-1)
    | Some uargv =>
      argv ← fetch_argv MAXARG (u32 uargv) 0 [];
      match (argv : option (list (list Z))) with
      | None => mret (-1)
      | Some argv => exec junk path argv
      end
    end
  end.
End exec.
