(* ===== verification/Trap.v ===== *)
(** * trap.c, syscall() and uart.c's interrupt handler

    What the hardware gives a handler is an argument: the number of the CPU, cr2, and the
    bytes that wait in the keyboard controller and the serial port.  The disk is that of
    memide.c, whose ideintr does nothing. *)

From stdpp Require Import base gmap list strings.
From Stdlib Require Import ZArith Lia.
From S2P Require Import Prelude Params Kmonad Cstring Kalloc Console Kbd Vm Bio Log Fs ConsoleDev.
From S2P Require Import Pipe Kstate File Proc Syscall Sysfile Exec.

Definition T_SYSCALL : Z := 64.
Definition T_IRQ0 : Z := 32.
Definition IRQ_TIMER : Z := 0.
Definition IRQ_KBD : Z := 1.
Definition IRQ_COM1 : Z := 4.
Definition IRQ_IDE : Z := 14.
Definition IRQ_SPURIOUS : Z := 31.

(** The characters of a format string. *)
Fixpoint chars (s : string) : list Z :=
  match s with
  | EmptyString => []
  | String c s' => Z.of_N (Ascii.N_of_ascii c) :: chars s'
  end.
(** A format ending in a newline. *)
Definition line (s : string) : list Z := chars s ++ [NL].

(** The kernel's addresses the calls need, and the junk on the stack exec sees. *)
Record kernel : Type := Kernel {
  k_end : Z; k_data : Z; k_forkret : Z; k_trapret : Z; k_junk : list Z
}.

Section trap.
Context (K : kernel).

(** syscalls[num] *)
Definition syscalls (num : Z) : option (M kst Z) :=
  match num with
  | 1 => Some (sys_fork (k_end K) (k_data K) (k_forkret K) (k_trapret K))
  | 2 => Some (sys_exit (k_end K))
  | 3 => Some (sys_wait (k_end K))
  | 4 => Some (sys_pipe (k_end K))
  | 5 => Some sys_read
  | 6 => Some sys_kill
  | 7 => Some (sys_exec (k_end K) (k_data K) (k_junk K))
  | 8 => Some sys_fstat
  | 9 => Some sys_chdir
  | 10 => Some sys_dup
  | 11 => Some sys_getpid
  | 12 => Some (sys_sbrk (k_end K))
  | 13 => Some sys_sleep
  | 14 => Some sys_uptime
  | 15 => Some (sys_open (k_end K))
  | 16 => Some sys_write
  | 17 => Some sys_mknod
  | 18 => Some sys_unlink
  | 19 => Some sys_link
  | 20 => Some sys_mkdir
  | 21 => Some (sys_close (k_end K))
  | _ => None
  end.

Definition set_result (v : Z) : M kst unit :=
  upd_cur (λ p, set_tf (set_eax (u32 v) (p_tf p)) p).

Definition syscall : M kst unit :=
  p ← gets curp;
  let num := i32 (eax (p_tf p)) in
  match syscalls num with
  | Some call => r ← call; set_result r
  | None =>
    incst (cprintf (λ _, p_name p) (Some (line "%d %s: unknown sys call %d")) [p_pid p; 1; num]);;
    set_result (-1)
  end.

(** uart.c: the characters uartgetc returns while the port has data. *)
Definition uartintr (chars : list Z) : M kst unit :=
  s ← gets (λ s, s);
  incst (consoleintr (dump_all (kmem_of s) (k_procs s)) chars).

(** kbd.c, with procdump for the console; [shift] is the state of kbdgetc. *)
Definition kbd_interrupt (shift : Z) (ctrl : list Z) : M kst Z :=
  s ← gets (λ s, s);
  incst (kbdintr (dump_all (kmem_of s) (k_procs s)) shift ctrl).

(** A clock tick: CPU 0 counts and wakes the sleepers. *)
Definition timer_tick (cpu : Z) : M kst unit :=
  if cpu =? 0 then
    acquire LTicks;;
    modify (λ s, set_ticks (u32 (k_ticks s + 1)) s);;
    Proc.wakeup CTicks;;
    release LTicks
  else mret tt.

(** The switch of trap(): an interrupt, or a fault.  The result is the new state of the
    keyboard. *)
Definition device_or_fault (cpu cr2 : Z) (inproc : bool) (shift : Z) (kbd uart : list Z) (tf : trapframe)
  : M kst Z :=
  let no := trapno tf in
  if no =? T_IRQ0 + IRQ_TIMER then timer_tick cpu;; mret shift
  else if no =? T_IRQ0 + IRQ_IDE then mret shift
  else if no =? T_IRQ0 + IRQ_IDE + 1 then mret shift
  else if no =? T_IRQ0 + IRQ_KBD then kbd_interrupt shift kbd
  else if no =? T_IRQ0 + IRQ_COM1 then uartintr uart;; mret shift
  else if (no =? T_IRQ0 + 7) || (no =? T_IRQ0 + IRQ_SPURIOUS) then
    incst (cprintf (λ _, []) (Some (line "cpu%d: spurious interrupt at %x:%x")) [cpu; cs tf; eip tf]);;
    mret shift
  else if negb inproc || (Z.land (cs tf) 3 =? 0) then
    incst (cprintf (λ _, []) (Some (line "unexpected trap %d from cpu %d eip %x (cr2=0x%x)"))
             [no; cpu; eip tf; cr2]);;
    panic "trap"
  else
    p ← gets curp;
    incst (cprintf (λ _, p_name p)
             (Some (line "pid %d %s: trap %d err %d on cpu %d eip 0x%x addr 0x%x--kill proc"))
             [p_pid p; 1; no; err tf; cpu; eip tf; cr2]);;
    upd_cur (set_killed true);;
    mret shift.

(** if(proc && proc->killed && (tf->cs&3) == DPL_USER) exit(); *)
Definition exit_if_killed (inproc : bool) (tf : trapframe) : M kst unit :=
  p ← gets curp;
  if inproc && p_killed p && (Z.land (cs tf) 3 =? DPL_USER) then exit (k_end K) else mret tt.

(** trap().  [inproc] says that there is a current process. *)
Definition trap (cpu cr2 : Z) (inproc : bool) (shift : Z) (kbd uart : list Z) (tf : trapframe) : M kst Z :=
  if trapno tf =? T_SYSCALL then
    p ← gets curp;
    (if p_killed p then exit (k_end K) else mret tt);;
    upd_cur (set_tf tf);;
    syscall;;
    p ← gets curp;
    (if p_killed p then exit (k_end K) else mret tt);;
    mret shift
  else
    shift ← device_or_fault cpu cr2 inproc shift kbd uart tf;
    exit_if_killed inproc tf;;
    p ← gets curp;
    (if inproc && bool_decide (p_state p = RUNNING) && (trapno tf =? T_IRQ0 + IRQ_TIMER)
     then yield else mret tt);;
    exit_if_killed inproc tf;;
    mret shift.
End trap.
