(* ===== verification/Asm.v ===== *)
(** * The assembly files: swtch.S, vectors.S, trapasm.S, usys.S and initcode.S

    A machine has the registers, the segment registers, the flags and the memory of
    an x86; the routines are lists of the instructions of the files.  [exec_code] runs
    such a list up to the instruction that leaves it: a return, a call of C code, a
    software interrupt or the return from one.  What the processor does on a trap is
    [trap_entry].  A segment register is pushed with its upper half zero, one of the
    two ways the processors do it; nothing reads that half. *)

From stdpp Require Import base gmap list strings.
From Stdlib Require Import ZArith Lia.
From S2P Require Import Prelude Params Cstring Vm Kstate Proc Trap.

Inductive reg : Type := EAX | ECX | EDX | EBX | ESP | EBP | ESI | EDI.
Inductive sreg : Type := CS | DS | ES | FS | GS | SS.
#[global] Instance reg_eq_dec : EqDecision reg.
Proof. solve_decision. Defined.
#[global] Instance sreg_eq_dec : EqDecision sreg.
Proof. solve_decision. Defined.

Record machine : Type := Machine {
  regs : reg → Z; sregs : sreg → Z; flags : Z; memory : mem
}.

Definition set_reg (r : reg) (v : Z) (m : machine) : machine :=
  Machine (λ r', if decide (r = r') then v else regs m r') (sregs m) (flags m) (memory m).
Definition set_sreg (r : sreg) (v : Z) (m : machine) : machine :=
  Machine (regs m) (λ r', if decide (r = r') then v else sregs m r') (flags m) (memory m).
Definition set_flags (v : Z) (m : machine) : machine := Machine (regs m) (sregs m) v (memory m).
Definition set_memory (v : mem) (m : machine) : machine := Machine (regs m) (sregs m) (flags m) v.

Definition push (v : Z) (m : machine) : machine :=
  let a := u32 (regs m ESP - 4) in
  set_memory (store32 (memory m) a v) (set_reg ESP a m).
Definition top (m : machine) : Z := load32 (memory m) (regs m ESP).
Definition drop_words (n : Z) (m : machine) : machine := set_reg ESP (u32 (regs m ESP + 4 * n)) m.
Definition pop (r : reg) (m : machine) : machine := set_reg r (top m) (drop_words 1 m).
Definition pop_seg (r : sreg) (m : machine) : machine := set_sreg r (u16 (top m)) (drop_words 1 m).

Definition pushes (vs : list Z) (m : machine) : machine := fold_left (λ m v, push v m) vs m.

(** ** Instructions *)

Inductive instr : Type :=
  | movl_load (off : Z) (base dst : reg)   (** movl off(%base), %dst *)
  | movl_store (src base : reg)            (** movl %src, (%base) *)
  | movl (src dst : reg)
  | movl_imm (v : Z) (dst : reg)
  | movw_ax (v : Z)                        (** movw $v, %ax *)
  | movw_seg (dst : sreg)                  (** movw %ax, %dst *)
  | pushl (r : reg) | pushl_imm (v : Z) | pushl_seg (r : sreg) | pushal
  | popl (r : reg) | popl_seg (r : sreg) | popal
  | addl_esp (v : Z)
  | ret | iret | int (n : Z) | call (f : string) | jmp (l : string).

Definition gprs : list reg := [EAX; ECX; EDX; EBX; ESP; EBP; ESI; EDI].

(** The instructions that go on with the next one. *)
Definition step (i : instr) (m : machine) : machine :=
  match i with
  | movl_load off base dst => set_reg dst (load32 (memory m) (u32 (regs m base + off))) m
  | movl_store src base => set_memory (store32 (memory m) (regs m base) (regs m src)) m
  | movl src dst => set_reg dst (regs m src) m
  | movl_imm v dst => set_reg dst (u32 v) m
  | movw_ax v => set_reg EAX (Z.lor (Z.land (regs m EAX) 0xffff0000) (u16 v)) m
  | movw_seg dst => set_sreg dst (u16 (regs m EAX)) m
  | pushl r => push (regs m r) m
  | pushl_imm v => push (u32 v) m
  | pushl_seg r => push (sregs m r) m
  | pushal => pushes (regs m <$> gprs) m
  | popl r => pop r m
  | popl_seg r => pop_seg r m
  | popal => pop EAX (pop ECX (pop EDX (pop EBX (drop_words 1 (pop EBP (pop ESI (pop EDI m)))))))
  | addl_esp v => set_reg ESP (u32 (regs m ESP + v)) m
  | _ => m
  end.

(** How a list of instructions is left. *)
Inductive stop : Type :=
  | Returns (eip : Z) (m : machine)                       (** ret, iret *)
  | Calls (f : string) (rest : list instr) (m : machine)  (** call, the return address pushed *)
  | Jumps (l : string) (m : machine)
  | Interrupts (n : Z) (rest : list instr) (m : machine)
  | Ends (m : machine).                                   (** falls through to what follows *)

(** The code segment selects the privilege level. *)
Definition cpl (s : Z) : Z := Z.land s 3.

(** iret pops the stack pointer and segment when it leaves for a less privileged level. *)
Definition do_iret (m : machine) : stop :=
  let eip' := top m in
  let cs' := u16 (load32 (memory m) (regs m ESP + 4)) in
  let flags' := load32 (memory m) (regs m ESP + 8) in
  let esp' := load32 (memory m) (regs m ESP + 12) in
  let ss' := u16 (load32 (memory m) (regs m ESP + 16)) in
  let m' := set_flags flags' (set_sreg CS cs' (drop_words 3 m)) in
  Returns eip' (if cpl (sregs m CS) <? cpl cs' then set_sreg SS ss' (set_reg ESP esp' m') else m').

Section exec.
(** The address of a rest of the code. *)
Context (addr : list instr → Z).

Fixpoint exec_code (code : list instr) (m : machine) : stop :=
  match code with
  | [] => Ends m
  | ret :: _ => Returns (top m) (drop_words 1 m)
  | iret :: _ => do_iret m
  | int n :: rest => Interrupts n rest m
  | call f :: rest => Calls f rest (push (u32 (addr rest)) m)
  | jmp l :: _ => Jumps l m
  | i :: rest => exec_code rest (step i m)
  end.
End exec.

(** The processor takes trap or interrupt [n] with [next] the address to return to: on a
    change of level it takes the stack from the task state, [ss0] and [esp0].  Some
    exceptions push an error code; an interrupt gate clears FL_IF. *)
Definition has_error (n : Z) : bool := (n =? 8) || ((10 <=? n) && (n <=? 14)) || (n =? 17).

Definition trap_entry (ss0 esp0 kcs : Z) (intgate : bool) (n err next : Z) (m : machine) : machine :=
  let m1 := if cpl (sregs m CS) =? 0 then m
            else pushes [sregs m SS; regs m ESP] (set_sreg SS ss0 (set_reg ESP esp0 m)) in
  let m2 := pushes ([flags m; sregs m CS; next] ++ (if has_error n then [err] else [])) m1 in
  set_sreg CS kcs (if intgate then set_flags (Z.land (flags m) (Z.lnot FL_IF)) m2 else m2).

(** struct trapframe and struct context in memory *)
Definition get_tf (m : mem) (a : Z) : trapframe :=
  let w o := load32 m (a + o) in
  Trapframe (w 0) (w 4) (w 8) (w 16) (w 20) (w 24) (w 28) (u16 (w 32)) (u16 (w 36)) (u16 (w 40)) (u16 (w 44))
    (w 48) (w 52) (w 56) (u16 (w 60)) (w 64) (w 68) (u16 (w 72)).

Record context : Type := Context { c_edi : Z; c_esi : Z; c_ebx : Z; c_ebp : Z; c_eip : Z }.
Definition get_context (m : mem) (a : Z) : context :=
  Context (load32 m a) (load32 m (a + 4)) (load32 m (a + 8)) (load32 m (a + 12)) (load32 m (a + 16)).

(** ** The routines *)

Definition SEG_KCPU : Z := 3.

(** swtch.S *)
Definition swtch : list instr :=
  [movl_load 4 ESP EAX; movl_load 8 ESP EDX;
   pushl EBP; pushl EBX; pushl ESI; pushl EDI;
   movl_store ESP EAX; movl EDX ESP;
   popl EDI; popl ESI; popl EBX; popl EBP;
   ret].

(** vectors.S, from vectors.pl: 256 entry points. *)
Definition vector (n : Z) : list instr :=
  (if negb ((n =? 8) || ((10 <=? n) && (n <=? 14)) || (n =? 17)) then [pushl_imm 0] else []) ++
  [pushl_imm n; jmp "alltraps"].

(** trapasm.S *)
Definition trapret : list instr :=
  [popal; popl_seg GS; popl_seg FS; popl_seg ES; popl_seg DS; addl_esp 8; iret].

Definition alltraps : list instr :=
  [pushl_seg DS; pushl_seg ES; pushl_seg FS; pushl_seg GS; pushal;
   movw_ax (Z.shiftl SEG_KDATA 3); movw_seg DS; movw_seg ES;
   movw_ax (Z.shiftl SEG_KCPU 3); movw_seg FS; movw_seg GS;
   pushl ESP; call "trap"; addl_esp 4] ++ trapret.

(** syscall.h *)
Inductive sysname : Type :=
  | SYS_fork | SYS_exit | SYS_wait | SYS_pipe | SYS_read | SYS_kill | SYS_exec | SYS_fstat | SYS_chdir
  | SYS_dup | SYS_getpid | SYS_sbrk | SYS_sleep | SYS_uptime | SYS_open | SYS_write | SYS_mknod
  | SYS_unlink | SYS_link | SYS_mkdir | SYS_close.

Definition sysnum (n : sysname) : Z :=
  match n with
  | SYS_fork => 1 | SYS_exit => 2 | SYS_wait => 3 | SYS_pipe => 4 | SYS_read => 5 | SYS_kill => 6
  | SYS_exec => 7 | SYS_fstat => 8 | SYS_chdir => 9 | SYS_dup => 10 | SYS_getpid => 11 | SYS_sbrk => 12
  | SYS_sleep => 13 | SYS_uptime => 14 | SYS_open => 15 | SYS_write => 16 | SYS_mknod => 17
  | SYS_unlink => 18 | SYS_link => 19 | SYS_mkdir => 20 | SYS_close => 21
  end.

(** usys.S: the body of the macro SYSCALL, and the calls it is used for. *)
Definition SYSCALL (n : sysname) : list instr := [movl_imm (sysnum n) EAX; int T_SYSCALL; ret].

Definition usys : list sysname :=
  [SYS_fork; SYS_exit; SYS_wait; SYS_pipe; SYS_read; SYS_write; SYS_close; SYS_kill; SYS_exec; SYS_open;
   SYS_mknod; SYS_unlink; SYS_fstat; SYS_link; SYS_mkdir; SYS_chdir; SYS_dup; SYS_getpid; SYS_sbrk;
   SYS_sleep; SYS_uptime].

(** initcode.S; [init] and [argv] are the addresses of its data. *)
Section initcode.
Context (init argv : Z).

Definition initcode_exit : list instr := [movl_imm (sysnum SYS_exit) EAX; int T_SYSCALL; jmp "exit"].

Definition initcode_start : list instr :=
  [pushl_imm argv; pushl_imm init; pushl_imm 0; movl_imm (sysnum SYS_exec) EAX; int T_SYSCALL] ++ initcode_exit.

Definition init_string : list Z := chars "/init" ++ [0; 0].
Definition init_argv : list Z := [init; 0].
End initcode.
