(* ===== verification/AsmSpec.v ===== *)
(** * What the assembly routines do

    A trap from user space reaches trap() with the frame that describes the interrupted
    program, and trapret resumes the program a frame describes; swtch saves a context
    and resumes another, and a process of allocproc starts in forkret.  The last part is
    about types: every routine keeps the machine's values in their widths. *)

From stdpp Require Import base gmap list strings.
From Stdlib Require Import ZArith Lia.
From S2P Require Import Prelude Params Kmonad Cstring Console Kalloc Vm Bio Log Fs Kstate Proc ProcSpec ProcExit Trap Asm.

(** ** The stack *)

(** The part of the machine that pushes and pops concern. *)
Definition stack (m : machine) : Z * mem := (regs m ESP, memory m).
Definition spush (v : Z) (s : Z * mem) : Z * mem := (u32 (s.1 - 4), store32 s.2 (u32 (s.1 - 4)) v).
Definition spushes (vs : list Z) (s : Z * mem) : Z * mem := fold_left (λ s v, spush v s) vs s.

Lemma spushes_esp vs : ∀ s, 4 * Z.of_nat (length vs) ≤ s.1 < 2 ^ 32 →
  (spushes vs s).1 = s.1 - 4 * Z.of_nat (length vs).
Proof.
  induction vs as [|v vs IH]; intros [e m] H; [simpl; lia|]. cbn [spushes fold_left length fst] in *.
  change (fold_left _ vs ?x) with (spushes vs x). assert (E : u32 (e - 4) = e - 4) by (apply u32_small; lia).
  rewrite IH; unfold spush; cbn [fst]; rewrite E; lia.
Qed.

Lemma spushes_rd vs a : ∀ s, 4 * Z.of_nat (length vs) ≤ s.1 < 2 ^ 32 →
  ¬ (s.1 - 4 * Z.of_nat (length vs) ≤ a < s.1) → rd (spushes vs s).2 a = rd s.2 a.
Proof.
  induction vs as [|v vs IH]; intros [e m] H Ha; [done|]. cbn [spushes fold_left length fst] in *.
  change (fold_left _ vs ?x) with (spushes vs x). assert (E : u32 (e - 4) = e - 4) by (apply u32_small; lia).
  rewrite IH; unfold spush; cbn [fst snd]; rewrite E; try lia. apply rd_store32_out. lia.
Qed.

Lemma spushes_other vs a s : 4 * Z.of_nat (length vs) ≤ s.1 < 2 ^ 32 →
  a + 4 ≤ s.1 - 4 * Z.of_nat (length vs) ∨ s.1 ≤ a → load32 (spushes vs s).2 a = load32 s.2 a.
Proof. intros H Ha. apply load32_ext. intros i Hi. apply spushes_rd; [done|lia]. Qed.

Lemma spushes_load vs i v s : vs !! i = Some v → 0 ≤ v < 2 ^ 32 → 4 * Z.of_nat (length vs) ≤ s.1 < 2 ^ 32 →
  load32 (spushes vs s).2 (s.1 - 4 * (Z.of_nat i + 1)) = v.
Proof.
  intros E Hv H. pose proof (lookup_lt_Some _ _ _ E) as Hi.
  pose proof (take_drop_middle vs i v E) as Ev.
  assert (El : length (take i vs) = i) by (rewrite length_take; lia).
  rewrite <- Ev in H |- *. revert El H. generalize (take i vs) (drop (S i) vs). clear E Ev Hi.
  intros l1 l2 <- H.
  rewrite length_app in H. cbn [length] in H. unfold spushes. rewrite fold_left_app. cbn [fold_left].
  change (fold_left _ l1 s) with (spushes l1 s). change (fold_left _ l2 ?x) with (spushes l2 x).
  pose proof (spushes_esp l1 s ltac:(lia)) as E1.
  assert (E2 : u32 ((spushes l1 s).1 - 4) = s.1 - 4 * (Z.of_nat (length l1) + 1)) by (rewrite E1, u32_small; lia).
  rewrite spushes_other; unfold spush; cbn [fst snd]; rewrite E2; [|lia|lia]. by apply load32_store32_eq.
Qed.

(** ** Traps *)

Lemma movw_low x v : u16 (Z.lor (Z.land x 0xffff0000) (u16 v)) = u16 v.
Proof.
  unfold u16, wrap. rewrite <- !Z.land_ones by lia. apply Z.bits_inj'. intros i Hi.
  rewrite !Z.land_spec, Z.lor_spec, !Z.land_spec. destruct (decide (i < 16)).
  - rewrite Z.ones_spec_low by lia. replace (Z.testbit 0xffff0000 i) with false; [by rewrite !andb_false_r, !andb_true_r|].
    change 0xffff0000 with (Z.shiftl 65535 16). by rewrite Z.shiftl_spec_low by lia.
  - rewrite Z.ones_spec_high by lia. by rewrite !andb_false_r.
Qed.

Record machine_ok (m : machine) : Prop := MachineOk {
  mo_regs : ∀ r, 0 ≤ regs m r < 2 ^ 32;
  mo_sregs : ∀ r, 0 ≤ sregs m r < 2 ^ 16;
  mo_flags : 0 ≤ flags m < 2 ^ 32
}.

(** The frame of a program interrupted by trap [n]. *)
Definition frame_of (n err next : Z) (m : machine) : trapframe :=
  Trapframe (regs m EDI) (regs m ESI) (regs m EBP) (regs m EBX) (regs m EDX) (regs m ECX) (regs m EAX)
    (sregs m GS) (sregs m FS) (sregs m ES) (sregs m DS) n (if has_error n then err else 0) next
    (sregs m CS) (flags m) (regs m ESP) (sregs m SS).

(** A machine, about to run at [next], as a frame without a trap, and a frame without its trap. *)
Definition seen (next : Z) (m : machine) : trapframe :=
  Trapframe (regs m EDI) (regs m ESI) (regs m EBP) (regs m EBX) (regs m EDX) (regs m ECX) (regs m EAX)
    (sregs m GS) (sregs m FS) (sregs m ES) (sregs m DS) 0 0 next (sregs m CS) (flags m) (regs m ESP) (sregs m SS).
Definition resume_of (t : trapframe) : trapframe :=
  Trapframe (edi t) (esi t) (ebp t) (ebx t) (edx t) (ecx t) (eax t) (gs t) (fs t) (es t) (ds t) 0 0
    (eip t) (cs t) (eflags t) (esp t) (ss t).

Section trap.
Context (addr : list instr → Z) (ss0 esp0 kcs : Z) (intgate : bool) (n err next : Z) (m : machine).
Hypotheses (Hm : machine_ok m) (Hu : cpl (sregs m CS) = 3) (Hn : 0 ≤ n < 256).
Hypotheses (Herr : 0 ≤ err < 2 ^ 32) (Hnext : 0 ≤ next < 2 ^ 32) (Hesp : 84 ≤ esp0 < 2 ^ 32).

Let tf : Z := esp0 - 76.
Let after_call : list instr := addl_esp 4 :: trapret.
Let s0 : Z * mem := (esp0, memory m).
Let ws1 : list Z :=
  [sregs m SS; regs m ESP; flags m; sregs m CS; next; if has_error n then err else 0; u32 n;
   sregs m DS; sregs m ES; sregs m FS; sregs m GS].
Let ws2 : list Z :=
  ws1 ++ [regs m EAX; regs m ECX; regs m EDX; regs m EBX; (spushes ws1 s0).1; regs m EBP; regs m ESI; regs m EDI].
Let ws3 : list Z := ws2 ++ [(spushes ws2 s0).1; u32 (addr after_call)].

#[local] Opaque store32 u32 u16.

(** The path from the program to the call of trap(). *)
Lemma trap_path : ∃ m2 m3,
  exec_code addr (vector n) (trap_entry ss0 esp0 kcs intgate n err next m) = Jumps "alltraps" m2 ∧
  exec_code addr alltraps m2 = Calls "trap" after_call m3 ∧
  stack m3 = spushes ws3 s0 ∧ sregs m3 CS = kcs ∧ sregs m3 SS = ss0 ∧
  (∀ r, r = DS ∨ r = ES → sregs m3 r = 16) ∧ (∀ r, r = FS ∨ r = GS → sregs m3 r = 24) ∧
  flags m3 = (if intgate then Z.land (flags m) (Z.lnot FL_IF) else flags m).
Proof.
  unfold vector, trap_entry. rewrite Hu. change (3 =? 0) with false. unfold ws3, ws2, ws1. unfold has_error.
  destruct ((n =? 8) || (10 <=? n) && (n <=? 14) || (n =? 17)) eqn:Ee; cbn [negb app].
  all: destruct intgate; eexists _, _; (split; [reflexivity|]); (split; [reflexivity|]).
  all: split_and!; [reflexivity|reflexivity|reflexivity|intros r [->| ->]|intros r [->| ->]|reflexivity].
  all: apply movw_low.
Qed.

Local Lemma ws_ok i v : ws3 !! i = Some v → 0 ≤ v < 2 ^ 32.
Proof.
  assert (Hs : ∀ r, 0 ≤ sregs m r < 2 ^ 32) by (intros r; pose proof (mo_sregs _ Hm r); lia).
  assert (He : 0 ≤ (if has_error n then err else 0) < 2 ^ 32) by (destruct (has_error n); lia).
  intros E%list_elem_of_lookup_2. revert v E. rewrite <- Forall_forall.
  unfold ws3, ws2, ws1. cbn [app].
  repeat (apply Forall_cons; split); try apply Hm; try apply Hs; try apply u32_range; try lia; [..|constructor].
  all: rewrite spushes_esp; cbn [s0 fst length]; lia.
Qed.

(** The word pushed as number [i]. *)
Local Lemma word_at m3 i v : stack m3 = spushes ws3 s0 → ws3 !! i = Some v →
  load32 (memory m3) (esp0 - 4 * (Z.of_nat i + 1)) = v.
Proof.
  intros Es E. change (memory m3) with (stack m3).2. rewrite Es.
  apply (spushes_load ws3 i v s0 E (ws_ok i v E)). cbn [s0 fst length ws3 ws2 ws1 app]. lia.
Qed.

Lemma trap_frame_run : ∃ m2 m3,
  exec_code addr (vector n) (trap_entry ss0 esp0 kcs intgate n err next m) = Jumps "alltraps" m2 ∧
  exec_code addr alltraps m2 = Calls "trap" after_call m3 ∧
  regs m3 ESP = tf - 8 ∧ load32 (memory m3) (tf - 8) = u32 (addr after_call) ∧ load32 (memory m3) (tf - 4) = tf ∧
  get_tf (memory m3) tf = frame_of n err next m ∧ (∀ a, ¬ (tf - 8 ≤ a < esp0) → rd (memory m3) a = rd (memory m) a) ∧
  sregs m3 CS = kcs ∧ sregs m3 SS = ss0 ∧
  (∀ r, r = DS ∨ r = ES → sregs m3 r = 16) ∧ (∀ r, r = FS ∨ r = GS → sregs m3 r = 24) ∧
  flags m3 = (if intgate then Z.land (flags m) (Z.lnot FL_IF) else flags m).
Proof.
  destruct trap_path as (m2 & m3 & E1 & E2 & Es & R). exists m2, m3.
  pose proof (λ i v, word_at m3 i v Es) as W.
  assert (Hl : 4 * Z.of_nat (length ws3) ≤ s0.1 < 2 ^ 32) by (cbn [s0 fst length ws3 ws2 ws1 app]; lia).
  refine (conj E1 (conj E2 (conj _ (conj _ (conj _ (conj _ (conj _ R))))))).
  - change (regs m3 ESP) with (stack m3).1. rewrite Es, spushes_esp by done. unfold tf. cbn [s0 fst length ws3 ws2 ws1 app]. lia.
  - replace (tf - 8) with (esp0 - 4 * (Z.of_nat 20 + 1)) by (unfold tf; lia). by apply W.
  - replace (tf - 4) with (esp0 - 4 * (Z.of_nat 19 + 1)) by (unfold tf; lia). rewrite (W 19%nat _ eq_refl).
    rewrite spushes_esp; cbn [s0 fst length ws2 ws1 app]; unfold tf; lia.
  - assert (T : ∀ i v, ws3 !! i = Some v → load32 (memory m3) (tf + (72 - 4 * Z.of_nat i)) = v).
    { intros i v E. rewrite <- (W i v E). f_equal. unfold tf. lia. }
    assert (S : ∀ r, u16 (sregs m r) = sregs m r) by (intros r; apply u16_small, Hm).
    unfold get_tf, frame_of. f_equal; first [exact (T 18%nat _ eq_refl)|exact (T 17%nat _ eq_refl)|exact (T 16%nat _ eq_refl)
      |exact (T 14%nat _ eq_refl)|exact (T 13%nat _ eq_refl)|exact (T 12%nat _ eq_refl)|exact (T 11%nat _ eq_refl)
      |exact (eq_trans (f_equal u16 (T 10%nat _ eq_refl)) (S GS))|exact (eq_trans (f_equal u16 (T 9%nat _ eq_refl)) (S FS))
      |exact (eq_trans (f_equal u16 (T 8%nat _ eq_refl)) (S ES))|exact (eq_trans (f_equal u16 (T 7%nat _ eq_refl)) (S DS))
      |exact (eq_trans (T 6%nat _ eq_refl) (u32_small n ltac:(lia)))|exact (T 5%nat _ eq_refl)|exact (T 4%nat _ eq_refl)
      |exact (eq_trans (f_equal u16 (T 3%nat _ eq_refl)) (S CS))|exact (T 2%nat _ eq_refl)|exact (T 1%nat _ eq_refl)
      |exact (eq_trans (f_equal u16 (T 0%nat _ eq_refl)) (S SS))].
  - intros a Ha. change (memory m3) with (stack m3).2. rewrite Es.
    rewrite spushes_rd; [done|done|]. cbn [s0 fst length ws3 ws2 ws1 app]. unfold tf in Ha. lia.
Qed.
End trap.

#[local] Opaque store32 u32 u16 load32.

(** The machine before iret. *)
Definition popped (m : machine) : machine :=
  step (addl_esp 8) (step (popl_seg DS) (step (popl_seg ES) (step (popl_seg FS) (step (popl_seg GS)
    (step popal m))))).

Section popped.
Context (m : machine) (tf : Z).
Hypotheses (He : regs m ESP = tf) (H4 : 0 ≤ tf) (Hmax : tf + 76 < 2 ^ 32).

(** The machine after each pop. *)
Let m1 := pop EDI m.
Let m2 := pop ESI m1.
Let m3 := pop EBP m2.
Let m4 := drop_words 1 m3.
Let m5 := pop EBX m4.
Let m6 := pop EDX m5.
Let m7 := pop ECX m6.
Let m8 := pop EAX m7.
Let m9 := pop_seg GS m8.
Let m10 := pop_seg FS m9.
Let m11 := pop_seg ES m10.
Let m12 := pop_seg DS m11.

Local Lemma next_esp x i : 0 ≤ i ≤ 72 → regs x ESP = tf + i → u32 (regs x ESP + 4 * 1) = tf + (i + 4).
Proof. intros Hi ->. rewrite u32_small; lia. Qed.

Local Lemma popped_regs : let t := get_tf (memory m) tf in regs (popped m) ESP = tf + 56 ∧
  regs (popped m) EDI = edi t ∧ regs (popped m) ESI = esi t ∧ regs (popped m) EBP = ebp t ∧
  regs (popped m) EBX = ebx t ∧ regs (popped m) EDX = edx t ∧ regs (popped m) ECX = ecx t ∧
  regs (popped m) EAX = eax t ∧ sregs (popped m) GS = gs t ∧ sregs (popped m) FS = fs t ∧
  sregs (popped m) ES = es t ∧ sregs (popped m) DS = ds t ∧ memory (popped m) = memory m ∧
  sregs (popped m) CS = sregs m CS.
Proof.
  intros t. assert (E0 : regs m ESP = tf + 0) by lia.
  pose proof (next_esp m 0 ltac:(lia) E0 : regs m1 ESP = tf + 4) as E1.
  pose proof (next_esp m1 4 ltac:(lia) E1 : regs m2 ESP = tf + 8) as E2.
  pose proof (next_esp m2 8 ltac:(lia) E2 : regs m3 ESP = tf + 12) as E3.
  pose proof (next_esp m3 12 ltac:(lia) E3 : regs m4 ESP = tf + 16) as E4.
  pose proof (next_esp m4 16 ltac:(lia) E4 : regs m5 ESP = tf + 20) as E5.
  pose proof (next_esp m5 20 ltac:(lia) E5 : regs m6 ESP = tf + 24) as E6.
  pose proof (next_esp m6 24 ltac:(lia) E6 : regs m7 ESP = tf + 28) as E7.
  pose proof (next_esp m7 28 ltac:(lia) E7 : regs m8 ESP = tf + 32) as E8.
  pose proof (next_esp m8 32 ltac:(lia) E8 : regs m9 ESP = tf + 36) as E9.
  pose proof (next_esp m9 36 ltac:(lia) E9 : regs m10 ESP = tf + 40) as E10.
  pose proof (next_esp m10 40 ltac:(lia) E10 : regs m11 ESP = tf + 44) as E11.
  pose proof (next_esp m11 44 ltac:(lia) E11 : regs m12 ESP = tf + 48) as E12.
  pose (L := load32 (memory m)). split_and!; try reflexivity.
  - change (regs (popped m) ESP) with (u32 (regs m12 ESP + 8)). rewrite E12, u32_small; lia.
  - exact (f_equal L E0).
  - exact (f_equal L E1).
  - exact (f_equal L E2).
  - exact (f_equal L E4).
  - exact (f_equal L E5).
  - exact (f_equal L E6).
  - exact (f_equal L E7).
  - exact (f_equal (u16 ∘ L) E8).
  - exact (f_equal (u16 ∘ L) E9).
  - exact (f_equal (u16 ∘ L) E10).
  - exact (f_equal (u16 ∘ L) E11).
Qed.
End popped.

Lemma trapret_code addr m : exec_code addr trapret m = do_iret (popped m).
Proof. reflexivity. Qed.

(** iret to user space. *)
Lemma iret_user m : let M := memory m in let a := regs m ESP in
  cpl (sregs m CS) = 0 → cpl (u16 (load32 M (a + 4))) = 3 →
  ∃ m', do_iret m = Returns (load32 M a) m' ∧ memory m' = memory m ∧
    seen (load32 M a) m' = Trapframe (regs m EDI) (regs m ESI) (regs m EBP) (regs m EBX) (regs m EDX) (regs m ECX)
      (regs m EAX) (sregs m GS) (sregs m FS) (sregs m ES) (sregs m DS) 0 0 (load32 M a) (u16 (load32 M (a + 4)))
      (load32 M (a + 8)) (load32 M (a + 12)) (u16 (load32 M (a + 16))).
Proof.
  intros M a Hk Hc. unfold do_iret. fold M. fold a. rewrite Hk, Hc. change (0 <? 3) with true. cbv iota.
  eexists. split; [reflexivity|]. by split.
Qed.

(** trapret resumes the program of the frame. *)
Lemma trapret_run addr m tf : let t := get_tf (memory m) tf in
  regs m ESP = tf → 0 ≤ tf → tf + 76 < 2 ^ 32 → cpl (sregs m CS) = 0 → cpl (cs t) = 3 →
  ∃ m', exec_code addr trapret m = Returns (eip t) m' ∧ seen (eip t) m' = resume_of t ∧ memory m' = memory m.
Proof.
  intros t He H4 Hmax Hk Hc.
  destruct (popped_regs m tf He H4 Hmax) as (E0 & E1 & E2 & E3 & E4 & E5 & E6 & E7 & E8 & E9 & E10 & E11 & E12 & E13).
  fold t in E1, E2, E3, E4, E5, E6, E7, E8, E9, E10, E11. rewrite trapret_code.
  destruct (iret_user (popped m)) as (m' & Er & Em & Es); rewrite ?E0, ?E12, ?E13 in *; [done| |].
  { replace (tf + 56 + 4) with (tf + 60) by lia. exact Hc. }
  exists m'. split_and!; [exact Er| |exact Em]. etrans; [exact Es|].
  rewrite E1, E2, E3, E4, E5, E6, E7, E8, E9, E10, E11.
  replace (tf + 56 + 4) with (tf + 60) by lia. replace (tf + 56 + 8) with (tf + 64) by lia.
  replace (tf + 56 + 12) with (tf + 68) by lia. replace (tf + 56 + 16) with (tf + 72) by lia. reflexivity.
Qed.

(** The code behind the call of trap(). *)
Lemma after_trap_run addr m tf : let t := get_tf (memory m) tf in
  regs m ESP = tf - 4 → 4 ≤ tf → tf + 76 < 2 ^ 32 → cpl (sregs m CS) = 0 → cpl (cs t) = 3 →
  ∃ m', exec_code addr (addl_esp 4 :: trapret) m = Returns (eip t) m' ∧ seen (eip t) m' = resume_of t ∧
    memory m' = memory m.
Proof.
  intros t He H4 Hmax Hk Hc. apply (trapret_run addr (step (addl_esp 4) m) tf); try done; [|lia].
  change (u32 (regs m ESP + 4) = tf). rewrite He, u32_small; lia.
Qed.

(** ** Context switches *)

(** The registers a context is loaded into, and what the C code may rely on. *)
Record resumed (c : context) (sp : Z) (m : machine) : Prop := Resumed {
  rs_edi : regs m EDI = c_edi c; rs_esi : regs m ESI = c_esi c;
  rs_ebx : regs m EBX = c_ebx c; rs_ebp : regs m EBP = c_ebp c; rs_esp : regs m ESP = sp
}.

Lemma restore_run addr x a : regs x ESP = a → 0 ≤ a → a + 20 < 2 ^ 32 → let c := get_context (memory x) a in
  ∃ x', exec_code addr [popl EDI; popl ESI; popl EBX; popl EBP; ret] x = Returns (c_eip c) x' ∧
    resumed c (a + 20) x' ∧ memory x' = memory x ∧ sregs x' = sregs x ∧ flags x' = flags x.
Proof.
  intros E0 H0 Hmax c. set (x1 := pop EDI x). set (x2 := pop ESI x1). set (x3 := pop EBX x2). set (x4 := pop EBP x3).
  assert (Hn : ∀ e i, e = a + i → 0 ≤ i ≤ 16 → u32 (e + 4 * 1) = a + (i + 4)) by (intros e i -> Hi; rewrite u32_small; lia).
  pose proof (Hn (regs x ESP) 0 ltac:(lia) ltac:(lia) : regs x1 ESP = a + 4) as E1.
  pose proof (Hn _ 4 E1 ltac:(lia) : regs x2 ESP = a + 8) as E2.
  pose proof (Hn _ 8 E2 ltac:(lia) : regs x3 ESP = a + 12) as E3.
  pose proof (Hn _ 12 E3 ltac:(lia) : regs x4 ESP = a + 16) as E4.
  pose (L := load32 (memory x)). exists (drop_words 1 x4). split_and!; try reflexivity.
  - change (Returns (L (regs x4 ESP)) (drop_words 1 x4) = Returns (c_eip c) (drop_words 1 x4)). by rewrite E4.
  - split; [exact (f_equal L E0)|exact (f_equal L E1)|exact (f_equal L E2)|exact (f_equal L E3)|].
    exact (Hn _ 16 E4 ltac:(lia)).
Qed.

(** No byte of [a, a + n) is one of [b, b + k). *)
Definition apart (a n b k : Z) : Prop := a + n ≤ b ∨ b + k ≤ a.

(** The machine of swtch when it has saved the registers. *)
Definition saved (m : machine) : machine :=
  step (movl_store ESP EAX) (step (pushl EDI) (step (pushl ESI) (step (pushl EBX) (step (pushl EBP)
    (step (movl_load 8 ESP EDX) (step (movl_load 4 ESP EAX) m)))))).

Lemma get_context_ext m m' a : (∀ b, a ≤ b < a + 20 → rd m' b = rd m b) → get_context m' a = get_context m a.
Proof. intros H. unfold get_context. f_equal; apply load32_ext; intros i Hi; apply H; lia. Qed.

Lemma swtch_code addr m : exec_code addr swtch m =
  exec_code addr [popl EDI; popl ESI; popl EBX; popl EBP; ret] (step (movl EDX ESP) (saved m)).
Proof. reflexivity. Qed.

Lemma switched x : regs (step (movl EDX ESP) x) ESP = regs x EDX ∧ memory (step (movl EDX ESP) x) = memory x ∧
  sregs (step (movl EDX ESP) x) = sregs x ∧ flags (step (movl EDX ESP) x) = flags x.
Proof. by split_and!. Qed.

Section swtch.
Context (addr : list instr → Z) (m : machine).
Let s : Z := regs m ESP.
Let old : Z := load32 (memory m) (s + 4).
Let new : Z := load32 (memory m) (s + 8).
Hypotheses (Hm : machine_ok m) (Hs : 16 ≤ s) (Hs' : s + 12 ≤ 2 ^ 32) (Hnew : new + 20 < 2 ^ 32).
Hypotheses (Ho : apart old 4 (s - 16) 20).

Let sm : Z * mem := spushes [regs m EBP; regs m EBX; regs m ESI; regs m EDI] (s, memory m).

Local Lemma saved_state : regs (saved m) EDX = new ∧ regs (saved m) ESP = s - 16 ∧
  memory (saved m) = store32 sm.2 old (s - 16) ∧ sregs (saved m) = sregs m ∧ flags (saved m) = flags m.
Proof.
  assert (Eo : u32 (regs m ESP + 4) = s + 4) by (rewrite u32_small; fold s; lia).
  assert (En : u32 (regs m ESP + 8) = s + 8) by (rewrite u32_small; fold s; lia).
  assert (Es : sm.1 = s - 16) by (unfold sm; rewrite spushes_esp; cbn [fst length]; lia).
  assert (Eold : load32 (memory m) (u32 (regs m ESP + 4)) = old) by (by rewrite Eo).
  split_and!; [..|reflexivity|reflexivity].
  - change (regs (saved m) EDX) with (load32 (memory m) (u32 (regs m ESP + 8))). by rewrite En.
  - exact Es.
  - change (memory (saved m)) with (store32 sm.2 (load32 (memory m) (u32 (regs m ESP + 4))) sm.1).
    by rewrite Eold, Es.
Qed.

Lemma swtch_run : apart new 20 (s - 16) 16 → apart new 20 old 4 → 0 ≤ new →
  let c := get_context (memory m) new in
  ∃ m', exec_code addr swtch m = Returns (c_eip c) m' ∧ resumed c (new + 20) m' ∧
    get_context (memory m') (s - 16) =
      Context (regs m EDI) (regs m ESI) (regs m EBX) (regs m EBP) (load32 (memory m) s) ∧
    load32 (memory m') old = s - 16 ∧ sregs m' = sregs m ∧ flags m' = flags m ∧
    ∀ a, ¬ (s - 16 ≤ a < s) → ¬ (old ≤ a < old + 4) → rd (memory m') a = rd (memory m) a.
Proof.
  intros Hn1 Hn2 Hn0 c. destruct saved_state as (E1 & E2 & E3 & E4 & E5).
  assert (Hr : ∀ a, ¬ (s - 16 ≤ a < s) → ¬ (old ≤ a < old + 4) → rd (memory (saved m)) a = rd (memory m) a).
  { intros a Ha Hb. rewrite E3, rd_store32_out by done. unfold sm. rewrite spushes_rd; cbn [fst snd length]; [done|lia|lia]. }
  assert (Hc : get_context (memory (saved m)) new = c).
  { apply get_context_ext. intros b Hb. apply Hr; unfold apart in *; lia. }
  assert (Ex : ∃ y, exec_code addr swtch m = exec_code addr [popl EDI; popl ESI; popl EBX; popl EBP; ret] y ∧
    regs y ESP = new ∧ memory y = memory (saved m) ∧ sregs y = sregs m ∧ flags y = flags m).
  { exists (step (movl EDX ESP) (saved m)). split; [apply swtch_code|]. destruct (switched (saved m)) as (-> & -> & -> & ->). by split_and!. }
  destruct Ex as (y & Ex & Ey & Ym & Ys & Yf).
  destruct (restore_run addr y new Ey Hn0 Hnew) as (m' & Er & Rs & Em & Sg & Fl).
  rewrite Ym, Hc in Er, Rs. rewrite <- Ex in Er. exists m'. rewrite Em, Ym. split_and!; [exact Er|exact Rs| | |by rewrite Sg, Ys|by rewrite Fl, Yf|exact Hr].
  - assert (W : ∀ i v, [regs m EBP; regs m EBX; regs m ESI; regs m EDI] !! i = Some v →
      load32 (memory (saved m)) (s - 16 + (12 - 4 * Z.of_nat i)) = v).
    { intros i v Ei. pose proof (lookup_lt_Some _ _ _ Ei) as Hi. cbn [length] in Hi.
      rewrite E3, load32_store32_ne by (unfold apart in Ho; lia).
      replace (s - 16 + (12 - 4 * Z.of_nat i)) with ((s, memory m).1 - 4 * (Z.of_nat i + 1)) by (cbn [fst]; lia).
      apply (spushes_load _ i v _ Ei); [|cbn [fst length]; lia].
      apply list_elem_of_lookup_2 in Ei. revert v Ei. rewrite <- Forall_forall. repeat constructor; apply Hm. }
    unfold get_context. f_equal.
    + replace (s - 16) with (s - 16 + (12 - 4 * Z.of_nat 3)) by lia. by apply W.
    + exact (W 2%nat _ eq_refl).
    + exact (W 1%nat _ eq_refl).
    + exact (W 0%nat _ eq_refl).
    + replace (s - 16 + 16) with s by lia. apply load32_ext. intros i Hi. apply Hr; unfold apart in Ho; lia.
  - rewrite E3. apply load32_store32_eq. lia.
Qed.
End swtch.

(** ** New processes *)

#[local] Transparent store32 u32 u16 load32.

(** The stack allocproc prepares. *)
Definition new_stack (forkret trapret ks : Z) (m : mem) : mem :=
  let sp := ks + KSTACKSIZE - sizeof_trapframe - 4 - sizeof_context in
  store32 (KString.memset (store32 m (sp + 20) trapret) sp 0 sizeof_context) (sp + 16) forkret.

Lemma new_stack_context f t ks m : 0 ≤ ks → ks + KSTACKSIZE ≤ 2 ^ 32 → 0 ≤ f < 2 ^ 32 → 0 ≤ t < 2 ^ 32 →
  let sp := ks + KSTACKSIZE - 100 in
  get_context (new_stack f t ks m) sp = Context 0 0 0 0 f ∧ load32 (new_stack f t ks m) (sp + 20) = t.
Proof.
  change KSTACKSIZE with 4096. intros H0 Hmax Hf Ht sp. unfold new_stack. change KSTACKSIZE with 4096.
  change sizeof_trapframe with 76. change sizeof_context with 20. replace (ks + 4096 - 76 - 4 - 20) with sp by lia.
  assert (Hz : ∀ a, sp ≤ a < sp + 20 → rd (KString.memset (store32 m (sp + 20) t) sp 0 20) a = 0).
  { intros a Ha. rewrite memset_rd by lia. by rewrite (proj2 (Z.leb_le sp a)), (proj2 (Z.ltb_lt a (sp + 20))) by lia. }
  assert (Hl : ∀ o, 0 ≤ o ≤ 12 → load32 (KString.memset (store32 m (sp + 20) t) sp 0 20) (sp + o) = 0).
  { intros o Hr. unfold load32. rewrite !Hz by lia. done. }
  split.
  - assert (Hl' : ∀ o, 0 ≤ o ≤ 12 → load32 (store32 (KString.memset (store32 m (sp + 20) t) sp 0 20) (sp + 16) f) (sp + o) = 0).
    { intros o Hr. rewrite load32_store32_ne by lia. by apply Hl. }
    pose proof (Hl' 0 ltac:(lia)) as E0. rewrite Z.add_0_r in E0.
    unfold get_context. rewrite E0, (Hl' 4), (Hl' 8), (Hl' 12), load32_store32_eq by lia. done.
  - rewrite load32_store32_ne by lia. rewrite <- (load32_store32_eq m (sp + 20) t) at 2 by done.
    apply load32_ext. intros i Hi. rewrite memset_rd by lia.
    destruct (Z.leb_spec sp (sp + 20 + i)), (Z.ltb_spec (sp + 20 + i) (sp + 20)); try done; lia.
Qed.

Lemma allocproc_stack fr tr k s j k' s' : allocproc fr tr k s = Done (Some j) k' s' →
  let p := thep j s' in p_kstack p ≠ 0 ∧ p_context p = p_kstack p + KSTACKSIZE - 100 ∧
  ∃ m, kmem_of s' = new_stack fr tr (p_kstack p) m.
Proof.
  unfold Proc.allocproc. intros (u & k1 & s1 & H1 & H)%bind_inv.
  assert (s1 = s) as ->. { unfold acquire in H1. destruct (decide _); [done|]. by injection H1. }
  rewrite (bind_Done _ _ _ _ _ _ _ (gets_eq k_procs _ s)) in H. cbv beta in H.
  destruct (unused_proc (k_procs s) 0) as [i|] eqn:Eu; [|by apply bind_inv in H as (? & ? & ? & ? & H)].
  apply unused_proc_lt in Eu as [_ Hi]. cbn in Hi.
  rewrite (bind_Done _ _ _ _ _ _ _ (modify_eq _ _ _)) in H. rewrite (bind_Done _ _ _ _ _ _ _ (modify_eq _ _ _)) in H.
  rewrite (bind_Done _ _ _ _ _ _ _ (modify_eq _ _ _)) in H.
  apply bind_inv in H as (u2 & k2 & s2 & H2 & H).
  apply bind_inv in H as (stack & k3 & s3 & H3 & H).
  assert (L : k_procs s3 = k_procs s2 ∧ length (k_procs s2) = length (k_procs s)).
  { split; [pose proof (invm_procs (inkm kalloc) k2 s2) as E; by rewrite H3 in E|].
    unfold release in H2. destruct (decide _); [|done]. injection H2 as _ _ <-.
    change (k_procs (set_nextpid ?v ?x)) with (k_procs x). by rewrite !length_updp. }
  destruct L as [L3 L2]. rewrite (bind_Done _ _ _ _ _ _ _ (modify_eq _ _ _)) in H.
  set (s4 := updp i (set_kstack stack) s3) in H.
  assert (Hi4 : (i < length (k_procs s4))%nat) by (unfold s4; rewrite length_updp, L3, L2; lia).
  destruct (Z.eqb_spec stack 0) as [|Hz]; [by apply bind_inv in H as (? & ? & ? & ? & H)|].
  injection H as <- <- <-. set (sp := stack + KSTACKSIZE - sizeof_trapframe - 4 - sizeof_context).
  match goal with |- context [thep i ?S] => set (sF := S) end.
  assert (Ep : thep i sF = set_context sp (set_kstack stack (thep i s3))).
  { change (thep i sF) with (thep i (updp i (set_context sp) s4)). rewrite thep_updp, decide_True by done.
    unfold s4. rewrite thep_updp, decide_True by (done || rewrite L3, L2; lia). done. }
  cbv zeta. rewrite Ep. split_and!; [exact Hz|unfold sp; change sizeof_trapframe with 76; change sizeof_context with 20; cbn; lia|].
  exists (vmem (get_vm s4)). change (p_kstack (set_context sp (set_kstack stack (thep i s3)))) with stack.
  unfold new_stack. fold sp. replace (sp + 20) with (stack + KSTACKSIZE - sizeof_trapframe - 4) by (unfold sp; change sizeof_context with 20; lia).
  reflexivity.
Qed.

(** ** The correctness of the routines *)

(** C11: A trap is transparent.  When trap or interrupt [n] stops a program in user
    space, vector [n] and alltraps call trap() with the address of a frame that holds
    every register of the program, the trap number and the error code or 0, and touch
    no other memory; and whatever frame trap() leaves, the code behind the call
    resumes in user space exactly the program that frame describes - the interrupted
    program itself if the frame has not changed. *)
Theorem trap_transparent (addr : list instr → Z) (ss0 esp0 kcs : Z) (intgate : bool) (n err next : Z) (m : machine) :
  machine_ok m → cpl (sregs m CS) = 3 → cpl kcs = 0 → 0 ≤ n < 256 → 0 ≤ err < 2 ^ 32 → 0 ≤ next < 2 ^ 32 →
  88 ≤ esp0 < 2 ^ 32 → let tf := esp0 - sizeof_trapframe in
  ∃ m2 m3 rest,
    exec_code addr (vector n) (trap_entry ss0 esp0 kcs intgate n err next m) = Jumps "alltraps" m2 ∧
    exec_code addr alltraps m2 = Calls "trap" rest m3 ∧
    load32 (memory m3) (regs m3 ESP) = u32 (addr rest) ∧ load32 (memory m3) (regs m3 ESP + 4) = tf ∧
    get_tf (memory m3) tf = frame_of n err next m ∧
    (∀ a, ¬ (tf - 8 ≤ a < esp0) → rd (memory m3) a = rd (memory m) a) ∧
    ∀ m4, let t := get_tf (memory m4) tf in regs m4 ESP = regs m3 ESP + 4 → sregs m4 CS = kcs → cpl (cs t) = 3 →
      ∃ m5, exec_code addr rest m4 = Returns (eip t) m5 ∧ memory m5 = memory m4 ∧
        seen (eip t) m5 = resume_of t ∧ (t = frame_of n err next m → seen next m5 = seen next m).
Proof.
  intros Hm Hu Hk Hn He Hx Hesp tf.
  destruct (trap_frame_run addr ss0 esp0 kcs intgate n err next m Hm Hu Hn He Hx ltac:(lia))
    as (m2 & m3 & E1 & E2 & Es & Er & Et & Ef & Ea & _).
  exists m2, m3, (addl_esp 4 :: trapret). change (esp0 - 76) with tf in *.
  split_and!; [exact E1|exact E2|by rewrite Es| |exact Ef|exact Ea|].
  { rewrite Es. replace (tf - 8 + 4) with (tf - 4) by lia. exact Et. }
  intros m4 t H4 Hc Hu4. rewrite Es in H4. change sizeof_trapframe with 76 in tf.
  destruct (after_trap_run addr m4 tf) as (m5 & Ex & Eseen & Em); [lia|unfold tf; lia|unfold tf; lia|by rewrite Hc|done|].
  exists m5. split_and!; [exact Ex|exact Em|exact Eseen|]. fold t in Eseen. intros Eq. rewrite Eq in Eseen. exact Eseen.
Qed.

Lemma alltraps_rest addr m rest m' : exec_code addr alltraps m = Calls "trap" rest m' → rest = addl_esp 4 :: trapret.
Proof.
  intros E. pose (f := λ x, match x with Calls _ r _ => r | _ => [] end).
  exact (eq_sym (f_equal f E)).
Qed.

Definition demo_program : machine :=
  Machine (λ r, match r with ESP => 4000 | EAX => 11 | _ => 7 end) (λ r, match r with CS => 35 | _ => 43 end) 0x202 ∅.

Lemma demo_program_ok : machine_ok demo_program.
Proof. split; [intros []|intros []|]; by vm_compute. Qed.

Lemma trap_transparent_witness : ∃ m2 m3,
  exec_code (λ _, 0x80105000) (vector 64) (trap_entry 16 0x80400000 8 false 64 0 100 demo_program) = Jumps "alltraps" m2 ∧
  exec_code (λ _, 0x80105000) alltraps m2 = Calls "trap" (addl_esp 4 :: trapret) m3 ∧
  trapno (get_tf (memory m3) (0x80400000 - 76)) = 64 ∧ eax (get_tf (memory m3) (0x80400000 - 76)) = 11.
Proof.
  destruct (trap_transparent (λ _, 0x80105000) 16 0x80400000 8 false 64 0 100 demo_program demo_program_ok
    eq_refl eq_refl ltac:(lia) ltac:(lia) ltac:(lia) ltac:(lia)) as (m2 & m3 & rest & E1 & E2 & _ & _ & Ef & _).
  exists m2, m3. change sizeof_trapframe with 76 in Ef. rewrite Ef. split_and!; [exact E1| |done|done].
  assert (Er : rest = addl_esp 4 :: trapret) by (apply (alltraps_rest _ _ _ _ E2)). rewrite <- Er. exact E2.
Defined.

(** What a caller of swtch(old, new) has to provide: room on its stack, and a new context
    and a place for the old pointer that the saved registers do not run into. *)
Record can_switch (m : machine) : Prop := CanSwitch {
  sw_ok : machine_ok m;
  sw_stack : 16 ≤ regs m ESP ≤ 2 ^ 32 - 12;
  sw_new : 0 ≤ load32 (memory m) (regs m ESP + 8) < 2 ^ 32 - 20;
  sw_old : apart (load32 (memory m) (regs m ESP + 4)) 4 (regs m ESP - 16) 20;
  sw_apart : apart (load32 (memory m) (regs m ESP + 8)) 20 (regs m ESP - 16) 16;
  sw_apart' : apart (load32 (memory m) (regs m ESP + 8)) 20 (load32 (memory m) (regs m ESP + 4)) 4
}.

Lemma can_switch_run addr m : can_switch m →
  let s := regs m ESP in let old := load32 (memory m) (s + 4) in let new := load32 (memory m) (s + 8) in
  let c := get_context (memory m) new in
  ∃ m', exec_code addr swtch m = Returns (c_eip c) m' ∧ resumed c (new + 20) m' ∧
    get_context (memory m') (s - 16) =
      Context (regs m EDI) (regs m ESI) (regs m EBX) (regs m EBP) (load32 (memory m) s) ∧
    load32 (memory m') old = s - 16 ∧ sregs m' = sregs m ∧ flags m' = flags m ∧
    ∀ a, ¬ (s - 16 ≤ a < s) → ¬ (old ≤ a < old + 4) → rd (memory m') a = rd (memory m) a.
Proof. intros [S1 S2 S3 S4 S5 S6]. by apply swtch_run; try lia. Qed.

(** C12: Swtch is a coroutine switch.  swtch(&old, new) returns into the context [new]
    with its registers, leaves in [old] the address of a context with the registers
    and the return address of the caller, and changes no other memory; a later swtch
    to that address, on any stack and whatever happened in between to the rest of the
    memory, makes the first call return to its caller, with the callee-saved registers
    and the stack pointer of the call. *)
Theorem swtch_resumes (addr : list instr → Z) (m : machine) : can_switch m →
  let s := regs m ESP in let old := load32 (memory m) (s + 4) in
  let c := get_context (memory m) (load32 (memory m) (s + 8)) in
  ∃ m', exec_code addr swtch m = Returns (c_eip c) m' ∧ resumed c (load32 (memory m) (s + 8) + 20) m' ∧
    (∀ a, ¬ (s - 16 ≤ a < s) → ¬ (old ≤ a < old + 4) → rd (memory m') a = rd (memory m) a) ∧
    ∀ m2, can_switch m2 → load32 (memory m2) (regs m2 ESP + 8) = load32 (memory m') old →
      (∀ a, s - 16 ≤ a < s + 4 → rd (memory m2) a = rd (memory m') a) →
      ∃ m3, exec_code addr swtch m2 = Returns (load32 (memory m) s) m3 ∧ regs m3 ESP = s + 4 ∧
        ∀ r, r ∈ [EDI; ESI; EBX; EBP] → regs m3 r = regs m r.
Proof.
  intros Hc s old c. destruct (can_switch_run addr m Hc) as (m' & E1 & R1 & Eg & Eo & _ & _ & Er).
  fold s in E1, R1, Eg, Eo, Er. fold old in Eo, Er. fold c in E1, R1.
  exists m'. split_and!; [exact E1|exact R1|exact Er|].
  intros m2 Hc2 En Hm2. destruct (can_switch_run addr m2 Hc2) as (m3 & E3 & R3 & _).
  rewrite En, Eo in E3, R3. assert (Ec : get_context (memory m2) (s - 16) = get_context (memory m') (s - 16)).
  { apply get_context_ext. intros b Hb. apply Hm2. lia. }
  rewrite Ec, Eg in E3, R3. exists m3. split; [exact E3|].
  destruct R3 as [R1' R2' R3' R4' R5']. split; [rewrite R5'; lia|].
  intros r Hr. rewrite !elem_of_cons, elem_of_nil in Hr. destruct Hr as [->|[->|[->|[->|[]]]]]; done.
Qed.

(** A caller at 0x5000 with its stack at 1000 that switches to the context at 2000. *)
Definition demo_switch : machine :=
  Machine (λ r, match r with ESP => 1000 | EBX => 9 | _ => 7 end) (λ _, 16) 0x202
    (store32 (store32 (store32 (store32 ∅ 1000 0x5000) 1004 3000) 1008 2000) 2016 0x6000).

Lemma demo_can_switch : can_switch demo_switch.
Proof.
  split; [split; [intros []|intros []|]; by vm_compute|..]; [by vm_compute|by vm_compute|..].
  - right. by vm_compute.
  - right. by vm_compute.
  - left. by vm_compute.
Qed.

Lemma swtch_resumes_witness : ∃ m', exec_code (λ _, 0) swtch demo_switch = Returns 0x6000 m' ∧ regs m' ESP = 2020.
Proof.
  destruct (swtch_resumes (λ _, 0) demo_switch demo_can_switch) as (m' & E & R & _).
  exists m'. split; [exact E|]. etrans; [exact (rs_esp _ _ _ R)|by vm_compute].
Defined.

(** C36: A new process starts in forkret and goes from there to user space.  A switch of
    the scheduler to the process allocproc has prepared continues at forkret on the
    kernel stack of the process, with trapret as the address forkret returns to; and
    trapret then finds the trap frame at the top of that stack, where p->tf points,
    and resumes the program it describes. *)
Theorem new_process_starts (fr tr : Z) (k : kctx) (s : kst) (j : nat) (k' : kctx) (s' : kst)
    (addr : list instr → Z) (m : machine) :
  allocproc fr tr k s = Done (Some j) k' s' → let p := thep j s' in
  0 ≤ p_kstack p → p_kstack p + KSTACKSIZE < 2 ^ 32 → 0 ≤ fr < 2 ^ 32 → 0 ≤ tr < 2 ^ 32 →
  can_switch m → load32 (memory m) (regs m ESP + 8) = p_context p →
  (∀ a, p_context p ≤ a < p_context p + 24 → rd (memory m) a = rd (kmem_of s') a) →
  apart (p_context p) 24 (regs m ESP - 16) 16 → apart (p_context p) 24 (load32 (memory m) (regs m ESP + 4)) 4 →
  let tf := p_kstack p + KSTACKSIZE - sizeof_trapframe in
  ∃ m', exec_code addr swtch m = Returns fr m' ∧ exec_code addr [ret] m' = Returns tr (drop_words 1 m') ∧
    regs (drop_words 1 m') ESP = tf ∧
    ∀ m2, let t := get_tf (memory m2) tf in regs m2 ESP = tf → cpl (sregs m2 CS) = 0 → cpl (cs t) = 3 →
      ∃ m3, exec_code addr trapret m2 = Returns (eip t) m3 ∧ seen (eip t) m3 = resume_of t.
Proof.
  intros Ha p H0 Hmax Hfr Htr Hc En Hmem Hap Hap' tf.
  destruct (allocproc_stack fr tr k s j k' s' Ha) as (_ & Ectx & M & EM). fold p in Ectx, EM.
  change KSTACKSIZE with 4096 in *. set (ks := p_kstack p) in *. change sizeof_trapframe with 76 in tf.
  destruct (new_stack_context fr tr ks M H0 ltac:(change KSTACKSIZE with 4096; lia) Hfr Htr) as [Eg Et].
  change KSTACKSIZE with 4096 in Eg, Et. rewrite <- Ectx, <- EM in Eg, Et.
  destruct (can_switch_run addr m Hc) as (m' & E1 & R1 & _ & _ & _ & _ & Er). rewrite En in E1, R1.
  assert (Em : get_context (memory m) (p_context p) = Context 0 0 0 0 fr).
  { rewrite <- Eg. apply get_context_ext. intros b Hb. apply Hmem. lia. }
  rewrite Em in E1, R1. pose proof (rs_esp _ _ _ R1) as Esp. exists m'.
  assert (Etop : top m' = tr).
  { unfold top. rewrite Esp, <- Et. apply load32_ext. intros i Hi. rewrite Er; [apply Hmem; lia|..]; unfold apart in *; lia. }
  split_and!; [exact E1| | |].
  - change (Returns (top m') (drop_words 1 m') = Returns tr (drop_words 1 m')). by rewrite Etop.
  - change (u32 (regs m' ESP + 4 * 1) = tf). rewrite Esp, Ectx, u32_small; unfold tf; lia.
  - intros m2 t E2 Hk Hu. destruct (trapret_run addr m2 tf E2 ltac:(unfold tf; lia) ltac:(unfold tf; lia) Hk Hu)
      as (m3 & E3 & S3 & _). by exists m3.
Qed.

(** A kernel with one free page, and the scheduler about to switch to the new process. *)
Definition demo_empty : kst :=
  Kst (Fsstate (Logstate (Bstate 1000 ∅ [] []) 970 30 0 0 ROOTDEV 0 (replicate 30 0)) []
         (Cst true false (replicate 2000 0) 0 [] (Input (replicate 128 0) 0 0 0)))
      (Vst (Kmem false 0x80400000 ∅) (Cst true false [] 0 [] (Input [] 0 0 0)) 0 0 0 0)
      ∅ [] (replicate NPROC proc0) 0 1 None 0.
Definition demo_scheduler (M : mem) : machine :=
  Machine (λ r, match r with ESP => 1000 | _ => 7 end) (λ _, 16) 0x202
    (store32 (store32 (store32 M 1000 0x5000) 1004 3000) 1008 (0x80400000 + 4096 - 100)).

Definition demo_born : kst :=
  match allocproc 0x80103000 0x80105000 (Kctx [] []) demo_empty with Done _ _ s' => s' | _ => demo_empty end.

Lemma demo_born_eq : allocproc 0x80103000 0x80105000 (Kctx [] []) demo_empty = Done (Some 0%nat) (Kctx [] []) demo_born.
Proof. vm_compute. reflexivity. Qed.

Lemma demo_scheduler_ok : can_switch (demo_scheduler (kmem_of demo_born)).
Proof.
  split; [split; [intros []|intros []|]; by vm_compute|by vm_compute|by vm_compute|..].
  - right. by vm_compute.
  - right. by vm_compute.
  - right. by vm_compute.
Qed.

Lemma new_process_starts_witness : ∃ m',
  allocproc 0x80103000 0x80105000 (Kctx [] []) demo_empty = Done (Some 0%nat) (Kctx [] []) demo_born ∧
  exec_code (λ _, 0) swtch (demo_scheduler (kmem_of demo_born)) = Returns 0x80103000 m'.
Proof.
  destruct (new_process_starts 0x80103000 0x80105000 (Kctx [] []) demo_empty 0 (Kctx [] []) demo_born (λ _, 0)
    (demo_scheduler (kmem_of demo_born)) demo_born_eq) as (m' & E & _).
  - by vm_compute.
  - by vm_compute.
  - by vm_compute.
  - by vm_compute.
  - exact demo_scheduler_ok.
  - by vm_compute.
  - intros a Ha. assert (Hc : p_context (thep 0 demo_born) = 0x80400000 + 4096 - 100) by (by vm_compute).
    rewrite Hc in Ha. unfold demo_scheduler. cbn [memory]. rewrite !rd_store32_out by lia. reflexivity.
  - right. by vm_compute.
  - right. by vm_compute.
  - exists m'. split; [exact demo_born_eq|exact E].
Defined.

(** ** System calls *)

Lemma sysnum_onto num : 1 ≤ num ≤ 21 → ∃ n, sysnum n = num.
Proof.
  intros H. assert (Hf : Forall (λ i, ∃ n, sysnum n = i) (seqZ 1 21)).
  { repeat (constructor; [first [by exists SYS_fork | by exists SYS_exit | by exists SYS_wait | by exists SYS_pipe | by exists SYS_read
      | by exists SYS_kill | by exists SYS_exec | by exists SYS_fstat | by exists SYS_chdir | by exists SYS_dup
      | by exists SYS_getpid | by exists SYS_sbrk | by exists SYS_sleep | by exists SYS_uptime | by exists SYS_open
      | by exists SYS_write | by exists SYS_mknod | by exists SYS_unlink | by exists SYS_link | by exists SYS_mkdir
      | by exists SYS_close]|]). constructor. }
  rewrite Forall_forall in Hf. apply Hf, elem_of_seqZ. lia.
Qed.

(** The stubs of usys.S and the table of syscall.c agree.  Every system call has a
    stub, which enters the kernel by trap 64 with the number of the call in eax and
    its own stack, on which the arguments are, and returns to its caller; each number
    selects a handler, different calls different ones, and no handler is without a stub. *)
Theorem usys_table (K : kernel) (addr : list instr → Z) :
  (∀ n, n ∈ usys) ∧
  (∀ n m, ∃ m', exec_code addr (SYSCALL n) m = Interrupts T_SYSCALL [ret] m' ∧ stack m' = stack m ∧
    regs m' EAX = sysnum n ∧ ∀ r, r ≠ EAX → regs m' r = regs m r) ∧
  (∀ n, is_Some (syscalls K (sysnum n))) ∧ (∀ n n', sysnum n = sysnum n' → n = n') ∧
  (∀ num, is_Some (syscalls K num) → ∃ n, sysnum n = num).
Proof.
  split_and!.
  - intros []; unfold usys; set_solver.
  - intros n m. exists (set_reg EAX (u32 (sysnum n)) m). split_and!; [reflexivity|reflexivity|by destruct n|].
    intros r Hr. unfold set_reg. cbn [regs]. by rewrite decide_False.
  - intros []; by eexists.
  - intros [] []; done.
  - intros num [h Hh]. apply sysnum_onto. unfold syscalls in Hh.
    destruct num as [|p|p]; [done| |done]. do 5 (try destruct p as [p|p|]; try done); lia.
Qed.

(** The first process asks for exec(init, argv), whose arguments are where argint() looks
    for them, and asks for exit() whenever a call returns. *)
Theorem initcode_execs (addr : list instr → Z) (init argv : Z) (m : machine) :
  12 ≤ regs m ESP < 2 ^ 32 → 0 ≤ init < 2 ^ 32 → 0 ≤ argv < 2 ^ 32 →
  (∃ m', exec_code addr (initcode_start init argv) m = Interrupts T_SYSCALL initcode_exit m' ∧
    regs m' EAX = sysnum SYS_exec ∧ load32 (memory m') (regs m' ESP + 4 + 4 * 0) = init ∧
    load32 (memory m') (regs m' ESP + 4 + 4 * 1) = argv ∧
    ∀ a, ¬ (regs m ESP - 12 ≤ a < regs m ESP) → rd (memory m') a = rd (memory m) a) ∧
  ∃ m', exec_code addr initcode_exit m = Interrupts T_SYSCALL [jmp "exit"] m' ∧ regs m' EAX = sysnum SYS_exit ∧
    stack m' = stack m.
Proof.
  intros Hs Hi Ha. split; [|eexists; by split_and!].
  set (st := spushes [u32 argv; u32 init; u32 0] (stack m)).
  assert (Hl : 4 * Z.of_nat (length [u32 argv; u32 init; u32 0]) ≤ (stack m).1 < 2 ^ 32) by (cbn [length stack fst]; lia).
  assert (Ee : st.1 = regs m ESP - 12) by (unfold st; rewrite spushes_esp by done; cbn [length stack fst]; lia).
  assert (W : ∀ i v, [u32 argv; u32 init; u32 0] !! i = Some v → load32 st.2 (regs m ESP - 4 * (Z.of_nat i + 1)) = v).
  { intros i v E. apply (spushes_load _ i v (stack m) E); [|done].
    apply list_elem_of_lookup_2 in E. revert v E. rewrite <- Forall_forall. repeat constructor; apply u32_range. }
  eexists. split; [reflexivity|].
  match goal with |- context [memory ?x] => assert (Es : stack x = st) by reflexivity; set (m' := x) in * end.
  change (memory m') with (stack m').2. change (regs m' ESP) with (stack m').1. rewrite Es, Ee.
  split_and!; [reflexivity|..].
  - replace (regs m ESP - 12 + 4 + 4 * 0) with (regs m ESP - 4 * (Z.of_nat 1 + 1)) by lia.
    rewrite (W 1%nat _ eq_refl). by apply u32_small.
  - replace (regs m ESP - 12 + 4 + 4 * 1) with (regs m ESP - 4 * (Z.of_nat 0 + 1)) by lia.
    rewrite (W 0%nat _ eq_refl). by apply u32_small.
  - intros a Hr. unfold st. rewrite spushes_rd; [done|done|]. cbn [length stack fst]. lia.
Qed.

(** * The types of the machine

    The registers of the machine of Asm.v are numbers without a bound; that each of them
    holds a value of its width, and the memory bytes, is kept by every instruction, by
    every routine, and by the processor when it takes a trap. *)

Definition bytes (m : mem) : Prop := ∀ a, 0 ≤ rd m a < 2 ^ 8.
Definition typed (m : machine) : Prop := machine_ok m ∧ bytes (memory m).

Definition stop_typed (s : stop) : Prop :=
  match s with
  | Returns eip m => 0 ≤ eip < 2 ^ 32 ∧ typed m
  | Calls _ _ m | Jumps _ m | Interrupts _ _ m | Ends m => typed m
  end.

Lemma bytes_store32 m a v : bytes m → bytes (store32 m a v).
Proof.
  intros H b. unfold store32. rewrite !rd_wr. pose proof (H b).
  repeat (case_match; [apply u8_range|]). done.
Qed.

Lemma bytes_load32 m a : bytes m → 0 ≤ load32 m a < 2 ^ 32.
Proof.
  intros H. unfold load32. pose proof (H a). pose proof (H (a + 1)). pose proof (H (a + 2)). pose proof (H (a + 3)). lia.
Qed.

Lemma typed_reg r v m : typed m → 0 ≤ v < 2 ^ 32 → typed (set_reg r v m).
Proof.
  intros [[H1 H2 H3] H4] Hv. split; [|done]. split; [|done|done]. intros r'. cbn [regs set_reg]. by case_decide.
Qed.

Lemma typed_sreg r v m : typed m → 0 ≤ v < 2 ^ 16 → typed (set_sreg r v m).
Proof.
  intros [[H1 H2 H3] H4] Hv. split; [|done]. split; [done| |done]. intros r'. cbn [sregs set_sreg]. by case_decide.
Qed.

Lemma typed_flags v m : typed m → 0 ≤ v < 2 ^ 32 → typed (set_flags v m).
Proof. intros [[H1 H2 H3] H4] Hv. by split; [split|]. Qed.

Lemma typed_store a v m : typed m → typed (set_memory (store32 (memory m) a v) m).
Proof. intros [[H1 H2 H3] H4]. split; [by split|]. by apply bytes_store32. Qed.

Lemma typed_load m a : typed m → 0 ≤ load32 (memory m) a < 2 ^ 32.
Proof. intros [_ H]. by apply bytes_load32. Qed.

Create HintDb typed.
#[export] Hint Resolve typed_reg typed_sreg typed_flags typed_store typed_load u32_range u16_range : typed.

Lemma typed_push v m : typed m → typed (push v m).
Proof. intros H. apply (typed_store _ _ (set_reg ESP (u32 (regs m ESP - 4)) m)). auto with typed. Qed.
Lemma typed_drop n m : typed m → typed (drop_words n m).
Proof. intros H. unfold drop_words. auto with typed. Qed.
#[export] Hint Resolve typed_push typed_drop : typed.

Lemma typed_pushes vs m : typed m → typed (pushes vs m).
Proof. revert m. induction vs as [|v vs IH]; intros m H; [done|]. apply (IH (push v m)). auto with typed. Qed.
Lemma typed_pop r m : typed m → typed (pop r m).
Proof. intros H. unfold pop, top. auto with typed. Qed.
Lemma typed_pop_seg r m : typed m → typed (pop_seg r m).
Proof. intros H. unfold pop_seg. auto with typed. Qed.
#[export] Hint Resolve typed_pushes typed_pop typed_pop_seg : typed.

Lemma movw_range x v : 0 ≤ x < 2 ^ 32 → 0 ≤ Z.lor (Z.land x 0xffff0000) (u16 v) < 2 ^ 32.
Proof.
  intros Hx. pose proof (u16_range v). split; [apply Z.lor_nonneg; split; [apply Z.land_nonneg; lia|lia]|].
  destruct (Z.eq_dec (Z.lor (Z.land x 0xffff0000) (u16 v)) 0) as [->|Hn]; [lia|].
  assert (0 ≤ Z.land x 0xffff0000) by (apply Z.land_nonneg; lia).
  assert (0 ≤ Z.lor (Z.land x 0xffff0000) (u16 v)) by (apply Z.lor_nonneg; lia).
  apply Z.log2_lt_pow2; [lia|]. rewrite Z.log2_lor by lia. apply Z.max_lub_lt.
  - destruct (Z.eq_dec (Z.land x 0xffff0000) 0) as [->|]; [cbn; lia|]. 
    pose proof (Z.log2_land x 0xffff0000 ltac:(lia) ltac:(lia)). change (Z.log2 0xffff0000) with 31 in *. lia.
  - destruct (Z.eq_dec (u16 v) 0) as [->|]; [cbn; lia|]. apply Z.log2_lt_pow2; lia.
Qed.

Lemma step_typed i m : typed m → typed (step i m).
Proof.
  intros H. pose proof H as [[H1 H2 H3] H4].
  destruct i; cbn [step]; auto 12 using movw_range with typed.
Qed.

Lemma iret_typed m : typed m → stop_typed (do_iret m).
Proof.
  intros H. unfold do_iret. cbn [stop_typed]. unfold top. split; [auto with typed|].
  destruct (_ <? _); [apply typed_sreg; [apply typed_reg|]|]; auto with typed.
Qed.

Lemma exec_typed addr code : ∀ m, typed m → stop_typed (exec_code addr code m).
Proof.
  induction code as [|i code IH]; intros m H; [exact H|].
  pose proof (IH (step i m) (step_typed i m H)) as Hnext.
  destruct i; cbn [exec_code]; try exact Hnext; cbn [stop_typed]; auto with typed.
  - split; [apply (typed_load m (regs m ESP) H)|auto with typed].
  - by apply iret_typed.
Qed.

Lemma trap_entry_typed ss0 esp0 kcs intgate n err next m : typed m → 0 ≤ ss0 < 2 ^ 16 → 0 ≤ esp0 < 2 ^ 32 →
  0 ≤ kcs < 2 ^ 16 → typed (trap_entry ss0 esp0 kcs intgate n err next m).
Proof.
  intros H Hss Hesp Hcs. pose proof H as [[_ _ H3] _]. unfold trap_entry.
  set (m2 := pushes _ (if cpl (sregs m CS) =? 0 then _ else _)).
  assert (H2 : typed m2) by (unfold m2; destruct (_ =? 0); auto with typed).
  apply typed_sreg; [|done]. destruct intgate; [|done]. apply typed_flags; [done|].
  split; [apply Z.land_nonneg; lia|]. apply (Z.le_lt_trans _ (flags m)); [|lia].
  rewrite <- Z.ldiff_land. apply Z.ldiff_le; [lia|]. apply Z.bits_inj'. intros b _.
  rewrite !Z.ldiff_spec, Z.bits_0. by destruct (Z.testbit (flags m) b), (Z.testbit FL_IF b).
Qed.


