(* ===== verification/Segments.v ===== *)
(** * The descriptor tables: mmu.h, seginit of vm.c, tvinit and idtinit of trap.c

    A descriptor is a structure of bit-fields, which the compiler lays out from the
    lowest bit on; [pack] and [unpack] are that layout, and in memory a descriptor is
    two 32-bit words.  Of the processor the model has the registers of the tables and
    the segment %gs with the base the processor keeps of its descriptor.  [cpus] is the
    address of the array of struct cpu, [vectors] gives the addresses of the entry
    points in vectors.S.  The second part has the task state segment that switchuvm sets
    up. *)

From stdpp Require Import base gmap list strings.
From Stdlib Require Import ZArith Lia.
From S2P Require Import Prelude Params Cstring Vm Proc Trap Asm.

(** ** Bit-fields *)

Fixpoint pack (ws : list Z) (vs : list Z) : Z :=
  match ws, vs with
  | w :: ws, v :: vs => wrap w v + 2 ^ w * pack ws vs
  | _, _ => 0
  end.
Fixpoint unpack (ws : list Z) (n : Z) : list Z :=
  match ws with [] => [] | w :: ws => n mod 2 ^ w :: unpack ws (n / 2 ^ w) end.

(** ** mmu.h *)

Record segdesc : Type := Segdesc {
  lim_15_0 : Z; base_15_0 : Z; base_23_16 : Z; sd_type : Z; sd_s : Z; sd_dpl : Z; sd_p : Z;
  lim_19_16 : Z; sd_avl : Z; sd_rsv1 : Z; sd_db : Z; sd_g : Z; base_31_24 : Z
}.
Definition segdesc_widths : list Z := [16; 16; 8; 4; 1; 2; 1; 4; 1; 1; 1; 1; 8].
Definition segdesc_list (d : segdesc) : list Z :=
  [lim_15_0 d; base_15_0 d; base_23_16 d; sd_type d; sd_s d; sd_dpl d; sd_p d; lim_19_16 d; sd_avl d;
   sd_rsv1 d; sd_db d; sd_g d; base_31_24 d].
Definition segdesc_of (l : list Z) : segdesc :=
  Segdesc (l.[0]) (l.[1]) (l.[2]) (l.[3]) (l.[4]) (l.[5]) (l.[6]) (l.[7]) (l.[8]) (l.[9]) (l.[10]) (l.[11]) (l.[12]).

Definition SEG (type base lim dpl : Z) : segdesc :=
  Segdesc (Z.land (Z.shiftr lim 12) 0xffff) (Z.land (u32 base) 0xffff)
    (Z.land (Z.shiftr (u32 base) 16) 0xff) type 1 dpl 1
    (Z.shiftr (u32 lim) 28) 0 0 1 1 (Z.shiftr (u32 base) 24).
Definition SEG16 (type base lim dpl : Z) : segdesc :=
  Segdesc (Z.land lim 0xffff) (Z.land (u32 base) 0xffff)
    (Z.land (Z.shiftr (u32 base) 16) 0xff) type 1 dpl 1
    (Z.shiftr (u32 lim) 16) 0 0 1 0 (Z.shiftr (u32 base) 24).

Record gatedesc : Type := Gatedesc {
  off_15_0 : Z; gd_cs : Z; gd_args : Z; gd_rsv1 : Z; gd_type : Z; gd_s : Z; gd_dpl : Z; gd_p : Z; off_31_16 : Z
}.
Definition gatedesc_widths : list Z := [16; 16; 5; 3; 4; 1; 2; 1; 16].
Definition gatedesc_list (g : gatedesc) : list Z :=
  [off_15_0 g; gd_cs g; gd_args g; gd_rsv1 g; gd_type g; gd_s g; gd_dpl g; gd_p g; off_31_16 g].
Definition gatedesc_of (l : list Z) : gatedesc :=
  Gatedesc (l.[0]) (l.[1]) (l.[2]) (l.[3]) (l.[4]) (l.[5]) (l.[6]) (l.[7]) (l.[8]).

Definition STA_X : Z := 0x8.
Definition STA_W : Z := 0x2.
Definition STA_R : Z := 0x2.
Definition STS_IG32 : Z := 0xE.
Definition STS_TG32 : Z := 0xF.
Definition SEG_KCODE : Z := 1.

Definition SETGATE (istrap : bool) (sel off d : Z) : gatedesc :=
  Gatedesc (Z.land (u32 off) 0xffff) sel 0 0 (if istrap then STS_TG32 else STS_IG32) 0 d 1
    (Z.shiftr (u32 off) 16).

(** ** Descriptors in memory *)

Definition store64 (m : mem) (a n : Z) : mem := store32 (store32 m a (n mod 2 ^ 32)) (a + 4) (n / 2 ^ 32).
Definition load64 (m : mem) (a : Z) : Z := load32 m a + 2 ^ 32 * load32 m (a + 4).

Definition store_seg (m : mem) (a : Z) (d : segdesc) : mem := store64 m a (pack segdesc_widths (segdesc_list d)).
Definition load_seg (m : mem) (a : Z) : segdesc := segdesc_of (unpack segdesc_widths (load64 m a)).
Definition store_gate (m : mem) (a : Z) (g : gatedesc) : mem := store64 m a (pack gatedesc_widths (gatedesc_list g)).
Definition load_gate (m : mem) (a : Z) : gatedesc := gatedesc_of (unpack gatedesc_widths (load64 m a)).

(** ** The processor *)

Record seghw : Type := Seghw {
  sh_mem : mem; sh_gdtr : Z * Z; sh_idtr : Z * Z;   (** the tables: limit and base *)
  sh_gs : Z; sh_gsbase : Z
}.

(** What the processor makes of a descriptor. *)
Definition seg_base (d : segdesc) : Z := base_15_0 d + 2 ^ 16 * base_23_16 d + 2 ^ 24 * base_31_24 d.
Definition seg_limit (d : segdesc) : Z :=
  let l := lim_15_0 d + 2 ^ 16 * lim_19_16 d in if sd_g d =? 1 then 4096 * l + 4095 else l.
Definition gate_offset (g : gatedesc) : Z := off_15_0 g + 2 ^ 16 * off_31_16 g.

(** The six bytes lgdt and lidt read. *)
Definition pseudo_desc (pd : list Z) : Z * Z := (pd.[0], pd.[1] + 2 ^ 16 * pd.[2]).

Definition set_smem (m : mem) (h : seghw) : seghw := Seghw m (sh_gdtr h) (sh_idtr h) (sh_gs h) (sh_gsbase h).

(** x86.h: lgdt, lidt, loadgs *)
Definition lgdt (p size : Z) (h : seghw) : seghw :=
  let pd := [u16 (size - 1); u16 (u32 p); u16 (Z.shiftr (u32 p) 16)] in
  Seghw (sh_mem h) (pseudo_desc pd) (sh_idtr h) (sh_gs h) (sh_gsbase h).
Definition lidt (p size : Z) (h : seghw) : seghw :=
  let pd := [u16 (size - 1); u16 (u32 p); u16 (Z.shiftr (u32 p) 16)] in
  Seghw (sh_mem h) (sh_gdtr h) (pseudo_desc pd) (sh_gs h) (sh_gsbase h).
Definition loadgs (v : Z) (h : seghw) : seghw :=
  Seghw (sh_mem h) (sh_gdtr h) (sh_idtr h) v
    (seg_base (load_seg (sh_mem h) ((sh_gdtr h).2 + 8 * Z.shiftr v 3))).

(** A store to the variable at %gs:off. *)
Definition store_gs (off v : Z) (h : seghw) : seghw := set_smem (store32 (sh_mem h) (u32 (sh_gsbase h + off)) v) h.

(** ** struct cpu, seginit, tvinit, idtinit *)

Definition NSEGS : Z := 7.
Definition sizeof_cpu : Z := 192.
Definition cpu_gdt : Z := 112.
Definition cpu_cpu : Z := 180.
Definition cpu_proc : Z := 184.
Definition cpu_thread : Z := 188.

Section tables.
Context (cpus idt : Z) (vectors : Z → Z).

Definition gdt_set (c i : Z) (d : segdesc) (h : seghw) : seghw :=
  set_smem (store_seg (sh_mem h) (c + cpu_gdt + 8 * i) d) h.

(** [cpu] is what cpunum() returns. *)
Definition seginit (cpu : Z) (h : seghw) : seghw :=
  let c := cpus + sizeof_cpu * cpu in
  let h := gdt_set c SEG_KCODE (SEG (Z.lor STA_X STA_R) 0 0xffffffff 0) h in
  let h := gdt_set c SEG_KDATA (SEG STA_W 0 0xffffffff 0) h in
  let h := gdt_set c SEG_UCODE (SEG (Z.lor STA_X STA_R) 0 0xffffffff DPL_USER) h in
  let h := gdt_set c SEG_UDATA (SEG STA_W 0 0xffffffff DPL_USER) h in
  let h := gdt_set c SEG_KCPU (SEG STA_W (c + cpu_cpu) 8 0) h in
  let h := lgdt (c + cpu_gdt) (8 * NSEGS) h in
  let h := loadgs (Z.shiftl SEG_KCPU 3) h in
  let h := store_gs 0 c h in
  store_gs 4 0 h.

Definition idt_set (i : Z) (g : gatedesc) (m : mem) : mem := store_gate m (idt + 8 * i) g.

Fixpoint tvinit_loop (n : nat) (i : Z) (m : mem) : mem :=
  match n with
  | O => m
  | S n => tvinit_loop n (i + 1) (idt_set i (SETGATE false (Z.shiftl SEG_KCODE 3) (vectors i) 0) m)
  end.

(** The initialisation of tickslock is that of a lock. *)
Definition tvinit (h : seghw) : seghw :=
  let m := tvinit_loop 256 0 (sh_mem h) in
  set_smem (idt_set T_SYSCALL (SETGATE true (Z.shiftl SEG_KCODE 3) (vectors T_SYSCALL) DPL_USER) m) h.

Definition idtinit (h : seghw) : seghw := lidt idt (8 * 256) h.
End tables.

(** ** Bit-fields and descriptors round trip *)

Definition fits (ws vs : list Z) : Prop := Forall2 (λ w v, 0 ≤ w ∧ 0 ≤ v < 2 ^ w) ws vs.

Lemma unpack_pack ws vs : fits ws vs → unpack ws (pack ws vs) = vs.
Proof.
  induction 1 as [|w v ws vs [Hw Hv] _ IH]; [done|]. cbn [pack unpack].
  assert (Hp : 0 < 2 ^ w) by (apply Z.pow_pos_nonneg; lia).
  unfold wrap. rewrite (Z.mod_small v) by done. rewrite (Z.mul_comm (2 ^ w)), Z.div_add, Z.mod_add by lia.
  rewrite Z.div_small, Z.mod_small, Z.add_0_l by done. by rewrite IH.
Qed.

Lemma pack_range ws vs : fits ws vs → 0 ≤ pack ws vs < 2 ^ (foldr Z.add 0 ws).
Proof.
  induction 1 as [|w v ws vs [Hw Hv] Hf IH]; [done|]. cbn [pack foldr].
  assert (Hs : 0 ≤ foldr Z.add 0 ws).
  { clear -Hf. induction Hf as [|? ? ? ? [? _] _ ?]; cbn [foldr]; lia. }
  rewrite Z.pow_add_r by lia. unfold wrap. rewrite (Z.mod_small v) by done. nia.
Qed.

Lemma load64_store64_eq m a n : 0 ≤ n < 2 ^ 64 → load64 (store64 m a n) a = n.
Proof.
  intros Hn. unfold load64, store64. pose proof (Z.div_mod n (2 ^ 32) ltac:(lia)) as E.
  pose proof (Z.mod_pos_bound n (2 ^ 32) ltac:(lia)).
  assert (0 ≤ n / 2 ^ 32 < 2 ^ 32) by (split; [apply Z.div_pos; lia|apply Z.div_lt_upper_bound; lia]).
  rewrite load32_store32_ne by lia. rewrite !load32_store32_eq by done. lia.
Qed.

Lemma load64_store64_ne m a n b : b + 8 ≤ a ∨ a + 8 ≤ b → load64 (store64 m a n) b = load64 m b.
Proof. intros H. unfold load64, store64. by rewrite !load32_store32_ne by lia. Qed.

Lemma load64_store32_ne m a n b : b + 8 ≤ a ∨ a + 4 ≤ b → load64 (store32 m a n) b = load64 m b.
Proof. intros H. unfold load64. by rewrite !load32_store32_ne by lia. Qed.

Lemma load_seg_eq m a d : fits segdesc_widths (segdesc_list d) → load_seg (store_seg m a d) a = d.
Proof.
  intros H. unfold load_seg, store_seg. rewrite load64_store64_eq by (apply (pack_range _ _ H)).
  rewrite unpack_pack by done. by destruct d.
Qed.

Lemma load_gate_eq m a g : fits gatedesc_widths (gatedesc_list g) → load_gate (store_gate m a g) a = g.
Proof.
  intros H. unfold load_gate, store_gate. rewrite load64_store64_eq by (apply (pack_range _ _ H)).
  rewrite unpack_pack by done. by destruct g.
Qed.

Lemma load_seg_ne m a d b : b + 8 ≤ a ∨ a + 8 ≤ b → load_seg (store_seg m a d) b = load_seg m b.
Proof. intros H. unfold load_seg, store_seg. by rewrite load64_store64_ne. Qed.

Lemma load_gate_ne m a g b : b + 8 ≤ a ∨ a + 8 ≤ b → load_gate (store_gate m a g) b = load_gate m b.
Proof. intros H. unfold load_gate, store_gate. by rewrite load64_store64_ne. Qed.

(** ** What SEG and SETGATE describe *)

Lemma land_mod x n : 0 ≤ n → Z.land x (Z.ones n) = x mod 2 ^ n.
Proof. intros. by rewrite Z.land_ones. Qed.

Lemma seg_fields type base lim dpl : 0 ≤ base < 2 ^ 32 → 0 ≤ lim < 2 ^ 32 →
  SEG type base lim dpl = Segdesc (lim / 2 ^ 12 mod 2 ^ 16) (base mod 2 ^ 16) (base / 2 ^ 16 mod 2 ^ 8) type 1 dpl 1
    (lim / 2 ^ 28) 0 0 1 1 (base / 2 ^ 24).
Proof.
  intros Hb Hl. unfold SEG. rewrite !u32_small by done. rewrite !Z.shiftr_div_pow2 by lia.
  change 0xffff with (Z.ones 16). change 0xff with (Z.ones 8). by rewrite !land_mod by lia.
Qed.

Lemma seg_fits type base lim dpl : 0 ≤ base < 2 ^ 32 → 0 ≤ lim < 2 ^ 32 → 0 ≤ type < 16 → 0 ≤ dpl < 4 →
  fits segdesc_widths (segdesc_list (SEG type base lim dpl)).
Proof.
  intros Hb Hl Ht Hd. rewrite seg_fields by done. unfold segdesc_widths, segdesc_list, fits.
  cbn [lim_15_0 base_15_0 base_23_16 sd_type sd_s sd_dpl sd_p lim_19_16 sd_avl sd_rsv1 sd_db sd_g base_31_24].
  assert (0 ≤ lim / 2 ^ 28 < 2 ^ 4) by (split; [apply Z.div_pos; lia|apply Z.div_lt_upper_bound; lia]).
  assert (0 ≤ base / 2 ^ 24 < 2 ^ 8) by (split; [apply Z.div_pos; lia|apply Z.div_lt_upper_bound; lia]).
  repeat (apply Forall2_cons; split); try apply Forall2_nil_2; (split; [lia|]); try lia; apply Z.mod_pos_bound; lia.
Qed.

Lemma seg_describes type base lim dpl : 0 ≤ base < 2 ^ 32 → 0 ≤ lim < 2 ^ 32 →
  seg_base (SEG type base lim dpl) = base ∧ seg_limit (SEG type base lim dpl) = lim / 4096 * 4096 + 4095.
Proof.
  intros Hb Hl. rewrite seg_fields by done. unfold seg_base, seg_limit.
  cbn [base_15_0 base_23_16 base_31_24 lim_15_0 lim_19_16 sd_g]. change (1 =? 1) with true. cbv iota.
  split.
  - pose proof (Z.div_mod base (2 ^ 16) ltac:(lia)). pose proof (Z.div_mod (base / 2 ^ 16) (2 ^ 8) ltac:(lia)) as E.
    rewrite Z.div_div in E by lia. change (2 ^ 16 * 2 ^ 8) with (2 ^ 24) in E. lia.
  - pose proof (Z.div_mod (lim / 2 ^ 12) (2 ^ 16) ltac:(lia)) as E. rewrite Z.div_div in E by lia.
    change (2 ^ 12 * 2 ^ 16) with (2 ^ 28) in E. change (2 ^ 12) with 4096 in *. lia.
Qed.

Lemma gate_fields t sel off d : 0 ≤ off < 2 ^ 32 → SETGATE t sel off d =
  Gatedesc (off mod 2 ^ 16) sel 0 0 (if t then STS_TG32 else STS_IG32) 0 d 1 (off / 2 ^ 16).
Proof.
  intros Ho. unfold SETGATE. rewrite !u32_small by done. rewrite Z.shiftr_div_pow2 by lia.
  change 0xffff with (Z.ones 16). by rewrite land_mod by lia.
Qed.

Lemma gate_fits t sel off d : 0 ≤ off < 2 ^ 32 → 0 ≤ sel < 2 ^ 16 → 0 ≤ d < 4 →
  fits gatedesc_widths (gatedesc_list (SETGATE t sel off d)).
Proof.
  intros Ho Hs Hd. rewrite gate_fields by done. unfold gatedesc_widths, gatedesc_list, fits.
  cbn [off_15_0 gd_cs gd_args gd_rsv1 gd_type gd_s gd_dpl gd_p off_31_16].
  assert (0 ≤ off / 2 ^ 16 < 2 ^ 16) by (split; [apply Z.div_pos; lia|apply Z.div_lt_upper_bound; lia]).
  repeat (apply Forall2_cons; split); try apply Forall2_nil_2; (split; [lia|]); try lia;
    [apply Z.mod_pos_bound; lia|by destruct t].
Qed.

Lemma gate_describes t sel off d : 0 ≤ off < 2 ^ 32 → gate_offset (SETGATE t sel off d) = off.
Proof.
  intros Ho. rewrite gate_fields by done. unfold gate_offset. cbn [off_15_0 off_31_16].
  pose proof (Z.div_mod off (2 ^ 16) ltac:(lia)). lia.
Qed.

(** ** The tables *)

(** A segment of all 4 GB. *)
Definition flat (d : segdesc) (type dpl : Z) : Prop :=
  seg_base d = 0 ∧ seg_limit d = 2 ^ 32 - 1 ∧ sd_type d = type ∧ sd_dpl d = dpl ∧ sd_p d = 1 ∧ sd_s d = 1.

Lemma SEG_flat type dpl : flat (SEG type 0 0xffffffff dpl) type dpl.
Proof. by destruct (seg_describes type 0 0xffffffff dpl ltac:(lia) ltac:(lia)). Qed.

Lemma pseudo_desc_eq p size : 0 ≤ p < 2 ^ 32 → 1 ≤ size ≤ 2 ^ 16 →
  pseudo_desc [u16 (size - 1); u16 (u32 p); u16 (Z.shiftr (u32 p) 16)] = (size - 1, p).
Proof.
  intros Hp Hs. unfold pseudo_desc. cbn [nthz]. rewrite (u32_small p), (u16_small (size - 1)) by lia.
  rewrite Z.shiftr_div_pow2 by lia. unfold nthz. cbn [lookup list_lookup default]. cbv [id].
  assert (0 ≤ p / 2 ^ 16 < 2 ^ 16) by (split; [apply Z.div_pos; lia|apply Z.div_lt_upper_bound; lia]).
  rewrite (u16_small (p / 2 ^ 16)) by done. unfold u16, wrap. f_equal. pose proof (Z.div_mod p (2 ^ 16) ltac:(lia)). lia.
Qed.

Section seginit.
Context (cpus cpu : Z) (h : seghw).
Let c : Z := cpus + sizeof_cpu * cpu.
Hypotheses (Hc : 0 ≤ c) (Hmax : c + sizeof_cpu ≤ 2 ^ 32).

Local Lemma Hc' : 0 ≤ c ∧ c + 192 ≤ 2 ^ 32.
Proof. exact (conj Hc Hmax). Qed.

(** The table after the five assignments. *)
Let g (i : Z) : Z := c + cpu_gdt + 8 * i.
Let m5 : mem :=
  store_seg (store_seg (store_seg (store_seg (store_seg (sh_mem h)
    (g SEG_KCODE) (SEG (Z.lor STA_X STA_R) 0 0xffffffff 0))
    (g SEG_KDATA) (SEG STA_W 0 0xffffffff 0))
    (g SEG_UCODE) (SEG (Z.lor STA_X STA_R) 0 0xffffffff DPL_USER))
    (g SEG_UDATA) (SEG STA_W 0 0xffffffff DPL_USER))
    (g SEG_KCPU) (SEG STA_W (c + cpu_cpu) 8 0).

Local Lemma gdt_entries :
  load_seg m5 (g SEG_KCODE) = SEG (Z.lor STA_X STA_R) 0 0xffffffff 0 ∧ load_seg m5 (g SEG_KDATA) = SEG STA_W 0 0xffffffff 0 ∧
  load_seg m5 (g SEG_UCODE) = SEG (Z.lor STA_X STA_R) 0 0xffffffff DPL_USER ∧
  load_seg m5 (g SEG_UDATA) = SEG STA_W 0 0xffffffff DPL_USER ∧ load_seg m5 (g SEG_KCPU) = SEG STA_W (c + cpu_cpu) 8 0.
Proof.
  destruct Hc' as [H1 H2]. unfold m5, g. change SEG_KCODE with 1. change SEG_KDATA with 2. change SEG_UCODE with 4.
  change SEG_UDATA with 5. change SEG_KCPU with 3. change cpu_gdt with 112. change cpu_cpu with 180.
  split_and!; repeat (rewrite load_seg_ne by lia); apply load_seg_eq, seg_fits; try lia; by vm_compute.
Qed.

Local Lemma gdt_other a : ¬ (c + 120 ≤ a < c + 160) → rd m5 a = rd (sh_mem h) a.
Proof.
  intros Ha. unfold m5, g, store_seg, store64. change SEG_KCODE with 1. change SEG_KDATA with 2. change SEG_UCODE with 4.
  change SEG_UDATA with 5. change SEG_KCPU with 3. change cpu_gdt with 112. by rewrite !rd_store32_out by lia.
Qed.

Lemma seginit_eq : seginit cpus cpu h =
  Seghw (store32 (store32 m5 (c + cpu_cpu) c) (c + cpu_proc) 0) (55, c + cpu_gdt) (sh_idtr h) 24 (c + cpu_cpu).
Proof.
  destruct Hc' as [H1 H2]. destruct gdt_entries as (_ & _ & _ & _ & E5).
  assert (Eb : seg_base (load_seg m5 (c + cpu_gdt + 8 * 3)) = c + cpu_cpu).
  { unfold g in E5. change SEG_KCPU with 3 in E5. rewrite E5. apply seg_describes; change cpu_cpu with 180; lia. }
  change (seginit cpus cpu h) with (store_gs 4 0 (store_gs 0 c (loadgs (Z.shiftl SEG_KCPU 3)
    (lgdt (c + cpu_gdt) (8 * NSEGS) (set_smem m5 h))))).
  unfold lgdt. rewrite pseudo_desc_eq by (change cpu_gdt with 112; change NSEGS with 7; lia).
  change (8 * NSEGS - 1) with 55. unfold loadgs. cbn [sh_mem sh_gdtr sh_idtr sh_gs sh_gsbase snd].
  change (Z.shiftr (Z.shiftl SEG_KCPU 3) 3) with 3. change (sh_mem (set_smem m5 h)) with m5. rewrite Eb.
  change (Z.shiftl SEG_KCPU 3) with 24. unfold store_gs, set_smem. cbn [sh_mem sh_gdtr sh_idtr sh_gs sh_gsbase].
  rewrite !u32_small by (change cpu_cpu with 180; lia). rewrite Z.add_0_r.
  by replace (c + cpu_cpu + 4) with (c + cpu_proc) by (change cpu_cpu with 180; change cpu_proc with 184; lia).
Qed.
End seginit.

(** The segments of a CPU.  After seginit the kernel's and the user's code and data
    segments are the whole address space, at privilege 0 and 3; the variables at %gs:0,
    %gs:4 and %gs:8 are the fields cpu, proc and thread of the CPU's own structure,
    inside the segment although its limit is given as 8, since the limit counts pages;
    cpu holds the address of the structure and proc is null; nothing but the five
    descriptors and the two variables has changed. *)
Theorem seginit_segments (cpus cpu : Z) (h : seghw) : let c := cpus + sizeof_cpu * cpu in
  0 ≤ c → c + sizeof_cpu ≤ 2 ^ 32 → let h' := seginit cpus cpu h in
  let d := λ i, load_seg (sh_mem h') ((sh_gdtr h').2 + 8 * i) in
  flat (d SEG_KCODE) (Z.lor STA_X STA_R) 0 ∧ flat (d SEG_KDATA) STA_W 0 ∧
  flat (d SEG_UCODE) (Z.lor STA_X STA_R) DPL_USER ∧ flat (d SEG_UDATA) STA_W DPL_USER ∧
  sh_gs h' = 8 * SEG_KCPU ∧ sh_gsbase h' = c + cpu_cpu ∧ seg_base (d SEG_KCPU) = c + cpu_cpu ∧
  cpu_thread + 4 - cpu_cpu ≤ seg_limit (d SEG_KCPU) + 1 ∧ (sh_gdtr h').1 + 1 = 8 * NSEGS ∧
  load32 (sh_mem h') (c + cpu_cpu) = c ∧ load32 (sh_mem h') (c + cpu_proc) = 0 ∧
  ∀ a, ¬ (c + cpu_gdt + 8 ≤ a < c + cpu_gdt + 48) → ¬ (c + cpu_cpu ≤ a < c + cpu_thread) →
    rd (sh_mem h') a = rd (sh_mem h) a.
Proof.
  intros c H1 H2 h' d. pose proof (seginit_eq cpus cpu h H1 H2) as E. fold h' c in E.
  destruct (gdt_entries cpus cpu h H1 H2) as (G1 & G2 & G3 & G4 & G5). fold c in G1, G2, G3, G4, G5.
  change sizeof_cpu with 192 in H2.
  match type of E with _ = Seghw (store32 (store32 ?m _ _) _ _) _ _ _ _ => set (m5 := m) in * end.
  assert (Ed : ∀ i, i < 7 → d i = load_seg m5 (c + cpu_gdt + 8 * i)).
  { intros i Hi. unfold d. rewrite E. cbn [sh_mem sh_gdtr snd]. unfold load_seg. f_equal. f_equal.
    change cpu_cpu with 180. change cpu_proc with 184. change cpu_gdt with 112. rewrite !load64_store32_ne by lia. done. }
  rewrite !Ed by done. rewrite G1, G2, G3, G4, G5. destruct (seg_describes STA_W (c + cpu_cpu) 8 0) as [Eb El];
    [change cpu_cpu with 180; lia|lia|]. rewrite Eb, El, E. cbn [sh_mem sh_gdtr sh_gs sh_gsbase fst].
  change cpu_cpu with 180 in *. change cpu_proc with 184 in *. change cpu_gdt with 112 in *. change cpu_thread with 188 in *.
  refine (conj (SEG_flat _ _) (conj (SEG_flat _ _) (conj (SEG_flat _ _) (conj (SEG_flat _ _) _)))).
  split_and!; try done.
  - rewrite load32_store32_ne by lia. apply load32_store32_eq. lia.
  - by apply load32_store32_eq.
  - intros a Ha Hb. rewrite !rd_store32_out by lia. apply (gdt_other cpus cpu h). fold c. lia.
Qed.

Lemma seginit_segments_witness :
  sh_gsbase (seginit 0x80112000 1 (Seghw ∅ (0, 0) (0, 0) 0 0)) = 0x80112000 + 192 + 180 ∧
  load32 (sh_mem (seginit 0x80112000 1 (Seghw ∅ (0, 0) (0, 0) 0 0))) (0x80112000 + 192 + 180) = 0x80112000 + 192.
Proof.
  destruct (seginit_segments 0x80112000 1 (Seghw ∅ (0, 0) (0, 0) 0 0) ltac:(vm_compute; congruence)
    ltac:(vm_compute; congruence)) as (_ & _ & _ & _ & _ & E & _ & _ & _ & F & _). exact (conj E F).
Defined.

(** The gates after the loop over [n] entries from [i]. *)
Lemma tvinit_loop_gates idt vectors n : (∀ k, 0 ≤ k < 256 → 0 ≤ vectors k < 2 ^ 32) → ∀ i m j,
  0 ≤ i → i + Z.of_nat n ≤ 256 →
  load_gate (tvinit_loop idt vectors n i m) (idt + 8 * j) =
  if decide (i ≤ j < i + Z.of_nat n) then SETGATE false (Z.shiftl SEG_KCODE 3) (vectors j) 0
  else load_gate m (idt + 8 * j).
Proof.
  intros Hv. induction n as [|n IH]; intros i m j H0 Hi; cbn [tvinit_loop]; [by rewrite decide_False by lia|].
  rewrite IH by lia. destruct (decide (j = i)) as [->|Hne].
  - rewrite decide_False, decide_True by lia. apply load_gate_eq, gate_fits; [apply Hv; lia|by vm_compute|lia].
  - unfold idt_set. rewrite load_gate_ne by lia. repeat case_decide; try done; lia.
Qed.

Lemma rd_store_gate m b g a : ¬ (b ≤ a < b + 8) → rd (store_gate m b g) a = rd m a.
Proof. intros Ha. unfold store_gate, store64. by rewrite !rd_store32_out by lia. Qed.

(** tvinit writes to the table only. *)
Lemma tvinit_other idt vectors h a : ¬ (idt ≤ a < idt + 8 * 256) → rd (sh_mem (tvinit idt vectors h)) a = rd (sh_mem h) a.
Proof.
  intros Ha. unfold tvinit, idt_set. cbn [sh_mem set_smem]. rewrite rd_store_gate by (unfold T_SYSCALL; lia).
  assert (Hl : ∀ n i m, 0 ≤ i → i + Z.of_nat n ≤ 256 → rd (tvinit_loop idt vectors n i m) a = rd m a).
  { induction n as [|n IH]; intros i m H0 Hi; cbn [tvinit_loop]; [done|]. rewrite IH by lia.
    unfold idt_set. apply rd_store_gate. lia. }
  by apply Hl.
Qed.

(** The interrupt table.  After tvinit and idtinit the processor finds for each of
    the 256 vectors a present gate to the entry point of that vector in the kernel's
    code segment; software at user level may invoke vector 64, the system call, and no
    other; and exactly that gate leaves the interrupts on. *)
Theorem tvinit_gates (idt : Z) (vectors : Z → Z) (h : seghw) : 0 ≤ idt → idt + 8 * 256 ≤ 2 ^ 32 →
  (∀ i, 0 ≤ i < 256 → 0 ≤ vectors i < 2 ^ 32) → let h' := idtinit idt (tvinit idt vectors h) in
  (sh_idtr h').1 + 1 = 8 * 256 ∧ ∀ n, 0 ≤ n < 256 → let g := load_gate (sh_mem h') ((sh_idtr h').2 + 8 * n) in
    gate_offset g = vectors n ∧ gd_cs g = 8 * SEG_KCODE ∧ gd_p g = 1 ∧ gd_s g = 0 ∧
    (DPL_USER ≤ gd_dpl g ↔ n = T_SYSCALL) ∧ (gd_type g = STS_IG32 ↔ n ≠ T_SYSCALL) ∧
    (gd_type g = STS_TG32 ↔ n = T_SYSCALL).
Proof.
  intros H0 Hmax Hv h'.
  assert (Ei : sh_idtr h' = (8 * 256 - 1, idt)) by (apply (pseudo_desc_eq idt (8 * 256)); lia).
  rewrite Ei. cbn [fst snd]. split; [done|]. intros n Hn. cbv zeta.
  change (sh_mem h') with (idt_set idt T_SYSCALL (SETGATE true (Z.shiftl SEG_KCODE 3) (vectors T_SYSCALL) DPL_USER)
    (tvinit_loop idt vectors 256 0 (sh_mem h))). unfold idt_set. change T_SYSCALL with 64.
  destruct (decide (n = 64)) as [->|Hne].
  - rewrite load_gate_eq by (apply gate_fits; [by apply Hv|by vm_compute|by vm_compute]).
    rewrite gate_describes by (by apply Hv). rewrite gate_fields by (by apply Hv). cbn [gd_cs gd_p gd_s gd_dpl gd_type]. by split_and!.
  - rewrite load_gate_ne by lia. rewrite tvinit_loop_gates by (done || lia). rewrite decide_True by lia.
    rewrite gate_describes by (by apply Hv). rewrite gate_fields by (by apply Hv). cbn [gd_cs gd_p gd_s gd_dpl gd_type].
    change DPL_USER with 3. split_and!; try done; split; intros E; try done; lia.
Qed.

Lemma tvinit_gates_witness : let h' := idtinit 0x80114000 (tvinit 0x80114000 (λ n, 0x80106000 + 8 * n) (Seghw ∅ (0, 0) (0, 0) 0 0)) in
  gate_offset (load_gate (sh_mem h') (0x80114000 + 8 * 64)) = 0x80106000 + 8 * 64.
Proof.
  destruct (tvinit_gates 0x80114000 (λ n, 0x80106000 + 8 * n) (Seghw ∅ (0, 0) (0, 0) 0 0)) as [_ G]; [lia|lia|lia|].
  exact (proj1 (G 64 ltac:(lia))).
Defined.

(** * The task state: switchuvm of vm.c on the descriptor table

    The processor takes the stack for an interrupt in user mode from the task state
    segment.  Vm.v keeps the two fields of it that switchuvm sets; here they are words
    of struct cpu, found through the descriptor that switchuvm puts into the table and
    the selector it loads with ltr. *)

Definition STS_T32A : Z := 0x9.
Definition SEG_TSS : Z := 6.

(** struct taskstate in struct cpu *)
Definition cpu_ts : Z := 8.
Definition ts_esp0 : Z := 4.
Definition ts_ss0 : Z := 8.
Definition sizeof_taskstate : Z := 104.

(** A descriptor with the field s cleared. *)
Definition system_seg (d : segdesc) : segdesc :=
  Segdesc (lim_15_0 d) (base_15_0 d) (base_23_16 d) (sd_type d) 0 (sd_dpl d) (sd_p d) (lim_19_16 d)
    (sd_avl d) (sd_rsv1 d) (sd_db d) (sd_g d) (base_31_24 d).

(** x86.h: ltr, the segment of the table that becomes the task state. *)
Definition ltr (sel : Z) (h : seghw) : segdesc := load_seg (sh_mem h) ((sh_gdtr h).2 + 8 * Z.shiftr sel 3).

(** The part of switchuvm between pushcli and the test of the page directory; [c] is the
    address of the structure of the CPU. *)
Definition switch_tss (c kstack : Z) (h : seghw) : segdesc * seghw :=
  let h := gdt_set c SEG_TSS (SEG16 STS_T32A (c + cpu_ts) (sizeof_taskstate - 1) 0) h in
  let h := gdt_set c SEG_TSS (system_seg (load_seg (sh_mem h) (c + cpu_gdt + 8 * SEG_TSS))) h in
  let h := set_smem (store16 (sh_mem h) (c + cpu_ts + ts_ss0) (Z.shiftl SEG_KDATA 3)) h in
  let h := set_smem (store32 (sh_mem h) (c + cpu_ts + ts_esp0) (u32 (kstack + KSTACKSIZE))) h in
  (ltr (Z.shiftl SEG_TSS 3) h, h).

(** The stack the processor switches to: ss0 and esp0 of the task state. *)
Definition interrupt_stack (d : segdesc) (h : seghw) : Z * Z :=
  (load16 (sh_mem h) (seg_base d + ts_ss0), load32 (sh_mem h) (seg_base d + ts_esp0)).

Lemma seg16_fields type base lim dpl : 0 ≤ base < 2 ^ 32 → 0 ≤ lim < 2 ^ 16 →
  SEG16 type base lim dpl = Segdesc lim (base mod 2 ^ 16) (base / 2 ^ 16 mod 2 ^ 8) type 1 dpl 1
    0 0 0 1 0 (base / 2 ^ 24).
Proof.
  intros Hb Hl. unfold SEG16. rewrite !u32_small by lia. rewrite !Z.shiftr_div_pow2 by lia.
  change 0xffff with (Z.ones 16). change 0xff with (Z.ones 8). rewrite !land_mod by lia.
  by rewrite (Z.mod_small lim), (Z.div_small lim) by lia.
Qed.

Lemma seg16_fits (sys : bool) type base lim dpl : 0 ≤ base < 2 ^ 32 → 0 ≤ lim < 2 ^ 16 → 0 ≤ type < 16 → 0 ≤ dpl < 4 →
  let d := SEG16 type base lim dpl in fits segdesc_widths (segdesc_list (if sys then system_seg d else d)).
Proof.
  intros Hb Hl Ht Hd d. subst d. rewrite seg16_fields by done. unfold segdesc_widths, segdesc_list, fits.
  assert (0 ≤ base / 2 ^ 24 < 2 ^ 8) by (split; [apply Z.div_pos; lia|apply Z.div_lt_upper_bound; lia]).
  destruct sys; cbn [system_seg lim_15_0 base_15_0 base_23_16 sd_type sd_s sd_dpl sd_p lim_19_16 sd_avl sd_rsv1 sd_db sd_g base_31_24];
  repeat (apply Forall2_cons; split); try apply Forall2_nil_2; (split; [lia|]); try lia; apply Z.mod_pos_bound; lia.
Qed.

Lemma seg16_base (type base lim dpl : Z) : 0 ≤ base < 2 ^ 32 → 0 ≤ lim < 2 ^ 16 →
  seg_base (system_seg (SEG16 type base lim dpl)) = base ∧ seg_limit (system_seg (SEG16 type base lim dpl)) = lim.
Proof.
  intros Hb Hl. rewrite seg16_fields by done. unfold seg_base, seg_limit, system_seg.
  cbn [base_15_0 base_23_16 base_31_24 lim_15_0 lim_19_16 sd_g]. change (0 =? 1) with false. cbv iota.
  split; [|lia].
  pose proof (Z.div_mod base (2 ^ 16) ltac:(lia)). pose proof (Z.div_mod (base / 2 ^ 16) (2 ^ 8) ltac:(lia)) as E.
  rewrite Z.div_div in E by lia. change (2 ^ 16 * 2 ^ 8) with (2 ^ 24) in E. lia.
Qed.

Lemma load_seg_ext m m' a : (∀ i, 0 ≤ i < 8 → rd m (a + i) = rd m' (a + i)) → load_seg m a = load_seg m' a.
Proof.
  intros H. unfold load_seg, load64. rewrite (load32_ext m m' a), (load32_ext m m' (a + 4)); [done| |].
  - intros i Hi. rewrite <- Z.add_assoc. apply H. lia.
  - intros i Hi. apply H. lia.
Qed.

(** The task state segment is the field ts of the structure of the CPU, a present system
    segment of the kernel, and the stack the processor finds in it is the top of the
    kernel stack given, in the kernel's data segment; the other descriptors are as they
    were. *)
Theorem switch_tss_stack (c kstack : Z) (h : seghw) : 0 ≤ c → c + sizeof_cpu ≤ 2 ^ 32 →
  (sh_gdtr h).2 = c + cpu_gdt → let '(d, h') := switch_tss c kstack h in
  seg_base d = c + cpu_ts ∧ seg_limit d = sizeof_taskstate - 1 ∧ sd_type d = STS_T32A ∧ sd_s d = 0 ∧
  sd_dpl d = 0 ∧ sd_p d = 1 ∧ interrupt_stack d h' = (Z.shiftl SEG_KDATA 3, u32 (kstack + KSTACKSIZE)) ∧
  ∀ i, 0 ≤ i < SEG_TSS → load_seg (sh_mem h') (c + cpu_gdt + 8 * i) = load_seg (sh_mem h) (c + cpu_gdt + 8 * i).
Proof.
  intros H0 H1 Hg. change sizeof_cpu with 192 in H1. set (e := SEG16 STS_T32A (c + cpu_ts) (sizeof_taskstate - 1) 0).
  assert (Hr : 0 ≤ c + cpu_ts < 2 ^ 32) by (change cpu_ts with 8; lia).
  pose proof (seg16_fits false STS_T32A (c + cpu_ts) (sizeof_taskstate - 1) 0 Hr ltac:(done) ltac:(done) ltac:(done)) as Hf.
  pose proof (seg16_fits true STS_T32A (c + cpu_ts) (sizeof_taskstate - 1) 0 Hr ltac:(done) ltac:(done) ltac:(done)) as Hf'.
  destruct (seg16_base STS_T32A (c + cpu_ts) (sizeof_taskstate - 1) 0 Hr ltac:(done)) as [Eb El].
  cbn zeta iota in Hf, Hf'. fold e in Hf, Hf', Eb, El. unfold switch_tss. fold e.
  unfold gdt_set, set_smem. cbn [sh_mem sh_gdtr sh_idtr sh_gs sh_gsbase].
  rewrite (load_seg_eq _ _ e Hf). set (g := c + cpu_gdt + 8 * SEG_TSS).
  set (m2 := store_seg (store_seg (sh_mem h) g e) g (system_seg e)).
  unfold ltr. cbn [sh_mem sh_gdtr]. rewrite Hg. change (Z.shiftr (Z.shiftl SEG_TSS 3) 3) with SEG_TSS. fold g.
  assert (Hout : ∀ i, 0 ≤ i < 7 → load_seg (store32 (store16 m2 (c + cpu_ts + ts_ss0) (Z.shiftl SEG_KDATA 3))
      (c + cpu_ts + ts_esp0) (u32 (kstack + KSTACKSIZE))) (c + cpu_gdt + 8 * i) = load_seg m2 (c + cpu_gdt + 8 * i)).
  { intros i Hi. apply load_seg_ext. change cpu_ts with 8. change ts_ss0 with 8. change ts_esp0 with 4.
    change cpu_gdt with 112. intros b Hb. rewrite rd_store32_out, rd_store16_out by lia. done. }
  pose proof (Hout SEG_TSS ltac:(done)) as E6. fold g in E6. rewrite E6.
  assert (E2 : load_seg m2 g = system_seg e) by (apply load_seg_eq, Hf'). rewrite !E2.
  rewrite Eb, El. split_and!; try done.
  - unfold interrupt_stack. cbn [sh_mem]. rewrite Eb.
    rewrite load32_store32_eq by apply u32_range. f_equal.
    rewrite <- (load16_store16_eq m2 (c + cpu_ts + ts_ss0) (Z.shiftl SEG_KDATA 3)) at 2 by done.
    unfold load16. change ts_ss0 with 8. change ts_esp0 with 4. by rewrite !rd_store32_out by lia.
  - cbn [sh_mem]. intros i Hi. rewrite Hout by (change SEG_TSS with 6 in Hi; lia). unfold m2, g.
    change SEG_TSS with 6 in *. by rewrite !load_seg_ne by lia.
Qed.
