(* ===== verification/Boot.v ===== *)
(** * bootmain.c: the boot loader

    The disk is an [IdeDevice] as for ide.c: waiting for the ready bits is the device
    being ready, and the 128 words insl takes from the data register are the sector.
    Memory is physical memory. *)

From stdpp Require Import base gmap list strings.
From Stdlib Require Import ZArith Lia.
From S2P Require Import Prelude Params Kmonad Cstring Bio Ide Exec.

Definition SECTSIZE : Z := 512.

Section boot.
Context {disk : Type} `{!IdeDevice disk}.

Record bootst : Type := Bootst { b_mem : mem; b_hw : disk }.

Definition set_bmem (m : mem) (s : bootst) : bootst := Bootst m (b_hw s).

Definition readsect (dst offset : Z) (s : bootst) : bootst :=
  let r := Idereg 1 (u8 offset) (u8 (Z.shiftr offset 8)) (u8 (Z.shiftr offset 16))
             (u8 (Z.lor (Z.shiftr offset 24) 0xE0)) IDE_CMD_READ in
  let p := perform r [] (b_hw s) in
  Bootst (wr_list (b_mem s) dst p.1) p.2.

Fixpoint readseg_loop (fuel : nat) (pa epa offset : Z) (s : bootst) : bootst :=
  match fuel with
  | O => s
  | S f => if pa <? epa then readseg_loop f (u32 (pa + SECTSIZE)) epa (u32 (offset + 1)) (readsect pa offset s) else s
  end.

(** The loop moves [pa] by a sector each round, so that it ends in count / 512 + 2 rounds. *)
Definition readseg (pa count offset : Z) (s : bootst) : bootst :=
  let epa := u32 (pa + count) in
  readseg_loop (Z.to_nat (count / SECTSIZE) + 3) (u32 (pa - offset mod SECTSIZE)) epa (u32 (offset / SECTSIZE + 1)) s.

(** struct elfhdr and struct proghdr in memory *)
Definition elf_magic (m : mem) (a : Z) : Z := load32 m a.
Definition elf_entry (m : mem) (a : Z) : Z := load32 m (a + 24).
Definition elf_phoff (m : mem) (a : Z) : Z := load32 m (a + 28).
Definition elf_phnum (m : mem) (a : Z) : Z := load16 m (a + 44).
Definition prog_off (m : mem) (a : Z) : Z := load32 m (a + 4).
Definition prog_paddr (m : mem) (a : Z) : Z := load32 m (a + 12).
Definition prog_filesz (m : mem) (a : Z) : Z := load32 m (a + 16).
Definition prog_memsz (m : mem) (a : Z) : Z := load32 m (a + 20).

Definition boot_seg (ph : Z) (s : bootst) : bootst :=
  let pa := prog_paddr (b_mem s) ph in
  let filesz := prog_filesz (b_mem s) ph in
  let s := readseg pa filesz (prog_off (b_mem s) ph) s in
  if prog_memsz (b_mem s) ph >? prog_filesz (b_mem s) ph then
    set_bmem (stosb (b_mem s) (u32 (pa + prog_filesz (b_mem s) ph)) 0
      (Z.to_nat (u32 (prog_memsz (b_mem s) ph - prog_filesz (b_mem s) ph)))) s
  else s.

Fixpoint seg_loop (fuel : nat) (ph eph : Z) (s : bootst) : bootst :=
  match fuel with
  | O => s
  | S f => if ph <? eph then seg_loop f (u32 (ph + sizeof_proghdr)) eph (boot_seg ph s) else s
  end.

(** The result is the entry point that is called, [None] when bootmain returns. *)
Definition bootmain (s : bootst) : option Z * bootst :=
  let elf := 0x10000 in
  let s := readseg elf 4096 0 s in
  if negb (elf_magic (b_mem s) elf =? ELF_MAGIC) then (None, s)
  else
    let ph := u32 (elf + elf_phoff (b_mem s) elf) in
    let n := elf_phnum (b_mem s) elf in
    let s := seg_loop (S (Z.to_nat n)) ph (u32 (ph + sizeof_proghdr * n)) s in
    (Some (elf_entry (b_mem s) elf), s).
End boot.

(** ** One sector *)

Lemma wr_list_rd l : ∀ m a b, rd (wr_list m a l) b =
  if (a <=? b) && (b <? a + Z.of_nat (length l)) then u8 (l.[Z.to_nat (b - a)]) else rd m b.
Proof.
  induction l as [|c l IH]; intros m a b; cbn [wr_list length].
  - destruct (Z.leb_spec a b), (Z.ltb_spec b (a + Z.of_nat 0)); try done; lia.
  - rewrite IH, rd_wr. destruct (Z.eqb_spec a b) as [->|Hne].
    + rewrite (proj2 (Z.leb_gt (b + 1) b)), Z.leb_refl by lia. cbn [andb].
      rewrite (proj2 (Z.ltb_lt b (b + Z.of_nat (S (length l))))) by lia.
      by rewrite Z.sub_diag.
    + destruct (Z.leb_spec (a + 1) b), (Z.leb_spec a b), (Z.ltb_spec b (a + 1 + Z.of_nat (length l))),
        (Z.ltb_spec b (a + Z.of_nat (S (length l)))); cbn [andb]; try done; try lia.
      replace (Z.to_nat (b - a)) with (S (Z.to_nat (b - (a + 1)))) by lia. done.
Qed.

(** The registers readsect writes name the sector on the first drive. *)
Lemma read_regs_names o : 0 ≤ o < 2 ^ 28 →
  let r := Idereg 1 (u8 o) (u8 (Z.shiftr o 8)) (u8 (Z.shiftr o 16)) (u8 (Z.lor (Z.shiftr o 24) 0xE0)) IDE_CMD_READ in
  reg_sector r = o ∧ reg_drive r = false.
Proof.
  intros Ho. cbn zeta. unfold reg_sector, reg_drive. cbn [lba0 lba1 lba2 drv].
  assert (H24 : 0 ≤ Z.shiftr o 24 < 16).
  { rewrite Z.shiftr_div_pow2 by lia. split; [apply Z.div_pos; lia|apply Z.div_lt_upper_bound; lia]. }
  assert (E : u8 (Z.lor (Z.shiftr o 24) 0xE0) = Z.lor (Z.shiftr o 24) 0xE0).
  { apply u8_small. split; [apply Z.lor_nonneg; lia|].
    apply Z.log2_lt_cancel. rewrite Z.log2_lor by lia. change (Z.log2 (2 ^ 8)) with 8. change (Z.log2 0xE0) with 7.
    apply Z.max_lub_lt; [|lia]. destruct (Z.eq_dec (Z.shiftr o 24) 0) as [->|]; [done|]. apply Z.log2_lt_pow2; lia. }
  rewrite E. split.
  - rewrite Z.land_lor_distr_l. change (Z.land 0xE0 0x0f) with 0. rewrite Z.lor_0_r.
    change 0x0f with (Z.ones 4). rewrite Z.land_ones, Z.mod_small by lia.
    pose proof (byte_split o ltac:(lia)) as Hb. rewrite (u8_small (Z.shiftr o 24)) in Hb by lia. done.
  - rewrite Z.lor_spec. change (Z.testbit 0xE0 4) with false. rewrite orb_false_r.
    destruct (Z.eq_dec (Z.shiftr o 24) 0) as [->|]; [done|].
    apply Z.bits_above_log2; [lia|]. apply Z.log2_lt_pow2; lia.
Qed.

Section spec.
Context {disk : Type} `{!IdeDevice disk}.
Notation bst := (bootst (disk := disk)).

(** The kernel image: the first disk from sector 1 on. *)
Definition kbyte (d : disk) (o : Z) : Z := (contents d false (1 + o / 512)).[Z.to_nat (o mod 512)].

(** Sectors are 512 bytes. *)
Definition disk_ok (d : disk) : Prop := ∀ x, length (contents d false x) = 512%nat ∧
  ∀ i, 0 ≤ (contents d false x).[i] < 2 ^ 8.

Definition same_disk (d d' : disk) : Prop := ∀ v x, contents d' v x = contents d v x.

Lemma readsect_spec (s : bst) dst o : disk_ok (b_hw s) → 0 ≤ o < 2 ^ 28 →
  let s' := readsect dst o s in same_disk (b_hw s) (b_hw s') ∧
  ∀ a, rd (b_mem s') a = if (dst <=? a) && (a <? dst + 512) then (contents (b_hw s) false o).[Z.to_nat (a - dst)]
                         else rd (b_mem s) a.
Proof.
  intros Hd Ho. unfold readsect. destruct (read_regs_names o Ho) as [E1 E2].
  set (r := Idereg 1 _ _ _ _ _) in *. destruct (perform_read r [] (b_hw s) eq_refl eq_refl) as [P1 P2].
  rewrite E1, E2 in P1. cbn [b_mem b_hw]. split; [intros v x; apply P2|].
  intros a. rewrite P1, wr_list_rd. destruct (Hd o) as [L R]. rewrite L. change (Z.of_nat 512) with 512.
  destruct (_ && _); [|done]. apply u8_small, R.
Qed.

Lemma kbyte_same d d' o : same_disk d d' → kbyte d' o = kbyte d o.
Proof. intros H. unfold kbyte. by rewrite (H false). Qed.

Lemma kbyte_first d o i : 0 ≤ i < 512 → kbyte d (512 * (o - 1) + i) = (contents d false o).[Z.to_nat i].
Proof.
  intros Hi. unfold kbyte. rewrite (Z.add_comm (512 * (o - 1))), (Z.mul_comm 512), Z.div_add, Z.mod_add by lia.
  rewrite Z.div_small, Z.mod_small by lia. f_equal. f_equal. lia.
Qed.

(** The sectors from [o] on, at [pa] and up to [epa]. *)
Lemma readseg_loop_spec fuel : ∀ (s : bst) pa epa o, disk_ok (b_hw s) →
  0 ≤ pa → 0 ≤ epa → epa + 512 ≤ 2 ^ 32 → 1 ≤ o → o + (epa - pa) / 512 + 1 < 2 ^ 28 →
  epa - pa ≤ 512 * (Z.of_nat fuel - 1) →
  let n := Z.max 0 ((epa - pa + 511) / 512) in let s' := readseg_loop fuel pa epa o s in
  same_disk (b_hw s) (b_hw s') ∧
  ∀ a, rd (b_mem s') a = if (pa <=? a) && (a <? pa + 512 * n) then kbyte (b_hw s) (512 * (o - 1) + (a - pa))
                         else rd (b_mem s) a.
Proof.
  induction fuel as [|fuel IH]; intros s pa epa o Hd Hpa Hepa Hmax Ho Hsec Hf.
  { replace (Z.max 0 _) with 0 by (pose proof (Z.div_lt_upper_bound (epa - pa + 511) 512 1); lia).
    split; [done|]. intros a. cbn [readseg_loop].
    destruct (Z.leb_spec pa a), (Z.ltb_spec a (pa + 512 * 0)); cbn [andb]; try done; lia. }
  cbn [readseg_loop]. destruct (Z.ltb_spec pa epa) as [Hlt|Hge].
  2: { replace (Z.max 0 _) with 0 by (pose proof (Z.div_lt_upper_bound (epa - pa + 511) 512 1); lia).
    split; [done|]. intros a. destruct (Z.leb_spec pa a), (Z.ltb_spec a (pa + 512 * 0)); cbn [andb]; try done; lia. }
  change SECTSIZE with 512. assert (Hq : 0 ≤ (epa - pa) / 512) by (apply Z.div_pos; lia).
  rewrite (u32_small (pa + 512)), (u32_small (o + 1)) by lia.
  destruct (readsect_spec s pa o Hd ltac:(lia)) as [D1 R1].
  set (s1 := readsect pa o s) in *.
  assert (Hd1 : disk_ok (b_hw s1)) by (intros x; rewrite (D1 false x); apply Hd).
  destruct (IH s1 (pa + 512) epa (o + 1) Hd1) as [D2 R2]; try lia.
  { replace (epa - (pa + 512)) with (epa - pa + -1 * 512) by lia. rewrite Z.div_add by lia. lia. }
  split; [intros v x; by rewrite D2|]. intros a. rewrite R2, R1.
  replace (epa - (pa + 512) + 511) with (epa - pa + 511 + -1 * 512) by lia. rewrite Z.div_add by lia.
  assert (Hn : 1 ≤ (epa - pa + 511) / 512) by (apply Z.div_le_lower_bound; lia).
  set (n := (epa - pa + 511) / 512) in *. rewrite !Z.max_r by lia.
  rewrite (kbyte_same (b_hw s)) by done. replace (512 * (o + 1 - 1) + (a - (pa + 512))) with (512 * (o - 1) + (a - pa)) by lia.
  destruct (Z.leb_spec (pa + 512) a), (Z.ltb_spec a (pa + 512 + 512 * (n + -1))), (Z.leb_spec pa a),
    (Z.ltb_spec a (pa + 512)), (Z.ltb_spec a (pa + 512 * n)); cbn [andb]; try done; try lia.
  symmetry. apply kbyte_first; lia.
Qed.

Lemma readseg_spec (s : bst) pa count o : disk_ok (b_hw s) → 0 ≤ count → 0 ≤ o → o mod 512 ≤ pa →
  pa + count + 512 ≤ 2 ^ 32 → (o + count) / 512 + 3 < 2 ^ 28 →
  let pa0 := pa - o mod 512 in let s' := readseg pa count o s in
  same_disk (b_hw s) (b_hw s') ∧
  ∀ a, rd (b_mem s') a = if (pa0 <=? a) && (a <? pa0 + 512 * ((count + o mod 512 + 511) / 512))
                         then kbyte (b_hw s) (o + (a - pa)) else rd (b_mem s) a.
Proof.
  intros Hd Hc Ho Hr Hmax Hs. set (r := o mod 512) in *. cbn zeta.
  pose proof (Z.mod_pos_bound o 512 ltac:(lia)) as Hm. fold r in Hm. pose proof (Z.div_mod o 512 ltac:(lia)) as Eo. fold r in Eo.
  pose proof (Z.div_pos o 512 ltac:(lia) ltac:(lia)) as Hq. pose proof (Z.div_mod count 512 ltac:(lia)) as Ec.
  pose proof (Z.mod_pos_bound count 512 ltac:(lia)). pose proof (Z.div_pos count 512 ltac:(lia) ltac:(lia)).
  assert (Hle : o / 512 + (count + r) / 512 ≤ (o + count) / 512).
  { replace (o + count) with (count + r + o / 512 * 512) by lia. rewrite Z.div_add by lia. lia. }
  pose proof (Z.div_pos (count + r) 512 ltac:(lia) ltac:(lia)).
  unfold readseg. change SECTSIZE with 512. fold r.
  rewrite (u32_small (pa + count)), (u32_small (pa - r)), (u32_small (o / 512 + 1)) by lia.
  destruct (readseg_loop_spec (Z.to_nat (count / 512) + 3) s (pa - r) (pa + count) (o / 512 + 1) Hd) as [D R]; try lia.
  { replace (pa + count - (pa - r)) with (count + r) by lia. lia. }
  split; [exact D|]. intros a. rewrite R. replace (pa + count - (pa - r) + 511) with (count + r + 511) by lia.
  rewrite Z.max_r by (apply Z.div_pos; lia). replace (512 * (o / 512 + 1 - 1) + (a - (pa - r))) with (o + (a - pa)) by lia.
  done.
Qed.

(** ** The kernel image *)

Definition kword (d : disk) (o : Z) : Z :=
  kbyte d o + 2 ^ 8 * kbyte d (o + 1) + 2 ^ 16 * kbyte d (o + 2) + 2 ^ 24 * kbyte d (o + 3).

(** A segment the program header at offset [o] describes. *)
Record pseg : Type := Pseg { g_off : Z; g_pa : Z; g_filesz : Z; g_memsz : Z }.
Definition pseg_at (d : disk) (o : Z) : pseg :=
  Pseg (kword d (o + 4)) (kword d (o + 12)) (kword d (o + 16)) (kword d (o + 20)).

(** The bytes loading a segment can change: whole sectors, and the part that is cleared. *)
Definition g_lo (g : pseg) : Z := g_pa g - g_off g mod 512.
Definition g_hi (g : pseg) : Z := Z.max (g_pa g + g_filesz g + 511) (g_pa g + g_memsz g).

(** The segment can be loaded without running into the header. *)
Record pseg_ok (g : pseg) : Prop := PsegOk {
  po_size : 0 ≤ g_filesz g ≤ g_memsz g;
  po_off : 0 ≤ g_off g;
  po_lo : 0 ≤ g_lo g;
  po_hi : g_hi g + 1 ≤ 2 ^ 32;
  po_disk : (g_off g + g_filesz g) / 512 + 3 < 2 ^ 28;
  po_hdr : g_hi g ≤ 0x10000 ∨ 0x11000 ≤ g_lo g
}.

Definition header_in (d : disk) (m : mem) : Prop := ∀ a, 0x10000 ≤ a < 0x11000 → rd m a = kbyte d (a - 0x10000).

(** The segment is in memory. *)
Definition loaded (d : disk) (g : pseg) (m : mem) : Prop :=
  ∀ i, 0 ≤ i < g_memsz g → rd m (g_pa g + i) = if i <? g_filesz g then kbyte d (g_off g + i) else 0.

Lemma header_load32 d m o : header_in d m → 0 ≤ o → o + 4 ≤ 4096 → load32 m (0x10000 + o) = kword d o.
Proof.
  intros H H0 Ho. unfold load32, kword. rewrite !H by lia.
  replace (0x10000 + o - 0x10000) with o by lia. replace (0x10000 + o + 1 - 0x10000) with (o + 1) by lia.
  replace (0x10000 + o + 2 - 0x10000) with (o + 2) by lia. by replace (0x10000 + o + 3 - 0x10000) with (o + 3) by lia.
Qed.

Lemma boot_seg_spec (s : bst) d o : let g := pseg_at d o in disk_ok (b_hw s) → same_disk d (b_hw s) →
  header_in d (b_mem s) → 0 ≤ o → o + 32 ≤ 4096 → pseg_ok g →
  let s' := boot_seg (0x10000 + o) s in
  same_disk (b_hw s) (b_hw s') ∧ loaded d g (b_mem s') ∧
  ∀ a, ¬ (g_lo g ≤ a < g_hi g) → rd (b_mem s') a = rd (b_mem s) a.
Proof.
  intros g Hd Hsd Hh H0 Ho [[P1 P1'] P2 P3 P4 P5 P6]. cbn zeta.
  assert (Hw : ∀ m, header_in d m → prog_paddr m (0x10000 + o) = g_pa g ∧ prog_filesz m (0x10000 + o) = g_filesz g ∧
    prog_off m (0x10000 + o) = g_off g ∧ prog_memsz m (0x10000 + o) = g_memsz g).
  { intros m Hm. unfold prog_paddr, prog_filesz, prog_off, prog_memsz. rewrite <- !Z.add_assoc.
    rewrite !(header_load32 d m) by (done || lia). done. }
  unfold boot_seg. destruct (Hw _ Hh) as (-> & -> & -> & _). unfold g_lo, g_hi in *.
  pose proof (Z.mod_pos_bound (g_off g) 512 ltac:(lia)) as Hm.
  destruct (readseg_spec s (g_pa g) (g_filesz g) (g_off g) Hd ltac:(lia) ltac:(lia) ltac:(lia) ltac:(lia) ltac:(lia)) as [D R].
  set (s1 := readseg (g_pa g) (g_filesz g) (g_off g) s) in *.
  assert (Hn : 512 * ((g_filesz g + g_off g mod 512 + 511) / 512) ≤ g_filesz g + g_off g mod 512 + 511)
    by (apply Z.mul_div_le; lia).
  assert (Hh1 : header_in d (b_mem s1)).
  { intros a Ha. rewrite R. destruct (Z.leb_spec (g_pa g - g_off g mod 512) a), (Z.ltb_spec a (g_pa g - g_off g mod 512 +
      512 * ((g_filesz g + g_off g mod 512 + 511) / 512))); cbn [andb]; try (by apply Hh). exfalso. lia. }
  destruct (Hw _ Hh1) as (_ & -> & _ & ->).
  assert (Hfile : ∀ a, g_pa g ≤ a < g_pa g + g_filesz g → rd (b_mem s1) a = kbyte d (g_off g + (a - g_pa g))).
  { intros a Ha. rewrite R, (kbyte_same d) by done. pose proof (Z.div_mod (g_filesz g + g_off g mod 512 + 511) 512 ltac:(lia)).
    pose proof (Z.mod_pos_bound (g_filesz g + g_off g mod 512 + 511) 512 ltac:(lia)).
    by rewrite (proj2 (Z.leb_le _ _)), (proj2 (Z.ltb_lt _ _)) by lia. }
  assert (Hout : ∀ a, ¬ (g_pa g - g_off g mod 512 ≤ a < g_pa g + g_filesz g + 511) → rd (b_mem s1) a = rd (b_mem s) a).
  { intros a Ha. rewrite R. destruct (Z.leb_spec (g_pa g - g_off g mod 512) a), (Z.ltb_spec a (g_pa g - g_off g mod 512 +
      512 * ((g_filesz g + g_off g mod 512 + 511) / 512))); cbn [andb]; try done. exfalso. lia. }
  rewrite Z.gtb_ltb. destruct (Z.ltb_spec (g_filesz g) (g_memsz g)) as [Hlt|Hge].
  - rewrite !u32_small by lia. cbn [set_bmem b_hw b_mem]. split; [exact D|]. split.
    + intros i Hi. rewrite stosb_spec, Z2Nat.id by lia. destruct (Z.ltb_spec i (g_filesz g)).
      * rewrite (proj2 (Z.leb_gt _ _)) by lia. cbn [andb]. rewrite Hfile by lia. f_equal. lia.
      * by rewrite (proj2 (Z.leb_le _ _)), (proj2 (Z.ltb_lt _ _)) by lia.
    + intros a Ha. rewrite stosb_spec, Z2Nat.id by lia. rewrite Hout by lia.
      destruct (Z.leb_spec (g_pa g + g_filesz g) a), (Z.ltb_spec a (g_pa g + g_filesz g + (g_memsz g - g_filesz g)));
        cbn [andb]; try done. exfalso. lia.
  - split; [exact D|]. split; [|intros a Ha; apply Hout; lia].
    intros i Hi. rewrite (proj2 (Z.ltb_lt i (g_filesz g))) by lia. rewrite Hfile by lia. f_equal. lia.
Qed.

(** ** The loader *)

Definition k_phoff (d : disk) : Z := kword d 28.
Definition k_phnum (d : disk) : Z := kbyte d 44 + 2 ^ 8 * kbyte d 45.
Definition pseg_no (d : disk) (i : Z) : pseg := pseg_at d (k_phoff d + 32 * i).

(** A kernel the loader can load: its headers are in the first page, and what is loaded
    does not run into a segment loaded before. *)
Record kernel_ok (d : disk) : Prop := KernelOk {
  ko_disk : disk_ok d;
  ko_magic : kword d 0 = ELF_MAGIC;
  ko_hdrs : 0 ≤ k_phoff d ∧ 0 ≤ k_phnum d ∧ k_phoff d + 32 * k_phnum d ≤ 4096;
  ko_seg : ∀ i, 0 ≤ i < k_phnum d → pseg_ok (pseg_no d i);
  ko_apart : ∀ i j, 0 ≤ i < j → j < k_phnum d →
    g_hi (pseg_no d j) ≤ g_pa (pseg_no d i) ∨ g_pa (pseg_no d i) + g_memsz (pseg_no d i) ≤ g_lo (pseg_no d j)
}.

Lemma seg_loop_spec d fuel : kernel_ok d → ∀ (s : bst) i, 0 ≤ i ≤ k_phnum d →
  Z.of_nat fuel = k_phnum d - i + 1 → same_disk d (b_hw s) → header_in d (b_mem s) →
  (∀ j, 0 ≤ j < i → loaded d (pseg_no d j) (b_mem s)) →
  let s' := seg_loop fuel (0x10000 + (k_phoff d + 32 * i)) (0x10000 + (k_phoff d + 32 * k_phnum d)) s in
  same_disk d (b_hw s') ∧ header_in d (b_mem s') ∧ ∀ j, 0 ≤ j < k_phnum d → loaded d (pseg_no d j) (b_mem s').
Proof.
  intros Hk. pose proof Hk as [K1 _ (K3 & K3' & K3'') K4 K5].
  induction fuel as [|fuel IH]; intros s i Hi Hf Hs Hh Hl; [lia|]. cbn [seg_loop].
  destruct (Z.ltb_spec (0x10000 + (k_phoff d + 32 * i)) (0x10000 + (k_phoff d + 32 * k_phnum d))) as [Hlt|Hge].
  2: { split_and!; [done|done|]. intros j Hj. apply Hl. lia. }
  assert (Hdk : disk_ok (b_hw s)) by (intros x; rewrite (Hs false x); apply K1).
  pose proof (K4 i ltac:(lia)) as Hok.
  destruct (boot_seg_spec s d (k_phoff d + 32 * i) Hdk Hs Hh ltac:(lia) ltac:(lia) Hok) as (D & Ld & Ot).
  set (s1 := boot_seg (0x10000 + (k_phoff d + 32 * i)) s) in *. fold (pseg_no d i) in Ld, Ot.
  change sizeof_proghdr with 32. rewrite u32_small by lia.
  replace (0x10000 + (k_phoff d + 32 * i) + 32) with (0x10000 + (k_phoff d + 32 * (i + 1))) by lia.
  apply IH; [lia|lia|intros v x; by rewrite D| |].
  - intros a Ha. rewrite Ot; [by apply Hh|]. pose proof (po_hdr _ Hok). lia.
  - intros j Hj. destruct (decide (j = i)) as [->|Hne]; [done|]. intros b Hb.
    rewrite Ot; [apply Hl; lia|]. pose proof (K5 j i ltac:(lia) ltac:(lia)). lia.
Qed.

Lemma first_page (s : bst) : disk_ok (b_hw s) → let s' := readseg 0x10000 4096 0 s in
  same_disk (b_hw s) (b_hw s') ∧ header_in (b_hw s) (b_mem s').
Proof.
  intros Hd. destruct (readseg_spec s 0x10000 4096 0 Hd ltac:(lia) ltac:(lia) ltac:(done) ltac:(lia) ltac:(done)) as [D R].
  split; [exact D|]. intros a Ha. rewrite R. change (0 mod 512) with 0.
  change (0x10000 - 0 + 512 * ((4096 + 0 + 511) / 512)) with 0x11000.
  rewrite (proj2 (Z.leb_le _ _)), (proj2 (Z.ltb_lt _ _)) by lia. cbn [andb]. by rewrite Z.add_0_l.
Qed.

(** C38: The boot loader loads the kernel.  If the first disk has an ELF image from sector
    1 on whose headers are in its first page and whose segments, with the whole sectors
    that are read, run neither into the header nor into segments loaded before, then
    bootmain calls the entry point of the image with every segment at its physical
    address, its bytes from the file followed by zeros up to its size in memory; without
    the magic number it returns. *)
Theorem bootmain_loads (s : bst) : disk_ok (b_hw s) →
  (kernel_ok (b_hw s) → ∃ s', bootmain s = (Some (kword (b_hw s) 24), s') ∧
    ∀ i, 0 ≤ i < k_phnum (b_hw s) → loaded (b_hw s) (pseg_no (b_hw s) i) (b_mem s')) ∧
  (kword (b_hw s) 0 ≠ ELF_MAGIC → (bootmain s).1 = None).
Proof.
  intros Hd. destruct (first_page s Hd) as [D H]. set (d := b_hw s) in *.
  assert (Em : elf_magic (b_mem (readseg 0x10000 4096 0 s)) 0x10000 = kword d 0).
  { unfold elf_magic. change 0x10000 with (0x10000 + 0) at 2. apply (header_load32 d); [done|lia|lia]. }
  unfold bootmain. rewrite Em. set (s1 := readseg 0x10000 4096 0 s) in *. split.
  2: { intros Hne. by rewrite (proj2 (Z.eqb_neq _ _) Hne). }
  intros Hk. pose proof Hk as [_ K2 (K3 & K3' & K3'') _ _]. rewrite (proj2 (Z.eqb_eq _ _) K2). cbn [negb].
  assert (Ep : elf_phoff (b_mem s1) 0x10000 = k_phoff d) by (apply (header_load32 d); [done|lia|lia]).
  assert (En : elf_phnum (b_mem s1) 0x10000 = k_phnum d).
  { unfold elf_phnum, load16. rewrite !H by lia. done. }
  rewrite Ep, En. change sizeof_proghdr with 32. rewrite !u32_small by lia. rewrite <- Z.add_assoc.
  pose proof (seg_loop_spec d (S (Z.to_nat (k_phnum d))) Hk s1 0 ltac:(lia) ltac:(lia) D H ltac:(lia)) as (_ & H2 & L).
  rewrite Z.mul_0_r, Z.add_0_r in H2, L. eexists. split; [|exact L].
  f_equal. f_equal. by apply (header_load32 d); [|lia|lia].
Qed.
End spec.

(** A kernel of one segment: 10 bytes from the file, 20 in memory. *)
Definition demo_elf : block :=
  put32 (put32 (put32 (put32 (put16 (put32 (put32 (put32 zero_block 0 ELF_MAGIC) 24 0x100000) 28 64) 44 1)
    (64 + 4) 4096) (64 + 12) 0x100000) (64 + 16) 10) (64 + 20) 20.
Definition demo_boot : mapdisk := {[(false, 1) := demo_elf; (false, 9) := splice zero_block 0 (replicate 10 7)]}.

Lemma demo_boot_bytes : Forall (λ l : block, length l = 512%nat ∧ Forall (λ c, 0 ≤ c < 2 ^ 8) l)
  [zero_block; demo_elf; splice zero_block 0 (replicate 10 7)].
Proof. repeat constructor; by apply (bool_decide_unpack _). Qed.

Lemma demo_boot_disk : disk_ok demo_boot.
Proof.
  pose proof demo_boot_bytes as H. rewrite !Forall_cons in H. destruct H as (H1 & H2 & H3 & _). intros x.
  assert (Hx : contents demo_boot false x ∈ [zero_block; demo_elf; splice zero_block 0 (replicate 10 7)]).
  { change (contents demo_boot false x) with (map_contents demo_boot false x). unfold map_contents, demo_boot.
    rewrite lookup_insert. case_decide; [set_solver|].
    destruct (decide ((false, 9) = (false, x))) as [<-|Hne]; [rewrite lookup_singleton_eq; set_solver|].
    rewrite lookup_singleton_ne by done. set_solver. }
  assert (Hb : ∀ l : block, length l = 512%nat ∧ Forall (λ c, 0 ≤ c < 2 ^ 8) l →
    length l = 512%nat ∧ ∀ i, 0 ≤ l.[i] < 2 ^ 8).
  { intros l [Hl Hf]. split; [done|]. intros i. destruct (decide (i < length l)%nat) as [Hi|Hi].
    - apply (proj1 (Forall_lookup _ _) Hf i). by apply nthz_lookup.
    - rewrite nthz_default by lia. lia. }
  rewrite !elem_of_cons, elem_of_nil in Hx. destruct Hx as [->|[->|[->|[]]]]; by apply Hb.
Qed.

Lemma demo_boot_ok : kernel_ok demo_boot.
Proof.
  split; [exact demo_boot_disk|by vm_compute|by vm_compute| |].
  - assert (En : k_phnum demo_boot = 1) by (by vm_compute). rewrite En. intros i Hi. replace i with 0 by lia.
    split; [by vm_compute|by vm_compute|by vm_compute|by vm_compute|by vm_compute|right; by vm_compute].
  - assert (En : k_phnum demo_boot = 1) by (by vm_compute). rewrite En. lia.
Qed.

Lemma bootmain_loads_witness : ∃ s', bootmain (Bootst ∅ demo_boot) = (Some 0x100000, s') ∧
  rd (b_mem s') 0x100009 = 7 ∧ rd (b_mem s') 0x10000a = 0.
Proof.
  destruct (bootmain_loads (Bootst ∅ demo_boot) demo_boot_disk) as [H _].
  destruct (H demo_boot_ok) as (s' & E & L). exists s'. split; [exact E|].
  assert (En : k_phnum demo_boot = 1) by (by vm_compute). cbn [b_hw] in L. rewrite En in L. specialize (L 0 ltac:(lia)).
  assert (Eg : pseg_no demo_boot 0 = Pseg 4096 0x100000 10 20) by (by vm_compute). rewrite Eg in L.
  unfold loaded in L. cbn [g_off g_pa g_filesz g_memsz] in L.
  assert (Eb : kbyte demo_boot (4096 + 9) = 7) by (by vm_compute).
  pose proof (L 9 ltac:(lia)) as L9. pose proof (L 10 ltac:(lia)) as L10. rewrite Eb in L9. split; [exact L9|exact L10].
Defined.
