(* ===== verification/SyscallSpec.v ===== *)
(** * The arguments of system calls

    What the checks of syscall.c guarantee about pointers and strings that come from user
    space, and what sleep(n) and sbrk(n) do. *)

From stdpp Require Import base gmap list strings.
From Stdlib Require Import ZArith Lia.
From S2P Require Import Prelude Params Kmonad Cstring Kalloc Console Vm VmSpec VmUser VmCopy Bio.
From S2P Require Import Log Fs ConsoleDev Pipe Kstate File FileSpec Proc ProcSpec Syscall Sysfile.

(** ** Pointers *)

Lemma uload_state va k s v k' s' : uload va k s = Done v k' s' → k' = k ∧ s' = s.
Proof.
  unfold uload, mbind, M_bind. rewrite gets_eq. destruct (mapped_u s va); [|done]. by intros [= _ <- <-].
Qed.

Lemma uload32_state va k s v k' s' : uload32 va k s = Done v k' s' → k' = k ∧ s' = s.
Proof.
  unfold uload32. intros H. do 4 (apply bind_inv in H as (? & ? & ? & [-> ->]%uload_state & H)).
  by injection H as _ <- <-.
Qed.

Lemma argint_state n k s v k' s' : argint n k s = Done v k' s' → k' = k ∧ s' = s.
Proof.
  unfold argint, fetchint. intros (? & ? & ? & H1 & H)%bind_inv. injection H1 as <- <- <-.
  apply bind_inv in H as (? & ? & ? & H1 & H). injection H1 as <- <- <-.
  destruct (_ || _); [by injection H as _ <- <-|].
  apply bind_inv in H as (? & ? & ? & [-> ->]%uload32_state & H). by injection H as _ <- <-.
Qed.

Lemma argptr_run n size k s i : argint n k s = Done (Some i) k s →
  argptr n size k s = Done (if (u32 i >=? p_sz (curp s)) || (u32 (u32 i + size) >? p_sz (curp s))
                            then None else Some (u32 i)) k s.
Proof.
  intros H. unfold argptr. mb H. mb (gets_eq curp k s). by destruct (_ || _).
Qed.

(** C35: The check of pointer arguments.  An image ends below KERNBASE.  A pointer that
    argptr accepts for [size] bytes, [size] not negative, points to [size] bytes inside the
    image, and every such pointer to at least one byte is accepted.  For a negative
    [size] the sum is an unsigned one that wraps around: argptr accepts the pointers that
    lie at least -[size] bytes above address 0. *)
Theorem argptr_checks n size k s i : argint n k s = Done (Some i) k s →
  0 ≤ p_sz (curp s) < KERNBASE → - 2 ^ 31 ≤ size < 2 ^ 31 →
  ∃ r, argptr n size k s = Done r k s ∧
    (0 ≤ size → ∀ a, r = Some a ↔ a = u32 i ∧ a < p_sz (curp s) ∧ a + size ≤ p_sz (curp s)) ∧
    (size < 0 → ∀ a, r = Some a ↔ a = u32 i ∧ a < p_sz (curp s) ∧ - size ≤ a).
Proof.
  intros H Hsz Hs. eexists. split; [by apply argptr_run|].
  pose proof (u32_range i) as Hi. unfold KERNBASE in Hsz. split.
  - intros H0 a. destruct (Z.geb_spec (u32 i) (p_sz (curp s))) as [Hg|Hg]; cbn [orb];
      [split; [done|lia]|].
    rewrite (u32_small (u32 i + size)) by lia.
    destruct (Z.gtb_spec (u32 i + size) (p_sz (curp s))); split; try done; try lia.
    + intros [= <-]. lia.
    + intros (-> & _). done.
  - intros H0 a. destruct (Z.geb_spec (u32 i) (p_sz (curp s))) as [Hg|Hg]; cbn [orb];
      [split; [done|lia]|].
    assert (E : u32 (u32 i + size) = if u32 i + size <? 0 then u32 i + size + 2 ^ 32 else u32 i + size).
    { destruct (Z.ltb_spec (u32 i + size) 0); [|by apply u32_small; lia].
      unfold u32 at 1, wrap. symmetry. apply Z.mod_unique with (-1); lia. }
    rewrite E. destruct (Z.ltb_spec (u32 i + size) 0);
      match goal with |- context [?x >? _] => destruct (Z.gtb_spec x (p_sz (curp s))) end;
      split; try done; try lia.
    + intros [= <-]. lia.
    + intros (-> & _). done.
Qed.

(** A read of a negative number of bytes is one of everything up to the end of the file. *)
Lemma readi_negative sw ip off m k s : let i := thei ip s in
  i_type i ≠ T_DEV → 0 ≤ off ≤ i_size i → off < m → i_size i + m ≤ 2 ^ 32 →
  readi sw ip off (u32 (- m)) k s = readi sw ip off (u32 (i_size i - off)) k s.
Proof.
  intros i Ht Ho Hm Hs. unfold readi. rewrite !(bind_Done _ _ _ _ _ _ _ (gets_eq (thei ip) k s)).
  cbv beta. fold i. rewrite (proj2 (Z.eqb_neq _ _) Ht).
  assert (E : u32 (- m) = 2 ^ 32 - m).
  { unfold u32, wrap. symmetry. apply Z.mod_unique with (-1); lia. }
  rewrite E, (u32_small (i_size i - off)), (u32_small (off + (2 ^ 32 - m))),
    (u32_small (off + (i_size i - off))) by lia.
  destruct (Z.gtb_spec off (i_size i)); [lia|].
  destruct (Z.ltb_spec (off + (2 ^ 32 - m)) off), (Z.ltb_spec (off + (i_size i - off)) off); try lia.
  destruct (Z.gtb_spec (off + (i_size i - off)) (i_size i)); [lia|].
  destruct (Z.gtb_spec (off + (2 ^ 32 - m)) (i_size i)); [done|].
  by replace (2 ^ 32 - m) with (i_size i - off) by lia.
Qed.

(** Read() with a negative count overruns its buffer.  When the checks of sys_read
    have accepted a count -[m] for a file whose offset is below [m], the call is the one
    that reads all of the file from the offset to its end and stores it at the buffer,
    whatever the room there. *)
Theorem sys_read_negative f m a k s k1 s1 : let x := thef f s in let i := inode_at (fip x) s1 in
  rw_args k s = Done (Some (f, - m, a)) k s →
  ftype x = FD_INODE → readable x = true → infs (ilock (Some (fip x))) k s = Done tt k1 s1 →
  i_type i ≠ T_DEV → 0 ≤ foff x ≤ i_size i → foff x < m → i_size i + m ≤ 2 ^ 32 →
  sys_read k s = (r ← fileread f (i_size i - foff x); ustore a r.2;; mret r.1) k s.
Proof.
  intros x i Ha Ht Hr Hl Hd Ho Hm Hs. unfold sys_read. mb Ha.
  assert (E : fileread f (- m) k s = fileread f (i_size i - foff x) k s).
  { unfold fileread. rewrite !(bind_Done _ _ _ _ _ _ _ (gets_eq (thef f) k s)). cbv beta. fold x.
    rewrite Hr, Ht. cbn [negb]. rewrite !(bind_Done _ _ _ _ _ _ _ Hl).
    rewrite !(bind_Done _ _ _ _ _ _ _ (gets_eq dsw k1 s1)). cbv beta.
    assert (R : infs (readi (dsw s1) (fip x) (foff x) (u32 (- m))) k1 s1 =
                infs (readi (dsw s1) (fip x) (foff x) (u32 (i_size i - foff x))) k1 s1)
      by (unfold infs, zoom; by rewrite (readi_negative (dsw s1) (fip x) (foff x) m k1 (k_fs s1))).
    unfold mbind, M_bind. by rewrite R. }
  unfold mbind, M_bind. by rewrite E.
Qed.

(** ** Strings *)

(** Every page of the image of the current process is present. *)
Definition image_mapped (s : kst) : Prop := ∀ a, 0 ≤ a < p_sz (curp s) → mapped_u s a = true.

Lemma uload_mapped a k s : mapped_u s a = true → uload a k s = Done (ubyte s a) k s.
Proof. intros H. unfold uload, mbind, M_bind. rewrite gets_eq. by rewrite H. Qed.

(** The bytes in front of the first zero among the [n] bytes at [a]. *)
Lemma fetch_loop_run n : ∀ a acc k s, image_mapped s → 0 ≤ a → a + Z.of_nat n ≤ p_sz (curp s) → ∃ r,
  fetch_loop n a acc k s = Done r k s ∧
  match r with
  | Some l => ∃ l', l = acc ++ l' ∧ (length l' < n)%nat ∧ 0 ∉ l' ∧
      l' = ubytes s a (Z.of_nat (length l')) ∧ ubyte s (a + Z.of_nat (length l')) = 0
  | None => ∀ b, a ≤ b < a + Z.of_nat n → ubyte s b ≠ 0
  end.
Proof.
  induction n as [|n IH]; intros a acc k s Hm Ha Hn; simpl.
  { exists None. split; [done|]. intros; lia. }
  mb (uload_mapped a k s (Hm a ltac:(lia))). destruct (Z.eqb_spec (ubyte s a) 0) as [E|E].
  { exists (Some acc). split; [done|]. exists []. rewrite app_nil_r, Z.add_0_r.
    split_and!; [done|simpl; lia|apply not_elem_of_nil|done|done]. }
  destruct (IH (a + 1) (acc ++ [ubyte s a]) k s Hm ltac:(lia) ltac:(lia)) as (r & H & Hr).
  exists r. split; [done|]. destruct r as [l|].
  - destruct Hr as (l' & -> & Hl & H0 & Hu & Hz). exists (ubyte s a :: l').
    rewrite <- app_assoc. split_and!; [done|simpl; lia|by rewrite not_elem_of_cons| |].
    + unfold ubytes. rewrite Nat2Z.id. cbn [length seq fmap list_fmap]. rewrite Z.add_0_r. f_equal.
      rewrite Hu at 1. unfold ubytes. rewrite Nat2Z.id. rewrite <- (fmap_S_seq 0), <- list_fmap_compose.
      apply list_fmap_ext. intros i x _. simpl. f_equal. lia.
    + cbn [length]. by replace (a + Z.of_nat (S (length l'))) with (a + 1 + Z.of_nat (length l')) by lia.
  - intros b Hb. destruct (decide (b = a)) as [->|]; [done|]. apply Hr. lia.
Qed.

(** String arguments.  With the pages of the image present, fetchstr returns
    without a fault.  A string it returns is the bytes at [addr] up to the first zero,
    which lies inside the image; it fails exactly when [addr] is outside the image or no
    zero follows it there. *)
Theorem fetchstr_string addr k s : image_mapped s → 0 ≤ addr → ∃ r, fetchstr addr k s = Done r k s ∧
  match r with
  | Some l => addr + Z.of_nat (length l) < p_sz (curp s) ∧ 0 ∉ l ∧
      l = ubytes s addr (Z.of_nat (length l)) ∧ ubyte s (addr + Z.of_nat (length l)) = 0
  | None => p_sz (curp s) ≤ addr ∨ ∀ b, addr ≤ b < p_sz (curp s) → ubyte s b ≠ 0
  end.
Proof.
  intros Hm Ha. unfold fetchstr. mb (gets_eq curp k s).
  destruct (Z.geb_spec addr (p_sz (curp s))) as [Hg|Hg].
  { exists None. split; [done|]. left. lia. }
  destruct (fetch_loop_run (Z.to_nat (p_sz (curp s) - addr)) addr [] k s Hm Ha ltac:(lia)) as (r & H & Hr).
  exists r. split; [done|]. destruct r as [l|].
  - destruct Hr as (l' & -> & Hl & H0 & Hu & Hz). split_and!; [simpl; lia|done..].
  - right. intros b Hb. apply Hr. lia.
Qed.

(** ** sbrk *)

(** Sbrk(-sz) destroys the image.  A process that asks to give back all of its
    memory gets the error -1, since the new size 0 is deallocuvm's error code for growproc;
    but the memory is gone, while proc->sz still says it is there. *)
Theorem growproc_to_zero kend k s k' s' : let p := curp s in
  0 < p_sz p < 2 ^ 31 →
  invm (deallocuvm kend (p_pgdir p) (p_sz p) 0) k s = Done 0 k' s' →
  growproc kend (- p_sz p) k s = Done (-1) k' s' ∧ k_procs s' = k_procs s.
Proof.
  intros p Hsz H. split.
  - unfold growproc. mb (gets_eq curp k s). fold p.
    destruct (Z.gtb_spec (- p_sz p) 0); [lia|]. destruct (Z.ltb_spec (- p_sz p) 0); [|lia].
    replace (p_sz p + - p_sz p) with 0 by lia. change (u32 0) with 0. mb H.
    destruct (Z.eqb_spec (- p_sz p) 0); [lia|done].
  - revert H. unfold invm, zoom. destruct (deallocuvm _ _ _ _ _ _); try done. by intros [= _ _ <-].
Qed.

(** ** A process with an image of one page *)

(** The page of [demo_mapped] with the arguments 0, 50 and -1 above esp, and a string. *)
Definition demo_image : mem :=
  let at_ (a : Z) := demo_frame + a in
  wr (wr (store32 (store32 (store32 demo_mapped (at_ 104) 0) (at_ 108) 50) (at_ 112) (2 ^ 32 - 1))
       (at_ 60) 97) (at_ 61) 98.
Definition demo_proc : proc :=
  set_ofile (<[0%nat := Some 0%nat]> (replicate NOFILE None))
    (set_tf (Trapframe 0 0 0 0 0 0 0 0 0 0 0 0 0 0 0 0 100 0)
      (set_psz 4096 (set_ppgdir demo_dir (set_pid 1 (set_pstate RUNNING proc0))))).
(** File 0 is inode 0, a regular file of three bytes that is in the inode cache. *)
Definition demo_file_inode : inode :=
  iset_nlink 1 (iset_size 3 (iset_type T_FILE (iset_flags I_VALID (iset_ref 1 (iset_id 1 5 inode0))))).
Definition demo_user : kst :=
  let s := demo_kst [] in
  Kst (set_icache [demo_file_inode] (k_fs s))
    (Vst (Kmem false 0 demo_image) (con (k_vm s)) 0 0 0 0) ∅
    [File FD_INODE 1 true true 0 0 0] (demo_proc :: replicate 63 proc0) 0 2 None 0.

Lemma demo_user_mapped : image_mapped demo_user.
Proof.
  intros a Ha. change (p_sz (curp demo_user)) with 4096 in Ha.
  unfold mapped_u. change (kmem_of demo_user) with demo_image.
  change (p_pgdir (curp demo_user)) with demo_dir.
  assert (E : PDX a = 0 ∧ PTX a = 0).
  { unfold PDX, PTX, PDXSHIFT, PTXSHIFT. rewrite !Z.shiftr_div_pow2 by lia.
    rewrite !(Z.div_small a) by lia. done. }
  unfold pte, ptab. destruct E as [-> ->]. by vm_compute.
Qed.

Lemma argptr_checks_witness : ∃ r, argptr 1 20 (Kctx [] []) demo_user = Done r (Kctx [] []) demo_user ∧
  (∀ a, r = Some a ↔ a = 50 ∧ a < 4096 ∧ a + 20 ≤ 4096).
Proof.
  destruct (argptr_checks 1 20 (Kctx [] []) demo_user 50) as (r & H & H1 & _).
  - by vm_compute.
  - vm_compute; split; congruence.
  - lia.
  - exists r. split; [exact H|]. apply (H1 ltac:(lia)).
Defined.

Lemma sys_read_negative_witness :
  sys_read (Kctx [] []) demo_user = (r ← fileread 0 3; ustore 50 r.2;; mret r.1) (Kctx [] []) demo_user.
Proof.
  destruct (infs (ilock (Some 0%nat)) (Kctx [] []) demo_user) as [[] k1 s1| | | |] eqn:E; [|by vm_compute in E..].
  assert (Hi : inode_at 0 s1 = iset_flags 3 demo_file_inode).
  { vm_compute in E. injection E as _ <-. by vm_compute. }
  pose proof (sys_read_negative 0 1 50 (Kctx [] []) demo_user k1 s1) as H. cbv zeta in H.
  change (fip (thef 0 demo_user)) with 0%nat in H. change (foff (thef 0 demo_user)) with 0 in H.
  rewrite Hi in H. change (i_size (iset_flags 3 demo_file_inode)) with 3 in H.
  change (3 - 0) with 3 in H. apply H; clear H; [by vm_compute|done|done|exact E|done|lia..].
Defined.

Lemma fetchstr_string_witness : ∃ r, fetchstr 60 (Kctx [] []) demo_user = Done r (Kctx [] []) demo_user ∧
  match r with
  | Some l => 60 + Z.of_nat (length l) < 4096 ∧ 0 ∉ l ∧
      l = ubytes demo_user 60 (Z.of_nat (length l)) ∧ ubyte demo_user (60 + Z.of_nat (length l)) = 0
  | None => 4096 ≤ 60 ∨ ∀ b, 60 ≤ b < 4096 → ubyte demo_user b ≠ 0
  end.
Proof. apply (fetchstr_string 60 (Kctx [] []) demo_user demo_user_mapped). done. Defined.

Lemma growproc_to_zero_witness : ∃ k' s',
  growproc demo_kend (-4096) (Kctx [] []) demo_user = Done (-1) k' s' ∧ k_procs s' = k_procs demo_user ∧
  mapped_u s' 0 = false.
Proof.
  assert (C : match invm (deallocuvm demo_kend demo_dir 4096 0) (Kctx [] []) demo_user with
    | Done r _ s => (r =? 0) && negb (mapped_u s 0) | _ => false end = true) by (by vm_compute).
  destruct (invm (deallocuvm demo_kend demo_dir 4096 0) (Kctx [] []) demo_user) as [r k1 s1| | | |] eqn:E;
    [|done..].
  apply andb_true_iff in C as [->%Z.eqb_eq Hm%negb_true_iff]. exists k1, s1.
  destruct (growproc_to_zero demo_kend (Kctx [] []) demo_user k1 s1) as [H1 H2];
    [vm_compute; split; congruence|exact E|].
  split; [exact H1|]. split; [exact H2|exact Hm].
Defined.
