(* ===== verification/SysfileSpec.v ===== *)
(** * Descriptors are counted

    Between system calls f->ref is the number of descriptors, over all processes, that
    refer to f: no entry of the file table is freed while a descriptor refers to it, and
    none leaks. *)

From stdpp Require Import base gmap list strings relations.
From Stdlib Require Import ZArith Lia Permutation.
From S2P Require Import Prelude Params Kmonad Cstring Kalloc Console Vm Bio Log Fs ConsoleDev Pipe.
From S2P Require Import Kstate File FileSpec Proc ProcSpec ProcTable ProcExit Syscall SyscallSpec.
From S2P Require Import Sysfile.

(** The files the descriptors of all processes refer to, one entry for each. *)
Definition descriptors (s : kst) : list nat := concat ((λ p, omap id (p_ofile p)) <$> k_procs s).

(** The references are the descriptors and those of the running call, [ex]. *)
Definition counted (ex : list nat) (s : kst) : Prop :=
  (k_cur s < length (k_procs s))%nat ∧ refs_ok s (ex ++ descriptors s).

(** ** Lists of descriptors *)

Lemma omap_set (l : list (option nat)) fd f : l !! fd = Some None →
  omap id (<[fd := Some f]> l) ≡ₚ f :: omap id l.
Proof.
  revert fd. induction l as [|o l IH]; intros [|fd] H; simplify_eq/=; [done|].
  destruct o; simpl; rewrite (IH _ H); [by rewrite Permutation_swap|done].
Qed.

Lemma omap_clear (l : list (option nat)) fd f : l !! fd = Some (Some f) →
  omap id l ≡ₚ f :: omap id (<[fd := None]> l).
Proof.
  revert fd. induction l as [|o l IH]; intros [|fd] H; simplify_eq/=; [done|].
  destruct o; simpl; rewrite (IH _ H); [by rewrite Permutation_swap|done].
Qed.

Lemma descriptors_updp i g s : (i < length (k_procs s))%nat →
  ∃ rest, descriptors s ≡ₚ omap id (p_ofile (thep i s)) ++ rest ∧
    descriptors (updp i g s) ≡ₚ omap id (p_ofile (g (thep i s))) ++ rest.
Proof.
  intros Hi. pose proof (nthz_lookup proc0 _ _ Hi) as Hp.
  exists (concat ((λ p, omap id (p_ofile p)) <$> (take i (k_procs s) ++ drop (S i) (k_procs s)))).
  unfold descriptors, updp, thep. cbn [k_procs set_kprocs]. rewrite insert_take_drop by done.
  split.
  - rewrite <- (take_drop_middle _ _ _ Hp) at 1. rewrite !fmap_app, !concat_app, fmap_cons. simpl.
    by rewrite Permutation_app_swap_app.
  - rewrite !fmap_app, !concat_app, fmap_cons. simpl. by rewrite Permutation_app_swap_app.
Qed.

Lemma refs_ok_perm s l l' : l ≡ₚ l' → refs_ok s l → refs_ok s l'.
Proof.
  intros Hp [Hr Hc]. split; [by rewrite <- Hp|]. intros f Hf. rewrite Hc by done. unfold count.
  by rewrite (proj1 (Permutation_count_occ Nat.eq_dec l l') Hp f).
Qed.

(** ** What keeps the count *)

Lemma counted_same ex s s' : k_files s' = k_files s → k_procs s' = k_procs s → k_cur s' = k_cur s →
  counted ex s → counted ex s'.
Proof.
  intros Hf Hp Hc [H1 H2]. split; [by rewrite Hp, Hc|].
  unfold descriptors. rewrite Hp. by apply (refs_ok_files s).
Qed.

Create HintDb counted.
#[export] Hint Resolve leads_ret leads_gets leads_panic leads_diverge leads_defined leads_acquire leads_release : counted.
#[export] Hint Extern 1 (leads (counted _) (infs _) _) =>
  apply leads_zoom; intros ? ?; by apply counted_same : counted.
#[export] Hint Extern 1 (leads (counted _) (invm _) _) =>
  apply leads_zoom; intros ? ?; by apply counted_same : counted.
#[export] Hint Extern 1 (leads (counted _) (inpipe _ _) _) =>
  apply leads_zoom; intros ? ?; by apply counted_same : counted.
#[export] Hint Extern 1 (leads (counted _) kbegin_op _) =>
  apply leads_zoom; intros ? ?; by apply counted_same : counted.
#[export] Hint Extern 1 (leads (counted _) kend_op _) =>
  apply leads_zoom; intros ? ?; by apply counted_same : counted.
#[export] Hint Extern 1 (leads (counted _) (upd_inode _ _) _) =>
  apply leads_zoom; intros ? ?; by apply counted_same : counted.
Ltac counted := repeat (first [leads_step | solve [auto with counted]]).

Lemma counted_ofile ex ex' i g s : (i < length (k_procs s))%nat →
  ex ++ omap id (p_ofile (thep i s)) ≡ₚ ex' ++ omap id (p_ofile (g (thep i s))) →
  counted ex s → counted ex' (updp i g s).
Proof.
  intros Hi Hp [Hc Hr]. split; [unfold updp; cbn; by rewrite length_insert|].
  destruct (descriptors_updp i g s Hi) as (rest & D1 & D2).
  apply (refs_ok_files s); [done|]. eapply refs_ok_perm; [|exact Hr].
  rewrite D1, D2, !app_assoc. by apply Permutation_app_tail.
Qed.

Lemma counted_swap f g s : counted [f; g] s → counted [g; f] s.
Proof. intros [Hc Hr]. split; [done|]. eapply refs_ok_perm; [|exact Hr]. apply Permutation_swap. Qed.

Lemma acquired l k (s : kst) k' s' : acquire l k s = Done tt k' s' → l ∉ held k.
Proof. unfold acquire. by destruct (decide _). Qed.

Lemma filealloc_counted ex k s r k' s' : filealloc k s = Done r k' s' → counted ex s →
  match r with Some f => counted (f :: ex) s' | None => counted ex s' end.
Proof.
  intros H [Hc Hr]. assert (Hk : LFtable ∉ held k).
  { unfold filealloc in H. apply bind_inv in H as ([] & ? & ? & H & _). by eapply acquired. }
  assert (P : k_procs s' = k_procs s ∧ k_cur s' = k_cur s).
  { revert H. unfold filealloc, mbind, M_bind. rewrite acquire_eq, gets_eq by done.
    destruct (free_file _ _); rewrite ?modify_eq, release_top; by intros [= _ _ <-]. }
  pose proof (filealloc_refs _ _ _ _ _ _ H Hk Hr) as Hf. destruct P as [P1 P2].
  unfold counted, descriptors. rewrite P1, P2. destruct r as [f|].
  - split; [done|]. apply Hf.
  - destruct Hf as [-> _]. done.
Qed.

(** filedup and fileclose leave the processes alone. *)
Definition table (ps : list proc) (c : nat) (s : kst) : Prop := k_procs s = ps ∧ k_cur s = c.

Lemma filedup_table ps c f : leads (table ps c) (filedup f) (table ps c).
Proof.
  unfold filedup. repeat leads_step; solve [auto with counted | by apply leads_modify].
Qed.
Lemma fileclose_table kend ps c f : leads (table ps c) (fileclose kend f) (table ps c).
Proof.
  unfold fileclose, close_last, pipeclose.
  repeat leads_step; solve [auto with counted | by apply leads_modify | by apply leads_zoom].
Qed.

Lemma leads_run {A} P (m : M kst A) Q k s a k' s' : leads P m Q → P s → m k s = Done a k' s' → Q s'.
Proof. intros Hm Hs H. specialize (Hm k s Hs). by rewrite H in Hm. Qed.

Lemma filedup_counted ex f k s r k' s' : filedup f k s = Done r k' s' → f ∈ ex ++ descriptors s →
  counted ex s → counted (f :: ex) s'.
Proof.
  intros H Hin [Hc Hr]. assert (Hk : LFtable ∉ held k).
  { unfold filedup in H. apply bind_inv in H as ([] & ? & ? & H & _). by eapply acquired. }
  destruct (filedup_refs _ _ _ _ _ _ _ H Hk Hin Hr) as [_ Hf].
  destruct (leads_run _ _ _ _ _ _ _ _ (filedup_table (k_procs s) (k_cur s) f) (conj eq_refl eq_refl) H) as [P1 P2].
  unfold counted, descriptors. rewrite P1, P2. split; [done|exact Hf].
Qed.

Lemma fileclose_counted kend ex f k s k' s' : fileclose kend f k s = Done tt k' s' →
  counted (f :: ex) s → counted ex s'.
Proof.
  intros H [Hc Hr]. assert (Hk : LFtable ∉ held k).
  { unfold fileclose in H. apply bind_inv in H as ([] & ? & ? & H & _). by eapply acquired. }
  pose proof (fileclose_refs _ _ _ _ _ _ _ H Hk (list_elem_of_here _ _) Hr) as Hf.
  cbn [app drop_ref] in Hf. rewrite decide_True in Hf by done.
  destruct (leads_run _ _ _ _ _ _ _ _ (fileclose_table kend (k_procs s) (k_cur s) f) (conj eq_refl eq_refl) H)
    as [P1 P2].
  unfold counted, descriptors. rewrite P1, P2. split; [done|exact Hf].
Qed.

(** ** Descriptors of the current process *)

Lemma free_fd_spec l fd i : free_fd l i = Some fd → (i ≤ fd)%nat ∧ l !! (fd - i)%nat = Some None.
Proof.
  revert i. induction l as [|[f|] l IH]; intros i; simpl; [done| |].
  - intros H%IH. destruct H as [H1 H2]. split; [lia|]. replace (fd - i)%nat with (S (fd - S i)) by lia. done.
  - intros [= <-]. by rewrite Nat.sub_diag.
Qed.

Lemma fdalloc_counted ex f k s r k' s' : fdalloc f k s = Done r k' s' → counted (f :: ex) s →
  match r with
  | Some fd => counted ex s' ∧ p_ofile (curp s') !! fd = Some (Some f)
  | None => s' = s
  end.
Proof.
  intros H Hs. unfold fdalloc in H. rewrite (bind_Done _ _ _ _ _ _ _ (gets_eq curp k s)) in H. cbv beta in H.
  destruct (free_fd _ _) as [fd|] eqn:E; [|by injection H as <- _ <-].
  unfold set_fd, upd_cur in H. rewrite (bind_Done _ _ _ _ _ _ _ (modify_eq _ k s)) in H.
  injection H as <- _ <-. apply free_fd_spec in E as [_ E]. rewrite Nat.sub_0_r in E. split.
  - apply (counted_ofile (f :: ex)); [apply Hs| |done]. cbn [p_ofile set_ofile].
    rewrite (omap_set _ _ _ E). by rewrite <- Permutation_middle.
  - unfold curp. change (k_cur (updp (k_cur s) ?g s)) with (k_cur s).
    rewrite thep_updp by apply Hs. rewrite decide_True by done. cbn [p_ofile set_ofile].
    apply list_lookup_insert_eq. by eapply lookup_lt_Some.
Qed.

Lemma set_fd_counted ex f fd k s k' s' : set_fd fd None k s = Done tt k' s' →
  p_ofile (curp s) !! fd = Some (Some f) → counted ex s → counted (f :: ex) s'.
Proof.
  intros [= _ <-] E Hs. apply (counted_ofile ex); [apply Hs| |done]. cbn [p_ofile set_ofile].
  unfold curp in E. rewrite (omap_clear _ _ _ E). by rewrite <- Permutation_middle.
Qed.

Lemma argfd_run n k s r k' s' : argfd n k s = Done r k' s' → k' = k ∧ s' = s ∧
  match r with Some (fd, f) => p_ofile (curp s) !! fd = Some (Some f) | None => True end.
Proof.
  intros H. unfold argfd in H. apply bind_inv in H as (o & k1 & s1 & [-> ->]%argint_state & H).
  destruct o as [fd|]; [|by injection H as <- <- <-].
  rewrite (bind_Done _ _ _ _ _ _ _ (gets_eq curp k s)) in H. cbv beta in H.
  destruct (_ || _); [by injection H as <- <- <-|]. injection H as <- <- <-.
  split_and!; try done. by destruct (p_ofile (curp s) !! Z.to_nat fd) as [[f|]|] eqn:E.
Qed.

Lemma open_in_descriptors ex s fd f : (k_cur s < length (k_procs s))%nat →
  p_ofile (curp s) !! fd = Some (Some f) → f ∈ ex ++ descriptors s.
Proof.
  intros Hc E. apply elem_of_app. right. unfold descriptors. apply list_elem_of_In, in_concat.
  exists (omap id (p_ofile (curp s))). split.
  - apply list_elem_of_In, list_elem_of_fmap. exists (curp s). split; [done|].
    apply list_elem_of_lookup_2 with (k_cur s). by apply nthz_lookup.
  - apply list_elem_of_In, list_elem_of_omap. exists (Some f). split; [|done]. by eapply list_elem_of_lookup_2.
Qed.

(** ** The calls *)

Lemma counted_updf ex f g s : (∀ x, fref (g x) = fref x) → counted ex s → counted ex (updf f g s).
Proof.
  intros Hg [Hc [Hr Hn]]. split; [done|]. split; [by rewrite length_updf|].
  intros h. rewrite length_updf. intros Hh. change (descriptors (updf f g s)) with (descriptors s).
  rewrite <- Hn by done. destruct (decide (f < length (k_files s))%nat) as [Hf|Hf].
  - rewrite thef_updf by done. destruct (decide (h = f)) as [->|]; [apply Hg|done].
  - unfold thef, updf. cbn. by rewrite list_insert_ge by lia.
Qed.

#[export] Hint Extern 1 (leads (counted _) (modify (updf _ _)) _) =>
  apply leads_modify; intros ?; by apply counted_updf : counted.
#[export] Hint Extern 1 (leads (counted _) (modify (λ _, updf _ _ _)) _) =>
  apply leads_modify; intros ?; by apply counted_updf : counted.
#[export] Hint Extern 1 (leads (counted _) (modify (λ _, put_pipe _ _ _)) _) =>
  apply leads_modify; intros ?; by apply counted_same : counted.

Lemma leads_initlock P l : leads P (Kmonad.initlock l : M kst unit) P.
Proof. by intros k s. Qed.
#[export] Hint Resolve leads_initlock : counted.

Lemma uload_counted ex a : leads (counted ex) (uload a) (counted ex).
Proof. unfold uload. counted. Qed.
#[export] Hint Resolve uload_counted : counted.
Lemma argint_counted ex n : leads (counted ex) (argint n) (counted ex).
Proof. unfold argint, fetchint, uload32. counted. Qed.
Lemma fetch_loop_counted ex n a acc : leads (counted ex) (fetch_loop n a acc) (counted ex).
Proof. revert a acc. induction n as [|n IH]; intros; cbn [fetch_loop]; counted. Qed.
#[export] Hint Resolve argint_counted fetch_loop_counted : counted.
Lemma argstr_counted ex n : leads (counted ex) (argstr n) (counted ex).
Proof. unfold argstr, fetchstr. counted. Qed.
Lemma argptr_counted ex n sz : leads (counted ex) (argptr n sz) (counted ex).
Proof. unfold argptr. counted. Qed.
Lemma argfd_counted ex n : leads (counted ex) (argfd n) (counted ex).
Proof. unfold argfd. counted. Qed.
Lemma ustore_counted ex a l : leads (counted ex) (ustore a l) (counted ex).
Proof. revert a. induction l as [|c l IH]; intros a; cbn [ustore]; counted. Qed.
Lemma uread_counted ex n a : leads (counted ex) (uread n a) (counted ex).
Proof. revert a. induction n as [|n IH]; intros a; cbn [uread]; counted. Qed.
Lemma knamei_counted ex p : leads (counted ex) (knamei p) (counted ex).
Proof. unfold knamei. counted. Qed.
Lemma knameiparent_counted ex p : leads (counted ex) (knameiparent p) (counted ex).
Proof. unfold knameiparent. counted. Qed.
#[export] Hint Resolve argstr_counted argptr_counted argfd_counted ustore_counted uread_counted
  knamei_counted knameiparent_counted : counted.

Lemma create_counted ex p t mj mn : leads (counted ex) (create p t mj mn) (counted ex).
Proof. unfold create, create_dots. counted. Qed.
Lemma isdirempty_counted ex dp : leads (counted ex) (isdirempty dp) (counted ex).
Proof.
  unfold isdirempty. apply leads_bind; [auto with counted|]. intros i. generalize (2 * DIRENT).
  induction (dir_fuel i) as [|n IH]; intros z; cbn [isdirempty_loop]; counted.
Qed.
#[export] Hint Resolve create_counted isdirempty_counted : counted.
Lemma open_inode_counted ex p m : leads (counted ex) (open_inode p m) (counted ex).
Proof. unfold open_inode. counted. Qed.
Lemma filewrite_loop_counted ex fuel f ip n i src :
  leads (counted ex) (filewrite_loop fuel f ip n i src) (counted ex).
Proof. revert i src. induction fuel as [|fl IH]; intros; cbn [filewrite_loop]; counted. Qed.
Lemma rw_args_counted ex : leads (counted ex) rw_args (counted ex).
Proof. unfold rw_args. counted. Qed.
#[export] Hint Resolve open_inode_counted filewrite_loop_counted rw_args_counted : counted.

(** The calls that change no descriptor. *)
Lemma sys_read_counted : leads (counted []) sys_read (counted []).
Proof. unfold sys_read, fileread. counted. Qed.
Lemma sys_write_counted : leads (counted []) sys_write (counted []).
Proof. unfold sys_write, filewrite. counted. Qed.
Lemma sys_fstat_counted : leads (counted []) sys_fstat (counted []).
Proof. unfold sys_fstat, filestat, store_stat. counted. Qed.
Lemma sys_link_counted : leads (counted []) sys_link (counted []).
Proof. unfold sys_link, link_bad. counted. Qed.
Lemma sys_unlink_counted : leads (counted []) sys_unlink (counted []).
Proof. unfold sys_unlink, unlink_bad, unlink_entry. counted. Qed.
Lemma sys_mkdir_counted : leads (counted []) sys_mkdir (counted []).
Proof. unfold sys_mkdir. counted. Qed.
Lemma sys_mknod_counted : leads (counted []) sys_mknod (counted []).
Proof. unfold sys_mknod, mknod_args. counted. Qed.

Lemma upd_cur_counted ex g : (∀ p, p_ofile (g p) = p_ofile p) → leads (counted ex) (upd_cur g) (counted ex).
Proof.
  intros Hg. apply leads_modify. intros s Hs. apply (counted_ofile ex); [apply Hs|by rewrite Hg|done].
Qed.
Lemma sys_chdir_counted : leads (counted []) sys_chdir (counted []).
Proof. unfold sys_chdir. counted. by apply upd_cur_counted. Qed.

(** Replace the run [H] of a routine by what it keeps. *)
Ltac keep_counted H :=
  match goal with Hs : counted ?ex ?s |- _ =>
    match type of H with ?m ?k s = _ =>
      let N := fresh "Hs" in
      pose proof (leads_run (counted ex) m (counted ex) k s _ _ _ ltac:(auto with counted) Hs H) as N;
      clear Hs H end end.
(** Take the run [H] of a sequence apart. *)
Ltac next H r H1 := apply bind_inv in H as (r & ? & ? & H1 & H).

Section calls.
Context (kend : Z).

Lemma sys_dup_counted k s r k' s' : sys_dup k s = Done r k' s' → counted [] s → counted [] s'.
Proof.
  intros H Hs. unfold sys_dup in H. next H o H1. apply argfd_run in H1 as (-> & -> & Ho).
  destruct o as [[fd f]|]; [|by injection H as _ _ <-].
  pose proof (open_in_descriptors [] s fd f (proj1 Hs) Ho) as Hin.
  next H o H1. unfold fdalloc in H1. rewrite (bind_Done _ _ _ _ _ _ _ (gets_eq curp k s)) in H1. cbv beta in H1.
  destruct (free_fd _ _) as [fd'|] eqn:E.
  2: { injection H1 as <- <- <-. by injection H as _ _ <-. }
  unfold set_fd, upd_cur in H1. rewrite (bind_Done _ _ _ _ _ _ _ (modify_eq _ k s)) in H1.
  injection H1 as <- <- <-. next H g H1. injection H as _ _ <-.
  apply free_fd_spec in E as [_ E]. rewrite Nat.sub_0_r in E.
  pose proof (proj1 Hs) as Hc. unfold filedup in H1.
  assert (Hk : LFtable ∉ held k) by (apply bind_inv in H1 as ([] & ? & ? & H1 & _); by eapply acquired).
  fold (filedup f) in H1.
  set (s1 := updp (k_cur s) (λ p, set_ofile (<[fd' := Some f]> (p_ofile p)) p) s) in H1.
  assert (R1 : refs_ok s1 (descriptors s)) by (apply (refs_ok_files s); [done|apply Hs]).
  destruct (filedup_refs _ _ _ _ _ _ _ H1 Hk Hin R1) as [_ R2].
  destruct (leads_run _ _ _ _ _ _ _ _ (filedup_table (k_procs s1) (k_cur s1) f) (conj eq_refl eq_refl) H1) as [P1 P2].
  split; [rewrite P1, P2; unfold s1; rewrite length_updp; exact Hc|].
  eapply refs_ok_perm; [|exact R2]. unfold descriptors at 2. rewrite P1. fold (descriptors s1).
  destruct (descriptors_updp (k_cur s) (λ p, set_ofile (<[fd' := Some f]> (p_ofile p)) p) s Hc) as (rest & D1 & D2).
  cbn [app]. rewrite D1. unfold s1. rewrite D2. cbn [p_ofile set_ofile]. by rewrite (omap_set _ _ _ E).
Qed.

Lemma sys_close_counted k s r k' s' : sys_close kend k s = Done r k' s' → counted [] s → counted [] s'.
Proof.
  intros H Hs. unfold sys_close in H. next H o H1. apply argfd_run in H1 as (-> & -> & Ho).
  destruct o as [[fd f]|]; [|by injection H as _ _ <-].
  next H u H1. destruct u. apply (set_fd_counted [] f) in H1; [|done..]. clear Hs.
  next H u H2. destruct u. apply (fileclose_counted _ []) in H2; [|done]. by injection H as _ _ <-.
Qed.

(** The end of sys_open when a file or a descriptor is missing. *)
Lemma open_fails_counted f ip k s r k' s' :
  ((match f with Some f => fileclose kend f | None => mret tt end);;
   infs (iunlockput ip);; kend_op;; mret (-1)) k s = Done r k' s' →
  counted (option_list f) s → counted [] s'.
Proof.
  intros H Hs. next H u H1. destruct u.
  match type of H1 with _ = Done _ _ ?s1 => assert (Hs1 : counted [] s1) end.
  { destruct f as [f|]; [by eapply fileclose_counted|by injection H1 as _ <-]. }
  clear Hs H1. next H u H1. destruct u. keep_counted H1. next H u H1. destruct u. keep_counted H1.
  by injection H as _ _ <-.
Qed.

Lemma sys_open_counted k s r k' s' : sys_open kend k s = Done r k' s' → counted [] s → counted [] s'.
Proof.
  intros H Hs. unfold sys_open in H. next H o H1. keep_counted H1.
  destruct o as [path|]; [|by injection H as _ _ <-]. next H o H1. keep_counted H1.
  destruct o as [om|]; [|by injection H as _ _ <-]. next H u H1. destruct u. keep_counted H1.
  next H o H1. keep_counted H1. destruct o as [ip|].
  2: { next H u H1. destruct u. keep_counted H1. by injection H as _ _ <-. }
  next H f H1. apply (filealloc_counted []) in H1; [|done]. next H fd H2.
  destruct f as [f|].
  - apply (fdalloc_counted []) in H2; [|done]. destruct fd as [fd|].
    + destruct H2 as [H2 _]. next H u H3. destruct u. keep_counted H3. next H u H3. destruct u. keep_counted H3.
      next H u H3. destruct u. keep_counted H3. by injection H as _ _ <-.
    + subst. by apply (open_fails_counted (Some f)) in H.
  - injection H2 as <- <- <-. by apply (open_fails_counted None) in H.
Qed.

(** The end of sys_pipe when a descriptor is missing. *)
Lemma pipe_fails_counted ex fd0 rf wf k s r k' s' :
  ((match fd0 with Some fd => set_fd fd None | None => mret tt end);;
   fileclose kend rf;; fileclose kend wf;; mret (-1)) k s = Done r k' s' →
  counted ex s →
  match fd0 with
  | Some fd => ex = [wf] ∧ p_ofile (curp s) !! fd = Some (Some rf)
  | None => ex = [rf; wf]
  end → counted [] s'.
Proof.
  intros H Hs Hex. next H u H1. destruct u.
  match type of H1 with _ = Done _ _ ?s1 => assert (Hs1 : counted [rf; wf] s1) end.
  { destruct fd0 as [fd|]; [|subst ex; by injection H1 as _ <-]. destruct Hex as [-> E].
    by eapply set_fd_counted. }
  next H u H2. destruct u. apply (fileclose_counted _ [wf]) in H2; [|done].
  next H u H3. destruct u. apply (fileclose_counted _ []) in H3; [|done]. by injection H as _ _ <-.
Qed.

Lemma pipealloc_bad_counted p f0 f1 k s r k' s' : pipealloc_bad kend p f0 f1 k s = Done r k' s' →
  counted (option_list f0 ++ option_list f1) s → r = None ∧ counted [] s'.
Proof.
  intros H Hs. unfold pipealloc_bad in H. next H u H1. destruct u.
  eapply (leads_run (counted _) _ (counted (option_list f0 ++ option_list f1))) in H1;
    [|destruct (negb _); auto with counted|exact Hs]. clear Hs.
  next H u H2. destruct u.
  match type of H2 with _ = Done _ _ ?s1 => assert (Hs1 : counted (option_list f1) s1) end.
  { destruct f0 as [f|]; [by eapply fileclose_counted|by injection H2 as _ <-]. }
  next H u H3. destruct u.
  match type of H3 with _ = Done _ _ ?s1 => assert (Hs2 : counted [] s1) end.
  { destruct f1 as [f|]; [by eapply fileclose_counted|by injection H3 as _ <-]. }
  by injection H as <- _ <-.
Qed.

Lemma pipealloc_counted k s r k' s' : pipealloc kend k s = Done r k' s' → counted [] s →
  match r with Some (rf, wf) => counted [wf; rf] s' | None => counted [] s' end.
Proof.
  intros H Hs. unfold pipealloc in H. next H f0 H1. apply (filealloc_counted []) in H1; [|done].
  destruct f0 as [a|]; [|by apply pipealloc_bad_counted in H as [-> ?]].
  next H f1 H2. apply (filealloc_counted [a]) in H2; [|done].
  destruct f1 as [b|]; [|by apply pipealloc_bad_counted in H as [-> ?]].
  next H p H3. keep_counted H3. destruct (p =? 0).
  - apply pipealloc_bad_counted in H as [-> ?]; [done|]. by apply counted_swap.
  - do 4 (next H u H4; destruct u; keep_counted H4). by injection H as <- _ <-.
Qed.

Lemma sys_pipe_counted k s r k' s' : sys_pipe kend k s = Done r k' s' → counted [] s → counted [] s'.
Proof.
  intros H Hs. unfold sys_pipe in H. next H o H1. keep_counted H1.
  destruct o as [a|]; [|by injection H as _ _ <-]. next H o H1. apply pipealloc_counted in H1; [|done].
  destruct o as [[rf wf]|]; [|by injection H as _ _ <-].
  apply counted_swap in H1.
  next H fd0 H2. apply (fdalloc_counted [wf]) in H2; [|done]. next H fd1 H3. destruct fd0 as [fd0|].
  - destruct H2 as [H2 E]. apply (fdalloc_counted []) in H3; [|done]. destruct fd1 as [fd1|].
    + destruct H3 as [H3 _]. do 2 (next H u H4; destruct u; keep_counted H4). by injection H as _ _ <-.
    + subst. by apply (pipe_fails_counted [wf] (Some fd0) rf wf) in H.
  - injection H3 as <- <- <-. subst. by apply (pipe_fails_counted [rf; wf] None rf wf) in H.
Qed.
End calls.

(** The file system calls. *)
Inductive file_call (kend : Z) : M kst Z → Prop :=
| c_dup : file_call kend sys_dup | c_read : file_call kend sys_read
| c_write : file_call kend sys_write | c_close : file_call kend (sys_close kend)
| c_fstat : file_call kend sys_fstat | c_link : file_call kend sys_link
| c_unlink : file_call kend sys_unlink | c_open : file_call kend (sys_open kend)
| c_mkdir : file_call kend sys_mkdir | c_mknod : file_call kend sys_mknod
| c_chdir : file_call kend sys_chdir | c_pipe : file_call kend (sys_pipe kend).

Lemma file_call_counted kend m k s r k' s' : file_call kend m → m k s = Done r k' s' →
  counted [] s → counted [] s'.
Proof.
  intros Hm H Hs. destruct Hm.
  - by eapply sys_dup_counted.
  - exact (leads_run _ _ _ _ _ _ _ _ sys_read_counted Hs H).
  - exact (leads_run _ _ _ _ _ _ _ _ sys_write_counted Hs H).
  - by eapply sys_close_counted.
  - exact (leads_run _ _ _ _ _ _ _ _ sys_fstat_counted Hs H).
  - exact (leads_run _ _ _ _ _ _ _ _ sys_link_counted Hs H).
  - exact (leads_run _ _ _ _ _ _ _ _ sys_unlink_counted Hs H).
  - by eapply sys_open_counted.
  - exact (leads_run _ _ _ _ _ _ _ _ sys_mkdir_counted Hs H).
  - exact (leads_run _ _ _ _ _ _ _ _ sys_mknod_counted Hs H).
  - exact (leads_run _ _ _ _ _ _ _ _ sys_chdir_counted Hs H).
  - by eapply sys_pipe_counted.
Qed.

Lemma dispatch_counted i k s k' s' : (i < length (k_procs s))%nat → dispatch i k s = Done tt k' s' →
  counted [] s → counted [] s'.
Proof.
  intros Hi H [Hc Hr]. unfold dispatch in H. next H u H1. destruct u. injection H1 as <- <-.
  match type of H with _ ?k ?s1 = _ => assert (Hs1 : counted [] s1) end.
  { split; [done|]. exact (refs_ok_files s _ _ eq_refl Hr). }
  next H p H1. keep_counted H1. next H u H1. destruct u. keep_counted H1. injection H as _ <-.
  match goal with |- counted [] (updp i _ ?x) => destruct (decide (i < length (k_procs x))%nat) as [Hx|Hx] end.
  - apply (counted_ofile []); [done|done|assumption].
  - match goal with |- counted [] (updp i _ ?x) => apply (counted_same [] x); [done| |done|assumption] end. unfold updp. cbn. by rewrite list_insert_ge by lia.
Qed.

(** A file system call of the current process, or a switch to another process. *)
Inductive file_step (kend : Z) (s s' : kst) : Prop :=
| fs_call m k r k' : file_call kend m → m k s = Done r k' s' → file_step kend s s'
| fs_switch i k k' : (i < length (k_procs s))%nat → dispatch i k s = Done tt k' s' → file_step kend s s'.

(** C2: Descriptors are counted.  Whatever file system calls the processes make, in
    whatever order they run, after every call f->ref is the number of descriptors of all
    processes that refer to f, for every entry f of the file table; so an entry is free
    exactly when no descriptor refers to it, also after calls that fail half way. *)
Theorem descriptors_counted kend s s' : counted [] s → rtc (file_step kend) s s' →
  ∀ f, (f < length (k_files s'))%nat → fref (thef f s') = Z.of_nat (count f (descriptors s')).
Proof.
  intros Hs Hr. enough (counted [] s') as [_ [_ H]] by exact H.
  induction Hr as [|s s1 s' Hstep _ IH]; [done|]. apply IH.
  destruct Hstep as [m k r k' Hm H|i k k' Hi H]; [by eapply file_call_counted|by eapply dispatch_counted].
Qed.

(** dup(0) in [demo_user]. *)
Lemma descriptors_counted_witness : ∃ k' s', sys_dup (Kctx [] []) demo_user = Done 1 k' s' ∧
  fref (thef 0 s') = 2 ∧ fref (thef 0 s') = Z.of_nat (count 0 (descriptors s')).
Proof.
  eexists _, _. split; [by vm_compute|]. split; [by vm_compute|].
  apply (descriptors_counted 0 demo_user).
  - split; [apply (bool_decide_unpack _); by vm_compute|]. split; [|].
    + apply (bool_decide_unpack _). by vm_compute.
    + intros [|f] Hf; [by vm_compute|]. simpl in Hf. lia.
  - apply rtc_once. apply (fs_call 0 _ _ sys_dup (Kctx [] []) 1 (Kctx [] [])); [constructor|by vm_compute].
  - apply (bool_decide_unpack _). by vm_compute.
Defined.
