(* ===== verification/ExecSpec.v ===== *)
(** * exec, traps and the clock

    A failed exec leaves the process as it was; a killed process does not get back to user
    space; sleep(n) lasts n ticks. *)

From stdpp Require Import base gmap list strings.
From Stdlib Require Import ZArith Lia.
From S2P Require Import Prelude Params Kmonad Cstring Kalloc Console Kbd Vm VmSpec VmUser VmCopy.
From S2P Require Import Bio Log Fs ConsoleDev Pipe Kstate File FileSpec Proc ProcSpec ProcTable.
From S2P Require Import ProcExit Syscall Sysfile Exec Trap SyscallSpec.

(** ** Routines that leave the process table alone *)

Definition procs_are (ps : list proc) (c : nat) (s : kst) : Prop := k_procs s = ps ∧ k_cur s = c.

Create HintDb procs.
#[export] Hint Resolve leads_ret leads_gets leads_panic leads_diverge leads_defined leads_acquire
  leads_release leads_sched : procs.
#[export] Hint Extern 1 (leads (procs_are _ _) (infs _) _) => by apply leads_zoom : procs.
#[export] Hint Extern 1 (leads (procs_are _ _) (invm _) _) => by apply leads_zoom : procs.
#[export] Hint Extern 1 (leads (procs_are _ _) (incst _) _) => by apply leads_zoom : procs.
#[export] Hint Extern 1 (leads (procs_are _ _) kbegin_op _) => by apply leads_zoom : procs.
#[export] Hint Extern 1 (leads (procs_are _ _) kend_op _) => by apply leads_zoom : procs.
Ltac procs := repeat (first [leads_step | solve [auto with procs]]).

Section exec.
Context (kend kdata : Z) (ps : list proc) (c : nat).
Notation keep m := (leads (procs_are ps c) m (procs_are ps c)).

Lemma knamei_procs path : keep (knamei path).
Proof. unfold knamei. procs. Qed.
Hint Resolve knamei_procs : procs.

Lemma load_loop_procs fuel pgdir addr ip offset sz i : keep (load_loop fuel pgdir addr ip offset sz i).
Proof. revert i. induction fuel as [|f IH]; intros i; cbn [load_loop]; procs. Qed.
Hint Resolve load_loop_procs : procs.

Lemma load_segs_procs n pgdir ip sz off : keep (load_segs kend n pgdir ip sz off).
Proof.
  revert sz off. induction n as [|n IH]; intros sz off; cbn [load_segs]; [procs|].
  unfold load_seg, loaduvm. procs.
Qed.

Lemma push_args_procs argv argc pgdir sp us : keep (push_args argv argc pgdir sp us).
Proof. revert argc sp us. induction argv as [|a argv IH]; intros; cbn [push_args]; procs. Qed.
Hint Resolve load_segs_procs push_args_procs : procs.

Lemma build_stack_procs argv pgdir sz : keep (build_stack kend argv pgdir sz).
Proof. unfold build_stack. procs. Qed.
Lemma exec_bad_procs pgdir ip : keep (exec_bad kend pgdir ip).
Proof. unfold exec_bad. procs. Qed.
End exec.
#[export] Hint Resolve knamei_procs load_segs_procs build_stack_procs : procs.

(** The process after exec committed to a new image. *)
Definition exec_image (path : list Z) (pgdir sz entry sp : Z) (p : proc) : proc :=
  set_tf (set_entry_point entry sp (p_tf p)) (set_psz sz (set_ppgdir pgdir (set_name (name_of (last_elem path path)) p))).

Lemma exec_commit_run kend path pgdir sz entry sp k s r k' s' : (k_cur s < length (k_procs s))%nat →
  exec_commit kend path pgdir sz entry sp k s = Done r k' s' →
  r = 0 ∧ k_procs s' = <[k_cur s := exec_image path pgdir sz entry sp (curp s)]> (k_procs s).
Proof.
  intros Hc H. unfold exec_commit, upd_cur in H.
  rewrite (bind_Done _ _ _ _ _ _ _ (modify_eq _ k s)) in H. cbv beta in H.
  match type of H with (gets curp ≫= _) k ?s1 = _ =>
    rewrite (bind_Done _ _ _ _ _ _ _ (gets_eq curp k s1)) in H end. cbv beta zeta in H.
  do 3 (rewrite (bind_Done _ _ _ _ _ _ _ (modify_eq _ k _)) in H; cbv beta in H).
  apply bind_inv in H as (u1 & k1 & s1 & H1 & H). apply bind_inv in H as (u2 & k2 & s2 & H2 & H).
  injection H as <- <- <-. split; [done|].
  match type of H1 with invm ?m k ?s0 = _ =>
    pose proof (invm_procs m k s0) as E1; rewrite H1 in E1; set (s3 := s0) in E1 end.
  match type of H2 with invm ?m k1 s1 = _ => pose proof (invm_procs m k1 s1) as E2; rewrite H2 in E2 end.
  rewrite E2, E1. unfold s3.
  repeat (rewrite updp_updp; [|rewrite ?length_updp; exact Hc]). done.
Qed.

Lemma leads_Done {A} P (m : M kst A) Q k s a k' s' : leads P m Q → P s → m k s = Done a k' s' → Q s'.
Proof. intros Hm Hs H. specialize (Hm k s Hs). by rewrite H in Hm. Qed.

(** What [exec_bad] returns and keeps. *)
Lemma exec_bad_run kend pgdir ip ps c k s r k' s' : procs_are ps c s →
  exec_bad kend pgdir ip k s = Done r k' s' → r = -1 ∧ k_procs s' = ps.
Proof.
  intros Hs H. split; [|by eapply (leads_Done _ _ _ _ _ _ _ _ (exec_bad_procs kend ps c pgdir ip))].
  unfold exec_bad in H. apply bind_inv in H as (? & ? & ? & _ & H).
  apply bind_inv in H as (? & ? & ? & _ & H). by injection H.
Qed.

(** Replace the run [H] of a routine by what it keeps of the table. *)
Ltac kept H :=
  match goal with Hs : procs_are ?ps ?c _ |- _ =>
    apply (leads_Done (procs_are ps c) _ (procs_are ps c)) in H; [clear Hs|auto with procs|exact Hs] end.

(** The part of exec with the inode locked. *)
Lemma exec_locked kend kdata junk path argv ip ps c k s r k' s' : procs_are ps c s → (c < length ps)%nat →
  (sw ← gets dsw;
   r ← infs (readi sw ip 0 sizeof_elfhdr);
   if u32 r.1 <? sizeof_elfhdr then exec_bad kend 0 (Some ip)
   else
     let elf := get_elfhdr (over_junk r.2 junk) in
     if negb (e_magic elf =? ELF_MAGIC) then exec_bad kend 0 (Some ip)
     else
       pgdir ← invm (setupkvm kdata);
       if pgdir =? 0 then exec_bad kend 0 (Some ip)
       else
         o ← load_segs kend (Z.to_nat (e_phnum elf)) pgdir ip 0 (e_phoff elf);
         match (o : option Z) with
         | None => exec_bad kend pgdir (Some ip)
         | Some sz =>
           infs (iunlockput ip);;
           kend_op;;
           o ← build_stack kend argv pgdir sz;
           match (o : option (Z * Z)) with
           | None => exec_bad kend pgdir None
           | Some (sz, sp) => exec_commit kend path pgdir sz (e_entry elf) sp
           end
         end) k s = Done r k' s' →
  (r = -1 ∧ k_procs s' = ps) ∨
  (r = 0 ∧ ∃ pgdir sz entry sp, pgdir ≠ 0 ∧
     k_procs s' = <[c := exec_image path pgdir sz entry sp (nthz proc0 ps c)]> ps).
Proof.
  intros Hs Hc H. apply bind_inv in H as (sw & k1 & s1 & H1 & H). injection H1 as <- <- <-.
  apply bind_inv in H as (hd & k2 & s2 & H2 & H).
  kept H2.
  destruct (_ <? _); [left; by eapply exec_bad_run|].
  cbv zeta in H. destruct (negb _); [left; by eapply exec_bad_run|].
  apply bind_inv in H as (pgdir & k3 & s3 & H3 & H).
  kept H3.
  destruct (Z.eqb_spec pgdir 0) as [|Hp]; [left; by eapply exec_bad_run|].
  apply bind_inv in H as (o & k4 & s4 & H4 & H).
  kept H4.
  destruct o as [sz|]; [|left; by eapply exec_bad_run].
  apply bind_inv in H as ([] & k5 & s5 & H5 & H).
  kept H5.
  apply bind_inv in H as ([] & k6 & s6 & H6 & H).
  kept H6.
  apply bind_inv in H as (o & k7 & s7 & H7 & H).
  kept H7.
  destruct o as [[sz' sp]|]; [|left; by eapply exec_bad_run].
  destruct H7 as [E1 E2]. apply exec_commit_run in H as [-> Hps]; [|by rewrite E1, E2].
  right. split; [done|]. eexists _, _, _, _. split; [done|]. unfold curp, thep in Hps.
  by rewrite E1, E2 in Hps.
Qed.


(** ** A killed process does not get back to user space *)

Lemma sched_no_return {A} c k s (a : A) k' s' : Proc.sched c k s ≠ Done a k' s'.
Proof. unfold Proc.sched. destruct (decide _); [|done]. destruct (decide _); [|done]. by destruct (bool_decide _). Qed.

Lemma exit_no_return {A} kend k s (a : A) k' s' : exit kend k s ≠ Done a k' s'.
Proof.
  unfold exit, become_zombie. intros H.
  apply bind_inv in H as (me & k1 & s1 & _ & H). apply bind_inv in H as (i & k2 & s2 & _ & H).
  destruct (bool_decide _); [done|].
  do 6 (apply bind_inv in H as (? & ? & ? & _ & H)).
  do 7 (apply bind_inv in H as (? & ? & ? & _ & H)). by apply sched_no_return in H.
Qed.

(** A killed process does not get back to user space.  When trap() returns to a
    process it interrupted in user mode, or whose system call it served, that process is
    not killed: a killed one has left through exit(). *)
Theorem trap_returns_alive K cpu cr2 shift kbd uart tf k s r k' s' :
  trapno tf = T_SYSCALL ∨ Z.land (cs tf) 3 = DPL_USER →
  trap K cpu cr2 true shift kbd uart tf k s = Done r k' s' →
  p_killed (curp s') = false.
Proof.
  intros Ht H. unfold trap in H. destruct (Z.eqb_spec (trapno tf) T_SYSCALL) as [E|E].
  - do 3 (apply bind_inv in H as (? & ? & ? & _ & H)).
    apply bind_inv in H as ([] & k1 & s1 & _ & H). rewrite (bind_Done _ _ _ _ _ _ _ (gets_eq curp k1 s1)) in H.
    apply bind_inv in H as ([] & k2 & s2 & H2 & H). injection H as _ _ <-.
    destruct (p_killed (curp s1)) eqn:Ek; [by apply exit_no_return in H2|]. by injection H2 as _ <-.
  - destruct Ht as [Ht|Ht]; [done|].
    do 3 (apply bind_inv in H as (? & ? & ? & _ & H)). apply bind_inv in H as ([] & k0 & s0 & _ & H).
    apply bind_inv in H as ([] & k1 & s1 & H1 & H). injection H as _ _ <-.
    unfold exit_if_killed in H1. rewrite (bind_Done _ _ _ _ _ _ _ (gets_eq curp k0 s0)) in H1. rewrite Ht in H1.
    destruct (p_killed (curp s0)) eqn:Ek; cbn in H1; [by apply exit_no_return in H1|].
    by injection H1 as _ <-.
Qed.

(** ** The clock *)

(** Sleep(n) lasts n ticks.  [j] ticks after the call, its loop goes back to sleep
    while [j] is below [n], taken as an unsigned number, and returns 0 from then on; and
    every tick of the clock wakes the process, so that it looks at the time again. *)
Theorem sleep_lasts_n_ticks t0 n j k s : 0 ≤ t0 < 2 ^ 32 → 0 ≤ j < 2 ^ 32 → k_ticks s = u32 (t0 + j) →
  held k = [LTicks] → (k_cur s < length (k_procs s))%nat → p_killed (curp s) = false →
  sleep_while t0 n k s =
    (if j <? u32 n then Blocked CTicks (Kctx [] (wakeups k)) (asleep CTicks s)
     else Done 0 (Kctx [] (wakeups k)) s) ∧
  ∀ k2, LTicks ∉ held k2 → LPtable ∉ held k2 →
    ∃ s', timer_tick 0 k2 (asleep CTicks s) = Done tt k2 s' ∧
      k_ticks s' = u32 (t0 + (j + 1)) ∧ p_state (thep (k_cur s) s') = RUNNABLE.
Proof.
  intros Ht0 Hj Ht Hk Hc Hkill. split.
  - unfold sleep_while. mb (gets_eq k_ticks k s). rewrite Ht, u32_sub_l.
    replace (t0 + j - t0) with j by lia. rewrite (u32_small j) by lia.
    destruct (j <? u32 n).
    + mb (gets_eq curp k s). rewrite Hkill. rewrite sleep_blocks by done. by rewrite sleep_eq.
    + destruct k as [h w]. simpl in Hk. subst h. unfold mbind, M_bind. by rewrite release_top.
  - intros k2 H1 H2. unfold timer_tick. cbn [Z.eqb].
    mb (acquire_eq LTicks k2 (asleep CTicks s) H1). set (k3 := Kctx _ _).
    rewrite (bind_Done _ _ _ _ _ _ _ (modify_eq _ k3 _)). cbv beta. set (s1 := set_ticks _ _).
    mb (wakeup_runs CTicks k3 s1 ltac:(unfold k3; cbn; set_solver)).
    unfold k3. rewrite release_top. eexists. split; [by destruct k2|]. split.
    + unfold s1. cbn [k_ticks set_kprocs set_ticks asleep updp]. rewrite Ht, u32_add_l. f_equal. lia.
    + assert (L : (k_cur s < length (k_procs s1))%nat) by (unfold s1, asleep; cbn [k_procs set_ticks]; by rewrite length_updp).
      rewrite thep_wakeup1 by done.
      change (thep (k_cur s) s1) with (thep (k_cur s) (asleep CTicks s)). unfold asleep.
      rewrite thep_updp by done. by rewrite decide_True.
Qed.

(** [demo_user] in a directory that is no directory: no program is found. *)
Definition demo_lost : kst := updp 0 (set_cwd (Some 0%nat)) demo_user.
Definition demo_path : list Z := [120].


Definition demo_kernel : kernel := Kernel demo_kend 0 0 0 [].
(** getpid() *)
Definition demo_tf : trapframe := Trapframe 0 0 0 0 0 0 11 0 0 0 0 T_SYSCALL 0 0 35 0 100 35.

Lemma trap_returns_alive_witness : ∃ k' s',
  trap demo_kernel 0 0 true 0 [] [] demo_tf (Kctx [] []) demo_user = Done 0 k' s' ∧
  eax (p_tf (curp s')) = 1 ∧ p_killed (curp s') = false.
Proof.
  eexists _, _. split; [by vm_compute|]. split; [by vm_compute|].
  eapply (trap_returns_alive demo_kernel 0 0 0 [] [] demo_tf (Kctx [] []) demo_user 0); [by left|].
  by vm_compute.
Defined.

Lemma sleep_lasts_n_ticks_witness :
  sleep_while 0 3 (Kctx [LTicks] []) demo_user = Blocked CTicks (Kctx [] []) (asleep CTicks demo_user) ∧
  ∃ s', timer_tick 0 (Kctx [] []) (asleep CTicks demo_user) = Done tt (Kctx [] []) s' ∧
    k_ticks s' = 1 ∧ p_state (thep 0 s') = RUNNABLE.
Proof.
  destruct (sleep_lasts_n_ticks 0 3 0 (Kctx [LTicks] []) demo_user) as [H1 H2];
    [lia|lia|done|done|apply (bool_decide_unpack _); by vm_compute|done|].
  split; [exact H1|]. apply (H2 (Kctx [] [])); apply not_elem_of_nil.
Defined.
