(* ===== verification/Sh.v ===== *)
(** * sh.c: the shell's parser

    The command line is the list [buf] of its bytes, which the buffer holds followed by a
    zero; a pointer into it is a position, and [s] in the parsing routines is what is left
    of the line.  A word is kept as its two positions, as the code keeps the pointers q and
    eq until nulterminate() writes a zero at each eq.  panic() ends the
    shell: [Bad], with the leftovers parsecmd() reports and the message. *)

From stdpp Require Import base list strings.
From Stdlib Require Import ZArith Lia.
From S2P Require Import Prelude Params.

(** struct cmd and its five forms.  [W] is how a word is given: in the parser by the pair of
    its positions. *)
Inductive scmd (W : Type) : Type :=
| EXEC (argv : list W)
| REDIR (c : scmd W) (file : W) (mode fd : Z)
| PIPE (left right : scmd W)
| LIST (left right : scmd W)
| BACK (c : scmd W).
Arguments EXEC {W} _.
Arguments REDIR {W} _ _ _ _.
Arguments PIPE {W} _ _.
Arguments LIST {W} _ _.
Arguments BACK {W} _.
Fixpoint smap {W V} (f : W → V) (c : scmd W) : scmd V :=
  match c with
  | EXEC argv => EXEC (f <$> argv)
  | REDIR c file m fd => REDIR (smap f c) (f file) m fd
  | PIPE l r => PIPE (smap f l) (smap f r)
  | LIST l r => LIST (smap f l) (smap f r)
  | BACK c => BACK (smap f c)
  end.

Definition str : Type := (nat * nat)%type.
Definition cmd : Type := scmd str.

(** The constructors: a node is a value here, and malloc() does not fail. *)
Definition execcmd : cmd := EXEC [].
Definition redircmd (subcmd : cmd) (file : str) (mode fd : Z) : cmd := REDIR subcmd file mode fd.
Definition pipecmd (left right : cmd) : cmd := PIPE left right.
Definition listcmd (left right : cmd) : cmd := LIST left right.
Definition backcmd (subcmd : cmd) : cmd := BACK subcmd.
Arguments execcmd /.
Arguments redircmd _ _ _ _ /.
Arguments pipecmd _ _ /.
Arguments listcmd _ _ /.
Arguments backcmd _ /.

Definition MAXARGS : nat := 10.

Inductive res (A : Type) : Type :=
| Ok (a : A)
| Bad (rest : list Z) (msg : string)
| Nofuel.
Arguments Ok {A} _.
Arguments Bad {A} _ _.
Arguments Nofuel {A}.

#[global] Instance res_ret : MRet res := λ A a, Ok a.
#[global] Instance res_bind : MBind res := λ A B f m,
  match m with Ok a => f a | Bad l e => Bad l e | Nofuel => Nofuel end.

(** whitespace[] and symbols[] *)
Definition whitespace : list Z := [32; 9; 13; 10; 11].
Definition symbols : list Z := [60; 124; 62; 38; 59; 40; 41].
Definition white (c : Z) : bool := bool_decide (c ∈ whitespace).
Definition symbol (c : Z) : bool := bool_decide (c ∈ symbols).

Fixpoint skip_white (s : list Z) : list Z :=
  match s with
  | c :: s' => if white c then skip_white s' else s
  | [] => []
  end.
Fixpoint skip_word (s : list Z) : list Z :=
  match s with
  | c :: s' => if negb (white c) && negb (symbol c) then skip_word s' else s
  | [] => []
  end.

(** What gettoken returns. *)
Inductive token : Type := Tend | Tsym (c : Z) | Tappend | Tword.

Section parse.
(** The length of the line: a position is what is gone of it. *)
Context (len : nat).
Definition pos (s : list Z) : nat := (len - length s)%nat.

(** The token, its string, and what is left. *)
Definition gettoken (s : list Z) : token * str * list Z :=
  let s := skip_white s in
  match s with
  | [] => (Tend, (pos s, pos s), s)
  | c :: s1 =>
    if c =? 0 then (Tend, (pos s, pos s), s)
    else if c =? 62 then
      if s1.[0] =? 62 then (Tappend, (pos s, pos (drop 1 s1)), skip_white (drop 1 s1))
      else (Tsym c, (pos s, pos s1), skip_white s1)
    else if symbol c then (Tsym c, (pos s, pos s1), skip_white s1)
    else let e := skip_word s in (Tword, (pos s, pos e), skip_white e)
  end.

(** Whether the next character is one of [toks]; the blanks before it are gone. *)
Definition peek (toks s : list Z) : bool * list Z :=
  let s := skip_white s in
  (match s with c :: _ => negb (c =? 0) && bool_decide (c ∈ toks) | [] => false end, s).

(** parseredirs; a round takes two tokens. *)
Fixpoint parseredirs (fuel : nat) (c : cmd) (s : list Z) : res (cmd * list Z) :=
  match fuel with
  | O => Nofuel
  | S f =>
    let '(more, s) := peek [60; 62] s in
    if more then
      let '(tok, _, s) := gettoken s in
      let '(tok2, file, s) := gettoken s in
      match tok2 with
      | Tword =>
        match tok with
        | Tsym 60 => parseredirs f (redircmd c file O_RDONLY 0) s
        | Tsym 62 => parseredirs f (redircmd c file (Z.lor O_WRONLY O_CREATE) 1) s
        | Tappend => parseredirs f (redircmd c file (Z.lor O_WRONLY O_CREATE) 1) s
        | _ => parseredirs f c s
        end
      | _ => Bad [] "missing file for redirection"
      end
    else Ok (c, s)
  end.

(** The arguments are stored into the struct execcmd that the redirections [rs] wrap:
    parseexec's [ret] is [wrap (EXEC args)]. *)
Fixpoint wrap_exec (c : cmd) (args : list str) : cmd :=
  match c with
  | EXEC _ => EXEC args
  | REDIR c f m fd => REDIR (wrap_exec c args) f m fd
  | c => c
  end.

(** The loop of parseexec: [ret] holds the redirections, [args] are cmd->argv. *)
Fixpoint parse_words (fuel : nat) (ret : cmd) (args : list str) (s : list Z) : res (cmd * list Z) :=
  match fuel with
  | O => Nofuel
  | S f =>
    let '(stop, s) := peek [124; 41; 38; 59] s in
    if stop then Ok (wrap_exec ret args, s)
    else
      let '(tok, q, s) := gettoken s in
      match tok with
      | Tend => Ok (wrap_exec ret args, s)
      | Tword =>
        if (MAXARGS <=? S (length args))%nat then Bad [] "too many args"
        else
          r ← parseredirs (S (length s)) ret s;
          parse_words f r.1 (args ++ [q]) r.2
      | _ => Bad [] "syntax"
      end
  end.

(** while(peek(ps, es, "&")) *)
Fixpoint parse_back (fuel : nat) (c : cmd) (s : list Z) : res (cmd * list Z) :=
  match fuel with
  | O => Nofuel
  | S f =>
    let '(more, s) := peek [38] s in
    if more then let '(_, _, s) := gettoken s in parse_back f (backcmd c) s
    else Ok (c, s)
  end.

Fixpoint parseline (fuel : nat) (s : list Z) : res (cmd * list Z) :=
  match fuel with
  | O => Nofuel
  | S f =>
    r ← parsepipe f s;
    r ← parse_back (S (length r.2)) r.1 r.2;
    let '(more, s) := peek [59] r.2 in
    if more then
      let '(_, _, s) := gettoken s in
      r2 ← parseline f s;
      Ok (listcmd r.1 r2.1, r2.2)
    else Ok (r.1, s)
  end
with parsepipe (fuel : nat) (s : list Z) : res (cmd * list Z) :=
  match fuel with
  | O => Nofuel
  | S f =>
    r ← parseexec f s;
    let '(more, s) := peek [124] r.2 in
    if more then
      let '(_, _, s) := gettoken s in
      r2 ← parsepipe f s;
      Ok (pipecmd r.1 r2.1, r2.2)
    else Ok (r.1, s)
  end
with parseexec (fuel : nat) (s : list Z) : res (cmd * list Z) :=
  match fuel with
  | O => Nofuel
  | S f =>
    let '(block, s) := peek [40] s in
    if block then parseblock f s
    else
      r ← parseredirs (S (length s)) execcmd s;
      parse_words (S (length r.2)) r.1 [] r.2
  end
with parseblock (fuel : nat) (s : list Z) : res (cmd * list Z) :=
  match fuel with
  | O => Nofuel
  | S f =>
    let '(open, s) := peek [40] s in
    if negb open then Bad [] "parseblock"
    else
      let '(_, _, s) := gettoken s in
      r ← parseline f s;
      let '(close, s) := peek [41] r.2 in
      if negb close then Bad [] "syntax - missing )"
      else
        let '(_, _, s) := gettoken s in
        parseredirs (S (length s)) r.1 s
  end.
End parse.

(** The C string at a position of the buffer. *)
Fixpoint upto_zero (l : list Z) : list Z :=
  match l with
  | [] => []
  | c :: l' => if c =? 0 then [] else c :: upto_zero l'
  end.
Definition string_at (buf : list Z) (w : str) : list Z := upto_zero (drop (fst w) buf).

(** nulterminate: the line with zeros behind the words of the command.  [buf] includes
    the zero at the end. *)
Definition cut (buf : list Z) (w : str) : list Z := <[snd w := 0]> buf.
Fixpoint nulterminate (c : cmd) (buf : list Z) : list Z :=
  match c with
  | EXEC argv => foldl cut buf argv
  | REDIR c file _ _ => cut (nulterminate c buf) file
  | PIPE l r => nulterminate r (nulterminate l buf)
  | LIST l r => nulterminate r (nulterminate l buf)
  | BACK c => nulterminate c buf
  end.

(** Rounds that do not shorten the line come in fours at most: parseline, parsepipe,
    parseexec and parseblock. *)
Definition parse_fuel (line : list Z) : nat := (4 * length line + 4)%nat.

(** parsecmd: the command, and the buffer of the line and its zero after nulterminate. *)
Definition parsecmd (line : list Z) : res (cmd * list Z) :=
  let len := length line in
  r ← parseline len (parse_fuel line) line;
  match skip_white r.2 with
  | [] => Ok (r.1, nulterminate r.1 (line ++ [0]))
  | rest => Bad rest "syntax"
  end.
