(* ===== verification/ShSpec.v ===== *)
(** * The shell's parser is total, and its words are cut right

    Every recursive call of the parser of sh.c is on a shorter rest of the line, so fuel as
    long as the line is enough; the words it finds are maximal words of the line, and
    nulterminate ends each of them with a zero. *)

From stdpp Require Import base list sets strings.
From Stdlib Require Import ZArith Lia.
From S2P Require Import Prelude Params Sh.

(** ** Words *)

Definition word_char (c : Z) : bool := negb (white c) && negb (symbol c).

(** The positions of a word in the line: as long as it can be. *)
Definition word_at (line : list Z) (w : str) : Prop :=
  (fst w < snd w ≤ length line)%nat ∧
  (∀ i c, (fst w ≤ i < snd w)%nat → line !! i = Some c → word_char c = true) ∧
  (∀ c, line !! snd w = Some c → word_char c = false).

(** All the words of a command. *)
Fixpoint words (c : cmd) : list str :=
  match c with
  | EXEC argv => argv
  | REDIR c file _ _ => words c ++ [file]
  | PIPE l r => words l ++ words r
  | LIST l r => words l ++ words r
  | BACK c => words c
  end.

(** ** The lexer *)

Lemma skip_white_suffix s : skip_white s `suffix_of` s.
Proof.
  induction s as [|c s IH]; simpl; [done|]. destruct (white c); [by apply suffix_cons_r|done].
Qed.

Lemma skip_word_split s : ∃ w, s = w ++ skip_word s ∧ Forall (λ c, word_char c = true) w ∧
  ∀ c, skip_word s !! 0%nat = Some c → word_char c = false.
Proof.
  induction s as [|c s IH]; simpl; [by exists []|]. destruct (negb (white c) && negb (symbol c)) eqn:E.
  - destruct IH as (w & Hs & Hw & Hn). exists (c :: w). split_and!; [simpl; by f_equal|by constructor|done].
  - exists []. split_and!; [done|constructor|]. by intros c' [= <-].
Qed.

Lemma skip_white_head s c s' : skip_white s = c :: s' → white c = false.
Proof.
  induction s as [|d s IH]; simpl; [done|]. destruct (white d) eqn:E; [done|]. by intros [= <- _].
Qed.

Lemma length_skip_white s : (length (skip_white s) ≤ length s)%nat.
Proof. apply suffix_length, skip_white_suffix. Qed.

Section lexer.
Context (line : list Z).
Hypothesis nozero : 0 ∉ line.
Notation gettoken := (gettoken (length line)).
Notation pos := (pos (length line)).

Lemma pos_suffix s p : line = p ++ s → pos s = length p.
Proof. clear nozero. intros ->. unfold Sh.pos. rewrite length_app. lia. Qed.

Lemma word_token p w r : line = p ++ w ++ r → w ≠ [] → Forall (λ c, word_char c = true) w →
  (∀ c, r !! 0%nat = Some c → word_char c = false) → word_at line (pos (w ++ r), pos r).
Proof.
  intros Hl Hne Hw Hr. unfold word_at. cbn [fst snd].
  rewrite (pos_suffix (w ++ r) p Hl), (pos_suffix r (p ++ w)) by (by rewrite <- app_assoc).
  assert (0 < length w)%nat by (destruct w; [done|simpl; lia]). rewrite length_app. split_and!.
  - lia.
  - rewrite Hl, !length_app. lia.
  - intros i x Hi Hx. rewrite Hl, lookup_app_r, lookup_app_l in Hx by lia.
    by apply (proj1 (Forall_lookup _ _) Hw _ _ Hx).
  - intros x Hx. rewrite Hl, app_assoc, lookup_app_r in Hx by (rewrite length_app; lia).
    rewrite length_app, Nat.sub_diag in Hx. by apply Hr.
Qed.

(** The word gettoken finds at [c :: s1]. *)
Lemma skip_word_word c s1 : c :: s1 `suffix_of` line → word_char c = true →
  skip_word s1 `suffix_of` s1 ∧ word_at line (pos (c :: s1), pos (skip_word s1)).
Proof.
  intros [p Hp] Hc. destruct (skip_word_split s1) as (w & Hs & Hw & Hn). split; [by exists w|].
  generalize dependent (skip_word s1). intros r -> Hn.
  by apply (word_token p (c :: w)); [|done|constructor|].
Qed.

Lemma gettoken_spec s : s `suffix_of` line → let '(t, w, s') := gettoken s in
  s' `suffix_of` line ∧ (length s' ≤ length s)%nat ∧
  (skip_white s ≠ [] → (length s' < length s)%nat) ∧
  (t = Tword → word_at line w) ∧ (t = Tend ↔ skip_white s = []).
Proof.
  intros Hs. pose proof (length_skip_white s) as Hl.
  assert (Hsl : skip_white s `suffix_of` line) by (etrans; [apply skip_white_suffix|done]).
  unfold Sh.gettoken. destruct (skip_white s) as [|c s1] eqn:E.
  { by split_and!. }
  assert (Hc0 : c ≠ 0).
  { intros ->. apply nozero. destruct Hsl as [p ->]. apply elem_of_app. right. left. }
  destruct (Z.eqb_spec c 0); [done|].
  assert (Hrest : ∀ r, r `suffix_of` s1 → skip_white r `suffix_of` line ∧
    (length (skip_white r) < length s)%nat).
  { intros r Hr. split.
    - etrans; [apply skip_white_suffix|]. etrans; [exact Hr|]. etrans; [|exact Hsl]. by apply suffix_cons_r.
    - pose proof (length_skip_white r). apply suffix_length in Hr. simpl in Hl. lia. }
  assert (Hd : drop 1 s1 `suffix_of` s1) by (exists (take 1 s1); by rewrite take_drop).
  destruct (c =? 62); [destruct (s1.[0] =? 62)|destruct (symbol c) eqn:Es].
  - destruct (Hrest _ Hd). split_and!; try done; lia.
  - destruct (Hrest s1 ltac:(done)). split_and!; try done; lia.
  - destruct (Hrest s1 ltac:(done)). split_and!; try done; lia.
  - pose proof (skip_white_head _ _ _ E) as Hwh. cbn [skip_word]. rewrite Hwh, Es. cbn [negb andb].
    destruct (skip_word_word c s1 Hsl) as [H1 H2]; [unfold word_char; by rewrite Hwh, Es|].
    destruct (Hrest _ H1). split_and!; try done; lia.
Qed.

Lemma peek_spec toks s : s `suffix_of` line → let '(b, s') := peek toks s in
  s' `suffix_of` line ∧ (length s' ≤ length s)%nat ∧ (b = true → skip_white s' ≠ []).
Proof.
  intros Hs. unfold peek. split_and!; [by etrans; [apply skip_white_suffix|]|apply length_skip_white|].
  pose proof (skip_white_head s) as H. destruct (skip_white s) as [|c s']; [done|].
  intros _. simpl. by rewrite (H c s' eq_refl).
Qed.
End lexer.

(** ** The parser *)

(** A result of the parser on [s]: it did not run out of fuel, what is left is a rest of
    the line that is not longer, and the words are words of the line. *)
Definition parsed (line s : list Z) (r : res (cmd * list Z)) : Prop :=
  match r with
  | Ok (c, s') => s' `suffix_of` line ∧ (length s' ≤ length s)%nat ∧ Forall (word_at line) (words c)
  | Bad _ _ => True
  | Nofuel => False
  end.

Lemma parsed_le line s s1 r : (length s1 ≤ length s)%nat → parsed line s1 r → parsed line s r.
Proof. destruct r as [[c s']| |]; simpl; [|done..]. intros ? (? & ? & ?). split_and!; [done|lia|done]. Qed.

Lemma parsed_bind line s s1 r (f : cmd * list Z → res (cmd * list Z)) : parsed line s1 r →
  (∀ c s', r = Ok (c, s') → s' `suffix_of` line → (length s' ≤ length s1)%nat →
     Forall (word_at line) (words c) → parsed line s (f (c, s'))) →
  parsed line s (r ≫= f).
Proof. destruct r as [[c s']| |]; simpl; [|done..]. intros (? & ? & ?) HF. by apply HF. Qed.

Section parser.
Context (line : list Z).
Hypothesis nozero : 0 ∉ line.
Notation len := (length line).

(** Take a token, or look at the next character. *)
Ltac token t w s' :=
  match goal with |- context [gettoken len ?s] =>
    let HT := fresh "HT" in let A := fresh "A" in let B := fresh "B" in let C := fresh "C" in let D := fresh "D" in let E := fresh "E" in
    pose proof (gettoken_spec line nozero s ltac:(assumption)) as HT;
    destruct (gettoken len s) as [[t w] s']; destruct HT as (A & B & C & D & E) end.
Ltac look b s' :=
  match goal with |- context [peek ?toks ?s] =>
    let HT := fresh "HT" in let A := fresh "A" in let B := fresh "B" in let C := fresh "C" in let D := fresh "D" in let E := fresh "E" in
    pose proof (peek_spec line toks s ltac:(assumption)) as HT;
    destruct (peek toks s) as [b s']; destruct HT as (A & B & C) end.

Lemma parseredirs_parsed fuel c s : (length s < fuel)%nat → s `suffix_of` line →
  Forall (word_at line) (words c) → parsed line s (parseredirs len fuel c s).
Proof.
  revert c s. induction fuel as [|f IH]; intros c s Hf Hs Hc; [lia|]. cbn [parseredirs].
  look b s1. destruct b; [|simpl; by split_and!].
  token t w s2. token t2 w2 s3. destruct t2; try done.
  assert (Hlt : (length s3 < length s)%nat).
  { assert (length s2 < length s1)%nat by auto. lia. }
  apply (parsed_le _ _ s3); [lia|].
  assert (Hw2 : ∀ m fd, Forall (word_at line) (words (REDIR c w2 m fd))).
  { intros. simpl. apply Forall_app. split; [done|]. constructor; [auto|constructor]. }
  destruct t as [|x| |]; [apply IH; [lia|done|done]| |apply IH; [lia|done|apply Hw2]|apply IH; [lia|done|done]].
  destruct x as [|x|x]; [apply IH; [lia|done|done]| |apply IH; [lia|done|done]].
  repeat (destruct x as [x|x|]; try (apply IH; [lia|done|first [done|apply Hw2]])).
Qed.

Lemma words_wrap c args : Forall (word_at line) (words c) → Forall (word_at line) args →
  Forall (word_at line) (words (wrap_exec c args)).
Proof.
  intros Hc Ha. induction c as [a|c IH f m fd|l IHl r IHr|l IHl r IHr|c IH]; simpl in *; try done.
  apply Forall_app in Hc as [H1 H2]. apply Forall_app. split; [by apply IH|done].
Qed.

Lemma parse_words_parsed fuel ret args s : (length s < fuel)%nat → s `suffix_of` line →
  Forall (word_at line) (words ret) → Forall (word_at line) args →
  parsed line s (parse_words len fuel ret args s).
Proof.
  revert ret args s. induction fuel as [|f IH]; intros ret args s Hf Hs Hr Ha; [lia|]. cbn [parse_words].
  look b s1. destruct b; [simpl; split_and!; [done|lia|by apply words_wrap]|].
  token t w s2. destruct t; try done.
  - simpl. split_and!; [done|lia|by apply words_wrap].
  - destruct (_ <=? _)%nat; [done|].
    assert (Hlt : (length s2 < length s1)%nat).
    { match goal with H : Tword = Tend ↔ _, H' : skip_white s1 ≠ [] → _ |- _ => apply H'; by intros ?%H end. }
    eapply parsed_bind; [apply (parseredirs_parsed (S (length s2))); [lia|done..]|].
    intros c s3 _ Hs3 Hl3 Hc. apply (parsed_le _ _ s3); [lia|]. apply IH; [simpl; lia|done|done|].
    apply Forall_app. split; [done|]. constructor; [auto|constructor].
Qed.

Lemma parse_back_parsed fuel c s : (length s < fuel)%nat → s `suffix_of` line →
  Forall (word_at line) (words c) → parsed line s (parse_back len fuel c s).
Proof.
  revert c s. induction fuel as [|f IH]; intros c s Hf Hs Hc; [lia|]. cbn [parse_back].
  look b s1. destruct b; [|simpl; by split_and!]. token t w s2.
  assert (length s2 < length s1)%nat by auto. apply (parsed_le _ _ s2); [lia|]. apply IH; [lia|done|done].
Qed.

Lemma parser_parsed fuel :
  (∀ s, (4 * length s + 4 ≤ fuel)%nat → s `suffix_of` line → parsed line s (parseline len fuel s)) ∧
  (∀ s, (4 * length s + 3 ≤ fuel)%nat → s `suffix_of` line → parsed line s (parsepipe len fuel s)) ∧
  (∀ s, (4 * length s + 2 ≤ fuel)%nat → s `suffix_of` line → parsed line s (parseexec len fuel s)) ∧
  (∀ s, (4 * length s + 1 ≤ fuel)%nat → s `suffix_of` line → parsed line s (parseblock len fuel s)).
Proof.
  induction fuel as [|f (IHl & IHp & IHe & IHb)]; [split_and!; intros; lia|].
  split_and!; intros s Hf Hs; cbn [parseline parsepipe parseexec parseblock].
  - eapply parsed_bind; [apply IHp; [lia|done]|]. intros c s1 _ Hs1 Hl1 Hc.
    eapply parsed_bind; [apply parse_back_parsed; [simpl; lia|done|done]|]. intros c2 s2 _ Hs2 Hl2 Hc2.
    cbn [snd fst] in *. look b s3. destruct b; [|simpl; split_and!; [done|lia|done]].
    token t w s4. assert (length s4 < length s3)%nat by auto.
    eapply parsed_bind; [apply IHl; [lia|done]|]. intros c5 s5 _ Hs5 Hl5 Hc5. simpl.
    split_and!; [done|lia|by apply Forall_app].
  - eapply parsed_bind; [apply IHe; [lia|done]|]. intros c s1 _ Hs1 Hl1 Hc. cbn [snd fst].
    look b s2. destruct b; [|simpl; split_and!; [done|lia|done]].
    token t w s3. assert (length s3 < length s2)%nat by auto.
    eapply parsed_bind; [apply IHp; [lia|done]|]. intros c4 s4 _ Hs4 Hl4 Hc4. simpl.
    split_and!; [done|lia|by apply Forall_app].
  - look b s1. destruct b; [apply (parsed_le _ _ s1); [lia|]; apply IHb; [lia|done]|].
    eapply parsed_bind; [apply (parseredirs_parsed (S (length s1))); [lia|done|constructor]|].
    intros c s2 _ Hs2 Hl2 Hc. apply (parsed_le _ _ s2); [lia|].
    apply parse_words_parsed; [simpl; lia|done|done|constructor].
  - look b s1. destruct b; [|done]. token t w s2. assert (length s2 < length s1)%nat by auto.
    cbn [negb]. eapply parsed_bind; [apply IHl; [lia|done]|]. intros c s3 _ Hs3 Hl3 Hc. cbn [snd fst].
    look b s4. destruct b; [|done]. token t5 w5 s5. cbn [negb]. apply (parsed_le _ _ s5); [lia|].
    apply parseredirs_parsed; [lia|done|done].
Qed.
End parser.

(** ** The words after nulterminate *)

(** The text of a word. *)
Definition text (line : list Z) (w : str) : list Z := take (snd w - fst w) (drop (fst w) line).

Lemma length_cut buf w : length (cut buf w) = length buf.
Proof. apply length_insert. Qed.

Lemma length_nulterminate c buf : length (nulterminate c buf) = length buf.
Proof.
  revert buf. induction c as [a|c IH f m fd|l IHl r IHr|l IHl r IHr|c IH]; intros buf; simpl.
  - revert buf. induction a as [|w a IH]; intros buf; simpl; [done|]. by rewrite IH, length_cut.
  - by rewrite length_cut.
  - by rewrite IHr.
  - by rewrite IHr.
  - done.
Qed.

Lemma cut_lookup buf w i : i ≠ snd w → cut buf w !! i = buf !! i.
Proof. intros. unfold cut. by rewrite list_lookup_insert_ne. Qed.

Lemma cut_zero buf w i : buf !! i = Some 0 → cut buf w !! i = Some 0.
Proof.
  intros H. unfold cut. destruct (decide (i = snd w)) as [->|]; [|by rewrite list_lookup_insert_ne].
  apply list_lookup_insert_eq. by eapply lookup_lt_Some.
Qed.

Lemma nulterminate_keeps c buf i : i ∉ snd <$> words c → nulterminate c buf !! i = buf !! i.
Proof.
  revert buf. induction c as [a|c IH f m fd|l IHl r IHr|l IHl r IHr|c IH]; intros buf Hi; simpl in *.
  - revert buf. induction a as [|w a IH]; intros buf; simpl; [done|]. rewrite IH, cut_lookup by set_solver. done.
  - rewrite fmap_app in Hi. rewrite cut_lookup, IH by set_solver. done.
  - rewrite fmap_app in Hi. rewrite IHr, IHl by set_solver. done.
  - rewrite fmap_app in Hi. rewrite IHr, IHl by set_solver. done.
  - by apply IH.
Qed.

Lemma nulterminate_zero c buf i : buf !! i = Some 0 → nulterminate c buf !! i = Some 0.
Proof.
  revert buf. induction c as [a|c IH f m fd|l IHl r IHr|l IHl r IHr|c IH]; intros buf Hi; simpl; auto using cut_zero.
  revert buf Hi. induction a as [|w a IH]; intros buf Hi; simpl; auto using cut_zero.
Qed.

Lemma nulterminate_cuts c buf i : i ∈ snd <$> words c → (i < length buf)%nat →
  nulterminate c buf !! i = Some 0.
Proof.
  intros Hi Hl. revert buf Hl. induction c as [a|c IH f m fd|l IHl r IHr|l IHl r IHr|c IH]; intros buf Hl; simpl in *.
  - revert buf Hl. induction a as [|w a IHa]; intros buf Hl; simpl in *; [set_solver|].
    apply elem_of_cons in Hi as [->|Hi]; [|apply IHa; [done|by rewrite length_cut]].
    apply (nulterminate_zero (EXEC a)). apply list_lookup_insert_eq. done.
  - rewrite fmap_app, elem_of_app in Hi. destruct Hi as [Hi|Hi]; [by apply cut_zero, IH|].
    apply list_elem_of_singleton in Hi as ->. apply list_lookup_insert_eq. by rewrite length_nulterminate.
  - rewrite fmap_app, elem_of_app in Hi. destruct Hi as [Hi|Hi]; [by apply nulterminate_zero, IHl|].
    apply IHr; [done|]. by rewrite length_nulterminate.
  - rewrite fmap_app, elem_of_app in Hi. destruct Hi as [Hi|Hi]; [by apply nulterminate_zero, IHl|].
    apply IHr; [done|]. by rewrite length_nulterminate.
  - by apply IH.
Qed.

Lemma upto_zero_app l r : 0 ∉ l → r.[0] = 0 → upto_zero (l ++ r) = l.
Proof.
  induction l as [|c l IH]; intros Hl Hr; simpl.
  - destruct r as [|c r]; [done|]. cbn in Hr. by rewrite Hr.
  - apply not_elem_of_cons in Hl as [Hc Hl]. destruct (Z.eqb_spec c 0); [congruence|]. by rewrite IH.
Qed.

(** A word of the line is the C string at its start, once the command is terminated. *)
Lemma word_terminated line c w : 0 ∉ line → Forall (word_at line) (words c) → w ∈ words c →
  string_at (nulterminate c (line ++ [0])) w = text line w.
Proof.
  intros H0 Hw Hin. destruct (proj1 (Forall_forall _ _) Hw w Hin) as (Hlt & Hin' & Hend).
  set (buf := nulterminate c (line ++ [0])).
  assert (Hlen : length buf = S (length line)) by (unfold buf; rewrite length_nulterminate, length_app; simpl; lia).
  assert (E : drop (fst w) buf = text line w ++ drop (snd w) buf).
  { apply list_eq. intros i. destruct (decide (i < snd w - fst w)%nat) as [Hi|Hi].
    - rewrite lookup_app_l by (unfold text; rewrite length_take, length_drop; lia).
      unfold text. rewrite lookup_take_lt, !lookup_drop by lia.
      unfold buf. rewrite nulterminate_keeps; [by rewrite lookup_app_l by lia|].
      intros (w' & E & Hw')%list_elem_of_fmap. destruct (proj1 (Forall_forall _ _) Hw w' Hw') as (Hlt' & _ & He').
      destruct (lookup_lt_is_Some_2 line (fst w + i)%nat ltac:(lia)) as [x Hx].
      pose proof (Hin' (fst w + i)%nat x ltac:(lia) Hx) as H1. rewrite E in Hx. rewrite (He' _ Hx) in H1. done.
    - rewrite lookup_app_r by (unfold text; rewrite length_take, length_drop; lia).
      unfold text. rewrite length_take, length_drop, !lookup_drop. f_equal. lia. }
  unfold string_at. rewrite E. apply upto_zero_app.
  - unfold text. intros [i Hz]%list_elem_of_lookup_1. apply H0.
    apply lookup_take_Some in Hz as [Hz _]. rewrite lookup_drop in Hz. by eapply list_elem_of_lookup_2.
  - unfold nthz. rewrite lookup_drop, Nat.add_0_r. unfold buf.
    rewrite nulterminate_cuts; [done|by apply list_elem_of_fmap_2|rewrite length_app; simpl; lia].
Qed.

(** C29: the parser of the shell.  It ends on every line: parsecmd returns a command or
    reports a syntax error.  The words of a command it returns, the arguments and the file
    names, are stretches of the line without blanks and operators that cannot be extended
    to the right, and after nulterminate() each of them is the C string at its pointer. *)
Theorem parsecmd_words line : 0 ∉ line →
  match parsecmd line with
  | Ok (c, buf) => ∀ w, w ∈ words c → word_at line w ∧ string_at buf w = text line w
  | Bad _ _ => True
  | Nofuel => False
  end.
Proof.
  intros H0. unfold parsecmd.
  destruct (parser_parsed line H0 (parse_fuel line)) as (Hl & _).
  specialize (Hl line (Nat.le_refl _) (reflexivity line)).
  destruct (parseline (length line) (parse_fuel line) line) as [[c s']| |]; simpl in *; [|done..].
  destruct Hl as (_ & _ & Hw). destruct (skip_white s'); [|done]. intros w Hin.
  split; [by apply (proj1 (Forall_forall _ _) Hw)|by apply word_terminated].
Qed.

(** The line [ls -l|wc >f]: four words. *)
Definition demo_words : list Z := [108; 115; 32; 45; 108; 124; 119; 99; 32; 62; 102].

Lemma parsecmd_words_witness : 0 ∉ demo_words ∧
  (∃ c buf, parsecmd demo_words = Ok (c, buf) ∧ length (words c) = 4%nat) ∧
  match parsecmd demo_words with
  | Ok (c, buf) => ∀ w, w ∈ words c → word_at demo_words w ∧ string_at buf w = text demo_words w
  | Bad _ _ => True
  | Nofuel => False
  end.
Proof.
  assert (H : 0 ∉ demo_words) by (apply (bool_decide_unpack _); by vm_compute).
  split_and!; [exact H|do 2 eexists; by vm_compute|exact (parsecmd_words demo_words H)].
Defined.
