(* ===== verification/ShPrint.v ===== *)
(** * Command lines and what the shell makes of them

    The grammar of command lines, its printer, and the round trip: the parser of sh.c
    reads a printed line back. *)

From stdpp Require Import base list sets strings.
From Stdlib Require Import ZArith Lia.
From S2P Require Import Prelude Params Sh ShSpec.

(** ** The grammar *)

Inductive redir : Type := Rin (f : list Z) | Rout (f : list Z) | Rappend (f : list Z).

(** A line is a pipeline, in the background any number of times, and the rest of a list;
    a pipeline is commands; a command is words, or a line in parentheses, and redirections. *)
Inductive line : Type :=
| Last (p : pline) (bg : nat)
| Then (p : pline) (bg : nat) (l : line)
with pline : Type :=
| Single (e : simple)
| Into (e : simple) (p : pline)
with simple : Type :=
| Words (ws : list (list Z)) (rs : list redir)
| Block (l : line) (rs : list redir).

Scheme line_mut := Induction for line Sort Prop
with pline_mut := Induction for pline Sort Prop
with simple_mut := Induction for simple Sort Prop.
Combined Scheme grammar_ind from line_mut, pline_mut, simple_mut.

(** ** Printing: every token is followed by a blank *)

Definition show_word (w : list Z) : list Z := w ++ [32].
Definition show_redir (r : redir) : list Z :=
  match r with
  | Rin f => [60; 32] ++ show_word f
  | Rout f => [62; 32] ++ show_word f
  | Rappend f => [62; 62; 32] ++ show_word f
  end.
Definition show_redirs (rs : list redir) : list Z := rs ≫= show_redir.
Definition show_bg (n : nat) : list Z := concat (replicate n [38; 32]).

Fixpoint show_line (l : line) : list Z :=
  match l with
  | Last p bg => show_pline p ++ show_bg bg
  | Then p bg l => show_pline p ++ show_bg bg ++ [59; 32] ++ show_line l
  end
with show_pline (p : pline) : list Z :=
  match p with
  | Single e => show_simple e
  | Into e p => show_simple e ++ [124; 32] ++ show_pline p
  end
with show_simple (e : simple) : list Z :=
  match e with
  | Words ws rs => (ws ≫= show_word) ++ show_redirs rs
  | Block l rs => [40; 32] ++ show_line l ++ [41; 32] ++ show_redirs rs
  end.

(** ** The command a line stands for *)

Definition add_redir (c : scmd (list Z)) (r : redir) : scmd (list Z) :=
  match r with
  | Rin f => REDIR c f O_RDONLY 0
  | Rout f => REDIR c f (Z.lor O_WRONLY O_CREATE) 1
  | Rappend f => REDIR c f (Z.lor O_WRONLY O_CREATE) 1
  end.
Definition in_back (n : nat) (c : scmd (list Z)) : scmd (list Z) := Nat.iter n BACK c.

Fixpoint line_cmd (l : line) : scmd (list Z) :=
  match l with
  | Last p bg => in_back bg (pline_cmd p)
  | Then p bg l => LIST (in_back bg (pline_cmd p)) (line_cmd l)
  end
with pline_cmd (p : pline) : scmd (list Z) :=
  match p with
  | Single e => simple_cmd e
  | Into e p => PIPE (simple_cmd e) (pline_cmd p)
  end
with simple_cmd (e : simple) : scmd (list Z) :=
  match e with
  | Words ws rs => foldl add_redir (EXEC ws) rs
  | Block l rs => foldl add_redir (line_cmd l) rs
  end.

(** Words are not empty and have no blanks, operators or zeros; at most nine of them make
    a command. *)
Definition good_word (w : list Z) : Prop := w ≠ [] ∧ Forall (λ c, word_char c = true ∧ c ≠ 0) w.
Definition good_redir (r : redir) : Prop :=
  match r with Rin f => good_word f | Rout f => good_word f | Rappend f => good_word f end.

Fixpoint good_line (l : line) : Prop :=
  match l with
  | Last p _ => good_pline p
  | Then p _ l => good_pline p ∧ good_line l
  end
with good_pline (p : pline) : Prop :=
  match p with
  | Single e => good_simple e
  | Into e p => good_simple e ∧ good_pline p
  end
with good_simple (e : simple) : Prop :=
  match e with
  | Words ws rs => (length ws < MAXARGS)%nat ∧ Forall good_word ws ∧ Forall good_redir rs
  | Block l rs => good_line l ∧ Forall good_redir rs
  end.

(** The command with the texts of its words. *)
Abbreviation texts buf := (smap (text buf)).

(** ** Lexing printed text *)

Lemma res_bind_Ok {A B} (a : A) (f : A → res B) : (Ok a ≫= f) = f a.
Proof. done. Qed.

(** What the first character of [s] after the blanks is, if there is one. *)
Definition headed (P : Z → Prop) (s : list Z) : Prop :=
  match skip_white s with [] => True | c :: _ => P c end.
Definition follow (F : list Z) : list Z → Prop := headed (λ c, c ∈ F).

Definition operators : list Z := [124; 40; 41; 59; 38; 60; 62].

Lemma operator_char c : c ∈ operators → white c = false ∧ c ≠ 0.
Proof. intros H. repeat (apply elem_of_cons in H as [->|H]; [done|]). by apply not_elem_of_nil in H. Qed.

Lemma headed_impl (P Q : Z → Prop) s : headed P s → (∀ c, P c → Q c) → headed Q s.
Proof. unfold headed. destruct (skip_white s); auto. Qed.

Lemma skip_white_idem s : skip_white (skip_white s) = skip_white s.
Proof. induction s as [|c s IH]; simpl; [done|]. destruct (white c) eqn:E; [done|]. simpl. by rewrite E. Qed.

Lemma peek_skip toks s : peek toks (skip_white s) = peek toks s.
Proof. unfold peek. by rewrite skip_white_idem. Qed.

Lemma peek_no toks s : headed (λ c, c ∉ toks) s → peek toks s = (false, skip_white s).
Proof.
  unfold headed, peek. intros Hh. destruct (skip_white s) as [|c t]; [done|].
  rewrite bool_decide_eq_false_2 by done. by rewrite andb_false_r.
Qed.

Lemma peek_yes toks c s : c ∈ toks → c ∈ operators → peek toks (c :: s) = (true, c :: s).
Proof.
  intros Hc [Hw H0]%operator_char. unfold peek. simpl. rewrite Hw, bool_decide_eq_true_2 by done.
  by destruct (Z.eqb_spec c 0).
Qed.

(** One operator. *)
Lemma gettoken_op len c t : c ∈ operators →
  ∃ w, gettoken len (c :: 32 :: t) = (Tsym c, w, skip_white t).
Proof. intros H. repeat (apply elem_of_cons in H as [->|H]; [by eexists|]). by apply not_elem_of_nil in H. Qed.

Lemma gettoken_append len t : ∃ w, gettoken len (62 :: 62 :: 32 :: t) = (Tappend, w, skip_white t).
Proof. by eexists. Qed.

(** The parsing routines begin with peek. *)
Lemma parseredirs_skip len f c s : parseredirs len f c (skip_white s) = parseredirs len f c s.
Proof. destruct f; [done|]. cbn [parseredirs]. by rewrite peek_skip. Qed.

Lemma parse_back_skip len f c s : parse_back len f c (skip_white s) = parse_back len f c s.
Proof. destruct f; [done|]. cbn [parse_back]. by rewrite peek_skip. Qed.

Lemma parseexec_skip len f s : parseexec len f (skip_white s) = parseexec len f s.
Proof. destruct f; [done|]. cbn [parseexec]. by rewrite peek_skip. Qed.

Lemma parsepipe_skip len f s : parsepipe len f (skip_white s) = parsepipe len f s.
Proof. destruct f; [done|]. cbn [parsepipe]. by rewrite parseexec_skip. Qed.

Lemma parseline_skip len f s : parseline len f (skip_white s) = parseline len f s.
Proof. destruct f; [done|]. cbn [parseline]. by rewrite parsepipe_skip. Qed.

Lemma gettoken_skip len s : gettoken len (skip_white s) = gettoken len s.
Proof. unfold gettoken. by rewrite skip_white_idem. Qed.

Lemma skip_word_app w t : Forall (λ c, word_char c = true ∧ c ≠ 0) w → skip_word (w ++ 32 :: t) = 32 :: t.
Proof.
  induction w as [|c w IH]; intros H; [done|]. inversion H as [|? ? [Hc _] Hw]; subst. simpl.
  unfold word_char in Hc. rewrite Hc. by apply IH.
Qed.

Lemma good_word_head w : good_word w → ∃ c w', w = c :: w' ∧ white c = false ∧ symbol c = false ∧ c ≠ 0.
Proof.
  intros [Hne Hw]. destruct w as [|c w]; [done|]. inversion Hw as [|? ? [Hc H0] _]; subst.
  unfold word_char in Hc. apply andb_true_iff in Hc as [H1%negb_true_iff H2%negb_true_iff]. by exists c, w.
Qed.

Lemma symbol_in c : symbol c = false → c ∉ symbols.
Proof. unfold symbol. by intros ?%bool_decide_eq_false. Qed.

(** One word: its text is what was printed. *)
Lemma gettoken_word buf w t : show_word w ++ t `suffix_of` buf → good_word w →
  ∃ q, gettoken (length buf) (show_word w ++ t) = (Tword, q, skip_white t) ∧ text buf q = w.
Proof.
  intros [p Hb] Hg. unfold show_word in *. rewrite <- app_assoc in *. simpl in *.
  destruct (good_word_head w Hg) as (c & w' & -> & H1 & H2 & H0). destruct Hg as [_ Hw].
  pose proof (skip_word_app _ t Hw) as Hk. unfold gettoken.
  cbn [app] in *. cbn [skip_white]. rewrite H1.
  destruct (Z.eqb_spec c 0); [done|]. destruct (Z.eqb_spec c 62) as [->|]; [done|]. rewrite H2, Hk.
  simpl (skip_white (32 :: t)). eexists. split; [reflexivity|].
  unfold text. cbn [fst snd].
  rewrite (pos_suffix buf (c :: w' ++ 32 :: t) p Hb).
  rewrite (pos_suffix buf (32 :: t) (p ++ c :: w')) by (rewrite Hb, <- app_assoc; done).
  rewrite Hb, drop_app_length, length_app.
  replace (length p + length (c :: w') - length p)%nat with (length (c :: w')) by lia.
  change (c :: w' ++ 32 :: t) with ((c :: w') ++ 32 :: t). apply take_app_length.
Qed.

Lemma show_word_headed (P : Z → Prop) w t : good_word w →
  (∀ c, white c = false → symbol c = false → c ≠ 0 → P c) → headed P (show_word w ++ t).
Proof. intros Hg HP. destruct (good_word_head w Hg) as (c & w' & -> & H1 & H2 & H0). unfold headed. simpl. rewrite H1. by apply HP. Qed.

Lemma show_redirs_headed (P : Z → Prop) rs t : P 60 → P 62 → headed P t → headed P (show_redirs rs ++ t).
Proof. intros. destruct rs as [|[f|f|f] rs]; done. Qed.

Lemma show_words_headed (P : Z → Prop) ws t : Forall good_word ws →
  (∀ c, white c = false → symbol c = false → c ≠ 0 → P c) → headed P t → headed P ((ws ≫= show_word) ++ t).
Proof.
  intros Hw HP Ht. destruct ws as [|w ws]; [done|]. inversion Hw; subst. cbn [mbind list_bind].
  rewrite <- app_assoc. by apply show_word_headed.
Qed.

(** ** Parsing printed text *)

Lemma suffix_app_r (a b l : list Z) : a ++ b `suffix_of` l → b `suffix_of` l.
Proof. intros [p ->]. exists (p ++ a). by rewrite app_assoc. Qed.

(** The redirections of a command wrap the words it will get. *)
Definition redirected (buf : list Z) (c c' : cmd) (rs : list redir) : Prop :=
  texts buf c' = foldl add_redir (texts buf c) rs ∧
  ∀ args, texts buf (wrap_exec c' args) = foldl add_redir (texts buf (wrap_exec c args)) rs.

Section show.
Context (buf : list Z).
Notation len := (length buf).

(** One redirection. *)
Lemma parseredirs_one f c r t : show_redir r ++ t `suffix_of` buf → good_redir r →
  ∃ c', redirected buf c c' [r] ∧ parseredirs len (S f) c (show_redir r ++ t) = parseredirs len f c' t.
Proof.
  intros Hs Hg. destruct r as [w|w|w]; cbn [show_redir good_redir app] in *.
  1: destruct (gettoken_op len 60 (show_word w ++ t) ltac:(unfold operators; set_solver)) as [x Hx].
  2: destruct (gettoken_op len 62 (show_word w ++ t) ltac:(unfold operators; set_solver)) as [x Hx].
  3: destruct (gettoken_append len (show_word w ++ t)) as [x Hx].
  all: destruct (gettoken_word buf w t) as (q & Hq & <-); [first [exact (suffix_app_r [_; _] _ _ Hs)|exact (suffix_app_r [_; _; _] _ _ Hs)]|done|].
  all: cbn [parseredirs]; rewrite peek_yes by (unfold operators; set_solver); rewrite Hx, gettoken_skip, Hq, parseredirs_skip.
  all: eexists; split; [|reflexivity]; split; [done|]; intros args; done.
Qed.

Lemma parseredirs_none f c k : headed (λ c, c ∉ [60; 62]) k → parseredirs len (S f) c k = Ok (c, skip_white k).
Proof. intros. cbn [parseredirs]. by rewrite peek_no. Qed.

Lemma parseredirs_show rs fuel c k : (length rs < fuel)%nat → show_redirs rs ++ k `suffix_of` buf →
  Forall good_redir rs → headed (λ c, c ∉ [60; 62]) k →
  ∃ c', redirected buf c c' rs ∧ parseredirs len fuel c (show_redirs rs ++ k) = Ok (c', skip_white k).
Proof.
  intros Hf Hs Hg Hk. revert fuel c Hf. induction Hg as [|r rs Hr Hg IH]; intros fuel c Hf;
    (destruct fuel as [|fuel]; [simpl in Hf; lia|]).
  - exists c. split; [by split|]. by apply parseredirs_none.
  - unfold show_redirs in *. cbn [mbind list_bind] in *. rewrite <- app_assoc in *.
    destruct (parseredirs_one fuel c r _ Hs Hr) as (c1 & [H1 H2] & ->).
    destruct (IH (suffix_app_r _ _ _ Hs) fuel c1) as (c2 & [H3 H4] & ->); [simpl in Hf; lia|].
    exists c2. split; [|done]. split; [by rewrite H3, H1|]. intros args. by rewrite H4, H2.
Qed.

Lemma length_show_redirs rs : (length rs ≤ length (show_redirs rs))%nat.
Proof.
  unfold show_redirs. induction rs as [|r rs IH]; [done|]. cbn [mbind list_bind]. rewrite length_app.
  destruct r; simpl; lia.
Qed.

Lemma length_show_words ws : (length ws ≤ length (ws ≫= show_word))%nat.
Proof.
  induction ws as [|w ws IH]; [done|]. cbn [mbind list_bind]. unfold show_word at 1. rewrite !length_app.
  simpl. lia.
Qed.

(** The end of the words. *)
Definition ends_simple : list Z := [124; 41; 38; 59].
Definition ends_pline : list Z := [41; 38; 59].

Lemma redirs_fuel rs k : (length rs < S (length (skip_white (show_redirs rs ++ k))))%nat.
Proof.
  pose proof (length_show_redirs rs). replace (skip_white (show_redirs rs ++ k)) with
    (match rs with [] => skip_white k | _ => show_redirs rs ++ k end) by (by destruct rs as [|[f|f|f] rs]).
  destruct rs; [simpl; lia|]. rewrite length_app. lia.
Qed.

Lemma show_words_skip ws k : ws ≠ [] → Forall good_word ws →
  skip_white ((ws ≫= show_word) ++ k) = (ws ≫= show_word) ++ k.
Proof.
  intros Hne Hw. destruct ws as [|w ws]; [done|]. inversion Hw as [|? ? Hg _]; subst.
  cbn [mbind list_bind]. destruct (good_word_head w Hg) as (c & w' & -> & H1 & _). simpl. by rewrite H1.
Qed.

Lemma parse_words_skip f ret args s : parse_words len f ret args (skip_white s) = parse_words len f ret args s.
Proof. destruct f; [done|]. cbn [parse_words]. by rewrite peek_skip. Qed.

Lemma parse_words_end fuel ret args k : follow ends_simple k →
  parse_words len (S fuel) ret args k = Ok (wrap_exec ret args, skip_white k).
Proof.
  intros Hk. rewrite <- parse_words_skip. unfold follow, headed in Hk. cbn [parse_words].
  destruct (skip_white k) as [|c t]; [done|].
  rewrite peek_yes; [done|done|]. unfold operators. revert Hk. unfold ends_simple. set_solver.
Qed.

Lemma ends_noredir k : follow ends_simple k → headed (λ c, c ∉ [60; 62]) k.
Proof. intros H. apply (headed_impl _ _ _ H). intros c. unfold ends_simple. set_solver. Qed.

Lemma word_headed_not F w t : good_word w → F ⊆ symbols → headed (λ c, c ∉ F) (show_word w ++ t).
Proof. intros Hg HF. apply show_word_headed; [done|]. intros c _ H%symbol_in _ Hc. by apply H, HF. Qed.

Lemma parse_words_show ws rs fuel args k :
  ws ≠ [] → (length ws < fuel)%nat → (length args + length ws < MAXARGS)%nat →
  (ws ≫= show_word) ++ show_redirs rs ++ k `suffix_of` buf →
  Forall good_word ws → Forall good_redir rs → follow ends_simple k →
  ∃ c, texts buf c = foldl add_redir (EXEC ((text buf <$> args) ++ ws)) rs ∧
    parse_words len fuel (EXEC []) args ((ws ≫= show_word) ++ show_redirs rs ++ k) = Ok (c, skip_white k).
Proof.
  intros Hne Hf Hm Hs Hw Hr Hk. revert fuel args Hne Hf Hm Hs.
  induction Hw as [|w ws Hg Hw IH]; intros fuel args Hne Hf Hm Hs; [done|].
  destruct fuel as [|fuel]; [lia|]. cbn [mbind list_bind] in *. rewrite <- app_assoc in *.
  set (t := (ws ≫= show_word) ++ show_redirs rs ++ k) in *.
  cbn [parse_words]. rewrite peek_no by (apply word_headed_not; [done|unfold symbols; set_solver]).
  destruct (gettoken_word buf w t Hs Hg) as (q & Eq & Hq). rewrite gettoken_skip, Eq. simpl in Hf, Hm.
  destruct (Nat.leb_spec MAXARGS (S (length args))) as [Hl|Hl]; [lia|]. rewrite parseredirs_skip.
  destruct ws as [|w2 ws].
  - destruct (parseredirs_show rs (S (length (skip_white t))) (EXEC []) k) as (c' & [_ Hc] & E).
    + apply redirs_fuel.
    + by apply (suffix_app_r (show_word w)).
    + done.
    + by apply ends_noredir.
    + unfold t at 2. cbn [mbind list_bind app]. rewrite E, res_bind_Ok. cbn [fst snd].
      destruct fuel as [|fuel]; [simpl in Hf; lia|]. rewrite parse_words_skip, parse_words_end by done.
      eexists. split; [|done]. rewrite Hc. simpl. rewrite fmap_app. simpl. by rewrite Hq.
  - rewrite parseredirs_none.
    2: { inversion Hw; subst. unfold t. cbn [mbind list_bind]. rewrite <- app_assoc.
         apply word_headed_not; [done|unfold symbols; set_solver]. }
    rewrite res_bind_Ok. cbn [fst snd]. rewrite parse_words_skip. destruct (IH fuel (args ++ [q])) as (c & Hc & E).
    + done.
    + lia.
    + rewrite length_app. simpl in *. lia.
    + by apply (suffix_app_r (show_word w)).
    + exists c. split; [|done]. rewrite Hc, fmap_app, <- app_assoc. simpl. by rewrite Hq.
Qed.

Lemma parse_back_show n fuel c k : (n < fuel)%nat → headed (λ c, c ∉ [38]) k →
  ∃ c', texts buf c' = in_back n (texts buf c) ∧ parse_back len fuel c (show_bg n ++ k) = Ok (c', skip_white k).
Proof.
  intros Hf Hk. revert fuel c Hf. induction n as [|n IH]; intros fuel c Hf; (destruct fuel as [|fuel]; [lia|]).
  - exists c. split; [done|]. cbn [parse_back]. simpl (show_bg 0 ++ k). by rewrite peek_no.
  - destruct (gettoken_op len 38 (show_bg n ++ k)) as [x Hx]; [unfold operators; set_solver|].
    destruct (IH fuel (BACK c)) as (c' & Hc & E); [lia|]. exists c'. split.
    + rewrite Hc. unfold in_back. by rewrite Nat.iter_succ_r.
    + cbn [parse_back]. change (show_bg (S n) ++ k) with (38 :: 32 :: show_bg n ++ k).
      rewrite peek_yes by (unfold operators; set_solver). by rewrite Hx, parse_back_skip.
Qed.

(** What a parsing routine does with printed text before [k]. *)
Definition reads (m : list Z → res (cmd * list Z)) (shown k : list Z) (c : scmd (list Z)) : Prop :=
  shown ++ k `suffix_of` buf → ∃ c', texts buf c' = c ∧ m (shown ++ k) = Ok (c', skip_white k).

Lemma words_read f ws rs k : good_simple (Words ws rs) → follow ends_simple k →
  reads (parseexec len (S f)) (show_simple (Words ws rs)) k (simple_cmd (Words ws rs)).
Proof.
  intros (Hm & Hw & Hr) Hk Hs. cbn [show_simple simple_cmd] in *. rewrite <- app_assoc in *.
  cbn [parseexec]. pose proof (ends_noredir k Hk) as Hn. rewrite peek_no.
  2: { apply show_words_headed; [done| |].
       - intros c _ H%symbol_in _ Hc. apply H. revert Hc. unfold symbols. set_solver.
       - apply show_redirs_headed; [set_solver..|]. apply (headed_impl _ _ _ Hk). intros c. unfold ends_simple. set_solver. }
  rewrite parseredirs_skip. destruct ws as [|w ws].
  - cbn [mbind list_bind app] in *.
    destruct (parseredirs_show rs (S (length (skip_white (show_redirs rs ++ k)))) (EXEC []) k) as (c & [_ Hc] & E); try done.
    { apply redirs_fuel. }
    unfold execcmd. rewrite E. cbn [mbind res_bind fst snd]. rewrite parse_words_skip, parse_words_end by done.
    eexists. split; [|done]. by rewrite Hc.
  - rewrite parseredirs_none.
    + rewrite res_bind_Ok. cbn [fst snd]. rewrite parse_words_skip, show_words_skip by done.
      apply (parse_words_show (w :: ws) rs _ []); try done; simpl in *; try lia.
      rewrite length_app. pose proof (length_show_words (w :: ws)). simpl in *. lia.
    + cbn [mbind list_bind]. rewrite <- app_assoc. inversion Hw; subst.
      apply word_headed_not; [done|unfold symbols; set_solver].
Qed.

(** The token [op] and what follows it. *)
Lemma take_op toks op t : op ∈ toks → op ∈ operators →
  peek toks (op :: 32 :: t) = (true, op :: 32 :: t) ∧ ∃ w, gettoken len (op :: 32 :: t) = (Tsym op, w, skip_white t).
Proof. intros. split; [by apply peek_yes|by apply gettoken_op]. Qed.

Lemma op_skip op t : op ∈ operators → skip_white (op :: t) = op :: t.
Proof. intros [H _]%operator_char. simpl. by rewrite H. Qed.

Lemma single_reads f e k c : reads (parseexec len f) e k c → follow ends_pline k →
  reads (parsepipe len (S f)) e k c.
Proof.
  intros H Hk Hs. destruct (H Hs) as (c' & Hc & E). exists c'. split; [done|].
  cbn [parsepipe]. rewrite E, res_bind_Ok. cbn [fst snd]. rewrite peek_skip, peek_no; [done|].
  apply (headed_impl _ _ _ Hk). intros x. unfold ends_pline. set_solver.
Qed.

Lemma into_reads f e p k c d : reads (parseexec len f) e ([124; 32] ++ p ++ k) c →
  reads (parsepipe len f) p k d → reads (parsepipe len (S f)) (e ++ [124; 32] ++ p) k (PIPE c d).
Proof.
  intros H1 H2 Hs. rewrite <- !app_assoc in *. destruct (H1 Hs) as (c' & Hc & E).
  destruct (H2 (suffix_app_r [_; _] _ _ (suffix_app_r _ _ _ Hs))) as (d' & Hd & F).
  destruct (take_op [124] 124 (p ++ k)) as [P (x & X)]; [unfold operators; set_solver..|].
  exists (PIPE c' d'). split; [simpl; by rewrite Hc, Hd|].
  cbn [parsepipe]. rewrite E, res_bind_Ok. cbn [fst snd app]. rewrite peek_skip, P, X, parsepipe_skip, F. done.
Qed.

Lemma length_show_bg n : length (show_bg n) = (2 * n)%nat.
Proof. induction n as [|n IH]; [done|]. change (S (S (length (show_bg n))) = (2 * S n)%nat). lia. Qed.

Lemma bg_fuel n k : (n < S (length (skip_white (show_bg n ++ k))))%nat.
Proof.
  pose proof (length_show_bg n) as H. destruct n as [|n]; [lia|].
  replace (skip_white (show_bg (S n) ++ k)) with (show_bg (S n) ++ k) by done. rewrite length_app. lia.
Qed.

(** The pipeline and the ampersands of a line. *)
Lemma back_reads f p n k c : reads (parsepipe len f) p (show_bg n ++ k) c →
  headed (λ c, c ∉ [38]) k → p ++ show_bg n ++ k `suffix_of` buf →
  ∃ r c', texts buf c' = in_back n c ∧ parsepipe len f (p ++ show_bg n ++ k) = Ok r ∧
    parse_back len (S (length r.2)) r.1 r.2 = Ok (c', skip_white k).
Proof.
  intros H Hk Hs. destruct (H Hs) as (c1 & <- & E).
  destruct (parse_back_show n (S (length (skip_white (show_bg n ++ k)))) c1 k (bg_fuel n k) Hk) as (c' & Hc & F).
  exists (c1, skip_white (show_bg n ++ k)), c'. split_and!; [done|done|]. cbn [fst snd]. by rewrite parse_back_skip.
Qed.

Lemma last_reads f p n k c : reads (parsepipe len f) p (show_bg n ++ k) c → follow [41] k →
  reads (parseline len (S f)) (p ++ show_bg n) k (in_back n c).
Proof.
  intros H Hk Hs. rewrite <- app_assoc in *.
  assert (Hn : ∀ x, x ≠ 41 → headed (λ c, c ∉ [x]) k).
  { intros. apply (headed_impl _ _ _ Hk). set_solver. }
  destruct (back_reads f p n k c H (Hn 38 ltac:(done)) Hs) as (r & c' & Hc & E & F).
  exists c'. split; [done|]. cbn [parseline]. rewrite E, res_bind_Ok, F, res_bind_Ok. cbn [fst snd].
  rewrite peek_skip, peek_no; [done|by apply Hn].
Qed.

Lemma then_reads f p n l k c d : reads (parsepipe len f) p (show_bg n ++ [59; 32] ++ l ++ k) c →
  reads (parseline len f) l k d →
  reads (parseline len (S f)) (p ++ show_bg n ++ [59; 32] ++ l) k (LIST (in_back n c) d).
Proof.
  intros H1 H2 Hs. rewrite <- !app_assoc in *.
  destruct (back_reads f p n ([59; 32] ++ l ++ k) c H1) as (r & c' & Hc & E & F); [unfold headed; simpl; set_solver|done|].
  destruct (H2 (suffix_app_r [_; _] _ _ (suffix_app_r _ _ _ (suffix_app_r _ _ _ Hs)))) as (d' & Hd & G).
  destruct (take_op [59] 59 (l ++ k)) as [P (x & X)]; [unfold operators; set_solver..|].
  exists (LIST c' d'). split; [simpl; by rewrite Hc, Hd|].
  cbn [parseline]. rewrite E, res_bind_Ok, F, res_bind_Ok. cbn [fst snd app].
  rewrite peek_skip, P, X, parseline_skip, G. done.
Qed.

Lemma block_reads f l rs k c : reads (parseline len f) l ([41; 32] ++ show_redirs rs ++ k) c →
  Forall good_redir rs → follow ends_simple k →
  reads (parseexec len (S (S f))) ([40; 32] ++ l ++ [41; 32] ++ show_redirs rs) k (foldl add_redir c rs).
Proof.
  intros H Hr Hk Hs. rewrite <- !app_assoc in *.
  destruct (H (suffix_app_r [_; _] _ _ Hs)) as (c1 & <- & E).
  destruct (parseredirs_show rs (S (length (skip_white (show_redirs rs ++ k)))) c1 k) as (c' & [Hc _] & F).
  - apply redirs_fuel.
  - by apply (suffix_app_r [41; 32]), (suffix_app_r l), (suffix_app_r [40; 32]).
  - done.
  - by apply ends_noredir.
  - destruct (take_op [40] 40 (l ++ [41; 32] ++ show_redirs rs ++ k)) as [P (x & X)]; [unfold operators; set_solver..|].
    destruct (take_op [41] 41 (show_redirs rs ++ k)) as [Q (y & Y)]; [unfold operators; set_solver..|].
    exists c'. split; [done|]. cbn [parseexec parseblock app] in *. rewrite P, P, X. cbn [negb].
    rewrite parseline_skip, E, res_bind_Ok. cbn [fst snd]. rewrite peek_skip, Q, Y, parseredirs_skip. done.
Qed.

Lemma grammar_reads :
  (∀ l fuel k, (4 * length (show_line l ++ k) + 4 ≤ fuel)%nat → good_line l → follow [41] k →
     reads (parseline len fuel) (show_line l) k (line_cmd l)) ∧
  (∀ p fuel k, (4 * length (show_pline p ++ k) + 3 ≤ fuel)%nat → good_pline p → follow ends_pline k →
     reads (parsepipe len fuel) (show_pline p) k (pline_cmd p)) ∧
  (∀ e fuel k, (4 * length (show_simple e ++ k) + 2 ≤ fuel)%nat → good_simple e → follow ends_simple k →
     reads (parseexec len fuel) (show_simple e) k (simple_cmd e)).
Proof.
  assert (Hop : ∀ (F : list Z) op t, op ∈ F → op ∈ operators → follow F (op :: t)).
  { intros. unfold follow, headed. by rewrite op_skip. }
  apply grammar_ind;
    [intros p IHp n|intros p IHp n l IHl|intros e IHe|intros e IHe p IHp|intros ws rs|intros l IHl rs];
    intros [|fuel] k Hf Hg Hk; try lia; cbn [show_line show_pline show_simple] in *;
    rewrite ?length_app in Hf; simpl length in Hf.
  - apply last_reads; [|done]. apply IHp; [rewrite !length_app; lia|done|].
    destruct n; [|apply Hop; unfold ends_pline, operators; set_solver].
    apply (headed_impl _ _ _ Hk). unfold ends_pline. set_solver.
  - destruct Hg as [Hp Hl].
    apply then_reads; [apply IHp|apply IHl]; try done; try (rewrite !length_app; simpl; lia).
    destruct n; apply Hop; unfold ends_pline, operators; set_solver.
  - apply single_reads; [|done]. apply IHe; [rewrite !length_app; lia|done|].
    apply (headed_impl _ _ _ Hk). unfold ends_pline, ends_simple. set_solver.
  - destruct Hg as [He Hp].
    apply into_reads; [apply IHe|apply IHp]; try done; try (rewrite !length_app; simpl; lia).
    apply Hop; unfold ends_simple, operators; set_solver.
  - by apply words_read.
  - destruct fuel as [|fuel]; [lia|]. destruct Hg as [Hl Hr]. apply block_reads; [|done|done].
    apply IHl; [rewrite !length_app; simpl; lia|done|apply Hop; unfold operators; set_solver].
Qed.
End show.

(** The printed line, with blanks behind it, is parsed as it was meant. *)
Lemma parseline_show l tail : good_line l → skip_white tail = [] →
  ∃ c, parseline (length (show_line l ++ tail)) (parse_fuel (show_line l ++ tail)) (show_line l ++ tail) = Ok (c, []) ∧
    texts (show_line l ++ tail) c = line_cmd l.
Proof.
  intros Hg Ht. destruct (grammar_reads (show_line l ++ tail)) as (H & _).
  destruct (H l (parse_fuel (show_line l ++ tail)) tail (Nat.le_refl _) Hg) as (c & Hc & E).
  - unfold follow, headed. by rewrite Ht.
  - done.
  - exists c. by rewrite E, Ht.
Qed.

(** C28: the shell parses what was meant.  For every command line of the grammar (lists,
    background commands, pipelines, blocks, at most nine words to a command, redirections
    behind them), written with a blank after each token and any blanks (the newline) behind
    it, parsecmd() succeeds, and the command tree it returns is the one the line stands for,
    with the words and file names as they were written. *)
Theorem parsecmd_show l tail : good_line l → skip_white tail = [] → ∃ c buf,
  parsecmd (show_line l ++ tail) = Ok (c, buf) ∧ texts (show_line l ++ tail) c = line_cmd l.
Proof.
  intros Hg Ht. destruct (parseline_show l tail Hg Ht) as (c & E & Hc).
  exists c, (nulterminate c ((show_line l ++ tail) ++ [0])). split; [|done]. unfold parsecmd. by rewrite E.
Qed.

(** The line [( ls -l | wc ; cat < g & ) > f >> h &]. *)
Definition demo_line : line :=
  Last (Single (Block (Then (Into (Words [[108; 115]; [45; 108]] []) (Single (Words [[119; 99]] []))) 0
    (Last (Single (Words [[99; 97; 116]] [Rin [103]])) 1)) [Rout [102]; Rappend [104]])) 1.

Lemma demo_line_good : good_line demo_line.
Proof.
  unfold demo_line. simpl. unfold good_word, MAXARGS. repeat first [split | constructor | lia | done].
Qed.

Lemma parsecmd_show_witness : good_line demo_line ∧ ∃ c buf,
  parsecmd (show_line demo_line ++ [10]) = Ok (c, buf) ∧ texts (show_line demo_line ++ [10]) c = line_cmd demo_line.
Proof. split; [exact demo_line_good|exact (parsecmd_show demo_line [10] demo_line_good eq_refl)]. Defined.
