(* ===== verification/User.v ===== *)
(** * User programs

    A user program is a term of the free monad [prog] over the system calls of user.h: what
    it does next as a function of what the kernel answers.  [run] carries a program out
    against a kernel seen from outside: descriptor tables, open files with shared offsets,
    files, pipes by number, and what is typed at the console.  The contents of pipes and
    programs started by exec are not carried out: that they are started, with which
    arguments and descriptors, is an event of the run; nor is what a process does with its
    own memory.  Os.v carries all of it out. *)

From stdpp Require Import base gmap list strings.
From Stdlib Require Import ZArith Lia.
From S2P Require Import Prelude Params Printf.

(** The bytes of a string constant. *)
Definition bz (s : string) : list Z := (λ a, Z.of_nat (Ascii.nat_of_ascii a)) <$> String.list_ascii_of_string s.

(** ** System calls *)

(** What fstat() tells of struct stat. *)
Record ustat : Set := Ustat { us_type : Z; us_ino : Z; us_size : Z }.

(** The calls that return to the program, with the type of the answer; read() answers with
    the bytes, pipe() with the two descriptors, fstat() with the structure, all None for -1. *)
Inductive call : Set → Type :=
| Cwait : call Z
| Cpipe : call (option (Z * Z))
| Cwrite (fd : Z) (bytes : list Z) : call Z
| Cread (fd n : Z) : call (option (list Z))
| Cclose (fd : Z) : call Z
| Ckill (pid : Z) : call Z
| Copen (path : list Z) (mode : Z) : call Z
| Cmknod (path : list Z) (major minor : Z) : call Z
| Cunlink (path : list Z) : call Z
| Clink (old new : list Z) : call Z
| Cmkdir (path : list Z) : call Z
| Cchdir (path : list Z) : call Z
| Cdup (fd : Z) : call Z
| Cfstat (fd : Z) : call (option ustat)
| Csleep (n : Z) : call Z.

(** What a process does with its own memory, and the calls about it: getpid(), sbrk(), a
    load or a store of a byte or a word at an address, and the kernel's reading of an int
    or a string argument at an address the program chose (None when it refuses it). *)
Inductive own : Set → Type :=
| Ogetpid : own Z
| Osbrk (n : Z) : own Z
| Oload (a : Z) : own Z
| Ostore (a v : Z) : own unit
| Oloadw (a : Z) : own Z
| Ostorew (a v : Z) : own unit
| Oargint (a : Z) : own (option Z)
| Oargstr (a : Z) : own (option (list Z)).

Inductive prog (A : Type) : Type :=
| Ret (a : A)
| Exit
| Loops
| Fork (k : Z → prog A)
| Exec (path : list Z) (argv : list (list Z)) (k : Z → prog A)
| Sys {X : Set} (c : call X) (k : X → prog A)
| Own {X : Set} (c : own X) (k : X → prog A).
Arguments Ret {A} _.
Arguments Exit {A}.
Arguments Loops {A}.
Arguments Fork {A} _.
Arguments Exec {A} _ _ _.
Arguments Sys {A X} _ _.
Arguments Own {A X} _ _.

Fixpoint prog_bind' {A B} (f : A → prog B) (p : prog A) : prog B :=
  match p with
  | Ret a => f a
  | Exit => Exit
  | Loops => Loops
  | Fork k => Fork (λ x, prog_bind' f (k x))
  | Exec path argv k => Exec path argv (λ x, prog_bind' f (k x))
  | Sys c k => Sys c (λ x, prog_bind' f (k x))
  | Own c k => Own c (λ x, prog_bind' f (k x))
  end.
#[global] Instance prog_ret : MRet prog := λ A a, Ret a.
#[global] Instance prog_bind : MBind prog := λ A B f p, prog_bind' f p.

Definition sys {X : Set} (c : call X) : prog X := Sys c Ret.
Definition own_ {X : Set} (c : own X) : prog X := Own c Ret.
Definition fork : prog Z := Fork Ret.
Definition execv (path : list Z) (argv : list (list Z)) : prog Z := Exec path argv Ret.

(** printf(): the arguments are numbers and strings; putc() writes each character. *)
Definition format (fmt : list Z) (args : list (Z + list Z)) : list Z :=
  default [] (Printf.printf
    (λ p, match args !! Z.to_nat (p - 1) with Some (inr s) => s | _ => [] end) fmt
    (imap (λ i a, match a with inl z => z | inr _ => Z.of_nat i + 1 end) args)).
Fixpoint putcs (fd : Z) (text : list Z) : prog unit :=
  match text with
  | [] => mret tt
  | c :: text => _ ← sys (Cwrite fd [c]); putcs fd text
  end.
Definition printf (fd : Z) (fmt : list Z) (args : list (Z + list Z)) : prog unit := putcs fd (format fmt args).

(** gets(buf, max): [n] characters fit. *)
Fixpoint gets_loop (n : nat) (buf : list Z) : prog (list Z) :=
  match n with
  | O => mret buf
  | S n =>
    r ← sys (Cread 0 1);
    match (r : option (list Z)) with
    | Some [c] => if (c =? 10) || (c =? 13) then mret (buf ++ [c]) else gets_loop n (buf ++ [c])
    | _ => mret buf
    end
  end.
Definition gets (max : nat) : prog (list Z) := gets_loop (max - 1) [].

(** stat() of ulib.c *)
Definition stat (path : list Z) : prog (option ustat) :=
  fd ← sys (Copen path O_RDONLY);
  if fd <? 0 then mret None
  else
    r ← sys (Cfstat fd);
    _ ← sys (Cclose fd);
    mret r.

(** ** The kernel from outside *)

(** What a descriptor refers to; [id] numbers the open file, which has the offset. *)
Inductive obj : Type :=
| Tty
| File (path : list Z) (mode : Z) (inum id : nat)
| Rpipe (n : nat)
| Wpipe (n : nat).

Abbreviation table := (list (option obj)).

(** A process: its descriptors and its children that have ended. *)
Record uproc : Type := UProc { u_fd : table; u_kids : list Z }.

(** [k_luck i] is whether the i-th call that needs a resource gets it; [k_kind] has the
    types of the inodes that are not ordinary files. *)
Record kernel : Type := Kernel {
  k_dir : gmap (list Z) nat;
  k_data : gmap nat (list Z);
  k_off : gmap nat nat;
  k_next : nat;
  k_pipes : nat;
  k_pid : Z;
  k_input : list Z;
  k_prog : list Z → bool;
  k_luck : nat → bool;
  k_calls : nat;
  k_kind : gmap nat Z;
}.

Definition set_dir (d : gmap (list Z) nat) (k : kernel) : kernel :=
  Kernel d (k_data k) (k_off k) (k_next k) (k_pipes k) (k_pid k) (k_input k) (k_prog k) (k_luck k) (k_calls k) (k_kind k).
Definition set_data (d : gmap nat (list Z)) (k : kernel) : kernel :=
  Kernel (k_dir k) d (k_off k) (k_next k) (k_pipes k) (k_pid k) (k_input k) (k_prog k) (k_luck k) (k_calls k) (k_kind k).
Definition set_off (o : gmap nat nat) (k : kernel) : kernel :=
  Kernel (k_dir k) (k_data k) o (k_next k) (k_pipes k) (k_pid k) (k_input k) (k_prog k) (k_luck k) (k_calls k) (k_kind k).
Definition set_next (n : nat) (k : kernel) : kernel :=
  Kernel (k_dir k) (k_data k) (k_off k) n (k_pipes k) (k_pid k) (k_input k) (k_prog k) (k_luck k) (k_calls k) (k_kind k).
Definition set_pipes (n : nat) (k : kernel) : kernel :=
  Kernel (k_dir k) (k_data k) (k_off k) (k_next k) n (k_pid k) (k_input k) (k_prog k) (k_luck k) (k_calls k) (k_kind k).
Definition set_kpid (n : Z) (k : kernel) : kernel :=
  Kernel (k_dir k) (k_data k) (k_off k) (k_next k) (k_pipes k) n (k_input k) (k_prog k) (k_luck k) (k_calls k) (k_kind k).
Definition set_input (i : list Z) (k : kernel) : kernel :=
  Kernel (k_dir k) (k_data k) (k_off k) (k_next k) (k_pipes k) (k_pid k) i (k_prog k) (k_luck k) (k_calls k) (k_kind k).
Definition set_calls (n : nat) (k : kernel) : kernel :=
  Kernel (k_dir k) (k_data k) (k_off k) (k_next k) (k_pipes k) (k_pid k) (k_input k) (k_prog k) (k_luck k) n (k_kind k).

Definition set_kind (m : gmap nat Z) (k : kernel) : kernel :=
  Kernel (k_dir k) (k_data k) (k_off k) (k_next k) (k_pipes k) (k_pid k) (k_input k) (k_prog k) (k_luck k) (k_calls k) m.

(** Whether the call that is made now gets what it needs, and the kernel after it. *)
Definition lucky (k : kernel) : bool * kernel := (k_luck k (k_calls k), set_calls (S (k_calls k)) k).

(** What is seen of a run.  The last one is a call that changes names, with its result. *)
Inductive event : Type :=
| Started (path : list Z) (argv : list (list Z)) (fds : table)
| Waited (fds : table)
| Wrote (o : obj) (bytes : list Z)
| Named (c : call Z) (r : Z).

Definition fd_obj (t : table) (fd : Z) : option obj :=
  if fd <? 0 then None else default None (t !! Z.to_nat fd).
Fixpoint free_slot (t : table) (i : nat) : option nat :=
  match t with
  | [] => None
  | None :: _ => Some i
  | Some _ :: t => free_slot t (S i)
  end.
Definition close_fd (t : table) (fd : Z) : table :=
  match fd_obj t fd with Some _ => <[Z.to_nat fd := None]> t | None => t end.

(** Up to [n] bytes, and no more than a line, of what is typed. *)
Fixpoint typed (n : nat) (input : list Z) : list Z :=
  match n, input with
  | S n, c :: input => if c =? 10 then [c] else c :: typed n input
  | _, _ => []
  end.

Definition contents (k : kernel) (inum : nat) : list Z := default [] (k_data k !! inum).
(** The type of an inode; inode 0 is the console. *)
Definition kind (k : kernel) (inum : nat) : Z :=
  match inum with O => T_DEV | _ => default T_FILE (k_kind k !! inum) end.
Definition inode_stat (k : kernel) (inum : nat) : ustat :=
  Ustat (kind k inum) (Z.of_nat inum) (Z.of_nat (length (contents k inum))).
Definition offset (k : kernel) (id : nat) : nat := default 0%nat (k_off k !! id).

Definition readable (mode : Z) : bool := negb (has mode O_WRONLY).
Definition writable (mode : Z) : bool := has mode O_WRONLY || has mode O_RDWR.

(** ** Carrying out a call *)

Definition read_obj (o : obj) (n : nat) (k : kernel) : option (list Z) * kernel :=
  match o with
  | Tty => let b := typed n (k_input k) in (Some b, set_input (drop (length b) (k_input k)) k)
  | File _ mode inum id =>
    if readable mode then
      let b := take n (drop (offset k id) (contents k inum)) in
      (Some b, set_off (<[id := (offset k id + length b)%nat]> (k_off k)) k)
    else (None, k)
  | _ => (None, k)
  end.

Definition write_obj (o : obj) (b : list Z) (k : kernel) : Z * kernel :=
  match o with
  | Tty => (Z.of_nat (length b), k)
  | Wpipe _ => (Z.of_nat (length b), k)
  | File _ mode inum id =>
    if writable mode then
      (Z.of_nat (length b),
       set_off (<[id := (offset k id + length b)%nat]> (k_off k))
         (set_data (<[inum := splice (contents k inum) (offset k id) b]> (k_data k)) k))
    else (-1, k)
  | Rpipe _ => (-1, k)
  end.

(** open(): the name is looked up, or made when O_CREATE is given.  Inode 0 is the console. *)
Definition open_file (path : list Z) (mode : Z) (t : table) (k : kernel) : Z * table * kernel :=
  let '(ok, k) := lucky k in
  match free_slot t 0 with
  | Some fd =>
    if ok then
      match k_dir k !! path with
      | Some O => (Z.of_nat fd, <[fd := Some Tty]> t, k)
      | Some inum =>
        (Z.of_nat fd, <[fd := Some (File path mode inum (k_next k))]> t,
         set_off (<[k_next k := 0%nat]> (k_off k)) (set_next (S (k_next k)) k))
      | None =>
        if has mode O_CREATE then
          let inum := k_next k in
          (Z.of_nat fd, <[fd := Some (File path mode inum (S inum))]> t,
           set_off (<[S inum := 0%nat]> (k_off k))
             (set_data (<[inum := []]> (k_data k)) (set_dir (<[path := inum]> (k_dir k)) (set_next (S (S inum)) k))))
        else (-1, t, k)
      end
    else (-1, t, k)
  | None => (-1, t, k)
  end.

(** A call on names: whether it can be done, and the names after it. *)
Definition rename (c : call Z) (ok : bool) (d : gmap (list Z) nat) (n : nat) : Z * gmap (list Z) nat :=
  match c in call X return Z * gmap (list Z) nat with
  | Cunlink p => if ok && bool_decide (is_Some (d !! p)) then (0, delete p d) else (-1, d)
  | Clink o p =>
    match d !! o, d !! p with
    | Some i, None => if ok then (0, <[p := i]> d) else (-1, d)
    | _, _ => (-1, d)
    end
  | Cmkdir p => if ok && bool_decide (d !! p = None) then (0, <[p := n]> d) else (-1, d)
  | Cmknod p major _ =>
    if ok && bool_decide (d !! p = None) then (0, <[p := if major =? 1 then 0%nat else n]> d) else (-1, d)
  | _ => (if ok then 0 else -1, d)
  end.
(** The type of the inode [n] a call made. *)
Definition new_kind (c : call Z) (n : nat) (m : gmap nat Z) : gmap nat Z :=
  match c in call X return gmap nat Z with
  | Cmkdir _ => <[n := T_DIR]> m
  | Cmknod _ _ _ => <[n := T_DEV]> m
  | _ => m
  end.
Definition do_name (c : call Z) (k : kernel) : Z * kernel * list event :=
  let '(ok, k) := lucky k in
  let '(r, d) := rename c ok (k_dir k) (k_next k) in
  (r, set_next (S (k_next k)) (set_kind (new_kind c (k_next k) (k_kind k)) (set_dir d k)), [Named c r]).

Definition do_call {X : Set} (c : call X) : uproc → kernel → X * uproc * kernel * list event :=
  match c in call X return uproc → kernel → X * uproc * kernel * list event with
  | Cwait => λ u k,
    match u_kids u with
    | [] => (-1, u, k, [Waited (u_fd u)])
    | pid :: kids => (pid, UProc (u_fd u) kids, k, [Waited (u_fd u)])
    end
  | Cpipe => λ u k,
    let '(ok, k) := lucky k in
    match free_slot (u_fd u) 0 with
    | None => (None, u, k, [])
    | Some a =>
      let t := <[a := Some (Rpipe (k_pipes k))]> (u_fd u) in
      match free_slot t 0 with
      | None => (None, u, k, [])
      | Some b =>
        if ok then
          (Some (Z.of_nat a, Z.of_nat b), UProc (<[b := Some (Wpipe (k_pipes k))]> t) (u_kids u),
           set_pipes (S (k_pipes k)) k, [])
        else (None, u, k, [])
      end
    end
  | Cwrite fd b => λ u k,
    match fd_obj (u_fd u) fd with
    | Some o => let '(r, k') := write_obj o b k in (r, u, k', if r <? 0 then [] else [Wrote o b])
    | None => (-1, u, k, [])
    end
  | Cread fd n => λ u k,
    match fd_obj (u_fd u) fd with
    | Some o => let '(r, k') := read_obj o (Z.to_nat n) k in (r, u, k', [])
    | None => (None, u, k, [])
    end
  | Cclose fd => λ u k,
    (match fd_obj (u_fd u) fd with Some _ => 0 | None => -1 end, UProc (close_fd (u_fd u) fd) (u_kids u), k, [])
  | Copen p m => λ u k,
    let '(r, t, k') := open_file p m (u_fd u) k in (r, UProc t (u_kids u), k', [])
  | Cdup fd => λ u k,
    match fd_obj (u_fd u) fd, free_slot (u_fd u) 0 with
    | Some o, Some i => (Z.of_nat i, UProc (<[i := Some o]> (u_fd u)) (u_kids u), k, [])
    | _, _ => (-1, u, k, [])
    end
  | Cfstat fd => λ u k,
    (match fd_obj (u_fd u) fd with
     | Some (File _ _ inum _) => Some (inode_stat k inum)
     | Some Tty => Some (inode_stat k 0)
     | _ => None
     end, u, k, [])
  | Csleep _ => λ u k, (0, u, k, [])
  | c => λ u k, let '(r, k', e) := do_name (c : call Z) k in (r, u, k', e)
  end.

(** ** Carrying out a program *)

(** How a program ends: it returns to its caller (the piece of a program does), the process
    ends or is replaced, or a loop of the model ran out of rounds. *)
Inductive final (A : Type) : Type :=
| Returns (a : A) (u : uproc)
| Ends
| Out.
Arguments Returns {A} _ _.
Arguments Ends {A}.
Arguments Out {A}.

(** At fork() the child is carried out before the parent goes on.  The two have nothing in
    common but files and the console, so for what is seen of descriptors the order does
    not matter. *)
Fixpoint run {A} (p : prog A) (u : uproc) (k : kernel) : list event * kernel * final A :=
  match p with
  | Ret a => ([], k, Returns a u)
  | Exit => ([], k, Ends)
  | Loops => ([], k, Out)
  | Fork f =>
    let '(ok, k) := lucky k in
    if ok then
      let pid := k_pid k in
      let '(e1, k1, r1) := run (f 0) (UProc (u_fd u) []) (set_kpid (pid + 1) k) in
      match r1 with
      | Out => (e1, k1, Out)
      | _ => let '(e2, k2, r2) := run (f pid) (UProc (u_fd u) (u_kids u ++ [pid])) k1 in (e1 ++ e2, k2, r2)
      end
    else run (f (-1)) u k
  | Exec path argv f =>
    let '(ok, k) := lucky k in
    if ok && k_prog k path then ([Started path argv (u_fd u)], k, Ends) else run (f (-1)) u k
  | Sys c f =>
    let '(x, u', k', e) := do_call c u k in
    let '(e2, k2, r) := run (f x) u' k' in (e ++ e2, k2, r)
  | Own _ _ => ([], k, Out)
  end.

(** The programs that were started. *)
Definition starts (es : list event) : list (list Z * list (list Z) * table) :=
  es ≫= λ e, match e with Started p a t => [(p, a, t)] | _ => [] end.

(** What was written to the descriptor object [o]. *)
Definition written (o : obj → bool) (es : list event) : list Z :=
  es ≫= λ e, match e with Wrote o' b => if o o' then b else [] | _ => [] end.

(** ** Laws *)

Lemma run_sys {A} {X : Set} (c : call X) (f : X → prog A) u k :
  run (Sys c f) u k = let '(x, u', k', e) := do_call c u k in let '(e2, k2, r) := run (f x) u' k' in (e ++ e2, k2, r).
Proof. done. Qed.

Lemma bind_sys {A} {X : Set} (c : call X) (f : X → prog A) : (sys c ≫= f) = Sys c f.
Proof. done. Qed.

Lemma run_assoc {A B C} (p : prog A) (f : A → prog B) (g : B → prog C) u k :
  run ((p ≫= f) ≫= g) u k = run (p ≫= λ x, f x ≫= g) u k.
Proof.
  revert u k. induction p as [a| | |h IH|path argv h IH|X c h IH|X c h IH]; intros u k; try done; cbn [mbind prog_bind prog_bind' run].
  - destruct (lucky k) as [[] k1]; [|apply IH]. unfold mbind, prog_bind in IH. rewrite IH.
    destruct (run _ _ _) as [[e1 k2] []]; rewrite ?IH; done.
  - destruct (lucky k) as [ok k1]. destruct (ok && k_prog k1 path); [done|apply IH].
  - destruct (do_call c u k) as [[[x u'] k'] e]. unfold mbind, prog_bind in IH. by rewrite IH.
Qed.

Lemma run_ret {A} (p : prog A) u k : run (p ≫= Ret) u k = run p u k.
Proof.
  revert u k. induction p as [a| | |h IH|path argv h IH|X c h IH|X c h IH]; intros u k; try done; cbn [mbind prog_bind prog_bind' run].
  - destruct (lucky k) as [[] k1]; [|apply IH]. unfold mbind, prog_bind in IH. rewrite IH.
    destruct (run _ _ _) as [[e1 k2] []]; rewrite ?IH; done.
  - destruct (lucky k) as [ok k1]. destruct (ok && k_prog k1 path); [done|apply IH].
  - destruct (do_call c u k) as [[[x u'] k'] e]. unfold mbind, prog_bind in IH. by rewrite IH.
Qed.
