(* ===== verification/ShRun.v ===== *)
(** * sh.c: running commands

    runcmd() and main() of the shell as user programs; what a command tree means, as the
    programs it starts with their arguments and descriptors; and the proof that the shell
    starts what was typed, on every kernel that answers as [kernel] of User.v. *)

From stdpp Require Import base gmap list sets strings.
From Stdlib Require Import ZArith Lia.
From S2P Require Import Prelude Params Sh ShSpec ShPrint User.

(** ** The shell *)

Definition panic {A} (msg : string) : prog A := _ ← printf 2 (bz "%s" ++ [10]) [inr (bz msg)]; Exit.

Definition fork1 : prog Z := pid ← fork; if pid =? -1 then panic "fork" else mret pid.

Section runcmd.
Context {W : Type} (str : W → list Z).

Definition run_exec {A} (argv : list W) : prog A :=
  match argv with
  | [] => Exit
  | a :: _ =>
    _ ← execv (str a) (str <$> argv);
    _ ← printf 2 (bz "exec %s failed" ++ [10]) [inr (str a)];
    Exit
  end.

(** runcmd() does not return. *)
Fixpoint runcmd {A} (c : scmd W) : prog A :=
  match c with
  | EXEC argv => run_exec argv
  | REDIR c file mode fd =>
    _ ← sys (Cclose fd);
    r ← sys (Copen (str file) mode);
    if r <? 0 then _ ← printf 2 (bz "open %s failed" ++ [10]) [inr (str file)]; Exit
    else runcmd c
  | LIST l r =>
    pid ← fork1;
    if pid =? 0 then runcmd l
    else _ ← sys Cwait; runcmd r
  | PIPE l r =>
    p ← sys Cpipe;
    match (p : option (Z * Z)) with
    | None => panic "pipe"
    | Some (p0, p1) =>
      pid ← fork1;
      if pid =? 0 then
        _ ← sys (Cclose 1); _ ← sys (Cdup p1); _ ← sys (Cclose p0); _ ← sys (Cclose p1); runcmd l
      else
        pid ← fork1;
        if pid =? 0 then
          _ ← sys (Cclose 0); _ ← sys (Cdup p0); _ ← sys (Cclose p0); _ ← sys (Cclose p1); runcmd r
        else
          _ ← sys (Cclose p0); _ ← sys (Cclose p1); _ ← sys Cwait; _ ← sys Cwait; Exit
    end
  | BACK c =>
    pid ← fork1;
    if pid =? 0 then runcmd c else Exit
  end.
End runcmd.

(** The child of main(): runcmd(parsecmd(buf)). *)
Definition run_line {A} (buf : list Z) : prog A :=
  match parsecmd (upto_zero buf) with
  | Ok (c, b) => runcmd (string_at b) c
  | Bad rest msg =>
    _ ← (if decide (rest = []) then mret tt else printf 2 (bz "leftovers: %s" ++ [10]) [inr rest]);
    panic msg
  | Nofuel => Loops
  end.

(** The rest of the buffer is zero, as memset() left it. *)
Definition getcmd (nbuf : nat) : prog (option (list Z)) :=
  _ ← printf 2 (bz "$ ") [];
  buf ← gets nbuf;
  mret (if buf.[0] =? 0 then None else Some buf).

(** At most four rounds: the descriptors below three are open then. *)
Fixpoint open_consoles (n : nat) : prog unit :=
  match n with
  | O => Loops
  | S n =>
    fd ← sys (Copen (bz "console") O_RDWR);
    if fd <? 0 then mret tt
    else if 3 <=? fd then _ ← sys (Cclose fd); mret tt
    else open_consoles n
  end.

Definition is_cd (buf : list Z) : bool := (buf.[0] =? 99) && (buf.[1] =? 100) && (buf.[2] =? 32).

Definition change_dir (buf : list Z) : prog unit :=
  let s := upto_zero buf in
  let path := drop 3 (take (length s - 1) s) in
  r ← sys (Cchdir path);
  if r <? 0 then printf 2 (bz "cannot cd %s" ++ [10]) [inr path] else mret tt.

Fixpoint main_loop {A} (fuel : nat) : prog A :=
  match fuel with
  | O => Loops
  | S f =>
    r ← getcmd 100;
    match (r : option (list Z)) with
    | None => Exit
    | Some buf =>
      if is_cd buf then _ ← change_dir buf; main_loop f
      else
        pid ← fork1;
        if pid =? 0 then run_line buf
        else _ ← sys Cwait; main_loop f
    end
  end.

Definition sh_main {A} (fuel : nat) : prog A := _ ← open_consoles 4; main_loop fuel.

(** ** What a command means *)

(** A descriptor as a user thinks of it. *)
Inductive label : Type :=
| Ltty
| Lfile (path : list Z) (mode : Z)
| Lread (pipe : nat)
| Lwrite (pipe : nat).
Definition label_of (o : obj) : label :=
  match o with
  | Tty => Ltty
  | File p m _ _ => Lfile p m
  | Rpipe n => Lread n
  | Wpipe n => Lwrite n
  end.

(** Standard input, output and error, and no other descriptor. *)
Record stdio : Type := Stdio { s_in : label; s_out : label; s_err : label }.
Definition only_std (io : stdio) (t : table) : Prop :=
  ∃ a b c, t = [Some a; Some b; Some c] ++ replicate (NOFILE - 3) None ∧
    io = Stdio (label_of a) (label_of b) (label_of c).
Definition redirect (io : stdio) (fd : Z) (l : label) : stdio :=
  if fd =? 0 then Stdio l (s_out io) (s_err io) else Stdio (s_in io) l (s_err io).

(** The names there are, and whether a name is the console. *)
Definition names : Type := gmap (list Z) bool.
Definition names_of (k : kernel) : names := (λ i : nat, bool_decide (i = 0%nat)) <$> k_dir k.

Definition plan_open (D : names) (file : list Z) (mode : Z) : option (label * names) :=
  match D !! file with
  | Some true => Some (Ltty, D)
  | Some false => Some (Lfile file mode, D)
  | None => if has mode O_CREATE then Some (Lfile file mode, <[file := false]> D) else None
  end.

(** The programs a command starts, each with its arguments and its standard descriptors;
    the names and the number of pipes afterwards. *)
Definition job : Type := (list (list Z) * stdio)%type.
Fixpoint plan (progs : list Z → bool) (c : scmd (list Z)) (io : stdio) (D : names) (n : nat) : list job * names * nat :=
  match c with
  | EXEC argv =>
    match argv with
    | [] => ([], D, n)
    | a :: _ => (if progs a then [(argv, io)] else [], D, n)
    end
  | REDIR c file mode fd =>
    match plan_open D file mode with
    | Some (l, D) => plan progs c (redirect io fd l) D n
    | None => ([], D, n)
    end
  | LIST l r =>
    let '(j1, D, n) := plan progs l io D n in
    let '(j2, D, n) := plan progs r io D n in (j1 ++ j2, D, n)
  | PIPE l r =>
    let '(j1, D, n1) := plan progs l (redirect io 1 (Lwrite n)) D (S n) in
    let '(j2, D, n2) := plan progs r (redirect io 0 (Lread n)) D n1 in (j1 ++ j2, D, n2)
  | BACK c => plan progs c io D n
  end.

(** * The shell starts what was typed *)

(** ** Kernels *)

(** Nothing runs out: every call gets the resources it needs. *)
Definition fair (k : kernel) : Prop := (∀ i, k_luck k i = true) ∧ (0 < k_next k)%nat ∧ 0 < k_pid k.

(** What a command does not change. *)
Definition steady (k k' : kernel) : Prop :=
  k_luck k' = k_luck k ∧ k_prog k' = k_prog k ∧ k_input k' = k_input k ∧
  (k_next k ≤ k_next k')%nat ∧ k_pid k ≤ k_pid k'.

Lemma steady_refl k : steady k k.
Proof. unfold steady. split_and!; auto; lia. Qed.

Lemma steady_trans k1 k2 k3 : steady k1 k2 → steady k2 k3 → steady k1 k3.
Proof. unfold steady. intros (? & ? & ? & ? & ?) (? & ? & ? & ? & ?). split_and!; try congruence; lia. Qed.

Lemma steady_fair k k' : steady k k' → fair k → fair k'.
Proof. unfold steady, fair. intros (-> & _ & _ & ? & ?) (? & ? & ?). split_and!; [done|lia|lia]. Qed.

#[export] Hint Resolve steady_refl steady_fair : shell.

(** ** Events *)

(** Waiting with no other descriptors than the standard ones. *)
Definition waits_clean (e : event) : Prop :=
  match e with Waited t => ∃ io, only_std io t | _ => True end.
Definition is_job (s : list Z * list (list Z) * table) (j : job) : Prop :=
  let '(path, argv, t) := s in head argv = Some path ∧ argv = fst j ∧ only_std (snd j) t.
(** The events of a run that starts the jobs [js]. *)
Definition does (js : list job) (es : list event) : Prop :=
  Forall2 is_job (starts es) js ∧ Forall waits_clean es.

Lemma does_nil : does [] [].
Proof. split; constructor. Qed.

Lemma does_app j1 j2 e1 e2 : does j1 e1 → does j2 e2 → does (j1 ++ j2) (e1 ++ e2).
Proof.
  intros [H1 W1] [H2 W2]. split; [|by apply Forall_app]. unfold starts. rewrite bind_app. by apply Forall2_app.
Qed.

Lemma does_wait t io es js : only_std io t → does js es → does js (Waited t :: es).
Proof. intros Ht [H W]. split; [done|]. constructor; [by exists io|done]. Qed.

#[export] Hint Resolve does_nil : shell.

(** ** Steps of a run *)

(** [p] from [u] and [k] starts [js] and ends the process, in a kernel with [Q]. *)
Definition ends {A} (p : prog A) (u : uproc) (k : kernel) (js : list job) (Q : kernel → Prop) : Prop :=
  ∃ es k', run p u k = (es, k', Ends) ∧ does js es ∧ Q k'.

Lemma ends_impl {A} (p : prog A) u k js (Q R : kernel → Prop) :
  ends p u k js Q → (∀ k', Q k' → R k') → ends p u k js R.
Proof. intros (es & k' & Hr & Hd & HQ) H. exists es, k'. auto. Qed.

Lemma ends_assoc {A B C} (p : prog A) (f : A → prog B) (g : B → prog C) u k js Q :
  ends (p ≫= λ x, f x ≫= g) u k js Q → ends ((p ≫= f) ≫= g) u k js Q.
Proof. unfold ends. by rewrite run_assoc. Qed.

Lemma ends_exit {A} u k (Q : kernel → Prop) : Q k → ends (A:=A) Exit u k [] Q.
Proof. intros. exists [], k. auto with shell. Qed.

(** A call that is not seen. *)
Lemma ends_sys {A} {X : Set} (c : call X) (f : X → prog A) u k x u' k' js Q :
  do_call c u k = (x, u', k', []) → ends (f x) u' k' js Q → ends (sys c ≫= f) u k js Q.
Proof. intros Hc (es & k2 & Hr & Hd & HQ). exists es, k2. rewrite bind_sys, run_sys, Hc, Hr. done. Qed.

Lemma ends_wait {A} (f : Z → prog A) u k io js Q :
  only_std io (u_fd u) → (∀ r kids, ends (f r) (UProc (u_fd u) kids) k js Q) → ends (sys Cwait ≫= f) u k js Q.
Proof.
  intros Ht Hf. unfold ends. rewrite bind_sys. cbn [run do_call]. destruct u as [t kids]. cbn [u_fd u_kids] in *.
  destruct kids as [|pid kids].
  - destruct (Hf (-1) []) as (es & k2 & Hr & Hd & HQ). rewrite Hr. exists (Waited t :: es), k2.
    split_and!; [done|by eapply does_wait|done].
  - destruct (Hf pid kids) as (es & k2 & Hr & Hd & HQ). rewrite Hr. exists (Waited t :: es), k2.
    split_and!; [done|by eapply does_wait|done].
Qed.

(** Writing changes the data of files at most. *)
Definition same_names (k k' : kernel) : Prop := steady k k' ∧ names_of k' = names_of k ∧ k_pipes k' = k_pipes k.

Lemma write_obj_same o b k : same_names k (snd (write_obj o b k)).
Proof.
  unfold same_names, write_obj. destruct o as [|p m i id| |]; auto using steady_refl.
  destruct (writable m); (split; [|done]); [|apply steady_refl]. unfold steady. simpl. split_and!; auto; lia.
Qed.

Lemma ends_putcs {A} fd text (f : unit → prog A) u k js Q :
  (∀ k', same_names k k' → ends (f tt) u k' js Q) → ends (putcs fd text ≫= f) u k js Q.
Proof.
  revert k. induction text as [|c text IH]; intros k Hf; [apply Hf; split; auto with shell|].
  assert (H : ends (sys (Cwrite fd [c]) ≫= λ _, putcs fd text ≫= f) u k js Q); [|exact H].
  destruct (do_call (Cwrite fd [c]) u k) as [[[x u'] k'] e] eqn:E.
  assert (Hk : u' = u ∧ does [] e ∧ same_names k k').
  { cbn [do_call] in E. destruct (fd_obj (u_fd u) fd) as [o|].
    - pose proof (write_obj_same o [c] k) as Hw. destruct (write_obj o [c] k) as [r k1].
      injection E as <- <- <- <-. split; [done|split; [|exact Hw]]. split; [by destruct (r <? 0)|].
      destruct (r <? 0); repeat constructor.
    - injection E as <- <- <- <-. split; [done|split; [auto with shell|split; auto with shell]]. }
  destruct Hk as (-> & He & Hs & Hn & Hp). destruct (IH k') as (es & k2 & Hr & Hd & HQ).
  { intros k2 (H2 & Hn2 & Hp2). apply Hf. split; [by eapply steady_trans|split; congruence]. }
  exists (e ++ es), k2. rewrite bind_sys, run_sys, E, Hr. split_and!; [done|by apply (does_app [])|done].
Qed.

(** What fork() does to the kernel. *)
Definition forked (k : kernel) : kernel := set_kpid (k_pid k + 1) (set_calls (S (k_calls k)) k).

Lemma forked_steady k : steady k (forked k).
Proof. unfold steady, forked. simpl. split_and!; auto; lia. Qed.

(** fork1(): the child, which ends, then the parent. *)
Lemma ends_fork {A} (f : Z → prog A) u k js1 Q1 js2 Q : fair k →
  ends (f 0) (UProc (u_fd u) []) (forked k) js1 Q1 →
  (∀ pid kids k', 0 < pid → Q1 k' → ends (f pid) (UProc (u_fd u) kids) k' js2 Q) →
  ends (fork1 ≫= f) u k (js1 ++ js2) Q.
Proof.
  intros (Hl & Hn & Hp) (e1 & k1 & Hr1 & Hd1 & HQ1) Hf.
  destruct (Hf (k_pid k) (u_kids u ++ [k_pid k]) k1 Hp HQ1) as (e2 & k2 & Hr2 & Hd2 & HQ2).
  exists (e1 ++ e2), k2. split_and!; [|by apply does_app|done].
  unfold fork1, fork, mbind, prog_bind. cbn [prog_bind' run]. unfold lucky. rewrite Hl. cbn [k_pid set_calls].
  fold (forked k). change (0 =? -1) with false. cbn [prog_bind']. destruct (Z.eqb_spec (k_pid k) (-1)); [lia|].
  cbn [prog_bind' mret prog_ret]. by rewrite Hr1, Hr2.
Qed.

(** A command: the names and the number of pipes it leaves. *)
Definition arrives (k : kernel) (D : names) (n : nat) (k' : kernel) : Prop :=
  names_of k' = D ∧ k_pipes k' = n ∧ steady k k'.

Lemma arrives_from k1 k2 D n k' : steady k1 k2 → arrives k2 D n k' → arrives k1 D n k'.
Proof. intros Hs (? & ? & ?). split_and!; [done|done|by eapply steady_trans]. Qed.

Lemma ends_from {A} (p : prog A) u k k1 k2 js D n : steady k1 k2 →
  ends p u k js (arrives k2 D n) → ends p u k js (arrives k1 D n).
Proof. intros Hs H. eapply ends_impl; [exact H|]. intros k'. by apply arrives_from. Qed.

Lemma arrives_same k k' : same_names k k' → arrives k (names_of k) (k_pipes k) k'.
Proof. intros (? & ? & ?). by split_and!. Qed.

(** ** Redirection *)

Lemma names_lookup k p : names_of k !! p = (λ i : nat, bool_decide (i = 0%nat)) <$> k_dir k !! p.
Proof. apply lookup_fmap. Qed.

(** close(fd) and open(): the file gets the descriptor that was closed. *)
Lemma redirect_open t kids k io fd file mode : fair k → only_std io t → fd = 0 ∨ fd = 1 →
  match plan_open (names_of k) file mode with
  | Some (l, D) => ∃ t' k', do_call (Copen file mode) (UProc (close_fd t fd) kids) k = (fd, UProc t' kids, k', []) ∧
      only_std (redirect io fd l) t' ∧ names_of k' = D ∧ k_pipes k' = k_pipes k ∧ steady k k'
  | None => ∃ t' k', do_call (Copen file mode) (UProc (close_fd t fd) kids) k = (-1, UProc t' kids, k', []) ∧
      names_of k' = names_of k ∧ k_pipes k' = k_pipes k ∧ steady k k'
  end.
Proof.
  intros (Hl & Hn & _) (a & b & c & -> & ->) Hfd. unfold plan_open. rewrite names_lookup.
  assert (Hf : ∀ o, free_slot (close_fd ([Some a; Some b; Some c] ++ replicate (NOFILE - 3) None) fd) 0 = Some (Z.to_nat fd) ∧
    only_std (redirect (Stdio (label_of a) (label_of b) (label_of c)) fd (label_of o))
      (<[Z.to_nat fd := Some o]> (close_fd ([Some a; Some b; Some c] ++ replicate (NOFILE - 3) None) fd))).
  { intros o. destruct Hfd as [-> | ->]; (split; [done|]); [by exists o, b, c|by exists a, o, c]. }
  destruct (Hf Tty) as [Hs Ht]. cbn [do_call u_fd u_kids]. unfold open_file, lucky. rewrite Hl, Hs. cbn [k_dir set_calls].
  assert (E : Z.of_nat (Z.to_nat fd) = fd) by (destruct Hfd as [-> | ->]; done).
  destruct (k_dir k !! file) as [[|i]|] eqn:Ed; cbn [fmap option_fmap option_map].
  - rewrite bool_decide_eq_true_2, E by done. do 2 eexists. split; [reflexivity|]. by split_and!.
  - rewrite bool_decide_eq_false_2, E by done. do 2 eexists. split; [reflexivity|].
    split_and!; [by apply (Hf (File file mode (S i) _))|done|done|]. unfold steady. simpl. split_and!; auto; lia.
  - destruct (has mode O_CREATE).
    + rewrite E. do 2 eexists. split; [reflexivity|].
      split_and!; [by apply (Hf (File file mode (k_next k) _))| |done|unfold steady; simpl; split_and!; auto; lia].
      unfold names_of. simpl. rewrite fmap_insert, bool_decide_eq_false_2 by lia. done.
    + do 2 eexists. split; [reflexivity|]. by split_and!.
Qed.

(** ** Commands *)

(** The parser makes redirections of the descriptors 0 and 1 only. *)
Fixpoint redirs_std {W} (c : scmd W) : Prop :=
  match c with
  | EXEC _ => True
  | REDIR c _ _ fd => (fd = 0 ∨ fd = 1) ∧ redirs_std c
  | PIPE l r => redirs_std l ∧ redirs_std r
  | LIST l r => redirs_std l ∧ redirs_std r
  | BACK c => redirs_std c
  end.

(** The child of a pipeline that gets [which] end as its descriptor [fd]. *)
Lemma pipe_child {A} (p : prog A) fd a b c n kids k js Q :
  (fd = 0 ∨ fd = 1) → let o := if fd =? 0 then Rpipe n else Wpipe n in
  (∀ t, only_std (redirect (Stdio (label_of a) (label_of b) (label_of c)) fd (label_of o)) t →
     ends p (UProc t kids) k js Q) →
  ends (_ ← sys (Cclose fd); _ ← sys (Cdup (if fd =? 0 then 3 else 4)); _ ← sys (Cclose 3); _ ← sys (Cclose 4); p)
    (UProc ([Some a; Some b; Some c; Some (Rpipe n); Some (Wpipe n)] ++ replicate (NOFILE - 5) None) kids) k js Q.
Proof.
  intros Hfd o Hp. destruct Hfd as [-> | ->].
  - do 4 (eapply ends_sys; [reflexivity|]). apply Hp. by exists o, b, c.
  - do 4 (eapply ends_sys; [reflexivity|]). apply Hp. by exists a, o, c.
Qed.

Section commands.
Context {W : Type} (str : W → list Z) {A : Type}.

(** What is proved of each command. *)
Definition as_planned (c : scmd W) : Prop := ∀ u k io, fair k → only_std io (u_fd u) →
  let '(js, D, n) := plan (k_prog k) (smap str c) io (names_of k) (k_pipes k) in
  ends (A:=A) (runcmd str c) u k js (arrives k D n).

Lemma exec_planned argv : as_planned (EXEC argv).
Proof.
  intros u k io (Hl & Hn & Hp) Ht. cbn [smap plan runcmd].
  destruct argv as [|a argv]; [apply ends_exit, arrives_same; split; auto with shell|].
  cbn [fmap list_fmap]. set (k1 := set_calls (S (k_calls k)) k).
  assert (Hs : same_names k k1) by (split; [unfold steady; simpl; split_and!; auto; lia|done]).
  destruct (k_prog k (str a)) eqn:E.
  - exists [Started (str a) (str <$> (a :: argv)) (u_fd u)], k1. split; [|split; [|by apply arrives_same]].
    + unfold run_exec, execv. cbn [mbind prog_bind prog_bind' run]. unfold lucky. rewrite Hl. cbn [k_prog set_calls andb].
      by rewrite E.
    + split; [|repeat constructor]. constructor; [|constructor]. done.
  - assert (H : ends (A:=A) (_ ← printf 2 (bz "exec %s failed" ++ [10]) [inr (str a)]; Exit) u k1 []
      (arrives k (names_of k) (k_pipes k))).
    { apply ends_putcs. intros k' Hs'. apply ends_exit, (arrives_from k k1); [apply Hs|].
      by apply (arrives_same k1). }
    destruct H as (es & k' & Hr & Hd & HQ). exists es, k'. split; [|done].
    unfold run_exec, execv. cbn [mbind prog_bind prog_bind' run]. unfold lucky. rewrite Hl. cbn [k_prog set_calls andb].
    rewrite E. exact Hr.
Qed.

Lemma redir_planned c file mode fd : fd = 0 ∨ fd = 1 → as_planned c → as_planned (REDIR c file mode fd).
Proof.
  intros Hfd Hc u k io Hk Ht. cbn [smap plan runcmd].
  pose proof (redirect_open (u_fd u) (u_kids u) k io fd (str file) mode Hk Ht Hfd) as Ho.
  destruct (plan_open (names_of k) (str file) mode) as [[l D]|].
  - destruct Ho as (t' & k' & E & Ht' & HD & Hp & Hs).
    specialize (Hc (UProc t' (u_kids u)) k' (redirect io fd l) (steady_fair _ _ Hs Hk) Ht').
    pose proof Hs as (_ & Hg & _). rewrite Hg, HD, Hp in Hc.
    destruct (plan _ _ _ _ _) as [[js D'] n']. eapply ends_sys; [reflexivity|].
    eapply ends_sys; [exact E|]. destruct (Z.ltb_spec fd 0); [lia|]. by eapply ends_from.
  - destruct Ho as (t' & k' & E & HD & Hp & Hs). eapply ends_sys; [reflexivity|].
    eapply ends_sys; [exact E|]. apply ends_putcs. intros k2 Hk2.
    apply ends_exit, (arrives_from _ _ _ _ _ Hs). rewrite <- HD, <- Hp. by apply arrives_same.
Qed.

(** A command in a child process. *)
Lemma child_planned c u k io : as_planned c → fair k → only_std io (u_fd u) →
  let '(js, D, n) := plan (k_prog k) (smap str c) io (names_of k) (k_pipes k) in
  ends (A:=A) (runcmd str c) (UProc (u_fd u) []) (forked k) js (arrives k D n).
Proof.
  intros Hc Hk Ht. pose proof (forked_steady k) as Hs.
  specialize (Hc (UProc (u_fd u) []) (forked k) io (steady_fair _ _ Hs Hk) Ht).
  change (k_prog (forked k)) with (k_prog k) in Hc. change (names_of (forked k)) with (names_of k) in Hc.
  change (k_pipes (forked k)) with (k_pipes k) in Hc. destruct (plan _ _ _ _ _) as [[js D] n]. by eapply ends_from.
Qed.

Lemma list_planned l r : as_planned l → as_planned r → as_planned (LIST l r).
Proof.
  intros Hl Hr u k io Hk Ht. cbn [smap plan runcmd]. pose proof (child_planned l u k io Hl Hk Ht) as Hl'.
  destruct (plan _ (smap str l) _ _ _) as [[j1 D1] n1].
  destruct (plan _ (smap str r) _ _ _) as [[j2 D2] n2] eqn:E2.
  eapply ends_fork; [done|exact Hl'|]. intros pid kids k' Hpid (HD & Hn & Hs).
  destruct (Z.eqb_spec pid 0); [lia|]. eapply ends_wait; [exact Ht|]. intros _ kids'.
  specialize (Hr (UProc (u_fd u) kids') k' io (steady_fair _ _ Hs Hk) Ht).
  pose proof Hs as (_ & Hg & _). rewrite Hg, HD, Hn, E2 in Hr. by eapply ends_from.
Qed.

Lemma back_planned c : as_planned c → as_planned (BACK c).
Proof.
  intros Hc u k io Hk Ht. cbn [smap plan runcmd]. pose proof (child_planned c u k io Hc Hk Ht) as Hc'.
  destruct (plan _ _ _ _ _) as [[js D] n]. rewrite <- (app_nil_r js).
  eapply ends_fork; [done|exact Hc'|]. intros pid kids k' Hpid HQ.
  destruct (Z.eqb_spec pid 0); [lia|]. by apply ends_exit.
Qed.

Lemma pipe_planned l r : as_planned l → as_planned r → as_planned (PIPE l r).
Proof.
  intros Hl Hr [t kids0] k io Hk (a & b & c & Et & ->). cbn [u_fd] in Et. subst t. cbn [smap plan runcmd].
  set (io := Stdio _ _ _). set (n := k_pipes k).
  set (k1 := set_pipes (S n) (set_calls (S (k_calls k)) k)).
  assert (Hs1 : steady k k1) by (unfold steady; simpl; split_and!; auto; lia).
  destruct (plan _ (smap str l) _ _ _) as [[j1 D1] n1] eqn:E1.
  destruct (plan _ (smap str r) _ _ _) as [[j2 D2] n2] eqn:E2.
  eapply (ends_sys _ _ _ _ _ _ k1); [cbn [do_call]; unfold lucky; rewrite (proj1 Hk); reflexivity|].
  pose proof (steady_fair _ _ Hs1 Hk) as Hk1. cbn beta iota.
  eapply (ends_fork _ _ k1 j1 (arrives k1 D1 n1)); [done| |].
  - apply (pipe_child _ 1 a b c n); [by right|]. intros t Ht.
    pose proof (child_planned l (UProc t []) k1 _ Hl Hk1 Ht) as Hl'.
    change (k_prog k1) with (k_prog k) in Hl'. change (names_of k1) with (names_of k) in Hl'.
    change (k_pipes k1) with (S n) in Hl'. cbn [Z.eqb Pos.eqb label_of] in Hl'. fold io in Hl'. by rewrite E1 in Hl'.
  - intros pid kids k2 Hpid (HD & Hn & Hs2). destruct (Z.eqb_spec pid 0); [lia|].
    pose proof (steady_fair _ _ Hs2 Hk1) as Hk2. rewrite <- (app_nil_r j2).
    eapply (ends_fork _ _ k2 j2 (arrives k2 D2 n2)); [done| |].
    + apply (pipe_child _ 0 a b c n); [by left|]. intros t Ht.
      pose proof (child_planned r (UProc t []) k2 _ Hr Hk2 Ht) as Hr'. pose proof Hs2 as (_ & Hg & _).
      change (k_prog k1) with (k_prog k) in Hg. rewrite Hg, HD, Hn in Hr'. cbn [Z.eqb label_of] in Hr'. fold io in Hr'.
      by rewrite E2 in Hr'.
    + intros pid2 kids2 k3 Hpid2 HQ. destruct (Z.eqb_spec pid2 0); [lia|].
      do 2 (eapply ends_sys; [reflexivity|]).
      eapply ends_wait; [by exists a, b, c|]. intros _ kids3.
      eapply ends_wait; [by exists a, b, c|]. intros _ kids4.
      apply ends_exit, (arrives_from _ _ _ _ _ Hs1), (arrives_from _ _ _ _ _ Hs2), HQ.
Qed.

Lemma runcmd_planned c : redirs_std c → as_planned c.
Proof.
  induction c as [argv|c IH f m fd|l IHl r IHr|l IHl r IHr|c IH]; simpl; intros H; try destruct H;
    auto using exec_planned, redir_planned, list_planned, pipe_planned, back_planned.
Qed.
End commands.

(** ** A typed line *)

(** The characters of a printed line are those of words, operators and blanks. *)
Lemma show_chars (P : Z → Prop) : (∀ c, word_char c = true → c ≠ 0 → P c) → P 32 → (∀ c, c ∈ operators → P c) →
  (∀ l, good_line l → Forall P (show_line l)) ∧ (∀ p, good_pline p → Forall P (show_pline p)) ∧
  (∀ e, good_simple e → Forall P (show_simple e)).
Proof.
  intros Hw H32 Hop.
  assert (HW : ∀ w, good_word w → Forall P (show_word w)).
  { intros w [_ H]. apply Forall_app. split; [|by constructor]. eapply Forall_impl; [exact H|]. intros c [? ?]. by apply Hw. }
  assert (HO : ∀ c t, c ∈ operators → Forall P t → Forall P (c :: 32 :: t)) by (intros; repeat constructor; auto).
  assert (HR : ∀ rs, Forall good_redir rs → Forall P (show_redirs rs)).
  { intros rs Hrs. unfold show_redirs. induction Hrs as [|r rs Hr _ IH]; [constructor|]. cbn [mbind list_bind].
    apply Forall_app. split; [|done]. destruct r; cbn [show_redir good_redir] in *;
      [apply HO|apply HO|constructor; [apply Hop|apply HO]]; auto; by apply (bool_decide_unpack _). }
  assert (HB : ∀ n, Forall P (show_bg n)).
  { induction n as [|n IH]; [constructor|]. apply (HO 38); [by apply (bool_decide_unpack _)|done]. }
  apply grammar_ind; cbn [show_line show_pline show_simple good_line good_pline good_simple]; intros;
    repeat match goal with H : _ ∧ _ |- _ => destruct H end; rewrite ?Forall_app; split_and?; auto;
    try (apply HO; [by apply (bool_decide_unpack _)|constructor]).
  induction ws as [|w ws IH]; [constructor|]. cbn [mbind list_bind].
  match goal with H : Forall good_word _ |- _ => inversion H; subst end.
  apply Forall_app. split; [by apply HW|]. apply IH; [simpl in *; lia|done].
Qed.

Lemma show_line_plain l : good_line l → Forall (λ c, c ≠ 0 ∧ c ≠ 10 ∧ c ≠ 13) (show_line l).
Proof.
  apply show_chars; [|done|].
  - intros c Hc H0. split_and!; [done| |]; by intros ->.
  - intros c Hc. unfold operators in Hc. split_and!; intros ->; revert Hc; apply (bool_decide_unpack _); by vm_compute.
Qed.

Lemma smap_ext {V} (f g : str → V) c : (∀ w, w ∈ words c → f w = g w) → smap f c = smap g c.
Proof.
  induction c as [a|c IH file m fd|l IHl r IHr|l IHl r IHr|c IH]; simpl; intros H.
  - f_equal. apply list_fmap_ext. intros i w Hw. apply H. by eapply list_elem_of_lookup_2.
  - f_equal; [apply IH|]; intros; apply H; set_solver.
  - f_equal; [apply IHl|apply IHr]; intros; apply H; set_solver.
  - f_equal; [apply IHl|apply IHr]; intros; apply H; set_solver.
  - f_equal. auto.
Qed.

Lemma redirs_std_smap {W V} (f : W → V) c : redirs_std (smap f c) ↔ redirs_std c.
Proof. induction c; simpl; tauto. Qed.

Lemma line_redirs_std :
  (∀ l, redirs_std (line_cmd l)) ∧ (∀ p, redirs_std (pline_cmd p)) ∧ (∀ e, redirs_std (simple_cmd e)).
Proof.
  assert (HR : ∀ rs c, redirs_std c → redirs_std (foldl add_redir c rs)).
  { induction rs as [|r rs IH]; intros c Hc; [done|]. apply IH. destruct r; simpl; auto. }
  assert (HB : ∀ n c, redirs_std c → redirs_std (in_back n c)) by (induction n; auto).
  apply grammar_ind; simpl; intros; split_and?; auto; apply HR; done.
Qed.

(** A typed line becomes the command it stands for, its words C strings of the buffer. *)
Lemma parsecmd_typed l : good_line l → ∃ c b, parsecmd (upto_zero (show_line l ++ [10])) = Ok (c, b) ∧
  smap (string_at b) c = line_cmd l ∧ redirs_std c.
Proof.
  intros Hg. set (ln := show_line l ++ [10]).
  assert (H0 : 0 ∉ ln).
  { intros [H|H]%elem_of_app; [|set_solver].
    by destruct (proj1 (Forall_forall _ _) (show_line_plain l Hg) 0 H). }
  replace (upto_zero ln) with ln by (symmetry; rewrite <- (app_nil_r ln) at 1; by apply upto_zero_app).
  destruct (parseline_show l [10] Hg eq_refl) as (c & E & Hc). fold ln in E, Hc.
  destruct (parser_parsed ln H0 (parse_fuel ln)) as (Hl & _).
  specialize (Hl ln (Nat.le_refl _) (reflexivity ln)). rewrite E in Hl. destruct Hl as (_ & _ & Hw).
  exists c, (nulterminate c (ln ++ [0])). split_and!.
  - unfold parsecmd. by rewrite E.
  - rewrite <- Hc. apply smap_ext. intros w Hin. by apply word_terminated.
  - apply (redirs_std_smap (text ln)). rewrite Hc. apply line_redirs_std.
Qed.

(** ** Reading lines *)

Lemma ends_getchar {A} (f : option (list Z) → prog A) t kids k c rest js Q :
  fd_obj t 0 = Some Tty → k_input k = c :: rest →
  ends (f (Some [c])) (UProc t kids) (set_input rest k) js Q → ends (sys (Cread 0 1) ≫= f) (UProc t kids) k js Q.
Proof.
  intros Ht Hi H. eapply ends_sys; [|exact H]. cbn [do_call u_fd]. rewrite Ht. cbn [read_obj].
  rewrite Hi. change (Z.to_nat 1) with 1%nat. cbn [typed]. by destruct (c =? 10).
Qed.

Lemma gets_step {A} n buf (f : list Z → prog A) : (gets_loop (S n) buf ≫= f) =
  (sys (Cread 0 1) ≫= λ r, match r with
   | Some [c] => if (c =? 10) || (c =? 13) then mret (buf ++ [c]) else gets_loop n (buf ++ [c])
   | _ => mret buf
   end ≫= f).
Proof. done. Qed.

Lemma ends_gets {A} (f : list Z → prog A) s n buf t kids k rest js Q :
  Forall (λ c, c ≠ 0 ∧ c ≠ 10 ∧ c ≠ 13) s → (length s < n)%nat →
  fd_obj t 0 = Some Tty → k_input k = s ++ 10 :: rest →
  ends (f (buf ++ s ++ [10])) (UProc t kids) (set_input rest k) js Q →
  ends (gets_loop n buf ≫= f) (UProc t kids) k js Q.
Proof.
  intros Hs Hn Ht. revert n buf k Hn. induction Hs as [|c s (_ & H10 & H13) Hs IH]; intros n buf k Hn Hi Hf;
    (destruct n as [|n]; [simpl in Hn; lia|]); rewrite gets_step; (eapply ends_getchar; [done|exact Hi|]); [done|].
  cbn beta iota. destruct (Z.eqb_spec c 10); [done|]. destruct (Z.eqb_spec c 13); [done|]. cbn [orb].
  apply IH; [simpl in Hn; lia|done|]. by rewrite <- app_assoc.
Qed.

(** The end of the input. *)
Lemma ends_gets_eof {A} (f : list Z → prog A) n t kids k js Q :
  fd_obj t 0 = Some Tty → k_input k = [] → ends (f []) (UProc t kids) (set_input [] k) js Q →
  ends (gets_loop (S n) [] ≫= f) (UProc t kids) k js Q.
Proof.
  intros Ht Hi Hf. rewrite gets_step. eapply (ends_sys _ _ _ _ (Some []) (UProc t kids) (set_input [] k)); [|exact Hf].
  cbn [do_call u_fd]. rewrite Ht. cbn [read_obj]. by rewrite Hi.
Qed.

(** The shell's own descriptors. *)
Definition ttys : table := [Some Tty; Some Tty; Some Tty] ++ replicate (NOFILE - 3) None.
Definition tty_io : stdio := Stdio Ltty Ltty Ltty.

Lemma ttys_std : only_std tty_io ttys.
Proof. by exists Tty, Tty, Tty. Qed.

(** The lines the shell can take: of the grammar, short enough for its buffer, and not cd. *)
Definition typable (l : line) : Prop :=
  good_line l ∧ (length (show_line l) < 99)%nat ∧ is_cd (show_line l ++ [10]) = false.
Definition typed_lines (ls : list line) : list Z := ls ≫= λ l, show_line l ++ [10].

(** What lines start, one after the other. *)
Fixpoint plans (progs : list Z → bool) (ls : list line) (D : names) (n : nat) : list job :=
  match ls with
  | [] => []
  | l :: ls => let '(js, D, n) := plan progs (line_cmd l) tty_io D n in js ++ plans progs ls D n
  end.

(** The prompt. *)
Lemma ends_getcmd {A} (f : option (list Z) → prog A) n u k js Q :
  (∀ k', same_names k k' → ends (gets n ≫= λ buf, f (if buf.[0] =? 0 then None else Some buf)) u k' js Q) →
  ends (getcmd n ≫= f) u k js Q.
Proof. intros H. apply ends_assoc, ends_putcs. intros k' Hk. apply ends_assoc, H, Hk. Qed.

Lemma typed_head l : good_line l → (show_line l ++ [10]).[0] =? 0 = false.
Proof.
  intros Hg%show_line_plain. destruct (show_line l) as [|c s]; [done|]. inversion Hg as [|? ? (H & _)]; subst.
  by apply Z.eqb_neq.
Qed.

Lemma run_line_planned {A} l u k : good_line l → fair k → only_std tty_io (u_fd u) →
  let '(js, D, n) := plan (k_prog k) (line_cmd l) tty_io (names_of k) (k_pipes k) in
  ends (A:=A) (run_line (show_line l ++ [10])) (UProc (u_fd u) []) (forked k) js (arrives k D n).
Proof.
  intros Hg Hk Ht. destruct (parsecmd_typed l Hg) as (c & b & E & Hc & Hr). unfold run_line. rewrite E, <- Hc.
  by apply child_planned; [apply runcmd_planned|..].
Qed.

Lemma main_loop_plans {A} ls fuel kids k : (length ls < fuel)%nat → fair k → Forall typable ls →
  k_input k = typed_lines ls →
  ends (A:=A) (main_loop fuel) (UProc ttys kids) k (plans (k_prog k) ls (names_of k) (k_pipes k)) (λ _, True).
Proof.
  intros Hf Hk Hls. revert fuel kids k Hf Hk. induction Hls as [|l ls (Hg & Hlen & Hcd) Hls IH]; intros fuel kids k Hf Hk Hi;
    (destruct fuel as [|fuel]; [simpl in Hf; lia|]); cbn [main_loop]; apply ends_getcmd; intros k1 (Hs1 & HD1 & Hn1);
    pose proof Hs1 as (_ & Hg1 & Hi1 & _); rewrite Hi in Hi1.
  - apply ends_gets_eof; [done|done|]. by apply ends_exit.
  - cbn [typed_lines mbind list_bind] in Hi1. rewrite <- app_assoc in Hi1.
    apply (ends_gets _ (show_line l) _ _ _ _ _ (typed_lines ls)); [by apply show_line_plain|lia|done|done|].
    cbn [app]. rewrite typed_head, Hcd by done. set (k2 := set_input (typed_lines ls) k1).
    assert (Hk2 : fair k2) by exact (steady_fair _ _ Hs1 Hk).
    pose proof (run_line_planned (A:=A) l (UProc ttys kids) k2 Hg Hk2 ttys_std) as Hl. cbn [plans].
    rewrite <- HD1, <- Hn1, <- Hg1. change (k_prog k1) with (k_prog k2). change (names_of k1) with (names_of k2).
    change (k_pipes k1) with (k_pipes k2). destruct (plan _ _ _ _ _) as [[js D] n].
    eapply ends_fork; [exact Hk2|exact Hl|]. intros pid kids' k3 Hpid (HD & Hn & Hs3).
    destruct (Z.eqb_spec pid 0); [lia|]. eapply ends_wait; [exact ttys_std|]. intros _ kids2.
    pose proof Hs3 as (_ & Hg3 & Hi3 & _). rewrite <- HD, <- Hn, <- Hg3.
    apply IH; [simpl in Hf; lia|by eapply steady_fair|done].
Qed.

(** open("console"): the lowest free descriptor. *)
Lemma ends_open_console {A} (f : Z → prog A) t fd kids k js Q : fair k → k_dir k !! bz "console" = Some 0%nat →
  free_slot t 0 = Some fd →
  ends (f (Z.of_nat fd)) (UProc (<[fd := Some Tty]> t) kids) (set_calls (S (k_calls k)) k) js Q →
  ends (sys (Copen (bz "console") O_RDWR) ≫= f) (UProc t kids) k js Q.
Proof.
  intros Hk Hc Hf H. eapply ends_sys; [|exact H]. cbn [do_call u_fd u_kids]. unfold open_file, lucky.
  cbn [k_dir set_calls]. by rewrite Hf, (proj1 Hk), Hc.
Qed.

(** The first [j] descriptors open on the console. *)
Definition tty_table (j : nat) : table := replicate j (Some Tty) ++ replicate (NOFILE - j) None.
Definition bump (k : kernel) : kernel := set_calls (S (k_calls k)) k.

Lemma open_consoles_step {A} (f : unit → prog A) n j kids k js Q : (j < 3)%nat → fair k →
  k_dir k !! bz "console" = Some 0%nat →
  ends (open_consoles n ≫= f) (UProc (tty_table (S j)) kids) (bump k) js Q →
  ends (open_consoles (S n) ≫= f) (UProc (tty_table j) kids) k js Q.
Proof.
  intros Hj Hk Hc H. cbn [open_consoles]. apply ends_assoc.
  destruct j as [|[|[|j]]]; [| | |lia]; (eapply ends_open_console; [done|done|reflexivity|exact H]).
Qed.

Lemma open_consoles_std {A} (f : unit → prog A) j kids k js Q : (j ≤ 3)%nat → fair k →
  k_dir k !! bz "console" = Some 0%nat →
  (∀ k', same_names k k' → k_dir k' = k_dir k → ends (f tt) (UProc ttys kids) k' js Q) →
  ends (open_consoles 4 ≫= f) (UProc (tty_table j) kids) k js Q.
Proof.
  intros Hj Hk Hc Hf.
  assert (Hb : ∀ k, fair k → fair (bump k)) by done.
  assert (H3 : ∀ n k', fair k' → same_names k k' → k_dir k' = k_dir k →
    ends (open_consoles (S n) ≫= f) (UProc (tty_table 3) kids) k' js Q).
  { intros n k' Hk' Hs Hd. cbn [open_consoles]. apply ends_assoc.
    eapply ends_open_console; [done|by rewrite Hd|reflexivity|].
    cbn [Z.of_nat Z.ltb Z.leb Z.compare Pos.of_succ_nat Pos.succ Pos.compare Pos.compare_cont]. apply ends_assoc.
    eapply ends_sys; [reflexivity|]. apply Hf; [|done]. exact Hs. }
  assert (H0 : same_names k k) by (split; auto with shell).
  destruct j as [|[|[|[|j]]]]; [| | | |lia]; repeat (apply open_consoles_step; [lia|auto|done|]); apply H3; auto.
Qed.

(** C26: the shell.  Whatever number of the three standard descriptors are open when it
    starts, and whatever lines of its grammar are typed (of at most 99 characters, not
    beginning with cd), the shell starts exactly the programs the lines stand for, in
    order: each with its arguments, its standard input, output and error on the console,
    on a file or on the right end of the right pipe as the redirections and pipes of the
    line say, and with no other descriptor open.  No process of the shell waits while it
    holds an end of a pipe, and at the end of the input the shell ends.  This is when no
    call runs out of resources; programs and files that are not there are included. *)
Theorem shell_runs_lines ls j k : (j ≤ 3)%nat → fair k → k_dir k !! bz "console" = Some 0%nat →
  Forall typable ls → k_input k = typed_lines ls →
  ∃ es k', run (A:=unit) (sh_main (S (length ls))) (UProc (tty_table j) []) k = (es, k', Ends) ∧
    Forall2 is_job (starts es) (plans (k_prog k) ls (names_of k) (k_pipes k)) ∧ Forall waits_clean es.
Proof.
  intros Hj Hk Hc Hls Hi.
  assert (H : ends (A:=unit) (sh_main (S (length ls))) (UProc (tty_table j) []) k
    (plans (k_prog k) ls (names_of k) (k_pipes k)) (λ _, True)).
  { apply open_consoles_std; [done..|]. intros k' (Hs & HD & Hn) Hd. pose proof Hs as (_ & Hg & Hi' & _).
    rewrite <- HD, <- Hn, <- Hg. apply main_loop_plans; [lia|by eapply steady_fair|done|congruence]. }
  destruct H as (es & k' & Hr & [Hd Hw] & _). by exists es, k'.
Qed.

(** The lines [ls | wc > n] and [cat < n &], with two programs there. *)
Definition demo_lines : list line :=
  [Last (Into (Words [bz "ls"] []) (Single (Words [bz "wc"] [Rout (bz "n")]))) 0;
   Last (Single (Words [bz "cat"] [Rin (bz "n")])) 1].
Definition demo_kernel : kernel :=
  Kernel {[bz "console" := 0%nat]} ∅ ∅ 1 0 2 (typed_lines demo_lines)
    (λ p, bool_decide (p ∈ [bz "ls"; bz "wc"; bz "cat"])) (λ _, true) 0 ∅.

Lemma demo_lines_typable : Forall typable demo_lines.
Proof.
  unfold demo_lines, typable. simpl. unfold good_word, MAXARGS. repeat first [split | constructor | lia | done].
Qed.

Lemma shell_runs_lines_witness :
  length (plans (k_prog demo_kernel) demo_lines (names_of demo_kernel) (k_pipes demo_kernel)) = 3%nat ∧
  ∃ es k', run (A:=unit) (sh_main 3) (UProc (tty_table 1) []) demo_kernel = (es, k', Ends) ∧
    Forall2 is_job (starts es) (plans (k_prog demo_kernel) demo_lines (names_of demo_kernel) (k_pipes demo_kernel)) ∧
    Forall waits_clean es.
Proof.
  split; [by vm_compute|].
  apply (shell_runs_lines demo_lines 1 demo_kernel); [lia|split; [done|split; simpl; lia]|by vm_compute|exact demo_lines_typable|done].
Defined.
