(* ===== verification/Uprogs.v ===== *)
(** * The small user programs

    cat.c, wc.c, echo.c, kill.c, ln.c, mkdir.c, rm.c, zombie.c and init.c as user programs,
    one module each, and what cat and wc write for files of any length. *)

From stdpp Require Import base gmap list strings.
From Stdlib Require Import ZArith Lia.
From S2P Require Import Prelude Params User.

(** "...\n" *)
Definition ln_ (s : string) : list Z := bz s ++ [10].

(** A loop over the files named in argv, from the second on: open, [body], close. *)
Section files.
Context (body : Z → list Z → prog unit) (cannot : list Z).
Fixpoint each_file {A} (args : list (list Z)) : prog A :=
  match args with
  | [] => Exit
  | a :: args =>
    fd ← sys (Copen a 0);
    if fd <? 0 then _ ← printf 1 cannot [inr a]; Exit
    else
      _ ← body fd a;
      _ ← sys (Cclose fd);
      each_file args
  end.
End files.

(** ** cat.c *)
Module Cat.
(** while((n = read(fd, buf, sizeof(buf))) > 0): a file of [len] bytes takes at most
    [len / 512 + 2] rounds. *)
Fixpoint cat (fuel : nat) (fd : Z) : prog unit :=
  match fuel with
  | O => Loops
  | S f =>
    r ← sys (Cread fd 512);
    match (r : option (list Z)) with
    | None => _ ← printf 1 (ln_ "cat: read error") []; Exit
    | Some [] => mret tt
    | Some b => _ ← sys (Cwrite 1 b); cat f fd
    end
  end.

Definition main {A} (fuel : nat) (argv : list (list Z)) : prog A :=
  match argv with
  | [] | [_] => _ ← cat fuel 0; Exit
  | _ :: args => each_file (λ fd _, cat fuel fd) (ln_ "cat: cannot open %s") args
  end.
End Cat.

(** ** wc.c *)
Module Wc.
Definition blanks : list Z := [32; 13; 9; 10; 11].
Record counts : Type := Counts { lines : Z; words : Z; chars : Z; inword : bool }.

Definition count1 (s : counts) (b : Z) : counts :=
  let c := i32 (chars s + 1) in
  let l := if b =? 10 then i32 (lines s + 1) else lines s in
  if bool_decide (b ∈ blanks) then Counts l (words s) c false
  else if negb (inword s) then Counts l (i32 (words s + 1)) c true
  else Counts l (words s) c true.

Fixpoint wc_loop (fuel : nat) (fd : Z) (s : counts) : prog counts :=
  match fuel with
  | O => Loops
  | S f =>
    r ← sys (Cread fd 512);
    match (r : option (list Z)) with
    | None => _ ← printf 1 (ln_ "wc: read error") []; Exit
    | Some [] => mret s
    | Some b => wc_loop f fd (foldl count1 s b)
    end
  end.

Definition wc (fuel : nat) (fd : Z) (name : list Z) : prog unit :=
  s ← wc_loop fuel fd (Counts 0 0 0 false);
  printf 1 (ln_ "%d %d %d %s") [inl (lines s); inl (words s); inl (chars s); inr name].

Definition main {A} (fuel : nat) (argv : list (list Z)) : prog A :=
  match argv with
  | [] | [_] => _ ← wc fuel 0 []; Exit
  | _ :: args => each_file (wc fuel) (ln_ "wc: cannot open %s") args
  end.
End Wc.

(** ** Programs without loops over input *)

(** echo.c: the last argument is followed by a newline. *)
Module Echo.
Fixpoint args_loop (args : list (list Z)) : prog unit :=
  match args with
  | [] => mret tt
  | a :: rest =>
    _ ← printf 1 (bz "%s%s") [inr a; inr (match rest with [] => [10] | _ => [32] end)];
    args_loop rest
  end.
Definition main {A} (argv : list (list Z)) : prog A := _ ← args_loop (tail argv); Exit.
End Echo.

(** Call [c] for each argument; stop with the message when it fails. *)
Section each.
Context (c : list Z → call Z) (failed : list Z).
Fixpoint each_arg (args : list (list Z)) : prog unit :=
  match args with
  | [] => mret tt
  | a :: args =>
    r ← sys (c a);
    if r <? 0 then printf 2 failed [inr a] else each_arg args
  end.
End each.

Module Mkdir.
Definition main {A} (argv : list (list Z)) : prog A :=
  if (length argv <? 2)%nat then _ ← printf 2 (ln_ "Usage: mkdir files...") []; Exit
  else _ ← each_arg Cmkdir (ln_ "mkdir: %s failed to create") (tail argv); Exit.
End Mkdir.

Module Rm.
Definition main {A} (argv : list (list Z)) : prog A :=
  if (length argv <? 2)%nat then _ ← printf 2 (ln_ "Usage: rm files...") []; Exit
  else _ ← each_arg Cunlink (ln_ "rm: %s failed to delete") (tail argv); Exit.
End Rm.

Module Ln.
Definition main {A} (argv : list (list Z)) : prog A :=
  match argv with
  | [_; old; new] =>
    r ← sys (Clink old new);
    if r <? 0 then _ ← printf 2 (ln_ "link %s %s: failed") [inr old; inr new]; Exit else Exit
  | _ => _ ← printf 2 (ln_ "Usage: ln old new") []; Exit
  end.
End Ln.

(** kill.c; atoi() on the bytes of an argument. *)
Module Kill.
Fixpoint atoi_bytes (n : Z) (s : list Z) : Z :=
  match s with
  | c :: s => if (48 <=? c) && (c <=? 57) then atoi_bytes (i32 (n * 10 + c - 48)) s else n
  | [] => n
  end.
Fixpoint args_loop (args : list (list Z)) : prog unit :=
  match args with
  | [] => mret tt
  | a :: args => _ ← sys (Ckill (atoi_bytes 0 a)); args_loop args
  end.
Definition main {A} (argv : list (list Z)) : prog A :=
  match argv with
  | [] => _ ← printf 2 (ln_ "usage: kill pid...") []; Exit
  | _ :: args => _ ← args_loop args; Exit
  end.
End Kill.

Module Zombie.
Definition main {A} : prog A :=
  pid ← fork;
  if 0 <? pid then _ ← sys (Csleep 5); Exit else Exit.
End Zombie.

(** init.c: the shell is started again when it ends; other processes are waited for. *)
Module Init.
Definition argv : list (list Z) := [bz "sh"].

(** while((wpid=wait()) >= 0 && wpid != pid) *)
Fixpoint wait_for (fuel : nat) (pid : Z) : prog unit :=
  match fuel with
  | O => Loops
  | S f =>
    wpid ← sys Cwait;
    if (0 <=? wpid) && negb (wpid =? pid) then _ ← printf 1 (ln_ "zombie!") []; wait_for f pid
    else mret tt
  end.

Definition round (fuel : nat) : prog unit :=
  _ ← printf 1 (ln_ "init: starting sh") [];
  pid ← fork;
  if pid <? 0 then _ ← printf 1 (ln_ "init: fork failed") []; Exit
  else if pid =? 0 then
    _ ← execv (bz "sh") argv;
    _ ← printf 1 (ln_ "init: exec sh failed") []; Exit
  else wait_for fuel pid.

Definition start : prog unit :=
  fd ← sys (Copen (bz "console") O_RDWR);
  _ ← (if fd <? 0 then
         _ ← sys (Cmknod (bz "console") 1 1); _ ← sys (Copen (bz "console") O_RDWR); mret tt
       else mret tt);
  _ ← sys (Cdup 0);
  _ ← sys (Cdup 0);
  mret tt.

(** The first [n] rounds of for(;;). *)
Fixpoint rounds (n fuel : nat) : prog unit :=
  match n with
  | O => mret tt
  | S n => _ ← round fuel; rounds n fuel
  end.
Definition main (n fuel : nat) : prog unit := _ ← start; rounds n fuel.
End Init.

(** * What cat and wc write *)

(** ** Pieces of programs *)

(** [p] returns [x] with the process as it was, the events [es] and the kernel [k']. *)
Definition says {X} (p : prog X) (u : uproc) (k : kernel) (x : X) (es : list event) (k' : kernel) : Prop :=
  ∀ A (f : X → prog A), run (p ≫= f) u k = let '(e, k2, r) := run (f x) u k' in (es ++ e, k2, r).

Lemma says_ret {X} (x : X) u k : says (mret x) u k x [] k.
Proof. intros A f. change (mret x ≫= f) with (f x). by destruct (run (f x) u k) as [[e k2] r]. Qed.

Lemma says_bind {X Y} (p : prog X) (g : X → prog Y) u k x e1 k1 y e2 k2 :
  says p u k x e1 k1 → says (g x) u k1 y e2 k2 → says (p ≫= g) u k y (e1 ++ e2) k2.
Proof.
  intros Hp Hg A f. rewrite run_assoc, Hp, Hg. destruct (run (f y) u k2) as [[e k3] r]. by rewrite app_assoc.
Qed.

Lemma says_sys {X : Set} (c : call X) u k x k' es : do_call c u k = (x, u, k', es) → says (sys c) u k x es k'.
Proof. intros H A f. rewrite bind_sys, run_sys, H. done. Qed.

(** [p] returns [x] in the process [u'], with the events [es] and the kernel [k']. *)
Definition moves {X} (p : prog X) (u : uproc) (k : kernel) (x : X) (u' : uproc) (es : list event) (k' : kernel) : Prop :=
  ∀ A (f : X → prog A), run (p ≫= f) u k = let '(e, k2, r) := run (f x) u' k' in (es ++ e, k2, r).

Lemma moves_ret {X} (x : X) u k : moves (mret x) u k x u [] k.
Proof. exact (says_ret x u k). Qed.

Lemma moves_bind {X Y} (p : prog X) (g : X → prog Y) u k x u1 e1 k1 y u2 e2 k2 :
  moves p u k x u1 e1 k1 → moves (g x) u1 k1 y u2 e2 k2 → moves (p ≫= g) u k y u2 (e1 ++ e2) k2.
Proof.
  intros Hp Hg A f. rewrite run_assoc, Hp, Hg. destruct (run (f y) u2 k2) as [[e k3] r]. by rewrite app_assoc.
Qed.

Lemma moves_sys {X : Set} (c : call X) u k x u' k' es : do_call c u k = (x, u', k', es) → moves (sys c) u k x u' es k'.
Proof. intros H A f. by rewrite bind_sys, run_sys, H. Qed.

(** What is written on an output that only passes it on: the console or a pipe. *)
Definition plain_out (o : obj) : Prop := match o with Tty => True | Wpipe _ => True | _ => False end.
Definition all_written (es : list event) : list Z := written (λ _, true) es.

Lemma all_written_app e1 e2 : all_written (e1 ++ e2) = all_written e1 ++ all_written e2.
Proof. apply bind_app. Qed.

Lemma says_write fd b o u k : fd_obj (u_fd u) fd = Some o → plain_out o →
  says (sys (Cwrite fd b)) u k (Z.of_nat (length b)) [Wrote o b] k.
Proof.
  intros Ho Hp. apply says_sys. cbn [do_call]. rewrite Ho.
  destruct o; try done; cbn [write_obj]; destruct (Z.ltb_spec (Z.of_nat (length b)) 0); try lia; done.
Qed.

Lemma says_putcs fd text o u k : fd_obj (u_fd u) fd = Some o → plain_out o →
  ∃ es, says (putcs fd text) u k tt es k ∧ all_written es = text.
Proof.
  intros Ho Hp. induction text as [|c text (es & Hs & Hw)]; [exists []; split; [apply says_ret|done]|].
  exists ([Wrote o [c]] ++ es). split; [|rewrite all_written_app, Hw; done].
  eapply says_bind; [by apply (says_write fd [c] o)|exact Hs].
Qed.

(** ** Files *)

Definition same_files (k k' : kernel) : Prop :=
  k_dir k' = k_dir k ∧ k_data k' = k_data k ∧ k_luck k' = k_luck k ∧ k_kind k' = k_kind k.

Lemma same_files_trans k1 k2 k3 : same_files k1 k2 → same_files k2 k3 → same_files k1 k3.
Proof. unfold same_files. intros (? & ? & ? & ?) (? & ? & ? & ?). split_and!; congruence. Qed.

(** What is left of a file. *)
Definition remaining (k : kernel) (inum id : nat) : list Z := drop (offset k id) (contents k inum).

(** A read of [n] bytes. *)
Lemma says_read n fd u k p m i id : fd_obj (u_fd u) fd = Some (File p m i id) → readable m = true →
  ∃ k', says (sys (Cread fd (Z.of_nat n))) u k (Some (take n (remaining k i id))) [] k' ∧
    same_files k k' ∧ remaining k' i id = drop n (remaining k i id) ∧ k_next k' = k_next k.
Proof.
  intros Ho Hm. eexists. split; [apply says_sys; cbn [do_call]; rewrite Ho, Nat2Z.id; cbn [read_obj]; rewrite Hm; by destruct u|].
  split; [done|]. split; [|done]. unfold remaining. set (d := contents k i). set (o := offset k id).
  set (k' := set_off _ _). change (contents k' i) with d. rewrite drop_drop.
  replace (offset k' id) with (o + length (take n (drop o d)))%nat
    by (unfold offset at 1; simpl; by rewrite lookup_insert_eq).
  rewrite length_take, length_drop. destruct (decide (n ≤ length d - o)%nat); [f_equal; lia|].
  by rewrite !drop_ge by lia.
Qed.

(** A loop that reads a file to its end. *)
Lemma says_cat fuel fd u k p m i id o : fd_obj (u_fd u) fd = Some (File p m i id) → readable m = true →
  fd_obj (u_fd u) 1 = Some o → plain_out o → (length (remaining k i id) + 512 ≤ 512 * fuel)%nat →
  ∃ es k', says (Cat.cat fuel fd) u k tt es k' ∧ same_files k k' ∧ all_written es = remaining k i id.
Proof.
  intros Ho Hm H1 Hp. revert k. induction fuel as [|fuel IH]; intros k Hf; [lia|].
  destruct (says_read 512 fd u k p m i id Ho Hm) as (k1 & Hr & Hs1 & Hrest & _).
  destruct (remaining k i id) as [|c s] eqn:E.
  - exists [], k1. split_and!; try apply Hs1; [|done].
    change (@nil event) with (@nil event ++ []). eapply says_bind; [exact Hr|apply says_ret].
  - destruct (IH k1) as (es & k2 & Hs & Hs2 & Hw); [rewrite Hrest, length_drop; cbn [length] in *; lia|].
    exists ([] ++ [Wrote o (take 512 (c :: s))] ++ es), k2.
    split; [|split; [by eapply same_files_trans|]].
    + eapply says_bind; [exact Hr|]. cbn beta iota. eapply says_bind; [by apply says_write|exact Hs].
    + rewrite all_written_app, all_written_app, Hw, Hrest. cbn [all_written written]. simpl. rewrite app_nil_r.
      f_equal. apply (take_drop 511).
Qed.

(** ** Programs over files *)

(** The ordinary file a name stands for. *)
Definition file_contents (k : kernel) (a : list Z) : list Z :=
  match k_dir k !! a with Some i => contents k i | None => [] end.
Definition is_file (k : kernel) (a : list Z) : Prop := ∃ i, k_dir k !! a = Some (S i).

Lemma free_slot_None t n i : free_slot t n = Some i → ∃ j, i = (n + j)%nat ∧ t !! j = Some None.
Proof.
  revert n. induction t as [|[o|] t IH]; intros n H; simpl in H; [done| |].
  - destruct (IH (S n) H) as (j & -> & Hj). exists (S j). split; [lia|done].
  - injection H as <-. exists 0%nat. split; [lia|done].
Qed.

(** Open, close: the table is as before in between and after. *)
Lemma slot_facts t fd o ob : free_slot t 0 = Some fd → fd_obj t 1 = Some o →
  fd_obj (<[fd := Some ob]> t) (Z.of_nat fd) = Some ob ∧ fd_obj (<[fd := Some ob]> t) 1 = Some o ∧
  close_fd (<[fd := Some ob]> t) (Z.of_nat fd) = t.
Proof.
  intros (j & Hj & Hn)%free_slot_None H1. simpl in Hj. subst j. change (default None (t !! 1%nat) = Some o) in H1.
  destruct (t !! 1%nat) as [x|] eqn:E1; [|done]. simpl in H1. subst x.
  assert (fd ≠ 1%nat) by (intros ->; congruence).
  assert (Hl : (fd < length t)%nat) by (by eapply lookup_lt_Some).
  assert (Hneg : (Z.of_nat fd <? 0) = false) by (apply Z.ltb_ge; lia).
  assert (Hfd : fd_obj (<[fd := Some ob]> t) (Z.of_nat fd) = Some ob).
  { unfold fd_obj. rewrite Hneg, Nat2Z.id, list_lookup_insert_eq by done. done. }
  split_and!; [exact Hfd| |].
  - change (default None (<[fd := Some ob]> t !! 1%nat) = Some o). rewrite list_lookup_insert_ne by done. by rewrite E1.
  - unfold close_fd. rewrite Hfd, Nat2Z.id, list_insert_insert_eq. by apply list_insert_id.
Qed.

Section each_file_laws.
Context (body : Z → list Z → prog unit) (cannot : list Z) (o : obj) (out : list Z → list Z → list Z) (fits : list Z → Prop).
Hypothesis body_out : ∀ t kids k fd a p i id,
  fd_obj t fd = Some (File p 0 i id) → fd_obj t 1 = Some o → remaining k i id = contents k i → fits (contents k i) →
  ∃ es k', says (body fd a) (UProc t kids) k tt es k' ∧ same_files k k' ∧ all_written es = out a (contents k i).

Lemma each_file_out {A} t kids fd args k : free_slot t 0 = Some fd → fd_obj t 1 = Some o →
  (∀ i, k_luck k i = true) → Forall (λ a, is_file k a ∧ fits (file_contents k a)) args →
  ∃ es k', run (A:=A) (each_file body cannot args) (UProc t kids) k = (es, k', Ends) ∧
    all_written es = args ≫= λ a, out a (file_contents k a).
Proof.
  intros Hfree H1. revert k. induction args as [|a args IH]; intros k Hl Hargs; [by exists [], k|].
  inversion Hargs as [|? ? [[i Hi] Hf] Hargs']; subst. unfold file_contents in Hf. rewrite Hi in Hf.
  set (k1 := set_off (<[k_next k := 0%nat]> (k_off k)) (set_next (S (k_next k)) (set_calls (S (k_calls k)) k))).
  set (ob := File a 0 (S i) (k_next k)). destruct (slot_facts t fd o ob Hfree H1) as (Hfd & Hone & Hclose).
  destruct (body_out (<[fd := Some ob]> t) kids k1 (Z.of_nat fd) a a (S i) (k_next k) Hfd Hone) as (e1 & k2 & Hs & Hk2 & Hw).
  { unfold remaining, offset. cbn [k_off k1 set_off set_next]. by rewrite lookup_insert_eq. }
  { done. }
  destruct (IH k2) as (e2 & k3 & Hr & Hw2).
  { destruct Hk2 as (_ & _ & -> & _). exact Hl. }
  { destruct Hk2 as (Hd & Hdat & _ & _). eapply Forall_impl; [exact Hargs'|]. intros a' [[i' ?] ?].
    unfold is_file, file_contents, contents in *. rewrite Hd, Hdat. split; [by exists i'|done]. }
  exists (e1 ++ e2), k3. split.
  - cbn [each_file]. rewrite bind_sys. cbn [run do_call u_fd u_kids]. unfold open_file, lucky.
    rewrite Hfree, Hl. cbn [k_dir set_calls]. rewrite Hi. fold k1 ob. destruct (Z.ltb_spec (Z.of_nat fd) 0); [lia|].
    rewrite Hs, bind_sys. cbn [run do_call u_fd u_kids]. rewrite Hclose, Hr. done.
  - rewrite all_written_app, Hw, Hw2. cbn [mbind list_bind]. unfold file_contents. rewrite Hi.
    f_equal. apply list_bind_ext; [|done]. intros a'. destruct Hk2 as (Hd & Hdat & _ & _).
    unfold contents. by rewrite Hd, Hdat.
Qed.
End each_file_laws.

(** ** wc *)

Lemma says_wc_loop fuel fd u k p m i id s : fd_obj (u_fd u) fd = Some (File p m i id) → readable m = true →
  (length (remaining k i id) + 512 ≤ 512 * fuel)%nat →
  ∃ k', says (Wc.wc_loop fuel fd s) u k (foldl Wc.count1 s (remaining k i id)) [] k' ∧ same_files k k'.
Proof.
  intros Ho Hm. revert k s. induction fuel as [|fuel IH]; intros k s Hf; [lia|].
  destruct (says_read 512 fd u k p m i id Ho Hm) as (k1 & Hr & Hs1 & Hrest & _).
  destruct (remaining k i id) as [|c r] eqn:E.
  - exists k1. split; [|done]. change (@nil event) with (@nil event ++ []). eapply says_bind; [exact Hr|apply says_ret].
  - destruct (IH k1 (foldl Wc.count1 s (take 512 (c :: r)))) as (k2 & Hs & Hs2);
      [rewrite Hrest, length_drop; cbn [length] in *; lia|].
    exists k2. split; [|by eapply same_files_trans].
    rewrite Hrest, <- foldl_app, (take_drop 512 (c :: r)) in Hs.
    change (@nil event) with (@nil event ++ []). eapply says_bind; [exact Hr|]. exact Hs.
Qed.

(** The pieces of a text between blanks. *)
Fixpoint pieces (s : list Z) : list (list Z) :=
  match s with
  | [] => [[]]
  | c :: s =>
    if bool_decide (c ∈ Wc.blanks) then [] :: pieces s
    else match pieces s with p :: ps => (c :: p) :: ps | [] => [[c]] end
  end.
Definition nonempty (ps : list (list Z)) : nat := length (filter (λ p, p ≠ []) ps).
Definition newlines (s : list Z) : nat := length (filter (λ c, c = 10) s).

Lemma pieces_cons s : ∃ p ps, pieces s = p :: ps.
Proof. destruct s as [|c s]; simpl; [by eauto|]. destruct (bool_decide _); [by eauto|]. destruct (pieces s); eauto. Qed.

(** The words to come: all pieces, or all but the one that has begun. *)
Definition words_ahead (inword : bool) (s : list Z) : nat :=
  nonempty (if inword then tail (pieces s) else pieces s).

Lemma words_ahead_cons b c s : words_ahead b (c :: s) =
  if bool_decide (c ∈ Wc.blanks) then words_ahead false s
  else ((if b then 0 else 1) + words_ahead true s)%nat.
Proof.
  unfold words_ahead. cbn [pieces]. destruct (pieces_cons s) as (p & ps & E). rewrite E.
  destruct (bool_decide (c ∈ Wc.blanks)); [by destruct b|]. destruct b; [done|].
  unfold nonempty. cbn [tail]. by rewrite filter_cons_True.
Qed.

Lemma count_spec s l w c b : 0 ≤ l → 0 ≤ w → 0 ≤ c → l + Z.of_nat (length s) < 2 ^ 31 →
  w + Z.of_nat (length s) < 2 ^ 31 → c + Z.of_nat (length s) < 2 ^ 31 →
  ∃ b', foldl Wc.count1 (Wc.Counts l w c b) s =
    Wc.Counts (l + Z.of_nat (newlines s)) (w + Z.of_nat (words_ahead b s)) (c + Z.of_nat (length s)) b'.
Proof.
  revert l w c b. induction s as [|x s IH]; intros l w c b Hl Hw Hc H1 H2 H3.
  { exists b. destruct b; simpl; f_equal; unfold newlines, words_ahead, nonempty; simpl; lia. }
  cbn [foldl length] in *. unfold Wc.count1 at 2. cbn [Wc.chars Wc.lines Wc.words Wc.inword].
  rewrite !i32_small by lia. rewrite words_ahead_cons.
  set (l' := if x =? 10 then l + 1 else l).
  assert (Hl' : 0 ≤ l' ≤ l + 1) by (unfold l'; destruct (x =? 10); lia).
  assert (Hn : l' + Z.of_nat (newlines s) = l + Z.of_nat (newlines (x :: s))).
  { unfold l', newlines. rewrite filter_cons. destruct (Z.eqb_spec x 10), (decide (x = 10)); try done; simpl; lia. }
  rewrite <- Hn. destruct (bool_decide (x ∈ Wc.blanks)); [|destruct b; cbn [negb]].
  - destruct (IH l' w (c + 1) false) as (b' & ->); [lia..|]. exists b'. f_equal; lia.
  - destruct (IH l' w (c + 1) true) as (b' & ->); [lia..|]. exists b'. f_equal; lia.
  - destruct (IH l' (w + 1) (c + 1) true) as (b' & ->); [lia..|]. exists b'. f_equal; lia.
Qed.

(** The line wc prints for a text. *)
Definition wc_line (name s : list Z) : list Z :=
  format (ln_ "%d %d %d %s")
    [inl (Z.of_nat (newlines s)); inl (Z.of_nat (nonempty (pieces s))); inl (Z.of_nat (length s)); inr name].

Lemma says_wc fuel fd a u k p i id o : fd_obj (u_fd u) fd = Some (File p 0 i id) →
  fd_obj (u_fd u) 1 = Some o → plain_out o → (length (remaining k i id) + 512 ≤ 512 * fuel)%nat →
  Z.of_nat (length (remaining k i id)) < 2 ^ 31 →
  ∃ es k', says (Wc.wc fuel fd a) u k tt es k' ∧ same_files k k' ∧ all_written es = wc_line a (remaining k i id).
Proof.
  intros Ho H1 Hp Hf Hlen.
  destruct (says_wc_loop fuel fd u k p 0 i id (Wc.Counts 0 0 0 false) Ho eq_refl Hf) as (k1 & Hs & Hk).
  destruct (count_spec (remaining k i id) 0 0 0 false) as (b & E); [lia..|]. rewrite E in Hs.
  destruct (says_putcs 1 (wc_line a (remaining k i id)) o u k1 H1 Hp) as (es & Hw & He).
  exists ([] ++ es), k1. split; [|by split]. eapply says_bind; [exact Hs|exact Hw].
Qed.

(** ** The programs *)

(** A file that [fuel] rounds read and an int counts. *)
Definition fits (fuel : nat) (s : list Z) : Prop :=
  (length s + 512 ≤ 512 * fuel)%nat ∧ Z.of_nat (length s) < 2 ^ 31.

(** A kernel in which the arguments name files, and a process with an output. *)
Definition reads_files (k : kernel) (t : table) (o : obj) (fd : nat) (fuel : nat) (args : list (list Z)) : Prop :=
  args ≠ [] ∧ free_slot t 0 = Some fd ∧ fd_obj t 1 = Some o ∧ plain_out o ∧ (∀ i, k_luck k i = true) ∧
  Forall (λ a, is_file k a ∧ fits fuel (file_contents k a)) args.

(** Cat writes the contents of the files it is given, one after the other and
    nothing else, whatever their sizes, to the console or into a pipe. *)
Theorem cat_concatenates k t kids o fd fuel name args : reads_files k t o fd fuel args →
  ∃ es k', run (A:=unit) (Cat.main fuel (name :: args)) (UProc t kids) k = (es, k', Ends) ∧
    all_written es = args ≫= file_contents k.
Proof.
  intros (Hne & Hfree & H1 & Hp & Hl & Hargs). destruct args as [|a args]; [done|].
  refine (each_file_out _ _ o (λ _ s, s) (fits fuel) _ t kids fd _ k Hfree H1 Hl Hargs).
  intros t' kids' k' fd' a' p i id Hfd Hone Hr [Hf _]. rewrite <- Hr in *. by eapply says_cat.
Qed.

(** Wc prints for each file its number of newlines, of pieces between blanks that
    are not empty, and of characters, although it sees the file in blocks of 512 bytes that
    may cut words. *)
Theorem wc_counts k t kids o fd fuel name args : reads_files k t o fd fuel args →
  ∃ es k', run (A:=unit) (Wc.main fuel (name :: args)) (UProc t kids) k = (es, k', Ends) ∧
    all_written es = args ≫= λ a, wc_line a (file_contents k a).
Proof.
  intros (Hne & Hfree & H1 & Hp & Hl & Hargs). destruct args as [|a args]; [done|].
  refine (each_file_out _ _ o wc_line (fits fuel) _ t kids fd _ k Hfree H1 Hl Hargs).
  intros t' kids' k' fd' a' p i id Hfd Hone Hr [Hf Hf2]. rewrite <- Hr in *. by eapply says_wc.
Qed.

(** Two files, one of them twice. *)
Definition demo_files : kernel :=
  Kernel {[bz "f" := 1%nat; bz "g" := 2%nat]} {[1%nat := bz "two words"; 2%nat := replicate 600 97 ++ [10]]} ∅ 3 0 2 []
    (λ _, false) (λ _, true) 0 ∅.
Definition demo_fds : table := [Some Tty; Some Tty; Some Tty] ++ replicate 13 None.

Lemma demo_reads : reads_files demo_files demo_fds Tty 3 3 [bz "f"; bz "g"; bz "f"].
Proof.
  assert (Hf : is_file demo_files (bz "f") ∧ fits 3 (file_contents demo_files (bz "f"))).
  { split; [by exists 0%nat|]. split; apply (bool_decide_unpack _); by vm_compute. }
  assert (Hg : is_file demo_files (bz "g") ∧ fits 3 (file_contents demo_files (bz "g"))).
  { split; [by exists 1%nat|]. split; apply (bool_decide_unpack _); by vm_compute. }
  unfold reads_files. split_and!; try done. repeat constructor; try apply Hf; apply Hg.
Qed.

Lemma cat_concatenates_witness : reads_files demo_files demo_fds Tty 3 3 [bz "f"; bz "g"; bz "f"] ∧
  ∃ es k', run (A:=unit) (Cat.main 3 [bz "cat"; bz "f"; bz "g"; bz "f"]) (UProc demo_fds []) demo_files = (es, k', Ends) ∧
    all_written es = [bz "f"; bz "g"; bz "f"] ≫= file_contents demo_files.
Proof. split; [exact demo_reads|exact (cat_concatenates _ _ _ _ _ _ _ _ demo_reads)]. Defined.

Lemma wc_counts_witness : reads_files demo_files demo_fds Tty 3 3 [bz "f"; bz "g"; bz "f"] ∧
  ∃ es k', run (A:=unit) (Wc.main 3 [bz "wc"; bz "f"; bz "g"; bz "f"]) (UProc demo_fds []) demo_files = (es, k', Ends) ∧
    all_written es = [bz "f"; bz "g"; bz "f"] ≫= λ a, wc_line a (file_contents demo_files a).
Proof. split; [exact demo_reads|exact (wc_counts _ _ _ _ _ _ _ _ demo_reads)]. Defined.
