(* ===== verification/Ls.v ===== *)
(** * ls.c

    ls as a user program, and what it prints: a line for a file, the entries of a
    directory that are in use, nothing for a device. *)

From stdpp Require Import base gmap list strings.
From Stdlib Require Import ZArith Lia.
From S2P Require Import Prelude Params User Uprogs.

Module Ls.
Definition SLASH : Z := 47.

(** The loop of fmtname over path[n-1], path[n-2], ...: where the name begins. *)
Fixpoint name_start (path : list Z) (n : nat) : nat :=
  match n with
  | O => O
  | S i => if path.[i] =? SLASH then n else name_start path i
  end.

(** The name as it is printed. *)
Definition fmtname (path : list Z) : list Z :=
  let p := drop (name_start path (S (length path))) path in
  if (DIRSIZ <=? length p)%nat then p else p ++ replicate (DIRSIZ - length p) 32.

Definition print_stat (path : list Z) (st : ustat) : prog unit :=
  printf 1 (ln_ "%s %d %d %d") [inr (fmtname path); inl (us_type st); inl (us_ino st); inl (us_size st)].

(** The bytes of de.name up to the first zero. *)
Fixpoint cname (name : list Z) : list Z :=
  match name with
  | [] => []
  | c :: name => if c =? 0 then [] else c :: cname name
  end.
Definition de_inum (de : list Z) : Z := de.[0] + 2 ^ 8 * de.[1].
Definition de_path (path de : list Z) : list Z := path ++ [SLASH] ++ cname (drop 2 de).

(** while(read(fd, &de, sizeof(de)) == sizeof(de)): one round per entry and one for the
    end of the directory. *)
Fixpoint entries_loop (fuel : nat) (fd : Z) (path : list Z) : prog unit :=
  match fuel with
  | O => Loops
  | S f =>
    r ← sys (Cread fd 16);
    match (r : option (list Z)) with
    | Some de =>
      if (length de =? 16)%nat then
        if de_inum de =? 0 then entries_loop f fd path
        else
          st ← stat (de_path path de);
          match (st : option ustat) with
          | None => _ ← printf 1 (ln_ "ls: cannot stat %s") [inr (de_path path de)]; entries_loop f fd path
          | Some st => _ ← print_stat (de_path path de) st; entries_loop f fd path
          end
      else mret tt
    | None => mret tt
    end
  end.

Definition ls (fuel : nat) (path : list Z) : prog unit :=
  fd ← sys (Copen path 0);
  if fd <? 0 then printf 2 (ln_ "ls: cannot open %s") [inr path]
  else
    st ← sys (Cfstat fd);
    match (st : option ustat) with
    | None =>
      _ ← printf 2 (ln_ "ls: cannot stat %s") [inr path];
      _ ← sys (Cclose fd);
      mret tt
    | Some st =>
      _ ← (if us_type st =? T_FILE then print_stat path st
           else if us_type st =? T_DIR then
             if (512 <? length path + 1 + DIRSIZ + 1)%nat then printf 1 (ln_ "ls: path too long") []
             else entries_loop fuel fd path
           else mret tt);
      _ ← sys (Cclose fd);
      mret tt
    end.

Fixpoint each (fuel : nat) (args : list (list Z)) : prog unit :=
  match args with
  | [] => mret tt
  | a :: args => _ ← ls fuel a; each fuel args
  end.

Definition main {A} (fuel : nat) (argv : list (list Z)) : prog A :=
  match argv with
  | [] | [_] => _ ← ls fuel (bz "."); Exit
  | _ :: args => _ ← each fuel args; Exit
  end.
End Ls.
Import Ls.

(** ** What ls prints *)

Definition stat_of (k : kernel) (path : list Z) : option ustat := inode_stat k <$> k_dir k !! path.

(** The part of a path after its last slash, filled up to 14 characters. *)
Fixpoint last_elem (path : list Z) : list Z :=
  match path with
  | [] => []
  | c :: path => if bool_decide (SLASH ∈ c :: path) then last_elem path else c :: path
  end.
Definition padded (name : list Z) : list Z := name ++ replicate (DIRSIZ - length name) 32.

Definition stat_line (path : list Z) (st : ustat) : list Z :=
  format (ln_ "%s %d %d %d") [inr (padded (last_elem path)); inl (us_type st); inl (us_ino st); inl (us_size st)].

(** The entries of a directory, 16 bytes each. *)
Fixpoint chunks (n : nat) (s : list Z) : list (list Z) :=
  match n with
  | O => []
  | S n => take 16 s :: chunks n (drop 16 s)
  end.
Definition entries (s : list Z) : list (list Z) := chunks (length s / 16) s.

Definition entry_text (k : kernel) (path de : list Z) : list Z :=
  if de_inum de =? 0 then []
  else match stat_of k (de_path path de) with
       | None => format (ln_ "ls: cannot stat %s") [inr (de_path path de)]
       | Some st => stat_line (de_path path de) st
       end.

Definition ls_text (k : kernel) (path : list Z) : list Z :=
  match k_dir k !! path with
  | None => format (ln_ "ls: cannot open %s") [inr path]
  | Some i =>
    if kind k i =? T_FILE then stat_line path (inode_stat k i)
    else if kind k i =? T_DIR then
      if (512 <? length path + 1 + DIRSIZ + 1)%nat then format (ln_ "ls: path too long") []
      else entries (contents k i) ≫= entry_text k path
    else []
  end.

(** ** Proof *)

Lemma name_start_cons c path n : name_start (c :: path) (S n) =
  match name_start path n with O => if c =? SLASH then 1%nat else 0%nat | S m => S (S m) end.
Proof.
  induction n as [|n IH]; [done|]. change (name_start (c :: path) (S (S n))) with
    (if path.[n] =? SLASH then S (S n) else name_start (c :: path) (S n)).
  change (name_start path (S n)) with (if path.[n] =? SLASH then S n else name_start path n).
  rewrite IH. by destruct (path.[n] =? SLASH).
Qed.

Lemma name_start_spec path : drop (name_start path (S (length path))) path = last_elem path ∧
  (name_start path (S (length path)) = 0%nat ↔ SLASH ∉ path).
Proof.
  induction path as [|c path [IH1 IH2]]; [split; [done|set_solver]|].
  cbn [length]. rewrite name_start_cons. cbn [last_elem].
  destruct (name_start path (S (length path))) as [|m].
  - assert (Hn : SLASH ∉ path) by (by apply IH2). destruct (Z.eqb_spec c SLASH) as [->|Hc].
    + rewrite bool_decide_eq_true_2 by set_solver. split; [done|set_solver].
    + rewrite bool_decide_eq_false_2 by set_solver. split; [done|set_solver].
  - assert (Hn : SLASH ∈ path) by (destruct (decide (SLASH ∈ path)); [done|by apply IH2 in n]).
    rewrite bool_decide_eq_true_2 by set_solver. split; [done|]. split; [done|set_solver].
Qed.

Lemma fmtname_spec path : fmtname path = padded (last_elem path).
Proof.
  unfold fmtname. rewrite (proj1 (name_start_spec path)). unfold padded. destruct (Nat.leb_spec DIRSIZ (length (last_elem path))); [|done].
  replace (DIRSIZ - length (last_elem path))%nat with 0%nat by lia. by rewrite app_nil_r.
Qed.

Lemma says_stat_line path st o u k : fd_obj (u_fd u) 1 = Some o → plain_out o →
  ∃ es, says (print_stat path st) u k tt es k ∧ all_written es = stat_line path st.
Proof. intros H1 Hp. unfold print_stat. rewrite fmtname_spec. by apply (says_putcs 1 _ o). Qed.

(** The files are as before, and so is the offset of [id]. *)
Definition kept (id : nat) (k k' : kernel) : Prop :=
  same_files k k' ∧ offset k' id = offset k id ∧ (k_next k ≤ k_next k')%nat.

Lemma ls_kept_trans id k1 k2 k3 : kept id k1 k2 → kept id k2 k3 → kept id k1 k3.
Proof. intros (H1 & H2 & H3) (H4 & H5 & H6). split_and!; [by eapply same_files_trans|congruence|lia]. Qed.

(** open() for reading on a table with the free slot [fd]. *)
Definition opened (t : table) (fd : nat) (k : kernel) (path : list Z) : Z * table * kernel :=
  let k1 := set_calls (S (k_calls k)) k in
  match k_dir k !! path with
  | None => (-1, t, k1)
  | Some O => (Z.of_nat fd, <[fd := Some Tty]> t, k1)
  | Some i => (Z.of_nat fd, <[fd := Some (File path 0 i (k_next k))]> t,
               set_off (<[k_next k := 0%nat]> (k_off k)) (set_next (S (k_next k)) k1))
  end.

Lemma open_file_opened t fd k path : free_slot t 0 = Some fd → (∀ i, k_luck k i = true) →
  open_file path 0 t k = opened t fd k path.
Proof.
  intros Hf Hl. unfold open_file, lucky, opened. rewrite Hf, Hl. cbn [k_dir set_calls].
  by destruct (k_dir k !! path) as [[|i]|].
Qed.

Lemma empty_events {A} (x : list event * kernel * final A) :
  (let '(e, k, r) := (let '(e, k, r) := (let '(e, k, r) := x in ([] ++ e, k, r)) in ([] ++ e, k, r)) in ([] ++ e, k, r)) =
  (let '(e, k, r) := x in ([] ++ e, k, r)).
Proof. by destruct x as [[e k] r]. Qed.

Lemma says_stat t kids fd o k path id : free_slot t 0 = Some fd → fd_obj t 1 = Some o →
  (∀ i, k_luck k i = true) → (id < k_next k)%nat →
  ∃ k', says (stat path) (UProc t kids) k (stat_of k path) [] k' ∧ kept id k k'.
Proof.
  intros Hf H1 Hl Hid.
  assert (Hc : ∀ ob, fd_obj (<[fd := Some ob]> t) (Z.of_nat fd) = Some ob ∧
                     close_fd (<[fd := Some ob]> t) (Z.of_nat fd) = t).
  { intros ob. by destruct (slot_facts t fd o ob Hf H1) as (H & _ & H'). }
  exists (opened t fd k path).2. split.
  - intros A f. unfold stat, stat_of. rewrite run_assoc, bind_sys. cbn [run do_call u_fd u_kids].
    change O_RDONLY with 0. rewrite (open_file_opened t fd k path Hf Hl). unfold opened.
    destruct (k_dir k !! path) as [[|i]|]; cbn [fst snd fmap option_fmap option_map].
    1, 2: destruct (Z.ltb_spec (Z.of_nat fd) 0); [lia|]; rewrite run_assoc, bind_sys; cbn [run do_call u_fd u_kids];
      rewrite (proj1 (Hc _)), run_assoc, bind_sys; cbn [run do_call u_fd u_kids];
      rewrite (proj2 (Hc _)); change (mret ?x ≫= f) with (f x).
    + exact (empty_events (run (f (Some (inode_stat k 0))) _ _)).
    + exact (empty_events (run (f (Some (inode_stat k (S i)))) _ _)).
    + change (-1 <? 0) with true. cbv iota. change (mret None ≫= f) with (f None). by destruct (run _ _ _) as [[? ?] ?].
  - unfold opened. destruct (k_dir k !! path) as [[|i]|]; cbn [snd]; split_and!; try done.
    + unfold offset. cbn [k_off set_off]. rewrite lookup_insert_ne by lia. done.
    + cbn. lia.
Qed.

Lemma entries_eq s : entries s = if (16 <=? length s)%nat then take 16 s :: entries (drop 16 s) else [].
Proof.
  unfold entries. destruct (Nat.leb_spec 16 (length s)) as [H|H].
  - rewrite length_drop. replace (length s / 16)%nat with (S ((length s - 16) / 16)); [done|].
    replace (length s) with (length s - 16 + 1 * 16)%nat at 2 by lia. rewrite Nat.div_add by lia. lia.
  - by rewrite Nat.div_small.
Qed.

Lemma stat_of_same k k' : same_files k k' → ∀ path, stat_of k' path = stat_of k path.
Proof.
  intros (Hd & Hdat & _ & Hk) path. unfold stat_of. rewrite Hd. destruct (k_dir k !! path) as [i|]; [|done]. simpl.
  unfold inode_stat, kind, contents. by rewrite Hdat, Hk.
Qed.

Lemma entry_text_same k k' path : same_files k k' → ∀ de, entry_text k' path de = entry_text k path de.
Proof. intros H de. unfold entry_text. by rewrite (stat_of_same k k' H). Qed.

(** One entry: what is printed for it and how the loop goes on. *)
Lemma says_entry t kids b o k path de id : free_slot t 0 = Some b → fd_obj t 1 = Some o → plain_out o →
  (∀ i, k_luck k i = true) → (id < k_next k)%nat → length de = 16%nat →
  ∃ es k', kept id k k' ∧ all_written es = entry_text k path de ∧
    ∀ (rest : prog unit) es2 k2, says rest (UProc t kids) k' tt es2 k2 →
      says (if de_inum de =? 0 then rest
            else st ← stat (de_path path de);
                 match (st : option ustat) with
                 | None => _ ← printf 1 (ln_ "ls: cannot stat %s") [inr (de_path path de)]; rest
                 | Some st => _ ← print_stat (de_path path de) st; rest
                 end) (UProc t kids) k tt (es ++ es2) k2.
Proof.
  intros Hf H1 Hp Hl Hid Hde. unfold entry_text. destruct (de_inum de =? 0).
  { exists [], k. split; [done|]. by split. }
  destruct (says_stat t kids b o k (de_path path de) id Hf H1 Hl Hid) as (k' & Hs & Hk).
  destruct (stat_of k (de_path path de)) as [st|] eqn:E.
  - destruct (says_stat_line (de_path path de) st o (UProc t kids) k' H1 Hp) as (es & Hw & He).
    exists ([] ++ es), k'. split; [done|]. split; [done|]. intros rest es2 k2 Hr. rewrite <- app_assoc.
    eapply says_bind; [exact Hs|]. cbv beta iota. eapply says_bind; [exact Hw|exact Hr].
  - destruct (says_putcs 1 (format (ln_ "ls: cannot stat %s") [inr (de_path path de)]) o (UProc t kids) k' H1 Hp)
      as (es & Hw & He).
    exists ([] ++ es), k'. split; [done|]. split; [done|]. intros rest es2 k2 Hr. rewrite <- app_assoc.
    eapply says_bind; [exact Hs|]. cbv beta iota. eapply says_bind; [exact Hw|exact Hr].
Qed.

Lemma says_entries path fd t kids p i id o b : fd_obj t fd = Some (File p 0 i id) → fd_obj t 1 = Some o →
  plain_out o → free_slot t 0 = Some b → ∀ fuel k, (∀ i, k_luck k i = true) → (id < k_next k)%nat →
  (length (remaining k i id) < 16 * fuel)%nat →
  ∃ es k', says (entries_loop fuel fd path) (UProc t kids) k tt es k' ∧ same_files k k' ∧
    all_written es = entries (remaining k i id) ≫= entry_text k path.
Proof.
  intros Ho H1 Hp Hf fuel. induction fuel as [|fuel IH]; intros k Hl Hid Hlen; [lia|].
  destruct (says_read 16 fd (UProc t kids) k p 0 i id Ho eq_refl) as (k1 & Hr & Hs1 & Hrest & Hn1).
  rewrite entries_eq. destruct (Nat.leb_spec 16 (length (remaining k i id))) as [H|H].
  - assert (Hl1 : ∀ i, k_luck k1 i = true) by (destruct Hs1 as (_ & _ & -> & _); exact Hl).
    destruct (says_entry t kids b o k1 path (take 16 (remaining k i id)) id Hf H1 Hp Hl1 ltac:(lia))
      as (es & k2 & (Hk2 & Hoff & Hn2) & Hw & Hgo); [rewrite length_take; lia|].
    assert (Hrem : remaining k2 i id = drop 16 (remaining k i id)).
    { rewrite <- Hrest. unfold remaining. rewrite Hoff. f_equal. destruct Hk2 as (_ & Hdat & _). unfold contents. by rewrite Hdat. }
    destruct (IH k2) as (es2 & k3 & Hs & Hk3 & Hw2); [| |rewrite Hrem, length_drop; lia|].
    { destruct Hk2 as (_ & _ & -> & _). exact Hl1. }
    { lia. }
    exists ([] ++ es ++ es2), k3. split_and!.
    + eapply says_bind; [exact Hr|]. cbv beta iota. rewrite length_take, Nat.min_l by lia.
      change ((16 =? 16)%nat) with true. cbv iota. by apply Hgo.
    + eapply same_files_trans; [exact Hs1|]. by eapply same_files_trans.
    + cbn [app mbind list_bind]. rewrite all_written_app, Hw, Hw2, Hrem, (entry_text_same k k1 path Hs1). f_equal.
      apply list_bind_ext; [|done]. intros de. rewrite (entry_text_same k1 k2 path Hk2). by apply entry_text_same.
  - exists ([] ++ []), k1. split_and!; [|apply Hs1..|done].
    eapply says_bind; [exact Hr|]. cbv beta iota. rewrite length_take, Nat.min_r by lia.
    destruct (Nat.eqb_spec (length (remaining k i id)) 16); [lia|apply says_ret].
Qed.

(** What ls does with a descriptor it has opened. *)
Definition ls_body (fuel : nat) (fd : Z) (path : list Z) (st : ustat) : prog unit :=
  if us_type st =? T_FILE then print_stat path st
  else if us_type st =? T_DIR then
    if (512 <? length path + 1 + DIRSIZ + 1)%nat then printf 1 (ln_ "ls: path too long") []
    else entries_loop fuel fd path
  else mret tt.

Lemma says_ls_body fuel fd path t kids k i id o b p : fd_obj t fd = Some (File p 0 i id) →
  fd_obj t 1 = Some o → plain_out o → free_slot t 0 = Some b → (∀ i, k_luck k i = true) → (id < k_next k)%nat →
  remaining k i id = contents k i → (length (contents k i) < 16 * fuel)%nat → k_dir k !! path = Some i →
  ∃ es k', says (ls_body fuel fd path (inode_stat k i)) (UProc t kids) k tt es k' ∧ same_files k k' ∧
    all_written es = ls_text k path.
Proof.
  intros Ho H1 Hp Hf Hl Hid Hr Hlen Hd. unfold ls_body, ls_text. rewrite Hd. cbn [us_type inode_stat].
  destruct (kind k i =? T_FILE).
  { destruct (says_stat_line path (inode_stat k i) o (UProc t kids) k H1 Hp) as (es & Hw & He). by exists es, k. }
  destruct (kind k i =? T_DIR); [|exists [], k; split; [apply says_ret|done]].
  destruct (512 <? length path + 1 + DIRSIZ + 1)%nat.
  { destruct (says_putcs 1 (format (ln_ "ls: path too long") []) o (UProc t kids) k H1 Hp) as (es & Hw & He). by exists es, k. }
  rewrite <- Hr in *. by apply (says_entries path fd t kids p i id o b).
Qed.

(** Closing the descriptor gives back the table. *)
Lemma run_close t kids fd o ob k A (f : unit → prog A) : free_slot t 0 = Some fd → fd_obj t 1 = Some o →
  run ((_ ← sys (Cclose (Z.of_nat fd)); mret tt) ≫= f) (UProc (<[fd := Some ob]> t) kids) k =
  let '(e, k2, r) := run (f tt) (UProc t kids) k in ([] ++ e, k2, r).
Proof.
  intros Hf H1. destruct (slot_facts t fd o ob Hf H1) as (_ & _ & Hc).
  rewrite run_assoc, bind_sys. cbn [run do_call u_fd u_kids]. by rewrite Hc.
Qed.

Lemma ls_run fuel path t kids fd o ob k k1 st es k2 : free_slot t 0 = Some fd → fd_obj t 1 = Some o →
  open_file path 0 t k = (Z.of_nat fd, <[fd := Some ob]> t, k1) →
  do_call (Cfstat (Z.of_nat fd)) (UProc (<[fd := Some ob]> t) kids) k1 = (Some st, UProc (<[fd := Some ob]> t) kids, k1, []) →
  says (ls_body fuel (Z.of_nat fd) path st) (UProc (<[fd := Some ob]> t) kids) k1 tt es k2 →
  says (ls fuel path) (UProc t kids) k tt es k2.
Proof.
  intros Hf H1 Ho Hst Hb A f. unfold ls. rewrite run_assoc, bind_sys. cbn [run do_call u_fd u_kids]. rewrite Ho.
  destruct (Z.ltb_spec (Z.of_nat fd) 0); [lia|]. rewrite run_assoc, bind_sys, run_sys, Hst. fold (ls_body fuel (Z.of_nat fd) path st).
  rewrite run_assoc, Hb, (run_close t kids fd o ob k2 A f Hf H1). by destruct (run (f tt) _ _) as [[e k3] r].
Qed.

(** A process with two free descriptors and its outputs, and a kernel that refuses nothing. *)
Record ls_ready (t : table) (k : kernel) : Prop := LsReady {
  lr_slot : ∃ fd, free_slot t 0 = Some fd ∧ ∀ ob, ∃ b, free_slot (<[fd := Some ob]> t) 0 = Some b;
  lr_out : ∃ o, fd_obj t 1 = Some o ∧ plain_out o;
  lr_err : ∃ o, fd_obj t 2 = Some o ∧ plain_out o;
  lr_luck : ∀ i, k_luck k i = true
}.

(** The rounds that reach the end of the directory, if it is one. *)
Definition ls_fuel (fuel : nat) (k : kernel) (path : list Z) : Prop :=
  ∀ i, k_dir k !! path = Some i → (length (contents k i) < 16 * fuel)%nat.

Lemma ls_text_same k k' : same_files k k' → ∀ path, ls_text k' path = ls_text k path.
Proof.
  intros H path. unfold ls_text. pose proof H as (Hd & Hdat & _ & Hk). rewrite Hd.
  destruct (k_dir k !! path) as [i|]; [|done].
  assert (Ek : kind k' i = kind k i) by (unfold kind; by rewrite Hk).
  assert (Ec : contents k' i = contents k i) by (unfold contents; by rewrite Hdat).
  unfold inode_stat. rewrite Ek, Ec. destruct (kind k i =? T_FILE); [done|]. destruct (kind k i =? T_DIR); [|done].
  destruct (512 <? _)%nat; [done|]. apply list_bind_ext; [|done]. intros de. by apply entry_text_same.
Qed.

Lemma says_ls fuel path t kids k : ls_ready t k → ls_fuel fuel k path →
  ∃ es k', says (ls fuel path) (UProc t kids) k tt es k' ∧ same_files k k' ∧ all_written es = ls_text k path.
Proof.
  intros [(fd & Hf & Hb) (o & H1 & Hp) (o2 & H2 & Hp2) Hl] Hfuel. pose proof (open_file_opened t fd k path Hf Hl) as Hop.
  unfold opened in Hop. destruct (k_dir k !! path) as [[|i]|] eqn:E.
  - destruct (slot_facts t fd o Tty Hf H1) as (Hfd & _ & _). set (k1 := set_calls (S (k_calls k)) k) in *.
    exists [], k1. split; [|split; [done|unfold ls_text; by rewrite E]].
    apply (ls_run fuel path t kids fd o Tty k k1 (inode_stat k1 0) [] k1 Hf H1 Hop); [|apply says_ret].
    cbn [do_call u_fd]. by rewrite Hfd.
  - set (ob := File path 0 (S i) (k_next k)) in *. destruct (slot_facts t fd o ob Hf H1) as (Hfd & Hone & _).
    destruct (Hb ob) as (b & Hb'). set (k1 := set_off _ _) in *.
    destruct (says_ls_body fuel (Z.of_nat fd) path (<[fd := Some ob]> t) kids k1 (S i) (k_next k) o b path Hfd Hone Hp Hb')
      as (es & k2 & Hs & Hk2 & Hw); try done; [cbn; lia| |by apply Hfuel|].
    { unfold remaining, offset. cbn [k_off k1 set_off]. by rewrite lookup_insert_eq. }
    exists es, k2. split; [|split; [done|]].
    + apply (ls_run fuel path t kids fd o ob k k1 (inode_stat k1 (S i)) es k2 Hf H1 Hop); [|exact Hs].
      cbn [do_call u_fd]. by rewrite Hfd.
    + rewrite Hw. by apply ls_text_same.
  - set (k1 := set_calls (S (k_calls k)) k) in *.
    destruct (says_putcs 2 (format (ln_ "ls: cannot open %s") [inr path]) o2 (UProc t kids) k1 H2 Hp2) as (es & Hw & He).
    exists ([] ++ es), k1. split; [|split; [done|unfold ls_text; by rewrite E]].
    eapply says_bind; [apply says_sys; cbn [do_call u_fd u_kids]; by rewrite Hop|]. exact Hw.
Qed.

Lemma says_each fuel args t kids : ∀ k, ls_ready t k → Forall (ls_fuel fuel k) args →
  ∃ es k', says (each fuel args) (UProc t kids) k tt es k' ∧ all_written es = args ≫= ls_text k.
Proof.
  induction args as [|a args IH]; intros k Hr Hf; [exists [], k; split; [apply says_ret|done]|].
  apply Forall_cons in Hf as [Ha Hf]. destruct (says_ls fuel a t kids k Hr Ha) as (e1 & k1 & Hs1 & Hk1 & Hw1).
  destruct (IH k1) as (e2 & k2 & Hs2 & Hw2).
  { destruct Hr as [? ? ? Hl]. split; try done. destruct Hk1 as (_ & _ & -> & _). exact Hl. }
  { eapply Forall_impl; [exact Hf|]. intros p Hp i. destruct Hk1 as (Hd & Hdat & _). unfold contents. rewrite Hd, Hdat. apply Hp. }
  exists (e1 ++ e2), k2. split; [by eapply says_bind|]. rewrite all_written_app, Hw1, Hw2. cbn [mbind list_bind].
  f_equal. apply list_bind_ext; [|done]. intros p. by apply ls_text_same.
Qed.

(** Ls prints, for each of its arguments in turn, or for the current directory if there
    are none: the line of name, type, inode number and size of a file; for a directory
    such a line for each of its entries that is in use, or that it cannot be opened;
    nothing for a device; and a message for a name that does not exist or is too long. *)
Theorem ls_lists (fuel : nat) (name : list Z) (args : list (list Z)) (t : table) (kids : list Z) (k : kernel) :
  let names := match args with [] => [bz "."] | _ => args end in
  ls_ready t k → Forall (ls_fuel fuel k) names →
  ∃ es k', run (A:=unit) (Ls.main fuel (name :: args)) (UProc t kids) k = (es, k', Ends) ∧
    all_written es = names ≫= ls_text k.
Proof.
  intros names Hr Hf. destruct (says_each fuel names t kids k Hr Hf) as (es & k' & Hs & Hw).
  exists es, k'. split; [|done]. destruct args as [|a args].
  - pose proof (Hs unit (λ _, Exit)) as H. cbn [run] in H. rewrite app_nil_r in H. rewrite <- H. symmetry. apply run_assoc.
  - pose proof (Hs unit (λ _, Exit)) as H. cbn [run] in H. by rewrite app_nil_r in H.
Qed.

(** A directory with a free entry, a file and a name that is gone; and the console. *)
Definition demo_dirent (inum : Z) (name : string) : list Z :=
  [inum; 0] ++ bz name ++ replicate (DIRSIZ - length (bz name)) 0.
Definition demo_ls : kernel :=
  Kernel {[bz "d" := 1%nat; bz "d/f" := 2%nat; bz "console" := 0%nat]}
    {[1%nat := demo_dirent 0 "old" ++ demo_dirent 2 "f" ++ demo_dirent 3 "gone"; 2%nat := bz "text"]} ∅ 4 0 2 []
    (λ _, false) (λ _, true) 0 {[1%nat := T_DIR]}.

Lemma demo_ls_ready : ls_ready demo_fds demo_ls.
Proof.
  split; [|by exists Tty|by exists Tty|done]. exists 3%nat. split; [done|]. intros ob. by exists 4%nat.
Qed.

Lemma demo_ls_fuel : Forall (ls_fuel 4 demo_ls) [bz "d"; bz "x"; bz "console"].
Proof.
  apply Forall_cons_2; [|apply Forall_cons_2; [|apply Forall_cons_2; [|apply Forall_nil_2]]]; intros i Hi; vm_compute in Hi; try done; injection Hi as <-; apply (bool_decide_unpack _); by vm_compute.
Qed.

Lemma ls_lists_witness : ∃ es k',
  run (A:=unit) (Ls.main 4 [bz "ls"; bz "d"; bz "x"; bz "console"]) (UProc demo_fds []) demo_ls = (es, k', Ends) ∧
  all_written es = ln_ "f              2 2 4" ++ ln_ "ls: cannot stat d/gone" ++ ln_ "ls: cannot open x".
Proof. exact (ls_lists 4 (bz "ls") [bz "d"; bz "x"; bz "console"] demo_fds [] demo_ls demo_ls_ready demo_ls_fuel). Defined.
