(* ===== verification/Utests.v ===== *)
(** * The other user programs: grep's main, forktest.c and stressfs.c

    grep() as a program writes what the loop of Grep.v collects; its buffer is a global
    array, which main passes from one file to the next.  forktest has a printf() of its
    own, which writes the format. *)

From stdpp Require Import base gmap list strings.
From Stdlib Require Import ZArith Lia.
From S2P Require Import Prelude Params Grep User Uprogs.

(** ** grep.c *)
Module Grepm.
(** while((q = strchr(p, '\n')) != 0): a line that matches is written. *)
Fixpoint lines (fuel : nat) (re buf : list Z) (p : nat) : prog (list Z * nat) :=
  match fuel with
  | O => mret (buf, p)
  | S f =>
    match strchr_nl (S BUFSZ) buf p with
    | None => mret (buf, p)
    | Some q =>
      let buf1 := <[q := 0]> buf in
      if match_re re (cstring (S BUFSZ) buf1 p) then
        let buf2 := <[q := NL]> buf1 in
        _ ← sys (Cwrite 1 (take (S q - p) (drop p buf2)));
        lines f re buf2 (S q)
      else lines f re buf1 (S q)
    end
  end.

(** while((n = read(fd, buf+m, sizeof(buf)-m)) > 0), from the buffer an earlier call left.
    A newline that an earlier read left behind the bytes read makes [m] negative; what
    the next read delivers then lies in front of the buffer, and the program is not
    followed further. *)
Fixpoint grep_loop (fuel : nat) (re : list Z) (fd : Z) (buf : list Z) (m : Z) : prog (list Z) :=
  match fuel with
  | O => Loops
  | S f =>
    r ← sys (Cread fd (Z.of_nat BUFSZ - m));
    match (r : option (list Z)) with
    | None | Some [] => mret buf
    | Some chunk =>
      if m <? 0 then Loops
      else
        let buf := splice buf (Z.to_nat m) chunk in
        let m := m + Z.of_nat (length chunk) in
        x ← lines (S BUFSZ) re buf 0;
        let '(buf, p) := (x : list Z * nat) in
        let m := if (p =? 0)%nat then 0 else m in
        if 0 <? m then
          let m := m - Z.of_nat p in
          grep_loop f re fd (splice buf 0 (take (Z.to_nat m) (drop p buf))) m
        else grep_loop f re fd buf m
    end
  end.

Fixpoint each (fuel : nat) (re : list Z) (buf : list Z) (files : list (list Z)) : prog unit :=
  match files with
  | [] => Exit
  | a :: files =>
    fd ← sys (Copen a 0);
    if fd <? 0 then _ ← printf 1 (ln_ "grep: cannot open %s") [inr a]; Exit
    else
      buf ← grep_loop fuel re fd buf 0;
      _ ← sys (Cclose fd);
      each fuel re buf files
  end.

Definition main (fuel : nat) (argv : list (list Z)) : prog unit :=
  let buf := replicate BUFSZ 0 in
  match argv with
  | [] | [_] => _ ← printf 2 (ln_ "usage: grep pattern [file ...]") []; Exit
  | [_; re] => _ ← grep_loop fuel re 0 buf 0; Exit
  | _ :: re :: files => each fuel re buf files
  end.
End Grepm.

(** ** forktest.c *)
Module Forktest.
Definition N : nat := 1000.
Definition print (fd : Z) (s : list Z) : prog unit := _ ← sys (Cwrite fd s); mret tt.

(** for(n=0; n<N; n++), with [rem] rounds left; the child exits. *)
Fixpoint fork_loop (rem n : nat) : prog nat :=
  match rem with
  | O => mret n
  | S rem =>
    pid ← fork;
    if pid <? 0 then mret n else if pid =? 0 then Exit else fork_loop rem (S n)
  end.

Fixpoint wait_loop (n : nat) : prog unit :=
  match n with
  | O => mret tt
  | S n =>
    r ← sys Cwait;
    if r <? 0 then _ ← print 1 (ln_ "wait stopped early"); Exit else wait_loop n
  end.

Definition forktest : prog unit :=
  _ ← print 1 (ln_ "fork test");
  n ← fork_loop N 0;
  if (n =? N)%nat then _ ← print 1 (ln_ "fork claimed to work N times!"); Exit
  else
    _ ← wait_loop n;
    r ← sys Cwait;
    if negb (r =? -1) then _ ← print 1 (ln_ "wait got too many"); Exit
    else print 1 (ln_ "fork test OK").

Definition main : prog unit := _ ← forktest; Exit.
End Forktest.

(** ** stressfs.c *)
Module Stressfs.
Definition data : list Z := replicate 512 97.

(** for(i = 0; i < 4; i++) if(fork() > 0) break; *)
Fixpoint fork_loop (rem : nat) (i : Z) : prog Z :=
  match rem with
  | O => mret i
  | S rem =>
    pid ← fork;
    if 0 <? pid then mret i else fork_loop rem (i + 1)
  end.

(** path[8] += i *)
Definition path (i : Z) : list Z := bz "stressfs" ++ [48 + i].

Fixpoint write_loop (n : nat) (fd : Z) : prog unit :=
  match n with
  | O => mret tt
  | S n => _ ← sys (Cwrite fd data); write_loop n fd
  end.
Fixpoint read_loop (n : nat) (fd : Z) : prog unit :=
  match n with
  | O => mret tt
  | S n => _ ← sys (Cread fd 512); read_loop n fd
  end.

Definition main : prog unit :=
  _ ← printf 1 (ln_ "stressfs starting") [];
  i ← fork_loop 4 0;
  _ ← printf 1 (ln_ "write %d") [inl i];
  fd ← sys (Copen (path i) (Z.lor O_CREATE O_RDWR));
  _ ← write_loop 20 fd;
  _ ← sys (Cclose fd);
  _ ← printf 1 (ln_ "read") [];
  fd ← sys (Copen (path i) O_RDONLY);
  _ ← read_loop 20 fd;
  _ ← sys (Cclose fd);
  _ ← sys Cwait;
  Exit.
End Stressfs.

(** ** What grep writes *)

Lemma strchr_nl_lt fuel buf p q : strchr_nl fuel buf p = Some q → (q < length buf)%nat.
Proof.
  revert p. induction fuel as [|fuel IH]; intros p; cbn [strchr_nl]; [done|].
  destruct (Z.eqb_spec (buf.[p]) 0) as [|Hz]; [done|]. destruct (buf.[p] =? NL); [|apply IH]. intros [= <-].
  destruct (Nat.lt_ge_cases p (length buf)) as [|Hge]; [done|]. unfold nthz in Hz. by rewrite lookup_ge_None_2 in Hz.
Qed.

Lemma says_lines re o u k : fd_obj (u_fd u) 1 = Some o → plain_out o → ∀ fuel buf p, (p ≤ length buf)%nat →
  ∃ buf' p' es, says (Grepm.lines fuel re buf p) u k (buf', p') es k ∧ length buf' = length buf ∧ (p' ≤ length buf)%nat ∧
    ∀ out, grep_lines fuel re buf p out = (buf', p', out ++ all_written es).
Proof.
  intros H1 Hp fuel. induction fuel as [|fuel IH]; intros buf p Hb.
  { exists buf, p, []. split_and!; [apply says_ret|done|done|]. intros out. by rewrite app_nil_r. }
  cbn [Grepm.lines grep_lines]. destruct (strchr_nl (S BUFSZ) buf p) as [q|] eqn:E.
  2: { exists buf, p, []. split_and!; [apply says_ret|done|done|]. intros out. by rewrite app_nil_r. }
  apply strchr_nl_lt in E. destruct (match_re re (cstring (S BUFSZ) (<[q:=0]> buf) p)).
  - destruct (IH (<[q:=NL]> (<[q:=0]> buf)) (S q)) as (b & p' & es & Hs & Hl & Hp' & Ho);
      rewrite ?length_insert in *; [lia|].
    set (line := take (S q - p) (drop p (<[q:=NL]> (<[q:=0]> buf)))) in *.
    exists b, p', ([Wrote o line] ++ es). split_and!; [|done|done|].
    + eapply says_bind; [by apply says_write|exact Hs].
    + intros out. rewrite Ho, all_written_app, <- app_assoc. f_equal. f_equal. unfold all_written at 2, written. simpl. by rewrite app_nil_r.
  - destruct (IH (<[q:=0]> buf) (S q)) as (b & p' & es & Hs & Hl & Hp' & Ho); rewrite ?length_insert in *; [lia|].
    by exists b, p', es.
Qed.

(** What the loop goes on with after [p] bytes of the [m] in the buffer are dealt with. *)
Definition moved (buf : list Z) (m : Z) (p : nat) : list Z * Z :=
  if (p =? 0)%nat then (buf, 0) else (splice buf 0 (take (Z.to_nat (m - Z.of_nat p)) (drop p buf)), m - Z.of_nat p).

Lemma moved_length buf m p : length (moved buf m p).1 = length buf.
Proof.
  unfold moved. destruct (p =? 0)%nat; [done|]. cbn [fst]. apply length_splice. rewrite length_take, length_drop. lia.
Qed.

(** One round on a file: the bytes read, and the rest with what is moved. *)
Lemma grep_round re file buf m chunk fuel b p out es : 0 ≤ m → chunk = take (BUFSZ - Z.to_nat m) file → chunk ≠ [] →
  grep_lines (S BUFSZ) re (splice buf (Z.to_nat m) chunk) 0 out = (b, p, out ++ es) →
  let '(b', m') := moved b (m + Z.of_nat (length chunk)) p in
  grep_loop (S fuel) re file buf (Z.to_nat m) out = grep_loop fuel re (drop (length chunk) file) b' (Z.to_nat m') (out ++ es).
Proof.
  intros Hm Hc Hne Hl. cbn [grep_loop]. rewrite <- Hc. destruct (Nat.eqb_spec (length chunk) 0) as [E|Hz];
    [by apply length_zero_iff_nil in E|]. rewrite Hl. unfold moved. destruct (p =? 0)%nat; [done|].
  destruct (Nat.ltb_spec 0 (Z.to_nat m + length chunk)) as [|]; [|lia].
  replace (Z.to_nat m + length chunk - p)%nat with (Z.to_nat (m + Z.of_nat (length chunk) - Z.of_nat p)) by lia. done.
Qed.

Lemma says_grep_round re fd u fuel k k1 k2 buf buf' m chunk b p e1 e2 : 0 ≤ m → chunk ≠ [] →
  says (sys (Cread fd (Z.of_nat BUFSZ - m))) u k (Some chunk) [] k1 →
  says (Grepm.lines (S BUFSZ) re (splice buf (Z.to_nat m) chunk) 0) u k1 (b, p) e1 k1 →
  (let '(b', m') := moved b (m + Z.of_nat (length chunk)) p in says (Grepm.grep_loop fuel re fd b' m') u k1 buf' e2 k2) →
  says (Grepm.grep_loop (S fuel) re fd buf m) u k buf' ([] ++ e1 ++ e2) k2.
Proof.
  intros Hm Hne Hr Hl Hrest. cbn [Grepm.grep_loop]. eapply says_bind; [exact Hr|]. cbv beta iota.
  destruct chunk as [|c chunk]; [done|]. destruct (Z.ltb_spec m 0); [lia|]. eapply says_bind; [exact Hl|]. cbv beta iota zeta.
  unfold moved in Hrest. destruct (p =? 0)%nat; [exact Hrest|].
  destruct (Z.ltb_spec 0 (m + Z.of_nat (length (c :: chunk)))) as [|E]; [exact Hrest|cbn [length] in E; lia].
Qed.

Lemma says_grep_loop re fd u p i id o : fd_obj (u_fd u) fd = Some (File p 0 i id) → fd_obj (u_fd u) 1 = Some o →
  plain_out o → ∀ fuel k buf m, length buf = BUFSZ → m ≤ Z.of_nat BUFSZ → (0 ≤ m ∨ remaining k i id = []) →
  (length (remaining k i id) < fuel)%nat →
  ∃ buf' es k', says (Grepm.grep_loop fuel re fd buf m) u k buf' es k' ∧ same_files k k' ∧
    ∀ out, grep_loop fuel re (remaining k i id) buf (Z.to_nat m) out = Some (out ++ all_written es).
Proof.
  intros Ho H1 Hp fuel. induction fuel as [|fuel IH]; intros k buf m Hb Hm Hr Hf; [lia|].
  set (s := remaining k i id) in *. set (n := Z.to_nat (Z.of_nat BUFSZ - m)).
  destruct (says_read n fd u k p 0 i id Ho eq_refl) as (k1 & Hrd & Hs1 & Hrest & _). fold s in Hrd, Hrest.
  replace (Z.of_nat n) with (Z.of_nat BUFSZ - m) in Hrd by lia.
  assert (Hch : take (BUFSZ - Z.to_nat m) s = take n s).
  { destruct Hr as [Hr| ->]; [f_equal; unfold n; lia|by rewrite !take_nil]. }
  set (chunk := take n s) in *. destruct (Nat.eqb_spec (length chunk) 0) as [Hz|Hz].
  { exists buf, ([] ++ []), k1. split_and!; [|apply Hs1..|].
    - eapply says_bind; [exact Hrd|]. destruct chunk; [apply says_ret|done].
    - intros out. cbn [grep_loop]. by rewrite Hch, Hz, app_nil_r. }
  assert (Hm0 : 0 ≤ m). { destruct Hr as [?|E]; [done|]. unfold chunk in Hz. by rewrite E, take_nil in Hz. }
  assert (Hcl : (length chunk ≤ n ∧ length chunk ≤ length s)%nat) by (unfold chunk; rewrite length_take; lia).
  assert (Hn : (n = BUFSZ - Z.to_nat m)%nat) by (unfold n; lia).
  assert (Hb1 : length (splice buf (Z.to_nat m) chunk) = BUFSZ) by (rewrite length_splice; lia).
  destruct (says_lines re o u k1 H1 Hp (S BUFSZ) (splice buf (Z.to_nat m) chunk) 0 ltac:(lia)) as (b & q & e1 & Hl & Hb2 & Hq & Hg).
  assert (Hrest' : drop (length chunk) s = remaining k1 i id).
  { rewrite Hrest. unfold chunk. rewrite length_take. destruct (Nat.le_gt_cases n (length s)); [by rewrite Nat.min_l|].
    rewrite Nat.min_r by lia. by rewrite !drop_ge by lia. }
  pose proof (grep_round re s buf m chunk fuel b q) as Hround.
  pose proof (says_grep_round re fd u fuel k k1) as Hsays.
  pose proof (moved_length b (m + Z.of_nat (length chunk)) q) as Hbl.
  destruct (moved b (m + Z.of_nat (length chunk)) q) as [b' m'] eqn:Em.
  assert (Hne : chunk ≠ []) by (by intros E; rewrite E in Hz).
  assert (Hm' : m' ≤ Z.of_nat BUFSZ ∧ (0 ≤ m' ∨ remaining k1 i id = [])).
  { rewrite <- Hrest'. unfold moved in Em. destruct (q =? 0)%nat; injection Em as _ <-; [lia|]. split; [lia|].
    destruct (Nat.lt_ge_cases (length chunk) n) as [Hlt|]; [right|left; lia].
    apply drop_ge. unfold chunk in Hlt |- *. rewrite length_take in Hlt |- *. lia. }
  destruct (IH k1 b' m') as (buf' & e2 & k2 & Hs & Hk2 & Hgl); [cbn [fst] in Hbl; lia|apply Hm'|apply Hm'| |].
  { rewrite <- Hrest', length_drop. lia. }
  exists buf', ([] ++ e1 ++ e2), k2. split_and!.
  - eapply (Hsays k2 buf buf' m chunk b q); [done|done|exact Hrd|exact Hl|]. rewrite Em. exact Hs.
  - by eapply same_files_trans.
  - intros out. rewrite <- Hn in Hround. cbv iota in Hround. rewrite (Hround out (all_written e1) Hm0 eq_refl Hne (Hg out)), Hrest', Hgl.
    cbn [app]. by rewrite all_written_app, app_assoc.
Qed.

(** grep with a file: the program that opens the file, reads it in pieces and writes the
    lines writes exactly what the loop of grep() gives for the contents of the file. *)
Lemma grep_run (name re a : list Z) (t : table) (kids : list Z) (o : obj) (fd : nat) (k : kernel) :
  free_slot t 0 = Some fd → fd_obj t 1 = Some o → plain_out o → (∀ i, k_luck k i = true) → Uprogs.is_file k a → ∀ s, file_contents k a = s →
  ∃ es k', run (Grepm.main (S (S (length s))) [name; re; a]) (UProc t kids) k = (es, k', Ends) ∧
    grep re s = Some (all_written es).
Proof.
  intros Hf H1 Hp Hl [i Hi] s Hcs. unfold file_contents in Hcs. rewrite Hi in Hcs.
  set (k1 := set_off (<[k_next k := 0%nat]> (k_off k)) (set_next (S (k_next k)) (set_calls (S (k_calls k)) k))).
  set (ob := File a 0 (S i) (k_next k)). destruct (slot_facts t fd o ob Hf H1) as (Hfd & Hone & Hclose).
  assert (Hr : remaining k1 (S i) (k_next k) = s).
  { unfold remaining, offset. cbn [k_off k1 set_off]. by rewrite lookup_insert_eq. }
  destruct (says_grep_loop re (Z.of_nat fd) (UProc (<[fd := Some ob]> t) kids) a (S i) (k_next k) o Hfd Hone Hp
    (S (S (length s))) k1 (replicate BUFSZ 0) 0) as (buf & es & k2 & Hs & Hk & Hg);
    [apply length_replicate|lia|lia|rewrite Hr; lia|]. rewrite Hr in Hg.
  exists es, k2. split; [|exact (Hg [])].
  cbn [Grepm.main Grepm.each]. rewrite bind_sys. cbn [run do_call u_fd u_kids]. unfold open_file, lucky.
  rewrite Hf, Hl. cbn [k_dir set_calls]. rewrite Hi. fold k1 ob. destruct (Z.ltb_spec (Z.of_nat fd) 0); [lia|].
  rewrite Hs, bind_sys. cbn [run do_call u_fd u_kids]. by rewrite !app_nil_r.
Qed.

(** Grep as a user runs it: with a pattern and a file of fewer than 1024 bytes, none of
    them zero, the program opens the file, writes exactly the lines that match, in their
    order and with their newlines, and ends; what follows the last newline is not a line. *)
Theorem grep_finds_lines (name re a : list Z) (t : table) (kids : list Z) (o : obj) (fd : nat) (k : kernel)
    (ls : list (list Z)) (tl : list Z) :
  free_slot t 0 = Some fd → fd_obj t 1 = Some o → plain_out o → (∀ i, k_luck k i = true) → Uprogs.is_file k a →
  Forall plain ls → plain tl → file_contents k a = flat ls ++ tl → (length (flat ls ++ tl) < BUFSZ)%nat →
  ∃ es k', run (Grepm.main (S (S (length (flat ls ++ tl)))) [name; re; a]) (UProc t kids) k = (es, k', Ends) ∧
    all_written es = flat (filter (λ l, match_re re l = true) ls).
Proof.
  intros Hf H1 Hp Hl Hi Hls Htl Hc Hlen.
  destruct (grep_run name re a t kids o fd k Hf H1 Hp Hl Hi _ Hc) as (es & k' & Hr & Hg).
  exists es, k'. split; [exact Hr|]. rewrite (grep_prints_matches re ls tl Hls Htl Hlen) in Hg. by injection Hg.
Qed.

Lemma grep_finds_lines_witness : ∃ es k',
  run (Grepm.main 12 [bz "grep"; bz "w.r"; bz "f"]) (UProc demo_fds [])
    (Kernel {[bz "f" := 1%nat]} {[1%nat := flat [bz "two"; bz "words"] ++ []]} ∅ 3 0 2 [] (λ _, false) (λ _, true) 0 ∅)
    = (es, k', Ends) ∧
  all_written es = flat [bz "words"].
Proof.
  apply (grep_finds_lines (bz "grep") (bz "w.r") (bz "f") demo_fds [] Tty 3 _ [bz "two"; bz "words"] []); try done.
  - by exists 0%nat.
  - repeat constructor; done.
  - repeat constructor.
  - apply (bool_decide_unpack _). by vm_compute.
Defined.

(** Typed at the console, a short line after a long one: grep prints the end of the long
    line again, and would read the next line to 5 bytes in front of its buffer. *)
Theorem grep_underflow : ∃ es k',
  run (Grepm.main 10 [bz "grep"; bz "a"]) (UProc demo_fds [])
    (Kernel ∅ ∅ ∅ 1 0 2 (ln_ "baaaaaa" ++ ln_ "ba" ++ ln_ "ba") (λ _, false) (λ _, true) 0 ∅) = (es, k', Out) ∧
  all_written es = ln_ "baaaaaa" ++ ln_ "ba" ++ ln_ "aaaa".
Proof. eexists _, _. split; [by vm_compute|by vm_compute]. Qed.

(** ** What forktest tells *)

Lemma moves_print fd s o u k : fd_obj (u_fd u) fd = Some o → plain_out o →
  moves (Forktest.print fd s) u k tt u [Wrote o s] k.
Proof.
  intros Ho Hp. change [Wrote o s] with ([Wrote o s] ++ []). eapply moves_bind; [|apply moves_ret].
  exact (says_write fd s o u k Ho Hp).
Qed.

(** The kernel after [n] forks, and the children. *)
Definition after_forks (n : nat) (k : kernel) : kernel := set_kpid (k_pid k + Z.of_nat n) (set_calls (k_calls k + n) k).
Definition child_pids (k : kernel) (n : nat) : list Z := (λ i, k_pid k + Z.of_nat i) <$> seq 0 n.

Lemma fork_once t kids k rem n A (f : nat → prog A) : k_luck k (k_calls k) = true → 0 < k_pid k →
  run (Forktest.fork_loop (S rem) n ≫= f) (UProc t kids) k =
  run (Forktest.fork_loop rem (S n) ≫= f) (UProc t (kids ++ [k_pid k])) (after_forks 1 k).
Proof.
  intros Hl Hp. cbn [Forktest.fork_loop]. unfold fork. cbn [mbind prog_bind prog_bind' run].
  unfold lucky. rewrite Hl. cbn [k_pid set_calls]. cbn [Z.ltb Z.compare Z.eqb prog_bind' run].
  destruct (Z.ltb_spec (k_pid k) 0); [lia|]. destruct (Z.eqb_spec (k_pid k) 0); [lia|].
  unfold after_forks. rewrite Nat.add_1_r. unfold mbind, prog_bind. cbn [app].
  by destruct (run _ _ _) as [[e k2] r].
Qed.

Lemma child_pids_S k n : child_pids k (S n) = k_pid k :: child_pids (after_forks 1 k) n.
Proof.
  unfold child_pids. cbn [seq fmap list_fmap]. f_equal; [lia|]. rewrite <- fmap_S_seq, <- list_fmap_compose.
  apply list_fmap_ext. intros i x _. cbn. lia.
Qed.

Lemma after_forks_S m k : after_forks m (after_forks 1 k) = after_forks (S m) k.
Proof.
  unfold after_forks. cbn [k_pid k_calls set_kpid set_calls]. replace (k_calls k + 1 + m)%nat with (k_calls k + S m)%nat by lia.
  by replace (k_pid k + Z.of_nat 1 + Z.of_nat m) with (k_pid k + Z.of_nat (S m)) by lia.
Qed.

Lemma forks_run t m : ∀ kids k rem n A (f : nat → prog A), (∀ i, (i < m)%nat → k_luck k (k_calls k + i) = true) →
  0 < k_pid k →
  run (Forktest.fork_loop (m + rem) n ≫= f) (UProc t kids) k =
  run (Forktest.fork_loop rem (n + m) ≫= f) (UProc t (kids ++ child_pids k m)) (after_forks m k).
Proof.
  induction m as [|m IH]; intros kids k rem n A f Hl Hp.
  - unfold child_pids, after_forks. cbn [seq fmap list_fmap]. rewrite app_nil_r, !Nat.add_0_r, Z.add_0_r. by destruct k.
  - cbn [Nat.add]. rewrite fork_once; [|specialize (Hl 0%nat ltac:(lia)); by rewrite Nat.add_0_r in Hl|done].
    rewrite IH; [|intros i Hi; specialize (Hl (S i) ltac:(lia)); cbn; by replace (k_calls k + 1 + i)%nat with (k_calls k + S i)%nat by lia|cbn; lia].
    rewrite child_pids_S, <- app_assoc. cbn [app]. rewrite <- Nat.add_succ_comm, after_forks_S. done.
Qed.

Lemma waits_move t kids k : (∀ p, p ∈ kids → 0 ≤ p) →
  ∃ es, moves (Forktest.wait_loop (length kids)) (UProc t kids) k tt (UProc t []) es k ∧ all_written es = [].
Proof.
  induction kids as [|p kids IH]; intros Hp; [exists []; split; [apply moves_ret|done]|].
  destruct (IH ltac:(set_solver)) as (es & Hm & Hw). exists ([Waited t] ++ es). split; [|done].
  eapply moves_bind; [by apply moves_sys|]. destruct (Z.ltb_spec p 0); [|exact Hm].
  pose proof (Hp p ltac:(set_solver)). lia.
Qed.

(** The loop of forks, the [m]-th of which is the first to fail if there are fewer than N. *)
Lemma fork_loop_run t k m A (f : nat → prog A) : 0 < k_pid k → (m ≤ Forktest.N)%nat →
  (∀ i, (i < m)%nat → k_luck k (k_calls k + i) = true) → ((m < Forktest.N)%nat → k_luck k (k_calls k + m) = false) →
  ∃ k1, run (Forktest.fork_loop Forktest.N 0 ≫= f) (UProc t []) k = run (f m) (UProc t (child_pids k m)) k1.
Proof.
  generalize Forktest.N. intros N Hpid Hm Hl Hf.
  assert (Hn : Forktest.fork_loop N 0 = Forktest.fork_loop (m + (N - m)) 0) by (f_equal; lia). rewrite Hn.
  rewrite forks_run by done. cbn [Nat.add app]. destruct (N - m)%nat as [|r] eqn:E; [by exists (after_forks m k)|].
  exists (set_calls (S (k_calls (after_forks m k))) (after_forks m k)). cbn [Forktest.fork_loop]. unfold fork.
  cbn [mbind prog_bind prog_bind' run]. unfold lucky. cbn [k_luck k_calls after_forks set_kpid set_calls].
  by rewrite Hf by lia.
Qed.

(** Forktest.  If the m-th fork after fewer than 1000 is the first to fail, forktest waits
    for exactly the m children it has made, finds that there are no more, and says so; if
    none of 1000 fails, it says that instead. *)
Theorem forktest_tells (t : table) (o : obj) (k : kernel) (m : nat) : fd_obj t 1 = Some o → plain_out o → 0 < k_pid k →
  (m ≤ Forktest.N)%nat → (∀ i, (i < m)%nat → k_luck k (k_calls k + i) = true) →
  ((m < Forktest.N)%nat → k_luck k (k_calls k + m) = false) →
  ∃ es k', run Forktest.main (UProc t []) k = (es, k', Ends) ∧
    all_written es = ln_ "fork test" ++
      (if (m =? Forktest.N)%nat then ln_ "fork claimed to work N times!" else ln_ "fork test OK").
Proof.
  intros H1 Hp Hpid Hm Hl Hf. unfold Forktest.main, Forktest.forktest.
  destruct (fork_loop_run t k m unit (λ n, (if (n =? Forktest.N)%nat then _ ← Forktest.print 1 (ln_ "fork claimed to work N times!"); Exit
    else _ ← Forktest.wait_loop n; r ← sys Cwait;
      if negb (r =? -1) then _ ← Forktest.print 1 (ln_ "wait got too many"); Exit else Forktest.print 1 (ln_ "fork test OK")) ≫= λ _, Exit)
    Hpid Hm Hl Hf) as (k1 & Hr).
  assert (Hw1 : ∀ s, all_written [Wrote o s] = s) by (intros s; apply app_nil_r).
  rewrite run_assoc, (moves_print 1 (ln_ "fork test") o (UProc t []) k H1 Hp), run_assoc, Hr.
  destruct (m =? Forktest.N)%nat.
  - eexists _, k1. rewrite run_assoc, (moves_print 1 _ o (UProc t (child_pids k m)) k1 H1 Hp). split; [done|].
    by rewrite !all_written_app, !Hw1, app_nil_r.
  - destruct (waits_move t (child_pids k m) k1) as (es & Hw & Hwr).
    { intros p (i & -> & _)%list_elem_of_fmap. lia. }
    assert (Hlen : length (child_pids k m) = m) by (unfold child_pids; by rewrite length_fmap, length_seq).
    rewrite Hlen in Hw. rewrite run_assoc, Hw, run_assoc, bind_sys. cbn [run do_call u_kids u_fd].
    change (negb (-1 =? -1)) with false. cbv iota.
    rewrite (moves_print 1 _ o (UProc t []) k1 H1 Hp). eexists _, k1. split; [done|].
    rewrite !all_written_app, !Hw1, Hwr, app_nil_r. done.
Qed.

Lemma forktest_tells_witness : ∃ es k', run Forktest.main (UProc demo_fds [])
    (Kernel ∅ ∅ ∅ 1 0 2 [] (λ _, false) (λ i, (i <? 61)%nat) 0 ∅) = (es, k', Ends) ∧
  all_written es = ln_ "fork test" ++ ln_ "fork test OK".
Proof.
  apply (forktest_tells demo_fds Tty (Kernel ∅ ∅ ∅ 1 0 2 [] (λ _, false) (λ i, (i <? 61)%nat) 0 ∅) 61); try done.
  - apply (bool_decide_unpack _). by vm_compute.
  - intros i Hi. apply Nat.ltb_lt. cbn. lia.
Defined.

(** ** stressfs on an empty file system

    Five processes take part, one per fork and the last child, and each leaves a file of
    its own with twenty blocks. *)
Theorem stressfs_files : let k := Kernel ∅ ∅ ∅ 1 0 2 [] (λ _, false) (λ _, true) 0 ∅ in
  ∃ es k', run Stressfs.main (UProc demo_fds []) k = (es, k', Ends) ∧ k_pid k' = 6 ∧ map_size (k_dir k') = 5%nat ∧
    Forall (λ i, file_contents k' (Stressfs.path i) = replicate 10240 97) [0; 1; 2; 3; 4].
Proof.
  intros k. assert (H : match run Stressfs.main (UProc demo_fds []) k with
    | (_, k', Ends) => bool_decide (k_pid k' = 6 ∧ map_size (k_dir k') = 5%nat ∧
        Forall (λ i, file_contents k' (Stressfs.path i) = replicate 10240 97) [0; 1; 2; 3; 4])
    | _ => false
    end = true) by (vm_compute; reflexivity).
  destruct (run Stressfs.main (UProc demo_fds []) k) as [[es k'] [a u| |]]; try discriminate H.
  apply bool_decide_eq_true_1 in H. exists es, k'. split; [reflexivity|exact H].
Qed.
