(* ===== verification/InitSpec.v ===== *)
(** * init keeps a shell running

    init.c as a user program opens the console as its three descriptors and starts the
    shell; each time the shell ends it starts it again, and it waits for orphans meanwhile. *)

From stdpp Require Import base gmap list strings.
From Stdlib Require Import ZArith Lia.
From S2P Require Import Prelude Params Sh ShPrint User ShRun Uprogs.

(** The console is there, or can be made. *)
Definition console_ok (k : kernel) : Prop :=
  k_dir k !! bz "console" = None ∨ k_dir k !! bz "console" = Some 0%nat.

(** ** The console *)

Lemma open_console_moves j k : fair k → k_dir k !! bz "console" = Some 0%nat → (j < 3)%nat →
  moves (sys (Copen (bz "console") O_RDWR)) (UProc (tty_table j) []) k (Z.of_nat j) (UProc (tty_table (S j)) []) [] (bump k).
Proof.
  intros Hk Hc Hj. apply moves_sys. cbn [do_call u_fd u_kids]. unfold open_file, lucky. cbn [k_dir set_calls].
  rewrite (proj1 Hk), Hc. destruct j as [|[|[|j]]]; [done..|lia].
Qed.

(** dup(0), with the first [j] descriptors open. *)
Lemma dup_moves j k : (0 < j < 3)%nat →
  moves (sys (Cdup 0)) (UProc (tty_table j) []) k (Z.of_nat j) (UProc (tty_table (S j)) []) [] k.
Proof. intros Hj. apply moves_sys. destruct j as [|[|[|j]]]; [lia|done|done|lia]. Qed.

(** Before the console is open init has no descriptors; then it has the standard ones. *)
Lemma start_opens k : fair k → console_ok k → ∃ es k', steady k k' ∧ starts es = [] ∧
  moves Init.start (UProc (tty_table 0) []) k tt (UProc ttys []) es k'.
Proof.
  intros Hk Hc.
  assert (Hdup : ∀ k, moves (_ ← sys (Cdup 0); _ ← sys (Cdup 0); mret tt) (UProc (tty_table 1) []) k tt (UProc ttys []) ([] ++ [] ++ []) k).
  { intros k0. eapply moves_bind; [by apply dup_moves; lia|]. eapply moves_bind; [by apply dup_moves; lia|apply moves_ret]. }
  destruct Hc as [Hc|Hc].
  - set (k1 := bump k). set (k2 := set_next (S (k_next k)) (set_kind (<[k_next k := T_DEV]> (k_kind k))
      (set_dir (<[bz "console" := 0%nat]> (k_dir k)) (bump k1)))).
    assert (Hm : do_call (Cmknod (bz "console") 1 1) (UProc (tty_table 0) []) k1 =
      (0, UProc (tty_table 0) [], k2, [Named (Cmknod (bz "console") 1 1) 0])).
    { cbn [do_call]. unfold do_name, lucky. cbn [rename k_dir set_calls k_luck k1 bump]. rewrite (proj1 Hk), Hc. done. }
    exists ([] ++ ([Named (Cmknod (bz "console") 1 1) 0] ++ [] ++ []) ++ [] ++ [] ++ []), (bump k2).
    split; [unfold steady; simpl; split_and!; auto; lia|]. split; [done|].
    eapply moves_bind; [apply (moves_sys _ _ _ (-1) (UProc (tty_table 0) []) k1)|].
    { cbn [do_call u_fd u_kids]. unfold open_file, lucky. cbn [k_dir set_calls]. by rewrite (proj1 Hk), Hc. }
    eapply moves_bind; [|apply Hdup]. change (-1 <? 0) with true. cbn iota. eapply moves_bind; [exact (moves_sys _ _ _ _ _ _ _ Hm)|].
    eapply moves_bind; [|apply moves_ret]. apply (open_console_moves 0 k2); [|apply lookup_insert_eq|lia].
    apply (steady_fair k); [|done]. unfold steady. simpl. split_and!; auto; lia.
  - exists ([] ++ [] ++ [] ++ [] ++ []), (bump k). split; [unfold steady; simpl; split_and!; auto; lia|]. split; [done|].
    eapply moves_bind; [apply (open_console_moves 0); [done|done|lia]|]. eapply moves_bind; [apply moves_ret|apply Hdup].
Qed.

(** ** Rounds *)

Definition sh_started : list Z * list (list Z) * table := (bz "sh", [bz "sh"], ttys).

Lemma putcs_moves text k : ∃ es, moves (putcs 1 text) (UProc ttys []) k tt (UProc ttys []) es k ∧ starts es = [].
Proof.
  induction text as [|c text (es & Hs & Hn)]; [exists []; split; [apply moves_ret|done]|].
  exists ([Wrote Tty [c]] ++ es). split; [|done]. eapply moves_bind; [by apply moves_sys|exact Hs].
Qed.

Lemma round_starts_sh fuel k : fair k → k_prog k (bz "sh") = true → ∃ es k', steady k k' ∧ starts es = [sh_started] ∧
  moves (Init.round (S fuel)) (UProc ttys []) k tt (UProc ttys []) es k'.
Proof.
  intros Hk Hsh. destruct (putcs_moves (format (ln_ "init: starting sh") []) k) as (es & Hs & Hn).
  set (k1 := bump (forked k)).
  exists (es ++ [Started (bz "sh") [bz "sh"] ttys; Waited ttys]), k1.
  split; [unfold steady; simpl; split_and!; auto; lia|].
  split; [unfold starts in *; rewrite bind_app, Hn; done|].
  eapply moves_bind; [exact Hs|]. intros A f. destruct Hk as (Hl & _ & Hp).
  unfold fork, execv, Init.wait_for, sys. cbn [mbind prog_bind prog_bind' run]. unfold lucky. rewrite Hl.
  cbn [k_pid set_calls]. fold (forked k). cbn [Z.ltb Z.compare Z.eqb prog_bind' run].
  unfold lucky. cbn [k_luck k_calls forked set_kpid set_calls k_prog]. rewrite Hl, Hsh. cbn [andb].
  destruct (Z.ltb_spec (k_pid k) 0); [lia|]. destruct (Z.eqb_spec (k_pid k) 0); [lia|].
  cbn [prog_bind' run do_call u_fd u_kids app]. destruct (Z.leb_spec 0 (k_pid k)); [|lia].
  rewrite Z.eqb_refl. cbn [negb andb prog_bind' mret prog_ret]. fold (forked k).
  change (set_calls (S (S (k_calls k))) (forked k)) with k1.
  by destruct (run (f ()) _ k1) as [[e k2] r].
Qed.

Lemma rounds_start_sh n fuel k : fair k → k_prog k (bz "sh") = true → ∃ es k', starts es = replicate n sh_started ∧
  moves (Init.rounds n (S fuel)) (UProc ttys []) k tt (UProc ttys []) es k'.
Proof.
  revert k. induction n as [|n IH]; intros k Hk Hsh; [exists [], k; split; [done|apply moves_ret]|].
  destruct (round_starts_sh fuel k Hk Hsh) as (e1 & k1 & Hs & Hn & Hm). pose proof Hs as (_ & Hg & _).
  destruct (IH k1) as (e2 & k2 & Hn2 & Hm2); [by eapply steady_fair|by rewrite Hg|].
  exists (e1 ++ e2), k2. split; [|by eapply moves_bind]. unfold starts in *. by rewrite bind_app, Hn, Hn2.
Qed.


(** The kernel after boot, without the console device. *)
Definition boot_kernel : kernel := Kernel ∅ ∅ ∅ 1 0 2 [] (λ p, bool_decide (p = bz "sh")) (λ _, true) 0 ∅.

