(* ===== verification/Umalloc.v ===== *)
(** * umalloc.c: the user library's memory allocator

    Headers are 8 bytes; the two words of the header at an address are kept in two maps.
    [base] is the address of the static header of that name and 0 the null pointer;
    sbrk() moves the end [u_brk] of the memory of the process, up to [u_top].  The
    second part shows that malloc and free keep the heap. *)

From stdpp Require Import base gmap list sets.
From Stdlib Require Import ZArith Lia Sorted.
From S2P Require Import Prelude.

Record ust : Type := Ust {
  u_ptr : gmap Z Z;
  u_size : gmap Z Z;
  u_freep : Z;
  u_brk : Z;
  u_top : Z;
}.

Definition ptr (s : ust) (p : Z) : Z := default 0 (u_ptr s !! p).
Definition size (s : ust) (p : Z) : Z := default 0 (u_size s !! p).
Definition set_ptr (p v : Z) (s : ust) : ust := Ust (<[p := v]> (u_ptr s)) (u_size s) (u_freep s) (u_brk s) (u_top s).
Definition set_size (p v : Z) (s : ust) : ust := Ust (u_ptr s) (<[p := v]> (u_size s)) (u_freep s) (u_brk s) (u_top s).
Definition set_freep (v : Z) (s : ust) : ust := Ust (u_ptr s) (u_size s) v (u_brk s) (u_top s).
Definition set_brk (v : Z) (s : ust) : ust := Ust (u_ptr s) (u_size s) (u_freep s) v (u_top s).

(** sizeof(Header), and [p + n] for a Header *p. *)
Definition HDR : Z := 8.
Definition padd (p n : Z) : Z := u32 (p + HDR * n).

(** sbrk() as growproc() has it: the memory grows up to [u_top]; it shrinks unless the new
    size wraps around, in which case nothing happens, or is 0.  None is -1. *)
Definition sbrk (n : Z) (s : ust) : option Z * ust :=
  if 0 <? n then
    if u_brk s + n <=? u_top s then (Some (u_brk s), set_brk (u_brk s + n) s) else (None, s)
  else if n <? 0 then
    let newsz := u32 (u_brk s + n) in
    if u_brk s <=? newsz then (Some (u_brk s), s)
    else if newsz =? 0 then (None, s)
    else (Some (u_brk s), set_brk newsz s)
  else (Some (u_brk s), s).

Section umalloc.
Context (base : Z).

(** The condition on which the loop of free() stops. *)
Definition stops (s : ust) (bp p : Z) : bool :=
  let q := ptr s p in
  ((p <? bp) && (bp <? q)) || ((q <=? p) && ((p <? bp) || (bp <? q))).
Fixpoint find_loop (fuel : nat) (s : ust) (bp p : Z) : option Z :=
  match fuel with
  | O => None
  | S f => if stops s bp p then Some p else find_loop f s bp (ptr s p)
  end.

Definition join_upper (bp p : Z) (s : ust) : ust :=
  let q := ptr s p in
  if padd bp (size s bp) =? q then
    let s := set_size bp (u32 (size s bp + size s q)) s in set_ptr bp (ptr s q) s
  else set_ptr bp q s.
Definition join_lower (bp p : Z) (s : ust) : ust :=
  if padd p (size s p) =? bp then
    let s := set_size p (u32 (size s p + size s bp)) s in set_ptr p (ptr s bp) s
  else set_ptr p bp s.

(** free(); None when the search for the place takes more than [fuel] rounds. *)
Definition free (fuel : nat) (ap : Z) (s : ust) : option ust :=
  let bp := u32 (ap - HDR) in
  match find_loop fuel s bp (u_freep s) with
  | None => None
  | Some p => Some (set_freep p (join_lower bp p (join_upper bp p s)))
  end.

(** The pointer is None for the null pointer. *)
Definition morecore (fuel : nat) (nu : Z) (s : ust) : option (option Z * ust) :=
  let nu := if nu <? 4096 then 4096 else nu in
  match sbrk (i32 (u32 (nu * HDR))) s with
  | (None, s) => Some (None, s)
  | (Some p, s) =>
    match free fuel (padd p 1) (set_size p nu s) with
    | None => None
    | Some s => Some (Some (u_freep s), s)
    end
  end.

(** A block of the list that is large enough is used. *)
Definition carve (nunits prevp p : Z) (s : ust) : Z * ust :=
  if size s p =? nunits then (padd p 1, set_freep prevp (set_ptr prevp (ptr s p) s))
  else
    let s := set_size p (u32 (size s p - nunits)) s in
    let p := padd p (size s p) in
    (padd p 1, set_freep prevp (set_size p nunits s)).

Fixpoint malloc_loop (fuel : nat) (nunits prevp p : Z) (s : ust) : option (option Z * ust) :=
  match fuel with
  | O => None
  | S f =>
    if nunits <=? size s p then let '(r, s) := carve nunits prevp p s in Some (Some r, s)
    else if p =? u_freep s then
      match morecore fuel nunits s with
      | None => None
      | Some (None, s) => Some (None, s)
      | Some (Some p, s) => malloc_loop f nunits p (ptr s p) s
      end
    else malloc_loop f nunits p (ptr s p) s
  end.

Definition units (nbytes : Z) : Z := u32 (nbytes + HDR - 1) `div` HDR + 1.

Definition malloc (fuel : nat) (nbytes : Z) (s : ust) : option (option Z * ust) :=
  let nunits := units nbytes in
  let s := if u_freep s =? 0 then set_size base 0 (set_freep base (set_ptr base base s)) else s in
  malloc_loop fuel nunits (u_freep s) (ptr s (u_freep s)) s.
End umalloc.

(** * malloc and free keep the heap *)

(** A block: the address of its header and its size in units. *)
Abbreviation block := (Z * Z)%type.
Definition bend (b : block) : Z := fst b + HDR * snd b.

(** ** Blocks that do not overlap *)

Definition disj (x y : block) : Prop := bend x ≤ fst y ∨ bend y ≤ fst x.
Fixpoint apart (bs : list block) : Prop :=
  match bs with
  | [] => True
  | x :: bs => Forall (disj x) bs ∧ apart bs
  end.
Fixpoint total (bs : list block) : Z := match bs with [] => 0 | x :: bs => snd x + total bs end.

Lemma disj_sym x y : disj x y → disj y x.
Proof. unfold disj. tauto. Qed.

#[export] Instance apart_perm : Proper ((≡ₚ) ==> iff) apart.
Proof.
  intros l1 l2 H. induction H as [|x l1 l2 H IH|x y l|l1 l2 l3 _ IH1 _ IH2]; simpl.
  - done.
  - rewrite IH. split; intros [? ?]; (split; [|done]); [by rewrite <- H|by rewrite H].
  - rewrite !Forall_cons. split; intros ((? & ?) & ? & ?); split_and!; auto using disj_sym.
  - by rewrite IH1.
Qed.

#[export] Instance total_perm : Proper ((≡ₚ) ==> eq) total.
Proof.
  intros l1 l2 H. induction H as [|x l1 l2 H IH|x y l|l1 l2 l3 _ IH1 _ IH2]; simpl; lia.
Qed.

Lemma apart_app l1 l2 : apart (l1 ++ l2) ↔ apart l1 ∧ apart l2 ∧ Forall (λ x, Forall (disj x) l2) l1.
Proof.
  induction l1 as [|x l1 IH]; simpl; [split; [intros; split_and!; auto|tauto]|].
  rewrite IH, Forall_app, Forall_cons. tauto.
Qed.

(** The blocks of a heap from [lo] to [hi]: they do not overlap and nothing is lost. *)
Definition tiles (lo hi : Z) (bs : list block) : Prop :=
  apart bs ∧ Forall (λ b, lo ≤ fst b ∧ 1 ≤ snd b ∧ bend b ≤ hi) bs ∧ HDR * total bs = hi - lo.

#[export] Instance tiles_perm lo hi : Proper ((≡ₚ) ==> iff) (tiles lo hi).
Proof. intros l1 l2 H. unfold tiles. by rewrite H. Qed.

Lemma tiles_split lo hi a n k bs : 1 ≤ k < n → tiles lo hi ((a, n) :: bs) →
  tiles lo hi ((a, n - k) :: (a + HDR * (n - k), k) :: bs).
Proof.
  unfold tiles. cbn [apart total snd]. rewrite !Forall_cons. unfold disj, bend, HDR. cbn [fst snd].
  intros Hk ((Hd & Ha) & (H1 & Hb) & Ht). split_and!; try lia; try done.
  - eapply Forall_impl; [exact Hd|]. simpl. intros [b m]. simpl. lia.
  - eapply Forall_impl; [exact Hd|]. simpl. intros [b m]. simpl. lia.
Qed.

Lemma tiles_join lo hi a n b k bs : b = a + HDR * n → tiles lo hi ((a, n) :: (b, k) :: bs) →
  tiles lo hi ((a, n + k) :: bs).
Proof.
  unfold tiles. cbn [apart total snd]. rewrite !Forall_cons. unfold disj, bend, HDR. cbn [fst snd].
  intros -> (((_ & Hd) & Hd2 & Ha) & (H1 & H2 & Hb) & Ht). split_and!; try lia; try done.
  apply Forall_forall. intros [c m] Hc. rewrite Forall_forall in Hd, Hd2, Hb.
  specialize (Hd _ Hc). specialize (Hd2 _ Hc). specialize (Hb _ Hc). simpl in *. lia.
Qed.

Lemma tiles_grow lo hi n bs : 1 ≤ n → tiles lo hi bs → tiles lo (hi + HDR * n) ((hi, n) :: bs).
Proof.
  unfold tiles. cbn [apart total snd]. rewrite !Forall_cons. unfold disj, bend, HDR. cbn [fst snd].
  intros Hn (Ha & Hb & Ht). assert (lo ≤ hi).
  { assert (0 ≤ total bs); [|lia]. clear - Hb. induction Hb as [|x l ? ? IH]; simpl; lia. }
  split_and!; try lia; try done.
  - eapply Forall_impl; [exact Hb|]. simpl. intros [c m]. simpl. lia.
  - eapply Forall_impl; [exact Hb|]. simpl. intros [c m]. simpl. lia.
Qed.

(** ** The ring of free blocks *)

(** The blocks [l] linked from [p] to [q]. *)
Fixpoint seg (s : ust) (p : Z) (l : list block) (q : Z) : Prop :=
  match l with
  | [] => p = q
  | (a, n) :: l => p = a ∧ size s a = n ∧ seg s (ptr s a) l q
  end.
Definition ring (s : ust) (l : list block) : Prop := ∃ p, seg s p l p.

Lemma seg_app s p l1 l2 q : seg s p (l1 ++ l2) q ↔ ∃ m, seg s p l1 m ∧ seg s m l2 q.
Proof.
  revert p. induction l1 as [|[a n] l1 IH]; intros p; simpl.
  - split; [intros; by exists p|intros (m & -> & ?); done].
  - rewrite IH. split; [intros (-> & <- & m & ? & ?); by exists m|intros (m & (-> & <- & ?) & ?); split_and!; eauto].
Qed.

Lemma ring_rotate s l1 l2 : ring s (l1 ++ l2) → ring s (l2 ++ l1).
Proof.
  intros (p & (m & H1 & H2)%seg_app). exists m. apply seg_app. by exists p.
Qed.

(** Writes outside the list. *)
Lemma seg_set_ptr s p l q a v : a ∉ l.*1 → seg (set_ptr a v s) p l q ↔ seg s p l q.
Proof.
  revert p. induction l as [|[b n] l IH]; intros p Hn; simpl in *; [done|].
  apply not_elem_of_cons in Hn as [H1 H2]. unfold ptr at 1. cbn [u_ptr set_ptr].
  rewrite lookup_insert_ne by done. by rewrite (IH _ H2).
Qed.

Lemma seg_set_size s p l q a v : a ∉ l.*1 → seg (set_size a v s) p l q ↔ seg s p l q.
Proof.
  revert p. induction l as [|[b n] l IH]; intros p Hn; simpl in *; [done|].
  apply not_elem_of_cons in Hn as [H1 H2]. unfold size at 1. cbn [u_size set_size].
  rewrite lookup_insert_ne by done. by rewrite (IH _ H2).
Qed.

Lemma seg_set_freep s p l q v : seg (set_freep v s) p l q ↔ seg s p l q.
Proof. revert p. induction l as [|[b n] l IH]; intros p; simpl; [done|]. by rewrite IH. Qed.

Lemma seg_set_brk s p l q v : seg (set_brk v s) p l q ↔ seg s p l q.
Proof. revert p. induction l as [|[b n] l IH]; intros p; simpl; [done|]. by rewrite IH. Qed.

Lemma seg_fun s p l q q' : seg s p l q → seg s p l q' → q = q'.
Proof. revert p. induction l as [|[a n] l IH]; intros p; simpl; [congruence|]. intros (_ & _ & H) (_ & _ & H'). eauto. Qed.

(** The first address of a list that ends at [q]. *)
Lemma seg_first s p l q : seg s p l q → p = match l with [] => q | x :: _ => fst x end.
Proof. destruct l as [|[a n] l]; simpl; [done|tauto]. Qed.

(** ** The place of a block *)

Definition before (x y : block) : Prop := bend x < fst y.
Abbreviation ordered := (StronglySorted before).

Lemma ordered_app l1 l2 : ordered (l1 ++ l2) ↔ ordered l1 ∧ ordered l2 ∧ Forall (λ x, Forall (before x) l2) l1.
Proof.
  induction l1 as [|x l1 IH]; simpl; [split; [intros; split_and!; auto; constructor|tauto]|].
  rewrite Forall_cons. split.
  - intros H. inversion H as [|? ? Hs Hf]; subst. apply Forall_app in Hf as [? ?]. apply IH in Hs. split_and!; try tauto.
    constructor; tauto.
  - intros (H & ? & ? & ?). inversion H; subst. constructor; [tauto|]. by apply Forall_app.
Qed.

(** The blocks below and above [(b, n)]. *)
Lemma ordered_split b n l : 1 ≤ n → ordered l → Forall (λ x, 0 ≤ snd x) l → Forall (disj (b, n)) l →
  ∃ l1 l2, l = l1 ++ l2 ∧ Forall (λ x, bend x ≤ b) l1 ∧ Forall (λ x, b + HDR * n ≤ fst x) l2.
Proof.
  intros Hn. induction l as [|x l IH]; intros Hs Hp Hd; [by exists [], []|].
  inversion Hs as [|? ? Hs' Hb]; subst. inversion Hp; subst. inversion Hd as [|? ? Hx Hd']; subst.
  destruct Hx as [Hx|Hx].
  - exists [], (x :: l). unfold bend in Hx. cbn [fst snd] in Hx. split_and!; [done|constructor|]. constructor; [done|].
    eapply Forall_impl; [exact Hb|]. intros y. unfold before, bend, HDR in *. simpl. lia.
  - destruct (IH Hs') as (l1 & l2 & -> & Hlow & Hup); [done..|]. exists (x :: l1), l2. split_and!; [done| |done].
    by constructor.
Qed.

Lemma find_skip s b x l y f : seg s x l y → Forall (λ e, stops s b (fst e) = false) l →
  find_loop (length l + f) s b x = find_loop f s b y.
Proof.
  revert x. induction l as [|[a n] l IH]; intros x Hs Hf; simpl in *; [by subst|].
  destruct Hs as (-> & _ & Hs). inversion Hf as [|? ? H1 H2]; subst. simpl in H1. rewrite H1. by apply IH.
Qed.

(** The loop of free() does not stop on a block whose successor is below [b], *)
Lemma stops_below s b x l p : seg s x l p → ordered l → Forall (λ e, bend e < p) l → Forall (λ e, 0 ≤ snd e) l →
  p < b → Forall (λ e, stops s b (fst e) = false) l.
Proof.
  intros Hs Ho Hp Hn Hb. revert x Hs. induction Ho as [|[a n] l Ho IH Hbef]; intros x Hs; [constructor|].
  inversion Hp; subst. inversion Hn; subst. destruct Hs as (-> & Hsz & Hs). constructor; [|by eapply IH].
  pose proof (seg_first _ _ _ _ Hs) as Hq. cbn [fst]. unfold stops.
  assert (a < ptr s a < b) as [? ?].
  { rewrite Hq. unfold before, bend, HDR in *. simpl in *. destruct l as [|[c m] l]; [lia|].
    inversion Hbef; subst. repeat match goal with H : Forall _ (_ :: _) |- _ => inversion H; clear H; subst end.
    simpl in *. lia. }
  destruct (Z.ltb_spec b (ptr s a)); [lia|]. destruct (Z.leb_spec (ptr s a) a); [lia|]. by rewrite andb_false_r.
Qed.

(** nor on one above it. *)
Lemma stops_above s b x l base : seg s x l base → ordered l → Forall (λ e, b < fst e) l → Forall (λ e, 0 ≤ snd e) l →
  base < b → Forall (λ e, stops s b (fst e) = false) l.
Proof.
  intros Hs Ho Hp Hn Hb. revert x Hs. induction Ho as [|[a n] l Ho IH Hbef]; intros x Hs; [constructor|].
  inversion Hp; subst. inversion Hn; subst. destruct Hs as (-> & Hsz & Hs). constructor; [|by eapply IH].
  pose proof (seg_first _ _ _ _ Hs) as Hq. cbn [fst] in *. unfold stops.
  destruct (Z.ltb_spec a b); [lia|]. cbn [andb orb]. destruct l as [|[c m] l].
  - rewrite Hq. destruct (Z.ltb_spec b base); [lia|]. by rewrite andb_false_r.
  - inversion Hbef; subst. unfold before, bend, HDR in *. simpl in *. rewrite Hq.
    destruct (Z.leb_spec c a); [lia|done].
Qed.

(** The ring seen from the block [(p, m)] below the place. *)
Lemma find_place s base l1 p m l2 b fp fuel :
  ordered (l1 ++ (p, m) :: l2) → Forall (λ e, 0 ≤ snd e) (l1 ++ (p, m) :: l2) →
  seg s base (l1 ++ (p, m) :: l2) base → base < b → p < b → Forall (λ e, b < fst e) l2 →
  fp ∈ (l1 ++ (p, m) :: l2).*1 → (length (l1 ++ (p, m) :: l2) < fuel)%nat →
  find_loop fuel s b fp = Some p.
Proof.
  intros Ho Hn Hs Hbase Hp H2 Hfp Hf.
  apply ordered_app in Ho as (Ho1 & Ho2 & Hx). inversion Ho2 as [|? ? Ho2' Hb2]; subst.
  apply Forall_app in Hn as [Hn1 Hn2]. inversion Hn2; subst. apply seg_app in Hs as (q & Hs1 & -> & Hm & Hs2).
  assert (Hl1 : Forall (λ e, bend e < p) l1).
  { eapply Forall_impl; [exact Hx|]. intros e He. by inversion He. }
  pose proof (stops_below s b base l1 p Hs1 Ho1 Hl1 Hn1 Hp) as Hb1.
  pose proof (stops_above s b _ l2 base Hs2 Ho2' H2 ltac:(done) Hbase) as Hb2'.
  assert (Hend : ∀ f, find_loop (S f) s b p = Some p).
  { intros f. cbn [find_loop]. unfold stops. pose proof (seg_first _ _ _ _ Hs2) as Hq.
    destruct (Z.ltb_spec p b); [|lia]. destruct l2 as [|[c k] l2].
    - destruct (Z.leb_spec (ptr s p) p); [by rewrite andb_true_r, orb_true_r|]. destruct (Z.ltb_spec b (ptr s p)); [done|].
      apply seg_first in Hs1. destruct l1 as [|[a j] l1]; [simpl in Hs1; lia|].
      inversion Hl1; subst. inversion Hn1; subst. unfold bend, HDR in *. simpl in *. lia.
    - inversion H2; subst. simpl in *. rewrite Hq. destruct (Z.ltb_spec b c); [done|lia]. }
  rewrite length_app in Hf. simpl in Hf.
  rewrite fmap_app, elem_of_app in Hfp. destruct Hfp as [Hin|Hin].
  - apply list_elem_of_fmap in Hin as ([a k] & -> & Hin). apply list_elem_of_split in Hin as (u & v & ->).
    apply seg_app in Hs1 as (w & _ & Hv). apply Forall_app in Hb1 as [_ Hb1].
    rewrite length_app in Hf. simpl in Hf. pose proof Hv as (Ew & _). subst w.
    replace fuel with (length ((a, k) :: v) + S (fuel - S (length ((a, k) :: v))))%nat by (simpl; lia).
    by rewrite (find_skip _ _ _ _ _ _ Hv Hb1).
  - cbn [fmap list_fmap fst] in Hin. apply elem_of_cons in Hin as [->|Hin].
    { destruct fuel; [lia|]. apply Hend. }
    apply list_elem_of_fmap in Hin as ([a k] & -> & Hin). apply list_elem_of_split in Hin as (u & v & ->).
    apply seg_app in Hs2 as (w & _ & Hv). apply Forall_app in Hb2' as [_ Hb2'].
    rewrite length_app in Hf. simpl in Hf. pose proof Hv as (Ew & _). subst w.
    replace fuel with (length ((a, k) :: v) + (length l1 + S (fuel - S (length ((a, k) :: v) + length l1))))%nat by (simpl; lia).
    by rewrite (find_skip _ _ _ _ _ _ Hv Hb2'), (find_skip _ _ _ _ _ _ Hs1 Hb1).
Qed.

(** ** Linking a block *)

(** The free blocks from [(p, m)] on when [(b, n)] is linked behind it. *)
Definition with_upper (b n : Z) (l2 : list block) : list block :=
  match l2 with
  | (q, k) :: l2' => if b + HDR * n =? q then (b, n + k) :: l2' else (b, n) :: l2
  | [] => [(b, n)]
  end.
Definition with_lower (p m : Z) (l : list block) : list block :=
  match l with
  | (b, n) :: l' => if p + HDR * m =? b then (p, m + n) :: l' else (p, m) :: l
  | [] => [(p, m)]
  end.

Lemma padd_small p n hi : 0 ≤ p → p + HDR * n ≤ hi → hi < 2 ^ 32 → 0 ≤ n → padd p n = p + HDR * n.
Proof. intros. unfold padd, HDR in *. apply u32_small. lia. Qed.

Lemma size_set_ptr s a v x : size (set_ptr a v s) x = size s x.
Proof. done. Qed.
Lemma ptr_set_size s a v x : ptr (set_size a v s) x = ptr s x.
Proof. done. Qed.
Lemma ptr_set_eq s a v : ptr (set_ptr a v s) a = v.
Proof. unfold ptr. simpl. by rewrite lookup_insert_eq. Qed.
Lemma ptr_set_ne s a v x : x ≠ a → ptr (set_ptr a v s) x = ptr s x.
Proof. intros. unfold ptr. simpl. by rewrite lookup_insert_ne. Qed.
Lemma size_set_eq s a v : size (set_size a v s) a = v.
Proof. unfold size. simpl. by rewrite lookup_insert_eq. Qed.
Lemma size_set_ne s a v x : x ≠ a → size (set_size a v s) x = size s x.
Proof. intros. unfold size. simpl. by rewrite lookup_insert_ne. Qed.

Create HintDb fields.
#[export] Hint Rewrite size_set_ptr ptr_set_size ptr_set_eq size_set_eq : fields.

Section link.
Context (base hi : Z).
Hypothesis hi_small : hi < 2 ^ 32.

Lemma join_upper_ring s b n p l2 : 0 < base < b → 1 ≤ n → b + HDR * n ≤ hi → size s b = n → b ≠ p →
  b ∉ l2.*1 → Forall (λ e, 0 ≤ snd e ∧ bend e ≤ hi) l2 → seg s (ptr s p) l2 base →
  let s1 := join_upper b p s in
  seg s1 b (with_upper b n l2) base ∧ ptr s1 p = ptr s p ∧ (∀ x, x ≠ b → size s1 x = size s x) ∧
  (∀ l x y, b ∉ l.*1 → seg s x l y → seg s1 x l y).
Proof.
  intros Hbase Hn Hb Hsz Hbp Hnot Hl2 Hs. unfold join_upper. rewrite Hsz, (padd_small b n hi) by (unfold HDR in *; lia).
  assert (Hother : ∀ s', (∃ v w, s' = set_ptr b v (set_size b w s)) ∨ (∃ v, s' = set_ptr b v s) →
    ptr s' p = ptr s p ∧ (∀ x, x ≠ b → size s' x = size s x) ∧ ∀ l x y, b ∉ l.*1 → seg s x l y → seg s' x l y).
  { intros s' [(v & w & ->)|(v & ->)]; split_and!.
    - by rewrite ptr_set_ne by done.
    - intros. by rewrite size_set_ptr, size_set_ne.
    - intros. by rewrite seg_set_ptr, seg_set_size.
    - by rewrite ptr_set_ne by done.
    - done.
    - intros. by rewrite seg_set_ptr. }
  pose proof (seg_first _ _ _ _ Hs) as Hq. destruct l2 as [|[q k] l2]; cbn [with_upper fst] in *.
  - rewrite Hq. destruct (Z.eqb_spec (b + HDR * n) base); [unfold HDR in *; lia|].
    split; [|rewrite <- Hq; apply Hother; right; eauto]. cbn [seg]. autorewrite with fields. by split_and!.
  - rewrite Hq in *. destruct Hs as (_ & Hk & Hs). apply not_elem_of_cons in Hnot as [Hbq Hnot].
    destruct (Z.eqb_spec (b + HDR * n) q) as [E|E].
    + split; [|apply Hother; left; eauto]. cbn [seg]. autorewrite with fields. rewrite Hk. split_and!; [done| |].
      * inversion Hl2 as [|? ? [? Hend]]; subst. unfold bend in Hend. cbn [fst snd] in *. unfold HDR in *. apply u32_small. lia.
      * by rewrite seg_set_ptr, seg_set_size.
    + split; [|apply Hother; right; eauto]. cbn [seg fst]. autorewrite with fields. split_and!; [done|done|done| |].
      * done.
      * rewrite ptr_set_ne by done. by rewrite seg_set_ptr.
Qed.

Lemma join_lower_ring s b n p m l1 l : 0 < p < b → 0 ≤ m → 1 ≤ n → bend (p, m) ≤ b → b + HDR * n ≤ hi →
  seg s base l1 p → size s p = m → seg s b ((b, n) :: l) base →
  p ∉ l1.*1 → p ∉ l.*1 →
  seg (join_lower b p s) base (l1 ++ with_lower p m ((b, n) :: l)) base.
Proof.
  intros Hp Hm Hn Hend Hb Hs1 Hsz Hs Hn1 Hn2. unfold join_lower. unfold bend in Hend. cbn [fst snd] in Hend.
  rewrite Hsz, (padd_small p m hi) by (unfold HDR in *; lia). pose proof Hs as (_ & Hbn & Hs'). cbn [with_lower].
  apply seg_app. exists p. destruct (Z.eqb_spec (p + HDR * m) b) as [E|E].
  - split; [by rewrite seg_set_ptr, seg_set_size|]. cbn [seg]. autorewrite with fields. rewrite Hbn. split_and!; [done| |].
    + apply u32_small. unfold HDR in *. lia.
    + by rewrite seg_set_ptr, seg_set_size.
  - split; [by rewrite seg_set_ptr|]. cbn [seg]. autorewrite with fields. split_and!; try done.
    rewrite ptr_set_ne by lia. by rewrite seg_set_ptr.
Qed.
End link.

Lemma tiles_upper lo hi b n l2 bs : tiles lo hi ((b, n) :: l2 ++ bs) → tiles lo hi (with_upper b n l2 ++ bs).
Proof.
  destruct l2 as [|[q k] l2]; [done|]. simpl. destruct (Z.eqb_spec (b + HDR * n) q) as [E|]; [|done].
  intros H. by eapply (tiles_join _ _ b n q k).
Qed.

Lemma tiles_lower lo hi p m l bs : tiles lo hi ((p, m) :: l ++ bs) → tiles lo hi (with_lower p m l ++ bs).
Proof.
  destruct l as [|[b n] l]; [done|]. simpl. destruct (Z.eqb_spec (p + HDR * m) b) as [E|]; [|done].
  intros H. by eapply (tiles_join _ _ p m b n).
Qed.

Lemma ordered_upper b n l : 1 ≤ n → ordered l → Forall (λ x, 0 ≤ snd x) l → Forall (λ x, b + HDR * n ≤ fst x) l →
  ordered (with_upper b n l).
Proof.
  intros Hn Ho Hp Hb. destruct l as [|[q k] l]; simpl; [repeat constructor|].
  inversion Ho as [|? ? Ho' Hq]; subst. inversion Hb as [|? ? Hbq _]; subst. inversion Hp as [|? ? Hk _]; subst.
  cbn [fst snd] in *. destruct (Z.eqb_spec (b + HDR * n) q) as [E|E].
  - constructor; [done|]. eapply Forall_impl; [exact Hq|]. intros x. unfold before, bend, HDR in *. simpl. lia.
  - constructor; [done|]. constructor; [unfold before, bend, HDR in *; simpl; lia|].
    eapply Forall_impl; [exact Hq|]. intros x. unfold before, bend, HDR in *. simpl. lia.
Qed.

Lemma ordered_lower p m b n l : 0 ≤ m → 1 ≤ n → bend (p, m) ≤ b → ordered ((b, n) :: l) → ordered (with_lower p m ((b, n) :: l)).
Proof.
  intros Hm Hn Hb Ho. simpl. inversion Ho as [|? ? Ho' Hq]; subst. unfold bend in Hb. cbn [fst snd] in Hb.
  destruct (Z.eqb_spec (p + HDR * m) b) as [E|E].
  - constructor; [done|]. eapply Forall_impl; [exact Hq|]. intros x. unfold before, bend, HDR in *. simpl. lia.
  - constructor; [done|]. constructor; [unfold before, bend, HDR in *; simpl; lia|].
    eapply Forall_impl; [exact Hq|]. intros x. unfold before, bend, HDR in *. simpl. lia.
Qed.

Lemma with_upper_head b n l : 1 ≤ n → Forall (λ x, 0 ≤ snd x) l → ∃ n' l', with_upper b n l = (b, n') :: l' ∧
  n ≤ n' ∧ l' `suffix_of` l.
Proof.
  intros Hn Hl. destruct l as [|[q k] l]; simpl; [exists n, []; split_and!; [done|lia|done]|].
  inversion Hl; subst. cbn [snd] in *.
  destruct (_ =? _); [exists (n + k), l|exists n, ((q, k) :: l)]; split_and!; try lia; try done. by apply suffix_cons_r.
Qed.

(** ** The heap *)

(** [live] are the blocks that malloc() has given out.  The free blocks [fl] make a ring
    with [base] in the order of their addresses, no two of them adjacent, and free and live
    blocks together are the memory from [lo] to the break. *)
Record heap (base lo : Z) (s : ust) (fl live : list block) : Prop := Heap {
  h_order : ordered ((base, 0) :: fl);
  h_ring : seg s base ((base, 0) :: fl) base;
  h_freep : u_freep s ∈ ((base, 0) :: fl).*1;
  h_tiles : tiles lo (u_brk s) (fl ++ live);
  h_live : Forall (λ x, size s (fst x) = snd x) live;
  h_base : 0 < base ∧ base + HDR ≤ lo;
  h_top : u_brk s ≤ u_top s < 2 ^ 31;
}.
Arguments h_order {_ _ _ _ _}.
Arguments h_ring {_ _ _ _ _}.
Arguments h_freep {_ _ _ _ _}.
Arguments h_tiles {_ _ _ _ _}.
Arguments h_live {_ _ _ _ _}.
Arguments h_base {_ _ _ _ _}.
Arguments h_top {_ _ _ _ _}.

Lemma tiles_length lo hi bs : tiles lo hi bs → (length bs ≤ Z.to_nat ((hi - lo) `div` HDR))%nat.
Proof.
  intros (_ & Hb & Ht). rewrite <- Ht. assert (Z.of_nat (length bs) ≤ total bs).
  { clear Ht. induction Hb as [|x bs Hx _ IH]; simpl; lia. }
  rewrite Z.mul_comm, Z.div_mul by done. lia.
Qed.

(** More rounds than any walk around the ring takes. *)
Definition heap_fuel (lo : Z) (s : ust) : nat := (3 * Z.to_nat ((u_top s - lo) `div` HDR) + 10)%nat.

(** The free list after the block is linked: in order, *)
Lemma link_ordered p m l1 b n l2 : 1 ≤ n → ordered (l1 ++ (p, m) :: l2) →
  Forall (λ x, 0 ≤ snd x) (l1 ++ (p, m) :: l2) → bend (p, m) ≤ b → Forall (λ x, b + HDR * n ≤ fst x) l2 →
  ordered (l1 ++ with_lower p m (with_upper b n l2)).
Proof.
  intros Hn Ho Hpos Hpb Hup. apply ordered_app in Ho as (Ho1 & Ho2 & Hx). inversion Ho2 as [|? ? Ho2' Hp2]; subst.
  apply Forall_app in Hpos as [_ Hpos2]. inversion Hpos2 as [|? ? Hm Hpos2']; subst. cbn [snd] in Hm.
  pose proof (ordered_upper b n l2 Hn Ho2' Hpos2' Hup) as Hou.
  destruct (with_upper_head b n l2 Hn Hpos2') as (n' & l' & Eu & Hn' & Hsuf). rewrite Eu in *.
  apply ordered_app. split_and!; [done|apply ordered_lower; [done|lia|done|done]|].
  eapply Forall_impl; [exact Hx|]. intros x Hxx. inversion Hxx as [|? ? Hxp _]; subst.
  assert (Htop : Forall (λ y, p ≤ fst y) (with_lower p m ((b, n') :: l'))).
  { inversion Hou as [|? ? _ Hbl]; subst. unfold bend, HDR in Hpb. cbn [fst snd] in Hpb. simpl.
    destruct (_ =? _); repeat constructor; simpl; try lia;
      (eapply Forall_impl; [exact Hbl|]); intros y; unfold before, bend, HDR; simpl; lia. }
  eapply Forall_impl; [exact Htop|]. intros y. unfold before in *. simpl in *. lia.
Qed.

(** with a block that is large enough, *)
Lemma link_large p m b n l2 : 0 ≤ m → 1 ≤ n → Forall (λ x, 0 ≤ snd x) l2 →
  p ∈ (with_lower p m (with_upper b n l2)).*1 ∧ ∃ x, x ∈ with_lower p m (with_upper b n l2) ∧ n ≤ snd x.
Proof.
  intros Hm Hn Hl. destruct (with_upper_head b n l2 Hn Hl) as (n' & l' & -> & Hn' & _). simpl.
  destruct (_ =? _); simpl; (split; [set_solver|]); [exists (p, m + n')|exists (b, n')]; simpl; (split; [set_solver|lia]).
Qed.

(** and no memory is lost. *)
Lemma link_tiles lo hi p m l1 b n l2 live : tiles lo hi ((b, n) :: (l1 ++ (p, m) :: l2) ++ live) →
  tiles lo hi ((l1 ++ with_lower p m (with_upper b n l2)) ++ live).
Proof.
  intros Ht. rewrite <- app_assoc, (Permutation_app_swap_app l1). apply tiles_lower.
  rewrite Permutation_middle. apply tiles_upper. eapply tiles_perm; [|exact Ht]. solve_Permutation.
Qed.

Lemma length_linked p m b n l2 : (length (with_lower p m (with_upper b n l2)) ≤ S (S (length l2)))%nat.
Proof.
  destruct l2 as [|[q k] l2]; simpl; repeat destruct (_ =? _); simpl; repeat destruct (_ =? _); simpl; lia.
Qed.

Lemma link_lists base lo hi p m l1 b n l2 fl live : 0 < base → base + HDR ≤ lo → 1 ≤ n →
  (base, 0) :: fl = l1 ++ (p, m) :: l2 → ordered ((base, 0) :: fl) → tiles lo hi ((b, n) :: fl ++ live) →
  bend (p, m) ≤ b → Forall (λ x, b + HDR * n ≤ fst x) l2 →
  ∃ fl', l1 ++ with_lower p m (with_upper b n l2) = (base, 0) :: fl' ∧ ordered ((base, 0) :: fl') ∧
    tiles lo hi (fl' ++ live) ∧ p ∈ ((base, 0) :: fl').*1 ∧ ∃ x, x ∈ fl' ∧ n ≤ snd x.
Proof.
  intros Hbase Hlo Hn E Ho Ht Hpb Hup.
  assert (Hpos : Forall (λ x, 0 ≤ snd x) (l1 ++ (p, m) :: l2)).
  { rewrite <- E. constructor; [done|]. destruct Ht as (_ & Hb & _). inversion Hb as [|? ? _ Hb']; subst.
    apply Forall_app in Hb' as [Hb' _]. eapply Forall_impl; [exact Hb'|]. simpl. lia. }
  rewrite E in Ho. pose proof (link_ordered p m l1 b n l2 Hn Ho Hpos Hpb Hup) as Hol.
  apply Forall_app in Hpos as [_ Hpos]. inversion Hpos as [|? ? Hm Hpos2]; subst. cbn [snd] in Hm.
  destruct (link_large p m b n l2 Hm Hn Hpos2) as (Hp & x & Hx & Hnx).
  assert (Hb0 : lo ≤ b) by (destruct Ht as (_ & Hb & _); inversion Hb; subst; simpl in *; lia).
  destruct l1 as [|y l1]; simpl in E; injection E as Ey Efl.
  - subst p m fl. destruct (with_upper_head b n l2 Hn Hpos2) as (n' & l' & Eu & Hn' & _). simpl in *. rewrite Eu in *.
    simpl in *. rewrite Z.mul_0_r, Z.add_0_r in *. destruct (Z.eqb_spec base b); [unfold HDR in *; lia|].
    exists ((b, n') :: l'). split_and!; [done|done| |set_solver|exists (b, n'); split; [set_solver|done]].
    change ((b, n') :: l' ++ live) with (((b, n') :: l') ++ live). rewrite <- Eu. by apply tiles_upper.
  - subst y fl. exists (l1 ++ with_lower p m (with_upper b n l2)).
    split_and!; [done|done|by apply link_tiles| |exists x; split; [set_solver|done]].
    rewrite fmap_cons, fmap_app. set_solver.
Qed.

(** The block below the place of [(b, n)], and what is above. *)
Lemma place_split base lo hi b n fl live : 0 < base → base + HDR ≤ lo → ordered ((base, 0) :: fl) →
  tiles lo hi ((b, n) :: fl ++ live) →
  ∃ l1 p m l2, (base, 0) :: fl = l1 ++ (p, m) :: l2 ∧ bend (p, m) ≤ b ∧ Forall (λ x, b + HDR * n ≤ fst x) l2 ∧
    Forall (λ x, bend x ≤ b) l1.
Proof.
  intros Hbase Hlo Ho (([Hd _]%Forall_app & _) & Hb & _).
  inversion Hb as [|? ? (Hb1 & Hn & Hb2) Hb']; subst. apply Forall_app in Hb' as [Hb' _]. cbn [fst snd] in *.
  destruct (ordered_split b n ((base, 0) :: fl) Hn Ho) as (l1 & l2 & E & Hlow & Hup).
  { constructor; [done|]. eapply Forall_impl; [exact Hb'|]. simpl. lia. }
  { constructor; [|done]. right. unfold bend, HDR in *. simpl. lia. }
  destruct (exists_last (l:=l1)) as (l1' & [p m] & ->).
  { intros ->. simpl in E. subst l2. inversion Hup; subst. unfold HDR in *. simpl in *. lia. }
  apply Forall_app in Hlow as [Hlow Hp]. exists l1', p, m, l2. rewrite <- app_assoc in E.
  split_and!; [done|by inversion Hp|done|done].
Qed.

(** Blocks have different addresses. *)
Lemma tiles_nodup base lo hi bs : base < lo → tiles lo hi bs → NoDup (base :: bs.*1).
Proof.
  intros Hlo (Ha & Hb & _). constructor.
  - intros ([a n] & -> & Hin)%list_elem_of_fmap. rewrite Forall_forall in Hb. specialize (Hb _ Hin). simpl in *. lia.
  - induction bs as [|[a n] bs IH]; [constructor|]. destruct Ha as [Hd Ha]. inversion Hb as [|? ? Hx Hb']; subst.
    constructor; [|by apply IH]. intros ([c k] & Ec & Hin)%list_elem_of_fmap. cbn [fst snd] in *. subst c.
    rewrite Forall_forall in Hd, Hb'. specialize (Hd _ Hin). specialize (Hb' _ Hin).
    unfold disj, bend, HDR in *. cbn [fst snd] in *. lia.
Qed.

Lemma size_join b p s x : x ≠ b → x ≠ p → size (join_lower b p (join_upper b p s)) x = size s x.
Proof.
  intros. assert (H1 : size (join_upper b p s) x = size s x).
  { unfold join_upper. destruct (_ =? _); rewrite ?size_set_ptr, ?size_set_ne by done; done. }
  unfold join_lower. destruct (_ =? _); rewrite ?size_set_ptr, ?size_set_ne by done; done.
Qed.

Lemma brk_join b p s : u_brk (join_lower b p (join_upper b p s)) = u_brk s ∧ u_top (join_lower b p (join_upper b p s)) = u_top s.
Proof. unfold join_lower, join_upper. repeat destruct (_ =? _); done. Qed.

(** The two joins make the ring of the new list. *)
Lemma join_ring base hi s b n p m l1 l2 : hi < 2 ^ 32 → 0 < base < b → 0 < p < b → 1 ≤ n → b + HDR * n ≤ hi → 0 ≤ m →
  bend (p, m) ≤ b → size s b = n → Forall (λ e, 0 ≤ snd e ∧ bend e ≤ hi) l2 →
  seg s base (l1 ++ (p, m) :: l2) base → b ∉ (l1 ++ (p, m) :: l2).*1 → NoDup (l1 ++ (p, m) :: l2).*1 →
  Forall (λ x, b + HDR * n ≤ fst x) l2 → 
  seg (join_lower b p (join_upper b p s)) base (l1 ++ with_lower p m (with_upper b n l2)) base.
Proof.
  intros Hhi Hbase Hp Hn Hb Hm Hpb Hsz Hl2 Hs Hnb Hnd Hup. apply seg_app in Hs as (q & Hs1 & -> & Hpm & Hs2).
  rewrite fmap_app, fmap_cons in Hnb, Hnd. apply not_elem_of_app in Hnb as [Hnb1 Hnb2]. apply not_elem_of_cons in Hnb2 as [Hbp Hnb2].
  apply NoDup_app in Hnd as (_ & Hd & [Hp2 _]%NoDup_cons). cbn [fst] in *.
  assert (Hp1 : p ∉ l1.*1) by (intros Hin; apply (Hd p Hin); left).
  destruct (join_upper_ring base hi Hhi s b n p l2 Hbase Hn Hb Hsz Hbp Hnb2 Hl2 Hs2) as (Hu & Hpu & Hszu & Hsegu).
  assert (Hpos2 : Forall (λ e, 0 ≤ snd e) l2) by (eapply Forall_impl; [exact Hl2|]; simpl; lia).
  destruct (with_upper_head b n l2 Hn Hpos2) as (n' & l' & Eu & Hn' & [l3 Hl3]). rewrite Eu in *.
  assert (Hend : b + HDR * n' ≤ hi).
  { destruct l2 as [|[q k] l2]; simpl in Eu; [injection Eu as <- <-; done|].
    apply Forall_cons in Hl2 as [[Hk Hq] _]. unfold bend in Hq. cbn [fst snd] in *.
    destruct (Z.eqb_spec (b + HDR * n) q); injection Eu as <- <-; unfold HDR in *; lia. }
  apply (join_lower_ring base hi Hhi); [lia|done|lia|done|done|by apply Hsegu| |done|done|].
  - rewrite Hszu by done. done.
  - rewrite Hl3, fmap_app in Hp2. set_solver.
Qed.

Lemma heap_nodup base lo s fl live : heap base lo s fl live →
  NoDup ((base, 0) :: fl).*1 ∧ NoDup live.*1 ∧ Forall (λ x, fst x ∉ ((base, 0) :: fl).*1) live.
Proof.
  intros H. pose proof (h_base H). pose proof (tiles_nodup base lo _ _ ltac:(unfold HDR in *; lia) (h_tiles H)) as Hnd.
  rewrite fmap_app in Hnd. rewrite !fmap_cons. cbn [fst] in *.
  apply NoDup_cons in Hnd as [Hb0 (Hf & Hd & Hl)%NoDup_app]. split; [apply NoDup_cons; split; [set_solver|done]|].
  split; [done|].
  apply Forall_forall. intros x Hx. apply (list_elem_of_fmap_2 fst) in Hx. set_solver.
Qed.

Lemma heap_bounds base lo s fl live : heap base lo s fl live →
  Forall (λ e, 0 < fst e ∧ 0 ≤ snd e ∧ bend e ≤ u_brk s) ((base, 0) :: fl).
Proof.
  intros H. pose proof (h_base H). destruct (h_tiles H) as (_ & Hb & Ht). constructor.
  - unfold bend, HDR in *. cbn [fst snd] in *. assert (0 ≤ total (fl ++ live)); [|lia].
    clear Ht. induction Hb as [|x bs Hx _ IH]; simpl; lia.
  - apply Forall_app in Hb as [Hb _]. eapply Forall_impl; [exact Hb|]. unfold HDR in *. simpl. lia.
Qed.

(** free() links the block. *)
Lemma free_links base lo s b n fl live fuel : heap base lo s fl ((b, n) :: live) → (length fl + 1 < fuel)%nat →
  ∃ s' fl', free fuel (b + HDR) s = Some s' ∧ heap base lo s' fl' live ∧
    u_brk s' = u_brk s ∧ u_top s' = u_top s ∧ (length fl' ≤ S (length fl))%nat ∧ ∃ x, x ∈ fl' ∧ n ≤ snd x.
Proof.
  intros H Hfuel. destruct (heap_nodup _ _ _ _ _ H) as (Hnd & Hbl & [Hbn Hlv]%Forall_cons).
  pose proof (heap_bounds _ _ _ _ _ H) as Hpos. destruct H as [Ho Hs Hfp Ht [Hsz Hlive]%Forall_cons [Hbase Hlo] Htop].
  cbn [fst snd] in *. rewrite <- Permutation_middle in Ht.
  destruct (place_split base lo (u_brk s) b n fl live Hbase Hlo Ho Ht) as (l1 & p & m & l2 & E & Hpb & Hup & Hlow).
  pose proof Ht as (_ & [(Hb1 & Hn & Hb2) _]%Forall_cons & _). unfold bend in Hb2. cbn [fst snd] in *.
  destruct (link_lists base lo (u_brk s) p m l1 b n l2 fl live Hbase Hlo Hn E Ho Ht Hpb Hup) as (fl' & E' & Ho' & Ht' & Hp' & Hx).
  assert (Hlen : (length fl' ≤ S (length fl))%nat).
  { apply (f_equal length) in E, E'. rewrite length_app in E, E'. simpl in E, E'.
    pose proof (length_linked p m b n l2). lia. }
  rewrite E in Hbn, Hnd, Hpos, Hs, Hfp, Ho.
  assert (Hpos0 : Forall (λ e, 0 ≤ snd e) (l1 ++ (p, m) :: l2)) by (eapply Forall_impl; [exact Hpos|]; simpl; lia).
  assert (Hp : 0 < p < b).
  { apply Forall_app in Hpos as [_ [Hm _]%Forall_cons]. rewrite fmap_app in Hbn. assert (p ≠ b) by set_solver.
    unfold bend, HDR in *. cbn [fst snd] in *. lia. }
  assert (Hplace : find_loop fuel s b (u_freep s) = Some p).
  { apply (find_place s base l1 p m l2); [done|done|done|unfold HDR in *; lia|lia| |done|].
    - eapply Forall_impl; [exact Hup|]. intros x. unfold HDR. simpl. lia.
    - rewrite <- E. simpl. lia. }
  exists (set_freep p (join_lower b p (join_upper b p s))), fl'. destruct (brk_join b p s) as [Eb Et].
  split; [unfold free; replace (u32 (b + HDR - HDR)) with b by (rewrite u32_small; unfold HDR in *; lia); by rewrite Hplace|].
  split; [|by split_and!]. split; [done| |done|simpl; by rewrite Eb| |done|simpl; by rewrite Eb, Et].
  - rewrite seg_set_freep, <- E'. apply Forall_app in Hpos as [_ [(_ & Hm & _) Hpos2]%Forall_cons].
    apply (join_ring base (u_brk s)); try done; try (unfold HDR in *; lia).
    eapply Forall_impl; [exact Hpos2|]. simpl. lia.
  - apply Forall_forall. intros x Hin. rewrite Forall_forall in Hlive, Hlv. specialize (Hlv _ Hin). rewrite E, fmap_app in Hlv.
    change (size (join_lower b p (join_upper b p s)) (fst x) = snd x). rewrite size_join; [by apply Hlive| |set_solver].
    intros Exb. rewrite fmap_cons in Hbl. apply NoDup_cons in Hbl as [Hbl _]. apply Hbl. cbn [fst].
    rewrite <- Exb. by apply list_elem_of_fmap_2.
Qed.

Lemma heap_fuel_enough base lo s fl live : heap base lo s fl live → (3 * length fl + 10 ≤ heap_fuel lo s)%nat.
Proof.
  intros H. pose proof (h_top H). pose proof (tiles_length _ _ _ (h_tiles H)) as Ht. rewrite length_app in Ht.
  unfold heap_fuel. assert ((u_brk s - lo) `div` HDR ≤ (u_top s - lo) `div` HDR) by (apply Z.div_le_mono; [done|lia]). lia.
Qed.

(** ** Taking a block *)

Lemma seg_pred s base nodes prev j a : seg s base nodes base → (prev, j) ∈ nodes → ptr s prev = a → a ≠ base →
  ∃ n1 n n2, nodes = n1 ++ (prev, j) :: (a, n) :: n2 ∧ size s a = n.
Proof.
  intros Hs (n1 & m & ->)%list_elem_of_split Ha Hne. apply seg_app in Hs as (q & _ & -> & _ & Hm).
  pose proof (seg_first _ _ _ _ Hm) as Hf. rewrite Ha in *. destruct m as [|[c n] n2]; [done|]. simpl in Hf. subst c.
  exists n1, n, n2. split; [done|]. apply Hm.
Qed.

(** Taking a whole block out of the ring. *)
Lemma seg_unlink s base n1 prev j a n n2 : seg s base (n1 ++ (prev, j) :: (a, n) :: n2) base →
  NoDup (n1 ++ (prev, j) :: (a, n) :: n2).*1 → seg (set_ptr prev (ptr s a) s) base (n1 ++ (prev, j) :: n2) base.
Proof.
  rewrite fmap_app, !fmap_cons. intros (q & H1 & -> & Hj & Ha & Hn & H2)%seg_app Hnd.
  apply NoDup_app in Hnd as (_ & Hd & [Hp [_ _]%NoDup_cons]%NoDup_cons). cbn [fst] in *.
  apply seg_app. exists prev. split; [rewrite seg_set_ptr; [done|]; intros Hin; apply (Hd _ Hin); left|].
  cbn [seg]. autorewrite with fields. split_and!; [done|done|]. rewrite seg_set_ptr; [done|set_solver].
Qed.

(** Making a block smaller. *)
Lemma seg_resize s base n1 a n k n2 : seg s base (n1 ++ (a, n) :: n2) base → NoDup (n1 ++ (a, n) :: n2).*1 →
  seg (set_size a k s) base (n1 ++ (a, k) :: n2) base.
Proof.
  rewrite fmap_app, !fmap_cons. intros (q & H1 & -> & Hj & H2)%seg_app Hnd.
  apply NoDup_app in Hnd as (_ & Hd & [Hp _]%NoDup_cons). cbn [fst] in *.
  apply seg_app. exists a. split; [rewrite seg_set_size; [done|]; intros Hin; apply (Hd _ Hin); left|].
  cbn [seg]. autorewrite with fields. split_and!; [done|done|]. by rewrite seg_set_size.
Qed.

Lemma ordered_remove n1 x n2 : ordered (n1 ++ x :: n2) → ordered (n1 ++ n2).
Proof.
  rewrite !ordered_app. intros (H1 & H2 & H3). inversion H2; subst. split_and!; [done|done|].
  eapply Forall_impl; [exact H3|]. intros y Hy. by inversion Hy.
Qed.

Lemma ordered_shrink n1 a n k n2 : 0 ≤ k ≤ n → ordered (n1 ++ (a, n) :: n2) → ordered (n1 ++ (a, k) :: n2).
Proof.
  intros Hk. rewrite !ordered_app. intros (H1 & H2 & H3). inversion H2 as [|? ? H4 H5]; subst. split_and!; [done| |].
  - constructor; [done|]. eapply Forall_impl; [exact H5|]. intros y. unfold before, bend, HDR. simpl. lia.
  - eapply Forall_impl; [exact H3|]. intros y Hy. inversion Hy; subst. by constructor.
Qed.

(** The list around a block of the ring. *)
Lemma ring_around (base : Z) fl n1 (p : block) x n2 : (base, 0) :: fl = n1 ++ p :: x :: n2 →
  ∃ f1, (base, 0) :: f1 = n1 ++ [p] ∧ fl = f1 ++ x :: n2 ∧ ∀ m, (base, 0) :: f1 ++ m = n1 ++ p :: m.
Proof.
  intros E. destruct n1 as [|y n1]; simpl in E; injection E as -> ->; [by exists []|].
  exists (n1 ++ [p]). split_and!; [done|by rewrite <- app_assoc|]. intros m. simpl. by rewrite <- app_assoc.
Qed.

(** The whole block [(a, n)] becomes live, *)
Lemma take_whole base lo s fl live n1 prev j a n n2 : heap base lo s fl live →
  (base, 0) :: fl = n1 ++ (prev, j) :: (a, n) :: n2 →
  ∃ fl', heap base lo (set_freep prev (set_ptr prev (ptr s a) s)) fl' ((a, n) :: live).
Proof.
  intros H E. destruct (heap_nodup _ _ _ _ _ H) as (Hnd & _ & _). pose proof H as [Ho Hs Hfp Ht Hl Hb Htop].
  destruct (ring_around _ _ _ _ _ _ E) as (f1 & E1 & -> & E2). exists (f1 ++ n2). rewrite E in Hs, Hnd. split; try done.
  - by apply (ordered_remove ((base, 0) :: f1) (a, n)).
  - rewrite seg_set_freep, E2. by apply (seg_unlink s base n1 prev j a n n2).
  - rewrite E2, fmap_app. simpl. set_solver.
  - simpl. eapply tiles_perm; [|exact Ht]. solve_Permutation.
  - constructor; [|done]. simpl. apply seg_app in Hs as (q & _ & _ & _ & _ & ? & _). done.
Qed.

(** or its upper end. *)
Lemma take_end base lo s fl live n1 prev j a n n2 k : heap base lo s fl live → 1 ≤ k < n →
  (base, 0) :: fl = n1 ++ (prev, j) :: (a, n) :: n2 →
  ∃ fl', heap base lo (set_freep prev (set_size (a + HDR * (n - k)) k (set_size a (n - k) s))) fl'
    ((a + HDR * (n - k), k) :: live).
Proof.
  intros H Hk E. destruct (heap_nodup _ _ _ _ _ H) as (Hnd & _ & _). pose proof H as [Ho Hs Hfp Ht Hl Hb Htop].
  destruct (ring_around _ _ _ _ _ _ E) as (f1 & E1 & -> & E2). exists (f1 ++ (a, n - k) :: n2). rewrite E in Hs, Hnd.
  set (b := a + HDR * (n - k)).
  assert (Ht' : tiles lo (u_brk s) ((b, k) :: (f1 ++ (a, n - k) :: n2) ++ live)).
  { eapply tiles_perm; [|apply (tiles_split lo _ a n k (f1 ++ n2 ++ live) Hk)]; [solve_Permutation|].
    eapply tiles_perm; [|exact Ht]. solve_Permutation. }
  pose proof (tiles_nodup base lo _ _ ltac:(unfold HDR in *; lia) Ht') as Hnd2.
  assert (Hnot : b ∉ (n1 ++ (prev, j) :: (a, n - k) :: n2).*1 ∧ Forall (λ x, fst x ≠ a ∧ fst x ≠ b) live).
  { rewrite <- E2. clear - Hnd2. rewrite fmap_cons, !fmap_app, fmap_cons in *. cbn [fst] in *.
    apply NoDup_cons in Hnd2 as [Hb0 [Hb1 (_ & Hd & _)%NoDup_app]%NoDup_cons]. split; [set_solver|].
    apply Forall_forall. intros x Hx. apply (list_elem_of_fmap_2 fst) in Hx.
    split; [|intros Exb; apply Hb1; rewrite <- Exb; apply elem_of_app; by right]. intros Exa. apply (Hd a); [set_solver|]. by rewrite <- Exa. }
  destruct Hnot as [Hnb Hlv]. split; try done.
  - by apply (ordered_shrink ((base, 0) :: f1) a n); [lia|].
  - rewrite seg_set_freep, E2, seg_set_size by done.
    replace (n1 ++ (prev, j) :: (a, n - k) :: n2) with ((n1 ++ [(prev, j)]) ++ (a, n - k) :: n2) by (by rewrite <- app_assoc).
    apply (seg_resize s base _ a n); rewrite <- app_assoc; done.
  - rewrite E2, fmap_app. simpl. set_solver.
  - simpl. eapply tiles_perm; [|exact Ht']. solve_Permutation.
  - constructor; [exact (size_set_eq (set_size a (n - k) s) b k)|]. apply Forall_forall. intros x Hx. rewrite Forall_forall in Hl, Hlv.
    destruct (Hlv _ Hx) as [H1 H2]. change (size (set_size b k (set_size a (n - k) s)) (fst x) = snd x).
    rewrite !size_set_ne by done. by apply Hl.
Qed.

(** carve(): a block moves from the free to the live blocks. *)
Lemma carve_ok base lo s fl live nunits prev : heap base lo s fl live → 1 ≤ nunits →
  prev ∈ ((base, 0) :: fl).*1 → nunits ≤ size s (ptr s prev) →
  ∃ b s' fl', carve nunits prev (ptr s prev) s = (b + HDR, s') ∧ heap base lo s' fl' ((b, nunits) :: live) ∧
    u_brk s' = u_brk s ∧ u_top s' = u_top s.
Proof.
  intros H Hn Hprev Hfit. pose proof (h_ring H) as Hs. apply list_elem_of_fmap in Hprev as ([prev' j] & -> & Hin).
  cbn [fst] in *. rename prev' into prev.
  assert (Hne : ptr s prev ≠ base) by (intros Eb; destruct Hs as (_ & Hz & _); rewrite Eb in Hfit; lia).
  destruct (seg_pred s base _ prev j (ptr s prev) Hs Hin eq_refl Hne) as (n1 & n & n2 & E & Hsz).
  set (a := ptr s prev) in *. rewrite Hsz in Hfit.
  assert (Hend : 0 < a ∧ a + HDR * n ≤ u_brk s).
  { pose proof (heap_bounds _ _ _ _ _ H) as Hb. rewrite E in Hb. apply Forall_app in Hb as [_ Hb].
    apply Forall_cons in Hb as [_ [Hb _]%Forall_cons]. unfold bend in Hb. simpl in Hb. lia. }
  pose proof (h_top H) as Htop. unfold carve. rewrite Hsz. destruct (Z.eqb_spec n nunits) as [->|Hlt].
  - destruct (take_whole base lo s fl live n1 prev j a nunits n2 H E) as (fl' & H'). exists a, (set_freep prev (set_ptr prev (ptr s a) s)), fl'.
    split_and!; try done; [|apply H'..]. rewrite (padd_small a 1 (2 ^ 31)) by (unfold HDR in *; lia). f_equal; unfold HDR; lia.
  - destruct (take_end base lo s fl live n1 prev j a n n2 nunits H ltac:(lia) E) as (fl' & H').
    rewrite size_set_eq, u32_small by (unfold HDR in *; lia). rewrite (padd_small a (n - nunits) (2 ^ 31)) by (unfold HDR in *; lia).
    do 3 eexists. split; [|split; [exact H'|done]].
    rewrite (padd_small _ 1 (2 ^ 31)) by (unfold HDR in *; lia). f_equal; unfold HDR; lia.
Qed.

(** ** malloc() *)

(** What a search through the ring comes to: a block that is large enough, or back to
    freep with [f] rounds left. *)
Lemma walk s (nodes : list block) nunits l x prev f : seg s x l (u_freep s) → Forall (λ e, fst e ≠ u_freep s) l →
  prev ∈ nodes.*1 → ptr s prev = x → l.*1 ⊆ nodes.*1 →
  (∃ prev', prev' ∈ nodes.*1 ∧ nunits ≤ size s (ptr s prev') ∧
    malloc_loop (length l + S f) nunits prev x s =
      let '(r, s') := carve nunits prev' (ptr s prev') s in Some (Some r, s')) ∨
  (Forall (λ e, snd e < nunits) l ∧ size s (u_freep s) < nunits ∧
    malloc_loop (length l + S f) nunits prev x s =
      match morecore (S f) nunits s with
      | None => None
      | Some (None, s) => Some (None, s)
      | Some (Some p, s) => malloc_loop f nunits p (ptr s p) s
      end).
Proof.
  revert x prev. induction l as [|[a n] l IH]; intros x prev Hs Hne Hprev Hx Hsub; cbn [length Nat.add malloc_loop].
  - cbn [seg] in Hs. rewrite Hs in Hx |- *. destruct (Z.leb_spec nunits (size s (u_freep s))).
    + left. exists prev. rewrite Hx. by split_and!.
    + right. split_and!; [constructor|done|]. by rewrite Z.eqb_refl.
  - destruct Hs as (-> & Hn & Hs). apply Forall_cons in Hne as [Hna Hne]. cbn [fst] in *.
    destruct (Z.leb_spec nunits (size s a)) as [Hfit|Hfit].
    { left. exists prev. rewrite Hx. by split_and!. }
    destruct (Z.eqb_spec a (u_freep s)); [done|].
    destruct (IH (ptr s a) a Hs Hne) as [Hl|(Hall & Hrest)]; [set_solver|done|set_solver|by left|].
    right. split; [|done]. constructor; [simpl; lia|done].
Qed.

(** Once around the ring, from freep. *)
Lemma around base lo s fl live nunits f : heap base lo s fl live → 1 ≤ nunits →
  (∃ b s' fl', malloc_loop (length fl + S f) nunits (u_freep s) (ptr s (u_freep s)) s = Some (Some (b + HDR), s') ∧
    heap base lo s' fl' ((b, nunits) :: live) ∧ u_brk s' = u_brk s ∧ u_top s' = u_top s) ∨
  (Forall (λ e, snd e < nunits) fl ∧
    malloc_loop (length fl + S f) nunits (u_freep s) (ptr s (u_freep s)) s =
      match morecore (S f) nunits s with
      | None => None
      | Some (None, s) => Some (None, s)
      | Some (Some p, s) => malloc_loop f nunits p (ptr s p) s
      end).
Proof.
  intros H Hn. destruct (heap_nodup _ _ _ _ _ H) as (Hnd & _ & _). pose proof (h_ring H) as Hs.
  pose proof (h_freep H) as Hin. pose proof Hin as Hin'. apply list_elem_of_fmap in Hin' as ([fp k] & Efp & Hin').
  apply list_elem_of_split in Hin' as (u & v & E). rewrite E in Hs, Hnd. cbn [fst] in Efp.
  apply seg_app in Hs as (q & Hu & -> & Hk & Hv).
  assert (Hw : seg s (ptr s fp) (v ++ u) (u_freep s)) by (apply seg_app; exists base; by rewrite Efp).
  assert (Hlen : length (v ++ u) = length fl).
  { apply (f_equal length) in E. rewrite length_app in *. simpl in E. lia. }
  assert (Hne : Forall (λ e, fst e ≠ u_freep s) (v ++ u)).
  { rewrite Efp. rewrite fmap_app, fmap_cons in Hnd. apply NoDup_app in Hnd as (_ & Hd & [Hv' _]%NoDup_cons). cbn [fst] in *.
    apply Forall_forall. intros e He Ee. apply (list_elem_of_fmap_2 fst) in He. rewrite Ee, fmap_app, elem_of_app in He.
    destruct He as [He|He]; [done|]. apply (Hd _ He). left. }
  assert (Hsub : (v ++ u).*1 ⊆ ((base, 0) :: fl).*1) by (rewrite E, !fmap_app; simpl; set_solver).
  destruct (walk s ((base, 0) :: fl) nunits (v ++ u) (ptr s fp) (u_freep s) f Hw Hne Hin ltac:(by rewrite Efp) Hsub)
    as [(prev & Hprev & Hfit & Er)|(Hall & Hfp & Er)]; rewrite Hlen, <- Efp in Er.
  - left. destruct (carve_ok base lo s fl live nunits prev H Hn Hprev Hfit) as (b & s' & fl' & Ec & H' & Hb).
    exists b, s', fl'. split; [|done]. by rewrite Er, Ec.
  - right. split; [|exact Er].
    assert (Hall' : Forall (λ e, snd e < nunits) ((base, 0) :: fl)).
    { rewrite E. apply Forall_app in Hall as [H1 H2]. apply Forall_app. split; [done|]. constructor; [|done].
      simpl. rewrite Efp, Hk in Hfp. done. }
    by apply Forall_cons in Hall' as [_ ?].
Qed.

(** morecore(): more memory, if there is enough below the top. *)
Definition core_units (nu : Z) : Z := if nu <? 4096 then 4096 else nu.

Lemma morecore_ok base lo s fl live nunits fuel : heap base lo s fl live → 1 ≤ nunits → HDR * nunits < 2 ^ 31 →
  (length fl + 1 < fuel)%nat →
  (u_top s < u_brk s + HDR * core_units nunits ∧ morecore fuel nunits s = Some (None, s)) ∨
  (∃ s' fl', morecore fuel nunits s = Some (Some (u_freep s'), s') ∧ heap base lo s' fl' live ∧ u_top s' = u_top s ∧
    (length fl' ≤ S (length fl))%nat ∧ ∃ x, x ∈ fl' ∧ nunits ≤ snd x).
Proof.
  intros H Hn Hsmall Hf. pose proof (h_top H) as Htop. pose proof (heap_bounds _ _ _ _ _ H) as [Hb0 _]%Forall_cons.
  unfold bend in Hb0. cbn [fst snd] in Hb0. pose proof (h_base H) as Hbase.
  unfold morecore. fold (core_units nunits). set (nu := core_units nunits).
  assert (Hnu : nunits ≤ nu ∧ 4096 ≤ nu ∧ HDR * nu < 2 ^ 31) by (unfold nu, core_units, HDR in *; destruct (Z.ltb_spec nunits 4096); lia).
  assert (Earg : i32 (u32 (nu * HDR)) = HDR * nu).
  { rewrite u32_small, i32_small by (unfold HDR in *; lia). lia. }
  rewrite Earg. unfold sbrk. destruct (Z.ltb_spec 0 (HDR * nu)); [|unfold HDR in *; lia].
  destruct (Z.leb_spec (u_brk s + HDR * nu) (u_top s)) as [Hle|Hle]; [right|by left; split].
  set (s1 := set_size (u_brk s) nu (set_brk (u_brk s + HDR * nu) s)).
  assert (H1 : heap base lo s1 fl ((u_brk s, nu) :: live)).
  { pose proof (tiles_grow lo (u_brk s) nu _ ltac:(lia) (h_tiles H)) as Ht.
    pose proof (tiles_nodup base lo _ _ ltac:(unfold HDR in *; lia) Ht) as Hnd. rewrite fmap_cons, fmap_app in Hnd. cbn [fst] in Hnd.
    apply NoDup_cons in Hnd as [Hnb [Hnd _]%NoDup_cons].
    destruct H as [Ho Hs Hfp Ht0 Hl Hb Ht1]. split; try done.
    - unfold s1. rewrite seg_set_size, seg_set_brk; [done|]. rewrite fmap_cons. cbn [fst]. set_solver.
    - simpl. by rewrite <- Permutation_middle.
    - constructor; [exact (size_set_eq (set_brk _ s) _ _)|]. apply Forall_forall. intros x Hx.
      unfold s1. rewrite size_set_ne; [by apply (proj1 (Forall_forall _ _) Hl)|].
      intros Ex. apply Hnd. rewrite <- Ex. apply elem_of_app. right. by apply list_elem_of_fmap_2.
    - simpl. lia. }
  destruct (free_links base lo s1 (u_brk s) nu fl live fuel H1 Hf) as (s' & fl' & Ef & H' & _ & Et & Hlen & x & Hx & Hnx).
  exists s', fl'. replace (padd (u_brk s) 1) with (u_brk s + HDR) by (unfold padd, HDR in *; rewrite u32_small by lia; lia).
  rewrite Ef. split_and!; try done. exists x. split; [done|lia].
Qed.

(** malloc() on a heap in use. *)
Lemma malloc_loop_ok base lo s fl live nunits fuel : heap base lo s fl live → 1 ≤ nunits → HDR * nunits < 2 ^ 31 →
  (3 * length fl + 10 ≤ fuel)%nat →
  (∃ b s' fl', malloc_loop fuel nunits (u_freep s) (ptr s (u_freep s)) s = Some (Some (b + HDR), s') ∧
    heap base lo s' fl' ((b, nunits) :: live) ∧ u_top s' = u_top s) ∨
  (malloc_loop fuel nunits (u_freep s) (ptr s (u_freep s)) s = Some (None, s) ∧
    Forall (λ e, snd e < nunits) fl ∧ u_top s < u_brk s + HDR * core_units nunits).
Proof.
  intros H Hn Hsmall Hf. destruct (around base lo s fl live nunits (fuel - S (length fl)) H Hn) as [Hok|(Hall & Er)].
  - left. destruct Hok as (b & s' & fl' & Er & H' & _ & Ht). exists b, s', fl'. split_and!; [|done|done].
    by replace fuel with (length fl + S (fuel - S (length fl)))%nat by lia.
  - replace fuel with (length fl + S (fuel - S (length fl)))%nat by lia. rewrite Er.
    destruct (morecore_ok base lo s fl live nunits (S (fuel - S (length fl))) H Hn Hsmall ltac:(lia))
      as [[Hno ->]|(s1 & fl1 & -> & H1 & Ht1 & Hlen1 & x & Hx & Hnx)]; [by right|left].
    destruct (around base lo s1 fl1 live nunits (fuel - S (length fl) - S (length fl1)) H1 Hn) as [Hok|(Hall1 & _)].
    + destruct Hok as (b & s' & fl' & Er' & H' & _ & Ht). exists b, s', fl'. split_and!; [|done|congruence].
      by replace (fuel - S (length fl))%nat with (length fl1 + S (fuel - S (length fl) - S (length fl1)))%nat by lia.
    + rewrite Forall_forall in Hall1. specialize (Hall1 _ Hx). lia.
Qed.

Lemma units_spec n : 0 ≤ n ≤ 2 ^ 31 - 16 → 1 ≤ units n ∧ HDR * units n < 2 ^ 31 ∧ n ≤ HDR * (units n - 1) < n + HDR.
Proof.
  intros Hn. unfold units, HDR. rewrite u32_small by lia.
  pose proof (Z.div_mod (n + 8 - 1) 8 ltac:(lia)). pose proof (Z.mod_pos_bound (n + 8 - 1) 8 ltac:(lia)). lia.
Qed.

(** ** Programs that use the allocator *)

(** Before the first malloc(). *)
Definition fresh (base lo : Z) (s : ust) : Prop :=
  u_freep s = 0 ∧ u_brk s = lo ∧ 0 < base ∧ base + HDR ≤ lo ∧ u_brk s ≤ u_top s < 2 ^ 31.

Definition first_use (base : Z) (s : ust) : ust := set_size base 0 (set_freep base (set_ptr base base s)).

Lemma first_use_heap base lo s : fresh base lo s → heap base lo (first_use base s) [] [].
Proof.
  intros (Hf & Hb & Hbase & Hlo & Htop). split; try done.
  - repeat constructor.
  - cbn [seg]. unfold first_use. rewrite size_set_eq, ptr_set_size. split_and!; try done. exact (ptr_set_eq s base base).
  - simpl. set_solver.
  - simpl. rewrite Hb. split_and!; [done|constructor|simpl; lia].
Qed.

(** The states of a program that allocates up to 2 GB at a time and frees what it has,
    with the blocks it has. *)
Inductive uses (base lo : Z) : ust → list block → Prop :=
| uses_start s : fresh base lo s → uses base lo s []
| uses_malloc s live n r s' : uses base lo s live → 0 ≤ n ≤ 2 ^ 31 - 16 →
    malloc base (heap_fuel lo s) n s = Some (Some r, s') → uses base lo s' ((r - HDR, units n) :: live)
| uses_refused s live n s' : uses base lo s live → 0 ≤ n ≤ 2 ^ 31 - 16 →
    malloc base (heap_fuel lo s) n s = Some (None, s') → uses base lo s' live
| uses_free s l1 b n l2 s' : uses base lo s (l1 ++ (b, n) :: l2) →
    free (heap_fuel lo s) (b + HDR) s = Some s' → uses base lo s' (l1 ++ l2).

Definition heap_state (base lo : Z) (s : ust) (live : list block) : Prop :=
  (fresh base lo s ∧ live = []) ∨ ∃ fl, heap base lo s fl live.

(** malloc() always returns, and what. *)
Lemma malloc_returns base lo s live n : heap_state base lo s live → 0 ≤ n ≤ 2 ^ 31 - 16 →
  ∃ r s', malloc base (heap_fuel lo s) n s = Some (r, s') ∧ u_top s' = u_top s ∧
    match r with
    | Some r => heap_state base lo s' ((r - HDR, units n) :: live)
    | None => heap_state base lo s' live ∧ u_brk s' = u_brk s ∧ u_top s < u_brk s + HDR * core_units (units n)
    end.
Proof.
  intros Hs Hn. destruct (units_spec n Hn) as (Hu & Hsmall & _).
  set (s0 := if u_freep s =? 0 then first_use base s else s).
  assert (H0 : (∃ fl, heap base lo s0 fl live) ∧ heap_fuel lo s = heap_fuel lo s0 ∧ u_top s0 = u_top s ∧ u_brk s0 = u_brk s).
  { unfold s0. destruct Hs as [[Hf ->]|[fl H]].
    - pose proof Hf as (E & _). rewrite E. split_and!; try done. exists []. by apply first_use_heap.
    - assert (u_freep s ≠ 0).
      { pose proof (h_freep H) as Hin. pose proof (heap_bounds _ _ _ _ _ H) as Hb. rewrite Forall_forall in Hb.
        apply list_elem_of_fmap in Hin as (e & -> & Hin). specialize (Hb _ Hin). lia. }
      destruct (Z.eqb_spec (u_freep s) 0); [done|]. split_and!; eauto. }
  destruct H0 as ((fl & H) & Ef & Et & Eb). pose proof (heap_fuel_enough _ _ _ _ _ H) as Hfuel.
  unfold malloc. fold (first_use base s). fold s0. rewrite Ef.
  destruct (malloc_loop_ok base lo s0 fl live (units n) _ H Hu Hsmall Hfuel) as [(b & s' & fl' & -> & H' & Ht)|(-> & _ & Hno)].
  - exists (Some (b + HDR)), s'. split_and!; [done|congruence|]. right. exists fl'. by replace (b + HDR - HDR) with b by lia.
  - exists None, s0. split_and!; try done; [by right; exists fl|congruence].
Qed.

Lemma free_returns base lo s l1 b n l2 : heap_state base lo s (l1 ++ (b, n) :: l2) →
  ∃ s', free (heap_fuel lo s) (b + HDR) s = Some s' ∧ heap_state base lo s' (l1 ++ l2).
Proof.
  intros [[_ E]|[fl H]]; [by destruct l1|]. pose proof (heap_fuel_enough _ _ _ _ _ H) as Hfuel.
  assert (H1 : heap base lo s fl ((b, n) :: l1 ++ l2)).
  { destruct H. split; try done; by rewrite Permutation_middle. }
  destruct (free_links base lo s b n fl (l1 ++ l2) (heap_fuel lo s) H1 ltac:(lia)) as (s' & fl' & E & H' & _).
  exists s'. split; [done|]. right. by exists fl'.
Qed.

Lemma uses_state base lo s live : uses base lo s live → heap_state base lo s live.
Proof.
  induction 1 as [s Hf|s live n r s' _ IH Hn E|s live n s' _ IH Hn E|s l1 b n l2 s' _ IH E].
  - by left.
  - destruct (malloc_returns base lo s live n IH Hn) as (r' & s1 & E' & _ & H). rewrite E in E'. by injection E' as <- <-.
  - destruct (malloc_returns base lo s live n IH Hn) as (r' & s1 & E' & _ & H). rewrite E in E'. injection E' as <- <-. apply H.
  - destruct (free_returns base lo s l1 b n l2 IH) as (s1 & E' & H). rewrite E in E'. by injection E' as <-.
Qed.

(** The blocks of a program do not overlap and lie in the memory sbrk() gave. *)
Definition sound (lo : Z) (s : ust) (live : list block) : Prop :=
  apart live ∧ Forall (λ x, lo ≤ fst x ∧ bend x ≤ u_brk s) live.

(** C27: the allocator.  Whatever a program does with malloc (of at most 2 GB) and free,
    both return, the blocks it has at any time do not overlap and lie in the memory it got
    from the kernel, a block of malloc(n) has room for n bytes and less than 8 more behind
    its header, free() of a block it has succeeds, and malloc refuses only when the memory
    of the process cannot grow by what it asks for. *)
Theorem malloc_free_sound base lo s live n : uses base lo s live → 0 ≤ n ≤ 2 ^ 31 - 16 →
  sound lo s live ∧
  (∃ r s', malloc base (heap_fuel lo s) n s = Some (r, s') ∧
     match r with
     | Some p => sound lo s' ((p - HDR, units n) :: live) ∧ n ≤ bend (p - HDR, units n) - p < n + HDR
     | None => sound lo s' live ∧ u_top s < u_brk s + HDR * core_units (units n)
     end) ∧
  (∀ l1 b m l2, live = l1 ++ (b, m) :: l2 → ∃ s', free (heap_fuel lo s) (b + HDR) s = Some s' ∧ sound lo s' (l1 ++ l2)).
Proof.
  intros Hu%uses_state Hn.
  assert (Hsound : ∀ s live, heap_state base lo s live → sound lo s live).
  { clear. intros s live [[_ ->]|[fl H]]; [split; constructor|]. destruct (h_tiles H) as (Ha & Hb & _).
    apply apart_app in Ha as (_ & Ha & _). apply Forall_app in Hb as [_ Hb]. split; [done|].
    eapply Forall_impl; [exact Hb|]. simpl. lia. }
  split; [by apply Hsound|split].
  - destruct (malloc_returns base lo s live n Hu Hn) as (r & s' & E & _ & H). exists r, s'. split; [done|].
    destruct (units_spec n Hn) as (_ & _ & Hsz). destruct r as [p|].
    + split; [by apply Hsound|]. unfold bend, HDR in *. cbn [fst snd]. lia.
    + split; [by apply Hsound, (proj1 H)|apply H].
  - intros l1 b m l2 ->. destruct (free_returns base lo s l1 b m l2 Hu) as (s' & E & H). exists s'. split; [done|by apply Hsound].
Qed.

(** Nothing is fragmented for good.  When a program has freed everything it has, the
    free list is a single block of all the memory it ever got. *)
Theorem free_coalesces base lo s : uses base lo s [] → u_freep s ≠ 0 →
  seg s base (if u_brk s =? lo then [(base, 0)] else [(base, 0); (lo, (u_brk s - lo) `div` HDR)]) base.
Proof.
  intros [[(E & _) _]|[fl H]]%uses_state Hf; [done|]. pose proof (h_ring H) as Hs.
  destruct (h_tiles H) as (_ & Hb & Ht). rewrite app_nil_r in *. pose proof (h_order H) as Ho.
  inversion Ho as [|? ? Ho' _]; subst.
  assert (Hgap : ∀ l a n, ordered ((a, n) :: l) → Forall (λ b, lo ≤ fst b ∧ 1 ≤ snd b ∧ bend b ≤ u_brk s) ((a, n) :: l) →
    HDR * total ((a, n) :: l) ≤ u_brk s - a - Z.of_nat (length l)).
  { induction l as [|[c m] l IH]; intros a n Hl [(H1 & H2 & H3) Hl']%Forall_cons.
    - unfold bend in H3. simpl in *. lia.
    - inversion Hl as [|? ? Hl1 Hac]; subst. apply Forall_cons in Hac as [Hac _]. specialize (IH c m Hl1 Hl').
      unfold before, bend, HDR in *. simpl in *. lia. }
  destruct fl as [|[a n] fl].
  - simpl in Ht. destruct (Z.eqb_spec (u_brk s) lo); [done|lia].
  - specialize (Hgap fl a n Ho' Hb). pose proof Hb as [(H1 & H2 & H3) _]%Forall_cons. cbn [fst snd] in *.
    assert (fl = [] ∧ a = lo) as [-> ->].
    { destruct fl; [|simpl length in Hgap; lia]. simpl length in Hgap. split; [done|lia]. }
    simpl in Ht. destruct (Z.eqb_spec (u_brk s) lo); [unfold HDR in *; lia|].
    replace ((u_brk s - lo) `div` HDR) with n; [done|]. rewrite <- Ht, Z.add_0_r, Z.mul_comm. by rewrite Z.div_mul.
Qed.

(** A request for almost 4 GB wraps around: malloc() returns a block of one unit, without
    room for a single byte. *)
Lemma malloc_wraps : units (2 ^ 32 - 1) = 1.
Proof. done. Qed.

(** A program that allocates two blocks and frees them. *)
Definition demo_start : ust := Ust ∅ ∅ 0 0x3000 0xc000.
Definition demo_fuel : nat := heap_fuel 0x3000 demo_start.
Definition grab (n : Z) (s : ust) : Z * ust :=
  match malloc 0x1000 demo_fuel n s with Some (Some p, s) => (p, s) | _ => (0, s) end.
Definition drop_block (p : Z) (s : ust) : ust := default s (free demo_fuel p s).
Definition demo_one : Z * ust := grab 100 demo_start.
Definition demo_two : Z * ust := grab 50 (snd demo_one).
Definition demo_end : ust := drop_block (fst demo_two) (drop_block (fst demo_one) (snd demo_two)).

Lemma demo_uses : uses 0x1000 0x3000 (snd demo_two) [(fst demo_two - HDR, units 50); (fst demo_one - HDR, units 100)].
Proof.
  assert (H0 : uses 0x1000 0x3000 demo_start []) by (constructor; unfold fresh, HDR; simpl; lia).
  assert (H1 : uses 0x1000 0x3000 (snd demo_one) [(fst demo_one - HDR, units 100)]).
  { apply (uses_malloc _ _ demo_start [] 100); [done|lia|by vm_compute]. }
  apply (uses_malloc _ _ (snd demo_one) _ 50); [done|lia|by vm_compute].
Qed.

Lemma demo_done : uses 0x1000 0x3000 demo_end [].
Proof.
  apply (uses_free _ _ (drop_block (fst demo_one) (snd demo_two)) [] (fst demo_two - HDR) (units 50) []); [|by vm_compute].
  apply (uses_free _ _ (snd demo_two) [_] (fst demo_one - HDR) (units 100) []); [exact demo_uses|by vm_compute].
Qed.

Lemma malloc_free_sound_witness :
  ∃ r s', malloc 0x1000 (heap_fuel 0x3000 (snd demo_two)) 30 (snd demo_two) = Some (r, s') ∧ r ≠ None.
Proof.
  destruct (malloc_free_sound 0x1000 0x3000 _ _ 30 demo_uses ltac:(lia)) as (_ & (r & s' & E & _) & _).
  exists r, s'. split; [exact E|]. intros ->.
  assert (C : match malloc 0x1000 (heap_fuel 0x3000 (snd demo_two)) 30 (snd demo_two) with Some (Some _, _) => true | _ => false end = true)
    by (by vm_compute).
  by rewrite E in C.
Defined.

Lemma free_coalesces_witness : u_freep demo_end ≠ 0 ∧
  seg demo_end 0x1000 (if u_brk demo_end =? 0x3000 then [(0x1000, 0)] else [(0x1000, 0); (0x3000, (u_brk demo_end - 0x3000) `div` HDR)]) 0x1000.
Proof.
  assert (H : u_freep demo_end ≠ 0) by (apply (bool_decide_unpack _); by vm_compute).
  split; [exact H|exact (free_coalesces 0x1000 0x3000 demo_end demo_done H)].
Defined.

(** A request for 2 GB makes the number of bytes for sbrk() negative: the process gets a
    block outside its memory. *)
Lemma malloc_huge_unbacked : ∃ p s', malloc 0x1000 demo_fuel (2 ^ 31) demo_start = Some (Some p, s') ∧ u_brk s' < p.
Proof.
  assert (C : match malloc 0x1000 demo_fuel (2 ^ 31) demo_start with Some (Some p, s') => u_brk s' <? p | _ => false end = true)
    by (by vm_compute).
  destruct (malloc 0x1000 demo_fuel (2 ^ 31) demo_start) as [[[p|] s']|]; [|done..]. exists p, s'. split; [done|].
  by apply Z.ltb_lt.
Qed.
