(* ===== verification/Mp.v ===== *)
(** * mp.c: the multiprocessor tables of the BIOS

    The tables are read from the memory [m], by kernel virtual address.  The messages
    mpinit() prints are left out; [imcr] is what inb(0x23) reads. *)

From stdpp Require Import base gmap list.
From Stdlib Require Import ZArith Lia.
From S2P Require Import Prelude Params Cstring.

Definition MPBOOT : Z := 0x02.
Definition MPPROC : Z := 0x00.
Definition MPBUS : Z := 0x01.
Definition MPIOAPIC : Z := 0x02.
Definition MPIOINTR : Z := 0x03.
Definition MPLINTR : Z := 0x04.

(** The bytes of memory from [p] on. *)
Fixpoint bytes_at (m : mem) (p : Z) (n : nat) : list Z :=
  match n with
  | O => []
  | S n => rd m p :: bytes_at m (p + 1) n
  end.

(** struct mp (16 bytes), struct mpconf (44), struct mpproc (20), struct mpioapic (8). *)
Definition mp_physaddr (m : mem) (mp : Z) : Z := load32 m (mp + 4).
Definition mp_imcrp (m : mem) (mp : Z) : Z := rd m (mp + 12).
Definition conf_length (m : mem) (conf : Z) : Z := rd m (conf + 4) + 2 ^ 8 * rd m (conf + 5).
Definition conf_version (m : mem) (conf : Z) : Z := rd m (conf + 6).
Definition conf_lapicaddr (m : mem) (conf : Z) : Z := load32 m (conf + 36).
Definition proc_apicid (m : mem) (p : Z) : Z := rd m (p + 1).
Definition proc_flags (m : mem) (p : Z) : Z := rd m (p + 3).
Definition ioapic_apicno (m : mem) (p : Z) : Z := rd m (p + 1).

Definition sum (m : mem) (addr : Z) (len : nat) : Z := u8 (foldr Z.add 0 (bytes_at m addr len)).

Definition MP_SIG : list Z := [95; 77; 80; 95].
Definition PCMP_SIG : list Z := [80; 67; 77; 80].

(** [n] steps of 16 bytes. *)
Fixpoint mpsearch_loop (m : mem) (p : Z) (n : nat) : option Z :=
  match n with
  | O => None
  | S n =>
    if bool_decide (bytes_at m p 4 = MP_SIG) && (sum m p 16 =? 0) then Some p
    else mpsearch_loop m (p + 16) n
  end.
Definition mpsearch1 (m : mem) (a len : Z) : option Z := mpsearch_loop m (p2v a) (Z.to_nat ((len + 15) `div` 16)).

Definition mpsearch (m : mem) : option Z :=
  let bda := p2v 0x400 in
  let p := Z.shiftl (Z.lor (Z.shiftl (rd m (bda + 0x0f)) 8) (rd m (bda + 0x0e))) 4 in
  let first :=
    if negb (p =? 0) then mpsearch1 m p 1024
    else mpsearch1 m (Z.lor (Z.shiftl (rd m (bda + 0x14)) 8) (rd m (bda + 0x13)) * 1024 - 1024) 1024 in
  match first with
  | Some mp => Some mp
  | None => mpsearch1 m 0xf0000 0x10000
  end.

(** The floating pointer and the configuration table. *)
Definition mpconfig (m : mem) : option (Z * Z) :=
  match mpsearch m with
  | None => None
  | Some mp =>
    if mp_physaddr m mp =? 0 then None
    else
      let conf := p2v (mp_physaddr m mp) in
      if negb (bool_decide (bytes_at m conf 4 = PCMP_SIG)) then None
      else if negb (conf_version m conf =? 1) && negb (conf_version m conf =? 4) then None
      else if negb (sum m conf (Z.to_nat (conf_length m conf)) =? 0) then None
      else Some (mp, conf)
  end.

(** The globals of mp.c, the ids in cpus[], and the port writes. *)
Record mpst : Type := Mpst {
  bcpu : nat; ismp : bool; ncpu : nat; ioapicid : Z; lapic : Z; cpu_ids : list Z; outs : list (Z * Z)
}.
Definition mp0 : mpst := Mpst 0 false 0 0 0 (replicate NCPU 0) [].

(** The end of mpinit(): a write behind cpus[], or the loop does not end. *)
Inductive mpres : Type := Mdone (s : mpst) | Mundef | Mloops.

Definition add_cpu (apicid flags : Z) (s : mpst) : mpst :=
  let n := ncpu s in
  Mpst (if has flags MPBOOT then n else bcpu s) (ismp s && (Z.of_nat n =? apicid)) (S n) (ioapicid s) (lapic s)
    (<[n := Z.of_nat n]> (cpu_ids s)) (outs s).
Definition set_ioapicid (i : Z) (s : mpst) : mpst :=
  Mpst (bcpu s) (ismp s) (ncpu s) i (lapic s) (cpu_ids s) (outs s).
Definition no_mp (s : mpst) : mpst :=
  Mpst (bcpu s) false (ncpu s) (ioapicid s) (lapic s) (cpu_ids s) (outs s).

(** The loop over the entries of the table. *)
Fixpoint mp_entries (fuel : nat) (m : mem) (p e : Z) (s : mpst) : mpres :=
  match fuel with
  | O => Mloops
  | S f =>
    if p <? e then
      let t := rd m p in
      if t =? MPPROC then
        if (ncpu s <? NCPU)%nat then mp_entries f m (p + 20) e (add_cpu (proc_apicid m p) (proc_flags m p) s)
        else Mundef
      else if t =? MPIOAPIC then mp_entries f m (p + 8) e (set_ioapicid (ioapic_apicno m p) s)
      else if (t =? MPBUS) || (t =? MPIOINTR) || (t =? MPLINTR) then mp_entries f m (p + 8) e s
      else mp_entries f m p e (no_mp s)
    else Mdone s
  end.

Definition mpinit (fuel : nat) (m : mem) (imcr : Z) (s : mpst) : mpres :=
  let s := Mpst 0 (ismp s) (ncpu s) (ioapicid s) (lapic s) (cpu_ids s) (outs s) in
  match mpconfig m with
  | None => Mdone s
  | Some (mp, conf) =>
    let s := Mpst 0 true (ncpu s) (ioapicid s) (conf_lapicaddr m conf) (cpu_ids s) (outs s) in
    match mp_entries fuel m (conf + 44) (conf + conf_length m conf) s with
    | Mdone s =>
      Mdone (if negb (ismp s) then Mpst (bcpu s) false 1 0 0 (cpu_ids s) (outs s)
             else if negb (mp_imcrp m mp =? 0) then
               Mpst (bcpu s) true (ncpu s) (ioapicid s) (lapic s) (cpu_ids s)
                 (outs s ++ [(0x22, 0x70); (0x23, Z.lor imcr 1)])
             else s)
    | r => r
    end
  end.

(** cpus[] keeps its size. *)
Lemma mp_entries_length fuel m p e s s' : mp_entries fuel m p e s = Mdone s' → length (cpu_ids s') = length (cpu_ids s).
Proof.
  revert p s. induction fuel as [|f IH]; intros p s; [done|]. cbn [mp_entries].
  destruct (p <? e); [|by intros [= <-]]. destruct (rd m p =? MPPROC).
  { destruct (_ <? _)%nat; [|done]. intros ->%IH. cbn. apply length_insert. }
  destruct (rd m p =? MPIOAPIC); [by intros ->%IH|]. destruct (_ || _); by intros ->%IH.
Qed.
Lemma mpinit_length fuel m imcr s s' : mpinit fuel m imcr s = Mdone s' → length (cpu_ids s') = length (cpu_ids s).
Proof.
  unfold mpinit. destruct (mpconfig m) as [[mp conf]|]; [|by intros [= <-]].
  destruct (mp_entries _ _ _ _ _) as [s1| |] eqn:E; [|done|done]. intros [= <-].
  apply mp_entries_length in E. destruct (ismp s1); [destruct (mp_imcrp m mp =? 0)|]; exact E.
Qed.

(** What the search and the table read. *)
Lemma bytes_at_ext m m' n : ∀ p, (∀ a, p ≤ a < p + Z.of_nat n → rd m a = rd m' a) → bytes_at m p n = bytes_at m' p n.
Proof.
  induction n as [|n IH]; intros p H; [done|]. cbn [bytes_at]. rewrite H by lia. f_equal. apply IH. intros a Ha. apply H. lia.
Qed.
Lemma mpsearch_loop_ext m m' n : ∀ p, (∀ a, p ≤ a < p + 16 * Z.of_nat n → rd m a = rd m' a) →
  mpsearch_loop m p n = mpsearch_loop m' p n.
Proof.
  induction n as [|n IH]; intros p H; [done|]. cbn [mpsearch_loop]. unfold sum.
  rewrite (bytes_at_ext m m' 4 p), (bytes_at_ext m m' 16 p) by (intros; apply H; lia).
  destruct (_ && _); [done|]. apply IH. intros a Ha. apply H. lia.
Qed.
Lemma mp_entries_ext m m' e fuel : ∀ p s, (∀ a, p ≤ a < e + 20 → rd m a = rd m' a) → mp_entries fuel m p e s = mp_entries fuel m' p e s.
Proof.
  induction fuel as [|f IH]; intros p s H; [done|]. cbn [mp_entries]. destruct (Z.ltb_spec p e); [|done].
  unfold proc_apicid, proc_flags, ioapic_apicno. rewrite !H by lia.
  repeat case_match; try done; apply IH; intros a Ha; apply H; lia.
Qed.

(** ** Tables *)

(** The entries of a table, with the bytes mpinit() does not look at. *)
Inductive mentry : Type :=
| Eproc (apicid version flags : Z) (rest : list Z)
| Eioapic (apicno : Z) (rest : list Z)
| Eother (type : Z) (rest : list Z).
Definition entry_ok (e : mentry) : Prop :=
  match e with
  | Eproc _ _ _ rest => length rest = 16%nat
  | Eioapic _ rest => length rest = 6%nat
  | Eother t rest => (t = MPBUS ∨ t = MPIOINTR ∨ t = MPLINTR) ∧ length rest = 7%nat
  end.
Definition encode (e : mentry) : list Z :=
  match e with
  | Eproc a v f rest => [MPPROC; a; v; f] ++ rest
  | Eioapic n rest => [MPIOAPIC; n] ++ rest
  | Eother t rest => [t] ++ rest
  end.

(** The processors of a table in order, with their flags; the I/O APICs. *)
Definition procs (es : list mentry) : list (Z * Z) :=
  es ≫= λ e, match e with Eproc a _ f _ => [(a, f)] | _ => [] end.
Definition ioapics (es : list mentry) : list Z :=
  es ≫= λ e, match e with Eioapic n _ => [n] | _ => [] end.

(** The last processor that is marked as the boot processor, counted from [k]. *)
Fixpoint boot_cpu (k d : nat) (ps : list (Z * Z)) : nat :=
  match ps with
  | [] => d
  | (_, f) :: ps => boot_cpu (S k) (if has f MPBOOT then k else d) ps
  end.

(** ** Reading a table *)

Lemma bytes_at_app m p a b n : bytes_at m p n = a ++ b → bytes_at m p (length a) = a ∧
  bytes_at m (p + Z.of_nat (length a)) (length b) = b.
Proof.
  revert p n. induction a as [|x a IH]; intros p n; simpl.
  - intros H. split; [done|]. rewrite Z.add_0_r. rewrite <- H at 2. f_equal.
    rewrite <- H. clear. revert p. induction n as [|n IH]; intros p; simpl; [done|]. by f_equal.
  - destruct n as [|n]; [done|]. simpl. intros [= -> H]. destruct (IH _ _ H) as [E1 E2]. split; [by f_equal|].
    replace (p + Z.of_nat (S (length a))) with (p + 1 + Z.of_nat (length a)) by lia. done.
Qed.

Lemma bytes_at_nth m p l i x : bytes_at m p (length l) = l → l !! i = Some x → rd m (p + Z.of_nat i) = x.
Proof.
  revert p i. induction l as [|y l IH]; intros p i H Hi; [done|]. simpl in H. injection H as Hy Hl.
  destruct i as [|i]; simpl in Hi; [injection Hi as <-; by rewrite Z.add_0_r|].
  rewrite <- (IH (p + 1) i Hl Hi). f_equal. lia.
Qed.

(** What one entry does to the state. *)
Definition see (s : mpst) (e : mentry) : mpst :=
  match e with
  | Eproc a _ f _ => add_cpu a f s
  | Eioapic n _ => set_ioapicid n s
  | Eother _ _ => s
  end.

Lemma entry_step m p e f lim s : entry_ok e → bytes_at m p (length (encode e)) = encode e → p < lim →
  ((∃ a v fl r, e = Eproc a v fl r) → (ncpu s < NCPU)%nat) →
  mp_entries (S f) m p lim s = mp_entries f m (p + Z.of_nat (length (encode e))) lim (see s e).
Proof.
  intros Hok Hb Hlt Hcpu. cbn [mp_entries]. destruct (Z.ltb_spec p lim); [|lia].
  assert (Hrd : ∀ i x, encode e !! i = Some x → rd m (p + Z.of_nat i) = x) by (intros; by eapply bytes_at_nth).
  destruct e as [a v fl rest|n rest|t rest]; cbn [encode app entry_ok see length] in *.
  - pose proof (Hrd 0%nat _ eq_refl) as H0. pose proof (Hrd 1%nat _ eq_refl) as H1. pose proof (Hrd 3%nat _ eq_refl) as H3.
    rewrite Z.add_0_r in H0. change (Z.of_nat 1) with 1 in H1. change (Z.of_nat 3) with 3 in H3. rewrite H0. cbn [Z.eqb MPPROC]. destruct (Nat.ltb_spec (ncpu s) NCPU) as [|Hge].
    + unfold proc_apicid, proc_flags. rewrite H1, H3, Hok. done.
    + exfalso. assert (ncpu s < NCPU)%nat by (apply Hcpu; by eauto 10). lia.
  - pose proof (Hrd 0%nat _ eq_refl) as H0. pose proof (Hrd 1%nat _ eq_refl) as H1. rewrite Z.add_0_r in H0.
    change (Z.of_nat 1) with 1 in H1. rewrite H0. cbn [Z.eqb MPPROC MPIOAPIC]. unfold ioapic_apicno. rewrite H1, Hok. done.
  - pose proof (Hrd 0%nat _ eq_refl) as H0. rewrite Z.add_0_r in H0. rewrite H0. destruct Hok as [Ht ->].
    destruct Ht as [-> | [-> | ->]]; done.
Qed.

(** The whole table, [k] processors having been seen. *)
Lemma entries_fold m es p f lim s : Forall entry_ok es → bytes_at m p (length (es ≫= encode)) = es ≫= encode →
  lim = p + Z.of_nat (length (es ≫= encode)) → (ncpu s + length (procs es) ≤ NCPU)%nat → (length es < f)%nat →
  mp_entries f m p lim s = Mdone (foldl see s es).
Proof.
  intros Hok. revert p f s. induction Hok as [|e es He Hes IH]; intros p f s Hb Hlim Hn Hf;
    (destruct f as [|f]; [simpl in Hf; lia|]).
  - cbn [mp_entries]. simpl in Hlim. by destruct (Z.ltb_spec p lim); [lia|].
  - cbn [mbind list_bind] in Hb, Hlim. destruct (bytes_at_app m p _ _ _ Hb) as [Hb1 Hb2]. rewrite length_app in Hlim.
    assert (Hpos : (0 < length (encode e))%nat) by (destruct e; simpl; lia).
    unfold procs in Hn. cbn [mbind list_bind] in Hn. rewrite length_app in Hn.
    rewrite (entry_step m p e); [|done|done|lia|].
    + cbn [foldl]. apply IH; [done|lia| |simpl in Hf; lia]. unfold procs. destruct e; cbn [see add_cpu set_ioapicid ncpu] in *; simpl in Hn; lia.
    + intros (a & v & fl & r & ->). simpl in Hn. lia.
Qed.

(** The processors have the numbers 0, 1, 2, ... *)
Definition numbered (k : nat) (ps : list (Z * Z)) : Prop := ∀ i a f, ps !! i = Some (a, f) → a = Z.of_nat (k + i).

Lemma see_all es s : numbered (ncpu s) (procs es) →
  foldl see s es = Mpst (boot_cpu (ncpu s) (bcpu s) (procs es)) (ismp s) (ncpu s + length (procs es))
    (default (ioapicid s) (last (ioapics es))) (lapic s)
    (foldl (λ l n, <[n := Z.of_nat n]> l) (cpu_ids s) (seq (ncpu s) (length (procs es)))) (outs s).
Proof.
  revert s. induction es as [|e es IH]; intros s Hn; [destruct s; simpl; by rewrite Nat.add_0_r|].
  cbn [foldl]. destruct e as [a v f r|n r|t r].
  - change (procs (Eproc a v f r :: es)) with ((a, f) :: procs es) in *.
    change (ioapics (Eproc a v f r :: es)) with (ioapics es).
    pose proof (Hn 0%nat a f eq_refl) as Ha. rewrite Nat.add_0_r in Ha. subst a. rewrite IH.
    + unfold see, add_cpu. cbn [ncpu bcpu ismp ioapicid lapic cpu_ids outs boot_cpu length seq foldl]. rewrite Z.eqb_refl, andb_true_r.
      f_equal. lia.
    + cbn [see add_cpu ncpu]. intros i a' f' Hi. rewrite (Hn (S i) a' f' Hi). lia.
  - change (procs (Eioapic n r :: es)) with (procs es) in *. rewrite IH by done. cbn [see set_ioapicid bcpu ismp ncpu ioapicid lapic cpu_ids outs].
    f_equal. change (ioapics (Eioapic n r :: es)) with (n :: ioapics es). rewrite last_cons. by destruct (last (ioapics es)).
  - change (procs (Eother t r :: es)) with (procs es) in *. by rewrite IH.
Qed.

Lemma number_ids n k l : (k + n ≤ length l)%nat → (∀ i, (i < k)%nat → l !! i = Some (Z.of_nat i)) →
  ∀ i, (i < k + n)%nat → foldl (λ l n, <[n := Z.of_nat n]> l) l (seq k n) !! i = Some (Z.of_nat i).
Proof.
  revert k l. induction n as [|n IH]; intros k l Hlen Hl i Hi; simpl; [apply Hl; lia|].
  apply IH; [rewrite length_insert; lia| |lia]. intros j Hj. destruct (decide (j = k)) as [->|].
  - apply list_lookup_insert_eq. lia.
  - rewrite list_lookup_insert_ne by done. apply Hl. lia.
Qed.

(** Mpinit() finds the processors.  When the BIOS has a valid configuration table,
    whose entries are up to 8 processors numbered from 0 in any mix with buses, interrupt
    sources and I/O APICs, mpinit() ends with ismp set, ncpu the number of processors,
    cpus[i].id = i, the boot processor the one that is marked, the I/O APIC of the table and
    the address of the local APIC. *)
Theorem mpinit_finds_cpus m imcr s mp conf es fuel : mpconfig m = Some (mp, conf) →
  ncpu s = 0%nat → length (cpu_ids s) = NCPU → Forall entry_ok es →
  conf_length m conf = 44 + Z.of_nat (length (es ≫= encode)) →
  bytes_at m (conf + 44) (length (es ≫= encode)) = es ≫= encode →
  (length (procs es) ≤ NCPU)%nat → numbered 0 (procs es) → (length es < fuel)%nat →
  ∃ s', mpinit fuel m imcr s = Mdone s' ∧ ismp s' = true ∧ ncpu s' = length (procs es) ∧
    bcpu s' = boot_cpu 0 0 (procs es) ∧ lapic s' = conf_lapicaddr m conf ∧
    ioapicid s' = default (ioapicid s) (last (ioapics es)) ∧
    ∀ i, (i < ncpu s')%nat → cpu_ids s' !! i = Some (Z.of_nat i).
Proof.
  intros Hconf Hn0 Hids Hok Hlen Hb Hcpus Hnum Hf. unfold mpinit. rewrite Hconf, Hlen. cbn [ncpu ioapicid cpu_ids outs].
  rewrite (entries_fold m es (conf + 44)); [|done|done|lia|cbn [ncpu]; lia|done].
  rewrite see_all by (cbn [ncpu]; by rewrite Hn0). cbn [ismp negb bcpu ncpu ioapicid lapic cpu_ids outs]. rewrite Hn0.
  destruct (negb (mp_imcrp m mp =? 0)); (eexists; split; [reflexivity|]); cbn [ismp bcpu ncpu ioapicid lapic cpu_ids outs];
    (split_and!; [done..|]); intros i Hi; apply (number_ids _ 0); try done; lia.
Qed.

(** An entry of a type mpinit() does not know makes it loop for ever. *)
Lemma mpinit_unknown_loops m p e s fuel : p < e → 4 < rd m p → mp_entries fuel m p e s = Mloops.
Proof.
  intros Hp Ht. revert s. induction fuel as [|f IH]; intros s; [done|]. cbn [mp_entries].
  destruct (Z.ltb_spec p e); [|lia]. unfold MPPROC, MPIOAPIC, MPBUS, MPIOINTR, MPLINTR.
  destruct (Z.eqb_spec (rd m p) 0); [lia|]. destruct (Z.eqb_spec (rd m p) 2); [lia|].
  destruct (Z.eqb_spec (rd m p) 1); [lia|]. destruct (Z.eqb_spec (rd m p) 3); [lia|].
  destruct (Z.eqb_spec (rd m p) 4); [lia|]. apply IH.
Qed.

(** A ninth processor is written behind cpus[]. *)
Lemma mpinit_ninth_cpu m p e s f : p < e → rd m p = MPPROC → ncpu s = NCPU → mp_entries (S f) m p e s = Mundef.
Proof.
  intros Hp Ht Hn. cbn [mp_entries]. destruct (Z.ltb_spec p e); [|lia]. rewrite Ht, Hn. done.
Qed.

(** A machine with two processors, the second one booting, and an I/O APIC. *)
Fixpoint place (m : mem) (p : Z) (bs : list Z) : mem :=
  match bs with
  | [] => m
  | b :: bs => place (setb m p b) (p + 1) bs
  end.
Definition fix_sum (pre post : list Z) : list Z := pre ++ [u8 (- foldr Z.add 0 (pre ++ post))] ++ post.
Definition demo_entries : list mentry :=
  [Eproc 0 20 1 (replicate 16 0); Eother MPBUS (replicate 7 1); Eproc 1 20 3 (replicate 16 0); Eioapic 4 (replicate 6 7)].
Definition demo_bios : mem :=
  place (place ∅ (p2v 0xf0000) (fix_sum (MP_SIG ++ [0; 16; 15; 0; 1; 4]) [0; 0; 0; 0; 0]))
    (p2v 0xf1000)
    (fix_sum (PCMP_SIG ++ [100; 0; 4]) (replicate 28 0 ++ [0; 0; 224; 254] ++ replicate 4 0 ++ (demo_entries ≫= encode))).

Lemma mpinit_finds_cpus_witness : ∃ s', mpinit 9 demo_bios 0 mp0 = Mdone s' ∧ ismp s' = true ∧ ncpu s' = 2%nat ∧ bcpu s' = 1%nat.
Proof.
  destruct (mpinit_finds_cpus demo_bios 0 mp0 (p2v 0xf0000) (p2v 0xf1000) demo_entries 9) as (s' & E & H1 & H2 & H3 & _).
  - by vm_compute.
  - done.
  - done.
  - repeat constructor.
  - by vm_compute.
  - by vm_compute.
  - simpl. unfold NCPU. lia.
  - intros i a f Hi. destruct i as [|[|i]]; simpl in Hi; [by injection Hi as <- <-|by injection Hi as <- <-|done].
  - simpl. lia.
  - exists s'. by split_and!.
Defined.
