(* ===== verification/Devices.v ===== *)
(** * Interrupt controllers, timer and clock: ioapic.c, picirq.c, timer.c, lapic.c

    A device is its registers as the code uses them: what is written to a register is
    kept there.  outb() is the pair of port and byte in a trace.  The second part says
    how the controllers and the clock are set. *)

From stdpp Require Import base gmap list sets.
From Stdlib Require Import ZArith Lia.
From S2P Require Import Prelude Params Cstring Trap.

(** ** ioapic.c *)
Module Ioapic.
Definition REG_ID : Z := 0x00.
Definition REG_VER : Z := 0x01.
Definition REG_TABLE : Z := 0x10.
Definition INT_DISABLED : Z := 0x00010000.

(** The register that is selected, and the registers. *)
Record ioapic : Type := Ioapic { sel : Z; regs : gmap Z Z }.

Definition ioapicread (reg : Z) (d : ioapic) : Z * ioapic := (default 0 (regs d !! reg), Ioapic reg (regs d)).
Definition ioapicwrite (reg data : Z) (d : ioapic) : ioapic := Ioapic reg (<[reg := data]> (regs d)).

(** for(i = 0; i <= maxintr; i++), with [n] rounds left from [i] on. *)
Fixpoint disable_loop (n : nat) (i : Z) (d : ioapic) : ioapic :=
  match n with
  | O => d
  | S n =>
    disable_loop n (i + 1)
      (ioapicwrite (REG_TABLE + 2 * i + 1) 0 (ioapicwrite (REG_TABLE + 2 * i) (Z.lor INT_DISABLED (T_IRQ0 + i)) d))
  end.

(** The message about the id is left out. *)
Definition ioapicinit (ismp : bool) (d : ioapic) : ioapic :=
  if negb ismp then d
  else
    let '(ver, d) := ioapicread REG_VER d in
    let maxintr := Z.land (Z.shiftr ver 16) 0xff in
    let '(_, d) := ioapicread REG_ID d in
    disable_loop (Z.to_nat (maxintr + 1)) 0 d.

Definition ioapicenable (ismp : bool) (irq cpunum : Z) (d : ioapic) : ioapic :=
  if negb ismp then d
  else ioapicwrite (REG_TABLE + 2 * irq + 1) (u32 (Z.shiftl cpunum 24)) (ioapicwrite (REG_TABLE + 2 * irq) (T_IRQ0 + irq) d).
End Ioapic.

(** ** picirq.c *)
Module Pic.
Definition IO_PIC1 : Z := 0x20.
Definition IO_PIC2 : Z := 0xa0.
Definition IRQ_SLAVE : Z := 2.

Record pic : Type := Pic { irqmask : Z; outs : list (Z * Z) }.
Definition outb (port data : Z) (d : pic) : pic := Pic (irqmask d) (outs d ++ [(port, u8 data)]).

Definition start : pic := Pic (Z.land 0xffff (u16 (Z.lnot (Z.shiftl 1 IRQ_SLAVE)))) [].

Definition picsetmask (mask : Z) (d : pic) : pic :=
  outb (IO_PIC2 + 1) (Z.shiftr mask 8) (outb (IO_PIC1 + 1) mask (Pic mask (outs d))).

Definition picenable (irq : Z) (d : pic) : pic := picsetmask (u16 (Z.land (irqmask d) (Z.lnot (Z.shiftl 1 irq)))) d.

Definition outbs (l : list (Z * Z)) (d : pic) : pic := foldl (λ d pv, outb (fst pv) (snd pv) d) d l.

Definition picinit (d : pic) : pic :=
  let d := outbs
    [(IO_PIC1 + 1, 0xff); (IO_PIC2 + 1, 0xff);
     (IO_PIC1, 0x11); (IO_PIC1 + 1, T_IRQ0); (IO_PIC1 + 1, Z.shiftl 1 IRQ_SLAVE); (IO_PIC1 + 1, 0x3);
     (IO_PIC2, 0x11); (IO_PIC2 + 1, T_IRQ0 + 8); (IO_PIC2 + 1, IRQ_SLAVE); (IO_PIC2 + 1, 0x3);
     (IO_PIC1, 0x68); (IO_PIC1, 0x0a); (IO_PIC2, 0x68); (IO_PIC2, 0x0a)] d in
  if negb (irqmask d =? 0xffff) then picsetmask (irqmask d) d else d.
End Pic.

(** ** timer.c *)
Module Timer.
Definition IO_TIMER1 : Z := 0x040.
Definition TIMER_FREQ : Z := 1193182.
Definition TIMER_DIV (x : Z) : Z := (TIMER_FREQ + x `div` 2) `div` x.
Definition TIMER_MODE : Z := IO_TIMER1 + 3.
Definition TIMER_SEL0 : Z := 0x00.
Definition TIMER_RATEGEN : Z := 0x04.
Definition TIMER_16BIT : Z := 0x30.

Definition timerinit (d : Pic.pic) : Pic.pic :=
  Pic.picenable IRQ_TIMER
    (Pic.outbs [(TIMER_MODE, Z.lor (Z.lor TIMER_SEL0 TIMER_RATEGEN) TIMER_16BIT);
                (IO_TIMER1, TIMER_DIV 100 mod 256); (IO_TIMER1, TIMER_DIV 100 `div` 256)] d).
End Timer.

(** ** lapic.c *)
Module Lapic.
Definition ID : Z := 0x0020 / 4.
Definition VER : Z := 0x0030 / 4.
Definition TPR : Z := 0x0080 / 4.
Definition EOI : Z := 0x00b0 / 4.
Definition SVR : Z := 0x00f0 / 4.
Definition ENABLE : Z := 0x00000100.
Definition ESR : Z := 0x0280 / 4.
Definition ICRLO : Z := 0x0300 / 4.
Definition INIT : Z := 0x00000500.
Definition STARTUP : Z := 0x00000600.
Definition DELIVS : Z := 0x00001000.
Definition ASSERT : Z := 0x00004000.
Definition LEVEL : Z := 0x00008000.
Definition BCAST : Z := 0x00080000.
Definition ICRHI : Z := 0x0310 / 4.
Definition TIMER : Z := 0x0320 / 4.
Definition X1 : Z := 0x0000000b.
Definition PERIODIC : Z := 0x00020000.
Definition PCINT : Z := 0x0340 / 4.
Definition LINT0 : Z := 0x0350 / 4.
Definition LINT1 : Z := 0x0360 / 4.
Definition ERROR : Z := 0x0370 / 4.
Definition MASKED : Z := 0x00010000.
Definition TICR : Z := 0x0380 / 4.
Definition TDCR : Z := 0x03e0 / 4.
Definition IRQ_ERROR : Z := 19.

(** The registers of the controller, None when the machine has none; the writes in
    order; the memory and the ports the startup of a processor uses. *)
Record lapic : Type := Lapic { present : bool; lregs : gmap Z Z; writes : list (Z * Z); louts : list (Z * Z); lmem : mem }.

Definition lapicw (index value : Z) (d : lapic) : lapic :=
  Lapic (present d) (<[index := value]> (lregs d)) (writes d ++ [(index, value)]) (louts d) (lmem d).
Definition lread (index : Z) (d : lapic) : Z := default 0 (lregs d !! index).
Definition lapicws (l : list (Z * Z)) (d : lapic) : lapic := foldl (λ d iv, lapicw (fst iv) (snd iv) d) d l.

(** The controller takes the command at once: ICRLO is not busy when it is read. *)
Definition lapicinit (d : lapic) : lapic :=
  if negb (present d) then d
  else
    let d := lapicws
      [(SVR, Z.lor ENABLE (T_IRQ0 + IRQ_SPURIOUS)); (TDCR, X1); (TIMER, Z.lor PERIODIC (T_IRQ0 + IRQ_TIMER));
       (TICR, 10000000); (LINT0, MASKED); (LINT1, MASKED)] d in
    let d := if 4 <=? Z.land (Z.shiftr (lread VER d) 16) 0xff then lapicw PCINT MASKED d else d in
    lapicws
      [(ERROR, T_IRQ0 + IRQ_ERROR); (ESR, 0); (ESR, 0); (EOI, 0); (ICRHI, 0);
       (ICRLO, Z.lor (Z.lor BCAST INIT) LEVEL); (TPR, 0)] d.

Definition cpunum (d : lapic) : Z := if present d then Z.shiftr (lread ID d) 24 else 0.

Definition lapiceoi (d : lapic) : lapic := if present d then lapicw EOI 0 d else d.

Definition lapicstartap (apicid addr : Z) (d : lapic) : lapic :=
  let wrv := p2v (Z.lor (Z.shiftl 0x40 4) 0x67) in
  let d := Lapic (present d) (lregs d) (writes d) (louts d ++ [(0x70, 0xf); (0x71, 0x0a)])
             (store16 (store16 (lmem d) wrv 0) (wrv + 2) (Z.shiftr addr 4)) in
  let hi := i32 (Z.shiftl apicid 24) in
  let sipi := Z.lor STARTUP (Z.shiftr addr 12) in
  lapicws
    [(ICRHI, hi); (ICRLO, Z.lor (Z.lor INIT LEVEL) ASSERT); (ICRLO, Z.lor INIT LEVEL);
     (ICRHI, hi); (ICRLO, sipi); (ICRHI, hi); (ICRLO, sipi)] d.
End Lapic.

(** ** The clock of lapic.c *)
Module Clock.
Definition CMOS_STATA : Z := 0x0a.
Definition CMOS_STATB : Z := 0x0b.
Definition CMOS_UIP : Z := Z.shiftl 1 7.
Definition SECS : Z := 0x00.
Definition MINS : Z := 0x02.
Definition HOURS : Z := 0x04.
Definition DAY : Z := 0x07.
Definition MONTH : Z := 0x08.
Definition YEAR : Z := 0x09.

Record rtcdate : Type := Rtcdate { second : Z; minute : Z; hour : Z; day : Z; month : Z; year : Z }.
#[global] Instance rtcdate_eq_dec : EqDecision rtcdate.
Proof. solve_decision. Defined.

Section cmos.
(** What the clock's register [r] has at the n-th read. *)
Context (cmos : nat → Z → Z).

Definition cmos_read (reg : Z) (n : nat) : Z * nat := (cmos n reg, S n).

Definition fill_rtcdate (n : nat) : rtcdate * nat :=
  let '(s, n) := cmos_read SECS n in
  let '(mi, n) := cmos_read MINS n in
  let '(h, n) := cmos_read HOURS n in
  let '(d, n) := cmos_read DAY n in
  let '(mo, n) := cmos_read MONTH n in
  let '(y, n) := cmos_read YEAR n in
  (Rtcdate s mi h d mo y, n).

(** The loop until two readings agree. *)
Fixpoint read_twice (fuel : nat) (n : nat) : option (rtcdate * nat) :=
  match fuel with
  | O => None
  | S f =>
    let '(t1, n) := fill_rtcdate n in
    let '(a, n) := cmos_read CMOS_STATA n in
    if has a CMOS_UIP then read_twice f n
    else
      let '(t2, n) := fill_rtcdate n in
      if bool_decide (t1 = t2) then Some (t1, n) else read_twice f n
  end.

Definition CONV (x : Z) : Z := Z.shiftr x 4 * 10 + Z.land x 0xf.
Definition conv_date (t : rtcdate) : rtcdate :=
  Rtcdate (CONV (second t)) (CONV (minute t)) (CONV (hour t)) (CONV (day t)) (CONV (month t)) (CONV (year t)).

Definition cmostime (fuel n : nat) : option rtcdate :=
  let '(sb, n) := cmos_read CMOS_STATB n in
  let bcd := Z.land sb (Z.shiftl 1 2) =? 0 in
  match read_twice fuel n with
  | None => None
  | Some (t1, _) =>
    let t1 := if bcd then conv_date t1 else t1 in
    Some (Rtcdate (second t1) (minute t1) (hour t1) (day t1) (month t1) (year t1 + 2000))
  end.
End cmos.
End Clock.

(** * What the interrupt controllers and the clock are set to *)

(** ** The I/O APIC *)

Section ioapic.
Import Ioapic.

Definition low (d : ioapic) (i : Z) : option Z := regs d !! (REG_TABLE + 2 * i).
Definition high (d : ioapic) (i : Z) : option Z := regs d !! (REG_TABLE + 2 * i + 1).

(** The two registers of interrupt [j] after those of [i] are written. *)
Lemma entry_write d i j a b : let d' := ioapicwrite (REG_TABLE + 2 * i + 1) b (ioapicwrite (REG_TABLE + 2 * i) a d) in
  low d' j = (if decide (i = j) then Some a else low d j) ∧ high d' j = if decide (i = j) then Some b else high d j.
Proof.
  unfold low, high, ioapicwrite, REG_TABLE. cbn [regs]. destruct (decide (i = j)) as [->|Hne].
  - rewrite lookup_insert_ne, !lookup_insert_eq by lia. done.
  - rewrite !lookup_insert_ne by lia. done.
Qed.

Lemma disable_loop_spec n i d j : let d' := disable_loop n i d in
  low d' j = (if decide (i ≤ j < i + Z.of_nat n) then Some (Z.lor INT_DISABLED (T_IRQ0 + j)) else low d j) ∧
  high d' j = if decide (i ≤ j < i + Z.of_nat n) then Some 0 else high d j.
Proof.
  revert i d. induction n as [|n IH]; intros i d; cbn [disable_loop].
  - by rewrite !decide_False by lia.
  - destruct (IH (i + 1) (ioapicwrite (REG_TABLE + 2 * i + 1) 0 (ioapicwrite (REG_TABLE + 2 * i) (Z.lor INT_DISABLED (T_IRQ0 + i)) d)))
      as [-> ->]. destruct (entry_write d i j (Z.lor INT_DISABLED (T_IRQ0 + i)) 0) as [-> ->].
    destruct (decide (i = j)) as [->|].
    + rewrite !(decide_False (P:=j + 1 ≤ j < _)), !decide_True by lia. done.
    + destruct (decide (i + 1 ≤ j < i + 1 + Z.of_nat n)), (decide (i ≤ j < i + Z.of_nat (S n))); try lia; done.
Qed.

(** Interrupts enabled one after the other, and the processor [i] was last sent to. *)
Definition enable_all (l : list (Z * Z)) (d : ioapic) : ioapic :=
  foldl (λ d e, ioapicenable true (fst e) (snd e) d) d l.
Definition sent_to (l : list (Z * Z)) (i : Z) : option Z :=
  foldl (λ r e, if decide (fst e = i) then Some (snd e) else r) None l.

Lemma enable_all_spec l i d : let d' := enable_all l d in
  (low d' i, high d' i) = foldl (λ r e, if decide (fst e = i) then (Some (T_IRQ0 + i), Some (u32 (Z.shiftl (snd e) 24))) else r)
    (low d i, high d i) l.
Proof.
  revert d. induction l as [|[irq c] l IH]; intros d; [done|]. unfold enable_all in *. cbn [foldl fst snd].
  rewrite IH. f_equal. unfold ioapicenable. cbn [negb].
  destruct (entry_write d irq i (T_IRQ0 + irq) (u32 (Z.shiftl c 24))) as [-> ->]. destruct (decide (irq = i)) as [->|]; done.
Qed.

Lemma sent_to_fold l i (x : option Z * option Z) r :
  foldl (λ r e, if decide (fst e = i) then (Some (T_IRQ0 + i), Some (u32 (Z.shiftl (snd e) 24))) else r)
    (match r with Some c => (Some (T_IRQ0 + i), Some (u32 (Z.shiftl c 24))) | None => x end) l =
  match foldl (λ r e, if decide (fst e = i) then Some (snd e) else r) r l with
  | Some c => (Some (T_IRQ0 + i), Some (u32 (Z.shiftl c 24)))
  | None => x
  end.
Proof.
  revert r. induction l as [|[irq c] l IH]; intros r; [done|]. cbn [foldl fst snd]. destruct (decide (irq = i)).
  - exact (IH (Some c)).
  - apply IH.
Qed.

(** The routing of interrupts.  After ioapicinit() and any calls of ioapicenable(), the
    redirection entry of every interrupt the controller has is disabled if the interrupt was
    not enabled, and otherwise has the vector T_IRQ0 + irq, is enabled, and goes to the
    processor of the last call for it. *)
Theorem ioapic_routes d l i : let maxintr := Z.land (Z.shiftr (default 0 (regs d !! REG_VER)) 16) 0xff in
  0 ≤ i ≤ maxintr →
  let d' := enable_all l (ioapicinit true d) in
  match sent_to l i with
  | Some c => low d' i = Some (T_IRQ0 + i) ∧ high d' i = Some (u32 (Z.shiftl c 24)) ∧ has (T_IRQ0 + i) INT_DISABLED = false
  | None => ∃ v, low d' i = Some v ∧ has v INT_DISABLED = true
  end.
Proof.
  intros maxintr Hi d'. assert (Hmax : maxintr ≤ 255).
  { unfold maxintr. pose proof (Z.land_ones (Z.shiftr (default 0 (regs d !! REG_VER)) 16) 8 ltac:(lia)) as E.
    change (Z.ones 8) with 0xff in E. rewrite E.
    pose proof (Z.mod_pos_bound (Z.shiftr (default 0 (regs d !! REG_VER)) 16) (2 ^ 8) ltac:(lia)). lia. }
  pose proof (enable_all_spec l i (ioapicinit true d)) as He. fold d' in He.
  unfold ioapicinit in He. cbn [negb ioapicread] in He. fold maxintr in He.
  destruct (disable_loop_spec (Z.to_nat (maxintr + 1)) 0 (Ioapic REG_ID (regs (Ioapic REG_VER (regs d)))) i) as [Hl Hh].
  rewrite decide_True in Hl, Hh by lia. rewrite Hl, Hh in He.
  rewrite (sent_to_fold l i (Some (Z.lor INT_DISABLED (T_IRQ0 + i)), Some 0) None) in He. unfold sent_to.
  destruct (foldl _ None l) as [c|]; cbn zeta in He; injection He as El Eh; rewrite El.
  - rewrite Eh. split_and!; [done|done|]. unfold has. apply negb_false_iff, Z.eqb_eq. unfold INT_DISABLED, T_IRQ0.
    rewrite (land_pow2 _ 16) by lia.
    replace (Z.testbit (32 + i) 16) with false; [done|]. symmetry. apply Z.testbit_false; [lia|]. by rewrite Z.div_small by lia.
  - exists (Z.lor INT_DISABLED (T_IRQ0 + i)). split; [done|]. unfold has, INT_DISABLED. rewrite (land_pow2 _ 16) by lia.
    rewrite Z.lor_spec. done.
Qed.

Lemma ioapic_routes_witness :
  let d' := enable_all [(1, 0); (14, 1); (1, 3)] (ioapicinit true (Ioapic 0 {[REG_VER := 0x170011]})) in
  low d' 1 = Some 33 ∧ high d' 1 = Some (u32 (Z.shiftl 3 24)) ∧ has 33 INT_DISABLED = false.
Proof. exact (ioapic_routes (Ioapic 0 {[REG_VER := 0x170011]}) [(1, 0); (14, 1); (1, 3)] 1 ltac:(vm_compute; split; discriminate)). Defined.
End ioapic.

(** ** The clock *)

Section clock.
Import Clock.

(** Two decimal digits. *)
Definition bcd_of (x : Z) : Z := Z.lor (Z.shiftl (x `div` 10) 4) (x mod 10).

Lemma conv_bcd x : 0 ≤ x < 100 → CONV (bcd_of x) = x.
Proof.
  intros Hx. assert (H : ∀ n, (n < 100)%nat → CONV (bcd_of (Z.of_nat n)) = Z.of_nat n).
  { intros n Hn. do 100 (destruct n as [|n]; [done|]). lia. }
  rewrite <- (Z2Nat.id x) by lia. apply H. lia.
Qed.

(** A clock that has the time [t] in all reads. *)
Definition shows (enc : Z → Z) (t : rtcdate) (c : Z → Z) : Prop :=
  c SECS = enc (second t) ∧ c MINS = enc (minute t) ∧ c HOURS = enc (hour t) ∧ c DAY = enc (day t) ∧
  c MONTH = enc (month t) ∧ c YEAR = enc (year t) ∧ has (c CMOS_STATA) CMOS_UIP = false.

(** The clock.  When the time does not change while cmostime() reads it, the first two
    readings agree and the date it returns is the one the clock has, whether the clock counts
    in binary or in decimal digits as its status says; the year is counted from 2000. *)
Theorem cmostime_reads cmos t fuel n : let bcd := Z.land (cmos n CMOS_STATB) (Z.shiftl 1 2) =? 0 in
  (∀ i, shows (if bcd then bcd_of else id) t (cmos i)) →
  Forall (λ x, 0 ≤ x < 100) [second t; minute t; hour t; day t; month t; year t] →
  cmostime cmos (S fuel) n = Some (Rtcdate (second t) (minute t) (hour t) (day t) (month t) (year t + 2000)).
Proof.
  intros bcd Hc Hr. unfold cmostime, cmos_read. fold bcd. cbn [read_twice].
  set (enc := if bcd then bcd_of else id) in *.
  assert (Hfill : ∀ k, fill_rtcdate cmos k =
    (Rtcdate (enc (second t)) (enc (minute t)) (enc (hour t)) (enc (day t)) (enc (month t)) (enc (year t)), (6 + k)%nat)).
  { intros k. unfold fill_rtcdate, cmos_read. destruct (Hc k) as (-> & _). destruct (Hc (S k)) as (_ & -> & _).
    destruct (Hc (S (S k))) as (_ & _ & -> & _). destruct (Hc (S (S (S k)))) as (_ & _ & _ & -> & _).
    destruct (Hc (S (S (S (S k))))) as (_ & _ & _ & _ & -> & _). destruct (Hc (S (S (S (S (S k)))))) as (_ & _ & _ & _ & _ & -> & _).
    done. }
  rewrite Hfill. unfold cmos_read. destruct (Hc (6 + S n)%nat) as (_ & _ & _ & _ & _ & _ & ->). rewrite Hfill.
  rewrite bool_decide_eq_true_2 by done. cbn zeta iota beta.
  repeat match goal with H : Forall _ (_ :: _) |- _ => apply Forall_cons in H as [? ?] end.
  unfold enc. destruct bcd; cbn [conv_date second minute hour day month year]; [|done]. by rewrite !conv_bcd.
Qed.

Lemma cmostime_reads_witness :
  cmostime (λ _ r, if r =? 7 then 0x15 else if r =? 9 then 0x26 else if r =? 8 then 0x11 else 0) 2 0 =
    Some (Rtcdate 0 0 0 15 11 2026).
Proof.
  apply (cmostime_reads _ (Rtcdate 0 0 0 15 11 26) 1 0).
  - intros i. by split_and!.
  - repeat constructor; simpl; lia.
Defined.
End clock.

(** ** The 8259A controllers *)

Section pic.
Import Pic.

Definition enabled (l : list Z) : pic := foldl (λ d irq, picenable irq d) (picinit start) l.

(** The last bytes written to the two mask registers are those of irqmask. *)
Definition masks_set (d : pic) : Prop :=
  ∃ o, outs d = o ++ [(IO_PIC1 + 1, u8 (irqmask d)); (IO_PIC2 + 1, u8 (Z.shiftr (irqmask d) 8))].

Lemma picsetmask_masks m d : irqmask (picsetmask m d) = m ∧ masks_set (picsetmask m d).
Proof. split; [done|]. exists (outs d). unfold picsetmask, outb. cbn [outs irqmask]. by rewrite <- app_assoc. Qed.

Lemma testbit_clear m irq i : 0 ≤ i < 16 → 0 ≤ irq →
  Z.testbit (u16 (Z.land m (Z.lnot (Z.shiftl 1 irq)))) i = Z.testbit m i && negb (i =? irq).
Proof.
  intros Hi Hq. unfold u16, wrap. rewrite Z.mod_pow2_bits_low by lia. rewrite Z.land_spec, Z.lnot_spec by lia. f_equal. f_equal.
  rewrite Z.shiftl_1_l, Z.pow2_bits_eqb by lia. apply Z.eqb_sym.
Qed.

(** The mask of the interrupt controllers.  After picinit() and picenable() for the
    interrupts of any list, exactly these and the line of the second controller are
    unmasked, and the mask registers of both controllers have the bits of irqmask. *)
Theorem pic_masks l i : Forall (λ irq, 0 ≤ irq < 16) l → 0 ≤ i < 16 →
  Z.testbit (irqmask (enabled l)) i = negb (bool_decide (i = IRQ_SLAVE ∨ i ∈ l)) ∧ masks_set (enabled l).
Proof.
  intros Hl Hi. unfold enabled.
  assert (Hgen : ∀ d s, masks_set d → Z.testbit (irqmask d) i = negb (bool_decide (i = IRQ_SLAVE ∨ i ∈ s)) →
    let d' := foldl (λ d irq, picenable irq d) d l in
    Z.testbit (irqmask d') i = negb (bool_decide (i = IRQ_SLAVE ∨ i ∈ s ++ l)) ∧ masks_set d').
  { induction Hl as [|q l Hq _ IH]; intros d s Hm Hb; cbn [foldl]; [by rewrite app_nil_r|].
    replace (s ++ q :: l) with ((s ++ [q]) ++ l) by (by rewrite <- app_assoc). apply IH; [apply picsetmask_masks|].
    unfold picenable. rewrite (proj1 (picsetmask_masks _ _)), testbit_clear, Hb by lia.
    rewrite <- negb_orb. f_equal. apply eq_true_iff_eq.
    rewrite orb_true_iff, !bool_decide_eq_true, Z.eqb_eq. set_solver. }
  apply (Hgen (picinit start) []).
  - apply picsetmask_masks.
  - clear Hgen Hl l. unfold IRQ_SLAVE. assert (Hn : ∀ n, (n < 16)%nat →
      Z.testbit (irqmask (picinit start)) (Z.of_nat n) = negb (bool_decide (Z.of_nat n = 2 ∨ Z.of_nat n ∈ []))).
    { intros n Hn. do 16 (destruct n as [|n]; [by vm_compute|]). lia. }
    rewrite <- (Z2Nat.id i) by lia. apply Hn. lia.
Qed.

Lemma pic_masks_witness : Z.testbit (irqmask (enabled [1; 14])) 14 = negb (bool_decide (14 = IRQ_SLAVE ∨ 14 ∈ [1; 14])) ∧
  masks_set (enabled [1; 14]).
Proof. apply (pic_masks [1; 14] 14); [repeat constructor; lia|lia]. Defined.
End pic.
