(* ===== verification/Uart.v ===== *)
(** * uart.c: the serial port

    The chip is an 8250: its registers, of which the first two are those of the divisor
    while bit 7 of the line control register is set; the characters received and not yet
    read; and those sent.  After a character it is busy for [pace] readings of the status
    register, and loses what is written to it meanwhile.  Where there is no chip every
    reading gives 0xff. *)

From stdpp Require Import base gmap list strings.
From Stdlib Require Import ZArith Lia.
From S2P Require Import Prelude Params Trap Devices User.

Module Uart.
Definition COM1 : Z := 0x3f8.

Record chip : Type := Chip {
  there : bool; dll : Z; dlm : Z; ier : Z; fcr : Z; lcr : Z; mcr : Z;
  busy : nat; pace : nat; rx : list Z; tx : list Z
}.
Definition set_line (dl dm ie fc lc mc : Z) (c : chip) : chip :=
  Chip (there c) dl dm ie fc lc mc (busy c) (pace c) (rx c) (tx c).
Definition set_busy (n : nat) (c : chip) : chip :=
  Chip (there c) (dll c) (dlm c) (ier c) (fcr c) (lcr c) (mcr c) n (pace c) (rx c) (tx c).
Definition set_rx (l : list Z) (c : chip) : chip :=
  Chip (there c) (dll c) (dlm c) (ier c) (fcr c) (lcr c) (mcr c) (busy c) (pace c) l (tx c).
Definition send (v : Z) (c : chip) : chip :=
  match busy c with
  | O => Chip (there c) (dll c) (dlm c) (ier c) (fcr c) (lcr c) (mcr c) (pace c) (pace c) (rx c) (tx c ++ [v])
  | _ => c
  end.
Definition dlab (c : chip) : bool := Z.testbit (lcr c) 7.

Definition outb (port data : Z) (c : chip) : chip :=
  let v := u8 data in
  if negb (there c) then c
  else if port =? COM1 then
    if dlab c then set_line v (dlm c) (ier c) (fcr c) (lcr c) (mcr c) c else send v c
  else if port =? COM1 + 1 then
    if dlab c then set_line (dll c) v (ier c) (fcr c) (lcr c) (mcr c) c
    else set_line (dll c) (dlm c) v (fcr c) (lcr c) (mcr c) c
  else if port =? COM1 + 2 then set_line (dll c) (dlm c) (ier c) v (lcr c) (mcr c) c
  else if port =? COM1 + 3 then set_line (dll c) (dlm c) (ier c) (fcr c) v (mcr c) c
  else if port =? COM1 + 4 then set_line (dll c) (dlm c) (ier c) (fcr c) (lcr c) v c
  else c.

Definition inb (port : Z) (c : chip) : Z * chip :=
  if negb (there c) then (0xff, c)
  else if port =? COM1 then
    match rx c with
    | v :: l => (v, set_rx l c)
    | [] => (0, c)
    end
  else if port =? COM1 + 5 then
    ((if (busy c =? 0)%nat then 0x20 else 0) + (match rx c with [] => 0 | _ => 1 end), set_busy (pred (busy c)) c)
  else (0, c).

(** What uart.c changes: the chip, the interrupt controllers, and the variable uart. *)
Record ust : Type := Ust { u_chip : chip; u_pic : Pic.pic; u_io : Ioapic.ioapic; uart : bool }.
Definition set_chip (c : chip) (s : ust) : ust := Ust c (u_pic s) (u_io s) (uart s).

(** for(i = 0; i < 128 && !(inb(COM1+5) & 0x20); i++), with [n] rounds left. *)
Fixpoint wait_loop (n : nat) (c : chip) : chip :=
  match n with
  | O => c
  | S n => let '(v, c) := inb (COM1 + 5) c in if negb (Z.land v 0x20 =? 0) then c else wait_loop n c
  end.
Definition uartputc (x : Z) (s : ust) : ust :=
  if negb (uart s) then s else set_chip (outb COM1 x (wait_loop 128 (u_chip s))) s.

Definition uartgetc (s : ust) : Z * ust :=
  if negb (uart s) then (-1, s)
  else
    let '(v, c) := inb (COM1 + 5) (u_chip s) in
    if Z.land v 0x01 =? 0 then (-1, set_chip c s)
    else let '(v, c) := inb COM1 c in (v, set_chip c s).

Definition puts (l : list Z) (s : ust) : ust := foldl (λ s x, uartputc x s) s l.

Definition uartinit (ismp : bool) (s : ust) : ust :=
  let c := foldl (λ c pv, outb (fst pv) (snd pv) c) (u_chip s)
    [(COM1 + 2, 0); (COM1 + 3, 0x80); (COM1 + 0, 115200 / 9600); (COM1 + 1, 0); (COM1 + 3, 0x03); (COM1 + 4, 0);
     (COM1 + 1, 0x01)] in
  let '(v, c) := inb (COM1 + 5) c in
  if v =? 0xff then set_chip c s
  else
    let '(_, c) := inb (COM1 + 2) c in
    let '(_, c) := inb (COM1 + 0) c in
    let s := Ust c (Pic.picenable IRQ_COM1 (u_pic s)) (Ioapic.ioapicenable ismp IRQ_COM1 0 (u_io s)) true in
    puts (bz "xv6..." ++ [10]) s.

(** The calls of uartgetc by consoleintr: until it returns a negative number. *)
Fixpoint drain (fuel : nat) (s : ust) : option (list Z) * ust :=
  match fuel with
  | O => (None, s)
  | S f =>
    let '(v, s) := uartgetc s in
    if v <? 0 then (Some [], s) else let '(l, s) := drain f s in (cons v <$> l, s)
  end.
End Uart.
Import Uart.

(** ** Sending *)

(** A chip that is set up and ready again within 128 readings. *)
Record up (c : chip) : Prop := Up { up_there : there c = true; up_dlab : dlab c = false;
  up_busy : (busy c ≤ 128)%nat; up_pace : (pace c ≤ 128)%nat }.

Lemma wait_loop_ready n c : there c = true → (busy c ≤ n)%nat → wait_loop n c = set_busy 0 c.
Proof.
  revert c. induction n as [|n IH]; intros c Ht Hb; cbn [wait_loop].
  - destruct c. cbn in *. by replace busy0 with 0%nat by lia.
  - unfold inb. rewrite Ht. cbn [negb]. change (COM1 + 5 =? COM1) with false. change (COM1 + 5 =? COM1 + 5) with true. cbv iota.
    destruct (Nat.eqb_spec (busy c) 0) as [E|E].
    + rewrite E. destruct (rx c); by cbn.
    + assert (Hz : negb (Z.land (0 + match rx c with [] => 0 | _ :: _ => 1 end) 32 =? 0) = false) by (by destruct (rx c)).
      rewrite Hz, IH; [by destruct c|done|cbn; lia].
Qed.

(** The chip with [l] sent, and busy with the last of it. *)
Definition sent (l : list Z) (c : chip) : chip :=
  match l with
  | [] => c
  | _ => Chip (there c) (dll c) (dlm c) (ier c) (fcr c) (lcr c) (mcr c) (pace c) (pace c) (rx c) (tx c ++ l)
  end.

Lemma sent_snoc c l x : sent [x] (sent l c) = sent (l ++ [x]) c.
Proof. destruct l; [done|]. unfold sent. cbn. by rewrite <- app_assoc. Qed.

Lemma uartputc_sends x s : uart s = true → up (u_chip s) → uartputc x s = set_chip (sent [u8 x] (u_chip s)) s.
Proof.
  intros Hu [H1 H2 H3 H4]. unfold uartputc. rewrite Hu. cbn [negb]. rewrite wait_loop_ready by done.
  unfold outb. cbn [there set_busy]. rewrite H1. cbn [negb]. change (COM1 =? COM1) with true. cbv iota.
  change (dlab (set_busy 0 (u_chip s))) with (dlab (u_chip s)). by rewrite H2.
Qed.

Lemma sent_tx l c : tx (sent l c) = tx c ++ l.
Proof. destruct l; [by rewrite app_nil_r|done]. Qed.

Lemma sent_up l c : up c → up (sent l c).
Proof. intros [H1 H2 H3 H4]. destruct l; by split. Qed.

Lemma puts_sends l s : uart s = true → up (u_chip s) → puts l s = set_chip (sent (u8 <$> l) (u_chip s)) s.
Proof.
  intros Hu Hc. induction l as [|x l IH] using rev_ind; [by destruct s|].
  unfold puts in *. rewrite foldl_snoc, IH, fmap_app. change (u8 <$> [x]) with [u8 x]. rewrite <- sent_snoc.
  rewrite uartputc_sends; [done|done|by apply sent_up].
Qed.

(** The chip as uartinit leaves it: 9600 baud, 8 data bits, no parity, one stop bit, and an
    interrupt for each character received; one reading of the status and one of the
    data register later. *)
Definition set_up (c : chip) : chip :=
  Chip (there c) 12 0 1 0 3 0 (pred (busy c)) (pace c) (tail (rx c)) (tx c).

Lemma uartinit_run ismp s : there (u_chip s) = true → (busy (u_chip s) ≤ 128)%nat → (pace (u_chip s) ≤ 128)%nat →
  uartinit ismp s = Ust (sent (bz "xv6..." ++ [10]) (set_up (u_chip s))) (Pic.picenable IRQ_COM1 (u_pic s))
    (Ioapic.ioapicenable ismp IRQ_COM1 0 (u_io s)) true.
Proof.
  intros Ht Hb Hp. destruct s as [[th dl dm ie fc lc mc bu pa r t] pi io ua]. cbn in Ht, Hb, Hp. subst th.
  assert (E : uartinit ismp (Ust (Chip true dl dm ie fc lc mc bu pa r t) pi io ua) =
    puts (bz "xv6..." ++ [10]) (Ust (set_up (Chip true dl dm ie fc lc mc bu pa r t)) (Pic.picenable IRQ_COM1 pi)
      (Ioapic.ioapicenable ismp IRQ_COM1 0 io) true)).
  { unfold uartinit. destruct bu as [|bu], r as [|x r]; reflexivity. }
  rewrite E, puts_sends; [reflexivity|done|]. split; [done|done|cbn; lia|done].
Qed.

Lemma outb_absent port v c : there c = false → outb port v c = c.
Proof. intros H. unfold outb. by rewrite H. Qed.

Lemma inb_absent port c : there c = false → inb port c = (0xff, c).
Proof. intros H. unfold inb. by rewrite H. Qed.

(** The serial port.  If there is one, uartinit sets it to 9600 baud and 8 data bits, lets
    it interrupt for each character received, enables its interrupt at both controllers,
    and sends its greeting; and every character given to uartputc from then on is sent,
    in order and none of them lost, provided that the chip is ready again within 128
    readings of its status.  If there is none, no interrupt is enabled, and the other
    routines do nothing. *)
Theorem uart_works (ismp : bool) (s : ust) (l : list Z) :
  (there (u_chip s) = true → (busy (u_chip s) ≤ 128)%nat ∧ (pace (u_chip s) ≤ 128)%nat) → uart s = false →
  let s' := puts l (uartinit ismp s) in let c := u_chip s' in
  if there (u_chip s) then
    uart s' = true ∧ 115200 / (dll c + 2 ^ 8 * dlm c) = 9600 ∧ lcr c = 3 ∧ ier c = 1 ∧
    tx c = tx (u_chip s) ++ bz "xv6..." ++ [10] ++ (u8 <$> l) ∧
    u_pic s' = Pic.picenable IRQ_COM1 (u_pic s) ∧ u_io s' = Ioapic.ioapicenable ismp IRQ_COM1 0 (u_io s)
  else s' = s ∧ uartgetc s' = (-1, s').
Proof.
  intros Hc Hu. cbn zeta. destruct (there (u_chip s)) eqn:Ht.
  - destruct (Hc eq_refl) as [Hb Hp]. rewrite (uartinit_run ismp s Ht Hb Hp).
    rewrite puts_sends; [|done|apply sent_up; split; cbn; (done || lia)].
    split_and!; try done; try (by destruct l). cbn [u_chip set_chip].
    rewrite !sent_tx. cbn [tx set_up]. by rewrite <- !app_assoc.
  - assert (Hinit : uartinit ismp s = s).
    { unfold uartinit. cbn [foldl fst snd]. pose proof (λ p v, outb_absent p v (u_chip s) Ht) as Ho.
      rewrite !Ho, inb_absent by done. by destruct s. }
    rewrite Hinit. assert (Hputs : puts l s = s).
    { induction l as [|x l IH]; [done|]. unfold puts in *. cbn [foldl]. unfold uartputc at 2. by rewrite Hu. }
    rewrite Hputs. split; [done|]. unfold uartgetc. by rewrite Hu.
Qed.

Lemma uart_works_witness :
  let s := Ust (Chip true 0 0 0 0 0x80 0 5 40 [13] []) Pic.start (Ioapic.Ioapic 0 ∅) false in
  tx (u_chip (puts (bz "$ ") (uartinit true s))) = bz "xv6..." ++ [10] ++ bz "$ ".
Proof.
  destruct (uart_works true (Ust (Chip true 0 0 0 0 0x80 0 5 40 [13] []) Pic.start (Ioapic.Ioapic 0 ∅) false) (bz "$ ")
    ltac:(cbn; lia) eq_refl) as (_ & _ & _ & _ & E & _). exact E.
Defined.

Lemma drain_S f s : drain (S f) s =
  let '(v, s) := uartgetc s in if v <? 0 then (Some [], s) else let '(l, s) := drain f s in (cons v <$> l, s).
Proof. done. Qed.

(** The interrupt handler takes all characters that have been received, in order, and
    leaves none. *)
Theorem drain_takes_all (s : ust) : uart s = true → there (u_chip s) = true → Forall (λ v, 0 ≤ v < 256) (rx (u_chip s)) →
  ∃ s', drain (S (length (rx (u_chip s)))) s = (Some (rx (u_chip s)), s') ∧ rx (u_chip s') = [].
Proof.
  remember (rx (u_chip s)) as r eqn:Hr. revert s Hr. induction r as [|v r IH]; intros s Hr Hu Ht Hf.
  - eexists. cbn [length drain]. unfold uartgetc, inb. rewrite Hu, Ht, <- Hr. cbn [negb].
    change (COM1 + 5 =? COM1) with false. change (COM1 + 5 =? COM1 + 5) with true. cbv iota.
    destruct (busy (u_chip s) =? 0)%nat; (split; [reflexivity|by cbn]).
  - apply Forall_cons in Hf as [Hv Hf].
    destruct (IH (set_chip (set_rx r (set_busy (pred (busy (u_chip s))) (u_chip s))) s)) as (s' & Hd & Hr'); try done.
    exists s'. cbn [length]. rewrite drain_S. unfold uartgetc, inb at 1. rewrite Hu, Ht, <- Hr. cbn [negb].
    change (COM1 + 5 =? COM1) with false. change (COM1 + 5 =? COM1 + 5) with true. cbv iota.
    assert (Hb : (Z.land ((if (busy (u_chip s) =? 0)%nat then 0x20 else 0) + 1) 1 =? 0) = false)
      by (by destruct (busy (u_chip s) =? 0)%nat).
    rewrite Hb. unfold inb. cbn [there set_busy]. rewrite Ht. cbn [negb rx set_busy]. rewrite <- Hr.
    change (COM1 =? COM1) with true. cbv iota. destruct (Z.ltb_spec v 0); [lia|].
    by rewrite Hd.
Qed.
