(* ===== verification/Main.v ===== *)
(** * main.c: the other processors

    startothers writes the code of entryother.S to 0x7000 and below it what that code
    needs: a stack, where to go, and a page directory.  Each processor is started in turn
    and waited for.  Of the other processor the model has what it finds in memory when it
    is started; [comes_up] is whether the processor with an identifier then gets to set
    its variable started.  [code0] and [codesz] are the image of entryother.S in the
    kernel, [mpenter_addr] and [entrypgdir_addr] the addresses of those symbols. *)

From stdpp Require Import base gmap list strings.
From Stdlib Require Import ZArith Lia.
From S2P Require Import Prelude Params Kmonad Cstring Kalloc Vm VmSpec VmUser VmKern Trap Devices Segments.

(** ** entrypgdir *)

Definition PTE_PS : Z := 0x080.
Definition entrypgdir : list Z :=
  <[Z.to_nat (Z.shiftr KERNBASE PDXSHIFT) := Z.lor (Z.lor (Z.lor 0 PTE_P) PTE_W) PTE_PS]>
    (<[0%nat := Z.lor (Z.lor (Z.lor 0 PTE_P) PTE_W) PTE_PS]> (replicate (Z.to_nat NPDENTRIES) 0)).

(** The address a directory of 4-megabyte pages gives, and whether it may be written. *)
Definition big_walk (dir : list Z) (va : Z) : option (Z * bool) :=
  let e := dir.[Z.to_nat (PDX va)] in
  if has e PTE_P && has e PTE_PS then Some (e / 2 ^ 22 * 2 ^ 22 + va mod 2 ^ 22, has e PTE_W) else None.

(** ** startothers *)

(** What a processor finds when it starts: its identifier, the address it starts at, and
    the three words below it. *)
Record started : Type := Started { st_id : Z; st_addr : Z; st_stack : Z; st_entry : Z; st_pgdir : Z }.

Record mainst : Type := Mainst { m_vm : vst; m_lapic : Lapic.lapic; m_log : list started }.
Definition set_vm (v : vst) (s : mainst) : mainst := Mainst v (m_lapic s) (m_log s).
Definition invm {A} (m : M vst A) : M mainst A := zoom m_vm set_vm m.

Definition code : Z := p2v 0x7000.

Section startothers.
Context (comes_up : Z → bool) (code0 codesz mpenter_addr entrypgdir_addr : Z).

(** lapicstartap, and the processor reads its three words. *)
Definition start_ap (id addr : Z) : M mainst unit :=
  modify (λ s, let m := vmem (m_vm s) in
    Mainst (m_vm s) (Lapic.lapicstartap id addr (m_lapic s))
      (m_log s ++ [Started id addr (load32 m (p2v addr - 4)) (load32 m (p2v addr - 8)) (load32 m (p2v addr - 12))])).

(** for(c = cpus; c < cpus+ncpu; c++): [i] is the number of the first of the processors
    [ids], [boot] what cpunum() returns. *)
Fixpoint start_loop (boot i : Z) (ids : list Z) : M mainst unit :=
  match ids with
  | [] => mret tt
  | id :: ids =>
    if i =? boot then start_loop boot (i + 1) ids
    else
      stack ← invm (inkm kalloc);
      invm (vstore (code - 4) (u32 (stack + KSTACKSIZE)));;
      invm (vstore (code - 8) mpenter_addr);;
      invm (vstore (code - 12) (v2p entrypgdir_addr));;
      start_ap id (v2p code);;
      if comes_up id then start_loop boot (i + 1) ids else diverge
  end.

Definition startothers (boot : Z) (ids : list Z) : M mainst unit :=
  invm (vupd (λ m, KString.memmove m code code0 codesz));;
  start_loop boot 0 ids.
End startothers.

(** ** mpenter and mpmain *)

(** What a processor has of its own: the page directory register, the tables and its
    interrupt controller; and the variable started of its structure. *)
Record apst : Type := Apst { a_cr3 : Z; a_seg : seghw; a_lapic : Lapic.lapic; a_started : Z }.

(** Up to the call of scheduler(); the message is left out. *)
Definition mpmain (idt : Z) (a : apst) : apst :=
  Apst (a_cr3 a) (idtinit idt (a_seg a)) (a_lapic a) 1.

Definition mpenter (cpus idt kpgdir : Z) (cpu : Z) (a : apst) : apst :=
  let a := Apst (v2p kpgdir) (a_seg a) (a_lapic a) (a_started a) in
  let a := Apst (a_cr3 a) (seginit cpus cpu (a_seg a)) (a_lapic a) (a_started a) in
  let a := Apst (a_cr3 a) (a_seg a) (Lapic.lapicinit (a_lapic a)) (a_started a) in
  mpmain idt a.

(** ** The first page table maps the first 4 megabytes twice *)

Lemma entrypgdir_lookup i : 0 ≤ i < 1024 → entrypgdir.[Z.to_nat i] = if (i =? 0) || (i =? 512) then 0x83 else 0.
Proof.
  intros Hi. unfold entrypgdir. change (Z.to_nat (Z.shiftr KERNBASE PDXSHIFT)) with 512%nat.
  change (Z.lor (Z.lor (Z.lor 0 PTE_P) PTE_W) PTE_PS) with 0x83. change (Z.to_nat NPDENTRIES) with 1024%nat.
  destruct (Z.eqb_spec i 512) as [->|H1].
  { rewrite orb_true_r. apply nthz_insert_eq. rewrite length_insert, length_replicate. lia. }
  rewrite orb_false_r, nthz_insert_ne by lia. destruct (Z.eqb_spec i 0) as [->|H2].
  { apply nthz_insert_eq. rewrite length_replicate. lia. }
  rewrite nthz_insert_ne by lia. apply nthz_Some, lookup_replicate_2. lia.
Qed.

(** entrypgdir maps the first 4 megabytes of physical memory at 0 and at KERNBASE, where the
    kernel is linked, writable, and nothing else. *)
Theorem entrypgdir_maps (va : Z) : 0 ≤ va < 2 ^ 32 → big_walk entrypgdir va =
  if va <? 2 ^ 22 then Some (va, true)
  else if (KERNBASE <=? va) && (va <? KERNBASE + 2 ^ 22) then Some (v2p va, true) else None.
Proof.
  intros Hva. unfold big_walk. pose proof (PDX_range va) as Hr. rewrite entrypgdir_lookup by done.
  rewrite PDX_eq in * by done. pose proof (Z.div_mod va (2 ^ 22) ltac:(lia)) as E.
  pose proof (Z.mod_pos_bound va (2 ^ 22) ltac:(lia)) as Hm. unfold KERNBASE.
  destruct (Z.eqb_spec (va / 2 ^ 22) 0) as [E0|E0]; [|destruct (Z.eqb_spec (va / 2 ^ 22) 512) as [E1|E1]]; cbn [orb].
  - destruct (Z.ltb_spec va (2 ^ 22)); [|lia]. change (has 0x83 PTE_P && has 0x83 PTE_PS) with true. cbv iota.
    f_equal. f_equal. change (0x83 / 2 ^ 22 * 2 ^ 22) with 0. lia.
  - destruct (Z.ltb_spec va (2 ^ 22)); [lia|]. destruct (Z.leb_spec 0x80000000 va); [|lia].
    destruct (Z.ltb_spec va (0x80000000 + 2 ^ 22)); [|lia]. cbn [andb].
    change (has 0x83 PTE_P && has 0x83 PTE_PS) with true. cbv iota. f_equal. f_equal.
    change (0x83 / 2 ^ 22 * 2 ^ 22) with 0. unfold v2p, KERNBASE. rewrite u32_small; lia.
  - destruct (Z.ltb_spec va (2 ^ 22)); [lia|].
    destruct (Z.leb_spec 0x80000000 va), (Z.ltb_spec va (0x80000000 + 2 ^ 22)); cbn [andb]; try done. lia.
Qed.

(** ** Each processor gets a stack of its own *)

(** The identifiers of the processors that are not [boot], counted from [i]. *)
Fixpoint others (boot i : Z) (ids : list Z) : list Z :=
  match ids with
  | [] => []
  | id :: ids => if i =? boot then others boot (i + 1) ids else id :: others boot (i + 1) ids
  end.

Section startothers_spec.
Context (kend : Z) (comes_up : Z → bool) (mpenter_addr entrypgdir_addr : Z).
Hypothesis Hend : KERNLINK ≤ kend.
Hypothesis Haddr : 0 ≤ mpenter_addr < 2 ^ 32.

(** Low memory written, the free list untouched. *)
Lemma free_pages_low s m' l : free_pages kend (km s) l → (∀ a, KERNLINK ≤ a → rd m' a = rd (vmem s) a) →
  free_pages kend (set_mem m' (km s)) l.
Proof.
  intros Hf Hm. apply free_pages_same; [done|]. intros p Hp a Ha. apply Hm.
  destruct Hf as (_ & _ & Hall). apply (proj1 (Forall_forall _ _)) with (x := p) in Hall; [|done].
  destruct Hall as (_ & Hall & _). lia.
Qed.

(** The three words below the code, written one after the other. *)
Definition words (m : mem) (stack : Z) : mem :=
  store32 (store32 (store32 m (code - 4) (u32 (stack + KSTACKSIZE))) (code - 8) mpenter_addr)
    (code - 12) (v2p entrypgdir_addr).

Lemma ap_words_read m stack : load32 (words m stack) (code - 4) = u32 (stack + KSTACKSIZE) ∧
  load32 (words m stack) (code - 8) = mpenter_addr ∧ load32 (words m stack) (code - 12) = v2p entrypgdir_addr ∧
  ∀ a, ¬ (code - 12 ≤ a < code) → rd (words m stack) a = rd m a.
Proof.
  unfold words. split_and!.
  - rewrite !load32_store32_ne by lia. apply load32_store32_eq, u32_range.
  - rewrite load32_store32_ne by lia. by apply load32_store32_eq.
  - apply load32_store32_eq, u32_range.
  - intros a Ha. by rewrite !rd_store32_out by lia.
Qed.

(** One processor: it finds the page [p] as its stack. *)
Lemma start_one boot i id ids k s p l : i ≠ boot → comes_up id = true → free_pages kend (km (m_vm s)) (p :: l) →
  LKmem ∉ held k → ∃ s', free_pages kend (km (m_vm s')) l ∧
    m_log s' = m_log s ++ [Started id 0x7000 (u32 (p + KSTACKSIZE)) mpenter_addr (v2p entrypgdir_addr)] ∧
    m_lapic s' = Lapic.lapicstartap id 0x7000 (m_lapic s) ∧ m_vm s' = set_km (km (m_vm s')) (m_vm s) ∧
    (∀ a, ¬ (code - 12 ≤ a < code) → rd (vmem (m_vm s')) a = rd (vmem (m_vm s)) a) ∧
    start_loop comes_up mpenter_addr entrypgdir_addr boot i (id :: ids) k s =
    start_loop comes_up mpenter_addr entrypgdir_addr boot (i + 1) ids k s'.
Proof.
  intros Hi Hup Hf Hk. destruct (vkalloc_run kend k (m_vm s) (p :: l) Hf Hk) as (s1 & R & Hm & Hf1 & _ & _).
  set (m' := words (kmem_mem s1) p).
  destruct (ap_words_read (kmem_mem s1) p) as (E1 & E2 & E3 & E4). fold m' in E1, E2, E3, E4.
  set (v' := set_km (set_mem m' s1) (m_vm s)).
  exists (Mainst v' (Lapic.lapicstartap id 0x7000 (m_lapic s))
    (m_log s ++ [Started id 0x7000 (load32 m' (code - 4)) (load32 m' (code - 8)) (load32 m' (code - 12))])).
  split_and!.
  - apply (free_pages_low (set_km s1 (m_vm s)) m'); [done|]. intros a Ha. apply E4. unfold KERNLINK, KERNBASE, EXTMEM in Ha.
    change code with 0x80007000. lia.
  - cbn [m_log]. by rewrite E1, E2, E3.
  - done.
  - done.
  - intros a Ha. change (rd m' a = rd (vmem (m_vm s)) a). rewrite E4 by done. by rewrite Hm.
  - cbn [start_loop]. destruct (Z.eqb_spec i boot); [done|].
    pose proof (zoom_Done m_vm set_vm _ _ _ _ _ _ R) as R'. mb R'. rewrite Hup. reflexivity.
Qed.

Definition ap_start (id p : Z) : started := Started id 0x7000 (u32 (p + KSTACKSIZE)) mpenter_addr (v2p entrypgdir_addr).

Lemma start_all boot k : LKmem ∉ held k → ∀ ids i s l, (∀ id, id ∈ ids → comes_up id = true) →
  free_pages kend (km (m_vm s)) l → (length (others boot i ids) ≤ length l)%nat →
  ∃ s', start_loop comes_up mpenter_addr entrypgdir_addr boot i ids k s = Done tt k s' ∧
    let n := length (others boot i ids) in
    free_pages kend (km (m_vm s')) (drop n l) ∧
    m_log s' = m_log s ++ zip_with ap_start (others boot i ids) (take n l) ∧
    m_lapic s' = foldl (λ d id, Lapic.lapicstartap id 0x7000 d) (m_lapic s) (others boot i ids) ∧
    m_vm s' = set_km (km (m_vm s')) (m_vm s) ∧
    ∀ a, ¬ (code - 12 ≤ a < code) → rd (vmem (m_vm s')) a = rd (vmem (m_vm s)) a.
Proof.
  intros Hk ids. induction ids as [|id ids IH]; intros i s l Hup Hf Hl.
  { exists s. split; [done|]. cbn. rewrite app_nil_r. split_and!; try done. by destruct s as [[] ? ?]. }
  cbn [others] in *. destruct (Z.eqb_spec i boot) as [E|E].
  { destruct (IH (i + 1) s l) as (s' & R & H); [set_solver|done|done|]. exists s'. split; [|done].
    cbn [start_loop]. by destruct (Z.eqb_spec i boot). }
  destruct l as [|p l]; [cbn in Hl; lia|].
  destruct (start_one boot i id ids k s p l E (Hup id ltac:(set_solver)) Hf Hk) as (s1 & Hf1 & Hlog & Hla & Hv & Hm & R1).
  destruct (IH (i + 1) s1 l) as (s' & R & Hf' & Hlog' & Hla' & Hv' & Hm'); [set_solver|done|cbn in Hl; lia|].
  exists s'. rewrite R1. split; [done|]. cbn [length drop take zip_with foldl]. split_and!; [done| | | |].
  - by rewrite Hlog', Hlog, <- app_assoc.
  - by rewrite Hla', Hla.
  - by rewrite Hv', Hv.
  - intros a Ha. by rewrite Hm', Hm.
Qed.
End startothers_spec.

Lemma startothers_run (kend : Z) (comes_up : Z → bool) (code0 codesz mpenter_addr entrypgdir_addr boot : Z)
    (ids : list Z) (k : kctx) (s : mainst) (l : list Z) :
  KERNLINK ≤ kend → 0 ≤ mpenter_addr < 2 ^ 32 → 0 ≤ codesz → code + codesz ≤ KERNLINK → LKmem ∉ held k →
  (∀ id, id ∈ ids → comes_up id = true) → free_pages kend (km (m_vm s)) l →
  (length (others boot 0 ids) ≤ length l)%nat →
  ∃ s' stacks l', startothers comes_up code0 codesz mpenter_addr entrypgdir_addr boot ids k s = Done tt k s' ∧
    l = stacks ++ l' ∧ NoDup stacks ∧ free_pages kend (km (m_vm s')) l' ∧ length stacks = length (others boot 0 ids) ∧
    m_log s' = m_log s ++ zip_with (ap_start mpenter_addr entrypgdir_addr) (others boot 0 ids) stacks ∧
    m_vm s' = set_km (km (m_vm s')) (m_vm s) ∧
    (∀ a, ¬ (code - 12 ≤ a < code + codesz) → rd (vmem (m_vm s')) a = rd (vmem (m_vm s)) a) ∧
    ∀ i, 0 ≤ i < codesz → rd (vmem (m_vm s')) (code + i) = rd (vmem (m_vm s)) (code0 + i).
Proof.
  intros Hend Haddr Hsz Hcode Hk Hup Hf Hl. set (m1 := KString.memmove (vmem (m_vm s)) code code0 codesz).
  set (s1 := set_vm (set_km (set_mem m1 (km (m_vm s))) (m_vm s)) s).
  assert (Hm1 : ∀ a, rd m1 a = if (code <=? a) && (a <? code + codesz) then rd (vmem (m_vm s)) (code0 + (a - code)) else rd (vmem (m_vm s)) a)
    by (intros a; by apply memmove_rd).
  assert (Hf1 : free_pages kend (km (m_vm s1)) l).
  { apply (free_pages_low kend Hend (m_vm s) m1); [done|]. intros a Ha. rewrite Hm1.
    destruct (Z.ltb_spec a (code + codesz)); [lia|]. by rewrite andb_false_r. }
  destruct (start_all kend comes_up mpenter_addr entrypgdir_addr Hend Haddr boot k Hk ids 0 s1 l Hup Hf1 Hl)
    as (s' & R & Hf' & Hlog & _ & Hv & Hm). set (n := length (others boot 0 ids)) in *.
  exists s', (take n l), (drop n l). split_and!; try done.
  - by rewrite take_drop.
  - destruct Hf as (_ & Hnd & _). rewrite <- (take_drop n l) in Hnd. by apply NoDup_app in Hnd as [? _].
  - rewrite length_take. lia.
  - intros a Ha. rewrite Hm by lia. change (vmem (m_vm s1)) with m1. rewrite Hm1.
    destruct (Z.leb_spec code a), (Z.ltb_spec a (code + codesz)); cbn [andb]; (done || lia).
  - intros i Hi. rewrite Hm by lia. change (vmem (m_vm s1)) with m1. rewrite Hm1.
    destruct (Z.leb_spec code (code + i)), (Z.ltb_spec (code + i) (code + codesz)); try lia. cbn [andb]. f_equal. lia.
Qed.

(** The other processors.  With a free page for each of them startothers starts every
    processor but the one it runs on, in the order of the table and each once; every one
    of them finds the code of entryother.S at its start address and below it the top of a
    page of its own as its stack, mpenter as the place to go to, and the physical address
    of entrypgdir; the pages are those it took from the free list, all different. *)
Theorem startothers_starts (kend : Z) (comes_up : Z → bool) (code0 codesz mpenter_addr entrypgdir_addr boot : Z)
    (ids : list Z) (k : kctx) (s : mainst) (l : list Z) :
  KERNLINK ≤ kend → 0 ≤ mpenter_addr < 2 ^ 32 → 0 ≤ codesz → code + codesz ≤ KERNLINK → LKmem ∉ held k →
  (∀ id, id ∈ ids → comes_up id = true) → free_pages kend (km (m_vm s)) l →
  (length (others boot 0 ids) ≤ length l)%nat →
  ∃ s' stacks l', startothers comes_up code0 codesz mpenter_addr entrypgdir_addr boot ids k s = Done tt k s' ∧
    l = stacks ++ l' ∧ NoDup stacks ∧ free_pages kend (km (m_vm s')) l' ∧ length stacks = length (others boot 0 ids) ∧
    m_log s' = m_log s ++ zip_with (ap_start mpenter_addr entrypgdir_addr) (others boot 0 ids) stacks ∧
    ∀ i, 0 ≤ i < codesz → rd (vmem (m_vm s')) (code + i) = rd (vmem (m_vm s)) (code0 + i).
Proof.
  intros H1 H2 H3 H4 H5 H6 H7 H8.
  destruct (startothers_run kend comes_up code0 codesz mpenter_addr entrypgdir_addr boot ids k s l H1 H2 H3 H4 H5 H6 H7 H8)
    as (s' & stacks & l' & R & ? & ? & ? & ? & ? & _ & _ & ?). by exists s', stacks, l'.
Qed.

(** A processor that enters through mpenter ends up in the scheduler with the kernel's page
    table, its own segments with %gs at its own structure, the interrupt table of all 256
    vectors, and its variable started set, which is what startothers waits for. *)
Theorem mpenter_ready (cpus idt kpgdir cpu : Z) (a : apst) : let c := cpus + sizeof_cpu * cpu in
  0 ≤ c → c + sizeof_cpu ≤ 2 ^ 32 → 0 ≤ idt < 2 ^ 32 → let a' := mpenter cpus idt kpgdir cpu a in
  a_cr3 a' = v2p kpgdir ∧ sh_gdtr (a_seg a') = (8 * NSEGS - 1, c + cpu_gdt) ∧ sh_gsbase (a_seg a') = c + cpu_cpu ∧
  load32 (sh_mem (a_seg a')) (c + cpu_cpu) = c ∧ sh_idtr (a_seg a') = (8 * 256 - 1, idt) ∧
  a_lapic a' = Lapic.lapicinit (a_lapic a) ∧ a_started a' = 1.
Proof.
  intros c H0 H1 Hi a'. pose proof (seginit_eq cpus cpu (a_seg a) H0 H1) as E. fold c in E.
  unfold a', mpenter, mpmain, idtinit, lidt. cbn [a_cr3 a_seg a_lapic a_started]. rewrite E. cbn [sh_gdtr sh_gsbase sh_mem sh_idtr].
  rewrite pseudo_desc_eq by lia. change sizeof_cpu with 192 in H1.
  split_and!; try done. change cpu_cpu with 180. change cpu_proc with 184.
  rewrite load32_store32_ne by lia. apply load32_store32_eq. lia.
Qed.

(** Three processors, the first of which is the one that boots, and two free pages. *)
Definition demo_main : mainst :=
  Mainst (demo_vm (store32 ∅ demo_a demo_b) demo_a) (Lapic.Lapic true ∅ [] [] ∅) [].

Lemma startothers_starts_witness : ∃ s' stacks l',
  startothers (λ _, true) 0x80108000 100 0x80103000 0x80109000 0 [0; 1; 2] (Kctx [] []) demo_main = Done tt (Kctx [] []) s' ∧
  [demo_a; demo_b] = stacks ++ l' ∧ NoDup stacks ∧ free_pages VmUser.demo_kend (km (m_vm s')) l' ∧ length stacks = 2%nat ∧
  m_log s' = m_log demo_main ++ zip_with (ap_start 0x80103000 0x80109000) [1; 2] stacks ∧
  ∀ i, 0 ≤ i < 100 → rd (vmem (m_vm s')) (code + i) = rd (vmem (m_vm demo_main)) (0x80108000 + i).
Proof.
  apply (startothers_starts VmUser.demo_kend (λ _, true) 0x80108000 100 0x80103000 0x80109000 0 [0; 1; 2] (Kctx [] [])
    demo_main [demo_a; demo_b]); [done|lia|lia|done|apply not_elem_of_nil|done|exact demo_two_pages|done].
Defined.

Lemma mpenter_ready_witness : let a := Apst 0 (Seghw ∅ (0, 0) (0, 0) 0 0) (Lapic.Lapic true ∅ [] [] ∅) 0 in
  a_cr3 (mpenter 0x80112000 0x80114000 0x803ff000 1 a) = v2p 0x803ff000 ∧ a_started (mpenter 0x80112000 0x80114000 0x803ff000 1 a) = 1.
Proof.
  destruct (mpenter_ready 0x80112000 0x80114000 0x803ff000 1 (Apst 0 (Seghw ∅ (0, 0) (0, 0) 0 0) (Lapic.Lapic true ∅ [] [] ∅) 0)
    ltac:(vm_compute; congruence) ltac:(vm_compute; congruence) ltac:(lia)) as (E & _ & _ & _ & _ & _ & F). exact (conj E F).
Defined.
