(* ===== verification/Startup.v ===== *)
(** * Start-up in assembly: bootasm.S, entry.S, entryother.S, asm.h

    The machine has the control registers, segment registers with the base and the limit
    that the processor keeps of their descriptors, the register of the descriptor table,
    the interrupt flag, the keyboard controller with the gate of address line 20, and
    physical memory.  An access goes through the data segment, then, with paging on,
    through a directory of 4-megabyte pages, then through the gate.  What the processor
    refuses is [None].  The polling loops of bootasm.S (inb, testb, jnz) are one
    instruction. *)

From stdpp Require Import base gmap list strings.
From Stdlib Require Import ZArith Lia.
From S2P Require Import Prelude Params Cstring Vm Kstate Proc Trap Asm AsmSpec Segments Main.

Definition CR0_PE : Z := 0x00000001.
Definition CR0_WP : Z := 0x00010000.
Definition CR0_PG : Z := 0x80000000.
Definition CR4_PSE : Z := 0x00000010.

Record segreg : Type := Segreg { sg_sel : Z; sg_base : Z; sg_limit : Z }.

(** The keyboard controller: how often it is yet busy when it is asked, how long it is busy
    after a write, the command it waits for the data of, and the gate. *)
Record kbc : Type := Kbc { kb_busy : nat; kb_pace : nat; kb_cmd : Z; kb_a20 : bool }.

Record smach : Type := Smach {
  x_regs : reg → Z; x_segs : sreg → segreg; x_cr0 : Z; x_cr3 : Z; x_cr4 : Z; x_gdtr : Z * Z;
  x_if : bool; x_kbc : kbc; x_mem : mem
}.
Definition xset_reg (r : reg) (v : Z) (m : smach) : smach :=
  Smach (λ r', if decide (r = r') then v else x_regs m r') (x_segs m) (x_cr0 m) (x_cr3 m) (x_cr4 m) (x_gdtr m)
    (x_if m) (x_kbc m) (x_mem m).
Definition xset_seg (r : sreg) (v : segreg) (m : smach) : smach :=
  Smach (x_regs m) (λ r', if decide (r = r') then v else x_segs m r') (x_cr0 m) (x_cr3 m) (x_cr4 m) (x_gdtr m)
    (x_if m) (x_kbc m) (x_mem m).
Definition xset_cr (c0 c3 c4 : Z) (m : smach) : smach :=
  Smach (x_regs m) (x_segs m) c0 c3 c4 (x_gdtr m) (x_if m) (x_kbc m) (x_mem m).
Definition xset_gdtr (g : Z * Z) (m : smach) : smach :=
  Smach (x_regs m) (x_segs m) (x_cr0 m) (x_cr3 m) (x_cr4 m) g (x_if m) (x_kbc m) (x_mem m).
Definition xset_if (b : bool) (m : smach) : smach :=
  Smach (x_regs m) (x_segs m) (x_cr0 m) (x_cr3 m) (x_cr4 m) (x_gdtr m) b (x_kbc m) (x_mem m).
Definition xset_kbc (b : kbc) (m : smach) : smach :=
  Smach (x_regs m) (x_segs m) (x_cr0 m) (x_cr3 m) (x_cr4 m) (x_gdtr m) (x_if m) b (x_mem m).
Definition xset_mem (v : mem) (m : smach) : smach :=
  Smach (x_regs m) (x_segs m) (x_cr0 m) (x_cr3 m) (x_cr4 m) (x_gdtr m) (x_if m) (x_kbc m) v.

(** ** Addresses *)

Definition gate (m : smach) (a : Z) : Z := if kb_a20 (x_kbc m) then a else Z.land a (Z.lnot (2 ^ 20)).

(** The physical address of a linear one. *)
Definition translate (m : smach) (a : Z) : option Z :=
  if has (x_cr0 m) CR0_PG then
    let e := load32 (x_mem m) (gate m (x_cr3 m + 4 * PDX a)) in
    if has e PTE_P && has e PTE_PS && has (x_cr4 m) CR4_PSE
    then Some (gate m (e / 2 ^ 22 * 2 ^ 22 + a mod 2 ^ 22)) else None
  else Some (gate m a).

Definition xload (s : sreg) (a : Z) (m : smach) : option Z :=
  load32 (x_mem m) <$> translate m (u32 (sg_base (x_segs m s) + a)).

(** A segment register: in protected mode the descriptor, which must be present. *)
Definition load_sreg (r : sreg) (sel : Z) (m : smach) : option smach :=
  if negb (has (x_cr0 m) CR0_PE) then Some (xset_seg r (Segreg sel (16 * sel) 0xffff) m)
  else if sel =? 0 then Some (xset_seg r (Segreg 0 0 0) m)
  else
    p ← translate m ((x_gdtr m).2 + sel);
    let d := load_seg (x_mem m) p in
    if (sel + 7 <=? (x_gdtr m).1) && (sd_p d =? 1) && (sd_s d =? 1)
    then Some (xset_seg r (Segreg sel (seg_base d) (seg_limit d)) m) else None.

(** ** Instructions *)

Inductive sinstr : Type :=
  | x_cli | x_xorw_ax | x_movw_seg (r : sreg) | x_wait64 | x_outb (v port : Z) | x_lgdt (a : Z)
  | x_get_cr0 | x_get_cr4 | x_orl (v : Z) | x_set_cr0 | x_set_cr3 | x_set_cr4
  | x_ljmp (sel : Z) | x_movw_ax (v : Z) | x_movl (v : Z) (r : reg) | x_movl_abs (a : Z) (r : reg)
  | x_call (f : Z) | x_call_abs (a : Z) | x_jmp_eax.

(** Where the code goes on: the next instruction or an address. *)
Abbreviation went := (option Z * smach)%type.

(** inb $0x64, %al; testb $0x2, %al; jnz: until the controller is not busy. *)
Fixpoint poll (n : nat) (m : smach) : smach :=
  let b := x_kbc m in
  let status := if (kb_busy b =? 0)%nat then 0 else 2 in
  let m1 := xset_reg EAX (Z.lor (Z.land (x_regs m EAX) 0xffffff00) status)
              (xset_kbc (Kbc (pred (kb_busy b)) (kb_pace b) (kb_cmd b) (kb_a20 b)) m) in
  match n with
  | O => m1
  | S n => if Z.land status 2 =? 0 then m1 else poll n m1
  end.

(** movb $v, %al; outb %al, $port.  The controller loses what it is sent while it is busy;
    command 0xd1 makes the next data byte its output port, bit 1 of which is the gate. *)
Definition kbc_out (v port : Z) (b : kbc) : kbc :=
  if negb (kb_busy b =? 0)%nat then b
  else if port =? 0x64 then Kbc (kb_pace b) (kb_pace b) v (kb_a20 b)
  else if (port =? 0x60) && (kb_cmd b =? 0xd1) then Kbc (kb_pace b) (kb_pace b) 0 (Z.testbit v 1)
  else b.

Definition do_call (f ret : Z) (m : smach) : option went :=
  let sp := u32 (x_regs m ESP - 4) in
  (λ a, (Some f, xset_mem (store32 (x_mem m) a ret) (xset_reg ESP sp m))) <$>
    translate m (u32 (sg_base (x_segs m SS) + sp)).

Definition ax (v : Z) (m : smach) : smach := xset_reg EAX (Z.lor (Z.land (x_regs m EAX) 0xffff0000) v) m.

Definition sstep (i : sinstr) (ret : Z) (m : smach) : option went :=
  let on m := Some (None, m) in
  match i with
  | x_cli => on (xset_if false m)
  | x_xorw_ax => on (ax 0 m)
  | x_movw_seg r => (λ m, (None, m)) <$> load_sreg r (u16 (x_regs m EAX)) m
  | x_wait64 => on (poll (kb_busy (x_kbc m)) m)
  | x_outb v port =>
    let m := xset_reg EAX (Z.lor (Z.land (x_regs m EAX) 0xffffff00) v) m in on (xset_kbc (kbc_out v port (x_kbc m)) m)
  | x_lgdt a =>
    match translate m (u32 (sg_base (x_segs m DS) + a)) with
    | Some p =>
      let base := load32 (x_mem m) (p + 2) in
      on (xset_gdtr (load16 (x_mem m) p, if has (x_cr0 m) CR0_PE then base else Z.land base 0xffffff) m)
    | None => None
    end
  | x_get_cr0 => on (xset_reg EAX (x_cr0 m) m)
  | x_get_cr4 => on (xset_reg EAX (x_cr4 m) m)
  | x_orl v => on (xset_reg EAX (Z.lor (x_regs m EAX) v) m)
  | x_set_cr0 => on (xset_cr (x_regs m EAX) (x_cr3 m) (x_cr4 m) m)
  | x_set_cr3 => on (xset_cr (x_cr0 m) (x_regs m EAX) (x_cr4 m) m)
  | x_set_cr4 => on (xset_cr (x_cr0 m) (x_cr3 m) (x_regs m EAX) m)
  | x_ljmp sel => (λ m, (None, m)) <$> load_sreg CS sel m
  | x_movw_ax v => on (ax v m)
  | x_movl v r => on (xset_reg r v m)
  | x_movl_abs a r => (λ v, (None, xset_reg r v m)) <$> xload DS a m
  | x_call f => do_call f ret m
  | x_call_abs a => f ← xload DS a m; do_call f ret m
  | x_jmp_eax => Some (Some (x_regs m EAX), m)
  end.

(** [ret] is the address behind the call. *)
Fixpoint srun (ret : Z) (code : list sinstr) (m : smach) : option went :=
  match code with
  | [] => Some (None, m)
  | i :: code =>
    match sstep i ret m with
    | Some (None, m) => srun ret code m
    | r => r
    end
  end.

(** ** The code *)

(** asm.h *)
Definition SEG_ASM (type base lim : Z) : list Z :=
  let w v := [Z.land v 0xff; Z.land (Z.shiftr v 8) 0xff] in
  w (Z.land (Z.shiftr lim 12) 0xffff) ++ w (Z.land base 0xffff) ++
  [Z.land (Z.shiftr base 16) 0xff; Z.lor 0x90 type; Z.lor 0xC0 (Z.land (Z.shiftr lim 28) 0xf); Z.land (Z.shiftr base 24) 0xff].
Definition SEG_NULLASM : list Z := replicate 8 0.

(** The bootstrap table. *)
Definition gdt : list Z := SEG_NULLASM ++ SEG_ASM (Z.lor STA_X STA_R) 0 0xffffffff ++ SEG_ASM STA_W 0 0xffffffff.

(** The part bootasm.S and entryother.S have in common: into protected mode. *)
Definition data_segments : list sinstr := [x_xorw_ax; x_movw_seg DS; x_movw_seg ES; x_movw_seg SS].
Definition protected (gdtdesc : Z) : list sinstr :=
  [x_lgdt gdtdesc; x_get_cr0; x_orl CR0_PE; x_set_cr0; x_ljmp (Z.shiftl SEG_KCODE 3);
   x_movw_ax (Z.shiftl SEG_KDATA 3); x_movw_seg DS; x_movw_seg ES; x_movw_seg SS;
   x_movw_ax 0; x_movw_seg FS; x_movw_seg GS].

Definition bootasm (start gdtdesc bootmain : Z) : list sinstr :=
  [x_cli] ++ data_segments ++
  [x_wait64; x_outb 0xd1 0x64; x_wait64; x_outb 0xdf 0x60] ++
  protected gdtdesc ++
  [x_movl start ESP; x_call bootmain].

Definition entry (entrypgdir stack main : Z) : list sinstr :=
  [x_get_cr4; x_orl CR4_PSE; x_set_cr4; x_movl (v2p entrypgdir) EAX; x_set_cr3;
   x_get_cr0; x_orl (Z.lor CR0_PG CR0_WP); x_set_cr0;
   x_movl (u32 (stack + KSTACKSIZE)) ESP; x_movl main EAX; x_jmp_eax].

Definition entryother (start gdtdesc : Z) : list sinstr :=
  [x_cli] ++ data_segments ++ protected gdtdesc ++
  [x_get_cr4; x_orl CR4_PSE; x_set_cr4; x_movl_abs (start - 12) EAX; x_set_cr3;
   x_get_cr0; x_orl (Z.lor (Z.lor CR0_PE CR0_PG) CR0_WP); x_set_cr0;
   x_movl_abs (start - 4) ESP; x_call_abs (start - 8)].

(** ** The macro of the assembler is that of the compiler *)

(** The number little-endian bytes are. *)
Fixpoint le (l : list Z) : Z := match l with [] => 0 | b :: l => b + 2 ^ 8 * le l end.

Lemma lor_nibble h v : h = 0x90 ∨ h = 0xC0 → 0 ≤ v < 16 → Z.lor h v = h + v.
Proof.
  intros Hh Hv. assert (v = 0 ∨ v = 1 ∨ v = 2 ∨ v = 3 ∨ v = 4 ∨ v = 5 ∨ v = 6 ∨ v = 7 ∨ v = 8 ∨ v = 9 ∨ v = 10 ∨ v = 11 ∨
    v = 12 ∨ v = 13 ∨ v = 14 ∨ v = 15) as Hc by lia.
  destruct Hh as [-> | ->]; repeat destruct Hc as [->|Hc]; try done; by subst.
Qed.

(** SEG_ASM of asm.h lays out the descriptor that SEG of mmu.h with privilege 0 is. *)
Theorem seg_asm_same (type base lim : Z) : 0 ≤ type < 16 → 0 ≤ base < 2 ^ 32 → 0 ≤ lim < 2 ^ 32 →
  le (SEG_ASM type base lim) = pack segdesc_widths (segdesc_list (SEG type base lim 0)).
Proof.
  intros Ht Hb Hl. rewrite seg_fields by done. unfold SEG_ASM.
  assert (Hlh : 0 ≤ lim / 2 ^ 28 < 16) by (split; [apply Z.div_pos; lia|apply Z.div_lt_upper_bound; lia]).
  assert (Hbh : 0 ≤ base / 2 ^ 24 < 2 ^ 8) by (split; [apply Z.div_pos; lia|apply Z.div_lt_upper_bound; lia]).
  rewrite !Z.shiftr_div_pow2 by lia. change 0xffff with (Z.ones 16). change 0xff with (Z.ones 8). change 0xf with (Z.ones 4).
  rewrite !Z.land_ones by lia. rewrite (Z.mod_small (lim / 2 ^ 28)) by lia. rewrite (Z.mod_small (base / 2 ^ 24)) by lia.
  rewrite !lor_nibble by (done || lia || tauto).
  unfold segdesc_widths, segdesc_list. cbn [app le pack lim_15_0 base_15_0 base_23_16 sd_type sd_s sd_dpl sd_p lim_19_16 sd_avl sd_rsv1 sd_db sd_g base_31_24].
  unfold wrap. set (a := lim / 2 ^ 12 mod 2 ^ 16). set (b := base mod 2 ^ 16). set (c := base / 2 ^ 16 mod 2 ^ 8).
  assert (Ha : 0 ≤ a < 2 ^ 16) by (apply Z.mod_pos_bound; lia).
  assert (Hb' : 0 ≤ b < 2 ^ 16) by (apply Z.mod_pos_bound; lia).
  assert (Hc : 0 ≤ c < 2 ^ 8) by (apply Z.mod_pos_bound; lia).
  assert (Hw : ∀ x, 0 ≤ x < 2 ^ 16 → x mod 2 ^ 8 + 2 ^ 8 * (x / 2 ^ 8 mod 2 ^ 8) = x).
  { intros x Hx. rewrite (Z.mod_small (x / 2 ^ 8)) by (split; [apply Z.div_pos; lia|apply Z.div_lt_upper_bound; lia]).
    pose proof (Z.div_mod x (2 ^ 8) ltac:(lia)). lia. }
  pose proof (Hw a Ha). pose proof (Hw b Hb').
  rewrite (Z.mod_small a (2 ^ 16)), (Z.mod_small b (2 ^ 16)), (Z.mod_small c (2 ^ 8)), (Z.mod_small type (2 ^ 4)),
    (Z.mod_small (lim / 2 ^ 28) (2 ^ 4)), (Z.mod_small (base / 2 ^ 24) (2 ^ 8)) by lia.
  change (1 mod 2 ^ 1) with 1. change (0 mod 2 ^ 2) with 0. change (0 mod 2 ^ 1) with 0. lia.
Qed.

(** ** Into protected mode *)

Lemma has_lor a b c : has (Z.lor a b) c = has a c || has b c.
Proof.
  unfold has. rewrite Z.land_lor_distr_l.
  destruct (Z.eqb_spec (Z.lor (Z.land a c) (Z.land b c)) 0) as [E|E].
  - apply Z.lor_eq_0_iff in E as [-> ->]. done.
  - destruct (Z.eqb_spec (Z.land a c) 0) as [E1|]; [|done]. destruct (Z.eqb_spec (Z.land b c) 0) as [E2|]; [|done].
    by rewrite E1, E2 in E.
Qed.

(** The table and its descriptor in the first 64K of memory. *)
Record boot_image (m : mem) (g gd : Z) : Prop := BootImage {
  bi_gdt : ∀ i b, gdt !! i = Some b → rd m (g + Z.of_nat i) = b;
  bi_size : load16 m gd = 23;
  bi_base : load32 m (gd + 2) = g;
  bi_low : 0 ≤ g ∧ g + 24 ≤ 2 ^ 16 ∧ 0 ≤ gd < 2 ^ 16
}.

Lemma boot_descriptors m g gd : boot_image m g gd →
  load_seg m (g + 8) = SEG (Z.lor STA_X STA_R) 0 0xffffffff 0 ∧ load_seg m (g + 16) = SEG STA_W 0 0xffffffff 0.
Proof.
  intros [H _ _ _].
  assert (R : ∀ j, 0 ≤ j < 24 → rd m (g + j) = gdt.[Z.to_nat j]).
  { intros j Hj. assert (Hl : (Z.to_nat j < length gdt)%nat) by (change (length gdt) with 24%nat; lia).
    apply lookup_lt_is_Some_2 in Hl as [b E]. unfold nthz. rewrite E. cbn [default]. cbv [id].
    rewrite <- (H _ _ E). f_equal. lia. }
  unfold load_seg, load64, load32. rewrite <- !Z.add_assoc. cbn [Z.add Pos.add Pos.succ].
  rewrite !R by lia. split; by vm_compute.
Qed.

Lemma gate_low m a : 0 ≤ a < 2 ^ 20 → gate m a = a.
Proof.
  intros Ha. unfold gate. destruct (kb_a20 (x_kbc m)); [done|]. rewrite <- Z.ldiff_land. apply Z.bits_inj'. intros b Hb.
  rewrite Z.ldiff_spec, Z.pow2_bits_eqb by lia. destruct (Z.eqb_spec 20 b) as [<-|]; [|by rewrite andb_true_r].
  rewrite andb_false_r. symmetry. destruct (Z.eq_dec a 0) as [->|]; [done|]. apply Z.bits_above_log2; [lia|].
  apply Z.log2_lt_pow2; lia.
Qed.

Lemma translate_low m a : has (x_cr0 m) CR0_PG = false → 0 ≤ a < 2 ^ 20 → translate m a = Some a.
Proof. intros Hp Ha. unfold translate. by rewrite Hp, gate_low. Qed.

Lemma load_sreg_flat r sel m g gd : has (x_cr0 m) CR0_PE = true → has (x_cr0 m) CR0_PG = false → x_gdtr m = (23, g) →
  boot_image (x_mem m) g gd → sel = 8 ∨ sel = 16 →
  load_sreg r sel m = Some (xset_seg r (Segreg sel 0 (2 ^ 32 - 1)) m).
Proof.
  intros He Hp Hg Hb Hs. destruct (boot_descriptors _ _ _ Hb) as [D1 D2]. pose proof (bi_low _ _ _ Hb) as Hl.
  unfold load_sreg. rewrite He, Hg. cbn [negb fst snd]. destruct Hs as [-> | ->]; cbn [Z.eqb];
    rewrite translate_low by (done || lia); cbn [mbind option_bind]; rewrite ?D1, ?D2; reflexivity.
Qed.

Lemma real_sreg r sel m : has (x_cr0 m) CR0_PE = false → load_sreg r sel m = Some (xset_seg r (Segreg sel (16 * sel) 0xffff) m).
Proof. intros H. unfold load_sreg. by rewrite H. Qed.

Lemma srun_app ret c1 c2 m : srun ret (c1 ++ c2) m =
  match srun ret c1 m with Some (None, m') => srun ret c2 m' | r => r end.
Proof.
  revert m. induction c1 as [|i c1 IH]; intros m; [done|]. cbn [app srun].
  destruct (sstep i ret m) as [[[e|] m']|]; [done|apply IH|done].
Qed.

Lemma srun_on ret i code m m' : sstep i ret m = Some (None, m') → srun ret (i :: code) m = srun ret code m'.
Proof. intros H. cbn [srun]. by rewrite H. Qed.

Lemma ax_low v m : 0 ≤ v < 2 ^ 16 → u16 (x_regs (ax v m) EAX) = v.
Proof.
  intros Hv. cbn [ax x_regs xset_reg]. rewrite decide_True by done. rewrite <- (u16_small v) at 1 by done.
  rewrite movw_low. by apply u16_small.
Qed.

(** movw %ax into a segment register. *)
Lemma movw_on ret r code m v m' : u16 (x_regs m EAX) = v → load_sreg r v m = Some m' →
  srun ret (x_movw_seg r :: code) m = srun ret code m'.
Proof. intros Hv Hl. apply srun_on. cbn [sstep]. by rewrite Hv, Hl. Qed.

Lemma data_segments_run ret code m : has (x_cr0 m) CR0_PE = false →
  srun ret (data_segments ++ code) m =
  let z := Segreg 0 0 0xffff in srun ret code (xset_seg SS z (xset_seg ES z (xset_seg DS z (ax 0 m)))).
Proof.
  intros Hp. unfold data_segments. cbn [app]. rewrite (srun_on ret _ _ _ (ax 0 m)) by done.
  rewrite (movw_on ret DS _ _ 0 _ (ax_low 0 m ltac:(lia)) (real_sreg DS 0 (ax 0 m) Hp)).
  set (m1 := xset_seg DS _ _). rewrite (movw_on ret ES _ m1 0 _ (ax_low 0 m ltac:(lia)) (real_sreg ES 0 m1 Hp)).
  set (m2 := xset_seg ES _ _). by rewrite (movw_on ret SS _ m2 0 _ (ax_low 0 m ltac:(lia)) (real_sreg SS 0 m2 Hp)).
Qed.

(** A machine in protected mode with flat segments; its memory and the rest as in [m]. *)
Record in_protected (m m' : smach) : Prop := InProtected {
  ip_cr : x_cr0 m' = Z.lor (x_cr0 m) CR0_PE ∧ x_cr3 m' = x_cr3 m ∧ x_cr4 m' = x_cr4 m;
  ip_same : x_mem m' = x_mem m ∧ x_kbc m' = x_kbc m ∧ x_if m' = x_if m;
  ip_regs : ∀ r, r ≠ EAX → x_regs m' r = x_regs m r;
  ip_code : x_segs m' CS = Segreg (8 * SEG_KCODE) 0 (2 ^ 32 - 1);
  ip_data : ∀ r, r ∈ [DS; ES; SS] → x_segs m' r = Segreg (8 * SEG_KDATA) 0 (2 ^ 32 - 1);
  ip_null : ∀ r, r ∈ [FS; GS] → x_segs m' r = Segreg 0 0 0
}.

(** The segment registers, with the processor in protected mode. *)
Definition flat_segments (n : smach) : smach :=
  let c := Segreg 8 0 (2 ^ 32 - 1) in let d := Segreg 16 0 (2 ^ 32 - 1) in let z := Segreg 0 0 0 in
  xset_seg GS z (xset_seg FS z (ax 0 (xset_seg SS d (xset_seg ES d (xset_seg DS d (ax 16 (xset_seg CS c n))))))).

Lemma flat_run ret code n g gd : has (x_cr0 n) CR0_PE = true → has (x_cr0 n) CR0_PG = false → x_gdtr n = (23, g) →
  boot_image (x_mem n) g gd →
  srun ret ([x_ljmp (Z.shiftl SEG_KCODE 3); x_movw_ax (Z.shiftl SEG_KDATA 3); x_movw_seg DS; x_movw_seg ES; x_movw_seg SS;
    x_movw_ax 0; x_movw_seg FS; x_movw_seg GS] ++ code) n = srun ret code (flat_segments n).
Proof.
  intros He Hp Hg Hb.
  assert (Hflat : ∀ r sel x, x_cr0 x = x_cr0 n → x_gdtr x = x_gdtr n → x_mem x = x_mem n → sel = 8 ∨ sel = 16 →
    load_sreg r sel x = Some (xset_seg r (Segreg sel 0 (2 ^ 32 - 1)) x)).
  { intros r sel x E1 E2 E3 Hs. apply (load_sreg_flat r sel x g gd); rewrite ?E1, ?E2, ?E3; done. }
  assert (Hnull : ∀ r x, x_cr0 x = x_cr0 n → load_sreg r 0 x = Some (xset_seg r (Segreg 0 0 0) x)).
  { intros r x E. unfold load_sreg. by rewrite E, He. }
  cbn [app]. set (n1 := xset_seg CS (Segreg 8 0 (2 ^ 32 - 1)) n).
  rewrite (srun_on ret _ _ n n1) by (cbn [sstep]; change (Z.shiftl SEG_KCODE 3) with 8; rewrite Hflat by (done || tauto); done).
  rewrite (srun_on ret _ _ n1 (ax 16 n1)) by done.
  set (n2 := ax 16 n1). rewrite (movw_on ret DS _ n2 16 _ (ax_low 16 n1 ltac:(lia)) (Hflat DS 16 n2 eq_refl eq_refl eq_refl (or_intror eq_refl))).
  set (n3 := xset_seg DS _ n2). rewrite (movw_on ret ES _ n3 16 _ (ax_low 16 n1 ltac:(lia)) (Hflat ES 16 n3 eq_refl eq_refl eq_refl (or_intror eq_refl))).
  set (n4 := xset_seg ES _ n3). rewrite (movw_on ret SS _ n4 16 _ (ax_low 16 n1 ltac:(lia)) (Hflat SS 16 n4 eq_refl eq_refl eq_refl (or_intror eq_refl))).
  set (n5 := xset_seg SS _ n4). rewrite (srun_on ret _ _ n5 (ax 0 n5)) by done.
  set (n6 := ax 0 n5). rewrite (movw_on ret FS _ n6 0 _ (ax_low 0 n5 ltac:(lia)) (Hnull FS n6 eq_refl)).
  set (n7 := xset_seg FS _ n6). by rewrite (movw_on ret GS _ n7 0 _ (ax_low 0 n5 ltac:(lia)) (Hnull GS n7 eq_refl)).
Qed.

Lemma protected_run ret code m g gd : has (x_cr0 m) CR0_PE = false → has (x_cr0 m) CR0_PG = false →
  sg_base (x_segs m DS) = 0 → boot_image (x_mem m) g gd →
  ∃ m', srun ret (protected gd ++ code) m = srun ret code m' ∧ in_protected m m'.
Proof.
  intros He Hp Hd Hb. pose proof (bi_low _ _ _ Hb) as Hl.
  set (m1 := xset_gdtr (23, g) m). set (m2 := xset_reg EAX (x_cr0 m) m1).
  set (m3 := xset_reg EAX (Z.lor (x_cr0 m) CR0_PE) m2). set (m4 := xset_cr (Z.lor (x_cr0 m) CR0_PE) (x_cr3 m) (x_cr4 m) m3).
  assert (Hg : sstep (x_lgdt gd) ret m = Some (None, m1)).
  { cbn [sstep]. rewrite Hd, Z.add_0_l, u32_small, translate_low by (done || lia).
    rewrite He, (bi_size _ _ _ Hb), (bi_base _ _ _ Hb). unfold m1. do 4 f_equal.
    change 0xffffff with (Z.ones 24). rewrite Z.land_ones by lia. apply Z.mod_small. lia. }
  assert (He4 : has (x_cr0 m4) CR0_PE = true) by (cbn [x_cr0 m4 xset_cr]; rewrite has_lor; apply orb_true_r).
  assert (Hp4 : has (x_cr0 m4) CR0_PG = false) by (cbn [x_cr0 m4 xset_cr]; rewrite has_lor, Hp; done).
  exists (flat_segments m4). split.
  - change (protected gd) with ([x_lgdt gd; x_get_cr0; x_orl CR0_PE; x_set_cr0] ++ drop 4 (protected gd)).
    rewrite <- app_assoc. cbn [app]. rewrite (srun_on ret _ _ _ _ Hg), (srun_on ret _ _ m1 m2), (srun_on ret _ _ m2 m3),
      (srun_on ret _ _ m3 m4) by done. by apply (flat_run ret code m4 g gd).
  - split; try done.
    + intros r Hr. cbn. rewrite !decide_False by done. done.
    + intros r Hr. apply list_elem_of_In in Hr. cbn in Hr. destruct Hr as [<-|[<-|[<-|[]]]]; done.
    + intros r Hr. apply list_elem_of_In in Hr. cbn in Hr. destruct Hr as [<-|[<-|[]]]; done.
Qed.

(** ** bootasm.S *)

(** Nothing has changed but %al and the keyboard controller. *)
Record only_kbc (m m' : smach) : Prop := OnlyKbc {
  ok_cr : x_cr0 m' = x_cr0 m ∧ x_cr3 m' = x_cr3 m ∧ x_cr4 m' = x_cr4 m ∧ x_gdtr m' = x_gdtr m;
  ok_same : x_mem m' = x_mem m ∧ x_segs m' = x_segs m ∧ x_if m' = x_if m;
  ok_regs : ∀ r, r ≠ EAX → x_regs m' r = x_regs m r
}.

Lemma only_kbc_trans m1 m2 m3 : only_kbc m1 m2 → only_kbc m2 m3 → only_kbc m1 m3.
Proof.
  intros [(A1 & A2 & A3 & A4) (B1 & B2 & B3) C1] [(D1 & D2 & D3 & D4) (E1 & E2 & E3) F1].
  split; [by rewrite D1, D2, D3, D4|by rewrite E1, E2, E3|]. intros r Hr. by rewrite F1, C1.
Qed.

Lemma poll_ready n : ∀ m, (kb_busy (x_kbc m) ≤ n)%nat →
  let b := x_kbc m in only_kbc m (poll n m) ∧ x_kbc (poll n m) = Kbc 0 (kb_pace b) (kb_cmd b) (kb_a20 b).
Proof.
  assert (Hone : ∀ m v b, only_kbc m (xset_reg EAX v (xset_kbc b m))).
  { intros m v b. split; [done|done|]. intros r Hr. cbn. by rewrite decide_False. }
  induction n as [|n IH]; intros m Hn; cbn [poll].
  - destruct (kb_busy (x_kbc m)) eqn:E; [|lia]. split; [apply Hone|done].
  - destruct (kb_busy (x_kbc m)) as [|c] eqn:E; cbn [Nat.eqb Nat.pred]; [split; [apply Hone|done]|].
    change (Z.land 2 2 =? 0) with false. cbv iota. set (m1 := xset_reg EAX _ _).
    destruct (IH m1) as [H1 H2]; [cbn; lia|]. split; [|exact H2]. eapply only_kbc_trans; [apply Hone|exact H1].
Qed.

(** The four instructions, with their loops, that open the gate. *)
Lemma seta20_run ret code m : ∃ m', only_kbc m m' ∧ kb_a20 (x_kbc m') = true ∧
  srun ret ([x_wait64; x_outb 0xd1 0x64; x_wait64; x_outb 0xdf 0x60] ++ code) m = srun ret code m'.
Proof.
  assert (Hout : ∀ x v b, only_kbc x (xset_kbc b (xset_reg EAX v x))).
  { intros x v b. split; [done|done|]. intros r Hr. cbn. by rewrite decide_False. }
  destruct (poll_ready (kb_busy (x_kbc m)) m ltac:(lia)) as [H1 E1]. set (m1 := poll _ m) in *.
  set (m2 := xset_kbc (kbc_out 0xd1 0x64 (x_kbc m1)) (xset_reg EAX (Z.lor (Z.land (x_regs m1 EAX) 0xffffff00) 0xd1) m1)).
  destruct (poll_ready (kb_busy (x_kbc m2)) m2 ltac:(lia)) as [H3 E3]. set (m3 := poll _ m2) in *.
  set (m4 := xset_kbc (kbc_out 0xdf 0x60 (x_kbc m3)) (xset_reg EAX (Z.lor (Z.land (x_regs m3 EAX) 0xffffff00) 0xdf) m3)).
  exists m4. split_and!.
  - eapply only_kbc_trans; [exact H1|]. eapply only_kbc_trans; [apply Hout|]. eapply only_kbc_trans; [exact H3|apply Hout].
  - cbn [x_kbc m4 xset_kbc]. rewrite E3. cbn [x_kbc m2 xset_kbc]. by rewrite E1.
  - cbn [app]. by rewrite (srun_on ret _ _ m m1), (srun_on ret _ _ m1 m2), (srun_on ret _ _ m2 m3), (srun_on ret _ _ m3 m4) by done.
Qed.

(** Flat segments as [in_protected] has them. *)
Definition flat_mode (m : smach) : Prop :=
  x_segs m CS = Segreg (8 * SEG_KCODE) 0 (2 ^ 32 - 1) ∧
  (∀ r, r ∈ [DS; ES; SS] → x_segs m r = Segreg (8 * SEG_KDATA) 0 (2 ^ 32 - 1)) ∧ ∀ r, r ∈ [FS; GS] → x_segs m r = Segreg 0 0 0.

(** C39: The boot sector.  Started in real mode with its table in memory, bootasm.S opens the
    gate of address line 20, however long the keyboard controller is busy, and calls
    bootmain in protected mode, with code and data segments of all 4 gigabytes, the
    interrupts off, and a stack that begins below its own first instruction; it changes
    no memory but the word of the return address. *)
Theorem bootasm_enters (start g gd bootmain ret : Z) (m : smach) : has (x_cr0 m) CR0_PE = false →
  has (x_cr0 m) CR0_PG = false → boot_image (x_mem m) g gd → 4 ≤ start < 2 ^ 20 →
  ∃ m', srun ret (bootasm start gd bootmain) m = Some (Some bootmain, m') ∧ x_cr0 m' = Z.lor (x_cr0 m) CR0_PE ∧
    flat_mode m' ∧ x_regs m' ESP = start - 4 ∧ x_mem m' = store32 (x_mem m) (start - 4) ret ∧
    x_if m' = false ∧ kb_a20 (x_kbc m') = true.
Proof.
  intros He Hp Hb Hs. unfold bootasm. rewrite (srun_app ret [x_cli]). cbn [srun sstep]. set (m0 := xset_if false m).
  rewrite data_segments_run by done. cbn zeta. set (m1 := xset_seg SS _ _).
  destruct (seta20_run ret (protected gd ++ [x_movl start ESP; x_call bootmain]) m1) as (m2 & K & Ha & R2).
  rewrite R2. destruct K as [(C0 & _ & _ & _) (M2 & S2 & I2) _].
  destruct (protected_run ret [x_movl start ESP; x_call bootmain] m2 g gd) as (m3 & R3 & P3);
    [by rewrite C0|by rewrite C0|by rewrite S2|by rewrite M2|]. rewrite R3.
  destruct P3 as [(D0 & _ & _) (M3 & K3 & I3) _ Hcs Hds Hnull].
  assert (Hp3 : has (x_cr0 m3) CR0_PG = false) by (rewrite D0, has_lor, C0; change (x_cr0 m1) with (x_cr0 m); by rewrite Hp).
  eexists. split.
  - rewrite (srun_on ret _ _ m3 (xset_reg ESP start m3)) by done. cbn [srun sstep]. unfold do_call.
    change (x_regs (xset_reg ESP start m3) ESP) with start. change (x_segs (xset_reg ESP start m3) SS) with (x_segs m3 SS).
    rewrite (Hds SS) by (apply list_elem_of_In; cbn; tauto). cbn [sg_base]. rewrite Z.add_0_l, !u32_small by (rewrite ?u32_small; lia).
    rewrite (translate_low (xset_reg ESP start m3)) by (done || lia). reflexivity.
  - cbn. rewrite D0, M3, K3, I3, C0, M2, I2. by split_and!.
Qed.

(** ** entry.S *)

(** entrypgdir at the physical address [pd]. *)
Definition holds_dir (m : mem) (pd : Z) : Prop := ∀ i, 0 ≤ i < 1024 → load32 m (pd + 4 * i) = entrypgdir.[Z.to_nat i].

(** Paging as the two routines turn it on. *)
Record paging (m : smach) : Prop := Paging {
  pg_on : has (x_cr0 m) CR0_PG = true;
  pg_pse : has (x_cr4 m) CR4_PSE = true;
  pg_dir : holds_dir (x_mem m) (x_cr3 m);
  pg_gate : kb_a20 (x_kbc m) = true
}.

(** With it the first 4 megabytes are found where they are and at KERNBASE. *)
Lemma paging_translate m va : paging m → 0 ≤ va < 2 ^ 32 → translate m va =
  if va <? 2 ^ 22 then Some va
  else if (KERNBASE <=? va) && (va <? KERNBASE + 2 ^ 22) then Some (v2p va) else None.
Proof.
  intros [H1 H2 H3 H4] Hva. pose proof (entrypgdir_maps va Hva) as E. unfold big_walk in E. unfold translate, gate.
  rewrite H1, H2, H4, !H3 by apply PDX_range. rewrite andb_true_r. cbv zeta iota.
  destruct (has _ PTE_P && has _ PTE_PS), (va <? 2 ^ 22); try destruct ((KERNBASE <=? va) && _); congruence.
Qed.

(** Entry.S.  With entrypgdir in memory the kernel's first instructions jump to main with
    paging on, where the code that is running is still found at its low address and the
    kernel at the address it is linked at, with the write protection of pages on, and
    with the top of the boot stack. *)
Theorem entry_enters (pgdir stack main ret : Z) (m : smach) : kb_a20 (x_kbc m) = true →
  holds_dir (x_mem m) (v2p pgdir) →
  ∃ m', srun ret (entry pgdir stack main) m = Some (Some main, m') ∧ has (x_cr0 m') CR0_WP = true ∧
    x_regs m' ESP = u32 (stack + KSTACKSIZE) ∧ x_mem m' = x_mem m ∧ x_segs m' = x_segs m ∧
    ∀ va, 0 ≤ va < 2 ^ 32 → translate m' va =
      if va <? 2 ^ 22 then Some va
      else if (KERNBASE <=? va) && (va <? KERNBASE + 2 ^ 22) then Some (v2p va) else None.
Proof.
  intros Ha Hd. set (c4 := Z.lor (x_cr4 m) CR4_PSE). set (c0 := Z.lor (x_cr0 m) (Z.lor CR0_PG CR0_WP)).
  assert (R : ∃ m', srun ret (entry pgdir stack main) m = Some (Some main, m') ∧ x_cr0 m' = c0 ∧ x_cr3 m' = v2p pgdir ∧
    x_cr4 m' = c4 ∧ x_kbc m' = x_kbc m ∧ x_regs m' ESP = u32 (stack + KSTACKSIZE) ∧ x_mem m' = x_mem m ∧ x_segs m' = x_segs m).
  { eexists. split; [reflexivity|]. by split_and!. }
  destruct R as (m' & R & E0 & E3 & E4 & Ek & Es & Em & Eg). exists m'. split_and!; try done.
  - rewrite E0. unfold c0. rewrite !has_lor. by rewrite orb_true_r.
  - intros va Hva. apply paging_translate; [|done]. split; [rewrite E0|rewrite E4|by rewrite Em, E3|by rewrite Ek].
    + unfold c0. rewrite !has_lor. by rewrite orb_true_r.
    + unfold c4. rewrite has_lor. by rewrite orb_true_r.
Qed.

(** ** entryother.S *)

(** The three words startothers leaves below the code. *)
Record ap_words (m : mem) (start stack mpenter pd : Z) : Prop := ApWords {
  aw_pgdir : load32 m (start - 12) = pd;
  aw_entry : load32 m (start - 8) = mpenter;
  aw_stack : load32 m (start - 4) = stack;
  aw_low : 12 ≤ start < 2 ^ 16
}.

Lemma xload_flat r a m : sg_base (x_segs m r) = 0 → 0 ≤ a < 2 ^ 32 → xload r a m = load32 (x_mem m) <$> translate m a.
Proof. intros Hr Ha. unfold xload. by rewrite Hr, Z.add_0_l, u32_small. Qed.

(** The second half, in protected mode: paging, the stack, and the call. *)
Lemma ap_paging_run start stack mpenter pd ret m : has (x_cr0 m) CR0_PG = false → sg_base (x_segs m DS) = 0 →
  sg_base (x_segs m SS) = 0 → ap_words (x_mem m) start stack mpenter pd → holds_dir (x_mem m) pd →
  kb_a20 (x_kbc m) = true → KERNBASE + 4 ≤ stack ≤ KERNBASE + 2 ^ 22 →
  ∃ m', srun ret [x_get_cr4; x_orl CR4_PSE; x_set_cr4; x_movl_abs (start - 12) EAX; x_set_cr3;
      x_get_cr0; x_orl (Z.lor (Z.lor CR0_PE CR0_PG) CR0_WP); x_set_cr0; x_movl_abs (start - 4) ESP; x_call_abs (start - 8)] m =
    Some (Some mpenter, m') ∧ x_segs m' = x_segs m ∧ x_if m' = x_if m ∧ x_regs m' ESP = stack - 4 ∧
    x_mem m' = store32 (x_mem m) (v2p (stack - 4)) ret ∧ x_cr3 m' = pd ∧
    x_cr0 m' = Z.lor (x_cr0 m) (Z.lor (Z.lor CR0_PE CR0_PG) CR0_WP).
Proof.
  intros Hp HD HS [W1 W2 W3 W4] Hd Ha Hst. unfold KERNBASE in Hst.
  set (c4 := Z.lor (x_cr4 m) CR4_PSE). set (c0 := Z.lor (x_cr0 m) (Z.lor (Z.lor CR0_PE CR0_PG) CR0_WP)).
  set (m3 := xset_cr (x_cr0 m) (x_cr3 m) c4 (xset_reg EAX c4 (xset_reg EAX (x_cr4 m) m))).
  rewrite (srun_on ret _ _ m (xset_reg EAX (x_cr4 m) m)), (srun_on ret _ _ _ (xset_reg EAX c4 (xset_reg EAX (x_cr4 m) m))),
    (srun_on ret _ _ _ m3) by done.
  rewrite (srun_on ret _ _ m3 (xset_reg EAX pd m3)).
  2: { cbn [sstep]. rewrite xload_flat by (done || lia). rewrite translate_low by (done || lia). cbn [fmap option_fmap option_map].
       by rewrite <- W1. }
  set (m5 := xset_cr (x_cr0 m) pd c4 (xset_reg EAX pd m3)). rewrite (srun_on ret _ _ _ m5) by done.
  set (m8 := xset_cr c0 pd c4 (xset_reg EAX c0 (xset_reg EAX (x_cr0 m) m5))).
  rewrite (srun_on ret _ _ m5 (xset_reg EAX (x_cr0 m) m5)), (srun_on ret _ _ _ (xset_reg EAX c0 (xset_reg EAX (x_cr0 m) m5))),
    (srun_on ret _ _ _ m8) by done.
  assert (Hpg : paging m8).
  { split; [unfold m8, c0|unfold m8, c4|exact Hd|exact Ha]; cbn [x_cr0 x_cr4 xset_cr]; rewrite !has_lor, !orb_true_r; done. }
  assert (Hlow : ∀ a, 0 ≤ a < 2 ^ 16 → translate m8 a = Some a).
  { intros a Hlt. rewrite (paging_translate m8 a Hpg) by lia. by destruct (Z.ltb_spec a (2 ^ 22)); [|lia]. }
  set (m9 := xset_reg ESP stack m8). rewrite (srun_on ret _ _ m8 m9).
  2: { cbn [sstep]. rewrite xload_flat by (done || lia). rewrite Hlow by lia. cbn [fmap option_fmap option_map]. unfold m9.
       by rewrite <- W3. }
  cbn [srun sstep]. rewrite xload_flat by (done || lia). change (translate m9 (start - 8)) with (translate m8 (start - 8)).
  rewrite Hlow by lia. cbn [fmap option_fmap option_map mbind option_bind]. change (x_mem m9) with (x_mem m). rewrite W2.
  unfold do_call. change (x_regs m9 ESP) with stack. change (x_segs m9 SS) with (x_segs m SS).
  rewrite HS, Z.add_0_l, !u32_small by (rewrite ?u32_small; lia).
  change (translate m9 (stack - 4)) with (translate m8 (stack - 4)). rewrite (paging_translate m8 (stack - 4) Hpg) by lia.
  destruct (Z.ltb_spec (stack - 4) (2 ^ 22)); [lia|]. destruct (Z.leb_spec KERNBASE (stack - 4)); [|unfold KERNBASE in *; lia].
  destruct (Z.ltb_spec (stack - 4) (KERNBASE + 2 ^ 22)); [|unfold KERNBASE in *; lia]. cbn [andb fmap option_fmap option_map].
  eexists. split; [reflexivity|]. by split_and!.
Qed.

(** Entryother.S.  A processor started in real mode at an address below which it finds a
    stack in the kernel's first 4 megabytes, the address of mpenter and that of
    entrypgdir, calls mpenter on that stack in protected mode with flat segments and
    paging on, the return address pushed at the place the page table gives. *)
Theorem entryother_enters (start g gd stack mpenter pd ret : Z) (m : smach) : has (x_cr0 m) CR0_PE = false →
  has (x_cr0 m) CR0_PG = false → boot_image (x_mem m) g gd → ap_words (x_mem m) start stack mpenter pd →
  holds_dir (x_mem m) pd → kb_a20 (x_kbc m) = true → KERNBASE + 4 ≤ stack ≤ KERNBASE + 2 ^ 22 →
  ∃ m', srun ret (entryother start gd) m = Some (Some mpenter, m') ∧ flat_mode m' ∧ x_if m' = false ∧
    x_regs m' ESP = stack - 4 ∧ x_mem m' = store32 (x_mem m) (v2p (stack - 4)) ret ∧ x_cr3 m' = pd ∧
    has (x_cr0 m') CR0_PE = true ∧ has (x_cr0 m') CR0_PG = true ∧ has (x_cr0 m') CR0_WP = true.
Proof.
  intros He Hp Hb Hw Hd Ha Hst. unfold entryother. rewrite (srun_app ret [x_cli]). cbn [srun sstep].
  set (m0 := xset_if false m). rewrite data_segments_run by done. cbn zeta. set (m1 := xset_seg SS _ _).
  match goal with |- context [protected gd ++ ?c] => destruct (protected_run ret c m1 g gd He Hp eq_refl Hb) as (m2 & R & P) end.
  rewrite R. clear R. destruct P as [(C0 & C3 & C4) (M2 & K2 & I2) _ Hcs Hds Hnull].
  assert (Hp2 : has (x_cr0 m2) CR0_PG = false) by (rewrite C0, has_lor; change (x_cr0 m1) with (x_cr0 m); by rewrite Hp).
  destruct (ap_paging_run start stack mpenter pd ret m2 Hp2) as (m' & R & Es & Ei & Er & Em & E3 & E0); [..|by rewrite M2|by rewrite M2|by rewrite K2|done|].
  1, 2: rewrite Hds by (apply list_elem_of_In; cbn; tauto); done.
  exists m'. split; [exact R|]. split; [by unfold flat_mode; rewrite Es|]. split; [by rewrite Ei, I2|].
  split; [done|]. split; [by rewrite Em, M2|]. split; [done|]. rewrite E0, !has_lor, !orb_true_r. done.
Qed.

(** ** Memories in which the three can start *)

Definition stores (l : list (Z * Z)) : mem := foldl (λ m av, store32 m (fst av) (snd av)) ∅ l.

Lemma stores_out l a : Forall (λ av, ¬ (fst av ≤ a < fst av + 4)) l → rd (stores l) a = 0.
Proof.
  unfold stores. induction l as [|av l IH] using rev_ind; intros H; [done|].
  apply Forall_app in H as [H1 H2]. apply Forall_cons in H2 as [H2 _]. by rewrite foldl_snoc, rd_store32_out, IH.
Qed.

(** The table at [g] and its descriptor behind it. *)
Definition demo_gdt (g : Z) : list (Z * Z) :=
  [(g, 0); (g + 4, 0); (g + 8, 0xffff); (g + 12, 0xcf9a00); (g + 16, 0xffff); (g + 20, 0xcf9200);
   (g + 24, 23 + 2 ^ 16 * g); (g + 28, 0)].
Definition demo_pd : Z := 0x109000.
Definition demo_mem (l : list (Z * Z)) : mem := store32 (store32 (stores l) demo_pd 0x83) (demo_pd + 2048) 0x83.

Lemma demo_pd_ok l : Forall (λ av, fst av + 4 ≤ demo_pd) l → holds_dir (demo_mem l) demo_pd.
Proof.
  intros Hl i Hi. rewrite entrypgdir_lookup by done. unfold demo_mem.
  destruct (Z.eqb_spec i 512) as [->|H1]; [rewrite orb_true_r; by apply load32_store32_eq|].
  rewrite orb_false_r, load32_store32_ne by lia. destruct (Z.eqb_spec i 0) as [->|H0]; [by apply load32_store32_eq|].
  rewrite load32_store32_ne by lia. unfold load32. rewrite !stores_out; [done|..];
    (eapply Forall_impl; [exact Hl|]; intros [a v]; cbn; lia).
Qed.

Lemma demo_boot_image g l : g = 0x7c60 ∨ g = 0x7060 → l = [] ∨ l = [(0x6ff4, demo_pd); (0x6ff8, 0x80103000); (0x6ffc, 0x80200000)] →
  boot_image (demo_mem (demo_gdt g ++ l)) g (g + 24).
Proof.
  intros Hg Hl. split; [| | |destruct Hg as [-> | ->]; lia].
  - intros i b E. do 24 (destruct i as [|i]; [destruct Hg as [-> | ->], Hl as [-> | ->]; revert E; vm_compute; congruence|]). done.
  - destruct Hg as [-> | ->], Hl as [-> | ->]; by vm_compute.
  - destruct Hg as [-> | ->], Hl as [-> | ->]; by vm_compute.
Qed.

Definition demo_real (busy : nat) (a20 : bool) (m : mem) : smach :=
  Smach (λ _, 0) (λ _, Segreg 0 0 0xffff) 0x10 0 0 (0, 0) true (Kbc busy 7 0 a20) m.

Lemma bootasm_enters_witness : ∃ m', srun 0x7c50 (bootasm 0x7c00 (0x7c60 + 24) 0x7d00) (demo_real 3 false (demo_mem (demo_gdt 0x7c60 ++ []))) =
    Some (Some 0x7d00, m') ∧ x_regs m' ESP = 0x7bfc ∧ kb_a20 (x_kbc m') = true.
Proof.
  destruct (bootasm_enters 0x7c00 0x7c60 (0x7c60 + 24) 0x7d00 0x7c50 (demo_real 3 false (demo_mem (demo_gdt 0x7c60 ++ [])))
    eq_refl eq_refl (demo_boot_image 0x7c60 [] (or_introl eq_refl) (or_introl eq_refl)) ltac:(lia))
    as (m' & R & _ & _ & E & _ & _ & A). exact (ex_intro _ m' (conj R (conj E A))).
Defined.

Lemma entry_enters_witness : ∃ m', srun 0 (entry 0x80109000 0x8010a000 0x80103100) (demo_real 0 true (demo_mem [])) =
    Some (Some 0x80103100, m') ∧ translate m' 0x80103100 = Some 0x103100.
Proof.
  destruct (entry_enters 0x80109000 0x8010a000 0x80103100 0 (demo_real 0 true (demo_mem [])) eq_refl
    (demo_pd_ok [] (Forall_nil_2 _))) as (m' & R & _ & _ & _ & _ & T).
  exact (ex_intro _ m' (conj R (T 0x80103100 ltac:(lia)))).
Defined.

Lemma demo_words_ok : ap_words (demo_mem (demo_gdt 0x7060 ++ [(0x6ff4, demo_pd); (0x6ff8, 0x80103000); (0x6ffc, 0x80200000)]))
  0x7000 0x80200000 0x80103000 demo_pd.
Proof. split; [by vm_compute..|lia]. Qed.

Lemma entryother_enters_witness : ∃ m',
  srun 0x7050 (entryother 0x7000 (0x7060 + 24))
    (demo_real 0 true (demo_mem (demo_gdt 0x7060 ++ [(0x6ff4, demo_pd); (0x6ff8, 0x80103000); (0x6ffc, 0x80200000)]))) =
    Some (Some 0x80103000, m') ∧ x_regs m' ESP = 0x801ffffc.
Proof.
  destruct (entryother_enters 0x7000 0x7060 (0x7060 + 24) 0x80200000 0x80103000 demo_pd 0x7050
    (demo_real 0 true (demo_mem (demo_gdt 0x7060 ++ [(0x6ff4, demo_pd); (0x6ff8, 0x80103000); (0x6ffc, 0x80200000)])))
    eq_refl eq_refl (demo_boot_image 0x7060 _ (or_intror eq_refl) (or_intror eq_refl)) demo_words_ok) as (m' & R & _ & _ & E & _).
  - apply demo_pd_ok. repeat (apply Forall_cons_2; [by vm_compute|]). apply Forall_nil_2.
  - done.
  - unfold KERNBASE. lia.
  - exact (ex_intro _ m' (conj R E)).
Defined.
