(* ===== verification/Kmain.v ===== *)
(** * main.c: the start of the kernel

    userinit(), which makes the first process, and main(), which calls the initialisation
    of every part in its order, on a machine that is the kernel's state together with the
    devices.  There is one memory: the tables of seginit and tvinit, the tables of the
    BIOS and the pages of the allocator are all in it.  Only the reset vector that
    lapicstartap writes for the BIOS is kept with the interrupt controller.  The addresses
    the linker gives and what the hardware answers are arguments. *)

From stdpp Require Import base gmap list strings.
From Stdlib Require Import ZArith Lia.
From S2P Require Import Prelude Params Kmonad Cstring Kalloc Console Vm VmSpec VmUser VmKern Bio BioSpec BioInit Ide Log Fs FsInode.
From S2P Require Import Segments Mp Devices Uart Main ConsoleDev ConsoleSpec Pipe Kstate File Proc ProcSpec ProcTable Trap.

(** ** The machine *)

Section machine.
Context {disk : Type} `{!IdeDevice disk}.

Record machine : Type := Machine {
  mc_k : kst;                                  (** the kernel, with the memory *)
  mc_mp : mpst; mc_lapic : Lapic.lapic; mc_log : list started;
  mc_gdtr : Z * Z; mc_idtr : Z * Z; mc_gs : Z; mc_gsbase : Z;
  mc_chip : Uart.chip; mc_pic : Pic.pic; mc_io : Ioapic.ioapic; mc_uart : bool;
  mc_ide : ist (disk := disk);
  mc_started : Z                               (** cpu->started of this processor *)
}.

(** The parts the routines work on. *)
Definition set_k (k : kst) (s : machine) : machine :=
  Machine k (mc_mp s) (mc_lapic s) (mc_log s) (mc_gdtr s) (mc_idtr s) (mc_gs s) (mc_gsbase s) (mc_chip s) (mc_pic s)
    (mc_io s) (mc_uart s) (mc_ide s) (mc_started s).
Definition set_mp (mp : mpst) (d : Lapic.lapic) (s : machine) : machine :=
  Machine (mc_k s) mp d (mc_log s) (mc_gdtr s) (mc_idtr s) (mc_gs s) (mc_gsbase s) (mc_chip s) (mc_pic s)
    (mc_io s) (mc_uart s) (mc_ide s) (mc_started s).
Definition set_ide (i : ist (disk := disk)) (s : machine) : machine :=
  Machine (mc_k s) (mc_mp s) (mc_lapic s) (mc_log s) (mc_gdtr s) (mc_idtr s) (mc_gs s) (mc_gsbase s) (mc_chip s) (mc_pic s)
    (mc_io s) (mc_uart s) i (mc_started s).
Definition set_kmem (m : mem) (s : kst) : kst :=
  let v := k_vm s in
  Kst (k_fs s) (set_km (set_mem m (km v)) v) (k_pipes s) (k_files s) (k_procs s) (k_cur s) (k_nextpid s) (k_initproc s)
    (k_ticks s).
Definition get_seg (s : machine) : seghw := Seghw (vmem (k_vm (mc_k s))) (mc_gdtr s) (mc_idtr s) (mc_gs s) (mc_gsbase s).
Definition put_seg (h : seghw) (s : machine) : machine :=
  Machine (set_kmem (sh_mem h) (mc_k s)) (mc_mp s) (mc_lapic s) (mc_log s) (sh_gdtr h) (sh_idtr h) (sh_gs h) (sh_gsbase h)
    (mc_chip s) (mc_pic s) (mc_io s) (mc_uart s) (mc_ide s) (mc_started s).
Definition get_uart (s : machine) : Uart.ust := Uart.Ust (mc_chip s) (mc_pic s) (mc_io s) (mc_uart s).
Definition put_uart (u : Uart.ust) (s : machine) : machine :=
  Machine (mc_k s) (mc_mp s) (mc_lapic s) (mc_log s) (mc_gdtr s) (mc_idtr s) (mc_gs s) (mc_gsbase s) (Uart.u_chip u)
    (Uart.u_pic u) (Uart.u_io u) (Uart.uart u) (mc_ide s) (mc_started s).
Definition get_main (s : machine) : mainst := Mainst (get_vm (mc_k s)) (mc_lapic s) (mc_log s).
Definition put_main (t : mainst) (s : machine) : machine :=
  Machine (put_vm (m_vm t) (mc_k s)) (mc_mp s) (m_lapic t) (m_log t) (mc_gdtr s) (mc_idtr s) (mc_gs s) (mc_gsbase s)
    (mc_chip s) (mc_pic s) (mc_io s) (mc_uart s) (mc_ide s) (mc_started s).

Definition ink {A} (m : M kst A) : M machine A := zoom mc_k set_k m.
Definition onlapic (f : Lapic.lapic → Lapic.lapic) : M machine unit := modify (λ s, set_mp (mc_mp s) (f (mc_lapic s)) s).
Definition onseg (f : seghw → seghw) : M machine unit := modify (λ s, put_seg (f (get_seg s)) s).
Definition onuart (f : Uart.ust → Uart.ust) : M machine unit := modify (λ s, put_uart (f (get_uart s)) s).
Definition onpic (f : Pic.pic → Pic.pic) : M machine unit :=
  onuart (λ u, Uart.Ust (Uart.u_chip u) (f (Uart.u_pic u)) (Uart.u_io u) (Uart.uart u)).
Definition onio (f : Ioapic.ioapic → Ioapic.ioapic) : M machine unit :=
  onuart (λ u, Uart.Ust (Uart.u_chip u) (Uart.u_pic u) (f (Uart.u_io u)) (Uart.uart u)).

Definition cpunum (s : machine) : Z := Lapic.cpunum (mc_lapic s).
(** cpu->id *)
Definition cpu_id (s : machine) : Z := nthz 0 (cpu_ids (mc_mp s)) (Z.to_nat (cpunum s)).
Definition is_mp (s : machine) : bool := ismp (mc_mp s).

(** picenable(irq); ioapicenable(irq, cpu); *)
Definition enable (irq cpu : Z) : M machine unit :=
  onpic (Pic.picenable irq);;
  b ← gets is_mp;
  onio (Ioapic.ioapicenable b irq cpu).

(** ** main() *)

Section main.
Context (kend kdata cpus idt : Z) (vectors : Z → Z).                  (** end, data, cpus, idt, vectors *)
Context (comes_up : Z → bool) (code0 codesz mpenter_addr entrypgdir_addr : Z).
Context (forkret_addr trapret_addr init initsz : Z).
Context (imcr : Z) (statuses : list Z).               (** inb(0x23), and inb(0x1f7) in ideinit *)

(** A table of 65535 bytes has fewer entries than this. *)
Definition mp_fuel : nat := Z.to_nat 0x10000.
(** lapic is null where there is no table. *)
Definition mpinit : M machine unit :=
  s ← gets (λ s, s);
  match Mp.mpinit mp_fuel (vmem (k_vm (mc_k s))) imcr (mc_mp s) with
  | Mdone mp =>
    let d := mc_lapic s in
    modify (set_mp mp (Lapic.Lapic (negb (lapic mp =? 0)) (Lapic.lregs d) (Lapic.writes d) (Lapic.louts d) (Lapic.lmem d)))
  | Mundef => undefined
  | Mloops => diverge
  end.

Definition seginit : M machine unit :=
  c ← gets cpunum;
  onseg (Segments.seginit cpus c).

Definition consoleinit : M machine unit :=
  ink (infs ConsoleDev.consoleinit);;
  enable IRQ_KBD 0.

Definition uartinit : M machine unit :=
  b ← gets is_mp;
  onuart (Uart.uartinit b).

Definition ideinit : M machine unit :=
  n ← gets (λ s, ncpu (mc_mp s));
  enable IRQ_IDE (Z.of_nat n - 1);;
  zoom mc_ide set_ide (Ide.ideinit statuses).

Definition startothers : M machine unit :=
  boot ← gets cpunum;
  ids ← gets (λ s, take (ncpu (mc_mp s)) (cpu_ids (mc_mp s)));
  zoom get_main put_main (Main.startothers comes_up code0 codesz mpenter_addr entrypgdir_addr boot ids).

(** Up to the call of scheduler(). *)
Definition mpmain : M machine unit :=
  id ← gets cpu_id;
  ink (incst (cprintf (λ _, []) (Some (line "cpu%d: starting")) [id]));;
  onseg (idtinit idt);;
  modify (λ s, Machine (mc_k s) (mc_mp s) (mc_lapic s) (mc_log s) (mc_gdtr s) (mc_idtr s) (mc_gs s) (mc_gsbase s) (mc_chip s)
    (mc_pic s) (mc_io s) (mc_uart s) (mc_ide s) 1).

Definition main : M machine unit :=
  ink (invm (inkm (kinit1 kend kend EARLY)));;
  ink (invm (kvmalloc kdata));;
  mpinit;;
  onlapic Lapic.lapicinit;;
  seginit;;
  id ← gets cpu_id;
  ink (incst (cprintf (λ _, []) (Some ([NL] ++ line "cpu%d: starting xv6" ++ [NL])) [id]));;
  onpic Pic.picinit;;
  b ← gets is_mp;
  onio (Ioapic.ioapicinit b);;
  consoleinit;;
  uartinit;;
  ink pinit;;
  onseg (tvinit idt vectors);;
  ink (infs (inbf binit));;
  ink fileinit;;
  ink (infs iinit);;
  ideinit;;
  b ← gets is_mp;
  (if negb (b : bool) then onpic Timer.timerinit else mret tt);;
  startothers;;
  ink (invm (inkm (kinit2 kend EARLY (p2v PHYSTOP))));;
  ink (userinit kdata forkret_addr trapret_addr init initsz);;
  mpmain.
End main.
End machine.

(** ** Memory routines in the kernel's state *)

(** The state with another memory. *)
Definition set_kvm (v : vst) (s : kst) : kst :=
  Kst (k_fs s) v (k_pipes s) (k_files s) (k_procs s) (k_cur s) (k_nextpid s) (k_initproc s) (k_ticks s).
(** The memory routines work on a copy of the console. *)
Lemma get_vm_kvm v s : con v = console (k_fs s) → get_vm (set_kvm v s) = v.
Proof. intros H. unfold get_vm. cbn. rewrite <- H. by destruct v. Qed.
Lemma invm_run {A} (m : M vst A) k s a k' v : m k (get_vm s) = Done a k' v → con v = console (k_fs s) →
  invm m k s = Done a k' (set_kvm v s).
Proof.
  intros Hm Hc. unfold invm. rewrite (zoom_Done get_vm put_vm m k s a k' v Hm). f_equal.
  unfold put_vm, set_kvm. f_equal. rewrite Hc. by destruct (k_fs s).
Qed.
Lemma invm_vupd f k s :
  invm (vupd f) k s = Done tt k (set_kvm (set_km (set_mem (f (vmem (get_vm s))) (km (get_vm s))) (get_vm s)) s).
Proof. by apply invm_run. Qed.
Lemma updp_kvm j f v s : updp j f (set_kvm v s) = set_kvm v (updp j f s).
Proof. done. Qed.
Lemma updp_nextpid j f n s : updp j f (set_nextpid n s) = set_nextpid n (updp j f s).
Proof. done. Qed.
Lemma updp_kfs j f v s : updp j f (set_kfs v s) = set_kfs v (updp j f s).
Proof. done. Qed.
Lemma updp_initproc j f v s : updp j f (set_initproc v s) = set_initproc v (updp j f s).
Proof. done. Qed.
Lemma kvm_kvm v v' s : set_kvm v (set_kvm v' s) = set_kvm v s.
Proof. done. Qed.
(** A step of a sequence that modifies the state. *)
Ltac mmod := rewrite (bind_Done _ _ _ _ _ _ _ (modify_eq _ _ _)); cbv beta.
Ltac mvupd :=
  match goal with |- context [(invm (vupd ?f) ≫= _) ?k ?s] => mb (invm_vupd f k s) end.

(** ** The pages of the kernel *)

(** An address below [kend] is in no page of the free list. *)
Lemma below_kend kend a p : page_ok kend p → a < kend → ¬ (p ≤ a < p + PGSIZE).
Proof. intros (_ & ? & _) ?. lia. Qed.

Section userinit.
Context (kend kdata : Z).

(** A byte of the kernel image is in a page that is neither free nor part of the directory. *)
Definition image_apart (m : mem) (pgdir : Z) : Prop := ∀ q, kpage q → q < kend → outside m pgdir q.

Lemma page_of a : KERNBASE ≤ a < 2 ^ 32 → kpage (PGROUNDDOWN a) ∧ PGROUNDDOWN a ≤ a < PGROUNDDOWN a + PGSIZE.
Proof.
  unfold KERNBASE. intros Ha. rewrite PGROUNDDOWN_eq by lia. pose proof (Z.div_mod a PGSIZE ltac:(done)) as E.
  pose proof (Z.mod_pos_bound a PGSIZE ltac:(done)) as Hm. unfold kpage, KERNBASE, PGSIZE in *. split; [|lia].
  split; [|lia]. replace (a - a mod 4096) with (a / 4096 * 4096) by lia. apply Z.mod_mul. lia.
Qed.

(** inituvm(): page 0 is a new page with the code and zeros behind it. *)
Lemma inituvm_run pgdir init sz k s p l :
  vm_ok kend s pgdir (p :: l) → l ≠ [] → LKmem ∉ held k → 0 ≤ sz < PGSIZE → has (pte (vmem s) pgdir 0) PTE_P = false →
  KERNLINK ≤ init → init + sz ≤ kend → kend ≤ 2 ^ 32 → image_apart (vmem s) pgdir →
  ∃ s' used l', inituvm pgdir init sz k s = Done tt k s' ∧ l = used ++ l' ∧ vm_ok kend s' pgdir l' ∧ s' = set_km (km s') s ∧
    (∀ va, 0 ≤ va < 2 ^ 32 → pte (vmem s') pgdir va = if va <? PGSIZE then entry (v2p p) USER else pte (vmem s) pgdir va) ∧
    (∀ i, 0 ≤ i < PGSIZE → rd (vmem s') (p + i) = if i <? sz then rd (vmem s) (init + i) else 0) ∧
    (∀ q, kpage q → outside (vmem s) pgdir q → q ∉ p :: used → same_page (vmem s) (vmem s') q).
Proof.
  intros Hok Hl Hk Hsz Hnp Hi1 Hi2 Hke Hap.
  assert (Hpg : page_ok kend p) by (destruct Hok as [_ (_ & _ & Hall) _]; by apply Forall_cons in Hall as [Hall _]).
  pose proof (page_ok_kpage kend p Hpg) as Hp. destruct (v2p_page p Hp) as [Hvr Hvm].
  destruct (fresh_page kend pgdir p l k s (λ m, KString.memset m p 0 PGSIZE) Hok Hk)
    as (s1 & s2 & R1 & R2 & Hp0 & _ & Hm2 & Hok2 & _ & Hpl & Ho2 & Hf2 & Hg2 & _ & Hpt2).
  { intros x Hx. rewrite memset_page by done. destruct (Z.leb_spec p x), (Z.ltb_spec x (p + PGSIZE)); cbn [andb]; (done || lia). }
  destruct (mappages_one kend pgdir 0 (v2p p) USER k s2 l Hok2 Hl Hk) as
    (s3 & used & l' & Hmap & -> & Hul & Hok3 & Hf3 & Hg3 & Hmp); [done|lia|lia|done|done|by rewrite Hpt2|].
  assert (Ho3 : outside (vmem s3) pgdir p) by (apply Hg3; [done|set_solver]).
  assert (Hpages : ∀ q, q ∈ p :: used → kend ≤ q).
  { intros q Hq. destruct Hok as [_ (_ & _ & Hall) _]. rewrite Forall_forall in Hall. apply (Hall q). set_solver. }
  destruct (vframe_trans pgdir [p] used s s2 s3 Hf2 Hg2 Hf3) as [_ Hsame].
  assert (Him : ∀ a, init ≤ a < init + sz → rd (vmem s3) a = rd (vmem s) a).
  { intros a Ha. destruct (page_of a ltac:(unfold KERNLINK, EXTMEM in *; lia)) as [Hq1 Hq2].
    apply (Hsame (PGROUNDDOWN a)); [done|apply Hap; [done|lia]| |done]. intros Hin%Hpages. lia. }
  assert (Hz : ∀ x, p ≤ x < p + PGSIZE → rd (vmem s3) x = 0).
  { intros x Hx. destruct Hf3 as [_ Hf3]. rewrite (Hf3 p Hp Ho2 ltac:(set_solver)) by done. rewrite Hm2, memset_page by done.
    destruct (Z.leb_spec p x), (Z.ltb_spec x (p + PGSIZE)); cbn [andb]; (done || lia). }
  destruct (write_outside kend s3 pgdir l' (KString.memmove (vmem s3) p init sz) p Hok3 Hp Ho3 ltac:(set_solver)) as (Hok4 & _ & _ & _ & Hpt4).
  { intros x Hx. rewrite memmove_rd by lia. destruct (Z.leb_spec p x), (Z.ltb_spec x (p + sz)); cbn [andb]; (done || lia). }
  eexists _, used, l'. split_and!; [|done|exact Hok4| | | |].
  - unfold inituvm. destruct (Z.geb_spec sz PGSIZE); [lia|]. mb R1. destruct (Z.eqb_spec p 0); [done|]. mb R2. mb Hmap. reflexivity.
  - destruct Hf3 as [E3 _], Hf2 as [E2 _]. rewrite E3, E2. done.
  - intros va Hva. change (pte (KString.memmove (vmem s3) p init sz) pgdir va = if va <? PGSIZE then entry (v2p p) USER else pte (vmem s) pgdir va).
    rewrite Hpt4, Hmp, Hpt2 by done. destruct (Z.leb_spec 0 va); [|lia]. cbn [andb]. rewrite Z.add_0_l.
    destruct (Z.ltb_spec va PGSIZE) as [Hlt|]; [|done]. rewrite Z.mod_small by lia. do 2 f_equal. lia.
  - intros i Hi. change (rd (KString.memmove (vmem s3) p init sz) (p + i) = if i <? sz then rd (vmem s) (init + i) else 0).
    rewrite memmove_rd by lia. destruct (Z.leb_spec p (p + i)); [|lia]. cbn [andb].
    destruct (Z.ltb_spec (p + i) (p + sz)), (Z.ltb_spec i sz); try lia; [|by apply Hz; lia].
    replace (init + (p + i - p)) with (init + i) by lia. apply Him. lia.
  - intros q Hq Hqo Hqu x Hx. change (rd (KString.memmove (vmem s3) p init sz) x = rd (vmem s) x).
    pose proof (kpage_far q p Hq Hp ltac:(set_solver)). rewrite memmove_rd by lia.
    destruct (Z.leb_spec p x), (Z.ltb_spec x (p + sz)); cbn [andb]; try lia; by apply (Hsame q).
Qed.

(** allocproc(): the first free slot gets a number and a kernel stack. *)
Definition new_proc (stack pid : Z) (p : proc) : proc :=
  set_context (stack + KSTACKSIZE - sizeof_trapframe - 4 - sizeof_context) (set_kstack stack (set_pid pid (set_pstate EMBRYO p))).
Lemma allocproc_run fr tr k s j stack l : held k = [] → unused_proc (k_procs s) 0 = Some j →
  free_pages kend (km (k_vm s)) (stack :: l) →
  ∃ v, let s' := set_kvm v (set_nextpid (i32 (k_nextpid s + 1)) (updp j (new_proc stack (k_nextpid s)) s)) in
    allocproc fr tr k s = Done (Some j) k s' ∧ v = set_km (km v) (get_vm s) ∧ free_pages kend (km v) l ∧
    (∀ a, ¬ (stack ≤ a < stack + PGSIZE) → rd (vmem v) a = rd (vmem (k_vm s)) a).
Proof.
  intros Hk Hj Hf. destruct k as [h w]. cbn [held] in Hk. subst h.
  pose proof (proj2 (unused_proc_lt _ _ _ Hj)) as Hlt. rewrite Nat.add_0_l in Hlt.
  set (s1 := set_nextpid (i32 (k_nextpid s + 1)) (updp j (set_pid (k_nextpid s)) (updp j (set_pstate EMBRYO) s))).
  destruct (vkalloc_run kend (Kctx [] w) (get_vm s) (stack :: l) Hf ltac:(apply not_elem_of_nil)) as (m1 & R1 & Hm1 & Hf1 & Hpok & Hpl).
  set (v2 := set_km m1 (get_vm s)) in *.
  pose proof (invm_run (inkm kalloc) (Kctx [] w) s1 stack (Kctx [] w) v2 R1 eq_refl) as E1.
  set (s2 := set_kvm v2 s1) in *.
  set (sp := stack + KSTACKSIZE - sizeof_trapframe - 4).
  set (f := λ m, store32 (KString.memset (store32 m sp tr) (sp - sizeof_context) 0 sizeof_context) (sp - sizeof_context + 16) fr).
  set (v5 := set_km (set_mem (f (vmem v2)) (km v2)) v2).
  assert (Hout : ∀ a, ¬ (stack ≤ a < stack + PGSIZE) → rd (f (vmem v2)) a = rd (vmem (k_vm s)) a).
  { intros a Ha. pose proof (page_ok_kpage kend stack Hpok) as Hkp. pose proof (kpage_end stack Hkp). destruct Hkp as [_ Hkp].
    unfold f, sp, KERNBASE, KSTACKSIZE, sizeof_trapframe, sizeof_context, PGSIZE in *. rewrite rd_store32_out by lia.
    rewrite memset_rd by lia. destruct (Z.leb_spec (stack + 4096 - 76 - 4 - 20) a), (Z.ltb_spec a (stack + 4096 - 76 - 4 - 20 + 20)); cbn [andb]; try lia.
    all: rewrite rd_store32_out by lia; change (rd (kmem_mem m1) a = rd (vmem (k_vm s)) a); by rewrite Hm1. }
  exists v5. cbn zeta. split_and!; [|done| |exact Hout].
  2: { apply (free_pages_same kend m1 (f (vmem v2)) l Hf1). intros p Hp a Ha. rewrite Hout.
    - change (rd (vmem (k_vm s)) a = rd (kmem_mem m1) a). by rewrite Hm1.
    - destruct Hf1 as (_ & _ & Hall). rewrite Forall_forall in Hall. pose proof (page_ok_far kend p stack (Hall p Hp) Hpok ltac:(set_solver)). lia. }
  unfold allocproc. mb (acquire_eq LPtable (Kctx [] w) s ltac:(apply not_elem_of_nil)). mb (gets_eq k_procs (Kctx [LPtable] w) s).
  rewrite Hj. do 3 mmod. mb (release_top LPtable [] w s1). mb E1. mmod. destruct (Z.eqb_spec stack 0) as [->|_].
  { destruct Hpok as (_ & _ & _ & ?). unfold KERNBASE in *. lia. }
  fold sp. unfold vstore. mvupd. mmod. do 2 mvupd.
  unfold mret, M_ret. f_equal. rewrite !updp_kvm, !kvm_kvm. unfold s2, s1. rewrite !updp_kvm, !updp_nextpid, !kvm_kvm.
  rewrite !updp_updp by (rewrite ?length_updp; done). done.
Qed.

(** namei("/") is the root directory's entry of the inode cache. *)
Lemma namei_root d cwd k s : icache_ok s → LIcache ∉ held k → (∃ i, (i < NINODE)%nat ∧ i_ref (thei i s) = 0) →
  ∃ ip s', namei d cwd [SLASH] k s = Done (Some ip) k s' ∧ (ip < NINODE)%nat ∧ got ROOTDEV ROOTINO ip s s'.
Proof.
  intros Hok Hk (i & Hi & Hz). destruct (iget_spec ROOTDEV ROOTINO k s Hok Hk) as [(ip & s' & R & Hip & Hg)|[_ Hall]].
  - exists ip, s'. split_and!; [|done..]. unfold namei, namex. change ([SLASH].[0%nat] =? SLASH) with true. cbv iota.
    unfold mbind at 1, M_bind. mb R. done.
  - pose proof (proj1 (Hall i Hi)). lia.
Qed.

(** The process userinit() makes. *)
Definition first_proc (stack pid d : Z) (cwd : nat) (p : proc) : proc :=
  set_pstate RUNNABLE (set_cwd (Some cwd) (set_name (name_of initcode_name) (set_tf user_tf (set_psz PGSIZE
    (set_ppgdir d (new_proc stack pid p)))))).

Hypothesis Hdata : kdata mod PGSIZE = 0 ∧ KERNLINK < kdata < KERNBASE + PHYSTOP.

(** The address space of the first process: the stack's page is already taken. *)
Lemma first_space init sz k s d l : free_pages kend (km s) (d :: l) → (66 ≤ length l)%nat → LKmem ∉ held k →
  0 ≤ sz < PGSIZE → KERNLINK ≤ init → init + sz ≤ kend → kend ≤ 2 ^ 32 →
  ∃ s1 s2 p l', setupkvm kdata k s = Done d k s1 ∧ inituvm d init sz k s1 = Done tt k s2 ∧ d ≠ 0 ∧
    s1 = set_km (km s1) s ∧ s2 = set_km (km s2) s ∧ vm_ok kend s2 d l' ∧ (∀ q, q ∈ l' → q ∈ l) ∧
    (∀ va, 0 ≤ va < 2 ^ 32 → pte (vmem s2) d va = if va <? PGSIZE then entry (v2p p) USER else kernel_pte kdata va) ∧
    (∀ i, 0 ≤ i < PGSIZE → rd (vmem s2) (p + i) = if i <? sz then rd (vmem s) (init + i) else 0) ∧
    (∀ q, kpage q → q ∉ d :: l → same_page (vmem s) (vmem s2) q).
Proof.
  intros Hf Hl Hk Hsz Hi1 Hi2 Hke.
  assert (Hge : ∀ q, q ∈ d :: l → page_ok kend q) by (destruct Hf as (_ & _ & Hall); by apply Forall_forall).
  destruct (setupkvm_run kend kdata Hdata k s d l Hf Hk ltac:(lia)) as (s1 & l1 & R1 & [B1 _ (u & -> & Hu) B4 B5 B6 B7]).
  rewrite length_app in Hl. destruct l1 as [|p l1]; [cbn in Hl; lia|]. cbn [length] in Hl.
  assert (Hlow : ∀ q, q < kend → q ≠ d ∧ q ∉ u ++ p :: l1).
  { intros q Hq. split; [intros ->|intros Hin]; [pose proof (Hge d ltac:(set_solver)) as Hg|pose proof (Hge q ltac:(set_solver)) as Hg];
      destruct Hg as (_ & ? & _); lia. }
  destruct (inituvm_run d init sz k s1 p l1 B1) as (s2 & used & l' & R2 & -> & Hok & Hst & Hpt & Hrd & Hfr); try done.
  - intros ->. cbn in Hl. lia.
  - rewrite B7 by lia. done.
  - intros q _ Hq. by apply B5; apply Hlow.
  - exists s1, s2, p, l'. split_and!; [done|done| |done| |done|set_solver| | |].
    + pose proof (Hge d ltac:(set_solver)) as (_ & _ & _ & ?). unfold KERNBASE in *. lia.
    + rewrite Hst, B4. done.
    + intros va Hva. rewrite Hpt by done. by rewrite B7.
    + intros i Hi. rewrite Hrd by done. destruct (Z.ltb_spec i sz); [|done].
      destruct (page_of (init + i) ltac:(unfold KERNLINK, EXTMEM in *; lia)) as [Hq1 Hq2]. apply (B6 (PGROUNDDOWN (init + i))); [done|apply Hlow; lia..|lia].
    + intros q Hq Hql. apply (same_page_trans _ (vmem s1)); [apply B6; set_solver|].
      apply Hfr; [done|apply B5; set_solver|set_solver].
Qed.

(** userinit() makes the first process, and changes no page but those it takes. *)
Lemma userinit_run fr tr init sz w s j stack d l :
  unused_proc (k_procs s) 0 = Some j → free_pages kend (km (k_vm s)) (stack :: d :: l) → (66 ≤ length l)%nat →
  0 ≤ sz < PGSIZE → KERNLINK ≤ init → init + sz ≤ kend → kend ≤ 2 ^ 32 →
  icache_ok (k_fs s) → (∃ i, (i < NINODE)%nat ∧ i_ref (thei i (k_fs s)) = 0) →
  ∃ v fs cwd p l',
    userinit kdata fr tr init sz (Kctx [] w) s = Done tt (Kctx [] w) (set_kfs fs (set_kvm v (set_initproc (Some j)
      (set_nextpid (i32 (k_nextpid s + 1)) (updp j (first_proc stack (k_nextpid s) d cwd) s))))) ∧
    (cwd < NINODE)%nat ∧ got ROOTDEV ROOTINO cwd (k_fs s) fs ∧ v = set_km (km v) (get_vm s) ∧ vm_ok kend v d l' ∧
    (∀ q, q ∈ l' → q ∈ l) ∧
    (∀ va, 0 ≤ va < 2 ^ 32 → pte (vmem v) d va = if va <? PGSIZE then entry (v2p p) USER else kernel_pte kdata va) ∧
    (∀ i, 0 ≤ i < PGSIZE → rd (vmem v) (p + i) = if i <? sz then rd (vmem (k_vm s)) (init + i) else 0) ∧
    (∀ q, kpage q → q ∉ stack :: d :: l → same_page (vmem (k_vm s)) (vmem v) q).
Proof.
  intros Hj Hf Hl Hsz Hi1 Hi2 Hke Hic Hfree.
  assert (Hst : page_ok kend stack) by (destruct Hf as (_ & _ & Hall); by apply Forall_cons in Hall as [Hst _]).
  destruct (allocproc_run fr tr (Kctx [] w) s j stack (d :: l) eq_refl Hj Hf) as (v1 & R1 & Hv1 & Hf1 & Ho1).
  pose proof (proj2 (unused_proc_lt _ _ _ Hj)) as Hlt. rewrite Nat.add_0_l in Hlt.
  set (k := Kctx [] w) in *. set (s0 := set_nextpid _ _) in *.
  destruct (first_space init sz k v1 d l Hf1 Hl ltac:(apply not_elem_of_nil) Hsz Hi1 Hi2 Hke)
    as (v2 & v3 & p & l' & R2 & R3 & Hd & Hv2 & Hv3 & Hok & Hll & Hpt & Hrd & Hfr).
  set (s1 := set_initproc (Some j) (set_kvm v1 s0)).
  assert (Hc : con v1 = console (k_fs s) ∧ con v2 = console (k_fs s) ∧ con v3 = console (k_fs s))
    by (rewrite Hv2, Hv3, Hv1; done). destruct Hc as (Hc1 & Hc2 & Hc3).
  assert (E2 : invm (setupkvm kdata) k s1 = Done d k (set_kvm v2 s1))
    by (apply invm_run; [change (get_vm s1) with (get_vm (set_kvm v1 s0)); by rewrite get_vm_kvm|done]).
  set (s2 := updp j (set_ppgdir d) (set_kvm v2 s1)).
  assert (E3 : invm (inituvm d init sz) k s2 = Done tt k (set_kvm v3 s2))
    by (apply invm_run; [change (get_vm s2) with (get_vm (set_kvm v2 s1)); by rewrite get_vm_kvm|done]).
  set (s3 := updp j (set_name (name_of initcode_name)) (updp j (set_tf user_tf) (updp j (set_psz PGSIZE) (set_kvm v3 s2)))).
  destruct (namei_root (dsw s3) 0 k (k_fs s) Hic ltac:(apply not_elem_of_nil) Hfree) as (cwd & fs & R4 & Hcw & Hg).
  exists v3, fs, cwd, p, l'. split_and!; try done.
  - unfold userinit. mb R1. mmod. fold s1. rewrite (bind_Done _ _ _ _ _ _ _ (eq_refl : defined (Some j) k s1 = Done j k s1)).
    mb E2. mmod. destruct (Z.eqb_spec d 0); [done|]. fold s2. mb E3. do 3 mmod. fold s3.
    mb (gets_eq dsw k s3). mb (zoom_Done k_fs set_kfs (namei (dsw s3) 0 [SLASH]) k s3 (Some cwd) k fs R4). mmod.
    rewrite modify_eq. f_equal. unfold s3, s2, s1, s0.
    rewrite !updp_kfs, !updp_kvm, !updp_initproc, !updp_kvm, !updp_nextpid, !kvm_kvm.
    by rewrite !updp_updp by (rewrite ?length_updp; done).
  - rewrite Hv3, Hv1. done.
  - intros i Hi. rewrite Hrd by done. destruct (Z.ltb_spec i sz); [|done]. apply Ho1.
    intros Hin. by eapply below_kend; [exact Hst| |exact Hin]; lia.
  - intros q Hq Hql. apply (same_page_trans _ (vmem v1)); [|apply Hfr; set_solver]. intros a Ha. apply Ho1.
    pose proof (kpage_far q stack Hq (page_ok_kpage kend stack Hst) ltac:(set_solver)). lia.
Qed.
End userinit.

(** ** The kernel's page table while the kernel starts *)

Section booting.
Context (kend kdata : Z).
Hypothesis Hdata : kdata mod PGSIZE = 0 ∧ KERNLINK < kdata < KERNBASE + PHYSTOP.

(** The kernel's page table is in use, in pages between the kernel and 4 megabytes; [l] are the free pages. *)
Record kmap_ok (v : vst) (l : list Z) : Prop := KmapOk {
  ko_vm : vm_ok kend v (kpgdir v) l;
  ko_apart : ∀ q, kpage q → q < kend ∨ EARLY ≤ q → outside (vmem v) (kpgdir v) q;
  ko_pte : ∀ va, 0 ≤ va < 2 ^ 32 → pte (vmem v) (kpgdir v) va = kernel_pte kdata va;
  ko_cr3 : cr3 v = v2p (kpgdir v)
}.

(** The directory and its tables are such pages. *)
Lemma kmap_page v l t : kmap_ok v l → t = kpgdir v ∨ (∃ i, 0 ≤ i < 1024 ∧ ptab (vmem v) (kpgdir v) i = Some t) →
  kpage t ∧ kend ≤ t < EARLY ∧ t ∉ l.
Proof.
  intros [[[P1 P2 _] _ Ho] Ha _ _] Ht.
  assert (Hin : ¬ outside (vmem v) (kpgdir v) t) by (intros [H1 H2]; destruct Ht as [->|(i & Hi & E)]; [done|by apply (H2 i)]).
  assert (Hk : kpage t) by (destruct Ht as [->|(i & Hi & E)]; [done|by apply (P2 i)]).
  split_and!; [done| | |].
  - destruct (decide (kend ≤ t)); [done|]. exfalso. apply Hin, Ha; [done|lia].
  - destruct (decide (t < EARLY)); [done|]. exfalso. apply Hin, Ha; [done|lia].
  - intros Hl. by apply Hin, Ho.
Qed.

(** What does not write to those pages leaves the page table alone. *)
Lemma kmap_step v v' l l' : kmap_ok v l → kpgdir v' = kpgdir v → cr3 v' = cr3 v → free_pages kend (km v') l' →
  (∀ q, q ∈ l' → q ∈ l ∨ EARLY ≤ q) →
  (∀ q, kpage q → kend ≤ q < EARLY → q ∉ l → same_page (vmem v) (vmem v') q) → kmap_ok v' l'.
Proof.
  intros Hv Hd Hc Hf Hl Hs.
  assert (Hp : ∀ t, t = kpgdir v ∨ (∃ i, 0 ≤ i < 1024 ∧ ptab (vmem v) (kpgdir v) i = Some t) → same_page (vmem v) (vmem v') t).
  { intros t Ht. destruct (kmap_page v l t Hv Ht) as (H1 & H2 & H3). by apply Hs. }
  pose proof (Hp _ (or_introl eq_refl)) as Hdir. destruct Hv as [[P1 P2 P3] Q1 Q2 Q3].
  assert (Ho : ∀ q, outside (vmem v) (kpgdir v) q → outside (vmem v') (kpgdir v) q).
  { intros q [H1 H2]. split; [done|]. intros i Hi. rewrite (ptab_same (vmem v)) by done. by apply H2. }
  split; rewrite ?Hd; [split| | |by rewrite Hc].
  - by apply (pt_ok_same (vmem v)).
  - done.
  - intros q Hq. apply Ho. destruct (Hl q Hq) as [Hin|Hge]; [by apply P3|]. apply Q1; [|by right].
    destruct Hf as (_ & _ & Hall). apply (page_ok_kpage kend). by apply (proj1 (Forall_forall _ _) Hall).
  - intros q Hq Hr. by apply Ho, Q1.
  - intros va Hva. rewrite <- Q2 by done. apply pte_same; [done|]. intros t Ht. apply Hp. right. exists (PDX va).
    split; [apply PDX_range|done].
Qed.

(** A write below the end of the kernel. *)
Lemma kmap_low v l m' : kmap_ok v l → (∀ a, kend ≤ a → rd m' a = rd (vmem v) a) →
  kmap_ok (set_km (set_mem m' (km v)) v) l.
Proof.
  intros Hv Hm. assert (Hf : free_pages kend (km v) l) by apply Hv. apply (kmap_step v _ l l); try done.
  - apply free_pages_same; [done|]. intros q Hq a Ha. apply Hm. destruct Hf as (_ & _ & Hall).
    pose proof (proj1 (Forall_forall _ _) Hall q Hq) as (_ & ? & _). lia.
  - auto.
  - intros q _ Hq _ a Ha. apply Hm. lia.
Qed.

(** kinit1(end, P2V(4*1024*1024)); kvmalloc(); *)
Lemma kvmalloc_run w v : free_pages kend (km v) [] → KERNLINK ≤ kend ≤ EARLY → PGROUNDUP kend + 73 * PGSIZE ≤ EARLY →
  ∃ v1 v2 l, inkm (kinit1 kend kend EARLY) (Kctx [] w) v = Done tt (Kctx [] w) v1 ∧
    kvmalloc kdata (Kctx [] w) v1 = Done tt (Kctx [] w) v2 ∧ kmap_ok v2 l ∧ con v1 = con v ∧ con v2 = con v ∧
    (8 ≤ length l)%nat ∧ (∀ q, q ∈ l → q < EARLY) ∧ ∀ a, KERNBASE ≤ a < kend → rd (vmem v2) a = rd (vmem v) a.
Proof.
  intros Hf Hk He.
  destruct (kinit1_run kend w (km v) Hf Hk ltac:(unfold PGSIZE in *; lia)) as (s1 & [|d l] & R1 & Hf1 & Hl & Hn & Hq & Hx); [cbn in Hl; lia|].
  assert (Hlen : (72 ≤ length l)%nat).
  { assert (73 ≤ (EARLY - PGROUNDUP kend) / PGSIZE) by (apply Z.div_le_lower_bound; unfold PGSIZE in *; lia). cbn [length] in Hn. lia. }
  destruct (setupkvm_run kend kdata Hdata (Kctx [] w) (set_km s1 v) d l Hf1 ltac:(apply not_elem_of_nil) ltac:(lia))
    as (s2 & l' & R2 & [B1 B2 (u & -> & Hu) B4 B5 B6 B7]). rewrite length_app in Hlen.
  assert (Hni : ∀ q, q < kend ∨ EARLY ≤ q → q ≠ d ∧ q ∉ u ++ l').
  { destruct Hf1 as (_ & _ & Hall). intros q Hr. apply not_elem_of_cons. intros Hin. pose proof (Hq q Hin).
    pose proof (proj1 (Forall_forall _ _) Hall q Hin) as (_ & ? & _). unfold PGSIZE in *. lia. }
  exists (set_km s1 v), (set_cr3 (v2p d) (set_kpgdir d s2)), l'. split_and!.
  - exact (zoom_Done km set_km _ _ _ _ _ _ R1).
  - unfold kvmalloc. mb R2. done.
  - split; [by destruct B1 as [? ? ?]; split| |done|done]. intros q Hkq Hqr. by apply B5; apply Hni.
  - done.
  - cbn. by rewrite B4.
  - lia.
  - intros q Hin. pose proof (Hq q ltac:(set_solver)). unfold PGSIZE in *. lia.
  - intros a Ha. change (rd (vmem s2) a = rd (vmem v) a). change EARLY with 0x80400000 in *.
    destruct (page_of a ltac:(lia)) as [Hp1 Hp2].
    rewrite (B6 (PGROUNDDOWN a)); [|done|apply Hni; lia..|done]. apply Hx. lia.
Qed.
End booting.

(** ** The phases of main() *)

(** The bytes [a, a+n) and [b, b+m) do not overlap. *)
Definition apart (a n b m : Z) : Prop := a + n ≤ b ∨ b + m ≤ a.

Section boot.
Context {disk : Type} `{!IdeDevice disk}.
Context (kend kdata cpus idt : Z) (vectors : Z → Z).
Context (comes_up : Z → bool) (code0 codesz mpenter_addr entrypgdir_addr : Z).
Context (forkret_addr trapret_addr init initsz : Z) (imcr : Z) (statuses : list Z).

(** The kernel as it is linked: its data begin at a page, what main() writes and what it
    copies are different parts of it, and 73 pages are left below 4 megabytes. *)
Record linked : Prop := Linked {
  lk_data : kdata mod PGSIZE = 0 ∧ KERNLINK < kdata < KERNBASE + PHYSTOP;
  lk_end : KERNLINK ≤ kend ≤ EARLY ∧ PGROUNDUP kend + 73 * PGSIZE ≤ EARLY;
  lk_cpus : KERNLINK ≤ cpus ∧ cpus + sizeof_cpu * Z.of_nat NCPU ≤ kend;
  lk_idt : KERNLINK ≤ idt ∧ idt + 8 * 256 ≤ kend ∧ apart cpus (sizeof_cpu * Z.of_nat NCPU) idt (8 * 256);
  lk_init : KERNLINK ≤ init ∧ 0 ≤ initsz < PGSIZE ∧ init + initsz ≤ kend ∧
    apart init initsz cpus (sizeof_cpu * Z.of_nat NCPU) ∧ apart init initsz idt (8 * 256);
  lk_code : KERNLINK ≤ code0 ∧ 0 ≤ codesz ∧ code0 + codesz ≤ kend ∧ code + codesz ≤ KERNLINK ∧
    apart code0 codesz cpus (sizeof_cpu * Z.of_nat NCPU) ∧ apart code0 codesz idt (8 * 256);
  lk_addrs : (∀ n, 0 ≤ n < 256 → 0 ≤ vectors n < 2 ^ 32) ∧ 0 ≤ mpenter_addr < 2 ^ 32
}.

Definition memory (s : machine (disk := disk)) : mem := vmem (k_vm (mc_k s)).

(** The number of the processor main() runs on. *)
Definition boot_cpu (mp : mpst) (s : machine (disk := disk)) : Z :=
  if lapic mp =? 0 then 0 else Z.shiftr (Lapic.lread Lapic.ID (mc_lapic s)) 24.

(** The buffer cache before binit(), over a disk of full sectors. *)
Definition no_buffers (b : bstate) : Prop :=
  ∃ n m, b = boot_bst n m ∧ ∀ x, length (default zero_block (m !! x)) = Z.to_nat BSIZE.

(** The kernel just loaded: its variables are zero, no page is free, mpinit finds [mp] in
    the memory below the end of the kernel, and the other processors come up. *)
Record loaded (mp : mpst) (s : machine (disk := disk)) : Prop := Loaded {
  ld_free : free_pages kend (km (k_vm (mc_k s))) [];
  ld_procs : k_procs (mc_k s) = replicate NPROC proc0 ∧ k_nextpid (mc_k s) = 1;
  ld_caches : icache (k_fs (mc_k s)) = replicate NINODE inode0 ∧ no_buffers (bst (lg (k_fs (mc_k s))));
  ld_screen : screen_ok (console (k_fs (mc_k s))) ∧ panicked (console (k_fs (mc_k s))) = false;
  ld_devices : mc_pic s = Pic.start ∧ mc_log s = [] ∧
    (Uart.there (mc_chip s) = true → (Uart.busy (mc_chip s) ≤ 128)%nat ∧ (Uart.pace (mc_chip s) ≤ 128)%nat);
  ld_mp : ∀ m, (∀ a, KERNBASE ≤ a < kend → rd m a = rd (memory s) a) → Mp.mpinit mp_fuel m imcr (mc_mp s) = Mdone mp;
  ld_cpus : length (cpu_ids (mc_mp s)) = NCPU ∧ 0 ≤ boot_cpu mp s < Z.of_nat NCPU ∧
    ∀ id, id ∈ take (ncpu mp) (cpu_ids mp) → comes_up id = true
}.

(** The kernel's state until the first process is made. *)
Record kboot (m : mem) (l : list Z) (k : kst) : Prop := Kboot {
  kb_map : kmap_ok kend kdata (k_vm k) l;
  kb_early : (8 ≤ length l)%nat ∧ ∀ q, q ∈ l → q < EARLY;
  kb_mem : vmem (k_vm k) = m;
  kb_new : k_procs k = replicate NPROC proc0 ∧ k_nextpid k = 1 ∧ icache (k_fs k) = replicate NINODE inode0;
  kb_screen : screen_ok (console (k_fs k)) ∧ panicked (console (k_fs k)) = false
}.

Lemma kmap_con v l c : kmap_ok kend kdata v l → kmap_ok kend kdata (set_con c v) l.
Proof. intros [[A1 A2 A3] B C D]. by split. Qed.
Lemma ink_run {A} (m : M kst A) k (s : machine (disk := disk)) a k' x : m k (mc_k s) = Done a k' x →
  ink m k s = Done a k' (set_k x s).
Proof. apply zoom_Done. Qed.

(** lapicinit() does not write the register with the processor's number. *)
Lemma cpunum_lapicw i v d : i ≠ Lapic.ID → Lapic.cpunum (Lapic.lapicw i v d) = Lapic.cpunum d.
Proof. intros H. unfold Lapic.cpunum, Lapic.lread, Lapic.lapicw. cbn. by rewrite lookup_insert_ne. Qed.
Lemma cpunum_lapicws l d : Forall (λ iv : Z * Z, fst iv ≠ Lapic.ID) l → Lapic.cpunum (Lapic.lapicws l d) = Lapic.cpunum d.
Proof.
  intros Hl. revert d. unfold Lapic.lapicws. induction Hl as [|iv l H _ IH]; intros d; [done|]. cbn [foldl].
  by rewrite IH, cpunum_lapicw.
Qed.
Lemma cpunum_init d : Lapic.cpunum (Lapic.lapicinit d) = Lapic.cpunum d.
Proof.
  unfold Lapic.lapicinit. destruct (negb (Lapic.present d)); [done|]. cbn zeta.
  rewrite cpunum_lapicws by (repeat constructor; done). case_match; rewrite ?cpunum_lapicw by done.
  all: by rewrite cpunum_lapicws by (repeat constructor; done).
Qed.

Lemma seginit_run k (s : machine (disk := disk)) :
  seginit cpus k s = Done tt k (put_seg (Segments.seginit cpus (cpunum s) (get_seg s)) s).
Proof. done. Qed.

(** Up to seginit(). *)
Lemma boot_memory mp w (s : machine (disk := disk)) : linked → loaded mp s →
  ∃ m l k d, let h := Segments.seginit cpus (boot_cpu mp s) (Seghw m (mc_gdtr s) (mc_idtr s) (mc_gs s) (mc_gsbase s)) in
  let s' := Machine k mp d (mc_log s) (sh_gdtr h) (sh_idtr h) (sh_gs h) (sh_gsbase h) (mc_chip s) (mc_pic s) (mc_io s)
    (mc_uart s) (mc_ide s) (mc_started s) in
  (∀ rest : M machine unit, (ink (invm (inkm (kinit1 kend kend EARLY)));; ink (invm (kvmalloc kdata));; mpinit imcr;;
     onlapic Lapic.lapicinit;; seginit cpus;; rest) (Kctx [] w) s = rest (Kctx [] w) s') ∧
  (∀ a, KERNBASE ≤ a < kend → rd m a = rd (memory s) a) ∧ kboot (sh_mem h) l k ∧ cpunum s' = boot_cpu mp s ∧
  no_buffers (bst (lg (k_fs k))).
Proof.
  intros [L1 [L2 L2'] L3 L4 L5 L6 L7] [D1 D2 D3 D4 D5 D6 D7].
  destruct (kvmalloc_run kend kdata L1 w (get_vm (mc_k s)) D1 L2 L2') as (v1 & v2 & l & R1 & R2 & Hm & Hc1 & Hc2 & Hl & He & Hx).
  pose proof (ink_run _ _ s _ _ _ (invm_run _ _ _ _ _ _ R1 Hc1)) as E1.
  assert (E2 : ink (invm (kvmalloc kdata)) (Kctx [] w) (set_k (set_kvm v1 (mc_k s)) s) = Done tt (Kctx [] w) (set_k (set_kvm v2 (mc_k s)) s)).
  { apply (ink_run _ _ (set_k (set_kvm v1 (mc_k s)) s) _ _ (set_kvm v2 (set_kvm v1 (mc_k s)))), invm_run; [|done].
    change (mc_k (set_k ?k _)) with k. by rewrite get_vm_kvm. }
  set (d := Lapic.lapicinit (Lapic.Lapic (negb (lapic mp =? 0)) (Lapic.lregs (mc_lapic s)) (Lapic.writes (mc_lapic s))
    (Lapic.louts (mc_lapic s)) (Lapic.lmem (mc_lapic s)))).
  assert (Hcpu : Lapic.cpunum d = boot_cpu mp s).
  { unfold d. rewrite cpunum_init. unfold Lapic.cpunum, boot_cpu. cbn. by destruct (lapic mp =? 0). }
  set (h := Segments.seginit cpus (boot_cpu mp s) (Seghw (vmem v2) (mc_gdtr s) (mc_idtr s) (mc_gs s) (mc_gsbase s))).
  exists (vmem v2), l, (set_kmem (sh_mem h) (set_kvm v2 (mc_k s))), d. cbn zeta. fold h. split_and!; [|done| |done|apply D3].
  - intros rest. mb E1. mb E2. set (s2 := set_k (set_kvm v2 (mc_k s)) s).
    assert (E3 : ∃ d0, mpinit imcr (Kctx [] w) s2 = Done tt (Kctx [] w) (set_mp mp d0 s2) ∧ Lapic.lapicinit d0 = d).
    { eexists. split; [|reflexivity]. unfold mpinit. mb (gets_eq (λ s : machine, s) (Kctx [] w) s2).
      change (vmem (k_vm (mc_k s2))) with (vmem v2). change (mc_mp s2) with (mc_mp s). rewrite (D6 (vmem v2)) by done. apply modify_eq. }
    destruct E3 as (d0 & E3 & Hd). mb E3. unfold onlapic. mmod. cbn [mc_lapic set_mp]. rewrite Hd.
    mb (seginit_run (Kctx [] w) (set_mp mp d (set_mp mp d0 s2))). change (cpunum (set_mp mp d _)) with (Lapic.cpunum d). rewrite Hcpu. done.
  - assert (Hlow : ∀ a, kend ≤ a → rd (sh_mem h) a = rd (vmem v2) a).
    { intros a Ha. change sizeof_cpu with 192 in *. change (Z.of_nat NCPU) with 8 in *. unfold KERNLINK, KERNBASE, EXTMEM in *. change EARLY with 0x80400000 in *.
      apply (seginit_segments cpus (boot_cpu mp s) (Seghw (vmem v2) (mc_gdtr s) (mc_idtr s) (mc_gs s) (mc_gsbase s)));
        change sizeof_cpu with 192; change cpu_gdt with 112; change cpu_cpu with 180; change cpu_thread with 188; lia. }
    split; [by apply (kmap_low kend kdata v2 l (sh_mem h))|done|done| |done].
    split_and!; [apply D2|apply D2|apply D3].
Qed.
(** A message with the number of the processor. *)
Lemma message_run fmt id w x : screen_ok (console (k_fs x)) → panicked (console (k_fs x)) = false →
  Forall common (convs fmt) → (∃ out, Printf.printf (λ _, []) fmt [id] = Some out) →
  ∃ c, incst (cprintf (λ _, []) (Some fmt) [id]) (Kctx [] w) x = Done tt (Kctx [] w) (set_kfs (set_console c (k_fs x)) x) ∧
    screen_ok c ∧ panicked c = false.
Proof.
  intros Hs Hp Hc [out Ho]. destruct (cprintf_prints _ _ _ _ (Kctx [] w) _ Hc Ho Hs Hp ltac:(apply not_elem_of_nil)) as (c & R & P1 & _ & _ & P2 & _).
  exists c. split_and!; [|done|congruence]. apply zoom_Done, incons_Done, R.
Qed.
Lemma one_number fmt id a b : fmt = a ++ [37; 100] ++ b → Printf.ch_pct ∉ a → Printf.ch_pct ∉ b →
  Forall common (convs fmt) ∧ ∃ out, Printf.printf (λ _, []) fmt [id] = Some out.
Proof.
  intros -> Ha Hb. destruct (Printf.printint_digits (i32 id) 10 true) as (vs & E & _); [lia|apply i32_range|].
  assert (Hplain : ∀ l ap out, Printf.ch_pct ∉ l → Printf.printf_loop (λ _, []) l false ap out = Some (out ++ l) ∧ convs l = []).
  { induction l as [|c l IH]; intros ap out Hl; [by rewrite app_nil_r|]. apply not_elem_of_cons in Hl as [Hc Hl].
    cbn [Printf.printf_loop convs]. rewrite (proj2 (Z.eqb_neq c Printf.ch_pct)) by done. destruct (IH ap (out ++ [c]) Hl) as [-> ->].
    by rewrite <- app_assoc. }
  unfold Printf.printf. generalize (@nil Z) at 5 as out. induction a as [|c a IH]; intros out.
  - cbn [app convs Printf.printf_loop]. change (37 =? Printf.ch_pct) with true. cbv iota.
    unfold Printf.conversion. change (100 =? 100) with true. cbv iota. rewrite E. rewrite (proj1 (Hplain b [] _ Hb)), (proj2 (Hplain b [] [] Hb)).
    split; [by repeat constructor|by eexists].
  - apply not_elem_of_cons in Ha as [Hc Ha]. cbn [app convs Printf.printf_loop]. rewrite (proj2 (Z.eqb_neq c Printf.ch_pct)) by done. by apply IH.
Qed.

(** The serial port, if there is one, has its interrupt enabled. *)
Definition com1 (b : bool) (c : Uart.chip) (pic : Pic.pic) (io : Ioapic.ioapic) : Pic.pic * Ioapic.ioapic :=
  if Uart.there c then (Pic.picenable IRQ_COM1 pic, Ioapic.ioapicenable b IRQ_COM1 0 io) else (pic, io).
Lemma uartinit_irqs b c pic io u : (Uart.there c = true → (Uart.busy c ≤ 128)%nat ∧ (Uart.pace c ≤ 128)%nat) →
  let u' := Uart.uartinit b (Uart.Ust c pic io u) in (Uart.u_pic u', Uart.u_io u') = com1 b c pic io.
Proof.
  intros Hc. unfold com1. destruct (Uart.there c) eqn:E.
  - destruct (Hc eq_refl) as [H1 H2]. cbn zeta. by rewrite (Uart.uartinit_run b (Uart.Ust c pic io u) E H1 H2).
  - cbn zeta. unfold Uart.uartinit. cbn [foldl fst snd Uart.u_chip].
    rewrite !(outb_absent _ _ c E). by rewrite inb_absent.
Qed.
Lemma enable_run irq cpu k (s : machine (disk := disk)) : enable irq cpu k s = Done tt k
  (put_uart (Uart.Ust (mc_chip s) (Pic.picenable irq (mc_pic s)) (Ioapic.ioapicenable (is_mp s) irq cpu (mc_io s)) (mc_uart s)) s).
Proof. done. Qed.
Lemma consoleinit_run w (s : machine (disk := disk)) : let fs := k_fs (mc_k s) in
  consoleinit (Kctx [] w) s = enable IRQ_KBD 0 (Kctx [] w)
    (set_k (set_kfs (set_console (set_locking true (console fs)) fs) (mc_k s)) s).
Proof. done. Qed.

Lemma onuart_run f k (s : machine (disk := disk)) : onuart f k s = Done tt k (put_uart (f (get_uart s)) s).
Proof. done. Qed.
Lemma serial_run k (s : machine (disk := disk)) : uartinit k s = Done tt k (put_uart (Uart.uartinit (is_mp s) (get_uart s)) s).
Proof. done. Qed.
Lemma ink_same {A} (m : M kst A) a k k' (s : machine (disk := disk)) : m k (mc_k s) = Done a k' (mc_k s) → ink m k s = Done a k' s.
Proof. intros ->%ink_run. by destruct s. Qed.

(** The kernel's state with another console. *)
Lemma kboot_console m l k c : kboot m l k → screen_ok c → panicked c = false → kboot m l (set_kfs (set_console c (k_fs k)) k).
Proof. intros [A B C D E] H1 H2. by split. Qed.

(** From the first message to pinit(). *)
Lemma boot_console m l w (s : machine (disk := disk)) : kboot m l (mc_k s) →
  (Uart.there (mc_chip s) = true → (Uart.busy (mc_chip s) ≤ 128)%nat ∧ (Uart.pace (mc_chip s) ≤ 128)%nat) → let b := is_mp s in
  let pic := Pic.picenable IRQ_KBD (Pic.picinit (mc_pic s)) in
  let io := Ioapic.ioapicenable b IRQ_KBD 0 (Ioapic.ioapicinit b (mc_io s)) in
  ∃ k u, (∀ rest : M machine unit, (id ← gets cpu_id;
      ink (incst (cprintf (λ _, []) (Some ([NL] ++ line "cpu%d: starting xv6" ++ [NL])) [id]));;
      onpic Pic.picinit;; b ← gets is_mp; onio (Ioapic.ioapicinit b);; consoleinit;; uartinit;; ink pinit;; rest) (Kctx [] w) s =
    rest (Kctx [] w) (put_uart u (set_k k s))) ∧
  (Uart.u_pic u, Uart.u_io u) = com1 b (mc_chip s) pic io ∧ kboot m l k ∧ lg (k_fs k) = lg (k_fs (mc_k s)).
Proof.
  intros Hk Hu b pic io. pose proof Hk as [_ _ _ _ [S1 S2]].
  destruct (one_number ([NL] ++ line "cpu%d: starting xv6" ++ [NL]) (cpu_id s) ([NL] ++ chars "cpu") (chars ": starting xv6" ++ [NL; NL]))
    as [F1 F2]; [reflexivity|apply (bool_decide_unpack _); by vm_compute..|].
  destruct (message_run _ _ w (mc_k s) S1 S2 F1 F2) as (c & R & C1 & C2).
  set (k1 := set_kfs (set_console c (k_fs (mc_k s))) (mc_k s)).
  exists (set_kfs (set_console (set_locking true c) (k_fs k1)) k1), (Uart.uartinit b (Uart.Ust (mc_chip s) pic io (mc_uart s))).
  split_and!; [|by apply uartinit_irqs|by repeat apply kboot_console|done].
  intros rest. mb (gets_eq cpu_id (Kctx [] w) s). mb (ink_run _ _ s _ _ _ R). fold k1.
  unfold onpic, onio. rewrite (bind_Done _ _ _ _ _ _ _ (onuart_run _ _ _)).
  rewrite (bind_Done _ _ _ _ _ _ _ (gets_eq is_mp _ _)). rewrite (bind_Done _ _ _ _ _ _ _ (onuart_run _ _ _)).
  rewrite (bind_Done _ _ _ _ _ _ _ (eq_trans (consoleinit_run w _) (enable_run _ _ _ _))).
  rewrite (bind_Done _ _ _ _ _ _ _ (serial_run _ _)).
  rewrite (bind_Done _ _ _ _ _ _ _ (ink_same pinit tt (Kctx [] w) (Kctx [] w) _ eq_refl)).
  match goal with |- rest _ (put_uart (Uart.uartinit ?b' ?u) _) = _ =>
    change b' with b; change u with (Uart.Ust (mc_chip s) pic io (mc_uart s)) end.
  generalize (Uart.uartinit b (Uart.Ust (mc_chip s) pic io (mc_uart s))). reflexivity.
Qed.
(** binit() on the zeroed buffers. *)
Lemma binit_run w fs : no_buffers (bst (lg fs)) →
  ∃ fs', inbf binit (Kctx [] w) fs = Done tt (Kctx [] w) fs' ∧ cache_ok [] (bst (lg fs')) ∧
    icache fs' = icache fs ∧ console fs' = console fs.
Proof.
  intros (n & m & Hb & Hm). destruct (binit_booted n m (Kctx [] w) eq_refl Hm) as (b & R & Hok & _).
  exists (set_lg (set_bst b (lg fs)) fs). split; [|done].
  apply (zoom_Done lg set_lg), (zoom_Done bst set_bst). by rewrite Hb.
Qed.

Lemma ideinit_run w (s : machine (disk := disk)) : ∃ i, ideinit statuses (Kctx [] w) s = Done tt (Kctx [] w) (set_ide i
  (put_uart (Uart.Ust (mc_chip s) (Pic.picenable IRQ_IDE (mc_pic s))
    (Ioapic.ioapicenable (is_mp s) IRQ_IDE (Z.of_nat (ncpu (mc_mp s)) - 1) (mc_io s)) (mc_uart s)) s)).
Proof. eexists. unfold ideinit. mb (gets_eq (λ s, ncpu (mc_mp s)) (Kctx [] w) s). rewrite (bind_Done _ _ _ _ _ _ _ (enable_run _ _ _ _)). reflexivity. Qed.

(** From tvinit() to timerinit(). *)
Lemma boot_tables m l w (s : machine (disk := disk)) : linked → kboot m l (mc_k s) → no_buffers (bst (lg (k_fs (mc_k s)))) →
  let h := tvinit idt vectors (get_seg s) in
  let pic := (if is_mp s then id else Timer.timerinit) (Pic.picenable IRQ_IDE (mc_pic s)) in
  let io := Ioapic.ioapicenable (is_mp s) IRQ_IDE (Z.of_nat (ncpu (mc_mp s)) - 1) (mc_io s) in
  ∃ k i, (∀ rest : M machine unit, (onseg (tvinit idt vectors);; ink (infs (inbf binit));; ink fileinit;; ink (infs iinit);;
      ideinit statuses;; b ← gets is_mp; (if negb (b : bool) then onpic Timer.timerinit else mret tt);; rest) (Kctx [] w) s =
    rest (Kctx [] w) (Machine k (mc_mp s) (mc_lapic s) (mc_log s) (mc_gdtr s) (mc_idtr s) (mc_gs s) (mc_gsbase s) (mc_chip s)
      pic io (mc_uart s) i (mc_started s))) ∧
  kboot (sh_mem h) l k ∧ cache_ok [] (bst (lg (k_fs k))).
Proof.
  intros L [A B C D E] Hb h pic io. destruct (binit_run w (k_fs (mc_k s)) Hb) as (fs & R & F1 & F2 & F3).
  set (s1 := put_seg h s). set (k := set_kfs fs (mc_k s1)).
  assert (E1 : ink (infs (inbf binit)) (Kctx [] w) s1 = Done tt (Kctx [] w) (set_k k s1)) by (apply ink_run, zoom_Done, R).
  destruct (ideinit_run w (set_k k s1)) as (i & E2). exists k, i. split_and!; [| |done].
  - intros rest. unfold onseg. mmod. fold h. fold s1. mb E1.
    rewrite (bind_Done _ _ _ _ _ _ _ (ink_same fileinit tt (Kctx [] w) (Kctx [] w) _ eq_refl)).
    mb (ink_same (infs iinit) tt (Kctx [] w) (Kctx [] w) (set_k k s1) eq_refl).
    mb E2. rewrite (bind_Done _ _ _ _ _ _ _ (gets_eq is_mp _ _)).
    unfold pic, io. change (is_mp (set_ide _ _)) with (is_mp s). change (is_mp (set_k k s1)) with (is_mp s).
    destruct (is_mp s); reflexivity.
  - split; [|done|done| |by rewrite <- F3 in E].
    + apply (kmap_low kend kdata (k_vm (mc_k s))); [done|]. intros a Ha. apply (tvinit_other idt vectors (get_seg s)).
      pose proof (lk_idt L). lia.
    + split_and!; [apply D..|]. change (icache fs = replicate NINODE inode0). rewrite F2. apply D.
Qed.
(** Startothers() and kinit2(). *)
Lemma boot_others m l w (s : machine (disk := disk)) : linked → kboot m l (mc_k s) →
  let ids := take (ncpu (mc_mp s)) (cpu_ids (mc_mp s)) in let boot := cpunum s in
  (length ids ≤ NCPU)%nat → (∀ id, id ∈ ids → comes_up id = true) →
  ∃ k d stacks m' l', (∀ rest : M machine unit,
      (startothers comes_up code0 codesz mpenter_addr entrypgdir_addr;; ink (invm (inkm (kinit2 kend EARLY (p2v PHYSTOP))));; rest)
        (Kctx [] w) s =
      rest (Kctx [] w) (Machine k (mc_mp s) d (mc_log s ++ zip_with (ap_start mpenter_addr entrypgdir_addr) (others boot 0 ids) stacks)
        (mc_gdtr s) (mc_idtr s) (mc_gs s) (mc_gsbase s) (mc_chip s) (mc_pic s) (mc_io s) (mc_uart s) (mc_ide s) (mc_started s))) ∧
    NoDup stacks ∧ length stacks = length (others boot 0 ids) ∧ k = set_kvm (k_vm k) (mc_k s) ∧ con (k_vm k) = console (k_fs k) ∧
    kmap_ok kend kdata (k_vm k) l' ∧ (68 ≤ length l')%nat ∧ vmem (k_vm k) = m' ∧
    (∀ a, KERNBASE ≤ a < kend → ¬ (code - 12 ≤ a < code + codesz) → rd m' a = rd m a) ∧
    (∀ i, 0 ≤ i < codesz → rd m' (code + i) = rd m (code0 + i)).
Proof.
  intros [L1 [L2 L2'] L3 L4 L5 L6 L7] [A [B1 B2] C D E] ids boot Hn Hup.
  assert (Hoth : ∀ i l, (length (others boot i l) ≤ length l)%nat).
  { intros i x. revert i. induction x as [|y x IH]; intros i; [done|]. cbn [others length]. destruct (i =? boot); [|cbn [length]];
      pose proof (IH (i + 1)); lia. }
  destruct (startothers_run kend comes_up code0 codesz mpenter_addr entrypgdir_addr boot ids (Kctx [] w) (get_main s) l)
    as (t & stacks & l1 & R & Hl & Hnd & Hf1 & Hlen & Hlog & Hvm & Hlow & Hcode); try done; try lia; [apply not_elem_of_nil|apply A| |].
  { pose proof (Hoth 0 ids). change NCPU with 8%nat in Hn. lia. }
  set (k1 := set_kvm (m_vm t) (mc_k s)).
  destruct (kinit2_run kend (Kctx [] w) (km (m_vm t)) l1 Hf1 ltac:(apply not_elem_of_nil) L2) as (s2 & l2 & R2 & Hf2 & Hn2 & Hq2 & Hx2).
  { intros q Hq. apply B2. set_solver. }
  set (v2 := set_km s2 (m_vm t)).
  assert (Hc1 : con (m_vm t) = console (k_fs (mc_k s))) by (rewrite Hvm; done).
  assert (Hvv : ∀ v, con v = console (k_fs (mc_k s)) → put_vm v (mc_k s) = set_kvm v (mc_k s))
    by (intros v Hv; unfold put_vm, set_kvm; rewrite Hv; by destruct (k_fs (mc_k s))).
  exists (set_kvm v2 (mc_k s)), (m_lapic t), stacks, (vmem v2), (l2 ++ l1). split_and!; try done.
  - intros rest.
    assert (E1 : startothers comes_up code0 codesz mpenter_addr entrypgdir_addr (Kctx [] w) s = Done tt (Kctx [] w) (put_main t s)).
    { unfold startothers. mb (gets_eq cpunum (Kctx [] w) s).
      mb (gets_eq (λ s : machine, take (ncpu (mc_mp s)) (cpu_ids (mc_mp s))) (Kctx [] w) s). by apply zoom_Done. }
    mb E1. unfold put_main. rewrite Hvv by done. rewrite Hlog. fold k1.
    match goal with |- (ink _ ≫= _) _ ?x = _ => assert (E2 : ink (invm (inkm (kinit2 kend EARLY (p2v PHYSTOP)))) (Kctx [] w) x =
      Done tt (Kctx [] w) (set_k (set_kvm v2 k1) x)) end.
    { apply ink_run, invm_run; [|done]. cbn [mc_k]. unfold k1. rewrite get_vm_kvm by done. by apply zoom_Done. }
    mb E2. done.
  - apply (kmap_step kend kdata (k_vm (mc_k s)) _ l); try done.
    + change (kpgdir (m_vm t) = kpgdir (k_vm (mc_k s))). by rewrite Hvm.
    + change (cr3 (m_vm t) = cr3 (k_vm (mc_k s))). by rewrite Hvm.
    + intros q [Hq|Hq]%elem_of_app; [right; by apply Hq2|left; set_solver].
    + intros q [Hq0 _] Hr Hql a Ha. change (rd (kmem_mem s2) a = rd (vmem (k_vm (mc_k s))) a).
      assert (Hqe : q + PGSIZE ≤ EARLY).
      { change EARLY with (0x80400 * PGSIZE) in *. pose proof (Z.div_mod q PGSIZE ltac:(done)). unfold PGSIZE in *. lia. }
      rewrite Hx2 by lia. apply Hlow. lia.
  - rewrite length_app. lia.
  - intros a Ha Hna. change (rd (kmem_mem s2) a = rd m a). rewrite Hx2 by lia. rewrite <- C. apply Hlow. done.
  - intros i Hi. change (rd (kmem_mem s2) (code + i) = rd m (code0 + i)).
    rewrite Hx2 by lia. rewrite <- C. by apply Hcode.
Qed.

Lemma no_inodes fs : icache fs = replicate NINODE inode0 → icache_ok fs ∧ ∀ i, i_ref (thei i fs) = 0.
Proof.
  intros E. assert (H0 : ∀ i, i_ref (thei i fs) = 0).
  { intros i. unfold thei, nthz. rewrite E. destruct (replicate NINODE inode0 !! i) as [x|] eqn:Ex; [|done].
    by apply lookup_replicate in Ex as [-> _]. }
  split; [|done]. split; [by rewrite E|intros i; rewrite H0; lia|intros i j; rewrite H0; lia].
Qed.

(** The first process in slot 0: its address space is the kernel's part and one page with
    the code of initcode.S, and its current directory is the root. *)
Record first_ready (m : mem) (k : kst) : Prop := FirstReady {
  fr_slot : k_initproc k = Some 0%nat ∧ length (k_procs k) = NPROC ∧ ∀ j, (0 < j < NPROC)%nat → p_state (thep j k) = UNUSED;
  fr_proc : let p := thep 0 k in p_state p = RUNNABLE ∧ p_pid p = 1 ∧ p_sz p = PGSIZE ∧ p_tf p = user_tf ∧
    p_context p = p_kstack p + KSTACKSIZE - sizeof_trapframe - 4 - sizeof_context ∧ p_killed p = false;
  fr_space : ∃ page, (∀ va, 0 ≤ va < 2 ^ 32 → pte (vmem (k_vm k)) (p_pgdir (thep 0 k)) va =
      if va <? PGSIZE then entry (v2p page) USER else kernel_pte kdata va) ∧
    ∀ i, 0 ≤ i < PGSIZE → rd (vmem (k_vm k)) (page + i) = if i <? initsz then rd m (init + i) else 0;
  fr_cwd : ∃ ip, p_cwd (thep 0 k) = Some ip ∧ i_dev (thei ip (k_fs k)) = ROOTDEV ∧ i_inum (thei ip (k_fs k)) = ROOTINO ∧
    i_ref (thei ip (k_fs k)) = 1
}.

Lemma boot_first m l w k : linked → kmap_ok kend kdata (k_vm k) l → con (k_vm k) = console (k_fs k) → (68 ≤ length l)%nat →
  vmem (k_vm k) = m → k_procs k = replicate NPROC proc0 ∧ k_nextpid k = 1 ∧ icache (k_fs k) = replicate NINODE inode0 →
  ∃ k', userinit kdata forkret_addr trapret_addr init initsz (Kctx [] w) k = Done tt (Kctx [] w) k' ∧ first_ready m k' ∧
    (∃ l', kmap_ok kend kdata (k_vm k') l') ∧ lg (k_fs k') = lg (k_fs k) ∧ console (k_fs k') = console (k_fs k) ∧
    ∀ a, KERNBASE ≤ a < kend → rd (vmem (k_vm k')) a = rd m a.
Proof.
  intros [L1 [L2 L2'] L3 L4 (L5 & L5' & L5'' & _) L6 L7] Hm Hc Hl <- (P1 & P2 & P3).
  destruct l as [|stack [|d l]]; [cbn in Hl; lia..|]. destruct (no_inodes _ P3) as [Hic Hz].
  assert (Hf : free_pages kend (km (k_vm k)) (stack :: d :: l)) by apply Hm.
  destruct (userinit_run kend kdata L1 forkret_addr trapret_addr init initsz w k 0 stack d l) as
    (v & fs & cwd & page & l' & R & Hcw & Hg & Hv & Hok & Hll & Hpt & Hrd & Hfr); try done.
  { by rewrite P1. } { cbn in Hl; lia. } { change EARLY with 0x80400000 in *. lia. } { exists 0%nat. split; [change NINODE with 50%nat; lia|apply Hz]. }
  assert (Hlen : (0 < length (k_procs k))%nat) by (rewrite P1, length_replicate; change NPROC with 64%nat; lia).
  assert (Hp0 : thep 0 (updp 0 (first_proc stack (k_nextpid k) d cwd) k) = first_proc stack 1 d cwd proc0).
  { rewrite thep_updp, decide_True, P2 by done. unfold thep. by rewrite P1. }
  assert (Hlow : ∀ q, q < kend → q ∉ stack :: d :: l).
  { intros q Hq Hin. destruct Hf as (_ & _ & Hall). pose proof (proj1 (Forall_forall _ _) Hall q Hin) as (_ & ? & _). lia. }
  eexists. split; [exact R|]. split_and!; [split| | | |].
  - split_and!; [done| |].
    + change (length (k_procs (updp 0 (first_proc stack (k_nextpid k) d cwd) k)) = NPROC). by rewrite length_updp, P1.
    + intros j Hj. change (p_state (thep j (updp 0 (first_proc stack (k_nextpid k) d cwd) k)) = UNUSED).
      rewrite thep_updp, decide_False by lia. unfold thep. rewrite P1. unfold nthz.
      destruct (replicate NPROC proc0 !! j) as [x|] eqn:Ex; [|done]. by apply lookup_replicate in Ex as [-> _].
  - change (thep 0 (set_kfs _ _)) with (thep 0 (updp 0 (first_proc stack (k_nextpid k) d cwd) k)). rewrite Hp0. done.
  - change (thep 0 (set_kfs _ _)) with (thep 0 (updp 0 (first_proc stack (k_nextpid k) d cwd) k)). rewrite Hp0. by exists page.
  - change (thep 0 (set_kfs _ _)) with (thep 0 (updp 0 (first_proc stack (k_nextpid k) d cwd) k)). rewrite Hp0. exists cwd.
    destruct Hg as [_ [G1 G2] G3 G4 _ _ _]. split_and!; [done|done|done|].
    change (i_ref (thei cwd fs) = 1). rewrite G3, Hz. by destruct (refers _ _ _).
  - exists l'. apply (kmap_step kend kdata (k_vm k) v (stack :: d :: l)); try done.
    + by rewrite Hv.
    + by rewrite Hv.
    + apply Hok.
    + intros q Hq%Hll. left. set_solver.
    + intros q Hkq _ Hql. by apply Hfr.
  - apply Hg.
  - apply Hg.
  - intros a Ha. change EARLY with 0x80400000 in *. destruct (page_of a ltac:(lia)) as [Hq1 Hq2].
    apply (Hfr (PGROUNDDOWN a)); [done|apply Hlow; lia|done].
Qed.
Lemma set_kmem_id k : set_kmem (vmem (k_vm k)) k = k.
Proof. by destruct k as [fs [[]] pi fi pr cu np ip ti]. Qed.

(** The end of main(). *)
Lemma mpmain_run w (s : machine (disk := disk)) :
  screen_ok (console (k_fs (mc_k s))) → panicked (console (k_fs (mc_k s))) = false → 0 ≤ idt < 2 ^ 32 →
  ∃ c, mpmain idt (Kctx [] w) s = Done tt (Kctx [] w) (Machine (set_kfs (set_console c (k_fs (mc_k s))) (mc_k s)) (mc_mp s) (mc_lapic s)
    (mc_log s) (mc_gdtr s) (8 * 256 - 1, idt) (mc_gs s) (mc_gsbase s) (mc_chip s) (mc_pic s) (mc_io s) (mc_uart s) (mc_ide s) 1).
Proof.
  intros S1 S2 Hi. destruct (one_number (line "cpu%d: starting") (cpu_id s) (chars "cpu") (chars ": starting" ++ [NL]))
    as [F1 F2]; [reflexivity|apply (bool_decide_unpack _); by vm_compute..|].
  destruct (message_run _ _ w (mc_k s) S1 S2 F1 F2) as (c & R & _). exists c. unfold mpmain.
  mb (gets_eq cpu_id (Kctx [] w) s). mb (ink_run _ _ s _ _ _ R). unfold onseg. mmod. rewrite modify_eq. unfold put_seg, idtinit, lidt.
  rewrite pseudo_desc_eq by lia. cbn [sh_mem sh_gdtr sh_idtr sh_gs sh_gsbase mc_k get_seg set_k mc_mp mc_lapic mc_log mc_gdtr mc_gs
    mc_gsbase mc_chip mc_pic mc_io mc_uart mc_ide]. by rewrite set_kmem_id.
Qed.

(** ** The interrupts that are on *)

(** The keyboard's, the serial port's if there is one, the disk's, and the timer's of the
    old controller if there is no other. *)
Definition irqs (t b : bool) : list Z :=
  [IRQ_KBD] ++ (if t then [IRQ_COM1] else []) ++ [IRQ_IDE] ++ (if b then [] else [IRQ_TIMER]).
Definition routes (t : bool) (n : nat) : list (Z * Z) :=
  [(IRQ_KBD, 0)] ++ (if t then [(IRQ_COM1, 0)] else []) ++ [(IRQ_IDE, Z.of_nat n - 1)].

Lemma boot_pic b c io i : 0 ≤ i < 16 →
  let pic := (if b : bool then id else Timer.timerinit) (Pic.picenable IRQ_IDE
    (com1 b c (Pic.picenable IRQ_KBD (Pic.picinit Pic.start)) io).1) in
  Z.testbit (Pic.irqmask pic) i = negb (bool_decide (i = Pic.IRQ_SLAVE ∨ i ∈ irqs (Uart.there c) b)).
Proof.
  intros Hi. rewrite <- (Z2Nat.id i) by lia. assert (Hn : (Z.to_nat i < 16)%nat) by lia. revert Hn. generalize (Z.to_nat i). clear i Hi.
  unfold com1. destruct (Uart.there c), b; cbn [fst]; intros n Hn; do 16 (destruct n as [|n]; [by vm_compute|]); lia.
Qed.

Lemma boot_io n c pic d i : let maxintr := Z.land (Z.shiftr (default 0 (Ioapic.regs d !! Ioapic.REG_VER)) 16) 0xff in
  0 ≤ i ≤ maxintr →
  let d' := Ioapic.ioapicenable true IRQ_IDE (Z.of_nat n - 1) (com1 true c pic (Ioapic.ioapicenable true IRQ_KBD 0 (Ioapic.ioapicinit true d))).2 in
  match sent_to (routes (Uart.there c) n) i with
  | Some cpu => low d' i = Some (T_IRQ0 + i) ∧ high d' i = Some (u32 (Z.shiftl cpu 24))
  | None => ∃ v, low d' i = Some v ∧ has v Ioapic.INT_DISABLED = true
  end.
Proof.
  intros maxintr Hi d'. pose proof (ioapic_routes d (routes (Uart.there c) n) i Hi) as H. cbn zeta in H.
  replace (enable_all (routes (Uart.there c) n) (Ioapic.ioapicinit true d)) with d' in H
    by (unfold d', routes, com1; by destruct (Uart.there c)).
  destruct (sent_to _ i); [|done]. split; apply H.
Qed.
(** ** What main() leaves behind *)

Record booted (mp : mpst) (s0 s : machine (disk := disk)) : Prop := Booted {
  (** the kernel's page table is in use *)
  bt_paging : let v := k_vm (mc_k s) in cr3 v = v2p (kpgdir v) ∧
    ∀ va, 0 ≤ va < 2 ^ 32 → pte (memory s) (kpgdir v) va = kernel_pte kdata va;
  (** this processor has its segments, %gs at its own structure *)
  bt_segments : let c := cpus + sizeof_cpu * boot_cpu mp s0 in
    mc_gdtr s = (8 * NSEGS - 1, c + cpu_gdt) ∧ mc_gsbase s = c + cpu_cpu ∧ load32 (memory s) (c + cpu_cpu) = c ∧
    flat (load_seg (memory s) (c + cpu_gdt + 8 * SEG_KCODE)) (Z.lor STA_X STA_R) 0 ∧
    flat (load_seg (memory s) (c + cpu_gdt + 8 * SEG_UCODE)) (Z.lor STA_X STA_R) DPL_USER ∧
    flat (load_seg (memory s) (c + cpu_gdt + 8 * SEG_UDATA)) STA_W DPL_USER;
  (** every vector has its gate, and user code may use that of system calls only *)
  bt_traps : mc_idtr s = (8 * 256 - 1, idt) ∧ ∀ n, 0 ≤ n < 256 → let g := load_gate (memory s) (idt + 8 * n) in
    gate_offset g = vectors n ∧ gd_cs g = 8 * SEG_KCODE ∧ gd_p g = 1 ∧ (DPL_USER ≤ gd_dpl g ↔ n = T_SYSCALL);
  (** the other processors were started, with the code of entryother.S and a stack each *)
  bt_others : let ids := take (ncpu mp) (cpu_ids mp) in let o := others (boot_cpu mp s0) 0 ids in
    (∃ stacks, NoDup stacks ∧ length stacks = length o ∧ mc_log s = zip_with (ap_start mpenter_addr entrypgdir_addr) o stacks) ∧
    ∀ i, 0 ≤ i < codesz → rd (memory s) (code + i) = rd (memory s0) (code0 + i);
  (** the interrupts of the devices are on, and no others *)
  bt_pic : ∀ i, 0 ≤ i < 16 → Z.testbit (Pic.irqmask (mc_pic s)) i =
    negb (bool_decide (i = Pic.IRQ_SLAVE ∨ i ∈ irqs (Uart.there (mc_chip s0)) (ismp mp)));
  bt_io : ismp mp = true → ∀ i, 0 ≤ i ≤ Z.land (Z.shiftr (default 0 (Ioapic.regs (mc_io s0) !! Ioapic.REG_VER)) 16) 0xff →
    match sent_to (routes (Uart.there (mc_chip s0)) (ncpu mp)) i with
    | Some cpu => low (mc_io s) i = Some (T_IRQ0 + i) ∧ high (mc_io s) i = Some (u32 (Z.shiftl cpu 24))
    | None => ∃ v, low (mc_io s) i = Some v ∧ has v Ioapic.INT_DISABLED = true
    end;
  (** the buffer cache is in order, the first process is ready, and this processor is up *)
  bt_cache : cache_ok [] (bst (lg (k_fs (mc_k s))));
  bt_first : first_ready (memory s0) (mc_k s);
  bt_started : mc_started s = 1
}.

Lemma first_ready_ext m m' k : (∀ i, 0 ≤ i < initsz → rd m (init + i) = rd m' (init + i)) → first_ready m k → first_ready m' k.
Proof.
  intros H [A B (page & C1 & C2) D]. split; [done|done| |done]. exists page. split; [done|]. intros i Hi. rewrite C2 by done.
  destruct (Z.ltb_spec i initsz); [apply H; lia|done].
Qed.
Lemma first_ready_console m k c : first_ready m k → first_ready m (set_kfs (set_console c (k_fs k)) k).
Proof. intros [A B C D]. by split. Qed.

(** The tables that seginit and tvinit wrote, in a memory that has the same bytes there. *)
Lemma boot_seg_tables mp (s : machine (disk := disk)) m mf h : linked → 0 ≤ boot_cpu mp s < Z.of_nat NCPU →
  sh_mem h = sh_mem (Segments.seginit cpus (boot_cpu mp s) (Seghw m (mc_gdtr s) (mc_idtr s) (mc_gs s) (mc_gsbase s))) →
  (∀ a, KERNLINK ≤ a < kend → rd mf a = rd (sh_mem (tvinit idt vectors h)) a) →
  let c := cpus + sizeof_cpu * boot_cpu mp s in
  load32 mf (c + cpu_cpu) = c ∧ flat (load_seg mf (c + cpu_gdt + 8 * SEG_KCODE)) (Z.lor STA_X STA_R) 0 ∧
  flat (load_seg mf (c + cpu_gdt + 8 * SEG_UCODE)) (Z.lor STA_X STA_R) DPL_USER ∧
  flat (load_seg mf (c + cpu_gdt + 8 * SEG_UDATA)) STA_W DPL_USER.
Proof.
  intros L Hb Hh Hf c. set (h1 := Segments.seginit _ _ _) in Hh.
  destruct (lk_end L) as [[_ Hke] _]. pose proof (lk_cpus L) as Hc. destruct (lk_idt L) as (_ & _ & Hap).
  unfold apart, KERNLINK, KERNBASE, EXTMEM in *. change sizeof_cpu with 192 in *. change (Z.of_nat NCPU) with 8 in *.
  change EARLY with 0x80400000 in *.
  assert (Hsame : ∀ a, c ≤ a < c + 192 → rd mf a = rd (sh_mem h1) a).
  { intros a Ha. rewrite Hf by lia. rewrite tvinit_other by lia. by rewrite Hh. }
  set (h0 := Seghw m _ _ _ _) in h1. assert (Hr : 0 ≤ c ∧ c + 192 ≤ 2 ^ 32) by lia.
  destruct (seginit_segments cpus (boot_cpu mp s) h0 (proj1 Hr) (proj2 Hr)) as (S1 & _ & S3 & S4 & _ & _ & _ & _ & _ & S5 & _).
  fold h1 in S1, S3, S4, S5. change (cpus + sizeof_cpu * boot_cpu mp s) with c in *.
  assert (Hg : (sh_gdtr h1).2 = c + cpu_gdt) by (unfold h1; by rewrite (Segments.seginit_eq cpus (boot_cpu mp s) h0 (proj1 Hr) (proj2 Hr))).
  rewrite Hg in S1, S3, S4.
  assert (Hl : ∀ i, 0 ≤ i < 8 → load_seg mf (c + cpu_gdt + 8 * i) = load_seg (sh_mem h1) (c + cpu_gdt + 8 * i)).
  { intros i Hi. apply load_seg_ext. intros j Hj. apply Hsame. change cpu_gdt with 112. lia. }
  rewrite !Hl by done. split_and!; [|exact S1|exact S3|exact S4].
  rewrite <- S5 at 2. apply load32_ext. intros j Hj. apply Hsame. change cpu_cpu with 180. lia.
Qed.

Lemma boot_gates mf h : linked → (∀ a, KERNLINK ≤ a < kend → rd mf a = rd (sh_mem (tvinit idt vectors h)) a) →
  ∀ n, 0 ≤ n < 256 → let g := load_gate mf (idt + 8 * n) in
  gate_offset g = vectors n ∧ gd_cs g = 8 * SEG_KCODE ∧ gd_p g = 1 ∧ (DPL_USER ≤ gd_dpl g ↔ n = T_SYSCALL).
Proof.
  intros L Hf n Hn. destruct (lk_end L) as [[_ Hke] _]. destruct (lk_idt L) as (H1 & H2 & _). destruct (lk_addrs L) as [Hv _].
  unfold KERNLINK, KERNBASE, EXTMEM in *. change EARLY with 0x80400000 in *.
  destruct (tvinit_gates idt vectors h ltac:(lia) ltac:(lia) Hv) as [_ G]. specialize (G n Hn). cbn zeta in G.
  assert (Ei : (sh_idtr (idtinit idt (tvinit idt vectors h))).2 = idt).
  { unfold idtinit, lidt. by rewrite pseudo_desc_eq by lia. }
  rewrite Ei in G. replace (load_gate mf (idt + 8 * n)) with (load_gate (sh_mem (idtinit idt (tvinit idt vectors h))) (idt + 8 * n)).
  { cbn zeta. split_and!; apply G. }
  unfold load_gate, load64. f_equal. f_equal. change (sh_mem (idtinit idt ?x)) with (sh_mem x).
  f_equal; [|f_equal]; apply load32_ext; intros j Hj; symmetry; apply Hf; lia.
Qed.
(** What main() copies is where the linker put it. *)
Lemma boot_image mp (s : machine (disk := disk)) m h x n a : linked → 0 ≤ boot_cpu mp s < Z.of_nat NCPU →
  sh_mem h = sh_mem (Segments.seginit cpus (boot_cpu mp s) (Seghw m (mc_gdtr s) (mc_idtr s) (mc_gs s) (mc_gsbase s))) →
  apart x n cpus (sizeof_cpu * Z.of_nat NCPU) → apart x n idt (8 * 256) → x ≤ a < x + n →
  rd (sh_mem (tvinit idt vectors h)) a = rd m a.
Proof.
  intros L Hb Hh A1 A2 Ha. unfold apart in *. destruct (lk_end L) as [[_ Hke] _]. pose proof (lk_cpus L) as Hc.
  unfold KERNLINK, KERNBASE, EXTMEM in *. change sizeof_cpu with 192 in *. change (Z.of_nat NCPU) with 8 in *. change EARLY with 0x80400000 in *.
  rewrite tvinit_other by lia. rewrite Hh.
  apply (seginit_segments cpus (boot_cpu mp s) (Seghw m (mc_gdtr s) (mc_idtr s) (mc_gs s) (mc_gsbase s)));
    change sizeof_cpu with 192; change cpu_gdt with 112; change cpu_cpu with 180; change cpu_thread with 188; lia.
Qed.

(** The parts put together: [h] is the processor before tvinit(), [u] the serial port after
    uartinit(), and [m'] the memory userinit() starts with. *)
Lemma booted_intro mp (s s' : machine (disk := disk)) m m' h u k l stacks c : linked → loaded mp s →
  let boot := boot_cpu mp s in let o := others boot 0 (take (ncpu mp) (cpu_ids mp)) in
  let h1 := Segments.seginit cpus boot (Seghw m (mc_gdtr s) (mc_idtr s) (mc_gs s) (mc_gsbase s)) in
  let io := Ioapic.ioapicenable (ismp mp) IRQ_KBD 0 (Ioapic.ioapicinit (ismp mp) (mc_io s)) in
  (∀ a, KERNBASE ≤ a < kend → rd m a = rd (memory s) a) → sh_mem h = sh_mem h1 →
  (∀ a, KERNBASE ≤ a < kend → ¬ (code - 12 ≤ a < code + codesz) → rd m' a = rd (sh_mem (tvinit idt vectors h)) a) →
  (∀ j, 0 ≤ j < codesz → rd m' (code + j) = rd (sh_mem (tvinit idt vectors h)) (code0 + j)) →
  (Uart.u_pic u, Uart.u_io u) = com1 (ismp mp) (mc_chip s) (Pic.picenable IRQ_KBD (Pic.picinit Pic.start)) io →
  NoDup stacks → length stacks = length o → first_ready m' k → kmap_ok kend kdata (k_vm k) l → cache_ok [] (bst (lg (k_fs k))) →
  (∀ a, KERNBASE ≤ a < kend → rd (vmem (k_vm k)) a = rd m' a) →
  mc_k s' = set_kfs (set_console c (k_fs k)) k → mc_log s' = zip_with (ap_start mpenter_addr entrypgdir_addr) o stacks →
  mc_gdtr s' = sh_gdtr h1 → mc_idtr s' = (8 * 256 - 1, idt) → mc_gsbase s' = sh_gsbase h1 → mc_started s' = 1 →
  mc_pic s' = (if ismp mp then id else Timer.timerinit) (Pic.picenable IRQ_IDE (Uart.u_pic u)) →
  mc_io s' = Ioapic.ioapicenable (ismp mp) IRQ_IDE (Z.of_nat (ncpu mp) - 1) (Uart.u_io u) → booted mp s s'.
Proof.
  intros L D boot o h1 io Hm Hh Hkeep Hcode Hirq Hnd Hlen F M Hc Hlow.
  destruct s' as [k' mp' d' log' gd' id' gs' gb' ch' pic' io' ua' ide' st']. cbn [mc_k mc_log mc_gdtr mc_idtr mc_gsbase mc_started mc_pic mc_io].
  intros -> -> -> -> -> -> -> ->. pose proof (proj1 (proj2 (ld_cpus _ _ D))) as Hb.
  destruct (lk_code L) as (C1 & C2 & C3 & C4 & C5 & C6). destruct (lk_init L) as (I1 & I2 & I3 & I4 & I5).
  assert (Hfin : ∀ a, KERNLINK ≤ a < kend → rd (vmem (k_vm k)) a = rd (sh_mem (tvinit idt vectors h)) a).
  { intros a Ha. unfold KERNLINK, EXTMEM in *. rewrite Hlow by lia. apply Hkeep; lia. }
  destruct (boot_seg_tables mp s m (vmem (k_vm k)) h L Hb Hh Hfin) as (T1 & T2 & T3 & T4).
  assert (Eh : sh_gdtr h1 = (8 * NSEGS - 1, cpus + sizeof_cpu * boot + cpu_gdt) ∧ sh_gsbase h1 = cpus + sizeof_cpu * boot + cpu_cpu).
  { unfold h1. rewrite Segments.seginit_eq; [done|..]; pose proof (lk_cpus L); pose proof (lk_end L); fold boot in Hb;
      unfold KERNLINK, KERNBASE, EXTMEM in *; change sizeof_cpu with 192 in *; change (Z.of_nat NCPU) with 8 in *;
      change EARLY with 0x80400000 in *; lia. }
  split.
  - split; apply M.
  - split_and!; [apply Eh|apply Eh|done..].
  - split; [done|]. by apply (boot_gates _ h).
  - split; [by exists stacks|]. intros j Hj. change (rd (vmem (k_vm k)) (code + j) = rd (memory s) (code0 + j)).
    change code with 0x80007000 in *. unfold KERNLINK, KERNBASE, EXTMEM in *. rewrite Hlow, Hcode by lia.
    rewrite (boot_image mp s m h code0 codesz) by (done || lia). apply Hm. lia.
  - intros j Hj. pose proof (boot_pic (ismp mp) (mc_chip s) io j Hj) as H. cbn zeta in H. rewrite <- Hirq in H. exact H.
  - intros Hmp j Hj. pose proof (boot_io (ncpu mp) (mc_chip s) (Pic.picenable IRQ_KBD (Pic.picinit Pic.start)) (mc_io s) j Hj) as H.
    cbn zeta in H. unfold io in Hirq. rewrite Hmp in *. rewrite <- Hirq in H. exact H.
  - exact Hc.
  - apply first_ready_console. apply (first_ready_ext m'); [|done]. intros j Hj. unfold KERNLINK, EXTMEM in *.
    rewrite Hkeep by lia. rewrite (boot_image mp s m h init initsz) by (done || lia). apply Hm. lia.
  - done.
Qed.

(** C4: The start of the kernel.  Let the kernel be linked so that 73 pages are left below 4
    megabytes, and loaded with its variables zero; let mpinit find [mp] in the tables below
    the end of the kernel, and let the other processors come up when they are started.
    Then main() comes to the call of scheduler() without a panic, and there: the kernel's
    page table is in use and maps every address as the table of its segments says; this
    processor has its segments, with %gs at its own structure, and a gate for each of the
    256 vectors; every other processor was started once, with the code of entryother.S,
    mpenter as its entry and a stack of its own; the interrupts of the keyboard, the serial
    port and the disk are on and go where they should, and no others are; the buffer cache
    satisfies its invariant; and the one process is the first, ready to run the code of
    initcode.S in a page of its own with the root as its directory. *)
Theorem main_boots (mp : mpst) (w : list chan) (s : machine (disk := disk)) : linked → loaded mp s →
  ∃ s', main kend kdata cpus idt vectors comes_up code0 codesz mpenter_addr entrypgdir_addr forkret_addr trapret_addr init initsz
      imcr statuses (Kctx [] w) s = Done tt (Kctx [] w) s' ∧ booted mp s s'.
Proof.
  intros L D. pose proof D as [_ _ _ _ (DP & DL & DU) D6 (DC1 & DC2 & DC3)].
  destruct (boot_memory mp w s L D) as (m & l & k1 & d & R1 & Hm & K1 & Hcpu & Hb1).
  set (h1 := Segments.seginit _ _ _) in *. set (s1 := Machine k1 _ _ _ _ _ _ _ _ _ _ _ _ _) in *.
  destruct (boot_console (sh_mem h1) l w s1 K1 DU) as (k2 & u & R2 & Hirq & K2 & Hlg).
  change (mc_pic s1) with (mc_pic s) in Hirq. rewrite DP in Hirq. set (s2 := put_uart u (set_k k2 s1)) in *.
  destruct (boot_tables (sh_mem h1) l w s2 L K2) as (k3 & i & R3 & K3 & Hc3).
  { change (no_buffers (bst (lg (k_fs k2)))). by rewrite Hlg. }
  set (s3 := Machine k3 _ _ _ _ _ _ _ _ _ _ _ _ _) in *. set (h3 := get_seg s2) in *.
  destruct (boot_others (sh_mem (tvinit idt vectors h3)) l w s3 L K3) as
    (k4 & d4 & stacks & m' & l' & R4 & Hnd & Hlen & Hk4 & Hcon & Hmap & Hl' & Hm4 & Hkeep & Hcode).
  { pose proof (mpinit_length _ _ _ _ _ (D6 (memory s) (λ _ _, eq_refl))). change (mc_mp s3) with mp. rewrite length_take. lia. }
  { exact DC3. }
  set (s4 := Machine k4 _ _ _ _ _ _ _ _ _ _ _ _ _) in *. destruct K3 as [_ _ _ N3 S3].
  destruct (boot_first m' l' w k4 L Hmap Hcon Hl' Hm4) as (k5 & R5 & F5 & (l5 & M5) & Hlg5 & Hcon5 & Hlow5); [by rewrite Hk4|].
  assert (Hs5 : screen_ok (console (k_fs k5)) ∧ panicked (console (k_fs k5)) = false) by (rewrite Hcon5, Hk4; exact S3).
  destruct (mpmain_run w (set_k k5 s4) (proj1 Hs5) (proj2 Hs5)) as (c & R6).
  { pose proof (lk_end L). pose proof (lk_idt L). unfold KERNLINK, KERNBASE, EXTMEM in *. change EARLY with 0x80400000 in *. lia. }
  eexists. split.
  { unfold main. rewrite R1, R2. fold s2. rewrite R3. fold s3. rewrite R4. fold s4. mb (ink_run _ _ s4 _ _ _ R5). exact R6. }
  change (cpunum s3) with (cpunum s1) in *. rewrite Hcpu in *.
  assert (Hc5 : cache_ok [] (bst (lg (k_fs k5)))) by (rewrite Hlg5, Hk4; exact Hc3).
  apply (booted_intro mp s _ m m' h3 u k5 l5 stacks c L D Hm (kb_mem _ _ _ K2) Hkeep Hcode Hirq Hnd Hlen F5 M5 Hc5 Hlow5); try reflexivity.
  change (mc_log s ++ zip_with (ap_start mpenter_addr entrypgdir_addr) (others (cpunum s1) 0 (take (ncpu mp) (cpu_ids mp))) stacks =
    zip_with (ap_start mpenter_addr entrypgdir_addr) (others (boot_cpu mp s) 0 (take (ncpu mp) (cpu_ids mp))) stacks).
  by rewrite DL, Hcpu.
Qed.
End boot.

(** ** A machine with two processors, the second of which starts *)

Definition demo_tables : mem :=
  place (place (place ∅ (p2v 0x40e) [0xc0; 0x9f])
    (p2v 0x9fc00) (fix_sum (MP_SIG ++ [0; 16; 15; 0; 1; 4]) [0; 0; 0; 0; 0]))
    (p2v 0xf1000)
    (fix_sum (PCMP_SIG ++ [100; 0; 4]) (replicate 28 0 ++ [0; 0; 224; 254] ++ replicate 4 0 ++ (demo_entries ≫= encode))).
Definition demo_found : mpst := Mpst 1 true 2 4 0xfee00000 ([0; 1] ++ replicate 6 0) [].
Definition demo_lapic : Lapic.lapic := Lapic.Lapic false {[Lapic.ID := Z.shiftl 1 24]} [] [] ∅.
Definition demo_kernel : kst :=
  Kst (Fsstate (Logstate (boot_bst 1000 ∅) 970 30 0 0 ROOTDEV 0 (replicate 30 0)) (replicate NINODE inode0) boot_cst)
      (Vst (Kmem false 0 demo_tables) boot_cst 0 0 0 0) ∅ [] (replicate NPROC proc0) 0 1 None 0.
Definition demo_machine : machine (disk := mapdisk) :=
  Machine demo_kernel mp0 demo_lapic [] (0, 0) (0, 0) 0 0 (Uart.Chip true 0 0 0 0 0 0 0 1 [] []) Pic.start
    (Ioapic.Ioapic 0 {[Ioapic.REG_VER := 0x170011]}) false demo_ide 0.

Lemma demo_mpinit m : (∀ a, KERNBASE ≤ a < Kalloc.demo_kend → rd m a = rd demo_tables a) → Mp.mpinit mp_fuel m 0 mp0 = Mdone demo_found.
Proof.
  change KERNBASE with 0x80000000. change Kalloc.demo_kend with 0x80120000. intros H.
  assert (Hl : ∀ a, 0x80000000 ≤ a < 0x8011fff0 → load32 m a = load32 demo_tables a)
    by (intros a Ha; apply load32_ext; intros j Hj; apply H; lia).
  assert (Hb : ∀ a n, 0x80000000 ≤ a → a + Z.of_nat n ≤ 0x80120000 → bytes_at m a n = bytes_at demo_tables a n)
    by (intros a n H1 H2; apply bytes_at_ext; intros; apply H; lia).
  assert (Hs : mpsearch m = Some 0x8009fc00).
  { unfold mpsearch. change (p2v 0x400) with 0x80000400. rewrite !H by lia.
    change (Z.shiftl (Z.lor _ _) 4) with 0x9fc00. change (negb (0x9fc00 =? 0)) with true. cbv iota.
    unfold mpsearch1. change (p2v 0x9fc00) with 0x8009fc00. rewrite (mpsearch_loop_ext m demo_tables).
    - by vm_compute.
    - intros a Ha. apply H. change (16 * Z.of_nat (Z.to_nat ((1024 + 15) `div` 16))) with 1024 in Ha. lia. }
  assert (Hc : mpconfig m = Some (0x8009fc00, 0x800f1000)).
  { unfold mpconfig, mp_physaddr. rewrite Hs, Hl by lia. change (load32 demo_tables (0x8009fc00 + 4)) with 0xf1000. cbn [Z.eqb].
    change (p2v 0xf1000) with 0x800f1000. unfold sum, conf_length, conf_version. rewrite !H by lia.
    rewrite Hb by lia. rewrite Hb by (vm_compute; congruence). by vm_compute. }
  unfold Mp.mpinit. rewrite Hc. unfold conf_lapicaddr, conf_length, mp_imcrp. rewrite Hl, !H by lia.
  change (rd demo_tables (0x800f1000 + 4)) with 100. change (rd demo_tables (0x800f1000 + 5)) with 0.
  rewrite (mp_entries_ext m demo_tables) by (intros a Ha; apply H; lia). by vm_compute.
Qed.

Lemma demo_linked : linked Kalloc.demo_kend demo_data 0x80112000 0x80114000 (λ n, 0x80106000 + 8 * n) 0x80108000 100 0x80103000 0x80116000 44.
Proof.
  split; [exact demo_data_ok|..].
  all: unfold apart, KERNLINK, KERNBASE, EXTMEM; change EARLY with 0x80400000; change Kalloc.demo_kend with 0x80120000;
    change sizeof_cpu with 192; change (Z.of_nat NCPU) with 8; change code with 0x80007000;
    try change (PGROUNDUP 0x80120000) with 0x80120000; unfold PGSIZE; try lia.
  split; [intros; lia|lia].
Qed.

Lemma demo_loaded : loaded Kalloc.demo_kend (λ _, true) 0 demo_found demo_machine.
Proof.
  split; try done.
  - split_and!; [done|constructor|constructor].
  - split; [done|]. exists 1000, ∅. split; [done|]. intros x. by rewrite lookup_empty.
  - split_and!; [done|done|]. intros _. cbn. lia.
  - apply demo_mpinit.
Qed.

Lemma main_boots_witness : ∃ s',
  main Kalloc.demo_kend demo_data 0x80112000 0x80114000 (λ n, 0x80106000 + 8 * n) (λ _, true) 0x80108000 100 0x80103000 0x80109000
    0x80101000 0x80102000 0x80116000 44 0 [] (Kctx [] []) demo_machine = Done tt (Kctx [] []) s' ∧
  mc_started s' = 1 ∧ p_state (thep 0 (mc_k s')) = RUNNABLE ∧ length (mc_log s') = 1%nat.
Proof.
  destruct (main_boots Kalloc.demo_kend demo_data 0x80112000 0x80114000 (λ n, 0x80106000 + 8 * n) (λ _, true) 0x80108000 100
    0x80103000 0x80109000 0x80101000 0x80102000 0x80116000 44 0 [] demo_found [] demo_machine demo_linked demo_loaded) as (s' & R & B).
  destruct B as [_ _ _ [(stacks & _ & Hl & El) _] _ _ _ [_ (Hp & _) _ _] Hs].
  exists s'. split; [exact R|]. split; [exact Hs|]. split; [exact Hp|]. rewrite El, length_zip_with, Hl. by vm_compute.
Defined.
