(* ===== verification/Os.v ===== *)
(** * The system as its programs see it

    The processes of User.v running side by side.  The world is what they share: the
    inodes with their names, the open files with their offsets, the pipes, the process
    table and the console.  A system call is one step of the world; a write to a pipe may
    take several, and a call that has to wait takes none.  Which process moves next is the
    scheduler's choice: [step i] is the step of the process in slot [i], and a schedule is
    a list of slots.

    [image] gives the program a file contains; [w_luck] says, for each call that needs
    memory or a table entry, whether it gets it.  sleep() may return at any time.  What the
    kernel itself prints is not part of the console's output here. *)

From stdpp Require Import base gmap list strings.
From Stdlib Require Import ZArith Lia.
From S2P Require Import Prelude Params Cstring Fs Pipe User.

(** ** Files and directories *)

Module Os.
(** A directory is the list of its entries; inode number 0 marks a free one. *)
Abbreviation slots := (list (nat * list Z)).
Inductive node : Type :=
| Reg (data : list Z)
| Dir (s : slots)
| Dev (major minor : Z).
Record ino : Type := Ino { n_body : node; n_link : Z }.
Abbreviation inodes := (gmap nat ino).

Definition ROOT : nat := 1.
Definition CONSOLE : Z := 1.
Definition DOT : list Z := [46].
Definition DOTDOT : list Z := [46; 46].

(** The entry of a name that is in use. *)
Fixpoint dirlookup (s : slots) (name : list Z) : option nat :=
  match s with
  | [] => None
  | (n, x) :: s => if bool_decide (n ≠ 0%nat ∧ x = name) then Some n else dirlookup s name
  end.
(** The first free entry, or a new one. *)
Fixpoint add_entry (s : slots) (name : list Z) (n : nat) : slots :=
  match s with
  | [] => [(n, name)]
  | (O, _) :: s => (n, name) :: s
  | e :: s => e :: add_entry s name n
  end.
Fixpoint del_entry (s : slots) (name : list Z) : slots :=
  match s with
  | [] => []
  | (n, x) :: s => if bool_decide (n ≠ 0%nat ∧ x = name) then (0%nat, []) :: s else (n, x) :: del_entry s name
  end.
Definition dirlink (s : slots) (name : list Z) (n : nat) : option slots :=
  match dirlookup s name with Some _ => None | None => Some (add_entry s name n) end.
(** isdirempty(): nothing in use behind . and .. *)
Definition isdirempty (s : slots) : bool := forallb (λ e, (e.1 =? 0)%nat) (drop 2 s).
(** What read() delivers of a directory. *)
Definition dir_bytes (s : slots) : list Z :=
  s ≫= λ e, put_dirent (Dirent (u16 (Z.of_nat e.1)) (strncpy_l DIRSIZ e.2)).

Definition slots_of (t : inodes) (n : nat) : option slots :=
  match t !! n with Some (Ino (Dir s) _) => Some s | _ => None end.

(** namex() of fs.c on the tree. *)
Fixpoint namex_loop (fuel : nat) (t : inodes) (path : list Z) (parent : bool) (name : list Z) (ip : nat)
  : option (nat * list Z) :=
  match fuel with
  | O => None
  | S f =>
    match skipelem path with
    | Some (name, path) =>
      match slots_of t ip with
      | None => None
      | Some s =>
        if parent && bool_decide (path = []) then Some (ip, name)
        else match dirlookup s name with None => None | Some n => namex_loop f t path parent name n end
      end
    | None => if parent then None else Some (ip, name)
    end
  end.
Definition namex (t : inodes) (cwd : nat) (path : list Z) (parent : bool) : option (nat * list Z) :=
  namex_loop (S (length path)) t path parent [] (if path.[0%nat] =? SLASH then ROOT else cwd).
Definition namei (t : inodes) (cwd : nat) (path : list Z) : option nat := fst <$> namex t cwd path false.

(** create(): an existing file will do when a file is wanted.  [next] is the number of the
    new inode. *)
Inductive wanted : Type := Wfile | Wdir | Wdev (major minor : Z).
Definition is_reg (t : inodes) (n : nat) : bool :=
  match t !! n with Some (Ino (Reg _) _) => true | _ => false end.
Definition new_node (k : wanted) (next dp : nat) : node :=
  match k with
  | Wfile => Reg []
  | Wdir => Dir [(next, DOT); (dp, DOTDOT)]
  | Wdev a b => Dev a b
  end.
Definition create (t : inodes) (next cwd : nat) (path : list Z) (k : wanted) : option (nat * inodes) :=
  match namex t cwd path true with
  | None => None
  | Some (dp, name) =>
    match t !! dp with
    | Some (Ino (Dir s) l) =>
      match dirlookup s name with
      | Some n => match k with Wfile => if is_reg t n then Some (n, t) else None | _ => None end
      | None =>
        let l := match k with Wdir => l + 1 | _ => l end in
        Some (next, <[dp := Ino (Dir (add_entry s name next)) l]> (<[next := Ino (new_node k next dp) 1]> t))
      end
    | _ => None
    end
  end.

Definition add_link (d : Z) (e : ino) : ino := Ino (n_body e) (n_link e + d).
Definition link (t : inodes) (cwd : nat) (old new : list Z) : option inodes :=
  match namei t cwd old with
  | None => None
  | Some n =>
    match slots_of t n with
    | Some _ => None
    | None =>
      match namex t cwd new true with
      | None => None
      | Some (dp, name) =>
        match t !! dp with
        | Some (Ino (Dir s) l) =>
          match dirlink s name n with
          | None => None
          | Some s => Some (alter (add_link 1) n (<[dp := Ino (Dir s) l]> t))
          end
        | _ => None
        end
      end
    end
  end.

Definition unlink (t : inodes) (cwd : nat) (path : list Z) : option inodes :=
  match namex t cwd path true with
  | None => None
  | Some (dp, name) =>
    if bool_decide (name = DOT) || bool_decide (name = DOTDOT) then None
    else
      match t !! dp with
      | Some (Ino (Dir s) l) =>
        match dirlookup s name with
        | None => None
        | Some n =>
          match slots_of t n with
          | Some s' =>
            if isdirempty s' then
              Some (alter (add_link (-1)) n (<[dp := Ino (Dir (del_entry s name)) (l - 1)]> t))
            else None
          | None => Some (alter (add_link (-1)) n (<[dp := Ino (Dir (del_entry s name)) l]> t))
          end
        end
      | _ => None
      end
  end.

(** ** The world *)

(** struct file: what it refers to, its modes, its offset, and the descriptors that share it. *)
Inductive fobj : Type := OInode (n : nat) | OPipe (n : nat).
Record ofile : Type := OFile { f_obj : fobj; f_r : bool; f_w : bool; f_off : nat; f_ref : nat }.
(** A pipe: what is in it, and which ends are open. *)
Record opipe : Type := Opipe { q_data : list Z; q_r : bool; q_w : bool }.
(** A process: descriptors, current directory, memory up to [p_sz] with the page below the
    stack inaccessible. *)
Record prc : Type := Prc {
  p_fds : list (option nat);
  p_cwd : nat;
  p_id : Z;
  p_parent : nat;
  p_sz : Z;
  p_guard : Z;
  p_mem : gmap Z Z;
  p_killed : bool;
  p_zombie : bool;
}.
Record world : Type := World {
  w_ino : inodes;
  w_next : nat;
  w_files : gmap nat ofile;
  w_pipes : gmap nat opipe;
  w_fresh : nat;
  w_procs : list (option prc);
  w_pid : Z;
  w_in : list Z;
  w_out : list Z;
  w_luck : nat → bool;
  w_calls : nat;
}.
Definition set_ino (x : inodes) (w : world) : world :=
  World x (w_next w) (w_files w) (w_pipes w) (w_fresh w) (w_procs w) (w_pid w) (w_in w) (w_out w) (w_luck w) (w_calls w).
Definition set_next (x : nat) (w : world) : world :=
  World (w_ino w) x (w_files w) (w_pipes w) (w_fresh w) (w_procs w) (w_pid w) (w_in w) (w_out w) (w_luck w) (w_calls w).
Definition set_files (x : gmap nat ofile) (w : world) : world :=
  World (w_ino w) (w_next w) x (w_pipes w) (w_fresh w) (w_procs w) (w_pid w) (w_in w) (w_out w) (w_luck w) (w_calls w).
Definition set_pipes (x : gmap nat opipe) (w : world) : world :=
  World (w_ino w) (w_next w) (w_files w) x (w_fresh w) (w_procs w) (w_pid w) (w_in w) (w_out w) (w_luck w) (w_calls w).
Definition set_fresh (x : nat) (w : world) : world :=
  World (w_ino w) (w_next w) (w_files w) (w_pipes w) x (w_procs w) (w_pid w) (w_in w) (w_out w) (w_luck w) (w_calls w).
Definition set_procs (x : list (option prc)) (w : world) : world :=
  World (w_ino w) (w_next w) (w_files w) (w_pipes w) (w_fresh w) x (w_pid w) (w_in w) (w_out w) (w_luck w) (w_calls w).
Definition set_pid (x : Z) (w : world) : world :=
  World (w_ino w) (w_next w) (w_files w) (w_pipes w) (w_fresh w) (w_procs w) x (w_in w) (w_out w) (w_luck w) (w_calls w).
Definition set_in (x : list Z) (w : world) : world :=
  World (w_ino w) (w_next w) (w_files w) (w_pipes w) (w_fresh w) (w_procs w) (w_pid w) x (w_out w) (w_luck w) (w_calls w).
Definition set_out (x : list Z) (w : world) : world :=
  World (w_ino w) (w_next w) (w_files w) (w_pipes w) (w_fresh w) (w_procs w) (w_pid w) (w_in w) x (w_luck w) (w_calls w).
Definition set_calls (x : nat) (w : world) : world :=
  World (w_ino w) (w_next w) (w_files w) (w_pipes w) (w_fresh w) (w_procs w) (w_pid w) (w_in w) (w_out w) (w_luck w) x.

Definition set_fds (x : list (option nat)) (p : prc) : prc :=
  Prc x (p_cwd p) (p_id p) (p_parent p) (p_sz p) (p_guard p) (p_mem p) (p_killed p) (p_zombie p).
Definition set_cwd (x : nat) (p : prc) : prc :=
  Prc (p_fds p) x (p_id p) (p_parent p) (p_sz p) (p_guard p) (p_mem p) (p_killed p) (p_zombie p).
Definition set_parent (x : nat) (p : prc) : prc :=
  Prc (p_fds p) (p_cwd p) (p_id p) x (p_sz p) (p_guard p) (p_mem p) (p_killed p) (p_zombie p).
Definition set_space (sz guard : Z) (m : gmap Z Z) (p : prc) : prc :=
  Prc (p_fds p) (p_cwd p) (p_id p) (p_parent p) sz guard m (p_killed p) (p_zombie p).
Definition set_killed (p : prc) : prc :=
  Prc (p_fds p) (p_cwd p) (p_id p) (p_parent p) (p_sz p) (p_guard p) (p_mem p) true (p_zombie p).
Definition set_zombie (p : prc) : prc :=
  Prc (p_fds p) (p_cwd p) (p_id p) (p_parent p) (p_sz p) (p_guard p) (p_mem p) (p_killed p) true.

Definition proc_at (w : world) (i : nat) : option prc := default None (w_procs w !! i).
Definition put_proc (i : nat) (p : prc) (w : world) : world := set_procs (<[i := Some p]> (w_procs w)) w.
(** Whether the call that is made now gets what it needs, and the world after it. *)
Definition lucky (w : world) : bool * world := (w_luck w (w_calls w), set_calls (S (w_calls w)) w).

Fixpoint free_slot {A} (l : list (option A)) (i : nat) : option nat :=
  match l with
  | [] => None
  | None :: _ => Some i
  | Some _ :: l => free_slot l (S i)
  end.
Definition fd_file (p : prc) (fd : Z) : option nat :=
  if fd <? 0 then None else default None (p_fds p !! Z.to_nat fd).

(** ** Open files *)

(** filedup() and fileclose(); the last close of an end closes it for the pipe. *)
Definition filedup (f : nat) (w : world) : world :=
  set_files (alter (λ x, OFile (f_obj x) (f_r x) (f_w x) (f_off x) (S (f_ref x))) f (w_files w)) w.
Definition pipeclose (n : nat) (writable : bool) (w : world) : world :=
  set_pipes (alter (λ q, if writable then Opipe (q_data q) (q_r q) false
                         else Opipe (q_data q) false (q_w q)) n (w_pipes w)) w.
Definition fileclose (f : nat) (w : world) : world :=
  match w_files w !! f with
  | None => w
  | Some x =>
    match f_ref x with
    | S (S r) => set_files (<[f := OFile (f_obj x) (f_r x) (f_w x) (f_off x) (S r)]> (w_files w)) w
    | _ =>
      let w := set_files (delete f (w_files w)) w in
      match f_obj x with OPipe n => pipeclose n (f_w x) w | OInode _ => w end
    end
  end.
Fixpoint close_all (fds : list (option nat)) (w : world) : world :=
  match fds with
  | [] => w
  | Some f :: fds => close_all fds (fileclose f w)
  | None :: fds => close_all fds w
  end.
Fixpoint dup_all (fds : list (option nat)) (w : world) : world :=
  match fds with
  | [] => w
  | Some f :: fds => dup_all fds (filedup f w)
  | None :: fds => dup_all fds w
  end.

(** The answer of a call: it is done, a write has got on to [io] bytes, or it waits. *)
Inductive res (X : Type) : Type :=
| Done (x : X) (w : world)
| Partly (io : nat) (w : world)
| Wait.
Arguments Done {X} _ _.
Arguments Partly {X} _ _.
Arguments Wait {X}.

Definition move_off (f : nat) (x : ofile) (n : nat) (w : world) : world :=
  set_files (<[f := OFile (f_obj x) (f_r x) (f_w x) (f_off x + n)%nat (f_ref x)]> (w_files w)) w.

Definition read_pipe (n : nat) (k : nat) (w : world) : res (option (list Z)) :=
  match w_pipes w !! n with
  | None => Done None w
  | Some q =>
    match q_data q with
    | [] => if q_w q then Wait else Done (Some []) w
    | d => Done (Some (take k d)) (set_pipes (<[n := Opipe (drop k d) (q_r q) (q_w q)]> (w_pipes w)) w)
    end
  end.
Definition read_inode (n : nat) (f : nat) (x : ofile) (k : nat) (w : world) : res (option (list Z)) :=
  match n_body <$> w_ino w !! n with
  | Some (Reg d) => let b := take k (drop (f_off x) d) in Done (Some b) (move_off f x (length b) w)
  | Some (Dir s) => let b := take k (drop (f_off x) (dir_bytes s)) in Done (Some b) (move_off f x (length b) w)
  | Some (Dev major _) =>
    if major =? CONSOLE then
      match w_in w with
      | [] => Wait
      | l => let b := typed k l in Done (Some b) (move_off f x (length b) (set_in (drop (length b) l) w))
      end
    else Done None w
  | None => Done None w
  end.
Definition read (p : prc) (fd n : Z) (w : world) : res (option (list Z)) :=
  match fd_file p fd with
  | None => Done None w
  | Some f =>
    match w_files w !! f with
    | None => Done None w
    | Some x =>
      if negb (f_r x) then Done None w
      else match f_obj x with
           | OPipe m => read_pipe m (Z.to_nat n) w
           | OInode m => read_inode m f x (Z.to_nat n) w
           end
    end
  end.

(** pipewrite(): [io] bytes are in already; the reader is missed only when the pipe is full. *)
Definition write_pipe (n : nat) (b : list Z) (io : nat) (w : world) : res Z :=
  match w_pipes w !! n with
  | None => Done (-1) w
  | Some q =>
    let rest := drop io b in
    let room := PIPESIZE - Z.of_nat (length (q_data q)) in
    let w' := set_pipes (<[n := Opipe (q_data q ++ take (Z.to_nat room) rest) (q_r q) (q_w q)]> (w_pipes w)) w in
    if Z.of_nat (length rest) <=? room then Done (Z.of_nat (length b)) w'
    else if room =? 0 then if q_r q then Wait else Done (-1) w
    else Partly (io + Z.to_nat room) w'
  end.
(** filewrite() writes [filewrite_max] bytes at a time, and writei() nothing of a piece that
    would end behind the largest file. *)
Definition CHUNK : Z := (LOGSIZE - 1 - 1 - 2) / 2 * 512.
Definition FILEMAX : Z := MAXFILE * BSIZE.
Definition put_data (n : nat) (d : list Z) (w : world) : world :=
  set_ino (alter (λ e, Ino (Reg d) (n_link e)) n (w_ino w)) w.
Definition write_inode (n : nat) (f : nat) (x : ofile) (b : list Z) (w : world) : res Z :=
  match n_body <$> w_ino w !! n with
  | Some (Reg d) =>
    let room := FILEMAX - Z.of_nat (f_off x) in
    if Z.of_nat (length b) <=? room then
      Done (Z.of_nat (length b)) (move_off f x (length b) (put_data n (splice d (f_off x) b) w))
    else
      let k := Z.to_nat (room / CHUNK * CHUNK) in
      Done (-1) (move_off f x k (put_data n (splice d (f_off x) (take k b)) w))
  | Some (Dev major _) =>
    if major =? CONSOLE then Done (Z.of_nat (length b)) (move_off f x (length b) (set_out (w_out w ++ b) w))
    else Done (-1) w
  | _ => Done (-1) w
  end.
Definition write (p : prc) (fd : Z) (b : list Z) (io : nat) (w : world) : res Z :=
  match fd_file p fd with
  | None => Done (-1) w
  | Some f =>
    match w_files w !! f with
    | None => Done (-1) w
    | Some x =>
      if negb (f_w x) then Done (-1) w
      else match f_obj x with
           | OPipe m => write_pipe m b io w
           | OInode m => write_inode m f x b w
           end
    end
  end.

(** A new open file in descriptor [fd] of process [i]. *)
Definition install (i : nat) (p : prc) (fd : nat) (x : ofile) (w : world) : world :=
  let f := w_fresh w in
  put_proc i (set_fds (<[fd := Some f]> (p_fds p)) p) (set_fresh (S f) (set_files (<[f := x]> (w_files w)) w)).

(** sys_open(): the inode first, then the file and the descriptor. *)
Definition open_inode (p : prc) (path : list Z) (mode : Z) (w : world) : option (nat * world) :=
  if has mode O_CREATE then
    (λ r, (r.1, set_next (S (w_next w)) (set_ino r.2 w))) <$> create (w_ino w) (w_next w) (p_cwd p) path Wfile
  else
    n ← namei (w_ino w) (p_cwd p) path;
    match slots_of (w_ino w) n with
    | Some _ => if mode =? O_RDONLY then Some (n, w) else None
    | None => Some (n, w)
    end.
Definition open (i : nat) (p : prc) (path : list Z) (mode : Z) (w : world) : Z * world :=
  match open_inode p path mode w with
  | None => (-1, w)
  | Some (n, w) =>
    let '(ok, w) := lucky w in
    match free_slot (p_fds p) 0 with
    | Some fd =>
      if ok then (Z.of_nat fd, install i p fd (OFile (OInode n) (readable mode) (writable mode) 0 1) w)
      else (-1, w)
    | None => (-1, w)
    end
  end.

Definition pipe (i : nat) (p : prc) (w : world) : option (Z * Z) * world :=
  let '(ok, w) := lucky w in
  if ok then
    match free_slot (p_fds p) 0 with
    | None => (None, w)
    | Some a =>
      match free_slot (<[a := Some 0%nat]> (p_fds p)) 0 with
      | None => (None, w)
      | Some b =>
        let n := w_fresh w in
        let w := set_pipes (<[n := Opipe [] true true]> (w_pipes w)) w in
        let fs := <[n := OFile (OPipe n) true false 0 1]> (<[S n := OFile (OPipe n) false true 0 1]> (w_files w)) in
        (Some (Z.of_nat a, Z.of_nat b),
         put_proc i (set_fds (<[b := Some (S n)]> (<[a := Some n]> (p_fds p))) p)
           (set_fresh (S (S n)) (set_files fs w)))
      end
    end
  else (None, w).

Definition fstat (p : prc) (fd : Z) (w : world) : option ustat :=
  f ← fd_file p fd;
  x ← w_files w !! f;
  match f_obj x with
  | OPipe _ => None
  | OInode n =>
    e ← w_ino w !! n;
    Some (match n_body e with
          | Reg d => Ustat T_FILE (Z.of_nat n) (Z.of_nat (length d))
          | Dir s => Ustat T_DIR (Z.of_nat n) (16 * Z.of_nat (length s))
          | Dev _ _ => Ustat T_DEV (Z.of_nat n) 0
          end)
  end.

(** ** Processes *)

Definition is_child (i : nat) (q : option prc) : bool :=
  match q with Some q => (p_parent q =? i)%nat | None => false end.
(** The first child of [i] that is a zombie. *)
Fixpoint find_zombie (i : nat) (l : list (option prc)) (j : nat) : option (nat * Z) :=
  match l with
  | [] => None
  | Some q :: l =>
    if (p_parent q =? i)%nat && p_zombie q then Some (j, p_id q) else find_zombie i l (S j)
  | None :: l => find_zombie i l (S j)
  end.
Definition wait (i : nat) (w : world) : res Z :=
  match find_zombie i (w_procs w) 0 with
  | Some (j, pid) => Done pid (set_procs (<[j := None]> (w_procs w)) w)
  | None => if existsb (is_child i) (w_procs w) then Wait else Done (-1) w
  end.
Fixpoint find_pid (pid : Z) (l : list (option prc)) (j : nat) : option nat :=
  match l with
  | [] => None
  | Some q :: l => if p_id q =? pid then Some j else find_pid pid l (S j)
  | None :: l => find_pid pid l (S j)
  end.
Definition kill (pid : Z) (w : world) : Z * world :=
  match find_pid pid (w_procs w) 0 with
  | Some j => (0, set_procs (alter (option_map set_killed) j (w_procs w)) w)
  | None => (-1, w)
  end.
(** exit(): the descriptors are closed and the children given to init, in slot 0. *)
Definition give_to_init (i : nat) (q : option prc) : option prc :=
  match q with
  | Some q => Some (if (p_parent q =? i)%nat then set_parent 0 q else q)
  | None => None
  end.
Definition exit (i : nat) (p : prc) (w : world) : world :=
  let w := close_all (p_fds p) w in
  let w := set_procs (give_to_init i <$> w_procs w) w in
  put_proc i (set_zombie (set_fds (replicate NOFILE None) p)) w.

(** ** Calls *)

Definition done {X} (r : X * world) : res X := Done r.1 r.2.
(** The result of a call on names. *)
Definition named (r : option inodes) (w : world) : res Z :=
  match r with Some t => Done 0 (set_ino t w) | None => Done (-1) w end.
Definition created (r : option (nat * inodes)) (w : world) : res Z :=
  match r with
  | Some (_, t) => Done 0 (set_next (S (w_next w)) (set_ino t w))
  | None => Done (-1) w
  end.
Definition chdir (i : nat) (p : prc) (path : list Z) (w : world) : Z * world :=
  match namei (w_ino w) (p_cwd p) path with
  | Some n =>
    match slots_of (w_ino w) n with
    | Some _ => (0, put_proc i (set_cwd n p) w)
    | None => (-1, w)
    end
  | None => (-1, w)
  end.
Definition dup (i : nat) (p : prc) (fd : Z) (w : world) : Z * world :=
  match fd_file p fd, free_slot (p_fds p) 0 with
  | Some f, Some j => (Z.of_nat j, put_proc i (set_fds (<[j := Some f]> (p_fds p)) p) (filedup f w))
  | _, _ => (-1, w)
  end.
Definition close (i : nat) (p : prc) (fd : Z) (w : world) : Z * world :=
  match fd_file p fd with
  | Some f => (0, fileclose f (put_proc i (set_fds (<[Z.to_nat fd := None]> (p_fds p)) p) w))
  | None => (-1, w)
  end.

(** The call of process [i], whose record is [p]; [io] bytes of a write are done. *)
Definition do_call {X : Set} (c : call X) (i : nat) (p : prc) (io : nat) : world → res X :=
  match c in call X return world → res X with
  | Cwait => wait i
  | Cpipe => λ w, done (pipe i p w)
  | Cwrite fd b => write p fd b io
  | Cread fd n => read p fd n
  | Cclose fd => λ w, done (close i p fd w)
  | Ckill pid => λ w, done (kill pid w)
  | Copen path mode => λ w, done (open i p path mode w)
  | Cmknod path major minor => λ w,
    created (create (w_ino w) (w_next w) (p_cwd p) path (Wdev (i16 major) (i16 minor))) w
  | Cunlink path => λ w, named (unlink (w_ino w) (p_cwd p) path) w
  | Clink old new => λ w, named (link (w_ino w) (p_cwd p) old new) w
  | Cmkdir path => λ w, created (create (w_ino w) (w_next w) (p_cwd p) path Wdir) w
  | Cchdir path => λ w, done (chdir i p path w)
  | Cdup fd => λ w, done (dup i p fd w)
  | Cfstat fd => λ w, Done (fstat p fd w) w
  | Csleep _ => λ w, Done 0 w
  end.

(** ** Memory *)

(** growproc().  A process that gives all of its memory back does not live on. *)
Definition keep_below (a : Z) (m : gmap Z Z) : gmap Z Z := filter (λ x, x.1 < a) m.
Definition sbrk (i : nat) (p : prc) (n : Z) (w : world) : Z * world :=
  let sz := p_sz p in
  let new := u32 (sz + n) in
  if 0 <? n then
    let '(ok, w) := lucky w in
    if KERNBASE <=? new then (-1, w)
    else if new <? sz then (sz, w)
    else if ok then (sz, put_proc i (set_space new (p_guard p) (p_mem p) p) w)
    else (-1, w)
  else if n <? 0 then
    if sz <=? new then (sz, w)
    else if new =? 0 then (-1, put_proc i (set_killed p) w)
    else (sz, put_proc i (set_space new (p_guard p) (keep_below (PGROUNDUP new) (p_mem p)) p) w)
  else (sz, w).

(** What the process itself may touch: whole pages, not the one below its stack. *)
Definition mapped (p : prc) (a : Z) : bool :=
  (0 <=? a) && (a <? PGROUNDUP (p_sz p)) && negb ((p_guard p <=? a) && (a <? p_guard p + PGSIZE)).
Definition mapped_word (p : prc) (a : Z) : bool := mapped p a && mapped p (a + 3).
Definition put_mem (i : nat) (p : prc) (m : gmap Z Z) (w : world) : world :=
  put_proc i (set_space (p_sz p) (p_guard p) m p) w.
(** The bytes at [a] up to a zero, none if there is no zero below the end. *)
Fixpoint string_at (fuel : nat) (m : gmap Z Z) (a : Z) : option (list Z) :=
  match fuel with
  | O => None
  | S f => if rd m a =? 0 then Some [] else (rd m a ::.) <$> string_at f m (a + 1)
  end.
(** None is a fault: the process is killed. *)
Definition do_own {X : Set} (c : own X) (i : nat) (p : prc) : world → option (X * world) :=
  match c in own X return world → option (X * world) with
  | Ogetpid => λ w, Some (p_id p, w)
  | Osbrk n => λ w, Some (sbrk i p n w)
  | Oload a => λ w, if mapped p a then Some (rd (p_mem p) a, w) else None
  | Ostore a v => λ w, if mapped p a then Some (tt, put_mem i p (wr (p_mem p) a (u8 v)) w) else None
  | Oloadw a => λ w, if mapped_word p a then Some (load32 (p_mem p) a, w) else None
  | Ostorew a v => λ w, if mapped_word p a then Some (tt, put_mem i p (store32 (p_mem p) a (u32 v)) w) else None
  | Oargint a => λ w,
    Some (if (p_sz p <=? a) || (p_sz p <? u32 (a + 4)) then None else Some (i32 (load32 (p_mem p) a)), w)
  | Oargstr a => λ w,
    Some (if p_sz p <=? a then None else string_at (Z.to_nat (p_sz p - a)) (p_mem p) a, w)
  end.

(** ** Steps *)

(** A program file: the size and the contents of its memory, and main(). *)
Record program : Type := Program { pg_size : Z; pg_mem : gmap Z Z; pg_main : list (list Z) → prog unit }.

(** The argument stack of exec.c: one page for the strings, each at a multiple of 4, and
    the words above them. *)
Fixpoint push_args (argv : list (list Z)) (sp : Z) : Z :=
  match argv with
  | [] => sp
  | a :: argv => push_args argv (Z.land (sp - (Z.of_nat (length a) + 1)) (-4))
  end.
Definition args_fit (argv : list (list Z)) : bool :=
  (length argv <? MAXARG)%nat && (0 <=? push_args argv PGSIZE - (3 + Z.of_nat (length argv) + 1) * 4).

(** The system: the world, and for each slot what is left of its program, with the bytes
    a pending write has written. *)
Record os : Type := OS { o_w : world; o_progs : list (nat * prog unit) }.
Definition prog_at (s : os) (i : nat) : nat * prog unit := default (0%nat, Loops) (o_progs s !! i).
Definition goes_on (i : nat) (w : world) (io : nat) (k : prog unit) (s : os) : os :=
  OS w (<[i := (io, k)]> (o_progs s)).

Section steps.
Context (image : list Z → option program).

Definition find_image (t : inodes) (cwd : nat) (path : list Z) : option program :=
  n ← namei t cwd path;
  match n_body <$> t !! n with Some (Reg d) => image d | _ => None end.
Definition exec (i : nat) (p : prc) (path : list Z) (argv : list (list Z)) (w : world) : option (prog unit) * world :=
  let '(ok, w) := lucky w in
  match find_image (w_ino w) (p_cwd p) path with
  | None => (None, w)
  | Some g =>
    if ok && args_fit argv then
      let guard := PGROUNDUP (pg_size g) in
      (Some (pg_main g argv), put_proc i (set_space (guard + 2 * PGSIZE) guard (pg_mem g) p) w)
    else (None, w)
  end.

Definition fork (i : nat) (p : prc) (w : world) : option (nat * Z) * world :=
  let '(ok, w) := lucky w in
  match free_slot (w_procs w) 0 with
  | None => (None, w)
  | Some j =>
    if ok then
      let pid := w_pid w in
      let child := Prc (p_fds p) (p_cwd p) pid i (p_sz p) (p_guard p) (p_mem p) false false in
      (Some (j, pid), put_proc j child (set_pid (pid + 1) (dup_all (p_fds p) w)))
    else (None, w)
  end.

(** The step of the process in slot [i]; None when it has none. *)
Definition step (i : nat) (s : os) : option os :=
  let w := o_w s in
  match proc_at w i with
  | None => None
  | Some p =>
    let '(io, pr) := prog_at s i in
    if p_zombie p then None
    else if p_killed p then if (i =? 0)%nat then None else Some (goes_on i (exit i p w) 0 Exit s)
    else
      match pr with
      | Loops => None
      | Ret _ | Exit => if (i =? 0)%nat then None else Some (goes_on i (exit i p w) 0 Exit s)
      | Fork k =>
        match fork i p w with
        | (Some (j, pid), w) => Some (goes_on i w 0 (k pid) (goes_on j w 0 (k 0) s))
        | (None, w) => Some (goes_on i w 0 (k (-1)) s)
        end
      | Exec path argv k =>
        match exec i p path argv w with
        | (Some m, w) => Some (goes_on i w 0 m s)
        | (None, w) => Some (goes_on i w 0 (k (-1)) s)
        end
      | Sys c k =>
        match do_call c i p io w with
        | Done x w => Some (goes_on i w 0 (k x) s)
        | Partly io w => Some (goes_on i w io pr s)
        | Wait => None
        end
      | Own c k =>
        match do_own c i p w with
        | Some (x, w) => Some (goes_on i w 0 (k x) s)
        | None => Some (goes_on i (put_proc i (set_killed p) w) 0 pr s)
        end
      end
  end.

(** A schedule: a slot that cannot move is passed over. *)
Definition sched (l : list nat) (s : os) : os := foldl (λ s i, default s (step i s)) s l.
End steps.
End Os.
