(* ===== verification/OsSpec.v ===== *)
(** * Reasoning about processes that run side by side

    [inevitably P s]: whatever the scheduler does, the system gets from [s] to a state with
    [P].  A piece of a program that runs alone is evaluated by [eval]; what it computes is
    what the system inevitably does while the other processes have ended or stand still. *)

From stdpp Require Import base gmap list strings.
From Stdlib Require Import ZArith Lia FunctionalExtensionality.
From S2P Require Import Prelude Params User Os.

Import Os.

(** ** What happens on every schedule *)

Section inevitable.
Context (image : list Z → option program).

Inductive inevitably (P : os → Prop) (s : os) : Prop :=
| inev_now : P s → inevitably P s
| inev_later : (∃ i s', step image i s = Some s') →
    (∀ i s', step image i s = Some s' → inevitably P s') → inevitably P s.

Lemma inevitably_mono (P Q : os → Prop) s : (∀ s, P s → Q s) → inevitably P s → inevitably Q s.
Proof. intros HPQ H. induction H as [s H|s Hm _ IH]; [by apply inev_now, HPQ|by apply inev_later]. Qed.

Lemma inevitably_trans (P Q : os → Prop) s :
  inevitably P s → (∀ s, P s → inevitably Q s) → inevitably Q s.
Proof. intros H HPQ. induction H as [s H|s Hm _ IH]; [by apply HPQ|by apply inev_later]. Qed.

(** An invariant under which something can move, and everything that moves gets nearer. *)
Lemma inevitably_measure {X} (Inv : X → os → Prop) (m : X → nat) (P : os → Prop) :
  (∀ x s, Inv x s → (∃ i s', step image i s = Some s') ∧
    ∀ i s', step image i s = Some s' → P s' ∨ ∃ x', Inv x' s' ∧ (m x' < m x)%nat) →
  ∀ x s, Inv x s → inevitably P s.
Proof.
  intros H x. remember (m x) as n eqn:Hn. revert x Hn. induction n as [n IH] using lt_wf_ind.
  intros x -> s Hs. destruct (H x s Hs) as [Hm Hall].
  apply inev_later; [done|]. intros i s' Hi. destruct (Hall i s' Hi) as [|(x' & Hx' & Hlt)]; [by apply inev_now|].
  by eapply IH.
Qed.

(** ** One process among others that stand still *)

Definition alive (p : prc) : bool := negb (p_zombie p) && negb (p_killed p).
(** The slots that are free, or whose process has ended or spins. *)
Definition parked (w : world) (progs : list (nat * prog unit)) (j : nat) : Prop :=
  match proc_at w j with
  | None => True
  | Some p => p_zombie p = true ∨ p_killed p = false ∧ ∃ io, progs !! j = Some (io, Loops)
  end.
Definition alone (i : nat) (w : world) (progs : list (nat * prog unit)) : Prop := ∀ j, j ≠ i → parked w progs j.

Lemma parked_stuck w progs j : parked w progs j → step image j (OS w progs) = None.
Proof.
  unfold parked, step, prog_at. cbn [o_w o_progs]. destruct (proc_at w j) as [p|]; [|done].
  destruct (default _ _) as [io pr] eqn:E. intros [->|(Hk & io' & Hj)]; [done|]. rewrite Hj in E.
  injection E as <- <-. destruct (p_zombie p); [done|]. by rewrite Hk.
Qed.

Definition quiet_call {X : Set} (c : call X) : bool := match c with Ckill _ => false | _ => true end.

(** Running alone. *)
Fixpoint eval {A} (i : nat) (p : prog A) (w : world) : option (A * world) :=
  match p with
  | Ret a => Some (a, w)
  | Sys c k =>
    match proc_at w i with
    | Some q =>
      if alive q && quiet_call c then
        match do_call c i q 0 w with Done x w => eval i (k x) w | _ => None end
      else None
    | None => None
    end
  | Own c k =>
    match proc_at w i with
    | Some q => if alive q then match do_own c i q w with Some (x, w) => eval i (k x) w | None => None end else None
    | None => None
    end
  | _ => None
  end.

Lemma eval_bind {A B} i (p : prog A) (f : A → prog B) w :
  eval i (p ≫= f) w = match eval i p w with Some (a, w) => eval i (f a) w | None => None end.
Proof.
  revert w. induction p as [a| | |k IH|path argv k IH|X c k IH|X c k IH]; intros w; try done;
    cbn [mbind prog_bind prog_bind' eval].
  - destruct (proc_at w i) as [q|]; [|done]. destruct (alive q && quiet_call c); [|done].
    destruct (do_call c i q 0 w); [apply IH|done..].
  - destruct (proc_at w i) as [q|]; [|done]. destruct (alive q); [|done].
    destruct (do_own c i q w) as [[x w']|]; [apply IH|done].
Qed.

(** What a call does to the other processes: nothing, or wait() takes one away. *)
Lemma fileclose_procs f w : w_procs (fileclose f w) = w_procs w.
Proof.
  unfold fileclose. destruct (w_files w !! f) as [x|]; [|done]. destruct (f_ref x) as [|[|r]]; try done;
    by destruct (f_obj x).
Qed.
Lemma proc_at_put i p w j : (i < length (w_procs w))%nat →
  proc_at (put_proc i p w) j = if decide (j = i) then Some p else proc_at w j.
Proof.
  intros Hi. unfold proc_at, put_proc. cbn [w_procs set_procs].
  destruct (decide (j = i)) as [->|]; [by rewrite list_lookup_insert_eq|by rewrite list_lookup_insert_ne].
Qed.
Lemma proc_at_lt w i p : proc_at w i = Some p → (i < length (w_procs w))%nat.
Proof.
  unfold proc_at. destruct (w_procs w !! i) eqn:E; [|done]. intros _. by eapply lookup_lt_Some.
Qed.
Definition same_others (i : nat) (w w' : world) : Prop :=
  length (w_procs w') = length (w_procs w) ∧ ∀ j, j ≠ i → proc_at w' j = proc_at w j ∨ proc_at w' j = None.

Lemma same_others_eq i w w' : w_procs w' = w_procs w → same_others i w w'.
Proof. intros H. unfold same_others, proc_at. rewrite H. split; [done|by left]. Qed.
Lemma same_others_put i p w w' : w_procs w' = <[i := Some p]> (w_procs w) → same_others i w w'.
Proof.
  intros H. unfold same_others, proc_at. rewrite H, length_insert. split; [done|].
  intros j Hj. left. by rewrite list_lookup_insert_ne.
Qed.
Lemma same_others_reap i j w w' : w_procs w' = <[j := None]> (w_procs w) → same_others i w w'.
Proof.
  intros H. unfold same_others, proc_at. rewrite H, length_insert. split; [done|]. intros j' _.
  destruct (decide (j' = j)) as [->|]; [|left; by rewrite list_lookup_insert_ne].
  right. destruct (decide (j < length (w_procs w))%nat).
  - by rewrite list_lookup_insert_eq.
  - rewrite lookup_ge_None_2; [done|]. rewrite length_insert. lia.
Qed.
Lemma same_others_trans i w1 w2 w3 : same_others i w1 w2 → same_others i w2 w3 → same_others i w1 w3.
Proof.
  intros [L1 H1] [L2 H2]. split; [congruence|]. intros j Hj.
  destruct (H2 j Hj) as [->|]; [by apply H1|by right].
Qed.
Lemma alone_same i w w' progs io k : same_others i w w' → alone i w progs → alone i w' (<[i := (io, k)]> progs).
Proof.
  intros [_ H] Ha j Hj. specialize (Ha j Hj). unfold parked in *. destruct (H j Hj) as [->| ->]; [|done].
  destruct (proc_at w j) as [p|]; [|done]. destruct Ha as [?|(? & io' & ?)]; [by left|].
  right. split; [done|]. exists io'. by rewrite list_lookup_insert_ne.
Qed.

Lemma read_procs p fd n w x w' : read p fd n w = Done x w' → w_procs w' = w_procs w.
Proof.
  unfold read. destruct (fd_file p fd) as [f|]; [|by intros [= _ <-]].
  destruct (w_files w !! f) as [y|]; [|by intros [= _ <-]]. destruct (f_r y); [|by intros [= _ <-]]. cbn [negb].
  destruct (f_obj y) as [m|m]; unfold read_inode, read_pipe.
  - destruct (n_body <$> w_ino w !! m) as [[d|s|a b]|]; try by intros [= _ <-].
    destruct (a =? CONSOLE); [|by intros [= _ <-]]. destruct (w_in w); [done|by intros [= _ <-]].
  - destruct (w_pipes w !! m) as [q|]; [|by intros [= _ <-]].
    destruct (q_data q); [|by intros [= _ <-]]. destruct (q_w q); [done|by intros [= _ <-]].
Qed.
Lemma write_procs p fd b io w x w' : write p fd b io w = Done x w' → w_procs w' = w_procs w.
Proof.
  unfold write. destruct (fd_file p fd) as [f|]; [|by intros [= _ <-]].
  destruct (w_files w !! f) as [y|]; [|by intros [= _ <-]]. destruct (f_w y); [|by intros [= _ <-]]. cbn [negb].
  destruct (f_obj y) as [m|m]; unfold write_inode, write_pipe.
  - destruct (n_body <$> w_ino w !! m) as [[d|s|a c]|]; try by intros [= _ <-].
    + destruct (_ <=? _); by intros [= _ <-].
    + destruct (a =? CONSOLE); by intros [= _ <-].
  - destruct (w_pipes w !! m) as [q|]; [|by intros [= _ <-]]. destruct (_ <=? _); [by intros [= _ <-]|].
    destruct (_ =? _); [|done]. destruct (q_r q); [done|by intros [= _ <-]].
Qed.
Lemma do_call_others {X : Set} (c : call X) i p io w x w' : quiet_call c = true →
  do_call c i p io w = Done x w' → same_others i w w'.
Proof.
  intros Hq H. destruct c; cbn [do_call] in H; try done.
  - unfold wait in H. destruct (find_zombie i (w_procs w) 0) as [[j pid]|];
      [injection H as _ <-; by eapply same_others_reap|].
    destruct (existsb _ _); [done|]. injection H as _ <-. by apply same_others_eq.
  - injection H as _ <-. unfold pipe. destruct (lucky w) as [[] w1] eqn:E; injection E as E <-; cbn [snd];
      [|by apply same_others_eq].
    destruct (free_slot _ _); [|by apply same_others_eq]. destruct (free_slot _ _); [|by apply same_others_eq].
    by eapply same_others_put.
  - apply same_others_eq. by eapply write_procs.
  - apply same_others_eq. by eapply read_procs.
  - injection H as _ <-. unfold close. destruct (fd_file p fd); [|by apply same_others_eq].
    eapply same_others_put. cbn [snd]. by rewrite fileclose_procs.
  - injection H as _ <-. unfold open. destruct (open_inode p path mode w) as [[n w1]|] eqn:E; [|by apply same_others_eq].
    assert (E1 : w_procs w1 = w_procs w).
    { unfold open_inode in E. destruct (has mode O_CREATE).
      - destruct (create _ _ _ _ _); [|done]. by injection E as _ <-.
      - destruct (namei _ _ _) as [m|]; [|done]. cbn in E. destruct (slots_of _ _); [|by injection E as _ <-].
        destruct (mode =? O_RDONLY); [by injection E as _ <-|done]. }
    cbn [lucky]. destruct (free_slot _ _); [|by apply same_others_eq].
    destruct (w_luck w1 (w_calls w1)); [|by apply same_others_eq]. eapply same_others_put. cbn. by rewrite E1.
  - unfold created in H. destruct (create _ _ _ _ _) as [[n t]|]; injection H as _ <-; by apply same_others_eq.
  - unfold named in H. destruct (unlink _ _ _); injection H as _ <-; by apply same_others_eq.
  - unfold named in H. destruct (link _ _ _ _); injection H as _ <-; by apply same_others_eq.
  - unfold created in H. destruct (create _ _ _ _ _) as [[n t]|]; injection H as _ <-; by apply same_others_eq.
  - injection H as _ <-. unfold chdir. destruct (namei _ _ _); [|by apply same_others_eq].
    destruct (slots_of _ _); [by eapply same_others_put|by apply same_others_eq].
  - injection H as _ <-. unfold dup. destruct (fd_file p fd); [|by apply same_others_eq].
    destruct (free_slot _ _); [by eapply same_others_put|by apply same_others_eq].
  - injection H as _ <-. by apply same_others_eq.
  - injection H as _ <-. by apply same_others_eq.
Qed.
Lemma do_own_others {X : Set} (c : own X) i p w x w' : do_own c i p w = Some (x, w') → same_others i w w'.
Proof.
  intros H. destruct c; cbn [do_own] in H.
  - injection H as _ <-. by apply same_others_eq.
  - injection H as H. unfold sbrk in H. cbn [lucky] in H.
    repeat case_match; simplify_eq; first [by apply same_others_eq|by eapply same_others_put].
  - destruct (mapped p a); [|done]. injection H as _ <-. by apply same_others_eq.
  - destruct (mapped p a); [|done]. injection H as _ <-. by eapply same_others_put.
  - destruct (mapped_word p a); [|done]. injection H as _ <-. by apply same_others_eq.
  - destruct (mapped_word p a); [|done]. injection H as _ <-. by eapply same_others_put.
  - injection H as _ <-. by apply same_others_eq.
  - injection H as _ <-. by apply same_others_eq.
Qed.

Lemma step_sys {X : Set} (c : call X) k i q io w progs : proc_at w i = Some q → alive q = true →
  progs !! i = Some (io, Sys c k) →
  step image i (OS w progs) = match do_call c i q io w with
    | Done x w => Some (OS w (<[i := (0%nat, k x)]> progs))
    | Partly io w => Some (OS w (<[i := (io, Sys c k)]> progs))
    | Wait => None end.
Proof.
  intros Hq Ha Hp. unfold step, prog_at, goes_on. cbn [o_w o_progs]. rewrite Hq, Hp. cbn [default].
  unfold alive in Ha. destruct (p_zombie q), (p_killed q); done.
Qed.
Lemma step_own {X : Set} (c : own X) k i q io w progs : proc_at w i = Some q → alive q = true →
  progs !! i = Some (io, Own c k) →
  step image i (OS w progs) = match do_own c i q w with
    | Some (x, w) => Some (OS w (<[i := (0%nat, k x)]> progs))
    | None => Some (OS (put_proc i (set_killed q) w) (<[i := (0%nat, Own c k)]> progs)) end.
Proof.
  intros Hq Ha Hp. unfold step, prog_at, goes_on. cbn [o_w o_progs]. rewrite Hq, Hp. cbn [default].
  unfold alive in Ha. destruct (p_zombie q), (p_killed q); done.
Qed.
Lemma step_fork k i q io w progs : proc_at w i = Some q → alive q = true → progs !! i = Some (io, Fork k) →
  step image i (OS w progs) = match fork i q w with
    | (Some (j, pid), w) => Some (OS w (<[i := (0%nat, k pid)]> (<[j := (0%nat, k 0)]> progs)))
    | (None, w) => Some (OS w (<[i := (0%nat, k (-1))]> progs)) end.
Proof.
  intros Hq Ha Hp. unfold step, prog_at, goes_on. cbn [o_w o_progs]. rewrite Hq, Hp. cbn [default].
  unfold alive in Ha. destruct (p_zombie q), (p_killed q); done.
Qed.

Lemma alone_moves (Q : os → Prop) i w progs s' : alone i w progs → step image i (OS w progs) = Some s' →
  inevitably Q s' → inevitably Q (OS w progs).
Proof.
  intros Ha Hs HQ. apply inev_later; [by eauto|]. intros j s2 Hj.
  destruct (decide (j = i)) as [->|Hne]; [congruence|]. by rewrite (parked_stuck _ _ _ (Ha j Hne)) in Hj.
Qed.

(** What runs alone runs. *)
Lemma eval_inevitably {A} i (p : prog A) (k : A → prog unit) w progs a w' :
  eval i p w = Some (a, w') → alone i w progs → progs !! i = Some (0%nat, p ≫= k) →
  inevitably (λ s, s = OS w' (<[i := (0%nat, k a)]> progs) ∧ alone i w' (<[i := (0%nat, k a)]> progs)) (OS w progs).
Proof.
  revert w progs. induction p as [x| | |h IH|path argv h IH|X c h IH|X c h IH]; intros w progs He Ha Hp; try done.
  - injection He as <- <-. apply inev_now. rewrite list_insert_id by done. done.
  - cbn [eval] in He. destruct (proc_at w i) as [q|] eqn:Eq; [|done].
    destruct (alive q) eqn:El, (quiet_call c) eqn:Ec; try done. cbn [andb] in He.
    destruct (do_call c i q 0 w) as [x w1|io w1|] eqn:E; try done.
    pose proof (do_call_others c i q 0 w x w1 Ec E) as Hs.
    eapply alone_moves; [exact Ha|erewrite step_sys, E by done; done|].
    eapply inevitably_mono; [|eapply (IH x w1); [done|by eapply alone_same|]].
    + intros s [-> ?]. by rewrite !list_insert_insert_eq in *.
    + by rewrite list_lookup_insert_eq by (by eapply lookup_lt_Some).
  - cbn [eval] in He. destruct (proc_at w i) as [q|] eqn:Eq; [|done]. destruct (alive q) eqn:El; [|done].
    destruct (do_own c i q w) as [[x w1]|] eqn:E; [|done].
    pose proof (do_own_others c i q w x w1 E) as Hs.
    eapply alone_moves; [exact Ha|erewrite step_own, E by done; done|].
    eapply inevitably_mono; [|eapply (IH x w1); [done|by eapply alone_same|]].
    + intros s [-> ?]. by rewrite !list_insert_insert_eq in *.
    + by rewrite list_lookup_insert_eq by (by eapply lookup_lt_Some).
Qed.
End inevitable.

(** ** Writing to the console *)

(** Descriptor 1 of the process is the file [f], open for writing on the console. *)
Definition tty (p : prc) (w : world) (f : nat) (x : ofile) : Prop :=
  fd_file p 1 = Some f ∧ w_files w !! f = Some x ∧ f_w x = true ∧
  ∃ n m l, f_obj x = OInode n ∧ w_ino w !! n = Some (Ino (Dev CONSOLE m) l).
Definition moved (n : nat) (x : ofile) : ofile := OFile (f_obj x) (f_r x) (f_w x) (f_off x + n)%nat (f_ref x).
Definition shown (f : nat) (x : ofile) (text : list Z) (w : world) : world :=
  set_files (<[f := moved (length text) x]> (w_files w)) (set_out (w_out w ++ text) w).

Lemma tty_shown p w f x text : tty p w f x → tty p (shown f x text w) f (moved (length text) x).
Proof. intros (H1 & H2 & H3 & H4). split_and!; [done| |done..]. apply lookup_insert_eq. Qed.
Lemma moved_0 x : moved 0 x = x.
Proof. destruct x. unfold moved. cbn. f_equal. lia. Qed.
Lemma moved_moved m n x : moved m (moved n x) = moved (n + m) x.
Proof. unfold moved. cbn. f_equal. lia. Qed.
Lemma shown_nil f x w : w_files w !! f = Some x → shown f x [] w = w.
Proof.
  intros H. unfold shown. cbn [length]. rewrite moved_0, app_nil_r, insert_id by done. by destruct w.
Qed.
Lemma shown_app f x a b w : shown f (moved (length a) x) b (shown f x a w) = shown f x (a ++ b) w.
Proof.
  unfold shown. cbn. rewrite insert_insert_eq, moved_moved, <- app_assoc, length_app. done.
Qed.
Lemma write_tty p w f x b io : tty p w f x → write p 1 b io w = Done (Z.of_nat (length b)) (shown f x b w).
Proof.
  intros (H1 & H2 & H3 & n & m & l & H4 & H5). unfold write. rewrite H1, H2, H3. cbn [negb]. rewrite H4.
  unfold write_inode. rewrite H5. cbn. done.
Qed.
Lemma eval_putcs i p w f x text : proc_at w i = Some p → alive p = true → tty p w f x →
  eval i (putcs 1 text) w = Some (tt, shown f x text w).
Proof.
  revert w x. induction text as [|c text IH]; intros w x Hp Ha Ht.
  - by rewrite shown_nil by apply Ht.
  - cbn [putcs]. change (eval i (Sys (Cwrite 1 [c]) (λ _, putcs 1 text)) w = Some (tt, shown f x (c :: text) w)).
    cbn [eval]. rewrite Hp, Ha. cbn [andb quiet_call do_call]. rewrite (write_tty p w f x) by done.
    rewrite (IH (shown f x [c] w) (moved 1 x)); [|done..|by apply tty_shown].
    by rewrite (shown_app f x [c] text).
Qed.
Lemma eval_printf i p w f x fmt args : proc_at w i = Some p → alive p = true → tty p w f x →
  eval i (User.printf 1 fmt args) w = Some (tt, shown f x (format fmt args) w).
Proof. apply eval_putcs. Qed.

Lemma bind_assoc {A B C} (p : prog A) (f : A → prog B) (g : B → prog C) :
  (p ≫= f) ≫= g = p ≫= λ x, f x ≫= g.
Proof.
  unfold mbind, prog_bind.
  induction p as [a| | |k IH|path argv k IH|X c k IH|X c k IH]; cbn [prog_bind']; f_equal; try done;
    apply functional_extensionality; intros x; apply IH.
Qed.
