(* ===== verification/OsInv.v ===== *)
(** * The system stays consistent

    Whatever the schedule, an open file is shared by exactly as many descriptors as its
    count says, each end of a pipe is open as long as a descriptor refers to it, a pipe
    holds no more than it has room for, and the tree of names is in order.  The first
    part is about the tree of inodes, the second about files, pipes and processes, and
    the last about a process among others that stand still. *)

From stdpp Require Import base gmap list strings.
From Stdlib Require Import ZArith Lia.
From S2P Require Import Prelude Params Pipe User Os OsSpec.

Import Os.

(** The names of a directory that are in use. *)
Definition used (s : slots) : slots := filter (λ e, e.1 ≠ 0%nat) s.

Record tree_ok (t : inodes) (next : nat) : Prop := {
  t_root : is_Some (slots_of t ROOT);
  t_below : ∀ n, is_Some (t !! n) → (0 < n < next)%nat;
  t_named : ∀ d s n name, slots_of t d = Some s → (n, name) ∈ used s → is_Some (t !! n);
  t_once : ∀ d s, slots_of t d = Some s → NoDup (used s).*2;
}.

(** ** Entries *)

Lemma dirlookup_Some s name n : dirlookup s name = Some n → (n, name) ∈ used s.
Proof.
  induction s as [|[m x] s IH]; [done|]. cbn [dirlookup]. unfold used in *. rewrite filter_cons. cbn [fst].
  destruct (bool_decide_reflect (m ≠ 0%nat ∧ x = name)) as [[Hm ->]|Hn].
  - intros [= ->]. rewrite decide_True by done. by left.
  - intros H. destruct (decide (m ≠ 0%nat)); [right|]; by apply IH.
Qed.
Lemma dirlookup_None s name : dirlookup s name = None ↔ name ∉ (used s).*2.
Proof.
  induction s as [|[m x] s IH]; [split; [intros _; apply not_elem_of_nil|done]|].
  cbn [dirlookup]. unfold used in *. rewrite filter_cons. cbn [fst].
  destruct (bool_decide_reflect (m ≠ 0%nat ∧ x = name)) as [[Hm ->]|Hn].
  - rewrite decide_True by done. split; [done|]. intros H. destruct H. by left.
  - rewrite IH. destruct (decide (m ≠ 0%nat)); [|done]. cbn [fmap list_fmap snd].
    rewrite not_elem_of_cons. split; [|by intros [_ ?]]. intros ?. split; [|done]. intros ->. by destruct Hn.
Qed.
Lemma used_add_entry s name n : n ≠ 0%nat → used (add_entry s name n) ≡ₚ (n, name) :: used s.
Proof.
  intros Hn. unfold used. induction s as [|[m x] s IH]; cbn [add_entry].
  - by rewrite filter_cons_True.
  - destruct m as [|m].
    + rewrite filter_cons_True by done. by rewrite filter_cons_False by (cbn; lia).
    + rewrite !(filter_cons_True _ (S m, x)) by done. rewrite IH. apply Permutation_swap.
Qed.
(** Deleting an entry takes away the one that is found. *)
Lemma used_del_entry s name n : dirlookup s name = Some n → used s ≡ₚ (n, name) :: used (del_entry s name).
Proof.
  unfold used. induction s as [|[m x] s IH]; [done|]. cbn [dirlookup del_entry].
  destruct (bool_decide_reflect (m ≠ 0%nat ∧ x = name)) as [[Hm ->]|Hn].
  - intros [= ->]. rewrite filter_cons_True by done. by rewrite filter_cons_False by (cbn; lia).
  - intros H. specialize (IH H). destruct (decide (m ≠ 0%nat)).
    + rewrite !filter_cons_True by done. rewrite IH. apply Permutation_swap.
    + by rewrite !filter_cons_False.
Qed.
Lemma dirlookup_add_entry s name n x : n ≠ 0%nat → dirlookup s name = None →
  dirlookup (add_entry s name n) x = if decide (x = name) then Some n else dirlookup s x.
Proof.
  intros Hn. induction s as [|[m y] s IH]; cbn [add_entry dirlookup].
  - intros _. destruct (decide (x = name)) as [->|]; [by rewrite bool_decide_true|rewrite bool_decide_false; naive_solver].
  - destruct (bool_decide_reflect (m ≠ 0%nat ∧ y = name)) as [|Hm]; [done|]. intros Hnone.
    destruct m as [|m]; cbn [dirlookup].
    + rewrite (bool_decide_false (0%nat ≠ 0%nat ∧ y = x)) by naive_solver.
      destruct (decide (x = name)) as [->|]; [by rewrite bool_decide_true|rewrite bool_decide_false; naive_solver].
    + rewrite IH by done. destruct (decide (x = name)) as [->|]; [|done]. by rewrite bool_decide_false.
Qed.

(** ** Inodes *)

Lemma slots_of_insert t n e m : slots_of (<[n := e]> t) m =
  if decide (m = n) then match n_body e with Dir s => Some s | _ => None end else slots_of t m.
Proof.
  unfold slots_of. destruct (decide (m = n)) as [->|]; [|by rewrite lookup_insert_ne].
  rewrite lookup_insert_eq. by destruct e as [[]].
Qed.
Lemma slots_of_add_link d n t m : slots_of (alter (add_link d) n t) m = slots_of t m.
Proof.
  unfold slots_of. destruct (decide (m = n)) as [->|]; [|by rewrite lookup_alter_ne].
  rewrite lookup_alter_eq. destruct (t !! n) as [[[] l]|]; done.
Qed.
Lemma is_Some_alter_link d n (t : inodes) m : is_Some (alter (add_link d) n t !! m) ↔ is_Some (t !! m).
Proof.
  destruct (decide (m = n)) as [->|]; [|by rewrite lookup_alter_ne].
  rewrite lookup_alter_eq. by destruct (t !! n).
Qed.
Lemma slots_of_Some (t : inodes) n s : slots_of t n = Some s ↔ ∃ l, t !! n = Some (Ino (Dir s) l).
Proof. unfold slots_of. destruct (t !! n) as [[[] l]|]; naive_solver. Qed.

(** Counting links does not matter. *)
Lemma tree_ok_link t next d n : tree_ok t next → tree_ok (alter (add_link d) n t) next.
Proof.
  intros [Hr Hb Hn Ho]. split.
  - by rewrite slots_of_add_link.
  - intros m. rewrite is_Some_alter_link. apply Hb.
  - intros m s k name. rewrite slots_of_add_link, is_Some_alter_link. apply Hn.
  - intros m s. rewrite slots_of_add_link. apply Ho.
Qed.
(** A directory gets other entries. *)
Lemma tree_ok_dir t next dp s l s' l' : tree_ok t next → t !! dp = Some (Ino (Dir s) l) →
  (∀ n name, (n, name) ∈ used s' → is_Some (t !! n)) → NoDup (used s').*2 →
  tree_ok (<[dp := Ino (Dir s') l']> t) next.
Proof.
  intros [Hr Hb Hn Ho] Hd Hs' Hdup.
  assert (Hi : ∀ m, is_Some (<[dp := Ino (Dir s') l']> t !! m) ↔ is_Some (t !! m)).
  { intros m. destruct (decide (m = dp)) as [->|]; [by rewrite lookup_insert_eq, Hd|by rewrite lookup_insert_ne]. }
  split.
  - rewrite slots_of_insert. by destruct (decide _).
  - intros m. rewrite Hi. apply Hb.
  - intros m s1 k name. rewrite slots_of_insert, Hi. destruct (decide _); [intros [= <-]; apply Hs'|apply Hn].
  - intros m s1. rewrite slots_of_insert. destruct (decide _); [by intros [= <-]|apply Ho].
Qed.
(** A new inode. *)
Lemma tree_ok_new t next e : tree_ok t next →
  (∀ s, n_body e = Dir s → NoDup (used s).*2 ∧ ∀ n name, (n, name) ∈ used s → n = next ∨ is_Some (t !! n)) →
  tree_ok (<[next := e]> t) (S next).
Proof.
  intros [Hr Hb Hn Ho] He.
  assert (Hnew : t !! next = None).
  { destruct (t !! next) eqn:E; [|done]. destruct (Hb next); [by eexists|lia]. }
  assert (Hi : ∀ m, is_Some (t !! m) → is_Some (<[next := e]> t !! m)).
  { intros m. destruct (decide (m = next)) as [->|]; [by rewrite Hnew|by rewrite lookup_insert_ne]. }
  split.
  - rewrite slots_of_insert. destruct (decide (ROOT = next)) as [E|]; [|done]. destruct Hr as [s Hs].
    unfold slots_of in Hs. by rewrite E, Hnew in Hs.
  - intros m. destruct (decide (m = next)) as [->|]; [|rewrite lookup_insert_ne by done; intros H; apply Hb in H; lia].
    intros _. destruct Hr as [s Hs]. apply slots_of_Some in Hs as [l Hs].
    assert (is_Some (t !! ROOT)) as Hx by (by eexists). apply Hb in Hx. lia.
  - intros m s k name. rewrite slots_of_insert. destruct (decide (m = next)) as [->|].
    + intros Hs Hk. destruct e as [[] l]; try done. injection Hs as <-. destruct (He _ eq_refl) as [_ H].
      destruct (H k name Hk) as [->|]; [by rewrite lookup_insert_eq|by apply Hi].
    + intros Hs Hk. by eapply Hi, Hn.
  - intros m s. rewrite slots_of_insert. destruct (decide (m = next)); [|apply Ho].
    destruct e as [[] l]; try done. intros [= <-]. by destruct (He _ eq_refl).
Qed.

(** ** The calls *)

Lemma create_ok t next cwd path k n t' : tree_ok t next → create t next cwd path k = Some (n, t') →
  tree_ok t' (S next) ∧ is_Some (t' !! n).
Proof.
  intros Ht. unfold create. destruct (namex t cwd path true) as [[dp name]|]; [|done].
  destruct (t !! dp) as [[[|s|] l]|] eqn:Ed; try done.
  destruct (dirlookup s name) as [m|] eqn:El.
  - intros H. assert (Hs : n = m ∧ t' = t).
    { destruct k; try done. destruct (is_reg t m); [by injection H as <- <-|done]. }
    destruct Hs as [-> ->]. split; [|eapply t_named; [exact Ht|by apply slots_of_Some; eauto|by apply dirlookup_Some]].
    destruct Ht as [Hr Hb Hn Ho]. split; try done. intros j Hj. apply Hb in Hj. lia.
  - set (l' := match k with Wdir => l + 1 | _ => l end). intros [= <- <-].
    assert (Hdp : is_Some (t !! dp)) by (by rewrite Ed). pose proof (t_below t next Ht dp Hdp) as Hlt.
    assert (Hnew : tree_ok (<[next := Ino (new_node k next dp) 1]> t) (S next)).
    { apply tree_ok_new; [done|]. intros s0 Hs0. destruct k; try done. injection Hs0 as <-. split.
      - unfold used. rewrite !filter_cons_True by (cbn; lia). repeat constructor; set_solver.
      - intros j nm Hj. apply list_elem_of_filter in Hj as [_ Hj]. set_solver. }
    split; [|rewrite lookup_insert_ne, lookup_insert_eq by lia; done].
    eapply tree_ok_dir; [exact Hnew|by rewrite lookup_insert_ne by lia| |].
    + intros j nm Hj. rewrite used_add_entry in Hj by lia. apply elem_of_cons in Hj as [[= -> _]|Hj];
        [by rewrite lookup_insert_eq|].
      assert (is_Some (t !! j)) by (eapply t_named; [exact Ht|by apply slots_of_Some; eauto|done]).
      destruct (decide (j = next)) as [->|]; [by rewrite lookup_insert_eq|by rewrite lookup_insert_ne].
    + rewrite used_add_entry by lia. cbn. constructor; [by apply dirlookup_None|].
      eapply t_once; [exact Ht|by apply slots_of_Some; eauto].
Qed.

(** What a path leads to exists. *)
Lemma namex_loop_ok fuel t next path parent name ip d x : tree_ok t next → is_Some (t !! ip) →
  namex_loop fuel t path parent name ip = Some (d, x) → is_Some (t !! d).
Proof.
  intros Ht. revert path name ip. induction fuel as [|fuel IH]; intros path name ip Hip; [done|].
  cbn [namex_loop]. destruct (Fs.skipelem path) as [[nm rest]|].
  - destruct (slots_of t ip) as [s|] eqn:Es; [|done]. destruct (parent && bool_decide (rest = [])).
    + by intros [= <- _].
    + destruct (dirlookup s nm) as [m|] eqn:El; [|done]. apply IH. eapply t_named; [exact Ht|exact Es|].
      by apply dirlookup_Some.
  - destruct parent; [done|]. by intros [= <- _].
Qed.
Lemma namei_ok t next cwd path n : tree_ok t next → is_Some (t !! cwd) → namei t cwd path = Some n → is_Some (t !! n).
Proof.
  intros Ht Hc. unfold namei, namex. destruct (namex_loop _ _ _ _ _ _) as [[d x]|] eqn:E; [|done].
  intros [= <-]. eapply namex_loop_ok; [exact Ht| |exact E]. destruct (_ =? _); [|done].
  destruct (t_root _ _ Ht) as [s Hs]. apply slots_of_Some in Hs as [l ->]. done.
Qed.
Lemma link_ok t next cwd old new t' : tree_ok t next → is_Some (t !! cwd) → link t cwd old new = Some t' → tree_ok t' next.
Proof.
  intros Ht Hc. unfold link. destruct (namei t cwd old) as [n|] eqn:En; [|done].
  destruct (slots_of t n); [done|]. destruct (namex t cwd new true) as [[dp name]|]; [|done].
  destruct (t !! dp) as [[[|s|] l]|] eqn:Ed; try done. unfold dirlink.
  destruct (dirlookup s name) as [|] eqn:El; [done|]. intros [= <-]. apply tree_ok_link.
  pose proof (namei_ok t next cwd old n Ht Hc En) as Hn. pose proof (t_below _ _ Ht n Hn) as Hpos.
  eapply tree_ok_dir; [exact Ht|exact Ed| |].
  - intros j nm Hj. rewrite used_add_entry in Hj by lia. apply elem_of_cons in Hj as [[= -> _]|Hj]; [done|].
    eapply t_named; [exact Ht|by apply slots_of_Some; eauto|done].
  - rewrite used_add_entry by lia. cbn. constructor; [by apply dirlookup_None|].
    eapply t_once; [exact Ht|by apply slots_of_Some; eauto].
Qed.
Lemma unlink_ok t next cwd path t' : tree_ok t next → unlink t cwd path = Some t' → tree_ok t' next.
Proof.
  intros Ht. unfold unlink. destruct (namex t cwd path true) as [[dp name]|]; [|done].
  destruct (_ || _); [done|]. destruct (t !! dp) as [[[|s|] l]|] eqn:Ed; try done.
  destruct (dirlookup s name) as [n|] eqn:El; [|done].
  assert (Hdel : ∀ l', tree_ok (<[dp := Ino (Dir (del_entry s name)) l']> t) next).
  { intros l'. assert (Hs : slots_of t dp = Some s) by (by apply slots_of_Some; eauto).
    pose proof (used_del_entry s name n El) as Hp. eapply tree_ok_dir; [exact Ht|exact Ed| |].
    - intros j nm Hj. eapply t_named; [exact Ht|exact Hs|]. rewrite Hp. by right.
    - pose proof (t_once _ _ Ht dp s Hs) as Hd. rewrite Hp in Hd. cbn in Hd. by inversion Hd. }
  destruct (slots_of t n) as [s'|]; [destruct (isdirempty s'); [|done]|]; intros [= <-]; by apply tree_ok_link.
Qed.

(** * The system stays consistent

    Whatever the schedule, an open file is shared by exactly as many descriptors as its
    count says, each end of a pipe is open as long as a descriptor refers to it, a pipe
    holds no more than it has room for, and the tree of names is in order. *)

(** ** Open files and pipes *)

(** The world's files and pipes agree with [R f], the number of descriptors of each file. *)
Record good (R : nat → nat) (w : world) : Prop := {
  g_ref : ∀ f x, w_files w !! f = Some x → f_ref x = R f;
  g_some : ∀ f, (0 < R f)%nat ↔ is_Some (w_files w !! f);
  g_fresh : ∀ f, is_Some (w_files w !! f) → (f < w_fresh w)%nat;
  g_pipe : ∀ f x n, w_files w !! f = Some x → f_obj x = OPipe n → is_Some (w_pipes w !! n) ∧ f_r x = negb (f_w x);
  g_once : ∀ f g x y n, w_files w !! f = Some x → w_files w !! g = Some y →
    f_obj x = OPipe n → f_obj y = OPipe n → f_w x = f_w y → f = g;
  g_ends : ∀ n q, w_pipes w !! n = Some q → (n < w_fresh w)%nat ∧ Z.of_nat (length (q_data q)) ≤ PIPESIZE ∧
    ∀ e : bool, (if e then q_w q else q_r q) = true ↔
      ∃ f x, w_files w !! f = Some x ∧ f_obj x = OPipe n ∧ f_w x = e;
}.

(** The number of times a file occurs in a table, in a process, in all of them. *)
Definition occ (f : nat) (fds : list (option nat)) : nat := length (filter (λ o, o = Some f) fds).
Definition occ_of (f : nat) (o : option prc) : nat := match o with Some p => occ f (p_fds p) | None => 0 end.
Definition refs (w : world) (f : nat) : nat := sum_list (occ_of f <$> w_procs w).

Lemma occ_cons f o fds : occ f (o :: fds) = ((if decide (o = Some f) then 1 else 0) + occ f fds)%nat.
Proof. unfold occ. rewrite filter_cons. by destruct (decide _). Qed.
Lemma occ_insert f fds i o o' : fds !! i = Some o →
  (occ f (<[i := o']> fds) + (if decide (o = Some f) then 1 else 0) =
   occ f fds + (if decide (o' = Some f) then 1 else 0))%nat.
Proof.
  revert i. induction fds as [|a fds IH]; intros [|i] H; [done..| |].
  - injection H as ->. cbn [insert list_insert]. rewrite !occ_cons. lia.
  - change (<[S i := o']> (a :: fds)) with (a :: <[i := o']> fds). rewrite !occ_cons. specialize (IH i H). lia.
Qed.
Lemma sum_insert (g : option prc → nat) l i o o' : l !! i = Some o →
  (sum_list (g <$> <[i := o']> l) + g o = sum_list (g <$> l) + g o')%nat.
Proof.
  revert i. induction l as [|a l IH]; intros [|i] H; [done..| |].
  - injection H as ->. cbn. lia.
  - change (<[S i := o']> (a :: l)) with (a :: <[i := o']> l). rewrite !fmap_cons. cbn [sum_list]. specialize (IH i H). lia.
Qed.
Lemma sum_cons (g : option prc → nat) o l : sum_list (g <$> o :: l) = (g o + sum_list (g <$> l))%nat.
Proof. done. Qed.
Lemma sum_pos (g : option prc → nat) l : (0 < sum_list (g <$> l))%nat → ∃ j o, l !! j = Some o ∧ (0 < g o)%nat.
Proof.
  induction l as [|o l IH]; cbn; [lia|]. intros H. destruct (decide (0 < g o)%nat); [by exists 0%nat, o|].
  destruct IH as (j & o' & ? & ?); [lia|]. by exists (S j), o'.
Qed.
Lemma sum_ge (g : option prc → nat) l j o : l !! j = Some o → (g o ≤ sum_list (g <$> l))%nat.
Proof.
  revert j. induction l as [|a l IH]; intros [|j] H; [done..| |];
    rewrite sum_cons.
  - injection H as ->. lia.
  - specialize (IH j H). lia.
Qed.
Lemma occ_none f n : occ f (replicate n None) = 0%nat.
Proof. induction n; [done|]. cbn [replicate]. rewrite occ_cons. by rewrite decide_False. Qed.

Lemma good_ext R R' w : (∀ f, R f = R' f) → good R w → good R' w.
Proof.
  intros H [H1 H2 H3 H4 H5 H6]. split; try done.
  - intros f x Hf. rewrite <- H. by apply H1.
  - intros f. rewrite <- H. apply H2.
Qed.
(** Only these parts of the world matter. *)
Lemma good_same R w w' : w_files w' = w_files w → w_pipes w' = w_pipes w → w_fresh w' = w_fresh w →
  good R w → good R w'.
Proof. intros E1 E2 E3 [H1 H2 H3 H4 H5 H6]. split; rewrite ?E1, ?E2, ?E3; done. Qed.

(** A file changes only in its offset and its count. *)
Lemma good_file R R' w f x y : good R w → w_files w !! f = Some x →
  f_obj y = f_obj x → f_r y = f_r x → f_w y = f_w x → f_ref y = R' f → (0 < R' f)%nat →
  (∀ g, g ≠ f → R' g = R g) → good R' (set_files (<[f := y]> (w_files w)) w).
Proof.
  intros [H1 H2 H3 H4 H5 H6] Hf Ho Hr Hw Hn Hpos Hne.
  assert (L : ∀ g z, w_files (set_files (<[f := y]> (w_files w)) w) !! g = Some z →
    ∃ z', w_files w !! g = Some z' ∧ f_obj z = f_obj z' ∧ f_r z = f_r z' ∧ f_w z = f_w z').
  { intros g z. cbn [w_files set_files]. destruct (decide (g = f)) as [->|].
    - rewrite lookup_insert_eq. intros [= <-]. eauto.
    - rewrite lookup_insert_ne by done. eauto. }
  assert (S : ∀ g, is_Some (<[f := y]> (w_files w) !! g) ↔ is_Some (w_files w !! g)).
  { intros g. destruct (decide (g = f)) as [->|]; [by rewrite lookup_insert_eq, Hf|by rewrite lookup_insert_ne]. }
  split.
  - intros g z. cbn [w_files set_files]. destruct (decide (g = f)) as [->|].
    + rewrite lookup_insert_eq. by intros [= <-].
    + rewrite lookup_insert_ne, Hne by done. apply H1.
  - intros g. cbn [w_files set_files]. rewrite S. destruct (decide (g = f)) as [->|]; [|rewrite Hne by done; apply H2].
    rewrite Hf. split; [by eexists|done].
  - intros g. cbn [w_files set_files w_fresh]. rewrite S. apply H3.
  - intros g z n Hz Hzn. apply L in Hz as (z' & Hz & E1 & E2 & E3). rewrite E2, E3. eapply H4; [done|congruence].
  - intros g h z1 z2 n Hz1 Hz2 E1 E2 E3. apply L in Hz1 as (z1' & Hz1 & ? & ? & ?), Hz2 as (z2' & Hz2 & ? & ? & ?).
    eapply (H5 g h z1' z2' n); congruence.
  - intros n q Hq. destruct (H6 n q Hq) as (Ha & Hb & Hc). split_and!; [done..|]. intros e. rewrite Hc.
    cbn [w_files set_files]. split.
    + intros (g & z & Hg & E1 & E2). destruct (decide (g = f)) as [->|].
      * rewrite Hf in Hg. injection Hg as <-. exists f, y. rewrite lookup_insert_eq. split_and!; congruence.
      * exists g, z. by rewrite lookup_insert_ne.
    + intros (g & z & Hg & E1 & E2). apply L in Hg as (z' & ? & ? & ? & ?). exists g, z'. split_and!; congruence.
Qed.

Definition less (f : nat) (R : nat → nat) (g : nat) : nat := (R g - (if decide (g = f) then 1 else 0))%nat.
Definition plus1 (f : nat) (R : nat → nat) (g : nat) : nat := (R g + (if decide (g = f) then 1 else 0))%nat.

Lemma good_dup R w f : good R w → is_Some (w_files w !! f) → good (plus1 f R) (filedup f w).
Proof.
  intros Hg [x Hx]. unfold filedup.
  assert (E : alter (λ x, OFile (f_obj x) (f_r x) (f_w x) (f_off x) (S (f_ref x))) f (w_files w) =
    <[f := OFile (f_obj x) (f_r x) (f_w x) (f_off x) (S (f_ref x))]> (w_files w)).
  { apply map_eq. intros g. destruct (decide (g = f)) as [->|].
    - by rewrite lookup_alter_eq, lookup_insert_eq, Hx.
    - by rewrite lookup_alter_ne, lookup_insert_ne. }
  rewrite E. eapply good_file; [exact Hg|exact Hx|done..| | |].
  - cbn [f_ref]. unfold plus1. rewrite decide_True, (g_ref _ _ Hg f x Hx) by done. lia.
  - unfold plus1. rewrite decide_True by done. lia.
  - intros g Hne. unfold plus1. rewrite decide_False by done. lia.
Qed.
Lemma good_move R w f x n : good R w → w_files w !! f = Some x → good R (move_off f x n w).
Proof.
  intros Hg Hx. eapply good_file; [exact Hg|exact Hx|done..| | |done].
  - exact (g_ref _ _ Hg f x Hx).
  - apply (g_some _ _ Hg). by eexists.
Qed.
Lemma good_data R w n q d : good R w → w_pipes w !! n = Some q → Z.of_nat (length d) ≤ PIPESIZE →
  good R (set_pipes (<[n := Opipe d (q_r q) (q_w q)]> (w_pipes w)) w).
Proof.
  intros [H1 H2 H3 H4 H5 H6] Hq Hd. split; try done.
  - intros f x m Hx Ho. destruct (H4 f x m Hx Ho) as [Hs He]. split; [|done]. cbn [w_pipes set_pipes].
    destruct (decide (m = n)) as [->|]; [by rewrite lookup_insert_eq|by rewrite lookup_insert_ne].
  - intros m p. cbn [w_pipes set_pipes w_fresh w_files]. destruct (decide (m = n)) as [->|].
    + rewrite lookup_insert_eq. intros [= <-]. destruct (H6 n q Hq) as (Ha & _ & Hc). by split_and!.
    + rewrite lookup_insert_ne by done. apply H6.
Qed.

(** The last descriptor of a file is closed. *)
Lemma good_last R w f x : good R w → w_files w !! f = Some x → R f = 1%nat →
  good (less f R) (let w := set_files (delete f (w_files w)) w in
                   match f_obj x with OPipe n => pipeclose n (f_w x) w | OInode _ => w end).
Proof.
  intros [H1 H2 H3 H4 H5 H6] Hf HR. cbn zeta. set (w1 := set_files (delete f (w_files w)) w).
  assert (G : ∀ w', w_files w' = delete f (w_files w) → w_fresh w' = w_fresh w →
    (∀ n, is_Some (w_pipes w' !! n) ↔ is_Some (w_pipes w !! n)) →
    (∀ n q, w_pipes w' !! n = Some q → Z.of_nat (length (q_data q)) ≤ PIPESIZE ∧
       ∀ e : bool, (if e then q_w q else q_r q) = true ↔
         ∃ g y, w_files w !! g = Some y ∧ f_obj y = OPipe n ∧ f_w y = e ∧ g ≠ f) →
    good (less f R) w').
  { intros w' E1 E2 E3 E4. split.
    - intros g y. rewrite E1. destruct (decide (g = f)) as [->|]; [by rewrite lookup_delete_eq|].
      rewrite lookup_delete_ne by done. unfold less. rewrite decide_False by done. intros Hy. rewrite (H1 g y Hy). lia.
    - intros g. rewrite E1. unfold less. destruct (decide (g = f)) as [->|].
      + rewrite lookup_delete_eq, HR. split; [lia|by intros []].
      + rewrite lookup_delete_ne by done. rewrite Nat.sub_0_r. apply H2.
    - intros g. rewrite E1, E2. destruct (decide (g = f)) as [->|]; [rewrite lookup_delete_eq; by intros []|].
      rewrite lookup_delete_ne by done. apply H3.
    - intros g y n. rewrite E1. intros [_ Hy]%lookup_delete_Some Ho. rewrite E3. by apply (H4 g y n).
    - intros g h y z n. rewrite E1. intros [_ Hy]%lookup_delete_Some [_ Hz]%lookup_delete_Some. by eapply H5.
    - intros n q Hq. rewrite E2. destruct (E4 n q Hq) as [Hl He]. split_and!; [|done|].
      + assert (is_Some (w_pipes w !! n)) as [q' Hq'] by (apply E3; by eexists). by destruct (H6 n q' Hq').
      + intros e. rewrite He, E1. setoid_rewrite lookup_delete_Some. naive_solver. }
  destruct (f_obj x) as [m|m] eqn:Eo.
  - apply G; try done. intros n q Hq. destruct (H6 n q Hq) as (_ & Hl & He). split; [done|].
    intros e. rewrite He. split; [|naive_solver]. intros (g & y & Hg & Ey & Ew). exists g, y. split_and!; try done. congruence.
  - unfold pipeclose. apply G; try done.
    + intros n. cbn [w_pipes set_pipes w1]. destruct (decide (n = m)) as [->|]; [|by rewrite lookup_alter_ne].
      by rewrite lookup_alter_eq, fmap_is_Some.
    + intros n q. cbn [w_pipes set_pipes w1]. destruct (decide (n = m)) as [->|].
      * rewrite lookup_alter_eq. intros (q0 & Hq & ->)%fmap_Some_1. destruct (H6 m q0 Hq) as (_ & Hl & He).
        split; [by destruct (f_w x)|]. intros e. destruct (decide (e = f_w x)) as [->|Hne].
        -- split; [by destruct (f_w x)|]. intros (g & y & Hy & Ey & Ew & Hgf). destruct Hgf. by eapply (H5 g f y x m).
        -- transitivity ((if e then q_w q0 else q_r q0) = true); [by destruct e, (f_w x)|]. rewrite He.
           split; [|naive_solver]. intros (g & y & Hy & Ey & Ew). exists g, y. split_and!; try done. congruence.
      * rewrite lookup_alter_ne by done. intros Hq. destruct (H6 n q Hq) as (_ & Hl & He). split; [done|].
        intros e. rewrite He. split; [|naive_solver]. intros (g & y & Hg & Ey & Ew). exists g, y. split_and!; try done. congruence.
Qed.
Lemma good_close R w f : good R w → (0 < R f)%nat → good (less f R) (fileclose f w).
Proof.
  intros Hg HR. unfold fileclose. destruct (proj1 (g_some _ _ Hg f) HR) as [x Hx]. rewrite Hx.
  pose proof (g_ref _ _ Hg f x Hx) as Hr. destruct (f_ref x) as [|[|r]] eqn:E; [lia|by apply good_last|].
  eapply good_file; [exact Hg|exact Hx|done..| | |].
  - cbn [f_ref]. unfold less. rewrite decide_True by done. lia.
  - unfold less. rewrite decide_True by done. lia.
  - intros g Hne. unfold less. rewrite decide_False by done. lia.
Qed.
Lemma good_close_all fds R w : good R w → (∀ f, (occ f fds ≤ R f)%nat) →
  good (λ f, (R f - occ f fds)%nat) (close_all fds w).
Proof.
  revert R w. induction fds as [|[f|] fds IH]; intros R w Hg Hle; cbn [close_all].
  - eapply good_ext; [|exact Hg]. intros f. unfold occ. cbn. lia.
  - eapply good_ext; [|apply IH; [apply (good_close R)|]]; [|done| |].
    + intros g. rewrite occ_cons. unfold less. destruct (decide (g = f)), (decide (Some f = Some g)); try congruence; lia.
    + specialize (Hle f). rewrite occ_cons, decide_True in Hle by done. lia.
    + intros g. specialize (Hle g). rewrite occ_cons in Hle. unfold less.
      destruct (decide (g = f)), (decide (Some f = Some g)); try congruence; lia.
  - eapply good_ext; [|apply IH; [exact Hg|]]; intros g; [|specialize (Hle g); revert Hle]; rewrite occ_cons, decide_False by done; lia.
Qed.
Lemma good_dup_all fds R w : good R w → (∀ f, Some f ∈ fds → is_Some (w_files w !! f)) →
  good (λ f, (R f + occ f fds)%nat) (dup_all fds w).
Proof.
  revert R w. induction fds as [|[f|] fds IH]; intros R w Hg Hs; cbn [dup_all].
  - eapply good_ext; [|exact Hg]. intros f. unfold occ. cbn. lia.
  - eapply good_ext; [|apply IH; [apply (good_dup R)|]]; [|done|apply Hs; by left|].
    + intros g. rewrite occ_cons. unfold plus1. destruct (decide (g = f)), (decide (Some f = Some g)); try congruence; lia.
    + intros g Hgin. unfold filedup. cbn [w_files set_files]. assert (is_Some (w_files w !! g)) by (apply Hs; by right).
      destruct (decide (g = f)) as [->|]; [by rewrite lookup_alter_eq, fmap_is_Some|by rewrite lookup_alter_ne].
  - eapply good_ext; [|apply IH; [exact Hg|]]; [intros g; rewrite occ_cons, decide_False by done; lia|].
    intros g Hgin. apply Hs. by right.
Qed.

(** A new file with one descriptor. *)
Lemma good_new R w n r wr_ : good R w →
  good (plus1 (w_fresh w) R) (set_fresh (S (w_fresh w)) (set_files (<[w_fresh w := OFile (OInode n) r wr_ 0 1]> (w_files w)) w)).
Proof.
  intros [H1 H2 H3 H4 H5 H6]. set (f := w_fresh w). set (x := OFile (OInode n) r wr_ 0 1).
  assert (Hnew : w_files w !! f = None).
  { destruct (w_files w !! f) eqn:E; [|done]. assert (f < f)%nat; [apply H3; by eexists|lia]. }
  assert (L : ∀ g y, <[f := x]> (w_files w) !! g = Some y → ∀ m, f_obj y = OPipe m → w_files w !! g = Some y).
  { intros g y. destruct (decide (g = f)) as [->|]; [rewrite lookup_insert_eq; by intros [= <-]|by rewrite lookup_insert_ne]. }
  split; cbn [w_files w_pipes w_fresh set_files set_fresh].
  - intros g y. unfold plus1. destruct (decide (g = f)) as [->|].
    + rewrite lookup_insert_eq. intros [= <-]. cbn. destruct (decide (0 < R f)%nat) as [Hp|]; [|lia].
      apply H2 in Hp. rewrite Hnew in Hp. by destruct Hp.
    + rewrite lookup_insert_ne by done. rewrite Nat.add_0_r. apply H1.
  - intros g. unfold plus1. destruct (decide (g = f)) as [->|].
    + rewrite lookup_insert_eq. split; [by eexists|lia].
    + rewrite lookup_insert_ne, Nat.add_0_r by done. apply H2.
  - intros g. destruct (decide (g = f)) as [->|]; [lia|]. rewrite lookup_insert_ne by done. intros Hs. apply H3 in Hs. lia.
  - intros g y m Hy Ho. eapply H4; [by eapply L|done].
  - intros g h y z m Hy Hz Ey Ez. by eapply H5; [eapply L|eapply L|..].
  - intros m q Hq. destruct (H6 m q Hq) as (Ha & Hb & Hc). split_and!; [lia|done|]. intros e. rewrite Hc. split.
    + intros (g & y & Hg & E1 & E2). exists g, y. split_and!; try done. rewrite lookup_insert_ne; [done|]. intros <-. congruence.
    + intros (g & y & Hg & E1 & E2). exists g, y. split_and!; try done. by eapply L.
Qed.
(** A new pipe: both ends open, one descriptor each. *)
Lemma good_pipe R w : let n := w_fresh w in good R w →
  good (plus1 (S n) (plus1 n R))
    (set_fresh (S (S n)) (set_files (<[n := OFile (OPipe n) true false 0 1]>
      (<[S n := OFile (OPipe n) false true 0 1]> (w_files w))) (set_pipes (<[n := Opipe [] true true]> (w_pipes w)) w))).
Proof.
  intros n [H1 H2 H3 H4 H5 H6].
  assert (Hnew : ∀ g, (n ≤ g)%nat → w_files w !! g = None).
  { intros g Hg. destruct (w_files w !! g) eqn:E; [|done]. assert (g < n)%nat; [apply H3; by eexists|lia]. }
  assert (HR0 : ∀ g, (n ≤ g)%nat → R g = 0%nat).
  { intros g Hg. destruct (decide (0 < R g)%nat) as [Hp|]; [|lia]. apply H2 in Hp. rewrite Hnew in Hp by done. by destruct Hp. }
  set (fs := <[n := OFile (OPipe n) true false 0 1]> (<[S n := OFile (OPipe n) false true 0 1]> (w_files w))).
  assert (L : ∀ g y, fs !! g = Some y →
    g = n ∧ y = OFile (OPipe n) true false 0 1 ∨ g = S n ∧ y = OFile (OPipe n) false true 0 1 ∨ (g < n)%nat ∧ w_files w !! g = Some y).
  { intros g y. unfold fs. rewrite !lookup_insert_Some. intros [[<- <-]|[? [[<- <-]|[? Hg]]]]; [tauto..|].
    right; right. split; [|done]. apply H3. by eexists. }
  assert (K : ∀ g y, w_files w !! g = Some y → fs !! g = Some y).
  { intros g y Hg. assert (g < n)%nat by (apply H3; by eexists). unfold fs. by rewrite !lookup_insert_ne by lia. }
  assert (Kn : fs !! n = Some (OFile (OPipe n) true false 0 1)) by apply lookup_insert_eq.
  assert (Ks : fs !! S n = Some (OFile (OPipe n) false true 0 1)).
  { unfold fs. by rewrite lookup_insert_ne, lookup_insert_eq by lia. }
  assert (Hold : ∀ g y m, w_files w !! g = Some y → f_obj y = OPipe m → (m < n)%nat).
  { intros g y m Hg Ho. destruct (H4 g y m Hg Ho) as [[q Hq] _]. by destruct (H6 m q Hq). }
  split; cbn [w_files w_pipes w_fresh set_files set_fresh set_pipes]; fold fs.
  - intros g y Hy. unfold plus1. destruct (L g y Hy) as [[-> ->]|[[-> ->]|[Hlt Hg]]]; cbn [f_ref].
    + rewrite HR0, decide_True, decide_False by lia. lia.
    + rewrite HR0, decide_False, decide_True by lia. lia.
    + rewrite !decide_False by lia. rewrite (H1 g y Hg). lia.
  - intros g. unfold plus1. destruct (decide (g = n)) as [->|]; [rewrite Kn; split; [by eexists|lia]|].
    destruct (decide (g = S n)) as [->|]; [rewrite Ks; split; [by eexists|lia]|]. rewrite !Nat.add_0_r, H2.
    unfold fs. by rewrite !lookup_insert_ne.
  - intros g [y Hy]. destruct (L g y Hy) as [[-> _]|[[-> _]|[? _]]]; lia.
  - intros g y m Hy Ho. destruct (L g y Hy) as [[-> ->]|[[-> ->]|[Hlt Hg]]]; [injection Ho as <-; by rewrite lookup_insert_eq..|].
    pose proof (Hold g y m Hg Ho). rewrite lookup_insert_ne by lia. by eapply H4.
  - intros g h y z m Hy Hz Ey Ez Ew.
    destruct (L g y Hy) as [[-> ->]|[[-> ->]|[Hg1 Hg]]], (L h z Hz) as [[-> ->]|[[-> ->]|[Hh1 Hh]]]; try done;
      try (injection Ey as <-; pose proof (Hold h z n Hh Ez); lia); try (injection Ez as <-; pose proof (Hold g y n Hg Ey); lia).
    by eapply H5.
  - intros m q. destruct (decide (m = n)) as [->|].
    + rewrite lookup_insert_eq. intros [= <-]. split_and!; [lia|cbn; unfold PIPESIZE; lia|]. intros e.
      split; [|by destruct e]. intros _. destruct e; [exists (S n)|exists n]; eexists; by split_and!.
    + rewrite lookup_insert_ne by done. intros Hq. destruct (H6 m q Hq) as (Ha & Hb & Hc). split_and!; [lia|done|].
      intros e. rewrite Hc. split; [naive_solver|]. intros (g & y & Hg & E1 & E2).
      destruct (L g y Hg) as [[-> ->]|[[-> ->]|[_ Hg']]]; [injection E1; intros; congruence..|eauto].
Qed.

(** ** The world *)

Record ok (w : world) : Prop := {
  ok_good : good (refs w) w;
  ok_tree : tree_ok (w_ino w) (w_next w);
  ok_obj : ∀ f x n, w_files w !! f = Some x → f_obj x = OInode n → is_Some (w_ino w !! n);
  ok_proc : ∀ i p, proc_at w i = Some p → length (p_fds p) = NOFILE ∧ is_Some (w_ino w !! p_cwd p) ∧
    (p_zombie p = true → ∀ f, Some f ∉ p_fds p);
}.

Lemma occ_elem f fds : (0 < occ f fds)%nat ↔ Some f ∈ fds.
Proof.
  unfold occ. split.
  - intros H. destruct (filter (λ o, o = Some f) fds) as [|o l] eqn:E; [simpl in H; lia|].
    assert (Ho : o ∈ filter (λ o, o = Some f) fds) by (rewrite E; by left).
    by apply list_elem_of_filter in Ho as [-> ?].
  - intros H. assert (Ho : Some f ∈ filter (λ o, o = Some f) fds) by (by apply list_elem_of_filter).
    destruct (filter _ _); [by apply not_elem_of_nil in Ho|simpl; lia].
Qed.
Lemma occ_absent f fds : Some f ∉ fds → occ f fds = 0%nat.
Proof. intros H. destruct (occ f fds) eqn:E; [done|]. destruct H. apply occ_elem. lia. Qed.
Lemma proc_at_Some w i p : proc_at w i = Some p ↔ w_procs w !! i = Some (Some p).
Proof. unfold proc_at. destruct (w_procs w !! i); naive_solver. Qed.
Lemma refs_insert w w' i o o' f : w_procs w !! i = Some o → w_procs w' = <[i := o']> (w_procs w) →
  (refs w' f + occ_of f o = refs w f + occ_of f o')%nat.
Proof. intros H E. unfold refs. rewrite E. by apply sum_insert. Qed.
Lemma occ_refs w i p f : proc_at w i = Some p → (occ f (p_fds p) ≤ refs w f)%nat.
Proof.
  intros Hp%proc_at_Some. pose proof (refs_insert w (set_procs (<[i := None]> (w_procs w)) w) i _ None f Hp eq_refl) as H.
  cbn [occ_of] in H. lia.
Qed.
(** The file of a descriptor exists. *)
Lemma fd_exists w i p f : ok w → proc_at w i = Some p → Some f ∈ p_fds p → is_Some (w_files w !! f).
Proof.
  intros Hw Hp Hf. apply (g_some _ _ (ok_good w Hw)). apply occ_elem in Hf. pose proof (occ_refs w i p f Hp). lia.
Qed.
Lemma fd_file_elem p fd f : fd_file p fd = Some f → Some f ∈ p_fds p ∧ p_fds p !! Z.to_nat fd = Some (Some f) ∧ 0 ≤ fd.
Proof.
  unfold fd_file. destruct (Z.ltb_spec fd 0); [done|]. destruct (p_fds p !! Z.to_nat fd) as [o|] eqn:E; [|done].
  cbn. intros ->. split_and!; [by eapply list_elem_of_lookup_2|done|lia].
Qed.

(** A change that leaves files, pipes and descriptors alone. *)
Lemma ok_frame w w' : ok w → w_files w' = w_files w → w_pipes w' = w_pipes w → w_fresh w' = w_fresh w →
  (∀ f, refs w' f = refs w f) → tree_ok (w_ino w') (w_next w') →
  (∀ n, is_Some (w_ino w !! n) → is_Some (w_ino w' !! n)) →
  (∀ i p, proc_at w' i = Some p → length (p_fds p) = NOFILE ∧ is_Some (w_ino w' !! p_cwd p) ∧
     (p_zombie p = true → ∀ f, Some f ∉ p_fds p)) → ok w'.
Proof.
  intros [H1 H2 H3 H4] E1 E2 E3 Er Ht Hi Hp. split; try done.
  - eapply good_same; [exact E1|exact E2|exact E3|]. eapply good_ext; [|exact H1]. by intros f.
  - intros f x n. rewrite E1. intros Hf Ho. eapply Hi, H3; done.
Qed.
(** Only the names change. *)
Lemma ok_names w t next : ok w → tree_ok t next → (∀ n, is_Some (w_ino w !! n) → is_Some (t !! n)) →
  ok (set_next next (set_ino t w)).
Proof.
  intros Hw Ht Hi. eapply ok_frame; [exact Hw|done..|]. intros i p Hp. destruct (ok_proc w Hw i p Hp) as (? & ? & ?).
  split_and!; [done| |done]. by apply Hi.
Qed.
Lemma set_next_id w : set_next (w_next w) w = w.
Proof. by destruct w. Qed.

(** The process itself changes, its descriptors do not. *)
Lemma ok_put w i p p' : ok w → proc_at w i = Some p → p_fds p' = p_fds p → is_Some (w_ino w !! p_cwd p') →
  p_zombie p' = p_zombie p → ok (put_proc i p' w).
Proof.
  intros Hw Hp Ef Hc Ez. pose proof (proj1 (proc_at_Some w i p) Hp) as Hl.
  eapply ok_frame; [exact Hw|done..| |apply Hw|done|].
  - intros f. pose proof (refs_insert w (put_proc i p' w) i (Some p) (Some p') f Hl eq_refl) as H.
    cbn [occ_of] in H. rewrite Ef in H. lia.
  - intros j q. rewrite proc_at_put by (by eapply proc_at_lt). destruct (decide (j = i)) as [->|].
    + intros [= <-]. rewrite Ef, Ez. destruct (ok_proc w Hw i p Hp) as (? & _ & ?). by split_and!.
    + apply (ok_proc w Hw).
Qed.

(** Files and pipes change, the processes do not. *)
Lemma ok_files w w' : ok w → w_procs w' = w_procs w → w_ino w' = w_ino w → w_next w' = w_next w →
  good (refs w) w' →
  (∀ f x n, w_files w' !! f = Some x → f_obj x = OInode n → is_Some (w_ino w !! n)) → ok w'.
Proof.
  intros Hw Ep Ei En Hg Ho. split.
  - unfold refs in *. by rewrite Ep.
  - rewrite Ei, En. apply Hw.
  - by rewrite Ei.
  - intros i p Hp. rewrite Ei. apply (ok_proc w Hw i). unfold proc_at in *. by rewrite <- Ep.
Qed.
Lemma ok_move w f x n : ok w → w_files w !! f = Some x → ok (move_off f x n w).
Proof.
  intros Hw Hx. eapply ok_files; [exact Hw|done..|by apply good_move, Hx; apply Hw|].
  intros g y m. cbn [w_files set_files move_off]. destruct (decide (g = f)) as [->|].
  - rewrite lookup_insert_eq. intros [= <-] Ho. by eapply (ok_obj w Hw f x).
  - rewrite lookup_insert_ne by done. apply (ok_obj w Hw).
Qed.
Lemma ok_console w i o : ok w → ok (set_in i (set_out o w)).
Proof. intros Hw. eapply ok_files; [exact Hw|done..|apply (good_same _ w); [done..|apply Hw]|apply (ok_obj w Hw)]. Qed.
Lemma ok_pipe_data w n q d : ok w → w_pipes w !! n = Some q → Z.of_nat (length d) ≤ PIPESIZE →
  ok (set_pipes (<[n := Opipe d (q_r q) (q_w q)]> (w_pipes w)) w).
Proof. intros Hw Hq Hd. eapply ok_files; [exact Hw|done..|by apply good_data; [apply Hw|..]|apply (ok_obj w Hw)]. Qed.
Lemma ok_luck w : ok w → ok (set_calls (S (w_calls w)) w).
Proof. intros Hw. eapply ok_files; [exact Hw|done..|apply (good_same _ w); [done..|apply Hw]|apply (ok_obj w Hw)]. Qed.

Lemma tree_ok_data t next n d : tree_ok t next → (∀ s, slots_of t n ≠ Some s) →
  tree_ok (alter (λ e, Ino (Reg d) (n_link e)) n t) next.
Proof.
  intros [Hr Hb Hn Ho] Hnd.
  assert (Hs : ∀ m, slots_of (alter (λ e, Ino (Reg d) (n_link e)) n t) m = slots_of t m).
  { intros m. unfold slots_of. destruct (decide (m = n)) as [->|]; [|by rewrite lookup_alter_ne].
    rewrite lookup_alter_eq. specialize (Hnd). unfold slots_of in Hnd.
    destruct (t !! n) as [[[] l]|]; try done. by destruct (Hnd s). }
  assert (Hi : ∀ m, is_Some (alter (λ e, Ino (Reg d) (n_link e)) n t !! m) ↔ is_Some (t !! m)).
  { intros m. destruct (decide (m = n)) as [->|]; [|by rewrite lookup_alter_ne].
    by rewrite lookup_alter_eq, fmap_is_Some. }
  split; intros *; rewrite ?Hs, ?Hi; [done|apply Hb|apply Hn|apply Ho].
Qed.
Lemma ok_data w n d d' l : ok w → w_ino w !! n = Some (Ino (Reg d') l) → ok (put_data n d w).
Proof.
  intros Hw Hn. unfold put_data. rewrite <- (set_next_id (set_ino _ w)). apply ok_names; [done| |].
  - apply tree_ok_data; [apply Hw|]. intros s. unfold slots_of. by rewrite Hn.
  - intros m. destruct (decide (m = n)) as [->|]; [|by rewrite lookup_alter_ne].
    by rewrite lookup_alter_eq, fmap_is_Some.
Qed.

(** ** Every call keeps it *)

Lemma ok_read w p fd n x w' : ok w → read p fd n w = Done x w' → ok w'.
Proof.
  intros Hw. unfold read. destruct (fd_file p fd) as [f|]; [|by intros [= _ <-]].
  destruct (w_files w !! f) as [y|] eqn:Ey; [|by intros [= _ <-]]. destruct (f_r y); [|by intros [= _ <-]]. cbn [negb].
  destruct (f_obj y) as [m|m]; unfold read_inode, read_pipe.
  - destruct (n_body <$> w_ino w !! m) as [[d|s|a b]|]; [intros [= _ <-]; by apply ok_move..| |by intros [= _ <-]].
    destruct (a =? CONSOLE); [|by intros [= _ <-]]. destruct (w_in w) as [|c l]; [done|]. intros [= _ <-].
    apply ok_move; [|done]. destruct (ok_console w (drop (length (typed (Z.to_nat n) (c :: l))) (c :: l)) (w_out w) Hw).
    by split.
  - destruct (w_pipes w !! m) as [q|] eqn:Eq; [|by intros [= _ <-]].
    destruct (g_ends _ _ (ok_good w Hw) m q Eq) as (_ & Hl & _).
    destruct (q_data q) as [|c l] eqn:Ed; [destruct (q_w q); [done|by intros [= _ <-]]|]. intros [= _ <-].
    apply ok_pipe_data; [done..|]. rewrite length_drop. lia.
Qed.
Lemma ok_write_pipe w n b io : ok w → match write_pipe n b io w with Done _ w' | Partly _ w' => ok w' | Wait => True end.
Proof.
  intros Hw. unfold write_pipe. destruct (w_pipes w !! n) as [q|] eqn:Eq; [|done].
  destruct (g_ends _ _ (ok_good w Hw) n q Eq) as (_ & Hl & _).
  assert (Hok : ok (set_pipes (<[n := Opipe (q_data q ++ take (Z.to_nat (PIPESIZE - Z.of_nat (length (q_data q)))) (drop io b))
    (q_r q) (q_w q)]> (w_pipes w)) w)).
  { apply ok_pipe_data; [done..|]. rewrite length_app, length_take. lia. }
  destruct (_ <=? _); [done|]. destruct (_ =? 0); [by destruct (q_r q)|done].
Qed.
Lemma ok_write w p fd b io : ok w → match write p fd b io w with Done _ w' | Partly _ w' => ok w' | Wait => True end.
Proof.
  intros Hw. unfold write. destruct (fd_file p fd) as [f|]; [|done].
  destruct (w_files w !! f) as [y|] eqn:Ey; [|done]. destruct (f_w y); [|done]. cbn [negb].
  destruct (f_obj y) as [m|m]; [|by apply ok_write_pipe]. unfold write_inode.
  destruct (w_ino w !! m) as [[[d|s|a c] l]|] eqn:Em; cbn [fmap option_fmap option_map n_body]; [|done| |done].
  - destruct (_ <=? _); (apply ok_move; [by eapply ok_data|done]).
  - destruct (a =? CONSOLE); [|done]. apply ok_move; [|done]. destruct (ok_console w (w_in w) (w_out w ++ b) Hw). by split.
Qed.
(** Every file of [w'] is one of [w], but for its offset and its count. *)
Definition sub_files (w w' : world) : Prop := ∀ g y, w_files w' !! g = Some y →
  ∃ x, w_files w !! g = Some x ∧ f_obj y = f_obj x ∧ f_r y = f_r x ∧ f_w y = f_w x.
Lemma sub_files_eq w w' : w_files w' = w_files w → sub_files w w'.
Proof. intros E g y. rewrite E. eauto 10. Qed.
Lemma sub_files_trans w1 w2 w3 : sub_files w1 w2 → sub_files w2 w3 → sub_files w1 w3.
Proof.
  intros H1 H2 g y Hg. destruct (H2 g y Hg) as (x & Hx & ? & ? & ?), (H1 g x Hx) as (z & Hz & ? & ? & ?).
  exists z. split_and!; congruence.
Qed.

Lemma fileclose_rest f w : w_ino (fileclose f w) = w_ino w ∧ w_next (fileclose f w) = w_next w ∧
  sub_files w (fileclose f w).
Proof.
  unfold fileclose. destruct (w_files w !! f) as [x|] eqn:E; [|split_and!; [done..|by apply sub_files_eq]].
  assert (D : ∀ w', w_files w' = delete f (w_files w) → sub_files w w').
  { intros w' E1 g y. rewrite E1. intros [_ Hg]%lookup_delete_Some. eauto 10. }
  destruct (f_ref x) as [|[|r]]; [destruct (f_obj x); (split_and!; [done..|by apply D])..|].
  split_and!; [done..|]. intros g y. cbn [w_files set_files]. rewrite lookup_insert_Some.
  intros [[<- <-]|[_ Hg]]; [|by eauto 10]. rewrite E. by eexists.
Qed.
Lemma close_all_rest fds w : w_ino (close_all fds w) = w_ino w ∧ w_next (close_all fds w) = w_next w ∧
  w_procs (close_all fds w) = w_procs w ∧
  sub_files w (close_all fds w).
Proof.
  revert w. induction fds as [|[f|] fds IH]; intros w; cbn [close_all]; [split_and!; [done..|by apply sub_files_eq]| |apply IH].
  destruct (IH (fileclose f w)) as (E1 & E2 & E3 & E4), (fileclose_rest f w) as (F1 & F2 & F4).
  rewrite E1, E2, E3, fileclose_procs. split_and!; [done..|]. by eapply sub_files_trans.
Qed.

(** A process changes its descriptors to [fds], and the files with them. *)
Lemma ok_fds w w' i p fds : ok w → proc_at w i = Some p → length fds = NOFILE → p_zombie p = false →
  w_procs w' = <[i := Some (set_fds fds p)]> (w_procs w) → w_ino w' = w_ino w → w_next w' = w_next w →
  (∀ R, (∀ g, (R g + occ g (p_fds p) = refs w g + occ g fds)%nat) → good R w') →
  (∀ f x n, w_files w' !! f = Some x → f_obj x = OInode n → is_Some (w_ino w !! n)) → ok w'.
Proof.
  intros Hw Hp Hl Hz Ep Ei En Hg Ho. pose proof (proj1 (proc_at_Some w i p) Hp) as Hi.
  split; [|rewrite Ei, En; apply Hw|by rewrite Ei|].
  - apply Hg. intros g. exact (refs_insert w w' i (Some p) _ g Hi Ep).
  - intros j q Hq. rewrite Ei.
    assert (Hj : proc_at (put_proc i (set_fds fds p) w) j = Some q) by (unfold proc_at in *; by rewrite <- Hq, Ep).
    rewrite proc_at_put in Hj by (by eapply proc_at_lt). destruct (decide (j = i)) as [->|]; [|by apply (ok_proc w Hw j)].
    injection Hj as <-. cbn. rewrite Hz. split_and!; [done| |done]. by apply (ok_proc w Hw i p).
Qed.

Lemma ok_close w i p fd : ok w → proc_at w i = Some p → p_zombie p = false → ok (close i p fd w).2.
Proof.
  intros Hw Hp Hz. unfold close. destruct (fd_file p fd) as [f|] eqn:Ef; [|done]. cbn [snd].
  destruct (fd_file_elem p fd f Ef) as (Hin & Hl & _).
  set (fds := <[Z.to_nat fd := None]> (p_fds p)). set (w1 := put_proc i (set_fds fds p) w).
  destruct (fileclose_rest f w1) as (E1 & E2 & E4).
  apply (ok_fds w _ i p fds); [done|done|unfold fds; rewrite length_insert; by apply (ok_proc w Hw i p)|done| |done|done| |].
  - by rewrite fileclose_procs.
  - intros R HR. eapply (good_ext (less f (refs w))); [|apply good_close; [apply (good_same _ w); [done..|apply Hw]|]].
    + intros g. specialize (HR g). pose proof (occ_insert g (p_fds p) _ _ None Hl) as Ho. fold fds in Ho.
      pose proof (occ_refs w i p g Hp). unfold less. rewrite (decide_False (P := None = Some g)) in Ho by done.
      destruct (decide (g = f)), (decide (Some f = Some g)); try congruence; lia.
    + apply (g_some _ _ (ok_good w Hw)). by eapply fd_exists.
  - intros g x n Hg Ho. destruct (E4 g x Hg) as (y & Hy & Ey & _). rewrite Ey in Ho. by eapply (ok_obj w Hw g y).
Qed.
Lemma free_slot_spec {A} (l : list (option A)) k j : free_slot l k = Some j → (k ≤ j)%nat ∧ l !! (j - k)%nat = Some None.
Proof.
  revert k. induction l as [|[a|] l IH]; intros k; cbn [free_slot]; [done| |].
  - intros [H1 H2]%IH. split; [lia|]. by replace (j - k)%nat with (S (j - S k)) by lia.
  - intros [= ->]. by rewrite Nat.sub_diag.
Qed.
Lemma free_slot_at {A} (l : list (option A)) j : free_slot l 0 = Some j → l !! j = Some None.
Proof. intros [_ H]%free_slot_spec. by rewrite Nat.sub_0_r in H. Qed.

Lemma ok_dup w i p fd : ok w → proc_at w i = Some p → p_zombie p = false → ok (dup i p fd w).2.
Proof.
  intros Hw Hp Hz. unfold dup. destruct (fd_file p fd) as [f|] eqn:Ef; [|done].
  destruct (free_slot (p_fds p) 0) as [j|] eqn:Ej; [|done]. cbn [snd]. apply free_slot_at in Ej.
  destruct (fd_file_elem p fd f Ef) as (Hin & _ & _). pose proof (fd_exists w i p f Hw Hp Hin) as Hx.
  set (fds := <[j := Some f]> (p_fds p)).
  apply (ok_fds w _ i p fds); [done|done|unfold fds; rewrite length_insert; by apply (ok_proc w Hw i p)|done|done|done|done| |].
  - intros R HR. apply (good_same _ (filedup f w)); [done..|].
    eapply (good_ext (plus1 f (refs w))); [|by apply good_dup; [apply Hw|]].
    intros g. specialize (HR g). pose proof (occ_insert g (p_fds p) j None (Some f) Ej) as Ho. fold fds in Ho.
    rewrite decide_False in Ho by done. unfold plus1. destruct (decide (g = f)), (decide (Some f = Some g)); try congruence; lia.
  - intros g x n. cbn [w_files put_proc set_procs filedup set_files]. destruct (decide (g = f)) as [->|].
    + rewrite lookup_alter_eq. intros (y & Hy & ->)%fmap_Some_1 Ho. by eapply (ok_obj w Hw f y).
    + rewrite lookup_alter_ne by done. apply (ok_obj w Hw).
Qed.
Lemma ok_install w i p fd n r wr_ : ok w → proc_at w i = Some p → p_zombie p = false → p_fds p !! fd = Some None →
  is_Some (w_ino w !! n) → ok (install i p fd (OFile (OInode n) r wr_ 0 1) w).
Proof.
  intros Hw Hp Hz Hfd Hn. set (f := w_fresh w). set (fds := <[fd := Some f]> (p_fds p)).
  apply (ok_fds w _ i p fds); [done|done|unfold fds; rewrite length_insert; by apply (ok_proc w Hw i p)|done|done|done|done| |].
  - intros R HR. eapply (good_ext (plus1 f (refs w)));
      [|apply (good_same _ (set_fresh (S f) (set_files (<[f := OFile (OInode n) r wr_ 0 1]> (w_files w)) w))); [done..|]].
    + intros g. specialize (HR g). pose proof (occ_insert g (p_fds p) fd None (Some f) Hfd) as Ho. fold fds in Ho.
      rewrite decide_False in Ho by done. unfold plus1. destruct (decide (g = f)), (decide (Some f = Some g)); try congruence; lia.
    + apply good_new, Hw.
  - intros g x m. cbn [w_files install put_proc set_procs set_fresh set_files]. fold f. rewrite lookup_insert_Some.
    intros [[<- <-]|[_ Hg]] Ho; [by injection Ho as <-|by eapply (ok_obj w Hw g x)].
Qed.
Lemma create_grows t next cwd path k n t' m : tree_ok t next → create t next cwd path k = Some (n, t') →
  is_Some (t !! m) → is_Some (t' !! m).
Proof.
  intros Ht. unfold create. destruct (namex t cwd path true) as [[dp name]|]; [|done].
  destruct (t !! dp) as [[[|s|] l]|] eqn:Ed; try done. destruct (dirlookup s name).
  - destruct k; try done. destruct (is_reg t _); [|done]. by intros [= <- <-].
  - intros [= <- <-] Hm. destruct (decide (m = dp)) as [->|]; [by rewrite lookup_insert_eq|].
    rewrite lookup_insert_ne by done. destruct (decide (m = next)) as [->|]; [by rewrite lookup_insert_eq|].
    by rewrite lookup_insert_ne.
Qed.
Lemma ok_create w cwd path k n t : ok w → create (w_ino w) (w_next w) cwd path k = Some (n, t) →
  ok (set_next (S (w_next w)) (set_ino t w)) ∧ is_Some (t !! n).
Proof.
  intros Hw Hc. destruct (create_ok _ _ _ _ _ _ _ (ok_tree w Hw) Hc) as [Ht Hn]. split; [|done].
  apply ok_names; [done..|]. intros m. eapply create_grows; [apply Hw|exact Hc].
Qed.
Lemma ok_created w r x w' : ok w → (∀ n t, r = Some (n, t) → ok (set_next (S (w_next w)) (set_ino t w))) →
  created r w = Done x w' → ok w'.
Proof. intros Hw Hr. destruct r as [[n t]|]; intros [= _ <-]; [by eapply Hr|done]. Qed.

Lemma ok_open w i p path mode : ok w → proc_at w i = Some p → p_zombie p = false → ok (open i p path mode w).2.
Proof.
  intros Hw Hp Hz. unfold open. destruct (open_inode p path mode w) as [[n w1]|] eqn:E; [|done].
  assert (H1 : ok w1 ∧ is_Some (w_ino w1 !! n) ∧ proc_at w1 i = Some p).
  { unfold open_inode in E. destruct (has mode O_CREATE).
    - destruct (create _ _ _ _ _) as [[m t]|] eqn:Ec; [|done]. injection E as <- <-.
      destruct (ok_create w _ _ _ _ _ Hw Ec). by split_and!.
    - destruct (namei _ _ _) as [m|] eqn:En; [|done]. cbn in E.
      assert (is_Some (w_ino w !! m)) by (eapply namei_ok; [apply Hw| |exact En]; by apply (ok_proc w Hw i p)).
      destruct (slots_of _ _); [destruct (mode =? O_RDONLY)|]; simplify_eq; by split_and!. }
  destruct H1 as (Hw1 & Hn & Hp1). cbn [lucky]. apply ok_luck in Hw1.
  destruct (free_slot (p_fds p) 0) as [fd|] eqn:Ef; [|done].
  destruct (w_luck w1 (w_calls w1)); [|done]. apply free_slot_at in Ef. by apply ok_install.
Qed.
Lemma ok_pipe w i p : ok w → proc_at w i = Some p → p_zombie p = false → ok (pipe i p w).2.
Proof.
  intros Hw Hp Hz. unfold pipe. cbn [lucky]. apply ok_luck in Hw. set (w1 := set_calls (S (w_calls w)) w) in *.
  change (proc_at w1 i = Some p) in Hp. destruct (w_luck w (w_calls w)); [|done].
  destruct (free_slot (p_fds p) 0) as [a|] eqn:Ea; [|done]. destruct (free_slot (<[a := Some 0%nat]> (p_fds p)) 0) as [b|] eqn:Eb; [|done].
  apply free_slot_at in Ea, Eb. cbn [snd]. set (n := w_fresh w1). set (fds := <[b := Some (S n)]> (<[a := Some n]> (p_fds p))).
  assert (Hab : b ≠ a). { intros ->. rewrite list_lookup_insert_eq in Eb; [done|]. by eapply lookup_lt_Some. }
  rewrite list_lookup_insert_ne in Eb by done.
  apply (ok_fds w1 _ i p fds); [done|done|unfold fds; rewrite !length_insert; by apply (ok_proc w1 Hw i p)|done|done|done|done| |].
  - intros R HR. eapply (good_ext (plus1 (S n) (plus1 n (refs w1))));
      [|apply (good_same _ (set_fresh (S (S n)) (set_files (<[n := OFile (OPipe n) true false 0 1]>
         (<[S n := OFile (OPipe n) false true 0 1]> (w_files w1))) (set_pipes (<[n := Opipe [] true true]> (w_pipes w1)) w1))));
       [done..|apply good_pipe, Hw]].
    intros g. specialize (HR g). pose proof (occ_insert g (p_fds p) a None (Some n) Ea) as Ho1.
    assert (Eb' : <[a := Some n]> (p_fds p) !! b = Some None) by (by rewrite list_lookup_insert_ne).
    pose proof (occ_insert g _ b None (Some (S n)) Eb') as Ho2. fold fds in Ho2.
    rewrite (decide_False (P := None = Some g)) in Ho1, Ho2 by done. unfold plus1.
    destruct (decide (g = n)), (decide (Some n = Some g)), (decide (g = S n)), (decide (Some (S n) = Some g)); try congruence; lia.
  - intros g x m. cbn [w_files put_proc set_procs set_fresh set_files]. rewrite !lookup_insert_Some.
    intros [[<- <-]|[_ [[<- <-]|[_ Hg]]]] Ho; [done..|by eapply (ok_obj w1 Hw g x)].
Qed.

(** A process goes from the table. *)
Lemma ok_reap w j q : ok w → proc_at w j = Some q → p_zombie q = true → ok (set_procs (<[j := None]> (w_procs w)) w).
Proof.
  intros Hw Hq Hz. pose proof (proj1 (proc_at_Some w j q) Hq) as Hl.
  eapply ok_frame; [exact Hw|done..| |apply Hw|done|].
  - intros f. pose proof (refs_insert w (set_procs (<[j := None]> (w_procs w)) w) j (Some q) None f Hl eq_refl) as H.
    cbn [occ_of] in H. rewrite (occ_absent f (p_fds q)) in H; [lia|]. by apply (ok_proc w Hw j q).
  - intros i p. unfold proc_at. cbn [w_procs set_procs]. destruct (decide (i = j)) as [->|].
    + rewrite list_lookup_insert_eq by (by eapply lookup_lt_Some). done.
    + rewrite list_lookup_insert_ne by done. apply (ok_proc w Hw).
Qed.
Lemma find_zombie_spec i l k j pid : find_zombie i l k = Some (j, pid) →
  (k ≤ j)%nat ∧ ∃ q, l !! (j - k)%nat = Some (Some q) ∧ p_parent q = i ∧ p_zombie q = true ∧ p_id q = pid.
Proof.
  revert k. induction l as [|[q|] l IH]; intros k; cbn [find_zombie]; [done| |].
  - destruct ((p_parent q =? i)%nat && p_zombie q) eqn:E.
    + intros [= <- <-]. apply andb_prop in E as [E%Nat.eqb_eq Hz]. split; [lia|]. rewrite Nat.sub_diag. by exists q.
    + intros (Hle & q' & Hq & ?)%IH. split; [lia|]. exists q'. by replace (j - k)%nat with (S (j - S k)) by lia.
  - intros (Hle & q' & Hq & ?)%IH. split; [lia|]. exists q'. by replace (j - k)%nat with (S (j - S k)) by lia.
Qed.
Lemma find_zombie_proc i w j pid : find_zombie i (w_procs w) 0 = Some (j, pid) →
  ∃ q, proc_at w j = Some q ∧ p_parent q = i ∧ p_zombie q = true ∧ p_id q = pid.
Proof.
  intros (_ & q & Hq & ?)%find_zombie_spec. rewrite Nat.sub_0_r in Hq. exists q. by rewrite proc_at_Some.
Qed.
(** Processes change, but neither their descriptors nor their directories. *)
Lemma ok_procs w g : ok w →
  (∀ p, p_fds (g p) = p_fds p ∧ p_cwd (g p) = p_cwd p ∧ p_zombie (g p) = p_zombie p) →
  ∀ l, length l = length (w_procs w) →
  (∀ i o, l !! i = Some o → ∃ o', w_procs w !! i = Some o' ∧ (o = o' ∨ o = g <$> o')) → ok (set_procs l w).
Proof.
  intros Hw Hg l Hlen Hl. eapply ok_frame; [exact Hw|done..| |apply Hw|done|].
  - intros f. unfold refs. cbn [w_procs set_procs]. f_equal. apply list_eq. intros i. rewrite !list_lookup_fmap.
    destruct (l !! i) as [o|] eqn:E.
    + destruct (Hl i o E) as (o' & -> & [->| ->]); [done|]. destruct o' as [p|]; [|done].
      change (Some (occ f (p_fds (g p))) = Some (occ f (p_fds p))). by rewrite (proj1 (Hg p)).
    + apply lookup_ge_None_1 in E. by rewrite lookup_ge_None_2 by lia.
  - intros i p Hp%proc_at_Some. cbn [w_procs set_procs] in Hp. destruct (Hl i _ Hp) as (o' & Ho & [E|E]).
    + subst o'. apply proc_at_Some in Ho. by apply (ok_proc w Hw i).
    + destruct o' as [q|]; [|done]. injection E as ->. destruct (Hg q) as (-> & -> & ->).
      apply (ok_proc w Hw i). by apply proc_at_Some.
Qed.
Lemma ok_wait w i x w' : ok w → wait i w = Done x w' → ok w'.
Proof.
  intros Hw. unfold wait. destruct (find_zombie i (w_procs w) 0) as [[j pid]|] eqn:E.
  - destruct (find_zombie_proc i w j pid E) as (q & Hq & _ & Hz & _). intros [= _ <-]. by eapply ok_reap.
  - destruct (existsb _ _); [done|]. by intros [= _ <-].
Qed.
Lemma ok_kill w pid : ok w → ok (kill pid w).2.
Proof.
  intros Hw. unfold kill. destruct (find_pid pid (w_procs w) 0) as [j|]; [|done].
  apply (ok_procs w set_killed); [done..|by rewrite length_alter|]. intros i o Ho.
  destruct (decide (i = j)) as [->|]; [|rewrite list_lookup_alter_ne in Ho by done; by eauto].
  rewrite list_lookup_alter_eq in Ho. apply fmap_Some_1 in Ho as (o' & Ho & ->). eauto.
Qed.
Lemma ok_chdir w i p path : ok w → proc_at w i = Some p → ok (chdir i p path w).2.
Proof.
  intros Hw Hp. unfold chdir. destruct (namei _ _ _) as [n|] eqn:En; [|done].
  destruct (slots_of _ _) as [s|] eqn:Es; [|done]. eapply ok_put; [done..| |done]. cbn.
  apply slots_of_Some in Es as [l ->]. done.
Qed.
(** Inodes stay. *)
Lemma change_dom d n dp e (t : inodes) m : is_Some (t !! m) → is_Some (alter (add_link d) n (<[dp := e]> t) !! m).
Proof.
  intros Hm. apply is_Some_alter_link.
  destruct (decide (m = dp)) as [->|]; [by rewrite lookup_insert_eq|by rewrite lookup_insert_ne].
Qed.
Lemma unlink_dom t cwd path t' m : unlink t cwd path = Some t' → is_Some (t !! m) → is_Some (t' !! m).
Proof. unfold unlink. intros H Hm. repeat case_match; simplify_eq; by apply change_dom. Qed.
Lemma link_dom t cwd old new t' m : link t cwd old new = Some t' → is_Some (t !! m) → is_Some (t' !! m).
Proof. unfold link. intros H Hm. repeat case_match; simplify_eq; by apply change_dom. Qed.

Lemma ok_named w r : ok w → (∀ t, r = Some t → tree_ok t (w_next w) ∧ ∀ m, is_Some (w_ino w !! m) → is_Some (t !! m)) →
  match named r w with Done _ w' | Partly _ w' => ok w' | Wait => True end.
Proof.
  intros Hw Hr. destruct r as [t|]; [|done]. cbn [named]. rewrite <- (set_next_id (set_ino t w)).
  destruct (Hr t eq_refl). by apply ok_names.
Qed.
Lemma ok_made w cwd path k : ok w →
  match created (create (w_ino w) (w_next w) cwd path k) w with Done _ w' | Partly _ w' => ok w' | Wait => True end.
Proof.
  intros Hw. unfold created. destruct (create _ _ _ _ _) as [[n t]|] eqn:E; [|done]. by eapply ok_create.
Qed.

Lemma ok_call {X : Set} (c : call X) w i p io : ok w → proc_at w i = Some p → p_zombie p = false →
  match do_call c i p io w with Done _ w' | Partly _ w' => ok w' | Wait => True end.
Proof.
  intros Hw Hp Hz. pose proof (proj1 (proj2 (ok_proc w Hw i p Hp))) as Hcwd.
  destruct c; cbn [do_call done].
  - destruct (wait i w) as [x w'|io' w'|] eqn:E; [by eapply ok_wait| |done]. unfold wait in E. by repeat case_match.
  - by apply ok_pipe.
  - by apply ok_write.
  - destruct (read p fd n w) as [x w'|io' w'|] eqn:E; [by eapply ok_read| |done].
    unfold read, read_inode, read_pipe in E. by repeat case_match.
  - by apply ok_close.
  - by apply ok_kill.
  - by apply ok_open.
  - by apply ok_made.
  - apply ok_named; [done|]. intros t E. split; [eapply unlink_ok; [apply Hw|exact E]|].
    intros m. by eapply unlink_dom.
  - apply ok_named; [done|]. intros t E. split; [eapply link_ok; [apply Hw|exact Hcwd|exact E]|].
    intros m. by eapply link_dom.
  - by apply ok_made.
  - by apply ok_chdir.
  - by apply ok_dup.
  - done.
  - done.
Qed.
Lemma ok_own {X : Set} (c : own X) w i p x w' : ok w → proc_at w i = Some p →
  do_own c i p w = Some (x, w') → ok w'.
Proof.
  intros Hw Hp. pose proof (proj1 (proj2 (ok_proc w Hw i p Hp))) as Hcwd.
  assert (Hput : ∀ p', p_fds p' = p_fds p → p_cwd p' = p_cwd p → p_zombie p' = p_zombie p → ok (put_proc i p' w)).
  { intros p' E1 E2 E3. eapply ok_put; [done..|by rewrite E2|done]. }
  destruct c; cbn [do_own]; intros H.
  - by injection H as _ <-.
  - injection H as H. unfold sbrk in H. cbn [lucky] in H. pose proof (ok_luck w Hw) as Hw1.
    repeat case_match; simplify_eq; try done; try (by apply Hput). by eapply (ok_put _ i p).
  - destruct (mapped p a); [|done]. by injection H as _ <-.
  - destruct (mapped p a); [|done]. injection H as _ <-. by apply Hput.
  - destruct (mapped_word p a); [|done]. by injection H as _ <-.
  - destruct (mapped_word p a); [|done]. injection H as _ <-. by apply Hput.
  - by injection H as _ <-.
  - by injection H as _ <-.
Qed.

(** ** Every step keeps it *)

Lemma dup_all_rest fds w : w_ino (dup_all fds w) = w_ino w ∧ w_next (dup_all fds w) = w_next w ∧
  w_procs (dup_all fds w) = w_procs w ∧ w_pid (dup_all fds w) = w_pid w ∧
  sub_files w (dup_all fds w).
Proof.
  revert w. induction fds as [|[f|] fds IH]; intros w; cbn [dup_all]; [split_and!; [done..|by apply sub_files_eq]| |apply IH].
  destruct (IH (filedup f w)) as (E1 & E2 & E3 & E5 & E4). rewrite E1, E2, E3, E5. split_and!; [done..|]. intros g y Hg.
  destruct (E4 g y Hg) as (x & Hx & ? & ? & ?). cbn [w_files filedup set_files] in Hx.
  destruct (decide (g = f)) as [->|]; [|rewrite lookup_alter_ne in Hx by done; by eauto 10].
  rewrite lookup_alter_eq in Hx. apply fmap_Some_1 in Hx as (z & Hz & ->). exists z. by split_and!.
Qed.
Lemma ok_fork w i p : ok w → proc_at w i = Some p → ok (fork i p w).2.
Proof.
  intros Hw Hp. unfold fork. cbn [lucky]. apply ok_luck in Hw. set (w1 := set_calls (S (w_calls w)) w) in *.
  change (proc_at w1 i = Some p) in Hp. destruct (free_slot (w_procs w1) 0) as [j|] eqn:Ej; [|done].
  destruct (w_luck w (w_calls w)); [|done]. cbn [snd]. apply free_slot_at in Ej.
  destruct (dup_all_rest (p_fds p) w1) as (E1 & E2 & E3 & E5 & E4).
  set (child := Prc (p_fds p) (p_cwd p) (w_pid w1) i (p_sz p) (p_guard p) (p_mem p) false false).
  set (w2 := put_proc j child (set_pid (w_pid w1 + 1) (dup_all (p_fds p) w1))).
  assert (Ep : w_procs w2 = <[j := Some child]> (w_procs w1)) by (cbn; by rewrite E3).
  split.
  - eapply good_ext; [|apply (good_same _ (dup_all (p_fds p) w1));
      [done..|apply good_dup_all; [apply Hw|intros f; by eapply fd_exists]]].
    intros f. pose proof (refs_insert w1 w2 j None (Some child) f Ej Ep) as H. cbn [occ_of] in H.
    change (occ f (p_fds child)) with (occ f (p_fds p)) in H. cbn beta. lia.
  - change (tree_ok (w_ino (dup_all (p_fds p) w1)) (w_next (dup_all (p_fds p) w1))). rewrite E1, E2. apply Hw.
  - intros f x n Hf Ho. change (is_Some (w_ino (dup_all (p_fds p) w1) !! n)). rewrite E1.
    destruct (E4 f x Hf) as (y & Hy & Ey & _). rewrite Ey in Ho. by eapply (ok_obj w1 Hw f y).
  - intros k q Hq%proc_at_Some. change (is_Some (w_ino w2 !! p_cwd q)) with (is_Some (w_ino (dup_all (p_fds p) w1) !! p_cwd q)).
    rewrite E1. rewrite Ep in Hq. destruct (ok_proc w1 Hw i p Hp) as (? & ? & ?). destruct (decide (k = j)) as [->|].
    + rewrite list_lookup_insert_eq in Hq by (by eapply lookup_lt_Some). injection Hq as <-. by split_and!.
    + rewrite list_lookup_insert_ne in Hq by done. apply proc_at_Some in Hq. by apply (ok_proc w1 Hw k).
Qed.
Lemma ok_exit w i p : ok w → proc_at w i = Some p → ok (exit i p w).
Proof.
  intros Hw Hp. pose proof (proj1 (proc_at_Some w i p) Hp) as Hi. destruct (ok_proc w Hw i p Hp) as (_ & Hc & _).
  destruct (close_all_rest (p_fds p) w) as (E1 & E2 & E3 & E4). unfold exit.
  set (w1 := close_all (p_fds p) w) in *. set (p1 := set_zombie (set_fds (replicate NOFILE None) p)).
  set (w2 := put_proc i p1 w). set (l := give_to_init i <$> w_procs w).
  assert (Hl : ∀ j, l !! j = give_to_init i <$> w_procs w !! j) by (intros j; apply list_lookup_fmap).
  assert (Hlen : length l = length (w_procs w)) by apply length_fmap.
  assert (Hrefs : ∀ f, sum_list (occ_of f <$> l) = refs w f).
  { intros f. unfold refs, l. rewrite <- list_fmap_compose. f_equal. apply list_fmap_ext. intros _ [q|] _; [|done].
    cbn. by destruct (p_parent q =? i)%nat. }
  cbn zeta. rewrite E3. fold l.
  split; cbn [w_procs w_ino w_next w_files put_proc set_procs].
  - eapply good_ext; [|apply (good_same _ w1); [done..|apply good_close_all; [apply Hw|intros f; by eapply occ_refs]]].
    intros f. unfold refs at 2. cbn [w_procs put_proc set_procs].
    pose proof (sum_insert (occ_of f) l i (give_to_init i (Some p)) (Some p1)) as H. rewrite Hl, Hi in H.
    specialize (H eq_refl). rewrite Hrefs in H.
    assert (Ho : occ_of f (give_to_init i (Some p)) = occ f (p_fds p)) by (cbn; by destruct (_ =? _)%nat).
    rewrite Ho in H. cbn [occ_of p1 p_fds set_zombie set_fds] in H. rewrite occ_none in H. lia.
  - rewrite E1, E2. apply Hw.
  - intros f x n Hf Ho. rewrite E1. destruct (E4 f x Hf) as (y & Hy & Ey & _). rewrite Ey in Ho. by eapply (ok_obj w Hw f y).
  - intros j q. rewrite E1. unfold proc_at. cbn [w_procs put_proc set_procs]. destruct (decide (j = i)) as [->|].
    + rewrite list_lookup_insert_eq by (rewrite Hlen; by eapply lookup_lt_Some). intros [= <-]. split_and!; [done..|].
      intros _ f Hf%elem_of_replicate_inv. done.
    + rewrite list_lookup_insert_ne, Hl by done. destruct (w_procs w !! j) as [[q'|]|] eqn:Ej; [|done..].
      cbn. intros [= <-]. destruct (ok_proc w Hw j q') as (? & ? & ?); [by apply proc_at_Some|].
      by destruct (p_parent q' =? i)%nat.
Qed.
Lemma ok_exec image w i p path argv : ok w → proc_at w i = Some p → ok (exec image i p path argv w).2.
Proof.
  intros Hw Hp. pose proof (proj1 (proj2 (ok_proc w Hw i p Hp))) as Hc. unfold exec. cbn [lucky].
  apply ok_luck in Hw. destruct (find_image _ _ _ _) as [g|]; [|done]. destruct (_ && _); [|done].
  by eapply (ok_put _ i p).
Qed.

Lemma step_ok image i s s' : ok (o_w s) → step image i s = Some s' → ok (o_w s').
Proof.
  intros Hw. unfold step. destruct (proc_at (o_w s) i) as [p|] eqn:Hp; [|done].
  destruct (prog_at s i) as [io pr]. destruct (p_zombie p) eqn:Hz; [done|].
  assert (Hexit : ∀ k, (if (i =? 0)%nat then None else Some (goes_on i (exit i p (o_w s)) 0 k s)) = Some s' → ok (o_w s')).
  { intros k. destruct (i =? 0)%nat; [done|]. intros [= <-]. by apply ok_exit. }
  destruct (p_killed p); [apply Hexit|].
  destruct pr as [a| | |k|path argv k|X c k|X c k]; [apply Hexit|apply Hexit|done|..].
  - pose proof (ok_fork (o_w s) i p Hw Hp) as H. destruct (fork i p (o_w s)) as [[[j pid]|] w]; by intros [= <-].
  - pose proof (ok_exec image (o_w s) i p path argv Hw Hp) as H.
    destruct (exec image i p path argv (o_w s)) as [[m|] w]; by intros [= <-].
  - pose proof (ok_call c (o_w s) i p io Hw Hp Hz) as H. destruct (do_call c i p io (o_w s)); by intros [= <-].
  - destruct (do_own c i p (o_w s)) as [[x w]|] eqn:E; intros [= <-]; cbn; [by eapply ok_own|].
    eapply ok_put; [done..| |done]. by apply (ok_proc (o_w s) Hw i p).
Qed.

(** Under every schedule the world stays consistent: each open file counts exactly the
    descriptors that refer to it, each end of a pipe is open as long as one does, no pipe
    holds more than 512 bytes, every name in use leads to an inode and occurs once in its
    directory, and every process has a current directory that exists. *)
Theorem schedules_consistent (image : list Z → option program) (l : list nat) (s : os) :
  ok (o_w s) → ok (o_w (sched image l s)).
Proof.
  revert s. induction l as [|i l IH]; intros s Hs; [done|]. cbn. apply IH.
  destruct (step image i s) as [s'|] eqn:E; [|done]. by eapply step_ok.
Qed.

(** * A process among others that stand still

    What a test of usertests.c starts from: a process with a console, alone but for
    processes that have ended or spin, in a consistent world. *)

(** ** exit() and fork() on the table *)

Lemma exit_procs j q w : w_procs (exit j q w) =
  <[j := Some (set_zombie (set_fds (replicate NOFILE None) q))]> (give_to_init j <$> w_procs w).
Proof. unfold exit. cbn. by destruct (close_all_rest (p_fds q) w) as (_ & _ & -> & _). Qed.
Lemma exit_proc_at j q w k : proc_at w j = Some q → proc_at (exit j q w) k =
  if decide (k = j) then Some (set_zombie (set_fds (replicate NOFILE None) q)) else give_to_init j (proc_at w k).
Proof.
  intros Hq%proc_at_lt. unfold proc_at. rewrite exit_procs. destruct (decide (k = j)) as [->|].
  - by rewrite list_lookup_insert_eq by (by rewrite length_fmap).
  - rewrite list_lookup_insert_ne, list_lookup_fmap by done. by destruct (w_procs w !! k) as [[]|].
Qed.
Lemma close_all_misc fds w : w_out (close_all fds w) = w_out w ∧ w_pid (close_all fds w) = w_pid w ∧
  w_luck (close_all fds w) = w_luck w.
Proof.
  revert w. induction fds as [|[g|] fds IH]; intros w; [done| |apply IH]. cbn [close_all].
  destruct (IH (fileclose g w)) as (-> & -> & ->). unfold fileclose. by repeat case_match.
Qed.
Lemma dup_all_out fds w : w_out (dup_all fds w) = w_out w.
Proof. revert w. induction fds as [|[g|] fds IH]; intros w; [done| |apply IH]. cbn [dup_all]. by rewrite IH. Qed.

(** The console stays what it is while files only change their counts and offsets. *)
Lemma tty_file p f w w' x : tty p w f x → is_Some (w_files w' !! f) → w_ino w' = w_ino w →
  sub_files w w' → ∃ y, tty p w' f y.
Proof.
  intros (H1 & H2 & H3 & n & m & l & H4 & H5) [y Hy] Ei Hf.
  destruct (Hf f y Hy) as (x' & Hx' & E1 & E2 & E3). rewrite H2 in Hx'. injection Hx' as <-.
  exists y. split_and!; [done..|congruence|]. exists n, m, l. rewrite Ei. split; [congruence|done].
Qed.
Lemma tty_keep i p f w w' x : tty p w f x → ok w' → proc_at w' i = Some p → w_ino w' = w_ino w →
  sub_files w w' → ∃ y, tty p w' f y.
Proof.
  intros Ht Hw Hp. destruct (fd_file_elem p 1 f (proj1 Ht)) as (Hin & _ & _).
  eapply tty_file; [done|]. by eapply fd_exists.
Qed.

(** ** What the tests need *)

(** A process in slot [i] among others that stand still: it has no children, a console,
    and a parent that is there. *)
Record ready (i : nat) (p : prc) (w : world) (progs : list (nat * prog unit)) : Prop := {
  rd_ok : ok w;
  rd_me : proc_at w i = Some p;
  rd_alive : alive p = true;
  rd_tty : ∃ f x, tty p w f x;
  rd_alone : alone i w progs;
  rd_kids : ∀ j q, proc_at w j = Some q → p_parent q ≠ i;
  rd_len : length progs = length (w_procs w) ∧ (length (w_procs w) ≤ NPROC)%nat;
  rd_pid : 0 < w_pid w;
  rd_init : i ≠ 0%nat ∧ is_Some (proc_at w 0) ∧ is_Some (proc_at w (p_parent p));
}.

Lemma ok_shown w f x text : ok w → w_files w !! f = Some x → ok (shown f x text w).
Proof.
  intros Hw Hx. destruct (ok_console w (w_in w) (w_out w ++ text) Hw) as [H1 H2 H3 H4].
  apply (ok_move (set_out (w_out w ++ text) w)); [by split|done].
Qed.
Lemma ready_shown i p w progs f x text k : ready i p w progs → tty p w f x →
  ready i p (shown f x text w) (<[i := (0%nat, k)]> progs).
Proof.
  intros [Hok Hme Hal _ Ha Hk Hl Hpid Hi] Ht. split; try done.
  - apply ok_shown; [done|apply Ht].
  - exists f, (moved (length text) x). by apply tty_shown.
  - eapply alone_same; [by apply same_others_eq|done].
  - by rewrite length_insert.
Qed.

(** printf() of a process that is ready. *)
Lemma ready_say image i p w progs fmt args text K : ready i p w progs →
  progs !! i = Some (0%nat, User.printf 1 fmt args ≫= K) → format fmt args = text →
  inevitably image (λ s, ∃ w' progs', s = OS w' progs' ∧ ready i p w' progs' ∧ progs' !! i = Some (0%nat, K tt) ∧
    w_out w' = w_out w ++ text ∧ w_ino w' = w_ino w) (OS w progs).
Proof.
  intros Hr Hp <-. destruct (rd_tty _ _ _ _ Hr) as (f & x & Ht).
  eapply inevitably_mono; [|eapply (eval_inevitably image i (User.printf 1 fmt args));
    [by eapply eval_printf; [apply Hr..|exact Ht]|apply Hr|exact Hp]].
  intros s [-> _]. eexists _, _. split_and!; [done|by apply ready_shown| |done..].
  apply list_lookup_insert_eq. by eapply lookup_lt_Some.
Qed.

