(* ===== verification/OsRefine.v ===== *)
(** * The kernel implements the calls of the specification

    The module Os says what the system calls mean.  Here the code of the kernel is shown
    to do that for pipes and for directories: pipewrite and piperead of pipe.c on the
    ring of 512 bytes against a queue, dirlookup and dirlink of fs.c on the blocks of a
    directory against a list of names.  The last part is about wait and kill of proc.c
    and the process table. *)

From stdpp Require Import base gmap list strings.
From Stdlib Require Import ZArith Lia.
From S2P Require Import Prelude Params Kmonad Ring Cstring Console Kalloc Vm Bio BioSpec Log LogSpec LogOps Fs FsTxn FsAlloc.
From S2P Require Import FsFree FsInode FsFile FsRw FsDir Pipe Kstate File Proc ProcSpec ProcTable ProcExit User Os.

(** ** Pipes *)

(** The struct pipe holds the bytes of the queue and has the same ends open. *)
Record pipe_match (q : Os.opipe) (p : pipe) : Prop := {
  pm_rep : pipe_rep p (Os.q_data q);
  pm_r : readopen p = Os.q_r q;
  pm_w : writeopen p = Os.q_w q;
}.

Lemma rep_short p l : pipe_rep p l → Z.of_nat (length l) ≤ PIPESIZE.
Proof. by intros (_ & _ & _ & H & _). Qed.

(** What pipewrite stores: as many of the bytes as there is room for. *)
Lemma pipewrite_takes todo p l : pipe_rep p l →
  let room := Z.to_nat (PIPESIZE - Z.of_nat (length l)) in
  let '(r, p') := pipewrite_loop false todo p in
  pipe_rep p' (l ++ take room todo) ∧ readopen p' = readopen p ∧ writeopen p' = writeopen p ∧
  r = if decide (length todo ≤ room)%nat then Pdone else if readopen p then Pwait (drop room todo) else Pfail.
Proof.
  intros Hp room. pose proof (rep_short p l Hp) as Hl. pose proof (pipewrite_loop_rep false todo p l Hp) as H.
  destruct (pipewrite_loop false todo p) as [r p']. destruct H as (dn & rest & -> & Hp' & Hro & Hwo & Hr).
  pose proof (rep_short _ _ Hp') as Hl'. rewrite length_app in Hl'.
  assert (Hfull : length (l ++ dn) = 512%nat → length dn = room) by (rewrite length_app; unfold room, PIPESIZE; lia).
  destruct r as [| |rest'].
  - subst rest. rewrite app_nil_r, take_ge, decide_True by (unfold room; lia). by split_and!.
  - destruct Hr as (Hne & Hf & [Hrd|]); [|done]. rewrite take_app_length' by (symmetry; auto).
    rewrite decide_False, Hrd; [by split_and!; [|congruence|..]|]. rewrite length_app. destruct rest; [done|]. cbn. specialize (Hfull Hf). lia.
  - destruct Hr as (-> & Hne & Hf & Hrd & _). rewrite take_app_length', drop_app_length' by (symmetry; auto).
    rewrite decide_False, Hrd; [by split_and!; [|congruence|..]|]. rewrite length_app. destruct rest'; [done|]. cbn. specialize (Hfull Hf). lia.
Qed.
(** The locking and waking around the loop. *)
Lemma pipewrite_run pa todo n k p : held k = [] → ∃ k',
  pipewrite pa false todo n k p =
    match pipewrite_loop false todo p with
    | (Pdone, p') => Done n k' p'
    | (Pfail, p') => Done (-1) k' p'
    | (Pwait _, p') => Blocked (CNwrite pa) k' p'
    end.
Proof.
  destruct k as [h w]. cbn [held]. intros ->. unfold pipewrite.
  mb (acquire_eq (LPipe pa) (Kctx [] w) p ltac:(simpl; set_solver)). mb (gets_eq (λ p, p) (Kctx [LPipe pa] w) p).
  destruct (pipewrite_loop false todo p) as [r p'].
  mb (modify_eq (λ _, p') (Kctx [LPipe pa] w) p). destruct r as [| |rest'].
  - eexists. mgo. done.
  - eexists. mgo. done.
  - assert (Hw : Kmonad.wakeup (CNread pa) (Kctx [LPipe pa] w) p' = Done tt (Kctx [LPipe pa] (CNread pa :: w)) p')
      by (apply wakeup_eq; simpl; set_solver).
    eexists. mb Hw. by rewrite sleep_eq.
Qed.

(** What is left of pipe [n] in [w] is what is left in [p]. *)
Definition pipe_at (w : Os.world) (n : nat) (p : pipe) : Prop := ∃ q, Os.w_pipes w !! n = Some q ∧ pipe_match q p.

(** The call to pipewrite that writes the bytes of [b] behind the first [io], as the
    specification has it.  When the pipe fills and nobody can read it the kernel fails at
    once, where the specification takes one more step to the same end. *)
Definition write_implemented (pa : Z) (n : nat) (b : list Z) (io : nat) (w : Os.world) (k : kctx) (p : pipe) : Prop :=
  let call := pipewrite pa false (drop io b) (Z.of_nat (length b)) k p in
  match Os.write_pipe n b io w with
  | Os.Done x w' => ∃ k' p', call = Done x k' p' ∧ pipe_at w' n p'
  | Os.Wait => ∃ k' p', call = Blocked (CNwrite pa) k' p' ∧ pipe_at w n p'
  | Os.Partly io' w' => ∃ k' p', pipe_at w' n p' ∧
      (call = Blocked (CNwrite pa) k' p' ∧ pipewrite_loop false (drop io b) p = (Pwait (drop io' b), p') ∨
       call = Done (-1) k' p' ∧ Os.write_pipe n b io' w' = Os.Done (-1) w')
  end.
Definition read_implemented (pa : Z) (n m : nat) (w : Os.world) (k : kctx) (p : pipe) : Prop :=
  let call := piperead pa false (Z.of_nat m) k p in
  match Os.read_pipe n m w with
  | Os.Done (Some l) w' => ∃ k' p', call = Done (Z.of_nat (length l), l) k' p' ∧ pipe_at w' n p'
  | Os.Wait => ∃ k', call = Blocked (CNread pa) k' p
  | _ => False
  end.

Lemma write_implements pa n b io w k p : pipe_at w n p → held k = [] → write_implemented pa n b io w k p.
Proof.
  intros (q & Hq & [Hp Hr Hw]) Hk. unfold write_implemented. pose proof (rep_short _ _ Hp) as Hl.
  destruct (pipewrite_run pa (drop io b) (Z.of_nat (length b)) k p Hk) as [k' ->].
  pose proof (pipewrite_takes (drop io b) p _ Hp) as H. destruct (pipewrite_loop false (drop io b) p) as [r p'].
  cbv zeta in H. unfold Os.write_pipe. rewrite Hq. cbv zeta. set (room := PIPESIZE - Z.of_nat (length (Os.q_data q))) in *.
  destruct H as (Hp' & Hr' & Hw' & ->). set (q' := Os.Opipe (Os.q_data q ++ take (Z.to_nat room) (drop io b)) (Os.q_r q) (Os.q_w q)).
  assert (Hm : pipe_match q' p') by (split; [done|cbn; congruence..]).
  assert (Hat : pipe_at (Os.set_pipes (<[n := q']> (Os.w_pipes w)) w) n p') by (exists q'; split; [apply lookup_insert_eq|done]).
  destruct (decide (length (drop io b) ≤ Z.to_nat room)%nat) as [Hle|Hgt], (Z.leb_spec (Z.of_nat (length (drop io b))) room); try lia.
  - eauto.
  - destruct (Z.eqb_spec room 0) as [E0|Hne].
    + rewrite Hr. assert (Hsame : pipe_at w n p').
      { exists q. split; [done|]. split; [|congruence..]. by rewrite E0, app_nil_r in Hp'. }
      destruct (Os.q_r q); eauto.
    + exists k', p'. split; [done|]. rewrite Hr. destruct (Os.q_r q) eqn:Eqr; [left; by rewrite drop_drop|right]. split; [done|].
      cbn [Os.w_pipes Os.set_pipes]. rewrite lookup_insert_eq. cbn [q' Os.q_data Os.q_r].
      assert (Hlen : length (take (Z.to_nat room) (drop io b)) = Z.to_nat room) by (rewrite length_take; lia).
      rewrite length_app, Hlen. rewrite length_drop in *.
      destruct (Z.leb_spec (Z.of_nat (length b - (io + Z.to_nat room))) (PIPESIZE - Z.of_nat (length (Os.q_data q) + Z.to_nat room))); [lia|].
      by destruct (Z.eqb_spec (PIPESIZE - Z.of_nat (length (Os.q_data q) + Z.to_nat room)) 0); [|lia].
Qed.
Lemma read_implements pa n m w k p : pipe_at w n p → held k = [] → read_implemented pa n m w k p.
Proof.
  intros (q & Hq & [Hp Hr Hw]) Hk. unfold read_implemented, Os.read_pipe. rewrite Hq.
  pose proof (piperead_cases pa false m k p _ Hp Hk) as H. rewrite Hw in H.
  destruct (Os.q_data q) as [|c l] eqn:El; cbn [bool_decide andb] in H.
  - rewrite bool_decide_eq_true_2 in H by done. cbn [andb] in H. destruct (Os.q_w q) eqn:Eqw; [eauto|].
    destruct H as (p' & E & Hp' & E1 & E2). rewrite take_nil in E. rewrite drop_nil in Hp'. exists (Kctx [] (CNwrite pa :: wakeups k)), p'.
    split; [done|]. exists q. split; [done|]. split; [by rewrite El|congruence..].
  - rewrite bool_decide_eq_false_2 in H by done. destruct H as (p' & E & Hp' & E1 & E2). cbn iota.
    eexists _, p'. split; [exact E|]. eexists. split; [apply lookup_insert_eq|]. split; [done|cbn; congruence..].
Qed.

(** C15: pipe.c implements the pipe calls of the specification: from a struct pipe whose ring holds the bytes of the
    queue and whose ends are open as the specification has them, pipewrite and piperead return, sleep and leave behind
    what write() and read() of the specification do.  A write that sleeps has stored the bytes the specification says
    and goes on with the others. *)
Theorem pipe_calls_implemented (pa : Z) (n : nat) (w : Os.world) (k : kctx) (p : pipe) :
  pipe_at w n p → held k = [] →
  (∀ b io, write_implemented pa n b io w k p) ∧ (∀ m, read_implemented pa n m w k p).
Proof. intros Hp Hk. split; intros; [by apply write_implements|by apply read_implements]. Qed.

Definition queue_world : Os.world :=
  Os.World ∅ 1 ∅ {[5%nat := Os.Opipe [] true true]} 6 [] 1 [] [] (λ _, true) 0.
Lemma pipe_calls_implemented_witness :
  write_implemented 77 5 [1; 2] 0 queue_world (Kctx [] []) (pipe0 (replicate 512 0)) ∧
  read_implemented 77 5 4 queue_world (Kctx [] []) (pipe0 (replicate 512 0)).
Proof.
  destruct (pipe_calls_implemented 77 5 queue_world (Kctx [] []) (pipe0 (replicate 512 0))) as [H1 H2].
  - exists (Os.Opipe [] true true). split; [done|]. split; [by apply pipe0_rep|done..].
  - done.
  - split; [apply H1|apply H2].
Defined.

(** ** Directories *)

(** The entries of a directory as names and inode numbers. *)
Definition slot_of (de : dirent) : nat * list Z := (Z.to_nat (de_inum de), cname DIRSIZ (de_name de)).
Definition slots_in (es : list dirent) : Os.slots := slot_of <$> es.
(** The blocks of the directory hold the list, in entries of two bytes and fourteen. *)
Record dir_match (s : fsstate) (x : inode) (l : Os.slots) : Prop := {
  dm_ok : dir_ok s x;
  dm_slots : slots_in (dirents s x) = l;
  dm_inum : Forall (λ de, 0 ≤ de_inum de) (dirents s x);
}.

Lemma lookup_slots es name : Forall (λ de, 0 ≤ de_inum de) es →
  Os.dirlookup (slots_in es) (cname DIRSIZ name) = (λ x, Z.to_nat (de_inum x.2)) <$> list_find (names name) es.
Proof.
  induction 1 as [|de es Hde Hes IH]; [done|]. cbn [slots_in fmap list_fmap slot_of Os.dirlookup list_find].
  unfold names at 1 2. destruct (decide (de_inum de ≠ 0 ∧ _)) as [[Hn Hc]|Hno].
  - rewrite bool_decide_eq_true_2; [done|]. split; [lia|done].
  - rewrite bool_decide_eq_false_2 by (intros [Hn Hc]; apply Hno; split; [lia|done]).
    etransitivity; [exact IH|]. by destruct (list_find (names name) es) as [[]|].
Qed.
Lemma slot_new name inum : slot_of (new_entry name inum) = (Z.to_nat (u16 inum), cname DIRSIZ name).
Proof. unfold slot_of, new_entry. cbn [de_inum de_name]. by rewrite cname_strncpy. Qed.
Lemma add_slots es name inum : Forall (λ de, 0 ≤ de_inum de) es →
  Os.add_entry (slots_in es) (cname DIRSIZ name) (Z.to_nat (u16 inum)) = slots_in (set_entry (free_index es) (new_entry name inum) es).
Proof.
  induction 1 as [|de es Hde Hes IH].
  - change ([(Z.to_nat (u16 inum), cname DIRSIZ name)] = [slot_of (new_entry name inum)]). by rewrite slot_new.
  - unfold free_index in *. cbn [list_find]. unfold unused at 1 2. destruct (decide (de_inum de = 0)) as [E|Hne].
    + change (slots_in (set_entry 0 (new_entry name inum) (de :: es))) with (slot_of (new_entry name inum) :: slots_in (drop 0 es)).
      rewrite slot_new, drop_0. change (slots_in (de :: es)) with (slot_of de :: slots_in es). unfold slot_of at 1. by rewrite E.
    + change (slots_in (de :: es)) with ((Z.to_nat (de_inum de), cname DIRSIZ (de_name de)) :: slots_in es). cbn [Os.add_entry].
      destruct (Z.to_nat (de_inum de)) as [|m] eqn:Em; [lia|]. rewrite IH, <- Em.
      by destruct (list_find unused es) as [[j de']|].
Qed.

(** dirlookup finds the inode number the list has for the name. *)
Definition lookup_implemented (dsw : devsw) (dp : nat) (name : list Z) (k : kctx) (s : fsstate) (l : Os.slots) : Prop :=
  match Os.dirlookup l (cname DIRSIZ name) with
  | Some n =>
    (∃ k' ip off s', dirlookup dsw dp name k s = Done (Some (ip, off)) k' s' ∧ i_inum (thei ip s') = Z.of_nat n) ∨
    dirlookup dsw dp name k s = Panicked "iget: no inodes"
  | None => ∃ k' s', dirlookup dsw dp name k s = Done None k' s' ∧ dir_match s' (thei dp s') l
  end.
(** dirlink adds the name to the list; on a name that is there it fails and the disk stays
    what it was. *)
Definition link_implemented (dsw : devsw) (dp : nat) (name : list Z) (inum : Z) (k : kctx) (s : fsstate) (l : Os.slots) : Prop :=
  match Os.dirlink l (cname DIRSIZ name) (Z.to_nat (u16 inum)) with
  | Some l' => ∃ k' s', dirlink dsw dp name inum k s = Done 0 k' s' ∧ dir_match s' (thei dp s') l'
  | None =>
    (∃ k' s', dirlink dsw dp name inum k s = Done (-1) k' s' ∧ ∀ b, fview s' b = fview s b) ∨
    dirlink dsw dp name inum k s = Panicked "iget: no inodes"
  end.

Lemma match_find s x l name : dir_match s x l →
  Os.dirlookup l (cname DIRSIZ name) = (λ x, Z.to_nat (de_inum x.2)) <$> list_find (names name) (dirents s x).
Proof. intros [_ <- H]. by apply lookup_slots. Qed.
Lemma lookup_implements dsw r dp name k s l : 1 ≤ r → (dp < length (icache s))%nat → in_txn [] r (lg s) → held k = [] →
  fs_ok s → dir_match s (thei dp s) l → icache_ok s → lookup_implemented dsw dp name k s l.
Proof.
  intros Hr Hdp Hin Hk Hok Hm Hic. pose proof (dirlookup_finds dsw r s k dp name Hr Hdp Hin Hk Hok (dm_ok _ _ _ Hm) Hic) as H.
  unfold lookup_implemented. rewrite (match_find s _ l name Hm).
  destruct (list_find (names name) (dirents s (thei dp s))) as [[j de]|] eqn:E; cbn [fmap option_fmap option_map snd].
  - destruct H as [(ls & k' & ip & s' & _ & E' & _ & _ & G)|H]; [left|by right]. exists k', ip, (DIRENT * Z.of_nat j), s'. split; [done|].
    rewrite (proj2 (got_id _ _ _ _ _ G)). apply list_find_Some in E as (Hj & _). pose proof (Forall_lookup_1 _ _ _ _ (dm_inum _ _ _ Hm) Hj). simpl in *. lia.
  - destruct H as (ls & k' & Q & _ & E'). exists k', (set_lg ls s). split; [done|].
    destruct (quiet_fs r s (thei dp s) ls Hok (dm_ok _ _ _ Hm) Q) as (_ & Hd' & He & _).
    change (thei dp (set_lg ls s)) with (thei dp s).
    assert (Ed : dirents (set_lg ls s) (thei dp s) = dirents s (thei dp s)) by (apply list_fmap_ext; intros; apply He).
    destruct Hm as [_ Hl Hi]. split; [done|by rewrite Ed|by rewrite Ed].
Qed.
Lemma link_implements dsw r dp name inum k s l :
  let j := free_index (dirents s (thei dp s)) in
  can_write dp r (DIRENT * Z.of_nat j) DIRENT (put_dirent (new_entry name inum)) s → held k = [] →
  dir_match s (thei dp s) l → icache_ok s → link_implemented dsw dp name inum k s l.
Proof.
  intros j Hc Hk Hm Hic. unfold link_implemented, Os.dirlink. rewrite (match_find s _ l name Hm).
  pose proof (write_cost_nonneg s (thei dp s) (touched (DIRENT * Z.of_nat j) DIRENT)) as Hnn. pose proof (cw_log _ _ _ _ _ _ Hc) as Hlog.
  destruct (list_find (names name) (dirents s (thei dp s))) as [[i de]|] eqn:E; cbn [fmap option_fmap option_map].
  - destruct (dirlink_exists dsw r s k dp name inum) as [(k' & s' & E' & _ & _ & Hv & _)|H]; [lia|apply Hc|apply Hc|done|apply Hc|apply Hm|done|by rewrite E|left|by right].
    by exists k', s'.
  - destruct (dirlink_run dsw r dp name inum k s Hc Hk (dm_ok _ _ _ Hm) E) as (k' & s' & E' & _ & _ & D). exists k', s'. split; [done|].
    assert (Hu : 0 ≤ u16 inum < 2 ^ 16) by (apply Z.mod_pos_bound; lia).
    assert (Hj : (j ≤ nents (thei dp s))%nat) by (rewrite <- (length_dirents s (thei dp s)); apply free_index_le).
    pose proof (entry_dirents dp j (new_entry name inum) s s' (dm_ok _ _ _ Hm) Hj Hu (length_strncpy_l _ _) D) as Es.
    split; [exact (entry_dir dp j (new_entry name inum) s s' (dm_ok _ _ _ Hm) Hj (length_strncpy_l _ _) D)| |]; rewrite Es.
    + rewrite <- (dm_slots _ _ _ Hm), add_slots by apply Hm. done.
    + apply Forall_app. split; [apply Forall_take, Hm|]. apply Forall_cons. split; [cbn; lia|]. apply Forall_drop, Hm.
Qed.

(** C8: fs.c implements the directories of the specification: from a directory whose blocks spell the list, inside a
    transaction, dirlookup returns the inode with the number the list has for the name, or nothing, and dirlink leaves
    blocks that spell the list with the name added, or fails on a name that is there.  The only other outcome is the
    panic of a full inode cache. *)
Theorem directory_calls_implemented (dsw : devsw) (r : Z) (dp : nat) (name : list Z) (inum : Z) (k : kctx) (s : fsstate) (l : Os.slots) :
  let j := free_index (dirents s (thei dp s)) in
  can_write dp r (DIRENT * Z.of_nat j) DIRENT (put_dirent (new_entry name inum)) s → held k = [] →
  dir_match s (thei dp s) l → icache_ok s →
  lookup_implemented dsw dp name k s l ∧ link_implemented dsw dp name inum k s l.
Proof.
  intros j Hc Hk Hm Hic. split; [|by eapply link_implements].
  pose proof (write_cost_nonneg s (thei dp s) (touched (DIRENT * Z.of_nat j) DIRENT)) as Hnn. pose proof (cw_log _ _ _ _ _ _ Hc) as Hlog.
  apply (lookup_implements dsw r); [lia|apply Hc|apply Hc|done|apply Hc|done|done].
Qed.

Lemma directory_calls_implemented_witness :
  let l := replicate 44 (0%nat, []) in
  lookup_implemented no_devices 0 demo_name (Kctx [] []) demo_dir_fs l ∧
  link_implemented no_devices 0 demo_name 5 (Kctx [] []) demo_dir_fs l.
Proof.
  apply (directory_calls_implemented no_devices 10 0 demo_name 5 (Kctx [] []) demo_dir_fs (replicate 44 (0%nat, []))).
  - change (thei 0 demo_dir_fs) with (demo_inode T_DIR 704). rewrite demo_dirents. exact demo_dir_can_write.
  - reflexivity.
  - change (thei 0 demo_dir_fs) with (demo_inode T_DIR 704). split; [exact demo_dir_ok| |]; rewrite demo_dirents.
    + reflexivity.
    + apply Forall_replicate. done.
  - exact demo_icache.
Defined.

(** * wait and kill of proc.c implement the calls of the specification

    The process table of the kernel against the table of the specification: the same
    processes in the same slots, with the same numbers, parents and marks.  wait() and
    kill() keep the two together. *)

(** ** The tables *)

(** Slot [j]: free, or a process.  init, which has no parent, is its own in the specification. *)
Definition slot_match (j : nat) (o : option Os.prc) (p : proc) : Prop :=
  match o with
  | None => p_state p = UNUSED ∧ p_pid p = 0 ∧ p_parent p = None
  | Some q =>
    p_state p ≠ UNUSED ∧ p_pid p = Os.p_id q ∧ p_killed p = Os.p_killed q ∧
    p_parent p = (if decide (Os.p_parent q = j) then None else Some (Os.p_parent q)) ∧
    (p_state p = ZOMBIE ↔ Os.p_zombie q = true)
  end.
Record table_match (w : Os.world) (s : kst) : Prop := {
  tm_len : length (Os.w_procs w) = length (k_procs s);
  tm_slot : ∀ j o, Os.w_procs w !! j = Some o → slot_match j o (thep j s);
}.

(** One slot of both tables changes. *)
Lemma match_change w s s' z o : table_match w s → (z < length (k_procs s))%nat → length (k_procs s') = length (k_procs s) →
  slot_match z o (thep z s') → (∀ j, j ≠ z → thep j s' = thep j s) →
  table_match (Os.set_procs (<[z := o]> (Os.w_procs w)) w) s'.
Proof.
  intros [Hl Hs] Hz Hl' Ho Hj. split; cbn [Os.w_procs Os.set_procs]; [by rewrite length_insert, Hl'|].
  intros j o'. destruct (decide (j = z)) as [->|Hne].
  - rewrite list_lookup_insert_eq by lia. by intros [= <-].
  - rewrite list_lookup_insert_ne, Hj by done. apply Hs.
Qed.

(** ** wait *)

(** The scan of the kernel and the search of the specification, from slot [b] on. *)
Lemma scan_matches i (l : list (option Os.prc)) (ps : list proc) b kids : length l = length ps →
  (∀ j o, l !! j = Some o → slot_match (b + j) o (nthz proc0 ps j)) →
  (∀ q, l !! (i - b)%nat = Some (Some q) → (b ≤ i)%nat → Os.p_parent q ≠ i) →
  wait_scan ps b i kids =
    match Os.find_zombie i l b with
    | Some (z, _) => (Some z, true)
    | None => (None, kids || existsb (Os.is_child i) l)
    end.
Proof.
  revert ps b kids. induction l as [|o l IH]; intros [|p ps] b kids Hlen Hm Hi; try done; [by rewrite orb_false_r|].
  injection Hlen as Hlen. pose proof (Hm 0%nat o eq_refl) as H0. rewrite Nat.add_0_r in H0. cbn [nthz] in H0. unfold nthz in H0. cbn in H0.
  assert (Hm' : ∀ j o, l !! j = Some o → slot_match (S b + j) o (nthz proc0 ps j)).
  { intros j o' Hj. pose proof (Hm (S j) o' Hj) as H. by rewrite Nat.add_succ_r in H. }
  assert (Hi' : ∀ q, l !! (i - S b)%nat = Some (Some q) → (S b ≤ i)%nat → Os.p_parent q ≠ i).
  { intros q Hq Hle. apply (Hi q); [|lia]. by replace (i - b)%nat with (S (i - S b)) by lia. }
  cbn [wait_scan Os.find_zombie existsb]. destruct o as [q|]; cbn [slot_match Os.is_child] in *.
  - destruct H0 as (_ & _ & _ & Hp & Hz). rewrite Hp. destruct (Nat.eqb_spec (Os.p_parent q) i) as [E|E]; cbn [andb orb].
    + destruct (decide (Os.p_parent q = b)) as [Eb|Eb].
      { destruct (Hi q); [|lia|done]. by replace (i - b)%nat with 0%nat by lia. }
      rewrite E, bool_decide_eq_true_2 by done. cbn [negb]. destruct (Os.p_zombie q).
      * rewrite bool_decide_eq_true_2 by (by apply Hz). done.
      * rewrite bool_decide_eq_false_2 by (by intros ?%Hz). rewrite (IH ps (S b) true Hlen Hm' Hi'). by rewrite orb_true_r.
    + rewrite bool_decide_eq_false_2 by (by destruct (decide _); [|intros [= ?]]). cbn [negb]. by apply IH.
  - destruct H0 as (_ & _ & ->). rewrite bool_decide_eq_false_2 by done. cbn [negb orb]. by apply IH.
Qed.

(** wait() of the process in slot [i] does what the specification says.  A child that has
    ended is found; its memory is given back, which is the allocator's part. *)
Definition wait_implemented (kend : Z) (i : nat) (w : Os.world) (k : kctx) (s : kst) : Prop :=
  match Os.find_zombie i (Os.w_procs w) 0 with
  | Some (z, _) => ∀ k1 s1, frees_memory kend z (Kctx [LPtable] (wakeups k)) s k1 s1 →
      ∃ pid w' s', Os.wait i w = Os.Done pid w' ∧ wait kend k s = Done pid (Kctx [] (wakeups k1)) s' ∧ table_match w' s'
  | None =>
    match Os.wait i w with
    | Os.Done pid w' => wait kend k s = Done pid k s ∧ table_match w' s
    | _ => ∃ s', Os.wait i w = Os.Wait ∧ wait kend k s = Blocked (CProc i) k s' ∧ table_match w s'
    end
  end.

Lemma table_scan i w s : table_match w s → (∀ q, Os.proc_at w i = Some q → Os.p_parent q ≠ i) →
  wait_scan (k_procs s) 0 i false =
    match Os.find_zombie i (Os.w_procs w) 0 with
    | Some (z, _) => (Some z, true)
    | None => (None, existsb (Os.is_child i) (Os.w_procs w))
    end.
Proof.
  intros [Hl Hs] Hi. apply (scan_matches i (Os.w_procs w) (k_procs s) 0 false Hl); [exact Hs|].
  intros q Hq _. apply Hi. unfold Os.proc_at. rewrite Nat.sub_0_r in Hq. by rewrite Hq.
Qed.
Lemma sleeper_match w s i c q : table_match w s → Os.w_procs w !! i = Some (Some q) → Os.p_zombie q = false → k_cur s = i →
  table_match w (asleep c s).
Proof.
  intros Hm Hq Hz <-. pose proof (lookup_lt_Some _ _ _ Hq) as Hlt. rewrite (tm_len _ _ Hm) in Hlt.
  destruct Hm as [Hl Hs]. split; [unfold asleep; by rewrite length_updp|].
  intros j o Hj. unfold asleep. rewrite thep_updp by done. destruct (decide (j = k_cur s)) as [->|]; [|by apply Hs].
  pose proof (Hs _ _ Hq) as H. rewrite Hq in Hj. injection Hj as <-. destruct H as (H1 & H2 & H3 & H4 & H5).
  cbn. split_and!; try done. rewrite Hz. done.
Qed.
Lemma find_zombie_at i l b z pid : Os.find_zombie i l b = Some (z, pid) →
  ∃ q, (b ≤ z)%nat ∧ l !! (z - b)%nat = Some (Some q) ∧ Os.p_id q = pid.
Proof.
  revert b. induction l as [|[q|] l IH]; intros b; cbn [Os.find_zombie]; [done| |].
  - destruct (_ && _); [intros [= <- <-]; exists q; by rewrite Nat.sub_diag|].
    intros (q' & Hle & Hq & Hp)%IH. exists q'. replace (z - b)%nat with (S (z - S b)) by lia. split; [lia|done].
  - intros (q' & Hle & Hq & Hp)%IH. exists q'. replace (z - b)%nat with (S (z - S b)) by lia. split; [lia|done].
Qed.
Lemma proc_at_slot w i q : Os.proc_at w i = Some q → Os.w_procs w !! i = Some (Some q).
Proof. unfold Os.proc_at. destruct (Os.w_procs w !! i) as [[]|]; naive_solver. Qed.
Lemma wait_implements kend i q w k s : table_match w s → Os.proc_at w i = Some q → Os.p_parent q ≠ i → Os.p_zombie q = false →
  Os.p_killed q = false → k_cur s = i → held k = [] → wait_implemented kend i w k s.
Proof.
  intros Hm Hq Hi Hz Hkl Hc Hk. pose proof (table_scan i w s Hm ltac:(intros q' ?; congruence)) as Hscan.
  unfold wait_implemented. destruct (Os.find_zombie i (Os.w_procs w) 0) as [[z pid]|] eqn:E.
  - intros k1 s1 Hf. destruct (find_zombie_at _ _ _ _ _ E) as (q' & _ & Hq' & Hid). rewrite Nat.sub_0_r in Hq'.
    pose proof (lookup_lt_Some _ _ _ Hq') as Hlt. rewrite (tm_len _ _ Hm) in Hlt.
    destruct (reap_run kend z k s k1 s1 Hlt) as (s' & Hw & Hr & Hj & Hl'); [by rewrite Hk|by rewrite Hc|rewrite Hk; apply not_elem_of_nil|].
    rewrite Hk in Hw. exists pid. eexists _, s'. split; [unfold Os.wait; by rewrite E|]. split.
    + rewrite Hw. f_equal. destruct (tm_slot _ _ Hm _ _ Hq') as (_ & H & _). congruence.
    + apply (match_change w s s' z None Hm Hlt Hl'); [|done]. by rewrite Hr.
  - unfold Os.wait. rewrite E. pose proof (wait_scan_spec s) as Hsp. rewrite Hc, Hscan in Hsp.
    assert (Hq' : Os.w_procs w !! i = Some (Some q)) by (by apply proc_at_slot).
    pose proof (lookup_lt_Some _ _ _ Hq') as Hlt. rewrite (tm_len _ _ Hm) in Hlt.
    destruct (tm_slot _ _ Hm _ _ Hq') as (_ & _ & Hkl' & _ & _).
    destruct (wait_cases kend k s Hk) as (H1 & H2 & _); [by rewrite Hc|]. rewrite Hc in *. destruct Hsp as [Hnz Hch].
    destruct (existsb (Os.is_child i) (Os.w_procs w)).
    + eexists. split; [done|]. split; [apply H2; [by apply Hch|done|congruence]|]. by eapply sleeper_match.
    + split; [|done]. apply H1. left. intros ?%Hch. done.
Qed.

(** ** kill *)

Lemma find_pid_matches pid (l : list (option Os.prc)) (ps : list proc) b : pid ≠ 0 → length l = length ps →
  (∀ j o, l !! j = Some o → slot_match (b + j) o (nthz proc0 ps j)) →
  find_pid ps b pid = Os.find_pid pid l b.
Proof.
  intros Hpid. revert ps b. induction l as [|o l IH]; intros [|p ps] b Hlen Hm; try done. injection Hlen as Hlen.
  pose proof (Hm 0%nat o eq_refl) as H0. unfold nthz in H0. cbn in H0.
  assert (Hm' : ∀ j o, l !! j = Some o → slot_match (S b + j) o (nthz proc0 ps j)).
  { intros j o' Hj. pose proof (Hm (S j) o' Hj) as H. by rewrite Nat.add_succ_r in H. }
  cbn [find_pid Os.find_pid]. destruct o as [q|]; cbn [slot_match] in H0.
  - destruct H0 as (_ & -> & _). destruct (_ =? _); [done|by apply IH].
  - destruct H0 as (_ & -> & _). destruct (Z.eqb_spec 0 pid); [done|by apply IH].
Qed.
Lemma find_pid_at pid l b j : Os.find_pid pid l b = Some j → ∃ q, (b ≤ j)%nat ∧ l !! (j - b)%nat = Some (Some q).
Proof.
  revert b. induction l as [|[q|] l IH]; intros b; cbn [Os.find_pid]; [done| |].
  - destruct (_ =? _); [intros [= <-]; exists q; by rewrite Nat.sub_diag|].
    intros (q' & Hle & Hq)%IH. exists q'. replace (j - b)%nat with (S (j - S b)) by lia. split; [lia|done].
  - intros (q' & Hle & Hq)%IH. exists q'. replace (j - b)%nat with (S (j - S b)) by lia. split; [lia|done].
Qed.
Definition kill_implemented (pid : Z) (w : Os.world) (k : kctx) (s : kst) : Prop :=
  let '(r, w') := Os.kill pid w in ∃ s', kill pid k s = Done r k s' ∧ table_match w' s'.
Lemma kill_implements pid w k s : table_match w s → pid ≠ 0 → held k = [] → kill_implemented pid w k s.
Proof.
  intros Hm Hpid Hk. unfold kill_implemented, Os.kill. rewrite (kill_runs pid k s) by (rewrite Hk; apply not_elem_of_nil).
  rewrite (find_pid_matches pid (Os.w_procs w) (k_procs s) 0 Hpid (tm_len _ _ Hm) (tm_slot _ _ Hm)).
  destruct (Os.find_pid pid (Os.w_procs w) 0) as [j|] eqn:E; [|eauto]. destruct (find_pid_at _ _ _ _ E) as (q & _ & Hq).
  rewrite Nat.sub_0_r in Hq. pose proof (lookup_lt_Some _ _ _ Hq) as Hlt. rewrite (tm_len _ _ Hm) in Hlt.
  eexists. split; [done|]. rewrite (list_alter_ext _ (λ _, Some (Os.set_killed q)) _ (Os.w_procs w) j), <- list_insert_alter; [|intros o; rewrite Hq; by intros [= <-]|done]. apply (match_change w s); [done|done|by rewrite length_updp| |].
  - rewrite thep_updp, decide_True by done. destruct (tm_slot _ _ Hm _ _ Hq) as (H1 & H2 & H3 & H4 & H5). unfold killed_proc.
    destruct (bool_decide_reflect (p_state (thep j s) = SLEEPING)) as [Hs|Hs]; cbn; split_and!; try done.
    split; [done|]. intros Hz%H5. congruence.
  - intros j' Hj'. by rewrite thep_updp, decide_False.
Qed.


(** A parent, a child that runs and one that has ended. *)
Definition proc_world : Os.world :=
  let q pid par z := Some (Os.Prc (replicate NOFILE None) 1 pid par 0 0 ∅ false z) in
  Os.World ∅ 1 ∅ ∅ 0 ([q 1 0%nat false; q 2 0%nat false; q 3 1%nat true] ++ replicate 61 None) 4 [] [] (λ _, true) 0.
Lemma demo_match : table_match proc_world demo_procs.
Proof.
  split; [reflexivity|]. intros j o Hj. destruct j as [|[|[|j]]].
  - injection Hj as <-. by split_and!.
  - injection Hj as <-. by split_and!.
  - injection Hj as <-. by split_and!.
  - change (thep (S (S (S j))) demo_procs) with (thep (3 + j) demo_procs). rewrite demo_rest.
    change (replicate 61 None !! j = Some o) in Hj. apply lookup_replicate_1 in Hj as [-> _]. by split_and!.
Qed.
