(* ===== verification/Usertests.v ===== *)
(** * usertests.c: the system's own test program

    Each test is a user program over the system calls of User.v.  The globals of the
    program that survive a test are passed along: [buf], the array of 8192 bytes the tests
    read into and write from.  [fuel] bounds the loops that read to the end of a file;
    for(;;) without a body is [Loops], and so is a loop that runs out of fuel. *)

From stdpp Require Import base gmap list strings.
From Stdlib Require Import ZArith Lia.
From S2P Require Import Prelude Params User Uprogs Ls Umalloc.

Module Ut.
(** sizeof(buf) *)
Definition BUF : Z := 8192.
Definition buf0 : list Z := replicate (Z.to_nat BUF) 0.
Definition echoargv : list (list Z) := [bz "echo"; bz "ALL"; bz "TESTS"; bz "PASSED"].

(** printf(1, text), and printf(1, text); exit(); the text ends a line. *)
Definition say (s : string) : prog unit := printf 1 (ln_ s) [].
Definition die {A} (s : string) : prog A := say s;; Exit.

(** if(call ... 0){ printf(1, text); exit(); }, with the comparison that is the error. *)
Definition must (c : call Z) (bad : Z → bool) (s : string) : prog Z :=
  r ← sys c;
  if bad r then die s else mret r.
Definition lt0 (r : Z) : bool := r <? 0.
Definition ge0 (r : Z) : bool := 0 <=? r.
Definition eq0 (r : Z) : bool := r =? 0.
Definition ne0 (r : Z) : bool := negb (r =? 0).
Definition isnt (n r : Z) : bool := negb (r =? n).

(** read(fd, buf, n): the result and the array after it. *)
Definition read (fd : Z) (buf : list Z) (n : Z) : prog (Z * list Z) :=
  r ← sys (Cread fd n);
  mret (match (r : option (list Z)) with
        | None => (-1, buf)
        | Some b => (Z.of_nat (length b), splice buf 0 b)
        end).
(** write(fd, buf, n) *)
Definition write (fd : Z) (buf : list Z) (n : Z) : prog Z := sys (Cwrite fd (take (Z.to_nat n) buf)).
(** memset(buf, c, n) *)
Definition fill (buf : list Z) (c : Z) (n : nat) : list Z := splice buf 0 (replicate n (u8 c)).
(** close(open(path, mode)) *)
Definition touch (path : list Z) (mode : Z) : prog Z := fd ← sys (Copen path mode); sys (Cclose fd).

(** for(i = i; i < i + n; i++) body; the body may exit. *)
Fixpoint for_ (n : nat) (i : Z) (body : Z → prog unit) : prog unit :=
  match n with
  | O => mret tt
  | S n => body i;; for_ n (i + 1) body
  end.

(** ** Current directories and inode references *)

Definition iputtest : prog unit :=
  say "iput test";;
  must (Cmkdir (bz "iputdir")) lt0 "mkdir failed";;
  must (Cchdir (bz "iputdir")) lt0 "chdir iputdir failed";;
  must (Cunlink (bz "../iputdir")) lt0 "unlink ../iputdir failed";;
  must (Cchdir (bz "/")) lt0 "chdir / failed";;
  say "iput test ok".

Definition exitiput_child : prog unit :=
  must (Cmkdir (bz "iputdir")) lt0 "mkdir failed";;
  must (Cchdir (bz "iputdir")) lt0 "child chdir failed";;
  must (Cunlink (bz "../iputdir")) lt0 "unlink ../iputdir failed";;
  Exit.
Definition exitiputtest : prog unit :=
  say "exitiput test";;
  pid ← fork;
  if pid <? 0 then die "fork failed" else
  if pid =? 0 then exitiput_child else
  sys Cwait;;
  say "exitiput test ok".

Definition openiputtest : prog unit :=
  say "openiput test";;
  must (Cmkdir (bz "oidir")) lt0 "mkdir oidir failed";;
  pid ← fork;
  if pid <? 0 then die "fork failed" else
  if pid =? 0 then
    fd ← sys (Copen (bz "oidir") O_RDWR);
    if 0 <=? fd then die "open directory for write succeeded" else Exit
  else
    sys (Csleep 1);;
    must (Cunlink (bz "oidir")) ne0 "unlink failed";;
    sys Cwait;;
    say "openiput test ok".

(** ** Simple file system tests *)

Definition opentest : prog unit :=
  say "open test";;
  fd ← must (Copen (bz "echo") 0) lt0 "open echo failed!";
  sys (Cclose fd);;
  must (Copen (bz "doesnotexist") 0) ge0 "open doesnotexist succeeded!";;
  say "open test ok".

Definition writetest_round (fd i : Z) : prog unit :=
  n ← sys (Cwrite fd (bz "aaaaaaaaaa"));
  if negb (n =? 10) then printf 1 (ln_ "error: write aa %d new file failed") [inl i];; Exit else
  n ← sys (Cwrite fd (bz "bbbbbbbbbb"));
  if negb (n =? 10) then printf 1 (ln_ "error: write bb %d new file failed") [inl i];; Exit else
  mret tt.
Definition writetest (buf : list Z) : prog (list Z) :=
  say "small file test";;
  fd ← sys (Copen (bz "small") (Z.lor O_CREATE O_RDWR));
  (if 0 <=? fd then say "creat small succeeded; ok" else die "error: creat small failed!");;
  for_ 100 0 (writetest_round fd);;
  say "writes ok";;
  sys (Cclose fd);;
  fd ← sys (Copen (bz "small") O_RDONLY);
  (if 0 <=? fd then say "open small succeeded ok" else die "error: open small failed!");;
  x ← read fd buf 2000;
  let '(i, buf) := (x : Z * list Z) in
  (if i =? 2000 then say "read succeeded ok" else die "read failed");;
  sys (Cclose fd);;
  must (Cunlink (bz "small")) lt0 "unlink small failed";;
  say "small file test ok";;
  mret buf.

(** ((int* )buf)[0] = i, and its value. *)
Definition set_int (buf : list Z) (i : Z) : list Z := put32 buf 0 (u32 i).
Definition get_int (buf : list Z) : Z := i32 (get32 buf 0).

Fixpoint big_writes (n : nat) (fd i : Z) (buf : list Z) : prog (list Z) :=
  match n with
  | O => mret buf
  | S n =>
    let buf := set_int buf i in
    r ← write fd buf 512;
    if negb (r =? 512) then printf 1 (ln_ "error: write big file failed") [inl i];; Exit
    else big_writes n fd (i + 1) buf
  end.
Fixpoint big_reads (fuel : nat) (fd n : Z) (buf : list Z) : prog (list Z) :=
  match fuel with
  | O => Loops
  | S f =>
    x ← read fd buf 512;
    let '(i, buf) := (x : Z * list Z) in
    if i =? 0 then
      if n =? MAXFILE - 1 then printf 1 (bz "read only %d blocks from big") [inl n];; Exit
      else mret buf
    else if negb (i =? 512) then printf 1 (ln_ "read failed %d") [inl i];; Exit
    else if negb (get_int buf =? n) then
      printf 1 (ln_ "read content of block %d is %d") [inl n; inl (get_int buf)];; Exit
    else big_reads f fd (n + 1) buf
  end.
Definition writetest1 (fuel : nat) (buf : list Z) : prog (list Z) :=
  say "big files test";;
  fd ← must (Copen (bz "big") (Z.lor O_CREATE O_RDWR)) lt0 "error: creat big failed!";
  buf ← big_writes (Z.to_nat MAXFILE) fd 0 buf;
  sys (Cclose fd);;
  fd ← must (Copen (bz "big") O_RDONLY) lt0 "error: open big failed!";
  buf ← big_reads fuel fd 0 buf;
  sys (Cclose fd);;
  must (Cunlink (bz "big")) lt0 "unlink big failed";;
  say "big files ok";;
  mret buf.

(** The global [name]: a letter, '0' + i and a zero. *)
Definition name2 (c i : Z) : list Z := [c; u8 (48 + i)].
Definition createtest : prog unit :=
  say "many creates, followed by unlink test";;
  for_ 52 0 (λ i, touch (name2 97 i) (Z.lor O_CREATE O_RDWR);; mret tt);;
  for_ 52 0 (λ i, sys (Cunlink (name2 97 i));; mret tt);;
  say "many creates, followed by unlink; ok".

Definition dirtest : prog unit :=
  say "mkdir test";;
  must (Cmkdir (bz "dir0")) lt0 "mkdir failed";;
  must (Cchdir (bz "dir0")) lt0 "chdir dir0 failed";;
  must (Cchdir (bz "..")) lt0 "chdir .. failed";;
  must (Cunlink (bz "dir0")) lt0 "unlink dir0 failed";;
  say "mkdir test ok".

Definition exectest : prog unit :=
  say "exec test";;
  r ← execv (bz "echo") echoargv;
  if r <? 0 then die "exec echo failed" else mret tt.

(** ** Processes and pipes *)

(** buf[i] = seq++ for 1033 bytes. *)
Definition seq_bytes (seq : Z) (n : nat) : list Z := (λ i, u8 (seq + Z.of_nat i)) <$> List.seq 0 n.

Fixpoint pipe1_writes (n : nat) (fd seq : Z) (buf : list Z) : prog unit :=
  match n with
  | O => Exit
  | S n =>
    let buf := splice buf 0 (seq_bytes seq 1033) in
    r ← write fd buf 1033;
    if negb (r =? 1033) then die "pipe1 oops 1" else pipe1_writes n fd (seq + 1033) buf
  end.

(** (buf[i] & 0xff) != (seq++ & 0xff) for no i < n *)
Definition in_seq (seq : Z) (bytes : list Z) : bool :=
  forallb (λ x, x.1 =? u8 (seq + Z.of_nat x.2)) (imap (λ i c, (c, i)) bytes).

(** What the loop of the reader ends with: the wrong byte, or the total. *)
Fixpoint pipe1_reads (fuel : nat) (fd seq cc total : Z) (buf : list Z) : prog (option Z * list Z) :=
  match fuel with
  | O => Loops
  | S f =>
    x ← read fd buf cc;
    let '(n, buf) := (x : Z * list Z) in
    if 0 <? n then
      if negb (in_seq seq (take (Z.to_nat n) buf)) then say "pipe1 oops 2";; mret (None, buf)
      else
        let cc := cc * 2 in
        let cc := if BUF <? cc then BUF else cc in
        pipe1_reads f fd (seq + n) cc (total + n) buf
    else mret (Some total, buf)
  end.
Definition pipe1_parent (fuel : nat) (fds : Z * Z) (buf : list Z) : prog (list Z) :=
  sys (Cclose fds.2);;
  x ← pipe1_reads fuel fds.1 0 1 0 buf;
  let '(t, buf) := (x : option Z * list Z) in
  match t with
  | None => mret buf
  | Some total =>
    if negb (total =? 5 * 1033) then printf 1 (ln_ "pipe1 oops 3 total %d") [inl total];; Exit
    else
      sys (Cclose fds.1);;
      sys Cwait;;
      say "pipe1 ok";;
      mret buf
  end.
Definition pipe1 (fuel : nat) (buf : list Z) : prog (list Z) :=
  r ← sys Cpipe;
  match (r : option (Z * Z)) with
  | None => die "pipe() failed"
  | Some fds =>
    pid ← fork;
    if pid =? 0 then sys (Cclose fds.1);; pipe1_writes 5 fds.2 0 buf;; mret buf
    else if 0 <? pid then pipe1_parent fuel fds buf
    else die "fork() failed"
  end.

(** The third child of preempt(). *)
Definition preempt_child (pfds : Z * Z) : prog unit :=
  sys (Cclose pfds.1);;
  r ← sys (Cwrite pfds.2 (bz "x"));
  (if negb (r =? 1) then printf 1 (bz "preempt write error") [] else mret tt);;
  sys (Cclose pfds.2);;
  Loops.
(** pipe(pfds) is not tested: [junk] is what the array held. *)
Definition preempt (junk : Z * Z) (buf : list Z) : prog (list Z) :=
  printf 1 (bz "preempt: ") [];;
  pid1 ← fork;
  if pid1 =? 0 then Loops else
  pid2 ← fork;
  if pid2 =? 0 then Loops else
  r ← sys Cpipe;
  let pfds := default junk (r : option (Z * Z)) in
  pid3 ← fork;
  if pid3 =? 0 then preempt_child pfds;; mret buf else
  sys (Cclose pfds.2);;
  x ← read pfds.1 buf BUF;
  let '(n, buf) := (x : Z * list Z) in
  if negb (n =? 1) then printf 1 (bz "preempt read error") [];; mret buf else
  sys (Cclose pfds.1);;
  printf 1 (bz "kill... ") [];;
  sys (Ckill pid1);;
  sys (Ckill pid2);;
  sys (Ckill pid3);;
  printf 1 (bz "wait... ") [];;
  sys Cwait;;
  sys Cwait;;
  sys Cwait;;
  say "preempt ok";;
  mret buf.

Fixpoint exitwait_loop (n : nat) : prog unit :=
  match n with
  | O => say "exitwait ok"
  | S n =>
    pid ← fork;
    if pid <? 0 then say "fork failed"
    else if negb (pid =? 0) then
      r ← sys Cwait;
      if negb (r =? pid) then say "wait wrong pid" else exitwait_loop n
    else Exit
  end.
Definition exitwait : prog unit := exitwait_loop 100.

(** ** Memory *)

(** malloc(): the state of the library is that of Umalloc.v, which asks for memory when no
    block is large enough.  With no room to grow it stops there; then the kernel is asked,
    and the search goes on with what it gave.  None is the null pointer. *)
Definition more (nbytes : Z) : Z := let nu := units nbytes in i32 (u32 ((if nu <? 4096 then 4096 else nu) * HDR)).
Definition with_room (n : Z) (s : ust) : ust := Ust (u_ptr s) (u_size s) (u_freep s) (u_brk s) (u_brk s + n).
Definition malloc (base : Z) (fuel : nat) (nbytes : Z) (s : ust) : prog (option Z * ust) :=
  match Umalloc.malloc base fuel nbytes (with_room 0 s) with
  | None => Loops
  | Some (Some p, s) => mret (Some p, s)
  | Some (None, s) =>
    r ← own_ (Osbrk (more nbytes));
    if r =? -1 then mret (None, s)
    else
      match Umalloc.malloc base fuel nbytes (with_room (more nbytes) (set_brk r s)) with
      | None => Loops
      | Some (p, s) => mret (p, s)
      end
  end.
Definition free (fuel : nat) (ap : Z) (s : ust) : prog ust :=
  match Umalloc.free fuel ap s with None => Loops | Some s => mret s end.

(** while((m2 = malloc(10001)) != 0): the blocks are chained through their first word. *)
Fixpoint mem_grab (base : Z) (n fuel : nat) (m1 : Z) (s : ust) : prog (Z * ust) :=
  match n with
  | O => Loops
  | S n =>
    x ← malloc base fuel 10001 s;
    let '(m2, s) := (x : option Z * ust) in
    match m2 with
    | None => mret (m1, s)
    | Some m2 => own_ (Ostorew m2 m1);; mem_grab base n fuel m2 s
    end
  end.
Fixpoint mem_free (n fuel : nat) (m1 : Z) (s : ust) : prog ust :=
  match n with
  | O => Loops
  | S n =>
    if m1 =? 0 then mret s
    else
      m2 ← own_ (Oloadw m1);
      s ← free fuel m1 s;
      mem_free n fuel m2 s
  end.
Definition mem_child (base : Z) (fuel : nat) (ppid : Z) (s : ust) : prog unit :=
  x ← mem_grab base fuel fuel 0 s;
  let '(m1, s) := (x : Z * ust) in
  s ← mem_free fuel fuel m1 s;
  x ← malloc base fuel (1024 * 20) s;
  let '(m1, s) := (x : option Z * ust) in
  match m1 with
  | None => say "couldn't allocate mem?!!";; sys (Ckill ppid);; Exit
  | Some m1 => free fuel m1 s;; say "mem ok";; Exit
  end.
Definition mem (base : Z) (fuel : nat) (s : ust) : prog unit :=
  say "mem test";;
  ppid ← own_ Ogetpid;
  pid ← fork;
  if pid =? 0 then mem_child base fuel ppid s
  else sys Cwait;; mret tt.

(** ** More file system tests *)

(** for(i = 0; i < n; i++) write the 10 bytes; the loop ends early on an error. *)
Fixpoint shared_writes (n : nat) (fd : Z) (buf : list Z) : prog unit :=
  match n with
  | O => mret tt
  | S n =>
    r ← sys (Cwrite fd buf);
    if negb (r =? 10) then say "fstests: write sharedfd failed" else shared_writes n fd buf
  end.
Definition count (c : Z) (buf : list Z) : Z := Z.of_nat (length (filter (λ x, x = c) buf)).
(** After a short read the bytes of the round before are counted again. *)
Fixpoint shared_counts (fuel : nat) (fd : Z) (buf : list Z) (nc np : Z) : prog (Z * Z) :=
  match fuel with
  | O => Loops
  | S f =>
    x ← read fd buf 10;
    let '(n, buf) := (x : Z * list Z) in
    if 0 <? n then shared_counts f fd buf (nc + count 99 buf) (np + count 112 buf)
    else mret (nc, np)
  end.
Definition shared_check (fuel : nat) (buf : list Z) : prog unit :=
  fd ← sys (Copen (bz "sharedfd") 0);
  if fd <? 0 then say "fstests: cannot open sharedfd for reading" else
  x ← shared_counts fuel fd buf 0 0;
  let '(nc, np) := (x : Z * Z) in
  sys (Cclose fd);;
  sys (Cunlink (bz "sharedfd"));;
  if (nc =? 10000) && (np =? 10000) then say "sharedfd ok"
  else printf 1 (ln_ "sharedfd oops %d %d") [inl nc; inl np];; Exit.
Definition sharedfd (fuel : nat) : prog unit :=
  say "sharedfd test";;
  sys (Cunlink (bz "sharedfd"));;
  fd ← sys (Copen (bz "sharedfd") (Z.lor O_CREATE O_RDWR));
  if fd <? 0 then printf 1 (bz "fstests: cannot open sharedfd for writing") [] else
  pid ← fork;
  let buf := replicate 10 (if pid =? 0 then 99 else 112) in
  shared_writes 1000 fd buf;;
  if pid =? 0 then Exit else
  sys Cwait;;
  sys (Cclose fd);;
  shared_check fuel buf.

(** names[pi] *)
Definition fname (pi : Z) : list Z := [102; 48 + pi].
Fixpoint four_writes (n : nat) (fd : Z) (buf : list Z) : prog unit :=
  match n with
  | O => Exit
  | S n =>
    r ← write fd buf 500;
    if negb (r =? 500) then printf 1 (ln_ "write failed %d") [inl r];; Exit else four_writes n fd buf
  end.
Definition four_child (pi : Z) (buf : list Z) : prog unit :=
  fd ← must (Copen (fname pi) (Z.lor O_CREATE O_RDWR)) lt0 "create failed";
  four_writes 12 fd (fill buf (48 + pi) 512).
Definition four_forks (buf : list Z) : prog unit :=
  for_ 4 0 (λ pi,
    sys (Cunlink (fname pi));;
    pid ← fork;
    if pid <? 0 then die "fork failed" else
    if pid =? 0 then four_child pi buf else mret tt).
Fixpoint four_reads (fuel : nat) (fd i total : Z) (buf : list Z) : prog (Z * list Z) :=
  match fuel with
  | O => Loops
  | S f =>
    x ← read fd buf BUF;
    let '(n, buf) := (x : Z * list Z) in
    if 0 <? n then
      if forallb (λ c, c =? 48 + i) (take (Z.to_nat n) buf) then four_reads f fd i (total + n) buf
      else die "wrong char"
    else mret (total, buf)
  end.
Definition four_check (fuel : nat) (i : Z) (buf : list Z) : prog (list Z) :=
  fd ← sys (Copen (fname i) 0);
  x ← four_reads fuel fd i 0 buf;
  let '(total, buf) := (x : Z * list Z) in
  sys (Cclose fd);;
  if negb (total =? 12 * 500) then printf 1 (ln_ "wrong length %d") [inl total];; Exit else
  sys (Cunlink (fname i));;
  mret buf.
Definition fourfiles (fuel : nat) (buf : list Z) : prog (list Z) :=
  say "fourfiles test";;
  four_forks buf;;
  for_ 4 0 (λ _, sys Cwait;; mret tt);;
  buf ← four_check fuel 0 buf;
  buf ← four_check fuel 1 buf;
  say "fourfiles ok";;
  mret buf.

(** enum { N = 20 } of createdelete() *)
Definition N : Z := 20.
Definition cd_child (pi : Z) : prog unit :=
  for_ (Z.to_nat N) 0 (λ i,
    fd ← must (Copen (name2 (112 + pi) i) (Z.lor O_CREATE O_RDWR)) lt0 "create failed";
    sys (Cclose fd);;
    if (0 <? i) && (i mod 2 =? 0) then
      r ← sys (Cunlink (name2 (112 + pi) (i / 2)));
      if r <? 0 then die "unlink failed" else mret tt
    else mret tt);;
  Exit.
Definition cd_check (i pi : Z) : prog unit :=
  let name := name2 (112 + pi) i in
  fd ← sys (Copen name 0);
  if ((i =? 0) || (N / 2 <=? i)) && (fd <? 0) then
    printf 1 (ln_ "oops createdelete %s didn't exist") [inr name];; Exit
  else if ((1 <=? i) && (i <? N / 2)) && (0 <=? fd) then
    printf 1 (ln_ "oops createdelete %s did exist") [inr name];; Exit
  else if 0 <=? fd then sys (Cclose fd);; mret tt
  else mret tt.
Definition createdelete : prog unit :=
  say "createdelete test";;
  for_ 4 0 (λ pi,
    pid ← fork;
    if pid <? 0 then die "fork failed" else
    if pid =? 0 then cd_child pi else mret tt);;
  for_ 4 0 (λ _, sys Cwait;; mret tt);;
  for_ (Z.to_nat N) 0 (λ i, for_ 4 0 (cd_check i));;
  for_ (Z.to_nat N) 0 (λ i, for_ 4 0 (λ _, sys (Cunlink (name2 (112 + i) i));; mret tt));;
  say "createdelete ok".

Definition unlinkread (buf : list Z) : prog (list Z) :=
  say "unlinkread test";;
  fd ← must (Copen (bz "unlinkread") (Z.lor O_CREATE O_RDWR)) lt0 "create unlinkread failed";
  sys (Cwrite fd (bz "hello"));;
  sys (Cclose fd);;
  fd ← must (Copen (bz "unlinkread") O_RDWR) lt0 "open unlinkread failed";
  must (Cunlink (bz "unlinkread")) ne0 "unlink unlinkread failed";;
  fd1 ← sys (Copen (bz "unlinkread") (Z.lor O_CREATE O_RDWR));
  sys (Cwrite fd1 (bz "yyy"));;
  sys (Cclose fd1);;
  x ← read fd buf BUF;
  let '(n, buf) := (x : Z * list Z) in
  if negb (n =? 5) then printf 1 (bz "unlinkread read failed") [];; Exit else
  if negb (buf.[0%nat] =? 104) then die "unlinkread wrong data" else
  n ← write fd buf 10;
  if negb (n =? 10) then die "unlinkread write failed" else
  sys (Cclose fd);;
  sys (Cunlink (bz "unlinkread"));;
  say "unlinkread ok";;
  mret buf.

Definition linktest (buf : list Z) : prog (list Z) :=
  say "linktest";;
  sys (Cunlink (bz "lf1"));;
  sys (Cunlink (bz "lf2"));;
  fd ← must (Copen (bz "lf1") (Z.lor O_CREATE O_RDWR)) lt0 "create lf1 failed";
  must (Cwrite fd (bz "hello")) (isnt 5) "write lf1 failed";;
  sys (Cclose fd);;
  must (Clink (bz "lf1") (bz "lf2")) lt0 "link lf1 lf2 failed";;
  sys (Cunlink (bz "lf1"));;
  must (Copen (bz "lf1") 0) ge0 "unlinked lf1 but it is still there!";;
  fd ← must (Copen (bz "lf2") 0) lt0 "open lf2 failed";
  x ← read fd buf BUF;
  let '(n, buf) := (x : Z * list Z) in
  if negb (n =? 5) then die "read lf2 failed" else
  sys (Cclose fd);;
  must (Clink (bz "lf2") (bz "lf2")) ge0 "link lf2 lf2 succeeded! oops";;
  sys (Cunlink (bz "lf2"));;
  must (Clink (bz "lf2") (bz "lf1")) ge0 "link non-existant succeeded! oops";;
  must (Clink (bz ".") (bz "lf1")) ge0 "link . lf1 succeeded! oops";;
  say "linktest ok";;
  mret buf.

(** ** Concurrent creation, linking and unlinking *)

Definition con_make (i pid : Z) : prog unit :=
  let file := name2 67 i in
  if negb (pid =? 0) && (i mod 3 =? 1) then sys (Clink (bz "C0") file);; mret tt
  else if (pid =? 0) && (i mod 5 =? 1) then sys (Clink (bz "C0") file);; mret tt
  else
    fd ← sys (Copen file (Z.lor O_CREATE O_RDWR));
    if fd <? 0 then printf 1 (ln_ "concreate create %s failed") [inr file];; Exit
    else sys (Cclose fd);; mret tt.
Definition exit_or_wait (pid : Z) : prog unit :=
  if pid =? 0 then Exit else sys Cwait;; mret tt.

(** while(read(fd, &de, sizeof(de)) > 0), with the array fa and the number of files. *)
Fixpoint con_list (fuel : nat) (fd : Z) (de : list Z) (fa : list bool) (n : Z) : prog Z :=
  match fuel with
  | O => Loops
  | S f =>
    x ← read fd de 16;
    let '(r, de) := (x : Z * list Z) in
    if 0 <? r then
      let name := drop 2 de in
      if Ls.de_inum de =? 0 then con_list f fd de fa n
      else if (name.[0%nat] =? 67) && (name.[2%nat] =? 0) then
        let i := i8 (name.[1%nat]) - 48 in
        if (i <? 0) || (40 <=? i) then printf 1 (ln_ "concreate weird file %s") [inr (Ls.cname name)];; Exit
        else if default false (fa !! Z.to_nat i) then
          printf 1 (ln_ "concreate duplicate file %s") [inr (Ls.cname name)];; Exit
        else con_list f fd de (<[Z.to_nat i := true]> fa) (n + 1)
      else con_list f fd de fa n
    else mret n
  end.
Definition con_remove (i pid : Z) : prog unit :=
  let file := name2 67 i in
  if ((i mod 3 =? 0) && (pid =? 0)) || ((i mod 3 =? 1) && negb (pid =? 0)) then
    touch file 0;; touch file 0;; touch file 0;; touch file 0;; mret tt
  else
    sys (Cunlink file);; sys (Cunlink file);; sys (Cunlink file);; sys (Cunlink file);; mret tt.
(** [de] is not initialised. *)
Definition concreate (fuel : nat) (de : list Z) : prog unit :=
  say "concreate test";;
  for_ 40 0 (λ i,
    sys (Cunlink (name2 67 i));;
    pid ← fork;
    con_make i pid;;
    exit_or_wait pid);;
  fd ← sys (Copen (bz ".") 0);
  n ← con_list fuel fd de (replicate 40 false) 0;
  sys (Cclose fd);;
  if negb (n =? 40) then die "concreate not enough files in directory listing" else
  for_ 40 0 (λ i,
    pid ← fork;
    if pid <? 0 then die "fork failed" else
    con_remove i pid;;
    exit_or_wait pid);;
  say "concreate ok".

Fixpoint lu_loop (n : nat) (x : Z) : prog unit :=
  match n with
  | O => mret tt
  | S n =>
    let x := u32 (x * 1103515245 + 12345) in
    (if x mod 3 =? 0 then touch (bz "x") (Z.lor O_RDWR O_CREATE)
     else if x mod 3 =? 1 then sys (Clink (bz "cat") (bz "x"))
     else sys (Cunlink (bz "x")));;
    lu_loop n x
  end.
Definition linkunlink : prog unit :=
  say "linkunlink test";;
  sys (Cunlink (bz "x"));;
  pid ← fork;
  if pid <? 0 then die "fork failed" else
  lu_loop 100 (if negb (pid =? 0) then 1 else 97);;
  (if negb (pid =? 0) then sys Cwait;; mret tt else Exit);;
  say "linkunlink ok".

(** ** Directories *)

Definition bd_name (i : Z) : list Z := [120; u8 (48 + i / 64); u8 (48 + i mod 64)].
Definition bigdir : prog unit :=
  say "bigdir test";;
  sys (Cunlink (bz "bd"));;
  fd ← must (Copen (bz "bd") O_CREATE) lt0 "bigdir create failed";
  sys (Cclose fd);;
  for_ 500 0 (λ i, must (Clink (bz "bd") (bd_name i)) ne0 "bigdir link failed";; mret tt);;
  sys (Cunlink (bz "bd"));;
  for_ 500 0 (λ i,
    r ← sys (Cunlink (bd_name i));
    if negb (r =? 0) then printf 1 (bz "bigdir unlink failed") [];; Exit else mret tt);;
  say "bigdir ok".

Definition subdir (buf : list Z) : prog (list Z) :=
  say "subdir test";;
  sys (Cunlink (bz "ff"));;
  must (Cmkdir (bz "dd")) ne0 "subdir mkdir dd failed";;
  fd ← must (Copen (bz "dd/ff") (Z.lor O_CREATE O_RDWR)) lt0 "create dd/ff failed";
  sys (Cwrite fd (bz "ff"));;
  sys (Cclose fd);;
  must (Cunlink (bz "dd")) ge0 "unlink dd (non-empty dir) succeeded!";;
  must (Cmkdir (bz "/dd/dd")) ne0 "subdir mkdir dd/dd failed";;
  fd ← must (Copen (bz "dd/dd/ff") (Z.lor O_CREATE O_RDWR)) lt0 "create dd/dd/ff failed";
  sys (Cwrite fd (bz "FF"));;
  sys (Cclose fd);;
  fd ← must (Copen (bz "dd/dd/../ff") 0) lt0 "open dd/dd/../ff failed";
  x ← read fd buf BUF;
  let '(cc, buf) := (x : Z * list Z) in
  (if negb (cc =? 2) || negb (buf.[0%nat] =? 102) then die "dd/dd/../ff wrong content" else mret tt);;
  sys (Cclose fd);;
  must (Clink (bz "dd/dd/ff") (bz "dd/dd/ffff")) ne0 "link dd/dd/ff dd/dd/ffff failed";;
  must (Cunlink (bz "dd/dd/ff")) ne0 "unlink dd/dd/ff failed";;
  must (Copen (bz "dd/dd/ff") O_RDONLY) ge0 "open (unlinked) dd/dd/ff succeeded";;
  must (Cchdir (bz "dd")) ne0 "chdir dd failed";;
  must (Cchdir (bz "dd/../../dd")) ne0 "chdir dd/../../dd failed";;
  must (Cchdir (bz "dd/../../../dd")) ne0 "chdir dd/../../dd failed";;
  must (Cchdir (bz "./..")) ne0 "chdir ./.. failed";;
  fd ← must (Copen (bz "dd/dd/ffff") 0) lt0 "open dd/dd/ffff failed";
  x ← read fd buf BUF;
  let '(n, buf) := (x : Z * list Z) in
  (if negb (n =? 2) then die "read dd/dd/ffff wrong len" else mret tt);;
  sys (Cclose fd);;
  must (Copen (bz "dd/dd/ff") O_RDONLY) ge0 "open (unlinked) dd/dd/ff succeeded!";;
  must (Copen (bz "dd/ff/ff") (Z.lor O_CREATE O_RDWR)) ge0 "create dd/ff/ff succeeded!";;
  must (Copen (bz "dd/xx/ff") (Z.lor O_CREATE O_RDWR)) ge0 "create dd/xx/ff succeeded!";;
  must (Copen (bz "dd") O_CREATE) ge0 "create dd succeeded!";;
  must (Copen (bz "dd") O_RDWR) ge0 "open dd rdwr succeeded!";;
  must (Copen (bz "dd") O_WRONLY) ge0 "open dd wronly succeeded!";;
  must (Clink (bz "dd/ff/ff") (bz "dd/dd/xx")) eq0 "link dd/ff/ff dd/dd/xx succeeded!";;
  must (Clink (bz "dd/xx/ff") (bz "dd/dd/xx")) eq0 "link dd/xx/ff dd/dd/xx succeeded!";;
  must (Clink (bz "dd/ff") (bz "dd/dd/ffff")) eq0 "link dd/ff dd/dd/ffff succeeded!";;
  must (Cmkdir (bz "dd/ff/ff")) eq0 "mkdir dd/ff/ff succeeded!";;
  must (Cmkdir (bz "dd/xx/ff")) eq0 "mkdir dd/xx/ff succeeded!";;
  must (Cmkdir (bz "dd/dd/ffff")) eq0 "mkdir dd/dd/ffff succeeded!";;
  must (Cunlink (bz "dd/xx/ff")) eq0 "unlink dd/xx/ff succeeded!";;
  must (Cunlink (bz "dd/ff/ff")) eq0 "unlink dd/ff/ff succeeded!";;
  must (Cchdir (bz "dd/ff")) eq0 "chdir dd/ff succeeded!";;
  must (Cchdir (bz "dd/xx")) eq0 "chdir dd/xx succeeded!";;
  must (Cunlink (bz "dd/dd/ffff")) ne0 "unlink dd/dd/ff failed";;
  must (Cunlink (bz "dd/ff")) ne0 "unlink dd/ff failed";;
  must (Cunlink (bz "dd")) eq0 "unlink non-empty dd succeeded!";;
  must (Cunlink (bz "dd/dd")) lt0 "unlink dd/dd failed";;
  must (Cunlink (bz "dd")) lt0 "unlink dd failed";;
  say "subdir ok";;
  mret buf.

(** ** Large writes and long names *)

(** for(sz = 499; sz < 12*512; sz += 471) *)
Fixpoint bw_loop (n : nat) (sz : Z) (buf : list Z) : prog unit :=
  match n with
  | O => Loops
  | S n =>
    if sz <? 12 * 512 then
      fd ← must (Copen (bz "bigwrite") (Z.lor O_CREATE O_RDWR)) lt0 "cannot create bigwrite";
      for_ 2 0 (λ _,
        cc ← write fd buf sz;
        if negb (cc =? sz) then printf 1 (ln_ "write(%d) ret %d") [inl sz; inl cc];; Exit else mret tt);;
      sys (Cclose fd);;
      sys (Cunlink (bz "bigwrite"));;
      bw_loop n (sz + 471) buf
    else mret tt
  end.
Definition bigwrite (buf : list Z) : prog unit :=
  say "bigwrite test";;
  sys (Cunlink (bz "bigwrite"));;
  bw_loop 13 499 buf;;
  say "bigwrite ok".

Fixpoint bf_writes (n : nat) (fd i : Z) (buf : list Z) : prog (list Z) :=
  match n with
  | O => mret buf
  | S n =>
    let buf := fill buf i 600 in
    r ← write fd buf 600;
    if negb (r =? 600) then die "write bigfile failed" else bf_writes n fd (i + 1) buf
  end.
Fixpoint bf_reads (fuel : nat) (fd i total : Z) (buf : list Z) : prog (Z * list Z) :=
  match fuel with
  | O => Loops
  | S f =>
    x ← read fd buf 300;
    let '(cc, buf) := (x : Z * list Z) in
    if cc <? 0 then die "read bigfile failed"
    else if cc =? 0 then mret (total, buf)
    else if negb (cc =? 300) then die "short read bigfile"
    else if negb (i8 (buf.[0%nat]) =? i / 2) || negb (i8 (buf.[299%nat]) =? i / 2) then die "read bigfile wrong data"
    else bf_reads f fd (i + 1) (total + cc) buf
  end.
Definition bigfile (fuel : nat) (buf : list Z) : prog (list Z) :=
  say "bigfile test";;
  sys (Cunlink (bz "bigfile"));;
  fd ← sys (Copen (bz "bigfile") (Z.lor O_CREATE O_RDWR));
  if fd <? 0 then printf 1 (bz "cannot create bigfile") [];; Exit else
  buf ← bf_writes 20 fd 0 buf;
  sys (Cclose fd);;
  fd ← must (Copen (bz "bigfile") 0) lt0 "cannot open bigfile";
  x ← bf_reads fuel fd 0 0 buf;
  let '(total, buf) := (x : Z * list Z) in
  sys (Cclose fd);;
  if negb (total =? 20 * 600) then die "read bigfile wrong total" else
  sys (Cunlink (bz "bigfile"));;
  say "bigfile test ok";;
  mret buf.

Definition fourteen : prog unit :=
  say "fourteen test";;
  must (Cmkdir (bz "12345678901234")) ne0 "mkdir 12345678901234 failed";;
  must (Cmkdir (bz "12345678901234/123456789012345")) ne0 "mkdir 12345678901234/123456789012345 failed";;
  fd ← must (Copen (bz "123456789012345/123456789012345/123456789012345") O_CREATE) lt0
    "create 123456789012345/123456789012345/123456789012345 failed";
  sys (Cclose fd);;
  fd ← must (Copen (bz "12345678901234/12345678901234/12345678901234") 0) lt0
    "open 12345678901234/12345678901234/12345678901234 failed";
  sys (Cclose fd);;
  must (Cmkdir (bz "12345678901234/12345678901234")) eq0 "mkdir 12345678901234/12345678901234 succeeded!";;
  must (Cmkdir (bz "123456789012345/12345678901234")) eq0 "mkdir 12345678901234/123456789012345 succeeded!";;
  say "fourteen ok".

Definition rmdot : prog unit :=
  say "rmdot test";;
  must (Cmkdir (bz "dots")) ne0 "mkdir dots failed";;
  must (Cchdir (bz "dots")) ne0 "chdir dots failed";;
  must (Cunlink (bz ".")) eq0 "rm . worked!";;
  must (Cunlink (bz "..")) eq0 "rm .. worked!";;
  must (Cchdir (bz "/")) ne0 "chdir / failed";;
  must (Cunlink (bz "dots/.")) eq0 "unlink dots/. worked!";;
  must (Cunlink (bz "dots/..")) eq0 "unlink dots/.. worked!";;
  must (Cunlink (bz "dots")) ne0 "unlink dots failed!";;
  say "rmdot ok".

Definition dirfile : prog unit :=
  say "dir vs file";;
  fd ← must (Copen (bz "dirfile") O_CREATE) lt0 "create dirfile failed";
  sys (Cclose fd);;
  must (Cchdir (bz "dirfile")) eq0 "chdir dirfile succeeded!";;
  must (Copen (bz "dirfile/xx") 0) ge0 "create dirfile/xx succeeded!";;
  must (Copen (bz "dirfile/xx") O_CREATE) ge0 "create dirfile/xx succeeded!";;
  must (Cmkdir (bz "dirfile/xx")) eq0 "mkdir dirfile/xx succeeded!";;
  must (Cunlink (bz "dirfile/xx")) eq0 "unlink dirfile/xx succeeded!";;
  must (Clink (bz "README") (bz "dirfile/xx")) eq0 "link to dirfile/xx succeeded!";;
  must (Cunlink (bz "dirfile")) ne0 "unlink dirfile failed!";;
  must (Copen (bz ".") O_RDWR) ge0 "open . for writing succeeded!";;
  fd ← sys (Copen (bz ".") 0);
  must (Cwrite fd (bz "x")) (λ r, 0 <? r) "write . succeeded!";;
  sys (Cclose fd);;
  say "dir vs file OK".

Definition close_if (fd : Z) : prog unit := if 0 <=? fd then sys (Cclose fd);; mret tt else mret tt.
Definition iref : prog unit :=
  say "empty file name";;
  for_ (50 + 1) 0 (λ _,
    must (Cmkdir (bz "irefd")) ne0 "mkdir irefd failed";;
    must (Cchdir (bz "irefd")) ne0 "chdir irefd failed";;
    sys (Cmkdir (bz ""));;
    sys (Clink (bz "README") (bz ""));;
    fd ← sys (Copen (bz "") O_CREATE);
    close_if fd;;
    fd ← sys (Copen (bz "xx") O_CREATE);
    close_if fd;;
    sys (Cunlink (bz "xx"));;
    mret tt);;
  sys (Cchdir (bz "/"));;
  say "empty file name OK".

(** for(n=0; n<1000; n++): the number of forks that worked. *)
Fixpoint fork_loop (todo : nat) (n : Z) : prog Z :=
  match todo with
  | O => mret n
  | S todo =>
    pid ← fork;
    if pid <? 0 then mret n
    else if pid =? 0 then Exit
    else fork_loop todo (n + 1)
  end.
Definition forktest : prog unit :=
  say "fork test";;
  n ← fork_loop 1000 0;
  if n =? 1000 then die "fork claimed to work 1000 times!" else
  for_ (Z.to_nat n) 0 (λ _, must Cwait lt0 "wait stopped early";; mret tt);;
  must Cwait (isnt (-1)) "wait got too many";;
  say "fork test OK".

(** ** The address space *)

Definition sbrk (n : Z) : prog Z := own_ (Osbrk (i32 (u32 n))).
Definition BIG : Z := 100 * 1024 * 1024.
Definition LASTADDR : Z := BIG - 1.

(** 5000 times a byte; the end of the memory after it. *)
Fixpoint sbrk_bytes (n : nat) (i a : Z) : prog Z :=
  match n with
  | O => mret a
  | S n =>
    b ← sbrk 1;
    if negb (b =? a) then printf 1 (ln_ "sbrk test failed %d %x %x") [inl i; inl a; inl b];; Exit else
    own_ (Ostore b 1);;
    sbrk_bytes n (i + 1) (b + 1)
  end.
Definition sbrk_fork (a : Z) : prog unit :=
  pid ← fork;
  if pid <? 0 then die "sbrk test fork failed" else
  sbrk 1;;
  c ← sbrk 1;
  if negb (c =? a + 1) then die "sbrk test failed post-fork" else
  exit_or_wait pid.
Definition sbrk_big : prog unit :=
  a ← sbrk 0;
  p ← sbrk (BIG - a);
  if negb (p =? a) then die "sbrk test failed to grow big address space; enough phys mem?" else
  own_ (Ostore LASTADDR 99).
Definition sbrk_down_up : prog unit :=
  a ← sbrk 0;
  c ← sbrk (-4096);
  if c =? -1 then die "sbrk could not deallocate" else
  c ← sbrk 0;
  if negb (c =? a - 4096) then
    printf 1 (ln_ "sbrk deallocation produced wrong address, a %x c %x") [inl a; inl c];; Exit else
  a ← sbrk 0;
  c ← sbrk 4096;
  e ← (if c =? a then sbrk 0 else mret 0);
  if negb (c =? a) || negb (e =? a + 4096) then
    printf 1 (ln_ "sbrk re-allocation failed, a %x c %x") [inl a; inl c];; Exit else
  v ← own_ (Oload LASTADDR);
  if v =? 99 then die "sbrk de-allocation didn't really deallocate" else mret tt.
Definition sbrk_back (oldbrk : Z) : prog unit :=
  a ← sbrk 0;
  b ← sbrk 0;
  c ← sbrk (- (b - oldbrk));
  if negb (c =? a) then printf 1 (ln_ "sbrk downsize failed, a %x c %x") [inl a; inl c];; Exit else mret tt.
(** Can the kernel's memory be read at [a]? *)
Definition sbrk_peek (a : Z) : prog unit :=
  ppid ← own_ Ogetpid;
  pid ← fork;
  if pid <? 0 then die "fork failed" else
  if pid =? 0 then
    v ← own_ (Oload a);
    printf 1 (ln_ "oops could read %x = %x") [inl a; inl v];;
    sys (Ckill ppid);;
    Exit
  else sys Cwait;; mret tt.
(** for(;;) sleep(1000), for [n] rounds *)
Fixpoint sit_around (n : nat) : prog unit :=
  match n with
  | O => Loops
  | S n => sys (Csleep 1000);; sit_around n
  end.
Fixpoint sbrk_hogs (n rounds : nat) (fds : Z * Z) : prog (list Z) :=
  match n with
  | O => mret []
  | S n =>
    pid ← fork;
    if pid =? 0 then
      b ← sbrk 0;
      sbrk (BIG - b);;
      sys (Cwrite fds.2 (bz "x"));;
      sit_around rounds;;
      Exit
    else
      (if negb (pid =? -1) then sys (Cread fds.1 1);; mret tt else mret tt);;
      pids ← sbrk_hogs n rounds fds;
      mret (pid :: pids)
  end.
Fixpoint kill_all (pids : list Z) : prog unit :=
  match pids with
  | [] => mret tt
  | pid :: pids =>
    (if pid =? -1 then mret tt else sys (Ckill pid);; sys Cwait;; mret tt);;
    kill_all pids
  end.
Definition sbrk_full (rounds : nat) (oldbrk : Z) : prog unit :=
  r ← sys Cpipe;
  match (r : option (Z * Z)) with
  | None => die "pipe() failed"
  | Some fds =>
    pids ← sbrk_hogs 10 rounds fds;
    c ← sbrk 4096;
    kill_all pids;;
    if c =? -1 then die "failed sbrk leaked memory" else
    b ← sbrk 0;
    (if oldbrk <? b then b ← sbrk 0; sbrk (- (b - oldbrk));; mret tt else mret tt);;
    say "sbrk test OK"
  end.
Definition sbrktest (rounds : nat) : prog unit :=
  say "sbrk test";;
  oldbrk ← sbrk 0;
  a ← sbrk 0;
  a ← sbrk_bytes 5000 0 a;
  sbrk_fork a;;
  sbrk_big;;
  sbrk_down_up;;
  sbrk_back oldbrk;;
  for_ 40 0 (λ i, sbrk_peek (KERNBASE + 50000 * i));;
  sbrk_full rounds oldbrk.

(** sleep() with the stack pointer at [p]: the kernel takes the argument from [p] + 4. *)
Definition validateint (p : Z) : prog unit :=
  n ← own_ (Oargint (u32 (p + 4)));
  match (n : option Z) with
  | None => mret tt
  | Some n => sys (Csleep n);; mret tt
  end.
(** link(path, p) with a pointer that may be bad. *)
Definition link_at (old : list Z) (p : Z) : prog Z :=
  s ← own_ (Oargstr p);
  match (s : option (list Z)) with
  | None => mret (-1)
  | Some new => sys (Clink old new)
  end.
(** p = 0, 4096, ..., hi *)
Definition validatetest : prog unit :=
  say "validate test";;
  let hi := 1100 * 1024 in
  for_ (Z.to_nat (hi / 4096 + 1)) 0 (λ i,
    let p := 4096 * i in
    pid ← fork;
    if pid =? 0 then validateint p;; Exit else
    sys (Csleep 0);;
    sys (Csleep 0);;
    sys (Ckill pid);;
    sys Cwait;;
    r ← link_at (bz "nosuchfile") p;
    if negb (r =? -1) then die "link should not succeed" else mret tt);;
  say "validate ok".

(** [uninit] is the address of the array. *)
Definition bsstest (uninit : Z) : prog unit :=
  say "bss test";;
  for_ 10000 0 (λ i,
    c ← own_ (Oload (uninit + i));
    if negb (c =? 0) then die "bss test failed" else mret tt);;
  say "bss test ok".

(** ** exec() with too much, and all of it *)

Definition bigarg : list Z := ln_ "bigargs test: failed" ++ replicate 199 32.
Definition bigargtest : prog unit :=
  sys (Cunlink (bz "bigarg-ok"));;
  pid ← fork;
  if pid =? 0 then
    say "bigarg test";;
    execv (bz "echo") (replicate (MAXARG - 1) bigarg);;
    say "bigarg test ok";;
    touch (bz "bigarg-ok") O_CREATE;;
    Exit
  else if pid <? 0 then die "bigargtest: fork failed"
  else
    sys Cwait;;
    fd ← must (Copen (bz "bigarg-ok") 0) lt0 "bigarg test failed!";
    sys (Cclose fd);;
    sys (Cunlink (bz "bigarg-ok"));;
    mret tt.

Definition ff_name (n : Z) : list Z :=
  [102; u8 (48 + n / 1000); u8 (48 + (n mod 1000) / 100); u8 (48 + (n mod 100) / 10); u8 (48 + n mod 10)].
(** while(1): the bytes that went into the file. *)
Fixpoint ff_fill (fuel : nat) (fd total : Z) (buf : list Z) : prog Z :=
  match fuel with
  | O => Loops
  | S f =>
    cc ← write fd buf 512;
    if cc <? 512 then mret total else ff_fill f fd (total + cc) buf
  end.
(** for(nfiles = 0; ; nfiles++): the number of the last file. *)
Fixpoint ff_files (fuel : nat) (n : Z) (buf : list Z) : prog Z :=
  match fuel with
  | O => Loops
  | S f =>
    printf 1 (ln_ "writing %s") [inr (ff_name n)];;
    fd ← sys (Copen (ff_name n) (Z.lor O_CREATE O_RDWR));
    if fd <? 0 then printf 1 (ln_ "open %s failed") [inr (ff_name n)];; mret n
    else
      total ← ff_fill fuel fd 0 buf;
      printf 1 (ln_ "wrote %d bytes") [inl total];;
      sys (Cclose fd);;
      if total =? 0 then mret n else ff_files f (n + 1) buf
  end.
(** while(nfiles >= 0), for n = nfiles + 1 rounds *)
Fixpoint ff_unlink (n : nat) : prog unit :=
  match n with
  | O => mret tt
  | S n => sys (Cunlink (ff_name (Z.of_nat n)));; ff_unlink n
  end.
Definition fsfull (fuel : nat) (buf : list Z) : prog unit :=
  say "fsfull test";;
  n ← ff_files fuel 0 buf;
  ff_unlink (Z.to_nat (n + 1));;
  say "fsfull test finished".

Definition rand (randstate : Z) : Z := u32 (randstate * 1664525 + 1013904223).

(** What the program's image and its stack hold: the addresses of the arrays [uninit] and
    of the allocator's [base], and the values of uninitialised variables. *)
Record image : Type := Image {
  im_uninit : Z;
  im_base : Z;
  im_heap : ust;
  im_pfds : Z * Z;
  im_de : list Z;
}.

(** The order of the tests: files first, then the address space, then the others. *)
Definition main_files (im : image) (fuel : nat) (buf : list Z) : prog (list Z) :=
  createdelete;;
  linkunlink;;
  concreate fuel (im_de im);;
  buf ← fourfiles fuel buf;
  sharedfd fuel;;
  bigargtest;;
  bigwrite buf;;
  bigargtest;;
  bsstest (im_uninit im);;
  sbrktest fuel;;
  validatetest;;
  opentest;;
  buf ← writetest buf;
  buf ← writetest1 fuel buf;
  createtest;;
  mret buf.
Definition main_rest (im : image) (fuel : nat) (buf : list Z) : prog unit :=
  openiputtest;;
  exitiputtest;;
  iputtest;;
  mem (im_base im) fuel (im_heap im);;
  buf ← pipe1 fuel buf;
  buf ← preempt (im_pfds im) buf;
  exitwait;;
  rmdot;;
  fourteen;;
  buf ← bigfile fuel buf;
  buf ← subdir buf;
  buf ← linktest buf;
  buf ← unlinkread buf;
  dirfile;;
  iref;;
  forktest;;
  bigdir;;
  exectest.
Definition main (im : image) (fuel : nat) : prog unit :=
  say "usertests starting";;
  fd ← sys (Copen (bz "usertests.ran") 0);
  if 0 <=? fd then die "already ran user tests -- rebuild fs.img" else
  touch (bz "usertests.ran") O_CREATE;;
  buf ← main_files im fuel buf0;
  main_rest im fuel buf;;
  Exit.
End Ut.
