(* ===== verification/UtFork.v ===== *)
(** * forktest and exitwait of usertests.c, on every schedule

    A process whose children do nothing but exit: however the scheduler interleaves them,
    fork() fails only for lack of a slot or of memory, every child is waited for, and one
    more wait() finds none. *)

From stdpp Require Import base gmap list strings.
From Stdlib Require Import ZArith Lia.
From S2P Require Import Prelude Params User Uprogs Os OsSpec OsInv Usertests.

Import Os.

Section family.
Context (image : list Z → option program) (i : nat) (p : prc) (f : nat) (t : inodes) (out : list Z).
Hypothesis Hi : i ≠ 0%nat.
Hypothesis Hparent : p_parent p ≠ i.

Definition kid (o : option prc) : nat := if is_child i o then 1 else 0.
Definition live (o : option prc) : nat :=
  match o with Some q => if is_child i o && negb (p_zombie q) then 1 else 0 | None => 0 end.
Definition kids (w : world) : nat := sum_list (kid <$> w_procs w).
Definition lives (w : world) : nat := sum_list (live <$> w_procs w).

(** A slot other than [i]: a child that has ended or is about to, or something that stands still. *)
Definition member (w : world) (progs : list (nat * prog unit)) (j : nat) : Prop :=
  match proc_at w j with
  | None => True
  | Some q =>
    if decide (p_parent q = i) then
      j ≠ 0%nat ∧ 0 < p_id q ∧ (p_zombie q = true ∨ p_zombie q = false ∧ p_killed q = false ∧ progs !! j = Some (0%nat, Exit))
    else parked w progs j
  end.
Record family (n a : nat) (w : world) (progs : list (nat * prog unit)) : Prop := {
  fam_ok : ok w;
  fam_me : proc_at w i = Some p;
  fam_tty : ∃ x, tty p w f x;
  fam_member : ∀ j, j ≠ i → member w progs j;
  fam_kids : kids w = n;
  fam_live : lives w = a;
  fam_len : length progs = length (w_procs w) ∧ (length (w_procs w) ≤ NPROC)%nat;
  fam_ino : w_ino w = t;
  fam_out : w_out w = out;
  fam_pid : 0 < w_pid w;
  fam_init : ∀ j, j = 0%nat ∨ j = p_parent p → ∃ r, proc_at w j = Some r ∧ p_parent r ≠ i;
}.

Lemma kid_Some q : kid (Some q) = if decide (p_parent q = i) then 1%nat else 0%nat.
Proof. clear Hi Hparent. unfold kid, is_child. destruct (Nat.eqb_spec (p_parent q) i), (decide (p_parent q = i)); congruence. Qed.
Lemma live_Some q : live (Some q) = if decide (p_parent q = i) then (if p_zombie q then 0 else 1)%nat else 0%nat.
Proof. clear Hi Hparent.
  unfold live, is_child. destruct (Nat.eqb_spec (p_parent q) i), (decide (p_parent q = i)), (p_zombie q); cbn; congruence.
Qed.

(** Members other than slot [j] do not notice a change of slot [j] and of programs elsewhere. *)
Lemma member_keep w w' progs progs' k : proc_at w' k = proc_at w k → progs' !! k = progs !! k →
  member w progs k → member w' progs' k.
Proof. intros E1 E2. unfold member, parked. by rewrite E1, E2. Qed.

(** ** A child ends *)

(** What is not a child of [j] is given to init, and was not one of [i]'s. *)
Lemma give_counts j l (g : option prc → nat) : j ≠ i → (∀ q, g (Some q) = if decide (p_parent q = i) then g (Some q) else 0%nat) →
  (∀ q, g (Some (set_parent 0 q)) = 0%nat) → sum_list (g <$> (give_to_init j <$> l)) = sum_list (g <$> l).
Proof.
  intros Hj Hg H0. rewrite <- list_fmap_compose. f_equal. apply list_fmap_ext. intros _ [q|] _; [|done]. cbn.
  destruct (Nat.eqb_spec (p_parent q) j) as [E|]; [|done]. by rewrite H0, Hg, decide_False by congruence.
Qed.

(** A child that has nothing left but to exit does so. *)
Lemma member_step w progs j s' : j ≠ i → member w progs j → step image j (OS w progs) = Some s' →
  ∃ q, proc_at w j = Some q ∧ p_parent q = i ∧ p_zombie q = false ∧ 0 < p_id q ∧ j ≠ 0%nat ∧
    s' = OS (exit j q w) (<[j := (0%nat, Exit)]> progs).
Proof.
  intros Hj Hm Hs. unfold member in Hm. destruct (proc_at w j) as [q|] eqn:Hq;
    [|unfold step in Hs; cbn in Hs; by rewrite Hq in Hs].
  destruct (decide (p_parent q = i)) as [Epar|]; [|by rewrite (parked_stuck image _ _ _ Hm) in Hs].
  destruct Hm as (Hj0 & Hid & Hm). exists q. unfold step, prog_at, goes_on in Hs. cbn [o_w o_progs] in Hs. rewrite Hq in Hs.
  destruct Hm as [Hz|(Hz & Hkl & Hpr)]; [by destruct (default _ _); rewrite Hz in Hs|].
  rewrite Hpr in Hs. cbn [default] in Hs. rewrite Hz, Hkl in Hs. destruct (Nat.eqb_spec j 0); [done|].
  injection Hs as <-. by split_and!.
Qed.
Lemma member_exit w progs j q k : proc_at w j = Some q → j ≠ i → j ≠ 0%nat → k ≠ i → p_parent q = i → 0 < p_id q →
  member w progs k → member (exit j q w) (<[j := (0%nat, Exit)]> progs) k.
Proof.
  intros Hq Hji Hj0 Hki Hpar Hid Hm. unfold member, parked in *. rewrite exit_proc_at by done.
  destruct (decide (k = j)) as [->|Hkj]; cbn [p_parent p_id p_zombie set_zombie set_fds];
    [rewrite Hpar, decide_True by done; by split_and!; [..|left]|].
  destruct (proc_at w k) as [r|]; cbn [give_to_init]; [|done].
  destruct (Nat.eqb_spec (p_parent r) j) as [E|]; cbn [p_parent set_parent]; rewrite list_lookup_insert_ne by done; [|done].
  rewrite decide_False in Hm by congruence. by rewrite decide_False.
Qed.
Lemma child_moves n a w progs j s' : family n a w progs → j ≠ i → step image j (OS w progs) = Some s' →
  ∃ w' progs', s' = OS w' progs' ∧ progs' !! i = progs !! i ∧ family n (a - 1) w' progs' ∧ (0 < a)%nat.
Proof.
  intros [Hok Hme [x Ht] Hm Hk Ha Hl Hino Hout Hpid H0] Hj Hs.
  destruct (member_step w progs j s' Hj (Hm j Hj) Hs) as (q & Hq & Hpar & Hz & Hid & Hj0 & ->).
  pose proof (step_ok image j (OS w progs) _ Hok Hs) as Hok'. cbn [o_w] in Hok'.
  destruct (close_all_rest (p_fds q) w) as (E1 & E2 & E3 & E4), (close_all_misc (p_fds q) w) as (F1 & F2 & F3).
  pose proof (proj1 (proc_at_Some w j q) Hq) as Hqj.
  assert (Hgive : (give_to_init j <$> w_procs w) !! j = Some (Some q)).
  { rewrite list_lookup_fmap, Hqj. cbn. destruct (Nat.eqb_spec (p_parent q) j); [congruence|done]. }
  set (q' := set_zombie (set_fds (replicate NOFILE None) q)).
  assert (Hk' : kids (exit j q w) = kids w).
  { unfold kids. rewrite exit_procs. pose proof (sum_insert kid _ j (Some q) (Some q') Hgive) as H.
    rewrite (give_counts j (w_procs w) kid Hj) in H;
      [|intros r; rewrite kid_Some; cbn [p_parent set_parent]; by destruct (decide _)..].
    change (kid (Some q')) with (kid (Some q)) in H. fold q'. lia. }
  assert (Ha' : (lives (exit j q w) + 1 = lives w)%nat).
  { unfold lives. rewrite exit_procs. pose proof (sum_insert live _ j (Some q) (Some q') Hgive) as H.
    rewrite (give_counts j (w_procs w) live Hj) in H;
      [|intros r; rewrite live_Some; cbn [p_parent set_parent]; by destruct (decide _)..].
    assert (L1 : live (Some q') = 0%nat) by (rewrite live_Some; by destruct (decide _)).
    rewrite L1, live_Some, Hz, decide_True in H by done. fold q'. lia. }
  assert (Hme' : proc_at (exit j q w) i = Some p).
  { rewrite exit_proc_at, decide_False, Hme by done. cbn. destruct (Nat.eqb_spec (p_parent p) j) as [E|]; [|done].
    destruct (H0 j) as (r & Hr & ?); [by right|congruence]. }
  exists (exit j q w), (<[j := (0%nat, Exit)]> progs). split_and!; [done|by rewrite list_lookup_insert_ne| |lia].
  split; try done.
  - eapply (tty_keep i p f w); [done..|exact E1|exact E4].
  - intros k Hki. by apply member_exit; [..|apply Hm].
  - lia.
  - lia.
  - rewrite length_insert, exit_procs, length_insert, length_fmap. done.
  - transitivity (w_ino w); [exact E1|done].
  - transitivity (w_out w); [exact F1|done].
  - change (0 < w_pid (close_all (p_fds q) w)). by rewrite F2.
  - intros k Hk0. destruct (H0 k Hk0) as (r & Hr & Hne). rewrite exit_proc_at by done.
    rewrite decide_False, Hr by (intros ->; congruence). cbn [give_to_init]. eexists. split; [done|].
    by destruct (_ =? _)%nat.
Qed.

Lemma child_can_move n a w progs : family n a w progs → (0 < a)%nat → ∃ j s', step image j (OS w progs) = Some s'.
Proof.
  intros [Hok Hme [x Ht] Hm Hk Ha Hl Hino Hout Hpid H0] Hpos. rewrite <- Ha in Hpos.
  destruct (sum_pos live (w_procs w) Hpos) as (j & o & Hj & Hlive).
  destruct o as [q|]; [|cbn in Hlive; lia]. rewrite live_Some in Hlive.
  destruct (decide (p_parent q = i)) as [Hpar|]; [|lia]. destruct (p_zombie q) eqn:Hz; [lia|].
  assert (Hq : proc_at w j = Some q) by (by apply proc_at_Some).
  assert (Hji : j ≠ i) by (intros ->; congruence). pose proof (Hm j Hji) as Hmj. unfold member in Hmj.
  rewrite Hq, decide_True in Hmj by done. destruct Hmj as (Hj0 & _ & [?|(_ & Hkl & Hpr)]); [congruence|].
  exists j. unfold step, prog_at. cbn [o_w o_progs]. rewrite Hq, Hpr. cbn [default]. rewrite Hz, Hkl.
  destruct (Nat.eqb_spec j 0); [done|]. by eexists.
Qed.

(** ** The parent forks and waits *)

Lemma family_prog n a w progs io k : family n a w progs → family n a w (<[i := (io, k)]> progs).
Proof.
  intros [Hok Hme Ht Hm Hk Ha Hl Hino Hout Hpid H0]. split; try done; [|by rewrite length_insert].
  intros j Hj. eapply member_keep; [done|by rewrite list_lookup_insert_ne|by apply Hm].
Qed.
Lemma family_luck n a w progs : family n a w progs → family n a (set_calls (S (w_calls w)) w) progs.
Proof.
  intros [Hok Hme Ht Hm Hk Ha Hl Hino Hout Hpid H0]. split; try done. by apply ok_luck.
Qed.

Lemma family_fork n a w progs : family n a w progs →
  match fork i p w with
  | (Some (j, pid), w') => 0 < pid ∧ j ≠ i ∧ family (S n) (S a) w' (<[j := (0%nat, Exit)]> progs)
  | (None, w') => family n a w' progs
  end.
Proof.
  intros F. pose proof (ok_fork w i p (fam_ok _ _ _ _ F) (fam_me _ _ _ _ F)) as Hok'. apply family_luck in F.
  unfold fork in *. cbn [lucky] in *. set (w1 := set_calls (S (w_calls w)) w) in *.
  destruct (free_slot (w_procs w1) 0) as [j|] eqn:Ej; [|done]. destruct (w_luck w (w_calls w)); [|done].
  cbn [snd] in Hok'. apply free_slot_at in Ej.
  destruct F as [Hok Hme [x Ht] Hm Hk Ha [Hl1 Hl2] Hino Hout Hpid H0].
  destruct (dup_all_rest (p_fds p) w1) as (E1 & E2 & E3 & E5 & E4).
  set (child := Prc (p_fds p) (p_cwd p) (w_pid w1) i (p_sz p) (p_guard p) (p_mem p) false false) in *.
  set (w2 := put_proc j child (set_pid (w_pid w1 + 1) (dup_all (p_fds p) w1))) in *.
  assert (Ep : w_procs w2 = <[j := Some child]> (w_procs w1)) by (cbn; by rewrite E3).
  assert (Hfree : proc_at w1 j = None) by (unfold proc_at; by rewrite Ej).
  assert (Hji : j ≠ i) by (intros ->; congruence).
  assert (Hj0 : ∀ k, k = 0%nat ∨ k = p_parent p → k ≠ j) by (intros k Hk0 ->; destruct (H0 j Hk0) as (r & ? & _); congruence).
  assert (Hat : ∀ k, proc_at w2 k = if decide (k = j) then Some child else proc_at w1 k).
  { intros k. unfold proc_at. rewrite Ep. destruct (decide (k = j)) as [->|]; [|by rewrite list_lookup_insert_ne].
    by rewrite list_lookup_insert_eq by (by eapply lookup_lt_Some). }
  split_and!; [done..|]. split; [done| | | | | | | | | |].
  - by rewrite Hat, decide_False.
  - eapply (tty_keep i p f w1); [done..|by rewrite Hat, decide_False|exact E1|exact E4].
  - intros k Hki. destruct (decide (k = j)) as [->|Hkj].
    + unfold member. rewrite Hat, decide_True by done. cbn [p_parent child]. rewrite decide_True by done.
      split_and!; [intros ->; by apply (Hj0 0%nat); [left|]|done|]. right.
      rewrite list_lookup_insert_eq by (rewrite Hl1; by eapply lookup_lt_Some). done.
    + eapply member_keep; [by rewrite Hat, decide_False|by rewrite list_lookup_insert_ne|by apply Hm].
  - unfold kids. rewrite Ep. pose proof (sum_insert kid _ j None (Some child) Ej) as H.
    rewrite kid_Some in H. cbn [p_parent child] in H. rewrite decide_True in H by done.
    change (kid None) with 0%nat in H. unfold kids in Hk. lia.
  - unfold lives. rewrite Ep. pose proof (sum_insert live _ j None (Some child) Ej) as H.
    rewrite live_Some in H. cbn [p_parent p_zombie child] in H. rewrite decide_True in H by done.
    change (live None) with 0%nat in H. unfold lives in Ha. lia.
  - rewrite length_insert, Ep, length_insert. done.
  - transitivity (w_ino w1); [exact E1|done].
  - transitivity (w_out w1); [apply dup_all_out|done].
  - change (0 < w_pid w1 + 1). lia.
  - intros k Hk0. rewrite Hat, decide_False by (by apply Hj0). by apply H0.
Qed.

Lemma find_zombie_none l k : find_zombie i l k = None → sum_list (kid <$> l) = sum_list (live <$> l).
Proof. clear Hi Hparent.
  revert k. induction l as [|[q|] l IH]; intros k; cbn [find_zombie]; [done| |]; rewrite !sum_cons.
  - destruct (Nat.eqb_spec (p_parent q) i) as [E|E]; cbn [andb]; [destruct (p_zombie q) eqn:Hz; [done|]|];
      intros H; rewrite kid_Some, live_Some, ?Hz, (IH _ H); by destruct (decide _).
  - intros H. by rewrite (IH _ H).
Qed.
Lemma existsb_kids l : existsb (is_child i) l = negb (sum_list (kid <$> l) =? 0)%nat.
Proof. clear Hi Hparent.
  induction l as [|o l IH]; [done|]. cbn [existsb]. rewrite sum_cons, IH. unfold kid at 2.
  by destruct (is_child i o).
Qed.
Lemma family_wait n a w progs : family n a w progs →
  match wait i w with
  | Done pid w' => n = 0%nat ∧ pid = -1 ∧ w' = w ∨ 0 < pid ∧ ∃ n', n = S n' ∧ family n' a w' progs
  | Partly _ _ => False
  | Wait => (0 < a)%nat
  end.
Proof.
  intros F. pose proof (ok_wait w i) as Hokw. unfold wait in *.
  destruct F as [Hok Hme [x Ht] Hm Hk Ha [Hl1 Hl2] Hino Hout Hpid H0].
  destruct (find_zombie i (w_procs w) 0) as [[j pid]|] eqn:E.
  - right. destruct (find_zombie_proc i w j pid E) as (q & Hq & Hpar & Hz & Hid).
    pose proof (proj1 (proc_at_Some w j q) Hq) as Hj. assert (Hji : j ≠ i) by (intros ->; congruence).
    pose proof (Hm j Hji) as Hmj. unfold member in Hmj. rewrite Hq, decide_True in Hmj by done.
    destruct Hmj as (Hj0 & Hidpos & _). rewrite Hid in Hidpos. split; [done|].
    set (w' := set_procs (<[j := None]> (w_procs w)) w) in *.
    assert (Hat : ∀ k, proc_at w' k = if decide (k = j) then None else proc_at w k).
    { intros k. unfold proc_at. cbn [w_procs w' set_procs]. destruct (decide (k = j)) as [->|]; [|by rewrite list_lookup_insert_ne].
      by rewrite list_lookup_insert_eq by (by eapply lookup_lt_Some). }
    pose proof (sum_insert kid _ j (Some q) None Hj) as Hk'. rewrite kid_Some, decide_True in Hk' by done.
    pose proof (sum_insert live _ j (Some q) None Hj) as Ha'. rewrite live_Some, Hz, decide_True in Ha' by done.
    change (kid None) with 0%nat in Hk'. change (live None) with 0%nat in Ha'. unfold kids, lives in *.
    exists (n - 1)%nat. split; [lia|]. split; try done.
    + by apply (Hokw pid).
    + by rewrite Hat, decide_False.
    + exists x. exact Ht.
    + intros k Hki. destruct (decide (k = j)) as [->|].
      * unfold member. by rewrite Hat, decide_True.
      * eapply member_keep; [by rewrite Hat, decide_False|done|by apply Hm].
    + unfold kids. cbn [w_procs w' set_procs]. lia.
    + unfold lives. cbn [w_procs w' set_procs]. lia.
    + cbn [w_procs w' set_procs]. by rewrite length_insert.
    + intros k Hk0. destruct (H0 k Hk0) as (r & Hr & ?). rewrite Hat, decide_False by (intros ->; congruence). by exists r.
  - rewrite existsb_kids. apply find_zombie_none in E. unfold kids, lives in *. rewrite Hk in *.
    destruct (Nat.eqb_spec n 0) as [->|]; cbn [negb]; [by left|lia].
Qed.

Lemma kids_le w : (kids w ≤ length (w_procs w))%nat.
Proof. clear Hi Hparent.
  unfold kids. induction (w_procs w) as [|o l IH]; [done|]. rewrite sum_cons. cbn [length].
  assert (kid o ≤ 1)%nat by (unfold kid; destruct (is_child i o); lia). lia.
Qed.
Lemma lives_le w : (lives w ≤ kids w)%nat.
Proof. clear Hi Hparent.
  unfold kids, lives. induction (w_procs w) as [|[q|] l IH]; [done| |]; rewrite !sum_cons; [|cbn; lia].
  rewrite kid_Some, live_Some. destruct (decide _), (p_zombie q); lia.
Qed.
(** Without children the process is alone. *)
Lemma family_alone a w progs : family 0 a w progs → alone i w progs ∧ a = 0%nat.
Proof. clear Hi Hparent.
  intros [Hok Hme [x Ht] Hm Hk Ha Hl Hino Hout Hpid H0]. split; [|pose proof (lives_le w); lia].
  intros j Hj. specialize (Hm j Hj). unfold member, parked in *. destruct (proc_at w j) as [q|] eqn:Hq; [|done].
  destruct (decide (p_parent q = i)) as [E|]; [|done]. apply proc_at_Some in Hq.
  pose proof (sum_ge kid _ _ _ Hq) as H. rewrite kid_Some, decide_True in H by done. unfold kids in Hk. lia.
Qed.

(** ** forktest() *)

Section forktest.
Context (K : unit → prog unit).
Hypothesis Halive : alive p = true.

Definition waits_body (_ : Z) : prog unit := Ut.must Cwait Ut.lt0 "wait stopped early";; mret tt.
Definition waits_last : prog unit := Ut.must Cwait (Ut.isnt (-1)) "wait got too many";; Ut.say "fork test OK".
Definition after_forks (n : Z) : prog unit :=
  if n =? 1000 then Ut.die "fork claimed to work 1000 times!"
  else Ut.for_ (Z.to_nat n) 0 waits_body;; waits_last.

Inductive phase : Type := Forks (todo n : nat) | Waits (m : nat) (z : Z).
Definition code (ph : phase) : prog unit :=
  match ph with
  | Forks todo n => Ut.fork_loop todo (Z.of_nat n) ≫= λ n, after_forks n ≫= K
  | Waits m z => (Ut.for_ m z waits_body;; waits_last) ≫= K
  end.
Definition born (ph : phase) : nat := match ph with Forks _ n => n | Waits m _ => m end.
Definition weight (x : phase * nat) : nat :=
  (2 * (match x.1 with Forks todo n => 2 * todo + n + 2 | Waits m _ => m + 1 end) + x.2)%nat.
Definition Inv (x : phase * nat) (s : os) : Prop :=
  family (born x.1) x.2 (o_w s) (o_progs s) ∧ o_progs s !! i = Some (0%nat, code x.1) ∧
  match x.1 with Forks todo n => (todo + n = 1000)%nat | Waits _ _ => True end.
Definition Waited (s : os) : Prop :=
  family 0 0 (o_w s) (o_progs s) ∧ o_progs s !! i = Some (0%nat, Ut.say "fork test OK" ≫= K).

Lemma progs_set n a w progs io k : family n a w progs → <[i := (io, k)]> progs !! i = Some (io, k).
Proof.
  intros F. apply list_lookup_insert_eq. rewrite (proj1 (fam_len _ _ _ _ F)). eapply proc_at_lt, fam_me, F.
Qed.
Lemma forks_step todo n a w progs s' : Inv (Forks todo n, a) (OS w progs) → step image i (OS w progs) = Some s' →
  ∃ x', Inv x' s' ∧ (weight x' < weight (Forks todo n, a))%nat.
Proof.
  intros (F & Hp & Hsum) Hs. cbn [o_w o_progs fst snd born] in *.
  assert (Hn : (n ≤ 64)%nat).
  { rewrite <- (fam_kids _ _ _ _ F). pose proof (kids_le w). pose proof (proj2 (fam_len _ _ _ _ F)). unfold NPROC in *. lia. }
  destruct todo as [|todo]; [lia|]. cbn [code Ut.fork_loop] in Hp.
  rewrite (step_fork image _ i p 0 w progs (fam_me _ _ _ _ F) Halive Hp) in Hs.
  pose proof (family_fork n a w progs F) as Hf. destruct (fork i p w) as [[[j pid]|] w'].
  - destruct Hf as (Hpid & Hji & F'). injection Hs as <-.
    exists (Forks todo (S n), S a). split; [|unfold weight; cbn [fst snd]; lia]. split_and!; cbn [o_w o_progs fst snd born]; [|..|lia].
    + by apply family_prog.
    + erewrite progs_set by exact F'. do 2 f_equal. destruct (Z.ltb_spec pid 0); [lia|]. destruct (Z.eqb_spec pid 0); [lia|].
      cbn [code]. by rewrite Nat2Z.inj_succ.
  - injection Hs as <-. exists (Waits n 0, a). split; [|unfold weight; cbn [fst snd]; lia].
    split_and!; cbn [o_w o_progs fst snd born]; [by apply family_prog| |done].
    erewrite progs_set by exact Hf. do 2 f_equal. unfold fork. cbn [code].
    change (after_forks (Z.of_nat n) ≫= K = code (Waits n 0)). unfold after_forks.
    destruct (Z.eqb_spec (Z.of_nat n) 1000); [lia|]. by rewrite Nat2Z.id.
Qed.

Lemma waits_step m z a w progs s' : Inv (Waits m z, a) (OS w progs) → step image i (OS w progs) = Some s' →
  Waited s' ∨ ∃ x', Inv x' s' ∧ (weight x' < weight (Waits m z, a))%nat.
Proof.
  intros (F & Hp & _) Hs. cbn [o_w o_progs fst snd born] in *. pose proof (family_wait m a w progs F) as Hw.
  destruct m as [|m].
  - change (code (Waits 0 z)) with (Sys Cwait (λ r, ((if Ut.isnt (-1) r then Ut.die "wait got too many" else mret r) ≫=
      λ _, Ut.say "fork test OK") ≫= K)) in Hp.
    rewrite (step_sys image _ _ i p 0 w progs (fam_me _ _ _ _ F) Halive Hp) in Hs. cbn [do_call] in Hs.
    destruct (wait i w) as [pid w'|io w'|]; [|done|by destruct (family_alone a w progs F); lia].
    destruct Hw as [(_ & -> & ->)|(_ & n' & ? & _)]; [|lia]. injection Hs as <-. left.
    destruct (family_alone a w progs F) as [_ ->]. split; cbn [o_w o_progs]; [by apply family_prog|].
    by erewrite progs_set by exact F.
  - change (code (Waits (S m) z)) with (Sys Cwait (λ r, ((((if Ut.lt0 r then Ut.die "wait stopped early" else mret r) ≫=
      λ _, mret tt) ≫= λ _, Ut.for_ m (z + 1) waits_body) ≫= λ _, waits_last) ≫= K)) in Hp.
    rewrite (step_sys image _ _ i p 0 w progs (fam_me _ _ _ _ F) Halive Hp) in Hs. cbn [do_call] in Hs.
    destruct (wait i w) as [pid w'|io w'|]; [|done..].
    destruct Hw as [(? & _)|(Hpid & n' & E & F')]; [done|]. injection E as <-. injection Hs as <-. right.
    exists (Waits m (z + 1), a). split; [|unfold weight; cbn [fst snd]; lia].
    split_and!; cbn [o_w o_progs fst snd born]; [by apply family_prog| |done].
    erewrite progs_set by exact F'. unfold Ut.lt0. by destruct (Z.ltb_spec pid 0); [lia|].
Qed.
Lemma waits_sys m z : ∃ k, code (Waits m z) = Sys Cwait k.
Proof. destruct m as [|m]; by eexists. Qed.
Lemma parent_or_child x s : Inv x s → ∃ j s', step image j s = Some s'.
Proof.
  destruct x as [ph a], s as [w progs]. intros (F & Hp & Hsum). cbn [o_w o_progs fst snd] in *.
  pose proof (fam_me _ _ _ _ F) as Hme. destruct ph as [todo n|m z]; cbn [born] in F.
  - destruct todo as [|todo].
    + pose proof (kids_le w). pose proof (proj2 (fam_len _ _ _ _ F)). rewrite (fam_kids _ _ _ _ F) in *. unfold NPROC in *. lia.
    + exists i. cbn [code Ut.fork_loop] in Hp. rewrite (step_fork image _ i p 0 w progs Hme Halive Hp).
      destruct (fork i p w) as [[[j pid]|] w']; by eexists.
  - destruct (waits_sys m z) as [k Hk]. rewrite Hk in Hp.
    pose proof (step_sys image _ _ i p 0 w progs Hme Halive Hp) as Hs. cbn [do_call] in Hs.
    pose proof (family_wait m a w progs F) as Hw. destruct (wait i w); [by eauto|done|by eapply child_can_move].
Qed.
Lemma waited_inevitably x s : Inv x s → inevitably image Waited s.
Proof.
  revert x s. apply (inevitably_measure image Inv weight). intros [ph a] [w progs] HI.
  pose proof HI as (F & Hp & Hsum). cbn [o_w o_progs fst snd] in F, Hp.
  split; [by eapply parent_or_child|]. intros j s' Hs. destruct (decide (j = i)) as [->|Hji].
  - destruct ph as [todo n|m z]; [right; by eapply forks_step|by apply (waits_step m z a w progs)].
  - right. destruct (child_moves _ a w progs j s' F Hji Hs) as (w' & progs' & -> & Hpr & F' & Hpos).
    exists (ph, (a - 1)%nat). split; [|unfold weight; cbn [fst snd]; lia].
    split_and!; cbn [o_w o_progs fst snd]; [done|by rewrite Hpr|done].
Qed.
End forktest.
End family.

(** ** From a process that is ready, and back *)

Lemma ready_family i p w progs f x : ready i p w progs → tty p w f x → family i p f (w_ino w) (w_out w) 0 0 w progs.
Proof.
  intros [Hok Hme Hal _ Ha Hk Hl Hpid (Hi & H0 & Hp)] Ht.
  assert (Hkid : kids i w = 0%nat).
  { destruct (kids i w) eqn:E; [done|]. destruct (sum_pos (kid i) (w_procs w)) as (j & o & Hj & Ho); [unfold kids in E; lia|].
    destruct o as [q|]; [|cbn in Ho; lia]. rewrite kid_Some in Ho. apply proc_at_Some in Hj. destruct (decide _); [|lia].
    by destruct (Hk j q Hj). }
  split; try done.
  - by exists x.
  - intros j Hj. specialize (Ha j Hj). unfold member, parked in *. destruct (proc_at w j) as [q|] eqn:Hq; [|done].
    by rewrite decide_False by (by eapply Hk).
  - pose proof (lives_le i w). lia.
  - intros j [->| ->]; [destruct H0 as [r Hr]|destruct Hp as [r Hr]]; exists r; by eauto.
Qed.
Lemma family_ready i p f t out w progs : i ≠ 0%nat → alive p = true →
  family i p f t out 0 0 w progs → ready i p w progs.
Proof.
  intros Hi Hal F. destruct (family_alone i p f t out 0 w progs F) as [Ha _].
  destruct F as [Hok Hme [x Ht] Hm Hk Hlv Hl Hino Hout Hpid H0]. split; try done.
  - by exists f, x.
  - intros j q Hq%proc_at_Some E. pose proof (sum_ge (kid i) _ _ _ Hq) as H.
    rewrite kid_Some, decide_True in H by done. unfold kids in Hk. lia.
  - split_and!; [done|..]; [destruct (H0 0%nat) as (r & -> & _)|destruct (H0 (p_parent p)) as (r & -> & _)]; by eauto.
Qed.
(** C17: forktest() of usertests prints that it passed whatever the schedule and whatever
    fork() gets: children and parent take their steps in any order, fork() fails at some
    point, at the latest when the process table is full, every child that was made is
    waited for, and the wait() after that finds none. *)
Theorem forktest_passes (image : list Z → option program) (i : nat) (p : prc) (w : world)
    (progs : list (nat * prog unit)) (K : unit → prog unit) :
  ready i p w progs → progs !! i = Some (0%nat, Ut.forktest ≫= K) →
  inevitably image (λ s, ∃ w' progs', s = OS w' progs' ∧ ready i p w' progs' ∧ progs' !! i = Some (0%nat, K tt) ∧
    w_out w' = w_out w ++ ln_ "fork test" ++ ln_ "fork test OK" ∧ w_ino w' = w_ino w) (OS w progs).
Proof.
  intros Hr Hp. unfold Ut.forktest, Ut.say in Hp. rewrite bind_assoc in Hp.
  eapply inevitably_trans; [by eapply (ready_say _ i p w progs _ _ (ln_ "fork test"))|].
  intros s (w1 & progs1 & -> & Hr1 & Hp1 & Ho1 & Hi1). rewrite bind_assoc in Hp1.
  destruct (rd_tty _ _ _ _ Hr1) as (f & x & Ht).
  pose proof (ready_family i p w1 progs1 f x Hr1 Ht) as F. pose proof (rd_alive _ _ _ _ Hr1) as Hal.
  destruct (rd_init _ _ _ _ Hr1) as (Hi0 & _ & _).
  assert (Hpar : p_parent p ≠ i) by (eapply (rd_kids _ _ _ _ Hr1); apply Hr1).
  eapply inevitably_trans; [eapply (waited_inevitably image i p f (w_ino w1) (w_out w1) Hi0 Hpar K Hal (Forks 1000 0, 0%nat));
    by split_and!|].
  intros [w2 progs2] [F2 Hp2]. cbn [o_w o_progs] in *.
  pose proof (fam_ino _ _ _ _ _ _ _ _ _ F2) as Hi2. pose proof (fam_out _ _ _ _ _ _ _ _ _ F2) as Ho2.
  eapply inevitably_mono; [|by eapply (ready_say _ i p w2 progs2 _ _ (ln_ "fork test OK")); [eapply family_ready|..]].
  intros s (w3 & progs3 & -> & Hr3 & Hp3 & Ho3 & Hi3). exists w3, progs3. split_and!; try done; [|congruence].
  by rewrite Ho3, Ho2, Ho1, <- app_assoc.
Qed.
