(* ===== verification/UtPipe.v ===== *)
(** * pipe1 of usertests.c, on every schedule

    The child writes 5165 numbered bytes into a pipe of 512 and exits; the parent reads
    pieces of growing size, checks the numbers, and sees the end of the pipe.  However the
    two are interleaved, the parent finds every byte in its place and all of them. *)

From stdpp Require Import base gmap list strings.
From Stdlib Require Import ZArith Lia FunctionalExtensionality.
From S2P Require Import Prelude Params Pipe User Uprogs Os OsSpec OsInv Usertests.

Import Os.

(** ** Holders of files *)

Lemma file_held w g : ok w → is_Some (w_files w !! g) ↔ ∃ k q, proc_at w k = Some q ∧ Some g ∈ p_fds q.
Proof.
  intros Hw. rewrite <- (g_some _ _ (ok_good w Hw) g). unfold refs. split.
  - intros (k & o & Hk & Ho)%sum_pos. destruct o as [q|]; [|cbn in Ho; lia]. exists k, q.
    split; [by apply proc_at_Some|by apply occ_elem].
  - intros (k & q & Hk%proc_at_Some & Hg%occ_elem). pose proof (sum_ge (occ_of g) _ _ _ Hk) as H.
    cbn [occ_of] in H. lia.
Qed.

(** ** A fork that succeeds *)

Definition child_of (i : nat) (p : prc) (pid : Z) : prc :=
  Prc (p_fds p) (p_cwd p) pid i (p_sz p) (p_guard p) (p_mem p) false false.
Record forked (i j : nat) (p : prc) (w w' : world) : Prop := {
  fk_ok : ok w';
  fk_free : proc_at w j = None;
  fk_at : ∀ k, proc_at w' k = if decide (k = j) then Some (child_of i p (w_pid w)) else proc_at w k;
  fk_len : length (w_procs w') = length (w_procs w) ∧ (j < length (w_procs w))%nat;
  fk_pid : w_pid w' = w_pid w + 1;
  fk_files : sub_files w w';
  fk_rest : w_ino w' = w_ino w ∧ w_out w' = w_out w ∧ w_pipes w' = w_pipes w;
}.
Lemma dup_all_pipes fds w : w_pipes (dup_all fds w) = w_pipes w.
Proof. revert w. induction fds as [|[g|] fds IH]; intros w; [done| |apply IH]. cbn [dup_all]. by rewrite IH. Qed.
Lemma fork_succeeds i j p w : ok w → proc_at w i = Some p → w_luck w (w_calls w) = true → free_slot (w_procs w) 0 = Some j →
  ∃ w', fork i p w = (Some (j, w_pid w), w') ∧ forked i j p w w'.
Proof.
  intros Hok Hp Hl Hj. pose proof (ok_fork w i p Hok Hp) as Hok'. unfold fork in *. cbn [lucky] in *.
  set (w1 := set_calls (S (w_calls w)) w) in *. change (free_slot (w_procs w1) 0 = Some j) in Hj. rewrite Hj, Hl in *. cbn [snd] in Hok'.
  apply free_slot_at in Hj. pose proof (lookup_lt_Some _ _ _ Hj) as Hlt. destruct (dup_all_rest (p_fds p) w1) as (E1 & E2 & E3 & E5 & E4).
  eexists. split; [done|]. split; [done| | | |done|exact E4|split_and!; [exact E1|exact (dup_all_out _ w1)|exact (dup_all_pipes _ w1)]].
  - unfold proc_at. change (w_procs w) with (w_procs w1). by rewrite Hj.
  - intros k. rewrite proc_at_put; [|change (j < length (w_procs (dup_all (p_fds p) w1)))%nat; by rewrite E3].
    destruct (decide (k = j)); [done|]. unfold proc_at. change (w_procs (set_pid _ ?x)) with (w_procs x). by rewrite E3.
  - cbn [w_procs put_proc set_procs set_pid]. by rewrite length_insert, E3.
Qed.

Section pair.
Context (i j : nat) (image : list Z → option program).
Hypothesis Hij : i ≠ j.
Hypothesis Hi0 : i ≠ 0%nat.
Hypothesis Hj0 : j ≠ 0%nat.

Record pair (w : world) (progs : list (nat * prog unit)) : Prop := {
  pr_ok : ok w;
  pr_parked : ∀ k, k ≠ i → k ≠ j → parked w progs k;
  pr_kids : ∀ k q, k ≠ j → proc_at w k = Some q → p_parent q ≠ i;
  pr_len : length progs = length (w_procs w) ∧ (length (w_procs w) ≤ NPROC)%nat;
  pr_pid : 0 < w_pid w;
}.

(** The others do not change, but for having init as their parent. *)
Definition same_rest (w w' : world) : Prop :=
  length (w_procs w') = length (w_procs w) ∧ w_pid w' = w_pid w ∧
  ∀ k, k ≠ i → k ≠ j → proc_at w' k = proc_at w k ∨ proc_at w' k = give_to_init j (proc_at w k).

Lemma pair_keep w w' progs progs' : pair w progs → ok w' → same_rest w w' →
  (∀ k, k ≠ i → k ≠ j → progs' !! k = progs !! k) → length progs' = length progs →
  (∀ q, proc_at w' i = Some q → p_parent q ≠ i) → pair w' progs'.
Proof.
  intros [Hok Hpk Hk [Hl1 Hl2] Hpid] Hok' (El & Ep & Es) Epr Elp Hpi. split; [done|..].
  - intros k Hki Hkj. specialize (Hpk k Hki Hkj). unfold parked in *. rewrite Epr by done.
    destruct (Es k Hki Hkj) as [->| ->]; [done|]. destruct (proc_at w k) as [q|]; [|done]. cbn.
    by destruct (p_parent q =? j)%nat.
  - intros k q Hkj Hq. destruct (decide (k = i)) as [->|Hki]; [by apply Hpi|].
    destruct (Es k Hki Hkj) as [E|E]; rewrite E in Hq; [by eapply Hk|].
    destruct (proc_at w k) as [q0|] eqn:Ek; [|done]. injection Hq as <-.
    destruct (p_parent q0 =? j)%nat; [done|by eapply Hk].
  - by rewrite Elp, El.
  - by rewrite Ep.
Qed.

(** ** The calls of the two *)

(** What a call of the process in slot [k] that does not concern other processes changes. *)
Record own_call (k : nat) (q' : prc) (w w' : world) : Prop := {
  oc_procs : w_procs w' = <[k := Some q']> (w_procs w);
  oc_pid : w_pid w' = w_pid w;
  oc_files : sub_files w w';
}.
Lemma own_call_at k q q' w w' m : proc_at w k = Some q → own_call k q' w w' →
  proc_at w' m = if decide (m = k) then Some q' else proc_at w m.
Proof.
  intros Hq%proc_at_lt [E _ _]. unfold proc_at. rewrite E. destruct (decide (m = k)) as [->|].
  - by rewrite list_lookup_insert_eq.
  - by rewrite list_lookup_insert_ne.
Qed.
Lemma own_call_rest k q q' w w' : proc_at w k = Some q → k = i ∨ k = j → own_call k q' w w' → same_rest w w'.
Proof.
  intros Hq Hk Ho. split_and!; [by rewrite (oc_procs _ _ _ _ Ho), length_insert|apply Ho|].
  intros m Hmi Hmj. left. rewrite (own_call_at k q q' w) by done. rewrite decide_False; [done|naive_solver].
Qed.
Lemma own_call_same k q w w' : proc_at w k = Some q → w_procs w' = w_procs w → w_pid w' = w_pid w → sub_files w w' →
  own_call k q w w'.
Proof. intros Hq%proc_at_Some E1 E2 E3. split; [|done..]. by rewrite E1, list_insert_id. Qed.
Lemma close_own k q fd f w : proc_at w k = Some q → fd_file q fd = Some f →
  close k q fd w = (0, fileclose f (put_proc k (set_fds (<[Z.to_nat fd := None]> (p_fds q)) q) w)) ∧
  own_call k (set_fds (<[Z.to_nat fd := None]> (p_fds q)) q) w (close k q fd w).2.
Proof.
  intros Hq Hf. unfold close. rewrite Hf. split; [done|]. cbn [snd]. split.
  - by rewrite fileclose_procs.
  - unfold fileclose. by repeat case_match.
  - eapply sub_files_trans; [by apply sub_files_eq|apply (fileclose_rest f (put_proc k _ w))].
Qed.

(** Closing leaves the data of pipes alone. *)
Definition pipe_data (n : nat) (w : world) : option (list Z) := q_data <$> w_pipes w !! n.
Lemma fileclose_data n f w : pipe_data n (fileclose f w) = pipe_data n w.
Proof.
  unfold fileclose, pipe_data. destruct (w_files w !! f) as [x|]; [|done].
  destruct (f_ref x) as [|[|r]]; [destruct (f_obj x) as [m|m]..|]; try done; cbn;
    (destruct (decide (n = m)) as [->|]; [|by rewrite lookup_alter_ne]);
    rewrite lookup_alter_eq; destruct (w_pipes w !! m); [|done| |done]; cbn; by destruct (f_w x).
Qed.
Lemma close_all_data n fds w : pipe_data n (close_all fds w) = pipe_data n w.
Proof.
  revert w. induction fds as [|[f|] fds IH]; intros w; [done| |apply IH]. cbn [close_all].
  by rewrite IH, fileclose_data.
Qed.

(** ** The end of the child *)

Lemma exit_rest q w : proc_at w j = Some q → same_rest w (exit j q w).
Proof.
  intros Hq. split_and!.
  - by rewrite exit_procs, length_insert, length_fmap.
  - change (w_pid (close_all (p_fds q) w) = w_pid w). apply close_all_misc.
  - intros k _ Hk. right. by rewrite exit_proc_at, decide_False.
Qed.
Lemma step_exit q io w progs : proc_at w j = Some q → alive q = true → progs !! j = Some (io, Exit) →
  step image j (OS w progs) = Some (OS (exit j q w) (<[j := (0%nat, Exit)]> progs)).
Proof.
  intros Hq Ha Hp. unfold step, prog_at, goes_on. cbn [o_w o_progs]. rewrite Hq, Hp. cbn [default].
  unfold alive in Ha. destruct (p_zombie q), (p_killed q); try done. by destruct (Nat.eqb_spec j 0).
Qed.

(** wait() of the parent: the child is found when it has ended, and only then. *)
Lemma find_zombie_first l m : (∀ k q, l !! k = Some (Some q) → p_parent q = i → k = m) →
  find_zombie i l 0 = match l !! m with
    | Some (Some q) => if (p_parent q =? i)%nat && p_zombie q then Some (m, p_id q) else None
    | _ => None end.
Proof.
  intros Hu. destruct (find_zombie i l 0) as [[k pid]|] eqn:E.
  - apply find_zombie_spec in E as (_ & q & Hq & Hpar & Hz & Hid). rewrite Nat.sub_0_r in Hq.
    pose proof (Hu k q Hq Hpar) as ->. rewrite Hq, Hz, <- Hid, <- Hpar, Nat.eqb_refl. done.
  - destruct (l !! m) as [[q|]|] eqn:Em; [|done..]. destruct (Nat.eqb_spec (p_parent q) i) as [Hpar|]; [|done].
    destruct (p_zombie q) eqn:Hz; [|done]. exfalso. clear Hu. revert m Em E. generalize 0%nat.
    induction l as [|o l IH]; intros k [|m] Em; [done..| |]; cbn [find_zombie].
    + injection Em as ->. by rewrite Hz, (proj2 (Nat.eqb_eq _ _) Hpar).
    + destruct o as [r|]; [destruct (_ && _); [done|]|]; intros HE; by eapply IH.
Qed.
Lemma pair_wait w progs q : pair w progs → proc_at w j = Some q → p_parent q = i →
  wait i w = if p_zombie q then Done (p_id q) (set_procs (<[j := None]> (w_procs w)) w) else Wait.
Proof.
  intros Hp Hq Hpar. pose proof (proj1 (proc_at_Some w j q) Hq) as Hj. unfold wait.
  rewrite (find_zombie_first (w_procs w) j), Hj, (proj2 (Nat.eqb_eq _ _) Hpar).
  - cbn [andb]. destruct (p_zombie q); [done|]. destruct (existsb (is_child i) (w_procs w)) eqn:E; [done|].
    exfalso. apply not_true_iff_false in E. apply E, existsb_exists. exists (Some q).
    split; [apply list_elem_of_In; by eapply list_elem_of_lookup_2|]. cbn. by apply Nat.eqb_eq.
  - intros k r Hk Hr. destruct (decide (k = j)) as [|Hkj]; [done|]. apply proc_at_Some in Hk.
    by destruct (pr_kids _ _ Hp k r Hkj Hk).
Qed.

(** A process that was alone and its new child are a pair. *)
Lemma forked_pair p w w' progs progs' : forked i j p w w' → ok w → proc_at w i = Some p → alone i w progs →
  (∀ k q, proc_at w k = Some q → p_parent q ≠ i) → length progs = length (w_procs w) ∧ (length (w_procs w) ≤ NPROC)%nat →
  0 < w_pid w → (∀ k, k ≠ i → k ≠ j → progs' !! k = progs !! k) → length progs' = length progs → pair w' progs'.
Proof. clear Hij Hi0 Hj0.
  intros [Hok Hfree Hat [Hl1 Hl2] Hpid Hf _] _ Hp Ha Hk Hl Hpd Ep El. split; [done| | | |by rewrite Hpid; lia].
  - intros k Hki Hkj. specialize (Ha k Hki). unfold parked in *. by rewrite Hat, decide_False, Ep.
  - intros k q Hkj. rewrite Hat, decide_False by done. apply Hk.
  - by rewrite El, Hl1.
Qed.
End pair.

(** * pipe1 of usertests.c, on every schedule

    The child writes 5165 numbered bytes into a pipe of 512 and exits; the parent reads
    pieces of growing size, checks the numbers, and sees the end of the pipe.  However the
    two are interleaved, the parent finds every byte in its place and all of them. *)

(** ** The stream *)

Definition TOTAL : nat := Z.to_nat (5 * 1033).
(** The bytes from number [r] up to [k]. *)
Definition slice (r k : nat) : list Z := (λ x, u8 (Z.of_nat x)) <$> seq r (k - r).

Lemma length_slice r k : length (slice r k) = (k - r)%nat.
Proof. unfold slice. by rewrite length_fmap, length_seq. Qed.
Lemma seq_bytes_slice m k : Ut.seq_bytes (Z.of_nat m) k = slice m (m + k).
Proof.
  unfold Ut.seq_bytes, slice. replace (m + k - m)%nat with k by lia.
  pose proof (fmap_add_seq m 0 k) as E. rewrite Nat.add_0_r in E. rewrite <- E, <- list_fmap_compose. apply list_fmap_ext. intros _ x _. cbn. f_equal. lia.
Qed.
Lemma slice_app r m k : (r ≤ m ≤ k)%nat → slice r m ++ slice m k = slice r k.
Proof.
  intros H. unfold slice. rewrite <- fmap_app. f_equal. replace (k - r)%nat with ((m - r) + (k - m))%nat by lia.
  rewrite seq_app. do 2 f_equal. lia.
Qed.
Lemma take_slice d r k : take d (slice r k) = slice r (r + Nat.min d (k - r)).
Proof.
  unfold slice. rewrite <- fmap_take, take_seq. do 2 f_equal. lia.
Qed.
Lemma drop_slice d r k : drop d (slice r k) = slice (r + d) k.
Proof. unfold slice. rewrite <- fmap_drop, drop_seq. do 2 f_equal. lia. Qed.
Lemma in_seq_slice r k : Ut.in_seq (Z.of_nat r) (slice r k) = true.
Proof.
  unfold Ut.in_seq. apply forallb_forall. intros [c x] Hin%list_elem_of_In. cbn [fst snd].
  apply list_elem_of_lookup_1 in Hin as [y Hy]. rewrite list_lookup_imap in Hy. unfold slice in Hy.
  rewrite list_lookup_fmap in Hy. destruct (seq r (k - r) !! y) as [z|] eqn:Ez; [|done]. cbn in Hy. injection Hy as <- <-.
  apply lookup_seq in Ez as [-> _]. apply Z.eqb_eq. f_equal. lia.
Qed.

(** A write of a piece of the stream behind what is in the pipe. *)
Lemma write_slice n R s e io w qq : w_pipes w !! n = Some qq → q_data qq = slice R (s + io) → (R ≤ s + io ≤ e)%nat →
  Z.of_nat (s + io - R) ≤ PIPESIZE →
  let room := Z.to_nat (PIPESIZE - Z.of_nat (s + io - R)) in
  let put k := set_pipes (<[n := Opipe (slice R k) (q_r qq) (q_w qq)]> (w_pipes w)) w in
  write_pipe n (slice s e) io w =
    if decide (e - (s + io) ≤ room)%nat then Done (Z.of_nat (e - s)) (put e)
    else if decide (room = 0)%nat then if q_r qq then Wait else Done (-1) w
    else Partly (io + room) (put (s + io + room)%nat).
Proof.
  intros Hq Hd HR Hl room put. unfold write_pipe. rewrite Hq, Hd, drop_slice, !length_slice, take_slice. fold room.
  assert (Hr : Z.of_nat room = PIPESIZE - Z.of_nat (s + io - R)) by (unfold room; lia). rewrite <- Hr, slice_app by lia.
  destruct (decide (e - (s + io) ≤ room)%nat) as [Hle|Hgt], (Z.leb_spec (Z.of_nat (e - (s + io))) (Z.of_nat room)); try lia.
  - replace (s + io + room `min` (e - (s + io)))%nat with e by lia. done.
  - rewrite Nat.min_l by lia. destruct (decide (room = 0)%nat), (Z.eqb_spec (Z.of_nat room) 0); try lia; done.
Qed.

(** A read from a pipe that holds a piece of the stream. *)
Lemma read_slice n R W k w qq : w_pipes w !! n = Some qq → q_data qq = slice R W →
  read_pipe n k w =
    if decide (R < W)%nat then
      let R' := (R + Nat.min k (W - R))%nat in
      Done (Some (slice R R')) (set_pipes (<[n := Opipe (slice R' W) (q_r qq) (q_w qq)]> (w_pipes w)) w)
    else if q_w qq then Wait else Done (Some []) w.
Proof.
  intros Hq Hd. unfold read_pipe. rewrite Hq, Hd. pose proof (length_slice R W) as Hl.
  destruct (slice R W) as [|c l] eqn:E; destruct (decide (R < W)%nat) as [Hlt|Hge]; cbn [length] in Hl; try lia; [done|].
  rewrite <- E, take_slice, drop_slice. cbn zeta. do 4 f_equal. unfold slice. f_equal.
  destruct (Nat.le_gt_cases k (W - R)); [by rewrite Nat.min_l by lia|].
  rewrite Nat.min_r by lia. by replace (W - (R + k))%nat with 0%nat by lia; replace (W - (R + (W - R)))%nat with 0%nat by lia.
Qed.

(** ** A pipe that is made *)

Lemma free_slot_used {A} (l : list (option A)) k i u v : l !! i = Some (Some u) →
  free_slot (<[i := Some v]> l) k = free_slot l k.
Proof.
  revert k i. induction l as [|[o|] l IH]; intros k [|i] H; cbn in *; try done. by apply IH.
Qed.

Record piped (i : nat) (p : prc) (a b : nat) (w w' : world) : Prop := {
  pp_ok : ok w';
  pp_slots : a ≠ b ∧ p_fds p !! a = Some None ∧ p_fds p !! b = Some None;
  pp_procs : w_procs w' = <[i := Some (set_fds (<[b := Some (S (w_fresh w))]> (<[a := Some (w_fresh w)]> (p_fds p))) p)]> (w_procs w);
  pp_files : w_files w' = <[w_fresh w := OFile (OPipe (w_fresh w)) true false 0 1]>
    (<[S (w_fresh w) := OFile (OPipe (w_fresh w)) false true 0 1]> (w_files w));
  pp_pipe : w_pipes w' !! w_fresh w = Some (Opipe [] true true);
  pp_rest : w_ino w' = w_ino w ∧ w_out w' = w_out w ∧ w_pid w' = w_pid w ∧ w_luck w' = w_luck w ∧ w_calls w' = S (w_calls w);
}.
Lemma pipe_succeeds i p a b w : ok w → proc_at w i = Some p → alive p = true → w_luck w (w_calls w) = true →
  free_slot (p_fds p) 0 = Some a → free_slot (<[a := Some 0%nat]> (p_fds p)) 0 = Some b →
  ∃ w', pipe i p w = (Some (Z.of_nat a, Z.of_nat b), w') ∧ piped i p a b w w'.
Proof.
  intros Hok Hp Hal Hl Ha Hb. assert (Hz : p_zombie p = false) by (unfold alive in Hal; by destruct (p_zombie p)).
  pose proof (ok_pipe w i p Hok Hp Hz) as Hok'. unfold pipe in *. cbn [lucky] in *. rewrite Hl, Ha, Hb in *. cbn [snd] in Hok'.
  apply free_slot_at in Ha, Hb. eexists. split; [done|]. split; [done| |done|done|apply lookup_insert_eq|done].
  assert (Hab : a ≠ b) by (intros ->; by rewrite list_lookup_insert_eq in Hb by (by eapply lookup_lt_Some)).
  by rewrite list_lookup_insert_ne in Hb.
Qed.

(** ** The two processes *)

Lemma set_fds_id v : set_fds (p_fds v) v = v.
Proof. by destruct v. Qed.

#[local] Opaque Ut.pipe1_writes Ut.pipe1_reads.

Section pipe1.
Context (image : list Z → option program) (i j : nat) (p q : prc) (f a b r n : nat) (fuel0 : nat) (buf0 : list Z)
  (t : inodes) (out : list Z) (K : list Z → prog unit).
(** The file of the write end comes behind that of the read end. *)
Definition we : nat := S r.
Hypothesis Hij : i ≠ j.
Hypothesis Hi0 : i ≠ 0%nat.
Hypothesis Hj0 : j ≠ 0%nat.
Hypothesis Hpar : p_parent p ≠ i.
Hypothesis Hpi : p_parent p ≠ j.
Hypothesis Halive : alive p = true.
Hypothesis Hcpar : p_parent q = i.
Hypothesis Hcalive : alive q = true.
Hypothesis Hab : a ≠ b.
Hypothesis Hfa : p_fds p !! a = Some None.
Hypothesis Hfb : p_fds p !! b = Some None.
Hypothesis Htty1 : fd_file p 1 = Some f.
Hypothesis Hrp : Some r ∉ p_fds p.
Hypothesis Hwp : Some we ∉ p_fds p.
Hypothesis Hfuel : (TOTAL < fuel0)%nat.
Hypothesis Hbuf : length buf0 = Z.to_nat Ut.BUF.

(** Descriptors: none of the pipe, the read end, the write end, both. *)
Definition fd0 : list (option nat) := p_fds p.
Definition fdR : list (option nat) := <[a := Some r]> fd0.
Definition fdW : list (option nat) := <[b := Some we]> fd0.
Definition fdRW : list (option nat) := <[b := Some we]> fdR.

Lemma close_b : <[b := None]> fdRW = fdR.
Proof.
  unfold fdRW. rewrite list_insert_insert_eq. apply list_insert_id. unfold fdR, fd0.
  by rewrite list_lookup_insert_ne.
Qed.
Lemma close_a : <[a := None]> fdR = fd0.
Proof. unfold fdR. rewrite list_insert_insert_eq. by apply list_insert_id. Qed.
Lemma close_a_child : <[a := None]> fdRW = fdW.
Proof. unfold fdRW, fdW. rewrite list_insert_insert_ne by done. by rewrite close_a. Qed.
Lemma elem_fdR g : Some g ∈ fdR ↔ g = r ∨ Some g ∈ fd0.
Proof.
  unfold fdR, fd0. split.
  - intros Hg. apply list_elem_of_lookup_1 in Hg as [k Hk]. destruct (decide (k = a)) as [->|].
    + rewrite list_lookup_insert_eq in Hk by (by eapply lookup_lt_Some). left. congruence.
    + rewrite list_lookup_insert_ne in Hk by done. right. by eapply list_elem_of_lookup_2.
  - intros [->|Hg]; [eapply (list_elem_of_lookup_2 _ a); rewrite list_lookup_insert_eq; [done|by eapply lookup_lt_Some]|].
    apply list_elem_of_lookup_1 in Hg as [k Hk]. destruct (decide (k = a)) as [->|]; [congruence|].
    eapply (list_elem_of_lookup_2 _ k). by rewrite list_lookup_insert_ne.
Qed.
Lemma lookup_fdW : fdW !! b = Some (Some we) ∧ fdRW !! b = Some (Some we) ∧ fdRW !! a = Some (Some r) ∧ fdR !! a = Some (Some r).
Proof.
  pose proof (lookup_lt_Some _ _ _ Hfa). pose proof (lookup_lt_Some _ _ _ Hfb).
  unfold fdW, fdRW, fdR, fd0. split_and!; rewrite ?list_lookup_insert_eq; rewrite ?length_insert; try done.
  rewrite list_lookup_insert_ne by done. by rewrite list_lookup_insert_eq.
Qed.
Lemma keeps_tty : Some f ∈ fd0 ∧ Some f ∈ fdR ∧ Some f ∈ fdRW.
Proof.
  destruct (fd_file_elem p 1 f Htty1) as (H & H1 & _). split_and!; [done|apply elem_fdR; by right|].
  apply (list_elem_of_lookup_2 _ 1). unfold fdRW, fdR, fd0. change (Z.to_nat 1) with 1%nat in H1.
  assert (a ≠ 1%nat ∧ b ≠ 1%nat) as [? ?] by (split; intros ->; congruence). by rewrite !list_lookup_insert_ne.
Qed.

Inductive cph : Type := CClose | CWrite (m : nat) (buf : list Z) (io : nat) | CZombie.
Inductive pph : Type := PClose | PRead (fuel R : nat) (cc : Z) (buf : list Z) | PClose2 (buf : list Z) | PWait (buf : list Z).

Definition cproc (c : cph) : prc :=
  match c with
  | CClose => set_fds fdRW q
  | CWrite _ _ _ => set_fds fdW q
  | CZombie => set_zombie (set_fds (replicate NOFILE None) q)
  end.
Definition pproc (ph : pph) : prc :=
  match ph with PClose => set_fds fdRW p | PRead _ _ _ _ | PClose2 _ => set_fds fdR p | PWait _ => set_fds fd0 p end.

(** The number of the byte the child writes next, and the parent reads next. *)
Definition wpos (c : cph) : nat :=
  match c with CClose => 0 | CWrite m _ io => (5 - m) * 1033 + io | CZombie => TOTAL end.
Definition rpos (ph : pph) : nat := match ph with PClose => 0 | PRead _ R _ _ => R | _ => TOTAL end.

Definition fds : Z * Z := (Z.of_nat a, Z.of_nat b).
Definition ccode (c : cph) : nat * prog unit :=
  match c with
  | CClose => (0%nat, (sys (Cclose fds.1);; Ut.pipe1_writes 5 fds.2 0 buf0;; mret buf0) ≫= K)
  | CWrite m buf io => (io, (Ut.pipe1_writes m fds.2 (Z.of_nat ((5 - m) * 1033)) buf;; mret buf0) ≫= K)
  | CZombie => (0%nat, Exit)
  end.
Definition after_reads (x : option Z * list Z) : prog (list Z) :=
  let '(t, buf) := x in
  match t with
  | None => mret buf
  | Some total =>
    if negb (total =? 5 * 1033) then User.printf 1 (ln_ "pipe1 oops 3 total %d") [inl total];; Exit
    else sys (Cclose fds.1);; sys Cwait;; Ut.say "pipe1 ok";; mret buf
  end.
Definition pcode (ph : pph) : prog unit :=
  match ph with
  | PClose => Ut.pipe1_parent fuel0 fds buf0 ≫= K
  | PRead fuel R cc buf => (Ut.pipe1_reads fuel fds.1 (Z.of_nat R) cc (Z.of_nat R) buf ≫= after_reads) ≫= K
  | PClose2 buf => (sys (Cclose fds.1);; sys Cwait;; Ut.say "pipe1 ok";; mret buf) ≫= K
  | PWait buf => (sys Cwait;; Ut.say "pipe1 ok";; mret buf) ≫= K
  end.

(** What does not change while the two are at work. *)
Record still (w : world) (progs : list (nat * prog unit)) : Prop := {
  st_pair : pair i j w progs;
  st_ends : ∀ g x, w_files w !! g = Some x → f_obj x = OPipe n → g = r ∧ f_w x = false ∨ g = we ∧ f_w x = true;
  st_r : ∀ x, w_files w !! r = Some x → f_obj x = OPipe n ∧ f_r x = true;
  st_w : ∀ x, w_files w !! we = Some x → f_obj x = OPipe n ∧ f_w x = true;
  st_others : ∀ k u, k ≠ i → k ≠ j → proc_at w k = Some u → Some r ∉ p_fds u ∧ Some we ∉ p_fds u;
  st_tty : ∃ x, tty p w f x;
  st_ino : w_ino w = t;
  st_out : w_out w = out;
  st_init : ∀ k, k = 0%nat ∨ k = p_parent p → k ≠ i ∧ k ≠ j ∧ is_Some (proc_at w k);
}.
Definition cwf (c : cph) : Prop :=
  match c with
  | CWrite m buf io => (m ≤ 5)%nat ∧ length buf = Z.to_nat Ut.BUF ∧ (io < 1033)%nat ∧ (m = 0 → io = 0)%nat
  | _ => True
  end.
Definition pwf (ph : pph) (c : cph) : Prop :=
  match ph with
  | PClose => True
  | PRead fuel R cc buf => (TOTAL - R < fuel)%nat ∧ 1 ≤ cc ≤ Ut.BUF ∧ length buf = Z.to_nat Ut.BUF
  | PClose2 buf | PWait buf => c = CZombie ∧ length buf = Z.to_nat Ut.BUF
  end.
Lemma pwf_child ph c c' : pwf ph c → c ≠ CZombie → pwf ph c'.
Proof. destruct ph; try done; by intros [? _]. Qed.
Record Inv2 (c : cph) (ph : pph) (w : world) (progs : list (nat * prog unit)) : Prop := {
  iv_still : still w progs;
  iv_i : proc_at w i = Some (pproc ph);
  iv_j : proc_at w j = Some (cproc c);
  iv_pi : progs !! i = Some (0%nat, pcode ph);
  iv_pj : progs !! j = Some (ccode c);
  iv_data : pipe_data n w = Some (slice (rpos ph) (wpos c));
  iv_pos : (rpos ph ≤ wpos c ≤ TOTAL)%nat;
  iv_cwf : cwf c;
  iv_pwf : pwf ph c;
}.

(** The next call of each code. *)
Definition chunk (m : nat) (buf : list Z) : list Z := splice buf 0 (Ut.seq_bytes (Z.of_nat ((5 - m) * 1033)) 1033).
Lemma ccode_close : ccode CClose = (0%nat, Sys (Cclose fds.1) (λ _, (ccode (CWrite 5 buf0 0)).2)).
Proof. reflexivity. Qed.
#[local] Transparent Ut.pipe1_writes.
Lemma ccode_write m buf io : ccode (CWrite (S m) buf io) =
  (io, Sys (Cwrite fds.2 (take (Z.to_nat 1033) (chunk (S m) buf))) (λ x,
    ((if negb (x =? 1033) then Ut.die "pipe1 oops 1"
      else Ut.pipe1_writes m fds.2 (Z.of_nat ((5 - S m) * 1033) + 1033) (chunk (S m) buf));; mret buf0) ≫= K)).
Proof. reflexivity. Qed.
Lemma ccode_exit buf : ccode (CWrite 0 buf 0) = (0%nat, Exit).
Proof. reflexivity. Qed.
#[local] Opaque Ut.pipe1_writes.

(** ** Holders of the two ends *)

Lemma held c ph w progs g : still w progs → proc_at w i = Some (pproc ph) → proc_at w j = Some (cproc c) →
  g = r ∨ g = we → is_Some (w_files w !! g) ↔ Some g ∈ p_fds (pproc ph) ∨ Some g ∈ p_fds (cproc c).
Proof.
  intros S Hi Hj Hg. rewrite (file_held w g (pr_ok _ _ _ _ (st_pair _ _ S))). split.
  - intros (k & u & Hk & Hu). destruct (decide (k = i)) as [->|Hki]; [left; congruence|].
    destruct (decide (k = j)) as [->|Hkj]; [right; congruence|].
    destruct (st_others _ _ S k u Hki Hkj Hk). by destruct Hg as [->| ->].
  - intros [Hu|Hu]; eauto.
Qed.
Lemma ends_open c ph w progs e qq : still w progs → proc_at w i = Some (pproc ph) → proc_at w j = Some (cproc c) →
  w_pipes w !! n = Some qq → (if e : bool then q_w qq else q_r qq) = true ↔
    let g := if e then we else r in Some g ∈ p_fds (pproc ph) ∨ Some g ∈ p_fds (cproc c).
Proof.
  intros S Hi Hj Hq. destruct (g_ends _ _ (ok_good w (pr_ok _ _ _ _ (st_pair _ _ S))) n qq Hq) as (_ & _ & He).
  rewrite He. cbn zeta. rewrite <- (held c ph w progs) by (done || destruct e; tauto). split.
  - intros (g & y & Hg & Ho & Hw). destruct (st_ends _ _ S g y Hg Ho) as [[-> E]|[-> E]]; rewrite E in Hw; subst e; by rewrite Hg.
  - intros [y Hy]. destruct e.
    + exists we, y. destruct (st_w _ _ S y Hy). by split_and!.
    + exists r, y. destruct (st_r _ _ S y Hy) as [Ho _]. split_and!; [done..|].
      destruct (st_ends _ _ S r y Hy Ho) as [[_ ?]|[E _]]; [done|]. unfold we in E. lia.
Qed.

(** What stands still goes on doing so. *)
Lemma still_keep w w' progs progs' u : still w progs → ok w' → same_rest i j w w' → sub_files w w' →
  w_ino w' = w_ino w → w_out w' = w_out w → (∀ k, k ≠ i → k ≠ j → progs' !! k = progs !! k) →
  length progs' = length progs → proc_at w' i = Some u → p_parent u ≠ i → Some f ∈ p_fds u → still w' progs'.
Proof.
  intros S Hok Hs Hf Ei Eo Ep El Hu Hui Hfu. destruct S as [Hp He Hr Hw Hot [x Ht] Hino Hout Hin]. split.
  - eapply pair_keep; [done..|]. intros u' Hu'. congruence.
  - intros g y Hy Ho. destruct (Hf g y Hy) as (z & Hz & E1 & E2 & E3). rewrite E3. eapply He; [done|congruence].
  - intros y Hy. destruct (Hf r y Hy) as (z & Hz & E1 & E2 & E3). rewrite E1, E2. by apply Hr.
  - intros y Hy. destruct (Hf we y Hy) as (z & Hz & E1 & E2 & E3). rewrite E1, E3. by apply Hw.
  - intros k v Hki Hkj Hv. destruct (proj2 (proj2 Hs) k Hki Hkj) as [E|E]; rewrite E in Hv; [by eapply Hot|].
    destruct (proc_at w k) as [v0|] eqn:Ek; [|done]. injection Hv as <-. cbn. destruct (p_parent v0 =? j)%nat; exact (Hot k v0 Hki Hkj Ek).
  - eapply tty_file; [exact Ht| |done..]. by eapply fd_exists.
  - congruence.
  - congruence.
  - intros k Hk. destruct (Hin k Hk) as (Hki & Hkj & Hs0). split_and!; [done..|].
    destruct (proj2 (proj2 Hs) k Hki Hkj) as [->| ->]; [done|]. by destruct Hs0 as [v ->].
Qed.
Lemma pproc_facts ph : p_parent (pproc ph) ≠ i ∧ Some f ∈ p_fds (pproc ph) ∧ alive (pproc ph) = true.
Proof. destruct keeps_tty as (? & ? & ?). by destruct ph. Qed.

(** A call of one of the two that is its own affair. *)
Lemma still_call k v v' w w' progs io pr : still w progs → proc_at w k = Some v → k = i ∨ k = j → ok w' →
  own_call k v' w w' → w_ino w' = w_ino w → w_out w' = w_out w →
  (∃ ph, proc_at w' i = Some (pproc ph)) → still w' (<[k := (io, pr)]> progs).
Proof.
  intros S Hv Hk Hok Ho Ei Eo [ph Hph]. destruct (pproc_facts ph) as (? & ? & ?).
  eapply (still_keep w); [done|done| | |done|done| | |exact Hph|done|done].
  - by eapply own_call_rest.
  - apply Ho.
  - intros m Hmi Hmj. rewrite list_lookup_insert_ne; [done|]. by destruct Hk as [->| ->].
  - apply length_insert.
Qed.
Lemma progs_at w progs k v x : still w progs → proc_at w k = Some v → <[k := x]> progs !! k = Some x.
Proof.
  intros S Hv. apply list_lookup_insert_eq. rewrite (proj1 (pr_len _ _ _ _ (st_pair _ _ S))). by eapply proc_at_lt.
Qed.

(** ** The child's steps *)

Lemma fd_of v k g : p_fds v !! k = Some (Some g) → fd_file v (Z.of_nat k) = Some g.
Proof.
  intros H. unfold fd_file. destruct (Z.ltb_spec (Z.of_nat k) 0); [lia|]. by rewrite Nat2Z.id, H.
Qed.
Lemma cproc_alive c : c ≠ CZombie → alive (cproc c) = true.
Proof. by destruct c. Qed.

(** A close by one of the two keeps everything but its descriptors. *)
Lemma close_call w progs k v g d io pr ph : still w progs → proc_at w k = Some v → k = i ∨ k = j → p_zombie v = false →
  p_fds v !! d = Some (Some g) →
  (k = i → set_fds (<[d := None]> (p_fds v)) v = pproc ph) → (k = j → proc_at w i = Some (pproc ph)) →
  ∃ w', close k v (Z.of_nat d) w = (0, w') ∧ still w' (<[k := (io, pr)]> progs) ∧
    own_call k (set_fds (<[d := None]> (p_fds v)) v) w w' ∧ pipe_data n w' = pipe_data n w.
Proof.
  intros S Hv Hk Hz Hd Hki Hkj. pose proof (pr_ok _ _ _ _ (st_pair _ _ S)) as Hok.
  pose proof (ok_close w k v (Z.of_nat d) Hok Hv Hz) as Hok'.
  destruct (close_own k v (Z.of_nat d) g w Hv (fd_of v d g Hd)) as [E Ho]. rewrite E in *. rewrite Nat2Z.id in *. cbn [snd] in *.
  eexists. split; [done|]. destruct (fileclose_rest g (put_proc k (set_fds (<[d := None]> (p_fds v)) v) w)) as (E1 & _ & _).
  split_and!; [|done|by rewrite fileclose_data].
  eapply still_call; [done..| | |]; [exact E1| |].
  - unfold fileclose. by repeat case_match.
  - exists ph. rewrite (own_call_at k v _ w) by done. destruct (decide (i = k)) as [<-|Hne]; [by rewrite Hki|].
    destruct Hk as [->| ->]; [done|by apply Hkj].
Qed.

Lemma child_close ph w progs s' : Inv2 CClose ph w progs → step image j (OS w progs) = Some s' →
  ∃ w' progs', s' = OS w' progs' ∧ Inv2 (CWrite 5 buf0 0) ph w' progs'.
Proof.
  intros [S Hi Hj Hpi' Hpj Hd Hpos _ Hpw] Hs. rewrite ccode_close in Hpj.
  rewrite (step_sys image _ _ j (cproc CClose) 0 w progs Hj Hcalive Hpj) in Hs. cbn [do_call done] in Hs.
  destruct lookup_fdW as (_ & _ & HA & _).
  destruct (close_call w progs j (cproc CClose) r a 0 (ccode (CWrite 5 buf0 0)).2 ph S Hj) as (w' & E & S' & Ho & Ed);
    [by right| |exact HA|congruence|done|].
  { unfold alive in Hcalive. cbn. by destruct (p_zombie q). }
  cbn [fds fst] in Hs. rewrite E in Hs. apply Some_inj in Hs. subst s'. cbn [cproc p_fds set_fds] in Ho. rewrite close_a_child in Ho.
  assert (Hat : ∀ m, proc_at w' m = if decide (m = j) then Some (cproc (CWrite 5 buf0 0)) else proc_at w m).
  { intros m. by rewrite (own_call_at j (cproc CClose) _ w w' m Hj Ho). }
  exists w', (<[j := ccode (CWrite 5 buf0 0)]> progs). split; [reflexivity|]. split.
  - exact S'.
  - by rewrite Hat, decide_False.
  - by rewrite Hat, decide_True.
  - by rewrite list_lookup_insert_ne.
  - exact (progs_at w progs j _ _ S Hj).
  - by rewrite Ed.
  - cbn [wpos]. rewrite Nat.sub_diag. cbn [wpos] in Hpos. lia.
  - cbn [cwf]. split_and!; [lia|done|lia|lia].
  - by eapply pwf_child.
Qed.

Lemma length_chunk m buf : length buf = Z.to_nat Ut.BUF → length (chunk m buf) = Z.to_nat Ut.BUF.
Proof.
  intros H. unfold chunk. rewrite length_splice; [done|]. unfold Ut.seq_bytes. rewrite length_fmap, length_seq, H.
  unfold Ut.BUF. lia.
Qed.
Lemma chunk_bytes m buf : length buf = Z.to_nat Ut.BUF →
  take (Z.to_nat 1033) (chunk m buf) = slice ((5 - m) * 1033) ((5 - m) * 1033 + 1033).
Proof.
  intros H. unfold chunk, splice. rewrite seq_bytes_slice. change (take 0 buf) with (@nil Z). rewrite app_nil_l, take_app_le.
  - apply take_ge. rewrite length_slice. lia.
  - rewrite length_slice. lia.
Qed.
(** The parent holds the read end while the child is at work, and the child the write end. *)
Lemma reader_there c ph w progs qq : Inv2 c ph w progs → c ≠ CZombie → w_pipes w !! n = Some qq → q_r qq = true.
Proof.
  intros [S Hi Hj _ _ _ _ _ Hpw] Hc Hq. apply (ends_open c ph w progs false qq S Hi Hj Hq). left.
  destruct lookup_fdW as (_ & _ & H1 & H2). destruct ph; try (by destruct Hpw); cbn [pproc p_fds set_fds]; by eapply list_elem_of_lookup_2.
Qed.
Lemma end_file c ph w progs (e : bool) : Inv2 c ph w progs →
  let g := if e then we else r in Some g ∈ p_fds (pproc ph) ∨ Some g ∈ p_fds (cproc c) →
  ∃ x, w_files w !! g = Some x ∧ f_obj x = OPipe n ∧ (if e then f_w x else f_r x) = true.
Proof.
  intros [S Hi Hj _ _ _ _ _ _] g Hg. destruct (proj2 (held c ph w progs g S Hi Hj ltac:(destruct e; tauto)) Hg) as [x Hx].
  exists x. destruct e; [destruct (st_w _ _ S x Hx)|destruct (st_r _ _ S x Hx)]; by split_and!.
Qed.
Lemma write_to_pipe v k g x bs io w : p_fds v !! k = Some (Some g) → w_files w !! g = Some x → f_w x = true →
  f_obj x = OPipe n → write v (Z.of_nat k) bs io w = write_pipe n bs io w.
Proof. intros H1 H2 H3 H4. unfold write. by rewrite (fd_of v k g H1), H2, H3, H4. Qed.
Lemma read_from_pipe v k g x l w : p_fds v !! k = Some (Some g) → w_files w !! g = Some x → f_r x = true →
  f_obj x = OPipe n → read v (Z.of_nat k) l w = read_pipe n (Z.to_nat l) w.
Proof. intros H1 H2 H3 H4. unfold read. by rewrite (fd_of v k g H1), H2, H3, H4. Qed.
(** Only the data of the pipe change. *)
Lemma still_data w progs k v qq d io pr : still w progs → proc_at w k = Some v → k = i ∨ k = j → w_pipes w !! n = Some qq →
  Z.of_nat (length d) ≤ PIPESIZE → (∃ ph, proc_at w i = Some (pproc ph)) →
  let w' := set_pipes (<[n := Opipe d (q_r qq) (q_w qq)]> (w_pipes w)) w in
  still w' (<[k := (io, pr)]> progs) ∧ pipe_data n w' = Some d.
Proof.
  intros S Hv Hk Hq Hd Hph w'. pose proof (pr_ok _ _ _ _ (st_pair _ _ S)) as Hok. split.
  - eapply (still_call k v v w); [done|done|done|by apply ok_pipe_data| |done|done|done].
    apply own_call_same; [done..|by apply sub_files_eq].
  - unfold pipe_data, w'. cbn [w_pipes set_pipes]. by rewrite lookup_insert_eq.
Qed.

(** What a step of one of the two that changes the data of the pipe alone comes to. *)
Lemma child_moved c c' ph w progs qq : Inv2 c ph w progs → cproc c = cproc c' → w_pipes w !! n = Some qq →
  (wpos c ≤ wpos c' ≤ TOTAL)%nat → Z.of_nat (wpos c' - rpos ph) ≤ PIPESIZE → cwf c' → c ≠ CZombie →
  Inv2 c' ph (set_pipes (<[n := Opipe (slice (rpos ph) (wpos c')) (q_r qq) (q_w qq)]> (w_pipes w)) w) (<[j := ccode c']> progs).
Proof.
  intros [HS Hi Hj Hpi' Hpj Hd Hpos Hcw Hpw] Ec Hq Hle Hroom Hcw' Hc.
  destruct (still_data w progs j (cproc c) qq (slice (rpos ph) (wpos c')) (ccode c').1 (ccode c').2 HS Hj) as [HS' Hd'];
    [by right|done|by rewrite length_slice|by exists ph|]. split; [by destruct (ccode c')|done| | | |done|lia|done|].
  - by rewrite <- Ec.
  - by rewrite list_lookup_insert_ne.
  - exact (progs_at w progs j _ _ HS Hj).
  - by eapply pwf_child.
Qed.
Lemma pipe_filled c ph w progs qq : Inv2 c ph w progs → w_pipes w !! n = Some qq →
  q_data qq = slice (rpos ph) (wpos c) ∧ Z.of_nat (wpos c - rpos ph) ≤ PIPESIZE.
Proof.
  intros [HS Hi Hj Hpi' Hpj Hd Hpos Hcw Hpw] Hq. unfold pipe_data in Hd. rewrite Hq in Hd. injection Hd as Hd.
  destruct (g_ends _ _ (ok_good w (pr_ok _ _ _ _ (st_pair _ _ HS))) n qq Hq) as (_ & Hl & _).
  by rewrite Hd, length_slice in Hl.
Qed.
Lemma pipe_there c ph w progs : Inv2 c ph w progs → ∃ qq, w_pipes w !! n = Some qq.
Proof. intros HI. pose proof (iv_data _ _ _ _ HI) as H. unfold pipe_data in H. destruct (w_pipes w !! n); [eauto|done]. Qed.

(** The write of the child, once it goes on. *)
Lemma child_write_call m buf io ph w progs qq : Inv2 (CWrite (S m) buf io) ph w progs → w_pipes w !! n = Some qq →
  step image j (OS w progs) =
    match write_pipe n (slice ((5 - S m) * 1033) ((5 - S m) * 1033 + 1033)) io w with
    | Done x w' => Some (OS w' (<[j := (0%nat, ((if negb (x =? 1033) then Ut.die "pipe1 oops 1"
        else Ut.pipe1_writes m fds.2 (Z.of_nat ((5 - S m) * 1033) + 1033) (chunk (S m) buf));; mret buf0) ≫= K)]> progs))
    | Partly io' w' => Some (OS w' (<[j := ccode (CWrite (S m) buf io')]> progs))
    | Wait => None
    end.
Proof.
  intros HI Hq. pose proof HI as [HS Hi Hj Hpi' Hpj Hd Hpos (Hm & Hlb & Hio & _) Hpw].
  destruct lookup_fdW as (HB & _).
  destruct (end_file _ _ w progs true HI) as (x & Hx & Hxo & Hxw); [right; by eapply list_elem_of_lookup_2|].
  rewrite ccode_write in Hpj.
  rewrite (step_sys image _ _ j (cproc (CWrite (S m) buf io)) io w progs Hj Hcalive Hpj). cbn [do_call].
  change fds.2 with (Z.of_nat b). rewrite (write_to_pipe (cproc (CWrite (S m) buf io)) b we x _ io w HB Hx Hxw Hxo).
  rewrite (chunk_bytes (S m) buf Hlb). destruct (write_pipe _ _ _ _); [done| |done]. by rewrite ccode_write, (chunk_bytes (S m) buf Hlb).
Qed.
Lemma child_write m buf io ph w progs s' : Inv2 (CWrite (S m) buf io) ph w progs → step image j (OS w progs) = Some s' →
  ∃ m' buf' io' w' progs', s' = OS w' progs' ∧ Inv2 (CWrite m' buf' io') ph w' progs' ∧
    (wpos (CWrite (S m) buf io) < wpos (CWrite m' buf' io'))%nat ∧ (m' ≤ S m)%nat.
Proof.
  intros HI Hs. destruct (pipe_there _ _ _ _ HI) as [qq Hq]. destruct (pipe_filled _ _ _ _ qq HI Hq) as [Hdat Hfull].
  pose proof (iv_cwf _ _ _ _ HI) as (Hm & Hlb & Hio & _). pose proof (iv_pos _ _ _ _ HI) as Hpos. cbn [wpos] in *.
  rewrite (child_write_call m buf io ph w progs qq HI Hq) in Hs.
  rewrite (write_slice n (rpos ph) ((5 - S m) * 1033) ((5 - S m) * 1033 + 1033) io w qq Hq Hdat ltac:(lia) Hfull) in Hs. cbn zeta in Hs.
  set (room := Z.to_nat (PIPESIZE - _)) in *. destruct (decide _) as [Hle|Hgt].
  - apply Some_inj in Hs. subst s'. exists m, (chunk (S m) buf), 0%nat.
    replace ((5 - S m) * 1033 + 1033)%nat with (wpos (CWrite m (chunk (S m) buf) 0)) by (cbn [wpos]; lia).
    eexists _, (<[j := ccode (CWrite m (chunk (S m) buf) 0)]> progs). split_and!; [| |cbn [wpos]; lia|lia].
    2: { apply (child_moved (CWrite (S m) buf io)); [done|done|done| | | |done]; cbn [wpos cwf].
      - unfold TOTAL. lia.
      - lia.
      - split_and!; [lia|by apply length_chunk|lia|done]. }
    do 4 f_equal. cbn [wpos]. destruct (Z.eqb_spec (Z.of_nat ((5 - m) * 1033 + 0 - (5 - S m) * 1033)) 1033); [|lia].
    cbn [negb ccode]. do 5 f_equal. lia.
  - destruct (decide _) as [|H0]; [by rewrite (reader_there _ _ w progs qq HI ltac:(done) Hq) in Hs|]. apply Some_inj in Hs. subst s'.
    exists (S m), buf, (io + room)%nat. replace ((5 - S m) * 1033 + io + room)%nat with (wpos (CWrite (S m) buf (io + room))) by (cbn [wpos]; lia).
    eexists _, _. split_and!; [reflexivity| |cbn [wpos]; lia|lia].
    apply (child_moved (CWrite (S m) buf io) (CWrite (S m) buf (io + room))); [done|done|done| | | |done]; cbn [wpos cwf].
      + unfold TOTAL. lia.
      + lia.
      + split_and!; [lia|done|lia|lia].
Qed.
(** The end of the child. *)
Lemma child_exit buf ph w progs : Inv2 (CWrite 0 buf 0) ph w progs →
  ∃ w' progs', step image j (OS w progs) = Some (OS w' progs') ∧ Inv2 CZombie ph w' progs'.
Proof.
  intros [HS Hi Hj Hpi' Hpj Hd Hpos Hcw Hpw]. rewrite ccode_exit in Hpj. set (v := cproc (CWrite 0 buf 0)) in *.
  rewrite (step_exit j image Hj0 v 0 w progs Hj Hcalive Hpj).
  destruct (pproc_facts ph) as (Hp1 & Hp2 & _). destruct (close_all_rest (p_fds v) w) as (E1 & _ & _ & E4).
  destruct (close_all_misc (p_fds v) w) as (E5 & _ & _).
  assert (Hi' : proc_at (exit j v w) i = Some (pproc ph)).
  { rewrite exit_proc_at, decide_False, Hi by done. cbn. destruct (Nat.eqb_spec (p_parent (pproc ph)) j) as [E|]; [|done].
    by destruct ph. }
  eexists _, (<[j := ccode CZombie]> progs). split; [reflexivity|]. split.
  - eapply (still_keep w); [done|by apply ok_exit, Hj; apply HS|by apply exit_rest|exact E4|exact E1|exact E5| | |exact Hi'|done|done].
    + intros k _ Hk. by rewrite list_lookup_insert_ne.
    + apply length_insert.
  - done.
  - by rewrite exit_proc_at, decide_True.
  - by rewrite list_lookup_insert_ne.
  - exact (progs_at w progs j _ _ HS Hj).
  - change (pipe_data n (close_all (p_fds v) w) = Some (slice (rpos ph) (wpos CZombie))). rewrite close_all_data, Hd.
    reflexivity.
  - cbn [wpos] in *. lia.
  - done.
  - by eapply pwf_child.
Qed.

(** ** The parent's steps *)

Lemma pcode_close : pcode PClose = Sys (Cclose fds.2) (λ _, pcode (PRead fuel0 0 1 buf0)).
Proof. reflexivity. Qed.
#[local] Transparent Ut.pipe1_reads.
Lemma pcode_read fuel R cc buf : pcode (PRead (S fuel) R cc buf) = Sys (Cread fds.1 cc) (λ x,
    let '(m, buf) := match x with None => (-1, buf) | Some l => (Z.of_nat (length l), splice buf 0 l) end in
    ((if 0 <? m then
       if negb (Ut.in_seq (Z.of_nat R) (take (Z.to_nat m) buf)) then Ut.say "pipe1 oops 2";; mret (None, buf)
       else Ut.pipe1_reads fuel fds.1 (Z.of_nat R + m) (if Ut.BUF <? cc * 2 then Ut.BUF else cc * 2) (Z.of_nat R + m) buf
     else mret (Some (Z.of_nat R), buf)) ≫= after_reads) ≫= K).
Proof. cbn. f_equal. apply functional_extensionality. by intros [l|]. Qed.
#[local] Opaque Ut.pipe1_reads.

Lemma not_zombie v : alive v = true → p_zombie v = false.
Proof. unfold alive. by destruct (p_zombie v). Qed.
(** A close of the parent. *)
Lemma parent_closes c ph ph' w progs d g : Inv2 c ph w progs → pcode ph = Sys (Cclose (Z.of_nat d)) (λ _, pcode ph') →
  p_fds (pproc ph) !! d = Some (Some g) → set_fds (<[d := None]> (p_fds (pproc ph))) (pproc ph) = pproc ph' →
  rpos ph' = rpos ph → pwf ph' c →
  ∃ w' progs', step image i (OS w progs) = Some (OS w' progs') ∧ Inv2 c ph' w' progs'.
Proof.
  intros [HS Hi Hj Hpi' Hpj Hd Hpos Hcw Hpw] Ecode Hd0 Ep Er Hpw'. destruct (pproc_facts ph) as (_ & _ & Hal).
  rewrite Ecode in Hpi'. rewrite (step_sys image _ _ i (pproc ph) 0 w progs Hi Hal Hpi'). cbn [do_call done].
  destruct (close_call w progs i (pproc ph) g d 0 (pcode ph') ph' HS Hi) as (w' & E & HS' & Ho & Ed);
    [by left|by apply not_zombie|done|done|congruence|].
  rewrite E. exists w', (<[i := (0%nat, pcode ph')]> progs). split; [done|].
  split; [exact HS'| | | | |by rewrite Ed, Er|by rewrite Er|done|done].
  - by rewrite (own_call_at i (pproc ph) _ w w' i Hi Ho), decide_True, Ep.
  - by rewrite (own_call_at i (pproc ph) _ w w' j Hi Ho), decide_False.
  - exact (progs_at w progs i _ _ HS Hi).
  - by rewrite list_lookup_insert_ne.
Qed.
Lemma parent_close c w progs : Inv2 c PClose w progs →
  ∃ w' progs', step image i (OS w progs) = Some (OS w' progs') ∧ Inv2 c (PRead fuel0 0 1 buf0) w' progs'.
Proof.
  intros HI. destruct lookup_fdW as (_ & HB & _ & _).
  apply (parent_closes c PClose (PRead fuel0 0 1 buf0) w progs b we HI); [done..| |done|].
  - cbn [pproc p_fds set_fds]. by rewrite close_b.
  - cbn [pwf]. unfold Ut.BUF. split_and!; [lia|lia|lia|done].
Qed.
Lemma parent_close2 c buf w progs : Inv2 c (PClose2 buf) w progs →
  ∃ w' progs', step image i (OS w progs) = Some (OS w' progs') ∧ Inv2 c (PWait buf) w' progs'.
Proof.
  intros HI. destruct lookup_fdW as (_ & _ & _ & HA).
  apply (parent_closes c (PClose2 buf) (PWait buf) w progs a r HI); [done..| |done|exact (iv_pwf _ _ _ _ HI)].
  cbn [pproc p_fds set_fds]. by rewrite close_a.
Qed.

(** The read of the parent. *)
Lemma parent_read_call c fuel R cc buf w progs qq : Inv2 c (PRead (S fuel) R cc buf) w progs → w_pipes w !! n = Some qq →
  step image i (OS w progs) =
    match read_pipe n (Z.to_nat cc) w with
    | Done x w' => Some (OS w' (<[i := (0%nat,
        let '(m, buf) := match x with None => (-1, buf) | Some l => (Z.of_nat (length l), splice buf 0 l) end in
        ((if 0 <? m then
           if negb (Ut.in_seq (Z.of_nat R) (take (Z.to_nat m) buf)) then Ut.say "pipe1 oops 2";; mret (None, buf)
           else Ut.pipe1_reads fuel fds.1 (Z.of_nat R + m) (if Ut.BUF <? cc * 2 then Ut.BUF else cc * 2) (Z.of_nat R + m) buf
         else mret (Some (Z.of_nat R), buf)) ≫= after_reads) ≫= K)]> progs))
    | _ => None
    end.
Proof.
  intros HI Hq. pose proof HI as [HS Hi Hj Hpi' Hpj Hd Hpos Hcw Hpw]. destruct lookup_fdW as (_ & _ & _ & HA).
  destruct (end_file _ _ w progs false HI) as (x & Hx & Hxo & Hxr); [left; by eapply list_elem_of_lookup_2|].
  rewrite pcode_read in Hpi'. set (v := pproc _) in *.
  rewrite (step_sys image _ _ i v 0 w progs Hi Halive Hpi'). cbn [do_call].
  change fds.1 with (Z.of_nat a). rewrite (read_from_pipe v a r x cc w HA Hx Hxr Hxo).
  unfold read_pipe. rewrite Hq. by destruct (q_data qq); [destruct (q_w qq)|].
Qed.
(** The write end is open while the child is at work. *)
Lemma writer_there c fuel R cc buf w progs qq : Inv2 c (PRead fuel R cc buf) w progs → w_pipes w !! n = Some qq →
  q_w qq = true ↔ c ≠ CZombie.
Proof.
  intros [HS Hi Hj _ _ _ _ _ Hpw] Hq. rewrite (ends_open c _ w progs true qq HS Hi Hj Hq). cbn zeta.
  destruct lookup_fdW as (H1 & H2 & _ & _). split.
  - intros [Hin|Hin] ->; cbn [pproc cproc p_fds set_fds set_zombie] in Hin.
    + apply elem_fdR in Hin as [E|E]; [unfold we in E; lia|done].
    + by apply elem_of_replicate_inv in Hin.
  - intros Hc. right. destruct c; cbn [cproc p_fds set_fds]; [by eapply list_elem_of_lookup_2..|done].
Qed.
Lemma parent_moved c ph ph' w progs qq d : Inv2 c ph w progs → pproc ph = pproc ph' → w_pipes w !! n = Some qq →
  d = slice (rpos ph') (wpos c) → (rpos ph ≤ rpos ph' ≤ wpos c)%nat → Z.of_nat (wpos c - rpos ph') ≤ PIPESIZE → pwf ph' c →
  Inv2 c ph' (set_pipes (<[n := Opipe d (q_r qq) (q_w qq)]> (w_pipes w)) w) (<[i := (0%nat, pcode ph')]> progs).
Proof.
  intros [HS Hi Hj Hpi' Hpj Hd Hpos Hcw Hpw] Ec Hq -> Hle Hroom Hpw'.
  destruct (still_data w progs i (pproc ph) qq (slice (rpos ph') (wpos c)) 0 (pcode ph') HS Hi) as [HS' Hd'];
    [by left|done|by rewrite length_slice|by exists ph|]. split; [done| |done| | |done|lia|done|done].
  - by rewrite <- Ec.
  - exact (progs_at w progs i _ _ HS Hi).
  - by rewrite list_lookup_insert_ne.
Qed.
Lemma read_more fuel R k cc buf : (0 < k)%nat → (R + k ≤ TOTAL)%nat → length buf = Z.to_nat Ut.BUF → 1 ≤ cc ≤ Ut.BUF →
  (Z.of_nat k ≤ cc) → (TOTAL - R < S fuel)%nat →
  let cc' := if Ut.BUF <? cc * 2 then Ut.BUF else cc * 2 in
  let buf' := splice buf 0 (slice R (R + k)) in
  length buf' = Z.to_nat Ut.BUF ∧ take k buf' = slice R (R + k) ∧ 1 ≤ cc' ≤ Ut.BUF.
Proof.
  intros Hk HR Hlen Hcc Hkc Hf cc' buf'. split_and!.
  - unfold buf'. rewrite length_splice; [done|]. rewrite length_slice, Hlen. lia.
  - unfold buf', splice. change (take 0 buf) with (@nil Z). rewrite app_nil_l, take_app_le, take_ge; [done|..]; rewrite length_slice; lia.
  - unfold cc'. destruct (Z.ltb_spec Ut.BUF (cc * 2)); lia.
  - unfold cc'. destruct (Z.ltb_spec Ut.BUF (cc * 2)); lia.
Qed.
Lemma parent_gets c fuel R cc buf w progs : Inv2 c (PRead (S fuel) R cc buf) w progs → (R < wpos c)%nat →
  ∃ R' cc' buf' w' progs', step image i (OS w progs) = Some (OS w' progs') ∧
    Inv2 c (PRead fuel R' cc' buf') w' progs' ∧ (R < R')%nat.
Proof.
  intros HI HR. destruct (pipe_there _ _ _ _ HI) as [qq Hq]. destruct (pipe_filled _ _ _ _ qq HI Hq) as [Hdat Hfull].
  pose proof (iv_pos _ _ _ _ HI) as Hpos. destruct (iv_pwf _ _ _ _ HI) as (Hf & Hcc & Hlen). cbn [rpos] in *.
  rewrite (parent_read_call c fuel R cc buf w progs qq HI Hq), (read_slice n R (wpos c) _ w qq Hq Hdat), decide_True by done. cbn zeta.
  set (k := Nat.min (Z.to_nat cc) (wpos c - R)) in *.
  destruct (read_more fuel R k cc buf ltac:(lia) ltac:(lia) Hlen Hcc ltac:(lia) Hf) as (Hl' & Ht & Hcc').
  set (cc' := if Ut.BUF <? cc * 2 then Ut.BUF else cc * 2) in *. set (buf' := splice buf 0 (slice R (R + k))) in *.
  exists (R + k)%nat, cc', buf'. eexists _, (<[i := (0%nat, pcode (PRead fuel (R + k) cc' buf'))]> progs). split_and!; [| |lia].
  - rewrite length_slice. replace (R + k - R)%nat with k by lia. destruct (Z.ltb_spec 0 (Z.of_nat k)); [|lia].
    rewrite Nat2Z.id, Ht, in_seq_slice. cbn [negb pcode]. rewrite Nat2Z.inj_add. reflexivity.
  - apply (parent_moved c (PRead (S fuel) R cc buf)); [done..| | |]; cbn [rpos pwf]; [lia|lia|split_and!; [lia|lia|lia|done]].
Qed.
Lemma parent_end fuel R cc buf w progs : Inv2 CZombie (PRead (S fuel) R cc buf) w progs → R = TOTAL →
  ∃ w' progs', step image i (OS w progs) = Some (OS w' progs') ∧ Inv2 CZombie (PClose2 (splice buf 0 [])) w' progs'.
Proof.
  intros HI HR. destruct (pipe_there _ _ _ _ HI) as [qq Hq]. destruct (pipe_filled _ _ _ _ qq HI Hq) as [Hdat Hfull].
  pose proof (writer_there _ _ _ _ _ w progs qq HI Hq) as Hwr. cbn [rpos] in *.
  rewrite (parent_read_call _ fuel R cc buf w progs qq HI Hq), (read_slice n R _ _ w qq Hq Hdat), decide_False by (cbn [wpos]; lia).
  destruct (q_w qq) eqn:Eqw; [by destruct (proj1 Hwr eq_refl)|].
  exists w, (<[i := (0%nat, pcode (PClose2 (splice buf 0 [])))]> progs). split; [by rewrite HR|].
  assert (Ew : w = set_pipes (<[n := Opipe (slice R TOTAL) (q_r qq) (q_w qq)]> (w_pipes w)) w).
  { destruct w, qq. cbn in *. f_equal. rewrite insert_id; [done|]. by rewrite Hq, Hdat. }
  rewrite Ew at 1. apply (parent_moved _ (PRead (S fuel) R cc buf)); [done|done|done| | | |]; cbn [rpos wpos].
  - by rewrite HR.
  - lia.
  - unfold PIPESIZE. lia.
  - destruct (iv_pwf _ _ _ _ HI) as (_ & _ & Hlen). split; [done|]. rewrite length_splice; [done|cbn; lia].
Qed.
Lemma parent_blocked c fuel R cc buf w progs : Inv2 c (PRead (S fuel) R cc buf) w progs → R = wpos c → c ≠ CZombie →
  step image i (OS w progs) = None.
Proof.
  intros HI HR Hc. destruct (pipe_there _ _ _ _ HI) as [qq Hq]. destruct (pipe_filled _ _ _ _ qq HI Hq) as [Hdat Hfull].
  pose proof (proj2 (writer_there _ _ _ _ _ w progs qq HI Hq) Hc) as Hwr. cbn [rpos] in *.
  by rewrite (parent_read_call _ fuel R cc buf w progs qq HI Hq), (read_slice n R _ _ w qq Hq Hdat), decide_False, Hwr by lia.
Qed.

(** The child is gone and its slot free. *)
Lemma reaped c w progs k : still w progs → proc_at w i = Some p → proc_at w j = Some (cproc c) → c = CZombie →
  ready i p (set_procs (<[j := None]> (w_procs w)) w) (<[i := (0%nat, k)]> progs).
Proof.
  intros HS Hi Hj ->. set (w' := set_procs _ w).
  assert (Hat : ∀ m, proc_at w' m = if decide (m = j) then None else proc_at w m).
  { intros m. unfold proc_at, w'. cbn [w_procs set_procs]. pose proof (proc_at_lt w j _ Hj).
    destruct (decide (m = j)) as [->|]; [by rewrite list_lookup_insert_eq|by rewrite list_lookup_insert_ne]. }
  destruct HS as [[Hok Hpk Hk Hl Hpid] _ _ _ _ [x Ht] _ _ Hin]. split; [|by rewrite Hat, decide_False|done|by exists f, x| | | |done|].
  - by eapply ok_reap.
  - intros m Hm. unfold parked. rewrite Hat. destruct (decide (m = j)) as [|Hmj]; [done|].
    specialize (Hpk m Hm Hmj). unfold parked in Hpk. by rewrite list_lookup_insert_ne.
  - intros m v. rewrite Hat. destruct (decide (m = j)) as [|Hmj]; [done|by apply Hk].
  - unfold w'. cbn [w_procs set_procs]. by rewrite !length_insert.
  - split; [done|]. destruct (Hin 0%nat) as (? & ? & ?); [by left|]. destruct (Hin (p_parent p)) as (? & ? & ?); [by right|].
    by rewrite !Hat, !decide_False.
Qed.
(** What the two come to. *)
Definition Passed (s : os) : Prop :=
  ∃ buf, ready i p (o_w s) (o_progs s) ∧ o_progs s !! i = Some (0%nat, (Ut.say "pipe1 ok";; mret buf) ≫= K) ∧
    length buf = Z.to_nat Ut.BUF ∧ w_ino (o_w s) = t ∧ w_out (o_w s) = out.
Lemma parent_wait buf w progs : Inv2 CZombie (PWait buf) w progs →
  ∃ s', step image i (OS w progs) = Some s' ∧ Passed s'.
Proof.
  intros HI. pose proof HI as [HS Hi Hj Hpi' Hpj Hd Hpos Hcw Hpw].
  cbn [pproc] in Hi. unfold fd0 in Hi. rewrite set_fds_id in Hi.
  change (pcode (PWait buf)) with (Sys Cwait (λ _, (Ut.say "pipe1 ok";; mret buf) ≫= K)) in Hpi'.
  rewrite (step_sys image _ _ i p 0 w progs Hi Halive Hpi'). cbn [do_call].
  rewrite (pair_wait i j w progs (cproc CZombie) (st_pair _ _ HS) Hj Hcpar). cbn [cproc p_zombie set_zombie].
  eexists. split; [reflexivity|]. exists buf. cbn [o_w o_progs].
  split_and!; [by eapply reaped|exact (progs_at w progs i _ _ HS Hi)|apply Hpw|apply HS..].
Qed.

(** ** Together *)

Definition cweight (c : cph) : nat :=
  match c with CClose => TOTAL + 8 | CWrite m _ _ => (TOTAL - wpos c) + m + 2 | CZombie => 0 end.
Definition pweight (ph : pph) : nat :=
  match ph with PClose => TOTAL + 5 | PRead _ R _ _ => (TOTAL - R) + 4 | PClose2 _ => 3 | PWait _ => 2 end.
Definition Inv_of (x : cph * pph) (s : os) : Prop := Inv2 x.1 x.2 (o_w s) (o_progs s).
Definition both (x : cph * pph) : nat := cweight x.1 + pweight x.2.

Lemma parent_step c ph w progs s' : Inv2 c ph w progs → step image i (OS w progs) = Some s' →
  Passed s' ∨ ∃ ph', Inv_of (c, ph') s' ∧ (pweight ph' < pweight ph)%nat.
Proof.
  intros HI Hs. destruct ph as [|fuel R cc buf|buf|buf].
  - destruct (parent_close c w progs HI) as (w' & progs' & E & HI'). rewrite E in Hs. apply Some_inj in Hs. subst s'.
    right. exists (PRead fuel0 0 1 buf0). split; [done|cbn [pweight]; lia].
  - destruct (iv_pwf _ _ _ _ HI) as (Hf & _ & _). destruct fuel as [|fuel]; [lia|]. pose proof (iv_pos _ _ _ _ HI) as Hpos. cbn [rpos] in Hpos.
    destruct (decide (R < wpos c)%nat) as [Hlt|Hge].
    + destruct (parent_gets c fuel R cc buf w progs HI Hlt) as (R' & cc' & buf' & w' & progs' & E & HI' & Hlt').
      rewrite E in Hs. apply Some_inj in Hs. subst s'. right. exists (PRead fuel R' cc' buf'). split; [done|].
      pose proof (iv_pos _ _ _ _ HI') as Hpos'. cbn [rpos pweight] in *. lia.
    + assert (HR : R = wpos c) by lia. destruct c as [|m b' io|]; [by rewrite (parent_blocked _ fuel R cc buf w progs HI HR) in Hs..|].
      destruct (parent_end fuel R cc buf w progs HI HR) as (w' & progs' & E & HI'). rewrite E in Hs. apply Some_inj in Hs. subst s'.
      right. eexists. split; [exact HI'|cbn [pweight]; lia].
  - destruct (parent_close2 c buf w progs HI) as (w' & progs' & E & HI'). rewrite E in Hs. apply Some_inj in Hs. subst s'.
    right. exists (PWait buf). split; [done|cbn [pweight]; lia].
  - destruct (iv_pwf _ _ _ _ HI) as (-> & _). destruct (parent_wait buf w progs HI) as (s2 & E & HP). left. congruence.
Qed.
Lemma child_step c ph w progs s' : Inv2 c ph w progs → step image j (OS w progs) = Some s' →
  ∃ c', Inv_of (c', ph) s' ∧ (cweight c' < cweight c)%nat.
Proof.
  intros HI Hs. destruct c as [|m buf io|].
  - destruct (child_close ph w progs s' HI Hs) as (w' & progs' & -> & HI'). exists (CWrite 5 buf0 0).
    split; [done|]. cbn [cweight wpos]. lia.
  - destruct m as [|m].
    + destruct (iv_cwf _ _ _ _ HI) as (_ & _ & _ & Hio). rewrite Hio in * by done.
      destruct (child_exit buf ph w progs HI) as (w' & progs' & E & HI'). rewrite E in Hs. apply Some_inj in Hs. subst s'.
      exists CZombie. split; [done|cbn [cweight]; lia].
    + destruct (child_write m buf io ph w progs s' HI Hs) as (m' & buf' & io' & w' & progs' & -> & HI' & Hlt & Hle).
      exists (CWrite m' buf' io'). split; [done|]. pose proof (iv_pos _ _ _ _ HI'). cbn [cweight]. lia.
  - exfalso. pose proof (iv_j _ _ _ _ HI) as Hj. unfold step in Hs. cbn [o_w o_progs] in Hs. rewrite Hj in Hs.
    by destruct (prog_at _ _).
Qed.
(** The child can move when the pipe is empty. *)
Lemma child_can_step c ph w progs : Inv2 c ph w progs → rpos ph = wpos c → c ≠ CZombie → ∃ s', step image j (OS w progs) = Some s'.
Proof.
  intros HI HR Hc. destruct c as [|m buf io|]; [| |done].
  - pose proof (iv_pj _ _ _ _ HI) as Hpj. rewrite ccode_close in Hpj.
    rewrite (step_sys image _ _ j _ 0 w progs (iv_j _ _ _ _ HI) Hcalive Hpj). cbn [do_call done]. eauto.
  - destruct m as [|m].
    + destruct (iv_cwf _ _ _ _ HI) as (_ & _ & _ & Hio). rewrite Hio in * by done.
      destruct (child_exit buf ph w progs HI) as (? & ? & ? & _). eauto.
    + destruct (pipe_there _ _ _ _ HI) as [qq Hq]. destruct (pipe_filled _ _ _ _ qq HI Hq) as [Hdat Hfull].
      pose proof (iv_cwf _ _ _ _ HI) as (Hm & Hlb & Hio & _). cbn [wpos] in *.
      rewrite (child_write_call m buf io ph w progs qq HI Hq).
      rewrite (write_slice n (rpos ph) ((5 - S m) * 1033) ((5 - S m) * 1033 + 1033) io w qq Hq Hdat ltac:(lia) Hfull).
      cbn zeta. destruct (decide _); [eauto|]. rewrite decide_False; [eauto|]. unfold PIPESIZE. lia.
Qed.
(** One of the two can always move. *)
Lemma one_moves c ph w progs : Inv2 c ph w progs → ∃ k s', step image k (OS w progs) = Some s'.
Proof.
  intros HI. destruct ph as [|fuel R cc buf|buf|buf].
  - destruct (parent_close c w progs HI) as (? & ? & ? & _). eauto.
  - destruct (iv_pwf _ _ _ _ HI) as (Hf & _ & _). destruct fuel as [|fuel]; [lia|]. pose proof (iv_pos _ _ _ _ HI) as Hpos. cbn [rpos] in Hpos.
    destruct (decide (R < wpos c)%nat) as [Hlt|Hge]; [destruct (parent_gets c fuel R cc buf w progs HI Hlt) as (? & ? & ? & ? & ? & ? & _); eauto|].
    assert (HR : R = wpos c) by lia. destruct c as [|m b' io|].
    + destruct (child_can_step _ _ w progs HI HR ltac:(done)). eauto.
    + destruct (child_can_step _ _ w progs HI HR ltac:(done)). eauto.
    + destruct (parent_end fuel R cc buf w progs HI HR) as (? & ? & ? & _). eauto.
  - destruct (parent_close2 c buf w progs HI) as (? & ? & ? & _). eauto.
  - destruct (iv_pwf _ _ _ _ HI) as (-> & _). destruct (parent_wait buf w progs HI) as (s2 & E & HP). eauto.
Qed.
Lemma pair_inevitably x s : Inv_of x s → inevitably image Passed s.
Proof.
  revert x s. apply (inevitably_measure image Inv_of both). intros [c ph] [w progs] HI. split; [by eapply one_moves|].
  intros k s' Hs. destruct (decide (k = i)) as [->|Hki].
  - destruct (parent_step c ph w progs s' HI Hs) as [|(ph' & HI' & Hlt)]; [by left|]. right. exists (c, ph'). split; [done|].
    unfold both. cbn [fst snd]. lia.
  - destruct (decide (k = j)) as [->|Hkj].
    + destruct (child_step c ph w progs s' HI Hs) as (c' & HI' & Hlt). right. exists (c', ph). split; [done|].
      unfold both. cbn [fst snd]. lia.
    + by rewrite (parked_stuck _ _ _ _ (pr_parked _ _ _ _ (st_pair _ _ (iv_still _ _ _ _ HI)) k Hki Hkj)) in Hs.
Qed.
End pipe1.

(** ** The test *)

Section start.
Context (i j : nat) (p : prc) (f a b : nat) (x : ofile) (w w1 w2 : world) (progs : list (nat * prog unit)) (fuel : nat)
  (buf : list Z) (K : list Z → prog unit).
Hypothesis Hr : ready i p w progs.
Hypothesis Ht : tty p w f x.
Hypothesis Hpiped : piped i p a b w w1.
Definition p1 : prc := set_fds (<[b := Some (S (w_fresh w))]> (<[a := Some (w_fresh w)]> (p_fds p))) p.
Hypothesis Hforked : forked i j p1 w1 w2.

Lemma fresh_file k u g : proc_at w k = Some u → Some g ∈ p_fds u → (g < w_fresh w)%nat.
Proof.
  intros Hk Hg. apply (g_fresh _ _ (ok_good w (rd_ok _ _ _ _ Hr))). eapply fd_exists; [apply Hr|done..].
Qed.
Lemma at_piped k : proc_at w1 k = if decide (k = i) then Some p1 else proc_at w k.
Proof.
  unfold proc_at. rewrite (pp_procs _ _ _ _ _ _ Hpiped). destruct (decide (k = i)) as [->|]; [|by rewrite list_lookup_insert_ne].
  by rewrite list_lookup_insert_eq by (eapply proc_at_lt, Hr).
Qed.
Lemma at_forked k : proc_at w2 k =
  if decide (k = j) then Some (child_of i p1 (w_pid w)) else if decide (k = i) then Some p1 else proc_at w k.
Proof.
  rewrite (fk_at _ _ _ _ _ Hforked), at_piped. destruct (pp_rest _ _ _ _ _ _ Hpiped) as (_ & _ & -> & _). done.
Qed.
Lemma slot_j : j ≠ i ∧ proc_at w j = None ∧ j ≠ 0%nat ∧ j ≠ p_parent p ∧ i ≠ 0%nat ∧ p_parent p ≠ i.
Proof.
  pose proof (fk_free _ _ _ _ _ Hforked) as Hj. rewrite at_piped in Hj. destruct (decide (j = i)) as [|Hji]; [done|].
  destruct (rd_init _ _ _ _ Hr) as (Hi0 & [y0 H0] & [y1 H1]). split_and!; try done; [congruence..|].
  eapply (rd_kids _ _ _ _ Hr), Hr.
Qed.
(** The files of the new pipe are its ends. *)
Lemma ends_only g y : w_files w2 !! g = Some y →
  (f_obj y = OPipe (w_fresh w) ↔ g = w_fresh w ∨ g = S (w_fresh w)) ∧
  (g = w_fresh w → f_r y = true ∧ f_w y = false) ∧ (g = S (w_fresh w) → f_w y = true).
Proof.
  intros Hg. destruct (fk_files _ _ _ _ _ Hforked g y Hg) as (z & Hz & -> & -> & ->).
  rewrite (pp_files _ _ _ _ _ _ Hpiped) in Hz. destruct (decide (g = w_fresh w)) as [->|H1].
  { rewrite lookup_insert_eq in Hz. injection Hz as <-. cbn. split_and!; [tauto|done|lia]. }
  rewrite lookup_insert_ne in Hz by done. destruct (decide (g = S (w_fresh w))) as [->|H2].
  { rewrite lookup_insert_eq in Hz. injection Hz as <-. cbn. split_and!; [tauto|lia|done]. }
  rewrite lookup_insert_ne in Hz by done. split_and!; [|done..]. split; [|tauto]. intros Ho. exfalso.
  pose proof (ok_good w (rd_ok _ _ _ _ Hr)) as G. destruct (g_pipe _ _ G g z _ Hz Ho) as [[qq Hqq] _].
  destruct (g_ends _ _ G _ qq Hqq) as [? _]. lia.
Qed.
Lemma start_still progs' : (∀ k, k ≠ i → k ≠ j → progs' !! k = progs !! k) → length progs' = length progs →
  still i j p f (w_fresh w) (w_fresh w) (w_ino w) (w_out w) w2 progs'.
Proof.
  intros Ep El. destruct slot_j as (Hji & Hjf & Hj0 & Hjp & Hi0 & Hpar). destruct (pp_rest _ _ _ _ _ _ Hpiped) as (Ei & Eo & Epid & _).
  destruct (fk_rest _ _ _ _ _ Hforked) as (Ei' & Eo' & _). destruct (fd_file_elem p 1 f (proj1 Ht)) as (Hin & H1 & _).
  pose proof (fresh_file i p f (rd_me _ _ _ _ Hr) Hin) as Hff. split.
  - eapply (forked_pair i j p1 w1 w2 progs progs' Hforked); [apply Hpiped|by rewrite at_piped, decide_True| | | | |done..].
    + intros k Hk. pose proof (rd_alone _ _ _ _ Hr k Hk) as Ha. unfold parked in *. by rewrite at_piped, decide_False.
    + intros k u. rewrite at_piped. destruct (decide (k = i)); [by intros [= <-]|apply Hr].
    + rewrite (pp_procs _ _ _ _ _ _ Hpiped), length_insert. apply Hr.
    + rewrite Epid. apply Hr.
  - intros g y Hy Ho. destruct (ends_only g y Hy) as (He & E1 & E2). apply He in Ho as [->| ->]; [left|right]; split; try done; naive_solver.
  - intros y Hy. destruct (ends_only _ y Hy) as (He & E1 & _). split; [apply He; by left|by apply E1].
  - intros y Hy. destruct (ends_only _ y Hy) as (He & _ & E2). split; [apply He; by right|by apply E2].
  - intros k u Hki Hkj. rewrite at_forked, !decide_False by done. intros Hu.
    split; intros Hg; pose proof (fresh_file k u _ Hu Hg); unfold we in *; lia.
  - destruct Ht as (T1 & T2 & T3 & T4). eapply (tty_file p f w1 w2 x); [split_and!; [done| |done|]| |done|apply Hforked].
    + by rewrite (pp_files _ _ _ _ _ _ Hpiped), !lookup_insert_ne by lia.
    + destruct T4 as (d1 & d2 & d3 & T4 & T5). exists d1, d2, d3. by rewrite Ei.
    + eapply (fd_exists w2 i p1); [apply Hforked|by rewrite at_forked, decide_False, decide_True|].
      apply (list_elem_of_lookup_2 _ 1). cbn [p1 p_fds set_fds]. change (Z.to_nat 1) with 1%nat in H1.
      destruct (pp_slots _ _ _ _ _ _ Hpiped) as (_ & Sa & Sb). by rewrite !list_lookup_insert_ne by (intros ->; congruence).
  - congruence.
  - congruence.
  - destruct (rd_init _ _ _ _ Hr) as (_ & H0 & Hp). intros k [->| ->]; (split_and!; [done..|]); by rewrite at_forked, !decide_False.
Qed.
Lemma start_inv progs' : (∀ k, k ≠ i → k ≠ j → progs' !! k = progs !! k) → length progs' = length progs →
  progs' !! i = Some (0%nat, pcode a b fuel buf K PClose) → progs' !! j = Some (ccode a b buf K CClose) →
  Inv2 i j p (child_of i p1 (w_pid w)) f a b (w_fresh w) (w_fresh w) fuel buf (w_ino w) (w_out w) K CClose PClose w2 progs'.
Proof.
  intros Ep El Hi Hj. destruct slot_j as (Hji & _). split; [by apply start_still| | |done|done| |cbn; lia|done|done].
  - by rewrite at_forked, decide_False, decide_True.
  - by rewrite at_forked, decide_True.
  - unfold pipe_data. destruct (fk_rest _ _ _ _ _ Hforked) as (_ & _ & ->). by rewrite (pp_pipe _ _ _ _ _ _ Hpiped).
Qed.
Lemma start_passes image progs' : (∀ k, k ≠ i → k ≠ j → progs' !! k = progs !! k) → length progs' = length progs →
  progs' !! i = Some (0%nat, pcode a b fuel buf K PClose) → progs' !! j = Some (ccode a b buf K CClose) →
  (TOTAL < fuel)%nat → length buf = Z.to_nat Ut.BUF →
  inevitably image (Passed i p (w_ino w) (w_out w) K) (OS w2 progs').
Proof.
  intros Ep El Hi Hj Hfuel Hbuf. destruct slot_j as (Hji & _ & Hj0 & Hjp & Hi0 & Hpar).
  destruct (pp_slots _ _ _ _ _ _ Hpiped) as (Sab & Sa & Sb).
  apply (pair_inevitably image i j p (child_of i p1 (w_pid w)) f a b (w_fresh w) (w_fresh w) fuel buf (w_ino w) (w_out w) K)
    with (x := (CClose, PClose)); try done.
  - apply Hr.
  - apply Ht.
  - intros Hin. pose proof (fresh_file i p _ (rd_me _ _ _ _ Hr) Hin). unfold we in *. lia.
  - by apply start_inv.
Qed.
End start.

(** The pipe and the fork, which nothing else comes between. *)
Definition in_fork (fuel : nat) (buf : list Z) (fds : Z * Z) (pid : Z) : prog (list Z) :=
  if pid =? 0 then sys (Cclose fds.1);; Ut.pipe1_writes 5 fds.2 0 buf;; mret buf
  else if 0 <? pid then Ut.pipe1_parent fuel fds buf else Ut.die "fork() failed".
Lemma pipe_and_fork image Q i p w w1 w2 progs a b j fuel buf K :
  ready i p w progs → progs !! i = Some (0%nat, Ut.pipe1 fuel buf ≫= K) →
  pipe i p w = (Some (Z.of_nat a, Z.of_nat b), w1) → piped i p a b w w1 →
  fork i (p1 p a b w) w1 = (Some (j, w_pid w1), w2) → j ≠ i →
  let progs2 := <[i := (0%nat, in_fork fuel buf (fds a b) (w_pid w1) ≫= K)]>
    (<[j := (0%nat, in_fork fuel buf (fds a b) 0 ≫= K)]> (<[i := (0%nat, Fork (λ pid, in_fork fuel buf (fds a b) pid ≫= K))]> progs)) in
  inevitably image Q (OS w2 progs2) → inevitably image Q (OS w progs).
Proof.
  intros Hr Hp E1 Hpiped E2 Hji progs2 HQ. pose proof (rd_alone _ _ _ _ Hr) as Ha.
  change (Ut.pipe1 fuel buf ≫= K) with (Sys Cpipe (λ r, match r with None => Ut.die "pipe() failed"
    | Some fds => pid ← User.fork; in_fork fuel buf fds pid end ≫= K)) in Hp.
  assert (Hi : (i < length progs)%nat) by (by eapply lookup_lt_Some).
  assert (Hp1 : proc_at w1 i = Some (p1 p a b w)) by (erewrite at_piped by done; by rewrite decide_True).
  set (progs1 := <[i := (0%nat, Fork (λ pid, in_fork fuel buf (fds a b) pid ≫= K))]> progs) in *.
  apply (alone_moves image Q i w progs (OS w1 progs1)); [exact Ha| |].
  { rewrite (step_sys image _ _ i p 0 w progs (rd_me _ _ _ _ Hr) (rd_alive _ _ _ _ Hr) Hp). cbn [do_call done]. by rewrite E1. }
  apply (alone_moves image Q i w1 progs1 (OS w2 progs2)); [eapply alone_same; [|exact Ha]; eapply same_others_put, Hpiped| |].
  { rewrite (step_fork image (λ pid, in_fork fuel buf (fds a b) pid ≫= K) i (p1 p a b w) 0 w1 progs1 Hp1);
      [by rewrite E2|exact (rd_alive _ _ _ _ Hr)|by apply list_lookup_insert_eq]. }
  exact HQ.
Qed.

(** C16: pipe1() passes on every schedule: a process with a console, two free descriptors and a free slot for its
    child, whose pipe() and fork() get the memory they need, comes to the end of pipe1() however the two processes are
    interleaved.  The parent has then found all 5165 bytes in their place, has seen the end of the pipe and waited for
    the child, and is as it was before; the file system is as it was before. *)
Theorem pipe1_passes (image : list Z → option program) (i : nat) (p : prc) (w : world) (progs : list (nat * prog unit))
    (a b j fuel : nat) (buf : list Z) (K : list Z → prog unit) :
  ready i p w progs → progs !! i = Some (0%nat, Ut.pipe1 fuel buf ≫= K) →
  free_slot (p_fds p) 0 = Some a → free_slot (<[a := Some 0%nat]> (p_fds p)) 0 = Some b → free_slot (w_procs w) 0 = Some j →
  w_luck w (w_calls w) = true → w_luck w (S (w_calls w)) = true → (TOTAL < fuel)%nat → length buf = Z.to_nat Ut.BUF →
  inevitably image (λ s, ∃ w' progs' buf', s = OS w' progs' ∧ ready i p w' progs' ∧ progs' !! i = Some (0%nat, K buf') ∧
    length buf' = length buf ∧ w_out w' = w_out w ++ ln_ "pipe1 ok" ∧ w_ino w' = w_ino w) (OS w progs).
Proof.
  intros Hr Hp Ha Hb Hj Hl1 Hl2 Hfuel Hbuf. destruct (rd_tty _ _ _ _ Hr) as (f & x & Ht).
  destruct (pipe_succeeds i p a b w) as (w1 & E1 & Hpiped); [apply Hr..|done|done|done|].
  destruct (pp_rest _ _ _ _ _ _ Hpiped) as (Ei & Eo & Epid & El & Ec).
  assert (Hp1 : proc_at w1 i = Some (p1 p a b w)) by (erewrite at_piped by done; by rewrite decide_True).
  destruct (fork_succeeds i j (p1 p a b w) w1) as (w2 & E2 & Hforked); [apply Hpiped|done|congruence| |].
  { rewrite (pp_procs _ _ _ _ _ _ Hpiped). erewrite free_slot_used; [done|]. by apply proc_at_Some, Hr. }
  destruct (slot_j i j p a b w w1 w2 progs Hr Hpiped Hforked) as (Hji & Hjf & Hj0 & Hjp & Hi0 & Hpar).
  eapply pipe_and_fork; [done..|]. cbn zeta. set (progs2 := <[i := _]> _).
  pose proof (rd_len _ _ _ _ Hr) as [Hlp _]. pose proof (proc_at_lt _ _ _ (rd_me _ _ _ _ Hr)) as Hlti.
  pose proof (proj2 (fk_len _ _ _ _ _ Hforked)) as Hltj. rewrite (pp_procs _ _ _ _ _ _ Hpiped), length_insert in Hltj.
  eapply inevitably_trans; [apply (start_passes i j p f a b x w w1 w2 progs fuel buf K Hr Ht Hpiped Hforked image progs2)|].
  - intros k Hki Hkj. unfold progs2. by rewrite !list_lookup_insert_ne.
  - unfold progs2. by rewrite !length_insert.
  - unfold progs2. rewrite list_lookup_insert_eq by (rewrite !length_insert; lia). unfold in_fork.
    pose proof (rd_pid _ _ _ _ Hr). destruct (Z.eqb_spec (w_pid w1) 0); [lia|]. by destruct (Z.ltb_spec 0 (w_pid w1)); [|lia].
  - unfold progs2. rewrite list_lookup_insert_ne by done. by rewrite list_lookup_insert_eq by (rewrite !length_insert; lia).
  - done.
  - done.
  - intros [w3 progs3] (buf' & Hr3 & Hp3 & Hlen & Hi3 & Ho3). cbn [o_w o_progs] in *. rewrite bind_assoc in Hp3.
    eapply inevitably_mono; [|by eapply (ready_say _ i p w3 progs3 _ _ (ln_ "pipe1 ok"))].
    intros s (w4 & progs4 & -> & Hr4 & Hp4 & Ho4 & Hi4). exists w4, progs4, buf'. split_and!; try done; congruence.
Qed.
