(* ===== verification/UtRun.v ===== *)
(** * Runs of usertests.c

    The tests of usertests.c on a system that has just started, with each step taken by
    the first process that can move: every test but sharedfd, which is not run, passes.
    The first part has the system just started and the theorems on every schedule there. *)

From stdpp Require Import base gmap list strings.
From Stdlib Require Import ZArith Lia.
From S2P Require Import Prelude Params Cstring Fs Pipe User Uprogs Umalloc Os OsSpec OsInv Usertests UtFork UtPipe.

Import Os.

(** ** The system *)

(** The file that holds [1] is the program echo. *)
Definition boot_image (d : list Z) : option program :=
  if bool_decide (d = [1]) then Some (Program 4096 ∅ (λ argv, Echo.main argv)) else None.
Definition boot_root : slots :=
  [(1%nat, bz "."); (1%nat, bz ".."); (2%nat, bz "README"); (3%nat, bz "cat"); (4%nat, bz "echo"); (5%nat, bz "console")].
Definition boot_tree : inodes :=
  list_to_map [(1%nat, Ino (Dir boot_root) 1); (2%nat, Ino (Reg (bz "hello")) 1); (3%nat, Ino (Reg [2]) 1);
    (4%nat, Ino (Reg [1]) 1); (5%nat, Ino (Dev 1 1) 1)].
Definition boot_fds : list (option nat) := [Some 0%nat; Some 0%nat; Some 0%nat] ++ replicate 13 None.
Definition boot_init : prc := Prc boot_fds 1 1 0 8192 4096 ∅ false false.
Definition boot_prc : prc := Prc boot_fds 1 2 0 40000 4096 ∅ false false.
(** [luck n] says whether request number [n] for memory or a file succeeds. *)
Definition boot_with (luck : nat → bool) : world :=
  World boot_tree 6 {[0%nat := OFile (OInode 5) true true 0 6]} ∅ 1
    (Some boot_init :: Some boot_prc :: replicate 62 None) 3 [] [] luck 0.
Definition boot_world : world := boot_with (λ _, true).
Definition boot_progs (pr : prog unit) : list (nat * prog unit) :=
  (0%nat, Loops) :: (0%nat, pr) :: replicate 62 (0%nat, Loops).
Definition boot (pr : prog unit) : os := OS boot_world (boot_progs pr).

Definition boot_file : ofile := OFile (OInode 5) true true 0 6.
Lemma boot_file_at f x : w_files boot_world !! f = Some x ↔ f = 0%nat ∧ x = boot_file.
Proof. cbn. rewrite lookup_singleton_Some. naive_solver. Qed.
Lemma boot_good : good (refs boot_world) boot_world.
Proof.
  assert (H0 : ∀ f, refs boot_world (S f) = 0%nat) by (intros f; reflexivity).
  split.
  - intros f x [-> ->]%boot_file_at. reflexivity.
  - intros [|f]; [split; [by eexists|intros _; vm_compute; lia]|]. rewrite H0. split; [lia|by intros [? [? _]%boot_file_at]].
  - intros f [x [-> _]%boot_file_at]. cbn. lia.
  - by intros f x n [-> ->]%boot_file_at.
  - by intros f g x y n [-> ->]%boot_file_at [-> ->]%boot_file_at.
  - by intros n q Hq.
Qed.
Lemma boot_inode n e : boot_tree !! n = Some e →
  n = 1%nat ∧ e = Ino (Dir boot_root) 1 ∨ (1 < n < 6)%nat ∧ match n_body e with Dir _ => False | _ => True end.
Proof.
  intros H. apply elem_of_list_to_map_2 in H. repeat (apply elem_of_cons in H as [H|H]; [injection H as -> ->|]); [by left|..|by apply elem_of_nil in H];
    right; (split; [lia|done]).
Qed.
Lemma boot_slots d s : slots_of boot_tree d = Some s → d = 1%nat ∧ s = boot_root.
Proof.
  unfold slots_of. destruct (boot_tree !! d) as [e|] eqn:E; [|done]. apply boot_inode in E as [[-> ->]|(_ & Hb)].
  - by intros <-%Some_inj.
  - by destruct e as [[] ?].
Qed.
Lemma boot_tree_ok : tree_ok boot_tree 6.
Proof.
  split.
  - by eexists.
  - intros n [e [[-> _]|[? _]]%boot_inode]; lia.
  - intros d s n name [-> ->]%boot_slots Hn.
    assert (H : forallb (λ e, bool_decide (is_Some (boot_tree !! e.1))) (used boot_root) = true) by reflexivity.
    rewrite forallb_forall in H. apply list_elem_of_In in Hn. by apply H, bool_decide_eq_true in Hn.
  - intros d s [-> ->]%boot_slots. apply (bool_decide_eq_true_1 _). reflexivity.
Qed.
Lemma boot_proc_at k q : proc_at boot_world k = Some q → k = 0%nat ∧ q = boot_init ∨ k = 1%nat ∧ q = boot_prc.
Proof.
  destruct k as [|[|k]]; [intros [= <-]; by left|intros [= <-]; by right|]. intros H%proc_at_Some.
  change (replicate 62 None !! k = Some (Some q)) in H. by apply lookup_replicate_1 in H as [? _].
Qed.
Lemma boot_ok : ok boot_world.
Proof.
  split.
  - apply boot_good.
  - apply boot_tree_ok.
  - intros f x n [-> ->]%boot_file_at. intros [= <-]. by eexists.
  - intros k q [[-> ->]|[-> ->]]%boot_proc_at; (split_and!; [done|by eexists|done]).
Qed.
Lemma boot_ready pr : ready 1 boot_prc boot_world (boot_progs pr).
Proof.
  split; [apply boot_ok|done|done| | | |split; cbn; [done|unfold NPROC; lia]|done|split_and!; [done|by eexists..]].
  - exists 0%nat, (OFile (OInode 5) true true 0 6). split_and!; [done..|]. exists 5%nat, 1, 1. done.
  - intros k Hk. unfold parked. destruct (proc_at boot_world k) as [q|] eqn:E; [|done].
    apply boot_proc_at in E as [[-> ->]|[-> _]]; [|done]. right. split; [done|]. by exists 0%nat.
  - intros k q [[-> ->]|[-> ->]]%boot_proc_at; done.
Qed.

(** ** The theorems on schedules, there *)

Lemma forktest_passes_witness :
  inevitably boot_image (λ s, w_out (o_w s) = ln_ "fork test" ++ ln_ "fork test OK") (boot (Ut.forktest;; Exit)).
Proof.
  eapply inevitably_mono; [|eapply (forktest_passes boot_image 1 boot_prc boot_world (boot_progs (Ut.forktest;; Exit)) (λ _, Exit))].
  - intros s (w' & progs' & -> & _ & _ & Ho & _). exact Ho.
  - apply boot_ready.
  - reflexivity.
Defined.

Lemma pipe1_passes_witness :
  inevitably boot_image (λ s, w_out (o_w s) = ln_ "pipe1 ok") (boot (Ut.pipe1 6000 Ut.buf0;; Exit)).
Proof.
  eapply inevitably_mono; [|eapply (pipe1_passes boot_image 1 boot_prc boot_world (boot_progs (Ut.pipe1 6000 Ut.buf0;; Exit)) 3 4 2 6000 Ut.buf0 (λ _, Exit))].
  - intros s (w' & progs' & buf' & -> & _ & _ & _ & Ho & _). exact Ho.
  - apply boot_ready.
  - reflexivity.
  - reflexivity.
  - reflexivity.
  - reflexivity.
  - reflexivity.
  - reflexivity.
  - apply Nat.ltb_lt. vm_compute. reflexivity.
  - unfold Ut.buf0. apply length_replicate.
Defined.

(** ** Runs *)

(** The step of the first process behind init that has one, and [n] such steps. *)
Fixpoint first_step (image : list Z → option program) (l : list nat) (s : os) : option os :=
  match l with
  | [] => None
  | i :: l => match step image i s with Some s' => Some s' | None => first_step image l s end
  end.
Fixpoint run_first (image : list Z → option program) (n : nat) (s : os) : os :=
  match n with
  | O => s
  | S n => match first_step image (seq 1 63) s with Some s' => run_first image n s' | None => s end
  end.

(** What is left of a run from [boot_with luck]: the console, and the number and state of
    the processes still there. *)
Definition outcome (luck : nat → bool) (pr : prog unit) : list Z * list (Z * bool) :=
  let w := o_w (run_first boot_image (60 * 1000) (OS (boot_with luck) (boot_progs pr))) in
  (w_out w, (λ q, (p_id q, p_zombie q)) <$> omap id (w_procs w)).
(** Only init is left, and the test program, which has exited. *)
Definition all_gone : list (Z * bool) := [(1, false); (2, true)].
Definition shows (l : list string) : list Z * list (Z * bool) := (List.concat (ln_ <$> l), all_gone).

(** A test by itself: the test program exits when the test returns. *)
Definition alone_passes (pr : prog unit) (l : list string) : Prop := outcome (λ _, true) (pr;; Exit) = shows l.

(** The de buffer of concreate(), the buffer of the file tests, the array of bsstest(). *)
Definition de0 : list Z := replicate 16 0.
Definition uninit0 : Z := 12000.
Definition tested_image : Ut.image := Ut.Image uninit0 8 (Ust ∅ ∅ 0 40000 40000) (0, 0) de0.

(** The tests with which main() begins and what they show, but for sharedfd(). *)
Definition begin_tests : list (prog unit * list string) :=
  [(Ut.createdelete, ["createdelete test"; "createdelete ok"]%string);
   (Ut.linkunlink, ["linkunlink test"; "linkunlink ok"]%string);
   (Ut.concreate 100 de0, ["concreate test"; "concreate ok"]%string);
   (Ut.fourfiles 100 Ut.buf0;; mret tt, ["fourfiles test"; "fourfiles ok"]%string);
   (Ut.bigargtest, ["bigarg test"; "bigarg test ok"]%string);
   (Ut.bigwrite Ut.buf0, ["bigwrite test"; "bigwrite ok"]%string);
   (Ut.bsstest uninit0, ["bss test"; "bss test ok"]%string);
   (Ut.sbrktest 1000, ["sbrk test"; "sbrk test OK"]%string);
   (Ut.validatetest, ["validate test"; "validate ok"]%string);
   (Ut.opentest, ["open test"; "open test ok"]%string);
   (Ut.writetest Ut.buf0;; mret tt, ["small file test"; "creat small succeeded; ok"; "writes ok"; "open small succeeded ok";
     "read succeeded ok"; "small file test ok"]%string);
   (Ut.writetest1 200 Ut.buf0;; mret tt, ["big files test"; "big files ok"]%string);
   (Ut.createtest, ["many creates, followed by unlink test"; "many creates, followed by unlink; ok"]%string)].
(** What the tests with which main() ends show, the last line by echo. *)
Definition end_lines : list string :=
  ["openiput test"; "openiput test ok"; "exitiput test"; "exitiput test ok"; "iput test"; "iput test ok";
   "mem test"; "mem ok"; "pipe1 ok"; "preempt: kill... wait... preempt ok"; "exitwait ok"; "rmdot test"; "rmdot ok";
   "fourteen test"; "fourteen ok"; "bigfile test"; "bigfile test ok"; "subdir test"; "subdir ok"; "linktest"; "linktest ok";
   "unlinkread test"; "unlinkread ok"; "dir vs file"; "dir vs file OK"; "empty file name"; "empty file name OK";
   "fork test"; "fork test OK"; "bigdir test"; "bigdir ok"; "exec test"; "ALL TESTS PASSED"]%string.

Lemma begin_pass : Forall (λ x, alone_passes x.1 x.2) begin_tests.
Proof. repeat apply Forall_cons_2; [vm_compute; reflexivity..|apply Forall_nil_2]. Qed.
(** Memory runs out once, when mem() makes request number 40. *)
Lemma end_pass : outcome (λ n, negb (n =? 40)%nat) (Ut.main_rest tested_image 3000 Ut.buf0) = shows end_lines.
Proof. vm_compute. reflexivity. Qed.

